(* ===== verification/_CoqProject ===== *)
-Q . S2P
Prelude.v
GoStrings.v
Sha256.v
Redis.v
AdminSession.v
LoginGuard.v
TenantAccess.v
Sessions.v
RateLimit.v
LoginPortal.v
Bootstrap.v
PgTx.v
DaySlots.v
EventSlots.v
OrderApprove.v
ApproveTx.v
Breaker.v
EmbedCache.v
Pii.v
Sha512.v
Dates.v
Billing.v
Payment.v
Float64.v
Costing.v
StockLedger.v
Recurring.v
Triples.v
FinTables.v
FinTxns.v
FinAssets.v
FinPosting.v
Checklist.v
FinLedger.v
FinBooks.v
ChecklistBooks.v
FinSample.v
FinCalls.v
FinLocks.v
FinStaff.v
FinTransfer.v
Zoom.v
Shop.v
OrderStock.v
OrderItems.v
Orders.v
FinRows.v
OrderBooks.v
OrderCalls.v
OrderBatch.v
OrderHistory.v
OrderSample.v
Docs.v
Purchasing.v
DocSteps.v
DocView.v
Receipts.v
ReceiptSteps.v
ReceiptCalls.v
ReceiptHistory.v
DocSample.v
StockOps.v
StockView.v
StockCalls.v
Returns.v
ReturnCalls.v
DocFrames.v
Documents.v
DocumentSample.v
ChatTables.v
Inbound.v
Intake.v
IntakeFrames.v
IntakeSafe.v
IntakeHistory.v
IntakeExact.v
IntakeTaken.v
IntakeSample.v
