(* ===== verification/Prelude.v ===== *)
(** * WABantu API: a verification development

    WABantu is a multi-tenant backend (Go, Encore) for small shops: tenants
    with their own Postgres schema, a system database for accounts, Redis for
    sessions and counters, WhatsApp chat, orders, stock, finance, and events
    with bookable therapy slots.  This library models the parts of it where a
    mistake costs money or access, and proves what they promise.

    ** How the model reads

    A handler is a function from the world it runs in to an answer and the
    world it leaves ([prog], below): what was written before an early return
    stays written.  The world holds the tables or keys the handler touches and
    the outcomes of the coming calls ([fault]): a remote call runs, never runs,
    or runs and loses its reply.  Theorems quantify over these outcomes unless
    they say otherwise.  Handlers that run concurrently against shared state
    (stock marker, bootstrap) are programs as trees of calls, stepped one call
    at a time in any interleaving.  Strings are byte strings, integers are [Z]
    with Go's wrap-around or saturation written out where it can occur, times
    are nanoseconds.  Code outside the repository is a class or an argument:
    JWT (class [JwtLib]), bcrypt ([Bcrypt]), Postgres' array text ([PgArray]),
    the patients' encrypted fields ([PatientFields]), the AES-GCM cipher ([Gcm],
    with what is assumed of it in [GcmLaws]), NUMERIC columns ([Numeric],
    [LayerScale]), the payment gateway's charge call (an argument), Postgres'
    reading of UUID, date and float parameters ([PgInput], [PgInputLaws],
    [DocLaws]), its arithmetic and order of text and Go's order of map keys
    ([OrderInput]), the time zone database ([TimeZones]), the JSON of WhatsApp's
    webhooks ([WebhookJson]), what Postgres accepts as text, UUID and JSON
    ([PgText]) and Unicode's tables ([ChatText]).  The sample files give each of
    these classes a concrete instance.

    ** Files

    - [Prelude]: errors, results, the [prog] monad, shared lemmas and tactics.
    - [GoStrings]: the [strings] functions the code uses; [Sha256]:
      crypto/sha256, executable.
    - [Redis]: keys with expiry and the commands the code issues.  [PgTx]:
      Postgres statements and transactions over any tables ([tx_spec] relates
      a transaction body's tables before and after; [in_tx_spec]: all or
      nothing).
    - [AdminSession]: src/internal/adminauth/session.go, src/shared/types —
      session kinds, portals, which token reaches which endpoint, lifetimes.
    - [LoginGuard]: src/internal/adminauth/guard.go, audit.go — lockout
      counters over the interface [CounterStore], with the Redis store of
      src/auth/login_portal.go as its instance.
    - [TenantAccess]: src/tenantaccess — a platform admin asks for access to a
      tenant, its owner approves, rejects or revokes.
    - [Sessions]: src/auth — session records in Redis, authentication of a
      request, impersonation, login completion, logout.
    - [RateLimit]: src/shared/ratelimit.  [LoginPortal]: the two login portals
      of src/auth/login_portal.go, composed of the guard, the rate limit, the
      portal check and login completion.
    - [Bootstrap]: src/internal/adminauth/bootstrap.go,
      src/auth/platform_bootstrap.go — the first platform admin.
    - [DaySlots], [EventSlots]: src/events — the slots of a day, and booking,
      cancelling, editing and deleting patients and slots.
    - [OrderApprove]: src/internal/orderapprove — the approve decision, the
      transaction protocol, the at-most-once stock deduction.  [ApproveTx]:
      the same transaction on the tenant's tables (src/order/approve.go,
      src/finance/order_income.go).
    - [Breaker]: src/shared/retrieval/circuit_breaker.go, breaker_pool.go —
      circuit breakers per tenant, shared by overlapping requests.
      [EmbedCache]: query_embed_cache.go, caching_embedder.go — the cache of
      query embeddings, with the slices its callers hold.
    - [Pii]: src/shared/crypto, src/shared/pii, and the phone columns of
      src/leads and src/broadcast — encrypted columns and blind indexes.
    - [Sha512] (crypto/sha512, executable), [Dates] (the date formats the code
      prints).
    - [Billing]: src/billing, src/usage, src/shared/entitlement — plans,
      checkouts, activation of paid invoices, usage counters and quotas.
      [Payment]: src/payment — QRIS charges and the gateway's notifications.
    - [Float64]: float64 arithmetic.  [Costing], [StockLedger]: src/inventory —
      cost layers and averages, posting a stock movement, replaying a ledger.
    - [Recurring]: src/finance/recurring.go — the calendar arithmetic and the
      daily job of recurring transactions.
    - [Triples]: pre- and postconditions of programs outside transactions and of
      the bodies of transactions, with or without failing statements.
    - [FinTables] (tables, statements, shared helpers), [FinTxns] (finance.go,
      transaction_types.go), [FinAssets] (investment.go), [FinPosting]
      (order_income.go, inventory_entry.go), [Checklist] (the monthly bills of
      checklist.go, checklist_billing.go, checklist_due.go): the handlers of
      src/finance that write to the ledger, but for recurring rules and receipt
      images.  [FinLedger], [FinBooks], [ChecklistBooks]: the invariant of the
      books and that every handler keeps it.  [FinSample]: a concrete tenant for
      the witnesses.  [FinCalls]: calls as data, histories.  [FinLocks] (period
      locks), [FinStaff] (approval), [FinTransfer] (transfers).
    - [Zoom]: calling a component that lives on a part of the tables; bodies of
      transactions; runs that succeed.
    - [Shop] (the tables that selling touches), [OrderStock] (bundles, stock of
      an order's lines), [OrderItems] (lines of a request: prices, catalog),
      [Orders] (src/order/order.go: create, update, cancel, and the income they
      settle), [OrderBatch] (src/order/order_batch.go and deletion).  [FinRows],
      [OrderBooks]: the invariant of orders and their income; [OrderCalls]: each
      handler keeps it; [OrderHistory]: calls as data, histories, the cost of
      goods; [OrderSample]: a concrete shop for the witnesses.
    - [Docs] (tables and steps that the stock documents of src/inventory share),
      [Purchasing] (purchase orders and bills: purchase_order.go, bill.go and
      their edits), [StockOps] (adjustments, transfers, opening balances,
      revaluations: adjustment.go, stock_transaction.go and their edits),
      [Returns] (sales_return.go and its edits).
      [DocSteps], [DocView]: statements and calls seen through the tables an
      invariant is about.  [Receipts], [ReceiptSteps], [ReceiptCalls]: orders and
      bills stay tied, by every operation; [ReceiptHistory]: over histories.
      [StockView], [StockCalls]: a stock transaction's movements are what it
      says.  [ReturnCalls]: a return's movements are its lines.  [DocFrames]:
      what the documents of one kind leave alone; [Documents]: all three kinds
      together, over histories.  [DocSample], [DocumentSample]: concrete tenants
      for the witnesses.
    - [ChatTables] (the tables of the chat, their statements, and what the
      process remembers of them: src/shared/tenantschema), [Inbound] (parsing,
      signatures and routing of WhatsApp's webhook: src/whatsapp,
      src/tenant/whatsapp_inbound.go, src/webhook/webhook_signature.go),
      [Intake] (a request from its signature to the stored message and its jobs:
      src/webhook/webhook.go, with src/workflow, the capture of src/leads and
      the summary trigger of src/ai/memory.go).  [IntakeFrames]: what each step
      leaves alone; [IntakeSafe]: the chat's invariant, by every step;
      [IntakeHistory]: over histories; [IntakeExact]: which tenants a delivery
      touches; [IntakeTaken]: what taking one message in does; [IntakeSample]:
      two shops for the witnesses.

    A request goes [LoginPortal] (uses [LoginGuard], [RateLimit],
    [AdminSession]) → [Sessions] (asks [TenantAccess] for a live consent when
    impersonating) → a handler ([EventSlots], [ApproveTx], …) that checks the
    user with [AdminSession]'s predicates and writes through a transaction.
    [Payment]'s webhook calls [Billing]'s activation, whose subscriptions and
    top-ups [Billing]'s quota checks read.  Orders and stock documents post
    movements through [StockLedger] and money through [FinPosting]; [Recurring]'s
    job adds its transactions to the same tables.  A customer's message enters
    through [Intake], which finds the tenant with [Inbound], encrypts with [Pii]
    and asks [Billing] whether the tenant's rules may run.

    ** What is proved

    - Access (C1–C5, C10–C18): the two portals never mix; lifetimes are exact
      in spite of saturation; lockout counters lock what they should and a
      single address cannot lock an account; a fail-closed guard admits only
      when every store call succeeded; consent rows move only along the
      allowed state machine and impersonation needs a live consent, at every
      request; a token authenticates only its own account within its lifetime;
      login followed by logout; no account enumeration; one first admin.
    - Approval of orders (C6–C9): stock deducted at most once under any interleaving and
      any failures, retries possible exactly when it was not; the approve
      transaction is atomic and idempotent and honours optimistic locking.
    - Events (C19–C20): the generated slots are exactly the grid outside the
      break (a break that covers the whole day is ignored); over every history
      the confirmed patients of a slot fit its booked count, except after the one
      operation that breaks it ([EventSlots.reconfirmed_seat_not_booked]), and
      its capacity, unless slots are generated again after they were booked; a registration is all or nothing
      ([EventSlots.registration_all_or_nothing]).
    - Retrieval (C21–C22): a breaker refuses exactly after enough failures and
      within the cooldown, and closes completely after it; tenants are isolated until the pool is full
      ([Breaker.full_pool_shares_one_breaker]); the cache answers what was last
      stored, whatever its callers do with their slices.
    - Fields (C23): encrypted columns give back what was written.
    - Money in (C24–C27): usage counters refine the usage log; a forged or
      repeated notification changes nothing and a notification touches only
      its tenant; a top-up is credited once; a settled payment gives the plan,
      except when its invoice was voided in between.
    - Chat (C28–C30): a delivery touches only the tenants its messages are for
      and nothing but routing unless signed by some tenant's channel; over any
      history messages are stored once, in one conversation per channel and
      contact, with exact provenance; a new message is stored, shown and handed
      to a rule or the AI.  A signature by one tenant lets messages for others in
      ([IntakeSample.one_shop_writes_to_another]), and routing can be written by
      anyone ([IntakeSample.unsigned_body_registers_number]).
    - Stock (C31): which cost layers an issue consumes
      ([Costing.consumption_plan]); a recalculation of a ledger reproduces what
      was posted (average method, quantities and prices of four decimals; other
      prices not, [StockLedger.fine_price_not_rebuilt]), but forgets the order of receipts (FIFO, LIFO; [StockLedger.replay_forgets_receipt_order]).
    - Orders (C33–C34): over any history of calls the income booked for an
      order is its paid amount, once, in the wallet it names, and the stock
      marker and cost of goods follow its status.
    - Stock documents (C35–C37): over any history of purchases, stock
      transactions and returns, with any failures, orders have received what was
      billed, and the movements in the ledger are what the documents say.
    - Finance (C32, C38–C40): the daily job posts each due rule once and leaves
      nothing due; over any history every wallet's balance is what its
      transactions add up to; a locked month does not change, but for the calls
      that remove transactions without looking ([FinLocks.unchecking_ignores_lock],
      [FinLocks.order_removal_ignores_lock]); staff cannot move money past
      approval except by settling bills ([FinStaff.clerk_posts_approved_bill]).
      A transfer moves its amount, or creates it when both ids name one wallet
      ([FinTransfer]).

    ** Bounds and fuel

    [DaySlots.buildDaySlots] needs fuel (the loop advances a clock); C19 proves
    that any fuel beyond the number of slots gives the result.
    [EventSlots.slots_fuel] is more than any pair of clock texts can need.
    [StockLedger.applyMovementSnapshots] takes the number of rows it writes in
    chunks of a hundred as fuel (used in C31).  [FinPosting.remove_chunks] takes
    the number of references ([FinBooks.remove_chunks_fuel]: more changes
    nothing).

    ** Not modelled

    HTTP and JSON decoding, sending through WhatsApp and its outbound error log,
    connecting a number (Meta's OAuth), the webhook simulator, what the handlers
    of the published jobs do (most of it depends on what a language model
    answers), payment gateway, object storage
    and language models (services); listings, exports and label formatting
    (reads); schema provisioning (DDL) and one-time backfills; the text
    understanding of the chat flow, which has no specification in the
    repository; invoices, budgets, recurring rules and drafts of receipt images
    as calls on the ledger, staff and masters of events, tenant and branch administration (CRUD around the modelled core). *)
From Stdlib Require Export ZArith Lia Ascii String.
From stdpp Require Export base tactics option list gmap strings pretty.

(** concatenation computes on literals *)
Arguments String.append !_ _ : simpl nomatch.

(** ** Go errors

    The Go [error] interface is modelled by its observable content: the text of
    [errors.New] / [fmt.Errorf] values, the [*errs.Error] values of the API
    layer with their code, the [*orderapprove.Error] values with their kind,
    and [%w] wrapping, which [errors.Is] looks through. *)
Inductive ErrCode : Set :=
  | NotFound | InvalidArgument | PermissionDenied | Unauthenticated
  | Internal | Unavailable | AlreadyExists | FailedPrecondition | Aborted.

#[export] Instance ErrCode_eq_dec : EqDecision ErrCode.
Proof. solve_decision. Defined.

Inductive error : Set :=
  | EText (msg : string)
  | ECode (code : ErrCode) (msg : string)
  | EKind (kind msg : string)
  | EWrap (msg : string) (inner : error).

#[export] Instance error_eq_dec : EqDecision error.
Proof. solve_decision. Defined.

(** the wire names of the API layer's codes (encore.dev/beta/errs) *)
Definition code_text (c : ErrCode) : string :=
  match c with
  | NotFound => "not_found" | InvalidArgument => "invalid_argument"
  | PermissionDenied => "permission_denied" | Unauthenticated => "unauthenticated"
  | Internal => "internal" | Unavailable => "unavailable" | AlreadyExists => "already_exists"
  | FailedPrecondition => "failed_precondition" | Aborted => "aborted"
  end.
(** [err.Error()]; an [*errs.Error] reports its code and message *)
Definition error_text (e : error) : string :=
  match e with
  | EText m | EKind _ m | EWrap m _ => m
  | ECode c m => code_text c ++ ": " ++ m
  end%string.

(** [errors.Is(err, target)]: the chain of [%w] wrappers is searched. *)
Fixpoint errors_Is (err target : error) : bool :=
  bool_decide (err = target) ||
  match err with
  | EWrap _ inner => errors_Is inner target
  | _ => false
  end.

Lemma errors_Is_refl e : errors_Is e e = true.
Proof. destruct e; cbn [errors_Is]; by rewrite bool_decide_eq_true_2. Qed.

(** ** Results and stateful programs

    A handler is a function from the world it runs in to a value or an error
    and the world it leaves behind: the error paths of the Go code are the
    [Err] branches, and what was written before an early return stays written. *)
Inductive result (A : Type) : Type :=
  | Ok (a : A)
  | Err (e : error).
Arguments Ok {A} a.
Arguments Err {A} e.

Definition is_ok {A} (r : result A) : bool :=
  match r with Ok _ => true | Err _ => false end.

Definition prog (W A : Type) : Type := W -> result A * W.

Definition ret {W A} (a : A) : prog W A := fun w => (Ok a, w).
Definition throw {W A} (e : error) : prog W A := fun w => (Err e, w).
Definition bind {W A B} (m : prog W A) (k : A -> prog W B) : prog W B :=
  fun w => match m w with
           | (Ok a, w') => k a w'
           | (Err e, w') => (Err e, w')
           end.
(** [x, err := m] where the code inspects [err] itself. *)
Definition attempt {W A} (m : prog W A) : prog W (result A) :=
  fun w => let '(r, w') := m w in (Ok r, w').
(** a call whose error is dropped ([_ = f()]) *)
Definition ignore {W A} (m : prog W A) : prog W unit :=
  fun w => (Ok tt, snd (m w)).

Declare Scope go_scope.
Delimit Scope go_scope with go.
Notation "'let!' x ':=' m 'in' k" := (bind m (fun x => k))
  (at level 10, x pattern, m at level 100, k at level 200) : go_scope.
Notation "m ';!' k" := (bind m (fun _ => k))
  (at level 199, right associativity) : go_scope.
#[global] Open Scope go_scope.

Lemma bind_ok {W A B} (m : prog W A) (k : A -> prog W B) w a w' :
  m w = (Ok a, w') -> bind m k w = k a w'.
Proof. unfold bind. by intros ->. Qed.

Lemma bind_err {W A B} (m : prog W A) (k : A -> prog W B) w e w' :
  m w = (Err e, w') -> bind m k w = (Err e, w').
Proof. unfold bind. by intros ->. Qed.

Lemma bind_inv {W A B} (m : prog W A) (k : A -> prog W B) w r w' :
  bind m k w = (r, w') ->
  (exists a w1, m w = (Ok a, w1) /\ k a w1 = (r, w')) \/
  (exists e, m w = (Err e, w') /\ r = Err e).
Proof.
  unfold bind. destruct (m w) as [[a|e] w1]; intros H.
  - left. eauto.
  - right. injection H as <- <-. eauto.
Qed.

Lemma bind_ret_l {W A B} (a : A) (k : A -> prog W B) w : bind (ret a) k w = k a w.
Proof. reflexivity. Qed.

Lemma bind_assoc {W A B C} (m : prog W A) (k : A -> prog W B) (h : B -> prog W C) w :
  bind (bind m k) h w = bind m (fun a => bind (k a) h) w.
Proof. unfold bind. by destruct (m w) as [[a|e] w1]. Qed.

(** How a call to a remote store can go: it runs, it never runs, or it runs and
    its reply is lost. *)
Inductive fault : Set := Fine | FailBefore | FailAfter.

(** [preserves P m]: whatever [m] returns, the world keeps [P]. *)
Definition preserves {W A} (P : W -> Prop) (m : prog W A) : Prop :=
  forall w, P w -> P (snd (m w)).

Lemma preserves_ret {W A} (P : W -> Prop) (a : A) : preserves P (ret (W:=W) a).
Proof. by intros w. Qed.
Lemma preserves_throw {W A} (P : W -> Prop) e : preserves P (throw (W:=W) (A:=A) e).
Proof. by intros w. Qed.
Lemma preserves_bind {W A B} (P : W -> Prop) (m : prog W A) (k : A -> prog W B) :
  preserves P m -> (forall a, preserves P (k a)) -> preserves P (bind m k).
Proof.
  intros Hm Hk w Hw. unfold bind. specialize (Hm w Hw).
  destruct (m w) as [[a|e] w1]; cbn in *; [by apply Hk | done].
Qed.
Lemma preserves_if {W A} (P : W -> Prop) (b : bool) (m1 m2 : prog W A) :
  preserves P m1 -> preserves P m2 -> preserves P (if b then m1 else m2).
Proof. by destruct b. Qed.
Lemma preserves_attempt {W A} (P : W -> Prop) (m : prog W A) :
  preserves P m -> preserves P (attempt m).
Proof.
  intros Hm w Hw. unfold attempt. specialize (Hm w Hw). by destruct (m w).
Qed.
Lemma preserves_ignore {W A} (P : W -> Prop) (m : prog W A) :
  preserves P m -> preserves P (ignore m).
Proof. intros Hm w Hw. by apply Hm. Qed.

(** ** Lists *)
Lemma existsb_filter {A} (f : A -> bool) l : existsb f l = negb (Nat.eqb (length (List.filter f l)) 0).
Proof. induction l as [|x l IH]; [done|]. cbn. destruct (f x); [done|]. cbn. apply IH. Qed.
Lemma existsb_false_filter {A} (f : A -> bool) l : existsb f l = false -> List.filter f l = [].
Proof.
  rewrite existsb_filter. intros H. apply nil_length_inv. by destruct (length (List.filter f l)).
Qed.
Lemma filter_elem {A} (f : A -> bool) l x : x ∈ List.filter f l <-> x ∈ l /\ f x = true.
Proof. rewrite !list_elem_of_In. apply List.filter_In. Qed.

Create HintDb prog.
#[export] Hint Resolve preserves_ret preserves_throw preserves_bind
  preserves_if preserves_attempt preserves_ignore : prog.

(** Case analysis on the scrutinee of the first match found in a hypothesis or
    the goal, keeping the equation. *)
Ltac case_on H :=
  match type of H with
  | context [match ?x with _ => _ end] => destruct x eqn:?
  end.
Ltac case_goal :=
  match goal with
  | |- context [match ?x with _ => _ end] => destruct x eqn:?
  end.
(** Run a definition to its outcome: split every match, simplify equations. *)
Ltac run_cases H := repeat (case_on H; simplify_eq/=).

(** Boolean facts of the code's guards as propositions. *)
Ltac bool_facts :=
  repeat match goal with
  | H : _ && _ = true |- _ => apply andb_true_iff in H; destruct H
  | H : _ || _ = false |- _ => apply orb_false_iff in H; destruct H
  | H : negb _ = true |- _ => apply negb_true_iff in H
  | H : negb _ = false |- _ => apply negb_false_iff in H
  | H : bool_decide _ = true |- _ => apply bool_decide_eq_true_1 in H
  | H : bool_decide _ = false |- _ => apply bool_decide_eq_false_1 in H
  | H : (_ <? _)%Z = true |- _ => apply Z.ltb_lt in H
  | H : (_ <? _)%Z = false |- _ => apply Z.ltb_ge in H
  | H : (_ <=? _)%Z = true |- _ => apply Z.leb_le in H
  | H : (_ <=? _)%Z = false |- _ => apply Z.leb_gt in H
  | H : (_ =? _)%Z = true |- _ => apply Z.eqb_eq in H
  | H : (_ =? _)%Z = false |- _ => apply Z.eqb_neq in H
  | H : String.eqb _ _ = true |- _ => apply String.eqb_eq in H
  | H : String.eqb _ _ = false |- _ => apply String.eqb_neq in H
  end.
