(* ===== verification/GoStrings.v ===== *)
(** * Go strings

    Go strings are byte strings; they are modelled by [string], one [ascii] per
    byte.  This file holds the functions of Go's [strings] package the program
    uses, on bytes, and the lemmas about them that the components share. *)
From S2P Require Import Prelude.

Open Scope string_scope.

Definition byte (n : N) : ascii := ascii_of_N n.
Definition code (c : ascii) : N := N_of_ascii c.
Definition bytes (l : list N) : string := string_of_list_ascii (map byte l).

Fixpoint rev_string_app (s acc : string) : string :=
  match s with
  | EmptyString => acc
  | String c r => rev_string_app r (String c acc)
  end.
Definition rev_string (s : string) : string := rev_string_app s "".
Arguments rev_string : simpl never.

(** [strip_prefix p s] is what follows [p] in [s], when [s] starts with [p]. *)
Fixpoint strip_prefix (p s : string) : option string :=
  match p, s with
  | EmptyString, _ => Some s
  | String a p', String b s' => if Ascii.eqb a b then strip_prefix p' s' else None
  | String _ _, EmptyString => None
  end.

(** ** [strings.HasPrefix], [HasSuffix], [TrimPrefix], [TrimSuffix], [Contains] *)
Definition HasPrefix (s p : string) : bool := bool_decide (is_Some (strip_prefix p s)).
Definition TrimPrefix (s p : string) : string := default s (strip_prefix p s).
Definition strip_suffix (p s : string) : option string :=
  rev_string <$> strip_prefix (rev_string p) (rev_string s).
Definition TrimSuffix (s p : string) : string := default s (strip_suffix p s).
Fixpoint Contains (s sub : string) : bool :=
  HasPrefix s sub ||
  match s with
  | EmptyString => false
  | String _ r => Contains r sub
  end.

(** ** [strings.TrimSpace]

    White space is the set [unicode.IsSpace] accepts, given by its UTF-8
    encodings: the six ASCII blanks, U+0085, U+00A0, U+1680, U+2000-U+200A,
    U+2028, U+2029, U+202F, U+205F and U+3000. *)
Definition space_runes : list string :=
  map (fun n => bytes [n]) [9; 10; 11; 12; 13; 32]%N ++
  map bytes ([[0xC2; 0x85]; [0xC2; 0xA0]; [0xE1; 0x9A; 0x80];
              [0xE2; 0x80; 0xA8]; [0xE2; 0x80; 0xA9]; [0xE2; 0x80; 0xAF];
              [0xE2; 0x81; 0x9F]; [0xE3; 0x80; 0x80]]%N ++
             map (fun k => [0xE2; 0x80; 0x80 + N.of_nat k]%N) (seq 0 11)).

(** The rest of [s] after one leading element of [runes]. *)
Fixpoint strip_rune (runes : list string) (s : string) : option string :=
  match runes with
  | [] => None
  | r :: rs =>
      match strip_prefix r s with
      | Some rest => Some rest
      | None => strip_rune rs s
      end
  end.

(** Strips leading elements of [runes]; every rune has at least one byte, so
    [String.length s] rounds are enough. *)
Fixpoint trim_left (fuel : nat) (runes : list string) (s : string) : string :=
  match fuel with
  | O => s
  | S fuel' =>
      match strip_rune runes s with
      | Some rest => trim_left fuel' runes rest
      | None => s
      end
  end.
Definition trim_runes (runes : list string) (s : string) : string :=
  let l := trim_left (String.length s) runes s in
  rev_string (trim_left (String.length l) (map rev_string runes) (rev_string l)).
Definition TrimSpace (s : string) : string := trim_runes space_runes s.
(** [strings.Trim(s, cutset)] for an ASCII cutset *)
Definition Trim (s cutset : string) : string :=
  trim_runes (map (fun c => String c "") (list_ascii_of_string cutset)) s.

(** ** [strings.ToLower] and [strings.ToUpper]

    Exact on ASCII, and on the two code points outside ASCII whose lower case
    is ASCII (U+0130, U+212A) and the two whose upper case is (U+0131, U+017F).
    Other runes are left as they are: their image is never ASCII, so every
    comparison with an ASCII literal, which is all the program does with the
    result, agrees with Go's. *)
Definition lower_byte (c : ascii) : ascii :=
  if (65 <=? code c)%N && (code c <=? 90)%N then byte (code c + 32) else c.
Definition upper_byte (c : ascii) : ascii :=
  if (97 <=? code c)%N && (code c <=? 122)%N then byte (code c - 32) else c.
Fixpoint ToLower (s : string) : string :=
  match s with
  | EmptyString => ""
  | String c r =>
      match r with
      | String c2 r2 =>
          if (code c =? 0xC4)%N && (code c2 =? 0xB0)%N then String "i" (ToLower r2)
          else match r2 with
               | String c3 r3 =>
                   if (code c =? 0xE2)%N && (code c2 =? 0x84)%N && (code c3 =? 0xAA)%N
                   then String "k" (ToLower r3)
                   else String (lower_byte c) (ToLower r)
               | EmptyString => String (lower_byte c) (ToLower r)
               end
      | EmptyString => String (lower_byte c) (ToLower r)
      end
  end.
Fixpoint ToUpper (s : string) : string :=
  match s with
  | EmptyString => ""
  | String c r =>
      match r with
      | String c2 r2 =>
          if (code c =? 0xC4)%N && (code c2 =? 0xB1)%N then String "I" (ToUpper r2)
          else if (code c =? 0xC5)%N && (code c2 =? 0xBF)%N then String "S" (ToUpper r2)
          else String (upper_byte c) (ToUpper r)
      | EmptyString => String (upper_byte c) (ToUpper r)
      end
  end.

(** ** Joining, splitting and replacing *)
Fixpoint Join (l : list string) (sep : string) : string :=
  match l with
  | [] => ""
  | [x] => x
  | x :: xs => x ++ sep ++ Join xs sep
  end.
(** [strings.Split(s, sep)] for a one-byte separator *)
Fixpoint split_on (sep : ascii) (s cur : string) : list string :=
  match s with
  | EmptyString => [rev_string cur]
  | String c r =>
      if Ascii.eqb c sep then rev_string cur :: split_on sep r ""
      else split_on sep r (String c cur)
  end.
Definition Split (s : string) (sep : ascii) : list string := split_on sep s "".
(** [strings.ReplaceAll(s, old, new)] for a one-byte [old] *)
Fixpoint ReplaceAll (s : string) (old : ascii) (new : string) : string :=
  match s with
  | EmptyString => ""
  | String c r => (if Ascii.eqb c old then new else String c "") ++ ReplaceAll r old new
  end.

(** [s[:n]] and [s[n:]] *)
Fixpoint take_bytes (n : nat) (s : string) : string :=
  match n, s with
  | S n', String c r => String c (take_bytes n' r)
  | _, _ => ""
  end.
Fixpoint drop_bytes (n : nat) (s : string) : string :=
  match n, s with
  | S n', String _ r => drop_bytes n' r
  | _, _ => s
  end.

(** Go's [<] on strings is byte-wise lexicographic order. *)
Fixpoint string_ltb (a b : string) : bool :=
  match a, b with
  | EmptyString, String _ _ => true
  | _, EmptyString => false
  | String x a', String y b' =>
      (code x <? code y)%N || ((code x =? code y)%N && string_ltb a' b')
  end.

Fixpoint has_char (c : ascii) (s : string) : bool :=
  match s with
  | "" => false
  | String d s' => Ascii.eqb c d || has_char c s'
  end.

(** ** Examples *)
Example TrimSpace_ex : TrimSpace ("  " ++ bytes [0xC2; 0xA0]%N ++ " a b " ++ bytes [0xE2; 0x80; 0x83]%N) = "a b".
Proof. reflexivity. Qed.
Example ToLower_ex : ToLower "Ab-Z9" = "ab-z9" /\ ToLower (bytes [0xE2; 0x84; 0xAA]%N) = "k".
Proof. split; reflexivity. Qed.
Example Split_ex : Split "a,b,,c" "," = ["a"; "b"; ""; "c"].
Proof. reflexivity. Qed.
Example Contains_ex : Contains "status 429 too many" "429" = true /\ Contains "42" "429" = false.
Proof. split; reflexivity. Qed.

(** ** Lemmas *)
Lemma string_app_inj_l (s a b : string) : s ++ a = s ++ b -> a = b.
Proof. induction s as [|c s IH]; cbn; [done|]. intros [=]. auto. Qed.

Lemma string_length_app (a b : string) :
  String.length (a ++ b) = (String.length a + String.length b)%nat.
Proof. induction a as [|c a IH]; [done|]. cbn. by rewrite IH. Qed.

Lemma string_app_inj_r (s a b : string) : a ++ s = b ++ s -> a = b.
Proof.
  revert b. induction a as [|c a IH]; intros [|d b]; cbn; [done| | |].
  - intros E. apply (f_equal String.length) in E. cbn in E. rewrite string_length_app in E; cbn in E; lia.
  - intros E. apply (f_equal String.length) in E. cbn in E. rewrite string_length_app in E; cbn in E; lia.
  - intros [= -> E]. f_equal. auto.
Qed.

Lemma colon_split (c : ascii) a a' s s' :
  has_char c a = false -> has_char c a' = false ->
  a ++ String c s = a' ++ String c s' -> a = a' /\ s = s'.
Proof.
  revert a'. induction a as [|x a IH]; intros [|y a']; cbn; intros Ha Ha' E.
  - by injection E.
  - injection E as -> _. rewrite Ascii.eqb_refl in Ha'. done.
  - injection E as <- _. rewrite Ascii.eqb_refl in Ha. done.
  - injection E as -> E. apply orb_false_iff in Ha as [_ Ha], Ha' as [_ Ha'].
    destruct (IH a' Ha Ha' E) as [-> ->]. done.
Qed.

Lemma string_app_nil_r (s : string) : s ++ "" = s.
Proof. induction s as [|c s IH]; [done|]. cbn. by rewrite IH. Qed.
Lemma string_app_assoc (a b c : string) : a ++ b ++ c = (a ++ b) ++ c.
Proof. induction a as [|x a IH]; [done|]. cbn. by rewrite IH. Qed.

Lemma rev_string_app_spec s acc : rev_string_app s acc = rev_string s ++ acc.
Proof.
  revert acc. induction s as [|c s IH]; intros acc; [done|].
  unfold rev_string. cbn. rewrite !(IH (String c _)), <- string_app_assoc. done.
Qed.
Lemma string_app_cons c a b : String c a ++ b = String c (a ++ b).
Proof. reflexivity. Qed.
Lemma rev_string_cons c s : rev_string (String c s) = rev_string s ++ String c "".
Proof. unfold rev_string at 1. cbn. apply rev_string_app_spec. Qed.
Lemma rev_string_concat a b : rev_string (a ++ b) = rev_string b ++ rev_string a.
Proof.
  induction a as [|c a IH]; [by rewrite string_app_nil_r|].
  by rewrite string_app_cons, !rev_string_cons, IH, string_app_assoc.
Qed.
Lemma rev_string_involutive s : rev_string (rev_string s) = s.
Proof. induction s as [|c s IH]; [done|]. rewrite rev_string_cons, rev_string_concat, IH. done. Qed.

Lemma strip_prefix_app p s : strip_prefix p (p ++ s) = Some s.
Proof. induction p as [|c p IH]; [done|]. cbn. by rewrite Ascii.eqb_refl. Qed.
Lemma strip_prefix_Some p s r : strip_prefix p s = Some r -> s = p ++ r.
Proof.
  revert s. induction p as [|c p IH]; intros [|d s]; cbn; try done; [by intros [= ->]..|].
  destruct (Ascii.eqb_spec c d) as [->|]; [|done]. intros H%IH. by subst.
Qed.
Lemma TrimPrefix_app p s : TrimPrefix (p ++ s) p = s.
Proof. unfold TrimPrefix. by rewrite strip_prefix_app. Qed.
Lemma TrimSuffix_app p s : TrimSuffix (s ++ p) p = s.
Proof.
  unfold TrimSuffix, strip_suffix. rewrite rev_string_concat, strip_prefix_app. cbn.
  apply rev_string_involutive.
Qed.
Lemma HasPrefix_app s p : HasPrefix s p = true <-> exists r, s = p ++ r.
Proof.
  unfold HasPrefix. rewrite bool_decide_eq_true. split.
  - intros [r Hr]. exists r. by apply strip_prefix_Some.
  - intros [r ->]. rewrite strip_prefix_app. by eexists.
Qed.

(** [trim_runes] leaves a string alone when no rune of the set can start at its
    first byte or end at its last one. *)
Definition starts_no_rune (runes : list string) (s : string) : bool :=
  match s with
  | "" => true
  | String c _ =>
      forallb (fun r => match r with "" => false | String d _ => negb (Ascii.eqb d c) end) runes
  end.

Lemma strip_rune_none runes c s :
  starts_no_rune runes (String c s) = true -> strip_rune runes (String c s) = None.
Proof.
  unfold starts_no_rune. induction runes as [|r runes IH]; cbn; [done|].
  intros [Hr Hall]%andb_true_iff. destruct r as [|d r]; [done|]. cbn.
  apply negb_true_iff in Hr. rewrite Hr. auto.
Qed.

Lemma trim_left_id fuel runes s : starts_no_rune runes s = true -> trim_left fuel runes s = s.
Proof.
  destruct fuel as [|fuel]; [done|]. destruct s as [|c s]; cbn [trim_left].
  - intros _. assert (forall runes, strip_rune runes "" = None \/ strip_rune runes "" = Some "") as H.
    { clear. induction runes as [|[|d r] runes IH]; cbn; auto. }
    destruct (H runes) as [-> | ->]; [done|]. clear. induction fuel as [|fuel IH]; cbn; [done|].
    assert (forall runes, strip_rune runes "" = None \/ strip_rune runes "" = Some "") as H.
    { clear. induction runes as [|[|d r] runes IH]; cbn; auto. }
    by destruct (H runes) as [-> | ->].
  - intros H. by rewrite (strip_rune_none runes c s H).
Qed.

Lemma trim_runes_id runes s :
  starts_no_rune runes s = true -> starts_no_rune (map rev_string runes) (rev_string s) = true ->
  trim_runes runes s = s.
Proof.
  intros Hl Hr. unfold trim_runes. rewrite (trim_left_id _ runes s Hl).
  rewrite trim_left_id by done. apply rev_string_involutive.
Qed.

Lemma split_on_word sep w cur rest :
  has_char sep w = false ->
  split_on sep (w ++ String sep rest) cur = (rev_string cur ++ w) :: split_on sep rest "" /\
  split_on sep w cur = [rev_string cur ++ w].
Proof.
  revert cur. induction w as [|c w IH]; intros cur Hw; cbn in *.
  - rewrite Ascii.eqb_refl, string_app_nil_r. done.
  - apply orb_false_iff in Hw as [Hc Hw].
    assert (Ascii.eqb c sep = false) as -> by (by rewrite Ascii.eqb_sym).
    destruct (IH (String c cur) Hw) as [-> ->].
    rewrite rev_string_cons, <- string_app_assoc. done.
Qed.

Lemma Split_Join sep l :
  Forall (fun w => has_char sep w = false) l -> l <> [] -> Split (Join l (String sep "")) sep = l.
Proof.
  intros Hall. unfold Split. induction Hall as [|w l Hw Hall IH]; [done|]. intros _.
  destruct l as [|w' l].
  - cbn [Join]. by destruct (split_on_word sep w "" "" Hw) as [_ ->].
  - change (Join (w :: w' :: l) (String sep "")) with (w ++ String sep (Join (w' :: l) (String sep ""))).
    destruct (split_on_word sep w "" (Join (w' :: l) (String sep "")) Hw) as [-> _].
    by rewrite IH.
Qed.
