(* ===== verification/Sha256.v ===== *)
(** * SHA-256

    Go's [crypto/sha256] as FIPS 180-4 defines it, executable, and
    [encoding/hex].  The account keys of the login guard and the bootstrap
    secret comparison are built on it. *)
From S2P Require Import Prelude GoStrings.

Open Scope string_scope.
Open Scope Z_scope.

Definition w32 (x : Z) : Z := Z.land x 0xffffffff.
Definition rotr (n x : Z) : Z := w32 (Z.lor (Z.shiftr x n) (Z.shiftl x (32 - n))).
Definition add32 (x y : Z) : Z := w32 (x + y).

Definition big_sigma0 (x : Z) : Z := Z.lxor (rotr 2 x) (Z.lxor (rotr 13 x) (rotr 22 x)).
Definition big_sigma1 (x : Z) : Z := Z.lxor (rotr 6 x) (Z.lxor (rotr 11 x) (rotr 25 x)).
Definition small_sigma0 (x : Z) : Z := Z.lxor (rotr 7 x) (Z.lxor (rotr 18 x) (Z.shiftr x 3)).
Definition small_sigma1 (x : Z) : Z := Z.lxor (rotr 17 x) (Z.lxor (rotr 19 x) (Z.shiftr x 10)).
Definition choose32 (x y z : Z) : Z := Z.lxor (Z.land x y) (Z.land (Z.lxor x 0xffffffff) z).
Definition majority (x y z : Z) : Z := Z.lxor (Z.land x y) (Z.lxor (Z.land x z) (Z.land y z)).

(** The constants are the first 32 bits of the fractional parts of the square
    roots (initial state, 8 primes) and cube roots (rounds, 64 primes). *)
Definition is_prime (n : nat) : bool :=
  forallb (fun d => negb (Nat.modulo n d =? 0)%nat) (seq 2 (n - 2)).
Definition primes : list Z :=
  Eval vm_compute in map Z.of_nat (List.filter is_prime (seq 2 310)).
(** the largest [r < lo + 2^bits] with [r^3 <= n], from [lo^3 <= n] *)
Fixpoint cube_root (bits : nat) (lo n : Z) : Z :=
  match bits with
  | O => lo
  | S b => let mid := lo + 2 ^ Z.of_nat b in
           cube_root b (if mid ^ 3 <=? n then mid else lo) n
  end.
Definition round_constants : list Z :=
  Eval vm_compute in map (fun p => w32 (cube_root 36 0 (p * 2 ^ 96))) (firstn 64 primes).
Definition initial_hash : list Z :=
  Eval vm_compute in map (fun p => w32 (Z.sqrt (p * 2 ^ 64))) (firstn 8 primes).

(** The message schedule, newest word first: [W_t] from [W_{t-2}], [W_{t-7}],
    [W_{t-15}], [W_{t-16}]. *)
Fixpoint schedule (n : nat) (rev_w : list Z) : list Z :=
  match n with
  | O => rev_w
  | S n' =>
      let w i := nth i rev_w 0 in
      schedule n'
        (add32 (add32 (small_sigma1 (w 1%nat)) (w 6%nat))
               (add32 (small_sigma0 (w 14%nat)) (w 15%nat)) :: rev_w)
  end.

Definition sha_round (st : list Z) (kw : Z * Z) : list Z :=
  match st with
  | [a; b; c; d; e; f; g; h] =>
      let t1 := add32 (add32 (add32 h (big_sigma1 e)) (add32 (choose32 e f g) kw.1)) kw.2 in
      let t2 := add32 (big_sigma0 a) (majority a b c) in
      [add32 t1 t2; a; b; c; add32 d t1; e; f; g]
  | _ => st
  end.

Definition compress (st block : list Z) : list Z :=
  let w := rev (schedule 48 (rev block)) in
  zip_with add32 st (fold_left sha_round (zip round_constants w) st).

(** big-endian words of a byte list *)
Fixpoint be_words (l : list Z) : list Z :=
  match l with
  | a :: b :: c :: d :: l' => (a * 0x1000000 + b * 0x10000 + c * 0x100 + d) :: be_words l'
  | _ => []
  end.
Definition be_bytes (n : nat) (x : Z) : list Z :=
  map (fun i => Z.land (Z.shiftr x (8 * Z.of_nat i)) 255) (rev (seq 0 n)).

Definition sha_pad (m : list Z) : list Z :=
  let len := Z.of_nat (length m) in
  m ++ [128] ++ repeat 0 (Z.to_nat ((55 - len) mod 64)) ++ be_bytes 8 (8 * len).

Fixpoint sha_blocks (fuel : nat) (st words : list Z) : list Z :=
  match fuel with
  | O => st
  | S fuel' =>
      match words with
      | [] => st
      | _ => sha_blocks fuel' (compress st (firstn 16 words)) (skipn 16 words)
      end
  end.

Definition string_bytes (s : string) : list Z :=
  map (fun c => Z.of_N (N_of_ascii c)) (list_ascii_of_string s).

(** [sha256.Sum256] as a list of 32 bytes *)
Definition Sum256 (s : string) : list Z :=
  let words := be_words (sha_pad (string_bytes s)) in
  flat_map (be_bytes 4) (sha_blocks (length words) initial_hash words).

(** [hex.EncodeToString] *)
Definition hex_digit (d : Z) : ascii :=
  ascii_of_N (Z.to_N (if d <? 10 then 48 + d else 87 + d)).
Fixpoint hex_encode (l : list Z) : string :=
  match l with
  | [] => ""
  | b :: l' => String (hex_digit (Z.land (Z.shiftr b 4) 15))
                 (String (hex_digit (Z.land b 15)) (hex_encode l'))
  end.

Example Sum256_abc :
  hex_encode (Sum256 "abc") = "ba7816bf8f01cfea414140de5dae2223b00361a396177a9cb410ff61f20015ad".
Proof. vm_compute. reflexivity. Qed.
Example Sum256_two_blocks :
  hex_encode (Sum256 "abcdbcdecdefdefgefghfghighijhijkijkljklmklmnlmnomnopnopq")
  = "248d6a61d20638b8e5c026930c3e6039a33ce45964ff2167f6ecedd419db06c1".
Proof. vm_compute. reflexivity. Qed.

Lemma hex_encode_no_colon l : has_char ":"%char (hex_encode l) = false.
Proof.
  assert (forall d, 0 <= d < 16 -> Ascii.eqb ":"%char (hex_digit d) = false) as Hd.
  { intros d Hd.
    assert (forallb (fun i => negb (Ascii.eqb ":"%char (hex_digit (Z.of_nat i)))) (seq 0 16) = true)
      as Hall by reflexivity.
    rewrite forallb_forall in Hall. specialize (Hall (Z.to_nat d)).
    rewrite Z2Nat.id in Hall by lia. apply negb_true_iff, Hall, in_seq. lia. }
  assert (forall x, 0 <= Z.land x 15 < 16) as Hl.
  { intros x. change 15 with (Z.ones 4). rewrite Z.land_ones by lia.
    apply Z.mod_pos_bound. lia. }
  induction l as [|b l IH]; [done|]. cbn [hex_encode has_char].
  by rewrite !Hd, IH by apply Hl.
Qed.
