(* ===== verification/Redis.v ===== *)
(** * Redis, as the session store and the login guard use it

    Keys with optional absolute expiry, the commands the code issues, and the
    ways a command can fail: [FailBefore] (the command never ran) and
    [FailAfter] (it ran, its reply was lost).  [r_faults] gives the outcome of
    the coming commands, all [Fine] when it is empty; a nil client is
    [r_client = false].  Values are typed by the caller: counters for the login
    guard, session records for the session store. *)
From S2P Require Import Prelude GoStrings.

Open Scope string_scope.
Open Scope Z_scope.

Record redis (V : Type) := {
  r_data : gmap string (V * option Z);
  r_now : Z;
  r_faults : list fault;
  r_client : bool
}.
Arguments r_data {V} r.
Arguments r_now {V} r.
Arguments r_faults {V} r.
Arguments r_client {V} r.
Arguments Build_redis {V} r_data r_now r_faults r_client.

Definition redis_error : error := EText "redis: i/o error".

Section commands.
Context {V : Type}.
Implicit Types (r : redis V) (k : string).

Definition set_data r d : redis V := Build_redis d (r_now r) (r_faults r) (r_client r).
(** time passes *)
Definition at_time (t : Z) r : redis V := Build_redis (r_data r) t (r_faults r) (r_client r).

Definition expired (now : Z) (e : option Z) : bool :=
  match e with None => false | Some x => x <=? now end.
(** what a client sees under a key: expired entries are gone *)
Definition rlookup r k : option (V * option Z) :=
  match r_data r !! k with
  | Some (v, e) => if expired (r_now r) e then None else Some (v, e)
  | None => None
  end.
Definition rvalue r k : option V := fst <$> rlookup r k.

(** [run f]: one round trip to the server. *)
Definition run {A} (f : redis V -> A * redis V) : prog (redis V) A := fun r =>
  let rest := Build_redis (r_data r) (r_now r) (tail (r_faults r)) (r_client r) in
  match head (r_faults r) with
  | None | Some Fine => let '(a, r') := f rest in (Ok a, r')
  | Some FailBefore => (Err redis_error, rest)
  | Some FailAfter => (Err redis_error, snd (f rest))
  end.

Definition cmd_get k : prog (redis V) (option V) := run (fun r => (rvalue r k, r)).
Definition cmd_exists k : prog (redis V) bool :=
  run (fun r => (bool_decide (is_Some (rlookup r k)), r)).
(** SET with go-redis' [expiration]: 0 means none *)
Definition cmd_set k (v : V) (ttl : Z) : prog (redis V) unit :=
  run (fun r => (tt, set_data r (<[ k := (v, if 0 <? ttl then Some (r_now r + ttl) else None) ]> (r_data r)))).
Definition cmd_del k : prog (redis V) unit :=
  run (fun r => (tt, set_data r (delete k (r_data r)))).
(** TTL: the remaining time in whole seconds (milliseconds rounded to the
    nearest second), or a negative number when the key has no expiry (-1) or
    does not exist (-2) *)
Definition ttl_seconds (remaining : Z) : Z := (remaining / 1000000 + 500) / 1000 * 1000000000.
Definition cmd_ttl k : prog (redis V) Z :=
  run (fun r => (match rlookup r k with
                 | None => -2
                 | Some (_, None) => -1
                 | Some (_, Some x) => ttl_seconds (x - r_now r)
                 end, r)).
(** EXPIRE: a key that does not exist is left alone *)
Definition cmd_expire k (ttl : Z) : prog (redis V) unit :=
  run (fun r => (tt, match rlookup r k with
                     | None => r
                     | Some (v, _) => set_data r (<[ k := (v, Some (r_now r + ttl)) ]> (r_data r))
                     end)).
End commands.

(** MULTI; INCR k; EXPIRE k ttl NX; EXEC on a counter *)
Definition incr_expire_nx (k : string) (ttl : Z) (r : redis Z) : Z * redis Z :=
  let '(n, e) := match rlookup r k with Some ne => ne | None => (0, None) end in
  let e' := match e with Some x => Some x | None => Some (r_now r + ttl) end in
  (n + 1, set_data r (<[ k := (n + 1, e') ]> (r_data r))).
Definition cmd_incr_expire_nx (k : string) (ttl : Z) : prog (redis Z) Z :=
  run (incr_expire_nx k ttl).

(** ** Lemmas *)
Definition healthy {V} (r : redis V) : Prop := r_faults r = [] /\ r_client r = true.

Lemma run_healthy {V A} (f : redis V -> A * redis V) r :
  healthy r -> run f r = (Ok (fst (f r)), snd (f r)).
Proof.
  intros [Hf Hc]. unfold run. rewrite Hf. cbn.
  assert (Build_redis (r_data r) (r_now r) [] (r_client r) = r) as ->
    by (destruct r; cbn in *; by subst).
  by destruct (f r).
Qed.

Lemma rlookup_insert {V} (r : redis V) k v e :
  expired (r_now r) e = false ->
  rlookup (set_data r (<[ k := (v, e) ]> (r_data r))) k = Some (v, e).
Proof. intros He. unfold rlookup. cbn. by rewrite lookup_insert_eq, He. Qed.

Lemma rlookup_insert_ne {V} (r : redis V) k k' ve :
  k <> k' -> rlookup (set_data r (<[ k := ve ]> (r_data r))) k' = rlookup r k'.
Proof. intros Hk. unfold rlookup. cbn. by rewrite lookup_insert_ne. Qed.

Lemma rlookup_delete {V} (r : redis V) k :
  rlookup (set_data r (delete k (r_data r))) k = None.
Proof. unfold rlookup. cbn. by rewrite lookup_delete_eq. Qed.

Lemma rlookup_delete_ne {V} (r : redis V) k k' :
  k <> k' -> rlookup (set_data r (delete k (r_data r))) k' = rlookup r k'.
Proof. intros Hk. unfold rlookup. cbn. by rewrite lookup_delete_ne. Qed.

Lemma rlookup_live {V} (r : redis V) k v e :
  rlookup r k = Some (v, e) -> r_data r !! k = Some (v, e) /\ expired (r_now r) e = false.
Proof.
  unfold rlookup. destruct (r_data r !! k) as [[v' e']|]; [|done].
  destruct (expired _ e') eqn:E; [done|]. intros [= -> ->]. done.
Qed.

Lemma cmd_set_healthy {V} k (v : V) ttl r :
  healthy r ->
  cmd_set k v ttl r
  = (Ok tt, set_data r (<[ k := (v, if 0 <? ttl then Some (r_now r + ttl) else None) ]> (r_data r))).
Proof. intros Hh. unfold cmd_set. by rewrite run_healthy. Qed.

Lemma cmd_exists_healthy {V} k (r : redis V) :
  healthy r -> cmd_exists k r = (Ok (bool_decide (is_Some (rlookup r k))), r).
Proof. intros Hh. unfold cmd_exists. by rewrite run_healthy. Qed.

Lemma cmd_get_healthy {V} k (r : redis V) : healthy r -> cmd_get k r = (Ok (rvalue r k), r).
Proof. intros Hh. unfold cmd_get. by rewrite run_healthy. Qed.
