(* ===== verification/AdminSession.v ===== *)
(** * Session kinds, portals and endpoint access

    Models [internal/adminauth/session.go] (portal separation, session kinds,
    lifetimes, endpoint access) and [shared/types/auth.go], [modules.go] (what
    an authenticated user may do).  Times are nanoseconds since Go's zero time;
    durations are nanoseconds, with [time.Time.Sub] saturating at the [int64]
    bounds as in Go. *)
From S2P Require Import Prelude GoStrings.

Open Scope string_scope.
Open Scope Z_scope.

(** ** [time] *)
Definition Second : Z := 1000000000.
Definition Minute : Z := 60 * Second.
Definition Hour : Z := 60 * Minute.
Definition max_duration : Z := 2 ^ 63 - 1.
Definition min_duration : Z := - 2 ^ 63.
Definition Sub (t u : Z) : Z := Z.max min_duration (Z.min max_duration (t - u)).
Definition IsZero (t : Z) : bool := t =? 0.
(** seconds from the zero time (year 1) to the Unix epoch *)
Definition unix_epoch : Z := 62135596800.
Definition time_Unix (sec : Z) : Z := (sec + unix_epoch) * Second.
Definition to_Unix (t : Z) : Z := t / Second - unix_epoch.

(** ** Constants *)
Definition KindClient : string := "client".
Definition KindAdmin : string := "admin".
Definition KindImpersonation : string := "impersonation".
Definition ClientCookie : string := "wabantu_at".
Definition AdminCookie : string := "wabantu_admin_at".
Definition ClientTokenTTL : Z := 60 * Minute.
Definition ClientSessionTTL : Z := 7 * 24 * Hour.
Definition AdminTokenTTL : Z := 60 * Minute.
Definition AdminSessionTTL : Z := 2 * Hour.
Definition ImpersonationTTL : Z := 30 * Minute.
Definition PortalClient : string := "client".
Definition PortalAdmin : string := "admin".
Definition PortalBootstrap : string := "bootstrap".
Definition RoleSuperAdmin : string := "super_admin".

Definition ErrInvalidCredentials : error := EText "Email atau password salah".
Definition ErrTokenKind : error := EText "token type does not match session".
Definition ErrSessionExpired : error := EText "session expired".
Definition ErrAdminSessionRequired : error := EText "admin session required".
Definition ErrClientSessionRequired : error := EText "client session required".
Definition ErrImpersonationForbidden : error := EText "tidak tersedia saat pantau (impersonation)".
Definition ErrWrongTokenKind : error := EText "not authenticated".

(** ** Kinds, portals, lifetimes; [None] is the nil error *)
Definition NormalizeKind (kind : string) : string :=
  if String.eqb kind KindAdmin || String.eqb kind KindImpersonation then kind
  else KindClient.

Definition CheckPortal (portal role tenantID : string) : result string :=
  let isAdmin := String.eqb role RoleSuperAdmin in
  if String.eqb portal PortalAdmin then
    if isAdmin && String.eqb (TrimSpace tenantID) "" then Ok KindAdmin
    else Err ErrInvalidCredentials
  else if String.eqb portal PortalClient then
    if negb isAdmin then Ok KindClient else Err ErrInvalidCredentials
  else Err ErrInvalidCredentials.

Definition TokenTTL (kind : string) : Z :=
  let k := NormalizeKind kind in
  if String.eqb k KindAdmin then AdminTokenTTL
  else if String.eqb k KindImpersonation then ImpersonationTTL
  else ClientTokenTTL.

Definition SessionTTL (kind : string) : Z :=
  let k := NormalizeKind kind in
  if String.eqb k KindAdmin then AdminSessionTTL
  else if String.eqb k KindImpersonation then ImpersonationTTL
  else ClientSessionTTL.

Definition CheckTokenKind (claimTyp sessionKind : string) : option error :=
  if negb (String.eqb (NormalizeKind claimTyp) (NormalizeKind sessionKind)) then
    Some ErrTokenKind
  else if negb (String.eqb claimTyp "") && negb (String.eqb claimTyp KindClient)
          && negb (String.eqb claimTyp KindAdmin)
          && negb (String.eqb claimTyp KindImpersonation) then Some ErrTokenKind
  else None.

Definition CheckAdminExpiry (kind : string) (issuedAt now : Z) : option error :=
  let k := NormalizeKind kind in
  if String.eqb k KindClient then None
  else if IsZero issuedAt || (SessionTTL k <? Sub now issuedAt) then Some ErrSessionExpired
  else None.

Definition EndpointAccess (kind : string) (adminEndpoint : bool) : option error :=
  let k := NormalizeKind kind in
  if adminEndpoint then
    if negb (String.eqb k KindAdmin) then Some ErrAdminSessionRequired else None
  else if String.eqb k KindAdmin then Some ErrClientSessionRequired
  else None.

Definition ImpersonationAudit (adminID adminEmail tenantID grantID impSessionID : string)
  : gmap string string :=
  {[ "adminAccountId" := adminID; "adminEmail" := ToLower (TrimSpace adminEmail);
     "tenantId" := tenantID; "grantId" := grantID;
     "impersonationSessionId" := impSessionID ]}.

Definition CookieName (kind : string) : string :=
  if negb (String.eqb (NormalizeKind kind) KindClient) then AdminCookie else ClientCookie.

(** ** Endpoint classification *)
Definition AdminPathPrefix : string := "/api/v1/admin/".

Definition IsAdminEndpoint (path : string) (superAdminTag : bool) : bool :=
  superAdminTag || HasPrefix path AdminPathPrefix
  || String.eqb path (TrimSuffix AdminPathPrefix "/").

Definition PlatformAdminEndpoints : list string :=
  ["auth.PlatformAdminLogin"; "auth.PlatformAdminMe"].
Definition HandlerEnforcedRaw : list string :=
  ["auth.PlatformAdminMe"; "auth.PlatformAdminLogin"; "auth.Me"; "auth.Reauth";
   "auth.Logout"; "auth.FirebaseToken"].
Definition SessionlessEndpoints : list string :=
  ["auth.PlatformAdminLogin"; "auth.BootstrapPlatformAdmin"].
Definition PrivatePaths : list string :=
  ["/api/v1/audit/log"; "/api/v1/billing/activate-paid-invoice";
   "/api/v1/finance/recurring/process"; "/api/v1/leads/capture";
   "/api/v1/usage/record"; "/api/v1/usage/reset"; "/internal/apitest/ping"].
(** membership in a Go [map[string]bool] all of whose values are [true] *)
Definition in_set (x : string) (l : list string) : bool := bool_decide (x ∈ l).

Definition RequestAccessEndpoint (endpoint path : string) (superAdminTag : bool)
    (kind : string) : option error :=
  if in_set endpoint SessionlessEndpoints then None
  else
    let admin := IsAdminEndpoint path superAdminTag || in_set endpoint PlatformAdminEndpoints in
    if negb admin && (HasPrefix path "/api/v1/internal/" || in_set path PrivatePaths)
    then None
    else EndpointAccess kind admin.

Definition RequestAccess (path : string) (superAdminTag : bool) (kind : string)
  : option error := RequestAccessEndpoint "" path superAdminTag kind.

Definition MeClient : string := "/api/v1/auth/me".
Definition MeAdmin : string := "/api/v1/platform-admin/me".

Definition MeAccess (endpoint kind : string) : option error :=
  let k := NormalizeKind kind in
  if String.eqb endpoint MeAdmin then
    if String.eqb k KindAdmin then None else Some ErrWrongTokenKind
  else if String.eqb endpoint MeClient then
    if String.eqb k KindClient || String.eqb k KindImpersonation then None
    else Some ErrWrongTokenKind
  else Some ErrWrongTokenKind.

Definition RawHandlerAccess (endpoint kind : string) : option error :=
  if String.eqb endpoint "auth.Me" then MeAccess MeClient kind
  else if String.eqb endpoint "auth.Reauth" then
    if negb (String.eqb (NormalizeKind kind) KindClient) then Some ErrWrongTokenKind else None
  else if String.eqb endpoint "auth.Logout" then None
  else if String.eqb endpoint "auth.FirebaseToken" then
    let k := NormalizeKind kind in
    if String.eqb k KindClient || String.eqb k KindImpersonation then None
    else Some ErrWrongTokenKind
  else Some ErrWrongTokenKind.

(** ** The authenticated user ([shared/types]) *)
Record AuthUser := {
  AccountID : string; TenantID : string; TenantSchema : string;
  Email : string; Name : string; Role : string; SessionID : string;
  HomeTenantID : string; HomeTenantSchema : string;
  IsPlatformSession : bool; SessionKind : string; Impersonating : bool;
  ImpersonationTenantName : string; ImpersonationTenantSlug : string;
  ImpersonationScope : string; ImpersonationModules : list string;
  ImpersonationExpiresAt : option Z
}.

(** The receivers are pointers: [None] is the nil user. *)
Definition HasEffectiveTenantContext (u : option AuthUser) : bool :=
  match u with
  | None => false
  | Some u => negb (String.eqb (TenantSchema u) "")
  end.

Definition CanPerformOwnerActions (u : option AuthUser) : bool :=
  match u with
  | None => false
  | Some u =>
      if String.eqb (TenantSchema u) "" then false
      else if String.eqb (Role u) "owner" then true
      else String.eqb (Role u) "super_admin" && Impersonating u
  end.

Definition CanAccessInbox (u : option AuthUser) : bool :=
  match u with
  | None => false
  | Some u =>
      if String.eqb (TenantSchema u) "" then false
      else if String.eqb (Role u) "owner" || String.eqb (Role u) "staff" then true
      else if String.eqb (Role u) "super_admin" then Impersonating u
      else false
  end.

Definition TenantNavModuleIDs : list string :=
  ["main"; "sales"; "inventory"; "finance"; "ai"; "org"; "advanced"].
Definition ValidTenantModule (moduleID : string) : bool :=
  existsb (fun m => String.eqb m moduleID) TenantNavModuleIDs.

Definition ErrModuleDenied : error :=
  ECode PermissionDenied "akses modul tidak diizinkan untuk sesi pantau ini".
Definition RequireModule (u : option AuthUser) (moduleID : string) : option error :=
  match u with
  | None => None
  | Some u =>
      if negb (Impersonating u) then None
      else if Nat.eqb (length (ImpersonationModules u)) 0 then None
      else if existsb (fun m => String.eqb m moduleID) (ImpersonationModules u) then None
      else Some ErrModuleDenied
  end.

(** ** Lemmas *)
Lemma NormalizeKind_cases k :
  NormalizeKind k = KindClient \/ NormalizeKind k = KindAdmin \/ NormalizeKind k = KindImpersonation.
Proof.
  unfold NormalizeKind.
  destruct (String.eqb_spec k KindAdmin) as [->|]; [auto|].
  destruct (String.eqb_spec k KindImpersonation) as [->|]; auto.
Qed.

Lemma NormalizeKind_idemp k : NormalizeKind (NormalizeKind k) = NormalizeKind k.
Proof. by destruct (NormalizeKind_cases k) as [->|[->| ->]]. Qed.

Lemma NormalizeKind_admin k : NormalizeKind k = KindAdmin <-> k = KindAdmin.
Proof.
  split; [|by intros ->]. unfold NormalizeKind.
  destruct (String.eqb_spec k KindAdmin); [done|].
  destruct (String.eqb_spec k KindImpersonation) as [->|]; done.
Qed.

Lemma NormalizeKind_impersonation k :
  NormalizeKind k = KindImpersonation <-> k = KindImpersonation.
Proof.
  split; [|by intros ->]. unfold NormalizeKind.
  destruct (String.eqb_spec k KindAdmin) as [->|]; [done|].
  by destruct (String.eqb_spec k KindImpersonation).
Qed.

Lemma CheckPortal_Ok portal role tenantID kind :
  CheckPortal portal role tenantID = Ok kind <->
  (portal = PortalAdmin /\ role = RoleSuperAdmin /\ TrimSpace tenantID = "" /\ kind = KindAdmin)
  \/ (portal = PortalClient /\ role <> RoleSuperAdmin /\ kind = KindClient).
Proof.
  unfold CheckPortal.
  destruct (String.eqb_spec portal PortalAdmin) as [->|Hp];
    [|destruct (String.eqb_spec portal PortalClient) as [->|Hc]];
    destruct (String.eqb_spec role RoleSuperAdmin) as [->|Hr];
    destruct (String.eqb_spec (TrimSpace tenantID) "") as [Ht|Ht]; cbn;
    naive_solver.
Qed.

Lemma CheckTokenKind_None claim kind :
  CheckTokenKind claim kind = None <->
  NormalizeKind claim = NormalizeKind kind /\
  (claim = "" \/ claim = KindClient \/ claim = KindAdmin \/ claim = KindImpersonation).
Proof.
  unfold CheckTokenKind.
  destruct (String.eqb_spec (NormalizeKind claim) (NormalizeKind kind)); cbn [negb];
    [|naive_solver].
  destruct (String.eqb_spec claim ""), (String.eqb_spec claim KindClient),
    (String.eqb_spec claim KindAdmin), (String.eqb_spec claim KindImpersonation);
    cbn; naive_solver.
Qed.

Lemma EndpointAccess_admin kind :
  EndpointAccess kind true = None <-> kind = KindAdmin.
Proof.
  unfold EndpointAccess. rewrite <- NormalizeKind_admin.
  destruct (String.eqb_spec (NormalizeKind kind) KindAdmin); naive_solver.
Qed.

Lemma EndpointAccess_client kind :
  EndpointAccess kind false = None <-> kind <> KindAdmin.
Proof.
  unfold EndpointAccess. rewrite <- NormalizeKind_admin.
  destruct (String.eqb_spec (NormalizeKind kind) KindAdmin); naive_solver.
Qed.

Lemma SessionTTL_bounds kind :
  NormalizeKind kind <> KindClient -> 0 < SessionTTL kind <= AdminSessionTTL.
Proof.
  unfold SessionTTL.
  by destruct (NormalizeKind_cases kind) as [->|[->| ->]].
Qed.

Lemma Sub_gt t u d :
  min_duration <= d < max_duration -> (d <? Sub t u) = (d <? t - u).
Proof. unfold Sub. intros. destruct (Z.ltb_spec d (t - u)); lia. Qed.

Lemma RequireModule_limited u m :
  Impersonating u = true -> ImpersonationModules u <> [] ->
  RequireModule (Some u) m = None <-> m ∈ ImpersonationModules u.
Proof.
  intros Hi Hne. cbn. rewrite Hi. cbn.
  destruct (ImpersonationModules u) as [|x l] eqn:E; [done|]. cbn [length Nat.eqb].
  rewrite <- E in *. clear E.
  destruct (existsb _ _) eqn:Ex.
  - apply existsb_exists in Ex as (y & Hy & ->%String.eqb_eq).
    rewrite list_elem_of_In. naive_solver.
  - split; [done|]. intros Hin%list_elem_of_In.
    assert (existsb (fun m' => String.eqb m' m) (ImpersonationModules u) = true) as Hc; [|congruence].
    apply existsb_exists. exists m. by rewrite String.eqb_refl.
Qed.

Lemma CheckAdminExpiry_age kind issuedAt now :
  CheckAdminExpiry kind issuedAt now = None -> NormalizeKind kind <> KindClient ->
  issuedAt <> 0 /\ now - issuedAt <= SessionTTL kind.
Proof.
  unfold CheckAdminExpiry. intros He Hk. rewrite (proj2 (String.eqb_neq _ _) Hk) in He.
  pose proof (SessionTTL_bounds kind Hk) as Hb.
  assert (AdminSessionTTL < max_duration) by done. assert (min_duration <= 0) by done.
  assert (SessionTTL (NormalizeKind kind) = SessionTTL kind) as Heq
    by (unfold SessionTTL; by rewrite NormalizeKind_idemp).
  rewrite Heq, Sub_gt in He by lia. unfold IsZero in He.
  destruct (Z.eqb_spec issuedAt 0); [done|]. destruct (Z.ltb_spec (SessionTTL kind) (now - issuedAt)); [done|]. lia.
Qed.
Lemma CheckAdminExpiry_fresh kind issuedAt now :
  issuedAt <> 0 -> now - issuedAt <= SessionTTL kind -> CheckAdminExpiry kind issuedAt now = None.
Proof.
  unfold CheckAdminExpiry. intros Hi Hn.
  destruct (String.eqb_spec (NormalizeKind kind) KindClient) as [Hk|Hk]; [done|].
  pose proof (SessionTTL_bounds kind Hk) as Hb.
  assert (AdminSessionTTL < max_duration) by done. assert (min_duration <= 0) by done.
  assert (SessionTTL (NormalizeKind kind) = SessionTTL kind) as ->
    by (unfold SessionTTL; by rewrite NormalizeKind_idemp).
  rewrite Sub_gt by lia. unfold IsZero.
  destruct (Z.eqb_spec issuedAt 0); [done|]. by destruct (Z.ltb_spec (SessionTTL kind) (now - issuedAt)); [lia|].
Qed.

(** ** Properties *)

(** C1. Portal separation, end to end: a login through [portal] for an account
    with [role] and [tenantID] yields a session whose token (with [typ] claim
    [claim]) is let through to an admin endpoint exactly when the portal is the
    admin portal, the account is a super admin without a tenant, and the token
    carries the admin claim.  No client or impersonation login reaches the
    admin API. *)
Theorem portal_separation portal role tenantID claim endpoint path tag :
  endpoint ∉ SessionlessEndpoints ->
  IsAdminEndpoint path tag = true \/ endpoint ∈ PlatformAdminEndpoints ->
  (exists kind, CheckPortal portal role tenantID = Ok kind /\
     CheckTokenKind claim kind = None /\
     RequestAccessEndpoint endpoint path tag kind = None) <->
  portal = PortalAdmin /\ role = RoleSuperAdmin /\ TrimSpace tenantID = "" /\ claim = KindAdmin.
Proof.
  intros Hsl Hadm.
  assert (forall kind, RequestAccessEndpoint endpoint path tag kind = EndpointAccess kind true) as Hra.
  { intros kind. unfold RequestAccessEndpoint, in_set.
    rewrite (bool_decide_eq_false_2 _ Hsl).
    destruct Hadm as [->|Hin]; [done|].
    by rewrite (bool_decide_eq_true_2 _ Hin), orb_true_r. }
  setoid_rewrite Hra. setoid_rewrite CheckPortal_Ok. setoid_rewrite CheckTokenKind_None.
  setoid_rewrite EndpointAccess_admin. split.
  - intros (kind & Hport & [Heq _] & ->). destruct Hport as [(->&->&->&_)|(_&_&[=])].
    assert (claim = KindAdmin) as -> by (apply NormalizeKind_admin; by rewrite Heq). done.
  - intros (->&->&Ht&->). exists KindAdmin. naive_solver.
Qed.

Lemma portal_separation_witness :
  exists kind, CheckPortal "admin" "super_admin" " " = Ok kind /\
    CheckTokenKind "admin" kind = None /\
    RequestAccessEndpoint "admin.ListTenants" "/api/v1/admin/tenants" false kind = None.
Proof.
  apply (portal_separation "admin" "super_admin" " " "admin" "admin.ListTenants"
           "/api/v1/admin/tenants" false).
  - unfold SessionlessEndpoints. rewrite !not_elem_of_cons. repeat split; try discriminate.
    apply not_elem_of_nil.
  - left. reflexivity.
  - repeat split.
Defined.

(** C2. Absolute lifetime: a session is past its expiry check exactly when it
    is a client session or it has an issue time and is no older than the
    lifetime of its kind (at most two hours).  The saturation of
    [time.Time.Sub] never lets an over-age session through, and nothing that
    happens to the session afterwards is consulted. *)
Theorem admin_expiry_exact kind issuedAt now :
  CheckAdminExpiry kind issuedAt now = None <->
  NormalizeKind kind = KindClient \/
  (issuedAt <> 0 /\ now - issuedAt <= SessionTTL kind /\ SessionTTL kind <= AdminSessionTTL).
Proof.
  split.
  - intros He. destruct (decide (NormalizeKind kind = KindClient)) as [Hk|Hk]; [by left|right].
    pose proof (CheckAdminExpiry_age _ _ _ He Hk). pose proof (SessionTTL_bounds kind Hk). lia.
  - intros [Hk|(Hi & Hn & _)]; [|by apply CheckAdminExpiry_fresh].
    unfold CheckAdminExpiry. by rewrite Hk.
Qed.
