(* ===== verification/LoginGuard.v ===== *)
(** * Login guard: counters, locks, lockout policies, audit rows

    Models [internal/adminauth/guard.go] and [audit.go] and the Redis counter
    store of [auth/login_portal.go].  [Guard] is written against the
    [CounterStore] interface; its lockout theorems are proved over the Redis
    instance, its fail-closed theorem over any instance. *)
From S2P Require Import Prelude GoStrings Sha256 Redis AdminSession.

Open Scope string_scope.
Open Scope Z_scope.

(** ** The counter-store interface *)
Class CounterStore (W : Type) := {
  Incr : string -> Z -> prog W Z;
  SetLock : string -> Z -> prog W unit;
  Locked : string -> prog W bool;
  Del : string -> prog W unit
}.

(** ** Policies *)
Record Policy := {
  Portal : string;
  PairMax : Z; IPMax : Z; AccountMax : Z;
  Window : Z; LockFor : Z;
  IPPerMin : Z; AcctPerMin : Z;
  FailClosed : bool
}.

Definition AdminPolicy : Policy := {|
  Portal := PortalAdmin; PairMax := 5; IPMax := 10; AccountMax := 20;
  Window := 15 * Minute; LockFor := 15 * Minute; IPPerMin := 10; AcctPerMin := 5;
  FailClosed := false |}.
Definition BootstrapPolicy : Policy := {|
  Portal := PortalBootstrap; PairMax := 5; IPMax := 5; AccountMax := 20;
  Window := 15 * Minute; LockFor := 15 * Minute; IPPerMin := 5; AcctPerMin := 5;
  FailClosed := true |}.
Definition ClientPolicy : Policy := {|
  Portal := PortalClient; PairMax := 5; IPMax := 30; AccountMax := 50;
  Window := 15 * Minute; LockFor := 15 * Minute; IPPerMin := 20; AcctPerMin := 10;
  FailClosed := false |}.

Definition ErrStoreUnavailable : error := EText "adminauth: counter store unavailable".
Definition ReasonRateIP : string := "rate_limited_ip".
Definition ReasonRateAccount : string := "rate_limited_account".
Definition ReasonLockedPair : string := "locked_account_ip".
Definition ReasonLockedIP : string := "locked_ip".
Definition ReasonLockedAcct : string := "locked_account".
Definition StatusTooManyRequests : Z := 429.
Definition StatusServiceUnavailable : Z := 503.

(** ** Guard: [G_S = false] is the nil store *)
Record Guard := { G_S : bool; G_P : Policy }.

Definition failClosed (g : Guard) : bool :=
  FailClosed (G_P g) || String.eqb (Portal (G_P g)) PortalAdmin.

Definition CheckStatus (g : Guard) (ok : bool) (err : option error) : Z :=
  if ok then 0
  else match err with
       | Some _ => if failClosed g then StatusServiceUnavailable else StatusTooManyRequests
       | None => StatusTooManyRequests
       end.

Definition AccountKey (email : string) : string :=
  hex_encode (firstn 12 (Sum256 (ToLower (TrimSpace email)))).

Definition k (g : Guard) (parts : list string) : string :=
  "login:" ++ Portal (G_P g) ++ ":" ++ Join parts ":".

(** [Check]'s three results; [err] is the named result, the program itself
    never fails. *)
Definition CheckResult : Type := bool * string * option error.

Section guard.
Context {W : Type} `{CounterStore W}.

Fixpoint check_locks (fc : bool) (locks : list (string * string))
    (k : prog W CheckResult) : prog W CheckResult :=
  match locks with
  | [] => k
  | (key, reason) :: rest =>
      let! locked := attempt (Locked key) in
      match locked with
      | Err err => ret (negb fc, "store_error", Some err)
      | Ok true => ret (false, reason, None)
      | Ok false => check_locks fc rest k
      end
  end.

Definition Check_ (g : Guard) (ip acct : string) : prog W CheckResult :=
  let fc := failClosed g in
  if negb (G_S g) then ret (negb fc, "store_error", Some ErrStoreUnavailable)
  else
    check_locks fc
      [(k g ["lock"; "pair"; acct; ip], ReasonLockedPair);
       (k g ["lock"; "ip"; ip], ReasonLockedIP);
       (k g ["lock"; "acct"; acct], ReasonLockedAcct)]
      (let! n := attempt (Incr (k g ["rate"; "ip"; ip]) Minute) in
       match n with
       | Err err => ret (negb fc, "store_error", Some err)
       | Ok n =>
           if IPPerMin (G_P g) <? n then ret (false, ReasonRateIP, None)
           else
             let! n := attempt (Incr (k g ["rate"; "acct"; acct]) Minute) in
             match n with
             | Err err => ret (negb fc, "store_error", Some err)
             | Ok n =>
                 if AcctPerMin (G_P g) <? n then ret (false, ReasonRateAccount, None)
                 else ret (true, "", None)
             end
       end).

Fixpoint fail_counters (g : Guard) (cs : list (string * string * Z)) : prog W unit :=
  match cs with
  | [] => ret tt
  | (counter, lock, max) :: rest =>
      let! n := Incr counter (Window (G_P g)) in
      (if max <=? n then SetLock lock (LockFor (G_P g)) else ret tt);!
      fail_counters g rest
  end.

Definition Fail_ (g : Guard) (ip acct : string) : prog W unit :=
  if negb (G_S g) then throw ErrStoreUnavailable
  else
    fail_counters g
      [(k g ["fail"; "pair"; acct; ip], k g ["lock"; "pair"; acct; ip], PairMax (G_P g));
       (k g ["fail"; "ip"; ip], k g ["lock"; "ip"; ip], IPMax (G_P g));
       (k g ["fail"; "acct"; acct], k g ["lock"; "acct"; acct], AccountMax (G_P g))].

Definition Success (g : Guard) (ip acct : string) : prog W unit :=
  if negb (G_S g) then throw ErrStoreUnavailable
  else Del (k g ["fail"; "pair"; acct; ip]).

(** *** Specification of [Check]: five store questions, asked in order until
    one answers yes or fails *)
Definition over (limit : Z) (m : prog W Z) : prog W bool := let! n := m in ret (limit <? n).
Definition questions (g : Guard) (ip acct : string) : list (prog W bool * string) :=
  [(Locked (k g ["lock"; "pair"; acct; ip]), ReasonLockedPair);
   (Locked (k g ["lock"; "ip"; ip]), ReasonLockedIP);
   (Locked (k g ["lock"; "acct"; acct]), ReasonLockedAcct);
   (over (IPPerMin (G_P g)) (Incr (k g ["rate"; "ip"; ip]) Minute), ReasonRateIP);
   (over (AcctPerMin (G_P g)) (Incr (k g ["rate"; "acct"; acct]) Minute), ReasonRateAccount)].

(** [stops qs w r reason w']: the questions before the one with [reason] were
    answered no, and that one gave [r], which is a yes or an error *)
Inductive stops : list (prog W bool * string) -> W -> result bool -> string -> W -> Prop :=
| stops_here q reason qs w r w' :
    q w = (r, w') -> r <> Ok false -> stops ((q, reason) :: qs) w r reason w'
| stops_later q reason qs w w1 r reason' w' :
    q w = (Ok false, w1) -> stops qs w1 r reason' w' -> stops ((q, reason) :: qs) w r reason' w'.
End guard.

(** ** [auth.redisCounters]: the Redis counter store *)
Definition errNoRedis : error := EText "auth: redis unavailable".

Definition redis_Incr (key : string) (window : Z) : prog (redis Z) Z := fun r =>
  if negb (r_client r) then (Err errNoRedis, r) else cmd_incr_expire_nx key window r.
Definition redis_SetLock (key : string) (ttl : Z) : prog (redis Z) unit := fun r =>
  if negb (r_client r) then (Err errNoRedis, r) else cmd_set key 1 ttl r.
Definition redis_Locked (key : string) : prog (redis Z) bool := fun r =>
  if negb (r_client r) then (Err errNoRedis, r) else cmd_exists key r.
Definition redis_Del (key : string) : prog (redis Z) unit := fun r =>
  if negb (r_client r) then (Err errNoRedis, r) else cmd_del key r.

#[export] Instance redisCounters : CounterStore (redis Z) := {|
  Incr := redis_Incr; SetLock := redis_SetLock; Locked := redis_Locked; Del := redis_Del |}.

Definition loginGuard (portal : string) : Guard :=
  {| G_S := true;
     G_P := if String.eqb portal PortalAdmin then AdminPolicy else ClientPolicy |}.

(** ** Audit rows ([audit.go]) *)
Definition ResultSuccess : string := "success".
Definition ResultFailure : string := "failure".
Definition ResultBlocked : string := "blocked".
Definition ReasonOK : string := "ok".
Definition ReasonInvalidCredentials : string := "invalid_credentials".
Definition ReasonPortalMismatch : string := "portal_mismatch".
Definition ReasonBadRequest : string := "bad_request".
Definition ReasonTenantInactive : string := "tenant_inactive".
Definition ReasonNoTenant : string := "no_tenant".
Definition ReasonInternal : string := "internal_error".

Record Attempt := {
  At : Z; A_Portal : string; A_Email : string; A_AccountID : string;
  A_IP : string; A_UserAgent : string; A_Result : string; A_Reason : string
}.

Definition allowedReasons : list string :=
  [ReasonOK; ReasonInvalidCredentials; ReasonPortalMismatch; ReasonBadRequest;
   ReasonTenantInactive; ReasonNoTenant; ReasonInternal;
   ReasonRateIP; ReasonRateAccount; ReasonLockedPair; ReasonLockedIP; ReasonLockedAcct;
   "store_error"; "bootstrap_secret_invalid"; "bootstrap_disabled"; "bootstrap_already_done";
   "email_taken"].

(** [strings.Map] that drops the ASCII control characters: on valid UTF-8 the
    dropped runes are exactly these single bytes. *)
Fixpoint drop_controls (s : string) : string :=
  match s with
  | "" => ""
  | String c s' =>
      if (code c <? 32)%N || (code c =? 127)%N then drop_controls s'
      else String c (drop_controls s')
  end.
Definition clip (s : string) (n : nat) : string :=
  let s := drop_controls s in
  if (n <? String.length s)%nat then take_bytes n s else s.

Definition NewAttempt (at_ : Z) (portal email accountID ip ua result reason : string) : Attempt :=
  let reason := if in_set reason allowedReasons then reason else "other" in
  {| At := at_; A_Portal := clip portal 16; A_Email := clip (ToLower (TrimSpace email)) 254;
     A_AccountID := clip accountID 64; A_IP := clip ip 64; A_UserAgent := clip ua 256;
     A_Result := clip result 16; A_Reason := reason |}.

(** ** What a sound policy is *)
Class SoundPolicy (p : Policy) : Prop := {
  pair_positive : 1 <= PairMax p;
  account_above_pair : 2 * PairMax p < AccountMax p;
  window_positive : 0 < Window p;
  lock_covers_window : Window p <= LockFor p
}.

#[export] Instance AdminPolicy_sound : SoundPolicy AdminPolicy.
Proof. by split. Qed.
#[export] Instance BootstrapPolicy_sound : SoundPolicy BootstrapPolicy.
Proof. by split. Qed.
#[export] Instance ClientPolicy_sound : SoundPolicy ClientPolicy.
Proof. by split. Qed.

(** One login attempt that turns out to be a failure: the guard is consulted
    first, and only an admitted attempt reaches the password check. *)
Definition failed_attempt (g : Guard) (t : Z) (ip acct : string) (r : redis Z) : redis Z :=
  match Check_ g ip acct (at_time t r) with
  | (Ok (true, _, _), r') => snd (Fail_ g ip acct r')
  | (_, r') => r'
  end.
Definition attack (g : Guard) (tr : list (Z * string * string)) (r : redis Z) : redis Z :=
  fold_left (fun r '(t, ip, acct) => failed_attempt g t ip acct r) tr r.
(** any calls of the guard, in any order (requests in flight interleave) *)
Inductive guard_op := OpCheck | OpFail | OpSuccess.
Record event := { e_at : Z; e_op : guard_op; e_ip : string; e_acct : string }.
Definition run_event (g : Guard) (r : redis Z) (e : event) : redis Z :=
  let r := at_time (e_at e) r in
  match e_op e with
  | OpCheck => snd (Check_ g (e_ip e) (e_acct e) r)
  | OpFail => snd (Fail_ g (e_ip e) (e_acct e) r)
  | OpSuccess => snd (Success g (e_ip e) (e_acct e) r)
  end.
Definition traffic (g : Guard) (tr : list event) (r : redis Z) : redis Z := fold_left (run_event g) tr r.

(** times of a trace do not go back *)
Fixpoint ordered (t0 : Z) (tr : list (Z * string * string)) : Prop :=
  match tr with
  | [] => True
  | (t, _, _) :: rest => t0 <= t /\ ordered t rest
  end.

Fixpoint in_time (t0 : Z) (tr : list event) : Prop :=
  match tr with
  | [] => True
  | e :: rest => t0 <= e_at e /\ in_time (e_at e) rest
  end.

Definition of_pair (ip acct : string) (e : event) : bool :=
  String.eqb (e_ip e) ip && String.eqb (e_acct e) acct.
Definition fails_pair (ip acct : string) (e : event) : bool :=
  match e_op e with OpFail => of_pair ip acct e | _ => false end.
Definition clears_pair (ip acct : string) (e : event) : bool :=
  match e_op e with OpSuccess => of_pair ip acct e | _ => false end.

(** One counter of [Fail] on a healthy store. *)
Definition bump (g : Guard) (counter lock : string) (max : Z) (r : redis Z) : redis Z :=
  let '(n, r1) := incr_expire_nx counter (Window (G_P g)) r in
  if max <=? n then
    set_data r1 (<[ lock := (1, if 0 <? LockFor (G_P g) then Some (r_now r1 + LockFor (G_P g)) else None) ]>
                   (r_data r1))
  else r1.

(** no key of account [a] exists *)
Definition clean (g : Guard) (a : string) (r : redis Z) : Prop :=
  r_data r !! k g ["fail"; "acct"; a] = None /\ r_data r !! k g ["lock"; "acct"; a] = None /\
  forall ip, r_data r !! k g ["fail"; "pair"; a; ip] = None /\
             r_data r !! k g ["lock"; "pair"; a; ip] = None.

(** ** Lemmas: keys *)
Lemma k_inj g l l' : k g l = k g l' -> Join l ":" = Join l' ":".
Proof. unfold k. intros H%string_app_inj_l%string_app_inj_l. by injection H. Qed.

Lemma pair_key_inj g x a a' ip ip' :
  has_char ":" a = false -> has_char ":" a' = false ->
  k g [x; "pair"; a; ip] = k g [x; "pair"; a'; ip'] -> a = a' /\ ip = ip'.
Proof.
  intros Ha Ha' H%k_inj. cbn in H.
  apply string_app_inj_l in H. injection H as H. by apply colon_split in H.
Qed.

Lemma acct_key_inj g x y a a' : k g [x; y; a] = k g [x; y; a'] -> a = a'.
Proof. intros H%k_inj. cbn in H. apply string_app_inj_l in H. injection H as H%string_app_inj_l. by injection H. Qed.

Lemma AccountKey_no_colon email : has_char ":" (AccountKey email) = false.
Proof. apply hex_encode_no_colon. Qed.

(** keys of different families never meet *)
Ltac key_ne := let E := fresh in intros E; apply k_inj in E; cbn in E; discriminate E.

(** ** Lemmas: what one operation changes on a healthy store *)

(** [r'] is [r] except for the keys satisfying [touched] *)
Definition changes_only (touched : string -> Prop) (r r' : redis Z) : Prop :=
  healthy r' /\ r_now r' = r_now r /\
  forall x, ~ touched x -> r_data r' !! x = r_data r !! x.

Lemma changes_only_refl (P : string -> Prop) r : healthy r -> changes_only P r r.
Proof. by split. Qed.
Lemma changes_only_trans (P : string -> Prop) r1 r2 r3 :
  changes_only P r1 r2 -> changes_only P r2 r3 -> changes_only P r1 r3.
Proof.
  intros (?&?&H1) (?&?&H2). split_and!; [done|congruence|].
  intros x Hx. by rewrite H2, H1.
Qed.

Lemma incr_changes (P : string -> Prop) c w r :
  healthy r -> P c -> changes_only P r (snd (incr_expire_nx c w r)).
Proof.
  intros Hh Hc. unfold incr_expire_nx.
  destruct (match rlookup r c with Some ne => ne | None => (0, None) end) as [n e].
  split_and!; [done..|]. intros x Hx. cbn. rewrite lookup_insert_ne; [done|].
  intros <-. done.
Qed.

Lemma bump_changes (P : string -> Prop) g c l max r :
  healthy r -> P c -> P l -> changes_only P r (bump g c l max r).
Proof.
  intros Hh Hc Hl. unfold bump.
  pose proof (incr_changes P c (Window (G_P g)) r Hh Hc) as Hi.
  destruct (incr_expire_nx c _ r) as [n r1]. cbn in Hi.
  destruct (max <=? n); [|done]. destruct Hi as (Hh1 & Hn & Hd).
  split_and!; [done..|]. intros x Hx. cbn. rewrite lookup_insert_ne; [auto|].
  intros <-. done.
Qed.

Lemma Fail_healthy g ip a r :
  G_S g = true -> healthy r ->
  Fail_ g ip a r =
  (Ok tt, bump g (k g ["fail"; "acct"; a]) (k g ["lock"; "acct"; a]) (AccountMax (G_P g))
            (bump g (k g ["fail"; "ip"; ip]) (k g ["lock"; "ip"; ip]) (IPMax (G_P g))
              (bump g (k g ["fail"; "pair"; a; ip]) (k g ["lock"; "pair"; a; ip]) (PairMax (G_P g)) r))).
Proof.
  intros HS Hh. unfold Fail_. rewrite HS. cbn [negb].
  assert (forall c l max rest r, healthy r ->
    fail_counters g ((c, l, max) :: rest) r = fail_counters g rest (bump g c l max r)) as Hstep.
  { clear. intros c l max rest r Hh. cbn [fail_counters].
    assert (Incr c (Window (G_P g)) r
            = (Ok (fst (incr_expire_nx c (Window (G_P g)) r)), snd (incr_expire_nx c (Window (G_P g)) r))) as Hi.
    { cbn. unfold redis_Incr. rewrite (proj2 Hh). cbn [negb]. by apply run_healthy. }
    rewrite (bind_ok _ _ _ _ _ Hi). unfold bump.
    pose proof (incr_changes (fun _ => True) c (Window (G_P g)) r Hh I) as (Hh1 & _ & _).
    destruct (incr_expire_nx c _ r) as [n r1]. cbn [fst snd] in *.
    destruct (max <=? n); [|done].
    erewrite bind_ok; [done|]. cbn. unfold redis_SetLock. rewrite (proj2 Hh1). cbn [negb].
    by apply cmd_set_healthy. }
  assert (forall c l max r, healthy r -> healthy (bump g c l max r)) as Hb
    by (intros; by apply (bump_changes (fun _ => True))).
  rewrite !Hstep by auto. reflexivity.
Qed.

(** the keys a failure touches, and the keys [Check] touches *)
Definition fail_keys (g : Guard) (ip a x : string) : Prop :=
  x = k g ["fail"; "pair"; a; ip] \/ x = k g ["lock"; "pair"; a; ip] \/
  x = k g ["fail"; "ip"; ip] \/ x = k g ["lock"; "ip"; ip] \/
  x = k g ["fail"; "acct"; a] \/ x = k g ["lock"; "acct"; a].
Definition rate_key (g : Guard) (x : string) : Prop :=
  exists l, x = k g ("rate" :: l) /\ l <> [].

Lemma Fail_changes g ip a r :
  G_S g = true -> healthy r -> changes_only (fail_keys g ip a) r (snd (Fail_ g ip a r)).
Proof.
  intros HS Hh. rewrite Fail_healthy by done. cbn [snd].
  assert (changes_only (fail_keys g ip a) r
    (bump g (k g ["fail"; "pair"; a; ip]) (k g ["lock"; "pair"; a; ip]) (PairMax (G_P g)) r)) as H1
    by (apply bump_changes; unfold fail_keys; auto).
  eapply changes_only_trans; [exact H1|].
  eapply changes_only_trans; apply bump_changes; unfold fail_keys; auto 10; try apply H1.
  apply (bump_changes (fun _ => True)); [apply H1|done..].
Qed.

Lemma Locked_healthy x r :
  healthy r -> Locked x r = (Ok (bool_decide (is_Some (rlookup r x))), r).
Proof.
  intros Hh. cbn. unfold redis_Locked. rewrite (proj2 Hh). cbn [negb]. by apply cmd_exists_healthy.
Qed.
Lemma Incr_healthy x w r :
  healthy r -> Incr x w r = (Ok (fst (incr_expire_nx x w r)), snd (incr_expire_nx x w r)).
Proof.
  intros Hh. cbn. unfold redis_Incr. rewrite (proj2 Hh). cbn [negb]. by apply run_healthy.
Qed.

Lemma check_locks_healthy fc locks k r :
  healthy r ->
  check_locks fc locks k r =
  match list_find (fun l => bool_decide (is_Some (rlookup r l.1)) = true) locks with
  | Some (_, (_, reason)) => (Ok (false, reason, None), r)
  | None => k r
  end.
Proof.
  intros Hh. induction locks as [|[key reason] locks IH]; [done|].
  cbn [check_locks]. unfold bind at 1, attempt. rewrite Locked_healthy by done.
  cbn [list_find fst].
  destruct (bool_decide (is_Some (rlookup r key))) eqn:E.
  - by rewrite decide_True.
  - rewrite decide_False, IH by done. by destruct (list_find _ locks) as [[? [? ?]]|].
Qed.

Lemma Check_changes g ip a r :
  healthy r -> changes_only (rate_key g) r (snd (Check_ g ip a r)).
Proof.
  intros Hh. unfold Check_. destruct (G_S g); cbn [negb]; [|by apply changes_only_refl].
  rewrite check_locks_healthy by done.
  destruct (list_find _ _) as [[? [? ?]]|]; [by apply changes_only_refl|].
  assert (forall l r, healthy r -> l <> [] ->
    changes_only (rate_key g) r (snd (incr_expire_nx (k g ("rate" :: l)) Minute r))) as Hi.
  { intros l r' Hr' Hl. apply incr_changes; [done|]. exists l. done. }
  unfold bind at 1, attempt. rewrite Incr_healthy by done.
  pose proof (Hi ["ip"; ip] r Hh ltac:(done)) as H1.
  destruct (incr_expire_nx _ _ r) as [n r1]. cbn [fst snd] in *.
  destruct (IPPerMin (G_P g) <? n); [done|].
  unfold bind at 1, attempt. rewrite Incr_healthy by apply H1.
  pose proof (Hi ["acct"; a] r1 (proj1 H1) ltac:(done)) as H2.
  destruct (incr_expire_nx _ _ r1) as [m r2]. cbn [fst snd] in *.
  assert (changes_only (rate_key g) r r2) by (by eapply changes_only_trans).
  by destruct (AcctPerMin (G_P g) <? m).
Qed.

(** the outcome of [Check] is a lock, or none of the three locks is held *)
Lemma Check_locked g ip a r :
  healthy r -> G_S g = true ->
  (is_Some (rlookup r (k g ["lock"; "pair"; a; ip])) ->
     Check_ g ip a r = (Ok (false, ReasonLockedPair, None), r)) /\
  (forall reason err, fst (Check_ g ip a r) = Ok (true, reason, err) ->
     rlookup r (k g ["lock"; "pair"; a; ip]) = None) /\
  (fst (Check_ g ip a r) = Ok (false, ReasonLockedAcct, None) ->
     is_Some (rlookup r (k g ["lock"; "acct"; a]))) /\
  (fst (Check_ g ip a r) = Ok (false, ReasonLockedPair, None) ->
     is_Some (rlookup r (k g ["lock"; "pair"; a; ip]))).
Proof.
  intros Hh HS. unfold Check_. rewrite HS. cbn [negb].
  rewrite check_locks_healthy by done. cbn [list_find fst].
  set (cont := bind _ _).
  assert (forall reason, reason = ReasonLockedAcct \/ reason = ReasonLockedPair ->
            fst (cont r) <> Ok (false, reason, None)) as Hc.
  { intros reason Hr. subst cont. unfold bind at 1, attempt. rewrite Incr_healthy by done.
    destruct (incr_expire_nx _ _ r) as [n r1] eqn:E1. cbn [fst snd].
    assert (healthy r1) as Hh1.
    { pose proof (incr_changes (fun _ => True) (k g ["rate"; "ip"; ip]) Minute r Hh I) as Hi.
      rewrite E1 in Hi. apply Hi. }
    destruct (_ <? n); [by destruct Hr as [->| ->]|].
    unfold bind at 1, attempt. rewrite Incr_healthy by done.
    destruct (incr_expire_nx _ _ r1) as [m r2]. cbn [fst snd].
    by destruct (_ <? m); destruct Hr as [->| ->]. }
  destruct (bool_decide (is_Some (rlookup r (k g ["lock"; "pair"; a; ip])))) eqn:E1;
    [rewrite decide_True by done|rewrite decide_False by done];
    [apply bool_decide_eq_true_1 in E1 | apply bool_decide_eq_false_1 in E1]; cbn [fmap option_fmap option_map prod_map].
  { split_and!; try done; by intros ? ? [=]. }
  apply eq_None_not_Some in E1.
  destruct (bool_decide (is_Some (rlookup r (k g ["lock"; "ip"; ip])))) eqn:E2;
    [rewrite decide_True by done|rewrite decide_False by done]; cbn [fmap option_fmap option_map prod_map].
  { rewrite E1. split_and!; try done; by intros [? [=]]. }
  destruct (bool_decide (is_Some (rlookup r (k g ["lock"; "acct"; a])))) eqn:E3;
    [rewrite decide_True by done|rewrite decide_False by done]; cbn [fmap option_fmap option_map prod_map].
  { apply bool_decide_eq_true_1 in E3. rewrite E1. split_and!; try done; by intros [? [=]]. }
  rewrite E1. split_and!; [by intros [? [=]]|done|..].
  - intros H. destruct (Hc ReasonLockedAcct); auto.
  - intros H. destruct (Hc ReasonLockedPair); auto.
Qed.

(** ** Lemmas: counters, windows and locks *)
Lemma bump_data g c l max r :
  c <> l -> 0 < LockFor (G_P g) ->
  let ne := default (0, None) (rlookup r c) in
  r_data (bump g c l max r) !! c
    = Some (ne.1 + 1, Some (match ne.2 with Some x => x | None => r_now r + Window (G_P g) end)) /\
  r_data (bump g c l max r) !! l
    = if max <=? ne.1 + 1 then Some (1, Some (r_now r + LockFor (G_P g))) else r_data r !! l.
Proof.
  intros Hcl Hlock ne. unfold bump, incr_expire_nx.
  assert (match rlookup r c with Some ne => ne | None => (0, None) end = ne) as -> by (subst ne; by destruct (rlookup r c)).
  destruct ne as [n e]. cbn [fst snd].
  rewrite (proj2 (Z.ltb_lt 0 (LockFor (G_P g)))) by done.
  destruct (max <=? n + 1); cbn; split; rewrite ?(lookup_insert_eq), ?lookup_insert_ne by done;
    rewrite ?lookup_insert_eq; by destruct e.
Qed.

Lemma at_time_healthy t (r : redis Z) : healthy r -> healthy (at_time t r).
Proof. done. Qed.

Lemma rlookup_at t (r : redis Z) x v e :
  r_data r !! x = Some (v, e) ->
  rlookup (at_time t r) x = if expired t e then None else Some (v, e).
Proof. unfold rlookup. cbn. by intros ->. Qed.

(** One failure of the pair, on the four keys that matter for account [a]. *)
Lemma failure_data g ip a r :
  G_S g = true -> healthy r -> 0 < LockFor (G_P g) ->
  let r' := snd (Fail_ g ip a r) in
  let pn := default (0, None) (rlookup r (k g ["fail"; "pair"; a; ip])) in
  let an := default (0, None) (rlookup r (k g ["fail"; "acct"; a])) in
  let until w e := Some (match e with Some x => x | None => r_now r + w end) in
  r_data r' !! k g ["fail"; "pair"; a; ip] = Some (pn.1 + 1, until (Window (G_P g)) pn.2) /\
  r_data r' !! k g ["lock"; "pair"; a; ip]
    = (if PairMax (G_P g) <=? pn.1 + 1 then Some (1, Some (r_now r + LockFor (G_P g)))
       else r_data r !! k g ["lock"; "pair"; a; ip]) /\
  r_data r' !! k g ["fail"; "acct"; a] = Some (an.1 + 1, until (Window (G_P g)) an.2) /\
  r_data r' !! k g ["lock"; "acct"; a]
    = (if AccountMax (G_P g) <=? an.1 + 1 then Some (1, Some (r_now r + LockFor (G_P g)))
       else r_data r !! k g ["lock"; "acct"; a]).
Proof.
  intros HS Hh Hl r' pn an until. subst r'. rewrite Fail_healthy by done. cbn [snd].
  set (r1 := bump g (k g ["fail"; "pair"; a; ip]) _ _ r).
  set (r2 := bump g (k g ["fail"; "ip"; ip]) _ _ r1).
  destruct (bump_data g (k g ["fail"; "pair"; a; ip]) (k g ["lock"; "pair"; a; ip])
              (PairMax (G_P g)) r ltac:(key_ne) Hl) as [P1 P2].
  destruct (bump_data g (k g ["fail"; "acct"; a]) (k g ["lock"; "acct"; a])
              (AccountMax (G_P g)) r2 ltac:(key_ne) Hl) as [A1 A2].
  assert (changes_only (fun x => x = k g ["fail"; "pair"; a; ip] \/ x = k g ["lock"; "pair"; a; ip]) r r1)
    as (Hh1 & Hn1 & Hd1) by (apply bump_changes; auto).
  assert (changes_only (fun x => x = k g ["fail"; "ip"; ip] \/ x = k g ["lock"; "ip"; ip]) r1 r2)
    as (Hh2 & Hn2 & Hd2) by (apply bump_changes; auto).
  assert (changes_only (fun x => x = k g ["fail"; "acct"; a] \/ x = k g ["lock"; "acct"; a]) r2
            (bump g (k g ["fail"; "acct"; a]) (k g ["lock"; "acct"; a]) (AccountMax (G_P g)) r2))
    as (Hh3 & Hn3 & Hd3) by (apply bump_changes; auto).
  assert (rlookup r2 (k g ["fail"; "acct"; a]) = rlookup r (k g ["fail"; "acct"; a])) as Hr2.
  { unfold rlookup. rewrite Hn2, Hn1, Hd2, Hd1; [done|..]; intros [E|E]; revert E; key_ne. }
  rewrite Hr2 in A1, A2. fold an in A1, A2. fold pn in P1, P2. fold r1 in P1, P2.
  rewrite A1, A2, Hn2, Hn1.
  split_and!; try done.
  - rewrite Hd3, Hd2; [exact P1|..]; intros [E|E]; revert E; key_ne.
  - rewrite Hd3, Hd2; [exact P2|..]; intros [E|E]; revert E; key_ne.
  - rewrite Hd2, Hd1; [done|..]; intros [E|E]; revert E; key_ne.
Qed.

(** *** The invariant of one account under one failing address

    [acct_inv g ip a T r]: at time [T], account [a] has no account lock and no
    pair lock for other addresses; its pair counter for [ip] never exceeds
    [PairMax], and at [PairMax] the pair is locked at least until the counter
    expires; its account counter counts at most two pair windows. *)
Record acct_inv (g : Guard) (ip a : string) (T : Z) (r : redis Z) : Prop := {
  inv_healthy : healthy r;
  inv_unlocked : r_data r !! k g ["lock"; "acct"; a] = None;
  inv_others : forall ip', ip' <> ip -> r_data r !! k g ["lock"; "pair"; a; ip'] = None;
  inv_pair : forall n e, r_data r !! k g ["fail"; "pair"; a; ip] = Some (n, e) ->
    exists x, e = Some x /\ 1 <= n <= PairMax (G_P g) /\ x <= T + Window (G_P g) /\
      (n = PairMax (G_P g) ->
       exists v y, r_data r !! k g ["lock"; "pair"; a; ip] = Some (v, Some y) /\ x <= y);
  inv_acct : forall m e, r_data r !! k g ["fail"; "acct"; a] = Some (m, e) ->
    exists f, e = Some f /\ f <= T + Window (G_P g) /\
      (T < f -> exists n x, r_data r !! k g ["fail"; "pair"; a; ip] = Some (n, Some x) /\
         f - Window (G_P g) < x /\ (x <= f -> m <= n) /\ (f < x -> m <= PairMax (G_P g) + n))
}.

Section lockout.
Context (g : Guard) `{HP : SoundPolicy (G_P g)} (HS : G_S g = true).

Lemma acct_inv_clean ip a T r : healthy r -> clean g a r -> acct_inv g ip a T r.
Proof.
  intros Hh (Hf & Hl & Hp). split; [done|done| | |].
  - intros ip' _. apply Hp.
  - intros n e. by rewrite (proj1 (Hp ip)).
  - intros m e. by rewrite Hf.
Qed.

Lemma acct_inv_later ip a T T' r : T <= T' -> acct_inv g ip a T r -> acct_inv g ip a T' (at_time T' r).
Proof.
  intros HT [Hh Hu Ho Hp Ha]. split; [done|done|done| |].
  - intros n e Hn. destruct (Hp n e Hn) as (x & -> & ? & ? & ?). exists x. split_and!; auto; lia.
  - intros m e Hm. destruct (Ha m e Hm) as (f & -> & ? & Hx). exists f. split_and!; auto; [lia|].
    intros ?. apply Hx. lia.
Qed.

(** changes elsewhere do not matter *)
Lemma acct_inv_frame (P : string -> Prop) ip a T r r' :
  changes_only P r r' ->
  (forall ip', ~ P (k g ["fail"; "pair"; a; ip']) /\ ~ P (k g ["lock"; "pair"; a; ip'])) ->
  ~ P (k g ["fail"; "acct"; a]) -> ~ P (k g ["lock"; "acct"; a]) ->
  acct_inv g ip a T r -> acct_inv g ip a T r'.
Proof.
  intros (Hh' & Hn & Hd) Hpp Hf Hl [Hh Hu Ho Hp Ha].
  split; [done|by rewrite Hd| | |].
  - intros ip' Hip. rewrite Hd by apply Hpp. auto.
  - intros n e. rewrite !Hd by apply Hpp. auto.
  - intros m e. rewrite !Hd by (done || apply Hpp). auto.
Qed.

Lemma acct_inv_check ip ip' a a' T r :
  acct_inv g ip a T r -> acct_inv g ip a T (snd (Check_ g ip' a' r)).
Proof.
  intros Hi. eapply acct_inv_frame; [apply Check_changes, Hi|..|done];
    unfold rate_key; repeat split; intros (l & E & Hne); destruct l; try done; revert E; key_ne.
Qed.

Lemma acct_inv_fail_other ip ip' a a' T r :
  has_char ":" a = false -> has_char ":" a' = false -> a' <> a ->
  acct_inv g ip a T r -> acct_inv g ip a T (snd (Fail_ g ip' a' r)).
Proof.
  intros Hc Hc' Hne Hi. eapply acct_inv_frame; [apply Fail_changes, Hi; done|..|done];
    unfold fail_keys; repeat split; intros E; decompose [or] E; clear E;
    match goal with
    | E : k g [_; "pair"; _; _] = k g [_; "pair"; _; _] |- _ =>
        first [apply pair_key_inj in E; [naive_solver|done|done] | revert E; key_ne]
    | E : k g [_; "acct"; _] = k g [_; "acct"; _] |- _ =>
        first [apply acct_key_inj in E; naive_solver | revert E; key_ne]
    | E : _ = _ |- _ => revert E; key_ne
    end.
Qed.

(** the arithmetic of one admitted failure *)
Lemma acct_inv_fail ip a r :
  acct_inv g ip a (r_now r) r ->
  rlookup r (k g ["lock"; "pair"; a; ip]) = None ->
  acct_inv g ip a (r_now r) (snd (Fail_ g ip a r)).
Proof using HP HS.
  destruct HP as [Hpos Hacct Hwin Hlock].
  intros [Hh Hu Ho Hp Ha] Hnl. set (T := r_now r) in *.
  pose proof (Fail_changes g ip a r HS Hh) as (Hh' & _ & Hd).
  destruct (failure_data g ip a r HS Hh ltac:(lia)) as (D1 & D2 & D3 & D4).
  set (pn := default (0, None) (rlookup r (k g ["fail"; "pair"; a; ip]))) in *.
  set (an := default (0, None) (rlookup r (k g ["fail"; "acct"; a]))) in *.
  set (W := Window (G_P g)) in *. set (PM := PairMax (G_P g)) in *.
  (* the pair window this failure falls in *)
  assert (exists x, match pn.2 with Some y => y | None => r_now r + W end = x /\
    T < x <= T + W /\ 0 <= pn.1 < PM /\
    ((exists n, r_data r !! k g ["fail"; "pair"; a; ip] = Some (n, Some x) /\ pn.1 = n) \/
     (x = T + W /\ pn.1 = 0 /\
      forall n y, r_data r !! k g ["fail"; "pair"; a; ip] = Some (n, Some y) -> y <= T))) as Hpair.
  { subst pn. unfold rlookup.
    destruct (r_data r !! k g ["fail"; "pair"; a; ip]) as [[n e]|] eqn:Ep; cbn.
    - destruct (Hp n e eq_refl) as (x & -> & Hn & Hx & Hfull). cbn. fold T.
      destruct (x <=? T) eqn:Ex; bool_facts; cbn.
      + exists (T + W). split_and!; try lia; try done. right. naive_solver.
      + exists x. split_and!; try lia; try done; [|naive_solver].
        assert (n <> PM); [|lia]. intros ->.
        destruct (Hfull eq_refl) as (v & y & Hl & Hy).
        unfold rlookup in Hnl. rewrite Hl in Hnl. cbn in Hnl. fold T in Hnl.
        destruct (y <=? T) eqn:Ey; [|done]. bool_facts. lia.
    - exists (T + W). split_and!; try lia; try done. right. naive_solver. }
  destruct Hpair as (x & Hx & HxT & Hpn & Hcase).
  (* the account counter stays below its threshold *)
  assert (exists f, match an.2 with Some y => y | None => r_now r + W end = f /\ f <= T + W /\
    f - W < x /\ (x <= f -> an.1 + 1 <= pn.1 + 1) /\ (f < x -> an.1 + 1 <= PM + (pn.1 + 1)) ) as Han.
  { subst an. unfold rlookup.
    destruct (r_data r !! k g ["fail"; "acct"; a]) as [[m e]|] eqn:Ea; cbn.
    - destruct (Ha m e eq_refl) as (f & -> & Hf & Hlive). cbn. fold T.
      destruct (f <=? T) eqn:Ef; bool_facts; cbn.
      + exists (T + W). split_and!; try lia; try done.
      + exists f. destruct (Hlive Ef) as (n & y & Ey & Hy & Hle & Hgt).
        destruct Hcase as [(n' & En' & Hn')|(Hx0 & Hn0 & Hdead)].
        * rewrite Ey in En'. injection En' as -> ->. split_and!; try lia; try done.
        * specialize (Hdead _ _ Ey). destruct (Hp _ _ Ey) as (y' & [= <-] & Hn & _).
          fold PM in Hn. split_and!; try lia; try done.
    - exists (T + W). split_and!; try lia; try done. }
  destruct Han as (f & Hf & HfT & Hfx & Hle & Hgt).
  rewrite Hx in D1. rewrite Hf in D3.
  assert (an.1 + 1 <= 2 * PM) as Hm by lia.
  split; [done| | | |].
  - rewrite D4, (proj2 (Z.leb_gt _ _)) by lia. done.
  - intros ip' Hip. rewrite Hd; [auto|]. unfold fail_keys. intros E. decompose [or] E; clear E;
      match goal with
      | E : k g [_; "pair"; _; _] = k g [_; "pair"; _; _] |- _ =>
          apply k_inj in E; cbn in E; first [discriminate E|injection E as E%string_app_inj_l; injection E as E]; naive_solver
      | E : _ = _ |- _ => revert E; key_ne
      end.
  - intros n e. rewrite D1. intros [= <- <-]. exists x. fold W PM.
    split_and!; try lia; try done. intros Hfull. rewrite D2, (proj2 (Z.leb_le _ _)) by lia.
    eexists _, _. split; [done|]. fold T. lia.
  - intros m e. rewrite D3. intros [= <- <-]. exists f. fold W PM. split_and!; try lia; [done|].
    intros _. exists (pn.1 + 1), x. rewrite D1. split_and!; try done; lia.
Qed.

Lemma attack_inv ip a tr r T :
  has_char ":" a = false ->
  Forall (fun e => has_char ":" e.2 = false /\ (e.2 = a -> e.1.2 = ip)) tr ->
  ordered T tr -> acct_inv g ip a T r ->
  exists T', T <= T' /\ acct_inv g ip a T' (attack g tr r).
Proof using HP HS.
  intros Hca Hall. revert r T. induction Hall as [|[[t i] b] tr [Hcb Hb] Hall IH]; intros r T Hord Hi.
  { exists T. split; [lia|done]. }
  destruct Hord as [Ht Hord]. cbn [attack fold_left]. cbn [fst snd] in *.
  assert (acct_inv g ip a t (failed_attempt g t i b r)) as Hi'.
  { unfold failed_attempt. apply (acct_inv_later _ _ _ t) in Hi; [|done].
    pose proof (acct_inv_check ip i a b t _ Hi) as Hc.
    destruct (Check_locked g i b (at_time t r) ltac:(apply Hi) HS) as (_ & Hok & _ & _).
    pose proof (Check_changes g i b (at_time t r) ltac:(apply Hi)) as (Hh & Hn & Hd).
    destruct (Check_ g i b (at_time t r)) as [[[[[] reason] err]|e] r1]; cbn [fst snd] in *; try done.
    destruct (decide (b = a)) as [->|Hne]; [|by apply acct_inv_fail_other].
    rewrite (Hb eq_refl) in *. cbn in Hn. rewrite <- Hn. apply acct_inv_fail; [by rewrite Hn|].
    specialize (Hok _ _ eq_refl). unfold rlookup in *. cbn in Hok. rewrite Hn, Hd; [done|].
    intros (l & E & Hl). destruct l; [done|]. revert E; key_ne. }
  destruct (IH _ _ Hord Hi') as (T' & ? & ?). exists T'. split; [lia|done].
Qed.

(** *** Counting the failures of one pair *)
Definition pair_data_same (ip a : string) (r r' : redis Z) : Prop :=
  r_data r' !! k g ["fail"; "pair"; a; ip] = r_data r !! k g ["fail"; "pair"; a; ip] /\
  r_data r' !! k g ["lock"; "pair"; a; ip] = r_data r !! k g ["lock"; "pair"; a; ip].

Lemma changes_keep_pair (P : string -> Prop) ip a r r' :
  changes_only P r r' -> ~ P (k g ["fail"; "pair"; a; ip]) -> ~ P (k g ["lock"; "pair"; a; ip]) ->
  pair_data_same ip a r r'.
Proof using. intros (_ & _ & Hd) H1 H2. split; by apply Hd. Qed.

Lemma Success_changes ip a r :
  healthy r -> changes_only (fun x => x = k g ["fail"; "pair"; a; ip]) r (snd (Success g ip a r)).
Proof using HS.
  intros Hh. unfold Success. rewrite HS. cbn [negb]. cbn. unfold redis_Del. rewrite (proj2 Hh). cbn [negb].
  unfold cmd_del. rewrite run_healthy by done. split_and!; [done..|].
  intros x Hx. cbn. by rewrite lookup_delete_ne by congruence.
Qed.

Lemma event_healthy e r : healthy r -> healthy (run_event g r e).
Proof using HS.
  intros Hh. unfold run_event. destruct (e_op e);
    [eapply Check_changes|eapply Fail_changes|eapply Success_changes]; done.
Qed.

(** keys of another pair *)
Lemma other_pair_key ip a e x :
  has_char ":" a = false -> has_char ":" (e_acct e) = false -> of_pair ip a e = false ->
  k g [x; "pair"; a; ip] <> k g [x; "pair"; e_acct e; e_ip e].
Proof using.
  intros Hc Hc' Hne E. apply pair_key_inj in E as [-> ->]; [|done..].
  unfold of_pair in Hne. by rewrite !String.eqb_refl in Hne.
Qed.

(** an event that is neither a failure nor a success of the pair does not
    touch its keys *)
Lemma event_other_pair ip a e r :
  has_char ":" a = false -> has_char ":" (e_acct e) = false ->
  fails_pair ip a e = false -> clears_pair ip a e = false ->
  healthy r -> pair_data_same ip a r (run_event g r e).
Proof using HS.
  intros Hc Hc' Hf Hs Hh. unfold run_event, fails_pair, clears_pair in *. change (healthy (at_time (e_at e) r)) in Hh.
  destruct (e_op e).
  - eapply (changes_keep_pair _ _ _ _ _ (Check_changes g (e_ip e) (e_acct e) (at_time (e_at e) r) Hh));
      intros (l & E & Hl); (destruct l; [done|]); revert E; key_ne.
  - pose proof (fun x => other_pair_key ip a e x Hc Hc' Hf) as Hp.
    eapply (changes_keep_pair _ _ _ _ _ (Fail_changes g (e_ip e) (e_acct e) (at_time (e_at e) r) HS Hh));
      unfold fail_keys; intros E; decompose [or] E; clear E;
      match goal with E : _ = _ |- _ => first [by apply Hp in E | revert E; key_ne] end.
  - eapply (changes_keep_pair _ _ _ _ _ (Success_changes (e_ip e) (e_acct e) (at_time (e_at e) r) Hh));
      intros E; first [by apply other_pair_key in E | revert E; key_ne].
Qed.

(** [n] failures of the pair so far, none of which has left the window that
    ends at [E] *)
Definition counted (ip a : string) (E n : Z) (r : redis Z) : Prop :=
  (n = 0 /\ forall v e, r_data r !! k g ["fail"; "pair"; a; ip] = Some (v, e) ->
     exists x, e = Some x /\ x <= E - Window (G_P g)) \/
  (0 < n /\ exists x, r_data r !! k g ["fail"; "pair"; a; ip] = Some (n, Some x) /\ E <= x).

Lemma counted_step ip a E n t r :
  healthy r -> counted ip a E n r -> E - Window (G_P g) <= t < E ->
  counted ip a E (n + 1) (snd (Fail_ g ip a (at_time t r))) /\
  (PairMax (G_P g) <= n + 1 ->
   r_data (snd (Fail_ g ip a (at_time t r))) !! k g ["lock"; "pair"; a; ip]
   = Some (1, Some (t + LockFor (G_P g)))).
Proof using HP HS.
  destruct HP. intros Hh Hc Ht.
  destruct (failure_data g ip a (at_time t r) HS Hh ltac:(lia)) as (D1 & D2 & _ & _).
  cbn [r_now at_time] in D1, D2.
  assert (exists e, default (0, None) (rlookup (at_time t r) (k g ["fail"; "pair"; a; ip])) = (n, e) /\
            0 <= n /\ E <= match e with Some x => x | None => t + Window (G_P g) end) as (e & He & Hn & HE).
  { destruct Hc as [[-> Hc]|(Hn & x & Hx & HEx)].
    - exists None. unfold rlookup. cbn.
      destruct (r_data r !! _) as [[v e]|] eqn:Ed; [|split_and!; try lia; try done].
      destruct (Hc _ _ eq_refl) as (x & -> & Hx). cbn.
      rewrite (proj2 (Z.leb_le x t)) by lia. split_and!; try lia; try done.
    - exists (Some x). rewrite (rlookup_at _ _ _ _ _ Hx). cbn.
      rewrite (proj2 (Z.leb_gt x t)) by lia. split_and!; try lia; try done. }
  rewrite He in D1, D2. cbn [fst snd] in D1, D2. split.
  - right. split; [lia|]. eexists. split; [exact D1|done].
  - intros Hmax. rewrite D2. by rewrite (proj2 (Z.leb_le _ _) Hmax).
Qed.

Lemma traffic_counted ip a E tr r n T :
  has_char ":" a = false -> Forall (fun e => has_char ":" (e_acct e) = false) tr ->
  healthy r -> counted ip a E n r -> E - Window (G_P g) <= T -> in_time T tr ->
  Forall (fun e => e_at e < E /\ clears_pair ip a e = false) tr ->
  healthy (traffic g tr r) /\
  counted ip a E (n + Z.of_nat (length (List.filter (fails_pair ip a) tr))) (traffic g tr r).
Proof using HP HS.
  intros Hca Hcs. revert r n T. induction Hcs as [|e tr Hcb Hcs IH]; intros r n T Hh Hc HT Ho Hlt.
  { rewrite Z.add_0_r. done. }
  cbn [traffic fold_left]. destruct Ho as [Ht Ho].
  inversion_clear Hlt as [|? ? [Hlt1 Hnc] Hlt2].
  pose proof (event_healthy e r Hh) as Hh'.
  cbn [List.filter]. destruct (fails_pair ip a e) eqn:Hp.
  - unfold fails_pair, of_pair in Hp. unfold run_event in *. destruct (e_op e); try done.
    apply andb_true_iff in Hp as [Hi%String.eqb_eq Ha%String.eqb_eq]. rewrite Hi, Ha in *.
    destruct (counted_step ip a E n (e_at e) r Hh Hc ltac:(lia)) as [Hc' _].
    destruct (IH _ _ (e_at e) Hh' Hc' ltac:(lia) Ho Hlt2) as [? Hfin]. split; [done|].
    cbn [length]. replace (n + Z.of_nat _) with (n + 1 + Z.of_nat (length (List.filter (fails_pair ip a) tr))) by lia.
    done.
  - destruct (event_other_pair ip a e r Hca Hcb Hp Hnc Hh) as [Hsame _].
    apply (IH _ n (e_at e)); [done| |lia|done|done].
    unfold counted in *. by rewrite Hsame.
Qed.

(** a held lock outlives every event: a failure can only renew it *)
Lemma traffic_keeps_lock ip a tr r T y :
  has_char ":" a = false -> Forall (fun e => has_char ":" (e_acct e) = false) tr ->
  healthy r -> in_time T tr -> y <= T + LockFor (G_P g) ->
  (exists v x, r_data r !! k g ["lock"; "pair"; a; ip] = Some (v, Some x) /\ y <= x) ->
  healthy (traffic g tr r) /\
  exists v x, r_data (traffic g tr r) !! k g ["lock"; "pair"; a; ip] = Some (v, Some x) /\ y <= x.
Proof using HP HS.
  destruct HP. intros Hca Hcs. revert r T. induction Hcs as [|e tr Hcb Hcs IH]; intros r T Hh Ho Hy Hl; [done|].
  cbn [traffic fold_left]. destruct Ho as [Ht Ho].
  apply (IH _ (e_at e)); [by apply event_healthy|done|lia|].
  destruct (fails_pair ip a e) eqn:Hp, (clears_pair ip a e) eqn:Hs;
    [by unfold fails_pair, clears_pair in *; destruct (e_op e)| | |].
  - unfold fails_pair, of_pair in Hp. unfold run_event. destruct (e_op e); try done.
    apply andb_true_iff in Hp as [->%String.eqb_eq ->%String.eqb_eq].
    destruct (failure_data g ip a (at_time (e_at e) r) HS Hh ltac:(lia)) as (_ & -> & _).
    destruct (_ <=? _); [|done]. eexists _, _. split; [done|]. cbn. lia.
  - unfold clears_pair, of_pair in Hs. unfold run_event. destruct (e_op e); try done.
    apply andb_true_iff in Hs as [->%String.eqb_eq ->%String.eqb_eq].
    destruct (Success_changes ip a (at_time (e_at e) r) Hh) as (_ & _ & Hd).
    rewrite Hd; [done|]. key_ne.
  - by destruct (event_other_pair ip a e r Hca Hcb Hp Hs Hh) as [_ ->].
Qed.
End lockout.

(** ** Properties *)

Section check_spec.
Context {W : Type} `{CounterStore W}.

(** the walk through the questions that [Check] is *)
Fixpoint ask (fc : bool) (qs : list (prog W bool * string)) : prog W CheckResult :=
  match qs with
  | [] => ret (true, "", None)
  | (q, reason) :: rest =>
      let! a := attempt q in
      match a with
      | Err e => ret (negb fc, "store_error", Some e)
      | Ok true => ret (false, reason, None)
      | Ok false => ask fc rest
      end
  end.

Lemma Check_ask g ip acct w :
  G_S g = true -> Check_ g ip acct w = ask (failClosed g) (questions g ip acct) w.
Proof.
  intros HS. unfold Check_. rewrite HS. cbn [negb check_locks ask questions].
  unfold over, bind, attempt, ret.
  do 3 (destruct (Locked _ _) as [[[]|] ?]; try done).
  destruct (Incr _ _ _) as [[n|] w4]; [|done]. destruct (IPPerMin (G_P g) <? n); [done|].
  destruct (Incr _ _ _) as [[m|] w5]; [|done]. by destruct (AcctPerMin (G_P g) <? m).
Qed.

Lemma stops_ask fc (qs : list (prog W bool * string)) w r reason w' :
  stops qs w r reason w' ->
  ask fc qs w = match r with
                | Ok _ => (Ok (false, reason, None), w')
                | Err e => (Ok (negb fc, "store_error", Some e), w')
                end.
Proof.
  induction 1 as [q reason qs w r w' Hq Hr|q reason qs w w1 r reason' w' Hq _ IH];
    cbn [ask]; unfold bind, attempt; rewrite Hq; [|done].
  by destruct r as [[]|e].
Qed.

Lemma ask_stops fc (qs : list (prog W bool * string)) w ok reason err w' :
  ask fc qs w = (Ok (ok, reason, err), w') -> ok = false \/ err <> None ->
  exists r rs, stops qs w r rs w' /\
    match r with Ok _ => reason = rs /\ err = None | Err e => reason = "store_error" /\ err = Some e end.
Proof.
  intros E Hno. revert w E. induction qs as [|[q rs] qs IH]; intros w; cbn [ask].
  { intros [= <- <- <- <-]. by destruct Hno. }
  unfold bind, attempt. destruct (q w) as [[[]|e] w1] eqn:Hq.
  - intros [= <- <- <- <-]. exists (Ok true), rs. split; [by apply stops_here|done].
  - intros E. destruct (IH w1 E) as (r & rs' & Hs & Hr). exists r, rs'. split; [by eapply stops_later|done].
  - intros [= <- <- <- <-]. exists (Err e), rs. split; [by apply stops_here|done].
Qed.
Lemma stops_yes (qs : list (prog W bool * string)) w b reason w' : stops qs w (Ok b) reason w' -> b = true.
Proof. remember (Ok b) as r eqn:Er. induction 1; [|auto]. subst r. by destruct b. Qed.

Lemma Check_admits g ip acct w w' reason err :
  Check_ g ip acct w = (Ok (true, reason, err), w') -> failClosed g = true ->
  reason = "" /\ err = None /\ G_S g = true /\
  exists w1 w2 w3 w4 n m,
    Locked (k g ["lock"; "pair"; acct; ip]) w = (Ok false, w1) /\
    Locked (k g ["lock"; "ip"; ip]) w1 = (Ok false, w2) /\
    Locked (k g ["lock"; "acct"; acct]) w2 = (Ok false, w3) /\
    Incr (k g ["rate"; "ip"; ip]) Minute w3 = (Ok n, w4) /\ n <= IPPerMin (G_P g) /\
    Incr (k g ["rate"; "acct"; acct]) Minute w4 = (Ok m, w') /\ m <= AcctPerMin (G_P g).
Proof.
  intros E Hfc. unfold Check_ in E. rewrite Hfc in E. destruct (G_S g); [|done].
  cbn [negb check_locks] in E. unfold bind, attempt, ret in E.
  destruct (Locked _ w) as [[[]|] w1] eqn:L1; [done| |done].
  destruct (Locked _ w1) as [[[]|] w2] eqn:L2; [done| |done].
  destruct (Locked _ w2) as [[[]|] w3] eqn:L3; [done| |done].
  destruct (Incr _ _ w3) as [[n|] w4] eqn:I4; [|done].
  destruct (Z.ltb_spec (IPPerMin (G_P g)) n); [done|].
  destruct (Incr _ _ w4) as [[m|] w5] eqn:I5; [|done].
  destruct (Z.ltb_spec (AcctPerMin (G_P g)) m); [done|]. simplify_eq.
  split_and!; try done. by exists w1, w2, w3, w4, n, m.
Qed.
End check_spec.

(** C3. Fail-closed portals: over any counter store, the guard of a
    fail-closed policy admits an attempt exactly when every one of the five
    store calls succeeded, no lock is held and both rate counters are within
    their limits; it denies with an error [e] exactly when the store is nil or
    one of the calls, the ones before it having been answered no, failed with
    [e]; it denies without an error exactly when the first call not answered
    no said that a lock is held or a rate is exceeded, for that call's reason.
    A denial with an error is the status 503, one without it 429. *)
Theorem guard_fail_closed {W} `{CounterStore W} g ip acct w w' reason err :
  failClosed g = true ->
  (Check_ g ip acct w = (Ok (true, reason, err), w') <->
   reason = "" /\ err = None /\ G_S g = true /\
   exists w1 w2 w3 w4 n m,
     Locked (k g ["lock"; "pair"; acct; ip]) w = (Ok false, w1) /\
     Locked (k g ["lock"; "ip"; ip]) w1 = (Ok false, w2) /\
     Locked (k g ["lock"; "acct"; acct]) w2 = (Ok false, w3) /\
     Incr (k g ["rate"; "ip"; ip]) Minute w3 = (Ok n, w4) /\ n <= IPPerMin (G_P g) /\
     Incr (k g ["rate"; "acct"; acct]) Minute w4 = (Ok m, w') /\ m <= AcctPerMin (G_P g)) /\
  (forall ok reason e, Check_ g ip acct w = (Ok (ok, reason, Some e), w') <->
     ok = false /\ reason = "store_error" /\
     (G_S g = false /\ e = ErrStoreUnavailable /\ w' = w \/
      G_S g = true /\ exists rs, stops (questions g ip acct) w (Err e) rs w')) /\
  (forall reason, Check_ g ip acct w = (Ok (false, reason, None), w') <->
     G_S g = true /\ stops (questions g ip acct) w (Ok true) reason w') /\
  (forall e, CheckStatus g false (Some e) = StatusServiceUnavailable) /\
  CheckStatus g false None = StatusTooManyRequests.
Proof.
  intros Hfc. unfold CheckStatus. rewrite Hfc.
  split; [split; [intros E; by apply Check_admits|]|].
  { intros (-> & -> & HS & w1 & w2 & w3 & w4 & n & m & H1 & H2 & H3 & H4 & H5 & H6 & H7).
    rewrite Check_ask by done. cbn [ask questions]. unfold over, bind, attempt, ret. rewrite H1, H2, H3, H4.
    rewrite (proj2 (Z.ltb_ge _ _)), H6 by done. by rewrite (proj2 (Z.ltb_ge _ _)). }
  destruct (G_S g) eqn:HS.
  2: { unfold Check_. rewrite HS, Hfc. cbn [negb]. unfold ret. split; [|split; [|done]].
       - intros ok reason' e. split; [intros E; simplify_eq; by auto 6|].
         by intros (-> & -> & [(_ & -> & ->)|[? _]]).
       - intros reason'. split; [by intros [=]|by intros [? _]]. }
  rewrite Check_ask, Hfc by done. split; [|split; [|done]].
  - intros ok reason' e. split.
    + intros E. destruct (ask_stops _ _ _ _ _ _ _ E) as (r & rs & Hs & Hr); [by right|].
      destruct r as [b|e']; destruct Hr as [-> [=]]; subst e'.
      rewrite (stops_ask _ _ _ _ _ _ Hs) in E. injection E as <-. eauto 10.
    + intros (-> & -> & [[? _]|(_ & rs & Hs)]); [done|]. by rewrite (stops_ask _ _ _ _ _ _ Hs).
  - intros reason'. split.
    + intros E. destruct (ask_stops _ _ _ _ _ _ _ E) as (r & rs & Hs & Hr); [by left|].
      destruct r as [b|e']; destruct Hr as [-> [=]]. pose proof (stops_yes _ _ _ _ _ Hs) as ->. done.
    + intros [_ Hs]. by rewrite (stops_ask _ _ _ _ _ _ Hs).
Qed.

Definition guard0 : Guard := loginGuard PortalAdmin.
Definition redis0 : redis Z := Build_redis ∅ 0 [] true.

Lemma guard_fail_closed_witness :
  failClosed guard0 = true /\
  exists w', Check_ guard0 "10.0.0.1" "ab" redis0 = (Ok (true, "", None), w').
Proof.
  split; [reflexivity|]. eexists.
  apply (guard_fail_closed guard0 "10.0.0.1" "ab" redis0 _ "" None); [reflexivity|].
  repeat split. eexists _, _, _, _, 1, 1. repeat split; try reflexivity; vm_compute; discriminate.
Defined.

(** C4. Pair lockout: under a sound policy, on a healthy store, account keys
    being free of colons as their hashes are, let the pair counter of (account,
    address) be dead at [t0] and let a history of guard calls of any accounts
    from any addresses (checks, failures and successes in any order), all
    before [t0 + Window] and without a success of the pair, contain at least
    [PairMax - 1] failures of the pair.  After one more failure of the pair at
    [t1], and whatever guard calls follow (successes of the pair included),
    every [Check] of the pair before [t1 + LockFor] is denied as locked and
    touches nothing. *)
Theorem pair_lockout g `{SoundPolicy (G_P g)} ip a t0 tr1 t1 tr2 t r :
  let last := {| e_at := t1; e_op := OpFail; e_ip := ip; e_acct := a |} in
  G_S g = true -> healthy r -> has_char ":" a = false ->
  Forall (fun e => has_char ":" (e_acct e) = false) (tr1 ++ last :: tr2) ->
  in_time t0 (tr1 ++ last :: tr2) ->
  rlookup (at_time t0 r) (k g ["fail"; "pair"; a; ip]) = None ->
  (forall v, r_data r !! k g ["fail"; "pair"; a; ip] <> Some (v, None)) ->
  Forall (fun e => e_at e < t0 + Window (G_P g) /\ clears_pair ip a e = false) (tr1 ++ [last]) ->
  PairMax (G_P g) - 1 <= Z.of_nat (length (List.filter (fails_pair ip a) tr1)) ->
  t < t1 + LockFor (G_P g) ->
  let r' := at_time t (traffic g (tr1 ++ last :: tr2) r) in
  Check_ g ip a r' = (Ok (false, ReasonLockedPair, None), r').
Proof.
  intros last HS Hh Hca Hcs Ho Hdead Hexp Hwin Hcount Ht r'.
  apply Forall_app in Hcs as [Hcs1 [_ Hcs2]%Forall_cons_1].
  apply Forall_app in Hwin as [Hwin1 [[Hwin2 _] _]%Forall_cons_1]. cbn in Hwin2.
  assert (in_time t0 tr1 /\ t0 <= t1 /\ in_time t1 tr2) as (Ho1 & Ht1 & Ho2).
  { clear -Ho. revert t0 Ho. induction tr1 as [|e tr1 IH]; intros t0; cbn; [naive_solver|].
    intros [? Ho]. destruct (IH _ Ho) as (?&?&?). split_and!; auto; lia. }
  assert (counted g ip a (t0 + Window (G_P g)) 0 r) as Hc0.
  { left. split; [done|]. intros v e He. rewrite (rlookup_at _ _ _ _ _ He) in Hdead.
    destruct e as [x|]; [|by destruct (Hexp v)]. cbn in Hdead. exists x. split; [done|].
    destruct (x <=? t0) eqn:E; [|done]. bool_facts. lia. }
  destruct (traffic_counted g HS ip a _ tr1 r 0 t0 Hca Hcs1 Hh Hc0 ltac:(lia) Ho1 Hwin1) as [Hh1 Hc1].
  assert (Hstep := counted_step g HS ip a _ _ t1 _ Hh1 Hc1 ltac:(lia)).
  destruct Hstep as [_ Hlock]. specialize (Hlock ltac:(lia)).
  subst r'. unfold traffic. rewrite fold_left_app. cbn [fold_left].
  fold (traffic g tr1 r). set (r1 := run_event g (traffic g tr1 r) last) in *.
  fold (traffic g tr2 r1).
  assert (healthy r1) as Hhr1 by (by apply event_healthy).
  destruct (traffic_keeps_lock g HS ip a tr2 r1 t1 (t1 + LockFor (G_P g)) Hca Hcs2 Hhr1 Ho2 ltac:(lia))
    as (Hh2 & v & x & Hx & Hle); [by eexists _, _|].
  apply (proj1 (Check_locked g ip a (at_time t (traffic g tr2 r1)) Hh2 HS)). rewrite (rlookup_at _ _ _ _ _ Hx). cbn.
  rewrite (proj2 (Z.leb_gt x t)) by lia. done.
Qed.

Definition at_minute (op : guard_op) (m : Z) : event :=
  {| e_at := m * Minute; e_op := op; e_ip := "10.0.0.1"; e_acct := "ab" |}.

Lemma pair_lockout_witness :
  let tr1 := concat (map (fun m => [at_minute OpCheck m; at_minute OpFail m]) [1; 2; 3; 4]) in
  let r' := at_time (6 * Minute) (traffic guard0 (tr1 ++ at_minute OpFail 5 :: [at_minute OpSuccess 6]) redis0) in
  Check_ guard0 "10.0.0.1" "ab" r' = (Ok (false, ReasonLockedPair, None), r').
Proof.
  intros tr1.
  refine (pair_lockout guard0 (H:=AdminPolicy_sound) "10.0.0.1" "ab" 0 tr1 (5 * Minute) [at_minute OpSuccess 6]
            (6 * Minute) redis0 eq_refl (conj eq_refl eq_refl) eq_refl _ _ eq_refl _ _ _ eq_refl).
  - by repeat constructor.
  - cbn. repeat split; vm_compute; discriminate.
  - intros v. vm_compute. discriminate.
  - by repeat constructor.
  - vm_compute. discriminate.
Defined.

(** C5. One address cannot lock an account: take an account none of whose
    keys exist and any ordered trace of failing login attempts, each first put
    to the guard, in which that account is only attacked from the address
    [ip].  Whatever the trace does to other accounts, and however long it
    runs, a login of the account from any other address is never denied
    because the account, or the account at that address, is locked. *)
Theorem single_address_cannot_lock_account g `{SoundPolicy (G_P g)} ip a tr r t0 t ip' :
  G_S g = true -> healthy r -> clean g a r -> has_char ":" a = false ->
  Forall (fun e => has_char ":" e.2 = false /\ (e.2 = a -> e.1.2 = ip)) tr ->
  ordered t0 tr -> ip' <> ip ->
  let answer := fst (Check_ g ip' a (at_time t (attack g tr r))) in
  answer <> Ok (false, ReasonLockedAcct, None) /\ answer <> Ok (false, ReasonLockedPair, None).
Proof.
  intros HS Hh Hclean Hca Hall Ho Hip answer.
  destruct (attack_inv g HS ip a tr r t0 Hca Hall Ho (acct_inv_clean g ip a t0 r Hh Hclean))
    as (T & HT & [Hh' Hu Hoth _ _]).
  destruct (Check_locked g ip' a (at_time t (attack g tr r)) Hh' HS) as (_ & _ & Hacct & Hpair).
  split; intros E; [apply Hacct in E|apply Hpair in E]; destruct E as [? E]; unfold rlookup in E;
    change (r_data (at_time t (attack g tr r))) with (r_data (attack g tr r)) in E.
  - by rewrite Hu in E.
  - by rewrite Hoth in E.
Qed.

Lemma single_address_cannot_lock_account_witness :
  let tr := map (fun t => (t * Minute, "10.0.0.1", "ab")) [1; 2; 3; 4; 5; 6; 21; 22; 23] in
  fst (Check_ guard0 "10.0.0.2" "ab" (at_time (24 * Minute) (attack guard0 tr redis0)))
  <> Ok (false, ReasonLockedAcct, None).
Proof.
  intros tr.
  refine (proj1 (single_address_cannot_lock_account guard0 (H:=AdminPolicy_sound) "10.0.0.1" "ab" tr
            redis0 0 (24 * Minute) "10.0.0.2" eq_refl (conj eq_refl eq_refl) _ eq_refl _ _ _)).
  - by repeat split.
  - repeat constructor.
  - cbn. repeat split; vm_compute; discriminate.
  - discriminate.
Defined.
