(* ===== verification/TenantAccess.v ===== *)
(** * Tenant access consent

    Models [tenantaccess/grant.go], [service.go] and [api.go]: a platform admin
    asks for access to a tenant, the tenant's owner approves (with a scope,
    modules and a duration), rejects or revokes, and [ActiveGrant] decides
    whether impersonation is allowed now.  The state is the system database:
    tenants, accounts and the [tenant_access_request] table with its primary
    key, foreign keys and partial unique index on pending requests; every query
    can fail before or after taking effect.  Postgres' text form of arrays is
    not the program's code: it is the class [PgArray], with the documented
    behaviour the code relies on. *)
From S2P Require Import Prelude GoStrings AdminSession.

Open Scope string_scope.
Open Scope Z_scope.

(** ** Constants *)
Definition ScopeFull : string := "full".
Definition ScopeLimited : string := "limited".
Definition StatusPending : string := "pending".
Definition StatusApproved : string := "approved".
Definition StatusRejected : string := "rejected".
Definition StatusRevoked : string := "revoked".
Definition StatusExpired : string := "expired".
Definition Duration24h : Z := 24.
Definition Duration7d : Z := 168.
Definition Duration30d : Z := 720.
Definition DurationPermanent : Z := 0.

(** ** Text arrays *)
Definition quote : ascii := byte 34.
Definition backslash : ascii := byte 92.
Definition quoted (s : string) : string := String quote (s ++ String quote "").

(** the loop body of [formatTextArray]: nothing for a blank element *)
Definition array_part (v : string) : list string :=
  let v := TrimSpace v in
  if String.eqb v "" then []
  else
    let escaped := ReplaceAll v backslash (String backslash (String backslash "")) in
    let escaped := ReplaceAll escaped quote (String backslash (String quote "")) in
    [quoted escaped].
Definition formatTextArray (vals : list string) : string :=
  match flat_map array_part vals with
  | [] => "{}"
  | parts => "{" ++ Join parts "," ++ "}"
  end.

(** [json.Unmarshal] into a [[]string]: [None] on an error or a nil slice *)
Class GoJson := { Unmarshal_strings : string -> option (list string) }.

(** the loop body of [parseTextArray] *)
Definition parsed_part (p : string) : list string :=
  let p := TrimSpace (Trim p (String quote "")) in
  if String.eqb p "" then [] else [p].

(** [None] is SQL NULL. *)
Definition parseTextArray `{GoJson} (raw : option string) : list string :=
  match raw with
  | None => []
  | Some raw =>
      let s := TrimSpace raw in
      if String.eqb s "" || String.eqb s "{}" then []
      else
        match (if HasPrefix s "[" then Unmarshal_strings s else None) with
        | Some tags => tags
        | None =>
            let inner := TrimPrefix (TrimSuffix s "}") "{" in
            if String.eqb inner "" then []
            else flat_map parsed_part (Split inner ",")
        end
  end.

(** ** Scopes, modules, durations *)
Definition normalizeScope (scope : string) : string :=
  if String.eqb (ToLower (TrimSpace scope)) ScopeLimited then ScopeLimited else ScopeFull.

Definition errModulesRequired : error := EText "modul wajib dipilih untuk akses terbatas".

(** the loop over [modules]: [seen] and [out] hold the same names *)
Fixpoint collect_modules (modules out : list string) : result (list string) :=
  match modules with
  | [] => Ok out
  | m :: rest =>
      let m := TrimSpace m in
      if String.eqb m "" then collect_modules rest out
      else if negb (ValidTenantModule m) then Err (EText ("modul tidak dikenal: " ++ m))
      else if existsb (String.eqb m) out then collect_modules rest out
      else collect_modules rest (out ++ [m])%list
  end.

Definition normalizeModules (scope : string) (modules : list string) : result (list string) :=
  if negb (String.eqb scope ScopeLimited) then Ok []
  else
    match modules with
    | [] => Err errModulesRequired
    | _ =>
        match collect_modules modules [] with
        | Err e => Err e
        | Ok [] => Err errModulesRequired
        | Ok out => Ok out
        end
    end.

Definition grantModulesFromScope (scope : string) (modules : list string) : list string :=
  if negb (String.eqb scope ScopeLimited) then [] else modules.

Definition isGrantActive (expiresAt : option Z) (now : Z) : bool :=
  match expiresAt with None => true | Some t => now <? t end.

Definition durationFromPreset (preset : string) : result Z :=
  let p := ToLower (TrimSpace preset) in
  if String.eqb p "24h" || String.eqb p "24" then Ok Duration24h
  else if String.eqb p "7d" || String.eqb p "168" then Ok Duration7d
  else if String.eqb p "30d" || String.eqb p "720" then Ok Duration30d
  else if String.eqb p "permanent" || String.eqb p "permanen" || String.eqb p "" then Ok DurationPermanent
  else Err (EText "durasi tidak valid").

Definition expiresAtFromDuration (hours now : Z) : option Z :=
  if hours <=? 0 then None else Some (now + hours * Hour).

(** ** Data *)
Record GrantInfo := {
  G_RequestID : string; G_Scope : string; G_Modules : list string; G_ExpiresAt : option Z
}.

(** the API's view of a row; nil slices and empty slices are both [[]] *)
Record AccessRequest := {
  AR_ID : string; RequesterAccountID : string; AR_TenantID : string; Reason : string;
  RequestedScope : string; RequestedModules : list string; AR_Status : string;
  GrantedScope : option string; GrantedModules : list string; DurationHours : option Z;
  AR_ExpiresAt : option Z; RespondedBy : option string; RespondedAt : option Z;
  RejectReason : option string; CreatedAt : Z; UpdatedAt : Z; TenantName : string;
  RequesterName : string; RequesterEmail : string
}.

(** a row of [tenant_access_request]; the array columns hold Postgres arrays *)
Record access_row := {
  r_id : string; r_requester : string; r_tenant : string; r_reason : string;
  r_scope : string; r_modules : list string; r_status : string;
  r_gscope : option string; r_gmodules : list string; r_hours : option Z;
  r_expires : option Z; r_by : option string; r_at : option Z; r_reject : option string;
  r_created : Z; r_updated : Z
}.

Record tenant_row := {
  t_slug : string; t_name : string; t_status : string; t_deleted : bool;
  t_schema : option string   (** tenant_company.schema_name *)
}.
Record account_row := {
  a_tenant : option string; a_role : string; a_name : string; a_email : string; a_deleted : bool
}.

(** what is recorded besides the table: audit rows and notifications *)
Inductive effect : Type :=
  | Audit (tenantID userID action entityID : string) (changes : list (string * string))
  | Notify (accountIDs : list string) (kind title body link : string).

Record sysdb := {
  tenants : gmap string tenant_row; accounts : list (string * account_row);
  requests : list access_row; effects : list effect
}.
Definition set_requests rs d : sysdb :=
  {| tenants := tenants d; accounts := accounts d; requests := rs; effects := effects d |}.
Definition add_effect e d : sysdb :=
  {| tenants := tenants d; accounts := accounts d; requests := requests d;
     effects := (effects d ++ [e])%list |}.

(** The world of a handler: the database, the clock, the ids
    [gen_random_uuid] will draw, the outcomes of the coming queries. *)
Record sysw := { s_db : sysdb; s_now : Z; s_ids : list string; s_faults : list fault }.
Definition set_db d w : sysw :=
  {| s_db := d; s_now := s_now w; s_ids := s_ids w; s_faults := s_faults w |}.

Definition query_error : error := EText "db error".
(** one autocommitted statement; constraint violations are its own errors *)
Definition query {A} (f : sysdb -> result A * sysdb) : prog sysw A := fun w =>
  let w1 := {| s_db := s_db w; s_now := s_now w; s_ids := s_ids w; s_faults := tail (s_faults w) |} in
  match default Fine (head (s_faults w)) with
  | Fine => let '(r, d) := f (s_db w) in (r, set_db d w1)
  | FailBefore => (Err query_error, w1)
  | FailAfter => (Err query_error, set_db (snd (f (s_db w))) w1)
  end.
Definition now_ : prog sysw Z := fun w => (Ok (s_now w), w).
Definition fresh_id : prog sysw string := fun w =>
  (Ok (default "" (head (s_ids w))),
   {| s_db := s_db w; s_now := s_now w; s_ids := tail (s_ids w); s_faults := s_faults w |}).
(** [audit.Log], [notification.CreateForAccounts]: best effort, no error seen *)
Definition record_effect (e : effect) : prog sysw unit :=
  ignore (query (fun d => (Ok tt, add_effect e d))).

Definition lookup_account (id : string) (d : sysdb) : option account_row :=
  snd <$> List.find (fun a => String.eqb a.1 id) (accounts d).
Definition lookup_request (id : string) (d : sysdb) : option access_row :=
  List.find (fun r => String.eqb (r_id r) id) (requests d).

(** UPDATE … WHERE id = $ AND status = $ *)
Definition update_request (id status : string) (f : access_row -> access_row) (d : sysdb) : sysdb :=
  set_requests (map (fun r =>
    if String.eqb (r_id r) id && String.eqb (r_status r) status then f r else r) (requests d)) d.

Definition with_status (status : string) (now : Z) (r : access_row) : access_row :=
  {| r_id := r_id r; r_requester := r_requester r; r_tenant := r_tenant r; r_reason := r_reason r;
     r_scope := r_scope r; r_modules := r_modules r; r_status := status; r_gscope := r_gscope r;
     r_gmodules := r_gmodules r; r_hours := r_hours r; r_expires := r_expires r; r_by := r_by r;
     r_at := r_at r; r_reject := r_reject r; r_created := r_created r; r_updated := now |}.
Definition with_rejection (reason owner : string) (now : Z) (r : access_row) : access_row :=
  {| r_id := r_id r; r_requester := r_requester r; r_tenant := r_tenant r; r_reason := r_reason r;
     r_scope := r_scope r; r_modules := r_modules r; r_status := StatusRejected;
     r_gscope := r_gscope r; r_gmodules := r_gmodules r; r_hours := r_hours r;
     r_expires := r_expires r; r_by := Some owner; r_at := Some now; r_reject := Some reason;
     r_created := r_created r; r_updated := now |}.
Definition with_grant (scope : string) (modules : list string) (hours expires : option Z)
    (owner : string) (now : Z) (r : access_row) : access_row :=
  {| r_id := r_id r; r_requester := r_requester r; r_tenant := r_tenant r; r_reason := r_reason r;
     r_scope := r_scope r; r_modules := r_modules r; r_status := StatusApproved;
     r_gscope := Some scope; r_gmodules := modules; r_hours := hours;
     r_expires := expires; r_by := Some owner; r_at := Some now; r_reject := r_reject r;
     r_created := r_created r; r_updated := now |}.

(** ** Postgres' array text, as far as the code relies on it *)
Definition plain_char (c : ascii) : bool := (97 <=? code c)%N && (code c <=? 122)%N.
Fixpoint plain_chars (s : string) : bool :=
  match s with "" => true | String c s' => plain_char c && plain_chars s' end.
(** a lower-case word other than the NULL marker *)
Definition plain_word (s : string) : bool :=
  plain_chars s && negb (String.eqb s "") && negb (String.eqb s "null").

Class PgArray := {
  array_in : string -> option (list string);   (** [$::text[]] *)
  array_out : list string -> string;
  array_in_quoted l : forallb plain_word l = true -> l <> [] ->
    array_in ("{" ++ Join (map quoted l) "," ++ "}") = Some l;
  array_in_empty : array_in "{}" = Some [];
  array_out_plain l : forallb plain_word l = true ->
    array_out l = "{" ++ Join l "," ++ "}"
}.

(** ** Operations *)
Section operations.
Context `{GoJson} `{PgArray}.

(** ORDER BY responded_at DESC NULLS LAST, created_at DESC *)
Definition newer (a b : access_row) : bool :=
  match r_at a, r_at b with
  | Some x, Some y => (y <? x) || ((x =? y) && (r_created b <? r_created a))
  | Some _, None => true
  | None, Some _ => false
  | None, None => r_created b <? r_created a
  end.
Definition newest (rs : list access_row) : option access_row :=
  fold_left (fun best r =>
    match best with
    | None => Some r
    | Some b => if newer r b then Some r else Some b
    end) rs None.
Definition approved_for (requester tenant : string) (r : access_row) : bool :=
  String.eqb (r_requester r) requester && String.eqb (r_tenant r) tenant
  && String.eqb (r_status r) StatusApproved.

Definition ActiveGrant (requesterAccountID tenantID : string) : prog sysw (option GrantInfo) :=
  let! now := now_ in
  let! row := query (fun d =>
    (Ok (newest (List.filter (approved_for requesterAccountID tenantID) (requests d))), d)) in
  match row with
  | None => ret None
  | Some r =>
      let scope := default "full" (r_gscope r) in
      if negb (isGrantActive (r_expires r) now) then
        ignore (query (fun d =>
          (Ok tt, update_request (r_id r) StatusApproved (with_status StatusExpired now) d)));!
        ret None
      else
        let modules := parseTextArray (Some (array_out (r_gmodules r))) in
        let modules := if String.eqb scope ScopeFull then [] else modules in
        ret (Some {| G_RequestID := r_id r; G_Scope := scope; G_Modules := modules;
                     G_ExpiresAt := r_expires r |})
  end.

Definition is_pending (requester tenant : string) (r : access_row) : bool :=
  String.eqb (r_requester r) requester && String.eqb (r_tenant r) tenant
  && String.eqb (r_status r) StatusPending.

Definition HasPendingRequest (requesterAccountID tenantID : string) : prog sysw bool :=
  query (fun d => (Ok (existsb (is_pending requesterAccountID tenantID) (requests d)), d)).

Definition is_owner (tenantID : string) (a : account_row) : bool :=
  bool_decide (a_tenant a = Some tenantID) && String.eqb (a_role a) "owner" && negb (a_deleted a).

Definition ListOwnerAccountIDs (tenantID : string) : prog sysw (list string) :=
  query (fun d => (Ok (map fst (List.filter (fun a => is_owner tenantID a.2) (accounts d))), d)).

(** *** CreateRequest *)
Record CreateRequestParams := {
  C_TenantID : string; C_Reason : string; C_RequestedScope : string; C_RequestedModules : list string
}.
Definition InvalidArg (msg : string) : error := ECode InvalidArgument msg.
Definition pending_index : string := "idx_tar_pending_requester_tenant".

(** INSERT … RETURNING: foreign keys, primary key, the partial unique index *)
Definition insert_request (id requester tenant reason scope modules : string) (now : Z) (d : sysdb)
  : result access_row * sysdb :=
  match array_in modules with
  | None => (Err (EText "malformed array literal"), d)
  | Some ms =>
      let row := {| r_id := id; r_requester := requester; r_tenant := tenant; r_reason := reason;
                    r_scope := scope; r_modules := ms; r_status := StatusPending; r_gscope := None;
                    r_gmodules := []; r_hours := None; r_expires := None; r_by := None; r_at := None;
                    r_reject := None; r_created := now; r_updated := now |} in
      if bool_decide (is_Some (lookup_request id d)) then
        (Err (EText "duplicate key value violates unique constraint tenant_access_request_pkey"), d)
      else if existsb (is_pending requester tenant) (requests d) then
        (Err (EText ("duplicate key value violates unique constraint " ++ pending_index)), d)
      else if bool_decide (lookup_account requester d = None) || bool_decide (tenants d !! tenant = None)
      then (Err (EText "violates foreign key constraint"), d)
      else (Ok row, set_requests (requests d ++ [row])%list d)
  end.

Definition CreateRequest (requesterAccountID : string) (p : option CreateRequestParams)
  : prog sysw AccessRequest :=
  match p with
  | None => throw (InvalidArg "parameter tidak valid")
  | Some p =>
      let tenantID := TrimSpace (C_TenantID p) in
      let reason := TrimSpace (C_Reason p) in
      if String.eqb tenantID "" then throw (InvalidArg "tenant wajib dipilih")
      else if String.eqb reason "" then throw (InvalidArg "alasan wajib diisi")
      else
        let scope := normalizeScope (C_RequestedScope p) in
        match normalizeModules scope (C_RequestedModules p) with
        | Err e => throw (InvalidArg (error_text e))
        | Ok modules =>
            let! tenant := attempt (query (fun d =>
              (Ok (match tenants d !! tenantID with
                   | Some t => if t_deleted t then None else Some (t_name t)
                   | None => None
                   end), d))) in
            match tenant with
            | Err _ => throw (ECode Internal "lookup tenant gagal")
            | Ok None => throw (ECode NotFound "tenant tidak ditemukan")
            | Ok (Some tenantName) =>
                let! owners := attempt (ListOwnerAccountIDs tenantID) in
                match owners with
                | Err _ => throw (ECode Internal "lookup owner gagal")
                | Ok [] => throw (ECode FailedPrecondition
                    "tenant tidak memiliki owner aktif — persetujuan tidak dapat diajukan")
                | Ok ownerIDs =>
                    let! pending := attempt (HasPendingRequest requesterAccountID tenantID) in
                    match pending with
                    | Err _ => throw (ECode Internal "cek request gagal")
                    | Ok true => throw (ECode AlreadyExists "sudah ada permintaan pending untuk tenant ini")
                    | Ok false =>
                        let! id := fresh_id in
                        let! now := now_ in
                        let! inserted := attempt (query (insert_request id requesterAccountID tenantID
                          reason scope (formatTextArray modules) now)) in
                        match inserted with
                        | Err e =>
                            if Contains (error_text e) pending_index
                            then throw (ECode AlreadyExists "sudah ada permintaan pending untuk tenant ini")
                            else throw (ECode Internal "buat permintaan gagal")
                        | Ok row =>
                            record_effect (Audit tenantID requesterAccountID "tenant_access.request"
                              (r_id row) [("scope", scope)]);!
                            record_effect (Notify ownerIDs "tenant_access.request"
                              "Permintaan akses tenant"
                              ("Staff platform meminta akses ke tenant " ++ tenantName)
                              "/dashboard/access-requests");!
                            ret {| AR_ID := r_id row; RequesterAccountID := requesterAccountID;
                                   AR_TenantID := tenantID; Reason := reason;
                                   RequestedScope := scope; RequestedModules := modules;
                                   AR_Status := StatusPending; GrantedScope := None;
                                   GrantedModules := []; DurationHours := None;
                                   AR_ExpiresAt := None; RespondedBy := None; RespondedAt := None;
                                   RejectReason := None; CreatedAt := r_created row;
                                   UpdatedAt := r_updated row; TenantName := tenantName;
                                   RequesterName := ""; RequesterEmail := "" |}
                        end
                    end
                end
            end
        end
  end.

(** *** Reading one request of a tenant, with its joins *)
Definition join_request (requestID tenantID : string) (d : sysdb)
  : option (access_row * string * string * string) :=
  r ← List.find (fun r => String.eqb (r_id r) requestID && String.eqb (r_tenant r) tenantID) (requests d);
  t ← tenants d !! r_tenant r;
  a ← lookup_account (r_requester r) d;
  Some (r, t_name t, a_name a, a_email a).

(** the scanned columns; the nullable ones stay in local variables *)
Definition scanned (j : access_row * string * string * string) : AccessRequest :=
  let '(r, tname, rname, remail) := j in
  {| AR_ID := r_id r; RequesterAccountID := r_requester r; AR_TenantID := r_tenant r;
     Reason := r_reason r; RequestedScope := r_scope r; RequestedModules := [];
     AR_Status := r_status r; GrantedScope := None; GrantedModules := [];
     DurationHours := None; AR_ExpiresAt := None; RespondedBy := None; RespondedAt := None;
     RejectReason := None; CreatedAt := r_created r; UpdatedAt := r_updated r;
     TenantName := tname; RequesterName := rname; RequesterEmail := remail |}.

(** the local variables copied into the request, as the list functions do *)
Definition full_request (j : access_row * string * string * string) : AccessRequest :=
  let '(r, tname, rname, remail) := j in
  {| AR_ID := r_id r; RequesterAccountID := r_requester r; AR_TenantID := r_tenant r;
     Reason := r_reason r; RequestedScope := r_scope r;
     RequestedModules := parseTextArray (Some (array_out (r_modules r)));
     AR_Status := r_status r; GrantedScope := r_gscope r;
     GrantedModules := parseTextArray (Some (array_out (r_gmodules r)));
     DurationHours := r_hours r; AR_ExpiresAt := r_expires r; RespondedBy := r_by r;
     RespondedAt := r_at r; RejectReason := r_reject r; CreatedAt := r_created r;
     UpdatedAt := r_updated r; TenantName := tname; RequesterName := rname; RequesterEmail := remail |}.

(** *** Respond *)
Record RespondParams := {
  P_Action : string; P_GrantedScope : string; P_GrantedModules : list string;
  P_DurationPreset : string; P_RejectReason : string
}.

Definition respond_reject (requestID ownerAccountID tenantID : string) (p : RespondParams)
    (cur : AccessRequest) : prog sysw AccessRequest :=
  let! now := now_ in
  let reason := TrimSpace (P_RejectReason p) in
  if String.eqb reason "" then throw (InvalidArg "alasan penolakan wajib diisi")
  else
    let! updated := attempt (query (fun d =>
      (Ok tt, update_request requestID StatusPending (with_rejection reason ownerAccountID now) d))) in
    match updated with
    | Err _ => throw (ECode Internal "tolak permintaan gagal")
    | Ok _ =>
        record_effect (Audit tenantID ownerAccountID "tenant_access.reject" requestID [("reason", reason)]);!
        record_effect (Notify [RequesterAccountID cur] "tenant_access.rejected"
          "Permintaan akses ditolak"
          ("Owner menolak akses ke " ++ TenantName cur ++ ": " ++ reason) "/dashboard/admin");!
        ret {| AR_ID := AR_ID cur; RequesterAccountID := RequesterAccountID cur;
               AR_TenantID := AR_TenantID cur; Reason := Reason cur;
               RequestedScope := RequestedScope cur; RequestedModules := RequestedModules cur;
               AR_Status := StatusRejected; GrantedScope := GrantedScope cur;
               GrantedModules := GrantedModules cur; DurationHours := DurationHours cur;
               AR_ExpiresAt := AR_ExpiresAt cur; RespondedBy := Some ownerAccountID;
               RespondedAt := Some now; RejectReason := Some reason;
               CreatedAt := CreatedAt cur; UpdatedAt := UpdatedAt cur;
               TenantName := TenantName cur; RequesterName := RequesterName cur;
               RequesterEmail := RequesterEmail cur |}
    end.

(** the scope and modules an approval grants *)
Definition granted_scope (p : RespondParams) (requestedScope : string) : string :=
  let scope := normalizeScope (P_GrantedScope p) in
  if String.eqb scope ScopeFull && String.eqb (TrimSpace (P_GrantedScope p)) ""
  then normalizeScope requestedScope else scope.
Definition granted_modules (p : RespondParams) (scope : string) (requestedModules : list string)
  : result (list string) :=
  match normalizeModules scope (P_GrantedModules p) with
  | Ok modules => Ok modules
  | Err e =>
      if String.eqb scope ScopeLimited && (length (P_GrantedModules p) =? 0)%nat
      then normalizeModules scope requestedModules else Err e
  end.

Definition respond_approve (requestID ownerAccountID tenantID : string) (p : RespondParams)
    (row : access_row) (cur : AccessRequest) : prog sysw AccessRequest :=
  let! now := now_ in
  let scope := granted_scope p (RequestedScope cur) in
  match granted_modules p scope (RequestedModules cur) with
  | Err e => throw (InvalidArg (error_text e))
  | Ok modules =>
      match durationFromPreset (P_DurationPreset p) with
      | Err e => throw (InvalidArg (error_text e))
      | Ok hours =>
          let exp := expiresAtFromDuration hours now in
          let durationVal := if 0 <? hours then Some hours else None in
          let grantedModList := grantModulesFromScope scope modules in
          let! updated := attempt (query (fun d =>
            match array_in (formatTextArray grantedModList) with
            | None => (Err (EText "malformed array literal"), d)
            | Some ms => (Ok tt, update_request requestID StatusPending
                (with_grant scope ms durationVal exp ownerAccountID now) d)
            end)) in
          match updated with
          | Err _ => throw (ECode Internal "setujui permintaan gagal")
          | Ok _ =>
              (* the audit row carries the scanned column, not the granted list *)
              record_effect (Audit tenantID ownerAccountID "tenant_access.approve" requestID
                [("scope", scope); ("modules", array_out (r_gmodules row))]);!
              record_effect (Notify [RequesterAccountID cur] "tenant_access.approved"
                "Permintaan akses disetujui"
                ("Owner menyetujui akses ke " ++ TenantName cur) "/dashboard/admin");!
              ret {| AR_ID := AR_ID cur; RequesterAccountID := RequesterAccountID cur;
                     AR_TenantID := AR_TenantID cur; Reason := Reason cur;
                     RequestedScope := RequestedScope cur; RequestedModules := RequestedModules cur;
                     AR_Status := StatusApproved; GrantedScope := Some scope;
                     GrantedModules := grantedModList; DurationHours := durationVal;
                     AR_ExpiresAt := exp; RespondedBy := Some ownerAccountID;
                     RespondedAt := Some now; RejectReason := RejectReason cur;
                     CreatedAt := CreatedAt cur; UpdatedAt := UpdatedAt cur;
                     TenantName := TenantName cur; RequesterName := RequesterName cur;
                     RequesterEmail := RequesterEmail cur |}
          end
      end
  end.

Definition Respond (requestID ownerAccountID tenantID : string) (p : option RespondParams)
  : prog sysw AccessRequest :=
  match p with
  | None => throw (InvalidArg "parameter tidak valid")
  | Some p =>
      let action := ToLower (TrimSpace (P_Action p)) in
      if negb (String.eqb action "approve") && negb (String.eqb action "reject")
      then throw (InvalidArg "action harus approve atau reject")
      else
        let! found := attempt (query (fun d => (Ok (join_request requestID tenantID d), d))) in
        match found with
        | Err _ => throw (ECode Internal "lookup permintaan gagal")
        | Ok None => throw (ECode NotFound "permintaan tidak ditemukan")
        | Ok (Some j) =>
            let cur := scanned j in
            if negb (String.eqb (AR_Status cur) StatusPending)
            then throw (ECode FailedPrecondition "permintaan sudah diproses")
            else if String.eqb action "reject"
            then respond_reject requestID ownerAccountID tenantID p cur
            else respond_approve requestID ownerAccountID tenantID p j.1.1.1 cur
        end
  end.

(** *** Revoke *)
Definition Revoke (requestID ownerAccountID tenantID : string) : prog sysw AccessRequest :=
  let! found := attempt (query (fun d => (Ok (join_request requestID tenantID d), d))) in
  match found with
  | Err _ => throw (ECode Internal "lookup permintaan gagal")
  | Ok None => throw (ECode NotFound "permintaan tidak ditemukan")
  | Ok (Some j) =>
      let cur := full_request j in
      if negb (String.eqb (AR_Status cur) StatusApproved)
      then throw (ECode FailedPrecondition "hanya grant aktif yang dapat dicabut")
      else
        let! now := now_ in
        if match AR_ExpiresAt cur with Some t => negb (now <? t) | None => false end
        then throw (ECode FailedPrecondition "grant sudah kedaluwarsa")
        else
          let! updated := attempt (query (fun d =>
            (Ok tt, update_request requestID StatusApproved (with_status StatusRevoked now) d))) in
          match updated with
          | Err _ => throw (ECode Internal "cabut grant gagal")
          | Ok _ =>
              record_effect (Audit tenantID ownerAccountID "tenant_access.revoke" requestID []);!
              record_effect (Notify [RequesterAccountID cur] "tenant_access.revoked"
                "Akses tenant dicabut" ("Owner mencabut akses ke " ++ TenantName cur) "/dashboard/admin");!
              ret {| AR_ID := AR_ID cur; RequesterAccountID := RequesterAccountID cur;
                     AR_TenantID := AR_TenantID cur; Reason := Reason cur;
                     RequestedScope := RequestedScope cur; RequestedModules := RequestedModules cur;
                     AR_Status := StatusRevoked; GrantedScope := GrantedScope cur;
                     GrantedModules := GrantedModules cur; DurationHours := DurationHours cur;
                     AR_ExpiresAt := AR_ExpiresAt cur; RespondedBy := None; RespondedAt := None;
                     RejectReason := None; CreatedAt := CreatedAt cur; UpdatedAt := now;
                     TenantName := TenantName cur; RequesterName := RequesterName cur;
                     RequesterEmail := RequesterEmail cur |}
          end
  end.

(** *** Lists *)
Definition joined (d : sysdb) (r : access_row) : list (access_row * string * string * string) :=
  match tenants d !! r_tenant r, lookup_account (r_requester r) d with
  | Some t, Some a => [(r, t_name t, a_name a, a_email a)]
  | _, _ => []
  end.
(** a stable sort by a strict order: ORDER BY with ties in table order *)
Fixpoint insert_by {A} (before : A -> A -> bool) (x : A) (l : list A) : list A :=
  match l with
  | [] => [x]
  | y :: l' => if before x y then x :: l else y :: insert_by before x l'
  end.
Definition sort_by {A} (before : A -> A -> bool) (l : list A) : list A :=
  fold_left (fun acc x => insert_by before x acc) l [].

Definition ListByRequester (requesterAccountID tenantID : string) : prog sysw (list AccessRequest) :=
  let tid := TrimSpace tenantID in
  query (fun d =>
    let rows := List.filter (fun r => String.eqb (r_requester r) requesterAccountID
                  && (String.eqb tid "" || String.eqb (r_tenant r) tid)) (requests d) in
    (Ok (map full_request (firstn 100 (sort_by (fun a b => r_created b.1.1.1 <? r_created a.1.1.1)
           (flat_map (joined d) rows)))), d)).

Definition pending_first (r : access_row) : Z := if String.eqb (r_status r) StatusPending then 0 else 1.
Definition ListForTenant (tenantID : string) : prog sysw (list AccessRequest) :=
  query (fun d =>
    let rows := List.filter (fun r => String.eqb (r_tenant r) tenantID) (requests d) in
    (Ok (map full_request (firstn 200 (sort_by (fun a b =>
           let a := a.1.1.1 in let b := b.1.1.1 in
           (pending_first a <? pending_first b)
           || ((pending_first a =? pending_first b) && (r_created b <? r_created a)))
           (flat_map (joined d) rows)))), d)).

(** ** API: who may call *)
Definition requireSuperAdmin (u : option AuthUser) : result AuthUser :=
  match u with
  | None => Err (ECode Unauthenticated "not authenticated")
  | Some u =>
      if negb (String.eqb (Role u) "super_admin")
      then Err (ECode PermissionDenied "super admin access required") else Ok u
  end.
Definition requireTenantOwner (u : option AuthUser) : result AuthUser :=
  match u with
  | None => Err (ECode Unauthenticated "not authenticated")
  | Some u =>
      if Impersonating u then Err (ECode PermissionDenied "owner access required")
      else if negb (String.eqb (Role u) "owner") || String.eqb (TenantID u) ""
      then Err (ECode PermissionDenied "owner access required") else Ok u
  end.
(** [u, err := …; if err != nil { return }] *)
Definition guarded {A} (r : result AuthUser) (k : AuthUser -> prog sysw A) : prog sysw A :=
  match r with Ok u => k u | Err e => throw e end.

Definition AdminCreateRequest (u : option AuthUser) (p : option CreateRequestParams)
  : prog sysw AccessRequest :=
  guarded (requireSuperAdmin u) (fun u => CreateRequest (AccountID u) p).
Definition AdminListRequests (u : option AuthUser) (tenantID : option string)
  : prog sysw (list AccessRequest) :=
  guarded (requireSuperAdmin u) (fun u =>
    let! list := attempt (ListByRequester (AccountID u) (default "" tenantID)) in
    match list with Ok l => ret l | Err _ => throw (ECode Internal "list permintaan gagal") end).
Definition ListTenantRequests (u : option AuthUser) : prog sysw (list AccessRequest) :=
  guarded (requireTenantOwner u) (fun u =>
    let! list := attempt (ListForTenant (TenantID u)) in
    match list with Ok l => ret l | Err _ => throw (ECode Internal "list permintaan gagal") end).
Definition RespondToRequest (u : option AuthUser) (id : string) (p : option RespondParams)
  : prog sysw AccessRequest :=
  guarded (requireTenantOwner u) (fun u => Respond id (AccountID u) (TenantID u) p).
Definition RevokeRequest (u : option AuthUser) (id : string) : prog sysw AccessRequest :=
  guarded (requireTenantOwner u) (fun u => Revoke id (AccountID u) (TenantID u)).
End operations.

(** ** What may happen to a request

    [row_step actor now r r']: what one call at [now] may do to a row; [actor]
    is the owner (tenant, account) acting through the API, if any. *)
Definition grant_ok (scope : string) (modules : list string) : Prop :=
  (scope = ScopeFull /\ modules = []) \/
  (scope = ScopeLimited /\ modules <> [] /\ NoDup modules /\
   Forall (fun m => ValidTenantModule m = true) modules).
Definition term_ok (now : Z) (hours expires : option Z) : Prop :=
  (hours = None /\ expires = None) \/
  (exists h, In h [Duration24h; Duration7d; Duration30d] /\ hours = Some h /\
     expires = Some (now + h * Hour)).

Inductive row_step (actor : option (string * string)) (now : Z) : access_row -> access_row -> Prop :=
  | rs_same r : row_step actor now r r
  | rs_approve r scope modules hours expires account :
      actor = Some (r_tenant r, account) -> r_status r = StatusPending ->
      grant_ok scope modules -> term_ok now hours expires ->
      row_step actor now r (with_grant scope modules hours expires account now r)
  | rs_reject r reason account :
      actor = Some (r_tenant r, account) -> r_status r = StatusPending -> reason <> "" ->
      row_step actor now r (with_rejection reason account now r)
  | rs_revoke r account :
      actor = Some (r_tenant r, account) -> r_status r = StatusApproved ->
      isGrantActive (r_expires r) now = true ->
      row_step actor now r (with_status StatusRevoked now r)
  | rs_expire r :
      r_status r = StatusApproved -> isGrantActive (r_expires r) now = false ->
      row_step actor now r (with_status StatusExpired now r).

Definition request_ok (r : access_row) : Prop :=
  r_status r = StatusApproved ->
  exists scope t, r_gscope r = Some scope /\ grant_ok scope (r_gmodules r) /\
    r_at r = Some t /\ term_ok t (r_hours r) (r_expires r) /\ is_Some (r_by r).

(** the table's invariant *)
Record consent_inv (rs : list access_row) : Prop := {
  ci_ids : NoDup (map r_id rs);
  ci_pending : forall requester tenant,
    (length (List.filter (is_pending requester tenant) rs) <= 1)%nat;
  ci_rows : Forall request_ok rs
}.

(** ** Calls of the API and of the impersonation layer *)
Inductive call : Type :=
  | CallCreate (u : option AuthUser) (p : option CreateRequestParams)
  | CallListAdmin (u : option AuthUser) (tenantID : option string)
  | CallListTenant (u : option AuthUser)
  | CallRespond (u : option AuthUser) (id : string) (p : option RespondParams)
  | CallRevoke (u : option AuthUser) (id : string)
  | CallActiveGrant (requesterAccountID tenantID : string).

Definition run_call `{GoJson} `{PgArray} (c : call) : prog sysw unit :=
  match c with
  | CallCreate u p => AdminCreateRequest u p;! ret tt
  | CallListAdmin u t => AdminListRequests u t;! ret tt
  | CallListTenant u => ListTenantRequests u;! ret tt
  | CallRespond u id p => RespondToRequest u id p;! ret tt
  | CallRevoke u id => RevokeRequest u id;! ret tt
  | CallActiveGrant a t => ActiveGrant a t;! ret tt
  end.

(** the tenant owner acting in a call *)
Definition actor_of (c : call) : option (string * string) :=
  match c with
  | CallRespond u _ _ | CallRevoke u _ =>
      match requireTenantOwner u with Ok u => Some (TenantID u, AccountID u) | Err _ => None end
  | _ => None
  end.

(** a row a call may add: a pending request by a platform admin *)
Definition new_row (c : call) (rs : list access_row) (r : access_row) : Prop :=
  exists u p, c = CallCreate (Some u) p /\ Role u = "super_admin" /\ r_requester r = AccountID u /\
    r_status r = StatusPending /\ (r_id r ∉ map r_id rs) /\
    List.filter (is_pending (r_requester r) (r_tenant r)) rs = [].

(** the table after a call: every row made an allowed step, and at most one
    new request was added *)
Definition table_step (c : call) (now : Z) (rs rs' : list access_row) : Prop :=
  exists rs1 new, rs' = (rs1 ++ new)%list /\ Forall2 (row_step (actor_of c) now) rs rs1 /\
    (new = [] \/ exists r, new = [r] /\ new_row c rs r).

(** ** Lemmas: plain words *)
Lemma plain_char_facts c :
  plain_char c = true ->
  forallb (fun r => match r with "" => false | String d _ => negb (Ascii.eqb d c) end) space_runes = true /\
  forallb (fun r => match r with "" => false | String d _ => negb (Ascii.eqb d c) end)
    (map rev_string space_runes) = true /\
  Ascii.eqb quote c = false /\ Ascii.eqb backslash c = false /\ Ascii.eqb "," c = false.
Proof. destruct c as [[] [] [] [] [] [] [] []]; vm_compute; try discriminate; auto. Qed.

Lemma plain_chars_app a b : plain_chars (a ++ b) = plain_chars a && plain_chars b.
Proof. induction a as [|c a IH]; [done|]. cbn. by rewrite IH, andb_assoc. Qed.
Lemma plain_chars_rev s : plain_chars s = true -> plain_chars (rev_string s) = true.
Proof.
  induction s as [|c s IH]; [done|]. cbn. intros [Hc Hs]%andb_true_iff.
  rewrite rev_string_cons, plain_chars_app, IH by done. cbn. by rewrite Hc.
Qed.

Lemma plain_has_char s c :
  plain_chars s = true -> (c = quote \/ c = backslash \/ c = ","%char) -> has_char c s = false.
Proof.
  intros Hs Hc. induction s as [|d s IH]; [done|]. cbn [has_char plain_chars] in *.
  apply andb_true_iff in Hs as [Hd Hs]. destruct (plain_char_facts d Hd) as (_ & _ & Hq & Hb & Hm).
  rewrite IH by done. by destruct Hc as [-> |[-> | ->]]; rewrite ?Hq, ?Hb, ?Hm.
Qed.

Lemma plain_starts s runes :
  plain_chars s = true ->
  runes = space_runes \/ runes = map rev_string space_runes \/ runes = [String quote ""] ->
  starts_no_rune runes s = true.
Proof.
  destruct s as [|c s]; [done|]. cbn [plain_chars]. intros [Hc _]%andb_true_iff Hr.
  destruct (plain_char_facts c Hc) as (H1 & H2 & Hq & _).
  destruct Hr as [-> |[-> | ->]]; [done|done|].
  unfold starts_no_rune, forallb. by rewrite Hq.
Qed.

Lemma plain_TrimSpace s : plain_chars s = true -> TrimSpace s = s.
Proof.
  intros Hs. apply trim_runes_id; apply plain_starts; auto using plain_chars_rev.
Qed.
Lemma plain_Trim s : plain_chars s = true -> Trim s (String quote "") = s.
Proof.
  intros Hs. apply trim_runes_id; apply plain_starts; auto using plain_chars_rev.
Qed.
Lemma ReplaceAll_id s c new : has_char c s = false -> ReplaceAll s c new = s.
Proof.
  induction s as [|d s IH]; [done|]. cbn. intros [Hd Hs]%orb_false_iff.
  rewrite Ascii.eqb_sym, Hd, IH by done. done.
Qed.

Lemma plain_word_chars s : plain_word s = true -> plain_chars s = true /\ String.eqb s "" = false.
Proof. unfold plain_word. intros H. bool_facts. split; [done|]. by apply String.eqb_neq. Qed.

Lemma ValidTenantModule_plain m : ValidTenantModule m = true -> plain_word m = true.
Proof.
  unfold ValidTenantModule. intros (y & Hin & ->%String.eqb_eq)%existsb_exists.
  unfold TenantNavModuleIDs in Hin. repeat (destruct Hin as [<-|Hin]; [reflexivity|]). done.
Qed.

(** ** Lemmas: arrays survive the database *)
Section arrays.
Context `{GoJson} `{PgArray}.

Lemma array_in_format l :
  forallb plain_word l = true -> array_in (formatTextArray l) = Some l.
Proof.
  intros Hl. unfold formatTextArray.
  assert (flat_map array_part l = map quoted l) as ->.
  { induction l as [|w l IH]; [done|]. cbn in Hl. apply andb_true_iff in Hl as [Hw Hl].
    destruct (plain_word_chars w Hw) as [Hc He]. cbn [flat_map map]. unfold array_part at 1.
    rewrite plain_TrimSpace, He by done.
    rewrite (ReplaceAll_id w backslash), (ReplaceAll_id w quote) by (apply plain_has_char; auto).
    cbn [app]. f_equal. by apply IH. }
  destruct l as [|w l]; [apply array_in_empty|]. by apply (array_in_quoted (w :: l)).
Qed.

Lemma parse_array_out l : forallb plain_word l = true -> parseTextArray (Some (array_out l)) = l.
Proof.
  intros Hl. unfold parseTextArray. rewrite array_out_plain by done.
  set (s := "{" ++ Join l "," ++ "}").
  assert (TrimSpace s = s) as ->.
  { apply trim_runes_id; [reflexivity|]. subst s. rewrite !rev_string_concat. reflexivity. }
  destruct l as [|w l]; [reflexivity|].
  assert (Join (w :: l) "," <> "") as Hne.
  { cbn in Hl. apply andb_true_iff in Hl as [Hw _]. destruct (plain_word_chars w Hw) as [_ He].
    destruct w; [done|]. by destruct l. }
  assert (String.eqb s "" || String.eqb s "{}" = false) as ->.
  { subst s. destruct (Join (w :: l) ",") as [|c j]; [done|].
    apply orb_false_iff. split; apply String.eqb_neq; intros E; apply (f_equal String.length) in E;
      rewrite !string_length_app in E; cbn in E; lia. }
  assert (HasPrefix s "[" = false) as -> by (subst s; reflexivity).
  assert (TrimPrefix (TrimSuffix s "}") "{" = Join (w :: l) ",") as ->.
  { subst s. rewrite string_app_assoc, TrimSuffix_app. apply TrimPrefix_app. }
  rewrite (proj2 (String.eqb_neq _ _) Hne).
  rewrite (Split_Join ","); [|by apply Forall_forall; intros x Hx; apply plain_has_char; [|auto];
    apply plain_word_chars; rewrite forallb_forall in Hl; apply Hl, list_elem_of_In|done].
  clear -Hl. induction (w :: l) as [|x xs IH]; [done|]. cbn in Hl. apply andb_true_iff in Hl as [Hx Hl].
  destruct (plain_word_chars x Hx) as [Hc He]. cbn [flat_map].
  unfold parsed_part at 1. by rewrite plain_Trim, plain_TrimSpace, He, IH.
Qed.
End arrays.

(** ** Lemmas: scopes and modules *)
Lemma normalizeScope_cases s : normalizeScope s = ScopeFull \/ normalizeScope s = ScopeLimited.
Proof. unfold normalizeScope. destruct (String.eqb _ _); auto. Qed.

Lemma collect_modules_ok modules out res :
  collect_modules modules out = Ok res ->
  NoDup out -> Forall (fun m => ValidTenantModule m = true) out ->
  NoDup res /\ Forall (fun m => ValidTenantModule m = true) res.
Proof.
  revert out. induction modules as [|m modules IH]; intros out; cbn [collect_modules]; [by intros [= <-]|].
  destruct (String.eqb (TrimSpace m) ""); [apply IH|].
  destruct (ValidTenantModule (TrimSpace m)) eqn:Hv; cbn [negb]; [|done].
  destruct (existsb (String.eqb (TrimSpace m)) out) eqn:Hseen; [apply IH|].
  intros Hc Hnd Hval. apply (IH _ Hc).
  - apply NoDup_app. split_and!; [done| |apply NoDup_singleton].
    intros x Hx ->%list_elem_of_singleton.
    assert (existsb (String.eqb (TrimSpace m)) out = true) as Ht; [|congruence].
    apply existsb_exists. exists (TrimSpace m). split; [by apply list_elem_of_In|apply String.eqb_refl].
  - apply Forall_app. split; [done|by constructor].
Qed.

Lemma normalizeModules_ok scope modules res :
  scope = ScopeFull \/ scope = ScopeLimited ->
  normalizeModules scope modules = Ok res -> grant_ok scope (grantModulesFromScope scope res).
Proof.
  unfold normalizeModules, grantModulesFromScope, grant_ok. intros [-> | ->]; [by left|].
  rewrite String.eqb_refl. cbn [negb]. intros H. right.
  destruct modules as [|m modules]; [done|].
  destruct (collect_modules (m :: modules) []) as [[|x out]|e] eqn:Hc; simplify_eq.
  destruct (collect_modules_ok _ _ _ Hc NoDup_nil_2 (Forall_nil_2 _)). by split_and!.
Qed.

Lemma grant_ok_plain scope modules : grant_ok scope modules -> forallb plain_word modules = true.
Proof.
  intros [[_ ->]|(_ & _ & _ & Hv)]; [done|]. apply forallb_forall. intros m Hm.
  rewrite Forall_forall in Hv. by apply ValidTenantModule_plain, Hv, list_elem_of_In.
Qed.

Lemma duration_term preset now hours :
  durationFromPreset preset = Ok hours ->
  term_ok now (if 0 <? hours then Some hours else None) (expiresAtFromDuration hours now).
Proof.
  unfold durationFromPreset, term_ok. intros H. repeat case_on H; simplify_eq; cbn.
  - right. exists 24. cbn. auto.
  - right. exists 168. cbn. auto.
  - right. exists 720. cbn. auto.
  - left. done.
Qed.

(** ** Lemmas: queries *)
Lemma query_cases {A} (f : sysdb -> result A * sysdb) w r w' :
  query f w = (r, w') ->
  s_now w' = s_now w /\
  ((r = fst (f (s_db w)) /\ s_db w' = snd (f (s_db w))) \/
   (r = Err query_error /\ (s_db w' = s_db w \/ s_db w' = snd (f (s_db w))))).
Proof.
  unfold query. destruct (default Fine _).
  - destruct (f (s_db w)) as [r0 d]. intros [= <- <-]. auto.
  - intros [= <- <-]. auto.
  - intros [= <- <-]. auto.
Qed.

(** programs that only read, or only record effects, keep the table *)
Definition keeps {A} (m : prog sysw A) : Prop :=
  forall w, s_now (snd (m w)) = s_now w /\ requests (s_db (snd (m w))) = requests (s_db w).

Lemma keeps_ret {A} (a : A) : keeps (ret a).
Proof. done. Qed.
Lemma keeps_throw {A} e : keeps (throw (A:=A) e).
Proof. done. Qed.
Lemma keeps_bind {A B} (m : prog sysw A) (k : A -> prog sysw B) :
  keeps m -> (forall a, keeps (k a)) -> keeps (bind m k).
Proof.
  intros Hm Hk w. specialize (Hm w). unfold bind. destruct (m w) as [[a|e] w1]; [|done].
  destruct (Hk a w1), Hm. cbn in *. split; congruence.
Qed.
Lemma keeps_attempt {A} (m : prog sysw A) : keeps m -> keeps (attempt m).
Proof. intros Hm w. specialize (Hm w). unfold attempt. by destruct (m w). Qed.
Lemma keeps_query {A} (f : sysdb -> result A * sysdb) :
  (forall d, requests (snd (f d)) = requests d) -> keeps (query f).
Proof.
  intros Hf w. destruct (query f w) as [r w'] eqn:E. destruct (query_cases _ _ _ _ E) as [? Hc].
  cbn. split; [done|]. destruct Hc as [[_ ->]|[_ [-> | ->]]]; auto.
Qed.
Lemma keeps_effect e : keeps (record_effect e).
Proof.
  unfold record_effect. intros w. unfold ignore. cbn.
  apply (keeps_query (fun d => (Ok tt, add_effect e d)) (fun _ => eq_refl) w).
Qed.
Lemma keeps_now : keeps now_.
Proof. done. Qed.
Lemma keeps_fresh : keeps fresh_id.
Proof. done. Qed.
#[export] Hint Resolve keeps_ret keeps_throw keeps_bind keeps_attempt keeps_query keeps_effect
  keeps_now keeps_fresh : prog.

(** [moves m R]: [m] changes the table by at most [R] *)
Definition moves {A} (m : prog sysw A) (R : Z -> list access_row -> list access_row -> Prop)
  (w : sysw) : Prop :=
  s_now (snd (m w)) = s_now w /\
  R (s_now w) (requests (s_db w)) (requests (s_db (snd (m w)))).

Lemma moves_then_keeps {A B} (m : prog sysw A) (k : A -> prog sysw B) R w :
  moves m R w -> (forall a, keeps (k a)) -> moves (bind m k) R w.
Proof.
  intros [Hn HR] Hk. unfold moves, bind. destruct (m w) as [[a|e] w1]; [|done].
  destruct (Hk a w1) as [Hn' Hr]. cbn in *. split; [congruence|]. by rewrite Hr.
Qed.

Lemma moves_bind_read {A B} (m : prog sysw A) (k : A -> prog sysw B) R w :
  keeps m -> (forall rs, R (s_now w) rs rs) ->
  (forall a w1, m w = (Ok a, w1) -> s_now w1 = s_now w -> requests (s_db w1) = requests (s_db w) ->
     moves (k a) R w1) ->
  moves (bind m k) R w.
Proof.
  intros Hm Hr Hk. specialize (Hm w). unfold moves, bind. destruct (m w) as [[a|e] w1] eqn:E.
  - destruct Hm as [Hn Hd]. cbn in Hn, Hd. destruct (Hk a w1 eq_refl Hn Hd) as [Hn' HR].
    cbn. split; [congruence|]. by rewrite <- Hn, <- Hd.
  - destruct Hm as [Hn Hd]. cbn in *. split; [done|]. rewrite Hd. apply Hr.
Qed.

Lemma moves_keeps {A} (m : prog sysw A) (R : Z -> list access_row -> list access_row -> Prop) w :
  keeps m -> (forall rs, R (s_now w) rs rs) -> moves m R w.
Proof. intros Hm Hr. destruct (Hm w) as [Hn Hd]. split; [done|]. rewrite Hd. apply Hr. Qed.

Lemma moves_attempt {A} (m : prog sysw A) R w : moves m R w -> moves (attempt m) R w.
Proof. unfold moves, attempt. by destruct (m w). Qed.

Lemma moves_query {A} (f : sysdb -> result A * sysdb) R w :
  R (s_now w) (requests (s_db w)) (requests (s_db w)) ->
  R (s_now w) (requests (s_db w)) (requests (snd (f (s_db w)))) -> moves (query f) R w.
Proof.
  intros Hr Hf. unfold moves. destruct (query f w) as [r w'] eqn:E.
  destruct (query_cases _ _ _ _ E) as [Hn Hc]. cbn. split; [done|].
  destruct Hc as [[_ ->]|[_ [-> | ->]]]; auto.
Qed.

Lemma moves_ignore {A} (m : prog sysw A) R w : moves m R w -> moves (ignore m) R w.
Proof. done. Qed.

(** an UPDATE of one request by id and status *)
Lemma update_request_steps actor now id status f d :
  (forall r, r ∈ requests d -> r_id r = id -> r_status r = status -> row_step actor now r (f r)) ->
  Forall2 (row_step actor now) (requests d) (requests (update_request id status f d)).
Proof.
  intros Hf. unfold update_request. cbn. induction (requests d) as [|r rs IH]; cbn; constructor.
  - destruct (String.eqb_spec (r_id r) id), (String.eqb_spec (r_status r) status); cbn; try apply rs_same.
    apply Hf; auto. apply list_elem_of_here.
  - apply IH. intros r' Hr'. apply Hf. by apply list_elem_of_further.
Qed.

Lemma row_steps_refl actor now rs : Forall2 (row_step actor now) rs rs.
Proof. induction rs; constructor; auto using rs_same. Qed.
Lemma table_step_update c now rs rs' :
  Forall2 (row_step (actor_of c) now) rs rs' -> table_step c now rs rs'.
Proof. intros H. exists rs', []. rewrite app_nil_r. auto. Qed.
Lemma table_step_refl c now rs : table_step c now rs rs.
Proof. apply table_step_update, row_steps_refl. Qed.
#[export] Hint Resolve table_step_refl : prog.

Lemma same_id rs r r' :
  NoDup (map r_id rs) -> r ∈ rs -> r' ∈ rs -> r_id r = r_id r' -> r = r'.
Proof.
  induction rs as [|x rs IH]; cbn; [by intros _ ?%not_elem_of_nil|].
  intros [Hx Hnd]%NoDup_cons [->|Hr]%elem_of_cons [->|Hr']%elem_of_cons E; auto.
  - exfalso. apply Hx. rewrite E. by apply (list_elem_of_fmap_2 r_id).
  - exfalso. apply Hx. rewrite <- E. by apply (list_elem_of_fmap_2 r_id).
Qed.

Lemma newest_elem rs r : newest rs = Some r -> r ∈ rs.
Proof.
  unfold newest.
  assert (forall b, fold_left (fun best r => match best with
    | None => Some r | Some b => if newer r b then Some r else Some b end) rs b = Some r ->
    b = Some r \/ r ∈ rs) as H.
  { induction rs as [|x rs IH]; cbn; intros b Hb; [auto|]. destruct (IH _ Hb) as [Hx|Hx].
    - destruct b as [b|]; [destruct (newer x b)|]; simplify_eq; auto; right; apply list_elem_of_here.
    - right. by apply list_elem_of_further. }
  intros E. by destruct (H _ E).
Qed.

Lemma newest_None rs : newest rs = None -> rs = [].
Proof.
  unfold newest. destruct rs as [|r rs]; [done|]. cbn. intros E. exfalso. revert r E.
  induction rs as [|x rs IH]; cbn; intros r E; [done|]. destruct (newer x r); by apply IH in E.
Qed.

Lemma approved_for_spec requester tenant r :
  approved_for requester tenant r = true <->
  r_requester r = requester /\ r_tenant r = tenant /\ r_status r = StatusApproved.
Proof. unfold approved_for. rewrite !andb_true_iff, !String.eqb_eq. tauto. Qed.
Lemma is_pending_spec requester tenant r :
  is_pending requester tenant r = true <->
  r_requester r = requester /\ r_tenant r = tenant /\ r_status r = StatusPending.
Proof. unfold is_pending. rewrite !andb_true_iff, !String.eqb_eq. tauto. Qed.

(** ** Lemmas: what each operation does to the table *)
Section steps.
Context `{GoJson} `{PgArray}.

Lemma ActiveGrant_moves requester tenant w :
  NoDup (map r_id (requests (s_db w))) ->
  moves (ActiveGrant requester tenant) (table_step (CallActiveGrant requester tenant)) w.
Proof.
  intros Hnd. unfold ActiveGrant.
  apply moves_bind_read; [auto with prog..|]. intros now w1 [= <- <-] _ _.
  apply moves_bind_read; [by auto with prog|auto with prog|].
  intros row w2 Hq Hn Hr. destruct row as [r|]; [|apply moves_keeps; auto with prog].
  destruct (query_cases _ _ _ _ Hq) as [_ [[[= Hrow] _]|[? _]]]; [|done].
  symmetry in Hrow. apply newest_elem, filter_elem in Hrow as [Hin Hap].
  apply approved_for_spec in Hap as (_ & _ & Hst).
  destruct (isGrantActive (r_expires r) (s_now w)) eqn:Hact; cbn [negb];
    [apply moves_keeps; auto with prog|].
  apply moves_then_keeps; [|auto with prog].
  apply moves_ignore, moves_query; [auto with prog|]. cbn [snd].
  apply table_step_update, update_request_steps. intros r' Hr' Hid Hst'. rewrite Hr in Hr'.
  assert (r' = r) as -> by (by eapply same_id). rewrite Hn. by apply rs_expire.
Qed.

Lemma join_request_spec id tenant d j :
  join_request id tenant d = Some j ->
  j.1.1.1 ∈ requests d /\ r_id j.1.1.1 = id /\ r_tenant j.1.1.1 = tenant /\
  AR_Status (scanned j) = r_status j.1.1.1.
Proof.
  unfold join_request. intros Hj.
  destruct (List.find _ (requests d)) as [r|] eqn:Ef; cbn in Hj; [|done].
  apply List.find_some in Ef as [Hin Hf]. apply andb_true_iff in Hf as [Hid Ht].
  apply String.eqb_eq in Hid, Ht. destruct (tenants d !! r_tenant r); cbn in Hj; [|done].
  destruct (lookup_account (r_requester r) d); cbn in Hj; [|done]. injection Hj as <-. cbn.
  rewrite list_elem_of_In. auto.
Qed.

Lemma CreateRequest_moves u p w :
  Role u = "super_admin" ->
  moves (CreateRequest (AccountID u) p) (table_step (CallCreate (Some u) p)) w.
Proof.
  intros Hrole. unfold CreateRequest.
  destruct p as [p|]; [|apply moves_keeps; auto with prog].
  destruct (String.eqb (TrimSpace (C_TenantID p)) ""); [apply moves_keeps; auto with prog|].
  destruct (String.eqb (TrimSpace (C_Reason p)) ""); [apply moves_keeps; auto with prog|].
  destruct (normalizeModules _ _) as [modules|e]; [|apply moves_keeps; auto with prog].
  apply moves_bind_read; [by auto with prog|auto with prog|]. intros tenant w1 _ _ _.
  destruct tenant as [[tenantName|]|e]; [|apply moves_keeps; auto with prog..].
  apply moves_bind_read; [by apply keeps_attempt, keeps_query|auto with prog|]. intros owners w2 _ _ _.
  destruct owners as [[|o owners]|e]; [apply moves_keeps; auto with prog| |apply moves_keeps; auto with prog].
  apply moves_bind_read; [by apply keeps_attempt, keeps_query|auto with prog|]. intros pending w3 _ _ _.
  destruct pending as [[]|e]; [apply moves_keeps; auto with prog| |apply moves_keeps; auto with prog].
  apply moves_bind_read; [auto with prog..|]. intros id w4 _ _ _.
  apply moves_bind_read; [auto with prog..|]. intros now w5 _ _ _.
  apply moves_then_keeps.
  - apply moves_attempt, moves_query; [auto with prog|]. unfold insert_request.
    destruct (array_in _); [|apply table_step_refl].
    case_bool_decide as Hpk; [apply table_step_refl|].
    destruct (existsb _ _) eqn:Hpend; [apply table_step_refl|].
    destruct (_ || _); [apply table_step_refl|]. cbn.
    match goal with |- table_step _ _ _ (_ ++ [?row]) => set (r0 := row) end.
    exists (requests (s_db w5)), [r0]. split; [done|]. split.
    + apply row_steps_refl.
    + right. exists r0. split; [done|]. exists u, (Some p). split_and!; try done.
      * intros (r & Hr & Hin)%list_elem_of_fmap. apply Hpk. unfold lookup_request.
        destruct (List.find _ _) eqn:Ef; [by eexists|].
        apply (List.find_none _ _ Ef) in Hin || apply list_elem_of_In, (List.find_none _ _ Ef) in Hin.
        change (r_id r0) with id in Hr. by rewrite <- Hr, String.eqb_refl in Hin.
      * by apply existsb_false_filter.
  - intros [row|e]; [auto 10 with prog|]. by destruct (Contains _ _); auto with prog.
Qed.

Lemma Respond_moves u id p w :
  requireTenantOwner (Some u) = Ok u -> NoDup (map r_id (requests (s_db w))) ->
  moves (Respond id (AccountID u) (TenantID u) p) (table_step (CallRespond (Some u) id p)) w.
Proof.
  intros Howner Hnd. unfold Respond. destruct p as [p|]; [|apply moves_keeps; auto with prog].
  destruct (_ && _); [apply moves_keeps; auto with prog|].
  apply moves_bind_read; [by auto with prog|auto with prog|].
  intros found w1 Hq Hn Hr. destruct found as [[j|]|e]; [|apply moves_keeps; auto with prog..].
  unfold attempt in Hq. destruct (query _ w) as [r0 w0] eqn:E. injection Hq as -> ->.
  destruct (query_cases _ _ _ _ E) as [_ [[[= Hj] _]|[? _]]]; [|done].
  symmetry in Hj. apply join_request_spec in Hj as (Hin & Hid & Hten & Hst).
  destruct (String.eqb_spec (AR_Status (scanned j)) StatusPending) as [Hpend|]; cbn [negb];
    [|apply moves_keeps; auto with prog].
  assert (forall r, r ∈ requests (s_db w1) -> r_id r = id -> r_status r = StatusPending ->
    actor_of (CallRespond (Some u) id (Some p)) = Some (r_tenant r, AccountID u)) as Hactor.
  { intros r Hr' Hid' _. rewrite Hr in Hr'. assert (r = j.1.1.1) as -> by (by eapply same_id; try congruence).
    cbn. cbn in Howner. rewrite Howner. by rewrite Hten. }
  destruct (String.eqb _ "reject").
  - unfold respond_reject. apply moves_bind_read; [auto with prog..|]. intros now w2 [= <- <-] _ _.
    destruct (String.eqb_spec (TrimSpace (P_RejectReason p)) ""); [apply moves_keeps; auto with prog|].
    apply moves_then_keeps; [|intros [?|?]; auto 10 with prog].
    apply moves_attempt, moves_query; [auto with prog|]. cbn [snd].
    apply table_step_update, update_request_steps. intros r Hr' Hid' Hst'. eapply rs_reject; eauto.
  - unfold respond_approve. apply moves_bind_read; [auto with prog..|]. intros now w2 [= <- <-] _ _.
    destruct (granted_modules _ _ _) as [modules|e] eqn:Hm; [|apply moves_keeps; auto with prog].
    destruct (durationFromPreset _) as [hours|e] eqn:Hh; [|apply moves_keeps; auto with prog].
    apply moves_then_keeps; [|intros [?|?]; auto 10 with prog].
    set (scope := granted_scope p (RequestedScope (scanned j))) in *.
    assert (scope = ScopeFull \/ scope = ScopeLimited) as Hs.
    { subst scope. unfold granted_scope. destruct (_ && _); apply normalizeScope_cases. }
    assert (grant_ok scope (grantModulesFromScope scope modules)) as Hok.
    { unfold granted_modules in Hm. destruct (normalizeModules scope (P_GrantedModules p)) eqn:E1; simplify_eq.
      - by eapply normalizeModules_ok.
      - destruct (_ && _); [|done]. by eapply normalizeModules_ok. }
    apply moves_attempt, moves_query; [auto with prog|].
    rewrite array_in_format by (by eapply grant_ok_plain). cbn [snd].
    apply table_step_update, update_request_steps. intros r Hr' Hid' Hst'.
    eapply rs_approve; eauto using duration_term.
Qed.

Lemma Revoke_moves u id w :
  requireTenantOwner (Some u) = Ok u -> NoDup (map r_id (requests (s_db w))) ->
  moves (Revoke id (AccountID u) (TenantID u)) (table_step (CallRevoke (Some u) id)) w.
Proof.
  intros Howner Hnd. unfold Revoke.
  apply moves_bind_read; [by auto with prog|auto with prog|].
  intros found w1 Hq Hn Hr. destruct found as [[j|]|e]; [|apply moves_keeps; auto with prog..].
  unfold attempt in Hq. destruct (query _ w) as [r0 w0] eqn:E. injection Hq as -> ->.
  destruct (query_cases _ _ _ _ E) as [_ [[[= Hj] _]|[? _]]]; [|done].
  symmetry in Hj. apply join_request_spec in Hj as (Hin & Hid & Hten & Hst).
  destruct (negb _); [apply moves_keeps; auto with prog|].
  apply moves_bind_read; [auto with prog..|]. intros now w2 [= <- <-] _ _.
  destruct (match AR_ExpiresAt _ with Some t => _ | None => _ end) eqn:Hexp; [apply moves_keeps; auto with prog|].
  apply moves_then_keeps; [|intros [?|?]; auto 10 with prog].
  apply moves_attempt, moves_query; [auto with prog|]. cbn [snd].
  apply table_step_update, update_request_steps. intros r Hr' Hid' Hst'. rewrite Hr in Hr'.
  assert (r = j.1.1.1) as -> by (by eapply same_id; try congruence).
  eapply rs_revoke; [|done|].
  - cbn. cbn in Howner. rewrite Howner, Hten. done.
  - destruct j as [[[r1 ?] ?] ?]. cbn in *. unfold isGrantActive.
    destruct (r_expires r1); [|done]. by apply negb_false_iff in Hexp.
Qed.

Lemma run_call_moves c w :
  NoDup (map r_id (requests (s_db w))) -> moves (run_call c) (table_step c) w.
Proof.
  intros Hnd. destruct c as [u p|u t|u|u id p|u id|a t]; cbn [run_call];
    (apply moves_then_keeps; [|auto with prog]).
  - unfold AdminCreateRequest, guarded, requireSuperAdmin.
    destruct u as [u|]; [|apply moves_keeps; auto with prog].
    destruct (String.eqb_spec (Role u) "super_admin"); cbn [negb]; [|apply moves_keeps; auto with prog].
    by apply CreateRequest_moves.
  - apply moves_keeps; [|auto with prog]. unfold AdminListRequests, guarded.
    destruct (requireSuperAdmin u); [|auto with prog].
    apply keeps_bind; [by apply keeps_attempt, keeps_query|]. intros [?|?]; auto with prog.
  - apply moves_keeps; [|auto with prog]. unfold ListTenantRequests, guarded.
    destruct (requireTenantOwner u); [|auto with prog].
    apply keeps_bind; [by apply keeps_attempt, keeps_query|]. intros [?|?]; auto with prog.
  - unfold RespondToRequest, guarded. destruct (requireTenantOwner u) as [u'|] eqn:E; [|apply moves_keeps; auto with prog].
    assert (u = Some u') as ->.
    { unfold requireTenantOwner in E. repeat case_on E; simplify_eq. done. }
    by apply Respond_moves.
  - unfold RevokeRequest, guarded. destruct (requireTenantOwner u) as [u'|] eqn:E; [|apply moves_keeps; auto with prog].
    assert (u = Some u') as ->.
    { unfold requireTenantOwner in E. repeat case_on E; simplify_eq. done. }
    by apply Revoke_moves.
  - by apply ActiveGrant_moves.
Qed.
End steps.

(** ** Lemmas: the invariant *)
Lemma row_step_id actor now r r' : row_step actor now r r' -> r_id r' = r_id r.
Proof. by destruct 1. Qed.
Lemma row_step_pending actor now r r' requester tenant :
  row_step actor now r r' -> is_pending requester tenant r' = true -> is_pending requester tenant r = true.
Proof.
  destruct 1; [done|..]; unfold is_pending; cbn; rewrite andb_false_r; done.
Qed.
Lemma row_step_ok actor now r r' : row_step actor now r r' -> request_ok r -> request_ok r'.
Proof.
  destruct 1 as [|r scope modules hours expires account _ _ Hg Ht| | |]; [done| |by intros _ [=]..].
  intros _ _. cbn. exists scope, now. split_and!; try done; by eexists.
Qed.

Lemma row_steps_inv actor now rs rs' :
  Forall2 (row_step actor now) rs rs' -> consent_inv rs -> consent_inv rs'.
Proof.
  intros Hs [Hi Hp Hr].
  assert (map r_id rs' = map r_id rs) as Hids.
  { clear -Hs. induction Hs as [|r r' rs rs' H1 H2 IH]; [done|]. cbn. by rewrite IH, (row_step_id _ _ _ _ H1). }
  split; [by rewrite Hids| |].
  - intros requester tenant. etransitivity; [|apply (Hp requester tenant)].
    clear -Hs. induction Hs as [|r r' rs rs' H1 H2 IH]; [done|]. cbn.
    destruct (is_pending requester tenant r') eqn:E.
    + rewrite (row_step_pending _ _ _ _ _ _ H1 E). cbn. lia.
    + destruct (is_pending requester tenant r); cbn; lia.
  - clear -Hs Hr. induction Hs as [|r r' rs rs' H1 H2 IH]; [done|].
    apply Forall_cons in Hr as [Hr Hrs]. constructor; [by eapply row_step_ok|auto].
Qed.

Lemma table_step_inv c now rs rs' : table_step c now rs rs' -> consent_inv rs -> consent_inv rs'.
Proof.
  intros (rs1 & new & -> & Hs & Hnew) Hinv. pose proof (row_steps_inv _ _ _ _ Hs Hinv) as [Hi Hp Hr].
  destruct Hnew as [->|(r & -> & u & p & _ & _ & _ & Hst & Hid & Hnone)].
  { rewrite app_nil_r. by split. }
  assert (map r_id rs1 = map r_id rs) as Hids.
  { clear -Hs. induction Hs as [|x x' xs xs' H1 H2 IH]; [done|]. cbn. by rewrite IH, (row_step_id _ _ _ _ H1). }
  assert (List.filter (is_pending (r_requester r) (r_tenant r)) rs1 = []) as Hnone1.
  { destruct (List.filter _ rs1) as [|x xs] eqn:E; [done|].
    assert (x ∈ List.filter (is_pending (r_requester r) (r_tenant r)) rs1) as Hx by (rewrite E; apply list_elem_of_here).
    apply filter_elem in Hx as [Hx Hpx].
    apply Forall2_flip in Hs. rewrite Forall2_lookup in Hs. apply list_elem_of_lookup in Hx as [i Hi'].
    specialize (Hs i). rewrite Hi' in Hs. inversion Hs as [? y Hy Heq1 Heq2|]. subst.
    assert (y ∈ List.filter (is_pending (r_requester r) (r_tenant r)) rs) as Hc.
    { apply filter_elem. split; [|by eapply row_step_pending].
      apply list_elem_of_lookup. exists i. done. }
    rewrite Hnone in Hc. by apply not_elem_of_nil in Hc. }
  split.
  - rewrite map_app. apply NoDup_app. split_and!; [done| |apply NoDup_singleton].
    rewrite Hids. intros x Hx ->%list_elem_of_singleton. done.
  - intros requester tenant. rewrite List.filter_app, length_app. cbn.
    destruct (is_pending requester tenant r) eqn:E; [|specialize (Hp requester tenant); cbn; lia].
    apply is_pending_spec in E as (<- & <- & _). rewrite Hnone1. cbn. lia.
  - apply Forall_app. split; [done|]. constructor; [|done]. intros Ha. rewrite Hst in Ha. done.
Qed.

(** a history of calls, each at its own time, with its own ids and failures *)
Definition event : Type := call * Z * list string * list fault.
Definition run_events `{GoJson} `{PgArray} (es : list event) (d : sysdb) : sysdb :=
  fold_left (fun d '(c, now, ids, faults) =>
    s_db (snd (run_call c {| s_db := d; s_now := now; s_ids := ids; s_faults := faults |}))) es d.

Lemma run_events_inv `{GoJson} `{PgArray} es d :
  consent_inv (requests d) -> consent_inv (requests (run_events es d)).
Proof.
  revert d. induction es as [|[[[c now] ids] faults] es IH]; intros d Hd; [done|]. cbn. apply IH.
  set (w := {| s_db := d; s_now := now; s_ids := ids; s_faults := faults |}).
  eapply (table_step_inv c now); [|exact Hd]. by apply (run_call_moves c w (ci_ids _ Hd)).
Qed.

(** a grant that is answered, on a well-formed table *)
Definition live_consent (requester tenant : string) (now : Z) (rs : list access_row)
    (r : access_row) (g : GrantInfo) : Prop :=
  exists scope, newest (List.filter (approved_for requester tenant) rs) = Some r /\
    r ∈ rs /\ approved_for requester tenant r = true /\
    isGrantActive (r_expires r) now = true /\ is_Some (r_by r) /\
    g = {| G_RequestID := r_id r; G_Scope := scope; G_Modules := r_gmodules r;
           G_ExpiresAt := r_expires r |} /\ grant_ok scope (r_gmodules r).

Lemma ActiveGrant_granted `{GoJson} `{PgArray} requester tenant w g w' :
  consent_inv (requests (s_db w)) -> ActiveGrant requester tenant w = (Ok (Some g), w') ->
  exists r, live_consent requester tenant (s_now w) (requests (s_db w)) r g.
Proof.
  intros [_ _ Hrows]. unfold ActiveGrant, bind at 1, now_. intros Hrun.
  apply bind_inv in Hrun as [(row & w1 & Hq & Hrun)|(e & _ & [=])].
  destruct (query_cases _ _ _ _ Hq) as [_ [[[= ->] _]|[[=] _]]].
  destruct (newest _) as [r|] eqn:En; [|by injection Hrun].
  pose proof (newest_elem _ _ En) as [Hin Hap]%filter_elem.
  rewrite Forall_forall in Hrows. pose proof Hap as (_ & _ & Hst)%approved_for_spec.
  destruct (Hrows r Hin Hst) as (scope & t & Hsc & Hg & _ & _ & Hby). rewrite Hsc in Hrun.
  change (default "full" (Some scope)) with scope in Hrun. cbv zeta in Hrun.
  destruct (isGrantActive (r_expires r) (s_now w)) eqn:Ha; cbn [negb] in Hrun; [|by injection Hrun].
  injection Hrun as <- _. exists r, scope. split_and!; try done.
  f_equal. destruct (String.eqb_spec scope ScopeFull) as [->|Hne].
  + destruct Hg as [[_ ->]|(? & _)]; done.
  + exact (parse_array_out _ (grant_ok_plain _ _ Hg)).
Qed.

Lemma ActiveGrant_none `{GoJson} `{PgArray} requester tenant w :
  s_faults w = [] ->
  (forall r, newest (List.filter (approved_for requester tenant) (requests (s_db w))) = Some r ->
     isGrantActive (r_expires r) (s_now w) = false) ->
  fst (ActiveGrant requester tenant w) = Ok None.
Proof.
  intros Hf Ha. unfold ActiveGrant, bind, now_, query. rewrite Hf. cbn.
  destruct (newest _) as [r|] eqn:En; [|done]. by rewrite (Ha r eq_refl).
Qed.

(** ** Properties *)
Section properties.
Context `{GoJson} `{PgArray}.

(** C10. The consent state machine: whatever a call returns and whatever
    database failures hit it, each request row either stays as it is or makes
    one allowed step: a pending request is approved or rejected by an owner of
    its own tenant (never from an impersonated session), with valid modules
    when limited and a preset duration; an unexpired approval is revoked by
    such an owner; an expired approval is marked expired.  At most one row is
    added: a pending request by a platform admin, for a pair with none. *)
Theorem consent_state_machine c w :
  NoDup (map r_id (requests (s_db w))) ->
  table_step c (s_now w) (requests (s_db w)) (requests (s_db (snd (run_call c w)))).
Proof. intros Hnd. apply (run_call_moves c w Hnd). Qed.

(** C11. The table stays well formed over any history of calls with any
    failures: unique ids, at most one pending request per (requester, tenant),
    and every approved row has a responder, a scope with exactly valid,
    distinct, nonempty modules when limited and none when full, and an expiry
    that is its response time plus its duration. *)
Theorem consent_table_invariant es d :
  consent_inv (requests d) -> consent_inv (requests (run_events es d)).
Proof. apply run_events_inv. Qed.

(** Impersonation needs a live consent: when [ActiveGrant] answers a
    grant, it is the newest approved row of that requester and tenant, answered
    by an owner and not expired, and the grant's modules are exactly the ones
    approved (nonempty when limited), through Postgres' array text.  Only the
    newest approved row counts: when it has expired the answer is "no grant"
    even if an older approval is still valid. *)
Theorem active_grant_exact requester tenant w :
  consent_inv (requests (s_db w)) ->
  (forall g w', ActiveGrant requester tenant w = (Ok (Some g), w') ->
     exists r, live_consent requester tenant (s_now w) (requests (s_db w)) r g) /\
  (forall r, s_faults w = [] ->
     newest (List.filter (approved_for requester tenant) (requests (s_db w))) = Some r ->
     isGrantActive (r_expires r) (s_now w) = false -> fst (ActiveGrant requester tenant w) = Ok None).
Proof.
  intros Hinv. split; [intros g w' Hg; by eapply ActiveGrant_granted|].
  intros r Hf Hn Ha. apply ActiveGrant_none; [done|]. intros r' Hn'. congruence.
Qed.

(** Approving with a limited scope but without listing modules never
    succeeds, although the code means to fall back to the requested modules:
    the scanned request it falls back to never has its modules filled in. *)
Theorem limited_approval_never_falls_back u id p w :
  ToLower (TrimSpace (P_Action p)) = "approve" -> normalizeScope (P_GrantedScope p) = ScopeLimited ->
  P_GrantedModules p = [] ->
  is_ok (fst (RespondToRequest u id (Some p) w)) = false.
Proof.
  intros Hact Hs Hm. unfold RespondToRequest, guarded.
  destruct (requireTenantOwner u) as [u'|]; [|done]. unfold Respond. rewrite Hact.
  change (negb (String.eqb "approve" "approve") && negb (String.eqb "approve" "reject")) with false.
  change (String.eqb "approve" "reject") with false. cbv iota.
  unfold bind at 1. match goal with |- context [attempt ?m w] =>
    destruct (attempt m w) as [[[[[[[r tn] rn] re]|]|e]|e] w1] end; [|done..].
  destruct (negb (String.eqb (AR_Status _) _)); [done|].
  unfold respond_approve, bind at 1, now_. unfold granted_scope. rewrite Hs. cbn.
  unfold granted_modules. rewrite Hm. done.
Qed.
End properties.

(** ** A concrete array text for the witnesses *)
Lemma Trim_quoted w : plain_word w = true -> Trim (quoted w) (String quote "") = w.
Proof.
  intros Hw. destruct (plain_word_chars w Hw) as [Hc He]. destruct w as [|c w]; [done|].
  unfold Trim, quoted, trim_runes. cbn [list_ascii_of_string map].
  set (q := String quote ""). set (s := String c w) in *.
  assert (forall n x, trim_left (S n) [q] (String quote x) = trim_left n [q] x) as Hstep
    by (intros n x; reflexivity).
  cbn [String.length]. rewrite Hstep.
  rewrite (trim_left_id _ [q] (s ++ String quote "")).
  2: { subst s. rewrite string_app_cons.
       pose proof (plain_starts (String c w) [String quote ""] Hc ltac:(auto)) as Hp. exact Hp. }
  rewrite rev_string_concat.
  change (rev_string (String quote "")) with (String quote ""). rewrite string_app_cons.
  change [rev_string q] with [q].
  rewrite string_length_app. replace (String.length s + String.length (String quote ""))%nat
    with (S (String.length s)) by (cbn; lia).
  rewrite Hstep. rewrite trim_left_id; [apply rev_string_involutive|].
  apply plain_starts; auto. by apply plain_chars_rev.
Qed.

Definition plain_array_in (s : string) : option (list string) :=
  Some (flat_map parsed_part (Split (TrimPrefix (TrimSuffix s "}") "{") ",")).
Definition plain_array : PgArray.
Proof.
  refine {| array_in := plain_array_in; array_out l := "{" ++ Join l "," ++ "}" |}.
  - intros l Hl Hne. unfold plain_array_in.
    rewrite string_app_assoc, TrimSuffix_app, TrimPrefix_app, (Split_Join ",").
    + f_equal. clear Hne. induction l as [|w l IH]; [done|]. cbn in Hl. apply andb_true_iff in Hl as [Hw Hl].
      destruct (plain_word_chars w Hw) as [Hc He]. cbn [map flat_map]. unfold parsed_part at 1.
      by rewrite Trim_quoted, plain_TrimSpace, He, IH.
    + apply Forall_forall. intros x (w & -> & Hw)%list_elem_of_fmap. unfold quoted.
      rewrite forallb_forall in Hl. specialize (Hl w ltac:(by apply list_elem_of_In)).
      destruct (plain_word_chars w Hl) as [Hc _].
      assert (forall s, plain_chars s = true -> has_char "," (s ++ String quote "") = false) as Hs.
      { clear. induction s as [|c s IH]; [done|]. cbn [plain_chars has_char String.append].
        intros [Hc Hs]%andb_true_iff. destruct (plain_char_facts c Hc) as (_ & _ & _ & _ & ->). auto. }
      cbn [has_char]. by rewrite Hs.
    + by destruct l.
  - reflexivity.
  - reflexivity.
Defined.
Definition no_json : GoJson := {| Unmarshal_strings := fun _ => None |}.

Definition admin_user : AuthUser := {|
  AccountID := "sa"; TenantID := ""; TenantSchema := ""; Email := ""; Name := "";
  Role := "super_admin"; SessionID := ""; HomeTenantID := ""; HomeTenantSchema := "";
  IsPlatformSession := true; SessionKind := "admin"; Impersonating := false;
  ImpersonationTenantName := ""; ImpersonationTenantSlug := ""; ImpersonationScope := "";
  ImpersonationModules := []; ImpersonationExpiresAt := None |}.
Definition owner_user : AuthUser := {|
  AccountID := "ow"; TenantID := "t1"; TenantSchema := "tenant_1"; Email := ""; Name := "";
  Role := "owner"; SessionID := ""; HomeTenantID := "t1"; HomeTenantSchema := "tenant_1";
  IsPlatformSession := false; SessionKind := "client"; Impersonating := false;
  ImpersonationTenantName := ""; ImpersonationTenantSlug := ""; ImpersonationScope := "";
  ImpersonationModules := []; ImpersonationExpiresAt := None |}.
Definition sysdb0 : sysdb := {|
  tenants := {[ "t1" := {| t_slug := "t"; t_name := "T"; t_status := "active"; t_deleted := false;
                           t_schema := Some "tenant_1" |} ]};
  accounts := [("sa", {| a_tenant := None; a_role := "super_admin"; a_name := "S"; a_email := "";
                         a_deleted := false |});
               ("ow", {| a_tenant := Some "t1"; a_role := "owner"; a_name := "O"; a_email := "";
                         a_deleted := false |})];
  requests := []; effects := [] |}.
Definition ask : call := CallCreate (Some admin_user) (Some {|
  C_TenantID := "t1"; C_Reason := "support"; C_RequestedScope := "limited";
  C_RequestedModules := ["sales"; "ai"] |}).
Definition answer (id scope : string) (modules : list string) (preset : string) : call :=
  CallRespond (Some owner_user) id (Some {| P_Action := "approve"; P_GrantedScope := scope;
    P_GrantedModules := modules; P_DurationPreset := preset; P_RejectReason := "" |}).
(** a permanent approval, then a 24-hour one *)
Definition history0 : list event :=
  [(ask, 0, ["r1"], []); (answer "r1" "full" [] "permanent", 1, [], []);
   (ask, 2, ["r2"], []); (answer "r2" "limited" ["sales"; "ai"] "24h", 3, [], [])].
Definition db_after : sysdb := run_events (H:=no_json) (H0:=plain_array) history0 sysdb0.
Definition later : sysw := {| s_db := db_after; s_now := 25 * Hour; s_ids := []; s_faults := [] |}.

Lemma consent_inv_empty : consent_inv [].
Proof. split; cbn; [constructor|lia|constructor]. Qed.

Lemma consent_state_machine_witness :
  table_step ask 0 [] (requests (s_db (snd (run_call (H:=no_json) (H0:=plain_array) ask
    {| s_db := sysdb0; s_now := 0; s_ids := ["r1"]; s_faults := [] |})))).
Proof.
  refine (consent_state_machine (H:=no_json) (H0:=plain_array) ask
    {| s_db := sysdb0; s_now := 0; s_ids := ["r1"]; s_faults := [] |} _).
  constructor.
Defined.

Lemma consent_table_invariant_witness : consent_inv (requests db_after).
Proof.
  refine (consent_table_invariant (H:=no_json) (H0:=plain_array) history0 sysdb0 _).
  exact consent_inv_empty.
Defined.

(** Before the 24-hour grant expires it is answered; after, the permanent one
    is not, until the expired row has been marked. *)
Lemma active_grant_exact_witness :
  fst (ActiveGrant (H:=no_json) (H0:=plain_array) "sa" "t1" later) = Ok None /\
  fst (ActiveGrant (H:=no_json) (H0:=plain_array) "sa" "t1"
         (snd (ActiveGrant (H:=no_json) (H0:=plain_array) "sa" "t1" later)))
  = Ok (Some {| G_RequestID := "r1"; G_Scope := "full"; G_Modules := []; G_ExpiresAt := None |}).
Proof.
  split; [|vm_compute; reflexivity].
  refine (proj2 (active_grant_exact (H:=no_json) (H0:=plain_array) "sa" "t1" later _) _ eq_refl _ _).
  - apply run_events_inv, consent_inv_empty.
  - vm_compute. reflexivity.
  - vm_compute. reflexivity.
Defined.

Lemma limited_approval_never_falls_back_witness :
  is_ok (fst (RespondToRequest (H0:=plain_array) (Some owner_user) "r1"
    (Some {| P_Action := "approve"; P_GrantedScope := "limited"; P_GrantedModules := [];
             P_DurationPreset := "24h"; P_RejectReason := "" |})
    {| s_db := run_events (H:=no_json) (H0:=plain_array) [(ask, 0, ["r1"], [])] sysdb0;
       s_now := 1; s_ids := []; s_faults := [] |})) = false.
Proof. apply limited_approval_never_falls_back; reflexivity. Defined.
