(* ===== verification/Sessions.v ===== *)
(** * Sessions, authentication and impersonation

    Models [auth/session.go] (sessions in Redis), [auth/userctx.go],
    [auth/session_tenant.go], [auth/admin_session.go], [auth/httpauth.go],
    [auth/impersonation.go] and the token and login-completion parts of
    [auth/auth.go], over the session store (Redis.v) and the system database
    (TenantAccess.v).  JSON encoding of a session is the identity on the record.
    The JWT library is the class [JwtLib]: decoding a payload, verifying a
    token, signing claims. *)
From S2P Require Import Prelude GoStrings Redis AdminSession TenantAccess.

Open Scope string_scope.
Open Scope Z_scope.

(** ** Sessions *)
Record SessionData := {
  SD_AccountID : string; SD_TenantID : string; SD_TenantSchema : string; SD_Role : string;
  SD_Email : string; SD_Name : string;
  SD_Impersonating : bool; ActAsTenantID : string; ActAsTenantSchema : string;
  ActAsTenantName : string; ActAsTenantSlug : string; ActAsScope : string;
  ActAsModules : list string; ActAsGrantID : string; ActAsGrantExpiresAt : Z;
  Kind : string; IssuedAt : Z; ImpersonationSessionID : string
}.
Record Session := { S_SessionID : string; S_Data : SessionData }.

Definition defaultSessionTTL : Z := 7 * 24 * Hour.

(** updates of the impersonation part *)
Definition set_act_as (imp : bool) (tid tschema tname tslug scope : string) (modules : list string)
    (grant : string) (exp : Z) (s : SessionData) : SessionData :=
  {| SD_AccountID := SD_AccountID s; SD_TenantID := SD_TenantID s; SD_TenantSchema := SD_TenantSchema s;
     SD_Role := SD_Role s; SD_Email := SD_Email s; SD_Name := SD_Name s; SD_Impersonating := imp;
     ActAsTenantID := tid; ActAsTenantSchema := tschema; ActAsTenantName := tname;
     ActAsTenantSlug := tslug; ActAsScope := scope; ActAsModules := modules; ActAsGrantID := grant;
     ActAsGrantExpiresAt := exp; Kind := Kind s; IssuedAt := IssuedAt s;
     ImpersonationSessionID := ImpersonationSessionID s |}.
Definition set_schema (schema : string) (s : SessionData) : SessionData :=
  {| SD_AccountID := SD_AccountID s; SD_TenantID := SD_TenantID s; SD_TenantSchema := schema;
     SD_Role := SD_Role s; SD_Email := SD_Email s; SD_Name := SD_Name s;
     SD_Impersonating := SD_Impersonating s; ActAsTenantID := ActAsTenantID s;
     ActAsTenantSchema := ActAsTenantSchema s; ActAsTenantName := ActAsTenantName s;
     ActAsTenantSlug := ActAsTenantSlug s; ActAsScope := ActAsScope s; ActAsModules := ActAsModules s;
     ActAsGrantID := ActAsGrantID s; ActAsGrantExpiresAt := ActAsGrantExpiresAt s; Kind := Kind s;
     IssuedAt := IssuedAt s; ImpersonationSessionID := ImpersonationSessionID s |}.
Definition set_imp_session (sid : string) (s : SessionData) : SessionData :=
  {| SD_AccountID := SD_AccountID s; SD_TenantID := SD_TenantID s; SD_TenantSchema := SD_TenantSchema s;
     SD_Role := SD_Role s; SD_Email := SD_Email s; SD_Name := SD_Name s;
     SD_Impersonating := SD_Impersonating s; ActAsTenantID := ActAsTenantID s;
     ActAsTenantSchema := ActAsTenantSchema s; ActAsTenantName := ActAsTenantName s;
     ActAsTenantSlug := ActAsTenantSlug s; ActAsScope := ActAsScope s; ActAsModules := ActAsModules s;
     ActAsGrantID := ActAsGrantID s; ActAsGrantExpiresAt := ActAsGrantExpiresAt s; Kind := Kind s;
     IssuedAt := IssuedAt s; ImpersonationSessionID := sid |}.

(** ** The world: session store, system database, Firebase revocations asked *)
Record auth_world := {
  aw_redis : redis SessionData; aw_sys : sysw; aw_revoked : list string
}.
Definition in_redis {A} (m : prog (redis SessionData) A) : prog auth_world A := fun w =>
  let '(r, x) := m (aw_redis w) in
  (r, {| aw_redis := x; aw_sys := aw_sys w; aw_revoked := aw_revoked w |}).
Definition in_sys {A} (m : prog sysw A) : prog auth_world A := fun w =>
  let '(r, x) := m (aw_sys w) in
  (r, {| aw_redis := aw_redis w; aw_sys := x; aw_revoked := aw_revoked w |}).
Definition revokeFirebaseAsync (uid : string) : prog auth_world unit := fun w =>
  (Ok tt, {| aw_redis := aw_redis w; aw_sys := aw_sys w; aw_revoked := (aw_revoked w ++ [uid])%list |}).
Definition time_now : prog auth_world Z := in_sys now_.

(** [if err != nil { return fmt.Errorf("…: %w", err) }] *)
Definition wrap {W A} (msg : string) (m : prog W A) : prog W A :=
  let! r := attempt m in
  match r with Ok a => ret a | Err e => throw (EWrap msg e) end.

(** ** [session.go] *)
Definition sessionKey (accountID sessionID : string) : string :=
  "session:" ++ accountID ++ ":" ++ sessionID.

Definition createSession (data : SessionData) : prog auth_world Session :=
  let! sid := in_sys fresh_id in
  wrap "redis set session"
    (in_redis (cmd_set (sessionKey (SD_AccountID data) sid) data (SessionTTL (Kind data))));!
  ret {| S_SessionID := sid; S_Data := data |}.

Definition getSession (accountID sessionID : string) : prog auth_world (option SessionData) :=
  wrap "redis get session" (in_redis (cmd_get (sessionKey accountID sessionID))).

Definition destroySession (accountID sessionID : string) : prog auth_world unit :=
  in_redis (cmd_del (sessionKey accountID sessionID)).

Definition touchSession (accountID sessionID : string) : prog auth_world unit :=
  let! sess := attempt (getSession accountID sessionID) in
  match sess with
  | Ok (Some s) =>
      if String.eqb (NormalizeKind (Kind s)) KindAdmin then ret tt
      else wrap "redis expire session"
             (in_redis (cmd_expire (sessionKey accountID sessionID) defaultSessionTTL))
  | _ => wrap "redis expire session"
           (in_redis (cmd_expire (sessionKey accountID sessionID) defaultSessionTTL))
  end.

Definition updateSession (accountID sessionID : string) (data : SessionData) : prog auth_world unit :=
  let! ttl := wrap "redis ttl session" (in_redis (cmd_ttl (sessionKey accountID sessionID))) in
  let ttl := if ttl <=? 0 then defaultSessionTTL else ttl in
  wrap "redis set session" (in_redis (cmd_set (sessionKey accountID sessionID) data ttl)).

(** ** [userctx.go] *)
Definition roleSuperAdmin : string := "super_admin".

Definition buildAuthUser (sess : SessionData) (sessionID : string) : AuthUser :=
  let user tenantID schema platform imp tname tslug scope modules exp :=
    {| AccountID := SD_AccountID sess; TenantID := tenantID; TenantSchema := schema;
       Email := SD_Email sess; Name := SD_Name sess; Role := SD_Role sess; SessionID := sessionID;
       HomeTenantID := SD_TenantID sess; HomeTenantSchema := SD_TenantSchema sess;
       IsPlatformSession := platform; SessionKind := NormalizeKind (Kind sess);
       Impersonating := imp; ImpersonationTenantName := tname; ImpersonationTenantSlug := tslug;
       ImpersonationScope := scope; ImpersonationModules := modules;
       ImpersonationExpiresAt := exp |} in
  if SD_Impersonating sess && negb (String.eqb (ActAsTenantSchema sess) "") then
    user (ActAsTenantID sess) (ActAsTenantSchema sess) false true (ActAsTenantName sess)
      (ActAsTenantSlug sess) (ActAsScope sess)
      (if String.eqb (ActAsScope sess) ScopeLimited then ActAsModules sess else [])
      (if 0 <? ActAsGrantExpiresAt sess then Some (time_Unix (ActAsGrantExpiresAt sess)) else None)
  else if String.eqb (SD_Role sess) roleSuperAdmin && String.eqb (SD_TenantID sess) ""
          && String.eqb (NormalizeKind (Kind sess)) KindAdmin then
    user "" "" true false "" "" "" [] None
  else user (SD_TenantID sess) (SD_TenantSchema sess) false false "" "" "" [] None.

Definition clearImpersonationFields (sess : SessionData) : SessionData :=
  set_act_as false "" "" "" "" "" [] "" 0 sess.

(** [grant.ExpiresAt.Unix()], 0 for a permanent grant *)
Definition grant_unix (expiresAt : option Z) : Z :=
  match expiresAt with Some t => to_Unix t | None => 0 end.

Section auth.
Context `{GoJson} `{PgArray}.

(** the mutated session, or an error *)
Definition reconcileImpersonationGrant (accountID sessionID : string) (sess : SessionData)
  : prog auth_world SessionData :=
  if negb (SD_Impersonating sess) || String.eqb (ActAsTenantID sess) "" then ret sess
  else
    let! grant := wrap "impersonation grant lookup"
                    (in_sys (ActiveGrant accountID (ActAsTenantID sess))) in
    match grant with
    | None =>
        let sess := clearImpersonationFields sess in
        updateSession accountID sessionID sess;! ret sess
    | Some g =>
        let sess := set_act_as (SD_Impersonating sess) (ActAsTenantID sess) (ActAsTenantSchema sess)
          (ActAsTenantName sess) (ActAsTenantSlug sess) (G_Scope g) (G_Modules g) (G_RequestID g)
          (grant_unix (G_ExpiresAt g)) sess in
        updateSession accountID sessionID sess;! ret sess
    end.

(** ** [session_tenant.go] *)
(** SELECT … FROM tenant JOIN tenant_company … WHERE deleted_at IS NULL *)
Definition tenant_lookup (id : string) (d : sysdb) : option (tenant_row * string) :=
  match tenants d !! id with
  | Some t => if t_deleted t then None else (fun sch => (t, sch)) <$> t_schema t
  | None => None
  end.

Definition reconcileSessionTenant (sess : SessionData) : prog auth_world SessionData :=
  if SD_Impersonating sess && negb (String.eqb (ActAsTenantID sess) "") then
    let! row := wrap "impersonation tenant lookup"
      (in_sys (query (fun d => (Ok (tenant_lookup (ActAsTenantID sess) d), d)))) in
    match row with
    | None => throw (EText "impersonation tenant not found")
    | Some (t, schema) =>
        if negb (String.eqb (t_status t) "active") then throw (EText "impersonation tenant inactive")
        else ret (set_act_as (SD_Impersonating sess) (ActAsTenantID sess) schema
               (ActAsTenantName sess) (ActAsTenantSlug sess) (ActAsScope sess) (ActAsModules sess)
               (ActAsGrantID sess) (ActAsGrantExpiresAt sess) sess)
    end
  else if String.eqb (SD_Role sess) roleSuperAdmin && String.eqb (SD_TenantID sess) "" then ret sess
  else if String.eqb (SD_TenantID sess) "" then throw (EText "tenant id missing in session")
  else
    let! row := wrap "tenant lookup"
      (in_sys (query (fun d => (Ok (tenant_lookup (SD_TenantID sess) d), d)))) in
    match row with
    | None => throw (EText "tenant not found")
    | Some (t, schema) =>
        if negb (String.eqb (t_status t) "active") then throw (EText "tenant inactive")
        else ret (set_schema schema sess)
    end.
End auth.

(** ** Tokens *)
Record claims := { c_sub : string; c_sid : string; c_typ : string }.
(** a claim that is absent or not a string reads as the empty string *)
Class JwtLib := {
  jwt_payload : string -> option claims;          (** decode without verifying *)
  jwt_verify : Z -> string -> option error;       (** [None]: signature good, not expired *)
  jwt_sign : claims -> Z -> Z -> result string    (** claims, issued at, expires at *)
}.
Definition ErrTokenExpired : error := EText "token is expired".

Section tokens.
Context `{GoJson} `{PgArray} `{JwtLib}.

Definition parseJWTClaims (tokenString : string) (allowExpired : bool)
  : prog auth_world (string * string) :=
  let! now := time_now in
  match jwt_verify now tokenString with
  | Some err =>
      if allowExpired && errors_Is err ErrTokenExpired then
        match jwt_payload tokenString with
        | Some c =>
            if String.eqb (c_sub c) "" || String.eqb (c_sid c) ""
            then throw (EText "missing sub/sid in token") else ret (c_sub c, c_sid c)
        | None => throw (EText "missing sub/sid in token")
        end
      else throw err
  | None =>
      match jwt_payload tokenString with
      | Some c =>
          if String.eqb (c_sub c) "" || String.eqb (c_sid c) ""
          then throw (EText "missing sub/sid in token") else ret (c_sub c, c_sid c)
      | None => throw (EText "missing sub/sid in token")
      end
  end.
Definition parseJWT (tokenString : string) : prog auth_world (string * string) :=
  parseJWTClaims tokenString false.
Definition parseJWTAllowExpired (tokenString : string) : prog auth_world (string * string) :=
  parseJWTClaims tokenString true.

(** the token and its lifetime in seconds *)
Definition signJWTKind (accountID sessionID kind : string) : prog auth_world (string * Z) :=
  let! now := time_now in
  let ttl := TokenTTL kind in
  match jwt_sign {| c_sub := accountID; c_sid := sessionID; c_typ := NormalizeKind kind |}
          (to_Unix now) (to_Unix (now + ttl)) with
  | Ok t => ret (t, ttl / Second)
  | Err e => throw e
  end.

(** [admin_session.go] *)
Definition checkSessionKind (token : string) (sess : SessionData) : prog auth_world unit :=
  let! now := time_now in
  match jwt_payload token with
  | None => throw (EText "token is malformed")
  | Some c =>
      match CheckTokenKind (c_typ c) (Kind sess) with
      | Some e => throw e
      | None =>
          match CheckAdminExpiry (Kind sess) (time_Unix (IssuedAt sess)) now with
          | Some e => throw e
          | None => ret tt
          end
      end
  end.

(** any error of [m] becomes [e] *)
Definition or_error {A} (e : error) (m : prog auth_world A) : prog auth_world A :=
  let! r := attempt m in
  match r with Ok a => ret a | Err _ => throw e end.

Definition Unauthenticated_ (msg : string) : error := ECode Unauthenticated msg.

(** [AuthHandler], and [AuthenticateHTTP] once it has its token *)
Definition AuthHandler (token : string) : prog auth_world AuthUser :=
  let! ids := or_error (Unauthenticated_ "invalid token") (parseJWT token) in
  let '(accountID, sessionID) := ids in
  let! found := or_error (ECode Internal "session lookup failed") (getSession accountID sessionID) in
  match found with
  | None => throw (Unauthenticated_ "session expired")
  | Some sess =>
      let! sess := or_error (Unauthenticated_ "session invalid") (reconcileSessionTenant sess) in
      let! sess := or_error (Unauthenticated_ "session invalid")
                     (reconcileImpersonationGrant accountID sessionID sess) in
      or_error (Unauthenticated_ "session invalid") (checkSessionKind token sess);!
      ret (buildAuthUser sess sessionID)
  end.

(** ** [httpauth.go]: where the token comes from *)
Record http_request := {
  h_authorization : string; h_cookies : list (string * string);
  h_path : string; h_access_token : string   (** ?access_token= *)
}.
Definition lookup_cookie (name : string) (r : http_request) : option string :=
  snd <$> List.find (fun c => String.eqb c.1 name) (h_cookies r).

(** [strings.SplitN(h, " ", 2)] with two parts *)
Fixpoint cut_space (s : string) : option (string * string) :=
  match s with
  | "" => None
  | String c r =>
      if Ascii.eqb c " " then Some ("", r)
      else match cut_space r with Some (a, b) => Some (String c a, b) | None => None end
  end.

Definition accessTokenQueryAllowed (path : string) : bool :=
  let path := TrimSuffix path "/" in
  String.eqb path "/api/v1/inbox/stream"
  || bool_decide (is_Some (strip_suffix "/api/v1/inbox/stream" path)).

Definition extractBearerOrCookie (r : http_request) : string :=
  let cookie_or_query :=
    match lookup_cookie ClientCookie r with
    | Some v =>
        if negb (String.eqb v "") then v
        else match lookup_cookie AdminCookie r with
             | Some v => v
             | None => ""
             end
    | None => default "" (lookup_cookie AdminCookie r)
    end in
  let fallback :=
    if negb (String.eqb cookie_or_query "") then cookie_or_query
    else if accessTokenQueryAllowed (h_path r) then TrimSpace (h_access_token r)
    else "" in
  match cut_space (h_authorization r) with
  | Some (scheme, rest) =>
      if String.eqb (ToLower scheme) "bearer" then TrimSpace rest else fallback
  | None => fallback
  end.

Definition AuthenticateHTTP (r : http_request) : prog auth_world AuthUser :=
  let token := extractBearerOrCookie r in
  if String.eqb token "" then throw (Unauthenticated_ "not authenticated")
  else AuthHandler token.

(** ** [impersonation.go] *)
Record ImpersonationToken := {
  I_AccessToken : string; I_ExpiresAt : Z; I_SessionID : string; I_GrantID : string;
  I_AdminEmail : string
}.
Definition Internal_ (msg : string) : error := ECode Internal msg.
Definition Forbidden_ (msg : string) : error := ECode PermissionDenied msg.

Definition startImpersonation (accountID sessionID tenantID : string)
  : prog auth_world ImpersonationToken :=
  let! found := or_error (Internal_ "session lookup failed") (getSession accountID sessionID) in
  match found with
  | None => throw (Unauthenticated_ "session expired")
  | Some sess =>
      if negb (String.eqb (SD_Role sess) roleSuperAdmin) then throw (Forbidden_ "super admin required")
      else
        let! row := or_error (Internal_ "tenant lookup failed")
          (in_sys (query (fun d => (Ok (tenant_lookup tenantID d), d)))) in
        match row with
        | None => throw (ECode NotFound "tenant not found")
        | Some (t, schema) =>
            if negb (String.eqb (t_status t) "active") then throw (Forbidden_ "tenant is not active")
            else
              let! grant := or_error (Internal_ "grant lookup failed")
                              (in_sys (ActiveGrant accountID tenantID)) in
              match grant with
              | None => throw (Forbidden_
                  "minta persetujuan owner tenant terlebih dahulu sebelum pantau")
              | Some g =>
                  if negb (String.eqb (NormalizeKind (Kind sess)) KindAdmin)
                  then throw (Forbidden_ "admin session required")
                  else
                    let! now := time_now in
                    let imp := {|
                      SD_AccountID := SD_AccountID sess; SD_TenantID := ""; SD_TenantSchema := "";
                      SD_Role := SD_Role sess; SD_Email := SD_Email sess; SD_Name := SD_Name sess;
                      SD_Impersonating := true; ActAsTenantID := tenantID; ActAsTenantSchema := schema;
                      ActAsTenantName := t_name t; ActAsTenantSlug := t_slug t;
                      ActAsScope := G_Scope g; ActAsModules := G_Modules g;
                      ActAsGrantID := G_RequestID g; ActAsGrantExpiresAt := grant_unix (G_ExpiresAt g);
                      Kind := KindImpersonation; IssuedAt := to_Unix now;
                      ImpersonationSessionID := "" |} in
                    let! created := or_error (Internal_ "create impersonation session failed")
                                      (createSession imp) in
                    (if negb (String.eqb (ImpersonationSessionID sess) "")
                     then ignore (destroySession accountID (ImpersonationSessionID sess)) else ret tt);!
                    let sess := set_imp_session (S_SessionID created) sess in
                    let! updated := attempt (updateSession accountID sessionID sess) in
                    match updated with
                    | Err _ =>
                        ignore (destroySession accountID (S_SessionID created));!
                        throw (Internal_ "update session failed")
                    | Ok _ =>
                        let! signed := attempt (signJWTKind accountID (S_SessionID created) KindImpersonation) in
                        match signed with
                        | Err _ =>
                            ignore (destroySession accountID (S_SessionID created));!
                            throw (Internal_ "sign token failed")
                        | Ok (token, expiresIn) =>
                            let! now := time_now in
                            ret {| I_AccessToken := token; I_ExpiresAt := now + expiresIn * Second;
                                   I_SessionID := S_SessionID created; I_GrantID := G_RequestID g;
                                   I_AdminEmail := SD_Email sess |}
                        end
                    end
              end
        end
  end.
Definition StartImpersonation (accountID sessionID tenantID : string)
  : prog auth_world ImpersonationToken := startImpersonation accountID sessionID tenantID.

Definition StopImpersonation (accountID sessionID : string) : prog auth_world unit :=
  let! found := or_error (Internal_ "session lookup failed") (getSession accountID sessionID) in
  match found with
  | None => throw (Unauthenticated_ "session expired")
  | Some sess =>
      if negb (String.eqb (SD_Role sess) roleSuperAdmin) then throw (Forbidden_ "super admin required")
      else
        let! sess :=
          (if negb (String.eqb (ImpersonationSessionID sess) "") then
             ignore (destroySession accountID (ImpersonationSessionID sess));!
             ret (set_imp_session "" sess)
           else ret sess) in
        let sess := clearImpersonationFields sess in
        let! updated := attempt (updateSession accountID sessionID sess) in
        match updated with
        | Err e => throw (Internal_ ("update session: " ++ error_text e))
        | Ok _ => revokeFirebaseAsync accountID
        end
  end.

(** ** [auth.go]: profiles, completing a login, logging out *)
Record TenantResponse := { TR_ID : string; TR_Slug : string; TR_Name : string }.
Record ImpersonationResponse := {
  IR_Active : bool; IR_Tenant : TenantResponse; IR_Scope : string; IR_Modules : list string;
  IR_ExpiresAt : option Z
}.
Record UserResponse := {
  U_ID : string; U_Email : string; U_Name : string; U_Role : string;
  U_Tenant : option TenantResponse; U_Platform : bool; U_Impersonation : option ImpersonationResponse
}.

(** a failed lookup leaves both empty *)
Definition lookupTenantDisplay (tenantID : string) : prog auth_world (string * string) :=
  let! r := attempt (in_sys (query (fun d =>
    (match tenants d !! tenantID with
     | Some t => if t_deleted t then Err query_error else Ok (t_slug t, t_name t)
     | None => Err query_error
     end, d)))) in
  ret (match r with Ok p => p | Err _ => ("", "") end).

Definition profileResponse (u : AuthUser) : prog auth_world UserResponse :=
  let resp tenant platform imp :=
    {| U_ID := AccountID u; U_Email := Email u; U_Name := Name u; U_Role := Role u;
       U_Tenant := tenant; U_Platform := platform; U_Impersonation := imp |} in
  if IsPlatformSession u then ret (resp None true None)
  else if Impersonating u && negb (String.eqb (TenantID u) "") then
    let tenant := {| TR_ID := TenantID u; TR_Slug := ImpersonationTenantSlug u;
                     TR_Name := ImpersonationTenantName u |} in
    ret (resp (Some tenant) false (Some {| IR_Active := true; IR_Tenant := tenant;
      IR_Scope := ImpersonationScope u; IR_Modules := ImpersonationModules u;
      IR_ExpiresAt := ImpersonationExpiresAt u |}))
  else if negb (String.eqb (TenantID u) "") then
    let slug := ImpersonationTenantSlug u in
    let name := ImpersonationTenantName u in
    let! display := (if String.eqb slug "" || String.eqb name ""
                     then lookupTenantDisplay (TenantID u) else ret (slug, name)) in
    ret (resp (Some {| TR_ID := TenantID u; TR_Slug := display.1; TR_Name := display.2 |}) false None)
  else ret (resp None false None).

(** an HTTP answer: the error body, the admin login body, or the client one *)
Inductive login_response : Type :=
  | LoginError (status : Z) (msg : string)
  | AdminLogin (status : Z) (accessToken : string) (expiresAt : Z)
  | ClientLogin (status : Z) (accessToken : string) (expiresInSeconds : Z) (user : UserResponse)
      (sessionType : string).

Definition completeLoginKind (accountID email name role tenantID schemaName : string)
    (statusCode : Z) (kind : string) : prog auth_world login_response :=
  let sessKind := if String.eqb kind KindAdmin then KindAdmin else "" in
  let! now := time_now in
  let! created := attempt (createSession {|
    SD_AccountID := accountID; SD_TenantID := tenantID; SD_TenantSchema := schemaName;
    SD_Role := role; SD_Email := email; SD_Name := name; SD_Impersonating := false;
    ActAsTenantID := ""; ActAsTenantSchema := ""; ActAsTenantName := ""; ActAsTenantSlug := "";
    ActAsScope := ""; ActAsModules := []; ActAsGrantID := ""; ActAsGrantExpiresAt := 0;
    Kind := sessKind; IssuedAt := to_Unix now; ImpersonationSessionID := "" |}) in
  match created with
  | Err _ => ret (LoginError 500 "create session failed")
  | Ok sess =>
      let! signed := attempt (signJWTKind accountID (S_SessionID sess) kind) in
      match signed with
      | Err _ => ret (LoginError 500 "sign jwt failed")
      | Ok (accessToken, expiresIn) =>
          in_sys (record_effect (Audit tenantID accountID "auth.login" accountID
            [("email", email); ("role", role)]));!
          if String.eqb kind KindAdmin then
            let! now := time_now in
            ret (AdminLogin statusCode accessToken (now + expiresIn * Second))
          else
            let! user := profileResponse (buildAuthUser (S_Data sess) (S_SessionID sess)) in
            ret (ClientLogin statusCode accessToken expiresIn user (NormalizeKind kind))
      end
  end.

Definition logoutSession (u : option AuthUser) : prog auth_world unit :=
  match u with
  | None => throw ErrWrongTokenKind
  | Some u =>
      match RawHandlerAccess "auth.Logout" (SessionKind u) with
      | Some _ => throw ErrWrongTokenKind
      | None => destroySession (AccountID u) (SessionID u)
      end
  end.

(** the status of the answer *)
Definition Logout (r : http_request) : prog auth_world Z :=
  let! user := attempt (AuthenticateHTTP r) in
  match user with
  | Err _ => ret 401
  | Ok u =>
      let! out := attempt (logoutSession (Some u)) in
      match out with
      | Err _ => ret 401
      | Ok _ =>
          in_sys (record_effect (Audit (TenantID u) (AccountID u) "auth.logout" (AccountID u) []));!
          revokeFirebaseAsync (AccountID u);!
          ret 200
      end
  end.

Definition serveMe (r : http_request) : prog auth_world (Z * option UserResponse) :=
  let! user := attempt (AuthenticateHTTP r) in
  match user with
  | Err _ => ret (401, None)
  | Ok u =>
      match RawHandlerAccess "auth.Me" (SessionKind u) with
      | Some _ => ret (401, None)
      | None => let! p := profileResponse u in ret (200, Some p)
      end
  end.

(** [login_portal.go]: the admin profile, (id, email, name, role) *)
Definition PlatformAdminMe (r : http_request)
  : prog auth_world (Z * option (string * string * string * string)) :=
  let! user := attempt (AuthenticateHTTP r) in
  match user with
  | Err _ => ret (401, None)
  | Ok u =>
      match MeAccess MeAdmin (SessionKind u) with
      | Some _ => ret (401, None)
      | None => ret (200, Some (AccountID u, Email u, Name u, Role u))
      end
  end.
End tokens.

(** ** The session store's invariant

    Every stored session lies under its own account's key, with colon-free
    ids; an impersonating session is a tenantless super admin's with a target
    tenant; a tenantless session has no schema of its own. *)
Definition colon_free (s : string) : Prop := has_char ":" s = false.
Record session_ok (s : SessionData) : Prop := {
  so_account : colon_free (SD_AccountID s);
  so_tenantless : SD_TenantID s = "" -> SD_TenantSchema s = "";
  so_impersonating : SD_Impersonating s = true ->
    SD_TenantID s = "" /\ ActAsTenantID s <> "" /\ Kind s = KindImpersonation
}.
Definition data_ok (m : gmap string (SessionData * option Z)) : Prop :=
  forall k v e, m !! k = Some (v, e) ->
    session_ok v /\ exists sid, colon_free sid /\ k = sessionKey (SD_AccountID v) sid.
Definition sys_ok (x : sysw) : Prop :=
  Forall colon_free (s_ids x) /\ tenants (s_db x) !! "" = None.
Definition store_inv (w : auth_world) : Prop :=
  sys_ok (aw_sys w) /\ data_ok (r_data (aw_redis w)).

(** ** The operations of the package on the session store *)
Inductive auth_op : Type :=
  | OpAuth (token : string)
  | OpTouch (accountID sessionID : string)
  | OpLogin (accountID email name role tenantID schemaName : string) (statusCode : Z) (kind : string)
  | OpLogout (u : option AuthUser)
  | OpStart (accountID sessionID tenantID : string)
  | OpStop (accountID sessionID : string).
Definition run_op `{GoJson} `{PgArray} `{JwtLib} (o : auth_op) : prog auth_world unit :=
  match o with
  | OpAuth token => AuthHandler token;! ret tt
  | OpTouch a s => touchSession a s
  | OpLogin a email name role t schema status kind =>
      completeLoginKind a email name role t schema status kind;! ret tt
  | OpLogout u => logoutSession u
  | OpStart a s t => StartImpersonation a s t;! ret tt
  | OpStop a s => StopImpersonation a s
  end.
(** what [completeLoginKind] is called with: an account id, and no schema
    without a tenant *)
Definition op_ok (o : auth_op) : Prop :=
  match o with
  | OpLogin a _ _ _ t schema _ _ => colon_free a /\ (t = "" -> schema = "")
  | _ => True
  end.

(** ** Lemmas *)
Lemma colon_key_free (a s a' s' : string) :
  colon_free a' -> colon_free s' -> a ++ ":" ++ s = a' ++ ":" ++ s' -> a = a' /\ s = s'.
Proof.
  intros Ha Hs E.
  assert (colon_free a) as Haf.
  { revert a' Ha E. unfold colon_free in *. induction a as [|c a IH]; [done|].
    intros [|d a'] Ha E.
    - exfalso. cbn in E. injection E as _ E. rewrite <- E in Hs.
      clear -Hs. induction a as [|c a IH]; cbn in Hs; [done|].
      apply orb_false_iff in Hs as [_ Hs]. auto.
    - cbn in E, Ha |- *. apply orb_false_iff in Ha as [Hd Ha]. injection E as -> E.
      rewrite Hd. cbn. by eapply IH. }
  by eapply (colon_split ":").
Qed.

Lemma sessionKey_inj a s a' s' :
  colon_free a' -> colon_free s' -> sessionKey a s = sessionKey a' s' -> a = a' /\ s = s'.
Proof. intros Ha Hs E. unfold sessionKey in E. apply string_app_inj_l in E. by apply colon_key_free. Qed.

(** *** Hoare rules for the store invariant *)
Definition triple {A} (m : prog auth_world A) (Q : A -> Prop) : Prop :=
  forall w, store_inv w -> store_inv (snd (m w)) /\ (forall a, fst (m w) = Ok a -> Q a).

Lemma triple_ret {A} (a : A) (Q : A -> Prop) : Q a -> triple (ret a) Q.
Proof. intros Ha w Hw. split; [done|]. by intros b [= <-]. Qed.
Lemma triple_throw {A} e (Q : A -> Prop) : triple (throw e) Q.
Proof. intros w Hw. by split. Qed.
Lemma triple_bind {A B} (m : prog auth_world A) (k : A -> prog auth_world B) Q R :
  triple m Q -> (forall a, Q a -> triple (k a) R) -> triple (bind m k) R.
Proof.
  intros Hm Hk w Hw. destruct (Hm w Hw) as [H1 H2]. unfold bind.
  destruct (m w) as [[a|e] w1]; cbn in *; [|by split]. by apply Hk; [apply H2|].
Qed.
Lemma triple_attempt {A} (m : prog auth_world A) Q :
  triple m Q -> triple (attempt m) (fun r => match r with Ok a => Q a | Err _ => True end).
Proof.
  intros Hm w Hw. destruct (Hm w Hw) as [H1 H2]. unfold attempt.
  destruct (m w) as [[a|e] w1]; cbn in *; split; try done; intros r [= <-]; auto.
Qed.
Lemma triple_ignore {A} (m : prog auth_world A) Q : triple m Q -> triple (ignore m) (fun _ => True).
Proof. intros Hm w Hw. destruct (Hm w Hw) as [H1 _]. by split. Qed.
Lemma triple_weaken {A} (m : prog auth_world A) (Q R : A -> Prop) :
  triple m Q -> (forall a, Q a -> R a) -> triple m R.
Proof. intros Hm HQ w Hw. destruct (Hm w Hw). split; auto. Qed.
Lemma triple_true {A} (m : prog auth_world A) Q : triple m Q -> triple m (fun _ => True).
Proof. intros Hm. by eapply triple_weaken. Qed.
Lemma triple_or_error {A} e (m : prog auth_world A) Q : triple m Q -> triple (or_error e m) Q.
Proof.
  intros Hm. eapply triple_bind; [by apply triple_attempt|].
  intros [a|e'] Ha; [by apply triple_ret|apply triple_throw].
Qed.
Lemma triple_wrap {A} s (m : prog auth_world A) Q : triple m Q -> triple (wrap s m) Q.
Proof.
  intros Hm. eapply triple_bind; [by apply triple_attempt|].
  intros [a|e'] Ha; [by apply triple_ret|apply triple_throw].
Qed.
Lemma triple_if {A} (b : bool) (m1 m2 : prog auth_world A) Q :
  (b = true -> triple m1 Q) -> (b = false -> triple m2 Q) -> triple (if b then m1 else m2) Q.
Proof. destruct b; auto. Qed.

(** *** Commands on the session store *)
Lemma triple_redis {A} (f : redis SessionData -> A * redis SessionData) (Q : A -> Prop) :
  (forall r, data_ok (r_data r) -> data_ok (r_data (snd (f r))) /\ Q (fst (f r))) ->
  triple (in_redis (run f)) Q.
Proof.
  intros Hf w [Hs Hd]. unfold in_redis, run.
  set (rest := Build_redis _ _ _ _). destruct (Hf rest Hd) as [H1 H2].
  destruct (head (r_faults (aw_redis w))) as [[]|]; destruct (f rest) as [a r'];
    (split; [by split|]); cbn; by intros b [= <-].
Qed.

Lemma data_ok_insert m k v e sid :
  data_ok m -> session_ok v -> colon_free sid -> k = sessionKey (SD_AccountID v) sid ->
  data_ok (<[ k := (v, e) ]> m).
Proof.
  intros Hm Hv Hs -> k' v' e'. destruct (decide (sessionKey (SD_AccountID v) sid = k')) as [<-|Hne].
  - rewrite lookup_insert_eq. intros [= <- <-]. eauto.
  - rewrite lookup_insert_ne by done. apply Hm.
Qed.

Lemma triple_set v ttl sid :
  session_ok v -> colon_free sid ->
  triple (in_redis (cmd_set (sessionKey (SD_AccountID v) sid) v ttl)) (fun _ => True).
Proof.
  intros Hv Hs. apply triple_redis. intros r Hr. split; [|done]. cbn. by eapply data_ok_insert.
Qed.
Lemma triple_del k : triple (in_redis (cmd_del k)) (fun _ => True).
Proof.
  apply triple_redis. intros r Hr. split; [|done]. intros k' v e. cbn.
  rewrite lookup_delete_Some. intros [_ ?]. by apply (Hr k' v e).
Qed.
Lemma triple_expire k ttl : triple (in_redis (cmd_expire k ttl)) (fun _ => True).
Proof.
  apply triple_redis. intros r Hr. split; [|done]. cbn.
  destruct (rlookup r k) as [[v e]|] eqn:E; [|done]. cbn.
  apply rlookup_live in E as [E _]. destruct (Hr k v e E) as (Hv & sid & Hs & ->).
  by eapply data_ok_insert.
Qed.
Lemma triple_ttl k : triple (in_redis (cmd_ttl k)) (fun _ => True).
Proof. apply triple_redis. intros r Hr. by split. Qed.

(** a session read under an account's key is that account's *)
Lemma rvalue_session r a s v :
  data_ok (r_data r) -> rvalue r (sessionKey a s) = Some v ->
  session_ok v /\ SD_AccountID v = a /\ colon_free s.
Proof.
  unfold rvalue. intros Hr Hv. destruct (rlookup r _) as [[v' e]|] eqn:E; [|done].
  injection Hv as ->. apply rlookup_live in E as [E _].
  destruct (Hr _ _ _ E) as (Hv & sid & Hs & Hk).
  apply sessionKey_inj in Hk as [-> ->]; [done|apply (so_account _ Hv)|done].
Qed.

Lemma getSession_triple a s :
  triple (getSession a s) (fun o => forall v, o = Some v ->
    session_ok v /\ SD_AccountID v = a /\ colon_free s).
Proof.
  apply triple_wrap, triple_redis. intros r Hr. split; [done|]. cbn. intros v Hv.
  by apply (rvalue_session r).
Qed.
Lemma destroySession_triple a s : triple (destroySession a s) (fun _ => True).
Proof. apply triple_del. Qed.
Lemma updateSession_triple a s v :
  session_ok v -> SD_AccountID v = a -> colon_free s -> triple (updateSession a s v) (fun _ => True).
Proof.
  intros Hv <- Hs. eapply triple_bind; [apply triple_wrap, triple_ttl|]. intros ttl _.
  by apply triple_wrap, triple_set.
Qed.

(** *** The system database *)
Lemma triple_sys {A} (m : prog sysw A) (Q : A -> Prop) :
  (forall x, sys_ok x -> sys_ok (snd (m x)) /\ (forall a, fst (m x) = Ok a -> Q a)) ->
  triple (in_sys m) Q.
Proof.
  intros Hm w [Hs Hd]. destruct (Hm _ Hs) as [H1 H2]. unfold in_sys.
  destruct (m (aw_sys w)) as [r x]; cbn in *. by split.
Qed.
Lemma triple_fresh : triple (in_sys fresh_id) colon_free.
Proof.
  apply triple_sys. intros x [Hi Ht]. unfold fresh_id. cbn. split; [|intros a [= <-]].
  - split; [by destruct Hi|done].
  - by destruct Hi.
Qed.
Lemma triple_now : triple time_now (fun _ => True).
Proof. apply triple_sys. by intros x Hx. Qed.
(** statements that leave the tenants alone *)
Lemma query_sys_ok {A} (f : sysdb -> result A * sysdb) (Q : A -> Prop) x :
  (forall d, tenants (snd (f d)) = tenants d) -> (forall d a, tenants d !! "" = None -> fst (f d) = Ok a -> Q a) ->
  sys_ok x -> sys_ok (snd (query f x)) /\ (forall a, fst (query f x) = Ok a -> Q a).
Proof.
  intros Hf HQ [Hi Ht]. unfold query. pose proof (Hf (s_db x)) as Hd. specialize (HQ (s_db x)).
  destruct (default Fine (head (s_faults x))); destruct (f (s_db x)) as [r d]; cbn in *;
    (split; [split; cbn; [done|congruence]|]); try done; intros a ->; auto.
Qed.
Lemma triple_effect e : triple (in_sys (record_effect e)) (fun _ => True).
Proof.
  apply triple_sys. intros x Hx. unfold record_effect, ignore. cbn [fst snd]. split; [|done].
  by apply (query_sys_ok _ (fun _ => True)).
Qed.
Lemma tenant_row_triple id :
  triple (in_sys (query (fun d => (Ok (tenant_lookup id d), d)))) (fun o => o <> None -> id <> "").
Proof.
  apply triple_sys. intros x Hx. apply query_sys_ok; [done| |done].
  intros d a Hd [= <-] Ha ->. apply Ha. unfold tenant_lookup. by rewrite Hd.
Qed.
Lemma display_triple id : triple (lookupTenantDisplay id) (fun _ => True).
Proof.
  eapply triple_bind; [|intros r _; by apply triple_ret].
  eapply triple_true, triple_attempt, triple_sys. intros x Hx.
  by apply (query_sys_ok _ (fun _ => True)).
Qed.
Lemma revoke_triple uid : triple (revokeFirebaseAsync uid) (fun _ => True).
Proof. intros w Hw. by split. Qed.

Section preserved.
Context `{GoJson} `{PgArray}.

Lemma ActiveGrant_triple a t : triple (in_sys (ActiveGrant a t)) (fun _ => True).
Proof.
  apply triple_sys. intros x Hx. split; [|done]. unfold ActiveGrant, bind, now_.
  set (f := fun d : sysdb => _ : result (option access_row) * sysdb).
  destruct (query_sys_ok f (fun _ => True) x ltac:(done) ltac:(done) Hx) as [H1 _].
  destruct (query f x) as [[[r|]|e] x1]; cbn in H1 |- *; [|done..].
  destruct (negb _); cbn; [|done].
  by apply (query_sys_ok _ (fun _ => True)).
Qed.

Lemma reconcileTenant_triple s :
  session_ok s -> triple (reconcileSessionTenant s)
    (fun s' => session_ok s' /\ SD_AccountID s' = SD_AccountID s).
Proof.
  intros Hs. unfold reconcileSessionTenant. apply triple_if; intros Hi.
  - eapply triple_bind; [apply triple_wrap, tenant_row_triple|]. intros [[t schema]|] _; [|apply triple_throw].
    apply triple_if; intros _; [apply triple_throw|]. apply triple_ret. split; [|done]. by destruct Hs.
  - apply triple_if; intros _; [by apply triple_ret|].
    apply triple_if; intros Ht; [apply triple_throw|].
    eapply triple_bind; [apply triple_wrap, tenant_row_triple|]. intros [[t schema]|] _; [|apply triple_throw].
    apply triple_if; intros _; [apply triple_throw|]. apply triple_ret. split; [|done].
    destruct Hs. split; cbn; [done| |done]. intros He. by rewrite He in Ht.
Qed.

Lemma clear_ok s : session_ok s -> session_ok (clearImpersonationFields s).
Proof. by intros [Ha Ht _]; split. Qed.

Lemma reconcileGrant_triple a sid s :
  session_ok s -> SD_AccountID s = a -> colon_free sid ->
  triple (reconcileImpersonationGrant a sid s) (fun s' => session_ok s' /\ SD_AccountID s' = a).
Proof.
  intros Hs Ha Hsid. unfold reconcileImpersonationGrant. apply triple_if; intros _; [by apply triple_ret|].
  eapply triple_bind; [apply triple_wrap, ActiveGrant_triple|]. intros [g|] _; cbv zeta.
  - set (s1 := set_act_as _ _ _ _ _ _ _ _ _ s). assert (session_ok s1) as H1 by (by destruct Hs).
    eapply triple_bind; [by apply updateSession_triple|]. intros _ _. by apply triple_ret.
  - eapply triple_bind; [apply updateSession_triple; [by apply clear_ok|done..]|].
    intros _ _. apply triple_ret. split; [by apply clear_ok|done].
Qed.
End preserved.

Section preserved_tokens.
Context `{GoJson} `{PgArray} `{JwtLib}.

Lemma parseJWT_triple token b : triple (parseJWTClaims token b) (fun _ => True).
Proof.
  eapply triple_bind; [apply triple_now|]. intros now _.
  repeat case_goal; first [by apply triple_ret|apply triple_throw].
Qed.
Lemma signJWT_triple a sid kind : triple (signJWTKind a sid kind) (fun _ => True).
Proof.
  eapply triple_bind; [apply triple_now|]. intros now _. cbv zeta.
  destruct (jwt_sign _ _ _); [by apply triple_ret|apply triple_throw].
Qed.
Lemma checkKind_triple token s : triple (checkSessionKind token s) (fun _ => True).
Proof.
  eapply triple_bind; [apply triple_now|]. intros now _.
  repeat case_goal; first [by apply triple_ret|apply triple_throw].
Qed.

Lemma AuthHandler_triple token : triple (AuthHandler token) (fun _ => True).
Proof.
  eapply triple_bind; [apply triple_or_error, parseJWT_triple|]. intros [a sid] _.
  eapply triple_bind; [apply triple_or_error, getSession_triple|]. intros [s|] Hs; [|apply triple_throw].
  destruct (Hs s eq_refl) as (Hok & Ha & Hsid).
  eapply triple_bind; [by apply triple_or_error, reconcileTenant_triple|]. intros s1 [Hs1 Ha1].
  eapply triple_bind; [apply triple_or_error, reconcileGrant_triple; [done|congruence|done]|]. intros s2 _.
  eapply triple_bind; [apply triple_or_error, checkKind_triple|]. intros _ _. by apply triple_ret.
Qed.

Lemma touchSession_triple a sid : triple (touchSession a sid) (fun _ => True).
Proof.
  eapply triple_bind; [eapply triple_true, triple_attempt, getSession_triple|]. intros [[s|]|e] _.
  1: apply triple_if; intros _; [by apply triple_ret|].
  all: apply triple_wrap, triple_expire.
Qed.

Lemma createSession_triple v :
  session_ok v -> triple (createSession v) (fun s => S_Data s = v /\ colon_free (S_SessionID s)).
Proof.
  intros Hv. eapply triple_bind; [apply triple_fresh|]. intros sid Hsid.
  eapply triple_bind; [by apply triple_wrap, triple_set|]. intros _ _. by apply triple_ret.
Qed.

Lemma profile_triple u : triple (profileResponse u) (fun _ => True).
Proof.
  unfold profileResponse. cbv zeta. repeat (apply triple_if; intros _); try by apply triple_ret.
  eapply triple_bind; [|intros d _; by apply triple_ret].
  apply triple_if; intros _; [apply display_triple|by apply triple_ret].
Qed.

Lemma login_triple a email name role t schema status kind :
  colon_free a -> (t = "" -> schema = "") ->
  triple (completeLoginKind a email name role t schema status kind) (fun _ => True).
Proof.
  intros Ha Ht. unfold completeLoginKind. cbv zeta. eapply triple_bind; [apply triple_now|]. intros now _.
  eapply triple_bind; [eapply triple_true, triple_attempt, createSession_triple; by split|].
  intros [sess|e] _; [|by apply triple_ret].
  eapply triple_bind; [eapply triple_true, triple_attempt, signJWT_triple|].
  intros [[tok exp]|e] _; [|by apply triple_ret].
  eapply triple_bind; [apply triple_effect|]. intros _ _. apply triple_if; intros _.
  - eapply triple_bind; [apply triple_now|]. intros n _. by apply triple_ret.
  - eapply triple_bind; [apply profile_triple|]. intros u _. by apply triple_ret.
Qed.

Lemma logout_triple u : triple (logoutSession u) (fun _ => True).
Proof.
  destruct u as [u|]; [|apply triple_throw]. unfold logoutSession.
  destruct (RawHandlerAccess _ _); [apply triple_throw|apply destroySession_triple].
Qed.

Lemma set_imp_ok sid s : session_ok s -> session_ok (set_imp_session sid s).
Proof. by intros [? ? ?]; split. Qed.

Lemma start_triple a sid t : triple (startImpersonation a sid t) (fun _ => True).
Proof.
  eapply triple_bind; [apply triple_or_error, getSession_triple|]. intros [s|] Hs; [|apply triple_throw].
  destruct (Hs s eq_refl) as (Hok & Ha & Hsid). apply triple_if; intros _; [apply triple_throw|].
  eapply triple_bind; [apply triple_or_error, tenant_row_triple|].
  intros [[tr schema]|] Ht; [|apply triple_throw]. specialize (Ht ltac:(done)).
  apply triple_if; intros _; [apply triple_throw|].
  eapply triple_bind; [apply triple_or_error, ActiveGrant_triple|]. intros [g|] _; [|apply triple_throw].
  apply triple_if; intros _; [apply triple_throw|].
  eapply triple_bind; [apply triple_now|]. intros now _. cbv zeta.
  eapply triple_bind; [eapply triple_or_error, createSession_triple; by destruct Hok|]. intros created _.
  eapply (triple_bind _ _ (fun _ => True)).
  { apply triple_if; intros _; [eapply triple_ignore, destroySession_triple|by apply triple_ret]. }
  intros _ _. eapply triple_bind.
  { eapply triple_true, triple_attempt, updateSession_triple; [by apply set_imp_ok|done..]. }
  intros [?|?] _.
  2: { eapply triple_bind; [eapply triple_ignore, destroySession_triple|]. intros _ _. apply triple_throw. }
  eapply triple_bind; [eapply triple_true, triple_attempt, signJWT_triple|]. intros [[tok exp]|e] _.
  2: { eapply triple_bind; [eapply triple_ignore, destroySession_triple|]. intros _ _. apply triple_throw. }
  eapply triple_bind; [apply triple_now|]. intros n _. by apply triple_ret.
Qed.

Lemma stop_triple a sid : triple (StopImpersonation a sid) (fun _ => True).
Proof.
  eapply triple_bind; [apply triple_or_error, getSession_triple|]. intros [s|] Hs; [|apply triple_throw].
  destruct (Hs s eq_refl) as (Hok & Ha & Hsid). apply triple_if; intros _; [apply triple_throw|].
  eapply (triple_bind _ _ (fun s' => session_ok s' /\ SD_AccountID s' = a)).
  { apply triple_if; intros _; [|by apply triple_ret].
    eapply triple_bind; [eapply triple_ignore, destroySession_triple|]. intros _ _.
    apply triple_ret. split; [by apply set_imp_ok|done]. }
  intros s' [Hs1 Ha1]. cbv zeta. eapply triple_bind.
  { eapply triple_true, triple_attempt, updateSession_triple; [by apply clear_ok|done..]. }
  intros [?|?] _; [apply revoke_triple|apply triple_throw].
Qed.

Lemma run_op_triple o : op_ok o -> triple (run_op o) (fun _ => True).
Proof.
  intros Hok. destruct o; cbn [run_op].
  1, 3, 5: eapply triple_bind; [|intros ? _; by apply triple_ret].
  - apply AuthHandler_triple.
  - destruct Hok. by apply login_triple.
  - apply start_triple.
  - apply touchSession_triple.
  - apply logout_triple.
  - apply stop_triple.
Qed.
End preserved_tokens.

(** *** What a successful call read *)
Lemma or_error_ok {A} e (m : prog auth_world A) w a w' :
  or_error e m w = (Ok a, w') -> m w = (Ok a, w').
Proof. unfold or_error, attempt, bind. destruct (m w) as [[b|e'] w1]; [|done]. by intros [= -> ->]. Qed.
Lemma wrap_ok {W A} s (m : prog W A) w a w' : wrap s m w = (Ok a, w') -> m w = (Ok a, w').
Proof. unfold wrap, attempt, bind. destruct (m w) as [[b|e'] w1]; [|done]. by intros [= -> ->]. Qed.
Lemma in_redis_ok {A} (m : prog (redis SessionData) A) w r w' :
  in_redis m w = (r, w') -> m (aw_redis w) = (r, aw_redis w') /\ aw_sys w' = aw_sys w.
Proof. unfold in_redis. destruct (m (aw_redis w)) as [r' x]. by intros [= <- <-]. Qed.
Lemma in_sys_ok {A} (m : prog sysw A) w r w' :
  in_sys m w = (r, w') -> m (aw_sys w) = (r, aw_sys w') /\ aw_redis w' = aw_redis w.
Proof. unfold in_sys. destruct (m (aw_sys w)) as [r' x]. by intros [= <- <-]. Qed.
Lemma run_ok {V A} (f : redis V -> A * redis V) r a r' :
  (forall x fs, fst (f (Build_redis (r_data x) (r_now x) fs (r_client x))) = fst (f x)) ->
  run f r = (Ok a, r') -> a = fst (f r).
Proof.
  intros Hf. unfold run. specialize (Hf r (tail (r_faults r))).
  destruct (head (r_faults r)) as [[]|]; try done; destruct (f _) as [b x]; cbn in Hf; by intros [= <- <-].
Qed.

Lemma getSession_ok a s w o w' :
  getSession a s w = (Ok o, w') -> o = rvalue (aw_redis w) (sessionKey a s) /\ aw_sys w' = aw_sys w.
Proof.
  intros [Hg Hs]%wrap_ok%in_redis_ok. split; [|done]. by apply run_ok in Hg.
Qed.

(** the database a later query reads: same rows, same time *)
Definition same_db (w w' : auth_world) : Prop :=
  s_db (aw_sys w') = s_db (aw_sys w) /\ s_now (aw_sys w') = s_now (aw_sys w).

Lemma read_ok {A} (f : sysdb -> result A) w a w' :
  in_sys (query (fun d => (f d, d))) w = (Ok a, w') ->
  f (s_db (aw_sys w)) = Ok a /\ same_db w w' /\ aw_redis w' = aw_redis w.
Proof.
  intros [Hq Hr]%in_sys_ok. destruct (query_cases _ _ _ _ Hq) as [Hn [[-> Hd]|[[=] _]]]. by split_and!.
Qed.

(** a tenant that may be served, with its schema *)
Definition active_tenant (d : sysdb) (id schema : string) : Prop :=
  exists t, tenants d !! id = Some t /\ t_deleted t = false /\ t_status t = "active" /\
    t_schema t = Some schema.

Lemma tenant_lookup_active d id t schema :
  tenant_lookup id d = Some (t, schema) -> t_status t = "active" -> active_tenant d id schema.
Proof.
  unfold tenant_lookup. intros Hl Ha. destruct (tenants d !! id) as [t'|] eqn:E; [|done].
  destruct (t_deleted t') eqn:Ed; [done|]. destruct (t_schema t') eqn:Es; [|done]. injection Hl as -> ->.
  by exists t.
Qed.

Section read.
Context `{GoJson} `{PgArray}.

(** the session after its tenant was reloaded *)
Inductive tenant_reloaded (d : sysdb) (s : SessionData) : SessionData -> Prop :=
  | tr_impersonated schema :
      SD_Impersonating s = true -> ActAsTenantID s <> "" -> active_tenant d (ActAsTenantID s) schema ->
      tenant_reloaded d s (set_act_as (SD_Impersonating s) (ActAsTenantID s) schema
        (ActAsTenantName s) (ActAsTenantSlug s) (ActAsScope s) (ActAsModules s)
        (ActAsGrantID s) (ActAsGrantExpiresAt s) s)
  | tr_platform : (SD_Impersonating s = false \/ ActAsTenantID s = "") ->
      SD_Role s = roleSuperAdmin -> SD_TenantID s = "" -> tenant_reloaded d s s
  | tr_tenant schema : (SD_Impersonating s = false \/ ActAsTenantID s = "") ->
      SD_TenantID s <> "" -> active_tenant d (SD_TenantID s) schema ->
      tenant_reloaded d s (set_schema schema s).

Lemma reconcileSessionTenant_ok s w s' w' :
  reconcileSessionTenant s w = (Ok s', w') ->
  tenant_reloaded (s_db (aw_sys w)) s s' /\ same_db w w' /\ aw_redis w' = aw_redis w.
Proof.
  unfold reconcileSessionTenant.
  destruct (SD_Impersonating s && negb (String.eqb (ActAsTenantID s) "")) eqn:Ei.
  - intros Hrun. apply bind_inv in Hrun as [(o & w1 & Hq & Hrun)|(e & _ & [=])].
    apply wrap_ok, read_ok in Hq as [[= <-] [Hsame Hr]]. bool_facts.
    destruct (tenant_lookup _ _) as [[t schema]|] eqn:El; [|done].
    destruct (negb _) eqn:Est in Hrun; [done|]. injection Hrun as <- <-. bool_facts. split; [|done].
    apply tr_impersonated; try done. by eapply tenant_lookup_active.
  - assert (SD_Impersonating s = false \/ ActAsTenantID s = "") as Hn.
    { apply andb_false_iff in Ei as [->|Ei]; [by left|]. bool_facts. by right. }
    destruct (String.eqb (SD_Role s) roleSuperAdmin && String.eqb (SD_TenantID s) "") eqn:Ep.
    + intros [= <- <-]. bool_facts. split; [by apply tr_platform|done].
    + destruct (String.eqb (SD_TenantID s) "") eqn:Et; [done|]. intros Hrun.
      apply bind_inv in Hrun as [(o & w1 & Hq & Hrun)|(e & _ & [=])].
      apply wrap_ok, read_ok in Hq as [[= <-] [Hsame Hr]]. bool_facts.
      destruct (tenant_lookup _ _) as [[t schema]|] eqn:El; [|done].
      destruct (negb _) eqn:Est in Hrun; [done|]. injection Hrun as <- <-. bool_facts.
      split; [|done]. apply tr_tenant; [done..|]. by eapply tenant_lookup_active.
Qed.

Lemma ActiveGrant_now a t x r x' : ActiveGrant a t x = (r, x') -> s_now x' = s_now x.
Proof.
  unfold ActiveGrant, bind at 1, now_. intros Hrun.
  apply bind_inv in Hrun as [(row & x1 & Hq & Hrun)|(e & Hq & ->)].
  2: by destruct (query_cases _ _ _ _ Hq).
  destruct (query_cases _ _ _ _ Hq) as [<- _]. destruct row as [r1|]; [|by injection Hrun as _ <-].
  destruct (negb _); [|by injection Hrun as _ <-].
  unfold ignore, bind in Hrun. cbn [fst snd] in Hrun. injection Hrun as _ <-.
  destruct (query _ x1) as [o x2] eqn:E. by destruct (query_cases _ _ _ _ E).
Qed.
Lemma preserves_sys {A} x (m : prog (redis SessionData) A) msg :
  preserves (fun w => aw_sys w = x) (wrap msg (in_redis m)).
Proof.
  apply preserves_bind; [apply preserves_attempt|intros [?|?]; auto with prog].
  intros w Hw. unfold in_redis. by destruct (m (aw_redis w)).
Qed.
Lemma updateSession_sys a sid s w r w' :
  updateSession a sid s w = (r, w') -> aw_sys w' = aw_sys w.
Proof.
  intros Hrun. change w' with (snd (r, w')). rewrite <- Hrun.
  refine (preserves_bind (fun x => aw_sys x = aw_sys w) _ _ _ _ w eq_refl);
    [apply preserves_sys|intros ttl; apply preserves_sys].
Qed.

(** the session after its grant was checked *)
Inductive grant_checked (a : string) (d : sysdb) (now : Z) (s : SessionData) : SessionData -> Prop :=
  | gc_none : (SD_Impersonating s = false \/ ActAsTenantID s = "") -> grant_checked a d now s s
  | gc_cleared : SD_Impersonating s = true -> ActAsTenantID s <> "" ->
      grant_checked a d now s (clearImpersonationFields s)
  | gc_live r g : SD_Impersonating s = true -> ActAsTenantID s <> "" ->
      live_consent a (ActAsTenantID s) now (requests d) r g ->
      grant_checked a d now s (set_act_as (SD_Impersonating s) (ActAsTenantID s) (ActAsTenantSchema s)
          (ActAsTenantName s) (ActAsTenantSlug s) (G_Scope g) (G_Modules g) (G_RequestID g)
          (grant_unix (G_ExpiresAt g)) s).

Lemma reconcileImpersonationGrant_ok a sid s w s' w' :
  consent_inv (requests (s_db (aw_sys w))) ->
  reconcileImpersonationGrant a sid s w = (Ok s', w') ->
  grant_checked a (s_db (aw_sys w)) (s_now (aw_sys w)) s s' /\ s_now (aw_sys w') = s_now (aw_sys w).
Proof.
  intros Hinv. unfold reconcileImpersonationGrant.
  destruct (negb _ || _) eqn:Ei.
  { intros [= <- <-]. split; [|done]. apply gc_none. apply orb_true_iff in Ei as [Ei|Ei]; bool_facts; [by left|by right]. }
  bool_facts. intros Hrun. apply bind_inv in Hrun as [(o & w1 & Hq & Hrun)|(e & _ & [=])].
  apply wrap_ok, in_sys_ok in Hq as [Hq _]. pose proof (ActiveGrant_now _ _ _ _ _ Hq) as Hnow.
  destruct o as [g|]; cbv zeta in Hrun;
    apply bind_inv in Hrun as [([] & w2 & Hup & [= <- <-])|(e & _ & [=])];
    apply updateSession_sys in Hup; rewrite Hup; (split; [|done]).
  - destruct (ActiveGrant_granted _ _ _ _ _ Hinv Hq) as [r Hr]. by eapply gc_live.
  - by apply gc_cleared.
Qed.
End read.

(** the kind and identity of a session never change *)
Lemma tenant_reloaded_same d s s' :
  tenant_reloaded d s s' ->
  SD_AccountID s' = SD_AccountID s /\ SD_Role s' = SD_Role s /\ SD_Email s' = SD_Email s /\
  Kind s' = Kind s /\ IssuedAt s' = IssuedAt s /\ SD_TenantID s' = SD_TenantID s /\
  SD_Impersonating s' = SD_Impersonating s /\ ActAsTenantID s' = ActAsTenantID s.
Proof. by destruct 1. Qed.
Lemma grant_checked_same a d now s s' :
  grant_checked a d now s s' ->
  SD_AccountID s' = SD_AccountID s /\ SD_Role s' = SD_Role s /\ SD_Email s' = SD_Email s /\
  Kind s' = Kind s /\ IssuedAt s' = IssuedAt s /\ SD_TenantID s' = SD_TenantID s /\
  SD_TenantSchema s' = SD_TenantSchema s.
Proof. by destruct 1. Qed.

Section authenticated.
Context `{GoJson} `{PgArray} `{JwtLib}.

(** how a token was accepted *)
Record accepted (w : auth_world) (token : string) (u : AuthUser) (c : claims)
    (s s1 s2 : SessionData) : Prop := {
  ac_verified : jwt_verify (s_now (aw_sys w)) token = None;
  ac_claims : jwt_payload token = Some c;
  ac_session : rvalue (aw_redis w) (sessionKey (c_sub c) (c_sid c)) = Some s;
  ac_tenant : tenant_reloaded (s_db (aw_sys w)) s s1;
  ac_grant : grant_checked (c_sub c) (s_db (aw_sys w)) (s_now (aw_sys w)) s1 s2;
  ac_kind : CheckTokenKind (c_typ c) (Kind s) = None;
  ac_age : CheckAdminExpiry (Kind s) (time_Unix (IssuedAt s)) (s_now (aw_sys w)) = None;
  ac_user : u = buildAuthUser s2 (c_sid c)
}.

Lemma parseJWT_ok token w ids w' :
  parseJWT token w = (Ok ids, w') ->
  jwt_verify (s_now (aw_sys w)) token = None /\
  (exists c, jwt_payload token = Some c /\ ids = (c_sub c, c_sid c)) /\ w' = w.
Proof.
  unfold parseJWT, parseJWTClaims, bind, time_now, in_sys, now_.
  cbn [aw_sys aw_redis aw_revoked fst snd].
  destruct (jwt_verify _ token) as [e|]; [by cbn [andb]|].
  destruct (jwt_payload token) as [c|]; [|done].
  destruct (_ || _); [done|]. intros [= <- <-]. split_and!; [done|by eauto|by destruct w].
Qed.

Lemma checkSessionKind_ok token s w w' :
  checkSessionKind token s w = (Ok tt, w') ->
  exists c, jwt_payload token = Some c /\ CheckTokenKind (c_typ c) (Kind s) = None /\
    CheckAdminExpiry (Kind s) (time_Unix (IssuedAt s)) (s_now (aw_sys w)) = None.
Proof.
  unfold checkSessionKind, bind, time_now, in_sys, now_. cbn [aw_sys aw_redis aw_revoked fst snd].
  destruct (jwt_payload token) as [c|]; [|done].
  destruct (CheckTokenKind _ _) eqn:Ek; [done|]. destruct (CheckAdminExpiry _ _ _) eqn:Ee; [done|].
  intros _. by exists c.
Qed.

Lemma AuthHandler_accepted token w u w' :
  consent_inv (requests (s_db (aw_sys w))) -> AuthHandler token w = (Ok u, w') ->
  exists c s s1 s2, accepted w token u c s s1 s2.
Proof.
  intros Hinv Hrun. unfold AuthHandler in Hrun.
  apply bind_inv in Hrun as [([a sid] & w1 & Hp%or_error_ok & Hrun)|(e & _ & [=])].
  destruct (parseJWT_ok _ _ _ _ Hp) as (Hv & (c & Hc & [= -> ->]) & ->).
  apply bind_inv in Hrun as [(o & w2 & Hg%or_error_ok & Hrun)|(e & _ & [=])].
  apply getSession_ok in Hg as [Hs Hsys]. destruct o as [s|]; [|done].
  apply bind_inv in Hrun as [(s1 & w3 & Ht%or_error_ok & Hrun)|(e & _ & [=])].
  apply reconcileSessionTenant_ok in Ht as (Ht & [Hdb Hnow] & _). rewrite Hsys in *.
  apply bind_inv in Hrun as [(s2 & w4 & Hr%or_error_ok & Hrun)|(e & _ & [=])].
  apply reconcileImpersonationGrant_ok in Hr as [Hr Hnow']; [|by rewrite Hdb].
  rewrite Hdb, Hnow in Hr. rewrite Hnow in Hnow'.
  apply bind_inv in Hrun as [([] & w5 & Hk%or_error_ok & Hrun)|(e & _ & [=])].
  apply checkSessionKind_ok in Hk as (c' & Hc' & Hk & Ha). rewrite Hc in Hc'. injection Hc' as <-.
  injection Hrun as <- _. exists c, s, s1, s2.
  apply tenant_reloaded_same in Ht as Hts. apply grant_checked_same in Hr as Hgs.
  destruct Hts as (_ & _ & _ & Hk1 & Hi1 & _). destruct Hgs as (_ & _ & _ & Hk2 & Hi2 & _).
  rewrite Hk2, Hk1 in Hk, Ha. rewrite Hi2, Hi1, Hnow' in Ha. by split.
Qed.

End authenticated.

(** *** What the authenticated user shows *)
Lemma buildAuthUser_identity s sid :
  AccountID (buildAuthUser s sid) = SD_AccountID s /\ SessionID (buildAuthUser s sid) = sid /\
  Role (buildAuthUser s sid) = SD_Role s /\ SessionKind (buildAuthUser s sid) = NormalizeKind (Kind s).
Proof. unfold buildAuthUser. repeat case_goal; done. Qed.

Lemma buildAuthUser_platform s sid :
  IsPlatformSession (buildAuthUser s sid) = true ->
  SD_Role s = roleSuperAdmin /\ NormalizeKind (Kind s) = KindAdmin /\
  TenantSchema (buildAuthUser s sid) = "" /\ Impersonating (buildAuthUser s sid) = false.
Proof. unfold buildAuthUser. repeat case_goal; try done. bool_facts. done. Qed.

(** the modules an answered grant carries fit its scope *)
Lemma live_modules a t now rs r g :
  live_consent a t now rs r g ->
  (if String.eqb (G_Scope g) ScopeLimited then G_Modules g else []) = G_Modules g.
Proof.
  intros (scope & _ & _ & _ & _ & _ & -> & Hg). cbn [G_Scope G_Modules].
  destruct (String.eqb_spec scope ScopeLimited) as [->|Hne]; [done|].
  by destruct Hg as [[_ ->]|[-> _]].
Qed.

Section users.
Context `{GoJson} `{PgArray} `{JwtLib}.

Lemma accepted_user w token u c s s1 s2 :
  store_inv w -> accepted w token u c s s1 s2 ->
  session_ok s /\ AccountID u = c_sub c /\ SessionID u = c_sid c /\ Role u = SD_Role s /\
  SessionKind u = NormalizeKind (Kind s).
Proof.
  intros [_ Hdata] []. destruct (rvalue_session _ _ _ _ Hdata ac_session0) as (Hok & Ha & _).
  destruct (tenant_reloaded_same _ _ _ ac_tenant0) as (A1 & R1 & _ & K1 & _).
  destruct (grant_checked_same _ _ _ _ _ ac_grant0) as (A2 & R2 & _ & K2 & _).
  subst u. destruct (buildAuthUser_identity s2 (c_sid c)) as (-> & -> & -> & ->).
  by rewrite A2, A1, Ha, R2, R1, K2, K1.
Qed.

(** an impersonating user comes from a live consent and an active tenant *)
Lemma accepted_impersonating w token u c s s1 s2 :
  store_inv w -> accepted w token u c s s1 s2 -> Impersonating u = true ->
  SD_Impersonating s = true /\ TenantID u = ActAsTenantID s /\
  active_tenant (s_db (aw_sys w)) (TenantID u) (TenantSchema u) /\
  exists r g, live_consent (c_sub c) (TenantID u) (s_now (aw_sys w)) (requests (s_db (aw_sys w))) r g /\
    ImpersonationScope u = G_Scope g /\ ImpersonationModules u = G_Modules g.
Proof.
  intros Hinv Hacc Hi. destruct (accepted_user _ _ _ _ _ _ _ Hinv Hacc) as (Hok & _).
  destruct Hacc. subst u. unfold buildAuthUser in *.
  destruct (SD_Impersonating s2 && negb _) eqn:E2; [|by destruct (_ && _ && _)]. bool_facts.
  destruct (tenant_reloaded_same _ _ _ ac_tenant0) as (_ & _ & _ & _ & _ & _ & I1 & T1).
  destruct ac_grant0 as [Hn|Hi1 Ht1|r g Hi1 Ht1 Hl].
  - exfalso. assert (SD_Impersonating s = true) as Hs by congruence.
    destruct (so_impersonating _ Hok Hs) as (_ & Hne & _). destruct Hn; congruence.
  - done.
  - destruct ac_tenant0 as [schema Hs Hne Hact|Hn|schema Hn]; cbn in *.
    + split_and!; try done. exists r, g. split_and!; try done. by eapply live_modules.
    + destruct Hn; congruence.
    + destruct Hn; congruence.
Qed.

(** the tenant of any authenticated user is active, under its current schema *)
Lemma accepted_tenant w token u c s s1 s2 :
  store_inv w -> accepted w token u c s s1 s2 -> TenantSchema u <> "" ->
  active_tenant (s_db (aw_sys w)) (TenantID u) (TenantSchema u).
Proof.
  intros Hinv Hacc Hne. destruct (Impersonating u) eqn:Hi.
  { by destruct (accepted_impersonating _ _ _ _ _ _ _ Hinv Hacc Hi) as (_ & _ & ? & _). }
  destruct (accepted_user _ _ _ _ _ _ _ Hinv Hacc) as (Hok & _). destruct Hacc.
  assert (TenantID u = SD_TenantID s2 /\ TenantSchema u = SD_TenantSchema s2) as [HT HS].
  { subst u. unfold buildAuthUser in *. by repeat case_goal. }
  destruct (grant_checked_same _ _ _ _ _ ac_grant0) as (_ & _ & _ & _ & _ & T2 & S2).
  rewrite HT, HS, T2, S2 in *. destruct ac_tenant0 as [schema Hs _ _|_ _ Ht|schema _ _ Hact]; cbn in *.
  - destruct (so_impersonating _ Hok Hs) as (Ht & _). by destruct Hne; apply (so_tenantless _ Hok).
  - by destruct Hne; apply (so_tenantless _ Hok).
  - done.
Qed.

(** without a live consent an impersonation session has no tenant *)
Lemma accepted_no_consent w token u c s s1 s2 :
  store_inv w -> accepted w token u c s s1 s2 -> SD_Impersonating s = true ->
  (forall r g, ~ live_consent (c_sub c) (ActAsTenantID s) (s_now (aw_sys w))
     (requests (s_db (aw_sys w))) r g) ->
  TenantID u = "" /\ TenantSchema u = "" /\ Impersonating u = false /\ IsPlatformSession u = false.
Proof.
  intros Hinv Hacc Hs Hno. destruct (accepted_user _ _ _ _ _ _ _ Hinv Hacc) as (Hok & _).
  destruct (so_impersonating _ Hok Hs) as (Ht & Hne & Hkind). pose proof (so_tenantless _ Hok Ht) as Hsch.
  destruct Hacc. destruct (tenant_reloaded_same _ _ _ ac_tenant0) as (_ & _ & _ & K1 & _ & _ & I1 & T1).
  destruct ac_tenant0 as [schema _ _ _|[?|?]|schema [?|?]]; try congruence.
  destruct ac_grant0 as [[?|?]|_ _|r g _ _ Hl]; cbn in *; try congruence.
  - subst u. unfold buildAuthUser. cbn. rewrite Hkind, Ht, Hsch.
    change (String.eqb (NormalizeKind KindImpersonation) KindAdmin) with false.
    by rewrite andb_false_r.
  - by destruct (Hno r g).
Qed.
End users.

(** *** Runs without failures *)
Record quiet (w : auth_world) : Prop := {
  q_redis : healthy (aw_redis w); q_sys : s_faults (aw_sys w) = [];
  q_clock : r_now (aw_redis w) = s_now (aw_sys w)
}.
(** [d] later *)
Definition after (d : Z) (w : auth_world) : auth_world :=
  {| aw_redis := at_time (r_now (aw_redis w) + d) (aw_redis w);
     aw_sys := {| s_db := s_db (aw_sys w); s_now := s_now (aw_sys w) + d; s_ids := s_ids (aw_sys w);
                  s_faults := s_faults (aw_sys w) |};
     aw_revoked := aw_revoked w |}.

(** the session store as [r] leaves it, and the tenants and clock of [x] *)
Definition settled (r : redis SessionData) (x : sysw) (w : auth_world) : Prop :=
  aw_redis w = r /\ s_now (aw_sys w) = s_now x /\ s_faults (aw_sys w) = [] /\
  tenants (s_db (aw_sys w)) = tenants (s_db x).

Lemma settled_in_sys {A} r x (m : prog sysw A) :
  (forall y, s_faults y = [] -> s_faults (snd (m y)) = [] /\ s_now (snd (m y)) = s_now y /\
     tenants (s_db (snd (m y))) = tenants (s_db y)) ->
  preserves (settled r x) (in_sys m).
Proof.
  intros Hm w (Hr & Hn & Hf & Ht). specialize (Hm _ Hf) as (H1 & H2 & H3). unfold in_sys.
  destruct (m (aw_sys w)) as [a y]; cbn in *. split_and!; cbn; congruence.
Qed.
Lemma settled_query {A} r x (f : sysdb -> result A * sysdb) :
  (forall d, tenants (snd (f d)) = tenants d) -> preserves (settled r x) (in_sys (query f)).
Proof.
  intros Hf. apply settled_in_sys. intros y Hy. unfold query. rewrite Hy. cbn.
  specialize (Hf (s_db y)). by destruct (f (s_db y)).
Qed.
Lemma settled_effect r x e : preserves (settled r x) (in_sys (record_effect e)).
Proof.
  apply settled_in_sys. intros y Hy. unfold record_effect, ignore, query. by rewrite Hy.
Qed.
Lemma settled_now r x : preserves (settled r x) time_now.
Proof. by apply settled_in_sys. Qed.
Lemma settled_profile r x u : preserves (settled r x) (profileResponse u).
Proof.
  unfold profileResponse. cbv zeta. repeat (apply preserves_if; [apply preserves_ret|]).
  repeat apply preserves_if; try apply preserves_ret.
  apply preserves_bind; [|intros; apply preserves_ret]. apply preserves_if; [|apply preserves_ret].
  apply preserves_bind; [|intros; apply preserves_ret]. apply preserves_attempt, settled_query. done.
Qed.

Definition token_of (resp : login_response) : option string :=
  match resp with
  | LoginError _ _ => None
  | AdminLogin _ tok _ | ClientLogin _ tok _ _ _ => Some tok
  end.

(** *** Signing and verifying agree *)
Class JwtLaws (J : JwtLib) : Prop := {
  sign_verifies c iat exp t : jwt_sign c iat exp = Ok t ->
    jwt_payload t = Some c /\ forall now, now < time_Unix exp -> jwt_verify now t = None
}.

Section forward.
Context `{GoJson} `{PgArray} `{J : JwtLib} `{!JwtLaws J}.

Lemma in_redis_quiet {A} (f : redis SessionData -> A * redis SessionData) w :
  healthy (aw_redis w) ->
  in_redis (run f) w = (Ok (fst (f (aw_redis w))),
    {| aw_redis := snd (f (aw_redis w)); aw_sys := aw_sys w; aw_revoked := aw_revoked w |}).
Proof. intros Hh. unfold in_redis. by rewrite run_healthy. Qed.

(** the session a login stores *)
Definition login_session (a email name role t schema kind : string) (now : Z) : SessionData :=
  {| SD_AccountID := a; SD_TenantID := t; SD_TenantSchema := schema; SD_Role := role;
     SD_Email := email; SD_Name := name; SD_Impersonating := false; ActAsTenantID := "";
     ActAsTenantSchema := ""; ActAsTenantName := ""; ActAsTenantSlug := ""; ActAsScope := "";
     ActAsModules := []; ActAsGrantID := ""; ActAsGrantExpiresAt := 0;
     Kind := if String.eqb kind KindAdmin then KindAdmin else ""; IssuedAt := to_Unix now;
     ImpersonationSessionID := "" |}.

Lemma SessionTTL_positive kind : 0 < SessionTTL kind.
Proof. unfold SessionTTL. by destruct (NormalizeKind_cases kind) as [->|[->| ->]]. Qed.

Lemma createSession_quiet data w :
  quiet w -> 0 < SessionTTL (Kind data) ->
  let sid := default "" (head (s_ids (aw_sys w))) in
  exists w', createSession data w = (Ok {| S_SessionID := sid; S_Data := data |}, w') /\
    settled (set_data (aw_redis w) (<[ sessionKey (SD_AccountID data) sid :=
      (data, Some (s_now (aw_sys w) + SessionTTL (Kind data))) ]> (r_data (aw_redis w)))) (aw_sys w) w'.
Proof.
  intros [Hh Hf Hc] Hpos sid. unfold createSession, bind at 1, in_sys at 1, fresh_id at 1.
  cbv zeta beta iota. fold sid. unfold bind at 1, wrap at 1, bind at 1, attempt at 1, cmd_set at 1.
  rewrite in_redis_quiet by done. cbn [fst snd aw_redis aw_sys aw_revoked].
  rewrite (proj2 (Z.ltb_lt _ _) Hpos), Hc. eexists. split; [reflexivity|by split_and!].
Qed.

Lemma login_run a email name role t schema status kind w resp w1 tok :
  quiet w -> completeLoginKind a email name role t schema status kind w = (Ok resp, w1) ->
  token_of resp = Some tok ->
  let now := s_now (aw_sys w) in
  let data := login_session a email name role t schema kind now in
  let sid := default "" (head (s_ids (aw_sys w))) in
  jwt_sign {| c_sub := a; c_sid := sid; c_typ := NormalizeKind kind |}
    (to_Unix now) (to_Unix (now + TokenTTL kind)) = Ok tok /\
  settled (set_data (aw_redis w) (<[ sessionKey a sid := (data, Some (now + SessionTTL (Kind data))) ]>
             (r_data (aw_redis w)))) (aw_sys w) w1.
Proof.
  intros Hq Hrun Htok now data sid. unfold completeLoginKind in Hrun.
  unfold bind at 1, time_now at 1, in_sys at 1, now_ at 1 in Hrun. cbv zeta beta iota in Hrun.
  fold now in Hrun. change (Build_SessionData _ _ _ _ _ _ _ _ _ _ _ _ _ _ _ _ _ _) with data in Hrun.
  replace {| aw_redis := aw_redis w; aw_sys := aw_sys w; aw_revoked := aw_revoked w |}
    with w in Hrun by (by destruct w).
  destruct (createSession_quiet data w Hq (SessionTTL_positive _)) as (w2 & Hcr & Hset).
  fold now sid in Hcr, Hset. unfold bind at 1, attempt at 1 in Hrun. rewrite Hcr in Hrun.
  cbn [S_SessionID S_Data] in Hrun.
  unfold bind at 1, attempt, signJWTKind, bind at 1, time_now, in_sys, now_ in Hrun.
  cbv zeta beta iota in Hrun. destruct Hset as (Hr & Hn & Hf & Ht). rewrite Hn in Hrun. fold now in Hrun.
  destruct (jwt_sign _ _ _) as [tok'|e] eqn:Es; cbn [ret throw] in Hrun; [|by injection Hrun as <- _].
  unfold ret at 1 in Hrun. set (R := set_data _ _) in *.
  match type of Hrun with ?m ?w3 = _ =>
    assert (preserves (settled R (aw_sys w)) m) as Hp; [|specialize (Hp w3); rewrite Hrun in Hp] end.
  { apply preserves_bind; [apply settled_effect|intros _]. apply preserves_if.
    - apply preserves_bind; [apply settled_now|intros; apply preserves_ret].
    - apply preserves_bind; [apply settled_profile|intros; apply preserves_ret]. }
  split; [|apply Hp; by split_and!]. f_equal. clear Hp.
  apply bind_inv in Hrun as [([] & w4 & _ & Hrun)|(e & _ & [=])].
  by destruct (String.eqb kind KindAdmin);
    apply bind_inv in Hrun as [(n & w5 & _ & [= <- _])|(e & _ & [=])]; injection Htok.
Qed.

(** a session in the store, as the tokens of its login see it *)
Lemma AuthHandler_quiet token w c s s1 :
  quiet w -> jwt_verify (s_now (aw_sys w)) token = None -> jwt_payload token = Some c ->
  c_sub c <> "" -> c_sid c <> "" ->
  rvalue (aw_redis w) (sessionKey (c_sub c) (c_sid c)) = Some s ->
  SD_Impersonating s = false ->
  (SD_TenantID s = "" /\ SD_Role s = roleSuperAdmin /\ s1 = s \/
   exists schema, SD_TenantID s <> "" /\ active_tenant (s_db (aw_sys w)) (SD_TenantID s) schema /\
     s1 = set_schema schema s) ->
  CheckTokenKind (c_typ c) (Kind s) = None ->
  CheckAdminExpiry (Kind s) (time_Unix (IssuedAt s)) (s_now (aw_sys w)) = None ->
  exists w', AuthHandler token w = (Ok (buildAuthUser s1 (c_sid c)), w') /\
    settled (aw_redis w) (aw_sys w) w'.
Proof.
  intros [Hh Hf Hc] Hv Hp Hsub Hsid Hs Hi Ht Hk He. unfold AuthHandler.
  assert (parseJWT token w = (Ok (c_sub c, c_sid c), w)) as Hparse.
  { unfold parseJWT, parseJWTClaims, bind, time_now, in_sys, now_. cbn [aw_sys aw_redis aw_revoked].
    rewrite Hv, Hp, (proj2 (String.eqb_neq _ _) Hsub), (proj2 (String.eqb_neq _ _) Hsid). by destruct w. }
  unfold bind at 1, or_error at 1, attempt at 1, bind at 1. rewrite Hparse. cbn [ret].
  assert (getSession (c_sub c) (c_sid c) w = (Ok (Some s), w)) as Hget.
  { unfold getSession, wrap, bind, attempt, cmd_get. rewrite in_redis_quiet by done. cbn [fst snd].
    rewrite Hs. by destruct w. }
  unfold ret at 1, bind at 1, or_error at 1, attempt at 1, bind at 1. rewrite Hget. unfold ret at 1.
  assert (exists w1, reconcileSessionTenant s w = (Ok s1, w1) /\ settled (aw_redis w) (aw_sys w) w1)
    as (w1 & Hrec & Hset).
  { unfold reconcileSessionTenant. rewrite Hi. cbn [andb].
    destruct Ht as [(Ht & Hrole & ->)|(schema & Ht & (t & Hl & Hd & Ha & Hsc) & ->)].
    - rewrite Hrole, Ht. cbn [andb]. rewrite !String.eqb_refl. cbn [andb]. exists w. by split.
    - rewrite (proj2 (String.eqb_neq _ _) Ht), andb_false_r.
      unfold wrap, attempt, bind, in_sys, query. rewrite Hf. cbn [head tail default].
      unfold tenant_lookup. rewrite Hl, Hd, Hsc. cbn [fmap option_fmap option_map]. unfold ret. cbn [set_db].
      rewrite Ha, String.eqb_refl. cbn [negb]. eexists. split; [reflexivity|]. by split_and!. }
  unfold bind at 1, or_error at 1, attempt at 1, bind at 1. rewrite Hrec. unfold ret at 1.
  assert (SD_Impersonating s1 = false /\ Kind s1 = Kind s /\ IssuedAt s1 = IssuedAt s) as (Hi1 & Hk1 & He1).
  { by destruct Ht as [(_ & _ & ->)|(schema & _ & _ & ->)]. }
  assert (reconcileImpersonationGrant (c_sub c) (c_sid c) s1 w1 = (Ok s1, w1)) as Hgr.
  { unfold reconcileImpersonationGrant. by rewrite Hi1. }
  unfold bind at 1, or_error at 1, attempt at 1, bind at 1. rewrite Hgr. unfold ret at 1.
  destruct Hset as (Hr & Hn & Hf1 & Htn).
  assert (checkSessionKind token s1 w1 = (Ok tt, w1)) as Hck.
  { unfold checkSessionKind, bind, time_now, in_sys, now_. cbn [aw_sys aw_redis aw_revoked].
    rewrite Hp, Hk1, Hk, He1, Hn, He. by destruct w1. }
  unfold bind at 1, or_error at 1, attempt at 1, bind at 1. rewrite Hck. unfold ret.
  eexists. split; [reflexivity|]. by split_and!.
Qed.

Lemma AuthHandler_no_session token w c :
  quiet w -> jwt_verify (s_now (aw_sys w)) token = None -> jwt_payload token = Some c ->
  c_sub c <> "" -> c_sid c <> "" ->
  rvalue (aw_redis w) (sessionKey (c_sub c) (c_sid c)) = None ->
  fst (AuthHandler token w) = Err (Unauthenticated_ "session expired").
Proof.
  intros [Hh Hf Hc] Hv Hp Hsub Hsid Hs. unfold AuthHandler.
  unfold bind at 1, or_error at 1, parseJWT, parseJWTClaims, attempt, bind at 1, bind at 1, time_now, in_sys, now_.
  cbn [aw_sys aw_redis aw_revoked].
  rewrite Hv, Hp, (proj2 (String.eqb_neq _ _) Hsub), (proj2 (String.eqb_neq _ _) Hsid). cbn [orb].
  unfold ret at 1 2, bind at 1, or_error at 1, getSession, wrap, attempt, bind, cmd_get.
  rewrite in_redis_quiet by done. cbn [fst snd aw_redis]. by rewrite Hs.
Qed.
End forward.

(** A session that was destroyed comes back when a request that had read it
    finishes its update: for seven days, whatever lifetime it had. *)
Lemma update_after_destroy_resurrects a sid data w :
  quiet w ->
  let w1 := snd (destroySession a sid w) in
  let w2 := snd (updateSession a sid data w1) in
  rvalue (aw_redis w1) (sessionKey a sid) = None /\
  rlookup (aw_redis w2) (sessionKey a sid) = Some (data, Some (r_now (aw_redis w) + defaultSessionTTL)).
Proof.
  intros [Hh _ _]. unfold destroySession, cmd_del. rewrite in_redis_quiet by done. cbn [fst snd].
  split; [unfold rvalue; cbn [aw_redis]; by rewrite rlookup_delete|].
  unfold updateSession, wrap, bind, attempt, cmd_ttl, cmd_set.
  rewrite in_redis_quiet by done. cbn [fst snd aw_redis aw_sys aw_revoked].
  rewrite rlookup_delete. unfold ret. change (-2 <=? 0) with true.
  rewrite in_redis_quiet by done. cbn [fst snd aw_redis].
  change (0 <? defaultSessionTTL) with true. cbv iota. rewrite rlookup_insert; [done|].
  cbn. apply Z.leb_gt. assert (0 < defaultSessionTTL) by done. lia.
Qed.

(** the session of a login at a later time, while its token lasts *)
Lemma login_session_fresh kind now d :
  kind = KindAdmin \/ kind = KindClient -> Second <= now -> 0 <= d ->
  now + d < time_Unix (to_Unix (now + TokenTTL kind)) ->
  let k := if String.eqb kind KindAdmin then KindAdmin else "" in
  now + d < now + SessionTTL k /\ CheckTokenKind (NormalizeKind kind) k = None /\
  NormalizeKind k = kind /\
  CheckAdminExpiry k (time_Unix (to_Unix now)) (now + d) = None.
Proof.
  intros Hk Hnow Hd Hexp k. unfold time_Unix, to_Unix in Hexp.
  pose proof (Z.mul_div_le (now + TokenTTL kind) Second ltac:(done)) as Hle.
  assert (d < TokenTTL kind) as Hd' by lia. clear Hexp Hle.
  assert (TokenTTL kind = 60 * Minute) as HT by (by destruct Hk as [-> | ->]).
  assert (Second = 1000000000) as HS by done. assert (Minute = 60000000000) as HM by done.
  split_and!.
  - assert (2 * Hour <= SessionTTL k) by (by destruct Hk as [-> | ->]).
    assert (Hour = 3600000000000) by done. lia.
  - by destruct Hk as [-> | ->].
  - by destruct Hk as [-> | ->].
  - pose proof (Z.mod_pos_bound now Second ltac:(done)). pose proof (Z.div_mod now Second ltac:(done)).
    assert (1 <= now / Second) by (apply Z.div_le_lower_bound; lia).
    apply CheckAdminExpiry_fresh; unfold time_Unix, to_Unix; [nia|].
    assert (2 * Hour <= SessionTTL k) by (by destruct Hk as [-> | ->]).
    assert (Hour = 3600000000000) by done. nia.
Qed.

Lemma logout_run u w :
  quiet w -> exists w', logoutSession (Some u) w = (Ok tt, w') /\ quiet w' /\ aw_sys w' = aw_sys w /\
    rvalue (aw_redis w') (sessionKey (AccountID u) (SessionID u)) = None.
Proof.
  intros [Hh Hf Hc]. unfold logoutSession. change (RawHandlerAccess "auth.Logout" (SessionKind u)) with (@None error).
  unfold destroySession, cmd_del. rewrite in_redis_quiet by done. cbn [fst snd].
  eexists. split; [reflexivity|]. split; [|split; [done|]]; [|unfold rvalue; cbn [aw_redis]; by rewrite rlookup_delete].
  by split.
Qed.

(** ** Properties *)
Section properties.
Context `{GoJson} `{PgArray} `{JwtLib}.

(** C12. Impersonation is always backed by a live consent: when a token
    authenticates an impersonating user, whatever the stored session says, the
    account's newest approved request for that tenant is unexpired at that
    moment, the user's scope and modules are exactly the granted ones, and the
    tenant is active under its current schema. *)
Theorem impersonation_needs_live_consent token w u w' :
  store_inv w -> consent_inv (requests (s_db (aw_sys w))) ->
  AuthHandler token w = (Ok u, w') -> Impersonating u = true ->
  SessionKind u = KindImpersonation /\
  active_tenant (s_db (aw_sys w)) (TenantID u) (TenantSchema u) /\
  exists r g, live_consent (AccountID u) (TenantID u) (s_now (aw_sys w)) (requests (s_db (aw_sys w))) r g /\
    ImpersonationScope u = G_Scope g /\ ImpersonationModules u = G_Modules g.
Proof.
  intros Hinv Hc Hrun Hi. destruct (AuthHandler_accepted _ _ _ _ Hc Hrun) as (c & s & s1 & s2 & Hacc).
  destruct (accepted_user _ _ _ _ _ _ _ Hinv Hacc) as (Hok & -> & _ & _ & ->).
  destruct (accepted_impersonating _ _ _ _ _ _ _ Hinv Hacc Hi) as (Hs & _ & Ht & Hl).
  destruct (so_impersonating _ Hok Hs) as (_ & _ & ->). done.
Qed.

(** C13. An authenticated user is the account of a live session: the token
    verifies now; the session stored under its sub and sid claims belongs to
    that account, has its role and the kind the token is typed with; an admin
    or impersonation session is no older than its kind's lifetime; a tenant
    schema is the current one of an active tenant; and a platform user is a
    super admin on an admin session without tenant. *)
Theorem authenticated_session_sound token w u w' :
  store_inv w -> consent_inv (requests (s_db (aw_sys w))) -> AuthHandler token w = (Ok u, w') ->
  jwt_verify (s_now (aw_sys w)) token = None /\
  (exists c s, jwt_payload token = Some c /\
     rvalue (aw_redis w) (sessionKey (AccountID u) (SessionID u)) = Some s /\
     AccountID u = c_sub c /\ SessionID u = c_sid c /\ SD_AccountID s = AccountID u /\
     Role u = SD_Role s /\ SessionKind u = NormalizeKind (Kind s) /\
     SessionKind u = NormalizeKind (c_typ c) /\
     (SessionKind u <> KindClient ->
        s_now (aw_sys w) - time_Unix (IssuedAt s) <= SessionTTL (SessionKind u))) /\
  (TenantSchema u <> "" -> active_tenant (s_db (aw_sys w)) (TenantID u) (TenantSchema u)) /\
  (IsPlatformSession u = true ->
     Role u = RoleSuperAdmin /\ SessionKind u = KindAdmin /\ TenantSchema u = "" /\ Impersonating u = false).
Proof.
  intros Hinv Hc Hrun. destruct (AuthHandler_accepted _ _ _ _ Hc Hrun) as (c & s & s1 & s2 & Hacc).
  destruct (accepted_user _ _ _ _ _ _ _ Hinv Hacc) as (Hok & Ha & Hsid & Hrole & Hkind).
  split; [by destruct Hacc|]. split; [exists c, s|split; [by eapply accepted_tenant|]].
  - destruct Hacc. apply CheckTokenKind_None in ac_kind0 as [Hk _]. rewrite Ha, Hsid, Hkind.
    split_and!; try done.
    + by apply (rvalue_session (aw_redis w) _ (c_sid c)); [apply Hinv|].
    + intros Hne. destruct (CheckAdminExpiry_age _ _ _ ac_age0 Hne) as [_ Hage].
      unfold SessionTTL in *. by rewrite NormalizeKind_idemp.
  - intros Hp. rewrite Hrole, Hkind. destruct Hacc as [_ _ _ Ht Hg _ _ ->].
    destruct (buildAuthUser_platform _ _ Hp) as (Hr & Hk & HS & HI).
    destruct (tenant_reloaded_same _ _ _ Ht) as (_ & R1 & _ & K1 & _).
    destruct (grant_checked_same _ _ _ _ _ Hg) as (_ & R2 & _ & K2 & _).
    by rewrite R2, R1 in Hr; rewrite K2, K1 in Hk.
Qed.

(** Revoking ends impersonation at the next request: when no live consent
    is left, a request on an impersonation session has no tenant at all (and
    is no platform session), whatever tenant the stored session names. *)
Theorem revoked_consent_ends_impersonation token w u w' c s :
  store_inv w -> consent_inv (requests (s_db (aw_sys w))) ->
  jwt_payload token = Some c -> rvalue (aw_redis w) (sessionKey (c_sub c) (c_sid c)) = Some s ->
  SD_Impersonating s = true ->
  (forall r g, ~ live_consent (c_sub c) (ActAsTenantID s) (s_now (aw_sys w))
     (requests (s_db (aw_sys w))) r g) ->
  AuthHandler token w = (Ok u, w') ->
  HasEffectiveTenantContext (Some u) = false /\ TenantID u = "" /\ Impersonating u = false /\
  IsPlatformSession u = false.
Proof.
  intros Hinv Hc Hp Hs Hi Hno Hrun.
  destruct (AuthHandler_accepted _ _ _ _ Hc Hrun) as (c' & s' & s1 & s2 & Hacc).
  destruct (Hacc) as [_ Hp' Hs' _ _ _ _ _]. rewrite Hp in Hp'. injection Hp' as <-.
  rewrite Hs in Hs'. injection Hs' as <-.
  destruct (accepted_no_consent _ _ _ _ _ _ _ Hinv Hacc Hi Hno) as (? & HS & ? & ?).
  unfold HasEffectiveTenantContext. by rewrite HS.
Qed.

(** C14. The session store stays well formed under every operation of the
    package and any failures of Redis and the database: each session lies
    under its own account's key, an impersonating session is tenantless of its
    own, of the impersonation kind and names a target tenant. *)
Theorem session_store_invariant o w : op_ok o -> store_inv w -> store_inv (snd (run_op o w)).
Proof. intros Ho Hw. by apply (run_op_triple o Ho). Qed.

(** C15. Login, use, logout: a login through either portal that answers a token
    makes that token authenticate, at any time before it expires, as the
    account that logged in, with its role, tenant (under the tenant's current
    schema) and session kind; after that user logs out the same token is
    rejected. *)
Theorem login_logout_roundtrip `{!JwtLaws _} a email name role t schema status kind w resp w1 tok d :
  quiet w -> completeLoginKind a email name role t schema status kind w = (Ok resp, w1) ->
  token_of resp = Some tok -> kind = KindAdmin \/ kind = KindClient ->
  a <> "" -> default "" (head (s_ids (aw_sys w))) <> "" -> Second <= s_now (aw_sys w) ->
  0 <= d -> s_now (aw_sys w) + d < time_Unix (to_Unix (s_now (aw_sys w) + TokenTTL kind)) ->
  (t = "" /\ role = roleSuperAdmin \/ exists current, t <> "" /\ active_tenant (s_db (aw_sys w)) t current) ->
  exists u w2, AuthHandler tok (after d w1) = (Ok u, w2) /\
    AccountID u = a /\ Role u = role /\ TenantID u = t /\ SessionKind u = kind /\
    (forall current, t <> "" -> active_tenant (s_db (aw_sys w)) t current -> TenantSchema u = current) /\
    exists w3, logoutSession (Some u) w2 = (Ok tt, w3) /\
      fst (AuthHandler tok w3) = Err (Unauthenticated_ "session expired").
Proof.
  intros Hq Hrun Htok Hk Ha Hsid Hnow Hd Hexp Ht.
  destruct (login_run _ _ _ _ _ _ _ _ _ _ _ _ Hq Hrun Htok) as [Hsig (Hr & Hn & Hf & Htn)].
  destruct (sign_verifies _ _ _ _ Hsig) as [Hp Hv]. cbv zeta in *.
  set (sid := default "" _) in *. set (now := s_now (aw_sys w)) in *.
  set (data := login_session a email name role t schema kind now) in *.
  destruct (login_session_fresh kind now d Hk Hnow Hd Hexp) as (Hlive & Htyp & Hnk & Hage).
  assert (quiet (after d w1)) as Hqa.
  { destruct Hq as [[? ?] ? Hclock]. unfold after. rewrite Hr. split; cbn; [by split|done|].
    by rewrite Hclock, Hn. }
  assert (rvalue (aw_redis (after d w1)) (sessionKey a sid) = Some data) as Hs.
  { unfold after, rvalue, rlookup. rewrite Hr. cbn [aw_redis at_time r_data set_data r_now].
    rewrite lookup_insert_eq. unfold expired. rewrite (q_clock _ Hq).
    fold now. by assert ((now + SessionTTL (Kind data) <=? now + d) = false) as -> by (by apply Z.leb_gt). }
  assert (exists s1, (t = "" /\ role = roleSuperAdmin /\ s1 = data \/
    exists schema', t <> "" /\ active_tenant (s_db (aw_sys (after d w1))) t schema' /\ s1 = set_schema schema' data))
    as [s1 Hs1].
  { destruct Ht as [[-> ->]|(cur & Hne & Hact)]; [by exists data; left|].
    exists (set_schema cur data). right. exists cur. split_and!; [done| |done].
    unfold active_tenant, after in *. cbn [aw_sys s_db] in *. by rewrite Htn. }
  destruct (AuthHandler_quiet tok (after d w1) {| c_sub := a; c_sid := sid; c_typ := NormalizeKind kind |}
    data s1 Hqa) as (w2 & Hauth & Hset).
  { cbn. rewrite Hn. by apply Hv. } { done. } { done. } { done. } { done. } { done. } { by apply Hs1. }
  { done. } { cbn [aw_sys after s_now]. by rewrite Hn. }
  cbn [c_sid] in Hauth. set (u := buildAuthUser s1 sid) in *.
  destruct (buildAuthUser_identity s1 sid) as (HA & HI & HR & HK). fold u in HA, HI, HR, HK.
  exists u, w2. split; [done|].
  assert (AccountID u = a /\ Role u = role /\ SessionKind u = kind) as (HA' & HR' & HK').
  { rewrite HA, HR, HK. by destruct Hs1 as [(_ & _ & ->)|(? & _ & _ & ->)]. }
  split_and!; try done.
  { by destruct Hs1 as [(-> & -> & ->)|(? & Hne & _ & ->)]; subst u; unfold buildAuthUser; cbn;
      repeat case_goal; bool_facts. }
  { intros cur Hne (t2 & Hl2 & _ & _ & Hsc2). destruct Hs1 as [(? & _ & _)|(sch & _ & (t1 & Hl1 & _ & _ & Hsc1) & ->)]; [done|].
    cbn [after aw_sys s_db] in Hl1. rewrite Htn, Hl2 in Hl1. injection Hl1 as ->.
    rewrite Hsc2 in Hsc1. injection Hsc1 as ->. by subst u; unfold buildAuthUser; cbn; repeat case_goal; bool_facts. }
  destruct (logout_run u w2) as (w3 & Hlo & Hq3 & Hsys3 & Hno).
  { destruct Hset as (Hr2 & Hn2 & Hf2 & _). destruct Hqa as [? ? Hc2]. split; congruence. }
  exists w3. split; [done|].
  apply (AuthHandler_no_session tok w3 {| c_sub := a; c_sid := sid; c_typ := NormalizeKind kind |}); cbn [c_sub c_sid]; try done.
  - destruct Hset as (_ & Hn2 & _). rewrite Hsys3, Hn2. cbn. rewrite Hn. by apply Hv.
  - by rewrite <- HA', <- HI.
Qed.
End properties.

(** ** A concrete token library and scenario for the witnesses *)
Definition toy_payload (t : string) : option claims :=
  match Split t ":" with [a; b; c] => Some {| c_sub := a; c_sid := b; c_typ := c |} | _ => None end.
Definition toy_jwt : JwtLib := {|
  jwt_payload := toy_payload;
  jwt_verify := fun _ t => if toy_payload t then None else Some (EText "token is malformed");
  jwt_sign := fun c _ _ =>
    if has_char ":" (c_sub c) || has_char ":" (c_sid c) || has_char ":" (c_typ c)
    then Err (EText "bad claim") else Ok (Join [c_sub c; c_sid c; c_typ c] ":")
|}.
Lemma toy_laws : JwtLaws toy_jwt.
Proof.
  split. intros [a b c] iat exp t. cbn [jwt_sign toy_jwt c_sub c_sid c_typ].
  destruct (_ || _) eqn:E; [done|]. apply orb_false_iff in E as [E Hc]. apply orb_false_iff in E as [Ha Hb].
  intros [= <-].
  assert (toy_payload (Join [a; b; c] ":") = Some {| c_sub := a; c_sid := b; c_typ := c |}) as Hp.
  { unfold toy_payload. change ":"%string with (String ":" "").
    rewrite Split_Join; [done|by repeat constructor|done]. }
  split; [exact Hp|]. intros now _.
  transitivity (if toy_payload (Join [a; b; c] ":") then None else Some (EText "token is malformed"));
    [reflexivity|by rewrite Hp].
Qed.

(** a super admin logs in and starts impersonating tenant t1, whose owner has
    granted it sales and ai *)
Definition world0 : auth_world := {|
  aw_redis := Build_redis ∅ (5 * Second) [] true;
  aw_sys := {| s_db := db_after; s_now := 5 * Second; s_ids := ["adm"; "imp"]; s_faults := [] |};
  aw_revoked := [] |}.
Definition admin_login : auth_op := OpLogin "sa" "s@x" "S" "super_admin" "" "" 200 KindAdmin.
Definition world1 : auth_world :=
  snd (run_op (H:=no_json) (H0:=plain_array) (H1:=toy_jwt) admin_login world0).
Definition world2 : auth_world :=
  snd (run_op (H:=no_json) (H0:=plain_array) (H1:=toy_jwt) (OpStart "sa" "adm" "t1") world1).
Definition imp_token : string := "sa:imp:impersonation".
(** the owner revokes both approvals *)
Definition world3 : auth_world := {|
  aw_redis := aw_redis world2;
  aw_sys := {| s_db := run_events (H:=no_json) (H0:=plain_array)
                 [(CallRevoke (Some owner_user) "r2", 6 * Second, [], []);
                  (CallRevoke (Some owner_user) "r1", 6 * Second, [], [])] (s_db (aw_sys world2));
               s_now := 6 * Second; s_ids := []; s_faults := [] |};
  aw_revoked := [] |}.

Lemma world0_inv : store_inv world0.
Proof.
  split; [split; [by repeat constructor|reflexivity]|]. intros k v e. cbn. by rewrite lookup_empty.
Qed.
Lemma world1_inv : store_inv world1.
Proof. apply (run_op_triple admin_login); [by split|apply world0_inv]. Qed.
Lemma world2_inv : store_inv world2.
Proof. apply (run_op_triple (OpStart "sa" "adm" "t1")); [done|apply world1_inv]. Qed.
Lemma world3_inv : store_inv world3.
Proof. split; [split; [constructor|vm_compute; reflexivity]|]. apply world2_inv. Qed.
Lemma world2_requests : requests (s_db (aw_sys world2)) = requests db_after.
Proof. vm_compute. reflexivity. Qed.
Lemma world2_consent : consent_inv (requests (s_db (aw_sys world2))).
Proof. rewrite world2_requests. apply run_events_inv, consent_inv_empty. Qed.
Lemma world3_consent : consent_inv (requests (s_db (aw_sys world3))).
Proof. apply run_events_inv, world2_consent. Qed.

Definition imp_user : AuthUser := {|
  AccountID := "sa"; TenantID := "t1"; TenantSchema := "tenant_1"; Email := "s@x"; Name := "S";
  Role := "super_admin"; SessionID := "imp"; HomeTenantID := ""; HomeTenantSchema := "";
  IsPlatformSession := false; SessionKind := "impersonation"; Impersonating := true;
  ImpersonationTenantName := "T"; ImpersonationTenantSlug := "t"; ImpersonationScope := "limited";
  ImpersonationModules := ["sales"; "ai"];
  ImpersonationExpiresAt := ImpersonationExpiresAt
    (buildAuthUser (default (login_session "" "" "" "" "" "" "" 0)
       (rvalue (aw_redis world2) (sessionKey "sa" "imp"))) "imp") |}.
Lemma imp_user_auth :
  exists w', AuthHandler (H:=no_json) (H0:=plain_array) (H1:=toy_jwt) imp_token world2 = (Ok imp_user, w').
Proof.
  exists (snd (AuthHandler (H:=no_json) (H0:=plain_array) (H1:=toy_jwt) imp_token world2)).
  vm_compute. reflexivity.
Qed.

Lemma impersonation_needs_live_consent_witness :
  exists r g, live_consent "sa" "t1" (5 * Second) (requests (s_db (aw_sys world2))) r g /\
    "limited" = G_Scope g /\ ["sales"; "ai"] = G_Modules g.
Proof.
  destruct imp_user_auth as [w' Hrun].
  exact (proj2 (proj2 (impersonation_needs_live_consent (H:=no_json) (H0:=plain_array) (H1:=toy_jwt)
    imp_token world2 imp_user w' world2_inv world2_consent Hrun eq_refl))).
Defined.

Lemma authenticated_session_sound_witness :
  active_tenant (s_db (aw_sys world2)) "t1" "tenant_1".
Proof.
  destruct imp_user_auth as [w' Hrun].
  refine (proj1 (proj2 (proj2 (authenticated_session_sound (H:=no_json) (H0:=plain_array) (H1:=toy_jwt)
    imp_token world2 imp_user w' world2_inv world2_consent Hrun))) _).
  discriminate.
Defined.

Lemma revoked_consent_ends_impersonation_witness :
  exists u, fst (AuthHandler (H:=no_json) (H0:=plain_array) (H1:=toy_jwt) imp_token world3) = Ok u /\
    HasEffectiveTenantContext (Some u) = false /\ TenantID u = "" /\ Impersonating u = false /\
    IsPlatformSession u = false.
Proof.
  destruct (AuthHandler (H:=no_json) (H0:=plain_array) (H1:=toy_jwt) imp_token world3) as [[u|e] w'] eqn:Hrun.
  2: { exfalso. revert Hrun. vm_compute. discriminate. }
  exists u. split; [reflexivity|].
  refine (revoked_consent_ends_impersonation (H:=no_json) (H0:=plain_array) (H1:=toy_jwt) imp_token world3
    u w' {| c_sub := "sa"; c_sid := "imp"; c_typ := "impersonation" |}
    (default (login_session "" "" "" "" "" "" "" 0) (rvalue (aw_redis world3) (sessionKey "sa" "imp")))
    world3_inv world3_consent eq_refl _ _ _ Hrun).
  - vm_compute. reflexivity.
  - vm_compute. reflexivity.
  - intros r g (scope & Hn & _). revert Hn. vm_compute. discriminate.
Defined.

Lemma session_store_invariant_witness : store_inv world1.
Proof.
  refine (session_store_invariant (H:=no_json) (H0:=plain_array) (H1:=toy_jwt) admin_login world0 _ world0_inv).
  split; reflexivity.
Defined.

Lemma login_logout_roundtrip_witness :
  exists u w2, AuthHandler (H:=no_json) (H0:=plain_array) (H1:=toy_jwt) "sa:adm:admin" (after Minute world1)
    = (Ok u, w2) /\ AccountID u = "sa" /\ Role u = "super_admin".
Proof.
  set (run := completeLoginKind (H1:=toy_jwt) "sa" "s@x" "S" "super_admin" "" "" 200 KindAdmin world0).
  assert (exists resp, fst run = Ok resp /\ token_of resp = Some "sa:adm:admin") as (resp & Hr & Ht).
  { vm_compute. eexists. split; reflexivity. }
  assert (run = (Ok resp, world1)) as Hrun.
  { unfold world1, run_op, admin_login, bind. fold run. destruct run as [r w1]. cbn in Hr. by subst. }
  destruct (login_logout_roundtrip (H:=no_json) (H0:=plain_array) (H1:=toy_jwt) (JwtLaws0:=toy_laws)
    "sa" "s@x" "S" "super_admin" "" "" 200 KindAdmin world0 resp world1 "sa:adm:admin" Minute
    ltac:(split; [split; reflexivity|reflexivity|reflexivity]) Hrun Ht ltac:(left; reflexivity)
    ltac:(discriminate) ltac:(discriminate) ltac:(vm_compute; discriminate) ltac:(vm_compute; discriminate)
    ltac:(vm_compute; reflexivity) ltac:(left; split; reflexivity)) as (u & w2 & Ha & HA & HR & _).
  exists u, w2. split; [exact Ha|]. split; [exact HA|exact HR].
Defined.
