(* ===== verification/RateLimit.v ===== *)
(** * HTTP rate limiting and client addresses

    Models [shared/ratelimit/ratelimit.go]: [Allow] counts requests in Redis
    with a pipeline of INCR and EXPIRE (each of which can fail on its own), and
    [ClientIP] reads the caller's address from the request. *)
From S2P Require Import Prelude GoStrings Redis AdminSession.

Open Scope string_scope.
Open Scope Z_scope.

Definition DefaultPublicRPM : Z := 400.
Definition AuthRPM : Z := 20.

(** INCR alone: the expiry is kept *)
Definition incr (k : string) (r : redis Z) : Z * redis Z :=
  let '(n, e) := match rlookup r k with Some ne => ne | None => (0, None) end in
  (n + 1, set_data r (<[ k := (n + 1, e) ]> (r_data r))).
Definition cmd_incr (k : string) : prog (redis Z) Z := run (incr k).

(** [pipe.Exec] fails when either command failed *)
Definition Allow (key : string) (max window : Z) : prog (redis Z) bool := fun r =>
  if negb (r_client r) || String.eqb key "" || (max <=? 0) then (Ok true, r)
  else
    let redisKey := "rl:" ++ key in
    (let! n := attempt (cmd_incr redisKey) in
     let! e := attempt (cmd_expire redisKey window) in
     match n, e with
     | Ok n, Ok _ => ret (n <=? max)
     | _, _ => ret true
     end) r.

Definition Key (scope id : string) : string := scope ++ ":" ++ id.

(** ** Client addresses *)
Record request := {
  q_forwarded_for : string; q_real_ip : string; q_remote_addr : string; q_user_agent : string
}.

Definition ClientIPFromHeaders (q : request) : string :=
  if negb (String.eqb (q_forwarded_for q) "") then
    TrimSpace (default "" (head (Split (q_forwarded_for q) ",")))
  else if negb (String.eqb (q_real_ip q) "") then TrimSpace (q_real_ip q)
  else "".

(** [net.SplitHostPort]'s host, [None] on error: host:port or [host]:port with
    no other brackets, and no other colon unless bracketed *)
Fixpoint index_of (c : ascii) (s : string) : option nat :=
  match s with
  | "" => None
  | String d s' => if Ascii.eqb c d then Some 0%nat else S <$> index_of c s'
  end.
Fixpoint last_index_of (c : ascii) (s : string) : option nat :=
  match s with
  | "" => None
  | String d s' =>
      match last_index_of c s' with
      | Some n => Some (S n)
      | None => if Ascii.eqb c d then Some 0%nat else None
      end
  end.
Definition SplitHostPort_host (hostport : string) : option string :=
  match last_index_of ":" hostport with
  | None => None
  | Some i =>
      match hostport with
      | String "[" _ =>
          match index_of "]" hostport with
          | None => None
          | Some e =>
              if Nat.eqb (S e) i then
                let host := String.substring 1 (e - 1) hostport in
                if has_char "[" (drop_bytes 1 hostport) || has_char "]" (drop_bytes (S e) hostport)
                then None else Some host
              else None
          end
      | _ =>
          let host := String.substring 0 i hostport in
          if has_char ":" host || has_char "[" hostport || has_char "]" hostport then None else Some host
      end
  end.

Definition ClientIP (q : option request) : string :=
  match q with
  | None => ""
  | Some q =>
      let ip := ClientIPFromHeaders q in
      if negb (String.eqb ip "") then ip
      else match SplitHostPort_host (q_remote_addr q) with
           | Some host => host
           | None => q_remote_addr q
           end
  end.

(** ** What [Allow] counts

    The requests of a key at times [ts]; [streaks] numbers each request within
    its run of requests less than a window apart. *)
Fixpoint answers (key : string) (max window : Z) (ts : list Z) (r : redis Z) : list (result bool) :=
  match ts with
  | [] => []
  | t :: ts =>
      let '(b, r') := Allow key max window (at_time t r) in b :: answers key max window ts r'
  end.
Fixpoint streaks (window : Z) (last : option (Z * Z)) (ts : list Z) : list Z :=
  match ts with
  | [] => []
  | t :: ts =>
      let n := match last with
               | Some (t0, n) => if t - t0 <? window then n + 1 else 1
               | None => 1
               end in
      n :: streaks window (Some (t, n)) ts
  end.
(** one request every [gap] *)
Fixpoint every (gap t : Z) (n : nat) : list Z :=
  match n with O => [] | S n => t :: every gap (t + gap) n end.

(** ** Lemmas *)
Lemma expire_live {V} k ttl (r : redis V) v e :
  rlookup r k = Some (v, e) -> healthy r ->
  cmd_expire k ttl r = (Ok tt, set_data r (<[ k := (v, Some (r_now r + ttl)) ]> (r_data r))).
Proof. intros Hl Hh. unfold cmd_expire. rewrite run_healthy by done. cbn. by rewrite Hl. Qed.

Lemma Allow_healthy key max window r :
  healthy r -> key <> "" -> 0 < max ->
  let '(n, e) := match rlookup r ("rl:" ++ key) with Some ne => ne | None => (0, None) end in
  Allow key max window r
  = (Ok (n + 1 <=? max), set_data r (<[ "rl:" ++ key := (n + 1, Some (r_now r + window)) ]> (r_data r))).
Proof.
  intros Hh Hk Hmax. unfold Allow. rewrite (proj2 Hh), (proj2 (String.eqb_neq _ _) Hk).
  rewrite (proj2 (Z.leb_gt _ _) Hmax). cbn [negb orb].
  set (rk := "rl:" ++ key).
  destruct (match rlookup r rk with Some ne => ne | None => (0, None) end) as [n e] eqn:El.
  unfold bind, attempt, cmd_incr. rewrite run_healthy by done. unfold incr. rewrite El. cbn [fst snd].
  assert (expired (r_now r) e = false) as Hne.
  { destruct (rlookup r rk) as [[n' e']|] eqn:E; simplify_eq; [|done]. by apply rlookup_live in E as [_ E]. }
  rewrite (expire_live rk window _ (n + 1) e); [|by apply rlookup_insert|by destruct Hh].
  cbn. unfold set_data. cbn. by rewrite insert_insert_eq.
Qed.

(** what the key holds after a request at [t0] that was number [n] *)
Definition counted (key : string) (window : Z) (last : option (Z * Z)) (r : redis Z) : Prop :=
  match last with
  | None => r_data r !! ("rl:" ++ key) = None
  | Some (t0, n) => r_data r !! ("rl:" ++ key) = Some (n, Some (t0 + window))
  end.

Lemma answers_streaks key max window ts : forall r last,
  healthy r -> key <> "" -> 0 < max -> counted key window last r ->
  answers key max window ts r = map (fun n => Ok (n <=? max)) (streaks window last ts).
Proof.
  induction ts as [|t ts IH]; intros r last Hh Hk Hmax Hc; [done|]. cbn [answers streaks map].
  pose proof (Allow_healthy key max window (at_time t r)) as Ha.
  assert (match rlookup (at_time t r) ("rl:" ++ key) with Some ne => ne | None => (0, None) end
    = match last with Some (t0, n) => if t - t0 <? window then (n, Some (t0 + window)) else (0, None)
      | None => (0, None) end) as Hl.
  { unfold rlookup, counted in *. cbn [r_data at_time r_now] in *. destruct last as [[t0 n]|]; rewrite Hc; [|done].
    unfold expired. destruct (Z.leb_spec (t0 + window) t), (Z.ltb_spec (t - t0) window); try done; lia. }
  rewrite Hl in Ha. destruct last as [[t0 n]|]; [destruct (t - t0 <? window)|];
    rewrite Ha by done; (f_equal; apply IH; [done..|]); unfold counted; cbn; by rewrite lookup_insert_eq.
Qed.

Lemma streaks_every window gap n : forall t last k,
  0 < gap < window -> match last with Some (t0, m) => t = t0 + gap /\ m = k | None => k = 0 end ->
  forall i, (i < n)%nat -> streaks window last (every gap t n) !! i = Some (k + Z.of_nat i + 1).
Proof.
  induction n as [|n IH]; intros t last k Hg Hl i Hi; [lia|]. cbn [every streaks].
  assert ((match last with Some (t0, m) => if t - t0 <? window then m + 1 else 1 | None => 1 end) = k + 1) as ->.
  { destruct last as [[t0 m]|]; [|lia]. destruct Hl as [-> ->].
    by destruct (Z.ltb_spec (t0 + gap - t0) window); [|lia]. }
  destruct i as [|i]; [cbn; f_equal; lia|]. cbn [lookup list_lookup].
  rewrite (IH _ _ (k + 1)); [f_equal; lia|done|done|lia].
Qed.

(** ** Properties *)

(** What [Allow] limits: over a healthy store and from a clean key, a
    request is admitted exactly when it is at most number [max] of its run,
    where a run is a sequence of requests each less than a window after the one
    before.  The counter is not per window: EXPIRE is renewed at every request,
    so a client that spaces its requests any less than a window apart, however
    slow, is refused for good from request [max + 1] on. *)
Theorem allow_counts_runs key max window ts r :
  healthy r -> key <> "" -> 0 < max -> r_data r !! ("rl:" ++ key) = None ->
  answers key max window ts r = map (fun n => Ok (n <=? max)) (streaks window None ts) /\
  (forall gap t n i, ts = every gap t n -> 0 < gap < window -> (i < n)%nat ->
     answers key max window ts r !! i = Some (Ok (Z.of_nat i <? max))).
Proof.
  intros Hh Hk Hm Hc. assert (forall ts, answers key max window ts r
    = map (fun n => Ok (n <=? max)) (streaks window None ts)) as Ha
    by (intros; by apply answers_streaks). split; [apply Ha|].
  intros gap t n i -> Hg Hi. rewrite Ha, list_lookup_fmap.
  rewrite (streaks_every window gap n t None 0) by done. cbn. do 2 f_equal.
  destruct (Z.leb_spec (0 + Z.of_nat i + 1) max), (Z.ltb_spec (Z.of_nat i) max); try done; lia.
Qed.

(** 21 logins 50 seconds apart are fewer than two a minute; the last is refused *)
Lemma allow_counts_runs_witness :
  answers "auth:1.2.3.4" AuthRPM Minute (every (50 * Second) 0 21) (Build_redis ∅ 0 [] true) !! 20%nat
  = Some (Ok false).
Proof.
  refine (proj2 (allow_counts_runs "auth:1.2.3.4" AuthRPM Minute (every (50 * Second) 0 21)
    (Build_redis ∅ 0 [] true) _ _ _ _) (50 * Second) 0 21%nat 20%nat eq_refl _ _).
  - split; reflexivity.
  - discriminate.
  - reflexivity.
  - reflexivity.
  - split; reflexivity.
  - lia.
Defined.
