(* ===== verification/LoginPortal.v ===== *)
(** * The two login portals

    Models [serveLoginPortal] and [recordLoginAttempt] of
    [auth/login_portal.go]: the guard (LoginGuard.v), the rate limit
    (RateLimit.v), the account lookup and password check, the portal check
    (AdminSession.v), the tenant checks, and the completion of the login
    (Sessions.v).  bcrypt is the class [Bcrypt]; the number of comparisons made
    is part of the world, because the code makes it equal on every failing
    path. *)
From S2P Require Import Prelude GoStrings Sha256 Redis AdminSession LoginGuard TenantAccess Sessions RateLimit.

Open Scope string_scope.
Open Scope Z_scope.

Class Bcrypt := {
  CompareHashAndPassword : string -> string -> bool;   (** hash, password; [true]: they match *)
  GenerateFromPassword : string -> result string
}.

(** ** The world: counters, accounts, audit rows, sessions and tenants *)
Record account := {
  ac_id : string; ac_email : string; ac_email_hash : string; ac_password_hash : string;
  ac_name : option string; ac_role : string; ac_tenant : option string; ac_deleted : bool
}.
Record login_world := {
  lw_counters : redis Z; lw_accounts : list account; lw_last_login : list (string * Z);
  lw_attempts : list Attempt; lw_compares : nat; lw_auth : auth_world
}.
Definition set_auth (x : auth_world) (w : login_world) : login_world :=
  {| lw_counters := lw_counters w; lw_accounts := lw_accounts w; lw_last_login := lw_last_login w;
     lw_attempts := lw_attempts w; lw_compares := lw_compares w; lw_auth := x |}.
Definition in_counters {A} (m : prog (redis Z) A) : prog login_world A := fun w =>
  let '(r, x) := m (lw_counters w) in
  (r, {| lw_counters := x; lw_accounts := lw_accounts w; lw_last_login := lw_last_login w;
         lw_attempts := lw_attempts w; lw_compares := lw_compares w; lw_auth := lw_auth w |}).
Definition in_auth {A} (m : prog auth_world A) : prog login_world A := fun w =>
  let '(r, x) := m (lw_auth w) in (r, set_auth x w).
(** a statement on the tables of this world, with the system database's
    failures *)
Definition db_call {A} (f : login_world -> result A * login_world) : prog login_world A := fun w =>
  let sys := aw_sys (lw_auth w) in
  let rest := set_auth {| aw_redis := aw_redis (lw_auth w);
    aw_sys := {| s_db := s_db sys; s_now := s_now sys; s_ids := s_ids sys; s_faults := tail (s_faults sys) |};
    aw_revoked := aw_revoked (lw_auth w) |} w in
  match default Fine (head (s_faults sys)) with
  | Fine => f rest
  | FailBefore => (Err query_error, rest)
  | FailAfter => (Err query_error, snd (f rest))
  end.
Definition add_attempt (a : Attempt) (w : login_world) : login_world :=
  {| lw_counters := lw_counters w; lw_accounts := lw_accounts w; lw_last_login := lw_last_login w;
     lw_attempts := (lw_attempts w ++ [a])%list; lw_compares := lw_compares w; lw_auth := lw_auth w |}.
Definition set_last_login (id : string) (t : Z) (w : login_world) : login_world :=
  {| lw_counters := lw_counters w; lw_accounts := lw_accounts w;
     lw_last_login := (lw_last_login w ++ [(id, t)])%list;
     lw_attempts := lw_attempts w; lw_compares := lw_compares w; lw_auth := lw_auth w |}.

Definition normalizeEmail (email : string) : string := ToLower (TrimSpace email).
Definition hashForLookup (email : string) : string := hex_encode (Sum256 email).
Definition nullStr (s : option string) : string := default "" s.

Definition msgTooMany : string := "too many attempts — coba lagi nanti".
Definition msgBadRequest : string := "email and password are required".

(** the best-effort audit row of an attempt *)
Definition recordLoginAttempt (q : request) (portal email accountID result reason : string)
  : prog login_world unit :=
  let! now := in_auth time_now in
  ignore (db_call (fun w => (Ok tt, add_attempt
    (NewAttempt now portal email accountID (ClientIP (Some q)) (q_user_agent q) result reason) w))).

Definition allowAuthRate (q : request) : prog login_world bool :=
  in_counters (Allow (Key "auth" (ClientIP (Some q))) AuthRPM Minute).

(** WHERE email_hash = $1 AND deleted_at IS NULL *)
Definition find_account (hash : string) (accounts : list account) : option account :=
  List.find (fun a => String.eqb (ac_email_hash a) hash && negb (ac_deleted a)) accounts.

Section login.
Context `{Bcrypt} `{GoJson} `{PgArray} `{JwtLib}.

Definition compare_password (hash password : string) : prog login_world bool := fun w =>
  (Ok (CompareHashAndPassword hash password),
   {| lw_counters := lw_counters w; lw_accounts := lw_accounts w; lw_last_login := lw_last_login w;
      lw_attempts := lw_attempts w; lw_compares := S (lw_compares w); lw_auth := lw_auth w |}).

(** the closure [fail]: count the failure, record it, answer 401 *)
Definition login_fail (q : request) (g : Guard) (portal emailLower acct accountID reason : string)
  : prog login_world login_response :=
  ignore (in_counters (Fail_ g (ClientIP (Some q)) acct));!
  recordLoginAttempt q portal emailLower accountID ResultFailure reason;!
  ret (LoginError 401 (error_text ErrInvalidCredentials)).

(** after the password and the portal were accepted *)
Definition login_accepted (q : request) (g : Guard) (portal emailLower acct kind : string) (a : account)
  : prog login_world login_response :=
  ignore (in_counters (Success g (ClientIP (Some q)) acct));!
  let! now := in_auth time_now in
  ignore (db_call (fun w => (Ok tt, set_last_login (ac_id a) now w)));!
  let record := recordLoginAttempt q portal emailLower in
  if String.eqb kind KindAdmin then
    record (ac_id a) ResultSuccess ReasonOK;!
    in_auth (completeLoginKind (ac_id a) (ac_email a) (nullStr (ac_name a)) (ac_role a) "" "" 200 KindAdmin)
  else
    match ac_tenant a with
    | None | Some "" =>
        record (ac_id a) ResultFailure ReasonNoTenant;!
        ret (LoginError 403 "Akun tidak terhubung ke bisnis")
    | Some tid =>
        let! tenant := attempt (in_auth (in_sys (query (fun d =>
          (Ok (match tenants d !! tid with
               | Some t => if t_deleted t then None else Some (t_slug t, t_name t, t_status t)
               | None => None
               end), d))))) in
        match tenant with
        | Ok None =>
            record (ac_id a) ResultFailure ReasonNoTenant;! ret (LoginError 401 "Tenant tidak ditemukan")
        | Err _ =>
            record (ac_id a) ResultFailure ReasonInternal;! ret (LoginError 500 "db error")
        | Ok (Some (slug, name, status)) =>
            if negb (String.eqb status "active") then
              record (ac_id a) ResultFailure ReasonTenantInactive;!
              ret (LoginError 403 "Akun bisnis tidak aktif")
            else
              let! schema := attempt (in_auth (in_sys (query (fun d =>
                (match (t ← tenants d !! tid; t_schema t) with
                 | Some s => Ok s
                 | None => Err (EText "sql: no rows in result set")
                 end, d))))) in
              match schema with
              | Err _ =>
                  record (ac_id a) ResultFailure ReasonInternal;! ret (LoginError 500 "company not found")
              | Ok schemaName =>
                  record (ac_id a) ResultSuccess ReasonOK;!
                  in_auth (completeLoginKind (ac_id a) (ac_email a) (nullStr (ac_name a)) (ac_role a)
                    tid schemaName 200 KindClient)
              end
        end
    end.

(** from the account lookup on *)
Definition login_lookup (q : request) (g : Guard) (portal emailLower acct password dummyHash : string)
  : prog login_world login_response :=
  let fail := login_fail q g portal emailLower acct in
  let! found := attempt (db_call (fun w => (Ok (find_account (hashForLookup emailLower) (lw_accounts w)), w))) in
  match found with
  | Ok None =>
      let! _ := compare_password dummyHash password in
      fail "" ReasonInvalidCredentials
  | Err _ =>
      recordLoginAttempt q portal emailLower "" ResultFailure ReasonInternal;!
      ret (LoginError 500 "db error")
  | Ok (Some a) =>
      let! good := compare_password (ac_password_hash a) password in
      if negb good then fail (ac_id a) ReasonInvalidCredentials
      else match CheckPortal portal (ac_role a) (nullStr (ac_tenant a)) with
           | Err _ => fail (ac_id a) ReasonPortalMismatch
           | Ok kind => login_accepted q g portal emailLower acct kind a
           end
  end.

(** [body]: the parsed email and password, [None] when parsing failed;
    [dummyHash]: [adminauth.DummyHash] *)
Definition serveLoginPortal (q : request) (portal : string) (body : option (string * string))
    (dummyHash : string) : prog login_world login_response :=
  let '(email, password) := default ("", "") body in
  if String.eqb email "" || String.eqb password "" then
    recordLoginAttempt q portal email "" ResultFailure ReasonBadRequest;!
    ret (LoginError 400 msgBadRequest)
  else
    let emailLower := normalizeEmail email in
    let ip := ClientIP (Some q) in
    let acct := AccountKey emailLower in
    let g := loginGuard portal in
    let! rated := (if String.eqb portal PortalClient then allowAuthRate q else ret true) in
    if negb rated then
      recordLoginAttempt q portal emailLower "" ResultBlocked ReasonRateIP;!
      ret (LoginError StatusTooManyRequests msgTooMany)
    else
      let! checked := in_counters (Check_ g ip acct) in
      let '(ok, reason, gerr) := checked in
      if negb ok then
        recordLoginAttempt q portal emailLower "" ResultBlocked reason;!
        ret (LoginError StatusTooManyRequests msgTooMany)
      else login_lookup q g portal emailLower acct password dummyHash.

Definition PlatformAdminLogin (q : request) (body : option (string * string)) (dummyHash : string)
  : prog login_world login_response := serveLoginPortal q PortalAdmin body dummyHash.
Definition serveLogin (q : request) (body : option (string * string)) (dummyHash : string)
  : prog login_world login_response := serveLoginPortal q PortalClient body dummyHash.

(** no password and role the account table holds would let this login in *)
Definition credentials_fail (portal email password : string) (accounts : list account) : Prop :=
  match find_account (hashForLookup (normalizeEmail email)) accounts with
  | None => True
  | Some a => CompareHashAndPassword (ac_password_hash a) password = false \/
      exists e, CheckPortal portal (ac_role a) (nullStr (ac_tenant a)) = Err e
  end.
End login.

(** ** Lemmas: two runs that see the same counters and sessions *)
Definition alike (w1 w2 : login_world) : Prop :=
  lw_counters w1 = lw_counters w2 /\ lw_auth w1 = lw_auth w2 /\ lw_compares w1 = lw_compares w2.
(** from alike worlds both answer the same and leave alike worlds *)
Definition indistinct {A} (m1 m2 : prog login_world A) : Prop :=
  forall w1 w2, alike w1 w2 -> fst (m1 w1) = fst (m2 w2) /\ alike (snd (m1 w1)) (snd (m2 w2)).

Lemma indistinct_ret {A} (a : A) : indistinct (ret a) (ret a).
Proof. by intros w1 w2 Hw. Qed.
Lemma indistinct_bind {A B} (m1 m2 : prog login_world A) (k1 k2 : A -> prog login_world B) :
  indistinct m1 m2 -> (forall a, indistinct (k1 a) (k2 a)) -> indistinct (bind m1 k1) (bind m2 k2).
Proof.
  intros Hm Hk w1 w2 Hw. destruct (Hm w1 w2 Hw) as [Hr Hw']. unfold bind.
  destruct (m1 w1) as [[a1|e1] w1'], (m2 w2) as [[a2|e2] w2']; cbn in *; simplify_eq; [by apply Hk|done].
Qed.
Lemma indistinct_attempt {A} (m1 m2 : prog login_world A) :
  indistinct m1 m2 -> indistinct (attempt m1) (attempt m2).
Proof.
  intros Hm w1 w2 Hw. destruct (Hm w1 w2 Hw) as [Hr Hw']. unfold attempt.
  destruct (m1 w1), (m2 w2). cbn in *. by subst.
Qed.
Lemma indistinct_ignore {A} (m1 m2 : prog login_world A) :
  indistinct m1 m2 -> indistinct (ignore m1) (ignore m2).
Proof. intros Hm w1 w2 Hw. destruct (Hm w1 w2 Hw) as [_ Hw']. by split. Qed.
Lemma indistinct_if {A} (b : bool) (m1 m2 n1 n2 : prog login_world A) :
  indistinct m1 m2 -> indistinct n1 n2 -> indistinct (if b then m1 else n1) (if b then m2 else n2).
Proof. by destruct b. Qed.
Lemma indistinct_counters {A} (m : prog (redis Z) A) : indistinct (in_counters m) (in_counters m).
Proof.
  intros w1 w2 (Hc & Ha & Hn). unfold in_counters. rewrite Hc. by destruct (m (lw_counters w2)).
Qed.
Lemma indistinct_auth {A} (m : prog auth_world A) : indistinct (in_auth m) (in_auth m).
Proof.
  intros w1 w2 (Hc & Ha & Hn). unfold in_auth. rewrite Ha. by destruct (m (lw_auth w2)).
Qed.
Lemma indistinct_db {A} (f1 f2 : login_world -> result A * login_world) :
  (forall w1 w2, alike w1 w2 -> fst (f1 w1) = fst (f2 w2) /\ alike (snd (f1 w1)) (snd (f2 w2))) ->
  indistinct (db_call f1) (db_call f2).
Proof.
  intros Hf w1 w2 (Hc & Ha & Hn). unfold db_call. rewrite Ha.
  set (r1 := set_auth _ w1). set (r2 := set_auth _ w2). assert (alike r1 r2) as Hr by done.
  destruct (Hf r1 r2 Hr) as [H1 H2]. by destruct (default Fine _).
Qed.
#[local] Hint Resolve indistinct_ret indistinct_attempt indistinct_ignore indistinct_if
  indistinct_counters indistinct_auth : prog.

(** audit rows are not seen by the caller *)
Lemma indistinct_record q portal email1 email2 id1 id2 res1 res2 reason1 reason2 :
  indistinct (recordLoginAttempt q portal email1 id1 res1 reason1)
             (recordLoginAttempt q portal email2 id2 res2 reason2).
Proof.
  apply indistinct_bind; [auto with prog|]. intros now. apply indistinct_ignore, indistinct_db.
  by intros w1 w2 (Hc & Ha & Hn).
Qed.

(** *** What stays during a login *)
Definition framed (w0 w : login_world) : Prop :=
  lw_accounts w = lw_accounts w0 /\ s_db (aw_sys (lw_auth w)) = s_db (aw_sys (lw_auth w0)).
Lemma framed_counters {A} w0 (m : prog (redis Z) A) : preserves (framed w0) (in_counters m).
Proof. intros w [H1 H2]. unfold in_counters. by destruct (m (lw_counters w)). Qed.
Lemma framed_read {A} w0 (f : sysdb -> result A) :
  preserves (framed w0) (in_auth (in_sys (query (fun d => (f d, d))))).
Proof.
  intros w [H1 H2]. unfold in_auth, in_sys. destruct (query _ _) as [r x] eqn:Hq.
  split; [done|]. rewrite <- H2. cbn [snd set_auth lw_auth aw_sys].
  by destruct (query_cases _ _ _ _ Hq) as [_ [[_ ->]|[_ [-> | ->]]]].
Qed.
Lemma framed_now w0 : preserves (framed w0) (in_auth time_now).
Proof. by intros w [H1 H2]. Qed.
Lemma framed_db {A} w0 (f : login_world -> result A * login_world) :
  (forall w, framed w0 w -> framed w0 (snd (f w))) -> preserves (framed w0) (db_call f).
Proof.
  intros Hf w Hw. unfold db_call. set (r := set_auth _ w). assert (framed w0 r) as Hr by done.
  specialize (Hf r Hr). by destruct (default Fine _).
Qed.
Lemma framed_record w0 q portal email id res reason :
  preserves (framed w0) (recordLoginAttempt q portal email id res reason).
Proof.
  apply preserves_bind; [apply framed_now|]. intros now. apply preserves_ignore, framed_db. done.
Qed.
Lemma framed_bind {A B} w0 (m : prog login_world A) (k : A -> prog login_world B) w r w' :
  preserves (framed w0) m -> framed w0 w -> bind m k w = (Ok r, w') ->
  exists a w1, m w = (Ok a, w1) /\ framed w0 w1 /\ k a w1 = (Ok r, w').
Proof.
  intros Hm Hw [(a & w1 & H1 & H2)|(e & _ & [=])]%bind_inv. exists a, w1. split_and!; [done| |done].
  specialize (Hm w Hw). by rewrite H1 in Hm.
Qed.

Lemma same_bind {A B} (m : prog login_world A) (k : A -> prog login_world B) w1 w2 :
  indistinct m m -> (forall w0, preserves (framed w0) m) -> alike w1 w2 ->
  (forall a w1' w2', alike w1' w2' -> lw_accounts w1' = lw_accounts w1 -> lw_accounts w2' = lw_accounts w2 ->
     fst (k a w1') = fst (k a w2') /\ alike (snd (k a w1')) (snd (k a w2'))) ->
  fst (bind m k w1) = fst (bind m k w2) /\ alike (snd (bind m k w1)) (snd (bind m k w2)).
Proof.
  intros Hm Hf Hw Hk. destruct (Hm w1 w2 Hw) as [Er Hw'].
  pose proof (Hf w1 w1 ltac:(done)) as [A1 _]. pose proof (Hf w2 w2 ltac:(done)) as [A2 _]. unfold bind.
  destruct (m w1) as [[a1|e1] w1'], (m w2) as [[a2|e2] w2']; cbn in *; simplify_eq; [by apply Hk|done].
Qed.
Lemma refused q portal email res reason (resp : login_response) :
  indistinct (recordLoginAttempt q portal email "" res reason;! ret resp)
             (recordLoginAttempt q portal email "" res reason;! ret resp).
Proof. apply indistinct_bind; [apply indistinct_record|intros; apply indistinct_ret]. Qed.

Lemma attempt_ok {W A} (m : prog W A) w a w' : attempt m w = (Ok (Ok a), w') -> m w = (Ok a, w').
Proof. unfold attempt. destruct (m w). by intros [= -> ->]. Qed.
Lemma in_auth_ok {A} (m : prog auth_world A) w r w' :
  in_auth m w = (r, w') -> m (lw_auth w) = (r, lw_auth w').
Proof. unfold in_auth. destruct (m (lw_auth w)). by intros [= <- <-]. Qed.

Section properties.
Context `{Bcrypt} `{GoJson} `{PgArray} `{JwtLib}.

Lemma indistinct_fail q g portal email acct id1 id2 reason1 reason2 :
  indistinct (login_fail q g portal email acct id1 reason1) (login_fail q g portal email acct id2 reason2).
Proof.
  apply indistinct_bind; [auto with prog|intros _].
  apply indistinct_bind; [apply indistinct_record|intros _]. auto with prog.
Qed.
Lemma compare_then {A} hash1 hash2 pw (k1 k2 : bool -> prog login_world A) :
  indistinct (k1 (CompareHashAndPassword hash1 pw)) (k2 (CompareHashAndPassword hash2 pw)) ->
  indistinct (bind (compare_password hash1 pw) k1) (bind (compare_password hash2 pw) k2).
Proof.
  intros Hk w1 w2 (Hc & Ha & Hn). unfold bind, compare_password. apply Hk.
  split_and!; cbn; congruence.
Qed.

(** a read of this world's tables, then [k] *)
Lemma read_then {A B} (f : login_world -> A) (k : result A -> prog login_world B) w1 w2 :
  (forall x w, f (set_auth x w) = f w) -> alike w1 w2 ->
  (forall e, indistinct (k (Err e)) (k (Err e))) -> indistinct (k (Ok (f w1))) (k (Ok (f w2))) ->
  let m := bind (attempt (db_call (fun w => (Ok (f w), w)))) k in
  fst (m w1) = fst (m w2) /\ alike (snd (m w1)) (snd (m w2)).
Proof.
  intros Hf (Hc & Ha & Hn) He Hk. unfold bind, attempt, db_call. rewrite <- Ha. rewrite !Hf.
  set (r1 := set_auth _ w1). set (r2 := set_auth _ w2). assert (alike r1 r2) as Hr by (by split_and!).
  destruct (default Fine _); cbn [snd]; first [by apply Hk|by apply He].
Qed.

(** the rest of a failing login looks the same, whichever way it fails *)
Lemma lookup_fails q g portal email acct pw dummy w1 w2 :
  alike w1 w2 ->
  credentials_fail portal email pw (lw_accounts w1) -> credentials_fail portal email pw (lw_accounts w2) ->
  let m := login_lookup q g portal (normalizeEmail email) acct pw dummy in
  fst (m w1) = fst (m w2) /\ alike (snd (m w1)) (snd (m w2)).
Proof.
  intros Hw C1 C2. unfold login_lookup, credentials_fail in *. cbv zeta.
  apply read_then; [done|done| |].
  { intros e. apply indistinct_bind; [apply indistinct_record|intros; apply indistinct_ret]. }
  assert (forall a, (CompareHashAndPassword (ac_password_hash a) pw = false \/
      exists e, CheckPortal portal (ac_role a) (nullStr (ac_tenant a)) = Err e) ->
    exists reason, (if negb (CompareHashAndPassword (ac_password_hash a) pw)
      then login_fail q g portal (normalizeEmail email) acct (ac_id a) ReasonInvalidCredentials
      else match CheckPortal portal (ac_role a) (nullStr (ac_tenant a)) with
           | Err _ => login_fail q g portal (normalizeEmail email) acct (ac_id a) ReasonPortalMismatch
           | Ok kind => login_accepted q g portal (normalizeEmail email) acct kind a
           end) = login_fail q g portal (normalizeEmail email) acct (ac_id a) reason) as Hfail.
  { intros a [->|[e ->]]; [by eexists|]. destruct (CompareHashAndPassword _ _); by eexists. }
  destruct (find_account _ (lw_accounts w1)) as [a1|], (find_account _ (lw_accounts w2)) as [a2|];
    apply compare_then; try done.
  - destruct (Hfail a1 C1) as [? ->], (Hfail a2 C2) as [? ->]. apply indistinct_fail.
  - destruct (Hfail a1 C1) as [? ->]. apply indistinct_fail.
  - destruct (Hfail a2 C2) as [? ->]. apply indistinct_fail.
  - apply indistinct_fail.
Qed.

Lemma login_accepted_token q g portal email acct kind a w resp w' tok w0 :
  framed w0 w -> login_accepted q g portal email acct kind a w = (Ok resp, w') -> token_of resp = Some tok ->
  kind = KindAdmin \/
  exists tid schema, ac_tenant a = Some tid /\ tid <> "" /\
    active_tenant (s_db (aw_sys (lw_auth w0))) tid schema.
Proof.
  intros Hw Hrun Htok. unfold login_accepted in Hrun.
  apply (framed_bind w0) in Hrun as ([] & w1 & _ & Hw1 & Hrun); [|apply preserves_ignore, framed_counters|done].
  apply (framed_bind w0) in Hrun as (now & w2 & _ & Hw2 & Hrun); [|apply framed_now|done].
  apply (framed_bind w0) in Hrun as ([] & w3 & _ & Hw3 & Hrun); [|by apply preserves_ignore, framed_db|done].
  cbv zeta in Hrun. destruct (String.eqb_spec kind KindAdmin) as [->|_]; [by left|right].
  assert (forall res reason m s wx, (recordLoginAttempt q portal email (ac_id a) res reason;! ret (LoginError s m)) wx
    = (Ok resp, w') -> False) as Hno.
  { intros res reason m s wx [([] & ? & _ & [= <- _])|(e & _ & [=])]%bind_inv. done. }
  destruct (ac_tenant a) as [tid|]; [|by apply Hno in Hrun].
  destruct tid as [|ch tid']; [by apply Hno in Hrun|]. set (tid := String ch tid') in *.
  apply (framed_bind w0) in Hrun as (t & w4 & Ht & Hw4 & Hrun);
    [|apply preserves_attempt, framed_read|done].
  destruct t as [[[[slug name] status]|]|e]; [|by apply Hno in Hrun..].
  destruct (String.eqb_spec status "active") as [->|Hne]; cbn [negb] in Hrun; [|by apply Hno in Hrun].
  apply (framed_bind w0) in Hrun as (sc & w5 & Hs & Hw5 & Hrun);
    [|apply preserves_attempt, framed_read|done].
  destruct sc as [schema|e]; [|by apply Hno in Hrun].
  exists tid, schema. split; [done|]. split; [done|].
  apply attempt_ok, in_auth_ok, read_ok in Ht as [Ht _], Hs as [Hs _].
  rewrite (proj2 Hw3) in Ht. rewrite (proj2 Hw4) in Hs. unfold active_tenant.
  destruct (tenants _ !! tid) as [t|]; [|done]. exists t. split; [done|].
  destruct (t_deleted t); [done|]. injection Ht as _ _ Hst. cbn in Hs.
  destruct (t_schema t); [|done]. by injection Hs as ->.
Qed.

(** C16. No account enumeration: whatever the account table holds, as long as
    the given email and password do not open this portal, the caller cannot
    tell: an unknown account, a wrong password and an account of the other
    portal answer the same status and body, make the same number of password
    comparisons, and leave the same counters and sessions, so later answers
    are the same too; under any failures of Redis and the database. *)
Theorem no_account_enumeration q portal email password dummy w1 w2 :
  alike w1 w2 ->
  credentials_fail portal email password (lw_accounts w1) ->
  credentials_fail portal email password (lw_accounts w2) ->
  let serve := serveLoginPortal q portal (Some (email, password)) dummy in
  fst (serve w1) = fst (serve w2) /\ alike (snd (serve w1)) (snd (serve w2)).
Proof.
  intros Hw C1 C2. unfold serveLoginPortal.
  change (default ("", "") (Some (email, password))) with (email, password). cbv beta iota zeta.
  destruct (String.eqb email "" || String.eqb password ""); [by apply refused|].
  apply same_bind; [|intros w0; apply preserves_if; [apply framed_counters|apply preserves_ret]|done|].
  { unfold allowAuthRate. auto with prog. }
  intros b w1a w2a Ha A1 A2. destruct (negb b); [by apply refused|].
  apply same_bind; [auto with prog|intros w0; apply framed_counters|done|].
  intros [[ok reason] gerr] w1b w2b Hb B1 B2. destruct (negb ok); [by apply refused|].
  apply lookup_fails; [done|by rewrite B1, A1|by rewrite B2, A2].
Qed.

(** the two admissions of a login, in the order the code asks for them: the
    address' rate limit (client portal only) on the counters [c0], the guard on
    the counters that leaves *)
Definition admitted (q : request) (portal email : string) (c0 : redis Z) : Prop :=
  exists c reason err c',
    (if String.eqb portal PortalClient
     then Allow (Key "auth" (ClientIP (Some q))) AuthRPM Minute c0
     else (Ok true, c0)) = (Ok true, c) /\
    Check_ (loginGuard portal) (ClientIP (Some q)) (AccountKey (normalizeEmail email)) c
      = (Ok (true, reason, err), c').

Lemma admitted_calls q portal email w w1 reason err w2 :
  (if String.eqb portal PortalClient then allowAuthRate q else ret true) w = (Ok true, w1) ->
  in_counters (Check_ (loginGuard portal) (ClientIP (Some q)) (AccountKey (normalizeEmail email))) w1
    = (Ok (true, reason, err), w2) ->
  admitted q portal email (lw_counters w).
Proof.
  intros Hrate Hck. exists (lw_counters w1), reason, err.
  unfold in_counters in Hck. destruct (Check_ _ _ _ _) as [r c'] eqn:E. injection Hck as -> _.
  exists c'. split; [|done]. destruct (String.eqb portal PortalClient); [|by injection Hrate as <-].
  unfold allowAuthRate, in_counters in Hrate. destruct (Allow _ _ _ _) as [r x].
  by injection Hrate as -> <-.
Qed.

(** C17. What a login token means: a login that answers a token was admitted,
    on the counters it found, by the rate limit (client portal) and then by the
    guard, and an undeleted account of that email exists whose password
    matched and whose role and tenant this portal accepts: only a tenantless
    super admin logs in at the admin portal, and anyone else only at the client
    portal with an active tenant.  This holds under any failures. *)
Theorem login_token_sound q portal body dummy w resp w' tok :
  serveLoginPortal q portal body dummy w = (Ok resp, w') -> token_of resp = Some tok ->
  exists email password a,
    body = Some (email, password) /\
    admitted q portal email (lw_counters w) /\
    find_account (hashForLookup (normalizeEmail email)) (lw_accounts w) = Some a /\ ac_deleted a = false /\
    CompareHashAndPassword (ac_password_hash a) password = true /\
    (portal = PortalAdmin /\ ac_role a = RoleSuperAdmin /\ TrimSpace (nullStr (ac_tenant a)) = "" \/
     portal = PortalClient /\ ac_role a <> RoleSuperAdmin /\
       exists tid schema, ac_tenant a = Some tid /\ tid <> "" /\
         active_tenant (s_db (aw_sys (lw_auth w))) tid schema).
Proof.
  intros Hrun Htok. unfold serveLoginPortal in Hrun.
  assert (forall id e res reason s m wx, (recordLoginAttempt q portal e id res reason;! ret (LoginError s m)) wx
    = (Ok resp, w') -> False) as Hno.
  { intros id e res reason s m wx [([] & ? & _ & [= <- _])|(? & _ & [=])]%bind_inv. done. }
  destruct body as [[email password]|].
  2: { change (default ("", "") None) with ("", "") in Hrun. cbv beta iota zeta in Hrun. by apply Hno in Hrun. }
  change (default ("", "") (Some (email, password))) with (email, password) in Hrun. cbv beta iota zeta in Hrun.
  destruct (String.eqb email "" || String.eqb password ""); [by apply Hno in Hrun|].
  apply (framed_bind w) in Hrun as (b & w1 & Hrate & Hw1 & Hrun);
    [|apply preserves_if; [apply framed_counters|apply preserves_ret]|done].
  destruct b; cbn [negb] in Hrun; [|by apply Hno in Hrun].
  apply (framed_bind w) in Hrun as ([[ok reason] gerr] & w2 & Hck & Hw2 & Hrun); [|apply framed_counters|done].
  destruct ok; cbn [negb] in Hrun; [|by apply Hno in Hrun].
  unfold login_lookup in Hrun. cbv zeta in Hrun.
  apply (framed_bind w) in Hrun as (found & w3 & Hfd & Hw3 & Hrun);
    [|by apply preserves_attempt, framed_db|done].
  assert (forall g acct id reason' wx, login_fail q g portal (normalizeEmail email) acct id reason' wx
    = (Ok resp, w') -> False) as Hnf.
  { intros g acct id reason' wx [([] & ? & _ & Hr)|(? & _ & [=])]%bind_inv. by apply Hno in Hr. }
  destruct found as [[a|]|e]; [| |by apply Hno in Hrun].
  2: { apply bind_inv in Hrun as [(? & ? & _ & Hr)|(? & _ & [=])]. by apply Hnf in Hr. }
  assert (find_account (hashForLookup (normalizeEmail email)) (lw_accounts w) = Some a) as Hfind.
  { rewrite <- (proj1 Hw2). revert Hfd. unfold attempt, db_call.
    destruct (default Fine _); [|done..]. by intros [= Hf _]. }
  unfold bind at 1, compare_password in Hrun.
  destruct (CompareHashAndPassword (ac_password_hash a) password) eqn:Hpw; cbn [negb] in Hrun; [|by apply Hnf in Hrun].
  destruct (CheckPortal portal (ac_role a) (nullStr (ac_tenant a))) as [kind|e] eqn:Hp; [|by apply Hnf in Hrun].
  match type of Hrun with _ ?wx = _ => assert (framed w wx) as Hwx by exact Hw3 end.
  pose proof (login_accepted_token _ _ _ _ _ _ _ _ _ _ _ w Hwx Hrun Htok) as Hacc.
  exists email, password, a. split; [done|]. split.
  { by eapply admitted_calls. }
  split; [done|]. split.
  { apply List.find_some in Hfind as [_ Hd]. by bool_facts. }
  split; [done|]. apply CheckPortal_Ok in Hp as [(-> & Hr & Ht & ->)|(-> & Hr & ->)]; [by left|right].
  split; [done|]. split; [done|]. by destruct Hacc.
Qed.
End properties.

(** ** Witnesses *)
Definition toy_bcrypt : Bcrypt := {|
  CompareHashAndPassword := String.eqb; GenerateFromPassword := fun p => Ok p |}.
Definition q0 : request := {|
  q_forwarded_for := ""; q_real_ip := ""; q_remote_addr := "10.0.0.7:4711"; q_user_agent := "curl" |}.
Definition admin_account : account := {|
  ac_id := "sa"; ac_email := "s@x"; ac_email_hash := hashForLookup "s@x"; ac_password_hash := "secret-password";
  ac_name := Some "S"; ac_role := "super_admin"; ac_tenant := None; ac_deleted := false |}.
Definition portal_world (accounts : list account) : login_world := {|
  lw_counters := Build_redis ∅ (5 * Second) [] true; lw_accounts := accounts; lw_last_login := [];
  lw_attempts := []; lw_compares := 0; lw_auth := world0 |}.
Definition serve0 (portal password : string) (accounts : list account) : result login_response * login_world :=
  serveLoginPortal (H:=toy_bcrypt) (H2:=toy_jwt) q0 portal (Some (" S@x", password)) "" (portal_world accounts).

(** the admin's correct password at the client portal looks like an unknown
    account *)
Lemma no_account_enumeration_witness :
  fst (serve0 PortalClient "secret-password" [admin_account])
  = fst (serve0 PortalClient "secret-password" []).
Proof.
  refine (proj1 (no_account_enumeration (H:=toy_bcrypt) (H2:=toy_jwt) q0 PortalClient " S@x" "secret-password" ""
    (portal_world [admin_account]) (portal_world []) _ _ _)).
  - repeat split.
  - unfold credentials_fail. vm_compute. right. eexists. reflexivity.
  - vm_compute. exact I.
Defined.

Lemma login_token_sound_witness :
  CompareHashAndPassword (Bcrypt:=toy_bcrypt) (ac_password_hash admin_account) "secret-password" = true /\
  exists tok, (match fst (serve0 PortalAdmin "secret-password" [admin_account]) with
               | Ok r => token_of r | Err _ => None end) = Some tok.
Proof.
  destruct (serve0 PortalAdmin "secret-password" [admin_account]) as [[resp|e] w'] eqn:Hrun.
  2: { exfalso. revert Hrun. vm_compute. discriminate. }
  assert (token_of resp = Some "sa:adm:admin") as Htok.
  { change resp with (match (Ok resp, w') with (Ok r, _) => r | _ => resp end). rewrite <- Hrun.
    vm_compute. reflexivity. }
  destruct (login_token_sound (H:=toy_bcrypt) (H2:=toy_jwt) q0 PortalAdmin (Some (" S@x", "secret-password")) ""
    (portal_world [admin_account]) resp w' "sa:adm:admin" Hrun Htok)
    as (email & password & a & Hb & _ & Hf & _ & Hpw & _).
  injection Hb as <- <-. assert (a = admin_account) as ->.
  { revert Hf. vm_compute. intros [= <-]. reflexivity. }
  split; [exact Hpw|]. exists "sa:adm:admin". exact Htok.
Defined.
