(* ===== verification/Bootstrap.v ===== *)
(** * The first platform admin

    Models [internal/adminauth/bootstrap.go] and [auth/platform_bootstrap.go]:
    the secret check, [RunBootstrap] as the sequence of transaction calls it
    makes, the transaction over the account table, and the HTTP handler.
    [RunBootstrap] is run by any number of concurrent callers against one
    database with Postgres' advisory lock, and by the handler alone. *)
From S2P Require Import Prelude GoStrings Sha256 Redis AdminSession LoginGuard TenantAccess Sessions.
From S2P Require Import RateLimit LoginPortal.

Open Scope string_scope.
Open Scope Z_scope.

Definition MinBootstrapSecretLen : nat := 32.
Definition ErrBootstrapDisabled : error := EText "bootstrap disabled".
Definition ErrBootstrapSecret : error := EText "invalid bootstrap secret".
Definition ErrAlreadyBootstrapped : error := EText "platform admin already exists".
Definition ErrEmailTaken : error := EText "email already registered".
Definition ErrBootstrapInput : error := EText "email, name and password (min 12 chars) are required".

(** [None]: the secret is accepted *)
Definition CheckBootstrapSecret (configured provided : string) : option error :=
  let configured := TrimSpace configured in
  if (String.length configured <? MinBootstrapSecretLen)%nat then Some ErrBootstrapDisabled
  else
    let a := Sum256 configured in
    let b := Sum256 (TrimSpace provided) in
    if negb (bool_decide (a = b)) || String.eqb (TrimSpace provided) "" then Some ErrBootstrapSecret
    else None.

Record BootstrapInput := { BI_Email : string; BI_Name : string; BI_Password : string }.
Definition Valid (inp : BootstrapInput) : bool :=
  Contains (BI_Email inp) "@" && negb (String.eqb (TrimSpace (BI_Name inp)) "")
  && (12 <=? String.length (BI_Password inp))%nat.

(** ** [RunBootstrap]: the calls on its transaction, in order *)
Inductive boot : Type :=
  | BDone (r : result string)
  | BLock (next : option error -> boot)
  | BPlatformAdminExists (next : result bool -> boot)
  | BEmailTaken (email : string) (next : result bool -> boot)
  | BCreateAdmin (email name password : string) (next : result string -> boot)
  | BCommit (next : option error -> boot)
  | BRollback (next : unit -> boot).

(** the deferred rollback of a return before [committed] is set *)
Definition not_committed (e : error) : boot := BRollback (fun _ => BDone (Err e)).

Definition RunBootstrap (inp : BootstrapInput) : boot :=
  if negb (Valid inp) then not_committed ErrBootstrapInput
  else BLock (fun err =>
    match err with
    | Some e => not_committed e
    | None => BPlatformAdminExists (fun exists_ =>
        match exists_ with
        | Err e => not_committed e
        | Ok true => not_committed ErrAlreadyBootstrapped
        | Ok false => BEmailTaken (BI_Email inp) (fun taken =>
            match taken with
            | Err e => not_committed e
            | Ok true => not_committed ErrEmailTaken
            | Ok false => BCreateAdmin (BI_Email inp) (BI_Name inp) (BI_Password inp) (fun id =>
                match id with
                | Err e => not_committed e
                | Ok id => BCommit (fun err =>
                    match err with
                    | Some e => not_committed e
                    | None => BDone (Ok id)
                    end)
                end)
            end)
        end)
    end).

(** ** The statements of [bootstrapTx] *)
(** role = super_admin AND tenant_id IS NULL AND deleted_at IS NULL *)
Definition platform_admin (a : account) : bool :=
  String.eqb (ac_role a) roleSuperAdmin && bool_decide (ac_tenant a = None) && negb (ac_deleted a).
Definition PlatformAdminExists (rows : list account) : bool := existsb platform_admin rows.
Definition EmailTaken (email : string) (rows : list account) : bool :=
  bool_decide (is_Some (find_account (hashForLookup email) rows)).
(** the unique index on email_hash counts deleted rows too *)
Definition hash_used (hash : string) (rows : list account) : bool :=
  existsb (fun a => String.eqb (ac_email_hash a) hash) rows.
Definition new_admin (id email name hash : string) : account := {|
  ac_id := id; ac_email := email; ac_email_hash := hashForLookup email; ac_password_hash := hash;
  ac_name := Some name; ac_role := roleSuperAdmin; ac_tenant := None; ac_deleted := false |}.

(** ** Concurrent callers

    The database: committed accounts and the holder of the advisory lock.  A
    caller has its uncommitted rows.  Every call can fail, before or after
    taking effect; a failed or finished transaction is over, its lock
    released. *)
Record bootdb := { committed : list account; lock : option nat }.
Definition unlock (i : nat) (l : option nat) : option nat :=
  if decide (l = Some i) then None else l.
Definition caller : Type := list account * boot.

Inductive call_step (i : nat) : bootdb -> caller -> bootdb -> caller -> Prop :=
  | lock_taken d pend next err : lock d = None ->
      call_step i d (pend, BLock next) {| committed := committed d; lock := Some i |} (pend, next err)
  | lock_fails d pend next e : call_step i d (pend, BLock next) d (pend, next (Some e))
  | exists_read d pend next :
      call_step i d (pend, BPlatformAdminExists next) d
        (pend, next (Ok (PlatformAdminExists (committed d ++ pend)%list)))
  | exists_fails d pend next e :
      call_step i d (pend, BPlatformAdminExists next) d (pend, next (Err e))
  | taken_read d pend email next :
      call_step i d (pend, BEmailTaken email next) d
        (pend, next (Ok (EmailTaken email (committed d ++ pend)%list)))
  | taken_fails d pend email next e :
      call_step i d (pend, BEmailTaken email next) d (pend, next (Err e))
  | create_inserts d pend email name password hash id next r :
      hash_used (hashForLookup email) (committed d ++ pend)%list = false ->
      (forall id', r = Ok id' -> id' = id) ->
      call_step i d (pend, BCreateAdmin email name password next) d
        ((pend ++ [new_admin id email name hash])%list, next r)
  | create_fails d pend email name password next e :
      call_step i d (pend, BCreateAdmin email name password next) d (pend, next (Err e))
  | commit_done d pend next err :
      call_step i d (pend, BCommit next)
        {| committed := (committed d ++ pend)%list; lock := unlock i (lock d) |} ([], next err)
  | commit_fails d pend next e :
      call_step i d (pend, BCommit next)
        {| committed := committed d; lock := unlock i (lock d) |} ([], next (Some e))
  | rolled_back d pend next :
      call_step i d (pend, BRollback next)
        {| committed := committed d; lock := unlock i (lock d) |} ([], next tt).

(** any caller makes its next call; callers arrive; other requests add
    accounts that are no platform admins (registrations, team members) *)
Definition system : Type := bootdb * list caller.
Inductive step : system -> system -> Prop :=
  | step_call d cs i c d' c' :
      cs !! i = Some c -> call_step i d c d' c' -> step (d, cs) (d', <[i := c']> cs)
  | step_arrive d cs inp : step (d, cs) (d, (cs ++ [([], RunBootstrap inp)])%list)
  | step_other d cs a : platform_admin a = false ->
      step (d, cs) ({| committed := (committed d ++ [a])%list; lock := lock d |}, cs).
Definition admins (d : bootdb) : list account := List.filter platform_admin (committed d).

(** ** The handler, on the account table *)
Section handler.
Context `{Bcrypt} `{GoJson} `{PgArray} `{JwtLib}.

Definition add_accounts (l : list account) (w : login_world) : login_world :=
  {| lw_counters := lw_counters w; lw_accounts := (lw_accounts w ++ l)%list;
     lw_last_login := lw_last_login w; lw_attempts := lw_attempts w; lw_compares := lw_compares w;
     lw_auth := lw_auth w |}.
Definition error_of {A} (r : result A) : option error := match r with Ok _ => None | Err e => Some e end.

(** the transaction of one caller: [pend] is not yet committed *)
Fixpoint run_tx (p : boot) (pend : list account) : prog login_world (result string) :=
  match p with
  | BDone r => ret r
  | BLock next =>
      let! r := attempt (db_call (fun w => (Ok tt, w))) in run_tx (next (error_of r)) pend
  | BPlatformAdminExists next =>
      let! r := attempt (db_call (fun w => (Ok (PlatformAdminExists (lw_accounts w ++ pend)%list), w))) in
      run_tx (next r) pend
  | BEmailTaken email next =>
      let! r := attempt (db_call (fun w => (Ok (EmailTaken email (lw_accounts w ++ pend)%list), w))) in
      run_tx (next r) pend
  | BCreateAdmin email name password next =>
      match GenerateFromPassword password with
      | Err e => run_tx (next (Err e)) pend
      | Ok hash =>
          let! id := in_auth (in_sys fresh_id) in
          let! r := attempt (db_call (fun w =>
            (if hash_used (hashForLookup email) (lw_accounts w ++ pend)%list
             then Err (EText "duplicate key value violates unique constraint") else Ok id, w))) in
          run_tx (next r) (match r with Ok id => (pend ++ [new_admin id email name hash])%list | Err _ => pend end)
      end
  | BCommit next =>
      let! r := attempt (db_call (fun w => (Ok tt, add_accounts pend w))) in
      run_tx (next (error_of r)) []
  | BRollback next => run_tx (next tt) []
  end.

Definition portalBootstrap : string := "bootstrap".
(** status and body: an error, or the created account's id and email *)
Inductive boot_response : Type :=
  | BootError (status : Z) (msg : string)
  | BootCreated (accountID email : string).

(** from the start of the transaction on *)
Definition bootstrap_run (q : request) (inp : BootstrapInput) : prog login_world boot_response :=
  let record := recordLoginAttempt q portalBootstrap in
  let! begun := attempt (db_call (fun w => (Ok tt, w))) in
  match begun with
  | Err _ => ret (BootError 500 "db error")
  | Ok _ =>
      let! r := run_tx (RunBootstrap inp) [] in
      match r with
      | Ok id =>
          record (BI_Email inp) id ResultSuccess ReasonOK;!
          in_auth (in_sys (record_effect (Audit "" id "platform_admin.bootstrap" id
            [("email", BI_Email inp)])));!
          ret (BootCreated id (BI_Email inp))
      | Err err =>
          if errors_Is err ErrAlreadyBootstrapped then
            record (BI_Email inp) "" ResultFailure "bootstrap_already_done";!
            ret (BootError 409 "platform admin already exists")
          else if errors_Is err ErrEmailTaken then
            record (BI_Email inp) "" ResultFailure "email_taken";!
            ret (BootError 409 "Email sudah terdaftar")
          else
            record (BI_Email inp) "" ResultFailure ReasonInternal;!
            ret (BootError 500 "create account failed")
      end
  end.

(** [configured]: the Encore secret; [provided]: the header; [body]: the parsed
    request, [None] when parsing failed *)
Definition BootstrapPlatformAdmin (q : request) (configured provided : string)
    (body : option BootstrapInput) : prog login_world boot_response :=
  let ip := ClientIP (Some q) in
  let g := {| G_S := true; G_P := BootstrapPolicy |} in
  let acct := "bootstrap" in
  let record := recordLoginAttempt q portalBootstrap in
  let! checked := in_counters (Check_ g ip acct) in
  let '(ok, reason, gerr) := checked in
  let status := CheckStatus g ok gerr in
  if Z.eqb status StatusServiceUnavailable then
    record "" "" ResultBlocked "store_unavailable";!
    ret (BootError StatusServiceUnavailable "temporarily unavailable")
  else if Z.eqb status StatusTooManyRequests then
    record "" "" ResultBlocked reason;! ret (BootError StatusTooManyRequests "too many attempts")
  else
    match CheckBootstrapSecret configured provided with
    | Some err =>
        let r := if errors_Is err ErrBootstrapDisabled then "bootstrap_disabled"
                 else "bootstrap_secret_invalid" in
        ignore (in_counters (Fail_ g ip acct));!
        record "" "" ResultFailure r;! ret (BootError 403 "forbidden")
    | None =>
        let b := default {| BI_Email := ""; BI_Name := ""; BI_Password := "" |} body in
        let inp := {| BI_Email := normalizeEmail (BI_Email b); BI_Name := TrimSpace (BI_Name b);
                      BI_Password := BI_Password b |} in
        if bool_decide (body = None) || negb (Valid inp) then
          record (BI_Email inp) "" ResultFailure ReasonBadRequest;!
          ret (BootError 400 (error_text ErrBootstrapInput))
        else
          bootstrap_run q inp
    end.
End handler.

(** ** Lemmas: where a caller of [RunBootstrap] can be *)
Definition at_commit (id : string) : boot :=
  BCommit (fun err => match err with Some e => not_committed e | None => BDone (Ok id) end).
Definition at_create (inp : BootstrapInput) : boot :=
  BCreateAdmin (BI_Email inp) (BI_Name inp) (BI_Password inp)
    (fun id => match id with Err e => not_committed e | Ok id => at_commit id end).
Definition at_taken (inp : BootstrapInput) : boot :=
  BEmailTaken (BI_Email inp) (fun taken =>
    match taken with
    | Err e => not_committed e
    | Ok true => not_committed ErrEmailTaken
    | Ok false => at_create inp
    end).
Definition at_exists (inp : BootstrapInput) : boot :=
  BPlatformAdminExists (fun exists_ =>
    match exists_ with
    | Err e => not_committed e
    | Ok true => not_committed ErrAlreadyBootstrapped
    | Ok false => at_taken inp
    end).

Inductive phase : Type :=
  | PhLock (inp : BootstrapInput)
  | PhExists (inp : BootstrapInput)
  | PhTaken (inp : BootstrapInput)
  | PhCreate (inp : BootstrapInput)
  | PhCommit (id : string) (row : account)
  | PhRollback (pend : list account) (e : error)
  | PhDone (r : result string).

Definition caller_of (p : phase) : caller :=
  match p with
  | PhLock inp => ([], BLock (fun err => match err with Some e => not_committed e | None => at_exists inp end))
  | PhExists inp => ([], at_exists inp)
  | PhTaken inp => ([], at_taken inp)
  | PhCreate inp => ([], at_create inp)
  | PhCommit id row => ([row], at_commit id)
  | PhRollback pend e => (pend, not_committed e)
  | PhDone r => ([], BDone r)
  end.
(** inside the critical section; past the existence check *)
Definition holding (p : phase) : Prop :=
  match p with PhExists _ | PhTaken _ | PhCreate _ | PhCommit _ _ => True | _ => False end.
Definition checked (p : phase) : Prop :=
  match p with PhTaken _ | PhCreate _ | PhCommit _ _ => True | _ => False end.
Definition row_ok (p : phase) : Prop :=
  match p with PhCommit id row => platform_admin row = true /\ ac_id row = id | _ => True end.
Lemma checked_holding p : checked p -> holding p.
Proof. by destruct p. Qed.

Lemma start_phase inp : exists p, ([], RunBootstrap inp) = caller_of p /\ ~ holding p /\
  row_ok p /\ (forall id, p <> PhDone (Ok id)).
Proof.
  unfold RunBootstrap. destruct (negb (Valid inp)).
  - exists (PhRollback [] ErrBootstrapInput). split_and!; [done|by intros []|done|done].
  - exists (PhLock inp). split_and!; [done|by intros []|done|done].
Qed.

(** what one call does to the database and to its caller *)
Inductive moved (i : nat) (d : bootdb) (p : phase) : bootdb -> phase -> Prop :=
  | mv_lock p' : lock d = None -> ~ checked p' -> row_ok p' -> (forall id, p' <> PhDone (Ok id)) ->
      moved i d p {| committed := committed d; lock := Some i |} p'
  | mv_stay p' : (holding p' -> holding p) ->
      (checked p' -> checked p \/ holding p /\ admins d = []) -> row_ok p' ->
      (forall id, p' <> PhDone (Ok id)) -> moved i d p d p'
  | mv_commit id row p' : p = PhCommit id row -> ~ holding p' -> row_ok p' ->
      (forall id', p' = PhDone (Ok id') -> id' = id) ->
      moved i d p {| committed := (committed d ++ [row])%list; lock := unlock i (lock d) |} p'
  | mv_end p' : ~ holding p' -> row_ok p' -> (forall id, p' <> PhDone (Ok id)) ->
      moved i d p {| committed := committed d; lock := unlock i (lock d) |} p'.

Lemma exists_false rows : PlatformAdminExists rows = false -> List.filter platform_admin rows = [].
Proof. apply existsb_false_filter. Qed.

Lemma new_admin_platform id email name hash : platform_admin (new_admin id email name hash) = true.
Proof. unfold platform_admin. cbn [new_admin ac_role ac_tenant ac_deleted]. by rewrite String.eqb_refl. Qed.

Ltac easy_phase := first [done|by intros []|by left|by intros; left].

Lemma boot_phase_step i d p d' c' :
  row_ok p -> call_step i d (caller_of p) d' c' -> exists p', c' = caller_of p' /\ moved i d p d' p'.
Proof.
  intros Hrow Hc. destruct p as [inp|inp|inp|inp|id row|pend e|r]; cbn [caller_of] in Hc;
    inversion Hc; subst; clear Hc.
  - destruct err as [e|]; [exists (PhRollback [] e)|exists (PhExists inp)]; (split; [done|]); apply mv_lock; easy_phase.
  - exists (PhRollback [] e). split; [done|]. apply mv_stay; easy_phase.
  - rewrite app_nil_r. destruct (PlatformAdminExists (committed d')) eqn:E.
    + exists (PhRollback [] ErrAlreadyBootstrapped). split; [done|]. apply mv_stay; easy_phase.
    + exists (PhTaken inp). split; [done|]. apply mv_stay; [done| |done..]. right. split; [done|]. by apply exists_false.
  - exists (PhRollback [] e). split; [done|]. apply mv_stay; easy_phase.
  - rewrite app_nil_r. destruct (EmailTaken _ _).
    + exists (PhRollback [] ErrEmailTaken). split; [done|]. apply mv_stay; easy_phase.
    + exists (PhCreate inp). split; [done|]. apply mv_stay; easy_phase.
  - exists (PhRollback [] e). split; [done|]. apply mv_stay; easy_phase.
  - destruct r as [id'|e].
    + assert (id' = id) as -> by auto.
      exists (PhCommit id (new_admin id (BI_Email inp) (BI_Name inp) hash)). split; [done|].
      apply mv_stay; [done|by left| |done]. split; [apply new_admin_platform|done].
    + exists (PhRollback [new_admin id (BI_Email inp) (BI_Name inp) hash] e). split; [done|]. apply mv_stay; easy_phase.
  - exists (PhRollback [] e). split; [done|]. apply mv_stay; easy_phase.
  - exists (match err with Some e => PhRollback [] e | None => PhDone (Ok id) end).
    split; [by destruct err|]. apply (mv_commit _ _ _ id row); [done|by destruct err; intros []|by destruct err|].
    destruct err; [done|]. by intros id' [= ->].
  - exists (PhRollback [] e). split; [done|]. apply mv_end; easy_phase.
  - exists (PhDone (Err e)). split; [done|]. apply mv_end; easy_phase.
Qed.

Record boot_inv (d : bootdb) (ps : list phase) : Prop := {
  bi_rows : Forall row_ok ps;
  bi_hold : forall i p, ps !! i = Some p -> holding p -> lock d = Some i;
  bi_none : forall i p, ps !! i = Some p -> checked p -> admins d = [];
  bi_one : (length (admins d) <= 1)%nat;
  bi_done : forall i id, ps !! i = Some (PhDone (Ok id)) -> exists a, admins d = [a] /\ ac_id a = id;
  bi_unique : forall i j id id', ps !! i = Some (PhDone (Ok id)) -> ps !! j = Some (PhDone (Ok id')) -> i = j
}.

Lemma unlock_other i j l : unlock i l = Some j <-> l = Some j /\ i <> j.
Proof. unfold unlock. destruct (decide (l = Some i)) as [->|]; naive_solver. Qed.

(** a lookup after replacing one phase *)
Lemma replaced {A} (ps : list A) i j p p' x :
  ps !! i = Some p -> <[i := p']> ps !! j = Some x -> (j = i /\ x = p') \/ (j <> i /\ ps !! j = Some x).
Proof.
  intros Hi. destruct (decide (i = j)) as [<-|Hne].
  - rewrite list_lookup_insert_eq by (by eapply lookup_lt_Some). intros [= ->]. by left.
  - rewrite list_lookup_insert_ne by done. auto.
Qed.

(** a move that leaves the accounts alone and hands the lock to nobody else *)
Lemma boot_inv_quiet d ps i p p' l :
  boot_inv d ps -> ps !! i = Some p -> row_ok p' -> (forall id, p' <> PhDone (Ok id)) ->
  (forall j q, ps !! j = Some q -> j <> i -> holding q -> l = Some j) ->
  (holding p' -> l = Some i) -> (checked p' -> admins d = []) ->
  boot_inv {| committed := committed d; lock := l |} (<[i := p']> ps).
Proof.
  intros [Hr Hh Hn Ho Hd Hu] Hi Hrow Hnd Hl Hl' Hc. split; cbn [lock].
  - by apply Forall_insert.
  - intros j q [[-> ->]|[Hne Hj]]%(replaced _ _ _ _ _ _ Hi); eauto.
  - intros j q [[-> ->]|[Hne Hj]]%(replaced _ _ _ _ _ _ Hi); [exact Hc|]. by apply (Hn j).
  - exact Ho.
  - intros j id [[_ E]|[Hne Hj]]%(replaced _ _ _ _ _ _ Hi); [by destruct (Hnd id)|]. by apply (Hd j).
  - intros j k id id' [[_ E]|[Hne Hj]]%(replaced _ _ _ _ _ _ Hi) [[_ E']|[Hne' Hk]]%(replaced _ _ _ _ _ _ Hi);
      [by destruct (Hnd id)|by destruct (Hnd id)|by destruct (Hnd id')|]. by eapply Hu.
Qed.

Lemma boot_inv_moved d ps i p d' p' :
  boot_inv d ps -> ps !! i = Some p -> moved i d p d' p' -> boot_inv d' (<[i := p']> ps).
Proof.
  intros Hinv Hi Hm. destruct (Hinv) as [Hr Hh Hn Ho Hd Hu].
  destruct Hm as [p' Hl Hnc Hrow Hnd|p' Hh' Hc' Hrow Hnd|id row p' -> Hnh Hrow Hid|p' Hnh Hrow Hnd].
  - apply (boot_inv_quiet _ _ _ p); try done. intros j q Hj _ Hq. specialize (Hh j q Hj Hq). congruence.
  - destruct d as [com l]. apply (boot_inv_quiet {| committed := com; lock := l |} _ _ p); try done.
    + intros j q Hj _ Hq. by apply (Hh j q).
    + intros Hq. apply (Hh i p); auto.
    + intros Hq. destruct (Hc' Hq) as [Hcp|[_ ->]]; [by apply (Hn i p)|done].
  - specialize (Hn i _ Hi I) as Hempty. pose proof (Hh i _ Hi I) as Hlock.
    rewrite Forall_lookup in Hr. destruct (Hr i _ Hi) as [Hpa Hidr].
    assert (admins {| committed := (committed d ++ [row])%list; lock := unlock i (lock d) |} = [row]) as Hadm.
    { unfold admins in *. cbn. rewrite List.filter_app, Hempty. cbn. by rewrite Hpa. }
    assert (forall j id', ps !! j <> Some (PhDone (Ok id'))) as Hno.
    { intros j id' Hj. destruct (Hd j id' Hj) as (a & Ha & _). congruence. }
    assert (forall j q, ps !! j = Some q -> j <> i -> ~ holding q) as Hnhold.
    { intros j q Hj Hne Hq. specialize (Hh j q Hj Hq). congruence. }
    split; rewrite ?Hadm; [|intros j q Hj Hq..|done| |].
    + apply Forall_insert; [by apply Forall_lookup|done].
    + apply (replaced _ _ _ _ _ _ Hi) in Hj as [[-> ->]|[Hne Hj]]; [done|by destruct (Hnhold j q)].
    + apply checked_holding in Hq.
      apply (replaced _ _ _ _ _ _ Hi) in Hj as [[-> ->]|[Hne Hj]]; [done|by destruct (Hnhold j q)].
    + intros j id' [[-> E]|[Hne Hj]]%(replaced _ _ _ _ _ _ Hi); [|by apply Hno in Hj].
      exists row. split; [done|]. by rewrite (Hid id' (eq_sym E)).
    + intros j k id1 id2 [[-> E]|[Hne Hj]]%(replaced _ _ _ _ _ _ Hi); [|by apply Hno in Hj].
      intros [[-> E2]|[Hne2 Hj2]]%(replaced _ _ _ _ _ _ Hi); [done|by apply Hno in Hj2].
  - apply (boot_inv_quiet _ _ _ p); try done.
    + intros j q Hj Hne Hq. apply unlock_other. split; [by apply (Hh j q)|done].
    + intros Hq. by apply checked_holding in Hq.
Qed.

Lemma boot_reachable_inv d0 d cs :
  admins d0 = [] -> rtc step (d0, []) (d, cs) -> exists ps, cs = map caller_of ps /\ boot_inv d ps.
Proof.
  intros H0 Hr.
  apply (rtc_ind_r (fun s : system => exists ps, snd s = map caller_of ps /\ boot_inv (fst s) ps) (d0, [])) in Hr;
    [done| |].
  - exists []. split; [done|]. split; try done. cbn [fst]. rewrite H0. cbn. lia.
  - clear d cs Hr. intros [d1 cs1] [d cs] _ Hs (ps & Hcs & Hinv). cbn [fst snd] in *. subst cs1.
    inversion Hs; subst; clear Hs.
    + rename select (map _ _ !! _ = _) into H3. rename select (call_step _ _ _ _ _) into H4.
      rewrite list_lookup_fmap in H3. destruct (ps !! i) as [p|] eqn:Hi; [|done]. injection H3 as <-.
      destruct (boot_phase_step i _ p _ _ (proj1 (Forall_lookup _ _) (bi_rows _ _ Hinv) i p Hi) H4) as (p' & -> & Hm).
      exists (<[i := p']> ps). split; [by rewrite list_fmap_insert|]. by eapply boot_inv_moved.
    + destruct (start_phase inp) as (p & -> & Hnh & Hrow & Hnd). exists (ps ++ [p])%list.
      split; [by rewrite map_app|]. destruct Hinv as [Hr' Hh Hn Ho Hd Hu].
      assert (forall i q, (ps ++ [p])%list !! i = Some q -> q = p \/ ps !! i = Some q) as Hl.
      { intros i q [?|[_ Hq]]%lookup_app_Some; [by right|]. left.
        destruct (i - length ps)%nat; cbn in Hq; [by injection Hq|done]. }
      split; try done.
      * apply Forall_app. by split; [|constructor].
      * intros i q [->|Hq]%Hl; [done|by apply (Hh i)].
      * intros i q [->|Hq]%Hl Hcq; [by apply checked_holding in Hcq|by apply (Hn i q)].
      * intros i id [E|Hq]%Hl; [by destruct (Hnd id)|by apply (Hd i)].
      * intros i j id id' [E|Hq]%Hl [E'|Hq']%Hl; [by destruct (Hnd id)|by destruct (Hnd id)|by destruct (Hnd id')|].
        by eapply Hu.
    + exists ps. split; [done|]. assert (admins {| committed := (committed d1 ++ [a])%list; lock := lock d1 |} = admins d1) as E.
      { unfold admins. cbn. rewrite List.filter_app. cbn. rename select (platform_admin a = false) into H4. by rewrite H4, app_nil_r. }
      destruct Hinv as [Hr' Hh Hn Ho Hd Hu]. by split; rewrite ?E.
Qed.

(** *** The transaction and the handler, on the account table *)
Section handler_lemmas.
Context `{Bcrypt} `{GoJson} `{PgArray} `{JwtLib}.

Definition rows_are (l : list account) (w : login_world) : Prop := lw_accounts w = l.
Lemma rows_db {A} l (f : login_world -> result A * login_world) :
  (forall w, lw_accounts (snd (f w)) = lw_accounts w) -> preserves (rows_are l) (db_call f).
Proof.
  intros Hf w Hw. unfold db_call. set (r := set_auth _ w).
  assert (lw_accounts r = l) as Hr by done. specialize (Hf r). unfold rows_are.
  destruct (default Fine _); cbn [snd]; congruence.
Qed.
Lemma rows_auth {A} l (m : prog auth_world A) : preserves (rows_are l) (in_auth m).
Proof. intros w Hw. unfold in_auth. by destruct (m (lw_auth w)). Qed.
Lemma rows_counters {A} l (m : prog (redis Z) A) : preserves (rows_are l) (in_counters m).
Proof. intros w Hw. unfold in_counters. by destruct (m (lw_counters w)). Qed.
Lemma rows_record l q portal email id res reason :
  preserves (rows_are l) (recordLoginAttempt q portal email id res reason).
Proof.
  apply preserves_bind; [apply rows_auth|]. intros now. by apply preserves_ignore, rows_db.
Qed.
Lemma rows_respond {A} l q portal email id res reason (a : A) :
  preserves (rows_are l) (recordLoginAttempt q portal email id res reason;! ret a).
Proof. apply preserves_bind; [apply rows_record|intros; apply preserves_ret]. Qed.

(** a read of the account table *)
Lemma read_rows {A} (f : login_world -> A) w r w' :
  (forall x w, f (set_auth x w) = f w) -> attempt (db_call (fun w => (Ok (f w), w))) w = (r, w') ->
  lw_accounts w' = lw_accounts w /\ (exists a, r = Ok a /\ (forall x, a = Ok x -> x = f w)).
Proof.
  intros Hf. unfold attempt, db_call. rewrite Hf. destruct (default Fine _); intros [= <- <-]; (split; [done|]);
    eexists; (split; [done|]); by try intros x [= ->].
Qed.

(** what a transaction of [RunBootstrap] leaves in the table *)
Definition bootstrapped (inp : BootstrapInput) (rows rows' : list account) (id hash : string) : Prop :=
  Valid inp = true /\ PlatformAdminExists rows = false /\ EmailTaken (BI_Email inp) rows = false /\
  hash_used (hashForLookup (BI_Email inp)) rows = false /\
  GenerateFromPassword (BI_Password inp) = Ok hash /\
  rows' = (rows ++ [new_admin id (BI_Email inp) (BI_Name inp) hash])%list.

Lemma run_tx_rows inp w r w' :
  run_tx (RunBootstrap inp) [] w = (r, w') ->
  (exists e, r = Ok (Err e)) /\ lw_accounts w' = lw_accounts w \/
  (exists id hash, bootstrapped inp (lw_accounts w) (lw_accounts w') id hash /\
     (r = Ok (Ok id) \/ exists e, r = Ok (Err e))).
Proof.
  unfold RunBootstrap. destruct (Valid inp) eqn:Hv; cbn [negb].
  2: { intros [= <- <-]. left. by split; [eexists|]. }
  cbn [run_tx]. intros [(l & w1 & Hl & Hrun)|(e & Hl & _)]%bind_inv.
  2: { unfold attempt in Hl. by destruct (db_call _ w). }
  assert (lw_accounts w1 = lw_accounts w) as Hw1.
  { change w1 with (snd (Ok l, w1)). rewrite <- Hl. apply (preserves_attempt (rows_are _)); [|done]. by apply rows_db. }
  destruct l as [l|e]; cbn [error_of] in Hrun; [|injection Hrun as <- <-; left; by split; [eexists|]].
  cbn [run_tx] in Hrun. apply bind_inv in Hrun as [(x & w2 & Hx & Hrun)|(e & Hx & _)].
  2: { unfold attempt in Hx. by destruct (db_call _ w1). }
  apply (read_rows (fun w => PlatformAdminExists (lw_accounts w ++ [])%list)) in Hx as [Hw2 (x' & [= ->] & Hx)]; [|done].
  destruct x' as [[]|e]; [injection Hrun as <- <-; left; split; [by eexists|congruence]| |
    injection Hrun as <- <-; left; split; [by eexists|congruence]].
  specialize (Hx false eq_refl). cbn [run_tx] in Hrun.
  apply bind_inv in Hrun as [(y & w3 & Hy & Hrun)|(e & Hy & _)].
  2: { unfold attempt in Hy. by destruct (db_call _ w2). }
  apply (read_rows (fun w => EmailTaken (BI_Email inp) (lw_accounts w ++ [])%list)) in Hy as [Hw3 (y' & [= ->] & Hy)]; [|done].
  destruct y' as [[]|e]; [injection Hrun as <- <-; left; split; [by eexists|congruence]| |
    injection Hrun as <- <-; left; split; [by eexists|congruence]].
  specialize (Hy false eq_refl). cbn [run_tx] in Hrun. rewrite app_nil_r in Hx, Hy.
  destruct (GenerateFromPassword (BI_Password inp)) as [hash|e] eqn:Hg;
    [|injection Hrun as <- <-; left; split; [by eexists|congruence]].
  apply bind_inv in Hrun as [(id & w4 & Hid & Hrun)|(e & [= ] & _)].
  assert (lw_accounts w4 = lw_accounts w3) as Hw4 by (by injection Hid as _ <-).
  apply bind_inv in Hrun as [(c & w5 & Hc & Hrun)|(e & Hc & _)].
  2: { unfold attempt in Hc. by destruct (db_call _ w4). }
  assert (lw_accounts w5 = lw_accounts w4 /\ (forall i, c = Ok i -> i = id /\
    hash_used (hashForLookup (BI_Email inp)) (lw_accounts w4) = false)) as [Hw5 Hused].
  { revert Hc. unfold attempt, db_call. rewrite app_nil_r.
    change (lw_accounts (set_auth _ w4)) with (lw_accounts w4).
    destruct (default Fine _); [|by intros [= <- <-]..].
    destruct (hash_used _ _); intros [= <- <-]; (split; [done|]); [done|]. by intros i [= ->]. }
  assert (lw_accounts w5 = lw_accounts w) as Hrows by congruence.
  destruct c as [i|e]; [|injection Hrun as <- <-; left; by split; [eexists|]].
  destruct (Hused i eq_refl) as [-> Hu]. cbn [run_tx app] in Hrun.
  apply bind_inv in Hrun as [(k & w6 & Hk & Hrun)|(e & Hk & _)].
  2: { unfold attempt in Hk. by destruct (db_call _ w5). }
  assert (bootstrapped inp (lw_accounts w) (lw_accounts w ++ [new_admin id (BI_Email inp) (BI_Name inp) hash])%list id hash)
    as Hb by (split_and!; congruence).
  revert Hk. unfold attempt, db_call. destruct (default Fine _); intros [= <- <-]; cbn in Hrun; injection Hrun as <- <-;
    cbn [lw_accounts add_accounts set_auth]; rewrite Hrows.
  - right. exists id, hash. split; [done|]. by left.
  - left. by split; [eexists|].
  - right. exists id, hash. split; [done|]. right. by eexists.
Qed.

(** answers that leave the table alone are no success *)
Lemma respond_error l q portal email id res reason s t w r w' :
  (lw_accounts w' <> l \/ exists id email, r = Ok (BootCreated id email)) -> lw_accounts w = l ->
  (recordLoginAttempt q portal email id res reason;! ret (BootError s t)) w = (r, w') -> False.
Proof.
  intros Hch Hw Hrun. destruct Hch as [Hch|(? & ? & ->)].
  - apply Hch. pose proof (rows_respond l q portal email id res reason (BootError s t) w Hw) as Hp.
    by rewrite Hrun in Hp.
  - by apply bind_inv in Hrun as [([] & ? & _ & [=])|(e & _ & [=])].
Qed.

Lemma bootstrap_run_rows q inp w r w' :
  bootstrap_run q inp w = (r, w') ->
  (lw_accounts w' <> lw_accounts w \/ exists id email, r = Ok (BootCreated id email)) ->
  exists id hash, bootstrapped inp (lw_accounts w) (lw_accounts w') id hash /\
    (forall id' email', r = Ok (BootCreated id' email') -> id' = id /\ email' = BI_Email inp).
Proof.
  intros Hrun Hch. unfold bootstrap_run in Hrun. cbv zeta in Hrun.
  apply bind_inv in Hrun as [(begun & w2 & Hbg & Hrun)|(e & Hbg & _)].
  2: { unfold attempt in Hbg. by destruct (db_call _ w). }
  assert (lw_accounts w2 = lw_accounts w) as Hw2.
  { change w2 with (snd (Ok begun, w2)). rewrite <- Hbg. apply (preserves_attempt (rows_are _)); [|done]. by apply rows_db. }
  destruct begun as [[]|e].
  2: { injection Hrun as <- <-. exfalso. by destruct Hch as [?|(? & ? & ?)]. }
  apply bind_inv in Hrun as [(tx & w3 & Htx & Hrun)|(e & Htx & _)]; apply run_tx_rows in Htx.
  2: { by destruct Htx as [[[? [=]] _]|(? & ? & _ & [[=]|[? [=]]])]. }
  rewrite Hw2 in Htx. destruct Htx as [[[e [= ->]] Hsame]|(id & hash & Hb & Hr)].
  { exfalso. destruct (errors_Is e ErrAlreadyBootstrapped); [by eapply respond_error in Hrun|].
    destruct (errors_Is e ErrEmailTaken); by eapply respond_error in Hrun. }
  exists id, hash. match type of Hrun with ?m w3 = _ => assert (preserves (rows_are (lw_accounts w3)) m) as Hpm end.
  { destruct tx as [id'|e].
    - apply preserves_bind; [apply rows_record|intros _].
      apply preserves_bind; [apply rows_auth|intros; apply preserves_ret].
    - repeat (apply preserves_if; [apply rows_respond|]). apply rows_respond. }
  specialize (Hpm w3 eq_refl). rewrite Hrun in Hpm. unfold rows_are in Hpm. cbn [snd] in Hpm. rewrite Hpm.
  split; [done|]. intros id' email' ->. destruct tx as [id2|e].
  - apply bind_inv in Hrun as [([] & ? & _ & Hrun)|(? & _ & [=])].
    apply bind_inv in Hrun as [([] & ? & _ & [= <- <- _])|(? & _ & [=])].
    by destruct Hr as [[= ->]|[? [=]]].
  - exfalso. destruct (errors_Is e ErrAlreadyBootstrapped); [|destruct (errors_Is e ErrEmailTaken)];
      by apply bind_inv in Hrun as [([] & ? & _ & [=])|(? & _ & [=])].
Qed.

Lemma CheckBootstrapSecret_None configured provided :
  CheckBootstrapSecret configured provided = None ->
  (32 <= String.length (TrimSpace configured))%nat /\
  Sum256 (TrimSpace configured) = Sum256 (TrimSpace provided) /\ TrimSpace provided <> "".
Proof.
  unfold CheckBootstrapSecret. cbv zeta. intros Hsec.
  destruct (String.length (TrimSpace configured) <? MinBootstrapSecretLen)%nat eqn:El; [done|].
  apply Nat.ltb_ge in El. destruct (negb _ || _) eqn:Es; [done|].
  by apply orb_false_iff in Es as [Es1%negb_false_iff%bool_decide_eq_true_1 Es2%String.eqb_neq].
Qed.
End handler_lemmas.

(** ** Properties *)

(** C18. At most one first admin: from a database without a platform admin, in
    any interleaving of any number of bootstrap callers (with other requests
    adding ordinary accounts, and every call failing before or after taking
    effect), at most one platform admin is ever committed, at most one caller
    reports success, and it reports the id of that admin. *)
Theorem bootstrap_once d0 d cs :
  admins d0 = [] -> rtc step (d0, []) (d, cs) ->
  (length (admins d) <= 1)%nat /\
  forall i pend id, cs !! i = Some (pend, BDone (Ok id)) ->
    (exists a, admins d = [a] /\ ac_id a = id) /\
    forall j pend' id', cs !! j = Some (pend', BDone (Ok id')) -> j = i.
Proof.
  intros H0 Hr. destruct (boot_reachable_inv _ _ _ H0 Hr) as (ps & -> & [_ _ _ Ho Hd Hu]).
  assert (forall i pend id, map caller_of ps !! i = Some (pend, BDone (Ok id)) -> ps !! i = Some (PhDone (Ok id))) as Hph.
  { intros i pend id. rewrite list_lookup_fmap. destruct (ps !! i) as [[]|]; cbn; try done. by intros [= _ ->]. }
  split; [done|]. intros i pend id Hi%Hph. split; [by apply (Hd i)|].
  intros j pend' id' Hj%Hph. by eapply Hu.
Qed.

Section properties.
Context `{Bcrypt} `{GoJson} `{PgArray} `{JwtLib}.

(** Who can bootstrap: whenever the handler changes the account table, the
    guard admitted the request, the configured secret has at least 32 bytes
    and the provided one is nonempty with the same SHA-256, the input is valid,
    no platform admin and no live account of that email existed, and exactly
    one row was added: a tenantless super admin with the bcrypt hash of the
    given password.  It answers 201 only with that row in place. *)
Theorem bootstrap_guarded q configured provided body w r w' :
  BootstrapPlatformAdmin q configured provided body w = (r, w') ->
  (lw_accounts w' <> lw_accounts w \/ (exists id email, r = Ok (BootCreated id email))) ->
  exists b id hash,
    let inp := {| BI_Email := normalizeEmail (BI_Email b); BI_Name := TrimSpace (BI_Name b);
                  BI_Password := BI_Password b |} in
    body = Some b /\
    (exists reason err c', Check_ {| G_S := true; G_P := BootstrapPolicy |} (ClientIP (Some q)) "bootstrap"
       (lw_counters w) = (Ok (true, reason, err), c')) /\
    (32 <= String.length (TrimSpace configured))%nat /\ TrimSpace provided <> "" /\
    Sum256 (TrimSpace configured) = Sum256 (TrimSpace provided) /\
    bootstrapped inp (lw_accounts w) (lw_accounts w') id hash /\
    (forall id' email', r = Ok (BootCreated id' email') -> id' = id /\ email' = BI_Email inp).
Proof.
  intros Hrun Hch. unfold BootstrapPlatformAdmin in Hrun. cbv zeta in Hrun.
  assert (forall email id res reason s t w1, lw_accounts w1 = lw_accounts w ->
    (recordLoginAttempt q portalBootstrap email id res reason;! ret (BootError s t)) w1 = (r, w') -> False) as Hrec
    by (intros; by eapply respond_error).
  pose proof (rows_counters (lw_accounts w) (Check_ {| G_S := true; G_P := BootstrapPolicy |}
    (ClientIP (Some q)) "bootstrap") w eq_refl) as Hw1.
  apply bind_inv in Hrun as [([[ok reason] gerr] & w1 & Hck & Hrun)|(e & Hck & ->)];
    rewrite Hck in Hw1; unfold rows_are in Hw1; cbn [snd] in Hw1; [|by destruct Hch as [?|(? & ? & [=])]].
  destruct (Z.eqb (CheckStatus _ ok gerr) StatusServiceUnavailable) eqn:E1; [by apply Hrec in Hrun|].
  destruct (Z.eqb (CheckStatus _ ok gerr) StatusTooManyRequests) eqn:E2; [by apply Hrec in Hrun|].
  assert (ok = true) as ->.
  { revert E1 E2. unfold CheckStatus. destruct ok; [done|]. by destruct gerr. }
  destruct (CheckBootstrapSecret configured provided) as [err|] eqn:Hsec.
  { exfalso. apply bind_inv in Hrun as [([] & w2 & Hf & Hrun)|(e & [=] & _)].
    eapply Hrec; [|exact Hrun]. injection Hf as <-.
    exact (rows_counters (lw_accounts w) (Fail_ {| G_S := true; G_P := BootstrapPolicy |} (ClientIP (Some q)) "bootstrap") w1 Hw1). }
  destruct (bool_decide (body = None) || negb (Valid _)) eqn:Hval; [by apply Hrec in Hrun|].
  apply orb_false_iff in Hval as [Hbody%bool_decide_eq_false_1 Hval%negb_false_iff].
  destruct body as [b|]; [|done].
  change (default {| BI_Email := ""; BI_Name := ""; BI_Password := "" |} (Some b)) with b in *.
  destruct (bootstrap_run_rows _ _ _ _ _ Hrun) as (id & hash & Hb & Hid); [by rewrite Hw1|].
  exists b, id, hash. cbv zeta. split; [done|]. split.
  { unfold in_counters in Hck. destruct (Check_ _ _ _ _) as [rc c'] eqn:E. injection Hck as -> _. eauto. }
  apply CheckBootstrapSecret_None in Hsec as (Hl & Hs & Hne). rewrite Hw1 in Hb. done.
Qed.
End properties.

(** ** Witnesses *)
Definition inp0 : BootstrapInput := {| BI_Email := "s@x"; BI_Name := "S"; BI_Password := "a long password" |}.
Definition first_admin : account := new_admin "a1" "s@x" "S" "hash".
Definition empty_db : bootdb := {| committed := []; lock := None |}.
Definition locked_db : bootdb := {| committed := []; lock := Some 0%nat |}.
Definition boot_db : bootdb := {| committed := [first_admin]; lock := None |}.

(** one caller to its end, while a second one arrives *)
Lemma bootstrap_path :
  rtc step (empty_db, []) (boot_db, [([], BDone (Ok "a1")); ([], RunBootstrap inp0)]).
Proof.
  apply (rtc_l _ _ (empty_db, [([], RunBootstrap inp0)])); [apply (step_arrive empty_db [] inp0)|].
  apply (rtc_l _ _ (empty_db, [([], RunBootstrap inp0); ([], RunBootstrap inp0)]));
    [apply (step_arrive empty_db [([], RunBootstrap inp0)] inp0)|].
  apply (rtc_l _ _ (locked_db, [([], at_exists inp0); ([], RunBootstrap inp0)])).
  { apply (step_call empty_db [([], RunBootstrap inp0); ([], RunBootstrap inp0)] 0%nat
      ([], RunBootstrap inp0) locked_db ([], at_exists inp0)); [reflexivity|].
    apply (lock_taken 0%nat empty_db [] (fun err => match err with Some e => not_committed e | None => at_exists inp0 end) None).
    reflexivity. }
  apply (rtc_l _ _ (locked_db, [([], at_taken inp0); ([], RunBootstrap inp0)])).
  { apply (step_call locked_db [([], at_exists inp0); ([], RunBootstrap inp0)] 0%nat
      ([], at_exists inp0) locked_db ([], at_taken inp0)); [reflexivity|].
    apply (exists_read 0%nat locked_db []). }
  apply (rtc_l _ _ (locked_db, [([], at_create inp0); ([], RunBootstrap inp0)])).
  { apply (step_call locked_db [([], at_taken inp0); ([], RunBootstrap inp0)] 0%nat
      ([], at_taken inp0) locked_db ([], at_create inp0)); [reflexivity|].
    apply (taken_read 0%nat locked_db []). }
  apply (rtc_l _ _ (locked_db, [([first_admin], at_commit "a1"); ([], RunBootstrap inp0)])).
  { apply (step_call locked_db [([], at_create inp0); ([], RunBootstrap inp0)] 0%nat
      ([], at_create inp0) locked_db ([first_admin], at_commit "a1")); [reflexivity|].
    apply (create_inserts 0%nat locked_db [] "s@x" "S" "a long password" "hash" "a1"
      (fun id => match id with Err e => not_committed e | Ok id => at_commit id end) (Ok "a1")).
    - vm_compute. reflexivity.
    - intros id' [= <-]. reflexivity. }
  apply (rtc_l _ _ (boot_db, [([], BDone (Ok "a1")); ([], RunBootstrap inp0)])); [|apply rtc_refl].
  apply (step_call locked_db [([first_admin], at_commit "a1"); ([], RunBootstrap inp0)] 0%nat
    ([first_admin], at_commit "a1") boot_db ([], BDone (Ok "a1"))); [reflexivity|].
  apply (commit_done 0%nat locked_db [first_admin]
    (fun err => match err with Some e => not_committed e | None => BDone (Ok "a1") end) None).
Qed.

Lemma bootstrap_once_witness : exists a, admins boot_db = [a] /\ ac_id a = "a1".
Proof.
  destruct (bootstrap_once empty_db boot_db [([], BDone (Ok "a1")); ([], RunBootstrap inp0)]
    eq_refl bootstrap_path) as [_ Hd].
  exact (proj1 (Hd 0%nat [] "a1" eq_refl)).
Defined.

Definition long_secret : string := "0123456789abcdef0123456789abcdef".
Definition boot_run0 : result boot_response * login_world :=
  BootstrapPlatformAdmin (H:=toy_bcrypt) q0 long_secret long_secret (Some inp0) (portal_world []).

Lemma bootstrap_guarded_witness :
  exists b id hash, Some inp0 = Some b /\
    lw_accounts (snd boot_run0) = [new_admin id "s@x" "S" hash].
Proof.
  destruct (bootstrap_guarded (H:=toy_bcrypt) q0 long_secret long_secret (Some inp0)
    (portal_world []) (fst boot_run0) (snd boot_run0))
    as (b & id & hash & Hb & _ & _ & _ & _ & Hrows & _).
  - unfold boot_run0. destruct (BootstrapPlatformAdmin _ _ _ _ _). reflexivity.
  - left. vm_compute. discriminate.
  - exists b, id, hash. split; [exact Hb|]. injection Hb as <-.
    destruct Hrows as (_ & _ & _ & _ & _ & Hrows). exact Hrows.
Defined.
