(* ===== verification/PgTx.v ===== *)
(** * Postgres transactions over any set of tables

    One session: committed tables [D], the open transaction's own copy (with
    the flag of an aborted transaction) and the outcomes of the coming
    statements.  A statement that fails aborts its transaction, after which
    every statement and the commit fail, as in Postgres; outside a transaction
    each statement commits on its own. *)
From S2P Require Import Prelude.

Record pg (D : Type) := { p_db : D; p_tx : option (D * bool); p_faults : list fault }.
Arguments p_db {D} p.
Arguments p_tx {D} p.
Arguments p_faults {D} p.
Arguments Build_pg {D} p_db p_tx p_faults.

Definition db_error : error := EText "db error".
Definition tx_aborted : error := EText "current transaction is aborted".
Definition tx_done : error := EText "sql: transaction has already been committed or rolled back".

Section statements.
Context {D : Type}.

Definition pop (w : pg D) : pg D := Build_pg (p_db w) (p_tx w) (tail (p_faults w)).
Definition outcome (w : pg D) : fault := default Fine (head (p_faults w)).
Definition with_tx_state (t : option (D * bool)) (w : pg D) : pg D := Build_pg (p_db w) t (p_faults w).
Definition with_db (d : D) (t : option (D * bool)) (w : pg D) : pg D := Build_pg d t (p_faults w).

(** one statement; [f] answers the rows or the constraint's error *)
Definition stmt {A} (f : D -> result A * D) : prog (pg D) A := fun w =>
  let w1 := pop w in
  match p_tx w with
  | Some (d, true) => (Err tx_aborted, w1)
  | Some (d, false) =>
      match outcome w with
      | Fine =>
          match f d with
          | (Ok a, d') => (Ok a, with_tx_state (Some (d', false)) w1)
          | (Err e, _) => (Err e, with_tx_state (Some (d, true)) w1)
          end
      | _ => (Err db_error, with_tx_state (Some (d, true)) w1)
      end
  | None =>
      match outcome w with
      | Fine =>
          match f (p_db w) with
          | (Ok a, d') => (Ok a, with_db d' None w1)
          | (Err e, _) => (Err e, w1)
          end
      | FailBefore => (Err db_error, w1)
      | FailAfter =>
          (Err db_error, match f (p_db w) with (Ok _, d') => with_db d' None w1 | (Err _, _) => w1 end)
      end
  end.
Definition read {A} (f : D -> A) : prog (pg D) A := stmt (fun d => (Ok (f d), d)).
Definition exec (f : D -> D) : prog (pg D) unit := stmt (fun d => (Ok tt, f d)).

Definition begin_tx : prog (pg D) unit := fun w =>
  match outcome w with
  | Fine => (Ok tt, with_tx_state (Some (p_db w, false)) (pop w))
  | _ => (Err db_error, pop w)
  end.
Definition commit_tx : prog (pg D) unit := fun w =>
  let w1 := pop w in
  match p_tx w with
  | None => (Err tx_done, w1)
  | Some (_, true) => (Err tx_aborted, with_tx_state None w1)
  | Some (d, false) =>
      match outcome w with
      | Fine => (Ok tt, with_db d None w1)
      | FailBefore => (Err db_error, with_tx_state None w1)
      | FailAfter => (Err db_error, with_db d None w1)
      end
  end.
Definition rollback_tx : prog (pg D) unit := fun w => (Ok tt, with_tx_state None w).

(** [tx, err := BeginTx(); defer tx.Rollback(); …; tx.Commit()]: errors of the
    body are returned as they are, those of begin through [wrap] and those of
    commit through [commit] *)
Definition in_tx_errs {A} (wrap commit : error -> error) (body : prog (pg D) A) : prog (pg D) A :=
  let! b := attempt begin_tx in
  match b with
  | Err e => throw (wrap e)
  | Ok _ =>
      let! r := attempt body in
      match r with
      | Err e => rollback_tx;! throw e
      | Ok a =>
          let! c := attempt commit_tx in
          match c with
          | Err e => rollback_tx;! throw (commit e)
          | Ok _ => ret a
          end
      end
  end.
Definition in_tx {A} (wrap : error -> error) (body : prog (pg D) A) : prog (pg D) A := in_tx_errs wrap wrap body.
End statements.

(** ** What a transaction body can do

    [tx_spec m R]: run inside an open transaction on tables [d], [m] never
    touches the committed tables, keeps an aborted transaction aborted, and
    when the transaction is still good afterwards, its answer and tables are
    related by [R]. *)
Section spec.
Context {D : Type}.

Definition tx_spec {A} (m : prog (pg D) A) (R : D -> result A -> D -> Prop) : Prop :=
  forall w d b, p_tx w = Some (d, b) ->
    let '(r, w') := m w in
    p_db w' = p_db w /\
    exists d' b', p_tx w' = Some (d', b') /\ (b = true -> b' = true) /\ (b' = false -> R d r d').

Lemma tx_weaken {A} (m : prog (pg D) A) (R S : D -> result A -> D -> Prop) :
  tx_spec m R -> (forall d r d', R d r d' -> S d r d') -> tx_spec m S.
Proof.
  intros Hm HR w d b Hw. specialize (Hm w d b Hw). destruct (m w) as [r w'].
  destruct Hm as (? & d' & b' & ? & ? & ?). split; [done|]. exists d', b'. eauto.
Qed.
Lemma tx_ret {A} (a : A) : tx_spec (ret a) (fun d r d' => r = Ok a /\ d' = d).
Proof. intros w d b Hw. split; [done|]. exists d, b. auto. Qed.
Lemma tx_throw {A} e : tx_spec (throw (A:=A) e) (fun d r d' => r = Err e /\ d' = d).
Proof. intros w d b Hw. split; [done|]. exists d, b. auto. Qed.
Lemma tx_bind {A B} (m : prog (pg D) A) (k : A -> prog (pg D) B) R S :
  tx_spec m R -> (forall a, tx_spec (k a) (S a)) ->
  tx_spec (bind m k) (fun d r d'' =>
    (exists a d', R d (Ok a) d' /\ S a d' r d'') \/ (exists e, R d (Err e) d'' /\ r = Err e)).
Proof.
  intros Hm Hk w d b Hw. specialize (Hm w d b Hw). unfold bind. destruct (m w) as [[a|e] w1].
  - destruct Hm as (Hdb & d1 & b1 & Hw1 & Hb & HR). specialize (Hk a w1 d1 b1 Hw1).
    destruct (k a w1) as [r w2]. destruct Hk as (Hdb2 & d2 & b2 & Hw2 & Hb2 & HS).
    split; [congruence|]. exists d2, b2. split_and!; [done|auto|]. intros Hf. left. exists a, d1.
    split; [apply HR|by apply HS]. destruct b1; [|done]. by rewrite Hb2 in Hf.
  - destruct Hm as (Hdb & d1 & b1 & Hw1 & Hb & HR). split; [done|]. exists d1, b1.
    split_and!; [done|done|]. intros Hf. right. eauto.
Qed.
Lemma tx_attempt {A} (m : prog (pg D) A) R :
  tx_spec m R -> tx_spec (attempt m) (fun d r d' => exists x, r = Ok x /\ R d x d').
Proof.
  intros Hm w d b Hw. specialize (Hm w d b Hw). unfold attempt. destruct (m w) as [x w'].
  destruct Hm as (? & d' & b' & ? & ? & ?). split; [done|]. exists d', b'. eauto 10.
Qed.
Lemma tx_ignore {A} (m : prog (pg D) A) R :
  tx_spec m R -> tx_spec (ignore m) (fun d r d' => r = Ok tt /\ exists x, R d x d').
Proof.
  intros Hm w d b Hw. specialize (Hm w d b Hw). unfold ignore. destruct (m w) as [x w']. cbn.
  destruct Hm as (? & d' & b' & ? & ? & ?). split; [done|]. exists d', b'. eauto 10.
Qed.
(** a statement that went through *)
Lemma tx_stmt {A} (f : D -> result A * D) :
  tx_spec (stmt f) (fun d r d' => exists a, r = Ok a /\ f d = (Ok a, d')).
Proof.
  intros w d b Hw. unfold stmt. rewrite Hw. destruct b.
  - split; [done|]. exists d, true. by split_and!.
  - destruct (outcome w); [destruct (f d) as [[a|e] d'] eqn:E|..]; cbn; (split; [done|]).
    + exists d', false. split_and!; [done|done|]. eauto.
    + exists d, true. by split_and!.
    + exists d, true. by split_and!.
    + exists d, true. by split_and!.
Qed.
Lemma tx_read {A} (f : D -> A) : tx_spec (read f) (fun d r d' => r = Ok (f d) /\ d' = d).
Proof. eapply tx_weaken; [apply tx_stmt|]. cbn. intros d r d' (a & -> & [= -> ->]). done. Qed.
Lemma tx_exec (f : D -> D) : tx_spec (exec f) (fun d r d' => r = Ok tt /\ d' = f d).
Proof. eapply tx_weaken; [apply tx_stmt|]. cbn. intros d r d' (a & -> & [= <- <-]). done. Qed.
Lemma tx_if {A} (c : bool) (m1 m2 : prog (pg D) A) R :
  (c = true -> tx_spec m1 R) -> (c = false -> tx_spec m2 R) -> tx_spec (if c then m1 else m2) R.
Proof. destruct c; auto. Qed.

(** *** The whole transaction: all of the body or nothing *)
Lemma in_tx_spec {A} wrap (body : prog (pg D) A) R w :
  tx_spec body R -> p_tx w = None ->
  let '(r, w') := in_tx wrap body w in
  p_tx w' = None /\
  ((is_ok r = false /\ p_db w' = p_db w) \/
   exists a, R (p_db w) (Ok a) (p_db w') /\ (r = Ok a \/ exists e, r = Err (wrap e))).
Proof.
  intros Hm Hw. unfold in_tx, in_tx_errs, bind at 1, attempt at 1, begin_tx.
  destruct (outcome w); [|cbn; by auto..].
  set (w1 := with_tx_state _ _). specialize (Hm w1 (p_db w) false eq_refl).
  unfold bind at 1, attempt at 1. destruct (body w1) as [[a|e] w2].
  2: { destruct Hm as (Hdb & _). cbn. split; [done|]. left. by rewrite Hdb. }
  destruct Hm as (Hdb & d & b & Hw2 & _ & HR). unfold bind at 1, attempt at 1, commit_tx. rewrite Hw2.
  destruct b; [cbn; split; [done|]; left; by rewrite Hdb|]. specialize (HR eq_refl).
  destruct (outcome w2); cbn.
  - split; [done|]. right. eauto.
  - split; [done|]. left. by rewrite Hdb.
  - split; [done|]. right. eauto.
Qed.
End spec.

(** ** Statements outside transactions *)
Section auto.
Context {D : Type}.

(** [keeps P m]: outside a transaction, [m] keeps [P] of the tables *)
Definition settled_with (P : D -> Prop) (w : pg D) : Prop := p_tx w = None /\ P (p_db w).

Lemma stmt_keeps {A} (P : D -> Prop) (f : D -> result A * D) :
  (forall d, P d -> P (snd (f d))) -> preserves (settled_with P) (stmt f).
Proof.
  intros Hf w [Hw HP]. unfold stmt. rewrite Hw. specialize (Hf _ HP).
  destruct (outcome w); destruct (f (p_db w)) as [[a|e] d']; by split.
Qed.
Lemma read_keeps {A} (P : D -> Prop) (f : D -> A) : preserves (settled_with P) (read f).
Proof. by apply stmt_keeps. Qed.
Lemma exec_keeps (P : D -> Prop) (f : D -> D) :
  (forall d, P d -> P (f d)) -> preserves (settled_with P) (exec f).
Proof. intros Hf. by apply stmt_keeps. Qed.
Lemma in_tx_keeps {A} (P : D -> Prop) wrap (body : prog (pg D) A) R :
  tx_spec body R -> (forall d a d', P d -> R d (Ok a) d' -> P d') ->
  preserves (settled_with P) (in_tx wrap body).
Proof.
  intros Hm HR w [Hw HP]. pose proof (in_tx_spec wrap body R w Hm Hw) as H.
  destruct (in_tx wrap body w) as [r w']. destruct H as (Hw' & [[_ Hd]|(a & Ha & _)]); split; try done; cbn.
  - by rewrite Hd.
  - by eapply HR.
Qed.
(** reads see the tables as they are *)
Lemma read_inv {A} (f : D -> A) w a w' :
  p_tx w = None -> read f w = (Ok a, w') -> a = f (p_db w) /\ p_db w' = p_db w /\ p_tx w' = None.
Proof.
  intros Hw. unfold read, stmt. rewrite Hw. destruct (outcome w); [|done..]. by intros [= <- <-].
Qed.
End auto.
