(* ===== verification/DaySlots.v ===== *)
(** * Clock times and the slots of a day

    Models the schedule arithmetic of [events/slots.go] ([buildDaySlots],
    [dayScheduleSegments], [buildDaySlotsWithBreak], [padTime]),
    [events/event.go] ([parseClockTime]), [events/slot_booking.go]
    ([normalizePreferredTime], [slotStartMatches], [formatSlotTime]) and
    [events/therapy_schedule.go] ([normalizeSlotTemplates], [parseClock],
    [trimTime]).

    A parsed clock time is a [time.Time] on January 1 of year 0: here the
    nanoseconds since that midnight, so the zero [time.Time] (January 1 of year
    1, what a failed parse returns) is 366 days later. *)
From stdpp Require Import sorting.
From S2P Require Import Prelude GoStrings AdminSession.

Open Scope string_scope.
Open Scope Z_scope.

Definition Day : Z := 24 * Hour.
Definition zero_clock : Z := 366 * Day.

(** ** [time.Parse] with the layouts "15:04:05" and "15:04" *)
Definition isDigit (c : ascii) : bool := (48 <=? code c)%N && (code c <=? 57)%N.
Definition digit_value (c : ascii) : Z := Z.of_N (code c) - 48.

(** [getnum]: one or two digits, exactly two when [fixed] *)
Definition getnum (s : string) (fixed : bool) : option (Z * string) :=
  match s with
  | "" => None
  | String a r =>
      if negb (isDigit a) then None
      else match r with
           | String b r' =>
               if isDigit b then Some (digit_value a * 10 + digit_value b, r')
               else if fixed then None else Some (digit_value a, r)
           | "" => if fixed then None else Some (digit_value a, "")
           end
  end.
Definition skip_colon (s : string) : option string :=
  match s with String ":" r => Some r | _ => None end.
(** a field below [bound] *)
Definition field (s : string) (fixed : bool) (bound : Z) : option (Z * string) :=
  match getnum s fixed with
  | Some (n, r) => if n <? bound then Some (n, r) else None
  | None => None
  end.

Fixpoint all_digits (s : string) : bool :=
  match s with "" => true | String c r => isDigit c && all_digits r end.
(** the first nine digits, scaled to nanoseconds *)
Fixpoint nanos (n : nat) (s : string) (unit_ : Z) : Z :=
  match n, s with
  | S n, String c r => digit_value c * unit_ + nanos n r (unit_ / 10)
  | _, _ => 0
  end.
(** after the seconds: nothing, or a fraction the layout does not mention *)
Definition fraction (s : string) : option Z :=
  match s with
  | "" => Some 0
  | String c r =>
      if (Ascii.eqb c "." || Ascii.eqb c ",") && negb (String.eqb r "") && all_digits r
      then Some (nanos 9 r 100000000) else None
  end.

Definition parse_hms (s : string) : option Z :=
  '(h, r) ← field s false 24; r ← skip_colon r; '(m, r) ← field r true 60; r ← skip_colon r;
  '(sec, r) ← field r true 60; ns ← fraction r;
  Some (h * Hour + m * Minute + sec * Second + ns).
Definition parse_hm (s : string) : option Z :=
  '(h, r) ← field s false 24; r ← skip_colon r; '(m, r) ← field r true 60;
  if String.eqb r "" then Some (h * Hour + m * Minute) else None.

(** [Format("15:04:05")] and [Format("15:04")] *)
Definition digit (n : Z) : ascii := byte (Z.to_N (48 + n)).
Definition two_digits (n : Z) : string := String (digit (n / 10)) (String (digit (n mod 10)) "").
Definition format_hms (t : Z) : string :=
  let s := t mod Day / Second in
  two_digits (s / 3600) ++ ":" ++ two_digits (s / 60 mod 60) ++ ":" ++ two_digits (s mod 60).
Definition format_hm (t : Z) : string :=
  let s := t mod Day / Second in two_digits (s / 3600) ++ ":" ++ two_digits (s / 60 mod 60).

(** ** [slots.go] *)
Definition padTime (t : string) : string :=
  if Nat.eqb (String.length t) 5 then t ++ ":00" else t.

Definition BadRequest (msg : string) : error := ECode InvalidArgument msg.
Definition parseClockTime (raw : string) : result Z :=
  let raw := TrimSpace raw in
  if String.eqb raw "" then Err (BadRequest "jam tidak valid")
  else match parse_hms (padTime raw) with
       | Some t => Ok t
       | None => match parse_hm raw with
                 | Some t => Ok t
                 | None => Err (BadRequest "jam tidak valid")
                 end
       end.

Record slotRange := { sl_start : string; sl_end : string; sl_capacity : Z }.

(** int64 arithmetic of [time.Duration] *)
Definition wrap64 (n : Z) : Z := (n + 2 ^ 63) mod 2 ^ 64 - 2 ^ 63.

(** the loop of [buildDaySlots]; [None] when the fuel runs out *)
Fixpoint slots_from (fuel : nat) (cur en d : Z) : option (list slotRange) :=
  match fuel with
  | O => None
  | S fuel =>
      if cur <? en then
        let nxt := cur + d in
        if en <? nxt then Some []
        else
          rest ← slots_from fuel nxt en d;
          Some ({| sl_start := format_hms cur; sl_end := format_hms nxt; sl_capacity := 0 |} :: rest)
      else Some []
  end.

(** both bounds as the code parses them: the second layout is tried for the
    start when the first fails, and for the end when either failed *)
Definition day_bounds (dayStart dayEnd : string) : Z * Z :=
  let '(st, failed) :=
    match parse_hms (padTime dayStart) with
    | Some t => (t, false)
    | None => match parse_hm dayStart with Some t => (t, false) | None => (zero_clock, true) end
    end in
  let en :=
    match failed, parse_hms (padTime dayEnd) with
    | false, Some t => t
    | _, _ => default zero_clock (parse_hm dayEnd)
    end in
  (st, en).

Definition buildDaySlots (fuel : nat) (dayStart dayEnd : string) (durMin : Z) : option (list slotRange) :=
  let '(st, en) := day_bounds dayStart dayEnd in
  slots_from fuel st en (wrap64 (durMin * Minute)).

Record daySegment := { sg_start : string; sg_end : string }.

Definition dayScheduleSegments (dayStart dayEnd : string) (breakStart breakEnd : option string)
  : result (list daySegment) :=
  let whole := [{| sg_start := dayStart; sg_end := dayEnd |}] in
  match parseClockTime dayStart with
  | Err e => Err e
  | Ok st =>
      match parseClockTime dayEnd with
      | Err e => Err e
      | Ok en =>
          if negb (st <? en) then Err (BadRequest "jam mulai jadwal harus sebelum jam selesai")
          else
            match breakStart, breakEnd with
            | Some breakStart, Some breakEnd =>
                let bsRaw := TrimSpace breakStart in
                let beRaw := TrimSpace breakEnd in
                if String.eqb bsRaw "" || String.eqb beRaw "" then Ok whole
                else
                  match parseClockTime bsRaw with
                  | Err e => Err e
                  | Ok bs =>
                      match parseClockTime beRaw with
                      | Err e => Err e
                      | Ok be =>
                          if negb (bs <? be) then Ok whole
                          else if negb (bs <? en) || negb (st <? be) then Ok whole
                          else
                            let morning := if st <? bs then [{| sg_start := dayStart; sg_end := bsRaw |}] else [] in
                            let evening := if be <? en then [{| sg_start := beRaw; sg_end := dayEnd |}] else [] in
                            let segments := (morning ++ evening)%list in
                            if Nat.eqb (length segments) 0 then Ok whole else Ok segments
                      end
                  end
            | _, _ => Ok whole
            end
      end
  end.

Fixpoint segments_slots (fuel : nat) (segs : list daySegment) (durMin : Z) : option (list slotRange) :=
  match segs with
  | [] => Some []
  | seg :: rest =>
      slots ← buildDaySlots fuel (sg_start seg) (sg_end seg) durMin;
      more ← segments_slots fuel rest durMin;
      Some (slots ++ more)%list
  end.
(** [None]: out of fuel *)
Definition buildDaySlotsWithBreak (fuel : nat) (dayStart dayEnd : string) (durMin : Z)
    (breakStart breakEnd : option string) : option (result (list slotRange)) :=
  match dayScheduleSegments dayStart dayEnd breakStart breakEnd with
  | Err e => Some (Err e)
  | Ok segments => Ok <$> segments_slots fuel segments durMin
  end.

(** ** [slot_booking.go] *)
Definition normalizePreferredTime (s : string) : string :=
  let s := TrimSpace s in
  let s := ReplaceAll s "." ":" in
  if String.eqb s "" then ""
  else
    match Split s ":" with
    | p0 :: p1 :: _ =>
        let h := TrimSpace p0 in
        let m := TrimSpace p1 in
        let h := if Nat.eqb (String.length h) 1 then "0" ++ h else h in
        let m := if Nat.eqb (String.length m) 1 then "0" ++ m else m in
        let m := if (2 <? String.length m)%nat then take_bytes 2 m else m in
        h ++ ":" ++ m
    | _ => s
    end.

Definition slotStartMatches (startTime preferred : string) : bool :=
  let pref := normalizePreferredTime preferred in
  if String.eqb pref "" then false
  else
    let start := normalizePreferredTime startTime in
    let start := if (5 <=? String.length start)%nat then take_bytes 5 start else start in
    String.eqb pref start.

Definition formatSlotTime (t : string) : string :=
  let t := TrimSpace t in if (5 <=? String.length t)%nat then take_bytes 5 t else t.

(** ** [therapy_schedule.go] *)
Definition trimTime (t : string) : string :=
  if (5 <=? String.length t)%nat then take_bytes 5 t else t.

Record TherapySlotTemplate := {
  ST_ID : string; ST_StartTime : string; ST_EndTime : string; ST_Capacity : Z; ST_SortOrder : Z
}.
Definition parseClock (s : string) : option Z :=
  let s := padTime (TrimSpace s) in
  match parse_hms s with Some t => Some t | None => parse_hm (TrimSpace s) end.

Definition slot_error (i : nat) (what : string) : error :=
  BadRequest ("slot " ++ pretty (S i) ++ ": " ++ what).
Fixpoint normalize_templates (i : nat) (inp : list TherapySlotTemplate) : result (list TherapySlotTemplate) :=
  match inp with
  | [] => Ok []
  | t :: rest =>
      let start := TrimSpace (ST_StartTime t) in
      let end_ := TrimSpace (ST_EndTime t) in
      if String.eqb start "" || String.eqb end_ "" then Err (slot_error i "jam mulai dan selesai wajib diisi")
      else match parseClock start with
           | None => Err (slot_error i "jam mulai tidak valid")
           | Some st =>
               match parseClock end_ with
               | None => Err (slot_error i "jam selesai tidak valid")
               | Some en =>
                   if negb (st <? en) then Err (slot_error i "jam selesai harus setelah jam mulai")
                   else
                     let ord := if ST_SortOrder t <=? 0 then Z.of_nat i else ST_SortOrder t in
                     let capacity := if ST_Capacity t <=? 0 then 1 else ST_Capacity t in
                     match normalize_templates (S i) rest with
                     | Err e => Err e
                     | Ok out => Ok ({| ST_ID := ""; ST_StartTime := format_hm st; ST_EndTime := format_hm en;
                                        ST_Capacity := capacity; ST_SortOrder := ord |} :: out)
                     end
               end
           end
  end.
(** the order of [sort.Slice]; ties are left in input order here, as Go does
    for at most twelve elements *)
Definition template_before (a b : TherapySlotTemplate) : bool :=
  if negb (ST_SortOrder a =? ST_SortOrder b) then ST_SortOrder a <? ST_SortOrder b
  else string_ltb (ST_StartTime a) (ST_StartTime b).
Fixpoint insert_template (x : TherapySlotTemplate) (l : list TherapySlotTemplate) : list TherapySlotTemplate :=
  match l with
  | [] => [x]
  | y :: l' => if template_before x y then x :: l else y :: insert_template x l'
  end.
Definition normalizeSlotTemplates (inp : list TherapySlotTemplate) (mode : string)
  : result (list TherapySlotTemplate) :=
  if negb (String.eqb mode "MANUAL") then Ok []
  else if Nat.eqb (length inp) 0 then Err (BadRequest "mode manual membutuhkan minimal satu slot waktu")
  else match normalize_templates 0 inp with
       | Err e => Err e
       | Ok out => Ok (fold_left (fun acc t => insert_template t acc) out [])
       end.

Example lunch_gap :
  (fun r => match r with Ok l => map sl_start l | Err _ => [] end)
  <$> buildDaySlotsWithBreak 100 "09:00" "14:00" 30 (Some "11:30:00") (Some "13:00:00")
  = Some ["09:00:00"; "09:30:00"; "10:00:00"; "10:30:00"; "11:00:00"; "13:00:00"; "13:30:00"].
Proof. vm_compute. reflexivity. Qed.

(** ** The grid of slots between two times *)
(** consecutive intervals of length [d] from [a] that end by [b] *)
Definition grid (a b d : Z) : list (Z * Z) :=
  map (fun i => (a + i * d, a + (i + 1) * d)) (seqZ 0 ((b - a) / d)).
Definition slot_of (ab : Z * Z) : slotRange :=
  {| sl_start := format_hms ab.1; sl_end := format_hms ab.2; sl_capacity := 0 |}.
(** the break that counts: one that ends after it starts, meets the day and
    leaves some of it *)
Definition effective_break (st en : Z) (brk : option (Z * Z)) : option (Z * Z) :=
  match brk with
  | Some (bs, be) =>
      if (bs <? be) && (bs <? en) && (st <? be) && ((st <? bs) || (be <? en)) then brk else None
  | None => None
  end.
(** the day without the break that counts *)
Definition day_grid (st en : Z) (brk : option (Z * Z)) (d : Z) : list (Z * Z) :=
  match effective_break st en brk with
  | Some (bs, be) => (grid st bs d ++ grid be en d)%list
  | None => grid st en d
  end.
(** [x, y] is one of the consecutive intervals of length [d] that fill [a, b] *)
Definition slot_in (a b d x y : Z) : Prop := y = x + d /\ a <= x /\ y <= b /\ (x - a) mod d = 0.
(** a clock text as the database renders it *)
Definition clock_text (s : string) (t : Z) : Prop :=
  TrimSpace s = s /\ s <> "" /\
  match parse_hms (padTime s) with Some t' => t' = t | None => parse_hm s = Some t end.

(** the break columns of a schedule: absent, blank, or two clock texts *)
Inductive break_columns : option string -> option string -> option (Z * Z) -> Prop :=
| no_break_start e : break_columns None e None
| no_break_end s : break_columns s None None
| blank_break s e : TrimSpace s = "" \/ TrimSpace e = "" -> break_columns (Some s) (Some e) None
| break_times s e bs be : clock_text (TrimSpace s) bs -> clock_text (TrimSpace e) be ->
    break_columns (Some s) (Some e) (Some (bs, be)).

(** ** Lemmas *)
Lemma grid_nil a b d : 0 < d -> b < a + d -> grid a b d = [].
Proof.
  intros Hd Hb. unfold grid. rewrite seqZ_nil; [done|].
  destruct (Z.le_gt_cases 0 (b - a)); [rewrite Z.div_small; lia|]. apply Z.lt_le_incl, Z.div_lt_upper_bound; lia.
Qed.
Lemma grid_cons a b d : 0 < d -> a + d <= b -> grid a b d = (a, a + d) :: grid (a + d) b d.
Proof.
  intros Hd Hb. unfold grid.
  assert ((b - a) / d = (b - (a + d)) / d + 1) as ->.
  { replace (b - a) with ((b - (a + d)) + 1 * d) by lia. by rewrite Z.div_add by lia. }
  assert (0 <= (b - (a + d)) / d) by (apply Z.div_pos; lia).
  rewrite seqZ_cons by lia. cbn [map]. replace (a + 0 * d) with a by lia. replace (a + (0 + 1) * d) with (a + d) by lia.
  f_equal. replace (Z.pred ((b - (a + d)) / d + 1)) with ((b - (a + d)) / d) by lia.
  rewrite <- (fmap_add_seqZ 1 0). change (Z.add 1 <$> seqZ 0 ((b - (a + d)) / d))
    with (map (Z.add 1) (seqZ 0 ((b - (a + d)) / d))).
  rewrite map_map. apply map_ext. intros i. f_equal; lia.
Qed.

Lemma slots_from_grid d en : 0 < d -> forall fuel cur, (Z.to_nat ((en - cur) / d) < fuel)%nat ->
  slots_from fuel cur en d = Some (map slot_of (grid cur en d)).
Proof.
  intros Hd. induction fuel as [|fuel IH]; intros cur Hf; [lia|]. cbn [slots_from].
  destruct (Z.ltb_spec cur en); [|by rewrite grid_nil by lia].
  destruct (Z.ltb_spec en (cur + d)) as [Hov|Hin]; [by rewrite grid_nil by lia|].
  rewrite grid_cons by lia. rewrite IH; [done|].
  assert ((en - cur) / d = (en - (cur + d)) / d + 1) as Hn.
  { replace (en - cur) with ((en - (cur + d)) + 1 * d) by lia. by rewrite Z.div_add by lia. }
  assert (0 <= (en - (cur + d)) / d) by (apply Z.div_pos; lia). lia.
Qed.

Lemma grid_elem a b d x y : 0 < d ->
  (x, y) ∈ grid a b d <-> slot_in a b d x y.
Proof.
  intros Hd. unfold grid, slot_in. rewrite list_elem_of_In, in_map_iff. setoid_rewrite <- list_elem_of_In.
  setoid_rewrite elem_of_seqZ. split.
  - intros (i & [= <- <-] & Hi). assert (i + 1 <= (b - a) / d) by lia.
    pose proof (Z.mul_div_le (b - a) d Hd). split; [lia|]. split; [nia|]. split; [nia|].
    replace (a + i * d - a) with (i * d) by lia. by rewrite Z.mod_mul by lia.
  - intros (-> & Ha & Hb & Hm). exists ((x - a) / d). apply Z.div_exact in Hm; [|lia].
    assert (0 <= (x - a) / d) by (apply Z.div_pos; lia).
    assert ((x - a) / d + 1 <= (b - a) / d) by (apply Z.div_le_lower_bound; nia).
    split; [f_equal; lia|lia].
Qed.

Lemma grid_sorted a b d : 0 < d -> Sorted (fun x y => x.2 <= y.1) (grid a b d).
Proof.
  intros Hd. remember (Z.to_nat ((b - a) / d)) as n eqn:Hn. revert a Hn.
  induction n as [|n IH]; intros a Hn; (destruct (Z.le_gt_cases (a + d) b) as [Hle|Hgt]; [|rewrite grid_nil by lia; constructor]).
  - exfalso. assert (1 <= (b - a) / d) by (apply Z.div_le_lower_bound; lia). lia.
  - rewrite grid_cons by lia. constructor.
    + apply IH. assert ((b - a) / d = (b - (a + d)) / d + 1) as Hs; [|lia].
      replace (b - a) with ((b - (a + d)) + 1 * d) by lia. by rewrite Z.div_add by lia.
    + destruct (Z.le_gt_cases (a + d + d) b); [rewrite grid_cons by lia|rewrite grid_nil by lia]; constructor. cbn. lia.
Qed.

Lemma day_bounds_text dayStart dayEnd st en :
  clock_text dayStart st -> clock_text dayEnd en -> day_bounds dayStart dayEnd = (st, en).
Proof.
  intros (_ & _ & Hs) (_ & _ & He). unfold day_bounds.
  assert ((match parse_hms (padTime dayEnd) with Some t => t | None => default zero_clock (parse_hm dayEnd) end) = en) as Hen.
  { destruct (parse_hms (padTime dayEnd)); [done|]. by rewrite He. }
  destruct (parse_hms (padTime dayStart)) as [t|]; [subst t; by f_equal|]. rewrite Hs. by f_equal.
Qed.

Lemma parseClockTime_text s t : clock_text s t -> parseClockTime s = Ok t.
Proof.
  intros (Ht & Hne & Hp). unfold parseClockTime. rewrite Ht, (proj2 (String.eqb_neq _ _) Hne).
  destruct (parse_hms (padTime s)); [by subst|]. by rewrite Hp.
Qed.

Lemma wrap64_small n : - 2 ^ 63 <= n < 2 ^ 63 -> wrap64 n = n.
Proof. intros Hn. unfold wrap64. rewrite Z.mod_small; lia. Qed.

Lemma buildDaySlots_grid fuel dayStart dayEnd st en durMin :
  clock_text dayStart st -> clock_text dayEnd en -> 0 < durMin -> durMin * Minute < 2 ^ 63 ->
  (Z.to_nat ((en - st) / (durMin * Minute)) < fuel)%nat ->
  buildDaySlots fuel dayStart dayEnd durMin = Some (map slot_of (grid st en (durMin * Minute))).
Proof.
  intros Hs He Hd Hmax Hf. unfold buildDaySlots. rewrite (day_bounds_text _ _ _ _ Hs He).
  assert (0 < Minute) by done. rewrite wrap64_small by lia. apply slots_from_grid; [nia|done].
Qed.

(** *** Formatting and parsing agree *)
Lemma two_digits_parse n r b :
  0 <= n < 100 -> getnum (two_digits n ++ r) b = Some (n, r).
Proof.
  intros Hn. unfold two_digits. rewrite !string_app_cons, (eq_refl : "" ++ r = r). unfold getnum.
  assert (forall k, 0 <= k < 10 -> isDigit (digit k) = true /\ digit_value (digit k) = k) as Hdig.
  { intros k Hk. assert (k = 0 \/ k = 1 \/ k = 2 \/ k = 3 \/ k = 4 \/ k = 5 \/ k = 6 \/ k = 7 \/ k = 8 \/ k = 9) as Hc by lia.
    by repeat destruct Hc as [->|Hc]; [..|subst k]. }
  pose proof (Z.mod_pos_bound n 10 ltac:(lia)) as Hm.
  assert (0 <= n / 10 < 10) as Hq by (split; [apply Z.div_pos; lia|apply Z.div_lt_upper_bound; lia]).
  destruct (Hdig _ Hq) as [-> ->], (Hdig _ Hm) as [-> ->]. cbn [negb]. do 2 f_equal.
  pose proof (Z.div_mod n 10 ltac:(lia)). lia.
Qed.

Lemma format_parse t :
  0 <= t < Day -> t mod Second = 0 -> parse_hms (format_hms t) = Some t.
Proof.
  intros Ht Hs. unfold format_hms. rewrite (Z.mod_small t Day) by done.
  assert (Day = 86400 * Second) as HD by done. assert (0 < Second) as HS by done.
  set (s := t / Second). assert (t = s * Second) as Hts by (pose proof (Z.div_mod t Second ltac:(lia)); lia).
  assert (0 <= s < 86400) as Hsr by nia.
  pose proof (Z.mod_pos_bound s 60 ltac:(lia)). pose proof (Z.mod_pos_bound (s / 60) 60 ltac:(lia)).
  assert (0 <= s / 3600 < 24) by (split; [apply Z.div_pos; lia|apply Z.div_lt_upper_bound; lia]).
  unfold parse_hms, field. rewrite two_digits_parse by lia.
  rewrite (proj2 (Z.ltb_lt _ 24)) by lia. cbn [mbind option_bind].
  change (skip_colon (":" ++ ?x)) with (Some x). cbn [mbind option_bind].
  rewrite two_digits_parse by lia. rewrite (proj2 (Z.ltb_lt (s / 60 mod 60) 60)) by lia. cbn [mbind option_bind].
  change (skip_colon (":" ++ ?x)) with (Some x). cbn [mbind option_bind].
  rewrite <- (string_app_nil_r (two_digits (s mod 60))), two_digits_parse by lia.
  rewrite (proj2 (Z.ltb_lt (s mod 60) 60)) by lia. cbn [mbind option_bind fraction]. f_equal.
  assert (Hour = 3600 * Second) as -> by done. assert (Minute = 60 * Second) as -> by done.
  assert (s / 3600 = s / 60 / 60) as -> by (rewrite Z.div_div by lia; done).
  pose proof (Z.div_mod s 60 ltac:(lia)). pose proof (Z.div_mod (s / 60) 60 ltac:(lia)). nia.
Qed.

Definition segments_of (dayStart dayEnd : string) (st en : Z) (breakStart breakEnd : string) (brk : option (Z * Z))
  : list daySegment :=
  match effective_break st en brk with
  | Some (bs, be) =>
      ((if st <? bs then [{| sg_start := dayStart; sg_end := breakStart |}] else []) ++
       (if be <? en then [{| sg_start := breakEnd; sg_end := dayEnd |}] else []))%list
  | None => [{| sg_start := dayStart; sg_end := dayEnd |}]
  end.
Lemma segments_text dayStart dayEnd st en breakStart breakEnd brk :
  clock_text dayStart st -> clock_text dayEnd en -> st < en -> break_columns breakStart breakEnd brk ->
  dayScheduleSegments dayStart dayEnd breakStart breakEnd =
  Ok (segments_of dayStart dayEnd st en (TrimSpace (default "" breakStart)) (TrimSpace (default "" breakEnd)) brk).
Proof.
  intros Hs He Hse Hb. unfold dayScheduleSegments.
  rewrite (parseClockTime_text _ _ Hs), (parseClockTime_text _ _ He), (proj2 (Z.ltb_lt st en)) by done. cbn [negb].
  destruct Hb as [e|s|s e Hblank|s e bs be Hbs Hbe]; [done|by destruct s| |].
  { by destruct Hblank as [-> | ->]; rewrite ?orb_true_r. }
  pose proof Hbs as (_ & Hbs1 & _). pose proof Hbe as (_ & Hbe1 & _).
  rewrite (proj2 (String.eqb_neq _ _) Hbs1), (proj2 (String.eqb_neq _ _) Hbe1). cbn [orb].
  rewrite (parseClockTime_text _ _ Hbs), (parseClockTime_text _ _ Hbe). unfold segments_of, effective_break. cbn [default].
  destruct (bs <? be), (bs <? en), (st <? be); try done. cbn [negb orb andb].
  destruct (st <? bs) eqn:E1, (be <? en) eqn:E2; cbn; by rewrite ?E1, ?E2.
Qed.

Lemma div_mono a b d : 0 < d -> a <= b -> (Z.to_nat (a / d) <= Z.to_nat (b / d))%nat.
Proof. intros Hd Hab. pose proof (Z.div_le_mono a b d Hd Hab). lia. Qed.

Lemma effective_break_spec st en brk bs be :
  effective_break st en brk = Some (bs, be) ->
  brk = Some (bs, be) /\ bs < be /\ bs < en /\ st < be /\ (st < bs \/ be < en).
Proof.
  destruct brk as [[bs' be']|]; cbn; [|done].
  destruct (Z.ltb_spec bs' be'), (Z.ltb_spec bs' en), (Z.ltb_spec st be'); cbn; try done.
  destruct (Z.ltb_spec st bs'), (Z.ltb_spec be' en); cbn; try done; intros [= -> ->]; split_and!; try done; lia.
Qed.
Lemma effective_break_none st en bs be :
  effective_break st en (Some (bs, be)) = None ->
  be <= bs \/ en <= bs \/ be <= st \/ (bs <= st /\ en <= be).
Proof.
  cbn. destruct (Z.ltb_spec bs be), (Z.ltb_spec bs en), (Z.ltb_spec st be); cbn; try (intros; lia).
  destruct (Z.ltb_spec st bs), (Z.ltb_spec be en); cbn; try done; intros; lia.
Qed.

(** the slots of a day with a break, as a grid *)
Lemma with_break_grid fuel dayStart dayEnd durMin breakStart breakEnd st en brk :
  clock_text dayStart st -> clock_text dayEnd en -> st < en -> break_columns breakStart breakEnd brk ->
  0 < durMin -> durMin * Minute < 2 ^ 63 -> (Z.to_nat ((en - st) / (durMin * Minute)) < fuel)%nat ->
  buildDaySlotsWithBreak fuel dayStart dayEnd durMin breakStart breakEnd
  = Some (Ok (map slot_of (day_grid st en brk (durMin * Minute)))).
Proof.
  intros Hs He Hse Hb Hd Hmax Hf. unfold buildDaySlotsWithBreak.
  rewrite (segments_text _ _ st en _ _ brk) by done. unfold day_grid, segments_of.
  assert (0 < durMin * Minute) as Hpos by (assert (0 < Minute) by done; nia).
  assert (forall a b, st <= a -> b <= en -> (Z.to_nat ((b - a) / (durMin * Minute)) < fuel)%nat) as Hfuel.
  { intros a b Ha Hbb. pose proof (div_mono (b - a) (en - st) (durMin * Minute) Hpos). lia. }
  destruct (effective_break st en brk) as [[bs be]|] eqn:Heff.
  2: { cbn [segments_slots sg_start sg_end]. rewrite (buildDaySlots_grid _ dayStart dayEnd st en) by done. cbn. by rewrite app_nil_r. }
  destruct (effective_break_spec _ _ _ _ _ Heff) as (-> & H1 & H2 & H3 & H4).
  inversion Hb as [| | |s e bs' be' Hbs Hbe]; subst. cbn [default].
  destruct (Z.ltb_spec st bs), (Z.ltb_spec be en); cbn [app segments_slots sg_start sg_end]; [..|lia].
  - rewrite (buildDaySlots_grid _ dayStart (TrimSpace s) st bs) by (try done; apply Hfuel; lia).
    rewrite (buildDaySlots_grid _ (TrimSpace e) dayEnd be en) by (try done; apply Hfuel; lia). cbn. by rewrite app_nil_r, map_app.
  - rewrite (buildDaySlots_grid _ dayStart (TrimSpace s) st bs) by (try done; apply Hfuel; lia). cbn.
    rewrite (grid_nil be en) by lia. by rewrite !app_nil_r.
  - rewrite (buildDaySlots_grid _ (TrimSpace e) dayEnd be en) by (try done; apply Hfuel; lia). cbn.
    rewrite (grid_nil st bs) by lia. by rewrite !app_nil_r.
Qed.

Lemma sorted_app_at (l m : list (Z * Z)) (b : Z) :
  Sorted (fun x y => x.2 <= y.1) l -> Sorted (fun x y => x.2 <= y.1) m ->
  (forall x, x ∈ l -> x.2 <= b) -> (forall y, y ∈ m -> b <= y.1) ->
  Sorted (fun x y => x.2 <= y.1) (l ++ m)%list.
Proof.
  intros Hl Hm Hlb Hmb. induction Hl as [|x l Hl IH Hx]; [done|]. cbn. constructor.
  - apply IH. intros y Hy. apply Hlb. by right.
  - destruct l as [|y l]; [|by inversion Hx; constructor].
    destruct m as [|y m]; constructor. specialize (Hlb x ltac:(left)). specialize (Hmb y ltac:(left)). lia.
Qed.
Lemma day_grid_sorted st en brk d : 0 < d -> Sorted (fun x y => x.2 <= y.1) (day_grid st en brk d).
Proof.
  intros Hd. unfold day_grid. destruct (effective_break st en brk) as [[bs be]|] eqn:Heff; [|by apply grid_sorted].
  destruct (effective_break_spec _ _ _ _ _ Heff) as (_ & Hb & _).
  apply (sorted_app_at _ _ be); [by apply grid_sorted..| |]; intros [x y] (-> & Hx & Hy & _)%grid_elem; cbn in *; lia.
Qed.
Lemma day_grid_elem st en brk d x y :
  0 < d ->
  (x, y) ∈ day_grid st en brk d <->
  match effective_break st en brk with
  | Some (bs, be) => slot_in st bs d x y \/ slot_in be en d x y
  | None => slot_in st en d x y
  end.
Proof.
  intros Hd. unfold day_grid. destruct (effective_break st en brk) as [[bs be]|].
  - by rewrite elem_of_app, !grid_elem.
  - by apply grid_elem.
Qed.

Lemma slot_texts d x : d mod Second = 0 -> x mod Second = 0 -> 0 < d -> 0 <= x -> x + d < Day ->
  parse_hms (sl_start (slot_of (x, x + d))) = Some x /\ parse_hms (sl_end (slot_of (x, x + d))) = Some (x + d).
Proof.
  intros Hds Hxs Hd Hx Hy. cbn [slot_of sl_start sl_end fst snd]. split; apply format_parse; try lia.
  rewrite Z.add_mod, Hxs, Hds by done. done.
Qed.
Lemma slot_in_second a b d x y : 0 < d -> d mod Second = 0 -> a mod Second = 0 -> slot_in a b d x y -> x mod Second = 0.
Proof.
  intros Hd Hds Ha (_ & _ & _ & Hx). apply Z.div_exact in Hx; [|lia].
  replace x with (a + d * ((x - a) / d)) by lia.
  rewrite Z.add_mod, Ha, Z.mul_mod, Hds by done. done.
Qed.

(** ** Properties *)

(** C19. The slots of a day: for a schedule, break columns that are absent,
    blank or two clock texts, and a positive duration (any fuel past the number
    of slots), generation succeeds and gives, in order and without overlap,
    exactly the consecutive intervals of that length that fill the schedule up
    to the break and from its end on.  A break that does not end after it
    starts, does not meet the schedule or covers all of it is ignored: then,
    as without a break, the intervals fill the whole schedule; no slot meets a
    break of any other kind.  The texts it emits parse back to the times they
    stand for. *)
Theorem day_slots_exact fuel dayStart dayEnd durMin breakStart breakEnd st en brk :
  clock_text dayStart st -> clock_text dayEnd en -> st < en -> break_columns breakStart breakEnd brk ->
  0 < durMin -> durMin * Minute < 2 ^ 63 -> (Z.to_nat ((en - st) / (durMin * Minute)) < fuel)%nat ->
  let d := durMin * Minute in
  exists l, buildDaySlotsWithBreak fuel dayStart dayEnd durMin breakStart breakEnd
              = Some (Ok (map slot_of l)) /\
    Sorted (fun x y => x.2 <= y.1) l /\
    (forall x y, (x, y) ∈ l <->
       match effective_break st en brk with
       | Some (bs, be) => slot_in st bs d x y \/ slot_in be en d x y
       | None => slot_in st en d x y
       end) /\
    (forall x y bs be, (x, y) ∈ l -> brk = Some (bs, be) -> bs < be -> st < bs \/ be < en -> y <= bs \/ be <= x) /\
    (forall x y, (x, y) ∈ l -> 0 <= st -> en < Day -> st mod Second = 0 ->
       (forall bs be, brk = Some (bs, be) -> be mod Second = 0) ->
       parse_hms (sl_start (slot_of (x, y))) = Some x /\ parse_hms (sl_end (slot_of (x, y))) = Some y).
Proof.
  intros Hs He Hse Hb Hd Hmax Hf d. assert (0 < d) as Hpos by (assert (0 < Minute) by done; unfold d; nia).
  assert (d mod Second = 0) as Hds.
  { unfold d. assert (Minute = 60 * Second) as -> by done. rewrite Z.mul_assoc. apply Z.mod_mul. done. }
  exists (day_grid st en brk d). split; [by apply with_break_grid|]. split; [by apply day_grid_sorted|].
  split; [intros x y; by apply day_grid_elem|]. split; intros x y.
  - intros bs be Hin -> Hlt Hpart. apply day_grid_elem in Hin; [|done].
    destruct (effective_break st en _) as [[bs' be']|] eqn:Heff.
    + destruct (effective_break_spec _ _ _ _ _ Heff) as ([= <- <-] & _).
      destruct Hin as [(_ & _ & ? & _)|(_ & ? & _)]; lia.
    + apply effective_break_none in Heff. destruct Hin as (_ & ? & ? & _). lia.
  - intros Hin H0 HD Hst Hbe. apply day_grid_elem in Hin; [|done].
    destruct (effective_break st en _) as [[bs be]|] eqn:Heff.
    + destruct (effective_break_spec _ _ _ _ _ Heff) as (-> & H1 & H2 & H3 & H4).
      destruct Hin as [Hin|Hin]; pose proof Hin as (-> & G1 & G2 & _); apply slot_texts; try done; try lia;
        (eapply slot_in_second; [done|done| |exact Hin]); [done|by eapply Hbe].
    + pose proof Hin as (-> & G1 & G2 & _). apply slot_texts; try done; try lia. by eapply slot_in_second.
Qed.

Lemma day_slots_exact_witness :
  exists l, buildDaySlotsWithBreak 20 "09:00:00" "17:00:00" 30 (Some "11:45:00 ") (Some "13:00:00")
    = Some (Ok (map slot_of l)) /\ (11 * Hour, 11 * Hour + 30 * Minute) ∈ l /\ (13 * Hour, 13 * Hour + 30 * Minute) ∈ l.
Proof.
  destruct (day_slots_exact 20 "09:00:00" "17:00:00" 30 (Some "11:45:00 ") (Some "13:00:00")
    (9 * Hour) (17 * Hour) (Some (11 * Hour + 45 * Minute, 13 * Hour))) as (l & Hl & _ & H1 & _).
  - split; [reflexivity|]. split; [discriminate|]. vm_compute. reflexivity.
  - split; [reflexivity|]. split; [discriminate|]. vm_compute. reflexivity.
  - reflexivity.
  - apply break_times; (split; [reflexivity|]; split; [discriminate|]; vm_compute; reflexivity).
  - reflexivity.
  - reflexivity.
  - apply Nat.ltb_lt. vm_compute. reflexivity.
  - exists l. split; [exact Hl|]. split; apply H1; [left|right]; (repeat split; vm_compute; first [reflexivity|discriminate]).
Defined.

(** a break that covers the schedule is ignored: the slots lie inside it *)
Example break_over_the_day :
  (fun r => match r with Ok l => map sl_start l | Err _ => [] end)
  <$> buildDaySlotsWithBreak 100 "09:00" "10:00" 30 (Some "09:00") (Some "10:00")
  = Some ["09:00:00"; "09:30:00"].
Proof. vm_compute. reflexivity. Qed.
