(* ===== verification/EventSlots.v ===== *)
(** * Event therapy slots and patient registrations

    Models [events/slots.go], [events/slot_booking.go] and the writing handlers
    of [events/patients.go] over the tenant's event tables, through PgTx.v:
    slot generation (DaySlots.v), capacity, picking and booking a slot,
    registration (public and by the owner), status changes, edits, deletions.
    A handler's transaction runs alone here; the row locks of booking
    ([FOR UPDATE]) make concurrent registrations serial.  Field encryption, the
    blind index of names and the normalisation of birth dates are the class
    [PatientFields].  Listing, filtering and label formatting are not modelled,
    nor the schema preparation of [openTenant] (a call that can fail first). *)
From S2P Require Import Prelude GoStrings AdminSession PgTx DaySlots.

Open Scope string_scope.
Open Scope Z_scope.

(** ** Tables *)
Record event_row := {
  e_id : string; e_status : string; e_start_date : Z; e_end_date : Z;   (** days *)
  e_start : string; e_end : string; e_break_start : option string; e_break_end : option string;
  e_open : option Z; e_close : option Z; e_deleted : bool
}.
Record therapy_row := {   (** evt_event_therapy *)
  et_id : string; et_event : string; et_therapy : string; et_duration : Z;
  et_start : option string; et_end : option string; et_mode : string;
  et_capacity_mode : string; et_max : option Z
}.
Record template_row := { tp_et : string; tp_start : string; tp_end : string; tp_capacity : Z; tp_order : Z }.
Record slot_row := {
  s_id : string; s_event : string; s_therapy : string; s_date : Z; s_start : string; s_end : string;
  s_capacity : Z; s_booked : Z
}.
Record patient_row := {
  p_id : string; p_event : string; p_therapy : string; p_contact : option string;
  p_name_enc : string; p_birth_enc : string; p_name : string; p_birth : string;
  p_complaint : option string; p_preferred : option string;
  p_status : string; p_slot : option string; p_deleted : bool
}.
Record person_row := {
  pe_id : string; pe_event : string; pe_type : string; pe_attendance : string; pe_deleted : bool;
  pe_therapies : list string   (** evt_person_therapy *)
}.
Record contact_row := {
  ct_id : string; ct_name : option string; ct_phone : option string; ct_birth : option string;
  ct_notes : option string; ct_deleted : bool
}.
Record evdb := {
  events : list event_row; therapies : list therapy_row; templates : list template_row;
  slots : list slot_row; patients : list patient_row; persons : list person_row;
  contacts : list contact_row; audits : list (string * string * string);   (** entity, id, action *)
  new_ids : list string   (** what [gen_random_uuid] will draw *)
}.
Definition set_slots l d : evdb :=
  {| events := events d; therapies := therapies d; templates := templates d; slots := l;
     patients := patients d; persons := persons d; contacts := contacts d; audits := audits d;
     new_ids := new_ids d |}.
Definition set_patients l d : evdb :=
  {| events := events d; therapies := therapies d; templates := templates d; slots := slots d;
     patients := l; persons := persons d; contacts := contacts d; audits := audits d;
     new_ids := new_ids d |}.
Definition set_ids l d : evdb :=
  {| events := events d; therapies := therapies d; templates := templates d; slots := slots d;
     patients := patients d; persons := persons d; contacts := contacts d; audits := audits d;
     new_ids := l |}.
Definition add_audit a d : evdb :=
  {| events := events d; therapies := therapies d; templates := templates d; slots := slots d;
     patients := patients d; persons := persons d; contacts := contacts d;
     audits := (audits d ++ [a])%list; new_ids := new_ids d |}.

Definition set_booked (n : Z) (s : slot_row) : slot_row :=
  {| s_id := s_id s; s_event := s_event s; s_therapy := s_therapy s; s_date := s_date s;
     s_start := s_start s; s_end := s_end s; s_capacity := s_capacity s; s_booked := n |}.
Definition set_slot_range (end_ : string) (capacity : Z) (s : slot_row) : slot_row :=
  {| s_id := s_id s; s_event := s_event s; s_therapy := s_therapy s; s_date := s_date s;
     s_start := s_start s; s_end := end_; s_capacity := capacity; s_booked := s_booked s |}.
Definition set_status (st : string) (p : patient_row) : patient_row :=
  {| p_id := p_id p; p_event := p_event p; p_therapy := p_therapy p; p_contact := p_contact p;
     p_name_enc := p_name_enc p; p_birth_enc := p_birth_enc p; p_name := p_name p; p_birth := p_birth p;
     p_complaint := p_complaint p; p_preferred := p_preferred p; p_status := st; p_slot := p_slot p;
     p_deleted := p_deleted p |}.
Definition set_slot (s : option string) (p : patient_row) : patient_row :=
  {| p_id := p_id p; p_event := p_event p; p_therapy := p_therapy p; p_contact := p_contact p;
     p_name_enc := p_name_enc p; p_birth_enc := p_birth_enc p; p_name := p_name p; p_birth := p_birth p;
     p_complaint := p_complaint p; p_preferred := p_preferred p; p_status := p_status p; p_slot := s;
     p_deleted := p_deleted p |}.
Definition set_deleted (p : patient_row) : patient_row :=
  {| p_id := p_id p; p_event := p_event p; p_therapy := p_therapy p; p_contact := p_contact p;
     p_name_enc := p_name_enc p; p_birth_enc := p_birth_enc p; p_name := p_name p; p_birth := p_birth p;
     p_complaint := p_complaint p; p_preferred := p_preferred p; p_status := p_status p;
     p_slot := p_slot p; p_deleted := true |}.

Abbreviation ev A := (prog (pg evdb) A).

Definition find_slot (id : string) (d : evdb) : option slot_row :=
  List.find (fun s => String.eqb (s_id s) id) (slots d).
Definition update_slot (id : string) (f : slot_row -> slot_row) (d : evdb) : evdb :=
  set_slots (map (fun s => if String.eqb (s_id s) id then f s else s) (slots d)) d.
(** UPDATE evt_patient … WHERE id = $ AND event_id = $ *)
Definition update_patient (id event : string) (f : patient_row -> patient_row) (d : evdb) : evdb :=
  set_patients (map (fun p => if String.eqb (p_id p) id && String.eqb (p_event p) event then f p else p)
                  (patients d)) d.
Definition find_patient (id event : string) (d : evdb) : option patient_row :=
  List.find (fun p => String.eqb (p_id p) id && String.eqb (p_event p) event && negb (p_deleted p)) (patients d).

(** idx_evt_patient_dup: unique (event, name, birth) among the rows that are
    not deleted and not cancelled *)
Definition active (p : patient_row) : bool := negb (p_deleted p) && negb (String.eqb (p_status p) "CANCELLED").
Definition same_person (p q : patient_row) : bool :=
  String.eqb (p_event p) (p_event q) && String.eqb (p_name p) (p_name q) && String.eqb (p_birth p) (p_birth q).
Fixpoint patients_unique (l : list patient_row) : bool :=
  match l with
  | [] => true
  | p :: l' => negb (active p && existsb (fun q => active q && same_person p q) l') && patients_unique l'
  end.
Definition duplicate_error : error :=
  EText "duplicate key value violates unique constraint idx_evt_patient_dup".
(** a write to evt_patient, checked against the unique index *)
Definition write_patients (f : evdb -> evdb) : ev unit :=
  stmt (fun d => let d' := f d in
    if patients_unique (patients d') then (Ok tt, d') else (Err duplicate_error, d)).

(** ** Errors and users *)
Definition NotFound_ (msg : string) : error := ECode NotFound msg.
Definition Internal_ (e : error) : error := ECode Internal (error_text e).
Definition or_internal {A} (m : ev A) : ev A :=
  let! r := attempt m in match r with Ok a => ret a | Err e => throw (Internal_ e) end.

Definition mustUser (u : option AuthUser) : result AuthUser :=
  match u with
  | None => Err (ECode Unauthenticated "not authenticated")
  | Some user =>
      if negb (HasEffectiveTenantContext u) then Err (ECode PermissionDenied "tenant context required")
      else match RequireModule u "advanced" with Some e => Err e | None => Ok user end
  end.
Definition assertOwner (u : AuthUser) : option error :=
  if negb (CanPerformOwnerActions (Some u)) then
    Some (ECode PermissionDenied "only owner can perform this action") else None.
Definition as_owner {A} (u : option AuthUser) (k : ev A) : ev A :=
  match mustUser u with
  | Err e => throw e
  | Ok user => match assertOwner user with Some e => throw e | None => k end
  end.
(** best effort *)
Definition auditEvent (entity id action : string) : ev unit := ignore (exec (add_audit (entity, id, action))).

Definition find_event (id : string) (d : evdb) : option event_row :=
  List.find (fun e => String.eqb (e_id e) id && negb (e_deleted e)) (events d).
Definition assertEventMutable (eventID : string) : ev unit :=
  let! e := or_internal (read (find_event eventID)) in
  match e with
  | None => throw (NotFound_ "acara tidak ditemukan")
  | Some e =>
      if String.eqb (ToUpper (e_status e)) "ARCHIVED" then throw (BadRequest "acara diarsipkan — tidak dapat diubah")
      else ret tt
  end.

(** ** Capacity *)
Definition count_if {A} (f : A -> bool) (l : list A) : Z := Z.of_nat (length (List.filter f l)).
Definition present (p : person_row) : bool :=
  String.eqb (pe_attendance p) "PRESENT" || String.eqb (pe_attendance p) "PARTIAL".
Definition is_shijie (event : string) (p : person_row) : bool :=
  String.eqb (pe_event p) event && String.eqb (pe_type p) "SHIJIE" && negb (pe_deleted p) && present p.
Definition is_therapist (event therapy : string) (p : person_row) : bool :=
  String.eqb (pe_event p) event && existsb (String.eqb therapy) (pe_therapies p) && negb (pe_deleted p)
  && existsb (String.eqb (pe_type p)) ["THERAPIST"; "SHIJIE"; "DAOSHI"; "FASHI"] && present p.
Definition positive_max (m : option Z) : Z :=
  match m with Some n => if 0 <? n then n else 1 | None => 1 end.
Definition computeTherapyCapacity (eventID therapyID mode : string) (maxCap : option Z) : ev Z :=
  let m := ToUpper mode in
  if String.eqb m "SHIJIE_COUNT" then read (fun d => count_if (is_shijie eventID) (persons d))
  else if String.eqb m "FIXED" then ret (positive_max maxCap)
  else
    let! n := read (fun d => count_if (is_therapist eventID therapyID) (persons d)) in
    ret (if 0 <? n then n else positive_max maxCap).

Definition of_therapy (event therapy : string) (s : slot_row) : bool :=
  String.eqb (s_event s) event && String.eqb (s_therapy s) therapy.
Definition sum_capacity (l : list slot_row) : Z := fold_right (fun s n => s_capacity s + n) 0 l.
Definition therapyMaxCapacity (eventID therapyID capMode : string) (maxCap : option Z) : ev Z :=
  let! slotSum := read (fun d => sum_capacity (List.filter (of_therapy eventID therapyID) (slots d))) in
  if 0 <? slotSum then ret slotSum else computeTherapyCapacity eventID therapyID capMode maxCap.

(** ** Picking and booking a slot *)
Definition slot_before (a b : slot_row) : bool :=
  (s_date a <? s_date b) || ((s_date a =? s_date b) && string_ltb (s_start a) (s_start b)).
Fixpoint insert_slot (x : slot_row) (l : list slot_row) : list slot_row :=
  match l with [] => [x] | y :: l' => if slot_before x y then x :: l else y :: insert_slot x l' end.
Definition free_slots (event therapy : string) (d : evdb) : list slot_row :=
  fold_left (fun acc s => insert_slot s acc)
    (List.filter (fun s => of_therapy event therapy s && (s_booked s <? s_capacity s)) (slots d)) [].

(** the loop over the free slots *)
Fixpoint pick_loop (strict : bool) (preferred fallback : string) (rows : list slot_row) : string + string :=
  match rows with
  | [] => inr fallback
  | s :: rest =>
      if strict then
        if String.eqb preferred "" then pick_loop strict preferred fallback rest
        else if slotStartMatches (s_start s) preferred then inl (s_id s)
        else pick_loop strict preferred fallback rest
      else
        let fallback := if String.eqb fallback "" then s_id s else fallback in
        if negb (String.eqb preferred "") && slotStartMatches (s_start s) preferred then inl (s_id s)
        else pick_loop strict preferred fallback rest
  end.

Definition pickSlotForRegistration (eventID therapyID preferred : string) (strict : bool) : ev string :=
  let preferred := normalizePreferredTime preferred in
  let! total := read (fun d => count_if (of_therapy eventID therapyID) (slots d)) in
  if total =? 0 then
    throw (BadRequest "jadwal slot belum dibuat untuk terapi ini — owner perlu generate slot di tab Jadwal")
  else
    let! rows := read (free_slots eventID therapyID) in
    match pick_loop strict preferred "" rows with
    | inl id => ret id
    | inr fallback =>
        if strict then
          if String.eqb preferred "" then throw (BadRequest "pilih jam terapi terlebih dahulu")
          else throw (BadRequest ("slot pukul " ++ preferred ++ " sudah penuh atau tidak tersedia — pilih jam lain"))
        else if negb (String.eqb fallback "") then ret fallback
        else throw (BadRequest "tidak ada slot tersedia untuk terapi ini")
    end.

Definition lockAndIncrementSlot (slotID : string) : ev unit :=
  let! s := read (find_slot slotID) in
  match s with
  | None => throw (EText "sql: no rows in result set")
  | Some s =>
      if s_capacity s <=? s_booked s then throw (BadRequest "slot penuh")
      else exec (update_slot slotID (fun s => set_booked (s_booked s + 1) s))
  end.

(** UPDATE evt_patient SET slot_id WHERE id = $ *)
Definition link_patient (patientID slotID : string) (d : evdb) : evdb :=
  set_patients (map (fun p => if String.eqb (p_id p) patientID then set_slot (Some slotID) p else p) (patients d)) d.

Definition tryAssignPatientSlot (eventID patientID therapyID preferred : string) (strict : bool) : ev unit :=
  let preferred := TrimSpace preferred in
  if String.eqb preferred "" then ret tt
  else
    let! existing := read (fun d =>
      List.find (fun p => String.eqb (p_id p) patientID && negb (p_deleted p)) (patients d)) in
    match existing with
    | None => throw (EText "sql: no rows in result set")
    | Some p =>
        match p_slot p with
        | Some _ => ret tt
        | None =>
            let! sid := pickSlotForRegistration eventID therapyID preferred strict in
            lockAndIncrementSlot sid;!
            exec (link_patient patientID sid)
        end
    end.
Definition assignPatientSlotBestEffort (eventID patientID therapyID preferred : string) : ev unit :=
  in_tx (fun e => e) (tryAssignPatientSlot eventID patientID therapyID preferred false).

(** ** Registration *)
Class PatientFields := {
  encryptPatientField : string -> result string;
  patientBlindName : string -> string;
  normalizeBirthDate : string -> result string
}.
Record CreatePatientParams := {
  CP_ContactID : string; CP_FullName : string; CP_BirthDate : string; CP_TherapyID : string;
  CP_Complaint : string; CP_PreferredTime : string
}.
Definition maxPatientNameLen : nat := 200.
Definition maxComplaintLen : nat := 2000.
Definition maxPreferredTimeLen : nat := 120.
Definition clampLen (s : string) (max : nat) : string :=
  let s := TrimSpace s in
  if (0 <? max)%nat && (max <? String.length s)%nat then take_bytes max s else s.
Definition nullStr (s : string) : option string :=
  let s := TrimSpace s in if String.eqb s "" then None else Some s.
Definition trimmed (o : option string) : string := TrimSpace (default "" o).

(** the contact's id (empty: none), and the request completed from it *)
Definition resolvePatientContact (p : CreatePatientParams) : ev (string * CreatePatientParams) :=
  let contactID := TrimSpace (CP_ContactID p) in
  if String.eqb contactID "" then ret ("", p)
  else
    let! c := or_internal (read (fun d =>
      List.find (fun c => String.eqb (ct_id c) contactID && negb (ct_deleted c)) (contacts d))) in
    match c with
    | None => throw (NotFound_ "kontak tidak ditemukan")
    | Some c =>
        let fullName := TrimSpace (CP_FullName p) in
        let fullName := if String.eqb fullName "" then trimmed (ct_name c) else fullName in
        let fullName := if String.eqb fullName "" then trimmed (ct_phone c) else fullName in
        if String.eqb fullName "" then
          throw (BadRequest "kontak tidak punya nama — isi nama di kontak atau ketik manual")
        else
          let bd := TrimSpace (CP_BirthDate p) in
          let bd := if String.eqb bd "" then take_bytes 10 (trimmed (ct_birth c)) else bd in
          if String.eqb bd "" then
            throw (BadRequest ("tanggal lahir wajib — lengkapi di menu Contacts untuk " ++ fullName))
          else
            let complaint := TrimSpace (CP_Complaint p) in
            let complaint := if String.eqb complaint "" then trimmed (ct_notes c) else complaint in
            ret (contactID, {| CP_ContactID := CP_ContactID p; CP_FullName := fullName; CP_BirthDate := bd;
                               CP_TherapyID := CP_TherapyID p; CP_Complaint := complaint;
                               CP_PreferredTime := CP_PreferredTime p |})
    end.

Definition registrationOpen (now : Z) (openAt closeAt : option Z) : bool :=
  negb (match openAt with Some t => now <? t | None => false end)
  && negb (match closeAt with Some t => t <? now | None => false end).
Definition therapy_linked (event therapy : string) (d : evdb) : bool :=
  existsb (fun t => String.eqb (et_event t) event && String.eqb (et_therapy t) therapy) (therapies d).
Definition assertEventExists (eventID : string) : ev unit :=
  let! e := or_internal (read (find_event eventID)) in
  match e with None => throw (NotFound_ "acara tidak ditemukan") | Some _ => ret tt end.

Definition duplicate_key (index : string) : error :=
  EText ("duplicate key value violates unique constraint " ++ index).
Definition fk_error (key : string) : error := EText ("violates foreign key constraint " ++ key).
Definition slot_exists (slot : option string) (d : evdb) : bool :=
  match slot with None => true | Some id => existsb (fun s => String.eqb (s_id s) id) (slots d) end.
(** INSERT … RETURNING id: primary key, slot reference, unique index *)
Definition insert_patient (mk : string -> patient_row) : ev string :=
  stmt (fun d =>
    let id := default "" (head (new_ids d)) in
    let d' := set_ids (tail (new_ids d)) (set_patients (patients d ++ [mk id])%list d) in
    if existsb (fun p => String.eqb (p_id p) id) (patients d) then (Err (duplicate_key "evt_patient_pkey"), d)
    else if negb (slot_exists (p_slot (mk id)) d) then (Err (fk_error "evt_patient_slot_id_fkey"), d)
    else if patients_unique (patients d') then (Ok id, d') else (Err duplicate_error, d)).
Definition isDuplicateKeyErr (e : error) : bool :=
  let msg := ToLower (error_text e) in Contains msg "duplicate key" || Contains msg "idx_evt_patient_dup".

(** the transaction of a registration *)
Definition registration_tx (eventID therapyID preferred : string) (strict assignSlot : bool)
    (mk : option string -> string -> patient_row) : ev string :=
  let! slotID := (if assignSlot then
      let! sid := pickSlotForRegistration eventID therapyID (TrimSpace preferred) strict in
      lockAndIncrementSlot sid;! ret (Some sid)
    else ret None) in
  let! id := attempt (insert_patient (mk slotID)) in
  match id with
  | Ok id => ret id
  | Err e => if isDuplicateKeyErr e then throw (BadRequest "pasien sudah terdaftar untuk acara ini")
             else throw (Internal_ e)
  end.

Section handlers.
Context `{PatientFields}.

Definition createPatientForEvent (eventID : string) (p : CreatePatientParams) (now : Z)
    (requirePublished assignSlot : bool) : ev string :=
  let! resolved := resolvePatientContact p in
  let '(contactID, p) := resolved in
  let fullName := clampLen (CP_FullName p) maxPatientNameLen in
  let complaint := clampLen (CP_Complaint p) maxComplaintLen in
  let preferred := clampLen (CP_PreferredTime p) maxPreferredTimeLen in
  let therapyID := TrimSpace (CP_TherapyID p) in
  if String.eqb (TrimSpace fullName) "" then throw (BadRequest "nama pasien wajib diisi")
  else if String.eqb therapyID "" then throw (BadRequest "terapi wajib dipilih")
  else
    match normalizeBirthDate (CP_BirthDate p) with
    | Err e => throw e
    | Ok normBirth =>
    match encryptPatientField (TrimSpace fullName) with
    | Err e => throw e
    | Ok encName =>
    match encryptPatientField normBirth with
    | Err e => throw e
    | Ok encBirth =>
        (if requirePublished then assertEventMutable eventID
         else assertEventExists eventID;! assertEventMutable eventID);!
        (if requirePublished then
           let! e := or_internal (read (find_event eventID)) in
           match e with
           | None => throw (NotFound_ "acara tidak ditemukan")
           | Some e =>
               if negb (String.eqb (ToUpper (e_status e)) "PUBLISHED") then throw (BadRequest "Pendaftaran telah ditutup.")
               else if negb (registrationOpen now (e_open e) (e_close e)) then throw (BadRequest "Pendaftaran telah ditutup.")
               else ret tt
           end
         else ret tt);!
        let! linked := or_internal (read (therapy_linked eventID therapyID)) in
        if negb linked then throw (BadRequest "terapi tidak tersedia untuk acara ini")
        else
          let name := patientBlindName fullName in
          let! dup := or_internal (read (fun d => existsb (fun q => active q && String.eqb (p_event q) eventID
            && String.eqb (p_name q) name && String.eqb (p_birth q) normBirth) (patients d))) in
          if dup then throw (BadRequest "pasien sudah terdaftar untuk acara ini")
          else
            let! patientID := in_tx Internal_
              (registration_tx eventID therapyID preferred requirePublished assignSlot (fun slot id =>
                {| p_id := id; p_event := eventID; p_therapy := therapyID;
                   p_contact := if String.eqb contactID "" then None else Some contactID;
                   p_name_enc := encName; p_birth_enc := encBirth; p_name := name; p_birth := normBirth;
                   p_complaint := nullStr complaint; p_preferred := nullStr preferred;
                   p_status := "CONFIRMED"; p_slot := slot; p_deleted := false |})) in
            auditEvent "patient" patientID (if requirePublished then "public_register" else "admin_create");!
            ret patientID
    end end end.

Definition registerPatient (eventID : string) (p : CreatePatientParams) (now : Z) : ev string :=
  createPatientForEvent eventID p now true true.
Definition CreateEventPatient (u : option AuthUser) (eventID : string) (p : option CreatePatientParams) (now : Z)
  : ev string :=
  as_owner u
    match p with
    | None => throw (BadRequest "data pasien wajib diisi")
    | Some p => createPatientForEvent eventID p now false (negb (String.eqb (TrimSpace (CP_PreferredTime p)) ""))
    end.

(** ** Status changes, edits, deletions *)
Definition valid_status (st : string) : bool :=
  String.eqb st "CONFIRMED" || String.eqb st "CANCELLED" || String.eqb st "COMPLETED".
(** GREATEST(0, booked_count - 1) *)
Definition release_slot (slotID : string) : ev unit :=
  ignore (exec (update_slot slotID (fun s => set_booked (Z.max 0 (s_booked s - 1)) s))).

Definition status_tx (eventID patientID st : string) : ev unit :=
  let! p := or_internal (read (find_patient patientID eventID)) in
  match p with
  | None => throw (NotFound_ "pasien tidak ditemukan")
  | Some p =>
      (match p_slot p with
       | Some sid =>
           if String.eqb st "CANCELLED" && String.eqb (p_status p) "CONFIRMED" then release_slot sid else ret tt
       | None => ret tt
       end);!
      or_internal (write_patients (update_patient patientID eventID (set_status st)))
  end.
Definition UpdatePatientStatus (u : option AuthUser) (eventID patientID status : string) : ev unit :=
  as_owner u
    (let st := ToUpper (TrimSpace status) in
     if negb (valid_status st) then throw (BadRequest "status reservasi tidak valid")
     else
       assertEventMutable eventID;!
       in_tx Internal_ (status_tx eventID patientID st);!
       auditEvent "patient" patientID "status").

Record UpdatePatientParams := {
  UP_FullName : string; UP_BirthDate : string; UP_TherapyID : string; UP_Complaint : string;
  UP_PreferredTime : string; UP_ReservationStatus : string
}.
Definition edit_row (encName encBirth name birth therapy : string) (complaint preferred : option string)
    (st : string) (p : patient_row) : patient_row :=
  if p_deleted p then p
  else {| p_id := p_id p; p_event := p_event p; p_therapy := therapy; p_contact := p_contact p;
          p_name_enc := encName; p_birth_enc := encBirth; p_name := name; p_birth := birth;
          p_complaint := complaint; p_preferred := preferred; p_status := st; p_slot := p_slot p;
          p_deleted := p_deleted p |}.
Definition edit_tx (eventID patientID therapyID preferredTime : string) (edit : patient_row -> patient_row) : ev unit :=
  or_internal (write_patients (update_patient patientID eventID edit));!
  ignore (tryAssignPatientSlot eventID patientID therapyID preferredTime false).
Definition UpdateEventPatient (u : option AuthUser) (eventID patientID : string) (p : option UpdatePatientParams)
  : ev unit :=
  as_owner u
    match p with
    | None => throw (BadRequest "data pasien wajib diisi")
    | Some p =>
        let fullName := clampLen (UP_FullName p) maxPatientNameLen in
        if String.eqb (TrimSpace fullName) "" then throw (BadRequest "nama pasien wajib diisi")
        else if String.eqb (TrimSpace (UP_TherapyID p)) "" then throw (BadRequest "terapi wajib dipilih")
        else
          match normalizeBirthDate (UP_BirthDate p) with
          | Err e => throw e
          | Ok normBirth =>
          match encryptPatientField (TrimSpace fullName) with
          | Err e => throw e
          | Ok encName =>
          match encryptPatientField normBirth with
          | Err e => throw e
          | Ok encBirth =>
              assertEventMutable eventID;!
              let! linked := attempt (read (therapy_linked eventID (UP_TherapyID p))) in
              match linked with
              | Ok true =>
                  let st := ToUpper (TrimSpace (UP_ReservationStatus p)) in
                  let st := if String.eqb st "" then "CONFIRMED" else st in
                  if negb (valid_status st) then throw (BadRequest "status reservasi tidak valid")
                  else
                    in_tx Internal_ (edit_tx eventID patientID (UP_TherapyID p) (UP_PreferredTime p)
                      (edit_row encName encBirth (patientBlindName fullName) normBirth (UP_TherapyID p)
                         (nullStr (UP_Complaint p)) (nullStr (UP_PreferredTime p)) st))
              | _ => throw (BadRequest "terapi tidak tersedia untuk acara ini")
              end
          end end end
    end.

Definition deleteEventPatientInTx (eventID patientID : string) : ev unit :=
  let! p := or_internal (read (find_patient patientID eventID)) in
  match p with
  | None => throw (NotFound_ "pasien tidak ditemukan")
  | Some p =>
      (match p_slot p with
       | Some sid => if String.eqb (p_status p) "CONFIRMED" then release_slot sid else ret tt
       | None => ret tt
       end);!
      or_internal (exec (update_patient patientID eventID set_deleted))
  end.
Definition DeleteEventPatient (u : option AuthUser) (eventID patientID : string) : ev unit :=
  as_owner u
    (assertEventMutable eventID;!
     in_tx Internal_ (deleteEventPatientInTx eventID patientID);!
     auditEvent "patient" patientID "delete").

(** deleted, failed, errors *)
Fixpoint delete_patients (eventID : string) (ids seen : list string) (acc : Z * Z * list string)
  : ev (Z * Z * list string) :=
  match ids with
  | [] => ret acc
  | rawID :: rest =>
      let id := TrimSpace rawID in
      if String.eqb id "" || existsb (String.eqb id) seen then delete_patients eventID rest seen acc
      else
        let '(deleted, failed, errors) := acc in
        let! b := attempt begin_tx in
        match b with
        | Err e => throw (Internal_ e)
        | Ok _ =>
            let! r := attempt (deleteEventPatientInTx eventID id) in
            match r with
            | Err e =>
                rollback_tx;!
                let what := match e with ECode NotFound _ => "pasien tidak ditemukan" | _ => error_text e end in
                delete_patients eventID rest (id :: seen)
                  (deleted, failed + 1, (errors ++ [(id ++ ": " ++ what)%string])%list)
            | Ok _ =>
                let! c := attempt commit_tx in
                match c with
                | Err _ =>
                    delete_patients eventID rest (id :: seen)
                      (deleted, failed + 1, (errors ++ [(id ++ ": gagal menghapus")%string])%list)
                | Ok _ =>
                    auditEvent "patient" id "delete_bulk_item";!
                    delete_patients eventID rest (id :: seen) (deleted + 1, failed, errors)
                end
            end
        end
  end.
Definition DeletePatientsBulk (u : option AuthUser) (eventID : string) (ids : list string)
  : ev (Z * Z * list string) :=
  as_owner u
    (if Nat.eqb (length ids) 0 then throw (BadRequest "pilih minimal satu pasien")
     else assertEventMutable eventID;! delete_patients eventID ids [] (0, 0, [])).

(** ** Deleting slots *)
(** [None]: the slot was deleted; otherwise why not *)
Definition slot_in_event (slotID eventID : string) (d : evdb) : option slot_row :=
  List.find (fun s => String.eqb (s_id s) slotID && String.eqb (s_event s) eventID) (slots d).
Definition linked_to (slotID : string) (p : patient_row) : bool := bool_decide (p_slot p = Some slotID).
Definition detach_deleted (slotID : string) (d : evdb) : evdb :=
  set_patients (map (fun p => if linked_to slotID p && p_deleted p then set_slot None p else p) (patients d)) d.
(** DELETE FROM evt_time_slot WHERE …, refused while a patient row (deleted or
    not) refers to one of the slots *)
Definition delete_where (f : slot_row -> bool) (d : evdb) : result unit * evdb :=
  if existsb (fun s => f s && existsb (linked_to (s_id s)) (patients d)) (slots d)
  then (Err (fk_error "evt_patient_slot_id_fkey"), d)
  else (Ok tt, set_slots (List.filter (fun s => negb (f s)) (slots d)) d).
Definition remove_slot (slotID eventID : string) : ev unit :=
  stmt (delete_where (fun s => String.eqb (s_id s) slotID && String.eqb (s_event s) eventID)).
Definition delete_slot (eventID slotID : string) : ev (option string) :=
  let! s := or_internal (read (slot_in_event slotID eventID)) in
  match s with
  | None => ret (Some "slot tidak ditemukan")
  | Some s =>
      if 0 <? s_booked s then ret (Some "slot sudah terisi pasien")
      else
        let! linked := or_internal (read (fun d =>
          count_if (fun p => linked_to slotID p && negb (p_deleted p)) (patients d))) in
        if 0 <? linked then ret (Some "slot masih dipakai data pasien")
        else
          or_internal (exec (detach_deleted slotID));!
          or_internal (remove_slot slotID eventID);!
          ret None
  end.

Definition DeleteTimeSlot (u : option AuthUser) (eventID slotID : string) : ev unit :=
  as_owner u
    (assertEventMutable eventID;!
     let! r := delete_slot eventID slotID in
     match r with
     | Some why =>
         if String.eqb why "slot tidak ditemukan" then throw (NotFound_ "slot tidak ditemukan")
         else throw (BadRequest (why ++ ", tidak bisa dihapus"))
     | None => auditEvent "time_slot" slotID "delete"
     end).

(** deleted, blocked, errors *)
Fixpoint delete_slots (eventID : string) (ids seen : list string) (acc : Z * Z * list string)
  : ev (Z * Z * list string) :=
  match ids with
  | [] => ret acc
  | rawID :: rest =>
      let id := TrimSpace rawID in
      if String.eqb id "" || existsb (String.eqb id) seen then delete_slots eventID rest seen acc
      else
        let '(deleted, blocked, errors) := acc in
        let! r := delete_slot eventID id in
        match r with
        | Some why => delete_slots eventID rest (id :: seen)
            (deleted, blocked + 1, (errors ++ [(id ++ ": " ++ why)%string])%list)
        | None =>
            auditEvent "time_slot" id "delete_bulk_item";!
            delete_slots eventID rest (id :: seen) (deleted + 1, blocked, errors)
        end
  end.
Definition DeleteTimeSlotsBulk (u : option AuthUser) (eventID : string) (ids : list string)
  : ev (Z * Z * list string) :=
  as_owner u
    (if Nat.eqb (length ids) 0 then throw (BadRequest "pilih minimal satu slot")
     else assertEventMutable eventID;! delete_slots eventID ids [] (0, 0, [])).

(** ** Generating slots *)
Definition template_before (a b : template_row) : bool :=
  (tp_order a <? tp_order b) || ((tp_order a =? tp_order b) && string_ltb (tp_start a) (tp_start b)).
Fixpoint insert_template (x : template_row) (l : list template_row) : list template_row :=
  match l with [] => [x] | y :: l' => if template_before x y then x :: l else y :: insert_template x l' end.
Definition loadManualDaySlots (eventTherapyID : string) : ev (list slotRange) :=
  let! rows := or_internal (read (fun d =>
    fold_left (fun acc t => insert_template t acc)
      (List.filter (fun t => String.eqb (tp_et t) eventTherapyID) (templates d)) [])) in
  if Nat.eqb (length rows) 0 then
    throw (BadRequest "belum ada daftar slot manual — simpan pengaturan terapi dulu")
  else ret (map (fun t => {| sl_start := padTime (tp_start t); sl_end := padTime (tp_end t);
    sl_capacity := if tp_capacity t <=? 0 then 1 else tp_capacity t |}) rows).

Definition slot_key (event therapy : string) (date : Z) (start : string) (s : slot_row) : bool :=
  of_therapy event therapy s && (s_date s =? date) && String.eqb (s_start s) start.
(** INSERT … ON CONFLICT (event_id, therapy_id, slot_date, start_time) DO UPDATE *)
Definition upsert_slot (event therapy : string) (date : Z) (start end_ : string) (capacity : Z) (d : evdb)
  : result unit * evdb :=
  if existsb (slot_key event therapy date start) (slots d) then
    (Ok tt, set_slots (map (fun s =>
      if slot_key event therapy date start s then set_slot_range end_ capacity s else s) (slots d)) d)
  else
    let id := default "" (head (new_ids d)) in
    if existsb (fun s => String.eqb (s_id s) id) (slots d) then (Err (duplicate_key "evt_time_slot_pkey"), d)
    else (Ok tt, set_ids (tail (new_ids d)) (set_slots (slots d ++
      [{| s_id := id; s_event := event; s_therapy := therapy; s_date := date;
          s_start := start; s_end := end_; s_capacity := capacity; s_booked := 0 |}])%list d)).

Fixpoint upsert_all (event therapy : string) (date : Z) (fixed : bool) (capacity : Z) (l : list slotRange)
  : ev unit :=
  match l with
  | [] => ret tt
  | sl :: rest =>
      or_internal (stmt (upsert_slot event therapy date (sl_start sl) (sl_end sl)
        (if fixed && (0 <? sl_capacity sl) then sl_capacity sl else capacity)));!
      upsert_all event therapy date fixed capacity rest
  end.

Definition in_window (lo hi : string) (s : slot_row) : bool :=
  negb (string_ltb (s_start s) lo) && string_ltb (s_start s) hi.
Definition cleanupBreakWindowSlots (event therapy breakStart breakEnd : string) : ev string :=
  let here s := of_therapy event therapy s && in_window breakStart breakEnd s in
  let! blocked := or_internal (read (fun d => count_if (fun s => here s && (0 <? s_booked s)) (slots d))) in
  if 0 <? blocked then
    ret (pretty blocked ++ " slot di jendela istirahat masih berisi pasien — pindahkan pasien lalu generate ulang")
  else
    or_internal (stmt (delete_where (fun s => here s && (s_booked s =? 0))));!
    ret "".

(** more slots than any day has, at a minute each *)
Definition slots_fuel : nat := Z.to_nat (zero_clock / Minute + 1441).
Definition out_of_fuel : error := EText "out of fuel".

(** the loop over the days *)
Fixpoint generate_days (eventID therapyID : string) (t : therapy_row) (templateSlots : list slotRange)
    (dayStart dayEnd : string) (dur : Z) (bs be : option string) (days : list Z) (created : Z) : ev Z :=
  match days with
  | [] => ret created
  | d :: rest =>
      let! capacity := computeTherapyCapacity eventID therapyID (et_capacity_mode t) (et_max t) in
      match (if Nat.eqb (length templateSlots) 0 then buildDaySlotsWithBreak slots_fuel dayStart dayEnd dur bs be
             else Some (Ok templateSlots)) with
      | None => throw out_of_fuel
      | Some (Err e) => throw e
      | Some (Ok l) =>
          upsert_all eventID therapyID d (String.eqb (ToUpper (et_capacity_mode t)) "FIXED") capacity l;!
          generate_days eventID therapyID t templateSlots dayStart dayEnd dur bs be rest
            (created + Z.of_nat (length l))
      end
  end.

Definition nonblank (o : option string) : option string :=
  match o with Some s => if String.eqb (TrimSpace s) "" then None else Some (TrimSpace s) | None => None end.

(** created, warning *)
Definition GenerateTimeSlots (u : option AuthUser) (eventID therapyID : string) : ev (Z * string) :=
  as_owner u
    (assertEventMutable eventID;!
     let! e := attempt (read (find_event eventID)) in
     match e with
     | Err _ | Ok None => throw (NotFound_ "acara tidak ditemukan")
     | Ok (Some e) =>
         let! t := attempt (read (fun d => List.find (fun t =>
           String.eqb (et_event t) eventID && String.eqb (et_therapy t) therapyID) (therapies d))) in
         match t with
         | Err _ | Ok None => throw (BadRequest "aturan terapi untuk acara ini belum dikonfigurasi")
         | Ok (Some t) =>
             let mode := ToUpper (if String.eqb (et_mode t) "" then "AUTO" else et_mode t) in
             let dayStart := default (e_start e) (et_start t) in
             let dayEnd := default (e_end e) (et_end t) in
             let dur := if et_duration t <=? 0 then 30 else et_duration t in
             let! templateSlots := (if String.eqb mode "MANUAL" then loadManualDaySlots (et_id t) else ret []) in
             let '(bs, be) :=
               if String.eqb mode "AUTO" then
                 match nonblank (e_break_start e), nonblank (e_break_end e) with
                 | Some bs, Some be => (Some bs, Some be)
                 | _, _ => (None, None)
                 end
               else (None, None) in
             let! created := generate_days eventID therapyID t templateSlots dayStart dayEnd dur bs be
               (seqZ (e_start_date e) (e_end_date e - e_start_date e + 1)) 0 in
             let! warn := (match bs, be with
               | Some bs, Some be => cleanupBreakWindowSlots eventID therapyID bs be
               | _, _ => ret ""
               end) in
             auditEvent "time_slot" eventID "generate";!
             ret (created, warn)
         end
     end).
End handlers.

(** ** The accounting invariant

    [seats]: the confirmed patients on a slot.  [accounted]: every confirmed
    patient holds a counted seat, patients refer to existing slots, ids are
    unique.  [within_capacity]: no slot is booked beyond its capacity. *)
Definition live (slotID : string) (p : patient_row) : bool :=
  negb (p_deleted p) && String.eqb (p_status p) "CONFIRMED" && linked_to slotID p.
Definition seats (slotID : string) (d : evdb) : Z := count_if (live slotID) (patients d).
Record accounted (d : evdb) : Prop := {
  ac_ids : NoDup (map p_id (patients d));
  ac_slots : forall p sid, p ∈ patients d -> p_slot p = Some sid -> sid ∈ map s_id (slots d);
  ac_seats : forall s, s ∈ slots d -> seats (s_id s) d <= s_booked s
}.
Definition within_capacity (d : evdb) : Prop := forall s, s ∈ slots d -> 0 <= s_booked s <= s_capacity s.

Inductive op : Type :=
  | OpCreate (u : option AuthUser) (eventID : string) (p : option CreatePatientParams) (now : Z)
  | OpRegister (eventID : string) (p : CreatePatientParams) (now : Z)
  | OpStatus (u : option AuthUser) (eventID patientID status : string)
  | OpEdit (u : option AuthUser) (eventID patientID : string) (p : option UpdatePatientParams)
  | OpDelete (u : option AuthUser) (eventID patientID : string)
  | OpDeleteBulk (u : option AuthUser) (eventID : string) (ids : list string)
  | OpAssign (eventID patientID therapyID preferred : string)
  | OpDeleteSlot (u : option AuthUser) (eventID slotID : string)
  | OpDeleteSlots (u : option AuthUser) (eventID : string) (ids : list string)
  | OpGenerate (u : option AuthUser) (eventID therapyID : string).
Definition run_op `{PatientFields} (o : op) : ev unit :=
  match o with
  | OpCreate u e p now => CreateEventPatient u e p now;! ret tt
  | OpRegister e p now => registerPatient e p now;! ret tt
  | OpStatus u e p st => UpdatePatientStatus u e p st
  | OpEdit u e id p => UpdateEventPatient u e id p
  | OpDelete u e p => DeleteEventPatient u e p
  | OpDeleteBulk u e ids => DeletePatientsBulk u e ids;! ret tt
  | OpAssign e p t pref => assignPatientSlotBestEffort e p t pref
  | OpDeleteSlot u e s => DeleteTimeSlot u e s
  | OpDeleteSlots u e ids => DeleteTimeSlotsBulk u e ids;! ret tt
  | OpGenerate u e t => GenerateTimeSlots u e t;! ret tt
  end.
(** setting back to confirmed a patient that is not, and still names a slot *)
Definition unconfirmed_on_slot (d : evdb) (eventID patientID : string) : Prop :=
  exists p sid, p ∈ patients d /\ p_id p = patientID /\ p_event p = eventID /\ p_deleted p = false /\
    p_slot p = Some sid /\ p_status p <> "CONFIRMED".
Definition edit_status (p : UpdatePatientParams) : string :=
  let st := ToUpper (TrimSpace (UP_ReservationStatus p)) in if String.eqb st "" then "CONFIRMED" else st.
Definition reconfirms (d : evdb) (o : op) : Prop :=
  match o with
  | OpStatus _ e p st => ToUpper (TrimSpace st) = "CONFIRMED" /\ unconfirmed_on_slot d e p
  | OpEdit _ e id (Some p) => edit_status p = "CONFIRMED" /\ unconfirmed_on_slot d e id
  | _ => False
  end.

(** ** Lemmas: counting *)
Lemma count_if_cons {A} (f : A -> bool) x l : count_if f (x :: l) = (if f x then 1 else 0) + count_if f l.
Proof. unfold count_if. cbn. destruct (f x); cbn [length]; lia. Qed.
Lemma count_if_app {A} (f : A -> bool) l m : count_if f (l ++ m) = count_if f l + count_if f m.
Proof. unfold count_if. rewrite List.filter_app, length_app. lia. Qed.
Lemma count_if_nonneg {A} (f : A -> bool) l : 0 <= count_if f l.
Proof. unfold count_if. lia. Qed.
Lemma count_if_zero {A} (f : A -> bool) l : (forall x, x ∈ l -> f x = false) -> count_if f l = 0.
Proof.
  intros Hf. induction l as [|x l IH]; [done|]. rewrite count_if_cons, Hf, IH; [done| |by left].
  intros y Hy. apply Hf. by right.
Qed.
Lemma count_if_pos {A} (f : A -> bool) l x : x ∈ l -> f x = true -> 0 < count_if f l.
Proof.
  intros Hx Hf. induction Hx as [x l|x y l Hx IH]; rewrite count_if_cons; [rewrite Hf|].
  - pose proof (count_if_nonneg f l). lia.
  - specialize (IH Hf). destruct (f y); lia.
Qed.

(** rewriting rows never adds a counted one *)
Lemma count_map_le {A} (f : A -> bool) (g : A -> A) l :
  (forall x, x ∈ l -> f (g x) = true -> f x = true) -> count_if f (map g l) <= count_if f l.
Proof.
  intros Hg. induction l as [|x l IH]; [done|]. cbn [map]. rewrite !count_if_cons.
  assert (count_if f (map g l) <= count_if f l) by (apply IH; intros y Hy; apply Hg; by right).
  specialize (Hg x ltac:(left)). destruct (f (g x)), (f x); try lia; by specialize (Hg eq_refl).
Qed.
(** … and uncounts [x] *)
Lemma count_map_drop {A} (f : A -> bool) (g : A -> A) l x :
  (forall x, x ∈ l -> f (g x) = true -> f x = true) -> x ∈ l -> f x = true -> f (g x) = false ->
  count_if f (map g l) + 1 <= count_if f l.
Proof.
  intros Hg Hx Hfx Hgx. induction Hx as [x l|x y l Hx IH]; cbn [map]; rewrite !count_if_cons.
  - rewrite Hgx, Hfx. assert (count_if f (map g l) <= count_if f l); [|lia].
    apply count_map_le. intros z Hz. apply Hg. by right.
  - specialize (IH ltac:(intros z Hz; apply Hg; by right) Hfx Hgx).
    specialize (Hg y ltac:(left)). destruct (f (g y)), (f y); try lia; by specialize (Hg eq_refl).
Qed.
(** only [x] may become counted *)
Lemma count_map_add (f : patient_row -> bool) g l id :
  NoDup (map p_id l) -> (forall x, x ∈ l -> p_id x <> id -> f (g x) = true -> f x = true) ->
  count_if f (map g l) <= count_if f l + 1.
Proof.
  intros Hnd Hg. induction l as [|x l IH]; [done|]. cbn [map] in *. apply NoDup_cons in Hnd as [Hx Hnd].
  rewrite !count_if_cons. destruct (decide (p_id x = id)) as [<-|Hne].
  - assert (count_if f (map g l) <= count_if f l).
    { apply count_map_le. intros y Hy. apply Hg; [by right|]. intros E. apply Hx. rewrite <- E.
      apply list_elem_of_In, in_map, list_elem_of_In. done. }
    destruct (f (g x)), (f x); lia.
  - specialize (IH Hnd ltac:(intros y Hy; apply Hg; by right)). specialize (Hg x ltac:(left) Hne).
    destruct (f (g x)), (f x); try lia; by specialize (Hg eq_refl).
Qed.

(** *** The tables after one statement *)
Lemma find_some_elem {A} (f : A -> bool) l x : List.find f l = Some x -> x ∈ l /\ f x = true.
Proof. intros H%List.find_some. by rewrite list_elem_of_In. Qed.
Lemma map_if_elem {A} (c : A -> bool) (g : A -> A) l y :
  y ∈ map (fun x => if c x then g x else x) l ->
  exists x, x ∈ l /\ (c x = true /\ y = g x \/ c x = false /\ y = x).
Proof.
  rewrite list_elem_of_In, in_map_iff. intros (x & <- & Hx). exists x. rewrite list_elem_of_In.
  destruct (c x); auto.
Qed.
Lemma map_ids (c : patient_row -> bool) g l :
  (forall p, p_id (g p) = p_id p) -> map p_id (map (fun p => if c p then g p else p) l) = map p_id l.
Proof. intros Hg. rewrite map_map. apply map_ext. intros p. by destruct (c p). Qed.
Lemma map_slot_ids (c : slot_row -> bool) g l :
  (forall s, s_id (g s) = s_id s) -> map s_id (map (fun s => if c s then g s else s) l) = map s_id l.
Proof. intros Hg. rewrite map_map. apply map_ext. intros p. by destruct (c p). Qed.

(** rewriting patients without adding seats or links *)
Definition tame (g : patient_row -> patient_row) (p : patient_row) : Prop :=
  p_id (g p) = p_id p /\ (p_slot (g p) = p_slot p \/ p_slot (g p) = None) /\
  forall sid, live sid (g p) = true -> live sid p = true.
Lemma accounted_patients d (c : patient_row -> bool) g :
  accounted d -> (forall p, p_id (g p) = p_id p) ->
  (forall p, p ∈ patients d -> c p = true -> tame g p) ->
  accounted (set_patients (map (fun p => if c p then g p else p) (patients d)) d).
Proof.
  intros [Hi Hs Hc] Hid Hg. split; cbn [patients slots set_patients].
  - by rewrite map_ids.
  - intros p sid (q & Hq & [[Hcq ->]|[_ ->]])%map_if_elem Hsl; [|by apply (Hs q)].
    destruct (Hg q Hq Hcq) as (_ & [E|E] & _); [|congruence]. apply (Hs q); congruence.
  - intros s Hin. etransitivity; [|by apply Hc]. unfold seats. cbn [patients set_patients].
    apply count_map_le. intros p Hp. destruct (c p) eqn:E; [|done]. by apply (Hg p Hp E).
Qed.
Lemma accounted_ids l d : accounted d -> accounted (set_ids l d).
Proof. by intros [? ? ?]. Qed.
Lemma accounted_audit a d : accounted d -> accounted (add_audit a d).
Proof. by intros [? ? ?]. Qed.

(** a state with one counted seat to spare on slot [sid] *)
Definition spare (sid : string) (d : evdb) : Prop :=
  accounted d /\ (exists s, s ∈ slots d /\ s_id s = sid) /\
  forall s, s ∈ slots d -> s_id s = sid -> seats sid d + 1 <= s_booked s.

Lemma update_slot_elem sid f d s :
  (forall s, s_id (f s) = s_id s) -> s ∈ slots (update_slot sid f d) ->
  exists s0, s0 ∈ slots d /\ s_id s0 = s_id s /\ (s_id s0 = sid /\ s = f s0 \/ s_id s0 <> sid /\ s = s0).
Proof.
  intros Hf (s0 & H0 & [[E ->]|[E ->]])%map_if_elem; exists s0; bool_facts; split_and!; auto.
Qed.

Lemma booked_more sid d :
  accounted d -> (exists s, s ∈ slots d /\ s_id s = sid) ->
  spare sid (update_slot sid (fun s => set_booked (s_booked s + 1) s) d).
Proof.
  intros [Hi Hs Hc] (s1 & Hs1 & <-).
  assert (forall s, s ∈ slots (update_slot (s_id s1) (fun s => set_booked (s_booked s + 1) s) d) ->
    seats (s_id s) d <= s_booked s /\ (s_id s = s_id s1 -> seats (s_id s1) d + 1 <= s_booked s)) as Hb.
  { intros s Hin. apply update_slot_elem in Hin as (s0 & H0 & E & [[E1 ->]|[E1 ->]]); [| |done];
      specialize (Hc _ H0); rewrite ?E in Hc; cbn [set_booked s_booked s_id] in *.
    - split; [lia|]. intros _. rewrite <- E1. lia.
    - split; [done|]. intros ?. congruence. }
  split; [split|split].
  - done.
  - intros p sid Hp Hsl. unfold update_slot. cbn [slots set_slots]. rewrite map_slot_ids by done. by apply (Hs p).
  - intros s Hin. by apply Hb.
  - exists (set_booked (s_booked s1 + 1) s1). split; [|done]. apply list_elem_of_In, in_map_iff.
    exists s1. rewrite String.eqb_refl. by rewrite <- list_elem_of_In.
  - intros s Hin E. by apply Hb.
Qed.

Lemma accounted_link sid pid d : spare sid d -> accounted (link_patient pid sid d).
Proof.
  intros ([Hi Hs Hc] & (s1 & Hs1 & <-) & Hsp). split; cbn [patients slots set_patients link_patient].
  - by rewrite map_ids.
  - intros p sid (q & Hq & [[Hcq ->]|[_ ->]])%map_if_elem Hsl; [|by apply (Hs q)].
    cbn in Hsl. injection Hsl as <-. apply list_elem_of_In, in_map, list_elem_of_In. done.
  - intros s Hin. unfold seats. cbn [patients set_patients link_patient].
    destruct (decide (s_id s = s_id s1)) as [E|Hne].
    + rewrite E. etransitivity; [|apply (Hsp s Hin E)]. apply (count_map_add _ _ _ pid); [done|].
      intros q Hq Hqi. by rewrite (proj2 (String.eqb_neq _ _) Hqi).
    + etransitivity; [|by apply Hc]. apply count_map_le. intros q Hq.
      destruct (String.eqb (p_id q) pid); [|done]. unfold live, linked_to. cbn [set_slot p_slot p_deleted p_status].
      rewrite bool_decide_eq_false_2 by congruence. by rewrite andb_false_r.
Qed.

Lemma accounted_release sid d (c : patient_row -> bool) g p :
  accounted d -> (forall q, p_id (g q) = p_id q) ->
  (forall q, q ∈ patients d -> c q = true -> tame g q) ->
  p ∈ patients d -> c p = true -> live sid p = true -> live sid (g p) = false ->
  let d1 := update_slot sid (fun s => set_booked (Z.max 0 (s_booked s - 1)) s) d in
  accounted (set_patients (map (fun q => if c q then g q else q) (patients d1)) d1).
Proof.
  intros [Hi Hs Hc] Hid Hg Hp Hcp Hlive Hdead d1. split; cbn [patients slots set_patients d1 update_slot set_slots].
  - by rewrite map_ids.
  - intros q sl (q0 & Hq & [[Hcq ->]|[_ ->]])%map_if_elem Hsl; rewrite map_slot_ids by done.
    + destruct (Hg q0 Hq Hcq) as (_ & [E|E] & _); [|congruence]. apply (Hs q0); congruence.
    + by apply (Hs q0).
  - intros s Hin. apply (update_slot_elem sid _ d) in Hin as (s0 & H0 & E & [[E1 ->]|[E1 ->]]); [| |done];
      specialize (Hc _ H0); unfold seats in *; cbn [patients set_patients set_booked s_id s_booked] in *.
    + rewrite E1 in *. assert (count_if (live sid) (map (fun q => if c q then g q else q) (patients d)) + 1
        <= count_if (live sid) (patients d)); [|lia].
      apply (count_map_drop _ _ _ p); [|done|done|by rewrite Hcp].
      intros q Hq. destruct (c q) eqn:Ec; [|done]. by apply (Hg q Hq Ec).
    + etransitivity; [|exact Hc]. apply count_map_le. intros q Hq.
      destruct (c q) eqn:Ec; [|done]. by apply (Hg q Hq Ec).
Qed.

(** *** What the transaction bodies do *)
Lemma tx_read_bind {A B} (f : evdb -> A) (k : A -> ev B) S :
  (forall a, tx_spec (k a) (S a)) -> tx_spec (bind (read f) k) (fun d r d' => S (f d) d r d').
Proof.
  intros Hk. eapply tx_weaken; [apply tx_bind; [apply tx_read|exact Hk]|]. cbn.
  intros d r d' [(a & d1 & [[= ->] ->] & HS)|(e & [[=] _] & _)]. done.
Qed.
Lemma tx_exec_bind {B} (f : evdb -> evdb) (k : unit -> ev B) S :
  tx_spec (k tt) S -> tx_spec (bind (exec f) k) (fun d r d' => S (f d) r d').
Proof.
  intros Hk. eapply tx_weaken; [eapply (tx_bind _ _ _ (fun _ => S)); [apply tx_exec|by intros []]|]. cbn.
  intros d r d' [(a & d1 & [[= ->] ->] & HS)|(e & [[=] _] & _)]. done.
Qed.
Lemma tx_or_internal {A} (m : ev A) R :
  tx_spec m R ->
  tx_spec (or_internal m) (fun d r d' =>
    (exists a, r = Ok a /\ R d (Ok a) d') \/ (exists e, r = Err (Internal_ e) /\ R d (Err e) d')).
Proof.
  intros Hm. unfold or_internal. eapply tx_weaken.
  - eapply (tx_bind _ _ _ (fun x d r d' => d' = d /\ r = match x with Ok a => Ok a | Err e => Err (Internal_ e) end));
      [apply tx_attempt, Hm|].
    intros [a|e]; (eapply tx_weaken; [first [apply tx_ret|apply tx_throw]|]; naive_solver).
  - cbn. intros d r d' [(x & d1 & (x' & [= ->] & HR) & -> & ->)|(e & (x & [=] & _) & _)].
    destruct x'; eauto.
Qed.
Lemma tx_or_internal_read {A} (f : evdb -> A) :
  tx_spec (or_internal (read f)) (fun d r d' => r = Ok (f d) /\ d' = d).
Proof.
  eapply tx_weaken; [apply tx_or_internal, tx_read|]. cbn.
  intros d r d' [(a & -> & [= ->] & ->)|(e & -> & [=] & _)]. done.
Qed.
Lemma tx_or_internal_read_bind {A B} (f : evdb -> A) (k : A -> ev B) S :
  (forall a, tx_spec (k a) (S a)) -> tx_spec (bind (or_internal (read f)) k) (fun d r d' => S (f d) d r d').
Proof.
  intros Hk. eapply tx_weaken; [apply tx_bind; [apply tx_or_internal_read|exact Hk]|]. cbn.
  intros d r d' [(a & d1 & [[= ->] ->] & HS)|(e & [[=] _] & _)]. done.
Qed.
Lemma tx_fail {A} e (S : evdb -> result A -> evdb -> Prop) :
  (forall d, S d (Err e) d) -> tx_spec (throw (A:=A) e) S.
Proof. intros HS. eapply tx_weaken; [apply tx_throw|]. by intros d r d' [-> ->]. Qed.
Lemma tx_done {A} (a : A) (S : evdb -> result A -> evdb -> Prop) :
  (forall d, S d (Ok a) d) -> tx_spec (ret a) S.
Proof. intros HS. eapply tx_weaken; [apply tx_ret|]. by intros d r d' [-> ->]. Qed.

Lemma insert_slot_elem x l y : y ∈ insert_slot x l -> y = x \/ y ∈ l.
Proof.
  induction l as [|z l IH]; cbn; [by rewrite list_elem_of_singleton; auto|].
  destruct (slot_before x z); [by intros ?%elem_of_cons|].
  intros [->|Hy]%elem_of_cons; [right; left|]. destruct (IH Hy) as [->|]; [by left|right; by right].
Qed.
Lemma free_slots_elem e t d s :
  s ∈ free_slots e t d -> s ∈ slots d /\ of_therapy e t s = true /\ s_booked s < s_capacity s.
Proof.
  unfold free_slots. set (l := List.filter _ _).
  assert (forall acc, s ∈ fold_left (fun acc s => insert_slot s acc) l acc -> s ∈ acc \/ s ∈ l) as Hf.
  { induction l as [|x l' IH]; intros acc; cbn; [auto|]. intros [Hs|Hs]%IH; [|right; by right].
    apply insert_slot_elem in Hs as [->|Hs]; [right; left|by left]. }
  intros [Hs|Hs]%Hf; [by apply not_elem_of_nil in Hs|]. apply filter_elem in Hs as [Hs Hb]. by bool_facts.
Qed.

Lemma pick_loop_elem strict preferred fallback rows :
  match pick_loop strict preferred fallback rows with
  | inl id => exists s, s ∈ rows /\ s_id s = id /\ slotStartMatches (s_start s) preferred = true
  | inr fb => fb = fallback \/ (strict = false /\ exists s, s ∈ rows /\ s_id s = fb)
  end.
Proof.
  revert fallback. induction rows as [|x rows IH]; intros fallback; cbn [pick_loop]; [by left|].
  destruct strict.
  - destruct (String.eqb preferred ""); [|destruct (slotStartMatches (s_start x) preferred) eqn:E];
      try (exists x; split_and!; [left|done|done]);
      (specialize (IH fallback); destruct (pick_loop _ _ _ _) as [id|fb];
       [destruct IH as (s & Hs & ?); exists s; split; [by right|done]|];
       destruct IH as [->|(? & _)]; [by left|done]).
  - set (fb' := if String.eqb fallback "" then s_id x else fallback).
    destruct (negb _ && _) eqn:E; [bool_facts; exists x; split_and!; [left|done|done]|].
    specialize (IH fb'). destruct (pick_loop _ _ _ _) as [id|fb].
    + destruct IH as (s & Hs & ?). exists s. split; [by right|done].
    + destruct IH as [->|(_ & s & Hs & <-)].
      * unfold fb'. destruct (String.eqb fallback ""); [|by left]. right. split; [done|].
        exists x. split; [left|done].
      * right. split; [done|]. exists s. split; [by right|done].
Qed.

(** a slot that can be booked *)
Definition bookable (e t sid : string) (d : evdb) : Prop :=
  exists s, s ∈ slots d /\ s_id s = sid /\ of_therapy e t s = true /\ s_booked s < s_capacity s.

Lemma pick_spec e t preferred strict :
  tx_spec (pickSlotForRegistration e t preferred strict) (fun d r d' => d' = d /\
    forall sid, r = Ok sid -> exists s, s ∈ slots d /\ s_id s = sid /\ of_therapy e t s = true /\
      s_booked s < s_capacity s /\
      (strict = true -> slotStartMatches (s_start s) (normalizePreferredTime preferred) = true)).
Proof.
  unfold pickSlotForRegistration. eapply tx_weaken.
  - apply (tx_read_bind _ _ (fun _ d r d' => d' = d /\ forall sid, r = Ok sid ->
      exists s, s ∈ free_slots e t d /\ s_id s = sid /\
      (strict = true -> slotStartMatches (s_start s) (normalizePreferredTime preferred) = true))).
    intros total. apply tx_if; intros _; [by apply tx_fail|]. eapply tx_weaken.
    + apply (tx_read_bind _ _ (fun rows d r d' => d' = d /\ forall sid, r = Ok sid ->
        exists s, s ∈ rows /\ s_id s = sid /\
        (strict = true -> slotStartMatches (s_start s) (normalizePreferredTime preferred) = true))).
      intros rows. pose proof (pick_loop_elem strict (normalizePreferredTime preferred) "" rows) as Hp.
      destruct (pick_loop _ _ _ _) as [id|fb].
      * apply tx_done. intros d. split; [done|]. intros sid [= <-]. destruct Hp as (s & Hs & Hid & Hm). by exists s.
      * destruct strict; [destruct (String.eqb _ ""); by apply tx_fail|].
        apply tx_if; intros Hne; [|by apply tx_fail]. apply tx_done. intros d. split; [done|].
        intros sid [= <-]. destruct Hp as [->|(_ & s & Hs & Hid)]; [done|]. by exists s.
    + cbn. intros d r d' [-> Hr]. split; [done|]. done.
  - cbn. intros d r d' [-> Hr]. split; [done|]. intros sid Hsid.
    destruct (Hr sid Hsid) as (s & (H1 & H2 & H3)%free_slots_elem & Hid & Hm). by exists s.
Qed.

Definition book (sid : string) (d : evdb) : evdb := update_slot sid (fun s => set_booked (s_booked s + 1) s) d.
Lemma lock_slot_spec sid :
  tx_spec (lockAndIncrementSlot sid) (fun d r d' =>
    (exists s, find_slot sid d = Some s /\ s_booked s < s_capacity s /\ r = Ok tt /\ d' = book sid d) \/
    ((exists e, r = Err e) /\ d' = d)).
Proof.
  unfold lockAndIncrementSlot. eapply tx_weaken.
  - apply (tx_read_bind _ _ (fun o d r d' =>
      (exists s, o = Some s /\ s_booked s < s_capacity s /\ r = Ok tt /\ d' = book sid d) \/
      ((exists e, r = Err e) /\ d' = d))).
    intros [s|]; [|apply tx_fail; eauto]. destruct (Z.leb_spec (s_capacity s) (s_booked s)); [apply tx_fail; eauto|].
    eapply tx_weaken; [apply tx_exec|]. intros d r d' [-> ->]. left. by exists s.
  - cbn. intros d r d' [(s & Hs & ?)|?]; [left; by exists s|by right].
Qed.

(** booking a slot that was read: all its rows have room *)
Lemma find_slot_elem sid d s : find_slot sid d = Some s -> s ∈ slots d /\ s_id s = sid.
Proof. intros [Hs ->%String.eqb_eq]%find_some_elem. done. Qed.

Lemma try_assign_spec e pid t preferred strict :
  tx_spec (tryAssignPatientSlot e pid t preferred strict) (fun d r d' => d' = d \/
    exists sid s, find_slot sid d = Some s /\ s_booked s < s_capacity s /\ d' = link_patient pid sid (book sid d)).
Proof.
  unfold tryAssignPatientSlot. apply tx_if; intros _; [apply tx_done; auto|].
  apply (tx_read_bind _ _ (fun _ d r d' => d' = d \/
    exists sid s, find_slot sid d = Some s /\ s_booked s < s_capacity s /\ d' = link_patient pid sid (book sid d))).
  intros [p|]; [|apply tx_fail; auto]. destruct (p_slot p); [apply tx_done; auto|].
  eapply tx_weaken; [eapply (tx_bind _ _ _ (fun sid d r d' => d' = d \/
    exists s, find_slot sid d = Some s /\ s_booked s < s_capacity s /\ d' = link_patient pid sid (book sid d)));
    [apply pick_spec|]|].
  - intros sid. eapply tx_weaken; [eapply (tx_bind _ _ _ (fun _ d r d' => d' = link_patient pid sid d));
      [apply lock_slot_spec|]|].
    + intros _. eapply tx_weaken; [apply tx_exec|]. by intros d r d' [_ ->].
    + cbn. intros d r d' [(a & d1 & [(s & Hs & Hb & _ & ->)|[[? [=]] _]] & ->)|(e' & [(s & _ & _ & [=] & _)|[_ ->]] & _)].
      * right. by exists s.
      * by left.
  - cbn. intros d r d' [(sid & d1 & [-> _] & [->|(s & ?)])|(e' & [-> _] & _)]; [by left|right; by exists sid, s|by left].
Qed.

(** *** Booking keeps the capacity *)
Definition unique_slots (d : evdb) : Prop := NoDup (map s_id (slots d)).
Lemma find_slot_unique sid d s s' :
  unique_slots d -> find_slot sid d = Some s -> s' ∈ slots d -> s_id s' = sid -> s' = s.
Proof.
  intros Hu [Hs Hid]%find_slot_elem Hs' Hid'. unfold unique_slots in Hu.
  clear -Hu Hs Hs' Hid Hid'. induction (slots d) as [|x l IH]; [by apply not_elem_of_nil in Hs|].
  cbn in Hu. apply NoDup_cons in Hu as [Hx Hu].
  assert (forall y, y ∈ l -> s_id y <> s_id x) as Hne.
  { intros y Hy E. apply Hx. rewrite <- E. by apply list_elem_of_In, in_map, list_elem_of_In. }
  apply elem_of_cons in Hs as [->|Hs], Hs' as [->|Hs']; [done|..].
  - destruct (Hne _ Hs'). congruence.
  - destruct (Hne _ Hs). congruence.
  - auto.
Qed.
Lemma book_capacity sid d s :
  unique_slots d -> within_capacity d -> find_slot sid d = Some s -> s_booked s < s_capacity s ->
  within_capacity (book sid d).
Proof.
  intros Hu Hw Hf Hb x Hx. apply (update_slot_elem sid _ d) in Hx as (x0 & H0 & E & [[E1 ->]|[E1 ->]]); [| |done].
  - rewrite (find_slot_unique _ _ _ _ Hu Hf H0 E1). destruct (find_slot_elem _ _ _ Hf) as [Hin _].
    specialize (Hw _ Hin). cbn. lia.
  - by apply Hw.
Qed.
Lemma book_spare sid d s : accounted d -> find_slot sid d = Some s -> spare sid (book sid d).
Proof. intros Ha [Hs <-]%find_slot_elem. apply booked_more; [done|]. by exists s. Qed.

(** the full invariant of the tables *)
Record good (d : evdb) : Prop := {
  g_accounted : accounted d; g_unique : unique_slots d
}.
Lemma good_book_link pid sid d s :
  good d -> find_slot sid d = Some s -> good (link_patient pid sid (book sid d)).
Proof.
  intros [Ha Hu] Hf. split; [by eapply accounted_link, book_spare|].
  unfold unique_slots. cbn [slots link_patient set_patients book update_slot set_slots]. by rewrite map_slot_ids.
Qed.

(** *** Registration, status, edit and deletion bodies *)
Definition inserted (mk : string -> patient_row) (d : evdb) : evdb :=
  set_ids (tail (new_ids d)) (set_patients (patients d ++ [mk (default "" (head (new_ids d)))])%list d).

Lemma insert_spec mk :
  tx_spec (insert_patient mk) (fun d r d' => exists id, r = Ok id /\ id = default "" (head (new_ids d)) /\
    d' = inserted mk d /\ id ∉ map p_id (patients d) /\ slot_exists (p_slot (mk id)) d = true /\
    patients_unique (patients d') = true).
Proof.
  eapply tx_weaken; [apply tx_stmt|]. cbn. intros d r d' (id & -> & Hf).
  destruct (existsb _ (patients d)) eqn:E; [done|]. destruct (slot_exists _ d) eqn:Es; cbn [negb] in Hf; [|done].
  destruct (patients_unique _) eqn:Eu; [|done]. injection Hf as <- <-. exists (default "" (head (new_ids d))).
  split_and!; try done. intros Hin. apply existsb_false_filter in E.
  rewrite list_elem_of_In, in_map_iff in Hin. destruct Hin as (p & Hp & Hin).
  assert (p ∈ List.filter (fun p => String.eqb (p_id p) (default "" (head (new_ids d)))) (patients d)) as Hc.
  { apply filter_elem. rewrite list_elem_of_In. split; [done|]. by apply String.eqb_eq. }
  rewrite E in Hc. by apply not_elem_of_nil in Hc.
Qed.

(** the slot a registration took, and the tables with it booked *)
Definition took (eventID therapyID preferred : string) (strict assign : bool) (d : evdb)
    (slot : option string) (d1 : evdb) : Prop :=
  if assign then exists sid s, slot = Some sid /\ find_slot sid d = Some s /\ s_booked s < s_capacity s /\
    (exists s', s' ∈ slots d /\ s_id s' = sid /\ of_therapy eventID therapyID s' = true /\ s_booked s' < s_capacity s' /\
       (strict = true -> slotStartMatches (s_start s') (normalizePreferredTime (TrimSpace preferred)) = true)) /\
    d1 = book sid d
  else slot = None /\ d1 = d.

Lemma registration_spec e t preferred strict assign mk :
  tx_spec (registration_tx e t preferred strict assign mk) (fun d r d' => forall id, r = Ok id ->
    exists slot d1, took e t preferred strict assign d slot d1 /\ id = default "" (head (new_ids d)) /\
      d' = inserted (mk slot) d1 /\ id ∉ map p_id (patients d) /\ patients_unique (patients d') = true).
Proof.
  unfold registration_tx. eapply tx_weaken.
  - eapply (tx_bind _ _ (fun d r d1 => forall slot, r = Ok slot -> took e t preferred strict assign d slot d1)
      (fun slot d r d' => forall id, r = Ok id -> id = default "" (head (new_ids d)) /\
         d' = inserted (mk slot) d /\ id ∉ map p_id (patients d) /\ patients_unique (patients d') = true)).
    + unfold took. destruct assign.
      * eapply tx_weaken; [eapply tx_bind; [apply pick_spec|]; intros sid; eapply tx_bind; [apply lock_slot_spec|];
          intros u; apply tx_ret|].
        cbn. intros d r d' [(sid & d0 & [-> Hp] & [(u & d1 & Hl & -> & ->)|(e' & _ & ->)])|(e' & _ & ->)] slot;
          [|done..]. intros [= <-]. destruct (Hp sid eq_refl) as (s' & H1 & H2 & H3 & H4 & H5).
        destruct Hl as [(s & Hf & Hb & _ & ->)|[[? [=]] _]]. exists sid, s. split_and!; try done. by exists s'.
      * apply tx_done. by intros d slot [= <-].
    + intros slot. eapply tx_weaken.
      * eapply (tx_bind _ _ _ (fun x d r d' => d' = d /\ forall id, r = Ok id -> x = Ok id));
          [apply tx_attempt, insert_spec|].
        intros [id|e']; [apply tx_done; by intros d; split; [|intros id' [= ->]]|].
        apply tx_if; intros _; by apply tx_fail.
      * cbn. intros d r d' [(x & d1 & (x' & [= <-] & id & -> & -> & -> & Hn & _ & Hs) & -> & Hr)|(e' & (? & [=] & _) & _)].
        intros id' Hid. specialize (Hr id' Hid). injection Hr as <-. done.
  - cbn. intros d r d' [(slot & d1 & Ht & Hr)|(e' & _ & ->)] id Hid; [|done].
    specialize (Ht slot eq_refl). destruct (Hr id Hid) as (-> & -> & Hn & Hs). exists slot, d1.
    assert (new_ids d1 = new_ids d /\ patients d1 = patients d) as [E1 E2]; [|by rewrite <- E1, <- E2].
    unfold took in Ht. destruct assign; [|by destruct Ht as [_ ->]]. by destruct Ht as (? & ? & _ & _ & _ & _ & ->).
Qed.

(** capacity is kept when asked for *)
Definition inv (c : bool) (d : evdb) : Prop := good d /\ (c = true -> within_capacity d).

Lemma inserted_inv c e t preferred strict assign mk d slot d1 :
  inv c d -> took e t preferred strict assign d slot d1 ->
  let id := default "" (head (new_ids d)) in
  id ∉ map p_id (patients d) -> p_id (mk id) = id -> p_slot (mk id) = slot -> inv c (inserted mk d1).
Proof.
  intros [[Ha Hu] Hw] Ht id Hid Hmk Hslot. unfold took in Ht.
  assert (new_ids d1 = new_ids d /\ patients d1 = patients d /\ map s_id (slots d1) = map s_id (slots d)) as (E1 & E2 & E3).
  { destruct assign; [|by destruct Ht as [_ ->]]. destruct Ht as (sid & ? & _ & _ & _ & _ & ->).
    split_and!; [done..|]. cbn [slots book update_slot set_slots]. by rewrite map_slot_ids. }
  unfold inserted. rewrite E1. fold id. split.
  2: { intros Hc. specialize (Hw Hc). destruct assign; [|by destruct Ht as [_ ->]].
       destruct Ht as (sid & s & _ & Hf & Hb & _ & ->). by eapply (book_capacity sid d s). }
  split; [|unfold unique_slots; cbn; by rewrite E3].
  apply accounted_ids. split; cbn [patients slots set_patients]; rewrite ?E2, ?E3.
  - rewrite map_app. apply NoDup_app. split_and!; [apply Ha| |apply NoDup_singleton].
    intros x Hx. cbn. rewrite Hmk. intros ->%list_elem_of_singleton. done.
  - intros p sid Hp Hsl. apply elem_of_app in Hp as [Hp|Hp]; [by apply (ac_slots _ Ha p)|].
    apply list_elem_of_singleton in Hp as ->.
    destruct assign; [|destruct Ht as [-> _]; congruence]. destruct Ht as (sid' & s & -> & Hf & _).
    apply find_slot_elem in Hf as [Hf <-]. rewrite Hslot in Hsl. injection Hsl as <-.
    by apply list_elem_of_In, in_map, list_elem_of_In.
  - intros s Hs. unfold seats. cbn [patients set_patients]. rewrite count_if_app, count_if_cons.
    replace (count_if (live (s_id s)) []) with 0 by done.
    destruct assign.
    + destruct Ht as (sid & s0 & -> & Hf & _ & _ & ->).
      pose proof (book_spare sid d s0 Ha Hf) as ([_ _ Hseat] & _ & Hsp).
      destruct (decide (s_id s = sid)) as [E|Hne].
      * specialize (Hsp s Hs E). rewrite <- E in Hsp. unfold seats in Hsp. cbn in Hsp |- *.
        destruct (live _ _); lia.
      * specialize (Hseat s Hs). unfold seats in Hseat. cbn in Hseat |- *. unfold live at 2, linked_to.
        rewrite Hslot, bool_decide_eq_false_2 by congruence. rewrite andb_false_r. lia.
    + destruct Ht as [-> ->]. pose proof (ac_seats _ Ha s Hs) as Hseat. unfold seats in Hseat.
      unfold live at 2, linked_to. rewrite Hslot, bool_decide_eq_false_2 by congruence. rewrite andb_false_r. lia.
Qed.

Definition released (sid : string) (d : evdb) : evdb :=
  update_slot sid (fun s => set_booked (Z.max 0 (s_booked s - 1)) s) d.
Lemma release_spec sid : tx_spec (release_slot sid) (fun d r d' => r = Ok tt /\ d' = released sid d).
Proof. eapply tx_weaken; [apply tx_ignore, tx_exec|]. by cbn; intros d r d' [-> (x & _ & ->)]. Qed.
Lemma write_spec f :
  tx_spec (or_internal (write_patients f)) (fun d r d' => forall u, r = Ok u -> d' = f d).
Proof.
  eapply tx_weaken; [apply tx_or_internal, tx_stmt|]. cbn.
  intros d r d' [(a & -> & a' & [= <-] & Hf)|(e & -> & _)] u; [|done]. intros _.
  destruct (patients_unique _); [|done]. by injection Hf as _ <-.
Qed.

(** rewriting one patient, with or without freeing its seat *)
Definition patient_rewritten (e pid : string) (free : patient_row -> bool) (g : patient_row -> patient_row)
    (d d' : evdb) : Prop :=
  exists p, find_patient pid e d = Some p /\
    d' = update_patient pid e g (match p_slot p with Some sid => if free p then released sid d else d | None => d end).
Lemma rewrite_spec e pid (free : patient_row -> bool) g (wr : ev unit) :
  tx_spec wr (fun d r d' => forall u, r = Ok u -> d' = update_patient pid e g d) ->
  tx_spec (D:=evdb) (A:=unit) (bind (or_internal (read (find_patient pid e))) (fun o =>
    match o with
    | None => throw (NotFound_ "pasien tidak ditemukan")
    | Some p => bind (match p_slot p with
         | Some sid => if free p then release_slot sid else ret tt
         | None => ret tt
         end) (fun _ => wr)
    end)) (fun d r d' => forall u, r = Ok u -> patient_rewritten e pid free g d d').
Proof.
  intros Hwr. eapply tx_weaken.
  - apply (tx_or_internal_read_bind _ _ (fun o d r d' => forall u, r = Ok u -> exists p, o = Some p /\
      d' = update_patient pid e g (match p_slot p with Some sid => if free p then released sid d else d | None => d end))).
    intros [p|]; [|by apply tx_fail]. eapply tx_weaken.
    + eapply (tx_bind _ _ (fun d r d' => r = Ok tt /\
        d' = match p_slot p with Some sid => if free p then released sid d else d | None => d end));
        [|intros u; exact Hwr].
      destruct (p_slot p) as [sid|]; [destruct (free p); [apply release_spec|]|]; by apply tx_done.
    + cbn. intros d r d' [(a & d1 & [_ ->] & Hr)|(e' & [[=] _] & _)] u Hu. exists p. split; [done|]. by eapply Hr.
  - cbn. intros d r d' Hr u Hu. by apply (Hr u Hu).
Qed.

Lemma find_patient_elem pid e d p :
  find_patient pid e d = Some p -> p ∈ patients d /\ p_id p = pid /\ p_event p = e /\ p_deleted p = false.
Proof. intros [Hp Hb]%find_some_elem. by bool_facts. Qed.
Lemma released_inv sid d : within_capacity d -> within_capacity (released sid d).
Proof.
  intros Hw x Hx. apply (update_slot_elem sid _ d) in Hx as (x0 & H0 & E & [[E1 ->]|[E1 ->]]); [| |done].
  - specialize (Hw _ H0). cbn. lia.
  - by apply Hw.
Qed.

Lemma same_patient d p q : accounted d -> p ∈ patients d -> q ∈ patients d -> p_id p = p_id q -> p = q.
Proof.
  intros [Hnd _ _] Hp Hq E. induction (patients d) as [|x l IH]; [by apply not_elem_of_nil in Hp|].
  cbn in Hnd. apply NoDup_cons in Hnd as [Hx Hnd].
  assert (forall y, y ∈ l -> p_id y <> p_id x) as Hne.
  { intros y Hy E'. apply Hx. rewrite <- E'. by apply list_elem_of_In, in_map, list_elem_of_In. }
  apply elem_of_cons in Hp as [->|Hp], Hq as [->|Hq]; [done|..].
  - destruct (Hne _ Hq). congruence.
  - by destruct (Hne _ Hp).
  - auto.
Qed.

(** a rewrite that frees exactly the seat it uncounts *)
Lemma rewritten_inv c e pid free g d d' :
  inv c d -> patient_rewritten e pid free g d d' -> (forall p, p_id (g p) = p_id p) ->
  (forall p, p ∈ patients d -> p_id p = pid -> p_event p = e -> tame g p) ->
  (forall p, p ∈ patients d -> p_id p = pid -> p_deleted p = false -> free p = true ->
     p_status p = "CONFIRMED" /\ forall sid, live sid (g p) = false) ->
  inv c d'.
Proof.
  intros [[Ha Hu] Hw] (p & Hf & ->) Hid Ht Hfree. apply find_patient_elem in Hf as (Hp & Hpid & Hpe & Hdel).
  assert (forall q, q ∈ patients d -> String.eqb (p_id q) pid && String.eqb (p_event q) e = true -> tame g q) as Ht'.
  { intros q Hq Hb. bool_facts. by apply Ht. }
  destruct (p_slot p) as [sid|] eqn:Esl; [destruct (free p) eqn:Efr|].
  - destruct (Hfree p Hp Hpid Hdel Efr) as [Hst Hdead]. split; [split|].
    + apply (accounted_release sid d (fun q => String.eqb (p_id q) pid && String.eqb (p_event q) e) g p); try done.
      * by rewrite Hpid, Hpe, !String.eqb_refl.
      * unfold live, linked_to. by rewrite Hdel, Hst, Esl, bool_decide_eq_true_2.
    + unfold unique_slots. cbn [slots update_patient set_patients released update_slot set_slots]. by rewrite map_slot_ids.
    + intros Hc. by apply released_inv, Hw.
  - split; [split|]; [by apply accounted_patients|done|done].
  - split; [split|]; [by apply accounted_patients|done|done].
Qed.

(** ** Handlers keep the invariant *)
Definition leads {W A} (P Q : W -> Prop) (m : prog W A) : Prop := forall w, P w -> Q (snd (m w)).
Lemma leads_bind {W A B} (P Q : W -> Prop) (m : prog W A) (k : A -> prog W B) :
  preserves P m -> (forall w, P w -> Q w) -> (forall a, leads P Q (k a)) -> leads P Q (bind m k).
Proof.
  intros Hm HQ Hk w Hw. unfold bind. specialize (Hm w Hw). destruct (m w) as [[a|e] w1]; [by apply Hk|by apply HQ].
Qed.
Lemma leads_then {W A B} (P Q : W -> Prop) (m : prog W A) (k : A -> prog W B) :
  leads P Q m -> (forall a, preserves Q (k a)) -> leads P Q (bind m k).
Proof.
  intros Hm Hk w Hw. unfold bind. specialize (Hm w Hw). destruct (m w) as [[a|e] w1]; [by apply Hk|done].
Qed.
Lemma leads_same {W A} (P Q : W -> Prop) (m : prog W A) :
  preserves P m -> (forall w, P w -> Q w) -> leads P Q m.
Proof. intros Hm HQ w Hw. by apply HQ, Hm. Qed.
Lemma in_tx_leads {A} (P Q : evdb -> Prop) wrap (body : ev A) R :
  tx_spec body R -> (forall d, P d -> Q d) -> (forall d a d', P d -> R d (Ok a) d' -> Q d') ->
  leads (settled_with P) (settled_with Q) (in_tx wrap body).
Proof.
  intros Hm HPQ HR w [Hw HP]. pose proof (in_tx_spec wrap body R w Hm Hw) as Hs.
  destruct (in_tx wrap body w) as [r w']. destruct Hs as (Hw' & [[_ Hd]|(a & Ha & _)]); split; try done; cbn.
  - rewrite Hd. by apply HPQ.
  - by eapply HR.
Qed.

Section keeping.
Context (P : evdb -> Prop).
Lemma or_internal_keeps {A} (m : ev A) : preserves (settled_with P) m -> preserves (settled_with P) (or_internal m).
Proof. intros Hm. apply preserves_bind; [by apply preserves_attempt|]. intros [a|e]; auto with prog. Qed.
Lemma mutable_keeps e : preserves (settled_with P) (assertEventMutable e).
Proof.
  apply preserves_bind; [apply or_internal_keeps, read_keeps|].
  intros [x|]; [|apply preserves_throw]. apply preserves_if; auto with prog.
Qed.
Lemma exists_keeps e : preserves (settled_with P) (assertEventExists e).
Proof. apply preserves_bind; [apply or_internal_keeps, read_keeps|]. intros [x|]; auto with prog. Qed.
Lemma contact_keeps p : preserves (settled_with P) (resolvePatientContact p).
Proof.
  unfold resolvePatientContact. apply preserves_if; [apply preserves_ret|].
  apply preserves_bind; [apply or_internal_keeps, read_keeps|]. intros [c|]; [|apply preserves_throw].
  cbv zeta. repeat (apply preserves_if; [apply preserves_throw|]). apply preserves_ret.
Qed.
Lemma as_owner_keeps {A} Q u (k : ev A) :
  (forall d, P d -> Q d) -> leads (settled_with P) (settled_with Q) k ->
  leads (settled_with P) (settled_with Q) (as_owner u k).
Proof.
  intros HPQ Hk. assert (forall e, leads (settled_with P) (settled_with Q) (throw (A:=A) e)) as Ht.
  { intros e w [Hw HP]. by split; [|apply HPQ]. }
  unfold as_owner. destruct (mustUser u); [|done]. by destruct (assertOwner a).
Qed.
Lemma audit_keeps e i a : (forall x d, P d -> P (add_audit x d)) -> preserves (settled_with P) (auditEvent e i a).
Proof. intros HP. apply preserves_ignore, exec_keeps. intros d. apply HP. Qed.
End keeping.

Lemma inv_audit c x d : inv c d -> inv c (add_audit x d).
Proof. intros [[Ha Hu] Hw]. split; [split|]; [by apply accounted_audit|done|done]. Qed.
Lemma inv_book_link c pid sid d s :
  inv c d -> find_slot sid d = Some s -> s_booked s < s_capacity s -> inv c (link_patient pid sid (book sid d)).
Proof.
  intros [Hg Hw] Hf Hb. split; [by eapply good_book_link|]. intros Hc.
  eapply (book_capacity sid d s); eauto. by destruct Hg.
Qed.

(** the bodies *)
Definition keeps_inv c {A} (m : ev A) : Prop := preserves (settled_with (inv c)) m.
Lemma registration_keeps c e t preferred strict assign mk :
  (forall slot id, p_id (mk slot id) = id /\ p_slot (mk slot id) = slot) ->
  keeps_inv c (in_tx Internal_ (registration_tx e t preferred strict assign mk)).
Proof.
  intros Hmk. eapply in_tx_keeps; [apply registration_spec|]. intros d id d' Hi Hr.
  destruct (Hr id eq_refl) as (slot & d1 & Ht & -> & -> & Hn & _).
  eapply inserted_inv; [done|done|done|apply Hmk|apply Hmk].
Qed.
Lemma assign_keeps c e pid t preferred : keeps_inv c (assignPatientSlotBestEffort e pid t preferred).
Proof.
  eapply in_tx_keeps; [apply try_assign_spec|]. intros d a d' Hi [->|(sid & s & Hf & Hb & ->)]; [done|].
  by eapply inv_book_link.
Qed.

Lemma live_iff sid p :
  live sid p = true <-> p_deleted p = false /\ p_status p = "CONFIRMED" /\ p_slot p = Some sid.
Proof.
  unfold live, linked_to. rewrite !andb_true_iff, negb_true_iff, String.eqb_eq, bool_decide_eq_true. tauto.
Qed.
(** confirming only the patients that already are, when they name a slot *)
Lemma tame_confirm (g : patient_row -> patient_row) st d e pid p :
  (st = "CONFIRMED" -> ~ unconfirmed_on_slot d e pid) -> p ∈ patients d -> p_id p = pid -> p_event p = e ->
  p_id (g p) = p_id p -> p_slot (g p) = p_slot p -> p_deleted (g p) = p_deleted p ->
  (p_deleted p = false -> p_status (g p) = st) -> tame g p.
Proof.
  intros Hn Hp Hid He Hgi Hgs Hgd Hst. split_and!; [done|by left|]. intros sid. rewrite !live_iff.
  rewrite Hgs, Hgd. intros (Hd & Hs & Hsl). rewrite (Hst Hd) in Hs. split_and!; [done| |done].
  destruct (decide (p_status p = "CONFIRMED")); [done|]. destruct (Hn Hs). by exists p, sid.
Qed.
Lemma tame_status st d e pid p :
  (st = "CONFIRMED" -> ~ unconfirmed_on_slot d e pid) -> p ∈ patients d -> p_id p = pid -> p_event p = e ->
  tame (set_status st) p.
Proof. intros Hn Hp Hid He. by apply (tame_confirm _ st d e pid). Qed.
Lemma tame_edit en eb n b t cm pf st d e pid p :
  (st = "CONFIRMED" -> ~ unconfirmed_on_slot d e pid) -> p ∈ patients d -> p_id p = pid -> p_event p = e ->
  tame (edit_row en eb n b t cm pf st) p.
Proof.
  intros Hn Hp Hid He. apply (tame_confirm _ st d e pid); try done; unfold edit_row; destruct (p_deleted p) eqn:E; cbn; congruence.
Qed.
Lemma tame_deleted p : tame set_deleted p.
Proof. split_and!; [done|by left|done]. Qed.

Lemma status_keeps c e pid st :
  leads (settled_with (fun d => inv c d /\ (st = "CONFIRMED" -> ~ unconfirmed_on_slot d e pid)))
    (settled_with (inv c)) (in_tx Internal_ (status_tx e pid st)).
Proof.
  eapply in_tx_leads; [|by intros d [? _]|].
  - exact (rewrite_spec e pid (fun p => String.eqb st "CANCELLED" && String.eqb (p_status p) "CONFIRMED")
      (set_status st) _ (write_spec _)).
  - cbn. intros d [] d' [Hi Hn] Hr. eapply rewritten_inv; [exact Hi|by eapply Hr|done|..].
    + intros p Hp Hid He. by eapply tame_status.
    + cbn. intros p _ _ _ Hf. bool_facts. subst st. split; [done|]. intros sid. unfold live. cbn.
      by rewrite andb_false_r.
Qed.
Lemma edit_keeps c e pid t pref en eb n b th cm pf st :
  leads (settled_with (fun d => inv c d /\ (st = "CONFIRMED" -> ~ unconfirmed_on_slot d e pid)))
    (settled_with (inv c)) (in_tx Internal_ (edit_tx e pid t pref (edit_row en eb n b th cm pf st))).
Proof.
  eapply in_tx_leads; [|by intros d [? _]|].
  - eapply tx_weaken; [eapply tx_bind; [apply write_spec|
      intros u; eapply (tx_ignore _ _ (try_assign_spec e pid t pref false))]|].
    intros d r d' Hr. exact Hr.
  - cbn. intros d [] d' [Hi Hn] [(u & d1 & Hw & _ & x & Ha)|(e' & _ & [=])]. specialize (Hw u eq_refl). subst d1.
    set (d1 := update_patient _ _ _ _) in *.
    assert (inv c d1) as Hi1; [|destruct Ha as [->|(sid & s & Hf & Hb & ->)]; [done|by eapply inv_book_link]].
    destruct Hi as [[Ha' Hu] Hw]. split; [split|done]; [|done]. apply accounted_patients; [done|..].
    + intros p. unfold edit_row. by destruct (p_deleted p).
    + intros p Hp Hb. bool_facts. by eapply tame_edit.
Qed.
Lemma delete_patient_spec e pid :
  tx_spec (deleteEventPatientInTx e pid) (fun d r d' => forall u, r = Ok u ->
    patient_rewritten e pid (fun p => String.eqb (p_status p) "CONFIRMED") set_deleted d d').
Proof.
  apply rewrite_spec. eapply tx_weaken; [apply tx_or_internal, tx_exec|]. cbn.
  by intros d r d' [(a & -> & _ & ->)|(e' & -> & [=] & _)] u.
Qed.
Lemma deleted_inv c e pid d d' :
  inv c d -> patient_rewritten e pid (fun p => String.eqb (p_status p) "CONFIRMED") set_deleted d d' -> inv c d'.
Proof.
  intros Hi Hr. eapply rewritten_inv; [exact Hi|exact Hr|done|..].
  - intros p _ _ _. apply tame_deleted.
  - cbn. intros p _ _ _ ->%String.eqb_eq. done.
Qed.
Lemma register_keeps `{PatientFields} c e p now pub assign : keeps_inv c (createPatientForEvent e p now pub assign).
Proof.
  apply preserves_bind; [apply contact_keeps|]. intros [cid q]. cbv zeta.
  repeat (apply preserves_if; [apply preserves_throw|]).
  destruct (normalizeBirthDate _) as [nb|]; [|apply preserves_throw].
  destruct (encryptPatientField _) as [en|]; [|apply preserves_throw].
  destruct (encryptPatientField nb) as [eb|]; [|apply preserves_throw].
  apply preserves_bind.
  { apply preserves_if; [apply mutable_keeps|]. apply preserves_bind; [apply exists_keeps|intros _; apply mutable_keeps]. }
  intros _. apply preserves_bind.
  { apply preserves_if; [|apply preserves_ret]. apply preserves_bind; [apply or_internal_keeps, read_keeps|].
    intros [x|]; [|apply preserves_throw]. repeat (apply preserves_if; [apply preserves_throw|]). apply preserves_ret. }
  intros _. apply preserves_bind; [apply or_internal_keeps, read_keeps|]. intros linked.
  apply preserves_if; [apply preserves_throw|]. apply preserves_bind; [apply or_internal_keeps, read_keeps|].
  intros dup. apply preserves_if; [apply preserves_throw|].
  apply preserves_bind; [by apply registration_keeps|]. intros id.
  apply preserves_bind; [|intros _; apply preserves_ret]. apply audit_keeps. intros x d. apply inv_audit.
Qed.

(** a transaction inside a longer program *)
Lemma tx_run_keeps {A B} (P : evdb -> Prop) (body : ev A) R (kb ke kc : error -> ev B) (ko : A -> ev B) :
  tx_spec body R -> (forall d a d', P d -> R d (Ok a) d' -> P d') ->
  (forall e, preserves (settled_with P) (kb e)) -> (forall e, preserves (settled_with P) (ke e)) ->
  (forall e, preserves (settled_with P) (kc e)) -> (forall a, preserves (settled_with P) (ko a)) ->
  preserves (settled_with P)
    (bind (attempt begin_tx) (fun b => match b with Err e => kb e | Ok _ =>
       bind (attempt body) (fun r => match r with Err e => bind rollback_tx (fun _ => ke e) | Ok a =>
         bind (attempt commit_tx) (fun c => match c with Err e => kc e | Ok _ => ko a end) end) end)).
Proof.
  intros Hm HR Hkb Hke Hkc Hko w [Hw HP]. unfold bind at 1, attempt at 1, begin_tx.
  destruct (outcome w); [|by apply Hkb..].
  set (w1 := with_tx_state _ _). specialize (Hm w1 (p_db w) false eq_refl).
  unfold bind at 1, attempt at 1. destruct (body w1) as [[a|e] w2].
  2: { destruct Hm as (Hdb & _). apply Hke. split; [done|]. cbn. by rewrite Hdb. }
  destruct Hm as (Hdb & d & b & Hw2 & _ & Hd). unfold bind at 1, attempt at 1, commit_tx. rewrite Hw2.
  destruct b; [apply Hkc; split; [done|]; cbn; by rewrite Hdb|]. specialize (Hd eq_refl).
  destruct (outcome w2); cbn -[preserves]; [apply Hko|apply Hkc|apply Hkc]; split; try done; cbn.
  - by eapply HR.
  - by rewrite Hdb.
  - by eapply HR.
Qed.

Lemma audit_inv_keeps c e i a : keeps_inv c (auditEvent e i a).
Proof. apply audit_keeps. intros x d. apply inv_audit. Qed.
Lemma delete_patients_keeps c e ids seen acc : keeps_inv c (delete_patients e ids seen acc).
Proof.
  revert seen acc. induction ids as [|id ids IH]; intros seen acc; cbn -[begin_tx rollback_tx commit_tx]; [apply preserves_ret|].
  apply preserves_if; [apply IH|]. destruct acc as [[dl fl] er].
  apply (tx_run_keeps _ (deleteEventPatientInTx e (TrimSpace id)) _ _ _ _ _ (delete_patient_spec e (TrimSpace id))).
  - intros d [] d' Hi Hr. eapply deleted_inv; [exact Hi|by eapply Hr].
  - intros x. apply preserves_throw.
  - intros x. apply IH.
  - intros x. apply IH.
  - intros x. apply preserves_bind; [apply audit_inv_keeps|]. intros _. apply IH.
Qed.

(** deleting slots no row refers to *)
Lemma delete_where_inv c f d : inv c d -> inv c (snd (delete_where f d)).
Proof.
  intros [[Ha Hu] Hw]. unfold delete_where. destruct (existsb _ _) eqn:E; [done|].
  apply existsb_false_filter in E. cbn [snd]. split; [split; [split|]|].
  - apply Ha.
  - cbn. intros p sid Hp Hsl. pose proof (ac_slots _ Ha p sid Hp Hsl) as Hin.
    rewrite list_elem_of_In, in_map_iff in Hin |- *. destruct Hin as (s & Hid & Hs). exists s.
    split; [done|]. apply List.filter_In. split; [done|]. destruct (f s) eqn:Ef; [|done].
    assert (s ∈ List.filter (fun s => f s && existsb (linked_to (s_id s)) (patients d)) (slots d)) as Hc.
    { apply filter_elem. split; [by apply list_elem_of_In|]. rewrite Ef. apply existsb_exists. exists p.
      split; [by apply list_elem_of_In|]. unfold linked_to. rewrite Hid. by apply bool_decide_eq_true_2. }
    rewrite E in Hc. by apply not_elem_of_nil in Hc.
  - cbn. intros s Hs. apply filter_elem in Hs as [Hs _]. by apply (ac_seats _ Ha).
  - unfold unique_slots in *. cbn. clear -Hu. induction (slots d) as [|x l IH]; [done|].
    cbn in Hu |- *. apply NoDup_cons in Hu as [Hx Hu]. destruct (negb (f x)); [|auto]. cbn. apply NoDup_cons.
    split; [|auto]. rewrite list_elem_of_In, in_map_iff in Hx |- *. intros (y & Ey & Hy%List.filter_In). apply Hx.
    exists y. by destruct Hy.
  - intros Hc s. cbn. intros [Hs _]%filter_elem. by apply Hw.
Qed.
Lemma detach_inv c sid d : inv c d -> inv c (detach_deleted sid d).
Proof.
  intros [[Ha Hu] Hw]. split; [split|done]; [|done]. apply accounted_patients; [done|done|].
  intros p _ _. split_and!; [done|by right|]. intros s'. rewrite !live_iff. cbn. intros (_ & _ & [=]).
Qed.
Lemma delete_slot_keeps c e sid : keeps_inv c (delete_slot e sid).
Proof.
  apply preserves_bind; [apply or_internal_keeps, read_keeps|]. intros [s|]; [|apply preserves_ret].
  apply preserves_if; [apply preserves_ret|]. apply preserves_bind; [apply or_internal_keeps, read_keeps|].
  intros n. apply preserves_if; [apply preserves_ret|].
  apply preserves_bind; [apply or_internal_keeps, exec_keeps, detach_inv|]. intros _.
  apply preserves_bind; [|intros _; apply preserves_ret]. apply or_internal_keeps, stmt_keeps, delete_where_inv.
Qed.
Lemma delete_slots_keeps c e ids seen acc : keeps_inv c (delete_slots e ids seen acc).
Proof.
  revert seen acc. induction ids as [|id ids IH]; intros seen acc; cbn [delete_slots]; [apply preserves_ret|].
  apply preserves_if; [apply IH|]. destruct acc as [[dl fl] er].
  apply preserves_bind; [apply delete_slot_keeps|]. intros [why|]; [apply IH|].
  apply preserves_bind; [apply audit_inv_keeps|]. intros _. apply IH.
Qed.

(** *** Generating *)
Definition unbooked (e t : string) (d : evdb) : Prop :=
  forall s, s ∈ slots d -> of_therapy e t s = true -> s_booked s = 0.
Definition before_booking c e t (d : evdb) : Prop := inv c d /\ (c = true -> unbooked e t d).

Lemma upsert_known c e t date start end_ cap d :
  0 <= cap -> before_booking c e t d ->
  before_booking c e t (set_slots (map (fun s => if slot_key e t date start s then set_slot_range end_ cap s else s) (slots d)) d).
Proof.
  intros Hcap [[[[Hi Hs Hc] Hu] Hw] Hb]. split; [split; [split; [split|]|]|]; cbn [slots patients set_slots].
  - done.
  - intros p sid Hp Hsl. rewrite map_slot_ids by done. by apply (Hs p).
  - intros s (s0 & H0 & [[_ ->]|[_ ->]])%map_if_elem; by apply (Hc s0).
  - unfold unique_slots. cbn [slots set_slots]. by rewrite map_slot_ids.
  - intros Ht s (s0 & H0 & [[Hk ->]|[_ ->]])%map_if_elem; [|by apply Hw]. unfold slot_key in Hk. bool_facts.
    cbn. rewrite (Hb Ht s0); [lia|done|done].
  - intros Ht s (s0 & H0 & [[_ ->]|[_ ->]])%map_if_elem; by apply (Hb Ht s0).
Qed.
Lemma upsert_new c e t date start end_ cap d id :
  0 <= cap -> id ∉ map s_id (slots d) -> before_booking c e t d ->
  before_booking c e t (set_ids (tail (new_ids d)) (set_slots (slots d ++
    [{| s_id := id; s_event := e; s_therapy := t; s_date := date; s_start := start; s_end := end_;
        s_capacity := cap; s_booked := 0 |}])%list d)).
Proof.
  intros Hcap Hid [[[[Hi Hs Hc] Hu] Hw] Hb].
  split; [split; [split; [apply accounted_ids; split|]|]|]; cbn [slots patients set_slots set_ids].
  - done.
  - intros p sid Hp Hsl. rewrite map_app. apply elem_of_app. left. by apply (Hs p).
  - intros s [Hin|Heq]%elem_of_app; [by apply Hc|]. apply list_elem_of_singleton in Heq as ->.
    cbn. unfold seats. cbn.
    rewrite count_if_zero; [done|]. intros p Hp. destruct (live id p) eqn:E; [|done].
    apply live_iff in E as (_ & _ & Hsl). by destruct (Hid (Hs p id Hp Hsl)).
  - unfold unique_slots. cbn [slots set_slots set_ids]. rewrite map_app. apply NoDup_app. split_and!; [done| |].
    + intros x Hx ->%list_elem_of_singleton. done.
    + apply NoDup_singleton.
  - intros Ht s [Hin|Heq]%elem_of_app; [by apply Hw|]. apply list_elem_of_singleton in Heq as ->. cbn. lia.
  - intros Ht s [Hin|Heq]%elem_of_app; [by apply (Hb Ht)|]. by apply list_elem_of_singleton in Heq as ->.
Qed.
Lemma upsert_keeps c e t date start end_ cap d :
  0 <= cap -> before_booking c e t d -> before_booking c e t (snd (upsert_slot e t date start end_ cap d)).
Proof.
  intros Hcap Hp. unfold upsert_slot. destruct (existsb _ _); [by apply upsert_known|].
  destruct (existsb _ (slots d)) eqn:E; [done|]. apply upsert_new; [done| |done].
  rewrite list_elem_of_In, in_map_iff. intros (s & Hs & Hin). apply existsb_false_filter in E.
  assert (s ∈ List.filter (fun s => String.eqb (s_id s) (default "" (head (new_ids d)))) (slots d)) as Hc.
  { apply filter_elem. split; [by apply list_elem_of_In|]. by apply String.eqb_eq. }
  rewrite E in Hc. by apply not_elem_of_nil in Hc.
Qed.

Lemma preserves_bind_val {W A B} (P : W -> Prop) (V : A -> Prop) (m : prog W A) (k : A -> prog W B) :
  preserves P m -> (forall w a w', m w = (Ok a, w') -> V a) -> (forall a, V a -> preserves P (k a)) ->
  preserves P (bind m k).
Proof.
  intros Hm HV Hk w Hw. unfold bind. specialize (Hm w Hw). destruct (m w) as [[a|e] w1] eqn:E; [|done].
  apply Hk; [by eapply HV|done].
Qed.
Lemma read_value {A} (f : evdb -> A) w a w' : read f w = (Ok a, w') -> exists d, a = f d.
Proof.
  unfold read, stmt. destruct (p_tx w) as [[d []]|]; [done| |]; destruct (outcome w); try done; intros [= <- _]; eauto.
Qed.
Lemma positive_max_pos m : 0 <= positive_max m.
Proof. destruct m as [n|]; cbn; [|lia]. destruct (Z.ltb_spec 0 n); lia. Qed.
Lemma capacity_nonneg e t mode m w n w' : computeTherapyCapacity e t mode m w = (Ok n, w') -> 0 <= n.
Proof.
  unfold computeTherapyCapacity. destruct (String.eqb _ "SHIJIE_COUNT"); [|destruct (String.eqb _ "FIXED")].
  - intros [d ->]%read_value. apply count_if_nonneg.
  - intros [= <- _]. apply positive_max_pos.
  - intros [(x & w1 & _ & [= <- _])|(? & _ & [=])]%bind_inv.
    destruct (Z.ltb_spec 0 x); [lia|apply positive_max_pos].
Qed.
Lemma capacity_keeps P e t mode m : preserves (settled_with P) (computeTherapyCapacity e t mode m).
Proof.
  unfold computeTherapyCapacity. apply preserves_if; [apply read_keeps|]. apply preserves_if; [apply preserves_ret|].
  apply preserves_bind; [apply read_keeps|]. intros n. apply preserves_ret.
Qed.
Lemma upsert_all_keeps c e t date fixed cap l :
  0 <= cap -> preserves (settled_with (before_booking c e t)) (upsert_all e t date fixed cap l).
Proof.
  intros Hcap. induction l as [|x l IH]; [apply preserves_ret|]. cbn [upsert_all].
  apply preserves_bind; [|intros _; apply IH]. apply or_internal_keeps, stmt_keeps. intros d. apply upsert_keeps.
  destruct fixed; [|done]. cbn [andb]. destruct (Z.ltb_spec 0 (sl_capacity x)); lia.
Qed.
Lemma generate_days_keeps c e t tr tpl ds de dur bs be days n :
  preserves (settled_with (before_booking c e t)) (generate_days e t tr tpl ds de dur bs be days n).
Proof.
  revert n. induction days as [|d days IH]; intros n; [apply preserves_ret|]. cbn [generate_days].
  eapply (preserves_bind_val _ (fun n => 0 <= n)); [apply capacity_keeps|apply capacity_nonneg|].
  intros cap Hcap. match goal with |- context [match ?x with Some _ => _ | None => _ end] => destruct x as [[l|er]|] end; [|apply preserves_throw..].
  apply preserves_bind; [by apply upsert_all_keeps|]. intros _. apply IH.
Qed.
Lemma cleanup_keeps c e t lo hi : preserves (settled_with (before_booking c e t)) (cleanupBreakWindowSlots e t lo hi).
Proof.
  apply preserves_bind; [apply or_internal_keeps, read_keeps|]. intros n. apply preserves_if; [apply preserves_ret|].
  apply preserves_bind; [|intros _; apply preserves_ret]. apply or_internal_keeps, stmt_keeps.
  intros d [Hi Hb]. split; [by apply delete_where_inv|]. intros Hc s. unfold delete_where.
  destruct (existsb _ _); cbn; [by apply Hb|]. intros [Hs _]%filter_elem. by apply Hb.
Qed.
Lemma generate_keeps c u e t : leads (settled_with (before_booking c e t)) (settled_with (inv c)) (GenerateTimeSlots u e t).
Proof.
  assert (forall d : evdb, before_booking c e t d -> inv c d) as Hd by (by intros d [? _]).
  apply as_owner_keeps; [done|]. apply leads_same; [|by intros w [Hw Hb]; split; [|apply Hd]].
  apply preserves_bind; [apply mutable_keeps|]. intros _. apply preserves_bind; [apply preserves_attempt, read_keeps|].
  intros [[x|]|]; [|apply preserves_throw..]. apply preserves_bind; [apply preserves_attempt, read_keeps|].
  intros [[tr|]|]; [|apply preserves_throw..]. cbv zeta. apply preserves_bind.
  { apply preserves_if; [|apply preserves_ret]. apply preserves_bind; [apply or_internal_keeps, read_keeps|].
    intros rows. apply preserves_if; [apply preserves_throw|apply preserves_ret]. }
  intros tpl. match goal with |- context [let (_, _) := ?x in _] => destruct x as [bs be] end.
  apply preserves_bind; [apply generate_days_keeps|]. intros n. apply preserves_bind.
  { destruct bs, be; [apply cleanup_keeps|apply preserves_ret..]. }
  intros warn. apply preserves_bind; [|intros _; apply preserves_ret]. apply audit_keeps.
  intros y d [Hi Hb]. split; [by apply inv_audit|done].
Qed.

(** ** Histories

    Any sequence of the operations, each under its own faults, interleaved
    with changes to the other tables (events, therapies, people, contacts).
    [careful]: slots are (re)generated only before their therapy is booked. *)
Definition allowed (careful : bool) (d : evdb) (o : op) : Prop :=
  match o with
  | OpGenerate _ e t => careful = true -> unbooked e t d
  | _ => ~ reconfirms d o
  end.
Inductive history `{PatientFields} (careful : bool) : pg evdb -> Prop :=
  | history_start d : slots d = [] -> patients d = [] -> history careful (Build_pg d None [])
  | history_op w faults o :
      history careful w -> allowed careful (p_db w) o ->
      history careful (snd (run_op o (Build_pg (p_db w) None faults)))
  | history_other w d :
      history careful w -> slots d = slots (p_db w) -> patients d = patients (p_db w) ->
      history careful (Build_pg d None []).

Lemma leads_inv {A} c Q (m : ev A) (w : pg evdb) :
  leads (settled_with Q) (settled_with (inv c)) m -> p_tx w = None -> Q (p_db w) -> settled_with (inv c) (snd (m w)).
Proof. intros Hm Hw Hq. by apply Hm. Qed.
Lemma keeps_leads {A} c Q (m : ev A) :
  keeps_inv c m -> (forall d, Q d -> inv c d) -> leads (settled_with Q) (settled_with (inv c)) m.
Proof. intros Hm HQ w [Hw Hq]. apply Hm. by split; [|apply HQ]. Qed.
Lemma owner_leads {A} c Q u (k : ev A) :
  (forall d, Q d -> inv c d) -> leads (settled_with Q) (settled_with (inv c)) k ->
  leads (settled_with Q) (settled_with (inv c)) (as_owner u k).
Proof. intros HQ Hk. by apply as_owner_keeps. Qed.

Lemma op_keeps `{PatientFields} c o w :
  p_tx w = None -> inv c (p_db w) -> allowed c (p_db w) o -> settled_with (inv c) (snd (run_op o w)).
Proof.
  intros Hw Hi Ha. apply (leads_inv c (fun d => inv c d /\ allowed c d o)); [|done|done].
  assert (forall d : evdb, inv c d /\ allowed c d o -> inv c d) as HQ by (by intros d [? _]).
  destruct o as [u e p now|e p now|u e p st|u e id p|u e p|u e ids|e p t pref|u e s|u e ids|u e t]; cbn [run_op].
  - apply leads_then; [|intros _; apply preserves_ret]. apply owner_leads; [done|].
    apply keeps_leads; [|done]. destruct p; [apply register_keeps|apply preserves_throw].
  - apply leads_then; [|intros _; apply preserves_ret]. apply keeps_leads; [apply register_keeps|done].
  - apply owner_leads; [done|]. cbv zeta. destruct (negb (valid_status _)); [by intros w' [? ?%HQ]|].
    apply leads_bind; [apply mutable_keeps|by intros w' [? ?%HQ]|]. intros _.
    apply leads_then; [|intros _; apply audit_inv_keeps].
    intros w' [Hw' [Hi' Ha']]. apply status_keeps. split; [done|]. split; [done|]. cbn in Ha'. tauto.
  - apply owner_leads; [done|]. destruct p as [p|]; [|by intros w' [? ?%HQ]]. cbv zeta.
    destruct (String.eqb _ ""); [by intros w' [? ?%HQ]|]. destruct (String.eqb _ ""); [by intros w' [? ?%HQ]|].
    destruct (normalizeBirthDate _) as [nb|]; [|by intros w' [? ?%HQ]].
    destruct (encryptPatientField _) as [en|]; [|by intros w' [? ?%HQ]].
    destruct (encryptPatientField nb) as [eb|]; [|by intros w' [? ?%HQ]].
    apply leads_bind; [apply mutable_keeps|by intros w' [? ?%HQ]|]. intros _.
    apply leads_bind; [apply preserves_attempt, read_keeps|by intros w' [? ?%HQ]|].
    intros [[]|]; [|by intros w' [? ?%HQ]..]. destruct (negb (valid_status _)); [by intros w' [? ?%HQ]|].
    intros w' [Hw' [Hi' Ha']]. apply edit_keeps. split; [done|]. split; [done|]. cbn in Ha'. unfold edit_status in Ha'. tauto.
  - apply owner_leads; [done|]. apply keeps_leads; [|done].
    apply preserves_bind; [apply mutable_keeps|]. intros _.
    apply preserves_bind; [|intros _; apply audit_inv_keeps].
    eapply in_tx_keeps; [apply delete_patient_spec|]. intros d [] d' Hd Hr. eapply deleted_inv; [exact Hd|by eapply Hr].
  - apply leads_then; [|intros _; apply preserves_ret]. apply owner_leads; [done|]. apply keeps_leads; [|done].
    apply preserves_if; [apply preserves_throw|].
    apply preserves_bind; [apply mutable_keeps|]. intros _. apply delete_patients_keeps.
  - apply keeps_leads; [apply assign_keeps|done].
  - apply owner_leads; [done|]. apply keeps_leads; [|done]. apply preserves_bind; [apply mutable_keeps|]. intros _.
    apply preserves_bind; [apply delete_slot_keeps|]. intros [why|]; [|apply audit_inv_keeps].
    apply preserves_if; apply preserves_throw.
  - apply leads_then; [|intros _; apply preserves_ret]. apply owner_leads; [done|]. apply keeps_leads; [|done].
    apply preserves_if; [apply preserves_throw|].
    apply preserves_bind; [apply mutable_keeps|]. intros _. apply delete_slots_keeps.
  - apply leads_then; [|intros _; apply preserves_ret]. exact (generate_keeps c u e t).
Qed.
Lemma history_inv `{PatientFields} c w : history c w -> settled_with (inv c) w.
Proof.
  induction 1 as [d Hs Hp|w faults o _ [Hw Hi] Ha|w d _ [Hw [[[Hi Hs Hc] Hu] Hcap]] Es Ep].
  - split; [done|]. cbn. split; [split; [split|]|]; unfold unique_slots; rewrite ?Hs, ?Hp.
    + constructor.
    + intros p sid []%not_elem_of_nil.
    + intros s []%not_elem_of_nil.
    + constructor.
    + intros _ s. rewrite Hs. intros []%not_elem_of_nil.
  - by apply op_keeps.
  - split; [done|]. cbn. split; [split; [split|]|].
    + by rewrite Ep.
    + rewrite Ep, Es. apply Hs.
    + intros s. rewrite Es. unfold seats. rewrite Ep. apply Hc.
    + unfold unique_slots. by rewrite Es.
    + intros Ht s. rewrite Es. by apply Hcap.
Qed.


(** ** Setting a patient back to confirmed *)
Lemma count_map_flip (f : patient_row -> bool) (c : patient_row -> bool) g l p :
  NoDup (map p_id l) -> p ∈ l -> c p = true -> (forall q, q ∈ l -> c q = true -> p_id q = p_id p) ->
  f p = false -> f (g p) = true ->
  count_if f (map (fun q => if c q then g q else q) l) = count_if f l + 1.
Proof.
  intros Hnd Hp Hcp Hc Hf Hg. induction l as [|x l IH]; [by apply not_elem_of_nil in Hp|].
  cbn [map] in Hnd |- *. apply NoDup_cons in Hnd as [Hx Hnd]. rewrite !count_if_cons.
  apply elem_of_cons in Hp as [<-|Hp].
  - rewrite Hcp, Hg, Hf. replace (map (fun q => if c q then g q else q) l) with l; [lia|].
    rewrite <- (map_id l) at 1. apply map_ext_in. intros q Hq%list_elem_of_In. destruct (c q) eqn:E; [|done].
    destruct Hx. rewrite <- (Hc q ltac:(by right) E). by apply list_elem_of_In, in_map, list_elem_of_In.
  - rewrite IH; [|done|done|intros q Hq; apply Hc; by right].
    destruct (c x) eqn:E; [|lia]. destruct Hx. rewrite (Hc x ltac:(left) E).
    by apply list_elem_of_In, in_map, list_elem_of_In.
Qed.
Lemma owner_ok {A} u (k : ev A) w a w' : as_owner u k w = (Ok a, w') -> k w = (Ok a, w').
Proof. unfold as_owner. destruct (mustUser u); [|done]. by destruct (assertOwner _). Qed.
Lemma settled_eq (w : pg evdb) : p_tx w = None -> settled_with (eq (p_db w)) w.
Proof. by split. Qed.
Lemma mutable_ok e (w : pg evdb) a w' :
  p_tx w = None -> assertEventMutable e w = (Ok a, w') -> p_tx w' = None /\ p_db w' = p_db w.
Proof.
  intros Hw E. pose proof (mutable_keeps (eq (p_db w)) e w (settled_eq w Hw)) as [Hw' Hd]. by rewrite E in Hw', Hd.
Qed.

(**  Whenever setting a patient that is not confirmed but still names a
    slot to CONFIRMED succeeds, no slot's booked count changes while the slot
    has one more confirmed patient: the seat is not taken again (and not
    checked to be free), so a slot can be sold twice. *)
Theorem reconfirmed_seat_not_booked u e pid w w' p sid :
  p_tx w = None -> NoDup (map p_id (patients (p_db w))) ->
  find_patient pid e (p_db w) = Some p -> p_slot p = Some sid -> p_status p <> "CONFIRMED" ->
  UpdatePatientStatus u e pid "CONFIRMED" w = (Ok tt, w') ->
  slots (p_db w') = slots (p_db w) /\ seats sid (p_db w') = seats sid (p_db w) + 1.
Proof.
  intros Hw Hnd Hf Hsl Hst Hrun%owner_ok. cbv zeta in Hrun.
  change (ToUpper (TrimSpace "CONFIRMED")) with "CONFIRMED" in Hrun.
  change (negb (valid_status "CONFIRMED")) with false in Hrun. cbv iota in Hrun.
  apply bind_inv in Hrun as [(a & w1 & Hm & Hrun)|(? & _ & [=])].
  destruct (mutable_ok e w a w1 Hw Hm) as [Hw1 Hd1].
  apply bind_inv in Hrun as [(b & w2 & Htx & Hrun)|(? & _ & [=])].
  pose proof (in_tx_spec Internal_ (status_tx e pid "CONFIRMED") _ w1
    (rewrite_spec e pid (fun p => String.eqb "CONFIRMED" "CANCELLED" && String.eqb (p_status p) "CONFIRMED")
      (set_status "CONFIRMED") _ (write_spec _)) Hw1) as Hs.
  rewrite Htx in Hs. destruct Hs as [Hw2 [[[=] _]|(u2 & Hr & _)]]. specialize (Hr u2 eq_refl).
  destruct Hr as (p' & Hf' & Hd2). rewrite Hd1, Hf in Hf'. injection Hf' as <-. rewrite Hsl in Hd2. cbn [andb] in Hd2.
  assert (settled_with (fun d => slots d = slots (p_db w2) /\ patients d = patients (p_db w2)) w') as [_ [E1 E2]].
  { unfold auditEvent in Hrun. change w' with (snd (@Ok unit tt, w')). rewrite <- Hrun.
    apply audit_keeps; [|by split]. by intros x d [? ?]. }
  change (String.eqb "CONFIRMED" "CANCELLED") with false in Hd2. cbn [andb] in Hd2. rewrite Hd1 in Hd2.
  unfold seats. rewrite E1, E2, Hd2. split; [done|]. cbn [patients update_patient set_patients].
  apply find_patient_elem in Hf as (Hp & Hpid & Hpe & Hdel).
  apply (count_map_flip _ _ _ _ p); try done.
  - by rewrite Hpid, Hpe, !String.eqb_refl.
  - intros q _ Hq. bool_facts. congruence.
  - destruct (live sid p) eqn:E; [|done]. apply live_iff in E. tauto.
  - by apply live_iff.
Qed.

(** ** What a public registration does *)
Definition nothing_yet {A} (w : pg evdb) (x : result A * pg evdb) : Prop :=
  p_tx (snd x) = None /\ p_db (snd x) = p_db w /\ is_ok (fst x) = false.
Lemma quiet_bind {A B} (m : ev A) (k : A -> ev B) (w0 w : pg evdb) (Post : result B * pg evdb -> Prop) :
  preserves (settled_with (eq (p_db w0))) m -> settled_with (eq (p_db w0)) w ->
  (forall x, nothing_yet w0 x -> Post x) ->
  (forall a w1, settled_with (eq (p_db w0)) w1 -> m w = (Ok a, w1) -> Post (k a w1)) -> Post (bind m k w).
Proof.
  intros Hm Hw Hn Hk. unfold bind. specialize (Hm w Hw). destruct (m w) as [[a|e] w1]; cbn in Hm; [by apply Hk|].
  destruct Hm as [Hw1 Hd]. by apply Hn.
Qed.
Lemma quiet_throw {A} e (w0 w : pg evdb) (Post : result A * pg evdb -> Prop) :
  settled_with (eq (p_db w0)) w -> (forall x, nothing_yet w0 x -> Post x) -> Post (throw e w).
Proof. intros [Hw Hd] Hn. apply Hn. by split_and!. Qed.
Lemma or_internal_read_ok {A} (f : evdb -> A) (w0 w : pg evdb) a w1 :
  settled_with (eq (p_db w0)) w -> or_internal (read f) w = (Ok a, w1) -> a = f (p_db w0).
Proof.
  intros [Hw ->] E. apply bind_inv in E as [(r & w2 & Ha & E)|(? & _ & [=])]. unfold attempt in Ha.
  destruct (read f w) as [x w3] eqn:Er. injection Ha as <- <-. destruct x as [b|]; [|done]. injection E as -> _.
  by apply (read_inv f w a w3) in Er as (-> & _).
Qed.
Lemma resolve_ok p w cid q w' :
  resolvePatientContact p w = (Ok (cid, q), w') ->
  CP_TherapyID q = CP_TherapyID p /\ CP_PreferredTime q = CP_PreferredTime p.
Proof.
  unfold resolvePatientContact. destruct (String.eqb _ ""); [by intros [= _ <- _]|].
  intros [(o & w1 & _ & E)|(? & _ & [=])]%bind_inv. destruct o as [c|]; [|done]. cbv zeta in E.
  do 2 (match type of E with (if ?b then _ else _) _ = _ => destruct b end; [done|]). by injection E as _ <- _.
Qed.

(** the registration was committed *)
Definition registered (e therapy preferred pid : string) (now : Z) (d d' : evdb) : Prop :=
  exists ev s row,
    find_event e d = Some ev /\ String.eqb (ToUpper (e_status ev)) "PUBLISHED" = true /\
    registrationOpen now (e_open ev) (e_close ev) = true /\ therapy_linked e therapy d = true /\
    s ∈ slots d /\ of_therapy e therapy s = true /\ s_booked s < s_capacity s /\
    slotStartMatches (s_start s) (normalizePreferredTime preferred) = true /\
    slots d' = slots (book (s_id s) d) /\
    patients d' = (patients d ++ [row])%list /\ pid ∉ map p_id (patients d) /\
    p_id row = pid /\ p_event row = e /\ p_therapy row = therapy /\ live (s_id s) row = true /\
    patients_unique (patients d') = true.
Lemma registered_intro e th pref pid now d d' mk ev0 slot d1 :
  find_event e d = Some ev0 -> String.eqb (ToUpper (e_status ev0)) "PUBLISHED" = true ->
  registrationOpen now (e_open ev0) (e_close ev0) = true -> therapy_linked e th d = true ->
  took e th pref true true d slot d1 -> d' = inserted (mk slot) d1 -> pid = default "" (head (new_ids d)) ->
  pid ∉ map p_id (patients d) -> patients_unique (patients d') = true ->
  (forall slot id, p_id (mk slot id) = id /\ p_event (mk slot id) = e /\ p_therapy (mk slot id) = th /\
     p_slot (mk slot id) = slot /\ p_status (mk slot id) = "CONFIRMED" /\ p_deleted (mk slot id) = false) ->
  registered e th (TrimSpace pref) pid now d d'.
Proof.
  intros He Hs Ho Hl (sid & s & -> & _ & _ & (s' & Hin & <- & Hof & Hb & Hm) & Hd1) -> -> Hn Hu Hmk.
  exists ev0, s', (mk (Some (s_id s')) (default "" (head (new_ids d)))).
  subst d1. destruct (Hmk (Some (s_id s')) (default "" (head (new_ids d)))) as (H1 & H2 & H3 & H4 & H5 & H6).
  split_and!; try done; [by apply Hm|]. by apply live_iff.
Qed.

Definition published_gate (e : string) (now : Z) : ev unit :=
  let! x := or_internal (read (find_event e)) in
  match x with
  | None => throw (NotFound_ "acara tidak ditemukan")
  | Some x =>
      if negb (String.eqb (ToUpper (e_status x)) "PUBLISHED") then throw (BadRequest "Pendaftaran telah ditutup.")
      else if negb (registrationOpen now (e_open x) (e_close x)) then throw (BadRequest "Pendaftaran telah ditutup.")
      else ret tt
  end.
Lemma gate_keeps P e now : preserves (settled_with P) (published_gate e now).
Proof.
  apply preserves_bind; [apply or_internal_keeps, read_keeps|].
  intros [x|]; [|apply preserves_throw]. repeat (apply preserves_if; [apply preserves_throw|]). apply preserves_ret.
Qed.
Lemma gate_ok e now (w0 w : pg evdb) a w1 :
  settled_with (eq (p_db w0)) w -> published_gate e now w = (Ok a, w1) ->
  exists ev, find_event e (p_db w0) = Some ev /\ String.eqb (ToUpper (e_status ev)) "PUBLISHED" = true /\
    registrationOpen now (e_open ev) (e_close ev) = true.
Proof.
  intros Hs E. apply bind_inv in E as [(x & w2 & Hx & E)|(? & _ & [=])].
  apply (or_internal_read_ok _ w0 w) in Hx; [|done]. subst x.
  destruct (find_event e (p_db w0)) as [x|]; [|done]. exists x.
  destruct (String.eqb (ToUpper (e_status x)) "PUBLISHED"); [|done].
  by destruct (registrationOpen _ _ _).
Qed.

(**  A public registration is all or nothing: if it answers an error, the
    tables are untouched, unless only the reply of its commit was lost; when
    it goes through, the event was published and open and offered the therapy,
    exactly one patient was added — confirmed, under a fresh id, no other
    active registration of that person in the event — and the seat it was
    given is on a slot of that therapy that had room and starts at the chosen
    time, whose booked count (and no other) grew by one. *)
Theorem registration_all_or_nothing `{PatientFields} e p now w :
  p_tx w = None ->
  let '(r, w') := registerPatient e p now w in
  p_tx w' = None /\
  ((is_ok r = false /\ p_db w' = p_db w) \/
   exists pid, registered e (TrimSpace (CP_TherapyID p))
       (TrimSpace (clampLen (CP_PreferredTime p) maxPreferredTimeLen)) pid now (p_db w) (p_db w') /\
     (r = Ok pid \/ exists er, r = Err (Internal_ er))).
Proof.
  intros Hw. pose (Post := fun x : result string * pg evdb => let '(r, w') := x in p_tx w' = None /\
    ((is_ok r = false /\ p_db w' = p_db w) \/
     exists pid, registered e (TrimSpace (CP_TherapyID p))
         (TrimSpace (clampLen (CP_PreferredTime p) maxPreferredTimeLen)) pid now (p_db w) (p_db w') /\
       (r = Ok pid \/ exists er, r = Err (Internal_ er)))).
  change (Post (registerPatient e p now w)).
  assert (forall x, nothing_yet w x -> Post x) as Hq by (intros [r w'] (? & ? & ?); split; [done|by left]).
  pose proof (settled_eq w Hw) as Hs. unfold registerPatient, createPatientForEvent.
  apply (quiet_bind _ _ w); [apply contact_keeps|done|done|]. intros [cid q] w1 Hs1 Hres.
  destruct (resolve_ok _ _ _ _ _ Hres) as [Eth Epr]. cbv zeta. rewrite Eth, Epr.
  repeat (match goal with |- Post ((if ?b then throw _ else _) _) => destruct b; [by apply (quiet_throw _ w)|] end).
  destruct (normalizeBirthDate _) as [nb|]; [|by apply (quiet_throw _ w)].
  destruct (encryptPatientField _) as [en|]; [|by apply (quiet_throw _ w)].
  destruct (encryptPatientField nb) as [eb|]; [|by apply (quiet_throw _ w)].
  apply (quiet_bind _ _ w); [apply mutable_keeps|done|done|]. intros _ w2 Hs2 _.
  apply (quiet_bind (published_gate e now) _ w); [apply gate_keeps|done|done|]. intros u w3 Hs3 Hg.
  apply (gate_ok _ _ w) in Hg as (ev0 & He & Hpub & Hopen); [|done].
  apply (quiet_bind _ _ w); [apply or_internal_keeps, read_keeps|done|done|]. intros linked w4 Hs4 Hl.
  apply (or_internal_read_ok _ w) in Hl; [|done]. destruct linked; cbn [negb]; [|by apply (quiet_throw _ w)].
  apply (quiet_bind _ _ w); [apply or_internal_keeps, read_keeps|done|done|]. intros dup w5 Hs5 _.
  destruct dup; [by apply (quiet_throw _ w)|]. destruct Hs5 as [Hw5 Hd5].
  match goal with |- Post (bind (in_tx _ (registration_tx _ _ _ _ _ ?mk)) _ _) => set (row := mk) end.
  pose proof (in_tx_spec Internal_ _ _ w5 (registration_spec e (TrimSpace (CP_TherapyID p))
    (clampLen (CP_PreferredTime p) maxPreferredTimeLen) true true row) Hw5) as Ht.
  unfold bind. destruct (in_tx _ _ w5) as [r w6]. destruct Ht as [Hw6 [[Hno Hd6]|(pid & Hr & Hans)]].
  { destruct r; [done|]. apply Hq. split_and!; [done|by rewrite Hd5|done]. }
  destruct (Hr pid eq_refl) as (slot & d1 & Htook & Hpid & Hd6 & Hn & Hu). rewrite <- Hd5 in *.
  assert (registered e (TrimSpace (CP_TherapyID p)) (TrimSpace (clampLen (CP_PreferredTime p) maxPreferredTimeLen))
    pid now (p_db w) (p_db w6)) as Hreg by (by eapply registered_intro).
  destruct Hans as [->|(er & ->)].
  - assert (settled_with (registered e (TrimSpace (CP_TherapyID p))
      (TrimSpace (clampLen (CP_PreferredTime p) maxPreferredTimeLen)) pid now (p_db w))
      (snd (auditEvent "patient" pid "public_register" w6))) as [Hw7 Hr7].
    { apply audit_keeps; [|by split]. intros x d Hd. exact Hd. }
    unfold auditEvent, ignore in *. cbn [ret]. split; [done|]. right. exists pid. split; [done|by left].
  - split; [done|]. right. exists pid. split; [done|right; by exists er].
Qed.

(** ** Witnesses *)
Definition plain_fields : PatientFields :=
  {| encryptPatientField := Ok; patientBlindName := ToLower; normalizeBirthDate := Ok |}.
Definition example_owner : option AuthUser := Some
  {| AccountID := "a1"; TenantID := "t1"; TenantSchema := "tenant_t1"; Email := "o@x.id"; Name := "O";
     Role := "owner"; SessionID := "s"; HomeTenantID := "t1"; HomeTenantSchema := "tenant_t1";
     IsPlatformSession := false; SessionKind := "client"; Impersonating := false;
     ImpersonationTenantName := ""; ImpersonationTenantSlug := ""; ImpersonationScope := "";
     ImpersonationModules := []; ImpersonationExpiresAt := None |}.
Definition example_tables : evdb :=
  {| events := [{| e_id := "e1"; e_status := "published"; e_start_date := 20000; e_end_date := 20000;
       e_start := "08:00:00"; e_end := "09:00:00"; e_break_start := None; e_break_end := None;
       e_open := None; e_close := None; e_deleted := false |}];
     therapies := [{| et_id := "et1"; et_event := "e1"; et_therapy := "t1"; et_duration := 30;
       et_start := None; et_end := None; et_mode := "AUTO"; et_capacity_mode := "FIXED"; et_max := Some 1 |}];
     templates := []; slots := []; patients := []; persons := []; contacts := []; audits := [];
     new_ids := ["s1"; "s2"; "p1"; "p2"] |}.
Definition example_patient (name time : string) : CreatePatientParams :=
  {| CP_ContactID := ""; CP_FullName := name; CP_BirthDate := "2000-01-01"; CP_TherapyID := "t1";
     CP_Complaint := ""; CP_PreferredTime := time |}.
Definition example_generated : pg evdb :=
  snd (run_op (H := plain_fields) (OpGenerate example_owner "e1" "t1") (Build_pg example_tables None [])).
Definition example_full : pg evdb :=
  snd (run_op (H := plain_fields) (OpRegister "e1" (example_patient "Ani" "08:00") 5)
    (Build_pg (p_db example_generated) None [])).
Definition example_cancelled : pg evdb :=
  snd (run_op (H := plain_fields) (OpStatus example_owner "e1" "p1" "CANCELLED")
    (Build_pg (p_db example_full) None [])).
Definition example_rebooked : pg evdb :=
  snd (run_op (H := plain_fields) (OpRegister "e1" (example_patient "Budi" "08:00") 5)
    (Build_pg (p_db example_cancelled) None [])).
Lemma example_history : history (H := plain_fields) true example_rebooked.
Proof.
  refine (history_op (H := plain_fields) true example_cancelled [] (OpRegister "e1" (example_patient "Budi" "08:00") 5) _ _);
    [|by intros []].
  refine (history_op (H := plain_fields) true example_full [] (OpStatus example_owner "e1" "p1" "CANCELLED") _ _);
    [|by intros [[=] _]].
  refine (history_op (H := plain_fields) true example_generated [] (OpRegister "e1" (example_patient "Ani" "08:00") 5) _ _);
    [|by intros []].
  refine (history_op (H := plain_fields) true (Build_pg example_tables None []) [] (OpGenerate example_owner "e1" "t1") _ _).
  - by apply history_start.
  - intros _ s []%not_elem_of_nil.
Qed.

(** the first patient set back to confirmed: two seats on a slot for one *)
Definition example_cancelled_row : patient_row :=
  {| p_id := "p1"; p_event := "e1"; p_therapy := "t1"; p_contact := None; p_name_enc := "Ani";
     p_birth_enc := "2000-01-01"; p_name := "ani"; p_birth := "2000-01-01"; p_complaint := None;
     p_preferred := Some "08:00"; p_status := "CANCELLED"; p_slot := Some "s1"; p_deleted := false |}.
Definition example_before : pg evdb := Build_pg (p_db example_rebooked) None [].
Definition example_oversold : pg evdb :=
  snd (UpdatePatientStatus example_owner "e1" "p1" "CONFIRMED" example_before).
Lemma reconfirmed_seat_not_booked_witness :
  map (fun s => (s_capacity s, s_booked s)) (slots (p_db example_oversold)) = [(1, 1); (1, 0)] /\
  seats "s1" (p_db example_oversold) = 2.
Proof.
  split; [vm_compute; reflexivity|].
  refine (eq_trans (proj2 (reconfirmed_seat_not_booked example_owner "e1" "p1"
    example_before example_oversold example_cancelled_row "s1" _ _ _ _ _ _)) _).
  - vm_compute. reflexivity.
  - refine (bool_decide_eq_true_1 (NoDup (map p_id (patients (p_db example_before)))) _). vm_compute. reflexivity.
  - vm_compute. reflexivity.
  - vm_compute. reflexivity.
  - vm_compute. discriminate.
  - vm_compute. reflexivity.
  - vm_compute. reflexivity.
Defined.

(** the last seat at 08:00 is taken: a second patient is turned away, with
    nothing written; the seat at 08:30 is free *)
Definition example_next : pg evdb := Build_pg (p_db example_full) None [].
Lemma registration_all_or_nothing_witness :
  fst (registerPatient (H := plain_fields) "e1" (example_patient "Budi" "08:00") 5 example_next) =
      Err (BadRequest "slot pukul 08:00 sudah penuh atau tidak tersedia — pilih jam lain") /\
  fst (registerPatient (H := plain_fields) "e1" (example_patient "Budi" "08:30") 5 example_next) = Ok "p2" /\
  let '(r, w') := registerPatient (H := plain_fields) "e1" (example_patient "Budi" "08:30") 5 example_next in
  p_tx w' = None /\
  ((is_ok r = false /\ p_db w' = p_db example_next) \/
   exists pid, registered "e1" (TrimSpace (CP_TherapyID (example_patient "Budi" "08:30")))
       (TrimSpace (clampLen (CP_PreferredTime (example_patient "Budi" "08:30")) maxPreferredTimeLen)) pid 5
       (p_db example_next) (p_db w') /\
     (r = Ok pid \/ exists er, r = Err (Internal_ er))).
Proof.
  split; [vm_compute; reflexivity|]. split; [vm_compute; reflexivity|].
  exact (registration_all_or_nothing (H := plain_fields) "e1" (example_patient "Budi" "08:30") 5
    example_next eq_refl).
Defined.
