(* ===== verification/OrderApprove.v ===== *)
(** * Approving an order: decision table, transaction, stock marker

    Models [internal/orderapprove/approve.go] and [stock.go].  [Run] is the
    approve transaction over the [Store] interface, with its deferred rollback.
    [ApplyStockOnce] is a sequence of calls on the [StockStore] interface; its
    theorems are about any interleaving of any number of callers, each call
    being one database transaction. *)
From S2P Require Import Prelude GoStrings.

Open Scope string_scope.
Open Scope Z_scope.

(** ** The locked order row and the decision table *)
Record State := {
  Status : string; PaymentStatus : string; ProofMessageID : string;
  HasProofMeta : bool; ProofBlocked : bool
}.

Inductive Decision : Set := Proceed | AlreadyDone | Reject.
#[export] Instance Decision_eq_dec : EqDecision Decision.
Proof. solve_decision. Defined.

Definition ErrNoProof : error := EKind "unprocessable" "pesanan belum memiliki bukti pembayaran".
Definition ErrCancelled : error := EKind "conflict" "pesanan sudah dibatalkan".
Definition ErrBlocked : error := EKind "conflict" "bukti pembayaran diblokir; buka blokir dulu".
Definition ErrDraft : error := EKind "conflict" "pesanan masih draft; konfirmasi pesanan dulu".
Definition ErrStale : error := EKind "conflict" "pesanan berubah, muat ulang".

Definition Decide (s : State) : Decision * option error :=
  let status := ToLower (TrimSpace (Status s)) in
  let pay := ToLower (TrimSpace (PaymentStatus s)) in
  if String.eqb status "completed" then (AlreadyDone, None)
  else if String.eqb status "cancelled" then (Reject, Some ErrCancelled)
  else if ProofBlocked s then (Reject, Some ErrBlocked)
  else
    let hasProof := String.eqb pay "verified" || String.eqb pay "proof_submitted"
                    || negb (String.eqb (TrimSpace (ProofMessageID s)) "") || HasProofMeta s in
    if negb hasProof then (Reject, Some ErrNoProof)
    else if String.eqb status "draft" && negb (String.eqb pay "verified")
            && negb (String.eqb pay "proof_submitted")
         then (Reject, Some ErrDraft)
    else (Proceed, None).

(** ** [Store]: one database transaction *)
Class Store (W : Type) := {
  LockOrder : prog W (State * bool);
  CompleteVerified : prog W unit;
  RecordIncome : prog W unit;
  NotifyBuyer : prog W unit;
  Commit : prog W unit;
  Rollback : prog W unit
}.

Definition ErrNotFound : error := EText "order not found".
Definition ErrStaleRow : error := EText "order changed (updated_at guard)".

Record Result := { Res_Decision : Decision; Prev : State }.
Definition zero_State : State :=
  {| Status := ""; PaymentStatus := ""; ProofMessageID := "";
     HasProofMeta := false; ProofBlocked := false |}.
Definition zero_Result : Result := {| Res_Decision := Proceed; Prev := zero_State |}.

(** ** [Run]: (result, error) and whether the transaction was committed *)
Section run.
Context {W : Type} `{Store W}.

Definition Run_body : prog W (Result * option error * bool) :=
  let! locked := attempt LockOrder in
  match locked with
  | Err err => ret (zero_Result, Some err, false)
  | Ok (s, found) =>
      if negb found then ret (zero_Result, Some ErrNotFound, false)
      else
        let '(d, derr) := Decide s in
        let res := {| Res_Decision := d; Prev := s |} in
        match d with
        | AlreadyDone => ret (res, None, false)
        | Reject => ret (res, derr, false)
        | Proceed =>
            let! completed := attempt CompleteVerified in
            match completed with
            | Err err => ret (res, Some (if errors_Is err ErrStaleRow then ErrStale else err), false)
            | Ok _ =>
                let! income := attempt RecordIncome in
                match income with
                | Err err => ret (res, Some err, false)
                | Ok _ =>
                    let! notified := attempt NotifyBuyer in
                    match notified with
                    | Err err => ret (res, Some err, false)
                    | Ok _ =>
                        let! done := attempt Commit in
                        match done with
                        | Err err => ret (res, Some err, false)
                        | Ok _ => ret (res, None, true)
                        end
                    end
                end
            end
        end
  end.

(** the deferred [if !committed { st.Rollback() }] *)
Definition Run : prog W (Result * option error) :=
  let! out := Run_body in
  let '(res, err, committed) := out in
  (if (committed : bool) then ret tt else ignore Rollback);!
  ret (res, err).
End run.

(** ** [StockStore] calls as interaction programs

    A caller issues one call of the interface at a time and continues with its
    answer; other callers run between the calls. *)
Inductive caller (A : Type) : Type :=
  | Done (a : A)
  | ClaimStock (next : result (string * bool) -> caller A)
  | ApplyStock (next : option error -> caller A)
  | ReleaseStock (token : string) (next : option error -> caller A).
Arguments Done {A} a.
Arguments ClaimStock {A} next.
Arguments ApplyStock {A} next.
Arguments ReleaseStock {A} token next.

Definition ApplyStockOnce : caller (bool * option error) :=
  ClaimStock (fun claim =>
    match claim with
    | Err err => Done (false, Some err)
    | Ok (token, claimed) =>
        if negb claimed then Done (false, None)
        else
          ApplyStock (fun err =>
            match err with
            | Some err =>
                ReleaseStock token (fun rerr =>
                  match rerr with
                  | Some rerr => Done (false, Some rerr)
                  | None => Done (false, Some err)
                  end)
            | None => Done (true, None)
            end)
    end).

(** ** The marker and the deduction, one order

    [marker] is [stock_applied_at] (rendered as text in the token),
    [deductions] counts how often stock was taken out, [clock] is the database
    clock: every transaction that writes the marker reads a later instant.  A
    call fails without effect or takes effect; [ApplyStock] may also fail after
    its transaction committed (the COGS posting runs after it).  With [flaky],
    claims and releases may also lose their reply or fail to run.  The order
    table has the column: where it is missing, or [hasMarker] cannot tell,
    [approveStockStore.ClaimStock] grants every claim with an empty token and
    leaves it to [SyncOrderStock] to compare what was issued (OrderStock.v). *)
Record stock := { marker : option Z; deductions : Z; clock : Z }.

Definition token_of (t : Z) : string := pretty t.
Definition marked (s : stock) (t : Z) : stock :=
  {| marker := Some t; deductions := deductions s; clock := t |}.
Definition deducted (s : stock) (t : Z) : stock :=
  {| marker := Some t; deductions := deductions s + 1; clock := t |}.
Definition unmarked (s : stock) : stock :=
  {| marker := None; deductions := deductions s; clock := clock s |}.

Section calls.
Context {A : Type} (flaky : bool).

(** [call_step s c s' c']: the next call of [c] on [s] *)
Inductive call_step : stock -> caller A -> stock -> caller A -> Prop :=
  | claim_wins s t next : marker s = None -> clock s < t ->
      call_step s (ClaimStock next) (marked s t) (next (Ok (token_of t, true)))
  | claim_loses s t next : marker s = Some t ->
      call_step s (ClaimStock next) s (next (Ok ("", false)))
  | claim_fails s err next : call_step s (ClaimStock next) s (next (Err err))
  | claim_reply_lost s t err next : flaky = true -> marker s = None -> clock s < t ->
      call_step s (ClaimStock next) (marked s t) (next (Err err))
  | apply_succeeds s t next : clock s < t ->
      call_step s (ApplyStock next) (deducted s t) (next None)
  | apply_rolls_back s err next : call_step s (ApplyStock next) s (next (Some err))
  | apply_fails_after_commit s t err next : clock s < t ->
      call_step s (ApplyStock next) (deducted s t) (next (Some err))
  | release_clears s t token err next : marker s = Some t -> token_of t = token ->
      (err <> None -> flaky = true) ->
      call_step s (ReleaseStock token next) (unmarked s) (next err)
  | release_keeps s token next : (forall t, marker s = Some t -> token_of t <> token) ->
      call_step s (ReleaseStock token next) s (next None)
  | release_fails s token err next : flaky = true ->
      call_step s (ReleaseStock token next) s (next (Some err)).
End calls.

(** ** Interleaving: any caller makes its next call, new callers arrive *)
Definition system : Type := stock * list (caller (bool * option error)).

Inductive step (flaky : bool) : system -> system -> Prop :=
  | step_call s cs1 c cs2 s' c' :
      call_step flaky s c s' c' ->
      step flaky (s, (cs1 ++ c :: cs2)%list) (s', (cs1 ++ c' :: cs2)%list)
  | step_arrive s cs : step flaky (s, cs) (s, (cs ++ [ApplyStockOnce])%list).

(** no stock taken out, marker clear, nobody at work *)
Definition fresh_stock (t : Z) : stock := {| marker := None; deductions := 0; clock := t |}.
Definition reachable (flaky : bool) (t : Z) (sys : system) : Prop :=
  rtc (step flaky) (fresh_stock t, []) sys.

(** ** Lemmas: decisions *)
Lemma Decide_error s d e :
  Decide s = (d, e) -> match d with Reject => exists x, e = Some x | _ => e = None end.
Proof. unfold Decide. intros H. repeat case_on H; simplify_eq; eauto. Qed.

(** ** Lemmas: the phases of a caller *)
Inductive phase : Type :=
  | Idle
  | Applying (t : Z)
  | Releasing (t : Z) (err : error)
  | Finished (r : bool * option error).

Definition releasing (token : string) (err : error) : caller (bool * option error) :=
  ReleaseStock token (fun rerr =>
    match rerr with
    | Some rerr => Done (false, Some rerr)
    | None => Done (false, Some err)
    end).
Definition applying (token : string) : caller (bool * option error) :=
  ApplyStock (fun err =>
    match err with
    | Some err => releasing token err
    | None => Done (true, None)
    end).
Definition caller_of (p : phase) : caller (bool * option error) :=
  match p with
  | Idle => ApplyStockOnce
  | Applying t => applying (token_of t)
  | Releasing t err => releasing (token_of t) err
  | Finished r => Done r
  end.

(** a caller holding the claim on the current marker *)
Definition holds (s : stock) (p : phase) : Prop :=
  match p with
  | Applying _ => True
  | Releasing t _ => marker s = Some t
  | _ => False
  end.
#[export] Instance holds_dec s p : base.Decision (holds s p).
Proof. destruct p; cbn; apply _. Defined.

Definition phase_token (p : phase) : option Z :=
  match p with Applying t | Releasing t _ => Some t | _ => None end.

(** The protocol's invariant. *)
Record stock_inv (flaky : bool) (s : stock) (ps : list phase) : Prop := {
  si_bounds : 0 <= deductions s <= 1;
  si_unmarked : marker s = None -> deductions s = 0;
  si_marker : forall t, marker s = Some t -> t <= clock s;
  si_tokens : forall p t, p ∈ ps -> phase_token p = Some t -> t <= clock s;
  si_holder : forall p, p ∈ ps -> holds s p -> marker s = phase_token p /\ deductions s = 0;
  si_one : (length (filter (holds s) ps) <= 1)%nat;
  si_applied : forall e, Finished (true, e) ∈ ps -> deductions s = 1;
  si_claimed : flaky = false -> marker s <> None -> deductions s = 0 -> Exists (holds s) ps
}.

Lemma token_of_inj t t' : token_of t = token_of t' -> t = t'.
Proof. apply (inj pretty). Qed.

Lemma holders_nil s ps : filter (holds s) ps = [] <-> Forall (fun p => ~ holds s p) ps.
Proof.
  induction ps as [|p ps IH]; [done|]. rewrite filter_cons, Forall_cons.
  destruct (decide (holds s p)); naive_solver.
Qed.

Lemma only_holder s (p1 : list phase) p p2 :
  (length (filter (holds s) (p1 ++ p :: p2)%list) <= 1)%nat -> holds s p ->
  Forall (fun q => ~ holds s q) (p1 ++ p2)%list.
Proof.
  intros Hlen Hp. rewrite <- holders_nil, filter_app. rewrite filter_app, filter_cons_True in Hlen by done.
  rewrite length_app in Hlen. cbn in Hlen.
  rewrite (nil_length_inv (filter (holds s) p1)), (nil_length_inv (filter (holds s) p2)); [done|lia..].
Qed.

(** the phase the next call leads to *)
Lemma phase_step flaky p s s' c' :
  call_step flaky s (caller_of p) s' c' ->
  exists p', c' = caller_of p' /\
  match p with
  | Idle =>
      (s' = s /\ exists e, p' = Finished (false, e)) \/
      (marker s = None /\ exists t, clock s < t /\ s' = marked s t /\
        (p' = Applying t \/ flaky = true /\ exists e, p' = Finished (false, e)))
  | Applying t =>
      (s' = s /\ exists e, p' = Releasing t e) \/
      (exists t', clock s < t' /\ s' = deducted s t' /\
        ((exists e, p' = Releasing t e) \/ p' = Finished (true, None)))
  | Releasing t e =>
      (exists e, p' = Finished (false, e)) /\
      ((s' = s /\ (marker s <> Some t \/ flaky = true)) \/
       (marker s = Some t /\ s' = unmarked s))
  | Finished _ => False
  end.
Proof.
  destruct p as [|t|t e|f]; cbn; intros Hc; inversion Hc; subst.
  - exists (Applying t). eauto 10.
  - exists (Finished (false, None)). eauto.
  - exists (Finished (false, Some err)). eauto.
  - exists (Finished (false, Some err)). eauto 15.
  - exists (Finished (true, None)). eauto 10.
  - exists (Releasing t err). eauto.
  - exists (Releasing t err). eauto 10.
  - exists (Finished (false, Some (default e err))). split; [by destruct err|].
    match goal with H : token_of _ = token_of _ |- _ => apply token_of_inj in H; subst end. eauto 10.
  - exists (Finished (false, Some e)). split; [done|]. split; [eauto|]. left. split; [done|]. left.
    intros E. naive_solver.
  - exists (Finished (false, Some err)). eauto 10.
Qed.

Lemma elem_mid {A} (x p : A) p1 p2 : x ∈ (p1 ++ p :: p2)%list <-> x = p \/ x ∈ (p1 ++ p2)%list.
Proof. rewrite !elem_of_app, elem_of_cons. tauto. Qed.

Lemma holders_mid s p p1 p2 :
  length (filter (holds s) (p1 ++ p :: p2)%list)
  = ((if decide (holds s p) then 1 else 0) + length (filter (holds s) (p1 ++ p2)%list))%nat.
Proof.
  rewrite !filter_app, !length_app, filter_cons. destruct (decide (holds s p)); cbn; lia.
Qed.

(** When the moving caller held the claim, or nobody did, and the marker moves
    to a later instant (or is cleared), nobody else holds it afterwards. *)
Lemma others_idle s s' (ps : list phase) :
  Forall (fun q => ~ holds s q) ps ->
  (forall p t, p ∈ ps -> phase_token p = Some t -> t <= clock s) ->
  (forall t, marker s' = Some t -> clock s < t) ->
  Forall (fun q => ~ holds s' q) ps.
Proof.
  intros Hn Ht Hm. rewrite !Forall_forall in *. intros [|t|t e|r] Hin; cbn; try tauto.
  - by intros _; apply (Hn _ Hin).
  - intros Hs. specialize (Hm _ Hs). specialize (Ht _ t Hin eq_refl). lia.
Qed.

(** The new state of the protocol when nobody but the moved caller can hold
    the claim. *)
Lemma stock_inv_moved flaky s' (p' : phase) p1 p2 :
  Forall (fun q => ~ holds s' q) (p1 ++ p2)%list ->
  0 <= deductions s' <= 1 ->
  (marker s' = None -> deductions s' = 0) ->
  (forall t, marker s' = Some t -> t <= clock s') ->
  (forall p t, p ∈ (p1 ++ p2)%list -> phase_token p = Some t -> t <= clock s') ->
  (forall t, phase_token p' = Some t -> t <= clock s') ->
  (holds s' p' -> marker s' = phase_token p' /\ deductions s' = 0) ->
  (forall e, p' = Finished (true, e) \/ Finished (true, e) ∈ (p1 ++ p2)%list -> deductions s' = 1) ->
  (flaky = false -> marker s' <> None -> deductions s' = 0 -> holds s' p') ->
  stock_inv flaky s' (p1 ++ p' :: p2)%list.
Proof.
  intros Hn Hb Hu Hm Ht Ht' Hh Ha Hc. split; try done.
  - intros p t [->|Hin]%elem_mid; [apply Ht'|by apply Ht].
  - intros p [->|Hin]%elem_mid; [done|]. rewrite Forall_forall in Hn. intros Hp. by apply Hn in Hp.
  - rewrite holders_mid. apply holders_nil in Hn. rewrite Hn. cbn. destruct (decide _); lia.
  - intros e [E|Hin]%elem_mid; apply (Ha e); auto.
  - intros Hf Hmk Hd. apply Exists_exists. exists p'. split; [apply elem_mid; auto|auto].
Qed.

Lemma stock_inv_step flaky s p1 p p2 s' p' :
  stock_inv flaky s (p1 ++ p :: p2)%list ->
  call_step flaky s (caller_of p) s' (caller_of p') ->
  exists p'', caller_of p' = caller_of p'' /\ stock_inv flaky s' (p1 ++ p'' :: p2)%list.
Proof.
  intros Hi Hc. destruct (phase_step _ _ _ _ _ Hc) as (q & Hq & Hcase). exists q. split; [done|].
  assert (p ∈ (p1 ++ p :: p2)%list) as Hin by (apply elem_mid; auto).
  assert (forall x, x ∈ (p1 ++ p2)%list -> x ∈ (p1 ++ p :: p2)%list) as Hsub
    by (intros; apply elem_mid; auto).
  destruct Hi as [Hb Hu Hm Ht Hh Ho Ha Hcl].
  assert (holds s p -> Forall (fun x => ~ holds s x) (p1 ++ p2)%list) as Honly
    by (intros; by eapply only_holder).
  destruct p as [|t|t e|r]; cbn in Hcase; [| | |done].
  - destruct Hcase as [[-> (e & ->)]|(Hnone & t & Hlt & -> & Hq')].
    + split; try done.
      * intros x y [->|Hx]%elem_mid; [done|]. eauto.
      * intros x [->|Hx]%elem_mid; [done|]. eauto.
      * rewrite holders_mid in *. cbn in *. destruct (decide False); [done|]. lia.
      * intros e' [?|Hx]%elem_mid; [done|]. eauto.
      * intros Hf Hmk Hd. specialize (Hcl Hf Hmk Hd). rewrite !Exists_app, !Exists_cons in *. naive_solver.
    + assert (Forall (fun x => ~ holds s x) (p1 ++ p2)%list) as Hn.
      { apply Forall_forall. intros x Hx Hhx. destruct (Hh x (Hsub _ Hx) Hhx) as [E _].
        rewrite Hnone in E. destruct x; cbn in *; congruence. }
      apply stock_inv_moved; cbn; try done.
      * eapply others_idle; [done|eauto|]. cbn. by intros ? [= <-].
      * intros ? [= <-]. lia.
      * intros x y Hx Hy. specialize (Ht x y (Hsub _ Hx) Hy). lia.
      * intros y Hy. destruct Hq' as [->|(_ & ? & ->)]; [|done]. cbn in Hy. simplify_eq. lia.
      * destruct Hq' as [->|(_ & ? & ->)]; [|done]. cbn. auto.
      * intros e [->|Hx]; [by destruct Hq' as [?|(_ & ? & ?)]|eauto].
      * intros Hf _ _. destruct Hq' as [->|(? & _)]; [done|congruence].
  - destruct (Hh _ Hin I) as [Hmk Hd]. cbn in Hmk.
    destruct Hcase as [[-> (e & ->)]|(t' & Hlt & -> & Hq')].
    + apply stock_inv_moved; cbn; auto.
      * apply Honly. exact I.
      * intros x y Hx Hy. eauto.
      * intros y [= <-]. by apply (Ht _ t Hin).
      * intros e' [?|Hx]; [done|eauto].
    + apply stock_inv_moved; cbn; try lia; try done.
      * eapply others_idle; [by apply Honly|eauto|]. cbn. by intros ? [= <-].
      * intros ? [= <-]. lia.
      * intros x y Hx Hy. specialize (Ht x y (Hsub _ Hx) Hy). lia.
      * intros y Hy. specialize (Ht _ t Hin eq_refl).
        destruct Hq' as [(e & ->)| ->]; cbn in Hy; simplify_eq. lia.
      * intros Hq1. specialize (Ht _ t Hin eq_refl).
        destruct Hq' as [(e & ->)| ->]; cbn in Hq1; [|done]. simplify_eq. lia.
  - destruct Hcase as [(e' & ->) [[-> Hne]|[Hmk ->]]].
    + split; try done.
      * intros x y [->|Hx]%elem_mid; [done|]. eauto.
      * intros x [->|Hx]%elem_mid; [done|]. eauto.
      * rewrite holders_mid in *. cbn in *. destruct (decide False); [done|]. lia.
      * intros e2 [?|Hx]%elem_mid; [done|]. eauto.
      * intros Hf Hmk Hd. specialize (Hcl Hf Hmk Hd). rewrite !Exists_app, !Exists_cons in *.
        destruct Hne as [Hne|Hne]; [|congruence]. naive_solver.
    + destruct (Hh _ Hin Hmk) as [_ Hd].
      apply stock_inv_moved; cbn; try done; try lia.
      * eapply others_idle; [by apply Honly|eauto|done].
      * intros x y Hx Hy. eauto.
      * intros e2 [?|Hx]; [done|eauto].
Qed.

Lemma reachable_inv flaky t s cs :
  reachable flaky t (s, cs) -> exists ps, cs = map caller_of ps /\ stock_inv flaky s ps.
Proof.
  unfold reachable. intros Hr. remember (fresh_stock t, []) as sys0 eqn:E0.
  assert (exists ps, sys0.2 = map caller_of ps /\ stock_inv flaky sys0.1 ps) as Hi.
  { subst sys0. exists []. split; [done|]. split; cbn; try done; try lia.
    - intros p ? Hp. by apply not_elem_of_nil in Hp.
    - intros p Hp. by apply not_elem_of_nil in Hp.
    - intros e Hp. by apply not_elem_of_nil in Hp. }
  clear E0. remember (s, cs) as sys eqn:E. revert s cs E.
  induction Hr as [sys|sys1 sys2 sys3 Hstep Hr IH]; intros s cs ->; [done|].
  apply (IH); [|done]. clear IH Hr. destruct Hstep as [s1 cs1 c cs2 s1' c' Hc|s1 cs1]; cbn in *.
  - destruct Hi as (ps & Hmap & Hi).
    symmetry in Hmap. apply map_eq_app in Hmap as (p1 & ps' & -> & <- & Hmap).
    apply map_eq_cons in Hmap as (p & p2 & -> & <- & <-).
    destruct (phase_step _ _ _ _ _ Hc) as (q & -> & _).
    destruct (stock_inv_step _ _ _ _ _ _ _ Hi Hc) as (q' & Hq & Hi').
    exists (p1 ++ q' :: p2)%list. split; [|done]. by rewrite map_app, Hq.
  - destruct Hi as (ps & -> & [Hb Hu Hm Ht Hh Ho Ha Hcl]). exists (ps ++ [Idle])%list.
    split; [by rewrite map_app|].
    split; try done.
    + intros p y [Hp|Hp%list_elem_of_singleton]%elem_of_app; [eauto|by subst].
    + intros p [Hp|Hp%list_elem_of_singleton]%elem_of_app; [eauto|by subst].
    + rewrite filter_app, length_app. cbn. destruct (decide False); [done|]. cbn. lia.
    + intros e [Hp|Hp%list_elem_of_singleton]%elem_of_app; [eauto|done].
    + intros. apply Exists_app. eauto.
Qed.

(** ** Properties *)

(** C6. Stock is taken out at most once: in any interleaving of any number of
    concurrent or repeated approvals of one order, with calls failing before or
    after their effect, the order's stock is deducted at most once, and a
    caller that reports "applied" reports a deduction that happened. *)
Theorem stock_deducted_at_most_once flaky t s cs :
  reachable flaky t (s, cs) ->
  0 <= deductions s <= 1 /\ (forall e, Done (true, e) ∈ cs -> deductions s = 1).
Proof.
  intros (ps & -> & [Hb _ _ _ _ _ Ha _])%reachable_inv. split; [done|].
  intros e (p & Hp & Hin)%list_elem_of_fmap. destruct p; try done.
  injection Hp as <-. by apply (Ha e).
Qed.

Lemma stock_deducted_at_most_once_witness :
  exists s, reachable true 0 (s, [Done (true, None); Done (false, None)]) /\ deductions s = 1.
Proof.
  assert (reachable true 0 (deducted (marked (fresh_stock 0) 1) 2, [Done (true, None); Done (false, None)])) as Hr.
  { eapply rtc_l; [apply (step_arrive _ _ [])|].
    eapply rtc_l; [apply (step_arrive _ _ [_])|].
    eapply rtc_l; [eapply (step_call _ _ [] _ [_]), (claim_wins _ _ 1); [reflexivity|reflexivity]|].
    eapply rtc_l; [eapply (step_call _ _ [] _ [_]), (apply_succeeds _ _ 2); reflexivity|].
    eapply rtc_l; [eapply (step_call _ _ [_] _ []), (claim_loses _ _ 2); reflexivity|].
    apply rtc_refl. }
  exists (deducted (marked (fresh_stock 0) 1) 2). split; [exact Hr|].
  apply (stock_deducted_at_most_once true 0 _ _ Hr) with (e := None), list_elem_of_here.
Defined.

(** C7. A failed deduction can be retried: once every caller has returned, and
    as long as no claim or release was itself lost, the marker is clear exactly
    when stock was not deducted; and then a further approval can still deduct
    it and report so.  (A lost claim or release leaves the marker set without a
    deduction; nothing in the flow clears it.) *)
Theorem stock_retry_applies t s cs :
  reachable false t (s, cs) -> Forall (fun c => exists r, c = Done r) cs ->
  (marker s = None <-> deductions s = 0) /\
  (deductions s = 0 -> exists s',
     rtc (step false) (s, cs) (s', (cs ++ [Done (true, None)])%list) /\ deductions s' = 1).
Proof.
  intros (ps & -> & [Hb Hu Hm Ht Hh Ho Ha Hcl])%reachable_inv Hdone.
  assert (~ Exists (holds s) ps) as Hidle.
  { intros (p & Hp & Hhold)%Exists_exists. rewrite Forall_forall in Hdone.
    destruct (Hdone (caller_of p)) as [r Hr]; [by apply list_elem_of_fmap_2|]. by destruct p. }
  assert (marker s = None <-> deductions s = 0) as Hiff.
  { split; [done|]. intros Hd. destruct (marker s) eqn:E; [|done]. exfalso. by apply Hidle, Hcl. }
  split; [done|]. intros Hd. apply Hiff in Hd as Hnone.
  exists (deducted (marked s (clock s + 1)) (clock s + 2)). split; [|cbn; lia].
  eapply rtc_l; [apply step_arrive|].
  eapply rtc_l; [apply (step_call _ _ _ _ []), (claim_wins _ _ (clock s + 1)); [done|lia]|].
  eapply rtc_l; [apply (step_call _ _ _ _ []), (apply_succeeds _ _ (clock s + 2)); cbn; lia|].
  apply rtc_refl.
Qed.

Lemma stock_retry_applies_witness :
  exists s', rtc (step false) (fresh_stock 7, []) (s', [Done (true, None)]) /\ deductions s' = 1.
Proof.
  apply (stock_retry_applies 7 (fresh_stock 7) []); [apply rtc_refl|constructor|reflexivity].
Defined.
