(* ===== verification/ApproveTx.v ===== *)
(** * The approve transaction on the tenant database

    Models the Postgres side of approving an order: [order/approve.go]'s
    [approveTxStore], [finance/order_income.go]'s idempotent income row,
    [order/payment_proof_meta.go], [order/number.go] and [internal/proofcheck].
    One transaction works on its own copy of the tenant's tables, installed by
    [COMMIT]; a failed statement aborts the transaction (later statements fail,
    and so does the commit), as in Postgres.  The order row is locked by the
    first statement, so transactions on one order are serial.  Not modelled:
    the cached wallet balances ([refreshWallets] is a statement without visible
    effect that can fail) and the schema check of [prepareTenant] (a call that
    can fail). *)
From Stdlib Require Import SpecFloat.
From S2P Require Import Prelude GoStrings OrderApprove.

Open Scope string_scope.
Open Scope Z_scope.

(** ** Payment proofs *)
Record PaymentProofMeta := {
  PM_Amount : option spec_float; PM_Bank : string; PM_AccountNumber : string;
  PM_AccountName : string; PM_Date : string; PM_Confidence : spec_float;
  PM_Flags : list string; PM_RejectReason : string; PM_FileHash : string;
  PM_RejectionCount : Z; PM_ProofBlocked : bool; PM_BlockedNotified : bool
}.

Definition PaymentProofMaxRejections : Z := 5.
Definition IsPaymentProofBlocked (meta : PaymentProofMeta) : bool :=
  PM_ProofBlocked meta || (PaymentProofMaxRejections <=? PM_RejectionCount meta).
Definition set_rejections (n : Z) (blocked notified : bool) (m : PaymentProofMeta) : PaymentProofMeta :=
  {| PM_Amount := PM_Amount m; PM_Bank := PM_Bank m; PM_AccountNumber := PM_AccountNumber m;
     PM_AccountName := PM_AccountName m; PM_Date := PM_Date m; PM_Confidence := PM_Confidence m;
     PM_Flags := PM_Flags m; PM_RejectReason := PM_RejectReason m; PM_FileHash := PM_FileHash m;
     PM_RejectionCount := n; PM_ProofBlocked := blocked; PM_BlockedNotified := notified |}.
Definition IncrementPaymentRejection (meta : PaymentProofMeta) : PaymentProofMeta :=
  let n := PM_RejectionCount meta + 1 in
  set_rejections n (if PaymentProofMaxRejections <=? n then true else PM_ProofBlocked meta)
    (PM_BlockedNotified meta) meta.
Definition ResetPaymentProofBlock (meta : PaymentProofMeta) : PaymentProofMeta :=
  set_rejections 0 false false meta.

(** [internal/proofcheck]: the owner-facing check of a processed proof *)
Definition Match_ : string := "cocok".
Definition NeedsReview : string := "perlu_dicek".
Definition informational (flag : string) : bool := String.eqb flag "ai_review_required".
Definition contains (s : list string) (v : string) : bool := existsb (fun x => String.eqb x v) s.
Definition float_le_zero (x : spec_float) : bool := SFleb x (S754_zero false).

Definition proof_Result (hasMeta : bool) (amount : option spec_float) (flags : list string)
    (proofBlocked : bool) : string * list string :=
  if negb hasMeta then ("", [])
  else
    let reasons := List.filter (fun f => negb (informational f)) flags in
    let reasons :=
      if match amount with None => true | Some a => float_le_zero a end
         && negb (contains reasons "missing_amount")
      then (reasons ++ ["missing_amount"])%list else reasons in
    let reasons :=
      if proofBlocked && negb (contains reasons "proof_blocked")
      then (reasons ++ ["proof_blocked"])%list else reasons in
    match reasons with
    | [] => (Match_, [])
    | _ => (NeedsReview, reasons)
    end.

(** the [payment_proof_meta] column: NULL or empty (at most two bytes), JSON
    that does not decode into the struct, or a decoded value *)
Inductive meta_column : Type :=
  | MetaEmpty
  | MetaUndecodable
  | MetaValue (pm : PaymentProofMeta).

Definition nonempty (s : string) : bool := negb (String.eqb s "").
Definition applyPaymentProofMetaTo (raw : meta_column) (st : State) : State :=
  match raw with
  | MetaValue pm =>
      {| Status := Status st; PaymentStatus := PaymentStatus st; ProofMessageID := ProofMessageID st;
         HasProofMeta := bool_decide (is_Some (PM_Amount pm)) || nonempty (PM_Bank pm)
                         || nonempty (PM_AccountNumber pm) || nonempty (PM_FileHash pm);
         ProofBlocked := PM_ProofBlocked pm |}
  | MetaEmpty | MetaUndecodable => st
  end.

(** [order/number.go] *)
Definition FormatOrderNumber (orderID : string) : string :=
  let id := ReplaceAll (TrimSpace orderID) "-" "" in
  if String.eqb id "" then ""
  else "WB-" ++ ToUpper (if (8 <? String.length id)%nat then take_bytes 8 id else id).

(** ** The tenant's tables *)
Record OrderRow := {
  o_status : string; o_payment_status : string; o_proof_message_id : string;
  o_proof_meta : meta_column; o_verified_at : option Z; o_verified_by : option string;
  o_updated_at : Z; o_total : spec_float; o_income_wallet_id : string;
  o_conversation_id : string; o_deleted : bool
}.
Record FinTxn := {
  ft_type : string; ft_amount : spec_float; ft_currency : string; ft_wallet : string;
  ft_category : option string; ft_description : string; ft_reference : string;
  ft_date : string; ft_status : string; ft_created_by : string; ft_deleted : bool
}.
Record Wallet := {
  wl_id : string; wl_type : string; wl_order : Z; wl_created : Z;
  wl_active : bool; wl_deleted : bool
}.
Record Category := { ct_id : string; ct_name : string; ct_system : bool; ct_deleted : bool }.
Record Message := { msg_conversation : string; msg_body : string; msg_metadata : string }.

Record tenantDB := {
  orders : gmap string OrderRow; fin_transactions : list FinTxn; wallets : list Wallet;
  categories : list Category; locked_periods : list string; messages : list Message
}.

Definition set_orders m db := {| orders := m; fin_transactions := fin_transactions db;
  wallets := wallets db; categories := categories db; locked_periods := locked_periods db;
  messages := messages db |}.
Definition set_transactions t db := {| orders := orders db; fin_transactions := t;
  wallets := wallets db; categories := categories db; locked_periods := locked_periods db;
  messages := messages db |}.
Definition set_messages m db := {| orders := orders db; fin_transactions := fin_transactions db;
  wallets := wallets db; categories := categories db; locked_periods := locked_periods db;
  messages := m |}.

(** ** One [*sql.Tx] *)
Record world := {
  w_db : tenantDB;
  w_tx : option (tenantDB * bool);  (** open transaction: its tables, aborted? *)
  w_now : Z;                        (** [NOW()]: the start of the transaction *)
  w_today : string;                 (** today in the tenant's reporting time zone *)
  w_today_default : string;         (** today in the default zone *)
  w_faults : list fault
}.
Definition set_tx tx w := {| w_db := w_db w; w_tx := tx; w_now := w_now w; w_today := w_today w;
  w_today_default := w_today_default w; w_faults := w_faults w |}.
Definition set_db d w := {| w_db := d; w_tx := w_tx w; w_now := w_now w; w_today := w_today w;
  w_today_default := w_today_default w; w_faults := w_faults w |}.

Definition ErrTxDone : error := EText "sql: transaction has already been committed or rolled back".
Definition ErrTxAborted : error := EText "current transaction is aborted".
Definition db_error : error := EText "db error".

(** the outcome of the next round trip *)
Definition next_fault : prog world fault := fun w =>
  (Ok (default Fine (head (w_faults w))),
   {| w_db := w_db w; w_tx := w_tx w; w_now := w_now w; w_today := w_today w;
      w_today_default := w_today_default w; w_faults := tail (w_faults w) |}).

(** a statement inside the transaction *)
Definition stmt {A} (f : tenantDB -> A * tenantDB) : prog world A :=
  let! o := next_fault in
  fun w =>
    match w_tx w, o with
    | None, _ => (Err ErrTxDone, w)
    | Some (_, true), _ => (Err ErrTxAborted, w)
    | Some (d, false), Fine => let '(a, d') := f d in (Ok a, set_tx (Some (d', false)) w)
    | Some (d, false), _ => (Err db_error, set_tx (Some (d, true)) w)
    end.

Definition tx_begin : prog world unit := fun w => (Ok tt, set_tx (Some (w_db w, false)) w).
Definition tx_commit : prog world unit :=
  let! o := next_fault in
  fun w =>
    match w_tx w with
    | None => (Err ErrTxDone, w)
    | Some (_, true) => (Err ErrTxAborted, set_tx None w)
    | Some (d, false) =>
        match o with
        | Fine => (Ok tt, set_tx None (set_db d w))
        | FailBefore => (Err db_error, set_tx None w)
        | FailAfter => (Err db_error, set_tx None (set_db d w))
        end
    end.
Definition tx_rollback : prog world unit := fun w =>
  match w_tx w with
  | None => (Err ErrTxDone, w)
  | Some _ => (Ok tt, set_tx None w)
  end.

(** ** [finance/order_income.go] *)
Definition BadRequest (msg : string) : error := ECode InvalidArgument msg.
Definition Forbidden (msg : string) : error := ECode PermissionDenied msg.
Definition InternalErr (msg : string) : error := ECode Internal msg.

(** [if err != nil { return appErrs.Internal(err.Error()) }] *)
Definition or_internal {A} (m : prog world A) : prog world A :=
  let! r := attempt m in
  match r with Ok a => ret a | Err e => throw (InternalErr (error_text e)) end.

Definition usable (w : Wallet) : bool := negb (wl_deleted w) && wl_active w.
Definition wallet_rank (w : Wallet) : Z := if String.eqb (wl_type w) "cash" then 0 else 1.
(** ORDER BY (cash first), display_order, created_at *)
Definition wallet_before (a b : Wallet) : bool :=
  (wallet_rank a <? wallet_rank b)
  || ((wallet_rank a =? wallet_rank b)
      && ((wl_order a <? wl_order b)
          || ((wl_order a =? wl_order b) && (wl_created a <? wl_created b)))).
Definition first_wallet (ws : list Wallet) : option Wallet :=
  fold_left (fun best w =>
    match best with
    | None => Some w
    | Some b => if wallet_before w b then Some w else Some b
    end) ws None.

Definition resolveDefaultIncomeWallet : prog world string :=
  let! r := or_internal (stmt (fun d => (wl_id <$> first_wallet (List.filter usable (wallets d)), d))) in
  match r with
  | None => throw (BadRequest "belum ada dompet aktif untuk mencatat pemasukan pesanan")
  | Some id => ret id
  end.

Definition resolveIncomeWallet (walletID : string) : prog world string :=
  let walletID := TrimSpace walletID in
  if nonempty walletID then
    let! exists_ := or_internal (stmt (fun d =>
      (existsb (fun w => String.eqb (wl_id w) walletID && usable w) (wallets d), d))) in
    if exists_ then ret walletID
    else throw (BadRequest "dompet pemasukan tidak valid atau tidak aktif")
  else resolveDefaultIncomeWallet.

(** YYYY-MM of a YYYY-MM-DD date; anything shorter means "now" in the default zone *)
Definition walletPeriod (today_default d : string) : string :=
  if (7 <=? String.length d)%nat then take_bytes 7 d else take_bytes 7 today_default.

Definition income_of (orderID : string) (t : FinTxn) : bool :=
  String.eqb (ft_reference t) orderID && String.eqb (ft_type t) "income".
(** what the partial unique index on [reference_no] covers *)
Definition live_income (orderID : string) (t : FinTxn) : bool :=
  income_of orderID t && negb (ft_deleted t).

Definition is_sales_category (c : Category) : bool :=
  String.eqb (ct_name c) "Penjualan Produk" && negb (ct_deleted c) && ct_system c.

(** [financeToday]: the default zone when the setting cannot be read *)
Definition financeToday : prog world string :=
  let! r := attempt (stmt (fun d => (tt, d))) in
  fun w => (Ok (match r with Ok _ => w_today w | Err _ => w_today_default w end), w).

Definition get_today_default : prog world string := fun w => (Ok (w_today_default w), w).
Definition ensurePeriodUnlocked (period : string) : prog world unit :=
  let! locked := or_internal (stmt (fun d => (existsb (String.eqb period) (locked_periods d), d))) in
  if locked then throw (Forbidden ("periode " ++ period ++ " sudah dikunci")) else ret tt.

(** INSERT … ON CONFLICT DO NOTHING: the number of rows affected *)
Definition insert_income (t : FinTxn) (d : tenantDB) : Z * tenantDB :=
  if existsb (live_income (ft_reference t)) (fin_transactions d) then (0, d)
  else (1, set_transactions (fin_transactions d ++ [t])%list d).

(** DELETE of the soft-deleted income rows of the order *)
Definition purge_income (orderID : string) (ts : list FinTxn) : list FinTxn :=
  List.filter (fun t => negb (income_of orderID t && ft_deleted t)) ts.

Definition nil_uuid : string := "00000000-0000-0000-0000-000000000000".

Definition recordOrderIncome (createdBy orderID : string) (amount : spec_float)
    (walletID : string) : prog world unit :=
  let! resolvedWalletID := resolveIncomeWallet walletID in
  or_internal (stmt (fun d => (tt, set_transactions (purge_income orderID (fin_transactions d)) d)));!
  let! category := attempt (stmt (fun d => (ct_id <$> List.find is_sales_category (categories d), d))) in
  let categoryID := match category with Ok c => c | Err _ => None end in
  let! today := financeToday in
  let! today_default := get_today_default in
  ensurePeriodUnlocked (walletPeriod today_default today);!
  let! res := attempt (stmt (insert_income {|
    ft_type := "income"; ft_amount := amount; ft_currency := "IDR"; ft_wallet := resolvedWalletID;
    ft_category := categoryID; ft_description := "Pesanan #" ++ orderID; ft_reference := orderID;
    ft_date := today; ft_status := "approved";
    ft_created_by := if String.eqb createdBy "" then nil_uuid else createdBy;
    ft_deleted := false |})) in
  match res with
  | Err e => throw (InternalErr ("failed to record order income: " ++ error_text e))
  | Ok n => if n =? 0 then ret tt else ignore (stmt (fun d => (tt, d)))
  end.

Definition RecordOrderCompletedIncomeTx (createdBy orderID : string) (amount : spec_float)
    (walletID : string) : prog world unit :=
  if float_le_zero amount then ret tt
  else
    let orderID := TrimSpace orderID in
    if String.eqb orderID "" then ret tt
    else
      let! prepared := next_fault in
      match prepared with
      | Fine => recordOrderIncome createdBy orderID amount walletID
      | _ => throw (InternalErr "prepare tenant")
      end.

(** ** [approveTxStore] *)
Record approveTxStore := {
  s_actor : string;            (** the session's account *)
  s_id : string;               (** the order in the request path *)
  s_expected : option Z        (** optional stale guard, as a timestamptz *)
}.

(** SELECT … FOR UPDATE, and the decoded proof meta *)
Definition state_of (o : OrderRow) : State :=
  applyPaymentProofMetaTo (o_proof_meta o)
    {| Status := o_status o; PaymentStatus := o_payment_status o;
       ProofMessageID := o_proof_message_id o; HasProofMeta := false; ProofBlocked := false |}.
Definition live_order (id : string) (d : tenantDB) : option OrderRow :=
  match orders d !! id with
  | Some o => if o_deleted o then None else Some o
  | None => None
  end.

Definition completeVerified_row (actor : string) (now : Z) (o : OrderRow) : OrderRow :=
  {| o_status := "completed"; o_payment_status := "verified";
     o_proof_message_id := o_proof_message_id o; o_proof_meta := o_proof_meta o;
     o_verified_at := Some (default now (o_verified_at o));
     o_verified_by := Some (default actor (o_verified_by o));
     o_updated_at := now; o_total := o_total o; o_income_wallet_id := o_income_wallet_id o;
     o_conversation_id := o_conversation_id o; o_deleted := o_deleted o |}.

(** the guarded UPDATE … RETURNING *)
Definition completeVerifiedSQL (s : approveTxStore) (now : Z) (d : tenantDB) : option OrderRow * tenantDB :=
  match live_order (s_id s) d with
  | None => (None, d)
  | Some o =>
      if match s_expected s with None => true | Some t => o_updated_at o =? t end
      then let o' := completeVerified_row (s_actor s) now o in
           (Some o', set_orders (<[ s_id s := o' ]> (orders d)) d)
      else (None, d)
  end.

Definition notify_body (id : string) : string :=
  "Pembayaran pesanan " ++ FormatOrderNumber id ++ " terverifikasi dan pesanan selesai. Terima kasih!".
Definition orderPaymentNotifyMetadataJSON : string :=
  Join ["{"; "reason"; ":"; "non_question"; ","; "path"; ":"; "order_payment_notify"; ",";
        "llmUsed"; ":false}"] (String (byte 34) "").

(** The store keeps the completed row ([s.order]) between its calls. *)
Record tx_state := { t_world : world; t_order : option OrderRow }.
Definition lift {A} (m : prog world A) : prog tx_state A := fun t =>
  let '(r, w) := m (t_world t) in (r, {| t_world := w; t_order := t_order t |}).
Definition get_order : prog tx_state (option OrderRow) := fun t => (Ok (t_order t), t).
Definition set_order (o : OrderRow) : prog tx_state unit := fun t =>
  (Ok tt, {| t_world := t_world t; t_order := Some o |}).
Definition get_now : prog tx_state Z := fun t => (Ok (w_now (t_world t)), t).

Section store.
Context (s : approveTxStore).

Definition store_LockOrder : prog tx_state (State * bool) :=
  let! r := attempt (lift (stmt (fun d => (state_of <$> live_order (s_id s) d, d)))) in
  match r with
  | Err e => throw (EWrap "lock order" e)
  | Ok None => ret (zero_State, false)
  | Ok (Some st) => ret (st, true)
  end.

Definition store_CompleteVerified : prog tx_state unit :=
  let! now := get_now in
  let! r := attempt (lift (stmt (completeVerifiedSQL s now))) in
  match r with
  | Err e => throw (EWrap "approve order" e)
  | Ok None => throw ErrStaleRow
  | Ok (Some o) => set_order o
  end.

(** a zero [Order] when [CompleteVerified] has not run *)
Definition store_RecordIncome : prog tx_state unit :=
  let! o := get_order in
  match o with
  | None => lift (RecordOrderCompletedIncomeTx (s_actor s) "" (S754_zero false) "")
  | Some o => lift (RecordOrderCompletedIncomeTx (s_actor s) (s_id s) (o_total o) (o_income_wallet_id o))
  end.

Definition store_NotifyBuyer : prog tx_state unit :=
  let! o := get_order in
  let conversation := match o with None => "" | Some o => o_conversation_id o end in
  if String.eqb conversation "" then ret tt
  else lift (stmt (fun d => (tt, set_messages (messages d ++ [{|
         msg_conversation := conversation; msg_body := notify_body (s_id s);
         msg_metadata := orderPaymentNotifyMetadataJSON |}])%list d))).

Definition approve_store : Store tx_state := {|
  LockOrder := store_LockOrder; CompleteVerified := store_CompleteVerified;
  RecordIncome := store_RecordIncome; NotifyBuyer := store_NotifyBuyer;
  Commit := lift tx_commit; Rollback := lift tx_rollback |}.

(** BEGIN, then [orderapprove.Run] over the store *)
Definition approve_transaction : prog tx_state (Result * option error) :=
  lift tx_begin;! Run (H:=approve_store).
End store.

Definition approve_run (s : approveTxStore) (w : world) : result (Result * option error) * world :=
  let '(r, t) := approve_transaction s {| t_world := w; t_order := None |} in (r, t_world t).

(** ** What an approval does, as one function of the tables

    The rows an approval leaves behind, given the wallet and category the
    income was booked on. *)
Definition income_row (s : approveTxStore) (o : OrderRow) (wallet : string)
    (category : option string) (today : string) : FinTxn :=
  {| ft_type := "income"; ft_amount := o_total o; ft_currency := "IDR"; ft_wallet := wallet;
     ft_category := category; ft_description := "Pesanan #" ++ TrimSpace (s_id s);
     ft_reference := TrimSpace (s_id s); ft_date := today; ft_status := "approved";
     ft_created_by := if String.eqb (s_actor s) "" then nil_uuid else s_actor s;
     ft_deleted := false |}.

Definition with_income (s : approveTxStore) (o : OrderRow) (wallet : string)
    (category : option string) (today : string) (d : tenantDB) : tenantDB :=
  if float_le_zero (o_total o) || String.eqb (TrimSpace (s_id s)) "" then d
  else snd (insert_income (income_row s o wallet category today)
              (set_transactions (purge_income (TrimSpace (s_id s)) (fin_transactions d)) d)).

Definition with_notice (s : approveTxStore) (o : OrderRow) (d : tenantDB) : tenantDB :=
  if String.eqb (o_conversation_id o) "" then d
  else set_messages (messages d ++ [{| msg_conversation := o_conversation_id o;
         msg_body := notify_body (s_id s); msg_metadata := orderPaymentNotifyMetadataJSON |}])%list d.

Definition approved (s : approveTxStore) (now : Z) (o : OrderRow) (wallet : string)
    (category : option string) (today : string) (d : tenantDB) : tenantDB :=
  let o' := completeVerified_row (s_actor s) now o in
  with_notice s o' (with_income s o' wallet category today
    (set_orders (<[ s_id s := o' ]> (orders d)) d)).

(** at most one live income row per reference: the partial unique index *)
Definition unique_income (d : tenantDB) : Prop :=
  forall ref, (length (List.filter (live_income ref) (fin_transactions d)) <= 1)%nat.

(** ** Lemmas: programs inside a transaction

    [tx_spec m P]: started in an open transaction with tables [d], [m] leaves
    everything outside the transaction alone and the transaction open; if it
    answers [a] with the transaction still healthy, then [P base d a d'].  An
    aborted transaction stays aborted. *)
Definition base (w : world) : tenantDB * Z * string * string :=
  (w_db w, w_now w, w_today w, w_today_default w).

Definition tx_spec {A} (m : prog world A)
    (P : tenantDB * Z * string * string -> tenantDB -> A -> tenantDB -> Prop) : Prop :=
  forall w d b, w_tx w = Some (d, b) ->
    base (snd (m w)) = base w /\
    exists d' b', w_tx (snd (m w)) = Some (d', b') /\ (b = true -> b' = true) /\
      (b' = false -> forall a, fst (m w) = Ok a -> P (base w) d a d').

Lemma tx_spec_impl {A} (m : prog world A) P Q :
  tx_spec m P -> (forall b d a d', P b d a d' -> Q b d a d') -> tx_spec m Q.
Proof.
  intros Hm HPQ w d b Hw. destruct (Hm w d b Hw) as (Hb & d' & b' & ? & ? & HP).
  split; [done|]. exists d', b'. eauto 10.
Qed.

Lemma tx_spec_ret {A} (a : A) : tx_spec (ret a) (fun _ d a' d' => a' = a /\ d' = d).
Proof. intros w d b Hw. split; [done|]. exists d, b. cbn. naive_solver. Qed.

Lemma tx_spec_throw {A} e P : tx_spec (throw (A:=A) e) P.
Proof. intros w d b Hw. split; [done|]. exists d, b. cbn. naive_solver. Qed.

Lemma tx_spec_bind {A B} (m : prog world A) (k : A -> prog world B) P Q :
  tx_spec m P -> (forall a, tx_spec (k a) (Q a)) ->
  tx_spec (bind m k) (fun b d x d'' => exists a d', P b d a d' /\ Q a b d' x d'').
Proof.
  intros Hm Hk w d b Hw. destruct (Hm w d b Hw) as (Hb & d' & b' & Hw' & Hbb & HP).
  unfold bind. destruct (m w) as [[a|e] w1]; cbn in *.
  - destruct (Hk a w1 d' b' Hw') as (Hb2 & d'' & b'' & Hw2 & Hbb2 & HQ).
    split; [congruence|]. exists d'', b''. split_and!; [done|auto|].
    intros -> x Hx. exists a, d'. rewrite Hb in HQ. destruct b'; [by discriminate Hbb2|]. eauto.
  - split; [done|]. exists d', b'. naive_solver.
Qed.

Lemma tx_spec_attempt_stmt {A} (f : tenantDB -> A * tenantDB) :
  tx_spec (attempt (stmt f)) (fun _ d r d' => r = Ok (fst (f d)) /\ d' = snd (f d)).
Proof.
  intros w d b Hw. unfold attempt, stmt, bind, next_fault. cbn. rewrite Hw.
  destruct b; [by split; [|exists d, true]|].
  destruct (default Fine (head (w_faults w))); cbn.
  - destruct (f d) as [a d']. cbn. split; [done|]. exists d', false. naive_solver.
  - split; [done|]. exists d, true. naive_solver.
  - split; [done|]. exists d, true. naive_solver.
Qed.

Lemma tx_spec_stmt {A} (f : tenantDB -> A * tenantDB) :
  tx_spec (stmt f) (fun _ d a d' => a = fst (f d) /\ d' = snd (f d)).
Proof.
  intros w d b Hw. destruct (tx_spec_attempt_stmt f w d b Hw) as (Hb & d' & b' & ? & ? & HP).
  unfold attempt in *. destruct (stmt f w) as [r w']. cbn in *.
  split; [done|]. exists d', b'. split_and!; try done. intros Hf a ->. naive_solver.
Qed.

Lemma tx_spec_or_internal {A} (f : tenantDB -> A * tenantDB) :
  tx_spec (or_internal (stmt f)) (fun _ d a d' => a = fst (f d) /\ d' = snd (f d)).
Proof.
  eapply tx_spec_impl.
  - apply tx_spec_bind; [apply tx_spec_attempt_stmt|].
    intros r. instantiate (1 := fun r _ d a d' => r = Ok a /\ d' = d). destruct r as [a|e].
    + eapply tx_spec_impl; [apply tx_spec_ret|]. naive_solver.
    + apply tx_spec_throw.
  - cbn. naive_solver.
Qed.

Lemma tx_spec_ignore_stmt {A} (f : tenantDB -> A * tenantDB) :
  tx_spec (ignore (stmt f)) (fun _ d _ d' => d' = snd (f d)).
Proof.
  intros w d b Hw. destruct (tx_spec_attempt_stmt f w d b Hw) as (Hb & d' & b' & ? & ? & HP).
  unfold ignore, attempt in *. destruct (stmt f w) as [r w']. cbn in *.
  split; [done|]. exists d', b'. naive_solver.
Qed.

Lemma tx_spec_next_fault : tx_spec next_fault (fun _ d _ d' => d' = d).
Proof. intros w d b Hw. split; [done|]. exists d, b. cbn. naive_solver. Qed.
Lemma tx_spec_get_today_default : tx_spec get_today_default (fun b d a d' => a = b.2 /\ d' = d).
Proof. intros w d b Hw. split; [done|]. exists d, b. cbn. naive_solver. Qed.
Lemma tx_spec_financeToday : tx_spec financeToday (fun b d a d' => a = b.1.2 /\ d' = d).
Proof.
  intros w d b Hw. unfold financeToday, bind.
  destruct (tx_spec_attempt_stmt (fun d => (tt, d)) w d b Hw) as (Hb & d' & b' & ? & ? & HP).
  destruct (attempt _ w) as [[r|e] w'] eqn:E; cbn in *.
  - split; [done|]. exists d', b'. split_and!; try done. intros Hf a [= <-].
    destruct (HP Hf _ eq_refl) as [-> ->]. injection Hb as _ _ Ht _. by rewrite Ht.
  - split; [done|]. exists d', b'. naive_solver.
Qed.

(** ** Lemmas: the income row *)
Lemma resolveIncomeWallet_spec walletID :
  tx_spec (resolveIncomeWallet walletID) (fun _ d _ d' => d' = d).
Proof.
  unfold resolveIncomeWallet, resolveDefaultIncomeWallet.
  assert (forall A (f : tenantDB -> A * tenantDB) (k : A -> prog world string),
    (forall d, snd (f d) = d) -> (forall a, tx_spec (k a) (fun _ d _ d' => d' = d)) ->
    tx_spec (bind (or_internal (stmt f)) k) (fun _ d _ d' => d' = d)) as Hread.
  { intros A f k Hf Hk. eapply tx_spec_impl; [apply tx_spec_bind; [apply tx_spec_or_internal|exact Hk]|].
    cbn. intros b d a d'' (x & d' & [_ Hd] & ->). by rewrite Hd, Hf. }
  assert (forall x : string, tx_spec (ret x) (fun _ d _ d' => d' = d)) as Hret.
  { intros x. eapply tx_spec_impl; [apply tx_spec_ret|]. naive_solver. }
  destruct (nonempty _); apply Hread; try done.
  - intros []; [apply Hret|apply tx_spec_throw].
  - intros [id|]; [apply Hret|apply tx_spec_throw].
Qed.

Lemma ensurePeriodUnlocked_spec period :
  tx_spec (ensurePeriodUnlocked period)
    (fun _ d _ d' => d' = d /\ period ∉ locked_periods d).
Proof.
  unfold ensurePeriodUnlocked. eapply tx_spec_impl.
  - apply tx_spec_bind; [apply tx_spec_or_internal|].
    intros l. instantiate (1 := fun l _ d _ d' => l = false /\ d' = d). destruct l; [apply tx_spec_throw|].
    eapply tx_spec_impl; [apply tx_spec_ret|]. naive_solver.
  - cbn. intros b d [] d'' (l & d' & [-> ->] & E & ->). split; [done|].
    intros Hin. assert (existsb (String.eqb period) (locked_periods d) = true) as Ht; [|congruence].
    apply existsb_exists. exists period. split; [by apply list_elem_of_In|apply String.eqb_refl].
Qed.

Lemma RecordOrderCompletedIncomeTx_spec s o :
  tx_spec (RecordOrderCompletedIncomeTx (s_actor s) (s_id s) (o_total o) (o_income_wallet_id o))
    (fun b d _ d' => exists wallet category, d' = with_income s o wallet category b.1.2 d).
Proof.
  unfold RecordOrderCompletedIncomeTx, with_income.
  destruct (float_le_zero (o_total o)) eqn:Hf; cbn [orb].
  { eapply tx_spec_impl; [apply tx_spec_ret|]. intros ???? [_ ->]. by exists "", None. }
  destruct (String.eqb (TrimSpace (s_id s)) ""); cbn [orb].
  { eapply tx_spec_impl; [apply tx_spec_ret|]. intros ???? [_ ->]. by exists "", None. }
  eapply tx_spec_impl; [apply tx_spec_bind; [apply tx_spec_next_fault|]|].
  - intros f. instantiate (1 := fun f b d _ d' => exists wallet category, d' =
      snd (insert_income (income_row s o wallet category b.1.2)
        (set_transactions (purge_income (TrimSpace (s_id s)) (fin_transactions d)) d))).
    destruct f; [|apply tx_spec_throw..].
    unfold recordOrderIncome. eapply tx_spec_impl.
    + apply tx_spec_bind; [apply resolveIncomeWallet_spec|]. intros wallet.
      apply tx_spec_bind; [apply tx_spec_or_internal|]. intros ?.
      apply tx_spec_bind; [apply tx_spec_attempt_stmt|]. intros category.
      apply tx_spec_bind; [apply tx_spec_financeToday|]. intros today.
      apply tx_spec_bind; [apply tx_spec_get_today_default|]. intros td.
      apply tx_spec_bind; [apply ensurePeriodUnlocked_spec|]. intros ?.
      apply tx_spec_bind; [apply tx_spec_attempt_stmt|]. intros res.
      instantiate (1 := fun res b d _ d' => d' = d).
      destruct res as [n|e]; [|apply tx_spec_throw].
      destruct (n =? 0).
      * eapply tx_spec_impl; [apply tx_spec_ret|]. naive_solver.
      * eapply tx_spec_impl; [apply tx_spec_ignore_stmt|]. naive_solver.
    + cbn. intros b d _ d'.
      intros (wallet & d1 & -> & u1 & d2 & [_ ->] & cat & d3 & [-> ->] & today & d4 & [-> ->] &
        td & d5 & [-> ->] & u2 & d6 & [-> _] & res & d7 & [-> ->] & ->).
      eexists wallet, _. reflexivity.
  - cbn. intros b d [] d' (f & d1 & -> & H). done.
Qed.

(** ** Lemmas: the store's calls *)
Definition ts_spec {A} (m : prog tx_state A)
    (P : tenantDB * Z * string * string -> tenantDB -> option OrderRow -> A ->
         tenantDB -> option OrderRow -> Prop) : Prop :=
  forall t d b, w_tx (t_world t) = Some (d, b) ->
    base (t_world (snd (m t))) = base (t_world t) /\
    exists d' b', w_tx (t_world (snd (m t))) = Some (d', b') /\ (b = true -> b' = true) /\
      (b' = false -> forall a, fst (m t) = Ok a ->
         P (base (t_world t)) d (t_order t) a d' (t_order (snd (m t)))).

Lemma ts_spec_lift {A} (m : prog world A) P :
  tx_spec m P -> ts_spec (lift m) (fun b d o a d' o' => P b d a d' /\ o' = o).
Proof.
  intros Hm t d b Ht. destruct (Hm (t_world t) d b Ht) as (Hb & d' & b' & ? & ? & HP).
  unfold lift. destruct (m (t_world t)) as [r w]. cbn in *.
  split; [done|]. exists d', b'. eauto 10.
Qed.

Lemma lock_spec s t d :
  w_tx (t_world t) = Some (d, false) ->
  let '(r, t') := store_LockOrder s t in
  base (t_world t') = base (t_world t) /\ t_order t' = t_order t /\
  ((exists e, r = Err e) /\ w_tx (t_world t') = Some (d, true) \/
   w_tx (t_world t') = Some (d, false) /\
   match live_order (s_id s) d with
   | None => r = Ok (zero_State, false)
   | Some row => r = Ok (state_of row, true)
   end).
Proof.
  intros Ht. unfold store_LockOrder, bind, attempt, lift, stmt, bind, next_fault. cbn. rewrite Ht.
  destruct (default Fine _); cbn; [|naive_solver..].
  destruct (live_order (s_id s) d); cbn; naive_solver.
Qed.

Lemma complete_spec s :
  ts_spec (store_CompleteVerified s) (fun b d _ _ d' o' =>
    exists row, live_order (s_id s) d = Some row /\
      (s_expected s = None \/ s_expected s = Some (o_updated_at row)) /\
      let row' := completeVerified_row (s_actor s) b.1.1.2 row in
      o' = Some row' /\ d' = set_orders (<[ s_id s := row' ]> (orders d)) d).
Proof.
  intros t d b Ht. unfold store_CompleteVerified, bind, attempt, get_now. cbn.
  destruct (ts_spec_lift _ _ (tx_spec_stmt (completeVerifiedSQL s (w_now (t_world t)))) t d b Ht)
    as (Hb & d' & b' & Ht' & Hbb & HP).
  destruct (lift _ t) as [[[row|]|e] t']; cbn in *; (split; [done|]); exists d', b'; split_and!; try done.
  intros Hf [] _. destruct (HP Hf _ eq_refl) as [[E ->] _]. unfold completeVerifiedSQL in *.
  destruct (live_order (s_id s) d) as [row0|]; [|done].
  destruct (s_expected s) as [e|]; cbn in *.
  - destruct (Z.eqb_spec (o_updated_at row0) e) as [Eu|]; [subst e|done]. cbn in *. exists row0. naive_solver.
  - exists row0. naive_solver.
Qed.

Lemma income_spec s :
  ts_spec (store_RecordIncome s) (fun b d o _ d' o' => o' = o /\
    forall row, o = Some row ->
    exists wallet category, d' = with_income s row wallet category b.1.2 d).
Proof.
  intros t d b Ht. unfold store_RecordIncome, bind, get_order. cbn.
  destruct (t_order t) as [row|] eqn:Eo.
  - destruct (ts_spec_lift _ _ (RecordOrderCompletedIncomeTx_spec s row) t d b Ht)
      as (Hb & d' & b' & Ht' & Hbb & HP).
    split; [done|]. exists d', b'. split_and!; try done. intros Hf a Ha.
    destruct (HP Hf a Ha) as [(wal & cat & ->) ->]. split; [done|]. intros ? [= <-]. eauto.
  - destruct (ts_spec_lift _ _ (tx_spec_ret tt) t d b Ht) as (Hb & d' & b' & Ht' & Hbb & HP).
    split; [done|]. exists d', b'. by split_and!.
Qed.

Lemma notify_spec s :
  ts_spec (store_NotifyBuyer s) (fun b d o _ d' o' => o' = o /\
    forall row, o = Some row -> d' = with_notice s row d).
Proof.
  intros t d b Ht. unfold store_NotifyBuyer, bind, get_order. cbn.
  destruct (t_order t) as [row|] eqn:Eo; cbn; [destruct (String.eqb (o_conversation_id row) "") eqn:Ec|].
  - split; [done|]. exists d, b. split_and!; try done. intros Hf a Ha. split; [done|].
    intros ? [= <-]. unfold with_notice. by rewrite Ec.
  - destruct (ts_spec_lift _ _ (tx_spec_stmt (fun d => (tt, set_messages (messages d ++ [{|
         msg_conversation := o_conversation_id row; msg_body := notify_body (s_id s);
         msg_metadata := orderPaymentNotifyMetadataJSON |}])%list d))) t d b Ht)
      as (Hb & d' & b' & Ht' & Hbb & HP).
    split; [done|]. exists d', b'. split_and!; try done. intros Hf a Ha.
    destruct (HP Hf a Ha) as [[_ ->] E]. split; [first [exact E|rewrite <- Eo; exact E]|]. intros ? [= <-].
    unfold with_notice. by rewrite Ec.
  - split; [done|]. exists d, b. split_and!; done.
Qed.

(** the outcome of a commit *)
Lemma commit_spec t d b :
  w_tx (t_world t) = Some (d, b) ->
  let '(r, t') := lift tx_commit t in
  w_tx (t_world t') = None /\ (r = Ok tt \/ exists e, r = Err e) /\
  (w_db (t_world t') = w_db (t_world t) /\ r <> Ok tt \/
   b = false /\ w_db (t_world t') = d /\ (r = Ok tt \/ r = Err db_error)).
Proof.
  intros Ht. unfold lift, tx_commit, bind, next_fault. cbn. rewrite Ht.
  destruct b; cbn; [naive_solver|]. destruct (default Fine _); cbn; naive_solver.
Qed.

Lemma rollback_spec t d b :
  w_tx (t_world t) = Some (d, b) ->
  w_tx (t_world (snd (lift tx_rollback t))) = None /\
  w_db (t_world (snd (lift tx_rollback t))) = w_db (t_world t).
Proof. intros Ht. unfold lift, tx_rollback. by rewrite Ht. Qed.

Lemma rollback_done t :
  w_tx (t_world t) = None -> t_world (snd (lift tx_rollback t)) = t_world t.
Proof. intros Ht. unfold lift, tx_rollback. by rewrite Ht. Qed.

(** ** The approval as a whole *)
Section outcome.
Context (s : approveTxStore) (w : world).

(** nothing to do: the order was completed before *)
Definition already_done (res : Result) : Prop :=
  Res_Decision res = AlreadyDone /\
  exists o, live_order (s_id s) (w_db w) = Some o /\ Decide (state_of o) = (AlreadyDone, None).
(** the tables hold the approved order, its income and its notice *)
Definition approval (res : Result) (d : tenantDB) : Prop :=
  exists o wallet category,
    live_order (s_id s) (w_db w) = Some o /\ Decide (state_of o) = (Proceed, None) /\
    (s_expected s = None \/ s_expected s = Some (o_updated_at o)) /\
    res = {| Res_Decision := Proceed; Prev := state_of o |} /\
    d = approved s (w_now w) o wallet category (w_today w) (w_db w).

(** the three ways [Run_body] can end: before the commit, in a failed commit
    (whose reply may have been lost), or committed *)
Definition body_outcome (out : Result * option error * bool) (t : tx_state) : Prop :=
  let '(res, err, committed) := out in
  (committed = false /\ base (t_world t) = base w /\ is_Some (w_tx (t_world t)) /\
     (err = None -> already_done res)) \/
  (committed = false /\ w_tx (t_world t) = None /\ err <> None /\
     (w_db (t_world t) = w_db w \/ err = Some db_error /\ approval res (w_db (t_world t)))) \/
  (committed = true /\ w_tx (t_world t) = None /\ err = None /\ approval res (w_db (t_world t))).

Lemma Run_body_cases :
  let t0 := {| t_world := set_tx (Some (w_db w, false)) w; t_order := None |} in
  exists out t, Run_body (H:=approve_store s) t0 = (Ok out, t) /\ body_outcome out t.
Proof.
  intros t0. assert (w_tx (t_world t0) = Some (w_db w, false)) as H0 by done.
  assert (forall t d b res e, base (t_world t) = base w -> w_tx (t_world t) = Some (d, b) ->
    exists out t', (@ret tx_state _ (res, Some e, false)) t = (Ok out, t') /\ body_outcome out t') as Hfail.
  { intros t d b res e Hb Ht. eexists _, t. split; [done|]. left. by rewrite Ht. }
  unfold Run_body. cbn [LockOrder CompleteVerified RecordIncome NotifyBuyer Commit approve_store].
  unfold bind at 1, attempt at 1.
  pose proof (lock_spec s t0 _ H0) as P1.
  destruct (store_LockOrder s t0) as [r t1].
  destruct P1 as (B1 & O1 & [[[e ->] T1]|[T1 P1]]); [by eapply Hfail|].
  destruct (live_order (s_id s) (w_db w)) as [row|] eqn:Erow; subst r; [|by eapply Hfail].
  cbn [negb]. destruct (Decide (state_of row)) as [dec derr] eqn:Hdec.
  assert (B1w : base (t_world t1) = base w) by done.
  pose proof (Decide_error _ _ _ Hdec) as Hderr. destruct dec.
  - unfold bind at 1, attempt at 1.
    destruct (complete_spec s t1 _ _ T1) as (B2 & d2 & b2 & T2 & _ & P2).
    destruct (store_CompleteVerified s t1) as [[[]|e] t2]; cbn [fst snd] in *; [|eapply Hfail; [congruence|done]].
    unfold bind at 1, attempt at 1.
    destruct (income_spec s t2 _ _ T2) as (B3 & d3 & b3 & T3 & Hb3 & P3).
    destruct (store_RecordIncome s t2) as [[[]|e] t3]; cbn [fst snd] in *; [|eapply Hfail; [congruence|done]].
    unfold bind at 1, attempt at 1.
    destruct (notify_spec s t3 _ _ T3) as (B4 & d4 & b4 & T4 & Hb4 & P4).
    destruct (store_NotifyBuyer s t3) as [[[]|e] t4]; cbn [fst snd] in *; [|eapply Hfail; [congruence|done]].
    unfold bind at 1, attempt at 1.
    pose proof (commit_spec t4 d4 b4 T4) as P5.
    destruct (lift tx_commit t4) as [r t5]. destruct P5 as (T5 & Hr & Hcase).
    assert (base (t_world t4) = base w) as B4w by congruence.
    assert (w_db (t_world t4) = w_db w) as Hdb by (by injection B4w).
    assert (b4 = false -> approval {| Res_Decision := Proceed; Prev := state_of row |} d4) as Happ.
    { intros ->. assert (b3 = false) as -> by (destruct b3; [by discriminate Hb4|done]).
      assert (b2 = false) as -> by (destruct b2; [by discriminate Hb3|done]).
      destruct (P2 eq_refl _ eq_refl) as (row' & Hrow' & Hexp & Ho2 & Hd2).
      rewrite Erow in Hrow'. injection Hrow' as <-.
      destruct (P3 eq_refl _ eq_refl) as [Ho3 Hd3].
      destruct (Hd3 _ Ho2) as (wal & cat & ->).
      destruct (P4 eq_refl _ eq_refl) as [_ Hd4]. rewrite Ho2 in Ho3. rewrite (Hd4 _ Ho3), Hd2.
      exists row, wal, cat. rewrite Erow. split_and!; try done.
      + by rewrite Hdec, Hderr.
      + assert (B3w : base (t_world t2) = base w) by congruence.
        rewrite B1w, B3w. reflexivity. }
    destruct r as [[]|e].
    + eexists _, t5. split; [done|]. right. right. split_and!; try done.
      destruct Hcase as [[_ ?]|(Hb & -> & _)]; [done|by apply Happ].
    + eexists _, t5. split; [done|]. right. left. split_and!; try done.
      destruct Hcase as [[? _]|(Hb & -> & [?|[= ->]])]; [left; congruence|done|].
      right. split; [done|]. by apply Happ.
  - eexists _, t1. split; [done|]. left. rewrite T1. split_and!; try done.
    intros _. split; [done|]. exists row. rewrite Erow. split; [done|].
    by rewrite Hdec, Hderr.
  - destruct Hderr as [e ->]. by eapply Hfail.
Qed.
End outcome.

Lemma approve_run_cases s w :
  exists res err w', approve_run s w = (Ok (res, err), w') /\ w_tx w' = None /\
    ((w_db w' = w_db w /\ (err = None -> already_done s w res)) \/
     ((err = None \/ err = Some db_error) /\ approval s w res (w_db w'))).
Proof.
  unfold approve_run, approve_transaction, Run. cbn [Rollback approve_store].
  assert (lift tx_begin {| t_world := w; t_order := None |}
    = (Ok tt, {| t_world := set_tx (Some (w_db w, false)) w; t_order := None |})) as Hbegin by done.
  rewrite (bind_ok _ _ _ _ _ Hbegin).
  destruct (Run_body_cases s w) as ([[res err] committed] & t & Hrun & Hout).
  rewrite (bind_ok _ _ _ _ _ Hrun). unfold body_outcome in Hout.
  destruct Hout as [(-> & Hb & [[d b] Ht] & Herr)|[(-> & Ht & Herr & Hcase)|(-> & Ht & -> & Happ)]].
  - exists res, err, (t_world (snd (lift tx_rollback t))). split; [done|].
    destruct (rollback_spec t d b Ht) as [-> Hd]. split; [done|]. left. split; [|done].
    rewrite Hd. by injection Hb.
  - exists res, err, (t_world (snd (lift tx_rollback t))). split; [done|].
    rewrite rollback_done by done. split; [done|]. destruct Hcase as [?|[-> ?]]; [left|right]; auto.
    split; [done|]. intros ->. done.
  - exists res, None, (t_world t). split; [done|]. split; [done|]. right. auto.
Qed.

(** *** The income row *)
Lemma live_income_purge ref orderID ts :
  List.filter (live_income ref) (purge_income orderID ts) = List.filter (live_income ref) ts.
Proof.
  unfold purge_income. induction ts as [|t ts IH]; [done|]. cbn.
  destruct (income_of orderID t && ft_deleted t) eqn:E; cbn; rewrite IH; [|done].
  apply andb_true_iff in E as [_ E]. unfold live_income. by rewrite E, andb_false_r.
Qed.

Lemma insert_income_unique t d :
  live_income (ft_reference t) t = true -> unique_income d ->
  unique_income (snd (insert_income t d)) /\
  length (List.filter (live_income (ft_reference t)) (fin_transactions (snd (insert_income t d)))) = 1%nat.
Proof.
  intros Hlive Hu. unfold insert_income. rewrite existsb_filter. specialize (Hu (ft_reference t)) as Ht.
  destruct (length (List.filter (live_income (ft_reference t)) (fin_transactions d))) as [|[|n]] eqn:E;
    cbn; [|by rewrite E|lia].
  split.
  - intros ref. cbn. rewrite List.filter_app, length_app. cbn.
    destruct (live_income ref t) eqn:Er; cbn; [|specialize (Hu ref); lia].
    assert (ref = ft_reference t) as ->; [|lia].
    unfold live_income, income_of in Er. bool_facts. done.
  - rewrite List.filter_app, length_app, E. cbn. by rewrite Hlive.
Qed.

Lemma with_income_unique s o wallet category today d :
  unique_income d ->
  unique_income (with_income s o wallet category today d) /\
  (float_le_zero (o_total o) = false -> TrimSpace (s_id s) <> "" ->
   length (List.filter (live_income (TrimSpace (s_id s)))
             (fin_transactions (with_income s o wallet category today d))) = 1%nat).
Proof.
  intros Hu. unfold with_income.
  destruct (float_le_zero (o_total o)); cbn [orb]; [done|].
  destruct (String.eqb_spec (TrimSpace (s_id s)) ""); [done|].
  set (t := income_row s o wallet category today).
  assert (live_income (ft_reference t) t = true) as Hlive.
  { unfold live_income, income_of. cbn. by rewrite String.eqb_refl. }
  set (d1 := set_transactions _ d).
  assert (unique_income d1) as Hu1 by (intros ref; cbn; rewrite live_income_purge; apply Hu).
  destruct (insert_income_unique t d1 Hlive Hu1) as [H1 H2]. split; [exact H1|by intros _ _].
Qed.

Lemma with_notice_tables s o d :
  orders (with_notice s o d) = orders d /\ fin_transactions (with_notice s o d) = fin_transactions d.
Proof. unfold with_notice. by destruct (String.eqb _ _). Qed.
Lemma with_income_orders s o wallet category today d :
  orders (with_income s o wallet category today d) = orders d.
Proof.
  unfold with_income, insert_income. destruct (_ || _); [done|].
  by destruct (existsb _ _).
Qed.

Lemma approved_order s now o wallet category today d :
  o_deleted o = false ->
  live_order (s_id s) (approved s now o wallet category today d)
  = Some (completeVerified_row (s_actor s) now o).
Proof.
  intros Hd. unfold live_order, approved.
  rewrite (proj1 (with_notice_tables _ _ _)), with_income_orders. cbn.
  rewrite lookup_insert_eq. cbn. by rewrite Hd.
Qed.

Lemma live_order_not_deleted id d o : live_order id d = Some o -> o_deleted o = false.
Proof. unfold live_order. destruct (orders d !! id) as [o'|]; [|done]. destruct (o_deleted o') eqn:E; naive_solver. Qed.

Lemma Decide_completed actor now o :
  Decide (state_of (completeVerified_row actor now o)) = (AlreadyDone, None).
Proof.
  unfold state_of, completeVerified_row. cbn [o_proof_meta o_status].
  destruct (o_proof_meta o); reflexivity.
Qed.

(** ** Properties *)

(** C8. An approval is all or nothing: whatever statements, and even the
    commit's reply, fail, the call returns and leaves no open transaction, and
    the tables are either exactly as before or exactly the approved ones (order
    completed and verified, one income row, the buyer's message).  Without an
    error nothing changed only because the order was completed already; an
    error with the changes in place can only be the lost reply of the commit. *)
Theorem approve_atomic s w :
  exists res err w', approve_run s w = (Ok (res, err), w') /\ w_tx w' = None /\
    ((w_db w' = w_db w /\ (err = None -> already_done s w res)) \/
     ((err = None \/ err = Some db_error) /\ approval s w res (w_db w'))).
Proof. exact (approve_run_cases s w). Qed.

(** C9. Approving twice is approving once: a successful approval leaves at most
    one live income row per reference, exactly one for an order with a positive
    total, and any later approval of the order, by anyone, with any stale guard
    and any failures, changes nothing. *)
Theorem approve_idempotent s w res w' o :
  approve_run s w = (Ok (res, None), w') -> Res_Decision res = Proceed ->
  live_order (s_id s) (w_db w) = Some o -> unique_income (w_db w) ->
  unique_income (w_db w') /\
  (float_le_zero (o_total o) = false -> TrimSpace (s_id s) <> "" ->
   length (List.filter (live_income (TrimSpace (s_id s))) (fin_transactions (w_db w'))) = 1%nat) /\
  (forall s2 w2, s_id s2 = s_id s -> w_db w2 = w_db w' ->
     w_db (snd (approve_run s2 w2)) = w_db w2).
Proof.
  intros Hrun Hdec Ho Hu.
  destruct (approve_run_cases s w) as (res0 & err0 & w0 & Hrun0 & _ & Hcase).
  rewrite Hrun in Hrun0. injection Hrun0 as <- <- <-.
  destruct Hcase as [[_ Hd]|[_ (o' & wal & cat & Ho' & _ & _ & _ & Hdb)]].
  { destruct (Hd eq_refl) as [Hdone _]. congruence. }
  assert (o' = o) as -> by congruence.
  set (o1 := completeVerified_row (s_actor s) (w_now w) o) in *.
  destruct (with_income_unique s o1 wal cat (w_today w)
    (set_orders (<[ s_id s := o1 ]> (orders (w_db w))) (w_db w)) Hu) as [Hu1 Hone].
  assert (fin_transactions (w_db w')
    = fin_transactions (with_income s o1 wal cat (w_today w)
        (set_orders (<[ s_id s := o1 ]> (orders (w_db w))) (w_db w)))) as Hts.
  { rewrite Hdb. unfold approved. apply with_notice_tables. }
  split; [intros ref; rewrite Hts; apply Hu1|]. split; [by rewrite Hts|].
  intros s2 w2 Hid Hw2.
  destruct (approve_run_cases s2 w2) as (res2 & err2 & w3 & -> & _ & [[? _]|[_ Happ]]); [done|].
  destruct Happ as (o2 & _ & _ & Ho2 & Hd2 & _).
  rewrite Hid, Hw2, Hdb, approved_order in Ho2 by (by eapply live_order_not_deleted).
  injection Ho2 as <-. by rewrite Decide_completed in Hd2.
Qed.

Definition order0 : OrderRow := {|
  o_status := "processing"; o_payment_status := "proof_submitted"; o_proof_message_id := "m1";
  o_proof_meta := MetaEmpty; o_verified_at := None; o_verified_by := None; o_updated_at := 10;
  o_total := S754_finite false 85000 0; o_income_wallet_id := ""; o_conversation_id := "c1";
  o_deleted := false |}.
Definition tables0 : tenantDB := {|
  orders := {[ "o1" := order0 ]}; fin_transactions := [];
  wallets := [{| wl_id := "w1"; wl_type := "cash"; wl_order := 0; wl_created := 0;
                 wl_active := true; wl_deleted := false |}];
  categories := []; locked_periods := []; messages := [] |}.
Definition world0 : world := {|
  w_db := tables0; w_tx := None; w_now := 20; w_today := "2026-10-14";
  w_today_default := "2026-10-14"; w_faults := [] |}.
Definition request0 : approveTxStore := {| s_actor := "acc"; s_id := "o1"; s_expected := Some 10 |}.

Lemma approve_idempotent_witness :
  length (List.filter (live_income "o1") (fin_transactions (w_db (snd (approve_run request0 world0))))) = 1%nat.
Proof.
  refine (proj1 (proj2 (approve_idempotent request0 world0
    {| Res_Decision := Proceed; Prev := state_of order0 |}
    (snd (approve_run request0 world0)) order0 _ eq_refl eq_refl _)) eq_refl _).
  - vm_compute. reflexivity.
  - intros ref. cbn. lia.
  - discriminate.
Defined.

(** The stale guard: with an expected [updated_at] that is not the order's,
    no approval takes effect, whatever else fails; and when nothing fails and
    the order is otherwise ready to be approved, the answer is the stale-order
    conflict. *)
Theorem approve_stale_guard s w o t :
  live_order (s_id s) (w_db w) = Some o -> s_expected s = Some t -> o_updated_at o <> t ->
  w_db (snd (approve_run s w)) = w_db w /\
  (w_faults w = [] -> Decide (state_of o) = (Proceed, None) ->
   fst (approve_run s w) = Ok ({| Res_Decision := Proceed; Prev := state_of o |}, Some ErrStale)).
Proof.
  intros Ho Hexp Hne. split.
  - destruct (approve_run_cases s w) as (res & err & w' & -> & _ & [[? _]|[_ Happ]]); [done|].
    destruct Happ as (o' & _ & _ & Ho' & _ & [Hx|Hx] & _); congruence.
  - intros Hf Hd. unfold approve_run, approve_transaction, Run, Run_body.
    cbn [LockOrder CompleteVerified Rollback approve_store].
    unfold store_LockOrder, store_CompleteVerified, stmt, next_fault, lift, bind, attempt, get_now.
    cbn. rewrite Hf. cbn. rewrite Ho. cbn. rewrite Hd. cbn.
    unfold completeVerifiedSQL. rewrite Ho, Hexp.
    rewrite (proj2 (Z.eqb_neq _ _) Hne). done.
Qed.

Lemma approve_stale_guard_witness :
  w_db (snd (approve_run {| s_actor := "acc"; s_id := "o1"; s_expected := Some 9 |} world0)) = tables0.
Proof.
  refine (proj1 (approve_stale_guard {| s_actor := "acc"; s_id := "o1"; s_expected := Some 9 |}
    world0 order0 9 eq_refl eq_refl _)).
  discriminate.
Defined.
