(* ===== verification/Breaker.v ===== *)
(** * Circuit breakers of the retrieval service

    Models [shared/retrieval/circuit_breaker.go] and [breaker_pool.go], and how
    [RetrieveKB] of [service.go] uses them: a request asks the pool for its
    tenant's breaker, is admitted or not, and records the outcome of its
    provider call later on the same breaker, which the pool may have dropped in
    the meantime.  Breakers are pointers: a heap of breakers by reference.
    Every [time.Now] is an argument; an absent time is the zero [time.Time].
    The failure counter is an [int] that would need 2^63 calls to wrap. *)
From Stdlib Require Import Sorting.Sorted.
From S2P Require Import Prelude GoStrings AdminSession DaySlots.

Open Scope string_scope.
Open Scope Z_scope.

(** ** One breaker *)
Record CircuitBreaker := {
  failures : Z; threshold : Z; cooldown : Z; openUntil : option Z; lastOpenedAt : option Z;
  lastFailure : option error; halfOpenInFlight : bool
}.
Definition NewCircuitBreaker (threshold cooldown : Z) : CircuitBreaker :=
  {| failures := 0; threshold := if threshold <=? 0 then 5 else threshold;
     cooldown := if cooldown <=? 0 then 30 * Second else cooldown;
     openUntil := None; lastOpenedAt := None; lastFailure := None; halfOpenInFlight := false |}.

(** [now], [now']: the readings of the two [time.Now] *)
Definition Allow (now now' : Z) (cb : CircuitBreaker) : bool * CircuitBreaker :=
  match openUntil cb with
  | None => (true, cb)
  | Some u =>
      if u <? now then
        (true, if u <? now' then
                 {| failures := 0; threshold := threshold cb; cooldown := cooldown cb; openUntil := None;
                    lastOpenedAt := lastOpenedAt cb; lastFailure := lastFailure cb;
                    halfOpenInFlight := halfOpenInFlight cb |}
               else cb)
      else (false, cb)
  end.
Definition RecordSuccess (cb : CircuitBreaker) : CircuitBreaker :=
  {| failures := 0; threshold := threshold cb; cooldown := cooldown cb; openUntil := None;
     lastOpenedAt := lastOpenedAt cb; lastFailure := None; halfOpenInFlight := false |}.
Definition RecordFailure (now : Z) (err : error) (cb : CircuitBreaker) : CircuitBreaker :=
  let n := failures cb + 1 in
  let trips := threshold cb <=? n in
  {| failures := n; threshold := threshold cb; cooldown := cooldown cb;
     openUntil := if trips then Some (now + cooldown cb) else openUntil cb;
     lastOpenedAt := if trips then Some now else lastOpenedAt cb;
     lastFailure := Some err; halfOpenInFlight := halfOpenInFlight cb |}.
Definition OpenedWithin (cb : option CircuitBreaker) (now within : Z) : bool :=
  match cb with
  | None => false
  | Some cb => match lastOpenedAt cb with None => false | Some t => Sub now t <=? within end
  end.
Definition Open (now : Z) (cb : CircuitBreaker) : bool :=
  match openUntil cb with None => false | Some u => now <? u end.
Definition LastError (cb : CircuitBreaker) : option error := lastFailure cb.

(** *** Histories of one breaker *)
Inductive call := CAllow | CSuccess | CFailure (err : error).
Definition run_call (cb : CircuitBreaker) (e : Z * call) : CircuitBreaker :=
  match e.2 with
  | CAllow => snd (Allow e.1 e.1 cb)
  | CSuccess => RecordSuccess cb
  | CFailure err => RecordFailure e.1 err cb
  end.
Definition run_calls (h : list (Z * call)) (cb : CircuitBreaker) : CircuitBreaker := fold_left run_call h cb.
Definition is_success (e : Z * call) : bool := match e.2 with CSuccess => true | _ => false end.
Definition failure_time (e : Z * call) : option Z := match e.2 with CFailure _ => Some e.1 | _ => None end.
(** when the calls of [h] recorded failures *)
Definition failure_times (h : list (Z * call)) : list Z := omap failure_time h.
Definition in_order (h : list (Z * call)) : Prop := StronglySorted (fun a b => a.1 <= b.1) h.

(** *** Specification of one breaker

    The failures of the current run, latest first.  A run ends with a success,
    and with an admitted call made more than [cooldown] after the last failure
    of a run that reached the threshold. *)
Definition run_step (threshold cooldown : Z) (run : list Z) (e : Z * call) : list Z :=
  match e.2 with
  | CSuccess => []
  | CFailure _ => e.1 :: run
  | CAllow =>
      match run with
      | f :: _ => if (threshold <=? Z.of_nat (length run)) && (f + cooldown <? e.1) then [] else run
      | [] => []
      end
  end.
Definition current_run (threshold cooldown : Z) (h : list (Z * call)) : list Z :=
  fold_left (run_step threshold cooldown) h [].

(** ** The pool *)
Definition breakerPoolMaxEntries : nat := 500.
Definition breakerPoolIdleTTL : Z := Hour.
Record breakerEntry := { be_cb : nat; be_lastUsed : Z }.
Record BreakerPool := { bp_breakers : gmap string breakerEntry; bp_global : nat; bp_threshold : Z; bp_cooldown : Z }.
(** the breakers, by reference; [w_next] has not been allocated *)
Record heap := { h_cells : gmap nat CircuitBreaker; h_next : nat }.

Definition alloc (cb : CircuitBreaker) (h : heap) : nat * heap :=
  (h_next h, {| h_cells := <[h_next h := cb]> (h_cells h); h_next := S (h_next h) |}).
Definition NewBreakerPool (threshold cooldown : Z) (h : heap) : BreakerPool * heap :=
  let '(g, h') := alloc (NewCircuitBreaker threshold cooldown) h in
  ({| bp_breakers := ∅; bp_global := g; bp_threshold := threshold; bp_cooldown := cooldown |}, h').

Definition set_breakers (m : gmap string breakerEntry) (p : BreakerPool) : BreakerPool :=
  {| bp_breakers := m; bp_global := bp_global p; bp_threshold := bp_threshold p; bp_cooldown := bp_cooldown p |}.
Definition evictIdleLocked (now : Z) (p : BreakerPool) : BreakerPool :=
  set_breakers (filter (fun kv => ~ be_lastUsed kv.2 < now - breakerPoolIdleTTL) (bp_breakers p)) p.
Definition pool_key (tenantID : string) : string := if String.eqb tenantID "" then "_global" else tenantID.
(** [now], [now']: the readings at the eviction and at the use *)
Definition For_ (now now' : Z) (tenantID : string) (p : BreakerPool) (h : heap) : nat * BreakerPool * heap :=
  let tenantID := pool_key tenantID in
  let p := evictIdleLocked now p in
  if (breakerPoolMaxEntries <=? size (bp_breakers p))%nat && negb (String.eqb tenantID "_global")
  then (bp_global p, p, h)
  else
    match bp_breakers p !! tenantID with
    | Some ent => (be_cb ent, set_breakers (<[tenantID := {| be_cb := be_cb ent; be_lastUsed := now' |}]> (bp_breakers p)) p, h)
    | None =>
        let '(r, h) := alloc (NewCircuitBreaker (bp_threshold p) (bp_cooldown p)) h in
        (r, set_breakers (<[tenantID := {| be_cb := r; be_lastUsed := now' |}]> (bp_breakers p)) p, h)
    end.
Definition AnyOpenRecently (now within : Z) (p : BreakerPool) (h : heap) : bool :=
  OpenedWithin (h_cells h !! bp_global p) now within
  || existsb (fun kv => OpenedWithin (h_cells h !! be_cb kv.2) now within) (map_to_list (bp_breakers p)).

(** ** Requests against the pool

    [RetrieveKB] with a vector mode and a configured service: [Start] is
    [breakerFor] and [Allow], [Finish] what is recorded when the provider call
    of the [i]-th admitted request ended — nothing when its error does not trip
    the breaker. *)
Record request := { q_tenant : string; q_breaker : nat }.
Record service := { sv_pool : BreakerPool; sv_heap : heap; sv_open : list request }.
Inductive outcome := Answered | Failed (err : error) | NotCounted.
Inductive event :=
  | Start (tenantID : string) (now now' : Z)
  | Finish (i : nat) (now : Z) (o : outcome).

Definition set_cell (r : nat) (cb : CircuitBreaker) (h : heap) : heap :=
  {| h_cells := <[r := cb]> (h_cells h); h_next := h_next h |}.
Definition record_outcome (r : nat) (now : Z) (o : outcome) (h : heap) : heap :=
  match h_cells h !! r with
  | None => h
  | Some cb =>
      match o with
      | Answered => set_cell r (RecordSuccess cb) h
      | Failed err => set_cell r (RecordFailure now err cb) h
      | NotCounted => h
      end
  end.
(** was it admitted, and the service afterwards *)
Definition start (tenantID : string) (now now' : Z) (s : service) : bool * service :=
  let '(r, p, h) := For_ now now' tenantID (sv_pool s) (sv_heap s) in
  match h_cells h !! r with
  | None => (true, {| sv_pool := p; sv_heap := h; sv_open := sv_open s |})
  | Some cb =>
      let '(ok, cb') := Allow now' now' cb in
      (ok, {| sv_pool := p; sv_heap := set_cell r cb' h;
              sv_open := if ok then (sv_open s ++ [{| q_tenant := tenantID; q_breaker := r |}])%list else sv_open s |})
  end.
Definition serve (s : service) (e : event) : service :=
  match e with
  | Start t now now' => snd (start t now now' s)
  | Finish i now o =>
      match sv_open s !! i with
      | None => s
      | Some q =>
          {| sv_pool := sv_pool s; sv_heap := record_outcome (q_breaker q) now o (sv_heap s);
             sv_open := delete i (sv_open s) |}
      end
  end.
Definition new_service (threshold cooldown : Z) : service :=
  let '(p, h) := NewBreakerPool threshold cooldown {| h_cells := ∅; h_next := 0 |} in
  {| sv_pool := p; sv_heap := h; sv_open := [] |}.

(** ** Lemmas: one breaker *)
Definition closed (cb : CircuitBreaker) : Prop := failures cb = 0 /\ openUntil cb = None.
Definition same_settings (cb cb' : CircuitBreaker) : Prop :=
  threshold cb' = threshold cb /\ cooldown cb' = cooldown cb.
Definition refuses (t : Z) (cb : CircuitBreaker) : Prop := fst (Allow t t cb) = false.

Lemma run_calls_snoc h e cb : run_calls (h ++ [e]) cb = run_call (run_calls h cb) e.
Proof. unfold run_calls. by rewrite fold_left_app. Qed.
Lemma failure_times_snoc h e :
  failure_times (h ++ [e]) = (failure_times h ++ match failure_time e with Some f => [f] | None => [] end)%list.
Proof. unfold failure_times. rewrite omap_app. cbn. by destruct (failure_time e). Qed.
Lemma run_calls_settings h cb : same_settings cb (run_calls h cb).
Proof.
  induction h as [|e h [IH1 IH2]] using rev_ind; [done|]. rewrite run_calls_snoc. unfold run_call.
  destruct e.2; [unfold Allow; repeat case_goal; done|done|done].
Qed.
Lemma refuses_iff t cb : refuses t cb <-> exists u, openUntil cb = Some u /\ t <= u.
Proof.
  unfold refuses, Allow. destruct (openUntil cb) as [u|]; [|naive_solver].
  destruct (Z.ltb_spec u t); cbn; naive_solver lia.
Qed.
Lemma in_order_snoc h e : in_order (h ++ [e]) -> in_order h /\ Forall (fun x => x.1 <= e.1) h.
Proof.
  unfold in_order. induction h as [|x h IH]; [by split; constructor|]. cbn. intros Hs.
  apply StronglySorted_inv in Hs as [Hs Hx]. destruct (IH Hs) as [H1 H2]. apply Forall_app in Hx as [Hx He].
  split; constructor; try done. by apply Forall_inv in He.
Qed.

Lemma current_run_snoc thr cd h e : current_run thr cd (h ++ [e]) = run_step thr cd (current_run thr cd h) e.
Proof. unfold current_run. by rewrite fold_left_app. Qed.

(** the breaker implements its specification *)
Lemma run_refines cb h :
  closed cb ->
  let run := current_run (threshold cb) (cooldown cb) h in
  failures (run_calls h cb) = Z.of_nat (length run) /\
  openUntil (run_calls h cb)
  = (f ← head run; if threshold cb <=? Z.of_nat (length run) then Some (f + cooldown cb) else None).
Proof.
  intros [Hf0 Ho0]. induction h as [|e h [IH1 IH2]] using rev_ind; cbn zeta in *.
  { change (run_calls [] cb) with cb. by rewrite Hf0, Ho0. }
  destruct (run_calls_settings h cb) as [Et Ec].
  rewrite run_calls_snoc, current_run_snoc. unfold run_call, run_step.
  set (run := current_run (threshold cb) (cooldown cb) h) in *. destruct e as [t []]; cbn [fst snd].
  - unfold Allow. rewrite IH2. destruct run as [|f run]; [done|]. cbn [head mbind option_bind].
    destruct (threshold cb <=? _) eqn:Hthr; cbn [andb].
    + destruct (Z.ltb_spec (f + cooldown cb) t); [done|]. cbn [snd head mbind option_bind]. by rewrite Hthr.
    + cbn [snd head mbind option_bind]. by rewrite Hthr.
  - done.
  - cbn [failures openUntil RecordFailure head mbind option_bind]. rewrite Et, Ec, IH1, IH2.
    replace (Z.of_nat (length (t :: run))) with (Z.of_nat (length run) + 1) by (cbn [length]; lia).
    split; [done|]. destruct (Z.leb_spec (threshold cb) (Z.of_nat (length run) + 1)); [done|].
    destruct run as [|f run']; [done|]. cbn [head mbind option_bind].
    by destruct (Z.leb_spec (threshold cb) (Z.of_nat (length (f :: run')))); [lia|].
Qed.

(** the breaker counts the failures of a run and opens with the last needed *)
Lemma run_inv cb h t :
  closed cb -> 0 < threshold cb -> 0 < cooldown cb -> in_order h -> Forall (fun e => e.1 <= t) h ->
  Forall (fun e => is_success e = false) h ->
  (forall f, failure_times h !! Z.to_nat (threshold cb - 1) = Some f -> t <= f + cooldown cb) ->
  failures (run_calls h cb) = Z.of_nat (length (failure_times h)) /\
  if Z.of_nat (length (failure_times h)) <? threshold cb then openUntil (run_calls h cb) = None
  else exists u, openUntil (run_calls h cb) = Some u /\ t <= u.
Proof.
  intros [Hf0 Ho0] Ht Hc. induction h as [|e h IH] using rev_ind; intros Hs Hle Hns Hf.
  { cbn. rewrite Hf0, Ho0. split; [done|]. destruct (Z.ltb_spec (Z.of_nat 0) (threshold cb)); [done|lia]. }
  destruct (run_calls_settings h cb) as [Et Ec]. destruct (in_order_snoc _ _ Hs) as [Hs' Hbefore].
  apply Forall_app in Hle as [Hle He%Forall_inv], Hns as [Hns Hes%Forall_inv].
  rewrite failure_times_snoc in *. destruct (IH Hs' Hle Hns) as [IHf IHo].
  { intros f Hlook. apply Hf. by apply lookup_app_l_Some. }
  rewrite run_calls_snoc, length_app. unfold run_call, failure_time in *. destruct e as [a []]; cbn [fst snd] in *.
  - cbn [length]. rewrite Nat.add_0_r. unfold Allow. revert IHo.
    destruct (Z.ltb_spec (Z.of_nat (length (failure_times h))) (threshold cb)); intros IHo.
    + rewrite IHo. done.
    + destruct IHo as (u & Eu & Hu). rewrite Eu. destruct (Z.ltb_spec u a); [lia|]. cbn. split; [done|by exists u].
  - done.
  - cbn [failures RecordFailure openUntil length]. rewrite Et, Ec, IHf. split; [lia|].
    replace (Z.of_nat (length (failure_times h) + 1)) with (Z.of_nat (length (failure_times h)) + 1) by lia.
    destruct (Z.ltb_spec (Z.of_nat (length (failure_times h)) + 1) (threshold cb)),
      (Z.leb_spec (threshold cb) (Z.of_nat (length (failure_times h)) + 1)); try lia.
    + revert IHo. destruct (Z.ltb_spec (Z.of_nat (length (failure_times h))) (threshold cb)); [done|lia].
    + exists (a + cooldown cb). split; [done|].
      destruct (decide (Z.of_nat (length (failure_times h)) + 1 = threshold cb)) as [E|Hne].
      * apply Hf. apply lookup_app_Some. right. split; [lia|].
        by replace (Z.to_nat (threshold cb - 1) - length (failure_times h))%nat with 0%nat by lia.
      * destruct (lookup_lt_is_Some_2 (failure_times h) (Z.to_nat (threshold cb - 1))) as [f Hlook]; [lia|].
        assert (f <= a); [|specialize (Hf f (lookup_app_l_Some _ _ _ _ Hlook)); lia].
        apply list_elem_of_lookup_2 in Hlook. apply list_elem_of_omap in Hlook as ([x c] & Hin & Hx).
        rewrite Forall_forall in Hbefore. specialize (Hbefore _ Hin). destruct c; [done|done|]. by injection Hx as <-.
Qed.

Lemma current_run_failures thr cd h : (length (current_run thr cd h) <= length (failure_times h))%nat.
Proof.
  induction h as [|e h IH] using rev_ind; [done|]. rewrite current_run_snoc, failure_times_snoc, length_app.
  unfold run_step, failure_time. destruct e as [t []]; cbn [fst snd].
  - destruct (current_run thr cd h); [cbn; lia|]. destruct (_ && _); cbn in *; lia.
  - cbn. lia.
  - cbn. lia.
Qed.

(** ** Properties: one breaker *)

Definition five_failures : list (Z * call) :=
  [(1 * Second, CFailure (EText "429")); (2 * Second, CFailure (EText "429")); (3 * Second, CAllow);
   (3 * Second, CFailure (EText "503")); (4 * Second, CFailure (EText "503")); (5 * Second, CFailure (EText "503"))].

(** ** Lemmas: the pool *)
Definition own_entry (tenantID : string) (s : service) : option breakerEntry := bp_breakers (sv_pool s) !! pool_key tenantID.
(** the tenant's breaker and when it was last asked for *)
Definition own_breaker (tenantID : string) (s : service) : option (Z * CircuitBreaker) :=
  match own_entry tenantID s with
  | None => None
  | Some ent =>
      match h_cells (sv_heap s) !! be_cb ent with Some cb => Some (be_lastUsed ent, cb) | None => None end
  end.
(** the key of the tenant an event belongs to *)
Definition event_key (s : service) (e : event) : option string :=
  match e with
  | Start t _ _ => Some (pool_key t)
  | Finish i _ _ => match sv_open s !! i with Some q => Some (pool_key (q_tenant q)) | None => None end
  end.
Definition history (threshold cooldown : Z) (s : service) : Prop :=
  exists h, s = fold_left serve h (new_service threshold cooldown).

(** every reference is allocated; a breaker belongs to at most one tenant *)
Record pool_inv (s : service) : Prop := {
  pi_cells : forall r, (r < h_next (sv_heap s))%nat <-> is_Some (h_cells (sv_heap s) !! r);
  pi_global : (bp_global (sv_pool s) < h_next (sv_heap s))%nat;
  pi_entries : forall k ent, bp_breakers (sv_pool s) !! k = Some ent ->
    (be_cb ent < h_next (sv_heap s))%nat /\ be_cb ent <> bp_global (sv_pool s);
  pi_owner : forall k k' ent ent', bp_breakers (sv_pool s) !! k = Some ent ->
    bp_breakers (sv_pool s) !! k' = Some ent' -> be_cb ent = be_cb ent' -> k = k';
  pi_open : forall q, q ∈ sv_open s -> (q_breaker q < h_next (sv_heap s))%nat /\
    forall k ent, bp_breakers (sv_pool s) !! k = Some ent -> be_cb ent = q_breaker q -> k = pool_key (q_tenant q)
}.

Lemma evict_lookup now p k ent :
  bp_breakers (evictIdleLocked now p) !! k = Some ent <->
  bp_breakers p !! k = Some ent /\ now - breakerPoolIdleTTL <= be_lastUsed ent.
Proof. cbn. rewrite map_lookup_filter_Some. cbn. split; intros [? ?]; (split; [done|lia]). Qed.
Lemma evict_inv now s :
  pool_inv s -> pool_inv {| sv_pool := evictIdleLocked now (sv_pool s); sv_heap := sv_heap s; sv_open := sv_open s |}.
Proof.
  intros [H1 H2 H3 H4 H5]. split; cbn [sv_pool sv_heap sv_open]; [done|done|..].
  - intros k ent [Hk _]%evict_lookup. by apply (H3 k).
  - intros k k' ent ent' [Hk _]%evict_lookup [Hk' _]%evict_lookup. by apply H4.
  - intros q Hq. destruct (H5 q Hq) as [? Hown]. split; [done|]. intros k ent [Hk _]%evict_lookup. by apply Hown.
Qed.
Lemma set_cell_inv r cb s :
  pool_inv s -> (r < h_next (sv_heap s))%nat ->
  pool_inv {| sv_pool := sv_pool s; sv_heap := set_cell r cb (sv_heap s); sv_open := sv_open s |}.
Proof.
  intros [H1 H2 H3 H4 H5] Hr. split; cbn [sv_pool sv_heap sv_open set_cell h_next h_cells]; try done.
  intros r'. destruct (decide (r = r')) as [<-|Hne]; [rewrite lookup_insert_eq; split; [by eexists|done]|].
  by rewrite lookup_insert_ne.
Qed.
Lemma open_add_inv q s :
  pool_inv s -> (q_breaker q < h_next (sv_heap s))%nat ->
  (forall k ent, bp_breakers (sv_pool s) !! k = Some ent -> be_cb ent = q_breaker q -> k = pool_key (q_tenant q)) ->
  pool_inv {| sv_pool := sv_pool s; sv_heap := sv_heap s; sv_open := (sv_open s ++ [q])%list |}.
Proof.
  intros [H1 H2 H3 H4 H5] Hr Hown. split; cbn [sv_pool sv_heap sv_open]; try done.
  intros x [Hx|Hx]%elem_of_app; [by apply H5|]. by apply list_elem_of_singleton in Hx as ->.
Qed.
Lemma touch_inv k ent t s :
  pool_inv s -> bp_breakers (sv_pool s) !! k = Some ent ->
  pool_inv {| sv_pool := set_breakers (<[k := {| be_cb := be_cb ent; be_lastUsed := t |}]> (bp_breakers (sv_pool s))) (sv_pool s);
              sv_heap := sv_heap s; sv_open := sv_open s |}.
Proof.
  intros [H1 H2 H3 H4 H5] Hk.
  assert (forall k' ent', <[k := {| be_cb := be_cb ent; be_lastUsed := t |}]> (bp_breakers (sv_pool s)) !! k' = Some ent' ->
    exists e0, bp_breakers (sv_pool s) !! k' = Some e0 /\ be_cb ent' = be_cb e0) as Hold.
  { intros k' ent' [[<- <-]|[Hne Hl]]%lookup_insert_Some; eauto. }
  split; cbn [sv_pool sv_heap sv_open set_breakers bp_breakers bp_global]; [done|done|..].
  - intros k' ent' (e0 & Hl & ->)%Hold. by apply (H3 k').
  - intros k1 k2 e1 e2 (x1 & Hl1 & ->)%Hold (x2 & Hl2 & ->)%Hold. by apply H4.
  - intros q Hq. destruct (H5 q Hq) as [? Hown]. split; [done|]. intros k' ent' (e0 & Hl & ->)%Hold. by apply Hown.
Qed.
Lemma alloc_inv k cb t s :
  pool_inv s -> bp_breakers (sv_pool s) !! k = None ->
  pool_inv {| sv_pool := set_breakers (<[k := {| be_cb := h_next (sv_heap s); be_lastUsed := t |}]> (bp_breakers (sv_pool s))) (sv_pool s);
              sv_heap := snd (alloc cb (sv_heap s)); sv_open := sv_open s |}.
Proof.
  intros [H1 H2 H3 H4 H5] Hk. split; cbn [sv_pool sv_heap sv_open set_breakers bp_breakers bp_global alloc snd h_next h_cells].
  - intros r. destruct (decide (r = h_next (sv_heap s))) as [->|Hne].
    + rewrite lookup_insert_eq. split; [by eexists|lia].
    + rewrite lookup_insert_ne by done. rewrite <- H1. lia.
  - lia.
  - intros k' ent' [[<- <-]|[Hne Hl]]%lookup_insert_Some; cbn; [lia|]. destruct (H3 k' ent' Hl). lia.
  - intros k1 k2 e1 e2 [[<- <-]|[Hn1 Hl1]]%lookup_insert_Some [[<- <-]|[Hn2 Hl2]]%lookup_insert_Some; cbn; [done|..].
    + destruct (H3 k2 e2 Hl2). lia.
    + destruct (H3 k1 e1 Hl1). lia.
    + by apply H4.
  - intros q Hq. destruct (H5 q Hq) as [Hlt Hown]. split; [lia|].
    intros k' ent' [[<- <-]|[Hne Hl]]%lookup_insert_Some; cbn; [lia|by apply Hown].
Qed.

Definition full (now : Z) (s : service) : bool := (breakerPoolMaxEntries <=? size (bp_breakers (evictIdleLocked now (sv_pool s))))%nat.
Lemma for_spec t now now' s :
  pool_inv s ->
  let '(r, p', h') := For_ now now' t (sv_pool s) (sv_heap s) in
  pool_inv {| sv_pool := p'; sv_heap := h'; sv_open := sv_open s |} /\ (r < h_next h')%nat /\
  bp_global p' = bp_global (sv_pool s) /\
  (r = bp_global p' \/ exists ent, bp_breakers p' !! pool_key t = Some ent /\ be_cb ent = r) /\
  (forall k, k <> pool_key t -> bp_breakers p' !! k = bp_breakers (evictIdleLocked now (sv_pool s)) !! k) /\
  (forall x, (x < h_next (sv_heap s))%nat -> h_cells h' !! x = h_cells (sv_heap s) !! x) /\
  (forall k ent, k <> pool_key t -> bp_breakers (sv_pool s) !! k = Some ent -> be_cb ent <> r).
Proof.
  intros Hi. pose proof (evict_inv now s Hi) as He. unfold For_. cbv zeta. set (p := evictIdleLocked now (sv_pool s)) in *.
  destruct (_ && _).
  { split_and!; try done; [apply (pi_global _ He)|by left|].
    intros k ent _ Hk. by apply (pi_entries _ Hi k ent). }
  destruct (bp_breakers p !! pool_key t) as [ent|] eqn:E.
  - split_and!; try done.
    + by apply (touch_inv _ ent now' _ He).
    + by apply (pi_entries _ He _ ent E).
    + right. cbn [set_breakers bp_breakers]. rewrite lookup_insert_eq. by eexists.
    + intros k Hk. cbn [set_breakers bp_breakers]. by rewrite lookup_insert_ne.
    + intros k ent' Hk Hent Heq. apply evict_lookup in E as [E _]. by destruct Hk; apply (pi_owner _ Hi k _ ent' ent).
  - unfold alloc. split_and!; try done.
    + by apply (alloc_inv _ (NewCircuitBreaker (bp_threshold p) (bp_cooldown p)) now' _ He).
    + cbn. lia.
    + right. cbn [set_breakers bp_breakers]. rewrite lookup_insert_eq. by eexists.
    + intros k Hk. cbn [set_breakers bp_breakers]. by rewrite lookup_insert_ne.
    + intros x Hx. cbn [h_cells]. rewrite lookup_insert_ne by lia. done.
    + intros k ent' Hk Hent. destruct (pi_entries _ Hi k ent' Hent). lia.
Qed.

Lemma start_spec t now now' s :
  pool_inv s -> pool_inv (snd (start t now now' s)) /\
  forall k, k <> pool_key t ->
    bp_breakers (sv_pool (snd (start t now now' s))) !! k = bp_breakers (evictIdleLocked now (sv_pool s)) !! k /\
    forall ent, bp_breakers (sv_pool s) !! k = Some ent ->
      h_cells (sv_heap (snd (start t now now' s))) !! be_cb ent = h_cells (sv_heap s) !! be_cb ent.
Proof.
  intros Hi. unfold start. pose proof (for_spec t now now' s Hi) as Hf.
  destruct (For_ now now' t (sv_pool s) (sv_heap s)) as [[r p'] h'].
  destruct Hf as (Hi' & Hr & Hg & Hown & Hother & Hold & Hne).
  destruct (h_cells h' !! r) as [cb|] eqn:Ecb.
  2: { destruct (proj1 (pi_cells _ Hi' r) Hr) as [cb Hcb]. cbn in Hcb. congruence. }
  destruct (Allow now' now' cb) as [ok cb'] eqn:Ea. cbn [snd]. split.
  - pose proof (set_cell_inv r cb' _ Hi' Hr) as Hs. cbn [sv_pool sv_heap sv_open] in Hs.
    destruct ok; [|done]. apply (open_add_inv {| q_tenant := t; q_breaker := r |} _ Hs); [done|].
    cbn. intros k ent Hk Hcb. destruct Hown as [->|(e0 & Hl & He0)].
    + by destruct (pi_entries _ Hi' k ent Hk).
    + apply (pi_owner _ Hi' k (pool_key t) ent e0); [done|done|]. by rewrite He0.
  - intros k Hk. split; [by apply Hother|]. cbn [sv_pool sv_heap set_cell h_cells]. intros ent Hent.
    rewrite lookup_insert_ne by (symmetry; by eapply Hne). apply Hold. by apply (pi_entries _ Hi k ent).
Qed.
Lemma record_lookup r now o h x : x <> r -> h_cells (record_outcome r now o h) !! x = h_cells h !! x.
Proof. intros Hx. unfold record_outcome. destruct (h_cells h !! r); [|done]. destruct o; cbn; by rewrite ?lookup_insert_ne. Qed.
Lemma record_inv r now o s :
  pool_inv s -> (r < h_next (sv_heap s))%nat ->
  pool_inv {| sv_pool := sv_pool s; sv_heap := record_outcome r now o (sv_heap s); sv_open := sv_open s |}.
Proof.
  intros Hi Hr. unfold record_outcome. destruct (h_cells (sv_heap s) !! r); [|by destruct s].
  destruct o; [by apply set_cell_inv|by apply set_cell_inv|by destruct s].
Qed.
Lemma serve_inv s e : pool_inv s -> pool_inv (serve s e).
Proof.
  intros Hi. destruct e as [t now now'|i now o]; cbn [serve]; [by apply start_spec|].
  destruct (sv_open s !! i) as [q|] eqn:E; [|done]. apply list_elem_of_lookup_2 in E as Hq.
  destruct (record_inv (q_breaker q) now o s Hi) as [H1 H2 H3 H4 H5]; [by apply (pi_open _ Hi)|].
  split; cbn [sv_pool sv_heap sv_open] in *; try done. intros x Hx. apply H5.
  rewrite delete_take_drop in Hx. rewrite <- (take_drop i (sv_open s)). apply elem_of_app.
  apply elem_of_app in Hx as [Hx|Hx]; [by left|right]. rewrite (drop_S _ q _ E). by right.
Qed.
Lemma history_pool_inv th cd s : history th cd s -> pool_inv s.
Proof.
  intros [h ->]. assert (pool_inv (new_service th cd)) as Hi.
  { split; cbn [sv_pool sv_heap sv_open new_service NewBreakerPool alloc bp_breakers bp_global h_next h_cells].
    - intros r. destruct (decide (r = 0%nat)) as [->|Hne]; [rewrite lookup_insert_eq; split; [by eexists|lia]|].
      rewrite lookup_insert_ne, lookup_empty by done. split; [lia|by intros []].
    - lia.
    - done.
    - done.
    - intros q []%not_elem_of_nil. }
  revert Hi. generalize (new_service th cd). induction h as [|e h IH]; intros s Hi; [done|]. cbn. apply IH. by apply serve_inv.
Qed.

(** ** Properties: the pool *)

(**  Tenants are isolated: whatever happened before, an event of another
    tenant — a request starting, or finishing with any outcome, also on a
    breaker the pool already dropped — leaves a tenant's breaker as it is,
    except that it may be dropped after an hour without use; and while the
    pool has room, the tenant's next request is admitted exactly as its own
    breaker says (always, when it has none). *)
Theorem tenant_isolation th cd s b :
  history th cd s ->
  (forall e, event_key s e <> Some (pool_key b) ->
     own_breaker b (serve s e) = own_breaker b s \/
     exists t now now' lu cb, e = Start t now now' /\ own_breaker b s = Some (lu, cb) /\
       lu < now - breakerPoolIdleTTL /\ own_breaker b (serve s e) = None) /\
  (forall now now', full now s = false ->
     fst (start b now now' s) =
       match own_breaker b s with
       | Some (lu, cb) => if lu <? now - breakerPoolIdleTTL then true else fst (Allow now' now' cb)
       | None => true
       end).
Proof.
  intros Hi%history_pool_inv. split.
  - intros [t now now'|i now o] Hk; cbn [serve event_key] in *.
    + destruct (start_spec t now now' s Hi) as [_ Hs]. destruct (Hs (pool_key b)) as [Hl Hc]; [congruence|].
      unfold own_breaker, own_entry in *. rewrite Hl.
      destruct (bp_breakers (sv_pool s) !! pool_key b) as [ent|] eqn:E.
      * destruct (proj1 (pi_cells _ Hi (be_cb ent))) as [cb Hcb]; [by apply (pi_entries _ Hi _ ent E)|].
        destruct (Z.lt_ge_cases (be_lastUsed ent) (now - breakerPoolIdleTTL)).
        -- right. exists t, now, now', (be_lastUsed ent), cb. rewrite Hcb. split_and!; try done.
           destruct (bp_breakers (evictIdleLocked now (sv_pool s)) !! pool_key b) as [e'|] eqn:E'; [|done].
           apply evict_lookup in E' as [E' ?]. rewrite E in E'. injection E' as <-. lia.
        -- left. rewrite (proj2 (evict_lookup now (sv_pool s) (pool_key b) ent)) by done. by rewrite (Hc ent).
      * left. destruct (bp_breakers (evictIdleLocked now (sv_pool s)) !! pool_key b) as [e'|] eqn:E'; [|done].
        apply evict_lookup in E' as [E' _]. congruence.
    + left. destruct (sv_open s !! i) as [q|] eqn:Eq; [|done]. unfold own_breaker, own_entry.
      cbn [sv_pool sv_heap]. destruct (bp_breakers (sv_pool s) !! pool_key b) as [ent|] eqn:E; [|done].
      rewrite record_lookup; [done|]. intros Heq. apply list_elem_of_lookup_2 in Eq.
      destruct (pi_open _ Hi q Eq) as [_ Hown]. by rewrite (Hown _ ent E Heq) in Hk.
  - intros now now' Hf. unfold start, For_. cbv zeta. unfold full in Hf. rewrite Hf. cbn [andb].
    destruct (bp_breakers (evictIdleLocked now (sv_pool s)) !! pool_key b) as [ent|] eqn:E'.
    + apply evict_lookup in E' as [E Hlu]. unfold own_breaker, own_entry. rewrite E.
      destruct (proj1 (pi_cells _ Hi (be_cb ent))) as [cb Hcb]; [by apply (pi_entries _ Hi _ ent E)|]. rewrite Hcb.
      destruct (Z.ltb_spec (be_lastUsed ent) (now - breakerPoolIdleTTL)); [lia|].
      by destruct (Allow now' now' cb) as [ok cb'].
    + unfold alloc. cbn [h_cells]. rewrite lookup_insert_eq. cbn [Allow openUntil NewCircuitBreaker fst].
      unfold own_breaker, own_entry. destruct (bp_breakers (sv_pool s) !! pool_key b) as [ent|] eqn:E; [|done].
      destruct (h_cells (sv_heap s) !! be_cb ent) as [cb|]; [|done].
      destruct (Z.ltb_spec (be_lastUsed ent) (now - breakerPoolIdleTTL)); [done|].
      by rewrite (proj2 (evict_lookup now (sv_pool s) (pool_key b) ent)) in E'.
Qed.

(**  A full pool isolates nobody: once 500 tenants were served within the
    hour, every tenant's requests — also of the tenants that have a breaker of
    their own, open or not — are admitted as the one shared breaker says and
    recorded on it, so one tenant's failures refuse the requests of all. *)
Theorem full_pool_shares_one_breaker th cd s b now now' :
  history th cd s -> full now s = true -> pool_key b <> "_global" ->
  exists cb, h_cells (sv_heap s) !! bp_global (sv_pool s) = Some cb /\
    fst (start b now now' s) = fst (Allow now' now' cb) /\
    h_cells (sv_heap (snd (start b now now' s))) !! bp_global (sv_pool s) = Some (snd (Allow now' now' cb)) /\
    (fst (start b now now' s) = true ->
     sv_open (snd (start b now now' s)) = (sv_open s ++ [{| q_tenant := b; q_breaker := bp_global (sv_pool s) |}])%list).
Proof.
  intros Hi%history_pool_inv Hf Hk. destruct (proj1 (pi_cells _ Hi _) (pi_global _ Hi)) as [cb Hcb]. exists cb.
  split; [done|]. unfold start, For_. cbv zeta. unfold full in Hf. rewrite Hf, (proj2 (String.eqb_neq _ _) Hk).
  cbn [andb negb evictIdleLocked set_breakers bp_global]. rewrite Hcb. destruct (Allow now' now' cb) as [ok cb'].
  cbn [fst snd sv_heap set_cell h_cells sv_open]. rewrite lookup_insert_eq. by destruct ok.
Qed.

(** ** Witnesses: the pool *)
(** five requests of one tenant, all failing *)
Definition failing (tenantID : string) (at_ : Z) : list event :=
  concat (repeat [Start tenantID at_ at_; Finish 0 at_ (Failed (EText "503"))] 5).
Definition two_tenants_events : list event :=
  ([Start "b" (9 * Second) (9 * Second); Finish 0 (9 * Second) Answered] ++ failing "a" (10 * Second))%list.
Definition two_tenants : service := fold_left serve two_tenants_events (new_service 5 (30 * Second)).
Lemma two_tenants_history : history 5 (30 * Second) two_tenants.
Proof. exact (ex_intro _ two_tenants_events eq_refl). Qed.
(** [a] is refused, [b] is not *)
Lemma tenant_isolation_witness :
  fst (start "a" (11 * Second) (11 * Second) two_tenants) = false /\
  fst (start "b" (11 * Second) (11 * Second) two_tenants) = true.
Proof.
  split; [vm_compute; reflexivity|].
  assert (full (11 * Second) two_tenants = false) as Hf by (vm_compute; reflexivity).
  rewrite (proj2 (tenant_isolation 5 (30 * Second) two_tenants "b" two_tenants_history) _ (11 * Second) Hf).
  vm_compute. reflexivity.
Defined.

(** 500 tenants at once *)
Definition names : list string := map (fun i => "t" ++ pretty i) (seq 0 500).
Definition crowd_of (l : list string) (s : service) : service := fold_left serve (map (fun t => Start t 0 0) l) s.
Definition crowd : service := crowd_of names (new_service 5 (30 * Second)).
Lemma crowd_history : history 5 (30 * Second) crowd.
Proof. exact (ex_intro _ (map (fun t => Start t 0 0) names) eq_refl). Qed.
Definition fresh_pool (s : service) : Prop := forall k e, bp_breakers (sv_pool s) !! k = Some e -> be_lastUsed e = 0.
Lemma fresh_evict s : fresh_pool s -> evictIdleLocked 0 (sv_pool s) = sv_pool s.
Proof.
  intros Hf. unfold evictIdleLocked. rewrite map_filter_id; [by destruct (sv_pool s)|].
  intros k e He. cbn. rewrite (Hf k e He). by vm_compute.
Qed.
Lemma crowd_step t s :
  fresh_pool s -> pool_key t = t -> bp_breakers (sv_pool s) !! t = None ->
  (size (bp_breakers (sv_pool s)) < breakerPoolMaxEntries)%nat ->
  exists r, bp_breakers (sv_pool (serve s (Start t 0 0))) = <[t := {| be_cb := r; be_lastUsed := 0 |}]> (bp_breakers (sv_pool s)).
Proof.
  intros Hf Hk Hn Hs. cbn [serve]. unfold start, For_. cbv zeta. rewrite fresh_evict, Hk by done.
  apply Nat.leb_gt in Hs. rewrite Hs. cbn [andb]. rewrite Hn. unfold alloc. cbn [h_cells]. rewrite lookup_insert_eq.
  cbn. by eexists.
Qed.
Lemma crowd_grows l s :
  fresh_pool s -> NoDup l -> (forall t, t ∈ l -> pool_key t = t /\ bp_breakers (sv_pool s) !! t = None) ->
  (size (bp_breakers (sv_pool s)) + length l <= breakerPoolMaxEntries)%nat ->
  fresh_pool (crowd_of l s) /\
  size (bp_breakers (sv_pool (crowd_of l s))) = (size (bp_breakers (sv_pool s)) + length l)%nat.
Proof.
  unfold crowd_of. revert s. induction l as [|t l IH]; intros s Hf Hn Hl Hs; [cbn; split; [done|lia]|].
  apply NoDup_cons in Hn as [Ht Hn]. destruct (Hl t) as [Hk Hnone]; [by left|]. cbn [map length fold_left] in *.
  destruct (crowd_step t s) as [r Hr]; [done|done|done|lia|].
  destruct (IH (serve s (Start t 0 0))) as [Hf' Hs'].
  - intros k e. rewrite Hr. intros [[_ <-]|[_ He]]%lookup_insert_Some; [done|by apply (Hf k)].
  - done.
  - intros u Hu. destruct (Hl u) as [? ?]; [by right|]. split; [done|]. rewrite Hr. by rewrite lookup_insert_ne by congruence.
  - rewrite Hr, map_size_insert_None by done. lia.
  - split; [done|]. rewrite Hs', Hr, map_size_insert_None by done. lia.
Qed.
Lemma crowd_full : full 0 crowd = true.
Proof.
  destruct (crowd_grows names (new_service 5 (30 * Second))) as [Hf Hs].
  - intros k e. cbn. by rewrite lookup_empty.
  - unfold names. apply NoDup_fmap_2; [intros x y [= H]; by apply (inj pretty)|apply NoDup_seq].
  - intros t Ht. split; [|cbn; apply lookup_empty]. apply list_elem_of_fmap in Ht as (i & -> & _). done.
  - unfold names. rewrite length_map, length_seq. cbn [new_service NewBreakerPool alloc sv_pool bp_breakers].
    rewrite map_size_empty. done.
  - fold crowd in Hf, Hs. unfold full. rewrite (fresh_evict _ Hf), Hs. unfold names. rewrite length_map, length_seq.
    cbn [new_service NewBreakerPool alloc sv_pool bp_breakers]. by rewrite map_size_empty.
Qed.
Lemma full_pool_shares_one_breaker_witness :
  full 0 crowd = true /\
  exists cb, h_cells (sv_heap crowd) !! bp_global (sv_pool crowd) = Some cb /\ fst (start "t0" 0 0 crowd) = fst (Allow 0 0 cb).
Proof.
  split; [exact crowd_full|].
  destruct (full_pool_shares_one_breaker 5 (30 * Second) crowd "t0" 0 0 crowd_history crowd_full) as (cb & Hcb & Ha & _);
    [discriminate|]. exists cb. split; [exact Hcb|exact Ha].
Defined.
