(* ===== verification/EmbedCache.v ===== *)
(** * The cache of query embeddings

    [shared/retrieval/query_embed_cache.go] and [caching_embedder.go]: an LRU
    cache with expiry in front of the embedding service.  Slices are locations
    of a heap, so that a caller who keeps the slice it put, or the one it got,
    can write to it.  [get] and [put] hold the mutex throughout: any interleaving
    of requests is a sequence of them.  [V] is float32, [lower] is
    [strings.ToLower] with its tables, the wrapped embedder's answers are inputs. *)
From S2P Require Import Prelude GoStrings Sha256.

Open Scope string_scope.
Open Scope Z_scope.

Definition defaultQueryCacheSize : Z := 512.
(** 15 minutes *)
Definition defaultQueryCacheTTL : Z := 900000000000.
Abbreviation loc := nat.
Record cacheEntry := { vector : loc; expiresAt : Z }.
Record queryEmbedCache := {
  qc_max : Z; qc_ttl : Z; qc_items : gmap string cacheEntry; qc_order : list string; qc_hits : Z; qc_misses : Z
}.
Definition newQueryEmbedCache (max ttl : Z) : queryEmbedCache :=
  {| qc_max := if max <=? 0 then defaultQueryCacheSize else max; qc_ttl := if ttl <=? 0 then defaultQueryCacheTTL else ttl;
     qc_items := ∅; qc_order := []; qc_hits := 0; qc_misses := 0 |}.
Definition with_items (m : gmap string cacheEntry) (o : list string) (c : queryEmbedCache) : queryEmbedCache :=
  {| qc_max := qc_max c; qc_ttl := qc_ttl c; qc_items := m; qc_order := o; qc_hits := qc_hits c; qc_misses := qc_misses c |}.
(** the counters are uint64 *)
Definition hit (c : queryEmbedCache) : queryEmbedCache :=
  {| qc_max := qc_max c; qc_ttl := qc_ttl c; qc_items := qc_items c; qc_order := qc_order c; qc_hits := (qc_hits c + 1) mod 2 ^ 64;
     qc_misses := qc_misses c |}.
Definition miss (c : queryEmbedCache) : queryEmbedCache :=
  {| qc_max := qc_max c; qc_ttl := qc_ttl c; qc_items := qc_items c; qc_order := qc_order c; qc_hits := qc_hits c;
     qc_misses := (qc_misses c + 1) mod 2 ^ 64 |}.
(** the first occurrence goes *)
Fixpoint removeKeyFromOrder (key : string) (order : list string) : list string :=
  match order with [] => [] | k :: rest => if String.eqb k key then rest else k :: removeKeyFromOrder key rest end.
Definition touchLocked (key : string) (order : list string) : list string := (removeKeyFromOrder key order ++ [key])%list.
Fixpoint evictOldestLocked (max : Z) (order : list string) (items : gmap string cacheEntry) : gmap string cacheEntry * list string :=
  match order with
  | oldest :: rest => if max <=? Z.of_nat (size items) then evictOldestLocked max rest (delete oldest items) else (items, order)
  | [] => (items, order)
  end.
Definition stats (c : queryEmbedCache) : Z * Z * nat := (qc_hits c, qc_misses c, size (qc_items c)).

Section cache.
Context {V : Type} (lower : string -> string).

Definition queryCacheKey (model text : string) : string :=
  hex_encode (Sum256 (model ++ String zero (TrimSpace (lower text)))).

(** the cache and the slices of the process *)
Record memory := { heap : gmap loc (list V); next_loc : loc; cache : queryEmbedCache }.
Definition with_cache (c : queryEmbedCache) (m : memory) : memory := {| heap := heap m; next_loc := next_loc m; cache := c |}.
(** make and copy *)
Definition alloc (v : list V) (m : memory) : loc * memory :=
  (next_loc m, {| heap := <[next_loc m := v]> (heap m); next_loc := S (next_loc m); cache := cache m |}).
Definition slice (l : loc) (m : memory) : list V := default [] (heap m !! l).
Definition get_at (key : string) (now : Z) (m : memory) : option loc * memory :=
  let c := cache m in
  match qc_items c !! key with
  | None => (None, with_cache (miss c) m)
  | Some e =>
      if expiresAt e <? now then (None, with_cache (miss (with_items (delete key (qc_items c)) (removeKeyFromOrder key (qc_order c)) c)) m)
      else
        let '(l, m) := alloc (slice (vector e) m) m in
        (Some l, with_cache (hit (with_items (qc_items c) (touchLocked key (qc_order c)) c)) m)
  end.
Definition put_at (key : string) (vec : loc) (now : Z) (m : memory) : memory :=
  if Nat.eqb (length (slice vec m)) 0 then m
  else
    let '(cp, m) := alloc (slice vec m) m in
    let c := cache m in
    let '(items, order) :=
      match qc_items c !! key with
      | None => if qc_max c <=? Z.of_nat (size (qc_items c)) then evictOldestLocked (qc_max c) (qc_order c) (qc_items c) else (qc_items c, qc_order c)
      | Some _ => (qc_items c, qc_order c)
      end in
    with_cache (with_items (<[key := {| vector := cp; expiresAt := now + qc_ttl c |}]> items) (touchLocked key order) c) m.
Definition get (model text : string) : Z -> memory -> option loc * memory := get_at (queryCacheKey model text).
Definition put (model text : string) : loc -> Z -> memory -> memory := put_at (queryCacheKey model text).

(** [CachingEmbedder.Embed]: one text goes through the cache; [inner]: the
    slices the wrapped embedder answers, and the memory it leaves (other
    requests may have used the cache meanwhile) *)
Definition Embed (model : string) (texts : list string) (inner : memory -> result (list loc) * memory) (t1 t2 : Z) (m : memory) :
    result (list loc) * memory :=
  let '(found, m) := match texts with [text] => get model text t1 m | _ => (None, m) end in
  match found with
  | Some l => (Ok [l], m)
  | None =>
      match inner m with
      | (Err e, m) => (Err e, m)
      | (Ok out, m) => (Ok out, match texts, out with [text], [l] => put model text l t2 m | _, _ => m end)
      end
  end.

(** ** Histories *)
(** what the callers do: make a slice, write to one they hold, and call the cache *)
Inductive event :=
  | Make (v : list V)
  | Write (l : loc) (v : list V)
  | Get (key : string) (now : Z)
  | Put (key : string) (l : loc) (now : Z).
(** the calls and their answers, as the callers see them *)
Inductive call := Stored (key : string) (v : list V) (now : Z) | Answered (key : string) (answer : option (list V)) (now : Z).
Record process := { mem : memory; held : list loc; log : list call (** newest first *) }.
Definition step (e : event) (p : process) : process :=
  match e with
  | Make v => let '(l, m) := alloc v (mem p) in {| mem := m; held := l :: held p; log := log p |}
  | Write l v =>
      if bool_decide (l ∈ held p)
      then {| mem := {| heap := <[l := v]> (heap (mem p)); next_loc := next_loc (mem p); cache := cache (mem p) |}; held := held p; log := log p |}
      else p
  | Get key now =>
      let '(found, m) := get_at key now (mem p) in
      {| mem := m; held := match found with Some l => l :: held p | None => held p end;
         log := Answered key ((fun l => slice l m) <$> found) now :: log p |}
  | Put key l now =>
      if bool_decide (l ∈ held p)
      then {| mem := put_at key l now (mem p); held := held p; log := Stored key (slice l (mem p)) now :: log p |}
      else p
  end.
Fixpoint run (es : list event) (p : process) : process := match es with [] => p | e :: rest => run rest (step e p) end.
Definition started (max ttl : Z) : process :=
  {| mem := {| heap := ∅; next_loc := 0%nat; cache := newQueryEmbedCache max ttl |}; held := []; log := [] |}.

(** *** What a log says *)
Definition call_key (c : call) : string := match c with Stored k _ _ | Answered k _ _ => k end.
Definition call_time (c : call) : Z := match c with Stored _ _ t | Answered _ _ t => t end.
(** an answered vector is used again *)
Definition refreshes (key : string) (c : call) : bool := match c with Answered k (Some _) _ => String.eqb k key | _ => false end.
Definition used_since (key : string) (c : call) (ks : list string) : list string :=
  if refreshes key c then [] else if String.eqb (call_key c) key then ks else call_key c :: ks.
(** the last vector stored under a key, when, and the other keys used since its last use *)
Fixpoint last_stored (key : string) (log : list call) : option (list V * Z * list string) :=
  match log with
  | [] => None
  | c :: rest =>
      let older := (fun '(v, t, ks) => (v, t, used_since key c ks)) <$> last_stored key rest in
      match c with
      | Stored k (x :: v) t => if String.eqb k key then Some (x :: v, t, []) else older
      | _ => older
      end
  end.
(** how many different keys *)
Definition different (ks : list string) : Z := Z.of_nat (length (remove_dups ks)).
End cache.

(** ** The order of use *)
Definition matches (items : gmap string cacheEntry) (order : list string) : Prop := NoDup order /\ forall k, k ∈ order <-> is_Some (items !! k).
Lemma matches_size items order : matches items order -> size items = length order.
Proof.
  intros [Hn Hd]. rewrite <- size_dom. assert (dom items = list_to_set order :> gset string) as ->.
  { apply set_eq. intros k. by rewrite elem_of_dom, elem_of_list_to_set, Hd. }
  by apply size_list_to_set.
Qed.
Lemma remove_filter key order : NoDup order -> removeKeyFromOrder key order = List.filter (fun k => negb (String.eqb k key)) order.
Proof.
  induction order as [|k rest IH]; [done|]. intros [Hk Hn]%NoDup_cons. cbn. destruct (String.eqb_spec k key) as [->|]; cbn; [|by rewrite IH].
  clear IH Hn. induction rest as [|x rest IH]; [done|]. apply not_elem_of_cons in Hk as [Hx Hr]. cbn.
  apply not_eq_sym in Hx. apply String.eqb_neq in Hx. rewrite Hx. cbn. by rewrite <- IH.
Qed.
Lemma matches_remove key items order : matches items order -> matches (delete key items) (removeKeyFromOrder key order).
Proof.
  intros [Hn Hd]. rewrite remove_filter by done. split.
  - apply NoDup_ListNoDup, List.NoDup_filter, NoDup_ListNoDup, Hn.
  - intros k. rewrite filter_elem, Hd, negb_true_iff, String.eqb_neq, lookup_delete_is_Some. naive_solver.
Qed.
Lemma matches_touch key e items order : matches items order -> matches (<[key := e]> items) (touchLocked key order).
Proof.
  intros H. apply (matches_remove key) in H as [Hn Hd]. unfold touchLocked. split.
  - apply NoDup_app. split; [done|]. split; [|apply NoDup_singleton]. intros k Hk%Hd ->%list_elem_of_singleton.
    by apply lookup_delete_is_Some in Hk as [? _].
  - intros k. rewrite elem_of_app, Hd, list_elem_of_singleton, lookup_delete_is_Some, lookup_insert_is_Some. destruct (decide (k = key)); naive_solver.
Qed.
(** the keys used after [key] *)
Definition since (key : string) (order post : list string) : Prop := exists pre, order = (pre ++ key :: post)%list.
Lemma since_touch key order : since key (touchLocked key order) [].
Proof. by exists (removeKeyFromOrder key order). Qed.
Lemma since_other key k order post : NoDup order -> k <> key -> since key order post -> exists post', since key (removeKeyFromOrder k order) post' /\
  forall x, x ∈ post' -> x ∈ post.
Proof.
  intros Hn Hk [pre ->]. rewrite remove_filter by done. rewrite List.filter_app. cbn.
  assert (String.eqb key k = false) as -> by (by apply String.eqb_neq). cbn. eexists. split; [by eexists|]. intros x [? _]%filter_elem. done.
Qed.
Lemma since_touch_other key k order post : NoDup order -> k <> key -> since key order post -> exists post', since key (touchLocked k order) post' /\
  forall x, x ∈ post' -> x ∈ post \/ x = k.
Proof.
  intros Hn Hk Hs. destruct (since_other key k order post Hn Hk Hs) as (post' & [pre E] & Hp). exists (post' ++ [k])%list. split.
  - exists pre. unfold touchLocked. by rewrite E, <- app_assoc.
  - intros x [Hx|Hx%list_elem_of_singleton]%elem_of_app; auto.
Qed.
Lemma evict_spec max order items :
  0 < max -> matches items order ->
  let '(items', order') := evictOldestLocked max order items in
  matches items' order' /\ Z.of_nat (length order') < max /\ items' ⊆ items /\
  forall key post, since key order post -> 1 + Z.of_nat (length post) < max -> since key order' post.
Proof.
  intros Hmax. revert items. induction order as [|k rest IH]; intros items Hm; cbn [evictOldestLocked].
  { split_and!; [done|done|done|]. intros key post [[|] E]; discriminate E. }
  pose proof (matches_size _ _ Hm) as Hs. destruct (Z.leb_spec max (Z.of_nat (size items))) as [Hle|Hlt].
  - assert (matches (delete k items) rest) as Hm'.
    { destruct Hm as [[Hk Hn]%NoDup_cons Hd]. split; [done|]. intros x. rewrite lookup_delete_is_Some, <- Hd, elem_of_cons. split; [|naive_solver].
      intros Hx. split; [by intros ->|by right]. }
    specialize (IH _ Hm'). destruct (evictOldestLocked _ _ _) as [items' order']. destruct IH as (Hm2 & Hlen & Hsub & Hkeep).
    split_and!; [done|done|by etrans; [exact Hsub|apply delete_subseteq]|]. intros key post [pre E] Hpost. apply Hkeep; [|done].
    destruct pre as [|y pre]; injection E as -> E; [|by exists pre]. subst rest. cbn in Hs. lia.
  - split_and!; [done|by rewrite Hs in Hlt|done|done].
Qed.

(** ** What a process keeps *)
Section invariant.
Context {V : Type}.
Implicit Types (p : process (V := V)) (v : list V).

(** the entry of a key is a slice of its own, with what was last stored *)
Definition entry_sound p (key : string) (e : cacheEntry) : Prop :=
  (vector e < next_loc (mem p))%nat /\ vector e ∉ held p /\
  exists ks, last_stored key (log p) = Some (slice (vector e) (mem p), expiresAt e - qc_ttl (cache (mem p)), ks).
Record cache_inv p : Prop := {
  ci_max : 0 < qc_max (cache (mem p));
  ci_matches : matches (qc_items (cache (mem p))) (qc_order (cache (mem p)));
  ci_size : Z.of_nat (length (qc_order (cache (mem p)))) <= qc_max (cache (mem p));
  ci_held l : l ∈ held p -> (l < next_loc (mem p))%nat;
  ci_entry key e : qc_items (cache (mem p)) !! key = Some e -> entry_sound p key e;
  ci_kept key v t ks : last_stored key (log p) = Some (v, t, ks) -> Forall (fun c => call_time c <= t + qc_ttl (cache (mem p))) (log p) ->
    different ks < qc_max (cache (mem p)) -> exists post, since key (qc_order (cache (mem p))) post /\ forall k, k ∈ post -> k ∈ ks
}.
Lemma different_subset ks ks' : NoDup ks -> (forall k, k ∈ ks -> k ∈ ks') -> Z.of_nat (length ks) <= different ks'.
Proof.
  intros Hn Hs. unfold different. apply inj_le, submseteq_length, NoDup_submseteq; [done|]. intros k Hk. apply elem_of_remove_dups. auto.
Qed.
Lemma different_cons k ks : different ks <= different (k :: ks).
Proof. apply (different_subset (remove_dups ks) (k :: ks)); [apply NoDup_remove_dups|]. intros x Hx. rewrite elem_of_remove_dups in Hx. by right. Qed.
Lemma since_nodup key order post : NoDup order -> since key order post -> NoDup post /\ key ∉ post.
Proof. intros Hn [pre ->]. apply NoDup_app in Hn as (_ & _ & [? ?]%NoDup_cons). done. Qed.
Lemma since_in key order post : since key order post -> key ∈ order.
Proof. intros [pre ->]. apply elem_of_app. right. by left. Qed.

(** the keys of the calls but the last *)
Lemma last_stored_older key c rest : (forall x v t, c = Stored key (x :: v) t -> False) ->
  last_stored key (c :: rest) =
    (fun '(v, t, ks) => (v, t, used_since key c ks)) <$> last_stored (V := V) key rest.
Proof.
  intros Hc. cbn [last_stored]. destruct c as [k [|x v] t|k a t]; [done| |done]. destruct (String.eqb_spec k key) as [->|]; [|done].
  exfalso. by eapply Hc.
Qed.
Lemma kept_older p key c v t ks : cache_inv p -> (forall x v' t', c = Stored key (x :: v') t' -> False) -> refreshes key c = false ->
  last_stored key (c :: log p) = Some (v, t, ks) -> Forall (fun c => call_time c <= t + qc_ttl (cache (mem p))) (c :: log p) ->
  different ks < qc_max (cache (mem p)) ->
  exists ks0 post, last_stored key (log p) = Some (v, t, ks0) /\ ks = (if String.eqb (call_key c) key then ks0 else call_key c :: ks0) /\
    since key (qc_order (cache (mem p))) post /\ (forall k, k ∈ post -> k ∈ ks0) /\ call_time c <= t + qc_ttl (cache (mem p)).
Proof.
  intros Hi Hc Hr. rewrite (last_stored_older key c _ Hc). unfold used_since. rewrite Hr. intros ([[v0 t0] ks0] & Hl & [= -> -> ->])%fmap_Some [Hct Hall]%Forall_cons Hd.
  assert (different ks0 < qc_max (cache (mem p))) as Hd'.
  { destruct (String.eqb _ _); [done|]. pose proof (different_cons (call_key c) ks0). lia. }
  destruct (ci_kept p Hi key v0 t0 ks0 Hl Hall Hd') as (post & Hs & Hp). exists ks0, post. done.
Qed.
Lemma slice_alloc v l m : (l < next_loc m)%nat -> slice l (alloc v m).2 = slice (V := V) l m.
Proof. intros Hl. unfold slice, alloc. cbn. by rewrite lookup_insert_ne by lia. Qed.
Lemma slice_fresh v m : slice (next_loc m) (alloc v m).2 = v.
Proof. unfold slice, alloc. cbn. by rewrite lookup_insert_eq. Qed.
Lemma inv_make v p : cache_inv p -> cache_inv (step (Make v) p).
Proof.
  intros Hi. destruct Hi as [H1 H2 H3 H4 H5 H6]. split; cbn; [done..| | |done].
  - intros l [->|Hl]%elem_of_cons; [lia|]. specialize (H4 l Hl). lia.
  - intros key e He. destruct (H5 key e He) as (Hv & Hh & ks & Hl). split_and!; cbn; [lia| |].
    + intros [E|?]%elem_of_cons; [lia|done].
    + exists ks. by rewrite Hl, <- (slice_alloc v _ (mem p) Hv).
Qed.
Lemma inv_write l v p : cache_inv p -> cache_inv (step (Write l v) p).
Proof.
  intros Hi. cbn. case_bool_decide as Hl; [|done]. destruct Hi as [H1 H2 H3 H4 H5 H6]. split; cbn; [done..| |done].
  intros key e He. destruct (H5 key e He) as (Hv & Hh & ks & Hs). split_and!; cbn; [done..|].
  exists ks. rewrite Hs. unfold slice. cbn. by rewrite lookup_insert_ne by (by intros ->).
Qed.
(** a call that stores nothing: the entries that stay, in their new place *)
Lemma inv_called p c m held' :
  cache_inv p -> (forall key x v t, c = Stored key (x :: v) t -> False) ->
  qc_max (cache m) = qc_max (cache (mem p)) -> qc_ttl (cache m) = qc_ttl (cache (mem p)) ->
  matches (qc_items (cache m)) (qc_order (cache m)) -> (length (qc_order (cache m)) <= length (qc_order (cache (mem p))))%nat ->
  (forall l, l ∈ held' -> (l < next_loc m)%nat) ->
  (forall key e, qc_items (cache m) !! key = Some e -> qc_items (cache (mem p)) !! key = Some e /\ (vector e < next_loc m)%nat /\
     vector e ∉ held' /\ slice (vector e) m = slice (vector e) (mem p)) ->
  (forall key, refreshes key c = true -> since key (qc_order (cache m)) []) ->
  (forall key v t ks0 post, last_stored key (log p) = Some (v, t, ks0) -> call_time c <= t + qc_ttl (cache (mem p)) ->
     since key (qc_order (cache (mem p))) post -> exists post', since key (qc_order (cache m)) post' /\
     forall k, k ∈ post' -> k ∈ post \/ (k = call_key c /\ k <> key)) ->
  cache_inv {| mem := m; held := held'; log := c :: log p |}.
Proof.
  intros Hi Hc Hmax Httl Hm Hlen Hheld He Hfresh Hk. split; cbn [mem held log]; [rewrite Hmax; apply (ci_max p Hi)|done|rewrite Hmax|done| |].
  - pose proof (ci_size p Hi). lia.
  - intros key e Hin. destruct (He key e Hin) as (Hin' & Hv & Hh & Hs). destruct (ci_entry p Hi key e Hin') as (_ & _ & ks & Hl).
    split_and!; [done|done|]. cbn [mem log]. rewrite (last_stored_older key c _ (Hc key)), Hl, Hs, Httl. by eexists.
  - intros key v t ks. rewrite Hmax, Httl. intros Hl Hall Hd.
    destruct (refreshes key c) eqn:Hr; [exists []; split; [by apply Hfresh|by intros ? ?%elem_of_nil]|].
    destruct (kept_older p key c v t ks Hi (Hc key) Hr Hl Hall Hd) as (ks0 & post & Hl0 & -> & Hs & Hp & Ht).
    destruct (Hk key v t ks0 post Hl0 Ht Hs) as (post' & Hs' & Hp'). exists post'. split; [done|]. intros k Hin.
    destruct (String.eqb_spec (call_key c) key) as [E|E]; [|destruct (Hp' k Hin) as [?|[-> _]]; [right; auto|by left]].
    destruct (Hp' k Hin) as [?|[-> ?]]; auto; done.
Qed.
Lemma inv_get key now p : cache_inv p -> cache_inv (step (Get key now) p).
Proof.
  intros Hi. pose proof (ci_matches p Hi) as Hm. unfold step, get_at. destruct (qc_items (cache (mem p)) !! key) as [e|] eqn:He.
  2: { apply inv_called; cbn; auto; try done; [apply (ci_held p Hi)| |].
    - intros k e' Hk. destruct (ci_entry p Hi k e' Hk) as (? & ? & _). auto.
    - intros k v t ks post _ _ Hs. exists post. auto. }
  destruct (Z.ltb_spec (expiresAt e) now) as [Hlt|Hge].
  - apply inv_called; cbn; auto; try done; [by apply matches_remove| |apply (ci_held p Hi)| |].
    + rewrite remove_filter by apply Hm. apply List.filter_length_le.
    + intros k e' [Hne Hk]%lookup_delete_Some. destruct (ci_entry p Hi k e' Hk) as (? & ? & _). auto.
    + intros k v t ks post Hl Ht Hs. destruct (decide (k = key)) as [->|Hne].
      * destruct (ci_entry p Hi key e He) as (_ & _ & ks' & Hl'). rewrite Hl in Hl'. injection Hl' as _ -> _. lia.
      * destruct (since_other k key (qc_order (cache (mem p))) post) as (post' & Hs' & Hp'); [apply Hm|done|done|]. exists post'. auto.
  - assert (key ∈ qc_order (cache (mem p))) as Hin by (apply Hm; by eexists).
    apply inv_called; cbn; auto; try done.
    + destruct Hm as [Hn Hd]. assert (matches (qc_items (cache (mem p))) (qc_order (cache (mem p)))) as Hm by done.
      apply (matches_touch key e) in Hm. by rewrite insert_id in Hm.
    + unfold touchLocked. rewrite length_app. cbn.
      rewrite remove_filter by apply Hm. clear -Hin. induction (qc_order _) as [|x l IH]; [by apply elem_of_nil in Hin|]. cbn.
      apply elem_of_cons in Hin as [->|Hin]; [rewrite String.eqb_refl; cbn; pose proof (List.filter_length_le (fun k => negb (String.eqb k x)) l); lia|].
      specialize (IH Hin). destruct (negb _); cbn; lia.
    + intros l [->|Hl]%elem_of_cons; [lia|]. pose proof (ci_held p Hi l Hl). lia.
    + intros k e' Hk. destruct (ci_entry p Hi k e' Hk) as (Hv & Hh & _). split_and!; [done|lia| |by apply (slice_alloc _ _ (mem p))].
      intros [E|?]%elem_of_cons; [lia|done].
    + intros k Hk%String.eqb_eq. subst k. apply since_touch.
    + intros k v t ks post _ _ Hs. destruct (decide (k = key)) as [->|Hne]; [exists []; split; [apply since_touch|by intros ? ?%elem_of_nil]|].
      destruct (since_touch_other k key (qc_order (cache (mem p))) post) as (post' & Hs' & Hp'); [apply Hm|done|done|]. exists post'. split; [done|].
      intros x Hx. destruct (Hp' x Hx) as [?| ->]; auto.
Qed.
(** room for a new key *)
Definition made_room (max : Z) (key : string) (c : queryEmbedCache) : gmap string cacheEntry * list string :=
  match qc_items c !! key with
  | None => if max <=? Z.of_nat (size (qc_items c)) then evictOldestLocked max (qc_order c) (qc_items c) else (qc_items c, qc_order c)
  | Some _ => (qc_items c, qc_order c)
  end.
Lemma made_room_spec key p : cache_inv p ->
  let '(items, order) := made_room (qc_max (cache (mem p))) key (cache (mem p)) in
  matches items order /\ items ⊆ qc_items (cache (mem p)) /\
  (forall e, Z.of_nat (size (<[key := e]> items)) <= qc_max (cache (mem p))) /\
  forall k post, since k (qc_order (cache (mem p))) post ->
    (key ∉ qc_order (cache (mem p)) -> 1 + Z.of_nat (length post) < qc_max (cache (mem p))) -> since k order post.
Proof.
  intros Hi. pose proof (ci_matches p Hi) as Hm. pose proof (ci_max p Hi) as Hmax. pose proof (ci_size p Hi) as Hsize.
  rewrite <- (matches_size _ _ Hm) in Hsize. unfold made_room. destruct (qc_items (cache (mem p)) !! key) as [e0|] eqn:E.
  { split_and!; [done|done| |auto]. intros e. rewrite map_size_insert_Some by (by eexists). done. }
  assert (key ∉ qc_order (cache (mem p))) as Hno by (intros Hin%Hm; rewrite E in Hin; by apply is_Some_None in Hin).
  destruct (Z.leb_spec (qc_max (cache (mem p))) (Z.of_nat (size (qc_items (cache (mem p)))))).
  - pose proof (evict_spec _ _ _ Hmax Hm) as Hev. destruct (evictOldestLocked _ _ _) as [items order]. destruct Hev as (Hm' & Hlen & Hsub & Hkeep).
    split_and!; [done|done| |auto]. intros e. rewrite map_size_insert_None; [rewrite (matches_size _ _ Hm'); lia|].
    destruct (items !! key) as [e'|] eqn:E'; [|done]. eapply lookup_weaken in E'; [|exact Hsub]. congruence.
  - split_and!; [done|done| |auto]. intros e. rewrite map_size_insert_None by done. lia.
Qed.
Lemma inv_put key l now p : cache_inv p -> cache_inv (step (Put key l now) p).
Proof.
  intros Hi. cbn [step]. case_bool_decide as Hl; [|done]. unfold put_at. destruct (slice l (mem p)) as [|x v] eqn:Ev; cbn [length Nat.eqb].
  { apply inv_called; try done; [by apply (ci_matches p)|apply (ci_held p Hi)| |].
    - intros k e Hk. destruct (ci_entry p Hi k e Hk) as (? & ? & _). auto.
    - intros k v t ks post _ _ Hs. exists post. auto. }
  pose proof (made_room_spec key p Hi) as Hroom. unfold made_room in Hroom. cbn [alloc cache].
  set (room := match _ with Some _ => _ | None => _ end) in *. destruct room as [items order]. destruct Hroom as (Hm & Hsub & Hsize & Hkeep).
  set (e := {| vector := next_loc (mem p); expiresAt := now + qc_ttl (cache (mem p)) |}).
  pose proof (matches_touch key e _ _ Hm) as Hm'.
  assert (forall k, k <> key -> forall y v' t', Stored key (x :: v) now = Stored k (y :: v') t' -> False) as Hother by (by intros k Hk y v' t' [= ->]).
  split; cbn [mem held log with_cache cache with_items qc_max qc_ttl qc_items qc_order heap next_loc].
  - apply (ci_max p Hi).
  - exact Hm'.
  - rewrite <- (matches_size _ _ Hm'). apply Hsize.
  - intros k Hk. pose proof (ci_held p Hi k Hk). lia.
  - intros k e' Hk. destruct (decide (k = key)) as [->|Hne].
    + rewrite lookup_insert_eq in Hk. injection Hk as <-. split_and!; cbn; [lia| |].
      * intros Hin%(ci_held p Hi). lia.
      * rewrite String.eqb_refl. exists []. do 3 f_equal; [|lia]. symmetry. apply (slice_fresh (x :: v) (mem p)).
    + rewrite lookup_insert_ne in Hk by done. eapply lookup_weaken in Hk; [|exact Hsub].
      destruct (ci_entry p Hi k e' Hk) as (Hv & Hh & ks & Hs). split_and!; cbn [mem held log with_cache next_loc]; [lia|done|].
      rewrite (last_stored_older k _ _ (Hother k Hne)), Hs. eexists. cbn. do 3 f_equal. symmetry. apply (slice_alloc (x :: v) _ (mem p) Hv).
  - intros k v' t ks Hst Hall Hd. destruct (decide (k = key)) as [->|Hne]; [exists []; split; [apply since_touch|by intros ? ?%elem_of_nil]|].
    destruct (kept_older p k _ v' t ks Hi (Hother k Hne) eq_refl Hst Hall Hd) as (ks0 & post & _ & Hks & Hs & Hp & _). cbn [call_key] in Hks.
    apply not_eq_sym, String.eqb_neq in Hne as Hne'. rewrite Hne' in Hks. subst ks.
    destruct (since_touch_other k key order post) as (post' & Hs' & Hp'); [apply Hm|by apply not_eq_sym| |].
    + apply Hkeep; [done|]. intros Hno. destruct (since_nodup k _ _ (proj1 (ci_matches p Hi)) Hs) as [Hn _].
      enough (Z.of_nat (length (key :: post)) <= different (key :: ks0)) by (cbn [length] in *; lia).
      apply different_subset.
      * apply NoDup_cons. split; [|done]. intros Hin. apply Hno. destruct Hs as [pre ->]. apply elem_of_app. right. by right.
      * intros y [->|Hy]%elem_of_cons; [by left|right; auto].
    + exists post'. split; [done|]. intros y Hy. destruct (Hp' y Hy) as [?| ->]; [right; auto|by left].
Qed.
Lemma inv_started max ttl : cache_inv (started max ttl).
Proof.
  split; cbn; try done.
  - unfold defaultQueryCacheSize. destruct (Z.leb_spec max 0); lia.
  - split; [constructor|]. intros k. rewrite lookup_empty. split; [by intros ?%elem_of_nil|by intros ?%is_Some_None].
  - unfold defaultQueryCacheSize. destruct (Z.leb_spec max 0); lia.
  - by intros l ?%elem_of_nil.
Qed.
Lemma inv_run es p : cache_inv p -> cache_inv (run es p).
Proof.
  revert p. induction es as [|e es IH]; intros p Hi; [done|]. apply IH. destruct e; [by apply inv_make|by apply inv_write|by apply inv_get|by apply inv_put].
Qed.
End invariant.

(** C22. The cache answers what was stored.  In any process that shares the cache,
    whatever its callers write to the slices they hold, a call to [get] answers
    the vector last stored under the key and only before it expires; it does
    answer when the vector has not expired at any call since and fewer other keys
    than the cache's size were used since it was last used; and the cache never
    holds more. *)
Theorem cache_answers_exact {V : Type} max ttl (es : list (event (V := V))) key now :
  let p := run es (started max ttl) in
  let c := cache (mem p) in
  let found := (get_at key now (mem p)).1 in
  let m := (get_at key now (mem p)).2 in
  (forall l, found = Some l -> exists t ks, last_stored key (log p) = Some (slice l m, t, ks) /\ now <= t + qc_ttl c) /\
  (forall v t ks, last_stored key (log p) = Some (v, t, ks) -> now <= t + qc_ttl c -> Forall (fun x => call_time x <= t + qc_ttl c) (log p) ->
     different ks < qc_max c -> exists l, found = Some l /\ slice l m = v) /\
  Z.of_nat (size (qc_items c)) <= qc_max c.
Proof.
  intros p c. cbv zeta. pose proof (inv_run es _ (inv_started max ttl)) as Hi. fold p in Hi. pose proof (ci_matches p Hi) as Hm.
  assert (Z.of_nat (size (qc_items c)) <= qc_max c) as Hsize by (unfold c; rewrite (matches_size _ _ Hm); apply (ci_size p Hi)).
  unfold get_at. fold c. destruct (qc_items c !! key) as [e|] eqn:He.
  2: { split_and!; [done| |done]. intros v t ks Hl Hn Hall Hd. destruct (ci_kept p Hi key v t ks Hl Hall Hd) as (post & Hs%since_in & _).
       apply Hm in Hs. unfold c in He. rewrite He in Hs. by apply is_Some_None in Hs. }
  destruct (ci_entry p Hi key e He) as (Hv & Hh & ks0 & Hl0). fold c in Hl0.
  destruct (Z.ltb_spec (expiresAt e) now) as [Hlt|Hge].
  { split_and!; [done| |done]. intros v t ks Hl Hn. rewrite Hl in Hl0. injection Hl0 as _ -> _. lia. }
  assert (slice (next_loc (mem p)) (alloc (slice (vector e) (mem p)) (mem p)).2 = slice (vector e) (mem p)) as Hs by apply slice_fresh.
  cbn [alloc fst snd]. split_and!; [|intros v t ks Hl; rewrite Hl in Hl0; injection Hl0 as -> _ _; by eexists|done].
  intros l [= <-]. exists (expiresAt e - qc_ttl c), ks0. rewrite Hl0. split; [|lia]. by rewrite <- Hs at 1.
Qed.

(** a cache of two: a is asked for after b was stored, its answer is overwritten by
    the caller, c takes b's place *)
Definition cache_day : list (event (V := Z)) :=
  [Make [1]; Put "a" 0 10; Make [2]; Put "b" 2 20; Get "a" 30; Write 4 [9]; Make [3]; Put "c" 5 40].
Lemma cache_answers_exact_witness :
  let p := run cache_day (started 2 100) in
  (exists l, (get_at "a" 110 (mem p)).1 = Some l /\ slice l (get_at "a" 110 (mem p)).2 = [1]) /\
  (get_at "b" 50 (mem p)).1 = None /\ (get_at "a" 111 (mem p)).1 = None /\ size (qc_items (cache (mem p))) = 2%nat.
Proof.
  destruct (cache_answers_exact 2 100 cache_day "a" 110) as (_ & Hkept & _).
  split_and!; [|vm_compute; reflexivity..]. apply (Hkept [1] 10 ["c"]); [vm_compute; reflexivity|vm_compute; discriminate| |vm_compute; reflexivity].
  repeat (apply Forall_cons; split; [vm_compute; discriminate|]). apply Forall_nil_2.
Defined.
