(* ===== verification/Pii.v ===== *)
(** * Encrypted columns

    [shared/crypto/aes.go] (texts sealed with AES-256-GCM under a fresh nonce, in
    base64), [shared/pii/pii.go] (which texts are encrypted, the fallback to
    columns from before encryption, blind indexes) and the helpers of
    [broadcast/pii_store.go] and [leads/pii_store.go] that pair the two.  base64
    and HMAC-SHA256 are executable; the cipher itself is the class [Gcm], random
    bytes are an argument.  [NormalizeName] and what uses it need Unicode's tables
    and are left out. *)
From S2P Require Import Prelude GoStrings Sha256.

Open Scope string_scope.
Open Scope Z_scope.

Definition string_of_bytes (l : list Z) : string := string_of_list_ascii (map (fun b => ascii_of_N (Z.to_N b)) l).

(** ** base64.StdEncoding *)
Definition b64_alphabet : string := "ABCDEFGHIJKLMNOPQRSTUVWXYZabcdefghijklmnopqrstuvwxyz0123456789+/".
Definition b64_char (v : Z) : ascii := default "A"%char (String.get (Z.to_nat v) b64_alphabet).
Fixpoint index_in (c : ascii) (s : string) (i : Z) : option Z :=
  match s with "" => None | String x r => if Ascii.eqb x c then Some i else index_in c r (i + 1) end.
Definition b64_value (c : ascii) : option Z := index_in c b64_alphabet 0.
Definition pad_char : ascii := "=".
Fixpoint b64_encode (l : list Z) : list ascii :=
  match l with
  | a :: b :: c :: rest =>
      [b64_char (a / 4); b64_char (a mod 4 * 16 + b / 16); b64_char (b mod 16 * 4 + c / 64); b64_char (c mod 64)] ++ b64_encode rest
  | [a; b] => [b64_char (a / 4); b64_char (a mod 4 * 16 + b / 16); b64_char (b mod 16 * 4); pad_char]
  | [a] => [b64_char (a / 4); b64_char (a mod 4 * 16); pad_char; pad_char]
  | [] => []
  end%list.
Definition newline (c : ascii) : bool := Ascii.eqb c "010" || Ascii.eqb c "013".
Fixpoint skip_newlines (l : list ascii) : list ascii :=
  match l with c :: rest => if newline c then skip_newlines rest else l | [] => [] end.
(** [acc]: the sextets of the quantum so far *)
Fixpoint b64_decode (acc : list Z) (l : list ascii) : option (list Z) :=
  match l with
  | [] => match acc with [] => Some [] | _ => None end
  | c :: rest =>
      if newline c then b64_decode acc rest
      else
        match b64_value c with
        | Some v =>
            match acc with
            | [x; y; z] => app [x * 4 + y / 16; y mod 16 * 16 + z / 4; z mod 4 * 64 + v] <$> b64_decode [] rest
            | _ => b64_decode (acc ++ [v]) rest
            end
        | None =>
            if negb (Ascii.eqb c pad_char) then None
            else
              match acc with
              | [x; y] =>
                  match skip_newlines rest with
                  | c2 :: rest2 => if Ascii.eqb c2 pad_char && forallb newline rest2 then Some [x * 4 + y / 16] else None
                  | [] => None
                  end
              | [x; y; z] => if forallb newline rest then Some [x * 4 + y / 16; y mod 16 * 16 + z / 4] else None
              | _ => None
              end
        end
  end%list.
Definition EncodeToString (l : list Z) : string := string_of_list_ascii (b64_encode l).
Definition DecodeString (s : string) : option (list Z) := b64_decode [] (list_ascii_of_string s).
Example b64_ex : map (fun s => EncodeToString (string_bytes s)) ["Man"; "Ma"; "M"; ""; "light work."] = ["TWFu"; "TWE="; "TQ=="; ""; "bGlnaHQgd29yay4="]
  /\ map (fun s => string_of_bytes <$> DecodeString s) ["TWFu"; "TWE="; "TQ="; "TQ==x"; "T"; "TWFuTQ=="] =
     [Some "Man"; Some "Ma"; None; None; None; Some "ManM"].
Proof. split; vm_compute; reflexivity. Qed.

(** ** HMAC-SHA256 *)
Definition hmac_block : nat := 64.
Definition hmac_sha256 (key msg : string) : list Z :=
  let k := if (hmac_block <? String.length key)%nat then Sum256 key else string_bytes key in
  let k := (k ++ repeat 0 (hmac_block - length k))%list in
  let with_pad p m := (map (fun b => Z.lxor b p) k ++ m)%list in
  Sum256 (string_of_bytes (with_pad 0x5c (Sum256 (string_of_bytes (with_pad 0x36 (string_bytes msg)))))).
Example hmac_ex : hex_encode (hmac_sha256 "Jefe" "what do ya want for nothing?") =
  "5bdcc146bf60754e6a042426089575c75a003f089d2739839dec58b964ec3843".
Proof. vm_compute. reflexivity. Qed.

(** ** [shared/crypto/aes.go] *)
(** AES-256-GCM: sealing with a key and a nonce (no additional data) *)
Class Gcm := { gcm_seal : list Z -> list Z -> list Z -> list Z; gcm_open : list Z -> list Z -> list Z -> option (list Z) }.
Definition is_byte (b : Z) : bool := (0 <=? b) && (b <? 256).
Class GcmLaws {G : Gcm} := {
  gcm_opens k n m : forallb is_byte m = true -> gcm_open k n (gcm_seal k n m) = Some m;
  gcm_bytes k n m : forallb is_byte n = true -> forallb is_byte m = true -> forallb is_byte (gcm_seal k n m) = true
}.
Definition NonceSize : nat := 12.
Definition deriveKey (key : string) : list Z := Sum256 key.
(** [aes.NewCipher]: AES-128, -192 or -256 *)
Definition NewCipher (k : list Z) : option error :=
  if existsb (Nat.eqb (length k)) [16; 24; 32]%nat then None else Some (EText "crypto/aes: invalid key size").

Section pii.
Context `{Gcm}.

(** [random]: what [io.ReadFull(rand.Reader, nonce)] fills in *)
Definition aes_Encrypt (random : result (list Z)) (plaintext key : string) : result string :=
  match NewCipher (deriveKey key), random with
  | Some e, _ => Err e
  | None, Err e => Err e
  | None, Ok nonce => Ok (EncodeToString (nonce ++ gcm_seal (deriveKey key) nonce (string_bytes plaintext)))
  end.
Definition aes_Decrypt (cipherB64 key : string) : result string :=
  match DecodeString cipherB64 with
  | None => Err (EText "illegal base64 data")
  | Some data =>
      match NewCipher (deriveKey key) with
      | Some e => Err e
      | None =>
          if (length data <? NonceSize)%nat then Err (EText "ciphertext too short")
          else
            match gcm_open (deriveKey key) (take NonceSize data) (drop NonceSize data) with
            | Some plain => Ok (string_of_bytes plain)
            | None => Err (EText "cipher: message authentication failed")
            end
      end
  end.

(** ** [shared/pii/pii.go] *)
Definition MinKeyLen : nat := 32.
Definition ErrKeyNotConfigured : error := EText "encryption key not configured".
Definition ValidateKey (key : string) : option error :=
  if (String.length (TrimSpace key) <? MinKeyLen)%nat then Some ErrKeyNotConfigured else None.
Definition BlindKey (encKey : string) : string := string_of_bytes (Sum256 (TrimSpace encKey ++ ":blind")).
Definition BlindIndex (normalized encKey : string) : string := hex_encode (hmac_sha256 (BlindKey encKey) normalized).
Definition Encrypt (random : result (list Z)) (plain encKey : string) : result string :=
  match ValidateKey encKey with
  | Some e => Err e
  | None => let plain := TrimSpace plain in if String.eqb plain "" then Ok "" else aes_Encrypt random plain encKey
  end.
Definition Decrypt (enc encKey : string) : result string :=
  if String.eqb (TrimSpace enc) "" then Ok ""
  else match ValidateKey encKey with Some e => Err e | None => aes_Decrypt enc encKey end.
Definition DecryptOrLegacy (enc legacy encKey : string) : result string :=
  if String.eqb (TrimSpace enc) "" then Ok (TrimSpace legacy) else Decrypt enc encKey.
Definition isDigit (c : ascii) : bool := (48 <=? code c)%N && (code c <=? 57)%N.
Definition NormalizePhone (s : string) : string := string_of_list_ascii (List.filter isDigit (list_ascii_of_string s)).
(** U+2022 *)
Definition Placeholder : string := bytes [0xE2; 0x80; 0xA2]%N.

(** ** Columns of leads and broadcasts *)
(** the ciphertext and the blind index of a lead's phone *)
Definition encryptLeadPhone (random : result (list Z)) (secret phone : string) : result (string * string) :=
  let phone := TrimSpace phone in
  if String.eqb phone "" then Ok ("", "")
  else
    let key := TrimSpace secret in
    match Encrypt random phone key with Err e => Err e | Ok enc => Ok (enc, BlindIndex (NormalizePhone phone) key) end.
Definition decryptLeadPhone (enc legacy secret : string) : result string := DecryptOrLegacy enc legacy (TrimSpace secret).
(** [broadcast.normalizePhone] *)
Definition broadcast_normalizePhone (p : string) : string :=
  let p := TrimPrefix (TrimSpace p) "+" in
  if String.eqb p "" then "" else if negb (HasPrefix p "62") && HasPrefix p "0" then "62" ++ drop_bytes 1 p else p.
(** ciphertext, blind index, and what the old column holds *)
Definition encryptBroadcastPhone (random : result (list Z)) (secret phone : string) : result (string * string * string) :=
  let phone := broadcast_normalizePhone phone in
  if String.eqb phone "" then Ok ("", "", "")
  else
    let key := TrimSpace secret in
    match ValidateKey key with
    | Some _ => Ok ("", "", phone)
    | None =>
        match Encrypt random phone key with
        | Err e => Err e
        | Ok enc => Ok (enc, BlindIndex (NormalizePhone phone) key, Placeholder)
        end
    end.
Definition decryptBroadcastPhone (enc legacy secret : string) : result string := DecryptOrLegacy enc legacy (TrimSpace secret).
End pii.

(** ** Base64 decodes what it encodes *)
Definition quiet_char (c : ascii) : bool :=
  negb (newline c) && starts_no_rune space_runes (String c "") && starts_no_rune (map rev_string space_runes) (String c "").
Lemma b64_alphabet_ok : forallb (fun i =>
  let c := b64_char (Z.of_nat i) in bool_decide (b64_value c = Some (Z.of_nat i)) && quiet_char c) (seq 0 64) = true.
Proof. vm_compute. reflexivity. Qed.
Lemma b64_char_ok v : 0 <= v < 64 -> b64_value (b64_char v) = Some v /\ newline (b64_char v) = false /\ quiet_char (b64_char v) = true.
Proof.
  intros Hv. pose proof b64_alphabet_ok as Hall. rewrite forallb_forall in Hall. specialize (Hall (Z.to_nat v)).
  rewrite Z2Nat.id in Hall by lia. destruct (andb_prop _ _ (Hall ltac:(apply in_seq; lia))) as [H1%bool_decide_eq_true H2].
  split; [done|]. split; [|done]. unfold quiet_char in H2. by destruct (newline (b64_char v)).
Qed.
Lemma decode_char acc v rest : 0 <= v < 64 ->
  b64_decode acc (b64_char v :: rest) =
    match acc with
    | [x; y; z] => app [x * 4 + y / 16; y mod 16 * 16 + z / 4; z mod 4 * 64 + v] <$> b64_decode [] rest
    | _ => b64_decode (acc ++ [v])%list rest
    end.
Proof. intros Hv. destruct (b64_char_ok v Hv) as (Hval & Hnl & _). cbn [b64_decode]. by rewrite Hnl, Hval. Qed.
Ltac sextets := Z.to_euclidean_division_equations; lia.
Lemma byte_range b : is_byte b = true -> 0 <= b < 256.
Proof. intros [?%Z.leb_le ?%Z.ltb_lt]%andb_prop. lia. Qed.
Lemma decode_encode l : forallb is_byte l = true -> b64_decode [] (b64_encode l) = Some l.
Proof.
  induction l as [l IH] using (well_founded_induction (well_founded_ltof _ length)). unfold ltof in IH.
  destruct l as [|a [|b [|c rest]]]; [done|..]; cbn [forallb]; rewrite ?andb_true_iff; intros Hl.
  - destruct Hl as [Ha%byte_range _]. cbn [b64_encode app]. rewrite !decode_char by sextets. cbn. do 2 f_equal. sextets.
  - destruct Hl as [Ha%byte_range [Hb%byte_range _]]. cbn [b64_encode app]. rewrite !decode_char by sextets. cbn. do 2 f_equal; [sextets|f_equal; sextets].
  - destruct Hl as (Ha%byte_range & Hb%byte_range & Hc%byte_range & Hr). cbn [b64_encode app]. rewrite !decode_char by sextets.
    rewrite IH by (done || (cbn; lia)). cbn. do 2 f_equal; [sextets|f_equal; [sextets|f_equal; sextets]].
Qed.
Lemma bytes_are_bytes s : forallb is_byte (string_bytes s) = true.
Proof.
  apply forallb_forall. intros b (c & <- & _)%in_map_iff. unfold is_byte. destruct c as [[] [] [] [] [] [] [] []]; reflexivity.
Qed.
Lemma string_of_string_bytes s : string_of_bytes (string_bytes s) = s.
Proof.
  unfold string_of_bytes, string_bytes. rewrite map_map. rewrite (map_ext _ (fun c => c)); [by rewrite map_id, string_of_list_ascii_of_string|].
  intros c. by rewrite N2Z.id, ascii_N_embedding.
Qed.
Lemma DecodeString_Encode l : forallb is_byte l = true -> DecodeString (EncodeToString l) = Some l.
Proof. intros Hl. unfold DecodeString, EncodeToString. rewrite list_ascii_of_string_of_list_ascii. by apply decode_encode. Qed.

(** ** Trimming twice *)
Lemma strip_rune_some runes s rest : strip_rune runes s = Some rest -> exists r, r ∈ runes /\ s = r ++ rest.
Proof.
  induction runes as [|r runes IH]; [done|]. cbn. destruct (strip_prefix r s) as [x|] eqn:E.
  - intros [= <-]. exists r. split; [by left|]. by apply strip_prefix_Some in E.
  - intros (r' & Hr & ->)%IH. exists r'. split; [by right|done].
Qed.
Lemma strip_rune_prefix runes s t rest : strip_rune runes s = Some rest -> is_Some (strip_rune runes (s ++ t)).
Proof.
  intros (r & Hr & ->)%strip_rune_some. rewrite <- string_app_assoc. revert Hr. induction runes as [|x runes IH]; [by intros ?%elem_of_nil|].
  cbn. destruct (strip_prefix x _) as [y|] eqn:E; [by eexists|]. intros [->|Hr]%elem_of_cons; [by rewrite strip_prefix_app in E|auto].
Qed.
Lemma trim_left_stops fuel runes s : Forall (fun r => r <> "") runes -> (String.length s <= fuel)%nat -> strip_rune runes (trim_left fuel runes s) = None.
Proof.
  intros Hr. revert s. induction fuel as [|fuel IH]; intros s Hs; cbn [trim_left].
  - destruct s; [|cbn in Hs; lia]. destruct (strip_rune runes "") as [rest|] eqn:E; [|done]. apply strip_rune_some in E as (r & Hin & E).
    rewrite Forall_forall in Hr. specialize (Hr r Hin). by destruct r.
  - destruct (strip_rune runes s) as [rest|] eqn:E; [|done]. apply IH. apply strip_rune_some in E as (r & Hin & ->).
    rewrite Forall_forall in Hr. specialize (Hr r Hin). destruct r as [|c r]; [done|]. cbn in Hs. rewrite string_length_app in Hs. lia.
Qed.
Lemma trim_left_stopped fuel runes s : strip_rune runes s = None -> trim_left fuel runes s = s.
Proof. destruct fuel; [done|]. cbn. by intros ->. Qed.
Lemma trim_left_suffix fuel runes s : exists p, s = p ++ trim_left fuel runes s.
Proof.
  revert s. induction fuel as [|fuel IH]; intros s; [by exists ""|]. cbn. destruct (strip_rune runes s) as [rest|] eqn:E; [|by exists ""].
  apply strip_rune_some in E as (r & _ & ->). destruct (IH rest) as [p Hp]. exists (r ++ p). by rewrite <- string_app_assoc, <- Hp.
Qed.
Lemma rev_not_empty r : r <> "" -> rev_string r <> "".
Proof. intros Hr E. apply Hr. rewrite <- (rev_string_involutive r), E. done. Qed.
Lemma trim_runes_idemp runes s : Forall (fun r => r <> "") runes -> trim_runes runes (trim_runes runes s) = trim_runes runes s.
Proof.
  intros Hr. unfold trim_runes at 2 3. set (l := trim_left (String.length s) runes s). set (t := trim_left _ _ (rev_string l)).
  assert (Forall (fun r => r <> "") (map rev_string runes)) as Hr'.
  { apply Forall_forall. intros x (r & <- & Hin)%list_elem_of_In%in_map_iff. rewrite Forall_forall in Hr. apply rev_not_empty, Hr, list_elem_of_In, Hin. }
  assert (strip_rune runes l = None) as Hl by (by apply trim_left_stops).
  assert (strip_rune (map rev_string runes) t = None) as Ht.
  { apply trim_left_stops; [done|]. clear. induction l as [|c l IH]; [done|]. rewrite rev_string_cons, string_length_app. cbn. lia. }
  assert (strip_rune runes (rev_string t) = None) as Hl'.
  { destruct (strip_rune runes (rev_string t)) as [rest|] eqn:E; [|done]. destruct (trim_left_suffix (String.length l) (map rev_string runes) (rev_string l)) as [p Hp].
    fold t in Hp. destruct (strip_rune_prefix _ _ (rev_string p) _ E) as [x E']. rewrite <- rev_string_concat, <- Hp, rev_string_involutive, Hl in E'. done. }
  unfold trim_runes. rewrite (trim_left_stopped _ _ _ Hl'), rev_string_involutive. by rewrite (trim_left_stopped _ _ _ Ht).
Qed.
Lemma TrimSpace_idemp s : TrimSpace (TrimSpace s) = TrimSpace s.
Proof. apply trim_runes_idemp. repeat (apply Forall_cons; split; [done|]). apply Forall_nil_2. Qed.

(** ** Lengths *)
Lemma sha_round_length st kw : length st = 8%nat -> length (sha_round st kw) = 8%nat.
Proof. do 9 (destruct st as [|? st]; try done). Qed.
Lemma compress_length st block : length st = 8%nat -> length (compress st block) = 8%nat.
Proof.
  intros Hst. unfold compress. rewrite length_zip_with_l_eq; [done|]. rewrite Hst. symmetry.
  generalize (zip round_constants (rev (schedule 48 (rev block)))). intros ws. revert st Hst. induction ws as [|w ws IH]; intros st Hst; [done|].
  cbn [fold_left]. apply IH. by apply sha_round_length.
Qed.
Lemma Sum256_length s : length (Sum256 s) = 32%nat.
Proof.
  unfold Sum256. set (words := be_words _).
  assert (forall fuel st ws, length st = 8%nat -> length (sha_blocks fuel st ws) = 8%nat) as H8.
  { induction fuel as [|fuel IH]; intros st ws Hst; [done|]. cbn [sha_blocks]. destruct ws; [done|]. apply IH. by apply compress_length. }
  rewrite (flat_map_constant_length (c := 4%nat)).
  - by rewrite H8 by (vm_compute; reflexivity).
  - intros w _. unfold be_bytes. by rewrite length_map, length_rev, length_seq.
Qed.
Lemma NewCipher_ok key : NewCipher (deriveKey key) = None.
Proof. unfold NewCipher, deriveKey. by rewrite Sum256_length. Qed.

(** ** Ciphertexts *)
Lemma encoded_quiet l : forallb is_byte l = true -> forallb quiet_char (b64_encode l) = true.
Proof.
  induction l as [l IH] using (well_founded_induction (well_founded_ltof _ length)). unfold ltof in IH.
  assert (forall v, 0 <= v < 64 -> quiet_char (b64_char v) = true) as Hq by (intros v Hv; by apply b64_char_ok).
  destruct l as [|a [|b [|c rest]]]; [done|..]; cbn [forallb]; rewrite ?andb_true_iff; intros Hl; cbn [b64_encode app forallb].
  - destruct Hl as [Ha%byte_range _]. by rewrite !Hq by sextets.
  - destruct Hl as [Ha%byte_range [Hb%byte_range _]]. by rewrite !Hq by sextets.
  - destruct Hl as (Ha%byte_range & Hb%byte_range & Hc%byte_range & Hr). rewrite !Hq by sextets. cbn [andb]. apply IH; [cbn; lia|done].
Qed.
Lemma quiet_starts l : forallb quiet_char l = true ->
  starts_no_rune space_runes (string_of_list_ascii l) = true /\ starts_no_rune (map rev_string space_runes) (string_of_list_ascii l) = true.
Proof.
  destruct l as [|c l]; [done|]. cbn [forallb]. intros [Hc _]%andb_prop. unfold quiet_char in Hc.
  apply andb_prop in Hc as [[_ H1]%andb_prop H2]. split; [exact H1|exact H2].
Qed.
Lemma rev_string_list l : rev_string (string_of_list_ascii l) = string_of_list_ascii (rev l).
Proof.
  induction l as [|c l IH]; [done|]. cbn [string_of_list_ascii rev]. rewrite rev_string_cons, IH. generalize (rev l). intros r.
  induction r as [|x r IHr]; [done|]. cbn. by rewrite <- IHr.
Qed.
Lemma TrimSpace_Encode l : forallb is_byte l = true -> TrimSpace (EncodeToString l) = EncodeToString l.
Proof.
  intros Hl%encoded_quiet. apply trim_runes_id; [apply (quiet_starts _ Hl)|]. unfold EncodeToString. rewrite rev_string_list.
  apply quiet_starts. rewrite forallb_forall in *. intros c Hc%in_rev. auto.
Qed.

Section roundtrip.
Context {HG : Gcm} {HL : GcmLaws}.
Lemma sealed_opens nonce plain key : length nonce = NonceSize -> forallb is_byte nonce = true ->
  exists enc, aes_Encrypt (Ok nonce) plain key = Ok enc /\ aes_Decrypt enc key = Ok plain /\ TrimSpace enc = enc /\ enc <> "".
Proof.
  intros Hlen Hn. unfold aes_Encrypt, aes_Decrypt. rewrite NewCipher_ok.
  set (data := (nonce ++ gcm_seal (deriveKey key) nonce (string_bytes plain))%list).
  assert (forallb is_byte data = true) as Hd by (unfold data; rewrite forallb_app, Hn; apply gcm_bytes, bytes_are_bytes; done).
  exists (EncodeToString data). rewrite DecodeString_Encode by done.
  assert ((length data <? NonceSize)%nat = false) as -> by (apply Nat.ltb_ge; unfold data; rewrite length_app; lia).
  split_and!; [done| |by apply TrimSpace_Encode|].
  - unfold data. rewrite take_app_length', drop_app_length' by done. by rewrite gcm_opens, string_of_string_bytes by apply bytes_are_bytes.
  - destruct nonce as [|a [|b [|c nonce]]]; done.
Qed.
(** a text under a usable key: the ciphertext and what it decrypts to *)
Lemma Encrypt_spec nonce plain key : length nonce = NonceSize -> forallb is_byte nonce = true -> ValidateKey key = None ->
  exists enc, Encrypt (Ok nonce) plain key = Ok enc /\ Decrypt enc key = Ok (TrimSpace plain) /\
    forall legacy, DecryptOrLegacy enc legacy key = Ok (if String.eqb (TrimSpace plain) "" then TrimSpace legacy else TrimSpace plain).
Proof.
  intros Hlen Hn Hk. unfold Encrypt, DecryptOrLegacy, Decrypt. rewrite Hk. destruct (String.eqb_spec (TrimSpace plain) "") as [E|E].
  - exists "". rewrite E. done.
  - destruct (sealed_opens nonce (TrimSpace plain) key Hlen Hn) as (enc & He & Hd & Ht & Hne). exists enc. rewrite Ht.
    apply String.eqb_neq in Hne. rewrite Hne. done.
Qed.
End roundtrip.

(** C23. Encrypted columns give back what was written.  Whatever the fresh nonce, a
    text encrypted under a usable key is stored so that decrypting it, with
    whatever the column of before encryption still holds, gives the trimmed text;
    so do a lead's phone, and a broadcast's phone in its normal form, the latter
    with or without a usable key. *)
Theorem encryption_roundtrip {HG : Gcm} {HL : GcmLaws} nonce :
  length nonce = NonceSize -> forallb is_byte nonce = true ->
  (forall plain legacy key, ValidateKey key = None -> TrimSpace plain <> "" ->
     exists enc, Encrypt (Ok nonce) plain key = Ok enc /\ Decrypt enc key = Ok (TrimSpace plain) /\
       DecryptOrLegacy enc legacy key = Ok (TrimSpace plain)) /\
  (forall phone legacy secret, ValidateKey (TrimSpace secret) = None -> TrimSpace phone <> "" ->
     exists enc, encryptLeadPhone (Ok nonce) secret phone = Ok (enc, BlindIndex (NormalizePhone (TrimSpace phone)) (TrimSpace secret)) /\
       decryptLeadPhone enc legacy secret = Ok (TrimSpace phone)) /\
  (forall phone secret, let normal := broadcast_normalizePhone phone in TrimSpace normal <> "" ->
     exists enc idx store, encryptBroadcastPhone (Ok nonce) secret phone = Ok (enc, idx, store) /\
       decryptBroadcastPhone enc store secret = Ok (TrimSpace normal)).
Proof.
  intros Hlen Hn. split_and!.
  - intros plain legacy key Hk Hne%String.eqb_neq. destruct (Encrypt_spec nonce plain key Hlen Hn Hk) as (enc & He & Hd & Hl). exists enc.
    rewrite Hl, Hne. done.
  - intros phone legacy secret Hk Hne%String.eqb_neq. destruct (Encrypt_spec nonce (TrimSpace phone) (TrimSpace secret) Hlen Hn Hk) as (enc & He & Hd & Hl).
    exists enc. unfold encryptLeadPhone, decryptLeadPhone. by rewrite Hl, Hne, He, !TrimSpace_idemp, Hne.
  - intros phone secret normal Hne. assert (normal <> "") as Hne' by (by intros E; rewrite E in Hne). apply String.eqb_neq in Hne, Hne'.
    unfold encryptBroadcastPhone, decryptBroadcastPhone. fold normal. rewrite Hne'. destruct (ValidateKey (TrimSpace secret)) eqn:Hk.
    + by exists "", "", normal.
    + destruct (Encrypt_spec nonce normal (TrimSpace secret) Hlen Hn Hk) as (enc & He & Hd & Hl). rewrite He.
      exists enc, (BlindIndex (NormalizePhone normal) (TrimSpace secret)), Placeholder. by rewrite Hl, Hne.
Qed.
(** a cipher that adds a byte, a key and a phone *)
Definition sample_gcm : Gcm := {| gcm_seal := fun _ _ m => 7 :: m; gcm_open := fun _ _ c => match c with 7 :: m => Some m | _ => None end |}.
Lemma sample_gcm_laws : @GcmLaws sample_gcm.
Proof. split; [done|]. intros k n m _ Hm. exact Hm. Qed.
Definition sample_nonce : list Z := [1; 2; 3; 4; 5; 6; 7; 8; 9; 10; 11; 255].
Definition sample_secret : string := " 0123456789abcdef0123456789abcdef ".
Lemma encryption_roundtrip_witness :
  exists enc idx store, encryptBroadcastPhone (H := sample_gcm) (Ok sample_nonce) sample_secret " +08123 " = Ok (enc, idx, store) /\
    decryptBroadcastPhone (H := sample_gcm) enc store sample_secret = Ok "628123".
Proof.
  destruct (encryption_roundtrip (HG := sample_gcm) (HL := sample_gcm_laws) sample_nonce) as (_ & _ & Hb); [reflexivity|reflexivity|].
  apply (Hb " +08123 " sample_secret). vm_compute. discriminate.
Defined.
