(* ===== verification/Sha512.v ===== *)
(** * SHA-512

    Go's [crypto/sha512] as FIPS 180-4 defines it, executable.  The payment
    gateway's notifications are signed with it. *)
From S2P Require Import Prelude GoStrings Sha256.

Open Scope string_scope.
Open Scope Z_scope.

Definition w64 (x : Z) : Z := Z.land x 0xffffffffffffffff.
Definition rotr64 (n x : Z) : Z := w64 (Z.lor (Z.shiftr x n) (Z.shiftl x (64 - n))).
Definition add64 (x y : Z) : Z := w64 (x + y).

Definition big64_sigma0 (x : Z) : Z := Z.lxor (rotr64 28 x) (Z.lxor (rotr64 34 x) (rotr64 39 x)).
Definition big64_sigma1 (x : Z) : Z := Z.lxor (rotr64 14 x) (Z.lxor (rotr64 18 x) (rotr64 41 x)).
Definition small64_sigma0 (x : Z) : Z := Z.lxor (rotr64 1 x) (Z.lxor (rotr64 8 x) (Z.shiftr x 7)).
Definition small64_sigma1 (x : Z) : Z := Z.lxor (rotr64 19 x) (Z.lxor (rotr64 61 x) (Z.shiftr x 6)).
Definition choose64 (x y z : Z) : Z := Z.lxor (Z.land x y) (Z.land (Z.lxor x 0xffffffffffffffff) z).

(** 64 bits of the cube roots of the first 80 primes, of the square roots of
    the first 8 *)
Definition primes80 : list Z :=
  Eval vm_compute in map Z.of_nat (List.filter is_prime (seq 2 408)).
Definition round_constants64 : list Z :=
  Eval vm_compute in map (fun p => w64 (cube_root 68 0 (p * 2 ^ 192))) primes80.
Definition initial_hash64 : list Z :=
  Eval vm_compute in map (fun p => w64 (Z.sqrt (p * 2 ^ 128))) (firstn 8 primes80).

Fixpoint schedule64 (n : nat) (rev_w : list Z) : list Z :=
  match n with
  | O => rev_w
  | S n' =>
      let w i := nth i rev_w 0 in
      schedule64 n'
        (add64 (add64 (small64_sigma1 (w 1%nat)) (w 6%nat))
               (add64 (small64_sigma0 (w 14%nat)) (w 15%nat)) :: rev_w)
  end.
Definition sha64_round (st : list Z) (kw : Z * Z) : list Z :=
  match st with
  | [a; b; c; d; e; f; g; h] =>
      let t1 := add64 (add64 (add64 h (big64_sigma1 e)) (add64 (choose64 e f g) kw.1)) kw.2 in
      let t2 := add64 (big64_sigma0 a) (majority a b c) in
      [add64 t1 t2; a; b; c; add64 d t1; e; f; g]
  | _ => st
  end.
Definition compress64 (st block : list Z) : list Z :=
  let w := rev (schedule64 64 (rev block)) in
  zip_with add64 st (fold_left sha64_round (zip round_constants64 w) st).

Fixpoint be_words64 (l : list Z) : list Z :=
  match l with
  | a :: b :: c :: d :: e :: f :: g :: h :: l' =>
      ((a * 0x1000000 + b * 0x10000 + c * 0x100 + d) * 0x100000000
       + (e * 0x1000000 + f * 0x10000 + g * 0x100 + h)) :: be_words64 l'
  | _ => []
  end.
Definition sha64_pad (m : list Z) : list Z :=
  let len := Z.of_nat (length m) in
  m ++ [128] ++ repeat 0 (Z.to_nat ((111 - len) mod 128)) ++ be_bytes 16 (8 * len).
Fixpoint sha64_blocks (fuel : nat) (st words : list Z) : list Z :=
  match fuel with
  | O => st
  | S fuel' =>
      match words with
      | [] => st
      | _ => sha64_blocks fuel' (compress64 st (firstn 16 words)) (skipn 16 words)
      end
  end.

(** [sha512.Sum512] as a list of 64 bytes *)
Definition Sum512 (s : string) : list Z :=
  let words := be_words64 (sha64_pad (string_bytes s)) in
  flat_map (be_bytes 8) (sha64_blocks (length words) initial_hash64 words).

Example Sum512_abc :
  hex_encode (Sum512 "abc") = "ddaf35a193617abacc417349ae20413112e6fa4e89a97ea20a9eeee64b55d39a2192992a274fc1a836ba3c23a3feebbd454d4423643ce80e2a9ac94fa54ca49f".
Proof. vm_compute. reflexivity. Qed.
