(* ===== verification/Dates.v ===== *)
(** * Calendar dates

    What Go's [time.Time] shows of a clock reading in the server's zone: the
    civil date of a time, and the layouts the program formats it with.  Times
    are nanoseconds since January 1 of year 1 (Go's zero time). *)
From S2P Require Import Prelude GoStrings AdminSession DaySlots.

Open Scope string_scope.
Open Scope Z_scope.

Definition is_leap (y : Z) : bool := ((y mod 4 =? 0) && negb (y mod 100 =? 0)) || (y mod 400 =? 0).
(** days before January 1 of year [y], from January 1 of year 1 *)
Definition days_before_year (y : Z) : Z :=
  let n := y - 1 in 365 * n + n / 4 - n / 100 + n / 400.
Definition month_lengths (y : Z) : list Z :=
  [31; if is_leap y then 29 else 28; 31; 30; 31; 30; 31; 31; 30; 31; 30; 31].
(** the year of a day: the estimate is never too small and at most one too large *)
Definition year_of_day (d : Z) : Z :=
  let y := 400 * d / 146097 + 2 in
  if d <? days_before_year y then
    if d <? days_before_year (y - 1) then y - 2 else y - 1
  else y.
Fixpoint month_day (m : Z) (lengths : list Z) (d : Z) : Z * Z :=
  match lengths with
  | [] => (m, d + 1)
  | n :: rest => if d <? n then (m, d + 1) else month_day (m + 1) rest (d - n)
  end.
Record date := { year : Z; month : Z; day : Z }.
(** [d] days after January 1 of year 1 *)
Definition date_of_day (d : Z) : date :=
  let y := year_of_day d in
  let '(m, k) := month_day 1 (month_lengths y) (d - days_before_year y) in
  {| year := y; month := m; day := k |}.
Definition day_of_time (t : Z) : Z := t / Day.
(** [t.Date()] *)
Definition date_of (t : Z) : date := date_of_day (day_of_time t).

Definition four_digits (n : Z) : string :=
  String (digit (n / 1000)) (String (digit (n / 100 mod 10)) (two_digits (n mod 100))).
(** [Format("2006-01")], [Format("2006-01-02")], [Format("20060102")], for
    years up to 9999 *)
Definition format_month (t : Z) : string := let d := date_of t in four_digits (year d) ++ "-" ++ two_digits (month d).
Definition format_date (t : Z) : string :=
  let d := date_of t in four_digits (year d) ++ "-" ++ two_digits (month d) ++ "-" ++ two_digits (day d).
Definition format_compact (t : Z) : string :=
  let d := date_of t in four_digits (year d) ++ two_digits (month d) ++ two_digits (day d).
(** [t.UnixMilli()] *)
Definition UnixMilli (t : Z) : Z := t / 1000000 - unix_epoch * 1000.

Example format_date_ex : map (fun s => format_date (time_Unix s)) [0; 951782400; 1735603200; 4107542399]
  = ["1970-01-01"; "2000-02-29"; "2024-12-31"; "2100-02-28"].
Proof. vm_compute. reflexivity. Qed.
Example format_compact_ex : format_compact (time_Unix 1735603200) = "20241231".
Proof. vm_compute. reflexivity. Qed.
