(* ===== verification/Billing.v ===== *)
(** * Billing, quotas and entitlements

    Models [billing/billing.go] (plans, checkouts, activation of paid
    invoices), [usage/usage.go] (usage counters and quota checks) and
    [shared/entitlement/entitlement.go] over the tenants' tables, one schema
    per tenant, through PgTx.v (every statement here commits on its own).
    [now] is the reading of the clock of a call, the same for Go and the
    database; random strings are arguments.  An id that is not a UUID makes its
    statement fail.  Listings are not modelled. *)
From S2P Require Import Prelude GoStrings AdminSession PgTx DaySlots Dates.

Open Scope string_scope.
Open Scope Z_scope.

(** ** Tables *)
Record subscription_row := {
  sb_id : string; sb_plan : string; sb_name : string; sb_trial : bool; sb_trial_ends : option Z;
  sb_status : string; sb_provider : option string; sb_created : Z; sb_updated : Z
}.
Record invoice_row := {
  iv_id : string; iv_no : string; iv_plan : string; iv_name : string; iv_amount : Z; iv_status : string;
  iv_issued : Z; iv_paid : option Z; iv_created : Z
}.
Record topup_row := {
  tu_invoice : string; tu_code : string; tu_event : string; tu_period : string; tu_quantity : Z;
  tu_amount : Z; tu_status : string
}.
Record payment_row := {
  pt_order : string; pt_transaction : string; pt_invoice : option string; pt_amount : Z;
  pt_description : string; pt_status : string; pt_qr : string; pt_expires : Z; pt_paid : option Z; pt_id : string
}.
Record order_row := { od_id : string; od_status : string; od_payment : option string }.
Record usage_row := { ue_type : string; ue_quantity : Z; ue_at : Z }.
Record tenant_tables := {
  subscriptions : list subscription_row; invoices : list invoice_row; topups : list topup_row;
  payments : list payment_row; orders : list order_row;
  usage_events : list usage_row; usage_aggregates : gmap (string * string) Z;   (** by event type, period *)
  fresh_ids : list string
}.
Record billing_db := { schemas : gmap string tenant_tables; webhook_map : list (string * string) }.

Definition set_subscriptions l t : tenant_tables :=
  {| subscriptions := l; invoices := invoices t; topups := topups t; payments := payments t; orders := orders t;
     usage_events := usage_events t; usage_aggregates := usage_aggregates t; fresh_ids := fresh_ids t |}.
Definition set_invoices l t : tenant_tables :=
  {| subscriptions := subscriptions t; invoices := l; topups := topups t; payments := payments t; orders := orders t;
     usage_events := usage_events t; usage_aggregates := usage_aggregates t; fresh_ids := fresh_ids t |}.
Definition set_topups l t : tenant_tables :=
  {| subscriptions := subscriptions t; invoices := invoices t; topups := l; payments := payments t; orders := orders t;
     usage_events := usage_events t; usage_aggregates := usage_aggregates t; fresh_ids := fresh_ids t |}.
Definition set_payments l t : tenant_tables :=
  {| subscriptions := subscriptions t; invoices := invoices t; topups := topups t; payments := l; orders := orders t;
     usage_events := usage_events t; usage_aggregates := usage_aggregates t; fresh_ids := fresh_ids t |}.
Definition set_orders l t : tenant_tables :=
  {| subscriptions := subscriptions t; invoices := invoices t; topups := topups t; payments := payments t; orders := l;
     usage_events := usage_events t; usage_aggregates := usage_aggregates t; fresh_ids := fresh_ids t |}.
Definition set_usage l m t : tenant_tables :=
  {| subscriptions := subscriptions t; invoices := invoices t; topups := topups t; payments := payments t; orders := orders t;
     usage_events := l; usage_aggregates := m; fresh_ids := fresh_ids t |}.
(** what [gen_random_uuid] draws *)
Definition fresh_id (t : tenant_tables) : string := default "" (head (fresh_ids t)).
Definition drop_id (t : tenant_tables) : tenant_tables :=
  {| subscriptions := subscriptions t; invoices := invoices t; topups := topups t; payments := payments t; orders := orders t;
     usage_events := usage_events t; usage_aggregates := usage_aggregates t; fresh_ids := tail (fresh_ids t) |}.

Abbreviation bill A := (prog (pg billing_db) A).
Definition NotFoundErr (msg : string) : error := ECode NotFound msg.
Definition no_rows : error := EText "sql: no rows in result set".
Definition no_schema (schema : string) : error := EText ("relation does not exist in " ++ schema).

(** one statement on the tables of a schema *)
Definition on_schema {A} (schema : string) (f : tenant_tables -> result A * tenant_tables) (d : billing_db)
  : result A * billing_db :=
  match schemas d !! schema with
  | None => (Err (no_schema schema), d)
  | Some t =>
      match f t with
      | (Ok a, t') => (Ok a, {| schemas := <[schema := t']> (schemas d); webhook_map := webhook_map d |})
      | (Err e, _) => (Err e, d)
      end
  end.
Definition tstmt {A} (schema : string) (f : tenant_tables -> result A * tenant_tables) : bill A := stmt (on_schema schema f).
Definition tread {A} (schema : string) (f : tenant_tables -> A) : bill A := tstmt schema (fun t => (Ok (f t), t)).
Definition texec (schema : string) (f : tenant_tables -> tenant_tables) : bill unit := tstmt schema (fun t => (Ok tt, f t)).
(** [QueryRow(…).Scan] of at most one row *)
Definition query_row {A} (schema : string) (f : tenant_tables -> option A) : bill A :=
  tstmt schema (fun t => match f t with Some a => (Ok a, t) | None => (Err no_rows, t) end).

(** ORDER BY key DESC LIMIT 1 *)
Fixpoint latest {A} (key : A -> Z) (l : list A) : option A :=
  match l with
  | [] => None
  | x :: l' => match latest key l' with Some y => if key x <? key y then Some y else Some x | None => Some x end
  end.

(** ** Plans *)
Record PlanLimits := {
  Channels : Z; Seats : Z; AIConversations : Z; AITokens : Z; BroadcastContacts : Z; StorageMB : Z; WorkflowExecs : Z
}.
Record Plan := { PL_Code : string; PL_Name : string; PL_AmountIDR : Z; PL_Limits : PlanLimits }.
Record TopUpOption := {
  TO_Code : string; TO_Name : string; TO_AmountIDR : Z; TO_AITokens : Z; TO_AIConversations : Z; TO_Period : string
}.
Definition limits (ch se conv tok bc mb wf : Z) : PlanLimits :=
  {| Channels := ch; Seats := se; AIConversations := conv; AITokens := tok; BroadcastContacts := bc;
     StorageMB := mb; WorkflowExecs := wf |}.
Definition PlanCatalog : list (string * Plan) :=
  [("starter", {| PL_Code := "starter"; PL_Name := "Starter"; PL_AmountIDR := 299000;
      PL_Limits := limits 1 1 1500 2000000 0 256 50 |});
   ("business", {| PL_Code := "business"; PL_Name := "Business"; PL_AmountIDR := 799000;
      PL_Limits := limits 2 3 6000 8000000 500 2048 500 |});
   ("basic", {| PL_Code := "basic"; PL_Name := "Business"; PL_AmountIDR := 799000;
      PL_Limits := limits 2 3 6000 8000000 500 2048 500 |});
   ("pro", {| PL_Code := "pro"; PL_Name := "Pro"; PL_AmountIDR := 1999000;
      PL_Limits := limits 10 10 20000 30000000 10000 10240 5000 |})].
Definition trialLimits : PlanLimits := limits 1 1 60 100000 20 50 8.
Definition sellablePlanOrder : list string := ["starter"; "business"; "pro"].
Definition aiTopUpOptions : list TopUpOption :=
  [{| TO_Code := "topup_ai_20000"; TO_Name := "AI Top-up 20rb"; TO_AmountIDR := 20000; TO_AITokens := 133000;
      TO_AIConversations := 59; TO_Period := "" |};
   {| TO_Code := "topup_ai_30000"; TO_Name := "AI Top-up 30rb"; TO_AmountIDR := 30000; TO_AITokens := 200000;
      TO_AIConversations := 88; TO_Period := "" |}].

(** a Go map literal read by key *)
Fixpoint lookup_key {A} (k : string) (l : list (string * A)) : option A :=
  match l with [] => None | (x, a) :: l' => if String.eqb x k then Some a else lookup_key k l' end.
Definition normalizePlanCode (code : string) : string := if String.eqb code "basic" then "business" else code.
Definition resolvePlan (code : string) : option Plan :=
  let code := normalizePlanCode code in
  if String.eqb code "trial" then
    Some {| PL_Code := "trial"; PL_Name := "Trial"; PL_AmountIDR := 0; PL_Limits := trialLimits |}
  else
    match lookup_key code PlanCatalog with
    | Some p => Some p
    | None => if String.eqb code "basic" then lookup_key "basic" PlanCatalog else None
    end.
Definition listSellablePlans : list Plan := omap (fun code => lookup_key code PlanCatalog) sellablePlanOrder.
Definition with_period (period : string) (o : TopUpOption) : TopUpOption :=
  {| TO_Code := TO_Code o; TO_Name := TO_Name o; TO_AmountIDR := TO_AmountIDR o; TO_AITokens := TO_AITokens o;
     TO_AIConversations := TO_AIConversations o; TO_Period := period |}.
Definition listTopUpOptions (period : string) : list TopUpOption := map (with_period period) aiTopUpOptions.
Definition resolveTopUp (code : string) : option TopUpOption :=
  List.find (fun o => String.eqb (TO_Code o) code) aiTopUpOptions.
Definition GetPlanLimits (planCode : string) : PlanLimits :=
  if String.eqb planCode "trial" then trialLimits
  else match resolvePlan planCode with
       | Some p => PL_Limits p
       | None => match lookup_key "starter" PlanCatalog with Some p => PL_Limits p | None => trialLimits end
       end.

(** ** Handlers of [billing.go] *)
Definition name_byte (first : bool) (c : ascii) : bool :=
  ((97 <=? code c) && (code c <=? 122) || (code c =? 95) || (negb first && (48 <=? code c) && (code c <=? 57)))%N.
Definition schemaNameRe (s : string) : bool :=
  match list_ascii_of_string s with
  | [] => false
  | c :: rest => name_byte true c && forallb (name_byte false) rest && (length rest <=? 62)%nat
  end.
(** [tenant.PrepareTenantAccess]; the lazy migration it starts is not modelled *)
Definition ValidateTenantSchemaName (schema : string) : option error :=
  if negb (schemaNameRe schema) then Some (EText ("invalid schema name: " ++ schema))
  else if String.eqb schema "public" then Some (EText ("tenant schema " ++ schema ++ " is not provisioned"))
  else None.
Definition openTenantScope (schema : string) : bill unit :=
  if String.eqb schema "" then throw (ECode PermissionDenied "tenant context required")
  else match ValidateTenantSchemaName schema with Some e => throw e | None => ret tt end.

Definition authUser (u : option AuthUser) : result AuthUser :=
  match u with
  | None => Err (ECode Unauthenticated "not authenticated")
  | Some user =>
      if negb (HasEffectiveTenantContext u) then Err (ECode PermissionDenied "tenant context required") else Ok user
  end.
Definition owner_user (u : option AuthUser) : result AuthUser :=
  match authUser u with
  | Err e => Err e
  | Ok user => if negb (CanPerformOwnerActions u) then Err (ECode PermissionDenied "owner only") else Ok user
  end.

Definition trial_subscription (now : Z) (id : string) : subscription_row :=
  {| sb_id := id; sb_plan := "starter"; sb_name := "Starter"; sb_trial := true;
     sb_trial_ends := Some (now + 7 * 24 * Hour); sb_status := "active"; sb_provider := None;
     sb_created := now; sb_updated := now |}.
Definition newest_subscription (t : tenant_tables) : option subscription_row := latest sb_created (subscriptions t).
Definition insert_trial (now : Z) (t : tenant_tables) : result subscription_row * tenant_tables :=
  let s := trial_subscription now (fresh_id t) in
  (Ok s, drop_id (set_subscriptions (subscriptions t ++ [s])%list t)).
Definition ensureSubscription (schema : string) (now : Z) : bill subscription_row :=
  let! found := tread schema newest_subscription in
  match found with
  | Some s => ret s
  | None => tstmt schema (insert_trial now)
  end.

Definition map_invoices (f : invoice_row -> bool) (g : invoice_row -> invoice_row) (t : tenant_tables) : tenant_tables :=
  set_invoices (map (fun i => if f i then g i else i) (invoices t)) t.
Definition set_iv_status (st : string) (i : invoice_row) : invoice_row :=
  {| iv_id := iv_id i; iv_no := iv_no i; iv_plan := iv_plan i; iv_name := iv_name i; iv_amount := iv_amount i;
     iv_status := st; iv_issued := iv_issued i; iv_paid := iv_paid i; iv_created := iv_created i |}.
Definition is_pending_invoice (i : invoice_row) : bool := String.eqb (iv_status i) "pending".
(** INSERT INTO invoice …; invoice_no is unique *)
Definition insert_invoice (no plan name : string) (amount now : Z) (t : tenant_tables) : result invoice_row * tenant_tables :=
  if existsb (fun i => String.eqb (iv_no i) no) (invoices t) then
    (Err (EText "duplicate key value violates unique constraint invoice_invoice_no_key"), t)
  else
    let i := {| iv_id := fresh_id t; iv_no := no; iv_plan := plan; iv_name := name; iv_amount := amount;
                iv_status := "pending"; iv_issued := now; iv_paid := None; iv_created := now |} in
    (Ok i, drop_id (set_invoices (invoices t ++ [i])%list t)).

(** [rnd]: what [randStr] draws *)
Definition SelectPlan (u : option AuthUser) (planCode rnd : string) (now : Z) : bill (subscription_row * invoice_row) :=
  match owner_user u with
  | Err e => throw e
  | Ok user =>
      match resolvePlan planCode with
      | None => throw (ECode InvalidArgument "plan tidak valid")
      | Some plan =>
          if PL_AmountIDR plan <=? 0 then throw (ECode InvalidArgument "paket gratis tidak perlu checkout")
          else
            let schema := TenantSchema user in
            openTenantScope schema;!
            let! sub := ensureSubscription schema now in
            ignore (texec schema (map_invoices is_pending_invoice (set_iv_status "void")));!
            let! inv := tstmt schema (insert_invoice ("INV-" ++ format_compact now ++ "-" ++ rnd)
                                        (PL_Code plan) (PL_Name plan) (PL_AmountIDR plan) now) in
            ret (sub, inv)
      end
  end.
Definition CreateTopUpCheckout (u : option AuthUser) (topup rnd : string) (now : Z) : bill (TopUpOption * invoice_row) :=
  match owner_user u with
  | Err e => throw e
  | Ok user =>
      match resolveTopUp topup with
      | None => throw (ECode InvalidArgument "top-up tidak valid")
      | Some opt =>
          let opt := with_period (format_month now) opt in
          let schema := TenantSchema user in
          openTenantScope schema;!
          let! hasPending := tread schema (fun t => existsb is_pending_invoice (invoices t)) in
          if hasPending then throw (ECode FailedPrecondition "selesaikan invoice pending terlebih dahulu")
          else
            let! inv := tstmt schema (insert_invoice ("TOPUP-" ++ format_compact now ++ "-" ++ rnd)
                                        (TO_Code opt) (TO_Name opt) (TO_AmountIDR opt) now) in
            ret (opt, inv)
      end
  end.

(** [INSERT INTO quota_topup …] *)
Definition topup_entry (invoiceID period : string) (o : TopUpOption) (eventType : string) (quantity : Z) : topup_row :=
  {| tu_invoice := invoiceID; tu_code := TO_Code o; tu_event := eventType; tu_period := period;
     tu_quantity := quantity; tu_amount := TO_AmountIDR o; tu_status := "paid" |}.
Definition add_topup (r : topup_row) (t : tenant_tables) : tenant_tables := set_topups (topups t ++ [r])%list t.
Fixpoint insert_topups (schema invoiceID period : string) (o : TopUpOption) (entries : list (string * Z)) : bill unit :=
  match entries with
  | [] => ret tt
  | (eventType, quantity) :: rest =>
      if quantity <=? 0 then insert_topups schema invoiceID period o rest
      else
        texec schema (add_topup (topup_entry invoiceID period o eventType quantity));!
        insert_topups schema invoiceID period o rest
  end.
Definition has_paid_topup (invoiceID : string) (t : tenant_tables) : bool :=
  existsb (fun r => String.eqb (tu_invoice r) invoiceID && String.eqb (tu_status r) "paid") (topups t).
Definition applyPaidTopUp (schema : string) (inv : invoice_row) (o : TopUpOption) (now : Z) : bill unit :=
  let period := format_month now in
  let! exists_ := tread schema (has_paid_topup (iv_id inv)) in
  if (exists_ : bool) then ret tt
  else insert_topups schema (iv_id inv) period o [("ai_token", TO_AITokens o); ("ai_conversation", TO_AIConversations o)].

Definition find_invoice (id : string) (t : tenant_tables) : option invoice_row :=
  List.find (fun i => String.eqb (iv_id i) id) (invoices t).
Definition payable (i : invoice_row) : bool := String.eqb (iv_status i) "pending" || String.eqb (iv_status i) "paid".
Definition set_iv_paid (now : Z) (i : invoice_row) : invoice_row :=
  {| iv_id := iv_id i; iv_no := iv_no i; iv_plan := iv_plan i; iv_name := iv_name i; iv_amount := iv_amount i;
     iv_status := "paid"; iv_issued := now; iv_paid := Some (default now (iv_paid i)); iv_created := iv_created i |}.
Definition mark_invoice_paid (id : string) (now : Z) : tenant_tables -> tenant_tables :=
  map_invoices (fun i => String.eqb (iv_id i) id && payable i) (set_iv_paid now).
Definition set_plan (plan : Plan) (now : Z) (s : subscription_row) : subscription_row :=
  {| sb_id := sb_id s; sb_plan := PL_Code plan; sb_name := PL_Name plan; sb_trial := false; sb_trial_ends := None;
     sb_status := sb_status s; sb_provider := Some "midtrans"; sb_created := sb_created s; sb_updated := now |}.
Definition update_subscription (id : string) (f : subscription_row -> subscription_row) (t : tenant_tables) : tenant_tables :=
  set_subscriptions (map (fun s => if String.eqb (sb_id s) id then f s else s) (subscriptions t)) t.

Definition ActivatePaidInvoice (schema invoiceID : string) (now : Z) : bill unit :=
  if String.eqb schema "" || String.eqb invoiceID "" then
    throw (ECode InvalidArgument "tenantSchema and invoiceId required")
  else
    openTenantScope schema;!
    let! found := tread schema (find_invoice invoiceID) in
    match found with
    | None => throw (ECode NotFound "invoice tidak ditemukan")
    | Some inv =>
        if negb (payable inv) then throw (ECode FailedPrecondition "invoice tidak bisa diaktifkan")
        else
          match resolveTopUp (iv_plan inv) with
          | Some topUp =>
              applyPaidTopUp schema inv topUp now;!
              texec schema (mark_invoice_paid (iv_id inv) now)
          | None =>
              match resolvePlan (iv_plan inv) with
              | None => throw (ECode Internal "plan invoice tidak valid")
              | Some plan =>
                  let! sub := ensureSubscription schema now in
                  texec schema (update_subscription (sb_id sub) (set_plan plan now));!
                  texec schema (mark_invoice_paid (iv_id inv) now)
              end
          end
    end.

(** ORDER BY key DESC, kept in table order among equals *)
Fixpoint insert_desc {A} (key : A -> Z) (x : A) (l : list A) : list A :=
  match l with [] => [x] | y :: l' => if key y <? key x then x :: l else y :: insert_desc key x l' end.
Definition order_desc {A} (key : A -> Z) (l : list A) : list A := fold_left (fun acc x => insert_desc key x acc) l [].
Definition invoice_time (i : invoice_row) : Z := default (iv_issued i) (iv_paid i).
Record OverviewResponse := {
  OR_Subscription : subscription_row; OR_Plans : list Plan; OR_TopUpOptions : list TopUpOption;
  OR_Invoices : list invoice_row; OR_Pending : option invoice_row
}.
Definition Overview (u : option AuthUser) (now : Z) : bill OverviewResponse :=
  match authUser u with
  | Err e => throw e
  | Ok user =>
      let schema := TenantSchema user in
      openTenantScope schema;!
      let! sub := ensureSubscription schema now in
      let! invs := tread schema (fun t => take 20 (order_desc invoice_time
        (List.filter (fun i => String.eqb (iv_status i) "paid" || String.eqb (iv_status i) "issued") (invoices t)))) in
      let! pending := tread schema (fun t => latest iv_issued (List.filter is_pending_invoice (invoices t))) in
      ret {| OR_Subscription := sub; OR_Plans := listSellablePlans; OR_TopUpOptions := listTopUpOptions (format_month now);
             OR_Invoices := invs; OR_Pending := pending |}
  end.
Definition ListInvoices (u : option AuthUser) : bill (list invoice_row) :=
  match authUser u with
  | Err e => throw e
  | Ok user =>
      let schema := TenantSchema user in
      openTenantScope schema;!
      tread schema (fun t => take 100 (order_desc iv_issued (invoices t)))
  end.

(** ** Usage *)
Definition quotas_of (conv tok bc bytes seats wf : Z) : list (string * Z) :=
  [("ai_conversation", conv); ("ai_token", tok); ("broadcast_contact", bc); ("storage_byte", bytes);
   ("admin_seat", seats); ("workflow_exec", wf)].
Definition planQuotas : list (string * list (string * Z)) :=
  [("trial", quotas_of 60 100000 20 52428800 1 8);
   ("starter", quotas_of 1500 2000000 0 268435456 1 50);
   ("business", quotas_of 6000 8000000 500 2147483648 3 500);
   ("basic", quotas_of 6000 8000000 500 2147483648 3 500);
   ("pro", quotas_of 20000 30000000 10000 10737418240 10 5000)].
Definition plan_quotas (plan : string) : list (string * Z) :=
  match lookup_key plan planQuotas with
  | Some q => q
  | None => default [] (lookup_key "starter" planQuotas)
  end.
Definition schema_byte (c : ascii) : bool :=
  (((97 <=? code c) && (code c <=? 122)) || ((65 <=? code c) && (code c <=? 90))
   || ((48 <=? code c) && (code c <=? 57)) || (code c =? 95))%N.
Definition validateSchema (schema : string) : option error :=
  if forallb schema_byte (list_ascii_of_string schema) then None
  else Some (ECode InvalidArgument "invalid tenant schema").

Definition active_subscription (t : tenant_tables) : option subscription_row :=
  latest sb_updated (List.filter (fun s => String.eqb (sb_status s) "active") (subscriptions t)).
Definition getTenantPlan (schema : string) : bill string :=
  let! r := attempt (query_row schema active_subscription) in
  match r with
  | Err _ => ret "trial"
  | Ok s => ret (if String.eqb (sb_plan s) "" || sb_trial s then "trial" else normalizePlanCode (sb_plan s))
  end.
Definition sum_of {A} (f : A -> Z) (l : list A) : Z := fold_right (fun x n => f x + n) 0 l.
Definition topup_sum (eventType period : string) (t : tenant_tables) : Z :=
  sum_of tu_quantity (List.filter (fun r => String.eqb (tu_event r) eventType && String.eqb (tu_period r) period
                           && String.eqb (tu_status r) "paid") (topups t)).
(** the map the rows give, read by event type *)
Definition quotaTopups (schema period : string) : bill (string -> Z) :=
  match validateSchema schema with
  | Some _ => ret (fun _ => 0)
  | None =>
      let! r := attempt (tread schema (fun t et => topup_sum et period t)) in
      match r with Ok f => ret f | Err _ => ret (fun _ => 0) end
  end.
Definition aggregate (eventType period : string) (t : tenant_tables) : option Z := usage_aggregates t !! (eventType, period).
(** allowed, remaining, limit *)
Definition CheckQuota (schema eventType : string) (now : Z) : bill (bool * Z * Z) :=
  let! plan := getTenantPlan schema in
  match lookup_key eventType (plan_quotas plan) with
  | None => ret (true, -1, -1)
  | Some limit =>
      let period := format_month now in
      let! extras := quotaTopups schema period in
      let limit := if 0 <? extras eventType then limit + extras eventType else limit in
      let! used := attempt (query_row schema (aggregate eventType period)) in
      let used := match used with Ok n => n | Err _ => 0 end in
      ret (used <? limit, Z.max 0 (limit - used), limit)
  end.
Definition add_aggregate (eventType period : string) (quantity : Z) (t : tenant_tables) : tenant_tables :=
  set_usage (usage_events t)
    (<[(eventType, period) := default 0 (usage_aggregates t !! (eventType, period)) + quantity]> (usage_aggregates t)) t.
Definition add_event (eventType : string) (quantity now : Z) (t : tenant_tables) : tenant_tables :=
  set_usage (usage_events t ++ [{| ue_type := eventType; ue_quantity := quantity; ue_at := now |}])%list
    (usage_aggregates t) t.
Definition with_prefix {A} (prefix : string) (m : bill A) : bill A :=
  let! r := attempt m in match r with Ok a => ret a | Err e => throw (EWrap (prefix ++ error_text e) e) end.
Definition RecordEvent (schema eventType : string) (quantity now : Z) : bill unit :=
  match validateSchema schema with
  | Some e => throw e
  | None =>
      with_prefix "insert usage_event: " (texec schema (add_event eventType quantity now));!
      with_prefix "upsert usage_aggregate: " (texec schema (add_aggregate eventType (format_month now) quantity))
  end.
Record QuotaItem := { QI_EventType : string; QI_Used : Z; QI_Limit : Z; QI_Remaining : Z }.
(** the items in the order of the quota table (Go's map order is random) *)
Definition GetSummary (schema period : string) : bill (string * list QuotaItem) :=
  match validateSchema schema with
  | Some e => throw e
  | None =>
      let! plan := getTenantPlan schema in
      let! extras := quotaTopups schema period in
      let! used := tread schema (fun t et => default 0 (aggregate et period t)) in
      ret (plan, map (fun q =>
        let '(et, lim) := q in
        let lim := if 0 <? extras et then lim + extras et else lim in
        {| QI_EventType := et; QI_Used := used et; QI_Limit := lim; QI_Remaining := Z.max 0 (lim - used et) |})
        (plan_quotas plan))
  end.
Definition Summary (u : option AuthUser) (period : string) (now : Z) : bill (string * list QuotaItem) :=
  match u with
  | Some user =>
      if negb (CanPerformOwnerActions u) then throw (ECode PermissionDenied "owner access required")
      else GetSummary (TenantSchema user) (if String.eqb period "" then format_month now else period)
  | None => throw (ECode PermissionDenied "owner access required")
  end.

(** ** Entitlements *)
Definition features_of (leads broadcast hybrid api workflow branch : bool) : list (string * bool) :=
  [("crm_leads", leads); ("broadcast", broadcast); ("hybrid_ai", hybrid); ("api_access", api);
   ("workflow", workflow); ("multi_branch", branch)].
Definition planFeatures : list (string * list (string * bool)) :=
  [("starter", features_of false false false false false false);
   ("business", features_of true true true false true false);
   ("basic", features_of true true true false true false);
   ("pro", features_of true true true true true true)].
Definition HasFeature (planCode feature : string) : bool :=
  if String.eqb planCode "trial" then true
  else
    let planCode := if String.eqb planCode "basic" then "business" else planCode in
    let feats := match lookup_key planCode planFeatures with
                 | Some f => f
                 | None => default [] (lookup_key "starter" planFeatures)
                 end in
    default false (lookup_key feature feats).
Definition Require_ (schema feature : string) : bill unit :=
  let! plan := getTenantPlan schema in
  if negb (HasFeature plan feature) then throw (ECode PermissionDenied "feature not available on your plan") else ret tt.

(** ** Lemmas *)
Definition put_schema (schema : string) (t : tenant_tables) (d : billing_db) : billing_db :=
  {| schemas := <[schema := t]> (schemas d); webhook_map := webhook_map d |}.
Lemma tstmt_keeps {A} (P : billing_db -> Prop) schema (f : tenant_tables -> result A * tenant_tables) :
  (forall d t a t', P d -> schemas d !! schema = Some t -> f t = (Ok a, t') -> P (put_schema schema t' d)) ->
  preserves (settled_with P) (tstmt schema f).
Proof.
  intros Hf. apply stmt_keeps. intros d HP. unfold on_schema. destruct (schemas d !! schema) as [t|] eqn:E; [|done].
  destruct (f t) as [[a|e] t'] eqn:Ef; [|done]. by eapply Hf.
Qed.
Lemma put_same schema t d : schemas d !! schema = Some t -> put_schema schema t d = d.
Proof. intros E. unfold put_schema. rewrite insert_id by done. by destruct d. Qed.
Lemma tread_keeps {A} P schema (f : tenant_tables -> A) : preserves (settled_with P) (tread schema f).
Proof. apply tstmt_keeps. intros d t a t' HP E [= _ <-]. by rewrite put_same. Qed.
Lemma query_row_keeps {A} P schema (f : tenant_tables -> option A) : preserves (settled_with P) (query_row schema f).
Proof. apply tstmt_keeps. intros d t a t' HP E. destruct (f t); [|done]. intros [= _ <-]. by rewrite put_same. Qed.
Lemma texec_keeps (P : billing_db -> Prop) schema f :
  (forall d t, P d -> schemas d !! schema = Some t -> P (put_schema schema (f t) d)) ->
  preserves (settled_with P) (texec schema f).
Proof. intros Hf. apply tstmt_keeps. intros d t a t' HP E [= _ <-]. by apply Hf. Qed.
Lemma open_keeps P schema : preserves (settled_with P) (openTenantScope schema).
Proof.
  unfold openTenantScope. apply preserves_if; [apply preserves_throw|].
  destruct (ValidateTenantSchemaName schema); auto with prog.
Qed.
#[export] Hint Resolve tread_keeps query_row_keeps open_keeps : prog.
Lemma prefix_keeps {A} P s (m : bill A) : preserves P m -> preserves P (with_prefix s m).
Proof. intros Hm. apply preserves_bind; [by apply preserves_attempt|]. intros [a|e]; auto with prog. Qed.

Lemma sum_of_app {A} (f : A -> Z) l m : sum_of f (l ++ m) = sum_of f l + sum_of f m.
Proof. induction l as [|x l IH]; [done|]. cbn [app sum_of fold_right] in *. unfold sum_of in *. lia. Qed.

(** what a statement answers, once it went through *)
Lemma tstmt_ok {A} schema (f : tenant_tables -> result A * tenant_tables) w a w' :
  p_tx w = None -> tstmt schema f w = (Ok a, w') ->
  exists t t', schemas (p_db w) !! schema = Some t /\ f t = (Ok a, t') /\
    p_db w' = put_schema schema t' (p_db w) /\ p_tx w' = None.
Proof.
  intros Hw. unfold tstmt, stmt. rewrite Hw. destruct (outcome w); [|done|done].
  unfold on_schema. destruct (schemas (p_db w) !! schema) as [t|] eqn:E; [|done].
  destruct (f t) as [[b|e] t'] eqn:Ef; [|done]. intros [= <- <-]. by exists t, t'.
Qed.
(** … and when nothing fails *)
Definition quiet (w : pg billing_db) : Prop := p_tx w = None /\ p_faults w = [].
Lemma tstmt_quiet {A} schema (f : tenant_tables -> result A * tenant_tables) w t a t' :
  quiet w -> schemas (p_db w) !! schema = Some t -> f t = (Ok a, t') ->
  tstmt schema f w = (Ok a, Build_pg (put_schema schema t' (p_db w)) None []).
Proof.
  intros [Hw Hf] E Ef. unfold tstmt, stmt, outcome, pop, with_db. rewrite Hw, Hf. cbn.
  unfold on_schema. rewrite E, Ef. done.
Qed.
Lemma tread_quiet {A} schema (f : tenant_tables -> A) w t :
  quiet w -> schemas (p_db w) !! schema = Some t -> tread schema f w = (Ok (f t), w).
Proof.
  intros Hq E. unfold tread. erewrite tstmt_quiet; [|done|done|reflexivity]. rewrite put_same by done.
  destruct Hq as [Hw Hf]. destruct w as [d x fl]. cbn in *. by subst.
Qed.
Lemma query_row_quiet {A} schema (f : tenant_tables -> option A) w t :
  quiet w -> schemas (p_db w) !! schema = Some t ->
  query_row schema f w = (match f t with Some a => Ok a | None => Err no_rows end, w).
Proof.
  intros [Hw Hf] E. unfold query_row, tstmt, stmt, outcome, pop, with_db, on_schema. rewrite Hw, Hf. cbn. rewrite E.
  destruct w as [d x fl]. cbn in *. subst. destruct (f t); [|done]. f_equal. f_equal.
  change ({| schemas := <[schema := t]> (schemas d); webhook_map := webhook_map d |}) with (put_schema schema t d).
  by apply put_same.
Qed.
Lemma latest_elem {A} key (l : list A) x : latest key l = Some x -> x ∈ l /\ forall y, y ∈ l -> key y <= key x.
Proof.
  revert x. induction l as [|z l IH]; intros x; cbn [latest]; [done|].
  destruct (latest key l) as [y|] eqn:E.
  - destruct (IH y eq_refl) as [Hy Hmax]. destruct (Z.ltb_spec (key z) (key y)); intros [= <-]; split.
    + by right.
    + intros u [->|Hu]%elem_of_cons; [lia|by apply Hmax].
    + by left.
    + intros u [->|Hu]%elem_of_cons; [done|]. specialize (Hmax _ Hu). lia.
  - intros [= <-]. split; [by left|]. intros u [->|Hu]%elem_of_cons; [done|].
    destruct l as [|v l]; [by apply not_elem_of_nil in Hu|]. cbn in E. destruct (latest key l); [by case_match|done].
Qed.

(** ** Quotas against the usage log *)
(** what the log says was used *)
Definition spec_used (eventType period : string) (t : tenant_tables) : Z :=
  sum_of ue_quantity
    (List.filter (fun e => String.eqb (ue_type e) eventType && String.eqb (format_month (ue_at e)) period) (usage_events t)).
Definition spec_plan (t : tenant_tables) : string :=
  match active_subscription t with
  | None => "trial"
  | Some s => if String.eqb (sb_plan s) "" || sb_trial s then "trial" else normalizePlanCode (sb_plan s)
  end.
(** the abstract quota: the plan's limit and what was bought for the month,
    against the log *)
Definition quota_spec (eventType period : string) (t : tenant_tables) : bool * Z * Z :=
  match lookup_key eventType (plan_quotas (spec_plan t)) with
  | None => (true, -1, -1)
  | Some limit =>
      let limit := limit + Z.max 0 (topup_sum eventType period t) in
      let used := spec_used eventType period t in
      (used <? limit, Z.max 0 (limit - used), limit)
  end.
Record usage_call := { uc_schema : string; uc_type : string; uc_quantity : Z; uc_now : Z; uc_faults : list fault }.
Definition run_usage (d : billing_db) (c : usage_call) : billing_db :=
  p_db (snd (RecordEvent (uc_schema c) (uc_type c) (uc_quantity c) (uc_now c) (Build_pg d None (uc_faults c)))).
Definition unused (d : billing_db) : Prop :=
  forall s t, schemas d !! s = Some t -> usage_events t = [] /\ usage_aggregates t = ∅.
(** [R counted logged] for every counter of every tenant *)
Definition metered (R : Z -> Z -> Prop) (d : billing_db) : Prop :=
  forall s t, schemas d !! s = Some t -> forall et p, R (default 0 (aggregate et p t)) (spec_used et p t).

Lemma with_prefix_run {A} s (m : bill A) w :
  with_prefix s m w = (match fst (m w) with Ok a => Ok a | Err e => Err (EWrap (s ++ error_text e) e) end, snd (m w)).
Proof. unfold with_prefix, bind, attempt. by destruct (m w) as [[a|e] w']. Qed.
(** a statement on its own: applied (and then it may still report a failure),
    or not at all *)
Lemma texec_cases schema f w :
  p_tx w = None ->
  let '(r, w') := texec schema f w in
  p_tx w' = None /\ p_faults w' = tail (p_faults w) /\
  ((exists t, schemas (p_db w) !! schema = Some t /\ p_db w' = put_schema schema (f t) (p_db w) /\
      (is_ok r = true \/ p_faults w <> [])) \/
   (p_db w' = p_db w /\ is_ok r = false /\ (schemas (p_db w) !! schema = None \/ p_faults w <> []))).
Proof.
  intros Hw. unfold texec, tstmt, stmt, outcome. rewrite Hw. unfold on_schema.
  destruct (p_faults w) as [|[] fl] eqn:Ef; cbn; destruct (schemas (p_db w) !! schema) as [t|] eqn:E; cbn;
    rewrite ?Ef; (split; [done|]); (split; [done|]); eauto 10.
Qed.
Lemma filter_app {A} (f : A -> bool) l m : List.filter f (l ++ m) = (List.filter f l ++ List.filter f m)%list.
Proof. induction l as [|x l IH]; [done|]. cbn. destruct (f x); cbn; by rewrite IH. Qed.
Lemma sum_of_filter1 {A} (f : A -> bool) (g : A -> Z) x : sum_of g (List.filter f [x]) = if f x then g x else 0.
Proof. unfold sum_of. cbn [List.filter]. destruct (f x); [apply Z.add_0_r|done]. Qed.
Lemma spec_used_event et q now et' p t :
  spec_used et' p (add_event et q now t) =
    spec_used et' p t + (if String.eqb et et' && String.eqb (format_month now) p then q else 0).
Proof. unfold spec_used, add_event. cbn [usage_events set_usage]. by rewrite filter_app, sum_of_app, sum_of_filter1. Qed.
Lemma aggregate_add et p q et' p' t :
  default 0 (aggregate et' p' (add_aggregate et p q t)) =
    default 0 (aggregate et' p' t) + (if String.eqb et et' && String.eqb p p' then q else 0).
Proof.
  unfold aggregate, add_aggregate. cbn [usage_aggregates set_usage].
  destruct (String.eqb_spec et et') as [<-|He]; [destruct (String.eqb_spec p p') as [<-|Hp]|]; cbn [andb].
  - by rewrite lookup_insert_eq.
  - rewrite lookup_insert_ne by congruence. by rewrite Z.add_0_r.
  - rewrite lookup_insert_ne by congruence. by rewrite Z.add_0_r.
Qed.
Lemma metered_put R schema t d :
  metered R d -> (forall et p, R (default 0 (aggregate et p t)) (spec_used et p t)) -> metered R (put_schema schema t d).
Proof.
  intros Hd Ht s t' Hl et p. cbn in Hl. apply lookup_insert_Some in Hl as [[<- <-]|[_ Hl]]; [done|by apply (Hd s)].
Qed.

(** a recording keeps the counters within the log, and exact without faults *)
Lemma record_metered (R : Z -> Z -> Prop) schema et q now w :
  p_tx w = None -> metered R (p_db w) ->
  (forall c l, R c l -> R (c + q) (l + q)) -> (p_faults w <> [] -> forall c l, R c l -> R c (l + q)) ->
  metered R (p_db (snd (RecordEvent schema et q now w))).
Proof.
  intros Hw Hm Hboth Hlog. unfold RecordEvent. destruct (validateSchema schema); [done|].
  unfold bind at 1. rewrite with_prefix_run.
  pose proof (texec_cases schema (add_event et q now) w Hw) as H1.
  destruct (texec schema (add_event et q now) w) as [r1 w1]. cbn [fst snd]. destruct H1 as (Hw1 & Hf1 & H1).
  destruct H1 as [(t & Ht & Hd1 & Hr1)|(Hd1 & Hr1 & _)]; [|by destruct r1; [|cbn [snd]; rewrite Hd1]].
  assert (p_faults w <> [] -> metered R (p_db w1)) as Hev.
  { intros Hf. rewrite Hd1. apply metered_put; [done|]. intros et' p. rewrite spec_used_event.
    specialize (Hm _ _ Ht et' p). change (aggregate et' p (add_event et q now t)) with (aggregate et' p t).
    case_match; [by apply Hlog|by rewrite Z.add_0_r]. }
  destruct r1 as [u|e]; [|destruct Hr1; [done|by apply Hev]]. cbn [snd]. rewrite with_prefix_run. cbn [snd].
  pose proof (texec_cases schema (add_aggregate et (format_month now) q) w1 Hw1) as H2.
  destruct (texec schema (add_aggregate et (format_month now) q) w1) as [r2 w2]. cbn [snd].
  destruct H2 as (_ & _ & H2). rewrite Hd1 in H2. cbn [schemas put_schema] in H2. rewrite lookup_insert_eq in H2.
  destruct H2 as [(t1 & [= <-] & Hd2 & _)|(Hd2 & _ & [?|Hf])]; [|done|].
  - rewrite Hd2. unfold put_schema at 1. cbn [schemas put_schema webhook_map]. rewrite insert_insert_eq.
    apply (metered_put R schema _ (p_db w)); [done|]. intros et' p. rewrite aggregate_add.
    change (spec_used et' p (add_aggregate et (format_month now) q (add_event et q now t)))
      with (spec_used et' p (add_event et q now t)). rewrite spec_used_event.
    change (aggregate et' p (add_event et q now t)) with (aggregate et' p t).
    specialize (Hm _ _ Ht et' p). case_match; [by apply Hboth|by rewrite !Z.add_0_r].
  - rewrite Hd2, <- Hd1. apply Hev. rewrite Hf1 in Hf. by destruct (p_faults w).
Qed.
Lemma metered_history (R : Z -> Z -> Prop) calls d :
  metered R d ->
  Forall (fun c => (forall a l, R a l -> R (a + uc_quantity c) (l + uc_quantity c)) /\
                   (uc_faults c <> [] -> forall a l, R a l -> R a (l + uc_quantity c))) calls ->
  metered R (fold_left run_usage calls d).
Proof.
  revert d. induction calls as [|c calls IH]; intros d Hd Hc; [done|]. inversion Hc as [|? ? [H1 H2] Hcs]; subst.
  cbn [fold_left]. apply IH; [|done]. by apply record_metered.
Qed.
Lemma unused_metered (R : Z -> Z -> Prop) d : R 0 0 -> unused d -> metered R d.
Proof.
  intros HR Hd s t Hs et p. destruct (Hd s t Hs) as [He Ha]. unfold aggregate, spec_used. by rewrite He, Ha, lookup_empty.
Qed.
Lemma getTenantPlan_quiet schema w t :
  quiet w -> schemas (p_db w) !! schema = Some t -> getTenantPlan schema w = (Ok (spec_plan t), w).
Proof.
  intros Hq E. unfold getTenantPlan, bind, attempt, spec_plan. rewrite (query_row_quiet _ _ _ _ Hq E).
  by destruct (active_subscription t) as [s|].
Qed.
Lemma CheckQuota_quiet schema et now w t :
  quiet w -> schemas (p_db w) !! schema = Some t -> validateSchema schema = None ->
  default 0 (aggregate et (format_month now) t) = spec_used et (format_month now) t ->
  CheckQuota schema et now w = (Ok (quota_spec et (format_month now) t), w).
Proof.
  intros Hq E Hv Ha. unfold CheckQuota, quota_spec. unfold bind at 1. rewrite (getTenantPlan_quiet _ _ _ Hq E).
  destruct (lookup_key et (plan_quotas (spec_plan t))) as [limit|]; [|done].
  unfold quotaTopups. rewrite Hv. unfold bind, attempt, ret. rewrite (tread_quiet _ _ _ _ Hq E), (query_row_quiet _ _ _ _ Hq E).
  rewrite <- Ha. set (x := topup_sum et (format_month now) t).
  assert ((if 0 <? x then limit + x else limit) = limit + Z.max 0 x) as ->.
  { destruct (0 <? x) eqn:Ex; [apply Z.ltb_lt in Ex|apply Z.ltb_ge in Ex]; lia. }
  by destruct (aggregate et (format_month now) t).
Qed.

(** C24. Quotas: over any history of recordings the monthly counters that
    quota checks read refine the usage log.  With quantities that are not
    negative and any failures a counter never exceeds what the log says (a
    tenant is never refused for usage it did not have); when nothing fails it
    equals the log, and a quota check answers what the abstract quota says: the
    limit of the tenant's plan plus the top-ups paid for the month, what is
    left of it, and allowed exactly while something is left. *)
Theorem quota_refines_usage_log calls d0 :
  unused d0 ->
  let d := fold_left run_usage calls d0 in
  (Forall (fun c => 0 <= uc_quantity c) calls ->
     forall s t et p, schemas d !! s = Some t -> default 0 (aggregate et p t) <= spec_used et p t) /\
  (Forall (fun c => uc_faults c = []) calls ->
     forall s t, schemas d !! s = Some t -> validateSchema s = None ->
       (forall et p, default 0 (aggregate et p t) = spec_used et p t) /\
       forall et now, CheckQuota s et now (Build_pg d None []) =
                        (Ok (quota_spec et (format_month now) t), Build_pg d None [])).
Proof.
  intros H0 d. split; intros Hc.
  - intros s t et p Hs. assert (metered Z.le d) as Hm; [|exact (Hm s t Hs et p)].
    apply metered_history; [by apply unused_metered|]. eapply Forall_impl; [exact Hc|].
    cbn. intros c Hq. split; intros; lia.
  - intros s t Hs Hv.
    assert (metered eq d) as Hm.
    { apply metered_history; [by apply unused_metered|]. eapply Forall_impl; [exact Hc|]. cbn. intros c Hf.
      split; [intros a l ->; done|by rewrite Hf]. }
    split; [intros et p; exact (Hm s t Hs et p)|]. intros et now.
    apply CheckQuota_quiet; [done|done|done|exact (Hm s t Hs _ _)].
Qed.

Definition no_tables : tenant_tables :=
  {| subscriptions := []; invoices := []; topups := []; payments := []; orders := []; usage_events := [];
     usage_aggregates := ∅; fresh_ids := [] |}.
Definition two_tenants : billing_db :=
  {| schemas := {["t_a" := no_tables; "t_b" := no_tables]}; webhook_map := [] |}.
Definition some_usage : list usage_call :=
  [{| uc_schema := "t_a"; uc_type := "ai_conversation"; uc_quantity := 45; uc_now := 0; uc_faults := [] |};
   {| uc_schema := "t_b"; uc_type := "ai_conversation"; uc_quantity := 3; uc_now := 5; uc_faults := [] |};
   {| uc_schema := "t_a"; uc_type := "ai_conversation"; uc_quantity := 15; uc_now := 9; uc_faults := [] |}].
Lemma two_tenants_unused : unused two_tenants.
Proof.
  intros s t Hl. cbn [schemas two_tenants] in Hl. apply lookup_insert_Some in Hl as [[_ <-]|[_ Hl]]; [done|].
  apply lookup_singleton_Some in Hl as [_ <-]. done.
Qed.
Definition table_after : tenant_tables :=
  default no_tables (schemas (fold_left run_usage some_usage two_tenants) !! "t_a").
Lemma quota_refines_usage_log_witness :
  CheckQuota "t_a" "ai_conversation" 20 (Build_pg (fold_left run_usage some_usage two_tenants) None []) =
    (Ok (quota_spec "ai_conversation" (format_month 20) table_after),
     Build_pg (fold_left run_usage some_usage two_tenants) None []) /\
  quota_spec "ai_conversation" (format_month 20) table_after = (false, 0, 60).
Proof.
  split; [|vm_compute; reflexivity].
  assert (Forall (fun c => uc_faults c = []) some_usage) as Hf by (repeat constructor).
  assert (schemas (fold_left run_usage some_usage two_tenants) !! "t_a" = Some table_after) as E
    by (vm_compute; reflexivity).
  destruct (quota_refines_usage_log some_usage two_tenants two_tenants_unused) as [_ H].
  destruct (H Hf "t_a" table_after E eq_refl) as [_ HC]. apply HC.
Defined.
