(* ===== verification/Payment.v ===== *)
(** * QRIS payments

    Models [payment/payment.go] over the tables of Billing.v and the system
    database's map from gateway orders to tenants: creating a QRIS charge, its
    status, and the gateway's notifications.  The gateway is an argument (what
    the charge call answers); a notification is its decoded body ([None]: not
    readable).  The answer of the webhook is its HTTP status. *)
From S2P Require Import Prelude GoStrings Sha256 Sha512 AdminSession PgTx DaySlots Dates Billing.

Open Scope string_scope.
Open Scope Z_scope.

Record CreateQRISParams := { CQ_InvoiceID : string; CQ_AmountIDR : Z; CQ_Description : string }.
Record QRISResponse := { QR_TransactionID : string; QR_OrderID : string; QR_URL : string; QR_ExpiresAt : Z }.
Record midtransNotification := {
  MN_TransactionID : string; MN_OrderID : string; MN_StatusCode : string; MN_GrossAmount : string;
  MN_SignatureKey : string; MN_TransStatus : string; MN_FraudStatus : string; MN_PaymentType : string
}.
(** what the code reads of the gateway's answer: transaction id, actions *)
Record midtransChargeResp := { CR_TransactionID : string; CR_Actions : list (string * string) }.

Definition requireTenantUser (u : option AuthUser) : result AuthUser :=
  match u with
  | None => Err (ECode Unauthenticated "missing auth data")
  | Some user =>
      if negb (HasEffectiveTenantContext u) then
        Err (ECode PermissionDenied "tenant context required — pantau tenant dari konsol admin")
      else Ok user
  end.

Definition qr_url (actions : list (string * string)) : string :=
  match List.find (fun a => String.eqb a.1 "generate-qr-code") actions with Some a => a.2 | None => "" end.
Definition insert_payment (p : string -> payment_row) (t : tenant_tables) : result unit * tenant_tables :=
  let row := p (fresh_id t) in
  if existsb (fun q => String.eqb (pt_order q) (pt_order row)) (payments t) then
    (Err (EText "duplicate key value violates unique constraint payment_transaction_midtrans_order_id_key"), t)
  else (Ok tt, drop_id (set_payments (payments t ++ [row])%list t)).
Definition insert_map (orderID schema : string) (d : billing_db) : result unit * billing_db :=
  if existsb (fun e => String.eqb e.1 orderID) (webhook_map d) then
    (Err (EText "duplicate key value violates unique constraint payment_webhook_map_pkey"), d)
  else (Ok tt, {| schemas := schemas d; webhook_map := (webhook_map d ++ [(orderID, schema)])%list |}).

Definition CreateQRIS (charge : string -> Z -> result midtransChargeResp) (u : option AuthUser)
    (p : CreateQRISParams) (now : Z) : bill QRISResponse :=
  match requireTenantUser u with
  | Err e => throw e
  | Ok user =>
      if negb (CanPerformOwnerActions u) then throw (ECode PermissionDenied "owner access required")
      else if CQ_AmountIDR p <=? 0 then throw (BadRequest "amountIdr must be positive")
      else if String.eqb (CQ_InvoiceID p) "" then throw (BadRequest "invoiceId wajib — pilih paket terlebih dahulu")
      else
        let schema := TenantSchema user in
        let! inv := attempt (query_row schema (find_invoice (CQ_InvoiceID p))) in
        match inv with
        | Err _ => throw (NotFoundErr "invoice tidak ditemukan")
        | Ok inv =>
            if negb (is_pending_invoice inv) then
              throw (BadRequest "invoice sudah tidak menunggu pembayaran — buat checkout paket baru")
            else if negb (iv_amount inv =? CQ_AmountIDR p) then throw (BadRequest "nominal tidak sesuai invoice")
            else
              let orderID := "WB-" ++ CQ_InvoiceID p ++ "-" ++ pretty (UnixMilli now) in
              match charge orderID (CQ_AmountIDR p) with
              | Err e => throw (ECode Unavailable ("payment gateway error: " ++ error_text e))
              | Ok resp =>
                  let qrURL := qr_url (CR_Actions resp) in
                  let expiresAt := now + 15 * Minute in
                  with_prefix "save transaction: " (tstmt schema (insert_payment (fun id =>
                    {| pt_order := orderID; pt_transaction := CR_TransactionID resp;
                       pt_invoice := Some (CQ_InvoiceID p); pt_amount := CQ_AmountIDR p;
                       pt_description := CQ_Description p; pt_status := "PENDING"; pt_qr := qrURL;
                       pt_expires := expiresAt; pt_paid := None; pt_id := id |})));!
                  ignore (stmt (insert_map orderID schema));!
                  ret {| QR_TransactionID := CR_TransactionID resp; QR_OrderID := orderID; QR_URL := qrURL;
                         QR_ExpiresAt := expiresAt |}
              end
        end
  end.

Definition mapMidtransStatus (transStatus : string) : string :=
  if String.eqb transStatus "settlement" || String.eqb transStatus "capture" then "PAID"
  else if String.eqb transStatus "expire" then "EXPIRED"
  else if String.eqb transStatus "deny" || String.eqb transStatus "cancel" then "FAILED"
  else "".

Definition find_payment (orderID : string) (t : tenant_tables) : option payment_row :=
  List.find (fun p => String.eqb (pt_order p) orderID) (payments t).
Definition set_pt_status (st : string) (paid : option Z) (p : payment_row) : payment_row :=
  {| pt_order := pt_order p; pt_transaction := pt_transaction p; pt_invoice := pt_invoice p; pt_amount := pt_amount p;
     pt_description := pt_description p; pt_status := st; pt_qr := pt_qr p; pt_expires := pt_expires p;
     pt_paid := paid; pt_id := pt_id p |}.
Definition update_payment (orderID : string) (f : payment_row -> payment_row) (t : tenant_tables) : tenant_tables :=
  set_payments (map (fun p => if String.eqb (pt_order p) orderID then f p else p) (payments t)) t.
(** UPDATE "order" SET status='paid' of the order this payment is for *)
Definition pay_order (orderID : string) (t : tenant_tables) : tenant_tables :=
  match find_payment orderID t with
  | None => t
  | Some p =>
      set_orders (map (fun o =>
        if bool_decide (od_payment o = Some (pt_id p)) && (String.eqb (od_status o) "draft" || String.eqb (od_status o) "confirmed")
        then {| od_id := od_id o; od_status := "paid"; od_payment := od_payment o |} else o) (orders t)) t
  end.
Definition signature (serverKey : string) (n : midtransNotification) : string :=
  hex_encode (Sum512 (MN_OrderID n ++ MN_StatusCode n ++ MN_GrossAmount n ++ serverKey)).

Definition apply_paid (schema orderID : string) (now : Z) : bill unit :=
  ignore (texec schema (update_payment orderID (set_pt_status "PAID" (Some now))));!
  ignore (texec schema (pay_order orderID));!
  let! inv := attempt (query_row schema (fun t => option_map (fun p => default "" (pt_invoice p)) (find_payment orderID t))) in
  match inv with
  | Ok invoiceID => if String.eqb invoiceID "" then ret tt else ignore (ActivatePaidInvoice schema invoiceID now)
  | Err _ => ret tt
  end.
Definition tenant_of_order (orderID : string) : bill string :=
  stmt (fun d => match List.find (fun e => String.eqb e.1 orderID) (webhook_map d) with
                 | Some e => (Ok e.2, d) | None => (Err no_rows, d) end).
Definition serveMidtransWebhook (serverKey : string) (body : option midtransNotification) (now : Z) : bill Z :=
  match body with
  | None => ret 400
  | Some n =>
      if negb (String.eqb (signature serverKey n) (MN_SignatureKey n)) then ret 403
      else
        let! schema := attempt (tenant_of_order (MN_OrderID n)) in
        match schema with
        | Err _ => ret 200
        | Ok schema =>
            let! current := attempt (query_row schema (find_payment (MN_OrderID n))) in
            match current with
            | Err _ => ret 200
            | Ok current =>
                if negb (String.eqb (pt_status current) "PENDING") then ret 200
                else
                  let newStatus := mapMidtransStatus (MN_TransStatus n) in
                  if String.eqb newStatus "" then ret 200
                  else
                    (if String.eqb newStatus "PAID" then apply_paid schema (MN_OrderID n) now
                     else ignore (texec schema (update_payment (MN_OrderID n) (fun p => set_pt_status newStatus (pt_paid p) p))));!
                    ret 200
            end
        end
  end.

(** ** What a notification can change *)
(** the tables activation leaves alone *)
Definition billing_only (t t' : tenant_tables) : Prop :=
  payments t' = payments t /\ orders t' = orders t /\ usage_events t' = usage_events t /\
  usage_aggregates t' = usage_aggregates t.
Section activation.
Context (P : billing_db -> Prop) (schema : string).
Hypothesis HP : forall d t t', P d -> schemas d !! schema = Some t -> billing_only t t' -> P (put_schema schema t' d).

Lemma ensure_keeps now : preserves (settled_with P) (ensureSubscription schema now).
Proof.
  unfold ensureSubscription. apply preserves_bind; [apply tread_keeps|]. intros [s|]; [auto with prog|].
  apply tstmt_keeps. intros d t a t' Hd Ht [= _ <-]. by apply (HP d t).
Qed.
Lemma insert_topups_keeps id period o l : preserves (settled_with P) (insert_topups schema id period o l).
Proof.
  induction l as [|[et q] l IH]; cbn [insert_topups]; [auto with prog|]. apply preserves_if; [done|].
  apply preserves_bind; [|done]. apply texec_keeps. intros d t Hd Ht. by apply (HP d t).
Qed.
Lemma activate_keeps id now : preserves (settled_with P) (ActivatePaidInvoice schema id now).
Proof.
  unfold ActivatePaidInvoice. apply preserves_if; [auto with prog|].
  apply preserves_bind; [auto with prog|]. intros _. apply preserves_bind; [auto with prog|].
  assert (preserves (settled_with P) (texec schema (mark_invoice_paid id now))) as Hmark.
  { apply texec_keeps. intros d t Hd Ht. by apply (HP d t). }
  intros [inv|]; [|auto with prog]. apply preserves_if; [auto with prog|].
  assert (forall i, preserves (settled_with P) (texec schema (mark_invoice_paid i now))) as Hpaid.
  { intros i. apply texec_keeps. intros d t Hd Ht. by apply (HP d t). }
  destruct (resolveTopUp (iv_plan inv)) as [o|].
  - apply preserves_bind; [|auto]. unfold applyPaidTopUp. apply preserves_bind; [apply tread_keeps|].
    intros []; [auto with prog|apply insert_topups_keeps].
  - destruct (resolvePlan (iv_plan inv)) as [plan|]; [|auto with prog].
    apply preserves_bind; [apply ensure_keeps|]. intros sub. apply preserves_bind; [|auto].
    apply texec_keeps. intros d t Hd Ht. by apply (HP d t).
Qed.
End activation.

(** a notification the handler acts on: signed, mapped to a tenant where its
    payment is pending, and with a status the code knows *)
Definition actionable (key : string) (body : option midtransNotification) (d : billing_db)
    (n : midtransNotification) (schema : string) (t : tenant_tables) : Prop :=
  body = Some n /\ signature key n = MN_SignatureKey n /\
  option_map snd (List.find (fun e => String.eqb e.1 (MN_OrderID n)) (webhook_map d)) = Some schema /\
  schemas d !! schema = Some t /\ option_map pt_status (find_payment (MN_OrderID n) t) = Some "PENDING" /\
  mapMidtransStatus (MN_TransStatus n) <> "".
(** the payment, once the notification was applied *)
Definition settled_as (n : midtransNotification) (now : Z) (p : payment_row) : payment_row :=
  let st := mapMidtransStatus (MN_TransStatus n) in
  set_pt_status st (if String.eqb st "PAID" then Some now else pt_paid p) p.
(** what it may have done to the tables of that tenant *)
Definition moved (n : midtransNotification) (now : Z) (t t' : tenant_tables) : Prop :=
  let updated := update_payment (MN_OrderID n) (settled_as n now) t in
  usage_events t' = usage_events t /\ usage_aggregates t' = usage_aggregates t /\
  (payments t' = payments t \/ payments t' = payments updated) /\
  (mapMidtransStatus (MN_TransStatus n) <> "PAID" -> t' = t \/ t' = updated).

Lemma moved_same n now t : moved n now t t.
Proof. split_and!; [done|done|by left|by left]. Qed.
Lemma moved_updated n now t : moved n now t (update_payment (MN_OrderID n) (settled_as n now) t).
Proof. split_and!; [done|done|by right|by right]. Qed.
Lemma moved_stay n now t t1 t2 :
  mapMidtransStatus (MN_TransStatus n) = "PAID" ->
  payments t2 = payments t1 -> usage_events t2 = usage_events t1 -> usage_aggregates t2 = usage_aggregates t1 ->
  moved n now t t1 -> moved n now t t2.
Proof. unfold moved. intros HP -> -> -> (? & ? & ? & ?). split_and!; [done|done|done|by intros []]. Qed.
#[local] Hint Resolve moved_same moved_updated : core.

Lemma payment_status_cases ts :
  mapMidtransStatus ts = "" \/ mapMidtransStatus ts = "PAID" \/ mapMidtransStatus ts = "EXPIRED" \/ mapMidtransStatus ts = "FAILED".
Proof. unfold mapMidtransStatus. repeat case_match; auto. Qed.
Lemma attempt_read {A} (m : bill A) w :
  p_tx w = None -> (forall P, preserves (settled_with P) m) ->
  exists r w', attempt m w = (Ok r, w') /\ m w = (r, w') /\ p_tx w' = None /\ p_db w' = p_db w.
Proof.
  intros Hw Hm. unfold attempt. pose proof (Hm (fun d => d = p_db w) w (conj Hw eq_refl)) as H.
  destruct (m w) as [r w'] eqn:E. destruct H as [Hw' Hd]. by exists r, w'.
Qed.
Lemma tenant_of_order_keeps P o : preserves (settled_with P) (tenant_of_order o).
Proof. apply stmt_keeps. intros d Hd. by destruct (List.find _ _). Qed.
Lemma tenant_of_order_ok o w s w' :
  p_tx w = None -> tenant_of_order o w = (Ok s, w') ->
  option_map snd (List.find (fun e => String.eqb e.1 o) (webhook_map (p_db w))) = Some s.
Proof.
  intros Hw. unfold tenant_of_order, stmt. rewrite Hw. destruct (outcome w); [|done..].
  destruct (List.find _ _) as [e|]; [|done]. by intros [= <- _].
Qed.
Lemma query_row_ok {A} schema (f : tenant_tables -> option A) w a w' :
  p_tx w = None -> query_row schema f w = (Ok a, w') ->
  exists t, schemas (p_db w) !! schema = Some t /\ f t = Some a.
Proof.
  intros Hw H. apply tstmt_ok in H as (t & t' & Ht & Hf & _); [|done]. exists t. split; [done|].
  destruct (f t); [by injection Hf as -> _|done].
Qed.
Lemma put_put schema t1 t2 d : put_schema schema t2 (put_schema schema t1 d) = put_schema schema t2 d.
Proof. unfold put_schema. cbn. by rewrite insert_insert_eq. Qed.

(** the tables of one tenant, related to those it had *)
Definition only_tenant (schema : string) (d0 : billing_db) (Q : tenant_tables -> Prop) (d : billing_db) : Prop :=
  exists t', d = put_schema schema t' d0 /\ Q t'.
Lemma only_tenant_put schema d0 (Q : tenant_tables -> Prop) d t t' :
  only_tenant schema d0 Q d -> schemas d !! schema = Some t -> (Q t -> Q t') -> only_tenant schema d0 Q (put_schema schema t' d).
Proof.
  intros (t1 & -> & HQ) Hl Hk. cbn in Hl. rewrite lookup_insert_eq in Hl. injection Hl as ->.
  exists t'. rewrite put_put. auto.
Qed.

Lemma apply_paid_moves schema n now w t :
  p_tx w = None -> schemas (p_db w) !! schema = Some t -> mapMidtransStatus (MN_TransStatus n) = "PAID" ->
  only_tenant schema (p_db w) (moved n now t) (p_db (snd (apply_paid schema (MN_OrderID n) now w))).
Proof.
  intros Hw Ht HP. unfold apply_paid. unfold bind at 1, ignore at 1.
  assert (update_payment (MN_OrderID n) (set_pt_status "PAID" (Some now)) t = update_payment (MN_OrderID n) (settled_as n now) t)
    as Hsame by (unfold settled_as; by rewrite HP).
  pose proof (texec_cases schema (update_payment (MN_OrderID n) (set_pt_status "PAID" (Some now))) w Hw) as H1.
  destruct (texec _ _ w) as [r1 w1]. destruct H1 as (Hw1 & _ & H1). cbn [snd].
  assert (only_tenant schema (p_db w) (moved n now t) (p_db w1)) as Hd1.
  { destruct H1 as [(t' & Ht' & -> & _)|(-> & _)]; [|exists t; rewrite put_same by done; auto].
    rewrite Ht in Ht'. injection Ht' as <-. rewrite Hsame. by exists (update_payment (MN_OrderID n) (settled_as n now) t). }
  assert (forall t1 t2, payments t2 = payments t1 -> usage_events t2 = usage_events t1 ->
    usage_aggregates t2 = usage_aggregates t1 -> moved n now t t1 -> moved n now t t2) as Hstay by (intros; by eapply moved_stay).
  refine (proj2 (_ : settled_with (only_tenant schema (p_db w) (moved n now t)) _)).
  set (m := bind _ _). assert (preserves (settled_with (only_tenant schema (p_db w) (moved n now t))) m) as Hm; [|by apply Hm].
  apply preserves_bind; [apply preserves_ignore, texec_keeps; intros d t1 Hd Hl; apply (only_tenant_put _ _ _ _ t1); [done|done|];
    apply Hstay; unfold pay_order; by destruct (find_payment _ _)|].
  intros _. apply preserves_bind; [auto with prog|]. intros [id|e]; [|auto with prog]. apply preserves_if; [auto with prog|].
  apply preserves_ignore, activate_keeps. intros d t1 t2 Hd Hl (H & _ & ? & ?). apply (only_tenant_put _ _ _ _ t1); [done|done|by apply Hstay].
Qed.

Lemma apply_paid_settles schema o now w :
  p_tx w = None -> let '(r, w') := apply_paid schema o now w in r = Ok tt /\ p_tx w' = None.
Proof.
  intros Hw.
  assert (preserves (settled_with (fun _ => True)) (apply_paid schema o now)) as Hk.
  { unfold apply_paid.
    apply preserves_bind; [by apply preserves_ignore, texec_keeps|intros _].
    apply preserves_bind; [by apply preserves_ignore, texec_keeps|intros _].
    apply preserves_bind; [auto with prog|]. intros [id|e]; [|auto with prog].
    apply preserves_if; [auto with prog|]. by apply preserves_ignore, activate_keeps. }
  specialize (Hk w (conj Hw I)).
  assert (exists w', apply_paid schema o now w = (Ok tt, w')) as [w' E].
  { unfold apply_paid, bind, ignore, attempt. destruct (query_row _ _ _) as [[id|e] w3]; [case_match|]; cbn; eauto. }
  rewrite E in *. by destruct Hk.
Qed.

(** after the update the payment is no longer pending *)
Lemma settled_not_pending n now t :
  mapMidtransStatus (MN_TransStatus n) <> "" ->
  option_map pt_status (find_payment (MN_OrderID n) (update_payment (MN_OrderID n) (settled_as n now) t)) <> Some "PENDING".
Proof.
  intros Hst. unfold find_payment. cbn [payments update_payment set_payments]. induction (payments t) as [|p l IH]; [done|].
  cbn [map List.find]. destruct (String.eqb (pt_order p) (MN_OrderID n)) eqn:E.
  - cbn [settled_as set_pt_status pt_order]. rewrite E. cbn. intros [= H].
    destruct (payment_status_cases (MN_TransStatus n)) as [?|[Hs|[Hs|Hs]]]; [done|by rewrite Hs in H..].
  - by rewrite E.
Qed.

(** everything a notification does, on every branch *)
Lemma webhook_effect key body now w :
  p_tx w = None ->
  let '(r, w') := serveMidtransWebhook key body now w in
  p_tx w' = None /\
  (r = Ok 400 /\ body = None /\ w' = w \/
   r = Ok 403 /\ w' = w /\ (exists n, body = Some n /\ signature key n <> MN_SignatureKey n) \/
   r = Ok 200 /\ (exists n, body = Some n /\ signature key n = MN_SignatureKey n) /\
   (p_db w' = p_db w \/
    exists n schema t, actionable key body (p_db w) n schema t /\ only_tenant schema (p_db w) (moved n now t) (p_db w'))).
Proof.
  intros Hw. unfold serveMidtransWebhook. destruct body as [n|]; [|cbn; auto].
  destruct (String.eqb_spec (signature key n) (MN_SignatureKey n)) as [Hs|Hs]; cbn [negb]; [|cbn; eauto 10].
  assert (exists n', Some n = Some n' /\ signature key n' = MN_SignatureKey n') as Hsigned by eauto.
  destruct (attempt_read (tenant_of_order (MN_OrderID n)) w Hw) as (r1 & w1 & E1 & H1 & Hw1 & Hd1);
    [intros P; apply tenant_of_order_keeps|].
  unfold bind at 1. rewrite E1. destruct r1 as [schema|e]; [|cbn; rewrite Hd1; by auto 10].
  apply tenant_of_order_ok in H1; [|done].
  destruct (attempt_read (query_row schema (find_payment (MN_OrderID n))) w1 Hw1) as (r2 & w2 & E2 & H2 & Hw2 & Hd2);
    [intros P; apply query_row_keeps|].
  unfold bind at 1. rewrite E2, <- Hd1, <- Hd2. destruct r2 as [p|e]; [|cbn; by auto 10].
  apply query_row_ok in H2 as (t & Ht & Hp); [|done]. rewrite <- Hd2 in Ht.
  destruct (String.eqb_spec (pt_status p) "PENDING") as [Hpend|]; cbn [negb]; [|cbn; by auto 10].
  destruct (String.eqb_spec (mapMidtransStatus (MN_TransStatus n)) "") as [|Hst]; [cbn; by auto 10|].
  assert (actionable key (Some n) (p_db w2) n schema t) as Hact.
  { split_and!; [done|done|by rewrite Hd2, Hd1|done|by rewrite Hp; cbn; rewrite Hpend|done]. }
  destruct (String.eqb_spec (mapMidtransStatus (MN_TransStatus n)) "PAID") as [HP|HP].
  - pose proof (apply_paid_moves schema n now w2 t Hw2 Ht HP) as Hmv.
    unfold bind. pose proof (apply_paid_settles schema (MN_OrderID n) now w2 Hw2) as Hw3.
    destruct (apply_paid schema (MN_OrderID n) now w2) as [r3 w3] eqn:E3. cbn [snd] in *.
    destruct Hw3 as [-> Hw3]. cbn [ret]. by eauto 20.
  - unfold bind, ignore. cbn [ret].
    pose proof (texec_cases schema (update_payment (MN_OrderID n)
       (fun p => set_pt_status (mapMidtransStatus (MN_TransStatus n)) (pt_paid p) p)) w2 Hw2) as H3.
    destruct (texec _ _ w2) as [r3 w3]. cbn [snd]. destruct H3 as (Hw3 & _ & H3). split; [done|]. right. right.
    split; [done|]. split; [done|]. destruct H3 as [(t3 & Ht3 & -> & _)|(-> & _)]; [|by left].
    right. exists n, schema, t. split; [done|]. rewrite Ht in Ht3. injection Ht3 as <-.
    eexists. split; [reflexivity|].
    assert (update_payment (MN_OrderID n) (fun p => set_pt_status (mapMidtransStatus (MN_TransStatus n)) (pt_paid p) p) t
      = update_payment (MN_OrderID n) (settled_as n now) t) as ->
      by (unfold settled_as; apply String.eqb_neq in HP; by rewrite HP).
    auto.
Qed.

(** a payment that is not pending is final *)
Lemma webhook_final key n now schema t d faults :
  option_map snd (List.find (fun e => String.eqb e.1 (MN_OrderID n)) (webhook_map d)) = Some schema ->
  schemas d !! schema = Some t -> option_map pt_status (find_payment (MN_OrderID n) t) <> Some "PENDING" ->
  p_db (snd (serveMidtransWebhook key (Some n) now (Build_pg d None faults))) = d.
Proof.
  intros Hm Ht Hp. pose proof (webhook_effect key (Some n) now (Build_pg d None faults) eq_refl) as H.
  destruct (serveMidtransWebhook _ _ _ _) as [r w']. destruct H as [_ H].
  destruct H as [(_ & _ & ->)|[(_ & -> & _)|(_ & _ & [He|(n2 & s2 & t2 & (Hn & _ & Hm2 & Ht2 & Hp2 & _) & _)])]]; [done..|].
  injection Hn as <-. cbn in *. congruence.
Qed.

(** *** When the update of the payment goes through *)
(** the failure met by the [i]-th statement from here *)
Definition fault_at (i : nat) (w : pg billing_db) : fault := default Fine (p_faults w !! i).
Definition settled_tables (n : midtransNotification) (now : Z) (t t' : tenant_tables) : Prop :=
  payments t' = payments (update_payment (MN_OrderID n) (settled_as n now) t).

Lemma texec_lands schema f w t :
  p_tx w = None -> schemas (p_db w) !! schema = Some t -> fault_at 0 w <> FailBefore ->
  p_tx (snd (texec schema f w)) = None /\ p_db (snd (texec schema f w)) = put_schema schema (f t) (p_db w).
Proof.
  unfold fault_at. rewrite <- head_lookup. intros Hw Ht Hf. unfold texec, tstmt, stmt, outcome, on_schema. rewrite Hw, Ht.
  by destruct (default Fine (head (p_faults w))).
Qed.
Lemma tenant_of_order_lands o schema w :
  p_tx w = None -> option_map snd (List.find (fun e => String.eqb e.1 o) (webhook_map (p_db w))) = Some schema ->
  fault_at 0 w = Fine -> tenant_of_order o w = (Ok schema, Build_pg (p_db w) None (tail (p_faults w))).
Proof.
  unfold fault_at. rewrite <- head_lookup. intros Hw Hm Hf. unfold tenant_of_order, stmt, outcome. rewrite Hw, Hf.
  destruct (List.find _ _) as [e|]; [|done]. by injection Hm as ->.
Qed.
Lemma query_row_lands {A} schema (f : tenant_tables -> option A) w t a :
  p_tx w = None -> schemas (p_db w) !! schema = Some t -> f t = Some a -> fault_at 0 w = Fine ->
  query_row schema f w = (Ok a, Build_pg (p_db w) None (tail (p_faults w))).
Proof.
  unfold fault_at. rewrite <- head_lookup. intros Hw Ht Ha Hf.
  unfold query_row, tstmt, stmt, outcome, on_schema. rewrite Hw, Hf, Ht, Ha. cbn.
  pose proof (put_same schema t (p_db w) Ht) as E. unfold put_schema in E. cbn in E. by rewrite E.
Qed.

Lemma apply_paid_lands schema n now w t :
  p_tx w = None -> schemas (p_db w) !! schema = Some t -> mapMidtransStatus (MN_TransStatus n) = "PAID" ->
  fault_at 0 w <> FailBefore ->
  only_tenant schema (p_db w) (settled_tables n now t) (p_db (snd (apply_paid schema (MN_OrderID n) now w))).
Proof.
  intros Hw Ht HP Hf. unfold apply_paid. unfold bind at 1, ignore at 1.
  destruct (texec_lands schema (update_payment (MN_OrderID n) (set_pt_status "PAID" (Some now))) w t Hw Ht Hf) as [Hw1 Hd1].
  destruct (texec _ _ w) as [r1 w1]. cbn [snd] in *. set (P := only_tenant schema (p_db w) (settled_tables n now t)).
  assert (P (p_db w1)) as HP1.
  { rewrite Hd1. eexists. split; [reflexivity|]. unfold settled_tables, settled_as. by rewrite HP. }
  assert (forall d t1 t2, P d -> schemas d !! schema = Some t1 -> payments t2 = payments t1 -> P (put_schema schema t2 d)) as Hstay.
  { intros d t1 t2 Hd Hl E. apply (only_tenant_put _ _ _ _ t1); [done|done|]. unfold settled_tables. by rewrite E. }
  refine (proj2 (_ : settled_with P _)).
  set (m := bind _ _). assert (preserves (settled_with P) m) as Hm; [|by apply Hm].
  apply preserves_bind; [apply preserves_ignore, texec_keeps; intros d t1 Hd Hl; apply (Hstay d t1); [done..|];
    unfold pay_order; by destruct (find_payment _ _)|].
  intros _. apply preserves_bind; [auto with prog|]. intros [id|e]; [|auto with prog]. apply preserves_if; [auto with prog|].
  apply preserves_ignore, activate_keeps. intros d t1 t2 Hd Hl (E & _). by apply (Hstay d t1).
Qed.

Lemma webhook_lands key n now w schema t :
  p_tx w = None -> actionable key (Some n) (p_db w) n schema t ->
  fault_at 0 w = Fine -> fault_at 1 w = Fine -> fault_at 2 w <> FailBefore ->
  only_tenant schema (p_db w) (settled_tables n now t) (p_db (snd (serveMidtransWebhook key (Some n) now w))).
Proof.
  intros Hw (_ & Hs & Hm & Ht & Hp & Hst) F0 F1 F2. unfold serveMidtransWebhook. rewrite Hs, String.eqb_refl. cbn [negb].
  unfold bind at 1, attempt at 1. rewrite (tenant_of_order_lands _ schema) by done.
  set (w1 := Build_pg (p_db w) None (tail (p_faults w))).
  assert (forall i, fault_at i w1 = fault_at (S i) w) as E1 by (intros i; unfold fault_at, w1; cbn; by destruct (p_faults w)).
  apply fmap_Some in Hp as (p & Hp & Hpend).
  unfold bind at 1, attempt at 1. rewrite (query_row_lands _ _ w1 t p) by (done || by rewrite E1).
  rewrite <- Hpend, String.eqb_refl. cbn [negb]. apply String.eqb_neq in Hst as Hst'. rewrite Hst'.
  set (w2 := Build_pg (p_db w1) None (tail (p_faults w1))).
  assert (fault_at 0 w2 <> FailBefore) as F.
  { unfold fault_at, w2, w1 in *. cbn in *. by destruct (p_faults w) as [|? [|? ?]]. }
  destruct (String.eqb_spec (mapMidtransStatus (MN_TransStatus n)) "PAID") as [HP|HP].
  - pose proof (apply_paid_lands schema n now w2 t eq_refl Ht HP F) as Hl. unfold bind.
    pose proof (apply_paid_settles schema (MN_OrderID n) now w2 eq_refl) as Hr.
    destruct (apply_paid _ _ _ w2) as [r w3]. destruct Hr as [-> _]. exact Hl.
  - unfold bind, ignore. destruct (texec_lands schema (update_payment (MN_OrderID n)
      (fun p => set_pt_status (mapMidtransStatus (MN_TransStatus n)) (pt_paid p) p)) w2 t eq_refl Ht F) as [_ Hd].
    destruct (texec _ _ w2) as [r w3]. cbn [snd ret] in *. rewrite Hd. eexists. split; [reflexivity|].
    unfold settled_tables, settled_as. apply String.eqb_neq in HP. by rewrite HP.
Qed.

(** C25. Gateway notifications: whatever the body and whatever statements
    fail, a notification answers 400, 403 or 200, and it changes something only
    when it is signed with the server key, its order is mapped to a tenant, the
    payment is pending there and the status is one the code knows.  Then only
    that tenant's tables change, the usage log does not, and payments change in
    no other way than that payment moving to the notified status; once it has
    moved, no notification of the order changes anything.  It does move
    whenever the two lookups and the update of the payment's status go through,
    whatever fails after them. *)
Theorem webhook_guarded key body now w :
  p_tx w = None ->
  let '(r, w') := serveMidtransWebhook key body now w in
  (r = Ok 400 \/ r = Ok 403 \/ r = Ok 200) /\
  (p_db w' <> p_db w ->
     exists n schema t t', actionable key body (p_db w) n schema t /\ p_db w' = put_schema schema t' (p_db w) /\
       moved n now t t' /\
       (payments t' <> payments t ->
          forall key' body' now' faults n', body' = Some n' -> MN_OrderID n' = MN_OrderID n ->
            let w1 := Build_pg (p_db w') None faults in
            p_db (snd (serveMidtransWebhook key' body' now' w1)) = p_db w')) /\
  (forall n schema t, actionable key body (p_db w) n schema t ->
     fault_at 0 w = Fine -> fault_at 1 w = Fine -> fault_at 2 w <> FailBefore ->
     exists t', p_db w' = put_schema schema t' (p_db w) /\
       payments t' = payments (update_payment (MN_OrderID n) (settled_as n now) t)).
Proof.
  intros Hw. pose proof (webhook_effect key body now w Hw) as H.
  pose proof (fun n schema t => webhook_lands key n now w schema t Hw) as Hland.
  destruct (serveMidtransWebhook key body now w) as [r w'] eqn:Erun. destruct H as [Hw' H].
  split; [destruct H as [(-> & _)|[(-> & _)|(-> & _)]]; auto|]. split; [intros Hne|].
  2: { intros n schema t Hact F0 F1 F2. pose proof Hact as (-> & _). specialize (Hland n schema t Hact F0 F1 F2).
       by rewrite Erun in Hland. }
  destruct H as [(_ & _ & ->)|[(_ & -> & _)|(_ & _ & [He|(n & schema & t & Hact & t' & Hd & Hm)])]]; [done..|].
  exists n, schema, t, t'. split_and!; [done|done|done|]. intros Hp key' body' now' faults n' -> Hn w1.
  destruct Hact as (_ & _ & Hs & Ht & Hpend & Hst). unfold w1. rewrite Hd.
  apply (webhook_final _ _ _ schema t'); rewrite ?Hn; [done|apply lookup_insert_eq|].
  destruct Hm as (_ & _ & [?|Hp'] & _); [done|]. unfold find_payment. rewrite Hp'. by apply settled_not_pending.
Qed.

(** ** Top-ups are credited once *)
Definition topup_grants (o : TopUpOption) : list (string * Z) :=
  [("ai_token", TO_AITokens o); ("ai_conversation", TO_AIConversations o)].
(** a row that some paid top-up invoice of the tenant accounts for *)
Definition accounted (t : tenant_tables) (r : topup_row) : Prop :=
  tu_status r = "paid" /\
  exists o i, resolveTopUp (tu_code r) = Some o /\ i ∈ invoices t /\ iv_id i = tu_invoice r /\ iv_plan i = tu_code r /\
    tu_amount r = TO_AmountIDR o /\ (tu_event r, tu_quantity r) ∈ topup_grants o.
Definition credited_once (t : tenant_tables) : Prop :=
  NoDup (map (fun r => (tu_invoice r, tu_event r)) (topups t)) /\ forall r, r ∈ topups t -> accounted t r.
Definition all_credited_once (d : billing_db) : Prop := forall s t, schemas d !! s = Some t -> credited_once t.

Inductive call :=
  | COverview (u : option AuthUser)
  | CSelectPlan (u : option AuthUser) (plan rnd : string)
  | CTopUp (u : option AuthUser) (topup rnd : string)
  | CActivate (schema invoiceID : string)
  | CUsage (schema eventType : string) (quantity : Z)
  | CCreateQRIS (charge : string -> Z -> result midtransChargeResp) (u : option AuthUser) (p : CreateQRISParams)
  | CWebhook (key : string) (body : option midtransNotification).
Definition call_prog (c : call) (now : Z) : bill unit :=
  match c with
  | COverview u => ignore (Overview u now)
  | CSelectPlan u plan rnd => ignore (SelectPlan u plan rnd now)
  | CTopUp u topup rnd => ignore (CreateTopUpCheckout u topup rnd now)
  | CActivate schema id => ignore (ActivatePaidInvoice schema id now)
  | CUsage schema et q => ignore (RecordEvent schema et q now)
  | CCreateQRIS charge u p => ignore (CreateQRIS charge u p now)
  | CWebhook key body => ignore (serveMidtransWebhook key body now)
  end.
Definition run_call (d : billing_db) (c : call * Z * list fault) : billing_db :=
  p_db (snd (call_prog c.1.1 c.1.2 (Build_pg d None c.2))).

Definition invoices_kept (t t' : tenant_tables) : Prop :=
  topups t' = topups t /\
  forall i, i ∈ invoices t -> exists i', i' ∈ invoices t' /\ iv_id i' = iv_id i /\ iv_plan i' = iv_plan i.
Lemma kept_same t t' : topups t' = topups t -> invoices t' = invoices t -> invoices_kept t t'.
Proof. intros H1 H2. split; [done|]. rewrite H2. eauto. Qed.
Lemma kept_map f g t :
  (forall i, iv_id (g i) = iv_id i /\ iv_plan (g i) = iv_plan i) -> invoices_kept t (map_invoices f g t).
Proof.
  intros Hg. split; [done|]. intros i Hi. exists (if f i then g i else i). split.
  - cbn. apply list_elem_of_fmap. eauto.
  - destruct (f i); [apply Hg|done].
Qed.
Lemma kept_insert no plan name amount now t a t' :
  insert_invoice no plan name amount now t = (Ok a, t') -> invoices_kept t t'.
Proof.
  unfold insert_invoice. case_match; [done|]. intros [= _ <-]. split; [done|]. intros i Hi. exists i. cbn.
  rewrite elem_of_app. auto.
Qed.
Lemma accounted_kept t t' r : invoices_kept t t' -> accounted t r -> accounted t' r.
Proof.
  intros [_ Hk] (Hs & o & i & Ho & Hi & Hid & Hp & Ha & Hg). destruct (Hk i Hi) as (i' & Hi' & Hid' & Hp').
  split; [done|]. exists o, i'. split_and!; congruence.
Qed.
Lemma credited_kept t t' : invoices_kept t t' -> credited_once t -> credited_once t'.
Proof.
  intros Hk [Hn Hr]. split; [by rewrite (proj1 Hk)|]. intros r. rewrite (proj1 Hk). intros Hin.
  apply (accounted_kept t); [done|by apply Hr].
Qed.
Lemma credited_put schema t t' d :
  all_credited_once d -> schemas d !! schema = Some t -> (credited_once t -> credited_once t') ->
  all_credited_once (put_schema schema t' d).
Proof.
  intros Hd Ht Hk s u Hl. cbn in Hl. apply lookup_insert_Some in Hl as [[<- <-]|[_ Hl]]; [apply Hk; by apply (Hd schema)|by apply (Hd s)].
Qed.
Lemma texec_credited schema f :
  (forall t, invoices_kept t (f t)) -> preserves (settled_with all_credited_once) (texec schema f).
Proof. intros Hf. apply texec_keeps. intros d t Hd Ht. by apply (credited_put _ t); [..|apply credited_kept]. Qed.
Lemma tstmt_credited {A} schema (f : tenant_tables -> result A * tenant_tables) :
  (forall t a t', f t = (Ok a, t') -> invoices_kept t t') -> preserves (settled_with all_credited_once) (tstmt schema f).
Proof.
  intros Hf. apply tstmt_keeps. intros d t a t' Hd Ht E. by eapply (credited_put _ t); [..|eapply credited_kept, Hf].
Qed.
#[local] Hint Resolve texec_credited tstmt_credited : prog.

(** one row, for an invoice and an event type without one *)
Lemma credited_add id period o et q t i :
  credited_once t -> resolveTopUp (TO_Code o) = Some o -> i ∈ invoices t -> iv_id i = id -> iv_plan i = TO_Code o ->
  (et, q) ∈ topup_grants o -> (forall r, r ∈ topups t -> tu_invoice r = id -> tu_event r <> et) ->
  credited_once (add_topup (topup_entry id period o et q) t).
Proof.
  intros [Hn Hr] Ho Hi Hid Hp Hg Hnew. split.
  - cbn [topups add_topup set_topups]. rewrite map_app. apply NoDup_app. split_and!; [done| |apply NoDup_singleton].
    intros [x y] Hx Hy. cbn in Hy. apply list_elem_of_singleton in Hy as [= -> ->].
    apply list_elem_of_fmap in Hx as (r & [= Hx1 Hx2] & Hin). by apply (Hnew r).
  - intros r Hin. cbn in Hin. apply elem_of_app in Hin as [Hin| ->%list_elem_of_singleton].
    + exact (Hr r Hin).
    + split; [done|]. exists o, i. by split_and!.
Qed.

(** the entries of one top-up, inserted one by one *)
Lemma insert_topups_once schema id period o l w :
  settled_with all_credited_once w -> resolveTopUp (TO_Code o) = Some o ->
  (forall e, e ∈ l -> e ∈ topup_grants o) -> NoDup (map fst l) ->
  (forall t, schemas (p_db w) !! schema = Some t ->
     (exists i, i ∈ invoices t /\ iv_id i = id /\ iv_plan i = TO_Code o) /\
     forall r, r ∈ topups t -> tu_invoice r = id -> tu_event r ∉ map fst l) ->
  settled_with all_credited_once (snd (insert_topups schema id period o l w)).
Proof.
  intros Hw Ho. revert w Hw. induction l as [|[et q] l IH]; intros w Hw Hg Hn Hnew; [done|]. cbn [insert_topups].
  inversion Hn as [|? ? Hni Hn']; subst.
  assert (forall t r, schemas (p_db w) !! schema = Some t -> r ∈ topups t -> tu_invoice r = id -> tu_event r <> et) as Hfst.
  { intros t r Ht Hr Hid E. apply (proj2 (Hnew t Ht) r Hr Hid). rewrite E. by left. }
  destruct (q <=? 0).
  { apply IH; [done|intros e He; apply Hg; by right|done|]. intros t Ht. destruct (Hnew t Ht) as [Hi Hr].
    split; [done|]. intros r Hin Hid Hl. apply (Hr r Hin Hid). by right. }
  unfold bind. destruct Hw as [Hw Hd].
  pose proof (texec_cases schema (add_topup (topup_entry id period o et q)) w Hw) as H.
  destruct (texec _ _ w) as [r w1]. destruct H as (Hw1 & _ & H).
  assert (forall t, schemas (p_db w) !! schema = Some t -> credited_once (add_topup (topup_entry id period o et q) t)) as Hadd.
  { intros t Ht. destruct (Hnew t Ht) as [(i & Hi & Hid & Hp) _]. apply (credited_add _ _ _ _ _ _ i); try done.
    - by apply (Hd schema).
    - apply Hg. by left.
    - intros r' Hr'. by apply (Hfst t). }
  destruct H as [(t & Ht & Hd1 & _)|(Hd1 & Hr & _)].
  2: { destruct r; [done|]. cbn. split; [done|]. by rewrite Hd1. }
  assert (settled_with all_credited_once w1) as Hs1.
  { split; [done|]. rewrite Hd1. apply (credited_put _ t); [done|done|]. intros _. by apply Hadd. }
  destruct r as [[]|e]; [|done]. apply IH; [done|intros e He; apply Hg; by right|done|].
  rewrite Hd1. intros t1. cbn [schemas put_schema]. rewrite lookup_insert_eq. intros [= <-].
  destruct (Hnew t Ht) as [Hi Hr]. split; [done|]. intros r' Hr' Hid Hl. cbn in Hr'.
  apply elem_of_app in Hr' as [Hr'| ->%list_elem_of_singleton]; [apply (Hr r' Hr' Hid); by right|done].
Qed.

Lemma resolveTopUp_self code o : resolveTopUp code = Some o -> TO_Code o = code /\ resolveTopUp (TO_Code o) = Some o.
Proof.
  intros H. assert (TO_Code o = code) as E; [|by rewrite E].
  unfold resolveTopUp in H. apply List.find_some in H as [_ H]. by apply String.eqb_eq in H.
Qed.
Lemma applyPaidTopUp_once schema inv o now w t :
  settled_with all_credited_once w -> resolveTopUp (iv_plan inv) = Some o ->
  schemas (p_db w) !! schema = Some t -> inv ∈ invoices t ->
  settled_with all_credited_once (snd (applyPaidTopUp schema inv o now w)).
Proof.
  intros Hw Ho Ht Hin. destruct (resolveTopUp_self _ _ Ho) as [Hc Ho'].
  unfold applyPaidTopUp. unfold bind. pose proof (tread_keeps all_credited_once schema (has_paid_topup (iv_id inv)) w Hw) as Hw1.
  destruct (tread schema (has_paid_topup (iv_id inv)) w) as [[[]|e] w1] eqn:E; [done| |done].
  apply tstmt_ok in E as (t0 & t1 & Ht0 & [= Hno <-] & Hd & _); [|by destruct Hw]. rewrite put_same in Hd by done.
  rewrite Ht in Ht0. injection Ht0 as <-.
  apply insert_topups_once; [done|done|done|by apply NoDup_ListNoDup; repeat constructor; set_solver|].
  rewrite Hd. intros t1 Ht1. rewrite Ht in Ht1. injection Ht1 as <-. split; [exists inv; by rewrite Hc|].
  intros r Hr Hid _. apply (proj2 (proj2 Hw schema t Ht) r) in Hr as Hacc. destruct Hacc as [Hs _].
  assert (has_paid_topup (iv_id inv) t = true) as Hyes; [|congruence].
  apply existsb_exists. exists r. split; [by apply list_elem_of_In|]. rewrite Hid, Hs. by rewrite String.eqb_refl.
Qed.

Lemma ensure_credited schema now : preserves (settled_with all_credited_once) (ensureSubscription schema now).
Proof.
  unfold ensureSubscription. apply preserves_bind; [apply tread_keeps|]. intros [s|]; [auto with prog|].
  apply tstmt_credited. intros t a t' [= _ <-]. by apply kept_same.
Qed.
Lemma mark_paid_credited schema id now : preserves (settled_with all_credited_once) (texec schema (mark_invoice_paid id now)).
Proof. apply texec_credited. intros t. by apply kept_map. Qed.
#[local] Hint Resolve ensure_credited mark_paid_credited : prog.
Lemma activate_credited schema id now : preserves (settled_with all_credited_once) (ActivatePaidInvoice schema id now).
Proof.
  unfold ActivatePaidInvoice. apply preserves_if; [auto with prog|]. apply preserves_bind; [auto with prog|]. intros _ w Hw.
  unfold bind at 1. pose proof (tread_keeps all_credited_once schema (find_invoice id) w Hw) as Hw1.
  destruct (tread schema (find_invoice id) w) as [[[inv|]|e] w1] eqn:E; [|done..]. cbn [snd] in Hw1.
  apply tstmt_ok in E as (t & t1 & Ht & [= Hf <-] & Hd & _); [|by destruct Hw]. rewrite put_same in Hd by done.
  destruct (negb (payable inv)); [done|]. destruct (resolveTopUp (iv_plan inv)) as [o|] eqn:Ho.
  - unfold bind. assert (inv ∈ invoices t) as Hin by (apply list_elem_of_In; by apply List.find_some in Hf as [Hf _]).
    rewrite <- Hd in Ht. pose proof (applyPaidTopUp_once schema inv o now w1 t Hw1 Ho Ht Hin) as Hw2.
    destruct (applyPaidTopUp schema inv o now w1) as [[u|e] w2]; [|done]. by apply mark_paid_credited.
  - assert (forall m : bill unit, preserves (settled_with all_credited_once) m -> settled_with all_credited_once (snd (m w1)))
      as Hgo by (intros m Hm; by apply Hm). apply Hgo.
    destruct (resolvePlan (iv_plan inv)); [|auto with prog]. apply preserves_bind; [auto with prog|]. intros s.
    apply preserves_bind; [|auto with prog]. apply texec_credited. intros t2. by apply kept_same.
Qed.
Lemma webhook_credited key body now : preserves (settled_with all_credited_once) (serveMidtransWebhook key body now).
Proof.
  unfold serveMidtransWebhook. destruct body as [n|]; [|auto with prog]. apply preserves_if; [auto with prog|].
  assert (forall schema f, preserves (settled_with all_credited_once) (ignore (texec schema (update_payment (MN_OrderID n) f)))) as Hu.
  { intros schema f. apply preserves_ignore, texec_credited. intros t. by apply kept_same. }
  apply preserves_bind; [apply preserves_attempt, tenant_of_order_keeps|]. intros [schema|e]; [|auto with prog].
  apply preserves_bind; [auto with prog|]. intros [p|e]; [|auto with prog]. apply preserves_if; [auto with prog|].
  apply preserves_if; [auto with prog|]. apply preserves_bind; [|auto with prog]. apply preserves_if; [|done].
  unfold apply_paid. apply preserves_bind; [done|]. intros _. apply preserves_bind.
  { apply preserves_ignore, texec_credited. intros t. unfold pay_order. by destruct (find_payment _ _); apply kept_same. }
  intros _. apply preserves_bind; [auto with prog|]. intros [id|e]; [|auto with prog]. apply preserves_if; [auto with prog|].
  apply preserves_ignore, activate_credited.
Qed.
Lemma CreateQRIS_credited charge u p now : preserves (settled_with all_credited_once) (CreateQRIS charge u p now).
Proof.
  unfold CreateQRIS. destruct (requireTenantUser u) as [user|]; [|auto with prog]. do 3 (apply preserves_if; [auto with prog|]).
  apply preserves_bind; [auto with prog|]. intros [inv|e]; [|auto with prog]. do 2 (apply preserves_if; [auto with prog|]).
  destruct (charge _ _) as [resp|]; [|auto with prog]. apply preserves_bind.
  { apply prefix_keeps, tstmt_credited. intros t a t'. unfold insert_payment. case_match; [done|]. intros [= _ <-]. by apply kept_same. }
  intros _. apply preserves_bind; [|auto with prog]. apply preserves_ignore, stmt_keeps. intros d Hd. unfold insert_map. by case_match.
Qed.
Lemma SelectPlan_credited u plan rnd now : preserves (settled_with all_credited_once) (SelectPlan u plan rnd now).
Proof.
  unfold SelectPlan. destruct (owner_user u); [|auto with prog]. destruct (resolvePlan plan); [|auto with prog].
  apply preserves_if; [auto with prog|]. apply preserves_bind; [auto with prog|]. intros _.
  apply preserves_bind; [auto with prog|]. intros s. apply preserves_bind.
  { apply preserves_ignore, texec_credited. intros t. by apply kept_map. }
  intros _. apply preserves_bind; [|auto with prog]. apply tstmt_credited. apply kept_insert.
Qed.
Lemma CreateTopUp_credited u topup rnd now : preserves (settled_with all_credited_once) (CreateTopUpCheckout u topup rnd now).
Proof.
  unfold CreateTopUpCheckout. destruct (owner_user u); [|auto with prog]. destruct (resolveTopUp topup); [|auto with prog].
  apply preserves_bind; [auto with prog|]. intros _. apply preserves_bind; [apply tread_keeps|]. intros b.
  apply preserves_if; [auto with prog|]. apply preserves_bind; [|auto with prog]. apply tstmt_credited.
  apply kept_insert.
Qed.
Lemma call_credited c now : preserves (settled_with all_credited_once) (call_prog c now).
Proof.
  destruct c; apply preserves_ignore; [..|apply CreateQRIS_credited|apply webhook_credited].
  - unfold Overview. destruct (authUser u); [|auto with prog]. do 2 (apply preserves_bind; [auto with prog|intros ?]).
    do 2 (apply preserves_bind; [apply tread_keeps|intros ?]). auto with prog.
  - apply SelectPlan_credited.
  - apply CreateTopUp_credited.
  - apply activate_credited.
  - unfold RecordEvent. destruct (validateSchema schema); [auto with prog|].
    apply preserves_bind; [|intros _]; apply prefix_keeps, texec_credited; intros t; by apply kept_same.
Qed.

(** C26. Over any history of billing, usage and payment calls, one after
    another, with any failures, from tables without top-ups: in every tenant
    there is at most one top-up row per invoice and kind of usage, each row is
    paid for by an invoice of that tenant for exactly that top-up, and carries
    its price and the quantity it grants.  However often the gateway repeats a
    notification or an activation is retried, nothing is credited twice. *)
Theorem topup_credited_once calls d0 :
  (forall s t, schemas d0 !! s = Some t -> topups t = []) ->
  all_credited_once (fold_left run_call calls d0).
Proof.
  intros H0. assert (all_credited_once d0) as H.
  { intros s t Hs. unfold credited_once. rewrite (H0 s t Hs). split; [apply NoDup_nil_2|]. by intros r ?%not_elem_of_nil. }
  clear H0. revert d0 H. induction calls as [|[[c now] fl] calls IH]; intros d H; [done|]. cbn [fold_left].
  apply IH. by apply (call_credited c now (Build_pg d None fl)).
Qed.

(** ** A settled payment, end to end *)
Lemma texec_quiet schema f w t :
  quiet w -> schemas (p_db w) !! schema = Some t ->
  texec schema f w = (Ok tt, Build_pg (put_schema schema (f t) (p_db w)) None []).
Proof. intros Hq Ht. by apply (tstmt_quiet schema _ w t). Qed.
Definition at_tables (schema : string) (t : tenant_tables) (d : billing_db) : pg billing_db :=
  Build_pg (put_schema schema t d) None [].
Lemma at_lookup schema t d : schemas (p_db (at_tables schema t d)) !! schema = Some t.
Proof. cbn. apply lookup_insert_eq. Qed.
Lemma at_quiet schema t d : quiet (at_tables schema t d).
Proof. done. Qed.
#[local] Hint Resolve at_lookup at_quiet : core.
Lemma texec_at schema f t d : texec schema f (at_tables schema t d) = (Ok tt, at_tables schema (f t) d).
Proof. rewrite (texec_quiet _ _ _ t) by done. unfold at_tables. cbn. by rewrite put_put. Qed.
Lemma tread_at {A} schema (f : tenant_tables -> A) t d : tread schema f (at_tables schema t d) = (Ok (f t), at_tables schema t d).
Proof. by apply tread_quiet. Qed.
Lemma at_self schema t d : schemas d !! schema = Some t -> Build_pg d None [] = at_tables schema t d.
Proof. intros Ht. unfold at_tables. by rewrite put_same. Qed.

(** the tables once the payment is recorded *)
Definition payment_recorded (orderID : string) (now : Z) (t : tenant_tables) : tenant_tables :=
  pay_order orderID (update_payment orderID (set_pt_status "PAID" (Some now)) t).
Lemma find_payment_updated o f t p :
  (forall q, pt_order (f q) = pt_order q) -> find_payment o t = Some p -> find_payment o (update_payment o f t) = Some (f p).
Proof.
  intros Hf. unfold find_payment. cbn. induction (payments t) as [|q l IH]; [done|]. cbn.
  destruct (String.eqb (pt_order q) o) eqn:E; [|by rewrite E]. intros [= ->]. by rewrite Hf, E.
Qed.
Lemma pay_order_payments o t : payments (pay_order o t) = payments t.
Proof. unfold pay_order. by destruct (find_payment _ _). Qed.
Lemma find_payment_recorded o now t p :
  find_payment o t = Some p -> find_payment o (payment_recorded o now t) = Some (set_pt_status "PAID" (Some now) p).
Proof.
  intros Hp. unfold payment_recorded, find_payment. rewrite pay_order_payments. by apply find_payment_updated.
Qed.
Lemma webhook_settles key n now schema t d p id :
  actionable key (Some n) d n schema t -> mapMidtransStatus (MN_TransStatus n) = "PAID" ->
  find_payment (MN_OrderID n) t = Some p -> pt_invoice p = Some id -> id <> "" ->
  serveMidtransWebhook key (Some n) now (Build_pg d None []) =
    (Ok 200, snd (ActivatePaidInvoice schema id now (at_tables schema (payment_recorded (MN_OrderID n) now t) d))).
Proof.
  intros (_ & Hs & Hm & Ht & Hp & _) HP Hfp Hid Hne. unfold serveMidtransWebhook. rewrite Hs, String.eqb_refl.
  cbn [negb]. unfold bind at 1, attempt at 1, tenant_of_order, stmt. cbn [p_tx outcome p_faults head default from_option p_db].
  destruct (List.find _ (webhook_map d)) as [e|]; [|done]. injection Hm as Hm. rewrite Hm.
  unfold with_db, pop. cbn [p_faults tail]. rewrite (at_self schema t d Ht).
  unfold bind at 1, attempt at 1. rewrite (query_row_quiet _ _ _ t), Hfp by done.
  rewrite Hfp in Hp. injection Hp as Hp. rewrite Hp, HP. cbn [negb String.eqb Ascii.eqb Bool.eqb].
  unfold apply_paid. unfold bind, ignore at 1 2. rewrite texec_at. cbn [snd]. rewrite texec_at. cbn [snd].
  unfold attempt. rewrite (query_row_quiet _ _ _ (payment_recorded (MN_OrderID n) now t)) by done.
  rewrite (find_payment_recorded _ _ _ p) by done. cbn [option_map set_pt_status pt_invoice]. rewrite Hid. cbn [default from_option].
  apply String.eqb_neq in Hne. change (Datatypes.id id) with id. by rewrite Hne.
Qed.
Lemma open_ok schema w :
  schema <> "" -> ValidateTenantSchemaName schema = None -> openTenantScope schema w = (Ok tt, w).
Proof. intros Hne Hv. unfold openTenantScope. apply String.eqb_neq in Hne. by rewrite Hne, Hv. Qed.
Lemma activate_open schema id now t d :
  schema <> "" -> ValidateTenantSchemaName schema = None -> id <> "" ->
  ActivatePaidInvoice schema id now (at_tables schema t d) =
    match find_invoice id t with
    | None => (Err (ECode NotFound "invoice tidak ditemukan"), at_tables schema t d)
    | Some inv =>
        if negb (payable inv) then (Err (ECode FailedPrecondition "invoice tidak bisa diaktifkan"), at_tables schema t d)
        else (match resolveTopUp (iv_plan inv) with
              | Some topUp => applyPaidTopUp schema inv topUp now;! texec schema (mark_invoice_paid (iv_id inv) now)
              | None =>
                  match resolvePlan (iv_plan inv) with
                  | None => throw (ECode Internal "plan invoice tidak valid")
                  | Some plan =>
                      let! sub := ensureSubscription schema now in
                      texec schema (update_subscription (sb_id sub) (set_plan plan now));!
                      texec schema (mark_invoice_paid (iv_id inv) now)
                  end
              end) (at_tables schema t d)
    end.
Proof.
  intros Hs Hv Hi. unfold ActivatePaidInvoice. apply String.eqb_neq in Hs as Hs', Hi as Hi'. rewrite Hs', Hi'. cbn [orb].
  unfold bind at 1. rewrite open_ok by done. unfold bind at 1. rewrite tread_at.
  destruct (find_invoice id t) as [inv|]; [|done]. by destruct (negb (payable inv)).
Qed.
Lemma activate_plan schema id now t d inv plan s :
  schema <> "" -> ValidateTenantSchemaName schema = None -> id <> "" ->
  find_invoice id t = Some inv -> payable inv = true -> resolveTopUp (iv_plan inv) = None ->
  resolvePlan (iv_plan inv) = Some plan -> subscriptions t = [s] ->
  ActivatePaidInvoice schema id now (at_tables schema t d) =
    (Ok tt, at_tables schema (mark_invoice_paid id now (set_subscriptions [set_plan plan now s] t)) d).
Proof.
  intros Hs Hv Hi Hf Hp Ht Hr Hsub. rewrite activate_open, Hf, Hp, Ht, Hr by done. cbn [negb].
  unfold bind, ensureSubscription, bind. rewrite tread_at. unfold newest_subscription at 1. rewrite Hsub. cbn [latest ret].
  rewrite !texec_at. apply List.find_some in Hf as [_ Hid]. apply String.eqb_eq in Hid. rewrite Hid.
  unfold update_subscription. rewrite Hsub. cbn [map]. by rewrite String.eqb_refl.
Qed.
Lemma resolvePlan_code code plan : resolvePlan code = Some plan -> PL_Code plan <> "".
Proof.
  unfold resolvePlan. cbv zeta. case_match; [by intros [= <-]|]. case_match.
  - intros [= <-]. unfold lookup_key, PlanCatalog in *. repeat case_match; simplify_eq; done.
  - case_match; [|done]. cbn. by intros [= <-].
Qed.
Lemma recorded_billing o now t :
  invoices (payment_recorded o now t) = invoices t /\ subscriptions (payment_recorded o now t) = subscriptions t /\
  topups (payment_recorded o now t) = topups t.
Proof.
  unfold payment_recorded. generalize (update_payment o (set_pt_status "PAID" (Some now)) t)
    (eq_refl : (invoices (update_payment o (set_pt_status "PAID" (Some now)) t), subscriptions (update_payment o (set_pt_status "PAID" (Some now)) t),
                topups (update_payment o (set_pt_status "PAID" (Some now)) t)) = (invoices t, subscriptions t, topups t)).
  intros u [= <- <- <-]. unfold pay_order. by destruct (find_payment o u).
Qed.
Lemma find_invoice_marked id now t i :
  find_invoice id t = Some i -> payable i = true -> find_invoice id (mark_invoice_paid id now t) = Some (set_iv_paid now i).
Proof.
  unfold find_invoice. cbn. induction (invoices t) as [|j l IH]; [done|]. cbn.
  destruct (String.eqb (iv_id j) id) eqn:E; cbn [andb]; [|by rewrite E]. intros [= ->] ->. cbn. by rewrite E.
Qed.

(** C27. End to end: a signed settlement of a pending payment for a payable
    plan invoice, when nothing fails, answers 200, marks the payment and the
    invoice paid and gives the tenant's (active) subscription the plan bought,
    no longer a trial: from then on quota checks, entitlements and usage
    summaries read that plan. *)
Theorem settlement_activates_plan key n now schema t d p id inv plan s :
  actionable key (Some n) d n schema t -> mapMidtransStatus (MN_TransStatus n) = "PAID" ->
  find_payment (MN_OrderID n) t = Some p -> pt_invoice p = Some id -> id <> "" ->
  schema <> "" -> ValidateTenantSchemaName schema = None ->
  find_invoice id t = Some inv -> payable inv = true -> resolveTopUp (iv_plan inv) = None ->
  resolvePlan (iv_plan inv) = Some plan -> subscriptions t = [s] -> sb_status s = "active" ->
  exists t', serveMidtransWebhook key (Some n) now (Build_pg d None []) = (Ok 200, at_tables schema t' d) /\
    option_map pt_status (find_payment (MN_OrderID n) t') = Some "PAID" /\
    option_map iv_status (find_invoice id t') = Some "paid" /\ topups t' = topups t /\
    forall w, quiet w -> schemas (p_db w) !! schema = Some t' ->
      getTenantPlan schema w = (Ok (normalizePlanCode (PL_Code plan)), w).
Proof.
  intros Hact HP Hfp Hpid Hid Hs Hv Hf Hpay Htop Hpl Hsub Hst.
  rewrite (webhook_settles key n now schema t d p id) by done.
  set (t1 := payment_recorded (MN_OrderID n) now t).
  assert (invoices t1 = invoices t /\ subscriptions t1 = subscriptions t /\ topups t1 = topups t) as (Hi1 & Hs1 & Ht1)
    by apply recorded_billing.
  rewrite (activate_plan schema id now t1 d inv plan s); try done; [|unfold find_invoice; rewrite Hi1; exact Hf|congruence].
  eexists. split; [reflexivity|]. split_and!.
  - change (find_payment (MN_OrderID n) (mark_invoice_paid id now (set_subscriptions [set_plan plan now s] t1)))
      with (find_payment (MN_OrderID n) t1). unfold t1. by rewrite (find_payment_recorded _ _ _ p).
  - erewrite find_invoice_marked; [done| |exact Hpay]. unfold find_invoice. cbn [invoices set_subscriptions]. rewrite Hi1. exact Hf.
  - done.
  - intros w Hq Hl. rewrite (getTenantPlan_quiet _ _ _ Hq Hl). unfold spec_plan, active_subscription. cbn.
    rewrite Hst. cbn. apply resolvePlan_code, String.eqb_neq in Hpl. by rewrite Hpl.
Qed.
(** Money taken, nothing given: when the invoice of a pending payment is
    no longer payable (choosing another plan voids it while its QR code can
    still be paid), a signed settlement is answered 200 and marks the payment
    PAID, but the subscription, the invoices and the top-ups stay as they were;
    and no later notification of the order changes anything, so repeating it
    does not repair this. *)
Theorem paid_without_activation key n now schema t d p id inv :
  actionable key (Some n) d n schema t -> mapMidtransStatus (MN_TransStatus n) = "PAID" ->
  find_payment (MN_OrderID n) t = Some p -> pt_invoice p = Some id -> id <> "" ->
  schema <> "" -> ValidateTenantSchemaName schema = None ->
  find_invoice id t = Some inv -> payable inv = false ->
  exists t', serveMidtransWebhook key (Some n) now (Build_pg d None []) = (Ok 200, at_tables schema t' d) /\
    option_map pt_status (find_payment (MN_OrderID n) t') = Some "PAID" /\
    invoices t' = invoices t /\ subscriptions t' = subscriptions t /\ topups t' = topups t /\
    forall key' n' now' faults, MN_OrderID n' = MN_OrderID n ->
      let d' := put_schema schema t' d in
      p_db (snd (serveMidtransWebhook key' (Some n') now' (Build_pg d' None faults))) = d'.
Proof.
  intros Hact HP Hfp Hpid Hid Hs Hv Hf Hpay.
  rewrite (webhook_settles key n now schema t d p id) by done.
  set (t1 := payment_recorded (MN_OrderID n) now t). destruct (recorded_billing (MN_OrderID n) now t) as (Hi1 & Hs1 & Ht1).
  assert (find_payment (MN_OrderID n) t1 = Some (set_pt_status "PAID" (Some now) p)) as Hp1 by (by apply find_payment_recorded).
  exists t1. split_and!; [|by rewrite Hp1|done|done|done|].
  - rewrite activate_open by done. unfold find_invoice at 1. unfold t1 at 1. rewrite Hi1.
    unfold find_invoice in Hf. rewrite Hf, Hpay. done.
  - intros key' n' now' faults Hn. apply (webhook_final _ _ _ schema t1); rewrite ?Hn; [apply Hact|apply lookup_insert_eq|].
    rewrite Hp1. by cbn.
Qed.

(** ** Witnesses *)
Definition owner : AuthUser :=
  {| AccountID := "acc"; TenantID := "ten"; TenantSchema := "t_a"; Email := "o@x.id"; Name := "O"; Role := "owner";
     SessionID := "s"; HomeTenantID := "ten"; HomeTenantSchema := "t_a"; IsPlatformSession := false;
     SessionKind := "business"; Impersonating := false; ImpersonationTenantName := ""; ImpersonationTenantSlug := "";
     ImpersonationScope := ""; ImpersonationModules := []; ImpersonationExpiresAt := None |}.
Definition shop : billing_db :=
  {| schemas := {["t_a" :=
       {| subscriptions := []; invoices := []; topups := []; payments := []; orders := []; usage_events := [];
          usage_aggregates := ∅; fresh_ids := ["sub"; "inv1"; "pay1"; "inv2"; "pay2"] |}]}; webhook_map := [] |}.
Definition gateway (orderID : string) (amount : Z) : result midtransChargeResp :=
  Ok {| CR_TransactionID := "mid-" ++ orderID; CR_Actions := [("generate-qr-code", "https://qr")] |}.
Definition qris (id : string) (amount : Z) : call :=
  CCreateQRIS gateway (Some owner) {| CQ_InvoiceID := id; CQ_AmountIDR := amount; CQ_Description := "plan" |}.
Definition bought_pro : list (call * Z * list fault) :=
  [(CSelectPlan (Some owner) "pro" "abcdef", 0, []); (qris "inv1" 1999000, 1000000, [])].
Definition changed_mind : list (call * Z * list fault) :=
  (bought_pro ++ [(CSelectPlan (Some owner) "starter" "ghijkl", 2000000, [])])%list.
Definition bought_topup : list (call * Z * list fault) :=
  [(CTopUp (Some owner) "topup_ai_20000" "abcdef", 0, []); (qris "sub" 20000, 1000000, [])].
(** the gateway's notification of an order, signed *)
Definition settlement (key orderID : string) : midtransNotification :=
  {| MN_TransactionID := "mid"; MN_OrderID := orderID; MN_StatusCode := "200"; MN_GrossAmount := "1999000.00";
     MN_SignatureKey := hex_encode (Sum512 (orderID ++ "200" ++ "1999000.00" ++ key)); MN_TransStatus := "settlement";
     MN_FraudStatus := "accept"; MN_PaymentType := "qris" |}.
Definition order_of (d : billing_db) : string := match webhook_map d with e :: _ => e.1 | [] => "" end.
Definition tables_of (d : billing_db) : tenant_tables := default no_tables (schemas d !! "t_a").
Definition first_payment (d : billing_db) : payment_row :=
  default {| pt_order := ""; pt_transaction := ""; pt_invoice := None; pt_amount := 0; pt_description := ""; pt_status := "";
             pt_qr := ""; pt_expires := 0; pt_paid := None; pt_id := "" |} (head (payments (tables_of d))).
Definition first_invoice (d : billing_db) : invoice_row :=
  default {| iv_id := ""; iv_no := ""; iv_plan := ""; iv_name := ""; iv_amount := 0; iv_status := ""; iv_issued := 0;
             iv_paid := None; iv_created := 0 |} (head (invoices (tables_of d))).
Definition first_subscription (d : billing_db) : subscription_row :=
  default (trial_subscription 0 "") (head (subscriptions (tables_of d))).
Definition d_pro : billing_db := fold_left run_call bought_pro shop.
Definition d_void : billing_db := fold_left run_call changed_mind shop.
Definition d_topup : billing_db := fold_left run_call bought_topup shop.
Definition n_pro : midtransNotification := settlement "key" (order_of d_pro).
Definition n_void : midtransNotification := settlement "key" (order_of d_void).
Definition n_topup : midtransNotification := settlement "key" (order_of d_topup).

Lemma webhook_guarded_witness :
  p_db (snd (serveMidtransWebhook "key" (Some n_pro) 3000000 (Build_pg d_pro None []))) <> d_pro /\
  exists n schema t t', actionable "key" (Some n_pro) d_pro n schema t /\
    p_db (snd (serveMidtransWebhook "key" (Some n_pro) 3000000 (Build_pg d_pro None []))) = put_schema schema t' d_pro /\
    moved n 3000000 t t'.
Proof.
  assert (p_db (snd (serveMidtransWebhook "key" (Some n_pro) 3000000 (Build_pg d_pro None []))) <> d_pro) as Hne.
  { intros H. apply (f_equal (fun d => pt_status (first_payment d))) in H. vm_compute in H. discriminate H. }
  split; [exact Hne|].
  pose proof (webhook_guarded "key" (Some n_pro) 3000000 (Build_pg d_pro None []) eq_refl) as H.
  destruct (serveMidtransWebhook "key" (Some n_pro) 3000000 (Build_pg d_pro None [])) as [r w'].
  destruct H as [_ [H _]]. destruct (H Hne) as (n & schema & t & t' & H1 & H2 & H3 & _). by exists n, schema, t, t'.
Defined.
Lemma topup_credited_once_witness :
  all_credited_once (fold_left run_call
    (bought_topup ++ [(CWebhook "key" (Some n_topup), 5, []); (CWebhook "key" (Some n_topup), 6, []); (CActivate "t_a" "sub", 7, [])]) shop)
  /\ length (topups (tables_of (fold_left run_call
    (bought_topup ++ [(CWebhook "key" (Some n_topup), 5, []); (CWebhook "key" (Some n_topup), 6, []); (CActivate "t_a" "sub", 7, [])]) shop))) = 2%nat.
Proof.
  split; [|vm_compute; reflexivity]. apply topup_credited_once. intros s t Hs. cbn [shop schemas] in Hs.
  apply lookup_singleton_Some in Hs as [_ <-]. reflexivity.
Defined.
Lemma settlement_activates_plan_witness :
  exists t', serveMidtransWebhook "key" (Some n_pro) 3000000 (Build_pg d_pro None []) = (Ok 200, at_tables "t_a" t' d_pro) /\
    option_map iv_status (find_invoice "inv1" t') = Some "paid" /\
    getTenantPlan "t_a" (at_tables "t_a" t' d_pro) = (Ok "pro", at_tables "t_a" t' d_pro).
Proof.
  destruct (settlement_activates_plan "key" n_pro 3000000 "t_a" (tables_of d_pro) d_pro (first_payment d_pro) "inv1"
    (first_invoice d_pro) {| PL_Code := "pro"; PL_Name := "Pro"; PL_AmountIDR := 1999000;
      PL_Limits := limits 10 10 20000 30000000 10000 10240 5000 |} (first_subscription d_pro)) as (t' & H1 & _ & H3 & _ & H5);
    [split_and!; [reflexivity|..|discriminate]; vm_compute; reflexivity|try (vm_compute; reflexivity); discriminate ..|].
  exists t'. split; [exact H1|]. split; [exact H3|]. apply H5; [done|]. cbn. apply lookup_insert_eq.
Defined.
Lemma paid_without_activation_witness :
  exists t', serveMidtransWebhook "key" (Some n_void) 3000000 (Build_pg d_void None []) = (Ok 200, at_tables "t_a" t' d_void) /\
    option_map pt_status (find_payment (MN_OrderID n_void) t') = Some "PAID" /\
    subscriptions t' = subscriptions (tables_of d_void) /\ sb_trial (first_subscription d_void) = true.
Proof.
  destruct (paid_without_activation "key" n_void 3000000 "t_a" (tables_of d_void) d_void (first_payment d_void) "inv1"
    (first_invoice d_void)) as (t' & H1 & H2 & _ & H4 & _);
    [split_and!; [reflexivity|..|discriminate]; vm_compute; reflexivity|try (vm_compute; reflexivity); discriminate ..|].
  exists t'. split; [exact H1|]. split; [exact H2|]. split; [exact H4|vm_compute; reflexivity].
Defined.

(** the error of the first UPDATE is dropped: when that statement fails the
    plan is still activated, the payment stays pending, and the next
    notification of the order acts again *)
Definition d_half : billing_db :=
  p_db (snd (serveMidtransWebhook "key" (Some n_pro) 3000000 (Build_pg d_pro None [Fine; Fine; FailBefore]))).
Example failed_update_acts_twice :
  pt_status (first_payment d_half) = "PENDING" /\ iv_status (first_invoice d_half) = "paid" /\
  sb_plan (first_subscription d_half) = "pro" /\
  pt_status (first_payment (p_db (snd (serveMidtransWebhook "key" (Some n_pro) 4000000 (Build_pg d_half None []))))) = "PAID".
Proof. vm_compute. done. Qed.
