(* ===== verification/Float64.v ===== *)
(** * Go's float64

    The operations of the language and of package math that the code uses, over
    the Standard Library's executable IEEE 754 binary64 numbers.  Every
    operation rounds on its own (as compiled for amd64; Go may fuse [x*y + z]
    on other machines). *)
From Stdlib Require Export SpecFloat.
From S2P Require Import Prelude.

Open Scope Z_scope.

Definition f64 : Set := spec_float.
Definition fadd (x y : f64) : f64 := SFadd 53 1024 x y.
Definition fsub (x y : f64) : f64 := SFsub 53 1024 x y.
Definition fmul (x y : f64) : f64 := SFmul 53 1024 x y.
Definition fdiv (x y : f64) : f64 := SFdiv 53 1024 x y.
Definition fopp (x : f64) : f64 := SFopp x.
(** [x < y], [x <= y] *)
Definition fltb (x y : f64) : bool := SFltb x y.
Definition feqb (x y : f64) : bool := SFeqb x y.
Definition fleb (x y : f64) : bool := SFleb x y.
Definition of_Z (n : Z) : f64 := binary_normalize 53 1024 n 0 false.
Definition fzero : f64 := S754_zero false.
(** math.Round: to the nearest integer, halves away from zero *)
Definition Round (x : f64) : f64 :=
  match x with
  | S754_finite s m e =>
      if 0 <=? e then x
      else
        let d := 2 ^ (- e) in
        match (2 * Zpos m + d) / (2 * d) with
        | 0 => S754_zero s
        | q => binary_normalize 53 1024 (if s then - q else q) 0 s
        end
  | _ => x
  end.

(** a number below another and not below a finite one is finite *)
Lemma fsub_self x y s m e : fltb x y = true -> fleb x (S754_finite s m e) = false -> fsub x x = fzero.
Proof.
  unfold fltb, fleb, SFltb, SFleb, fsub. destruct x as [sx|[]| |sx mx ex]; [|done| |done|].
  - by destruct sx.
  - by destruct y as [|[]| |].
  - intros _ _. unfold SFsub. cbv zeta. rewrite Z.min_id. unfold shl_align. rewrite Z.sub_diag. cbn [fst].
    set (z := cond_Zopp sx (Zpos mx)). by replace (Z.sub z z) with 0 by lia.
Qed.
