(* ===== verification/Costing.v ===== *)
(** * Inventory costing

    Models [inventory/costing.go], [costing_engine.go] and [costing_replay.go]:
    the pure functions that plan which cost layers an issue consumes, update
    the balance snapshot, and replay a movement ledger. *)
From S2P Require Import Prelude GoStrings Float64.

Open Scope string_scope.
Open Scope Z_scope.

Definition CostingFIFO : string := "fifo".
Definition CostingLIFO : string := "lifo".
Definition CostingAverage : string := "average".
Definition normalizeCostingMethod (s : string) : option string :=
  let m := ToLower (TrimSpace s) in
  if String.eqb m "" then None
  else if String.eqb m CostingFIFO || String.eqb m CostingLIFO || String.eqb m CostingAverage then Some m
  else None.
Definition effectiveCostingMethod (skuOverride tenantDefault : string) : string :=
  match normalizeCostingMethod skuOverride with
  | Some m => m
  | None => match normalizeCostingMethod tenantDefault with Some m => m | None => CostingAverage end
  end.

(** the constant 1e-6 *)
Definition epsilon : f64 := fdiv (of_Z 1) (of_Z 1000000).
Definition round4 (x : f64) : f64 := fdiv (Round (fmul x (of_Z 10000))) (of_Z 10000).
Definition round2 (x : f64) : f64 := fdiv (Round (fmul x (of_Z 100))) (of_Z 100).

Record Layer := { L_ID : string; L_QtyRemaining : f64; L_UnitCost : f64; L_BatchNo : string }.
Record LayerConsumption := { LC_LayerID : string; LC_Qty : f64; LC_UnitCost : f64 }.

(** the loop of [planConsumption]: draws, their cost, what remains to be drawn *)
Fixpoint plan_loop (ordered : list Layer) (draws : list LayerConsumption) (totalCost remaining : f64)
  : list LayerConsumption * f64 * f64 :=
  match ordered with
  | [] => (draws, totalCost, remaining)
  | l :: rest =>
      if fleb remaining epsilon then (draws, totalCost, remaining)
      else if fleb (L_QtyRemaining l) epsilon then plan_loop rest draws totalCost remaining
      else
        let take := if fltb remaining (L_QtyRemaining l) then remaining else L_QtyRemaining l in
        plan_loop rest
          (draws ++ [{| LC_LayerID := L_ID l; LC_Qty := round4 take; LC_UnitCost := L_UnitCost l |}])%list
          (fadd totalCost (fmul take (L_UnitCost l))) (fsub remaining take)
  end.
Definition planConsumption (ordered : list Layer) (qty : f64) : list LayerConsumption * f64 * f64 :=
  let '(draws, totalCost, remaining) := plan_loop ordered [] fzero qty in
  (draws, round4 totalCost, if fltb epsilon remaining then round4 remaining else fzero).

Definition applyReceiptAverage (onHand avgCost recvQty recvUnitCost : f64) : f64 * f64 :=
  let newOnHand := fadd onHand recvQty in
  if fleb newOnHand epsilon then (fzero, fzero)
  else
    let newAvg := fdiv (fadd (fmul onHand avgCost) (fmul recvQty recvUnitCost)) newOnHand in
    (round4 newOnHand, round4 newAvg).
Definition issueCostAverage (avgCost qty : f64) : f64 := round4 (fmul avgCost qty).
Definition weightedUnitCost (totalCost qty : f64) : f64 :=
  if fleb qty epsilon then fzero else round4 (fdiv totalCost qty).

Record BalanceState := { OnHand : f64; AvgCost : f64; TotalValue : f64 }.
Definition no_balance : BalanceState := {| OnHand := fzero; AvgCost := fzero; TotalValue := fzero |}.
Definition applyIn (b : BalanceState) (qty unitCost : f64) : BalanceState :=
  let onHand := fadd (OnHand b) qty in
  let total := fadd (TotalValue b) (fmul qty unitCost) in
  let avg := if fltb epsilon onHand then fdiv total onHand else fzero in
  {| OnHand := round4 onHand; AvgCost := round4 avg; TotalValue := round4 total |}.
Definition applyOut (b : BalanceState) (qty cost : f64) : BalanceState :=
  let onHand := fsub (OnHand b) qty in
  let total := fsub (TotalValue b) cost in
  if fleb onHand epsilon then {| OnHand := round4 onHand; AvgCost := AvgCost b; TotalValue := fzero |}
  else {| OnHand := round4 onHand; AvgCost := round4 (fdiv total onHand); TotalValue := round4 total |}.

(** ** Replaying a ledger *)
Definition dirIn : string := "in".
Definition dirOut : string := "out".
Record ReplayMovement := { RM_ID : string; RM_Direction : string; RM_Qty : f64; RM_UnitCost : f64 }.
Record ReplaySnapshot := {
  RS_MovementID : string; RS_TotalCost : f64; RS_UnitCost : f64; RS_QtyAfter : f64; RS_AvgAfter : f64
}.
Record ReplayLayer := { RL_SourceMovementID : string; RL_QtyRemaining : f64; RL_UnitCost : f64 }.
Record ReplayResult := {
  RR_Snapshots : list ReplaySnapshot; RR_Layers : list ReplayLayer; RR_Balance : BalanceState
}.
Definition orderLayersForReplay (layers : list Layer) (method : string) : list Layer :=
  let live := List.filter (fun l => fltb epsilon (L_QtyRemaining l)) layers in
  if String.eqb method CostingLIFO then rev live else live.
(** the first layer with the drawn id *)
Fixpoint draw_layer (d : LayerConsumption) (layers : list Layer) : list Layer :=
  match layers with
  | [] => []
  | l :: rest =>
      if String.eqb (L_ID l) (LC_LayerID d) then
        {| L_ID := L_ID l; L_QtyRemaining := round4 (fsub (L_QtyRemaining l) (LC_Qty d)); L_UnitCost := L_UnitCost l;
           L_BatchNo := L_BatchNo l |} :: rest
      else l :: draw_layer d rest
  end.
Definition applyDrawsToLayers (layers : list Layer) (draws : list LayerConsumption) : list Layer :=
  fold_left (fun ls d => draw_layer d ls) draws layers.

Record replay_state := { rp_bal : BalanceState; rp_layers : list Layer; rp_snaps : list ReplaySnapshot }.
Definition replay_step (method : string) (st : replay_state) (m : ReplayMovement) : replay_state :=
  if fleb (RM_Qty m) epsilon then st
  else if String.eqb (RM_Direction m) dirIn then
    let cost := round4 (fmul (RM_Qty m) (RM_UnitCost m)) in
    let bal := applyIn (rp_bal st) (RM_Qty m) (RM_UnitCost m) in
    {| rp_bal := bal;
       rp_layers := if String.eqb method CostingAverage then rp_layers st
                    else (rp_layers st ++ [{| L_ID := RM_ID m; L_QtyRemaining := RM_Qty m; L_UnitCost := RM_UnitCost m;
                                              L_BatchNo := "" |}])%list;
       rp_snaps := (rp_snaps st ++ [{| RS_MovementID := RM_ID m; RS_TotalCost := cost; RS_UnitCost := RM_UnitCost m;
                                       RS_QtyAfter := OnHand bal; RS_AvgAfter := AvgCost bal |}])%list |}
  else
    let '(cost, layers) :=
      if String.eqb method CostingAverage then (issueCostAverage (AvgCost (rp_bal st)) (RM_Qty m), rp_layers st)
      else
        let '(draws, layerCost, shortfall) := planConsumption (orderLayersForReplay (rp_layers st) method) (RM_Qty m) in
        (if fltb epsilon shortfall then round4 (fadd layerCost (fmul shortfall (AvgCost (rp_bal st)))) else layerCost,
         applyDrawsToLayers (rp_layers st) draws) in
    let bal := applyOut (rp_bal st) (RM_Qty m) cost in
    {| rp_bal := bal; rp_layers := layers;
       rp_snaps := (rp_snaps st ++ [{| RS_MovementID := RM_ID m; RS_TotalCost := cost;
                                       RS_UnitCost := weightedUnitCost cost (RM_Qty m);
                                       RS_QtyAfter := OnHand bal; RS_AvgAfter := AvgCost bal |}])%list |}.
Definition replay_start : replay_state := {| rp_bal := no_balance; rp_layers := []; rp_snaps := [] |}.
Definition replayMovements (movs : list ReplayMovement) (method : string) : ReplayResult :=
  let st := fold_left (replay_step method) movs replay_start in
  {| RR_Snapshots := rp_snaps st;
     RR_Layers := map (fun l => {| RL_SourceMovementID := L_ID l; RL_QtyRemaining := round4 (L_QtyRemaining l);
                                   RL_UnitCost := L_UnitCost l |})
                    (List.filter (fun l => fltb epsilon (L_QtyRemaining l)) (rp_layers st));
     RR_Balance := rp_bal st |}.

(** concrete values: ten at 5.25, then four issued *)
Definition ten_in : ReplayMovement := {| RM_ID := "m1"; RM_Direction := "in"; RM_Qty := of_Z 10; RM_UnitCost := fdiv (of_Z 525) (of_Z 100) |}.
Definition four_out : ReplayMovement := {| RM_ID := "m2"; RM_Direction := "out"; RM_Qty := of_Z 4; RM_UnitCost := fzero |}.
Example replay_four : RR_Balance (replayMovements [ten_in; four_out] "average") =
  {| OnHand := of_Z 6; AvgCost := fdiv (of_Z 525) (of_Z 100); TotalValue := fdiv (of_Z 315) (of_Z 10) |}.
Proof. vm_compute. reflexivity. Qed.
(** five sold without stock, then ten bought at 100: the average becomes 200 *)
Example negative_then_receipt :
  AvgCost (applyIn (applyOut no_balance (of_Z 5) fzero) (of_Z 10) (of_Z 100)) = of_Z 200.
Proof. vm_compute. reflexivity. Qed.

(** ** What an issue consumes *)
Definition stocked (l : Layer) : bool := negb (fleb (L_QtyRemaining l) epsilon).
Definition draw (l : Layer) (take : f64) : LayerConsumption :=
  {| LC_LayerID := L_ID l; LC_Qty := round4 take; LC_UnitCost := L_UnitCost l |}.
Definition whole (l : Layer) : LayerConsumption := draw l (L_QtyRemaining l).
(** what is left of a quantity, and the cost so far, once layers are used up *)
Definition left_after (ls : list Layer) (qty : f64) : f64 := fold_left (fun r l => fsub r (L_QtyRemaining l)) ls qty.
Definition cost_of (ls : list Layer) (c : f64) : f64 :=
  fold_left (fun c l => fadd c (fmul (L_QtyRemaining l) (L_UnitCost l))) ls c.
(** the plan, told without the loop: the stocked layers in order, [full] used up,
    then at most one in part *)
Inductive consumes (ordered : list Layer) (qty : f64) : list LayerConsumption * f64 * f64 -> Prop :=
  | ConsumesWhole full rest :
      List.filter stocked ordered = (full ++ rest)%list ->
      (rest = [] \/ fleb (left_after full qty) epsilon = true) ->
      consumes ordered qty (map whole full, round4 (cost_of full fzero),
        if fltb epsilon (left_after full qty) then round4 (left_after full qty) else fzero)
  | ConsumesPart full l rest :
      List.filter stocked ordered = (full ++ l :: rest)%list ->
      fleb (left_after full qty) epsilon = false -> fltb (left_after full qty) (L_QtyRemaining l) = true ->
      consumes ordered qty ((map whole full ++ [draw l (left_after full qty)])%list,
        round4 (fadd (cost_of full fzero) (fmul (left_after full qty) (L_UnitCost l))), fzero).

Lemma plan_loop_done ordered draws c r :
  fleb r epsilon = true -> plan_loop ordered draws c r = (draws, c, r).
Proof. intros H. destruct ordered as [|l rest]; [done|]. cbn [plan_loop]. by rewrite H. Qed.
Lemma fleb_fzero : fleb fzero epsilon = true.
Proof. by vm_compute. Qed.
Lemma plan_loop_spec ordered draws c r :
  (exists full rest, List.filter stocked ordered = (full ++ rest)%list /\
     (rest = [] \/ fleb (left_after full r) epsilon = true) /\
     plan_loop ordered draws c r = ((draws ++ map whole full)%list, cost_of full c, left_after full r)) \/
  (exists full l rest, List.filter stocked ordered = (full ++ l :: rest)%list /\
     fleb (left_after full r) epsilon = false /\ fltb (left_after full r) (L_QtyRemaining l) = true /\
     plan_loop ordered draws c r = ((draws ++ map whole full ++ [draw l (left_after full r)])%list,
       fadd (cost_of full c) (fmul (left_after full r) (L_UnitCost l)), fzero)).
Proof.
  revert draws c r. induction ordered as [|l ordered IH]; intros draws c r.
  { left. exists [], []. cbn. rewrite app_nil_r. auto. }
  destruct (fleb r epsilon) eqn:Er.
  { left. exists [], (List.filter stocked (l :: ordered)). rewrite plan_loop_done by done. cbn [map left_after fold_left cost_of]. rewrite app_nil_r. auto. }
  cbn [plan_loop List.filter]. rewrite Er. destruct (fleb (L_QtyRemaining l) epsilon) eqn:El.
  { assert (stocked l = false) as -> by (unfold stocked; by rewrite El). apply IH. }
  assert (stocked l = true) as -> by (unfold stocked; by rewrite El). cbv zeta. destruct (fltb r (L_QtyRemaining l)) eqn:Ep.
  - right. exists [], l, (List.filter stocked ordered). split_and!; [done|done|done|].
    assert (fsub r r = fzero) as Hz by (eapply fsub_self; [exact Ep|exact Er]).
    rewrite Hz, plan_loop_done by apply fleb_fzero. done.
  - destruct (IH (draws ++ [whole l])%list (fadd c (fmul (L_QtyRemaining l) (L_UnitCost l))) (fsub r (L_QtyRemaining l)))
      as [(full & rest & Hf & Hd & Hp)|(full & l' & rest & Hf & Hr & Hl & Hp)].
    + left. exists (l :: full), rest. rewrite Hf. split_and!; [done|done|]. change (whole l) with (draw l (L_QtyRemaining l)) in Hp. unfold draw in Hp at 1.
      rewrite Hp.
      by rewrite <- app_assoc.
    + right. exists (l :: full), l', rest. rewrite Hf. split_and!; [done|done|done|]. change (whole l) with (draw l (L_QtyRemaining l)) in Hp. unfold draw in Hp at 1.
      rewrite Hp.
      by rewrite <- app_assoc.
Qed.

(** What an issue consumes: the loop over the cost layers computes exactly
    the plan: walking the layers in the given order and passing over the empty
    ones, it uses layers up whole until less than a layer is left to be drawn,
    takes that rest from the next layer, and reports a shortfall only when every
    stocked layer was used up.  The total is the cost of what was drawn. *)
Theorem consumption_plan ordered qty : consumes ordered qty (planConsumption ordered qty).
Proof.
  unfold planConsumption.
  destruct (plan_loop_spec ordered [] fzero qty) as [(full & rest & Hf & Hd & ->)|(full & l & rest & Hf & Hr & Hl & ->)].
  - by apply (ConsumesWhole _ _ full rest).
  - change (fltb epsilon fzero) with false. by apply (ConsumesPart _ _ full l rest).
Qed.
