(* ===== verification/StockLedger.v ===== *)
(** * The stock ledger

    Models [inventory/movement.go] ([PostMovement]), [document_engine.go],
    [recalc.go] and [costing_context_cache.go] over one tenant's inventory
    tables, through PgTx.v, with the arithmetic of Costing.v.  The NUMERIC(18,4)
    columns are the class [Numeric]: what a column gives back of a number
    written to it ([None]: out of range) and column minus number in SQL.
    Columns that are written but never read by this code (notes, batch and
    expiry dates, line and finance references, authors) are left out, and so
    are the two quantities in the text of [insufficientErr].  [now] is the
    transaction's clock, ids are drawn from [stock_ids]. *)
From Stdlib Require Import Sorting.Sorted.
From S2P Require Import Prelude GoStrings AdminSession PgTx Float64 Costing.

Open Scope string_scope.
Open Scope Z_scope.

Class Numeric := { column : f64 -> option f64; column_minus : f64 -> f64 -> option f64 }.

Record movement_row := {
  mv_id : string; mv_item : string; mv_wh : string; mv_type : string; mv_dir : string; mv_qty : f64; mv_unit : f64;
  mv_total : f64; mv_after : f64; mv_avg : f64; mv_ref_type : option string; mv_ref_id : option string; mv_created : Z
}.
Record layer_row := {
  cl_id : string; cl_item : string; cl_wh : string; cl_qty : f64; cl_unit : f64; cl_batch : option string;
  cl_source : option string; cl_received : Z
}.
Record stock_db := {
  movements : list movement_row; cost_layers : list layer_row; balances : gmap (string * string) BalanceState;
  inv_setting : option (string * bool);   (** the oldest row *)
  inv_sku : gmap string (option string); stock_ids : list string
}.
Definition set_movements l d : stock_db :=
  {| movements := l; cost_layers := cost_layers d; balances := balances d; inv_setting := inv_setting d;
     inv_sku := inv_sku d; stock_ids := stock_ids d |}.
Definition set_layers l d : stock_db :=
  {| movements := movements d; cost_layers := l; balances := balances d; inv_setting := inv_setting d;
     inv_sku := inv_sku d; stock_ids := stock_ids d |}.
Definition set_balances m d : stock_db :=
  {| movements := movements d; cost_layers := cost_layers d; balances := m; inv_setting := inv_setting d;
     inv_sku := inv_sku d; stock_ids := stock_ids d |}.
Definition stock_id (d : stock_db) : string := default "" (head (stock_ids d)).
Definition next_id (d : stock_db) : stock_db :=
  {| movements := movements d; cost_layers := cost_layers d; balances := balances d; inv_setting := inv_setting d;
     inv_sku := inv_sku d; stock_ids := tail (stock_ids d) |}.

Abbreviation stock A := (prog (pg stock_db) A).
Definition StockBadRequest (msg : string) : error := ECode InvalidArgument msg.
Definition out_of_range : error := EText "numeric field overflow".
Definition duplicate_id : error := EText "duplicate key value violates unique constraint".
(** a statement that fails when a number does not fit its column (or an id is
    taken; the texts of these errors are not told apart) *)
Definition checked (f : stock_db -> option stock_db) : stock unit :=
  stmt (fun d => match f d with Some d' => (Ok tt, d') | None => (Err out_of_range, d) end).
(** errors through [appErrs.Internal] *)
Definition internal {A} (m : stock A) : stock A :=
  let! r := attempt m in match r with Ok a => ret a | Err e => throw (ECode Internal (error_text e)) end.

(** ORDER BY *)
Fixpoint insert_by {A} (le : A -> A -> bool) (x : A) (l : list A) : list A :=
  match l with [] => [x] | y :: l' => if le x y then x :: l else y :: insert_by le x l' end.
Definition sort_by {A} (le : A -> A -> bool) (l : list A) : list A := foldr (insert_by le) [] l.
(** by time, then id *)
Definition before {A} (time : A -> Z) (id : A -> string) (x y : A) : bool :=
  (time x <? time y) || ((time x =? time y) && String.leb (id x) (id y)).

(** ** [movement.go] *)
Record MovementInput := {
  MI_CatalogItemID : string; MI_WarehouseID : string; MI_Type : string; MI_Direction : string; MI_Qty : f64;
  MI_UnitCost : f64; MI_CostingMethod : string; MI_BlockNegative : bool; MI_BatchNo : string;
  MI_RefType : string; MI_RefID : string
}.
Record MovementResult := {
  MR_MovementID : string; MR_TotalCost : f64; MR_UnitCost : f64; MR_QtyAfter : f64; MR_AvgAfter : f64; MR_Shortfall : f64
}.
Definition stockNull (s : string) : option string := let t := TrimSpace s in if String.eqb t "" then None else Some t.
Definition nullUUID (s : string) : option string := if String.eqb (TrimSpace s) "" then None else Some s.
Definition insufficientErr : error := StockBadRequest "stok tidak cukup".

Section numeric.
Context {num : Numeric}.

Definition pair_layers (item wh : string) (d : stock_db) : list layer_row :=
  List.filter (fun l => String.eqb (cl_item l) item && String.eqb (cl_wh l) wh) (cost_layers d).
Definition layer_of (l : layer_row) : Layer :=
  {| L_ID := cl_id l; L_QtyRemaining := cl_qty l; L_UnitCost := cl_unit l; L_BatchNo := default "" (cl_batch l) |}.
Definition loadLayers (item wh method : string) (d : stock_db) : list Layer :=
  let le := before cl_received cl_id in
  let le := if String.eqb method CostingLIFO then fun x y => le y x else le in
  map layer_of (sort_by le (List.filter (fun l => fltb fzero (cl_qty l)) (pair_layers item wh d))).
(** UPDATE inv_cost_layer SET qty_remaining = qty_remaining - $2 WHERE id = $1 *)
Definition take_from_layer (c : LayerConsumption) (d : stock_db) : option stock_db :=
  ls ← mapM (fun l =>
    if String.eqb (cl_id l) (LC_LayerID c) then
      q ← column_minus (cl_qty l) (LC_Qty c);
      Some {| cl_id := cl_id l; cl_item := cl_item l; cl_wh := cl_wh l; cl_qty := q; cl_unit := cl_unit l;
              cl_batch := cl_batch l; cl_source := cl_source l; cl_received := cl_received l |}
    else Some l) (cost_layers d);
  Some (set_layers ls d).
Fixpoint take_draws (draws : list LayerConsumption) : stock unit :=
  match draws with [] => ret tt | c :: rest => checked (take_from_layer c);! take_draws rest end.
Definition movement_of (id : string) (inp : MovementInput) (now : Z) (unitCost cost : f64) (b : BalanceState) : option movement_row :=
  qty ← column (MI_Qty inp); unit ← column unitCost; total ← column cost; after ← column (OnHand b); avg ← column (AvgCost b);
  Some {| mv_id := id; mv_item := MI_CatalogItemID inp; mv_wh := MI_WarehouseID inp; mv_type := MI_Type inp;
          mv_dir := MI_Direction inp; mv_qty := qty; mv_unit := unit; mv_total := total; mv_after := after; mv_avg := avg;
          mv_ref_type := stockNull (MI_RefType inp); mv_ref_id := nullUUID (MI_RefID inp); mv_created := now |}.
Definition insert_movement (inp : MovementInput) (now : Z) (unitCost cost : f64) (b : BalanceState) : stock string :=
  stmt (fun d =>
    match movement_of (stock_id d) inp now unitCost cost b with
    | None => (Err out_of_range, d)
    | Some m =>
        if existsb (fun x => String.eqb (mv_id x) (mv_id m)) (movements d) then (Err duplicate_id, d)
        else (Ok (mv_id m), next_id (set_movements (movements d ++ [m])%list d))
    end).
Definition insert_layer (item wh : string) (qty unitCost : f64) (batch source : option string) (now : Z) : stock unit :=
  checked (fun d =>
    q ← column qty; u ← column unitCost;
    if existsb (fun l => String.eqb (cl_id l) (stock_id d)) (cost_layers d) then None else
    Some (next_id (set_layers (cost_layers d ++
      [{| cl_id := stock_id d; cl_item := item; cl_wh := wh; cl_qty := q; cl_unit := u; cl_batch := batch;
          cl_source := source; cl_received := now |}])%list d))).
Definition upsert_balance (item wh : string) (b : BalanceState) : stock unit :=
  checked (fun d =>
    q ← column (OnHand b); a ← column (AvgCost b); t ← column (TotalValue b);
    Some (set_balances (<[(item, wh) := {| OnHand := q; AvgCost := a; TotalValue := t |}]> (balances d)) d)).

(** the cost of an issue and what it lacks *)
Definition issue_cost (inp : MovementInput) (method : string) (b : BalanceState) : stock (f64 * f64) :=
  if String.eqb method CostingAverage then
    let cost := issueCostAverage (AvgCost b) (MI_Qty inp) in
    if fltb (fadd (OnHand b) epsilon) (MI_Qty inp) then
      if MI_BlockNegative inp then throw insufficientErr
      else ret (cost, round4 (fsub (MI_Qty inp) (OnHand b)))
    else ret (cost, fzero)
  else
    let! layers := read (loadLayers (MI_CatalogItemID inp) (MI_WarehouseID inp) method) in
    let '(draws, layerCost, shortfall) := planConsumption layers (MI_Qty inp) in
    if fltb epsilon shortfall && MI_BlockNegative inp then throw insufficientErr
    else
      let cost := if fltb epsilon shortfall then round4 (fadd layerCost (fmul shortfall (AvgCost b))) else layerCost in
      take_draws draws;!
      ret (cost, shortfall).
Definition PostMovement (inp : MovementInput) (now : Z) : stock MovementResult :=
  if fleb (MI_Qty inp) epsilon then throw (StockBadRequest "qty harus lebih dari 0")
  else if negb (String.eqb (MI_Direction inp) dirIn) && negb (String.eqb (MI_Direction inp) dirOut) then
    throw (StockBadRequest "arah movement tidak valid")
  else
    let method := effectiveCostingMethod (MI_CostingMethod inp) "" in
    let item := MI_CatalogItemID inp in
    let wh := MI_WarehouseID inp in
    let isIn := String.eqb (MI_Direction inp) dirIn in
    let! found := read (fun d => balances d !! (item, wh)) in
    let b := default no_balance found in
    let! costs := (if isIn then ret (round4 (fmul (MI_Qty inp) (MI_UnitCost inp)), fzero) else issue_cost inp method b) in
    let '(cost, shortfall) := costs in
    let b := if isIn then applyIn b (MI_Qty inp) (MI_UnitCost inp) else applyOut b (MI_Qty inp) cost in
    let unitCost := if isIn then MI_UnitCost inp else weightedUnitCost cost (MI_Qty inp) in
    let! movementID := insert_movement inp now unitCost cost b in
    (if isIn && negb (String.eqb method CostingAverage)
     then insert_layer item wh (MI_Qty inp) (MI_UnitCost inp) (stockNull (MI_BatchNo inp)) (Some movementID) now
     else ret tt);!
    upsert_balance item wh b;!
    ret {| MR_MovementID := movementID; MR_TotalCost := cost; MR_UnitCost := unitCost; MR_QtyAfter := OnHand b;
           MR_AvgAfter := AvgCost b; MR_Shortfall := shortfall |}.

(** ** Replaying *)
Record costingContext := { cc_method : string; cc_blockNegative : bool }.
Definition loadCostingContext (item : string) : stock costingContext :=
  let! setting := internal (read inv_setting) in
  let! override := internal (read (fun d => inv_sku d !! item)) in
  ret {| cc_method := effectiveCostingMethod (default "" (default None override)) (match setting with Some s => s.1 | None => "" end);
         cc_blockNegative := match setting with Some s => s.2 | None => true end |}.
Definition pair_movements (item wh : string) (d : stock_db) : list movement_row :=
  List.filter (fun m => String.eqb (mv_item m) item && String.eqb (mv_wh m) wh) (movements d).
Definition replay_of (m : movement_row) : ReplayMovement :=
  {| RM_ID := mv_id m; RM_Direction := mv_dir m; RM_Qty := mv_qty m; RM_UnitCost := mv_unit m |}.
Definition loadReplayMovements (item wh : string) (d : stock_db) : list ReplayMovement :=
  map replay_of (sort_by (before mv_created mv_id) (pair_movements item wh d)).
Definition apply_snapshot (s : ReplaySnapshot) (m : movement_row) : option movement_row :=
  total ← column (RS_TotalCost s); unit ← column (RS_UnitCost s); after ← column (RS_QtyAfter s); avg ← column (RS_AvgAfter s);
  Some {| mv_id := mv_id m; mv_item := mv_item m; mv_wh := mv_wh m; mv_type := mv_type m; mv_dir := mv_dir m;
          mv_qty := mv_qty m; mv_unit := unit; mv_total := total; mv_after := after; mv_avg := avg;
          mv_ref_type := mv_ref_type m; mv_ref_id := mv_ref_id m; mv_created := mv_created m |}.
(** UPDATE inv_stock_movement … WHERE id = $1 *)
Definition write_snapshot (s : ReplaySnapshot) (d : stock_db) : option stock_db :=
  ms ← mapM (fun m => if String.eqb (mv_id m) (RS_MovementID s) then apply_snapshot s m else Some m) (movements d);
  Some (set_movements ms d).
Fixpoint write_snapshots (ss : list ReplaySnapshot) : stock unit :=
  match ss with [] => ret tt | s :: rest => internal (checked (write_snapshot s));! write_snapshots rest end.
Definition delete_layers (item wh : string) (d : stock_db) : stock_db :=
  set_layers (List.filter (fun l => negb (String.eqb (cl_item l) item && String.eqb (cl_wh l) wh)) (cost_layers d)) d.
Fixpoint insert_replayed (item wh : string) (now : Z) (ls : list ReplayLayer) : stock unit :=
  match ls with
  | [] => ret tt
  | l :: rest =>
      internal (insert_layer item wh (RL_QtyRemaining l) (RL_UnitCost l) None (nullUUID (RL_SourceMovementID l)) now);!
      insert_replayed item wh now rest
  end.
Definition replayPairInTx (item wh : string) (now : Z) : stock unit :=
  let! cc := loadCostingContext item in
  let! movs := internal (read (loadReplayMovements item wh)) in
  let res := replayMovements movs (cc_method cc) in
  write_snapshots (RR_Snapshots res);!
  internal (exec (delete_layers item wh));!
  insert_replayed item wh now (RR_Layers res);!
  internal (upsert_balance item wh (RR_Balance res)).
Fixpoint replayPairsInTx (pairs seen : list (string * string)) (now : Z) : stock unit :=
  match pairs with
  | [] => ret tt
  | p :: rest =>
      if String.eqb p.1 "" || String.eqb p.2 "" || bool_decide (p ∈ seen) then replayPairsInTx rest seen now
      else replayPairInTx p.1 p.2 now;! replayPairsInTx rest (p :: seen) now
  end.

Definition by_ref (refType refID : string) (m : movement_row) : bool :=
  bool_decide (mv_ref_type m = Some refType) && bool_decide (mv_ref_id m = Some refID).
Fixpoint pairs_of (ms : list movement_row) (seen : list (string * string)) : list (string * string) :=
  match ms with
  | [] => []
  | m :: rest =>
      let p := (mv_item m, mv_wh m) in
      if bool_decide (p ∈ seen) then pairs_of rest seen else p :: pairs_of rest (p :: seen)
  end.
Definition pairsFromMovements (ms : list movement_row) : list (string * string) := pairs_of ms [].
Definition purgeMovementsByRef (refType refID : string) (now : Z) : stock (list (string * string)) :=
  let! movs := internal (read (fun d => List.filter (by_ref refType refID) (movements d))) in
  let pairs := pairsFromMovements movs in
  (if negb (Nat.eqb (length movs) 0)
   then internal (exec (fun d => set_movements (List.filter (fun m => negb (by_ref refType refID m)) (movements d)) d))
   else ret tt);!
  replayPairsInTx pairs [] now;!
  ret pairs.

(** ** [recalc.go] *)
Definition getUser (u : option AuthUser) : result AuthUser :=
  match u with
  | None => Err (ECode Unauthenticated "missing auth data")
  | Some user =>
      if negb (HasEffectiveTenantContext u) then
        Err (ECode PermissionDenied "tenant context required — pantau tenant dari konsol admin")
      else match RequireModule u "inventory" with Some e => Err e | None => Ok user end
  end.
Definition requireOwner (u : option AuthUser) : option error :=
  if negb (CanPerformOwnerActions u) then Some (ECode PermissionDenied "owner access required") else None.
(** SELECT DISTINCT: in the order of first appearance *)
Definition movementPairs (item : string) (d : stock_db) : list (string * string) :=
  pairsFromMovements (List.filter (fun m => String.eqb item "" || String.eqb (mv_item m) item) (movements d)).
(** the loader's caches only spare queries: the settings do not change within
    the transaction *)
Definition load_context (item : string) : stock costingContext :=
  let! setting := internal (read inv_setting) in
  let defMethod := match setting with Some s => s.1 | None => CostingAverage end in
  let! override := internal (read (fun d => inv_sku d !! item)) in
  ret {| cc_method := effectiveCostingMethod (default "" (default None override)) defMethod;
         cc_blockNegative := match setting with Some s => s.2 | None => true end |}.
(** one statement for up to a hundred rows *)
Definition write_chunk (ss : list ReplaySnapshot) (d : stock_db) : option stock_db :=
  fold_left (fun d s => d ← d; write_snapshot s d) ss (Some d).
Fixpoint applyMovementSnapshots (fuel : nat) (ss : list ReplaySnapshot) : stock unit :=
  match fuel, ss with
  | _, [] => ret tt
  | O, _ => throw (EText "out of fuel")
  | S fuel, _ => internal (checked (write_chunk (take 100 ss)));! applyMovementSnapshots fuel (drop 100 ss)
  end.
Fixpoint recalculate_pairs (pairs : list (string * string)) (now : Z) : stock nat :=
  match pairs with
  | [] => ret 0%nat
  | (item, wh) :: rest =>
      let! cc := load_context item in
      let! movs := internal (read (loadReplayMovements item wh)) in
      let res := replayMovements movs (cc_method cc) in
      applyMovementSnapshots (length (RR_Snapshots res)) (RR_Snapshots res);!
      internal (exec (delete_layers item wh));!
      insert_replayed item wh now (RR_Layers res);!
      internal (upsert_balance item wh (RR_Balance res));!
      let! n := recalculate_pairs rest now in
      ret (S n)
  end.
Definition RecalculateHPP (u : option AuthUser) (item : string) (now : Z) : stock nat :=
  match getUser u with
  | Err e => throw e
  | Ok _ =>
      match requireOwner u with
      | Some e => throw e
      | None =>
          let! pairs := internal (read (movementPairs (TrimSpace item))) in
          in_tx (fun e => ECode Internal (error_text e)) (recalculate_pairs pairs now)
      end
  end.
End numeric.

(** ** Posting without failures *)
(** the tables a posting's transaction commits *)
Definition post `{Numeric} (d : stock_db) (c : MovementInput * Z) : option stock_db :=
  match PostMovement c.1 c.2 (Build_pg d (Some (d, false)) []) with
  | (Ok _, w) => match p_tx w with Some (d', false) => Some d' | _ => None end
  | (Err _, _) => None
  end.
Definition post_all `{Numeric} (cs : list (MovementInput * Z)) (d : stock_db) : option stock_db :=
  fold_left (fun od c => d ← od; post d c) cs (Some d).

Section replay.
Context {num : Numeric}.
(** a number of four decimals is stored as it is, or does not fit *)
Hypothesis column_round4 : forall x y, column (round4 x) = Some y -> y = round4 x.

Definition isIn (inp : MovementInput) : bool := String.eqb (MI_Direction inp) dirIn.
Definition average_cost (inp : MovementInput) (b : BalanceState) : f64 :=
  if isIn inp then round4 (fmul (MI_Qty inp) (MI_UnitCost inp)) else issueCostAverage (AvgCost b) (MI_Qty inp).
Definition average_after (inp : MovementInput) (b : BalanceState) : BalanceState :=
  if isIn inp then applyIn b (MI_Qty inp) (MI_UnitCost inp) else applyOut b (MI_Qty inp) (average_cost inp b).
Definition average_unit (inp : MovementInput) (b : BalanceState) : f64 :=
  if isIn inp then MI_UnitCost inp else weightedUnitCost (average_cost inp b) (MI_Qty inp).
Definition pair_balance (item wh : string) (d : stock_db) : BalanceState := default no_balance (balances d !! (item, wh)).
Definition stored_balance (b : BalanceState) : option BalanceState :=
  q ← column (OnHand b); a ← column (AvgCost b); t ← column (TotalValue b); Some {| OnHand := q; AvgCost := a; TotalValue := t |}.

Lemma stmt_run {A} (f : stock_db -> result A * stock_db) d0 d :
  stmt f (Build_pg d0 (Some (d, false)) []) =
    match f d with
    | (Ok a, d') => (Ok a, Build_pg d0 (Some (d', false)) [])
    | (Err e, _) => (Err e, Build_pg d0 (Some (d, true)) [])
    end.
Proof. unfold stmt. cbn. by destruct (f d) as [[a|e] d']. Qed.
Lemma read_run {A} (f : stock_db -> A) d0 d :
  read f (Build_pg d0 (Some (d, false)) []) = (Ok (f d), Build_pg d0 (Some (d, false)) []).
Proof. unfold read. by rewrite stmt_run. Qed.
Lemma checked_run (f : stock_db -> option stock_db) d0 d :
  checked f (Build_pg d0 (Some (d, false)) []) =
    match f d with
    | Some d' => (Ok tt, Build_pg d0 (Some (d', false)) [])
    | None => (Err out_of_range, Build_pg d0 (Some (d, true)) [])
    end.
Proof. unfold checked. rewrite stmt_run. by destruct (f d). Qed.

Lemma post_average inp now d d' :
  effectiveCostingMethod (MI_CostingMethod inp) "" = CostingAverage -> post d (inp, now) = Some d' ->
  let item := MI_CatalogItemID inp in let wh := MI_WarehouseID inp in let b := pair_balance item wh d in
  fleb (MI_Qty inp) epsilon = false /\
  exists m b', movement_of (stock_id d) inp now (average_unit inp b) (average_cost inp b) (average_after inp b) = Some m /\
    stored_balance (average_after inp b) = Some b' /\ mv_id m ∉ map mv_id (movements d) /\
    d' = set_balances (<[(item, wh) := b']> (balances d)) (next_id (set_movements (movements d ++ [m])%list d)).
Proof.
  intros Hm. unfold post. cbn [fst snd]. unfold PostMovement. cbv zeta. destruct (fleb (MI_Qty inp) epsilon); [done|].
  destruct (negb _ && negb _); [done|]. rewrite Hm. unfold bind at 1. rewrite read_run. fold (isIn inp).
  fold (pair_balance (MI_CatalogItemID inp) (MI_WarehouseID inp) d). set (b := pair_balance _ _ d).
  assert (forall k : f64 * f64 -> stock MovementResult, exists r,
    (bind (if isIn inp then ret (round4 (fmul (MI_Qty inp) (MI_UnitCost inp)), fzero) else issue_cost inp CostingAverage b) k)
      (Build_pg d (Some (d, false)) []) = r /\
    ((exists e, r = (Err e, Build_pg d (Some (d, false)) [])) \/
     exists sf, r = k (average_cost inp b, sf) (Build_pg d (Some (d, false)) []))) as Hk.
  { intros k. eexists. split; [reflexivity|]. unfold average_cost. destruct (isIn inp); [right; eexists; reflexivity|].
    unfold issue_cost. change (String.eqb CostingAverage CostingAverage) with true. cbv zeta. cbn iota.
    destruct (fltb _ _); [destruct (MI_BlockNegative inp)|]; unfold bind, ret, throw; eauto. }
  match goal with |- context [bind _ ?k _] => destruct (Hk k) as (r & -> & [(e & ->)|(sf & ->)]) end; [done|].
  clear Hk. cbn iota. assert ((if isIn inp then applyIn b (MI_Qty inp) (MI_UnitCost inp) else applyOut b (MI_Qty inp) (average_cost inp b))
    = average_after inp b) as -> by done.
  fold (average_unit inp b). unfold bind at 1, insert_movement. rewrite stmt_run.
  destruct (movement_of _ _ _ _ _ _) as [m|] eqn:Em; [|done].
  destruct (existsb _ (movements d)) eqn:Ex; [done|]. rewrite andb_false_r. unfold bind, ret at 1.
  unfold upsert_balance. rewrite checked_run. unfold stored_balance.
  destruct (column (OnHand _)) as [q|]; [|done]; cbn. destruct (column (AvgCost _)) as [a|]; [|done]; cbn.
  destruct (column (TotalValue _)) as [t|]; [|done]; cbn. intros [= <-]. split; [done|]. do 2 eexists.
  split_and!; [done|done| |done]. intros Hin. apply list_elem_of_fmap in Hin as (x & Hx & Hin).
  assert (existsb (fun y => String.eqb (mv_id y) (mv_id m)) (movements d) = true) as Hyes; [|congruence].
  apply existsb_exists. exists x. split; [by apply list_elem_of_In|]. apply String.eqb_eq. congruence.
Qed.

(** ** The ledger and its replay *)
Definition snap_of (m : movement_row) : ReplaySnapshot :=
  {| RS_MovementID := mv_id m; RS_TotalCost := mv_total m; RS_UnitCost := mv_unit m; RS_QtyAfter := mv_after m;
     RS_AvgAfter := mv_avg m |}.
Definition replayed (ms : list movement_row) : replay_state :=
  fold_left (replay_step CostingAverage) (map replay_of ms) replay_start.
(** what is written again is stored as it was *)
Definition settled_row (m : movement_row) : Prop := apply_snapshot (snap_of m) m = Some m.
Definition rounded (x : f64) : Prop := exists y, x = round4 y.
Definition rounded_balance (b : BalanceState) : Prop := rounded (OnHand b) /\ rounded (AvgCost b) /\ rounded (TotalValue b).
Record ledger_ok (item wh : string) (T : Z) (d : stock_db) : Prop := {
  lo_sorted : StronglySorted (fun x y => mv_created x < mv_created y) (pair_movements item wh d);
  lo_past : Forall (fun m => mv_created m < T) (pair_movements item wh d);
  lo_replay : replayed (pair_movements item wh d) =
    {| rp_bal := pair_balance item wh d; rp_layers := []; rp_snaps := map snap_of (pair_movements item wh d) |};
  lo_rows : Forall settled_row (pair_movements item wh d);
  lo_rounded : rounded_balance (pair_balance item wh d);
  lo_balance : pair_movements item wh d <> [] ->
    exists b, balances d !! (item, wh) = Some b /\ stored_balance b = Some b
}.
Record book_ok (T : Z) (d : stock_db) : Prop := {
  bo_ids : NoDup (map mv_id (movements d));
  bo_layers : cost_layers d = [];
  bo_pairs : forall item wh, ledger_ok item wh T d
}.
(** a posting whose quantity and price fit four decimals, by the average method *)
Definition exact_average (c : MovementInput) : Prop :=
  effectiveCostingMethod (MI_CostingMethod c) "" = CostingAverage /\
  column (MI_Qty c) = Some (MI_Qty c) /\ (isIn c = true -> column (MI_UnitCost c) = Some (MI_UnitCost c)).

Lemma rounded_zero : rounded fzero.
Proof. exists fzero. by vm_compute. Qed.
Lemma rounded_round4 x : rounded (round4 x).
Proof. by exists x. Qed.
#[local] Hint Resolve rounded_zero rounded_round4 : core.
Lemma rounded_stored x y : rounded x -> column x = Some y -> y = x /\ column x = Some x.
Proof. intros [z ->] H. apply column_round4 in H as E. by subst y. Qed.
Lemma weighted_rounded c q : rounded (weightedUnitCost c q).
Proof. unfold weightedUnitCost. case_match; auto. Qed.
Lemma average_cost_rounded inp b : rounded (average_cost inp b).
Proof. unfold average_cost, issueCostAverage. case_match; auto. Qed.
Lemma after_rounded inp b : rounded_balance b -> rounded_balance (average_after inp b).
Proof.
  intros (_ & Hb & _). unfold rounded_balance, average_after, applyIn, applyOut.
  destruct (isIn inp); [by cbn; auto|]. by case_match; cbn; auto.
Qed.
Lemma stored_rounded b b' : rounded_balance b -> stored_balance b = Some b' -> b' = b /\ stored_balance b = Some b.
Proof.
  intros (H1 & H2 & H3) H. assert (b' = b) as ->; [|done]. revert H. unfold stored_balance. destruct b as [q a t]. cbn in *.
  destruct (column q) as [q'|] eqn:E1; [|done]. destruct (column a) as [a'|] eqn:E2; [|done].
  destruct (column t) as [t'|] eqn:E3; [|done]. cbn. intros [= <-].
  apply rounded_stored in E1 as [-> _], E2 as [-> _], E3 as [-> _]; done.
Qed.

(** the row a posting adds *)
Lemma movement_exact id inp now b m :
  exact_average inp -> rounded_balance b ->
  movement_of id inp now (average_unit inp b) (average_cost inp b) (average_after inp b) = Some m ->
  mv_id m = id /\ mv_item m = MI_CatalogItemID inp /\ mv_wh m = MI_WarehouseID inp /\ mv_dir m = MI_Direction inp /\
  mv_qty m = MI_Qty inp /\ mv_unit m = average_unit inp b /\ mv_total m = average_cost inp b /\
  mv_after m = OnHand (average_after inp b) /\ mv_avg m = AvgCost (average_after inp b) /\ mv_created m = now /\ settled_row m.
Proof.
  intros (_ & Hq & Hu) Hb. destruct (after_rounded inp b Hb) as (Ho & Ha & _). unfold movement_of. rewrite Hq. cbn.
  assert (forall u, column (average_unit inp b) = Some u -> u = average_unit inp b /\ column (average_unit inp b) = Some (average_unit inp b)) as Hun.
  { intros u. unfold average_unit. destruct (isIn inp); [rewrite Hu by done; by intros [= <-]|].
    apply rounded_stored, weighted_rounded. }
  destruct (column (average_unit inp b)) as [u|] eqn:Eu; [|done]. cbn. destruct (Hun u eq_refl) as [-> _]. rename Eu into Hu'.
  destruct (column (average_cost inp b)) as [c|] eqn:Ec; [|done]. cbn.
  apply rounded_stored in Ec as [-> Hc']; [|apply average_cost_rounded].
  destruct (column (OnHand _)) as [o|] eqn:Eo; [|done]. cbn. apply rounded_stored in Eo as [-> Ho']; [|done].
  destruct (column (AvgCost _)) as [a|] eqn:Ea; [|done]. cbn. apply rounded_stored in Ea as [-> Ha']; [|done].
  intros [= <-]. split_and!; try done. unfold settled_row, apply_snapshot, snap_of. cbn. by rewrite Hc', Hu', Ho', Ha'.
Qed.
Lemma replay_row inp b m st :
  fleb (MI_Qty inp) epsilon = false -> mv_dir m = MI_Direction inp -> mv_qty m = MI_Qty inp -> mv_unit m = average_unit inp b ->
  mv_total m = average_cost inp b -> mv_after m = OnHand (average_after inp b) -> mv_avg m = AvgCost (average_after inp b) ->
  rp_bal st = b -> rp_layers st = [] ->
  replay_step CostingAverage st (replay_of m) =
    {| rp_bal := average_after inp b; rp_layers := []; rp_snaps := (rp_snaps st ++ [snap_of m])%list |}.
Proof.
  intros Hq Hd Hmq Hu Ht Ho Ha <- Hl. unfold replay_step, replay_of, snap_of. cbn [RM_Qty RM_Direction RM_UnitCost RM_ID].
  rewrite Hmq, Hq, Hd, Hu, Ht, Ho, Ha, Hl. fold (isIn inp).
  change (String.eqb CostingAverage CostingAverage) with true. cbn iota.
  unfold average_unit, average_after, average_cost. by destruct (isIn inp) eqn:E.
Qed.

Lemma pair_movements_snoc item wh d m b :
  pair_movements item wh (set_balances b (next_id (set_movements (movements d ++ [m])%list d))) =
    (pair_movements item wh d ++ (if String.eqb (mv_item m) item && String.eqb (mv_wh m) wh then [m] else []))%list.
Proof. unfold pair_movements. cbn. by rewrite List.filter_app. Qed.
Lemma StronglySorted_snoc {A} (R : A -> A -> Prop) l x :
  StronglySorted R l -> Forall (fun y => R y x) l -> StronglySorted R (l ++ [x]).
Proof.
  induction 1 as [|y l Hs IH Hy]; intros Hx; [repeat constructor|]. inversion Hx; subst. cbn. constructor; [by apply IH|].
  apply Forall_app. auto.
Qed.
Lemma ledger_later item wh T T' d : T <= T' -> ledger_ok item wh T d -> ledger_ok item wh T' d.
Proof. intros HT [H1 H2 H3 H4 H5 H6]. split; try done. eapply Forall_impl; [exact H2|]. cbn. lia. Qed.

Lemma post_keeps inp now T d d' :
  exact_average inp -> T <= now -> post d (inp, now) = Some d' -> book_ok T d -> book_ok (now + 1) d'.
Proof.
  intros Hex HT Hp [Hids Hlay Hpairs]. apply post_average in Hp as [Hq (m & b' & Hm & Hb' & Hnew & ->)]; [|apply Hex].
  set (item := MI_CatalogItemID inp) in *. set (wh := MI_WarehouseID inp) in *.
  pose proof (lo_rounded _ _ _ _ (Hpairs item wh)) as Hr. set (b := pair_balance item wh d) in *.
  apply (stored_rounded _ _ (after_rounded inp b Hr)) in Hb' as [-> Hsb].
  apply movement_exact in Hm as (Hid & Hi & Hw & Hd & Hmq & Hu & Ht & Ho & Ha & Hc & Hset); [|done|done].
  split; [cbn [movements set_balances next_id set_movements]; rewrite map_app; cbn; apply NoDup_app; split_and!;
    [done|by intros x Hx ->%list_elem_of_singleton|apply NoDup_singleton]|done|].
  intros item' wh'. destruct (Hpairs item' wh') as [H1 H2 H3 H4 H5 H6].
  assert (Forall (fun y => mv_created y < now) (pair_movements item' wh' d)) as Hpast
    by (eapply Forall_impl; [exact H2|cbn; lia]).
  pose proof (pair_movements_snoc item' wh' d m (<[(item, wh) := average_after inp b]> (balances d))) as Hpm.
  rewrite Hi, Hw in Hpm. fold item wh in Hpm.
  set (d' := set_balances _ _) in *.
  destruct (String.eqb item item' && String.eqb wh wh') eqn:E.
  - apply andb_true_iff in E as [->%String.eqb_eq ->%String.eqb_eq].
    assert (pair_balance item' wh' d' = average_after inp b) as Hpb
      by (unfold pair_balance; cbn; by rewrite lookup_insert_eq).
    split; rewrite ?Hpb, ?Hpm.
    + apply StronglySorted_snoc; [done|by rewrite Hc].
    + apply Forall_app. split; [eapply Forall_impl; [exact Hpast|cbn; lia]|]. constructor; [lia|constructor].
    + unfold replayed in *. rewrite map_app, fold_left_app, H3. cbn [map fold_left].
      rewrite (replay_row inp b m) by done. cbn [rp_snaps]. by rewrite map_app.
    + apply Forall_app. auto.
    + by apply after_rounded.
    + intros _. exists (average_after inp b). split; [cbn; apply lookup_insert_eq|done].
  - rewrite app_nil_r in Hpm.
    assert ((item, wh) <> (item', wh')) as Hne by (intros [= -> ->]; by rewrite !String.eqb_refl in E).
    assert (balances d' !! (item', wh') = balances d !! (item', wh')) as Hbl
      by (cbn; by rewrite lookup_insert_ne).
    apply (ledger_later _ _ T); [lia|]. split; unfold pair_balance; rewrite ?Hpm, ?Hbl; done.
Qed.

(** ** Recalculating a book that was only posted to *)
Lemma mapM_same {A} (f : A -> option A) l : (forall x, x ∈ l -> f x = Some x) -> mapM f l = Some l.
Proof.
  intros Hf. apply mapM_Some. induction l as [|x l IH]; constructor; [apply Hf; by left|]. apply IH. intros y Hy. apply Hf. by right.
Qed.
Lemma write_snapshot_same d m :
  NoDup (map mv_id (movements d)) -> m ∈ movements d -> settled_row m -> write_snapshot (snap_of m) d = Some d.
Proof.
  intros Hn Hin Hs. unfold write_snapshot. rewrite mapM_same; [by destruct d|]. intros x Hx. cbn [RS_MovementID snap_of].
  destruct (String.eqb_spec (mv_id x) (mv_id m)) as [E|]; [|done]. assert (x = m) as ->; [|done].
  apply list_elem_of_lookup in Hx as [i Hi], Hin as [j Hj].
  assert (i = j) as ->; [|congruence]. eapply (NoDup_lookup _ _ _ (mv_id m) Hn); rewrite list_lookup_fmap.
  - rewrite Hi. cbn. by rewrite E.
  - by rewrite Hj.
Qed.
Lemma write_chunk_same d ms :
  NoDup (map mv_id (movements d)) -> Forall (fun m => m ∈ movements d /\ settled_row m) ms ->
  write_chunk (map snap_of ms) d = Some d.
Proof.
  intros Hn. unfold write_chunk. induction ms as [|m ms IH]; intros Hf; [done|].
  inversion Hf as [|? ? [Hin Hs] Hms]; subst. cbn [map fold_left mbind option_bind]. rewrite write_snapshot_same by done. by apply IH.
Qed.
Lemma internal_ok {A} (m : stock A) w a w' : m w = (Ok a, w') -> internal m w = (Ok a, w').
Proof. intros E. unfold internal, bind, attempt. by rewrite E. Qed.
Lemma apply_snapshots_same fuel d0 d ms :
  NoDup (map mv_id (movements d)) -> Forall (fun m => m ∈ movements d /\ settled_row m) ms -> (length ms <= fuel)%nat ->
  applyMovementSnapshots fuel (map snap_of ms) (Build_pg d0 (Some (d, false)) []) = (Ok tt, Build_pg d0 (Some (d, false)) []).
Proof.
  intros Hn. revert ms. induction fuel as [|fuel IH]; intros ms Hf Hl; [by destruct ms; [|cbn in Hl; lia]|].
  destruct ms as [|m ms]; [done|]. set (ms' := m :: ms) in *.
  assert (applyMovementSnapshots (S fuel) (map snap_of ms') =
    (internal (checked (write_chunk (take 100 (map snap_of ms'))));! applyMovementSnapshots fuel (drop 100 (map snap_of ms')))) as ->
    by done.
  rewrite <- !fmap_take, <- fmap_drop. unfold bind. erewrite internal_ok; cycle 1.
  { rewrite checked_run. fold (map snap_of (take 100 ms')). rewrite write_chunk_same; [done|done|by apply Forall_take]. }
  apply IH; [by apply Forall_drop|]. rewrite length_drop. assert (length ms' = S (length ms)) by done. lia.
Qed.
Lemma sort_sorted {A} (le : A -> A -> bool) l : StronglySorted (fun x y => le x y = true) l -> sort_by le l = l.
Proof.
  induction 1 as [|x l Hs IH Hx]; [done|]. cbn. unfold sort_by in IH. rewrite IH. destruct l as [|y l]; [done|].
  cbn. inversion Hx as [|? ? Hy _]; subst. by rewrite Hy.
Qed.
Lemma load_replay_sorted item wh T d :
  ledger_ok item wh T d -> loadReplayMovements item wh d = map replay_of (pair_movements item wh d).
Proof.
  intros [Hs _ _ _ _ _]. unfold loadReplayMovements. rewrite sort_sorted; [done|].
  induction Hs as [|x l Hs IH Hx]; constructor; [done|]. eapply Forall_impl; [exact Hx|]. cbn. intros y Hy.
  unfold before. apply Z.ltb_lt in Hy. by rewrite Hy.
Qed.
(** the method in force for an item *)
Definition context_method (item : string) (d : stock_db) : string :=
  effectiveCostingMethod (default "" (default None (inv_sku d !! item)))
    (match inv_setting d with Some s => s.1 | None => CostingAverage end).
Lemma recalculate_same pairs now T d0 d :
  book_ok T d -> (forall item, context_method item d = CostingAverage) ->
  (forall p, p ∈ pairs -> pair_movements p.1 p.2 d <> []) ->
  recalculate_pairs pairs now (Build_pg d0 (Some (d, false)) []) = (Ok (length pairs), Build_pg d0 (Some (d, false)) []).
Proof.
  intros [Hids Hlay Hok] Hm. induction pairs as [|[item wh] pairs IH]; intros Hp; [done|]. cbn [recalculate_pairs].
  unfold bind at 1. unfold load_context, bind. rewrite !(internal_ok _ _ _ _ (read_run _ _ _)). unfold ret at 1.
  cbn [cc_method]. fold (context_method item d). rewrite Hm. rewrite (internal_ok _ _ _ _ (read_run _ _ _)).
  specialize (Hok item wh) as Hl. rewrite (load_replay_sorted _ _ _ _ Hl). destruct Hl as [_ _ Hr Hrows Hrd Hb].
  unfold replayMovements. fold (replayed (pair_movements item wh d)). rewrite Hr. cbn [RR_Snapshots RR_Layers RR_Balance rp_snaps rp_layers rp_bal].
  rewrite apply_snapshots_same; [|done| |by rewrite length_map].
  2: { apply Forall_forall. intros m Hin. split; [|by apply (proj1 (Forall_forall _ _) Hrows)].
       unfold pair_movements in Hin. by apply filter_elem in Hin as [? _]. }
  assert (exec (delete_layers item wh) (Build_pg d0 (Some (d, false)) []) = (Ok tt, Build_pg d0 (Some (d, false)) [])) as Hdel.
  { unfold exec. rewrite stmt_run. unfold delete_layers. rewrite Hlay. cbn. by destruct d; cbn in *; subst. }
  rewrite (internal_ok _ _ _ _ Hdel). cbn [map List.filter insert_replayed]. unfold ret at 1.
  destruct (Hb (Hp (item, wh) ltac:(by left))) as (b & Hbal & Hst).
  assert (upsert_balance item wh (pair_balance item wh d) (Build_pg d0 (Some (d, false)) []) = (Ok tt, Build_pg d0 (Some (d, false)) [])) as Hup.
  { unfold upsert_balance. rewrite checked_run. unfold pair_balance. rewrite Hbal. cbn [default from_option]. unfold id.
    unfold stored_balance in Hst. destruct (column (OnHand b)) as [q|]; [|done]. cbn in *.
    destruct (column (AvgCost b)) as [a|]; [|done]. cbn in *. destruct (column (TotalValue b)) as [t|]; [|done]. cbn in *.
    injection Hst as ->. rewrite insert_id by done. by destruct d. }
  rewrite (internal_ok _ _ _ _ Hup). rewrite IH; [done|]. intros p Hin. apply Hp. by right.
Qed.
Lemma pairs_of_elem ms seen p : p ∈ pairs_of ms seen -> exists m, m ∈ ms /\ p = (mv_item m, mv_wh m).
Proof.
  revert seen. induction ms as [|m ms IH]; intros seen; cbn [pairs_of]; [by intros ?%not_elem_of_nil|].
  case_match.
  - intros H1. destruct (IH _ H1) as (x & Hx & ->). exists x. split; [by right|done].
  - intros [->|H1]%elem_of_cons; [exists m; split; [by left|done]|]. destruct (IH _ H1) as (x & Hx & ->).
    exists x. split; [by right|done].
Qed.
Lemma post_settings c d d' :
  exact_average c.1 -> post d c = Some d' -> inv_setting d' = inv_setting d /\ inv_sku d' = inv_sku d.
Proof. destruct c as [inp now]. intros Hx Hp. by apply post_average in Hp as [_ (m & b' & _ & _ & _ & ->)]; [|apply Hx]. Qed.
Lemma post_all_book cs T d0 d :
  book_ok T d0 -> Forall (fun c => exact_average c.1) cs -> StronglySorted Z.lt (map snd cs) ->
  Forall (fun t => T <= t) (map snd cs) -> post_all cs d0 = Some d ->
  (exists T', book_ok T' d) /\ inv_setting d = inv_setting d0 /\ inv_sku d = inv_sku d0.
Proof.
  unfold post_all. revert T d0. induction cs as [|[inp now] cs IH]; intros T d0 Hb Hx Hs HT; cbn [fold_left].
  { intros [= ->]. eauto. }
  cbn [mbind option_bind]. inversion Hx as [|? ? Hx1 Hxs]; subst. cbn [map] in *. inversion Hs as [|? ? Hs1 Hlt]; subst.
  inversion HT as [|? ? HT1 HTs]; subst. destruct (post d0 (inp, now)) as [d1|] eqn:E.
  2: { clear. induction cs as [|c cs IH]; [done|apply IH]. }
  intros H. apply (post_settings (inp, now)) in E as Hset; [|done]. destruct Hset as [Hset1 Hset2].
  destruct (IH (now + 1) d1) as (HT' & -> & ->); [by eapply post_keeps|done|done| |done|].
  - eapply Forall_impl; [exact Hlt|]. cbn in *. lia.
  - done.
Qed.
Lemma empty_book T d : movements d = [] -> cost_layers d = [] -> balances d = ∅ -> book_ok T d.
Proof.
  intros Hm Hl Hb. split; [by rewrite Hm; constructor|done|]. intros item wh.
  assert (pair_movements item wh d = []) as Hp by (unfold pair_movements; by rewrite Hm).
  assert (pair_balance item wh d = no_balance) as Hpb by (unfold pair_balance; by rewrite Hb, lookup_empty).
  split; rewrite ?Hp, ?Hpb; [constructor|constructor|done|constructor| |done].
  unfold rounded_balance. cbn. auto.
Qed.

(** C31. Recalculation agrees with posting: take empty inventory tables, every
    item costed by the average method, and any successful postings of any items
    at increasing times, whose quantities and prices fit four decimals.  Then
    replaying the ledger rebuilds exactly what the postings had stored — every
    movement's cost and running balance, and every balance — so that
    [RecalculateHPP] by an owner succeeds, reports the pairs it replayed and
    leaves all tables as they were. *)
Theorem recalculation_is_noop cs d0 d u user item now :
  movements d0 = [] -> cost_layers d0 = [] -> balances d0 = ∅ -> (forall i, context_method i d0 = CostingAverage) ->
  Forall (fun c => exact_average c.1) cs -> StronglySorted Z.lt (map snd cs) ->
  post_all cs d0 = Some d -> getUser u = Ok user -> requireOwner u = None ->
  RecalculateHPP u item now (Build_pg d None []) =
    (Ok (length (movementPairs (TrimSpace item) d)), Build_pg d None []).
Proof.
  intros Hm Hl Hb Hc Hx Hs Hp Hu Ho. unfold RecalculateHPP. rewrite Hu, Ho.
  destruct (post_all_book cs (match cs with c :: _ => c.2 | [] => 0 end) d0 d) as [[T Hbook] [Hs1 Hs2]];
    [by apply empty_book|done|done| |done|].
  { destruct cs as [|c cs]; [constructor|]. cbn in *. inversion Hs; subst. constructor; [lia|].
    eapply Forall_impl; [eassumption|]. cbn. lia. }
  unfold bind at 1. rewrite (internal_ok _ _ (movementPairs (TrimSpace item) d) (Build_pg d None [])) by done.
  unfold in_tx, in_tx_errs, bind at 1, attempt at 1, begin_tx. cbn [outcome p_faults head default from_option].
  change (with_tx_state (Some (p_db (Build_pg d None []), false)) (pop (Build_pg d None []))) with (Build_pg d (Some (d, false)) (@nil fault)).
  unfold bind at 1, attempt at 1. rewrite (recalculate_same _ now T d d); [|done| |].
  - by cbn.
  - intros i. unfold context_method. rewrite Hs1, Hs2. apply Hc.
  - intros p Hin. unfold movementPairs, pairsFromMovements in Hin. apply pairs_of_elem in Hin as (m & Hin & ->).
    apply filter_elem in Hin as [Hin _]. cbn [fst snd]. intros He.
    assert (m ∈ pair_movements (mv_item m) (mv_wh m) d) as Hin2; [|rewrite He in Hin2; by apply not_elem_of_nil in Hin2].
    unfold pair_movements. apply filter_elem. by rewrite !String.eqb_refl.
Qed.
End replay.

(** ** Witness: two items, four postings *)
Definition plain_numeric : Numeric :=
  {| column x := match x with S754_nan | S754_infinity _ => None | _ => Some x end;
     column_minus a b := Some (round4 (fsub a b)) |}.
Definition posting (item dir : string) (qty cost : Z) (method : string) : MovementInput :=
  {| MI_CatalogItemID := item; MI_WarehouseID := "w"; MI_Type := if String.eqb dir "in" then "purchase_receive" else "sale_issue";
     MI_Direction := dir; MI_Qty := of_Z qty; MI_UnitCost := of_Z cost; MI_CostingMethod := method; MI_BlockNegative := true;
     MI_BatchNo := ""; MI_RefType := ""; MI_RefID := "" |}.
Definition empty_stock (setting : option (string * bool)) (ids : list string) : stock_db :=
  {| movements := []; cost_layers := []; balances := ∅; inv_setting := setting; inv_sku := ∅; stock_ids := ids |}.
Definition four_postings : list (MovementInput * Z) :=
  [(posting "a" "in" 10 100 "", 1); (posting "a" "in" 5 130 "", 2); (posting "b" "in" 7 9 "average", 3); (posting "a" "out" 4 0 "", 4)].
Definition before_postings : stock_db := empty_stock None ["m1"; "m2"; "m3"; "m4"].
Definition after_postings : stock_db := default before_postings (post_all (H := plain_numeric) four_postings before_postings).
Definition shop_owner : AuthUser :=
  {| AccountID := "acc"; TenantID := "ten"; TenantSchema := "t_a"; Email := ""; Name := ""; Role := "owner"; SessionID := "s";
     HomeTenantID := "ten"; HomeTenantSchema := "t_a"; IsPlatformSession := false; SessionKind := "business";
     Impersonating := false; ImpersonationTenantName := ""; ImpersonationTenantSlug := ""; ImpersonationScope := "";
     ImpersonationModules := []; ImpersonationExpiresAt := None |}.
Lemma recalculation_is_noop_witness :
  RecalculateHPP (num := plain_numeric) (Some shop_owner) "" 9 (Build_pg after_postings None []) =
    (Ok 2%nat, Build_pg after_postings None []) /\ length (movements after_postings) = 4%nat.
Proof.
  split; [|vm_compute; reflexivity].
  refine (recalculation_is_noop (num := plain_numeric) _ four_postings before_postings after_postings (Some shop_owner) shop_owner "" 9
    eq_refl eq_refl eq_refl _ _ _ _ eq_refl eq_refl).
  - intros x y. cbn. by destruct (round4 x); intros [= <-].
  - intros i. unfold context_method. cbn. rewrite lookup_empty. vm_compute. reflexivity.
  - repeat constructor.
  - repeat constructor.
  - vm_compute. reflexivity.
Defined.

(** *** A price of more than four decimals
    An adjustment and an opening balance post the price as it was sent, and
    Postgres rounds it to the column: ten at 1.00006 are stored at 1.0001 with a
    total of 10.0006, and the replay makes 10.001 of them. *)
Definition rounding_numeric : Numeric := {| column x := match x with S754_nan | S754_infinity _ => None | _ => Some (round4 x) end;
  column_minus a b := Some (round4 (fsub a b)) |}.
Definition decimals (n places : Z) : f64 := fdiv (of_Z n) (of_Z places).
Definition fine_price : MovementInput :=
  {| MI_CatalogItemID := "a"; MI_WarehouseID := "w"; MI_Type := "adjustment"; MI_Direction := "in"; MI_Qty := of_Z 10;
     MI_UnitCost := decimals 100006 100000; MI_CostingMethod := ""; MI_BlockNegative := true; MI_BatchNo := ""; MI_RefType := ""; MI_RefID := "" |}.
Definition costs (d : stock_db) : list (f64 * f64) := map (fun m => (mv_unit m, mv_total m)) (movements d).
Example fine_price_not_rebuilt :
  let d := default before_postings (post_all (H := rounding_numeric) [(fine_price, 1)] before_postings) in
  let d' := p_db (snd (RecalculateHPP (num := rounding_numeric) (Some shop_owner) "" 9 (Build_pg d None []))) in
  costs d = [(decimals 10001 10000, decimals 100006 10000)] /\ costs d' = [(decimals 10001 10000, decimals 10001 1000)].
Proof. vm_compute. split; reflexivity. Qed.

(** ** What a replay does to the cost layers *)
Section layers.
Context {num : Numeric}.
Lemma tx_then {A B} (m : stock A) (k : A -> stock B) (P Q S : stock_db -> Prop) (R : stock_db -> result A -> stock_db -> Prop) :
  tx_spec m R -> (forall d a d', R d (Ok a) d' -> P d -> Q d') ->
  (forall a, tx_spec (k a) (fun d r d' => is_ok r = true -> Q d -> S d')) ->
  tx_spec (bind m k) (fun d r d' => is_ok r = true -> P d -> S d').
Proof.
  intros Hm HQ Hk. eapply tx_weaken; [apply tx_bind; [exact Hm|exact Hk]|]. cbn.
  intros d r d' [(a & d1 & HR & HS)|(e & _ & ->)]; [|done]. intros Hok HP. apply HS; [done|]. by eapply HQ.
Qed.
Lemma tx_internal {A} (m : stock A) R :
  tx_spec m R -> tx_spec (internal m) (fun d r d' => is_ok r = true -> exists a, R d (Ok a) d').
Proof.
  intros Hm. unfold internal. eapply tx_weaken.
  - apply tx_bind; [apply tx_attempt, Hm|].
    instantiate (1 := fun a d r d' => is_ok r = is_ok a /\ d' = d).
    intros [a|e]; [eapply tx_weaken; [apply tx_ret|]|eapply tx_weaken; [apply tx_throw|]]; by intros d r d' [-> ->].
  - cbn. intros d r d' [(x & d1 & (y & [= ->] & HR) & Hr & ->)|(e & (x & ? & _) & _)]; [|done].
    rewrite Hr. destruct y; [|done]. intros _. by eexists.
Qed.
Definition tx_keeps {A} (P : stock_db -> Prop) (m : stock A) : Prop := tx_spec m (fun d r d' => is_ok r = true -> P d -> P d').
Lemma tx_keeps_bind {A B} (P : stock_db -> Prop) (m : stock A) (k : A -> stock B) :
  tx_keeps P m -> (forall a, tx_keeps P (k a)) -> tx_keeps P (bind m k).
Proof. intros Hm Hk. apply (tx_then m k P P P _ Hm); [by cbn; auto|exact Hk]. Qed.
Lemma tx_keeps_ret {A} P (a : A) : tx_keeps P (ret a).
Proof. eapply tx_weaken; [apply tx_ret|]. by intros d r d' [_ ->]. Qed.
Lemma tx_keeps_internal {A} P (m : stock A) : tx_keeps P m -> tx_keeps P (internal m).
Proof.
  intros Hm. eapply tx_weaken; [apply tx_internal, Hm|]. cbn. intros d r d' H Hok. destruct (H Hok) as [a Ha]. by apply Ha.
Qed.
Lemma tx_keeps_checked P f : (forall d d', f d = Some d' -> P d -> P d') -> tx_keeps P (checked f).
Proof.
  intros Hf. eapply tx_weaken; [apply tx_stmt|]. cbn. intros d r d' (a & -> & E) _ HP.
  destruct (f d) as [d1|] eqn:Ef; [|done]. injection E as _ <-. by apply (Hf d).
Qed.

(** the layers of a pair, all received at one time *)
Definition received_at (item wh : string) (now : Z) (d : stock_db) : Prop :=
  Forall (fun l => cl_received l = now) (pair_layers item wh d).
Lemma insert_layer_received item wh q u b s now :
  tx_keeps (received_at item wh now) (insert_layer item wh q u b s now).
Proof.
  apply tx_keeps_checked. intros d d'. destruct (column q) as [q'|]; [|done]. destruct (column u) as [u'|]; [|done]. cbn.
  case_match; [done|]. intros [= <-] Hd. unfold received_at, pair_layers. cbn. rewrite List.filter_app. apply Forall_app.
  split; [exact Hd|]. cbn. rewrite !String.eqb_refl. by repeat constructor.
Qed.
Lemma insert_replayed_received item wh now ls : tx_keeps (received_at item wh now) (insert_replayed item wh now ls).
Proof.
  induction ls as [|l ls IH]; cbn [insert_replayed]; [apply tx_keeps_ret|].
  apply tx_keeps_bind; [apply tx_keeps_internal, insert_layer_received|done].
Qed.
Lemma upsert_received item wh now i w b : tx_keeps (received_at item wh now) (upsert_balance i w b).
Proof.
  apply tx_keeps_checked. intros d d'. destruct (column (OnHand b)); [|done]. destruct (column (AvgCost b)); [|done].
  destruct (column (TotalValue b)); [|done]. cbn. by intros [= <-].
Qed.
Lemma delete_received item wh now d : received_at item wh now (delete_layers item wh d).
Proof.
  unfold received_at, pair_layers, delete_layers. cbn. induction (cost_layers d) as [|l ls IH]; [constructor|]. cbn.
  destruct (String.eqb (cl_item l) item && String.eqb (cl_wh l) wh) eqn:E; cbn; [done|]. by rewrite E.
Qed.
Lemma tx_keeps_read {A} P (f : stock_db -> A) : tx_keeps P (read f).
Proof. eapply tx_weaken; [apply tx_read|]. by intros d r d' [-> ->]. Qed.
(** whatever came before, the layers are fresh afterwards *)
Lemma replay_received item wh now :
  tx_spec (replayPairInTx item wh now) (fun d r d' => is_ok r = true -> True -> received_at item wh now d').
Proof.
  unfold replayPairInTx. set (Tr := fun _ : stock_db => True).
  assert (forall A B (m : stock A) (k : A -> stock B) (Q : stock_db -> Prop), tx_keeps Tr m ->
    (forall a, tx_spec (k a) (fun d r d' => is_ok r = true -> Tr d -> Q d')) ->
    tx_spec (bind m k) (fun d r d' => is_ok r = true -> Tr d -> Q d')) as Hpre.
  { intros A B m k Q Hm Hk. by apply (tx_then m k Tr Tr Q _ Hm). }
  apply Hpre.
  { unfold loadCostingContext. repeat (apply tx_keeps_bind; [apply tx_keeps_internal, tx_keeps_read|intros ?]). apply tx_keeps_ret. }
  intros cc. apply Hpre; [apply tx_keeps_internal, tx_keeps_read|]. intros movs. cbv zeta. apply Hpre.
  { induction (RR_Snapshots _) as [|s ss IH]; cbn [write_snapshots]; [apply tx_keeps_ret|].
    apply tx_keeps_bind; [by apply tx_keeps_internal, tx_keeps_checked|done]. }
  intros _. eapply (tx_then _ _ Tr (received_at item wh now)); [apply tx_internal, tx_exec| |].
  - cbn. intros d a d' H _. destruct (H eq_refl) as (_ & _ & ->). apply delete_received.
  - intros _. apply tx_keeps_bind; [apply insert_replayed_received|]. intros _. apply tx_keeps_internal, upsert_received.
Qed.
Lemma insert_by_elem {A} (le : A -> A -> bool) x l y : y ∈ insert_by le x l -> y = x \/ y ∈ l.
Proof.
  induction l as [|z l IH]; cbn; [intros ->%list_elem_of_singleton; by left|]. case_match; [by intros [->|H1]%elem_of_cons; auto|].
  intros [->|H1]%elem_of_cons; [right; by left|]. destruct (IH H1) as [->|H2]; [by left|right; by right].
Qed.
Lemma insert_by_ext {A} (le le' : A -> A -> bool) x l :
  (forall y, y ∈ l -> le x y = le' x y) -> insert_by le x l = insert_by le' x l.
Proof.
  induction l as [|z l IH]; intros H; [done|]. cbn. rewrite (H z) by (by left). case_match; [done|]. f_equal. apply IH.
  intros y Hy. apply H. by right.
Qed.
Lemma sort_by_elem {A} (le : A -> A -> bool) l y : y ∈ sort_by le l -> y ∈ l.
Proof.
  induction l as [|x l IH]; [done|]. cbn. intros [->|H1]%insert_by_elem; [by left|right; by apply IH].
Qed.
Lemma sort_by_ext {A} (le le' : A -> A -> bool) l :
  (forall x y, x ∈ l -> y ∈ l -> le x y = le' x y) -> sort_by le l = sort_by le' l.
Proof.
  induction l as [|x l IH]; intros H; [done|]. cbn. change (foldr (insert_by le) [] l) with (sort_by le l).
  change (foldr (insert_by le') [] l) with (sort_by le' l). rewrite IH by (intros y z Hy Hz; apply H; by right).
  apply insert_by_ext. intros y Hy. apply H; [by left|right; by apply (sort_by_elem le')].
Qed.

(** A replay forgets the order of receipts: after a successful replay of
    an item in a warehouse — which every deletion or edit of a bill, a return or
    a stock transaction runs — the item's cost layers all carry the time of the
    replay, so the next issues by FIFO consume them in the order of their new
    random ids, and by LIFO in the reverse of it, whatever was received first. *)
Theorem replay_forgets_receipt_order item wh now d0 d w r :
  replayPairInTx item wh now (Build_pg d0 (Some (d, false)) []) = (Ok r, w) ->
  forall d', p_tx w = Some (d', false) ->
    let live := List.filter (fun l => fltb fzero (cl_qty l)) (pair_layers item wh d') in
    let by_id (x y : layer_row) := String.leb (cl_id x) (cl_id y) in
    loadLayers item wh CostingFIFO d' = map layer_of (sort_by by_id live) /\
    loadLayers item wh CostingLIFO d' = map layer_of (sort_by (fun x y => by_id y x) live).
Proof.
  intros E d' Hw live by_id. pose proof (replay_received item wh now (Build_pg d0 (Some (d, false)) []) d false eq_refl) as H.
  rewrite E in H. destruct H as (_ & d1 & b1 & Hw1 & _ & H). rewrite Hw in Hw1. injection Hw1 as <- <-.
  specialize (H eq_refl eq_refl I). unfold received_at in H. rewrite Forall_forall in H.
  assert (forall x y, x ∈ live -> y ∈ live -> before cl_received cl_id x y = by_id x y) as Hb.
  { intros x y Hx Hy. unfold live in *. apply filter_elem in Hx as [Hx _], Hy as [Hy _]. unfold before.
    by rewrite (H _ Hx), (H _ Hy), Z.ltb_irrefl, Z.eqb_refl. }
  unfold loadLayers. change (String.eqb CostingFIFO CostingLIFO) with false. change (String.eqb CostingLIFO CostingLIFO) with true.
  cbv zeta iota. split; f_equal; apply sort_by_ext; auto.
Qed.
End layers.

(** two receipts, ten at 100 and then ten at 200; nothing is changed but the
    replay; the cost of issuing ten doubles *)
Definition two_receipts : stock_db :=
  default before_postings (post_all (H := plain_numeric)
    [(posting "a" "in" 10 100 "fifo", 1); (posting "a" "in" 10 200 "fifo", 2)]
    (empty_stock (Some ("fifo", true)) ["m1"; "l1"; "m2"; "l2"; "z"; "y"; "m3"])).
Definition replayed_receipts : stock_db :=
  match p_tx (snd (replayPairInTx (num := plain_numeric) "a" "w" 5 (Build_pg two_receipts (Some (two_receipts, false)) []))) with
  | Some (d, _) => d
  | None => two_receipts
  end.
Definition issue_total (d : stock_db) : option f64 :=
  match PostMovement (num := plain_numeric) (posting "a" "out" 10 0 "fifo") 6 (Build_pg d (Some (d, false)) []) with
  | (Ok res, _) => Some (MR_TotalCost res)
  | (Err _, _) => None
  end.
Lemma replay_forgets_receipt_order_witness :
  issue_total two_receipts = Some (of_Z 1000) /\ issue_total replayed_receipts = Some (of_Z 2000) /\
    map L_ID (loadLayers "a" "w" CostingFIFO replayed_receipts) = ["y"; "z"].
Proof.
  split; [vm_compute; reflexivity|]. split; [vm_compute; reflexivity|].
  assert (replayPairInTx (num := plain_numeric) "a" "w" 5 (Build_pg two_receipts (Some (two_receipts, false)) []) =
    (Ok tt, Build_pg two_receipts (Some (replayed_receipts, false)) [])) as E by (vm_compute; reflexivity).
  rewrite (proj1 (replay_forgets_receipt_order "a" "w" 5 two_receipts two_receipts _ tt E replayed_receipts eq_refl)).
  vm_compute. reflexivity.
Defined.
