(* ===== verification/Recurring.v ===== *)
(** * Recurring finance transactions

    Models [finance/recurring.go]: when a rule runs next, and the daily job that
    posts what is due, over one tenant's finance tables through PgTx.v.  Dates
    are day numbers (days since January 1 of year 1; the texts the code passes
    around are their YYYY-MM-DD forms).  [today] is the tenant's date.  Cached
    wallet balances ([refreshWallets], whose errors are only logged) are not
    modelled. *)
From S2P Require Import Prelude GoStrings AdminSession PgTx DaySlots Dates Float64 Billing.

Open Scope string_scope.
Open Scope Z_scope.

(** ** Go's calendar arithmetic *)
(** the first day of the [k]-th month, counted from January of year 0 *)
Definition month_start (k : Z) : Z :=
  days_before_year (k / 12) + foldr Z.add 0 (take (Z.to_nat (k mod 12)) (month_lengths (k / 12))).
Definition month_index (d : date) : Z := 12 * year d + (month d - 1).
(** [time.Date], which normalises what is out of range *)
Definition Date_ (year_ month_ day_ : Z) : Z := month_start (12 * year_ + (month_ - 1)) + day_ - 1.
Definition AddDate (t years months days : Z) : Z :=
  let d := date_of_day t in Date_ (year d + years) (month d + months) (day d + days).
Example add_date_ex :
  (date_of_day (AddDate (day_of_time (time_Unix 1738281600)) 0 1 0), date_of_day (AddDate (day_of_time (time_Unix 1709164800)) 1 0 0)) =
  ({| year := 2025; month := 3; day := 3 |}, {| year := 2025; month := 3; day := 1 |}).
Proof. vm_compute. reflexivity. Qed.

Lemma year_step y : days_before_year (y + 1) = days_before_year y + 365 + (if is_leap y then 1 else 0).
Proof.
  unfold days_before_year, is_leap. rewrite (Z.add_comm y 1), Z.add_simpl_l.
  destruct (Z.eqb_spec (y mod 4) 0); destruct (Z.eqb_spec (y mod 100) 0); destruct (Z.eqb_spec (y mod 400) 0); cbn [andb orb negb];
    pose proof (Z.div_mod y 4); pose proof (Z.div_mod y 100); pose proof (Z.div_mod y 400);
    Z.to_euclidean_division_equations; lia.
Qed.
Lemma month_start_eq y r : 0 <= r < 12 ->
  month_start (12 * y + r) = days_before_year y + foldr Z.add 0 (take (Z.to_nat r) (month_lengths y)).
Proof.
  intros Hr. unfold month_start. replace ((12 * y + r) / 12) with y by (rewrite Z.mul_comm, Z.div_add_l, Z.div_small; lia).
  replace ((12 * y + r) mod 12) with r by (rewrite Z.mul_comm, Z.add_comm, Z.mod_add, Z.mod_small; lia). done.
Qed.
Lemma month_lengths_sum y : foldr Z.add 0 (month_lengths y) = 365 + (if is_leap y then 1 else 0).
Proof. unfold month_lengths. by destruct (is_leap y). Qed.
Lemma month_lengths_bound y r : 0 <= r < 12 ->
  exists n, month_lengths y !! Z.to_nat r = Some n /\ 28 <= n <= 31 /\
    foldr Z.add 0 (take (S (Z.to_nat r)) (month_lengths y)) = foldr Z.add 0 (take (Z.to_nat r) (month_lengths y)) + n.
Proof.
  intros Hr. assert (r = 0 \/ r = 1 \/ r = 2 \/ r = 3 \/ r = 4 \/ r = 5 \/ r = 6 \/ r = 7 \/ r = 8 \/ r = 9 \/ r = 10 \/ r = 11) as Hc by lia.
  unfold month_lengths.
  repeat destruct Hc as [->|Hc]; [..|rewrite Hc]; destruct (is_leap y); eexists; (split; [reflexivity|split; [lia|reflexivity]]).
Qed.
Lemma month_start_next_year y : month_start (12 * y + 11 + 1) = days_before_year y + foldr Z.add 0 (month_lengths y).
Proof.
  replace (12 * y + 11 + 1) with (12 * (y + 1) + 0) by lia. rewrite month_start_eq, year_step, month_lengths_sum by lia.
  change (foldr Z.add 0 (take (Z.to_nat 0) (month_lengths (y + 1)))) with 0. lia.
Qed.
Lemma month_step k : month_start k + 28 <= month_start (k + 1) <= month_start k + 31.
Proof.
  assert (exists y r, k = 12 * y + r /\ 0 <= r < 12) as (y & r & -> & Hr)
    by (exists (k / 12), (k mod 12); split; [apply Z.div_mod; lia|apply Z.mod_pos_bound; lia]).
  destruct (month_lengths_bound y r Hr) as (n & Hn & Hb & Hs).
  rewrite (month_start_eq y r Hr). destruct (Z.eq_dec r 11) as [->|Hne].
  - rewrite month_start_next_year. change (take (S (Z.to_nat 11)) (month_lengths y)) with (month_lengths y) in Hs. lia.
  - replace (12 * y + r + 1) with (12 * y + (r + 1)) by lia. rewrite month_start_eq by lia.
    replace (Z.to_nat (r + 1)) with (S (Z.to_nat r)) by lia. lia.
Qed.
Lemma month_start_mono j k : j <= k -> month_start j <= month_start k.
Proof.
  intros Hj. assert (exists n : nat, k = j + Z.of_nat n) as [n ->] by (exists (Z.to_nat (k - j)); lia). clear Hj.
  induction n as [|n IH]; [by replace (j + Z.of_nat 0) with j by lia|].
  replace (j + Z.of_nat (S n)) with (j + Z.of_nat n + 1) by lia. pose proof (month_step (j + Z.of_nat n)). lia.
Qed.
Lemma year_of_day_spec t : let y := year_of_day t in days_before_year y <= t < days_before_year (y + 1).
Proof.
  cbv zeta. unfold year_of_day. set (e := 400 * t / 146097 + 2).
  assert (t < days_before_year (e + 1) /\ days_before_year (e - 2) <= t) as [H1 H2].
  { unfold days_before_year, e. Z.to_euclidean_division_equations. lia. }
  destruct (Z.ltb_spec t (days_before_year e)); [destruct (Z.ltb_spec t (days_before_year (e - 1)))|]; cbv zeta.
  - split; [done|]. by replace (e - 2 + 1) with (e - 1) by lia.
  - split; [done|]. by replace (e - 1 + 1) with e by lia.
  - done.
Qed.
Lemma month_day_spec ls m d : 0 <= d < foldr Z.add 0 ls -> Forall (fun n => 0 < n) ls ->
  exists i : nat, (i < length ls)%nat /\ (month_day m ls d).1 = m + Z.of_nat i /\ 1 <= (month_day m ls d).2 /\
    d = foldr Z.add 0 (take i ls) + (month_day m ls d).2 - 1 /\ d < foldr Z.add 0 (take (S i) ls).
Proof.
  revert m d. induction ls as [|n ls IH]; intros m d Hd Hp; [cbn in Hd; lia|]. inversion Hp; subst. cbn [month_day].
  destruct (Z.ltb_spec d n).
  - exists O. cbn. rewrite take_0. cbn. lia.
  - destruct (IH (m + 1) (d - n)) as (i & Hi & H1' & H2' & H3' & H4'); [cbn in Hd; lia|done|]. exists (S i).
    cbn [length take foldr]. cbn [length take foldr] in H4'. lia.
Qed.
Lemma date_of_day_spec t : let d := date_of_day t in
  month_start (month_index d) + day d - 1 = t /\ 1 <= day d /\ t < month_start (month_index d + 1).
Proof.
  cbv zeta. unfold date_of_day. pose proof (year_of_day_spec t) as Hy. cbv zeta in *. set (y := year_of_day t) in *.
  pose proof (month_lengths_sum y) as Hsum. rewrite year_step in Hy.
  destruct (month_day_spec (month_lengths y) 1 (t - days_before_year y)) as (i & Hi & H1 & H2 & H3 & H4).
  - lia.
  - unfold month_lengths. destruct (is_leap y); repeat constructor.
  - destruct (month_day 1 (month_lengths y) (t - days_before_year y)) as [m k]. cbn [fst snd year month day] in *. subst m.
    unfold month_index. cbn [year month day]. assert (length (month_lengths y) = 12%nat) as Hl by done. rewrite Hl in Hi.
    replace (12 * y + (1 + Z.of_nat i - 1)) with (12 * y + Z.of_nat i) by lia.
    rewrite month_start_eq by lia. rewrite Nat2Z.id. split; [lia|]. split; [done|].
    pose proof (month_step (12 * y + Z.of_nat i)) as Hstep. destruct (month_lengths_bound y (Z.of_nat i)) as (n & _ & Hn & Hs); [lia|].
    rewrite Nat2Z.id in Hs. destruct (Nat.eq_dec i 11%nat) as [->|Hne].
    + change (Z.of_nat 11) with 11. rewrite month_start_next_year. change (take 12 (month_lengths y)) with (month_lengths y) in H4. lia.
    + replace (12 * y + Z.of_nat i + 1) with (12 * y + Z.of_nat (S i)) by lia. rewrite month_start_eq by lia.
      rewrite Nat2Z.id. lia.
Qed.

(** ** When a rule runs next *)
Definition calcNextRunDate (from : Z) (frequency : string) (value dayOfMonth : Z) : Z :=
  if String.eqb frequency "daily" then AddDate from 0 0 value
  else if String.eqb frequency "weekly" then AddDate from 0 0 (7 * value)
  else if String.eqb frequency "monthly" then
    let next := AddDate from 0 value 0 in
    if (0 <? dayOfMonth) && (dayOfMonth <=? 28) then
      let d := date_of_day next in Date_ (year d) (month d) dayOfMonth
    else next
  else if String.eqb frequency "yearly" then AddDate from value 0 0
  else AddDate from 0 1 0.

Lemma AddDate_months t y m : AddDate t y m 0 = month_start (month_index (date_of_day t) + 12 * y + m) + day (date_of_day t) - 1.
Proof. unfold AddDate, Date_, month_index. cbv zeta. rewrite Z.add_0_r. f_equal. f_equal. f_equal. lia. Qed.
Lemma AddDate_days t n : AddDate t 0 0 n = t + n.
Proof.
  unfold AddDate, Date_. cbv zeta. pose proof (date_of_day_spec t) as H. cbv zeta in H. unfold month_index in H.
  rewrite !Z.add_0_r. lia.
Qed.
Lemma later_month t k : month_index (date_of_day t) < k -> t < month_start k.
Proof.
  intros Hk. destruct (date_of_day_spec t) as (_ & _ & H). cbv zeta in H.
  pose proof (month_start_mono (month_index (date_of_day t) + 1) k). lia.
Qed.
(** a run moves the rule past today *)
Lemma next_run_later t frequency value dom : 1 <= value -> t < calcNextRunDate t frequency value dom.
Proof.
  intros Hv. pose proof (date_of_day_spec t) as (_ & Hd & _). cbv zeta in Hd.
  unfold calcNextRunDate. rewrite (AddDate_days t value), (AddDate_days t (7 * value)), (AddDate_months t 0 value), (AddDate_months t value 0), (AddDate_months t 0 1).
  destruct (String.eqb frequency "daily"); [lia|]. destruct (String.eqb frequency "weekly"); [lia|].
  destruct (String.eqb frequency "monthly").
  2: { destruct (String.eqb frequency "yearly").
       - pose proof (later_month t (month_index (date_of_day t) + 12 * value + 0)). lia.
       - pose proof (later_month t (month_index (date_of_day t) + 12 * 0 + 1)). lia. }
  set (k := month_index (date_of_day t) + 12 * 0 + value). pose proof (later_month t k ltac:(unfold k; lia)) as Hk.
  destruct (Z.ltb_spec 0 dom); destruct (Z.leb_spec dom 28); cbn [andb]; [|lia..].
  set (next := month_start k + day (date_of_day t) - 1). destruct (date_of_day_spec next) as (_ & _ & Hn). cbv zeta in *.
  assert (k <= month_index (date_of_day next)) as Hi.
  { destruct (Z.le_gt_cases k (month_index (date_of_day next))) as [|Hlt]; [done|].
    pose proof (month_start_mono (month_index (date_of_day next) + 1) k ltac:(lia)). unfold next in *. lia. }
  assert (forall d, Date_ (year d) (month d) dom = month_start (month_index d) + dom - 1) as HD by done.
  rewrite HD. pose proof (month_start_mono k _ Hi). lia.
Qed.

(** ** Tables *)
Record recurring_row := {
  rc_id : string; rc_type : string; rc_amount : f64; rc_wallet : string; rc_to_wallet : option string;
  rc_category : option string; rc_description : option string; rc_frequency : string; rc_value : Z;
  rc_day_of_month : option Z; rc_mode : string; rc_end : option Z; rc_max : option Z; rc_done : Z; rc_next : Z;
  rc_active : bool; rc_deleted : bool; rc_created_by : string
}.
Record recurring_log := {
  lg_rule : string; lg_date : Z; lg_status : string; lg_error : option string; lg_txn : option string
}.
Record recurring_txn := {
  rt_id : string; rt_type : string; rt_amount : f64; rt_wallet : string; rt_to_wallet : option string;
  rt_category : option string; rt_description : option string; rt_date : Z; rt_rule : string; rt_created_by : string
}.
Record recurring_db := {
  rules : list recurring_row; rule_txns : list recurring_txn; rule_logs : list recurring_log;
  period_locks : list string; tables_ready : bool; txn_ids : list string
}.
Definition set_rules l d : recurring_db :=
  {| rules := l; rule_txns := rule_txns d; rule_logs := rule_logs d; period_locks := period_locks d;
     tables_ready := tables_ready d; txn_ids := txn_ids d |}.
Definition set_rule_logs l d : recurring_db :=
  {| rules := rules d; rule_txns := rule_txns d; rule_logs := l; period_locks := period_locks d;
     tables_ready := tables_ready d; txn_ids := txn_ids d |}.
Definition map_rule (id : string) (f : recurring_row -> recurring_row) (d : recurring_db) : recurring_db :=
  set_rules (map (fun r => if String.eqb (rc_id r) id then f r else r) (rules d)) d.
Definition deactivate (r : recurring_row) : recurring_row :=
  {| rc_id := rc_id r; rc_type := rc_type r; rc_amount := rc_amount r; rc_wallet := rc_wallet r; rc_to_wallet := rc_to_wallet r;
     rc_category := rc_category r; rc_description := rc_description r; rc_frequency := rc_frequency r; rc_value := rc_value r;
     rc_day_of_month := rc_day_of_month r; rc_mode := rc_mode r; rc_end := rc_end r; rc_max := rc_max r; rc_done := rc_done r;
     rc_next := rc_next r; rc_active := false; rc_deleted := rc_deleted r; rc_created_by := rc_created_by r |}.
Definition advance (next : Z) (r : recurring_row) : recurring_row :=
  {| rc_id := rc_id r; rc_type := rc_type r; rc_amount := rc_amount r; rc_wallet := rc_wallet r; rc_to_wallet := rc_to_wallet r;
     rc_category := rc_category r; rc_description := rc_description r; rc_frequency := rc_frequency r; rc_value := rc_value r;
     rc_day_of_month := rc_day_of_month r; rc_mode := rc_mode r; rc_end := rc_end r; rc_max := rc_max r; rc_done := rc_done r + 1;
     rc_next := next; rc_active := rc_active r; rc_deleted := rc_deleted r; rc_created_by := rc_created_by r |}.

Abbreviation fin A := (prog (pg recurring_db) A).
Definition due (today : Z) (r : recurring_row) : bool := rc_active r && negb (rc_deleted r) && (rc_next r <=? today).
Definition period_of (day : Z) : string := format_month (day * Day).
Definition ensurePeriodUnlocked (period : string) : fin unit :=
  let! locked := attempt (read (fun d => existsb (String.eqb period) (period_locks d))) in
  match locked with
  | Err e => throw (ECode Internal (error_text e))
  | Ok true => throw (ECode PermissionDenied ("periode " ++ period ++ " sudah dikunci"))
  | Ok false => ret tt
  end.
Definition no_account : string := "00000000-0000-0000-0000-000000000000".
Definition recurring_txn_of (id : string) (today : Z) (r : recurring_row) : recurring_txn :=
  {| rt_id := id; rt_type := rc_type r; rt_amount := rc_amount r; rt_wallet := rc_wallet r; rt_to_wallet := rc_to_wallet r;
     rt_category := rc_category r; rt_description := rc_description r; rt_date := today; rt_rule := rc_id r;
     rt_created_by := if String.eqb (rc_created_by r) "" then no_account else rc_created_by r |}.
Definition insert_txn (today : Z) (r : recurring_row) : fin string :=
  stmt (fun d =>
    let id := default "" (head (txn_ids d)) in
    (Ok id, {| rules := rules d; rule_txns := (rule_txns d ++ [recurring_txn_of id today r])%list; rule_logs := rule_logs d;
               period_locks := period_locks d; tables_ready := tables_ready d; txn_ids := tail (txn_ids d) |})).
Definition nullIf (s : string) : option string := if String.eqb s "" then None else Some s.
Definition add_log (id : string) (today : Z) (status err txn : string) (d : recurring_db) : recurring_db :=
  set_rule_logs (rule_logs d ++ [{| lg_rule := id; lg_date := today; lg_status := status; lg_error := nullIf err; lg_txn := nullIf txn |}])%list d.
Definition recent_failures (id : string) (today : Z) (d : recurring_db) : nat :=
  length (List.filter (fun l => String.eqb (lg_rule l) id && String.eqb (lg_status l) "failed" && (today - 3 <=? lg_date l)) (rule_logs d)).

(** status, error text and transaction of one rule's posting *)
Definition post_rule (today : Z) (r : recurring_row) : fin (string * string * string) :=
  if String.eqb (rc_mode r) "auto" then
    let! unlocked := attempt (ensurePeriodUnlocked (period_of today)) in
    match unlocked with
    | Err e => ret ("failed", error_text e, "")
    | Ok _ =>
        let! id := attempt (insert_txn today r) in
        match id with
        | Err e => ret ("failed", error_text e, "")
        | Ok id => ret ("success", "", id)
        end
    end
  else ret ("reminded", "", "").
Definition process_rule (today : Z) (r : recurring_row) : fin unit :=
  if match rc_end r with Some e => e <? today | None => false end then ignore (exec (map_rule (rc_id r) deactivate))
  else if match rc_max r with Some m => m <=? rc_done r | None => false end then ignore (exec (map_rule (rc_id r) deactivate))
  else
    let! outcome := post_rule today r in
    let '(status, err, txn) := outcome in
    ignore (exec (add_log (rc_id r) today status err txn));!
    (if negb (String.eqb status "failed") then
       ignore (exec (map_rule (rc_id r)
         (advance (calcNextRunDate today (rc_frequency r) (rc_value r) (default 0 (rc_day_of_month r))))))
     else ret tt);!
    let! n := attempt (read (recent_failures (rc_id r) today)) in
    let failCount := match n with Ok n => n | Err _ => O end in
    if (3 <=? failCount)%nat then ignore (exec (map_rule (rc_id r) deactivate)) else ret tt.
Fixpoint process_rules (today : Z) (rs : list recurring_row) : fin unit :=
  match rs with [] => ret tt | r :: rest => process_rule today r;! process_rules today rest end.
Definition processRecurringForTenant (schema : string) (today : Z) : fin unit :=
  match ValidateTenantSchemaName schema with
  | Some e => throw e
  | None =>
      let! ready := attempt (read tables_ready) in
      match ready with
      | Ok true =>
          let! rs := read (fun d => List.filter (due today) (rules d)) in
          process_rules today rs
      | _ => ret tt
      end
  end.

(** ** One day's run *)
(** what the run makes of a rule, given whether posting fails *)
Definition over (today : Z) (r : recurring_row) : bool :=
  match rc_end r with Some e => e <? today | None => false end || match rc_max r with Some m => m <=? rc_done r | None => false end.
Definition locked_on (today : Z) (d : recurring_db) : bool := existsb (String.eqb (period_of today)) (period_locks d).
Definition posts (today : Z) (d : recurring_db) (r : recurring_row) : bool :=
  negb (over today r) && String.eqb (rc_mode r) "auto" && negb (locked_on today d).
Definition at_db (d : recurring_db) : pg recurring_db := Build_pg d None [].

(** what is left of a rule the run dealt with *)
Definition dealt_with (today : Z) (d : recurring_db) (x : recurring_row) : Prop := due today x = true -> locked_on today d = true.
Record rule_step (today : Z) (r : recurring_row) (d d' : recurring_db) : Prop := {
  rs_rules : exists g, rules d' = map (fun x => if String.eqb (rc_id x) (rc_id r) then g x else x) (rules d) /\
    forall x, rc_id (g x) = rc_id x /\ dealt_with today d (g x);
  rs_txns : exists new, rule_txns d' = (rule_txns d ++ new)%list /\ Forall (fun t => rt_date t = today) new /\
    map rt_rule new = if posts today d r then [rc_id r] else [];
  rs_rest : period_locks d' = period_locks d /\ tables_ready d' = tables_ready d
}.
Lemma not_due_inactive today d x : rc_active x = false -> dealt_with today d x.
Proof. unfold dealt_with, due. by intros ->. Qed.
Lemma deactivate_step today r d : posts today d r = false -> rule_step today r d (map_rule (rc_id r) deactivate d).
Proof.
  intros Hp. split; [exists deactivate; split; [done|]; intros x; split; [done|by apply not_due_inactive]| |done].
  exists []. rewrite Hp. split_and!; [by rewrite app_nil_r|constructor|done].
Qed.
(** the end of a rule's turn: the pause after three failures *)
Lemma pause_step today r d d1 :
  rule_step today r d d1 -> exists d', rule_step today r d d' /\
    (let! n := attempt (read (recent_failures (rc_id r) today)) in
     if (3 <=? (match n with Ok n => n | Err _ => O end))%nat then ignore (exec (map_rule (rc_id r) deactivate)) else ret tt) (at_db d1)
    = (Ok tt, at_db d').
Proof.
  intros Hs. pose proof Hs as [(g & Hg & Hx) Ht Hr]. unfold bind, attempt, at_db. cbn -[Nat.leb].
  destruct (3 <=? recent_failures (rc_id r) today d1)%nat; [|by exists d1].
  exists (map_rule (rc_id r) deactivate d1). split; [|done]. split; [|done|done].
  exists (fun x => if String.eqb (rc_id (g x)) (rc_id r) then deactivate (g x) else g x). split.
  - cbn [map_rule set_rules rules]. rewrite Hg, map_map. apply map_ext. intros x.
    destruct (String.eqb (rc_id x) (rc_id r)) eqn:E; [done|]. by rewrite E.
  - intros x. destruct (Hx x) as [H1 H2]. destruct (String.eqb (rc_id (g x)) (rc_id r)); [|done].
    split; [done|by apply not_due_inactive].
Qed.
Definition rule_turn (today : Z) (r : recurring_row) : fin unit :=
  let! outcome := post_rule today r in
  let '(status, err, txn) := outcome in
  ignore (exec (add_log (rc_id r) today status err txn));!
  (if negb (String.eqb status "failed") then
     ignore (exec (map_rule (rc_id r)
       (advance (calcNextRunDate today (rc_frequency r) (rc_value r) (default 0 (rc_day_of_month r))))))
   else ret tt);!
  let! n := attempt (read (recent_failures (rc_id r) today)) in
  if (3 <=? (match n with Ok n => n | Err _ => O end))%nat then ignore (exec (map_rule (rc_id r) deactivate)) else ret tt.
Lemma process_rule_eq today r :
  process_rule today r = if over today r then ignore (exec (map_rule (rc_id r) deactivate)) else rule_turn today r.
Proof.
  unfold process_rule, over. by destruct (match rc_end r with Some e => e <? today | None => false end);
    destruct (match rc_max r with Some m => m <=? rc_done r | None => false end).
Qed.
Lemma post_rule_run today r d :
  exists o d1, post_rule today r (at_db d) = (Ok o, at_db d1) /\ rules d1 = rules d /\
    period_locks d1 = period_locks d /\ tables_ready d1 = tables_ready d /\
    (exists new, rule_txns d1 = (rule_txns d ++ new)%list /\ Forall (fun t => rt_date t = today) new /\
       map rt_rule new = if String.eqb (rc_mode r) "auto" && negb (locked_on today d) then [rc_id r] else []) /\
    (o.1.1 = "failed" -> locked_on today d = true).
Proof.
  unfold post_rule. destruct (String.eqb (rc_mode r) "auto").
  2: { exists ("reminded", "", ""), d. split_and!; try done. exists []. split_and!; [by rewrite app_nil_r|constructor|done]. }
  unfold bind at 1, attempt at 1, ensurePeriodUnlocked.
  assert (forall A (k : result bool -> fin A), bind (attempt (read (fun d => existsb (String.eqb (period_of today)) (period_locks d)))) k (at_db d) =
    k (Ok (locked_on today d)) (at_db d)) as Hk by done.
  rewrite Hk. destruct (locked_on today d) eqn:El.
  - do 2 eexists. split; [reflexivity|]. split_and!; try done. exists []. split_and!; [by rewrite app_nil_r|constructor|done].
  - do 2 eexists. split; [reflexivity|]. split_and!; try done. eexists. split; [reflexivity|]. split; [by repeat constructor|done].
Qed.
Lemma process_rule_step today r d :
  1 <= rc_value r -> exists d', rule_step today r d d' /\ process_rule today r (at_db d) = (Ok tt, at_db d').
Proof.
  intros Hv. rewrite process_rule_eq. destruct (over today r) eqn:Eo.
  { exists (map_rule (rc_id r) deactivate d). split; [apply deactivate_step; unfold posts; by rewrite Eo|done]. }
  unfold rule_turn. set (next := calcNextRunDate _ _ _ _). assert (today < next) as Hnext by (by apply next_run_later).
  destruct (post_rule_run today r d) as ([[status err] txn] & d1 & E & Hr1 & Hl1 & Ht1 & Hnew & Hfail).
  unfold bind at 1. rewrite E. cbn iota. cbn [fst] in Hfail.
  set (d2 := add_log (rc_id r) today status err txn d1).
  assert (forall A (k : unit -> fin A), bind (ignore (exec (add_log (rc_id r) today status err txn))) k (at_db d1) = k tt (at_db d2)) as Hk by done.
  rewrite Hk. clear Hk.
  set (d3 := if negb (String.eqb status "failed") then map_rule (rc_id r) (advance next) d2 else d2).
  assert (forall A (k : unit -> fin A), bind (if negb (String.eqb status "failed") then ignore (exec (map_rule (rc_id r) (advance next))) else ret tt) k
    (at_db d2) = k tt (at_db d3)) as Hk by (intros; unfold d3; by destruct (String.eqb status "failed")).
  rewrite Hk. clear Hk. destruct (pause_step today r d d3) as (d' & Hd' & E'); [|by exists d'].
  split.
  - unfold d3. destruct (String.eqb_spec status "failed") as [Hs|Hs]; cbn [negb].
    + exists (fun x => x). split; [unfold d2; cbn; rewrite Hr1; rewrite <- (map_id (rules d)) at 1; apply map_ext; intros x; by destruct (String.eqb (rc_id x) (rc_id r))|].
      intros x. split; [done|]. intros _. by apply Hfail.
    + exists (advance next). split; [unfold d2; cbn; by rewrite Hr1|]. intros x. split; [done|]. unfold dealt_with, due.
      cbn [rc_active advance rc_deleted rc_next]. destruct (Z.leb_spec next today); [lia|]. by rewrite andb_false_r.
  - destruct Hnew as (new & Hn & Hd & Hm). exists new. split; [unfold d3, d2; destruct (negb (String.eqb status "failed")); exact Hn|]. split; [done|].
    unfold posts. by rewrite Eo.
  - unfold d3, d2. destruct (negb (String.eqb status "failed")); exact (conj Hl1 Ht1).
Qed.
Lemma process_rules_run today rs d :
  Forall (fun r => 1 <= rc_value r) rs -> NoDup (map rc_id rs) ->
  exists d', process_rules today rs (at_db d) = (Ok tt, at_db d') /\
    period_locks d' = period_locks d /\ tables_ready d' = tables_ready d /\
    (exists new, rule_txns d' = (rule_txns d ++ new)%list /\ Forall (fun t => rt_date t = today) new /\
       map rt_rule new = map rc_id (List.filter (posts today d) rs)) /\
    forall x', x' ∈ rules d' -> exists x, x ∈ rules d /\ rc_id x' = rc_id x /\
      ((rc_id x ∉ map rc_id rs /\ x' = x) \/ dealt_with today d x').
Proof.
  intros Hv. revert d. induction Hv as [|r rs Hr Hrs IH]; intros d Hn.
  { exists d. split_and!; try done; [exists []; split_and!; [by rewrite app_nil_r|constructor|done]|].
    intros x' Hx. exists x'. split_and!; [done|done|left; split; [by apply not_elem_of_nil|done]]. }
  cbn [map] in Hn. apply NoDup_cons in Hn as [Hni Hn]. cbn [process_rules].
  destruct (process_rule_step today r d Hr) as (d1 & [(g & Hg & Hx) (new1 & Ht1 & Hd1 & Hm1) [Hl1 Hready]] & E1).
  destruct (IH d1 Hn) as (d' & E' & Hl' & Hr' & (new2 & Ht2 & Hd2 & Hm2) & Hx').
  assert (locked_on today d1 = locked_on today d) as Hlock by (unfold locked_on; by rewrite Hl1).
  exists d'. unfold bind. rewrite E1, E'. split_and!; [done|congruence|congruence| |].
  - exists (new1 ++ new2)%list. rewrite Ht2, Ht1, map_app, Hm1, Hm2. split_and!; [by rewrite app_assoc|by apply Forall_app|].
    cbn [List.filter]. assert (List.filter (posts today d1) rs = List.filter (posts today d) rs) as ->
      by (apply List.filter_ext; intros y; unfold posts; by rewrite Hlock). by destruct (posts today d r).
  - intros x' Hin. destruct (Hx' x' Hin) as (x1 & Hx1 & Hid1 & Hc). rewrite Hg in Hx1.
    apply list_elem_of_fmap in Hx1 as (x & -> & Hx0). exists x. split; [done|].
    assert (forall y, dealt_with today d1 y -> dealt_with today d y) as Hdw by (unfold dealt_with; by rewrite Hlock).
    destruct (String.eqb_spec (rc_id x) (rc_id r)) as [He|He].
    + destruct (Hx x) as [Hgid Hgd]. rewrite Hid1, Hgid. split; [done|]. right. destruct Hc as [[_ ->]|Hc]; [done|by apply Hdw].
    + split; [done|]. destruct Hc as [[Hnot ->]|Hc]; [left|right; by apply Hdw]. split; [|done]. cbn [map].
      by intros [?|?]%elem_of_cons.
Qed.

(** C32. The daily job settles the day: when nothing fails and every due rule
    has a positive frequency, the job posts, for each rule that is due,
    automatic and neither ended nor exhausted, exactly one transaction dated
    today (none when the period is locked); afterwards no rule is due any more
    unless the period is locked, so running the job again on the same day
    changes nothing.  In particular every frequency moves a rule strictly past
    today, across month ends and leap years. *)
Theorem recurring_settles_day schema today d :
  ValidateTenantSchemaName schema = None -> tables_ready d = true -> NoDup (map rc_id (rules d)) ->
  (forall r, r ∈ rules d -> due today r = true -> 1 <= rc_value r) ->
  exists d', processRecurringForTenant schema today (at_db d) = (Ok tt, at_db d') /\
    (exists new, rule_txns d' = (rule_txns d ++ new)%list /\ Forall (fun t => rt_date t = today) new /\
       map rt_rule new = map rc_id (List.filter (posts today d) (List.filter (due today) (rules d)))) /\
    (forall r, r ∈ rules d' -> due today r = true -> locked_on today d = true) /\
    (locked_on today d = false -> processRecurringForTenant schema today (at_db d') = (Ok tt, at_db d')).
Proof.
  intros Hv Hr Hn Hval. set (rs := List.filter (due today) (rules d)).
  assert (forall d0, tables_ready d0 = true -> processRecurringForTenant schema today (at_db d0) =
    process_rules today (List.filter (due today) (rules d0)) (at_db d0)) as Hrun.
  { intros d0 H0. unfold processRecurringForTenant. rewrite Hv. unfold bind, attempt, read, stmt, at_db. cbn. by rewrite H0. }
  destruct (process_rules_run today rs d) as (d' & E & Hl' & Hr' & Hnew & Hx).
  - apply Forall_forall. intros r Hin. apply filter_elem in Hin as [? ?]. by apply Hval.
  - unfold rs. clear -Hn. induction (rules d) as [|x l IH]; [constructor|]. cbn in *. apply NoDup_cons in Hn as [Hx Hn].
    destruct (due today x); [|by apply IH]. cbn. apply NoDup_cons. split; [|by apply IH]. intros Hin. apply Hx.
    apply list_elem_of_fmap in Hin as (y & -> & Hy). apply filter_elem in Hy as [Hy _]. apply list_elem_of_fmap. eauto.
  - assert (forall r, r ∈ rules d' -> due today r = true -> locked_on today d = true) as Hdue.
    { intros x' Hin Hd. destruct (Hx x' Hin) as (x & Hx0 & Hid & [[Hnot ->]|Hdw]); [|by apply Hdw].
      exfalso. apply Hnot. apply list_elem_of_fmap. exists x. split; [done|]. by apply filter_elem. }
    exists d'. rewrite Hrun by done. split_and!; [done|done|done|]. intros Hl. rewrite Hrun by congruence.
    assert (List.filter (due today) (rules d') = []) as ->; [|done].
    destruct (List.filter (due today) (rules d')) as [|x l] eqn:Ef; [done|]. exfalso.
    assert (x ∈ List.filter (due today) (rules d')) as Hin by (rewrite Ef; by left). apply filter_elem in Hin as [Hin Hd].
    specialize (Hdue x Hin Hd). congruence.
Qed.

(** a rent due on the last day of January, and a reminder *)
Definition rule_of (id mode frequency : string) (value next : Z) (dom : option Z) : recurring_row :=
  {| rc_id := id; rc_type := "expense"; rc_amount := of_Z 100; rc_wallet := "w"; rc_to_wallet := None; rc_category := None;
     rc_description := None; rc_frequency := frequency; rc_value := value; rc_day_of_month := dom; rc_mode := mode; rc_end := None;
     rc_max := Some 12; rc_done := 0; rc_next := next; rc_active := true; rc_deleted := false; rc_created_by := "acc" |}.
Definition jan31 : Z := day_of_time (time_Unix 1738281600).
Definition two_rules : recurring_db :=
  {| rules := [rule_of "rent" "auto" "monthly" 1 jan31 (Some 31); rule_of "tax" "reminder" "yearly" 1 jan31 None];
     rule_txns := []; rule_logs := []; period_locks := []; tables_ready := true; txn_ids := ["t1"] |}.
Lemma recurring_settles_day_witness :
  exists d', processRecurringForTenant "t_a" jan31 (at_db two_rules) = (Ok tt, at_db d') /\
    processRecurringForTenant "t_a" jan31 (at_db d') = (Ok tt, at_db d').
Proof.
  destruct (recurring_settles_day "t_a" jan31 two_rules) as (d' & H1 & _ & _ & H4); [reflexivity|reflexivity| | |].
  - cbn. apply NoDup_cons. split; [|apply NoDup_singleton]. by intros H%list_elem_of_singleton.
  - intros r [->|[->|Hr]%elem_of_cons]%elem_of_cons _; [cbn; lia|cbn; lia|by apply not_elem_of_nil in Hr].
  - exists d'. split; [exact H1|]. apply H4. vm_compute. reflexivity.
Defined.
(** the rent skips February and moves to the third of every month *)
Example rent_next : date_of_day (calcNextRunDate jan31 "monthly" 1 31) = {| year := 2025; month := 3; day := 3 |}.
Proof. vm_compute. reflexivity. Qed.
