(* ===== verification/Triples.v ===== *)
(** * Triples for programs that run outside a transaction

    [triple c P m Q]: from an idle session whose tables satisfy [P], [m] ends
    idle with its answer and tables in [Q].  With [c = true] no statement
    fails; with [c = false] any may fail before or after its effect.  The rules
    follow the monad; [steps] applies them. *)
From S2P Require Import Prelude PgTx.

Definition idle {D} (c : bool) (w : pg D) : Prop := p_tx w = None /\ (c = true -> p_faults w = []).
Definition triple {D A} (c : bool) (P : D -> Prop) (m : prog (pg D) A) (Q : result A -> D -> Prop) : Prop :=
  forall w, idle c w -> P (p_db w) -> let '(r, w') := m w in idle c w' /\ Q r (p_db w').
(** the outcome of a statement on the tables *)
Definition stmt_post {D A} (c : bool) (f : D -> result A * D) (Q : result A -> D -> Prop) (d : D) : Prop :=
  match f d with
  | (Ok a, d') => Q (Ok a) d' /\ (c = false -> Q (Err db_error) d /\ Q (Err db_error) d')
  | (Err e, _) => Q (Err e) d /\ (c = false -> Q (Err db_error) d)
  end.

Section rules.
Context {D : Type} (c : bool).
Implicit Types P : D -> Prop.

Lemma idle_pop (w w' : pg D) : idle c w -> p_tx w' = None -> p_faults w' = tail (p_faults w) -> idle c w'.
Proof. intros [_ Hf] Ht Hw. split; [done|]. intros Hc. by rewrite Hw, (Hf Hc). Qed.
Lemma idle_outcome (w : pg D) : idle c w -> outcome w = Fine \/ c = false.
Proof. intros [_ Hf]. unfold outcome. destruct c; [|by right]. rewrite Hf by done. by left. Qed.

Lemma t_conseq {A} P P' (m : prog (pg D) A) Q Q' :
  triple c P m Q -> (forall d, P' d -> P d) -> (forall r d, Q r d -> Q' r d) -> triple c P' m Q'.
Proof. intros Hm HP HQ w Hw Hd. specialize (Hm w Hw (HP _ Hd)). destruct (m w). naive_solver. Qed.
Lemma t_ret {A} P (a : A) Q : (forall d, P d -> Q (Ok a) d) -> triple c P (ret a) Q.
Proof. intros HQ w Hw Hd. split; [done|]. by apply HQ. Qed.
Lemma t_throw {A} P e (Q : result A -> D -> Prop) : (forall d, P d -> Q (Err e) d) -> triple c P (throw e) Q.
Proof. intros HQ w Hw Hd. split; [done|]. by apply HQ. Qed.
Lemma t_bind {A B} P (m : prog (pg D) A) (k : A -> prog (pg D) B) R Q :
  triple c P m R -> (forall a, triple c (R (Ok a)) (k a) Q) -> (forall e d, R (Err e) d -> Q (Err e) d) ->
  triple c P (bind m k) Q.
Proof.
  intros Hm Hk He w Hw Hd. specialize (Hm w Hw Hd). unfold bind. destruct (m w) as [[a|e] w1].
  - destruct Hm as [H1 H2]. exact (Hk a w1 H1 H2).
  - destruct Hm as [H1 H2]. split; [done|by apply He].
Qed.
Lemma t_attempt {A} P (m : prog (pg D) A) (Q : result (result A) -> D -> Prop) :
  triple c P m (fun r d => Q (Ok r) d) -> triple c P (attempt m) Q.
Proof. intros Hm w Hw Hd. specialize (Hm w Hw Hd). unfold attempt. by destruct (m w). Qed.
Lemma t_ignore {A} P (m : prog (pg D) A) Q :
  triple c P m (fun _ d => Q (Ok tt) d) -> triple c P (ignore m) Q.
Proof. intros Hm w Hw Hd. specialize (Hm w Hw Hd). unfold ignore. by destruct (m w). Qed.
Lemma t_ignore_bind {A B} P (m : prog (pg D) A) (k : unit -> prog (pg D) B) R Q :
  triple c P m (fun _ d => R d) -> (forall x, triple c R (k x) Q) -> triple c P (bind (ignore m) k) Q.
Proof.
  intros Hm Hk. apply t_bind with (R := fun r d => r = Ok tt /\ R d).
  - apply t_ignore. eapply t_conseq; [exact Hm|done|]. auto.
  - intros x. eapply t_conseq; [apply Hk|naive_solver|done].
  - intros e d [H _]. done.
Qed.
Lemma t_stmt {A} P (f : D -> result A * D) Q :
  (forall d, P d -> stmt_post c f Q d) -> triple c P (stmt f) Q.
Proof.
  intros Hf w Hw Hd. specialize (Hf _ Hd). unfold stmt_post in Hf. unfold stmt.
  destruct (idle_outcome w Hw) as [Ho|Hc]; rewrite (proj1 Hw).
  - rewrite Ho. destruct (f (p_db w)) as [[a|e] d']; (split; [apply (idle_pop w); [done|first [done|apply Hw]|done]|apply Hf]).
  - destruct (outcome w); destruct (f (p_db w)) as [[a|e] d'];
      (split; [apply (idle_pop w); [done|first [done|apply Hw]|done]|by apply Hf]).
Qed.
Lemma t_if {A} P (b : bool) (m1 m2 : prog (pg D) A) Q :
  (b = true -> triple c P m1 Q) -> (b = false -> triple c P m2 Q) -> triple c P (if b then m1 else m2) Q.
Proof. destruct b; auto. Qed.
(** a fact that does not depend on the tables *)
Lemma t_pure {A} P (X : Prop) (m : prog (pg D) A) Q :
  (X -> triple c P m Q) -> triple c (fun d => P d /\ X) m Q.
Proof. intros Hm w Hw [Hd HX]. by apply Hm. Qed.
Lemma t_exists {A B} (P : B -> D -> Prop) (m : prog (pg D) A) Q :
  (forall b, triple c (P b) m Q) -> triple c (fun d => exists b, P b d) m Q.
Proof. intros Hm w Hw [b Hd]. by apply (Hm b). Qed.
(** one statement in a transaction of its own, its error and those of begin and commit wrapped *)
Lemma t_in_tx {A} P wrap (body : prog (pg D) A) (f : D -> result A * D) Q :
  (forall w, body w = match stmt f w with (Ok a, w') => (Ok a, w') | (Err e, w') => (Err (wrap e), w') end) ->
  (forall d, P d -> match f d with
    | (Ok a, d') => Q (Ok a) d' /\ (c = false -> (forall e, Q (Err e) d) /\ forall e, Q (Err e) d')
    | (Err e, _) => forall e, Q (Err e) d
    end) ->
  triple c P (in_tx wrap body) Q.
Proof.
  intros Hb Hf w Hw Hd. specialize (Hf _ Hd).
  assert (c = false -> forall e, Q (Err e) (p_db w)) as Hfail.
  { intros Hc. destruct (f (p_db w)) as [[a|e] d']; naive_solver. }
  unfold in_tx, in_tx_errs, bind at 1, attempt at 1, begin_tx.
  destruct (outcome w) eqn:Ho.
  2, 3: destruct (idle_outcome w Hw) as [?|Hc]; [congruence|]; cbn; split;
    [by eapply idle_pop; [apply Hw|apply Hw|]|by apply Hfail].
  set (w1 := with_tx_state (Some (p_db w, false)) (pop w)). unfold bind at 1, attempt at 1. rewrite Hb.
  assert (idle c (with_tx_state None w1)) as Hw1 by (by eapply idle_pop).
  unfold stmt. change (p_tx w1) with (Some (p_db w, false)). cbv iota zeta.
  destruct (outcome w1) eqn:Ho1.
  2, 3: destruct (idle_outcome _ Hw1) as [H1|Hc]; [unfold outcome in *; cbn in *; congruence|];
    cbn; split; [by eapply idle_pop; [apply Hw1|..]|by apply Hfail].
  destruct (f (p_db w)) as [[a|e] d'] eqn:Ef; [|cbn; split; [by eapply idle_pop; [apply Hw1|..]|by apply Hf]].
  cbv iota beta. set (w2 := with_tx_state (Some (d', false)) (pop w1)).
  unfold bind at 1, attempt at 1, commit_tx. change (p_tx w2) with (Some (d', false)). cbv iota zeta.
  assert (idle c (with_tx_state None w2)) as Hw2 by (eapply idle_pop; [apply Hw1|done|done]).
  destruct Hf as [HQ Hq]. destruct (outcome w2) eqn:Ho2.
  - cbn. split; [by eapply idle_pop; [apply Hw2|..]|done].
  - destruct (idle_outcome _ Hw2) as [H1|Hc]; [unfold outcome in *; cbn in *; congruence|].
    cbn. split; [by eapply idle_pop; [apply Hw2|..]|]. by apply Hq.
  - destruct (idle_outcome _ Hw2) as [H1|Hc]; [unfold outcome in *; cbn in *; congruence|].
    cbn. split; [by eapply idle_pop; [apply Hw2|..]|]. by apply Hq.
Qed.
(** statements that change nothing *)
Lemma t_read {A} P (f : D -> A) Q :
  (forall d, P d -> Q (Ok (f d)) d /\ (c = false -> Q (Err db_error) d)) -> triple c P (read f) Q.
Proof. intros Hf. apply t_stmt. intros d Hd. unfold stmt_post. specialize (Hf d Hd). naive_solver. Qed.
(** an invariant through a program that neither reads nor breaks it *)
Lemma t_keep {A} P (m : prog (pg D) A) (Q : result A -> D -> Prop) :
  triple c P m (fun _ d => P d) -> (forall r d, P d -> Q r d) -> triple c P m Q.
Proof. intros Hm HQ. eapply t_conseq; [exact Hm|done|]. naive_solver. Qed.
(** two facts about one program *)
Lemma t_conj {A} P P' (m : prog (pg D) A) Q Q' :
  triple c P m Q -> triple c P' m Q' -> triple c (fun d => P d /\ P' d) m (fun r d => Q r d /\ Q' r d).
Proof. intros H1 H2 w Hw [Hd Hd']. specialize (H1 w Hw Hd). specialize (H2 w Hw Hd'). destruct (m w). naive_solver. Qed.
(** a statement that keeps a property of the tables, however it ends *)
Lemma t_stmt_keep {A} (P : D -> Prop) (f : D -> result A * D) :
  (forall d, P d -> P (snd (f d))) -> triple c P (stmt f) (fun _ => P).
Proof.
  intros Hf. apply t_stmt. intros d Hd. specialize (Hf d Hd). unfold stmt_post. by destruct (f d) as [[a|e] d'].
Qed.
End rules.

(** ** Programs that only read *)
Definition reads {D A} (c : bool) (m : prog (pg D) A) (F : D -> A -> Prop) : Prop :=
  forall P : D -> Prop, triple c P m (fun r d => P d /\ forall a, r = Ok a -> F d a).
Definition any {D A} : D -> A -> Prop := fun _ _ => True.

Section reading.
Context {D : Type} (c : bool).

Lemma reads_weaken {A} (m : prog (pg D) A) (F G : D -> A -> Prop) :
  reads c m F -> (forall d a, F d a -> G d a) -> reads c m G.
Proof. intros Hm HF P. eapply t_conseq; [apply (Hm P)|done|]. naive_solver. Qed.
Lemma reads_ret {A} (a : A) : reads (D:=D) c (ret a) (fun _ b => b = a).
Proof. intros P. apply t_ret. naive_solver. Qed.
Lemma reads_throw {A} e (F : D -> A -> Prop) : reads c (throw e) F.
Proof. intros P. apply t_throw. naive_solver. Qed.
Lemma reads_bind {A B} (m : prog (pg D) A) (k : A -> prog (pg D) B) F G :
  reads c m F -> (forall a, reads c (k a) (G a)) -> reads c (bind m k) (fun d b => exists a, F d a /\ G a d b).
Proof.
  intros Hm Hk P. eapply t_bind; [apply (Hm P)|..].
  - intros a. eapply t_conseq; [apply (Hk a (fun d => P d /\ F d a))|cbn; naive_solver|].
    intros r d [[HP HF] HG]. split; [done|]. eauto.
  - naive_solver.
Qed.
Lemma reads_bind_any {A B} (m : prog (pg D) A) (k : A -> prog (pg D) B) F G :
  reads c m F -> (forall a, reads c (k a) G) -> reads c (bind m k) G.
Proof. intros Hm Hk. eapply reads_weaken; [eapply reads_bind; [done|exact Hk]|]. naive_solver. Qed.
Lemma reads_attempt {A} (m : prog (pg D) A) F :
  reads c m F -> reads c (attempt m) (fun d r => forall a, r = Ok a -> F d a).
Proof. intros Hm P. apply t_attempt. eapply t_conseq; [apply (Hm P)|done|]. naive_solver. Qed.
Lemma reads_ignore {A} (m : prog (pg D) A) F : reads c m F -> reads c (ignore m) any.
Proof. intros Hm P. apply t_ignore. eapply t_conseq; [apply (Hm P)|done|]. naive_solver. Qed.
Lemma reads_stmt {A} (f : D -> result A * D) (F : D -> A -> Prop) :
  (forall d, match f d with (Ok a, d') => d' = d /\ F d a | (Err _, _) => True end) -> reads c (stmt f) F.
Proof.
  intros Hf P. apply t_stmt. intros d Hd. specialize (Hf d). unfold stmt_post.
  destruct (f d) as [[a|e] d']; naive_solver.
Qed.
Lemma reads_read {A} (f : D -> A) : reads c (read f) (fun d a => a = f d).
Proof. by apply reads_stmt. Qed.
Lemma reads_if {A} (b : bool) (m1 m2 : prog (pg D) A) F : reads c m1 F -> reads c m2 F -> reads c (if b then m1 else m2) F.
Proof. by destruct b. Qed.

(** a triple whose program starts with reading *)
Lemma t_reads {A} (P : D -> Prop) (m : prog (pg D) A) F (Q : result A -> D -> Prop) :
  reads c m F -> (forall a d, P d -> F d a -> Q (Ok a) d) -> (forall e d, P d -> Q (Err e) d) -> triple c P m Q.
Proof. intros Hm HQ He. eapply t_conseq; [apply (Hm P)|done|]. intros [a|e] d [Hd HF]; eauto. Qed.
Lemma t_reads_bind {A B} (P : D -> Prop) (m : prog (pg D) A) (k : A -> prog (pg D) B) F Q :
  reads c m F -> (forall a, triple c (fun d => P d /\ F d a) (k a) Q) -> (forall e d, P d -> Q (Err e) d) ->
  triple c P (bind m k) Q.
Proof.
  intros Hm Hk He. eapply t_bind; [apply (Hm P)|..].
  - intros a. eapply t_conseq; [apply Hk|cbn; naive_solver|done].
  - naive_solver.
Qed.
Lemma t_reads_any {A B} (P : D -> Prop) (m : prog (pg D) A) (k : A -> prog (pg D) B) Q :
  reads c m any -> (forall a, triple c P (k a) Q) -> (forall e d, P d -> Q (Err e) d) -> triple c P (bind m k) Q.
Proof. intros Hm Hk He. eapply t_reads_bind; [done| |done]. intros a. eapply t_conseq; [apply Hk|naive_solver|done]. Qed.
(** a step that restores [R], then steps that keep it *)
Lemma t_seq {A B} (P R : D -> Prop) (m : prog (pg D) A) (k : A -> prog (pg D) B) :
  triple c P m (fun _ => R) -> (forall x, triple c R (k x) (fun _ => R)) -> triple c P (bind m k) (fun _ => R).
Proof. intros Hm Hk. eapply t_bind; [exact Hm|exact Hk|done]. Qed.
End reading.
(** ** Bodies of transactions

    [body c I P m Q]: in an open transaction, while the committed tables satisfy
    [I], [m] takes the transaction's tables from [P] to [Q] unless it aborts the
    transaction.  [on_pool m] runs [m] on another connection meanwhile. *)
Definition body {D A} (c : bool) (I P : D -> Prop) (m : prog (pg D) A) (Q : result A -> D -> Prop) : Prop :=
  forall w d b, p_tx w = Some (d, b) -> (c = true -> p_faults w = []) -> I (p_db w) ->
    let '(r, w') := m w in
    p_db w' = p_db w /\ (c = true -> p_faults w' = []) /\
    exists d' b', p_tx w' = Some (d', b') /\ (b = true -> b' = true) /\ (b' = false -> P d -> Q r d').
Definition on_pool {D A} (m : prog (pg D) A) : prog (pg D) A := fun w =>
  let '(r, w') := m (Build_pg (p_db w) None (p_faults w)) in (r, Build_pg (p_db w') (p_tx w) (p_faults w')).

Section bodies.
Context {D : Type} (c : bool) (I : D -> Prop).
Implicit Types P : D -> Prop.

Lemma b_conseq {A} P P' (m : prog (pg D) A) Q Q' :
  body c I P m Q -> (forall d, P' d -> P d) -> (forall r d, Q r d -> Q' r d) -> body c I P' m Q'.
Proof. intros Hm HP HQ w d b H1 H2 H3. specialize (Hm w d b H1 H2 H3). destruct (m w). naive_solver. Qed.
Lemma b_ret {A} P (a : A) Q : (forall d, P d -> Q (Ok a) d) -> body c I P (ret a) Q.
Proof. intros HQ w d b H1 H2 H3. split_and!; [done..|]. exists d, b. auto. Qed.
Lemma b_throw {A} P e (Q : result A -> D -> Prop) : (forall d, P d -> Q (Err e) d) -> body c I P (throw e) Q.
Proof. intros HQ w d b H1 H2 H3. split_and!; [done..|]. exists d, b. auto. Qed.
Lemma b_bind {A B} P (m : prog (pg D) A) (k : A -> prog (pg D) B) R Q :
  body c I P m R -> (forall a, body c I (R (Ok a)) (k a) Q) -> (forall e d, R (Err e) d -> Q (Err e) d) ->
  body c I P (bind m k) Q.
Proof.
  intros Hm Hk He w d b H1 H2 H3. specialize (Hm w d b H1 H2 H3). unfold bind. destruct (m w) as [[a|e] w1].
  - destruct Hm as (E1 & E2 & d1 & b1 & E3 & E4 & E5). rewrite <- E1 in H3. specialize (Hk a w1 d1 b1 E3 E2 H3).
    destruct (k a w1) as [r w2]. destruct Hk as (F1 & F2 & d2 & b2 & F3 & F4 & F5). split_and!; [congruence|done|].
    exists d2, b2. split_and!; [done|auto|]. intros Hb HP. apply F5; [done|]. apply E5; [|done]. destruct b1; [|done]. by rewrite F4 in Hb.
  - destruct Hm as (E1 & E2 & d1 & b1 & E3 & E4 & E5). split_and!; [done..|]. exists d1, b1. auto.
Qed.
Lemma b_attempt {A} P (m : prog (pg D) A) (Q : result (result A) -> D -> Prop) :
  body c I P m (fun r d => Q (Ok r) d) -> body c I P (attempt m) Q.
Proof. intros Hm w d b H1 H2 H3. specialize (Hm w d b H1 H2 H3). unfold attempt. by destruct (m w). Qed.
Lemma b_ignore {A} P (m : prog (pg D) A) Q : body c I P m (fun _ d => Q (Ok tt) d) -> body c I P (ignore m) Q.
Proof. intros Hm w d b H1 H2 H3. specialize (Hm w d b H1 H2 H3). unfold ignore. by destruct (m w). Qed.
Lemma b_stmt {A} P (f : D -> result A * D) Q :
  (forall d, P d -> match f d with (Ok a, d') => Q (Ok a) d' | (Err _, _) => True end) -> body c I P (stmt f) Q.
Proof.
  intros Hf w d b H1 H2 H3. specialize (Hf d). unfold stmt. rewrite H1.
  assert (c = true -> tail (p_faults w) = []) as Ht by (intros Hc; by rewrite H2). destruct b.
  - split_and!; [done|exact Ht|]. by exists d, true.
  - destruct (outcome w); [destruct (f d) as [[a|e] d']|..]; (split_and!; [done|exact Ht|]);
      first [by exists d, true|exists d', false; split_and!; auto].
Qed.
Lemma b_pool {A} P (m : prog (pg D) A) F :
  reads c m F -> body c I P (on_pool m) (fun r d => P d /\ forall a, r = Ok a -> exists d0, I d0 /\ F d0 a).
Proof.
  intros Hm w d b H1 H2 H3. unfold on_pool.
  specialize (Hm (fun x => x = p_db w) (Build_pg (p_db w) None (p_faults w)) (conj eq_refl H2) eq_refl).
  destruct (m _) as [r w']. destruct Hm as [[_ Hf] [Hd HF]]. cbn in Hd |- *. split_and!; [exact Hd|exact Hf|]. exists d, b.
  split_and!; [done|done|]. intros _ HP. split; [done|]. intros a Ha. exists (p_db w'). split; [by rewrite Hd|by apply HF].
Qed.
(** steps that keep [P] *)
Lemma b_seq {A B} P (m : prog (pg D) A) (k : A -> prog (pg D) B) :
  body c I P m (fun _ => P) -> (forall x, body c I P (k x) (fun _ => P)) -> body c I P (bind m k) (fun _ => P).
Proof. intros Hm Hk. eapply b_bind; [exact Hm|exact Hk|done]. Qed.
Lemma b_stmt_keep {A} P (f : D -> result A * D) : (forall d, P d -> P (snd (f d))) -> body c I P (stmt f) (fun _ => P).
Proof. intros Hf. apply b_stmt. intros d Hd. specialize (Hf d Hd). by destruct (f d) as [[a|e] d']. Qed.
Lemma t_in_tx_body {A} P wrap (m : prog (pg D) A) R (Q : result A -> D -> Prop) :
  body c I P m R -> (forall d, I d -> P d) -> (forall e d, I d -> Q (Err e) d) ->
  (forall a d, R (Ok a) d -> Q (Ok a) d /\ (c = false -> forall e, Q (Err e) d)) -> triple c I (in_tx wrap m) Q.
Proof.
  intros Hm HP He HR w Hw Hd. unfold in_tx, in_tx_errs, bind at 1, attempt at 1, begin_tx.
  assert (idle c (pop w)) as Hp by (eapply idle_pop; [exact Hw|apply Hw|done]).
  destruct (outcome w); [|by split; [exact Hp|apply He]..].
  set (w1 := with_tx_state _ _). specialize (Hm w1 (p_db w) false eq_refl (proj2 Hp) Hd). unfold bind at 1, attempt at 1.
  destruct (m w1) as [[a|e] w2]; destruct Hm as (Hdb & Hf & d & b & Hw2 & _ & H).
  2: { cbn. split; [by split|]. rewrite Hdb. by apply He. }
  unfold bind at 1, attempt at 1, commit_tx. rewrite Hw2.
  assert (forall t : D, idle c (Build_pg t None (tail (p_faults w2)))) as Hi by (intros t; split; [done|]; intros Hc; cbn; by rewrite Hf).
  destruct b; [cbn; split; [apply Hi|]; rewrite Hdb; by apply He|]. destruct (HR a d (H eq_refl (HP _ Hd))) as [HQ HQ'].
  destruct (outcome w2) eqn:Ho; cbn; (split; [apply Hi|]); [done|rewrite Hdb; by apply He|].
  apply HQ'. destruct c; [|done]. unfold outcome in Ho. by rewrite Hf in Ho.
Qed.
End bodies.

(** a reading step whose answer does not matter *)
Ltac rd := eapply t_reads_any; [solve [auto with reads]|intros ?|cbn; tauto].
Create HintDb reads.
#[export] Hint Resolve reads_throw reads_read reads_if : reads.
#[export] Hint Extern 1 (reads _ (ret _) _) => (eapply reads_weaken; [apply reads_ret|done]) : reads.
#[export] Hint Extern 2 (reads _ (bind _ _) any) => (eapply reads_bind_any; [|intros]) : reads.
#[export] Hint Extern 1 (reads _ (attempt _) _) => (eapply reads_attempt) : reads.
#[export] Hint Extern 3 (reads _ (read _) any) => (eapply reads_weaken; [apply reads_read|done]) : reads.
