(* ===== verification/FinTables.v ===== *)
(** * Wallets and the finance ledger: tables and statements

    The tenant's finance tables (wallets, their cached balances, transaction
    types, transactions, period locks, approval settings, assets, bills) with the
    statements and helpers that all finance handlers share: [finance/helpers.go],
    [finance/timezone.go], [finance/transaction_types.go]'s and
    [finance/investment.go]'s loaders, and [finance/finance.go]'s
    [refreshWalletBalance], which recomputes a wallet's cached balance from its
    transactions.  Money is in cents (NUMERIC(18,2) columns); a column other
    than a transaction's type is not limited in length.  What Postgres makes of
    the text of a UUID, a date or a float parameter, and the time zone database,
    are the classes [PgInput] and [TimeZones].  The retry after a stale prepared
    statement (which did not run), the log lines and the JSON data of audit rows
    are not modelled. *)
From S2P Require Import Prelude GoStrings AdminSession PgTx DaySlots Dates Float64 Billing Recurring.

Open Scope string_scope.
Open Scope Z_scope.

(** ** Postgres' reading of parameters, and time zones *)
Class PgInput := {
  uuid_in : string -> option string;         (** the canonical text of a UUID *)
  date_in : string -> option Z;              (** a day, counted as in Dates.v *)
  numeric_in : Z -> f64 -> option Z;         (** NUMERIC(18,s): units of 10^-s *)
  numeric_out : Z -> Z -> f64;               (** a column of scale s scanned into a float64 *)
  array_scan : list string -> option (list string)   (** a TEXT[] scanned into a []string *)
}.
(** the zone's offset from UTC at a time *)
Class TimeZones := { LoadLocation : string -> Z -> option Z }.

(** ** Tables *)
Record wallet_row := {
  w_id : string; w_name : string; w_type : string; w_institution : option string; w_account : option string;
  w_currency : string; w_initial : Z; w_color : option string; w_icon : option string; w_active : bool;
  w_visibility : string; w_order : Z; w_created : Z; w_deleted : bool
}.
Record category_row := {
  ca_id : string; ca_name : string; ca_type : string; ca_parent : option string; ca_order : Z; ca_system : bool; ca_deleted : bool
}.
Record type_row := {
  tt_id : string; tt_code : string; tt_label : string; tt_flow : string; tt_kind : string; tt_quick : bool;
  tt_order : Z; tt_system : bool; tt_owner : bool; tt_active : bool; tt_deleted : bool
}.
Record txn_row := {
  tx_id : string; tx_type : string; tx_amount : Z; tx_currency : string; tx_wallet : string; tx_to : option string;
  tx_category : option string; tx_description : option string; tx_notes : option string; tx_reference : option string;
  tx_date : Z; tx_status : string; tx_approved_by : option string; tx_reason : option string; tx_tags : list string;
  tx_asset : option string; tx_qty : option Z; tx_price : option Z; tx_fee : Z; tx_created_by : string; tx_deleted : bool
}.
Record approval_row := { ap_enabled : bool; ap_threshold : option Z; ap_types : list string }.
Record asset_row := {
  as_id : string; as_name : string; as_ticker : option string; as_type : string; as_unit : string; as_mult : Z;
  as_price_unit : option string; as_wallet : string; as_notes : option string; as_active : bool
}.
Record price_row := { pr_id : string; pr_asset : string; pr_price : Z }.
Record audit_row := { au_entity : string; au_id : string; au_action : string; au_actor : string; au_role : string }.
(** fin_checklist_template (its title as it is stored, and encrypted) and fin_checklist_item *)
Record bill_template_row := {
  tp_id : string; tp_title : string; tp_title_enc : option string; tp_description : option string; tp_hint : option Z;
  tp_category : option string; tp_wallet : option string; tp_frequency : string; tp_day : option Z; tp_anchor : option Z;
  tp_active : bool; tp_order : Z; tp_by : string
}.
Record bill_item_row := {
  it_id : string; it_template : string; it_due : Z; it_status : string; it_txn : option string; it_by : option string;
  it_at : option Z; it_note : option string
}.
Record fin_db := {
  f_wallets : list wallet_row;
  f_balances : gmap string Z;   (** fin_wallet_balance *)
  f_categories : list category_row;
  f_types : list type_row;
  f_txns : list txn_row;
  f_locks : list string;   (** fin_period_lock *)
  f_approval : option approval_row;
  f_assets : list asset_row;
  f_prices : list price_row;
  f_rules : list recurring_row;   (** fin_recurring, of Recurring.v *)
  f_templates : list bill_template_row;
  f_items : list bill_item_row;
  f_audit : list audit_row;
  f_usage : tenant_tables;
  f_timezone : option string;   (** the oldest business_profile's reporting_timezone *)
  f_ids : list string   (** what [gen_random_uuid] will draw *)
}.
Definition set_wallets x d : fin_db :=
  {| f_wallets := x; f_balances := f_balances d; f_categories := f_categories d; f_types := f_types d;
     f_txns := f_txns d; f_locks := f_locks d; f_approval := f_approval d; f_assets := f_assets d;
     f_prices := f_prices d; f_rules := f_rules d; f_templates := f_templates d; f_items := f_items d;
     f_audit := f_audit d; f_usage := f_usage d; f_timezone := f_timezone d; f_ids := f_ids d |}.
Definition set_balances x d : fin_db :=
  {| f_wallets := f_wallets d; f_balances := x; f_categories := f_categories d; f_types := f_types d;
     f_txns := f_txns d; f_locks := f_locks d; f_approval := f_approval d; f_assets := f_assets d;
     f_prices := f_prices d; f_rules := f_rules d; f_templates := f_templates d; f_items := f_items d;
     f_audit := f_audit d; f_usage := f_usage d; f_timezone := f_timezone d; f_ids := f_ids d |}.
Definition set_categories x d : fin_db :=
  {| f_wallets := f_wallets d; f_balances := f_balances d; f_categories := x; f_types := f_types d;
     f_txns := f_txns d; f_locks := f_locks d; f_approval := f_approval d; f_assets := f_assets d;
     f_prices := f_prices d; f_rules := f_rules d; f_templates := f_templates d; f_items := f_items d;
     f_audit := f_audit d; f_usage := f_usage d; f_timezone := f_timezone d; f_ids := f_ids d |}.
Definition set_types x d : fin_db :=
  {| f_wallets := f_wallets d; f_balances := f_balances d; f_categories := f_categories d; f_types := x;
     f_txns := f_txns d; f_locks := f_locks d; f_approval := f_approval d; f_assets := f_assets d;
     f_prices := f_prices d; f_rules := f_rules d; f_templates := f_templates d; f_items := f_items d;
     f_audit := f_audit d; f_usage := f_usage d; f_timezone := f_timezone d; f_ids := f_ids d |}.
Definition set_txns x d : fin_db :=
  {| f_wallets := f_wallets d; f_balances := f_balances d; f_categories := f_categories d; f_types := f_types d;
     f_txns := x; f_locks := f_locks d; f_approval := f_approval d; f_assets := f_assets d;
     f_prices := f_prices d; f_rules := f_rules d; f_templates := f_templates d; f_items := f_items d;
     f_audit := f_audit d; f_usage := f_usage d; f_timezone := f_timezone d; f_ids := f_ids d |}.
Definition set_locks x d : fin_db :=
  {| f_wallets := f_wallets d; f_balances := f_balances d; f_categories := f_categories d; f_types := f_types d;
     f_txns := f_txns d; f_locks := x; f_approval := f_approval d; f_assets := f_assets d;
     f_prices := f_prices d; f_rules := f_rules d; f_templates := f_templates d; f_items := f_items d;
     f_audit := f_audit d; f_usage := f_usage d; f_timezone := f_timezone d; f_ids := f_ids d |}.
Definition set_approval x d : fin_db :=
  {| f_wallets := f_wallets d; f_balances := f_balances d; f_categories := f_categories d; f_types := f_types d;
     f_txns := f_txns d; f_locks := f_locks d; f_approval := x; f_assets := f_assets d; f_prices := f_prices d;
     f_rules := f_rules d; f_templates := f_templates d; f_items := f_items d; f_audit := f_audit d;
     f_usage := f_usage d; f_timezone := f_timezone d; f_ids := f_ids d |}.
Definition set_assets x d : fin_db :=
  {| f_wallets := f_wallets d; f_balances := f_balances d; f_categories := f_categories d; f_types := f_types d;
     f_txns := f_txns d; f_locks := f_locks d; f_approval := f_approval d; f_assets := x;
     f_prices := f_prices d; f_rules := f_rules d; f_templates := f_templates d; f_items := f_items d;
     f_audit := f_audit d; f_usage := f_usage d; f_timezone := f_timezone d; f_ids := f_ids d |}.
Definition set_prices x d : fin_db :=
  {| f_wallets := f_wallets d; f_balances := f_balances d; f_categories := f_categories d; f_types := f_types d;
     f_txns := f_txns d; f_locks := f_locks d; f_approval := f_approval d; f_assets := f_assets d;
     f_prices := x; f_rules := f_rules d; f_templates := f_templates d; f_items := f_items d;
     f_audit := f_audit d; f_usage := f_usage d; f_timezone := f_timezone d; f_ids := f_ids d |}.
Definition set_templates x d : fin_db :=
  {| f_wallets := f_wallets d; f_balances := f_balances d; f_categories := f_categories d; f_types := f_types d;
     f_txns := f_txns d; f_locks := f_locks d; f_approval := f_approval d; f_assets := f_assets d;
     f_prices := f_prices d; f_rules := f_rules d; f_templates := x; f_items := f_items d; f_audit := f_audit d;
     f_usage := f_usage d; f_timezone := f_timezone d; f_ids := f_ids d |}.
Definition set_items x d : fin_db :=
  {| f_wallets := f_wallets d; f_balances := f_balances d; f_categories := f_categories d; f_types := f_types d;
     f_txns := f_txns d; f_locks := f_locks d; f_approval := f_approval d; f_assets := f_assets d;
     f_prices := f_prices d; f_rules := f_rules d; f_templates := f_templates d; f_items := x;
     f_audit := f_audit d; f_usage := f_usage d; f_timezone := f_timezone d; f_ids := f_ids d |}.
Definition set_audit x d : fin_db :=
  {| f_wallets := f_wallets d; f_balances := f_balances d; f_categories := f_categories d; f_types := f_types d;
     f_txns := f_txns d; f_locks := f_locks d; f_approval := f_approval d; f_assets := f_assets d;
     f_prices := f_prices d; f_rules := f_rules d; f_templates := f_templates d; f_items := f_items d;
     f_audit := x; f_usage := f_usage d; f_timezone := f_timezone d; f_ids := f_ids d |}.
Definition set_usage x d : fin_db :=
  {| f_wallets := f_wallets d; f_balances := f_balances d; f_categories := f_categories d; f_types := f_types d;
     f_txns := f_txns d; f_locks := f_locks d; f_approval := f_approval d; f_assets := f_assets d;
     f_prices := f_prices d; f_rules := f_rules d; f_templates := f_templates d; f_items := f_items d;
     f_audit := f_audit d; f_usage := x; f_timezone := f_timezone d; f_ids := f_ids d |}.
Definition set_ids x d : fin_db :=
  {| f_wallets := f_wallets d; f_balances := f_balances d; f_categories := f_categories d; f_types := f_types d;
     f_txns := f_txns d; f_locks := f_locks d; f_approval := f_approval d; f_assets := f_assets d;
     f_prices := f_prices d; f_rules := f_rules d; f_templates := f_templates d; f_items := f_items d;
     f_audit := f_audit d; f_usage := f_usage d; f_timezone := f_timezone d; f_ids := x |}.

Abbreviation fin A := (prog (pg fin_db) A).

(** ** Errors *)
Definition BadRequest (msg : string) : error := ECode InvalidArgument msg.
Definition Forbidden (msg : string) : error := ECode PermissionDenied msg.
Definition NotFoundE (msg : string) : error := ECode NotFound msg.
Definition InternalE (e : error) : error := ECode Internal (error_text e).
Definition bad_input : error := EText "invalid input syntax".
Definition constraint_error : error := EText "violates a constraint".
Definition numeric_overflow : error := EText "numeric field overflow".
Definition or_else {A} (wrap : error -> error) (m : fin A) : fin A :=
  let! r := attempt m in match r with Ok a => ret a | Err e => throw (wrap e) end.
Definition or_internal {A} (m : fin A) : fin A := or_else InternalE m.
Definition of_result {A} (r : result A) : fin A := match r with Ok a => ret a | Err e => throw e end.
Definition check (e : option error) : fin unit := match e with Some e => throw e | None => ret tt end.

(** ** Users *)
Definition mustUser (u : option AuthUser) : result AuthUser :=
  match u with
  | None => Err (ECode Unauthenticated "not authenticated")
  | Some user =>
      if negb (HasEffectiveTenantContext u) then Err (Forbidden "tenant context required")
      else match RequireModule u "finance" with Some e => Err e | None => Ok user end
  end.
Definition isOwner (u : AuthUser) : bool := CanPerformOwnerActions (Some u).
Definition assertOwner (u : AuthUser) : option error :=
  if negb (isOwner u) then Some (Forbidden "only owner can perform this action") else None.
(** [mustUser] then [assertOwner] *)
Definition mustOwner (u : option AuthUser) : fin AuthUser :=
  let! usr := of_result (mustUser u) in
  check (assertOwner usr);!
  ret usr.

(** [prepareTenant]: the schema check, a call that can fail *)
Definition prepareTenant : fin unit := or_internal (read (fun _ => tt)).

(** ** Which flow a transaction has *)
Definition in_list (x : string) (l : list string) : bool := existsb (String.eqb x) l.
Definition flow_fallback (ty : string) : string :=
  if in_list ty ["income"; "dividend"; "interest"; "cashback"; "investment_sell"] then "income"
  else if in_list ty ["expense"; "investment_buy"] then "expense"
  else if String.eqb ty "transfer" then "transfer"
  else if String.eqb ty "adjustment" then "adjustment"
  else "expense".
Definition live_type (code : string) (r : type_row) : bool := String.eqb (tt_code r) code && negb (tt_deleted r).
Definition type_of_code (d : fin_db) (code : string) : option type_row := List.find (live_type code) (f_types d).
(** COALESCE(tt.flow, CASE …) over the LEFT JOIN *)
Definition flow_of (d : fin_db) (ty : string) : string :=
  match type_of_code d ty with Some r => tt_flow r | None => flow_fallback ty end.

(** ** The balance query of [refreshWalletBalance] *)
Definition is_to (w : string) (t : txn_row) : bool := bool_decide (tx_to t = Some w).
Definition credit (w flow : string) (t : txn_row) : Z :=
  if String.eqb flow "income" && String.eqb (tx_wallet t) w then tx_amount t
  else if String.eqb flow "transfer" && is_to w t then tx_amount t
  else if String.eqb flow "adjustment" && String.eqb (tx_wallet t) w && (0 <? tx_amount t) then tx_amount t
  else 0.
Definition debit (w flow : string) (t : txn_row) : Z :=
  if String.eqb flow "expense" && String.eqb (tx_wallet t) w then tx_amount t
  else if String.eqb flow "transfer" && String.eqb (tx_wallet t) w && negb (is_to w t) then tx_amount t
  else if String.eqb flow "adjustment" && String.eqb (tx_wallet t) w && (tx_amount t <? 0) then Z.abs (tx_amount t)
  else 0.
Definition counts (t : txn_row) : bool := String.eqb (tx_status t) "approved" && negb (tx_deleted t).
Definition touches (w : string) (t : txn_row) : bool := String.eqb (tx_wallet t) w || is_to w t.
Definition net (d : fin_db) (w : string) : Z :=
  let ts := List.filter (fun t => touches w t && counts t) (f_txns d) in
  sum_of (fun t => credit w (flow_of d (tx_type t)) t) ts - sum_of (fun t => debit w (flow_of d (tx_type t)) t) ts.
Definition find_wallet (d : fin_db) (id : string) : option wallet_row :=
  List.find (fun w => String.eqb (w_id w) id) (f_wallets d).
(** a NUMERIC(18,2) value, in cents *)
Definition fits (n : Z) : bool := Z.abs n <? 10 ^ 18.

Section statements.
Context `{PgInput} `{TimeZones}.

(** a statement with a UUID parameter *)
Definition with_uuid {A} (id : string) (f : string -> fin_db -> result A * fin_db) : fin A :=
  stmt (fun d => match uuid_in id with Some i => f i d | None => (Err bad_input, d) end).
Definition uread {A} (id : string) (f : string -> fin_db -> A) : fin A := with_uuid id (fun i d => (Ok (f i d), d)).
Definition uexec (id : string) (f : string -> fin_db -> fin_db) : fin unit := with_uuid id (fun i d => (Ok tt, f i d)).
(** [QueryRow(…).Scan] of at most one row *)
Definition uquery {A} (id : string) (f : string -> fin_db -> option A) : fin A :=
  with_uuid id (fun i d => match f i d with Some a => (Ok a, d) | None => (Err no_rows, d) end).

(** INSERT … SELECT … FROM delta, init ON CONFLICT … : nothing for an unknown wallet *)
Definition refreshWalletBalance (walletID : string) : fin unit :=
  with_uuid walletID (fun w d =>
    match find_wallet d w with
    | None => (Ok tt, d)
    | Some row =>
        let b := w_initial row + net d w in
        if fits b then (Ok tt, set_balances (<[w := b]> (f_balances d)) d) else (Err numeric_overflow, d)
    end).
Definition refreshWallets (walletID : string) (toWalletID : option string) : fin unit :=
  (if negb (String.eqb walletID "") then ignore (refreshWalletBalance walletID) else ret tt);!
  match toWalletID with
  | Some t => if negb (String.eqb t "") && negb (String.eqb t walletID) then ignore (refreshWalletBalance t) else ret tt
  | None => ret tt
  end.
Definition find_txn (d : fin_db) (id : string) : option txn_row :=
  List.find (fun t => String.eqb (tx_id t) id) (f_txns d).
Definition refreshWalletsForTransaction (txnID : string) : fin unit :=
  let! r := attempt (uquery txnID (fun i d => (fun t => (tx_wallet t, tx_to t)) <$> find_txn d i)) in
  match r with
  | Err _ => ret tt
  | Ok (walletID, toWalletID) => refreshWallets walletID toWalletID
  end.
Definition auditFinance (u : AuthUser) (entityType entityID action : string) : fin unit :=
  ignore (stmt (fun d =>
    match uuid_in entityID, uuid_in (AccountID u) with
    | Some i, Some a => (Ok tt, set_audit (f_audit d ++ [{| au_entity := entityType; au_id := i; au_action := action;
                                   au_actor := a; au_role := Role u |}])%list d)
    | _, _ => (Err bad_input, d)
    end)).
(** [usage.RecordEvent] (Billing.v) on the tenant's usage tables; its callers drop the error *)
Definition RecordEvents (u : AuthUser) (eventType : string) (quantity now : Z) : fin unit :=
  ignore (match validateSchema (TenantSchema u) with
          | Some e => throw e
          | None =>
              exec (fun d => set_usage (add_event eventType quantity now (f_usage d)) d);!
              exec (fun d => set_usage (add_aggregate eventType (format_month now) quantity (f_usage d)) d)
          end).
Definition RecordUsage (u : AuthUser) (eventType : string) (now : Z) : fin unit := RecordEvents u eventType 1 now.

(** ** Dates and periods *)
Definition defaultFinanceTimezone : string := "Asia/Jakarta".
(** without the zone of the setting, the default zone; [FixedZone("WIB", 7*60*60)] without that *)
Definition zone_offset (tz : string) (now : Z) : Z :=
  match LoadLocation (TrimSpace tz) now with
  | Some o => o
  | None => default (7 * Hour) (LoadLocation defaultFinanceTimezone now)
  end.
Definition financeLocation (now : Z) : fin Z :=
  let! tz := attempt (stmt (fun d => match f_timezone d with Some z => (Ok z, d) | None => (Err no_rows, d) end)) in
  ret (zone_offset (match tz with Ok z => z | Err _ => defaultFinanceTimezone end) now).
Definition financeToday (now : Z) : fin string := let! o := financeLocation now in ret (format_date (now + o)).
(** the time zone database has the default zone ([walletPeriod] would panic without it) *)
Definition walletPeriod (now : Z) (d : string) : string :=
  if (7 <=? String.length d)%nat then take_bytes 7 d
  else format_month (now + default (7 * Hour) (LoadLocation defaultFinanceTimezone now)).
Definition date_text (day : Z) : string := format_date (day * Day).
Definition periodLocked (period : string) : fin bool := read (fun d => existsb (String.eqb period) (f_locks d)).
Definition ensurePeriodUnlocked (period : string) : fin unit :=
  let! locked := or_internal (periodLocked period) in
  if locked : bool then throw (Forbidden ("periode " ++ period ++ " sudah dikunci")) else ret tt.

(** ** Access and approval *)
Definition assertWalletAccessible (u : AuthUser) (walletID : string) : fin unit :=
  if String.eqb walletID "" then throw (BadRequest "dompet harus dipilih")
  else if isOwner u then ret tt
  else
    let! r := attempt (uquery walletID (fun i d =>
      w_visibility <$> List.find (fun w => String.eqb (w_id w) i && negb (w_deleted w) && w_active w) (f_wallets d))) in
    match r with
    | Err e => if bool_decide (e = no_rows) then throw (BadRequest "dompet tidak ditemukan") else throw (InternalE e)
    | Ok v => if String.eqb v "owner" then throw (Forbidden "dompet ini hanya dapat diakses owner") else ret tt
    end.
Record approvalConfig := { cf_enabled : bool; cf_threshold : option f64; cf_types : list string }.
Definition approvalSettingID : string := "00000000-0000-0000-0000-000000000001".
Definition no_config : approvalConfig := {| cf_enabled := false; cf_threshold := None; cf_types := [] |}.
Definition loadApprovalConfig : fin approvalConfig :=
  let! r := attempt (read f_approval) in
  match r with
  | Err e => throw e
  | Ok None => ret no_config
  | Ok (Some a) =>
      match array_scan (ap_types a) with
      | None => throw bad_input
      | Some l => ret {| cf_enabled := ap_enabled a; cf_threshold := numeric_out 2 <$> ap_threshold a; cf_types := l |}
      end
  end.
Definition staffNeedsApproval (cfg : approvalConfig) (txnType : string) (amount : f64) : bool :=
  if negb (cf_enabled cfg) then false
  else if negb (Nat.eqb (length (cf_types cfg)) 0) && negb (in_list txnType (cf_types cfg)) then false
  else negb (match cf_threshold cfg with Some th => fltb amount th | None => false end).
(** the status a new transaction of a user gets *)
Definition initial_status (u : AuthUser) (txnType : string) (amount : f64) : fin string :=
  if isOwner u then ret "approved"
  else
    let! cfg := or_internal loadApprovalConfig in
    ret (if staffNeedsApproval cfg txnType amount then "pending_approval" else "approved").

(** ** Loaders *)
Definition loadTransactionTypeByID (id : string) : fin type_row :=
  or_else (fun _ => NotFoundE "jenis transaksi tidak ditemukan")
    (uquery id (fun i d => List.find (fun t => String.eqb (tt_id t) i && negb (tt_deleted t)) (f_types d))).
Definition loadTransactionTypeByCode (code : string) : fin type_row :=
  or_else (fun _ => NotFoundE "jenis transaksi tidak valid")
    (stmt (fun d => match List.find (fun t => live_type code t && tt_active t) (f_types d) with
                    | Some t => (Ok t, d) | None => (Err no_rows, d) end)).

(** ** Writing transactions
    The constraints of fin_transaction: primary key, CHECK (amount > 0), the
    length of the type, and the partial unique index on the reference of live
    income rows. *)
Definition income_ref (t : txn_row) : option string :=
  if String.eqb (tx_type t) "income" && negb (tx_deleted t) then tx_reference t else None.
Definition txn_ok (t : txn_row) : bool := (0 <? tx_amount t) && (String.length (tx_type t) <=? 20)%nat.
Definition txns_valid (l : list txn_row) : bool :=
  forallb txn_ok l && bool_decide (NoDup (map tx_id l)) && bool_decide (NoDup (omap income_ref l)).
Definition write_txns (l : list txn_row) (d : fin_db) : result unit * fin_db :=
  if txns_valid l then (Ok tt, set_txns l d) else (Err constraint_error, d).
(** [gen_random_uuid()]; the supply is long enough *)
Definition no_id : error := EText "no more ids".
Definition with_id {A} (k : string -> fin_db -> result A * fin_db) (d : fin_db) : result A * fin_db :=
  match f_ids d with [] => (Err no_id, d) | id :: rest => k id (set_ids rest d) end.
(** INSERT … RETURNING id; [row] is None when a parameter does not convert *)
Definition insert_txn (row : string -> option txn_row) : fin_db -> result string * fin_db :=
  with_id (fun id d =>
    match row id with
    | None => (Err bad_input, d)
    | Some t =>
        match write_txns (f_txns d ++ [t])%list d with
        | (Ok _, d') => (Ok id, d')
        | (Err e, _) => (Err e, d)
        end
    end).
(** UPDATE fin_transaction SET … WHERE id = $ *)
Definition update_txn (id : string) (f : txn_row -> txn_row) (d : fin_db) : result unit * fin_db :=
  write_txns (map (fun t => if String.eqb (tx_id t) id then f t else t) (f_txns d)) d.
(** a nullable UUID parameter *)
Definition uuid_opt (s : option string) : option (option string) :=
  match s with None => Some None | Some x => Some <$> uuid_in x end.
End statements.
