(* ===== verification/FinTxns.v ===== *)
(** * Finance transactions, wallets, types and period locks

    The writing handlers of [finance/finance.go] and
    [finance/transaction_types.go] over the tables of FinTables.v, whole:
    guards, statements and early returns in the order of the code.  [now] is
    the clock of a call.  Listings are not modelled, nor the fields of a
    response that only repeat the request. *)
From S2P Require Import Prelude GoStrings AdminSession PgTx Float64 Billing Recurring FinTables.

Open Scope string_scope.
Open Scope Z_scope.

Section handlers.
Context `{PgInput} `{TimeZones}.

(** ** Wallets *)
Record CreateWalletParams := {
  CW_Name : string; CW_Type : string; CW_Institution : option string; CW_AccountNo : option string; CW_Currency : string;
  CW_InitialBalance : f64; CW_Color : option string; CW_Icon : option string; CW_Visibility : string; CW_DisplayOrder : Z
}.
Definition validWalletTypes : list string := ["cash"; "bank"; "ewallet"; "crypto"; "investment"; "other"].
Definition wallet_of (p : CreateWalletParams) (now balance : Z) (id : string) : wallet_row :=
  {| w_id := id; w_name := TrimSpace (CW_Name p); w_type := CW_Type p; w_institution := CW_Institution p;
     w_account := CW_AccountNo p; w_currency := if String.eqb (CW_Currency p) "" then "IDR" else CW_Currency p;
     w_initial := balance; w_color := CW_Color p; w_icon := CW_Icon p; w_active := true;
     w_visibility := if String.eqb (CW_Visibility p) "owner" then "owner" else "all";
     w_order := CW_DisplayOrder p; w_created := now; w_deleted := false |}.
(** INSERT … RETURNING id, on the primary key *)
Definition insert_wallet (u : AuthUser) (p : CreateWalletParams) (now : Z) : fin_db -> result string * fin_db :=
  with_id (fun id d =>
    match numeric_in 2 (CW_InitialBalance p), uuid_in (AccountID u) with
    | Some b, Some _ =>
        if existsb (fun w => String.eqb (w_id w) id) (f_wallets d) then (Err constraint_error, d)
        else (Ok id, set_wallets (f_wallets d ++ [wallet_of p now b id])%list d)
    | _, _ => (Err bad_input, d)
    end).
(** INSERT INTO fin_wallet_balance … ON CONFLICT DO NOTHING *)
Definition insert_balance (id : string) (balance : f64) : fin unit :=
  stmt (fun d =>
    match numeric_in 2 balance with
    | None => (Err bad_input, d)
    | Some b => (Ok tt, match f_balances d !! id with
                        | Some _ => d
                        | None => set_balances (<[id := b]> (f_balances d)) d
                        end)
    end).
Definition CreateWallet (u : option AuthUser) (p : CreateWalletParams) (now : Z) : fin string :=
  let! usr := mustOwner u in
  if String.eqb (TrimSpace (CW_Name p)) "" then throw (BadRequest "nama wallet tidak boleh kosong")
  else if negb (in_list (CW_Type p) validWalletTypes) then throw (BadRequest "tipe wallet tidak valid")
  else
    prepareTenant;!
    let! id := or_internal (stmt (insert_wallet usr p now)) in
    ignore (insert_balance id (CW_InitialBalance p));!
    auditFinance usr "wallet" id "create";!
    ret id.

Record UpdateWalletParams := {
  UW_Name : option string; UW_Type : option string; UW_Institution : option string; UW_Color : option string;
  UW_Icon : option string; UW_Visibility : option string; UW_IsActive : option bool; UW_DisplayOrder : option Z
}.
Definition set_field {A} (new : option A) (old : A) : A := default old new.
Definition set_nullable {A} (new : option A) (old : option A) : option A := match new with Some x => Some x | None => old end.
Definition update_wallet_row (p : UpdateWalletParams) (w : wallet_row) : wallet_row :=
  {| w_id := w_id w; w_name := set_field (TrimSpace <$> UW_Name p) (w_name w); w_type := set_field (UW_Type p) (w_type w);
     w_institution := set_nullable (UW_Institution p) (w_institution w); w_account := w_account w;
     w_currency := w_currency w; w_initial := w_initial w; w_color := set_nullable (UW_Color p) (w_color w);
     w_icon := set_nullable (UW_Icon p) (w_icon w); w_active := set_field (UW_IsActive p) (w_active w);
     w_visibility := set_field (UW_Visibility p) (w_visibility w); w_order := set_field (UW_DisplayOrder p) (w_order w);
     w_created := w_created w; w_deleted := w_deleted w |}.
Definition delete_wallet_row (w : wallet_row) : wallet_row :=
  {| w_id := w_id w; w_name := w_name w; w_type := w_type w; w_institution := w_institution w; w_account := w_account w;
     w_currency := w_currency w; w_initial := w_initial w; w_color := w_color w; w_icon := w_icon w; w_active := w_active w;
     w_visibility := w_visibility w; w_order := w_order w; w_created := w_created w; w_deleted := true |}.
(** UPDATE fin_wallet … WHERE id = $ AND deleted_at IS NULL *)
Definition update_wallet (f : wallet_row -> wallet_row) (id : string) (d : fin_db) : fin_db :=
  set_wallets (map (fun w => if String.eqb (w_id w) id && negb (w_deleted w) then f w else w) (f_wallets d)) d.
Definition no_wallet_change (p : UpdateWalletParams) : bool :=
  match p with Build_UpdateWalletParams None None None None None None None None => true | _ => false end.
Definition UpdateWallet (u : option AuthUser) (id : string) (p : UpdateWalletParams) : fin unit :=
  let! usr := mustOwner u in
  prepareTenant;!
  if match UW_Type p with Some ty => negb (in_list ty validWalletTypes) | None => false end
  then throw (BadRequest "tipe wallet tidak valid")
  else if no_wallet_change p then throw (BadRequest "tidak ada perubahan")
  else
    or_internal (uexec id (update_wallet (update_wallet_row p)));!
    auditFinance usr "wallet" id "edit".

(** [to_regclass] answers the table's name, or NULL (errors are dropped) *)
Definition finAssetTableReady : fin bool :=
  let! r := attempt (read (fun _ => tt)) in ret (is_ok r).
Definition count_of {A} (f : A -> bool) (l : list A) : nat := length (List.filter f l).
(** a count whose error is dropped stays zero *)
Definition count_or_zero (m : fin nat) : fin nat := let! r := attempt m in ret (match r with Ok n => n | Err _ => O end).
Definition walletDeleteBlocked (walletID : string) : fin unit :=
  let! txnCount := count_or_zero (uread walletID (fun w d => count_of (fun t => negb (tx_deleted t) && touches w t) (f_txns d))) in
  let! ready := finAssetTableReady in
  let! assetCount :=
    if ready then count_or_zero (uread walletID (fun w d => count_of (fun a => String.eqb (as_wallet a) w && as_active a) (f_assets d)))
    else ret O in
  let! recurringCount := count_or_zero (uread walletID (fun w d =>
    count_of (fun r => negb (rc_deleted r) &&
       (String.eqb (rc_wallet r) w || bool_decide (rc_to_wallet r = Some w))) (f_rules d))) in
  if (0 <? txnCount)%nat then throw (BadRequest "dompet masih memiliki transaksi. Hapus atau pindahkan transaksi terlebih dahulu.")
  else if (0 <? assetCount)%nat then throw (BadRequest "dompet masih terhubung ke aset investasi aktif. Ubah dompet aset atau hapus aset terlebih dahulu.")
  else if (0 <? recurringCount)%nat then throw (BadRequest "dompet masih dipakai transaksi berulang. Hapus transaksi berulang terlebih dahulu.")
  else ret tt.
Definition has_wallet (d : fin_db) (id : string) : bool :=
  existsb (fun w => String.eqb (w_id w) id && negb (w_deleted w)) (f_wallets d).
Definition DeleteWallet (u : option AuthUser) (id : string) : fin unit :=
  let! usr := mustOwner u in
  if String.eqb (TrimSpace id) "" then throw (BadRequest "dompet tidak valid")
  else
    prepareTenant;!
    let! exists_ := or_internal (uread id (fun i d => has_wallet d i)) in
    if negb exists_ then throw (NotFoundE "dompet tidak ditemukan")
    else
      walletDeleteBlocked id;!
      let! n := or_internal (with_uuid id (fun i d => (Ok (has_wallet d i), update_wallet delete_wallet_row i d))) in
      if negb n then throw (NotFoundE "dompet tidak ditemukan")
      else auditFinance usr "wallet" id "delete".

(** ** Categories *)
Record CreateCategoryParams := { CC_Name : string; CC_Type : string; CC_ParentID : option string; CC_DisplayOrder : Z }.
Definition CreateCategory (u : option AuthUser) (p : CreateCategoryParams) : fin string :=
  mustOwner u;!
  if String.eqb (TrimSpace (CC_Name p)) "" then throw (BadRequest "nama kategori tidak boleh kosong")
  else
    prepareTenant;!
    or_internal (stmt (with_id (fun id d =>
      match uuid_opt (CC_ParentID p) with
      | None => (Err bad_input, d)
      | Some parent =>
          if existsb (fun c => String.eqb (ca_id c) id) (f_categories d) then (Err constraint_error, d)
          else (Ok id, set_categories (f_categories d ++
                 [{| ca_id := id; ca_name := TrimSpace (CC_Name p); ca_type := CC_Type p; ca_parent := parent;
                     ca_order := CC_DisplayOrder p; ca_system := false; ca_deleted := false |}])%list d)
      end))).
Definition live_category (id : string) (c : category_row) : bool := String.eqb (ca_id c) id && negb (ca_deleted c).
Definition delete_category_row (c : category_row) : category_row :=
  {| ca_id := ca_id c; ca_name := ca_name c; ca_type := ca_type c; ca_parent := ca_parent c; ca_order := ca_order c;
     ca_system := ca_system c; ca_deleted := true |}.
Definition DeleteCategory (u : option AuthUser) (id : string) : fin unit :=
  mustOwner u;!
  prepareTenant;!
  let! r := attempt (uquery id (fun i d => ca_system <$> List.find (live_category i) (f_categories d))) in
  match r with
  | Err e => if bool_decide (e = no_rows) then throw (NotFoundE "kategori tidak ditemukan") else throw (InternalE e)
  | Ok true => throw (BadRequest "kategori bawaan tidak bisa dihapus")
  | Ok false =>
      let! n := or_internal (with_uuid id (fun i d =>
        (Ok (existsb (live_category i) (f_categories d)),
         set_categories (map (fun c => if live_category i c then delete_category_row c else c) (f_categories d)) d))) in
      if negb n then throw (NotFoundE "kategori tidak ditemukan") else ret tt
  end.

(** ** Transaction types *)
Definition is_lower (c : ascii) : bool := (97 <=? code c)%N && (code c <=? 122)%N.
Definition is_digit (c : ascii) : bool := (48 <=? code c)%N && (code c <=? 57)%N.
Fixpoint all_chars (f : ascii -> bool) (s : string) : bool :=
  match s with "" => true | String c s' => f c && all_chars f s' end.
(** [^[a-z][a-z0-9_]{0,39}$] *)
Definition txnTypeCodeRe (s : string) : bool :=
  match s with
  | "" => false
  | String c s' => is_lower c && all_chars (fun c => is_lower c || is_digit c || (code c =? 95)%N) s'
                   && (String.length s' <=? 39)%nat
  end.
Definition validTxnFlows : list string := ["income"; "expense"; "transfer"; "adjustment"].
Definition validCategoryKinds : list string := ["income"; "expense"; "investment"; "any"].
Definition validateTxnTypeInput (code label flow categoryKind : string) : option error :=
  if negb (txnTypeCodeRe (TrimSpace code)) then Some (BadRequest "kode harus huruf kecil, angka, underscore (contoh: biaya_kirim)")
  else if String.eqb (TrimSpace label) "" then Some (BadRequest "label tidak boleh kosong")
  else if negb (in_list flow validTxnFlows) then Some (BadRequest "flow harus income, expense, transfer, atau adjustment")
  else if negb (in_list (if String.eqb categoryKind "" then "any" else categoryKind) validCategoryKinds)
       then Some (BadRequest "categoryKind tidak valid")
  else None.
Record CreateTransactionTypeParams := {
  TY_Code : string; TY_Label : string; TY_Flow : string; TY_CategoryKind : string; TY_ShowInQuick : bool; TY_DisplayOrder : Z
}.
Definition type_ref (r : type_row) : option string := if tt_deleted r then None else Some (tt_code r).
(** primary key and idx_fin_txn_type_code *)
Definition types_valid (l : list type_row) : bool :=
  bool_decide (NoDup (map tt_id l)) && bool_decide (NoDup (omap type_ref l)).
Definition type_of_params (p : CreateTransactionTypeParams) (id : string) : type_row :=
  {| tt_id := id; tt_code := ToLower (TrimSpace (TY_Code p)); tt_label := TrimSpace (TY_Label p); tt_flow := TY_Flow p;
     tt_kind := TY_CategoryKind p; tt_quick := TY_ShowInQuick p; tt_order := TY_DisplayOrder p; tt_system := false;
     tt_owner := String.eqb (TY_Flow p) "adjustment"; tt_active := true; tt_deleted := false |}.
Definition insert_type (p : CreateTransactionTypeParams) : fin_db -> result string * fin_db :=
  with_id (fun id d =>
    let l := (f_types d ++ [type_of_params p id])%list in
    if types_valid l then (Ok id, set_types l d) else (Err constraint_error, d)).
Definition CreateTransactionType (u : option AuthUser) (p : CreateTransactionTypeParams) : fin type_row :=
  mustOwner u;!
  let code := ToLower (TrimSpace (TY_Code p)) in
  check (validateTxnTypeInput code (TY_Label p) (TY_Flow p) (TY_CategoryKind p));!
  prepareTenant;!
  let! found := attempt (read (fun d => existsb (live_type code) (f_types d))) in
  if match found with Ok b => b | Err _ => false end then throw (BadRequest "kode jenis transaksi sudah dipakai")
  else
    let! id := or_internal (stmt (insert_type p)) in
    loadTransactionTypeByID id.

Record UpdateTransactionTypeParams := {
  UT_Label : option string; UT_Flow : option string; UT_CategoryKind : option string; UT_ShowInQuick : option bool;
  UT_DisplayOrder : option Z; UT_IsActive : option bool
}.
Definition edit_type (p : UpdateTransactionTypeParams) (r : type_row) : type_row :=
  {| tt_id := tt_id r; tt_code := tt_code r; tt_label := set_field (UT_Label p) (tt_label r); tt_flow := set_field (UT_Flow p) (tt_flow r);
     tt_kind := set_field (UT_CategoryKind p) (tt_kind r); tt_quick := set_field (UT_ShowInQuick p) (tt_quick r);
     tt_order := set_field (UT_DisplayOrder p) (tt_order r); tt_system := tt_system r; tt_owner := tt_owner r;
     tt_active := set_field (UT_IsActive p) (tt_active r); tt_deleted := tt_deleted r |}.
Definition no_edit : UpdateTransactionTypeParams := Build_UpdateTransactionTypeParams None None None None None None.
(** UPDATE fin_transaction_type SET … WHERE id = $ *)
Definition update_types (f : type_row -> type_row) (id : string) (d : fin_db) : fin_db :=
  set_types (map (fun r => if String.eqb (tt_id r) id then f r else r) (f_types d)) d.
Definition edit_types (id : string) (p : UpdateTransactionTypeParams) : fin unit := ignore (uexec id (update_types (edit_type p))).
Definition when_some {A} (o : option A) (k : A -> fin unit) : fin unit := match o with Some a => k a | None => ret tt end.
Definition live_type_id (id : string) (r : type_row) : bool := String.eqb (tt_id r) id && negb (tt_deleted r).
Definition UpdateTransactionType (u : option AuthUser) (id : string) (p : UpdateTransactionTypeParams) : fin type_row :=
  mustOwner u;!
  prepareTenant;!
  let! isSystem := or_else (fun _ => NotFoundE "jenis transaksi tidak ditemukan")
    (uquery id (fun i d => tt_system <$> List.find (live_type_id i) (f_types d))) in
  when_some (UT_Label p) (fun l =>
    if String.eqb (TrimSpace l) "" then throw (BadRequest "label tidak boleh kosong")
    else edit_types id (Build_UpdateTransactionTypeParams (Some (TrimSpace l)) None None None None None));!
  (if negb isSystem then
     when_some (UT_Flow p) (fun f =>
       if negb (in_list f validTxnFlows) then throw (BadRequest "alur (flow) tidak valid")
       else edit_types id (Build_UpdateTransactionTypeParams None (Some f) None None None None));!
     when_some (UT_CategoryKind p) (fun k =>
       if negb (in_list k validCategoryKinds) then throw (BadRequest "jenis kategori tidak valid")
       else edit_types id (Build_UpdateTransactionTypeParams None None (Some k) None None None))
   else ret tt);!
  when_some (UT_ShowInQuick p) (fun b => edit_types id (Build_UpdateTransactionTypeParams None None None (Some b) None None));!
  when_some (UT_DisplayOrder p) (fun n => edit_types id (Build_UpdateTransactionTypeParams None None None None (Some n) None));!
  when_some (UT_IsActive p) (fun b => edit_types id (Build_UpdateTransactionTypeParams None None None None None (Some b)));!
  loadTransactionTypeByID id.
Definition delete_type_row (r : type_row) : type_row :=
  {| tt_id := tt_id r; tt_code := tt_code r; tt_label := tt_label r; tt_flow := tt_flow r; tt_kind := tt_kind r;
     tt_quick := tt_quick r; tt_order := tt_order r; tt_system := tt_system r; tt_owner := tt_owner r; tt_active := false;
     tt_deleted := true |}.
Definition DeleteTransactionType (u : option AuthUser) (id : string) : fin unit :=
  mustOwner u;!
  prepareTenant;!
  let! row := or_else (fun _ => NotFoundE "jenis transaksi tidak ditemukan")
    (uquery id (fun i d => List.find (live_type_id i) (f_types d))) in
  if tt_system row then throw (BadRequest "jenis bawaan sistem tidak bisa dihapus")
  else
    let! used := attempt (read (fun d => existsb (fun t => String.eqb (tx_type t) (tt_code row) && negb (tx_deleted t)) (f_txns d))) in
    if match used with Ok b => b | Err _ => false end then throw (BadRequest "jenis masih dipakai transaksi — nonaktifkan saja")
    else ignore (uexec id (update_types delete_type_row)).

(** ** Transactions *)
Record CreateTransactionParams := {
  TP_Type : string; TP_Amount : f64; TP_Currency : string; TP_WalletID : string; TP_ToWalletID : option string;
  TP_CategoryID : option string; TP_Description : option string; TP_Notes : option string; TP_ReferenceNo : option string;
  TP_TransactionDate : string; TP_Tags : list string
}.
(** [p.ToWalletID != nil && *p.ToWalletID != ""] *)
Definition given (s : option string) : option string :=
  match s with Some x => if String.eqb x "" then None else Some x | None => None end.
Definition max_amount : f64 := of_Z 999999999999.
Definition validateCreateTransaction (p : CreateTransactionParams) : option error :=
  if String.eqb (TrimSpace (TP_Type p)) "" then Some (BadRequest "jenis transaksi tidak valid")
  else if fleb (TP_Amount p) fzero then Some (BadRequest "jumlah harus lebih dari 0")
  else if fltb max_amount (TP_Amount p) then Some (BadRequest "jumlah terlalu besar")
  else if String.eqb (TP_WalletID p) "" then Some (BadRequest "wallet harus dipilih")
  else if String.eqb (TP_Type p) "transfer" && negb (bool_decide (is_Some (given (TP_ToWalletID p))))
       then Some (BadRequest "transfer harus ada wallet tujuan")
  else if String.eqb (TP_Type p) "transfer" && bool_decide (TP_ToWalletID p = Some (TP_WalletID p))
       then Some (BadRequest "wallet asal dan tujuan tidak boleh sama")
  else None.
(** the row of the INSERT, once every parameter converts to its column *)
Definition txn_of_params (u : AuthUser) (p : CreateTransactionParams) (date status id : string) : option txn_row :=
  match numeric_in 2 (TP_Amount p), uuid_in (TP_WalletID p), uuid_opt (TP_ToWalletID p),
        uuid_opt (TP_CategoryID p), date_in date, uuid_in (AccountID u) with
  | Some amount, Some wallet, Some to_wallet, Some category, Some day, Some by_ =>
      Some {| tx_id := id; tx_type := TP_Type p; tx_amount := amount;
              tx_currency := if String.eqb (TP_Currency p) "" then "IDR" else TP_Currency p;
              tx_wallet := wallet; tx_to := to_wallet; tx_category := category; tx_description := TP_Description p;
              tx_notes := TP_Notes p; tx_reference := TP_ReferenceNo p; tx_date := day; tx_status := status;
              tx_approved_by := None; tx_reason := None; tx_tags := TP_Tags p; tx_asset := None; tx_qty := None;
              tx_price := None; tx_fee := 0; tx_created_by := by_; tx_deleted := false |}
  | _, _, _, _, _, _ => None
  end.
Record Transaction := { TR_ID : string; TR_Status : string; TR_Date : string }.
Definition date_or_today (date : string) (now : Z) : fin string := if String.eqb date "" then financeToday now else ret date.
Definition CreateTransaction (u : option AuthUser) (p : CreateTransactionParams) (now : Z) : fin Transaction :=
  let! usr := of_result (mustUser u) in
  check (validateCreateTransaction p);!
  prepareTenant;!
  let! date := date_or_today (TP_TransactionDate p) now in
  let! txnType := loadTransactionTypeByCode (TP_Type p) in
  check (if tt_owner txnType then assertOwner usr else None);!
  assertWalletAccessible usr (TP_WalletID p);!
  when_some (given (TP_ToWalletID p)) (assertWalletAccessible usr);!
  let! status := initial_status usr (TP_Type p) (TP_Amount p) in
  ensurePeriodUnlocked (walletPeriod now date);!
  let! id := in_tx InternalE (or_internal (stmt (insert_txn (txn_of_params usr p date status)))) in
  (if String.eqb status "approved" then refreshWallets (TP_WalletID p) (TP_ToWalletID p) else ret tt);!
  RecordUsage usr "fin_transaction_created" now;!
  auditFinance usr "transaction" id "create";!
  ret {| TR_ID := id; TR_Status := status; TR_Date := date |}.

Record UpdateTransactionParams := {
  UP_CategoryID : option string; UP_Description : option string; UP_Notes : option string; UP_ReferenceNo : option string;
  UP_TransactionDate : option string; UP_Amount : option f64; UP_Tags : option (list string)
}.
Definition live_txn (id : string) (t : txn_row) : bool := String.eqb (tx_id t) id && negb (tx_deleted t).
Definition find_live_txn (d : fin_db) (id : string) : option txn_row := List.find (live_txn id) (f_txns d).
(** the changed columns: every given parameter converts, or the statement fails *)
Definition convert {A B} (f : A -> option B) (o : option A) : option (option B) :=
  match o with None => Some None | Some a => Some <$> f a end.
Definition update_txn_row (owner : bool) (p : UpdateTransactionParams) : option (txn_row -> txn_row) :=
  match convert uuid_in (UP_CategoryID p), convert date_in (UP_TransactionDate p),
        convert (numeric_in 2) (if owner then UP_Amount p else None) with
  | Some category, Some day, Some amount =>
      Some (fun t =>
        {| tx_id := tx_id t; tx_type := tx_type t; tx_amount := set_field amount (tx_amount t); tx_currency := tx_currency t;
           tx_wallet := tx_wallet t; tx_to := tx_to t; tx_category := set_nullable category (tx_category t);
           tx_description := set_nullable (UP_Description p) (tx_description t); tx_notes := set_nullable (UP_Notes p) (tx_notes t);
           tx_reference := set_nullable (UP_ReferenceNo p) (tx_reference t); tx_date := set_field day (tx_date t);
           tx_status := tx_status t; tx_approved_by := tx_approved_by t; tx_reason := tx_reason t;
           tx_tags := set_field (UP_Tags p) (tx_tags t); tx_asset := tx_asset t; tx_qty := tx_qty t; tx_price := tx_price t;
           tx_fee := tx_fee t; tx_created_by := tx_created_by t; tx_deleted := tx_deleted t |})
  | _, _, _ => None
  end.
(** staff edit only their own transactions, before these are processed *)
Definition staff_may_edit (u : AuthUser) (t : txn_row) : option error :=
  if isOwner u then None
  else if negb (String.eqb (tx_created_by t) (AccountID u)) then Some (Forbidden "hanya bisa edit transaksi milik sendiri")
  else if negb (in_list (tx_status t) ["draft"; "pending_approval"; "rejected"])
       then Some (Forbidden "transaksi sudah diproses, tidak bisa diedit")
  else None.
Definition UpdateTransaction (u : option AuthUser) (id : string) (p : UpdateTransactionParams) (now : Z) : fin Transaction :=
  let! usr := of_result (mustUser u) in
  prepareTenant;!
  let! r := attempt (uquery id (fun i d => find_live_txn d i)) in
  match r with
  | Err e => if bool_decide (e = no_rows) then throw (NotFoundE "transaksi tidak ditemukan") else throw (InternalE e)
  | Ok t =>
      check (staff_may_edit usr t);!
      ensurePeriodUnlocked (walletPeriod now (date_text (tx_date t)));!
      when_some (UP_TransactionDate p) (fun date => ensurePeriodUnlocked (walletPeriod now date));!
      check (match UP_Amount p with
             | Some a => if isOwner usr && fleb a fzero then Some (BadRequest "jumlah harus lebih dari 0") else None
             | None => None
             end);!
      or_internal (with_uuid id (fun i d =>
        match update_txn_row (isOwner usr) p with Some f => update_txn i f d | None => (Err bad_input, d) end));!
      (if (bool_decide (is_Some (UP_Amount p)) || bool_decide (is_Some (UP_TransactionDate p))) && String.eqb (tx_status t) "approved" then
         let! w := attempt (uquery id (fun i d => (fun t => (tx_wallet t, tx_to t)) <$> find_txn d i)) in
         match w with
         | Ok (walletID, toWalletID) => refreshWallets walletID toWalletID
         | Err _ => refreshWallets "" None
         end
       else ret tt);!
      auditFinance usr "transaction" id "edit";!
      ret {| TR_ID := id; TR_Status := tx_status t; TR_Date := date_text (tx_date t) |}
  end.
Definition DeleteTransaction (u : option AuthUser) (id : string) (now : Z) : fin unit :=
  let! usr := mustOwner u in
  prepareTenant;!
  let! t := or_else (fun _ => NotFoundE "transaksi tidak ditemukan") (uquery id (fun i d => find_live_txn d i)) in
  ensurePeriodUnlocked (walletPeriod now (date_text (tx_date t)));!
  ignore (with_uuid id (fun i d => (Ok tt, set_txns (List.filter (fun t => negb (String.eqb (tx_id t) i)) (f_txns d)) d)));!
  refreshWallets (tx_wallet t) (tx_to t);!
  auditFinance usr "transaction" id "delete".

(** ** Approval *)
Definition decide_txn (status approver : string) (reason : string) (t : txn_row) : txn_row :=
  {| tx_id := tx_id t; tx_type := tx_type t; tx_amount := tx_amount t; tx_currency := tx_currency t; tx_wallet := tx_wallet t;
     tx_to := tx_to t; tx_category := tx_category t; tx_description := tx_description t; tx_notes := tx_notes t;
     tx_reference := tx_reference t; tx_date := tx_date t; tx_status := status; tx_approved_by := Some approver;
     tx_reason := if String.eqb status "rejected" then Some reason else None; tx_tags := tx_tags t; tx_asset := tx_asset t;
     tx_qty := tx_qty t; tx_price := tx_price t; tx_fee := tx_fee t; tx_created_by := tx_created_by t; tx_deleted := tx_deleted t |}.
Definition ApproveTransaction (u : option AuthUser) (id action reason : string) : fin Transaction :=
  let! usr := mustOwner u in
  if negb (String.eqb action "approve") && negb (String.eqb action "reject") then throw (BadRequest "action harus approve atau reject")
  else
    prepareTenant;!
    let! t := or_else (fun _ => NotFoundE "transaksi tidak ditemukan") (uquery id (fun i d => find_live_txn d i)) in
    if negb (String.eqb (tx_status t) "pending_approval") then throw (BadRequest "transaksi tidak dalam status menunggu persetujuan")
    else
      let newStatus := if String.eqb action "reject" then "rejected" else "approved" in
      or_internal (with_uuid id (fun i d =>
        match uuid_in (AccountID usr) with
        | Some by_ => update_txn i (decide_txn newStatus by_ reason) d
        | None => (Err bad_input, d)
        end));!
      (if String.eqb newStatus "approved" then refreshWallets (tx_wallet t) (tx_to t) else ret tt);!
      auditFinance usr "transaction" id action;!
      ret {| TR_ID := id; TR_Status := newStatus; TR_Date := "" |}.
Record ApprovalSettingParams := { AS_Enabled : bool; AS_AmountThreshold : option f64; AS_RequireForTypes : list string }.
Definition GetApprovalSetting (u : option AuthUser) : fin ApprovalSettingParams :=
  mustOwner u;!
  prepareTenant;!
  let! r := attempt (read f_approval) in
  ret match r with
      | Ok (Some a) =>
          {| AS_Enabled := ap_enabled a; AS_AmountThreshold := numeric_out 2 <$> ap_threshold a;
             AS_RequireForTypes := default [] (array_scan (ap_types a)) |}
      | _ => {| AS_Enabled := false; AS_AmountThreshold := None; AS_RequireForTypes := [] |}
      end.
Definition UpdateApprovalSetting (u : option AuthUser) (p : ApprovalSettingParams) : fin ApprovalSettingParams :=
  let! usr := mustOwner u in
  prepareTenant;!
  or_internal (stmt (fun d =>
    match convert (numeric_in 2) (AS_AmountThreshold p), uuid_in (AccountID usr) with
    | Some th, Some _ => (Ok tt, set_approval (Some {| ap_enabled := AS_Enabled p; ap_threshold := th; ap_types := AS_RequireForTypes p |}) d)
    | _, _ => (Err bad_input, d)
    end));!
  ret p.

(** ** Period locks *)
Definition LockPeriod (u : option AuthUser) (period : string) : fin unit :=
  let! usr := mustOwner u in
  prepareTenant;!
  or_internal (stmt (fun d =>
    match uuid_in (AccountID usr) with
    | None => (Err bad_input, d)
    | Some _ => (Ok tt, if existsb (String.eqb period) (f_locks d) then d else set_locks (f_locks d ++ [period])%list d)
    end));!
  auditFinance usr "period_lock" (TenantID usr) "lock_period".

(** ** Duplicates: the copies are approved, without reference and asset *)
Definition duplicate_of (t : txn_row) (day : Z) (by_ id : string) : txn_row :=
  {| tx_id := id; tx_type := tx_type t; tx_amount := tx_amount t; tx_currency := tx_currency t; tx_wallet := tx_wallet t;
     tx_to := tx_to t; tx_category := tx_category t; tx_description := tx_description t; tx_notes := tx_notes t;
     tx_reference := None; tx_date := day; tx_status := "approved"; tx_approved_by := None; tx_reason := None;
     tx_tags := tx_tags t; tx_asset := None; tx_qty := None; tx_price := None; tx_fee := 0; tx_created_by := by_; tx_deleted := false |}.
Definition duplicate_one (u : AuthUser) (date id : string) : fin string :=
  with_uuid id (fun i d =>
    match date_in date, uuid_in (AccountID u) with
    | Some day, Some by_ =>
        match find_live_txn d i with
        | None => (Err no_rows, d)
        | Some t => insert_txn (fun new => Some (duplicate_of t day by_ new)) d
        end
    | _, _ => (Err bad_input, d)
    end).
Fixpoint duplicate_loop (u : AuthUser) (date : string) (ids : list string) (count : Z) : fin Z :=
  match ids with
  | [] => ret count
  | id :: rest =>
      let! r := attempt (duplicate_one u date id) in
      match r with
      | Err _ => duplicate_loop u date rest count
      | Ok newID => refreshWalletsForTransaction newID;! duplicate_loop u date rest (count + 1)
      end
  end.
Definition DuplicateTransactions (u : option AuthUser) (ids : list string) (targetDate : string) (now : Z) : fin Z :=
  let! usr := mustOwner u in
  if Nat.eqb (length ids) 0 then throw (BadRequest "pilih minimal satu transaksi")
  else if String.eqb targetDate "" then throw (BadRequest "tanggal target harus diisi")
  else
    prepareTenant;!
    ensurePeriodUnlocked (walletPeriod now targetDate);!
    duplicate_loop usr targetDate ids 0.
End handlers.
