(* ===== verification/FinAssets.v ===== *)
(** * Investments: assets, trades and dividends

    The writing handlers of [finance/investment.go] and the units of
    [finance/investment_units.go]: an asset belongs to a wallet, a trade is a
    finance transaction with the asset's quantity, price and fee, and the
    holding is what the approved transactions add up to.  The portfolio listing
    is not modelled. *)
From S2P Require Import Prelude GoStrings AdminSession PgTx Float64 Billing FinTables FinTxns.

Open Scope string_scope.
Open Scope Z_scope.

(** ** Units *)
Definition defaultUnitNameForType (assetType : string) : string :=
  if String.eqb assetType "stock" then "lot"
  else if String.eqb assetType "crypto" then "coin"
  else if String.eqb assetType "gold" then "gram"
  else "unit".
Definition defaultUnitMultiplier (assetType unitName : string) : f64 :=
  if String.eqb assetType "stock" && String.eqb (ToLower (TrimSpace unitName)) "lot" then of_Z 100 else of_Z 1.
Definition defaultPriceUnitName (assetType unitName : string) : string :=
  let u := ToLower (TrimSpace unitName) in
  let otherwise := if String.eqb u "" then defaultUnitNameForType assetType else TrimSpace unitName in
  if String.eqb assetType "stock" then if in_list u ["lot"; "lembar"] then "lembar" else otherwise
  else if String.eqb assetType "crypto" then if String.eqb u "coin" then "coin" else otherwise
  else if String.eqb assetType "gold" then if in_list u ["gram"; "oz"; "kg"] then u else otherwise
  else if String.eqb assetType "mutual_fund" then if String.eqb u "unit" then "unit" else otherwise
  else otherwise.
Definition validAssetTypes : list string := ["stock"; "crypto"; "gold"; "mutual_fund"; "other"].
Definition resolveUnitMultiplier (assetType unitName : string) (stored : f64) : f64 :=
  if fltb fzero stored then stored else defaultUnitMultiplier assetType unitName.
Definition resolvePriceUnitName (assetType unitName stored : string) : string :=
  if negb (String.eqb (TrimSpace stored) "") then TrimSpace stored else defaultPriceUnitName assetType unitName.
Definition resolveTradeFee (gross fee : f64) (feePercent : option f64) : result f64 :=
  match feePercent with
  | Some p =>
      if fltb fzero p then
        if fltb (of_Z 100) p then Err (BadRequest "persentase biaya maksimal 100") else Ok (fdiv (fmul gross p) (of_Z 100))
      else if fltb fee fzero then Err (BadRequest "biaya tidak boleh negatif") else Ok fee
  | None => if fltb fee fzero then Err (BadRequest "biaya tidak boleh negatif") else Ok fee
  end.

Section handlers.
Context `{PgInput} `{TimeZones}.

Definition find_asset (d : fin_db) (id : string) : option asset_row := List.find (fun a => String.eqb (as_id a) id) (f_assets d).
Definition loadAssetUnitConfig (assetID : string) : fin f64 :=
  let! a := uquery assetID (fun i d => find_asset d i) in
  ret (resolveUnitMultiplier (as_type a) (as_unit a) (numeric_out 6 (as_mult a))).
(** ** What is held: the sums over the approved transactions of the asset *)
Definition of_asset (id : string) (t : txn_row) : bool := bool_decide (tx_asset t = Some id) && counts t.
Definition sum_type (ty : string) (f : txn_row -> Z) (ts : list txn_row) : Z :=
  sum_of f (List.filter (fun t => String.eqb (tx_type t) ty) ts).
Record sums := { bought_qty : f64; bought_amount : f64; sold_qty : f64; dividends : f64 }.
Definition asset_sums (id : string) (d : fin_db) : sums :=
  let ts := List.filter (of_asset id) (f_txns d) in
  {| bought_qty := numeric_out 6 (sum_type "investment_buy" (fun t => default 0 (tx_qty t)) ts);
     bought_amount := numeric_out 2 (sum_type "investment_buy" tx_amount ts);
     sold_qty := numeric_out 6 (sum_type "investment_sell" (fun t => default 0 (tx_qty t)) ts);
     dividends := numeric_out 2 (sum_type "dividend" tx_amount ts) |}.
Record metrics := { qtyHeld : f64; avgBuy : f64; totalCost : f64; dividend : f64 }.
Definition metrics_of (s : sums) (unitMult : f64) : metrics :=
  let unitMult := if fleb unitMult fzero then of_Z 1 else unitMult in
  let qty := fsub (bought_qty s) (sold_qty s) in
  let avg := if fltb fzero (bought_qty s) then fdiv (bought_amount s) (fmul (bought_qty s) unitMult) else fzero in
  {| qtyHeld := qty; avgBuy := avg; totalCost := fmul avg (fmul qty unitMult); dividend := dividends s |}.
Definition no_sums : sums := {| bought_qty := fzero; bought_amount := fzero; sold_qty := fzero; dividends := fzero |}.
(** the latest price is only read for listings: a statement without effect here *)
Definition loadAssetMetrics (assetID : string) (unitMult : f64) : fin metrics :=
  let! r := attempt (uread assetID asset_sums) in
  ignore (uread assetID (fun _ _ => tt));!
  ret (metrics_of (match r with Ok s => s | Err _ => no_sums end) unitMult).
(** the literal 1e-6 *)
Definition tiny : f64 := fdiv (of_Z 1) (of_Z 1000000).

(** ** Assets *)
Record CreateAssetParams := {
  CA_Name : string; CA_Ticker : option string; CA_Type : string; CA_UnitName : string; CA_UnitMultiplier : option f64;
  CA_PriceUnitName : option string; CA_WalletID : string; CA_Notes : option string
}.
Definition unit_name (p : CreateAssetParams) : string :=
  if String.eqb (TrimSpace (CA_UnitName p)) "" then defaultUnitNameForType (CA_Type p) else TrimSpace (CA_UnitName p).
Definition chosen_multiplier (p : CreateAssetParams) : f64 :=
  match CA_UnitMultiplier p with
  | Some m => if fltb fzero m then m else defaultUnitMultiplier (CA_Type p) (unit_name p)
  | None => defaultUnitMultiplier (CA_Type p) (unit_name p)
  end.
Definition chosen_price_unit (p : CreateAssetParams) : string :=
  match CA_PriceUnitName p with
  | Some n => if negb (String.eqb (TrimSpace n) "") then TrimSpace n else defaultPriceUnitName (CA_Type p) (unit_name p)
  | None => defaultPriceUnitName (CA_Type p) (unit_name p)
  end.
Definition insert_asset (u : AuthUser) (p : CreateAssetParams) : fin_db -> result string * fin_db :=
  with_id (fun id d =>
  match numeric_in 6 (chosen_multiplier p), uuid_in (CA_WalletID p), uuid_in (AccountID u) with
  | Some m, Some wallet, Some _ =>
      if existsb (fun a => String.eqb (as_id a) id) (f_assets d) then (Err constraint_error, d)
      else (Ok id, set_assets (f_assets d ++
             [{| as_id := id; as_name := TrimSpace (CA_Name p); as_ticker := CA_Ticker p; as_type := CA_Type p;
                 as_unit := unit_name p; as_mult := m; as_price_unit := Some (chosen_price_unit p); as_wallet := wallet;
                 as_notes := CA_Notes p; as_active := true |}])%list d)
  | _, _, _ => (Err bad_input, d)
  end).
Definition CreateAsset (u : option AuthUser) (p : CreateAssetParams) : fin string :=
  let! usr := mustOwner u in
  if String.eqb (TrimSpace (CA_Name p)) "" then throw (BadRequest "nama aset tidak boleh kosong")
  else if negb (in_list (CA_Type p) validAssetTypes) then throw (BadRequest "tipe aset tidak valid")
  else if String.eqb (TrimSpace (CA_WalletID p)) "" then throw (BadRequest "dompet wajib dipilih")
  else
    prepareTenant;!
    assertWalletAccessible usr (CA_WalletID p);!
    let! id := or_internal (stmt (insert_asset usr p)) in
    auditFinance usr "asset" id "create";!
    ret id.

Record UpdateAssetParams := {
  UA_Name : option string; UA_Ticker : option string; UA_Type : option string; UA_UnitName : option string;
  UA_UnitMultiplier : option f64; UA_PriceUnitName : option string; UA_WalletID : option string; UA_Notes : option string
}.
(** a blank text clears the column *)
Definition set_text (new : option string) (old : option string) : option string :=
  match new with Some x => given (Some (TrimSpace x)) | None => old end.
(** a wallet that is named at all *)
Definition named_wallet (p : UpdateAssetParams) : option string :=
  match UA_WalletID p with Some w => if String.eqb (TrimSpace w) "" then None else Some w | None => None end.
Definition blank (s : option string) : bool := match s with Some x => String.eqb (TrimSpace x) "" | None => false end.
Definition update_asset_row (p : UpdateAssetParams) : option (asset_row -> asset_row) :=
  match convert (numeric_in 6) (UA_UnitMultiplier p), convert uuid_in (TrimSpace <$> named_wallet p) with
  | Some mult, Some wallet =>
      Some (fun a =>
        {| as_id := as_id a; as_name := set_field (TrimSpace <$> UA_Name p) (as_name a); as_ticker := set_text (UA_Ticker p) (as_ticker a);
           as_type := set_field (UA_Type p) (as_type a); as_unit := set_field (TrimSpace <$> UA_UnitName p) (as_unit a);
           as_mult := set_field mult (as_mult a); as_price_unit := set_text (UA_PriceUnitName p) (as_price_unit a);
           as_wallet := set_field wallet (as_wallet a); as_notes := set_text (UA_Notes p) (as_notes a); as_active := as_active a |})
  | _, _ => None
  end.
Definition no_asset_change (p : UpdateAssetParams) : bool :=
  match UA_Name p, UA_Ticker p, UA_Type p, UA_UnitName p, UA_UnitMultiplier p, UA_PriceUnitName p, named_wallet p, UA_Notes p with
  | None, None, None, None, None, None, None, None => true
  | _, _, _, _, _, _, _, _ => false
  end.
(** UPDATE fin_asset SET … WHERE id = $ AND … *)
Definition update_assets (f : asset_row -> asset_row) (which : asset_row -> bool) (d : fin_db) : fin_db :=
  set_assets (map (fun a => if which a then f a else a) (f_assets d)) d.
Definition is_asset (id : string) (a : asset_row) : bool := String.eqb (as_id a) id.
(** the asset's [is_active], or the errors of a missing row and of the statement *)
Definition asset_active (id : string) : fin bool :=
  let! r := attempt (uquery id (fun i d => as_active <$> find_asset d i)) in
  match r with
  | Ok b => ret b
  | Err e => if bool_decide (e = no_rows) then throw (NotFoundE "aset tidak ditemukan") else throw (InternalE e)
  end.
Definition UpdateAsset (u : option AuthUser) (id : string) (p : UpdateAssetParams) : fin asset_row :=
  let! usr := mustOwner u in
  if String.eqb (TrimSpace id) "" then throw (BadRequest "aset tidak valid")
  else
    prepareTenant;!
    let! active := asset_active id in
    if negb active then throw (NotFoundE "aset tidak ditemukan")
    else if match UA_Type p with Some ty => negb (in_list ty validAssetTypes) | None => false end
    then throw (BadRequest "tipe aset tidak valid")
    else if blank (UA_Name p) then throw (BadRequest "nama aset tidak boleh kosong")
    else if blank (UA_UnitName p) then throw (BadRequest "satuan tidak boleh kosong")
    else
      when_some (named_wallet p) (fun w =>
        let! n := count_or_zero (uread id (fun i d =>
          count_of (fun t => bool_decide (tx_asset t = Some i) && negb (tx_deleted t)) (f_txns d))) in
        if (0 <? n)%nat then throw (BadRequest "dompet tidak dapat diubah karena aset sudah memiliki transaksi")
        else assertWalletAccessible usr w);!
      check (match UA_UnitMultiplier p with
             | Some m => if fleb m fzero then Some (BadRequest "pengali unit harus lebih dari 0") else None
             | None => None
             end);!
      if no_asset_change p then throw (BadRequest "tidak ada perubahan")
      else
        or_internal (with_uuid id (fun i d =>
          match update_asset_row p with
          | Some f => (Ok tt, update_assets f (fun a => is_asset i a && as_active a) d)
          | None => (Err bad_input, d)
          end));!
        auditFinance usr "asset" id "edit";!
        or_internal (uquery id (fun i d => find_asset d i)).
Definition deactivate_asset (a : asset_row) : asset_row :=
  {| as_id := as_id a; as_name := as_name a; as_ticker := as_ticker a; as_type := as_type a; as_unit := as_unit a; as_mult := as_mult a;
     as_price_unit := as_price_unit a; as_wallet := as_wallet a; as_notes := as_notes a; as_active := false |}.
Definition DeleteAsset (u : option AuthUser) (id : string) : fin unit :=
  let! usr := mustOwner u in
  if String.eqb (TrimSpace id) "" then throw (BadRequest "aset tidak valid")
  else
    prepareTenant;!
    let! active := asset_active id in
    if negb active then ret tt
    else
      let! mult := or_else (fun e => if bool_decide (e = no_rows) then NotFoundE "aset tidak ditemukan" else InternalE e)
        (loadAssetUnitConfig id) in
      let! m := loadAssetMetrics id mult in
      if fltb tiny (qtyHeld m) then
        throw (BadRequest "aset masih memiliki kepemilikan. Catat penjualan terlebih dahulu sebelum menghapus.")
      else
        or_internal (uexec id (fun i => update_assets deactivate_asset (is_asset i)));!
        auditFinance usr "asset" id "delete".
Definition UpdateAssetPrice (u : option AuthUser) (assetID : string) (price : f64) : fin string :=
  let! usr := mustOwner u in
  if fleb price fzero then throw (BadRequest "harga harus lebih dari 0")
  else
    prepareTenant;!
    or_internal (stmt (with_id (fun id d =>
      match uuid_in assetID, numeric_in 4 price, uuid_in (AccountID usr) with
      | Some a, Some p, Some _ =>
          if existsb (fun r => String.eqb (pr_id r) id) (f_prices d) then (Err constraint_error, d)
          else (Ok id, set_prices (f_prices d ++ [{| pr_id := id; pr_asset := a; pr_price := p |}])%list d)
      | _, _, _ => (Err bad_input, d)
      end))).

(** ** Trades *)
Record TradeParams := {
  IT_Side : string; IT_Quantity : f64; IT_PricePerUnit : f64; IT_Fee : f64; IT_FeePercent : option f64;
  IT_TransactionDate : string; IT_Description : option string
}.
Definition asset_txn (u : AuthUser) (ty : string) (amount : f64) (wallet : string) (desc : string) (date status assetID : string)
    (qty_price_fee : option (f64 * f64 * f64)) (id : string) : option txn_row :=
  match numeric_in 2 amount, uuid_in wallet, date_in date, uuid_in assetID, uuid_in (AccountID u),
        match qty_price_fee with
        | None => Some (None, None, 0)
        | Some (q, p, f) =>
            match numeric_in 6 q, numeric_in 4 p, numeric_in 2 f with
            | Some q, Some p, Some f => Some (Some q, Some p, f)
            | _, _, _ => None
            end
        end with
  | Some a, Some w, Some day, Some asset, Some by_, Some (q, p, f) =>
      Some {| tx_id := id; tx_type := ty; tx_amount := a; tx_currency := "IDR"; tx_wallet := w; tx_to := None; tx_category := None;
              tx_description := Some desc; tx_notes := None; tx_reference := None; tx_date := day; tx_status := status;
              tx_approved_by := None; tx_reason := None; tx_tags := []; tx_asset := Some asset; tx_qty := q; tx_price := p;
              tx_fee := f; tx_created_by := by_; tx_deleted := false |}
  | _, _, _, _, _, _ => None
  end.
Definition described (given_ : option string) (otherwise : string) : string :=
  match given_ with Some d => if String.eqb (TrimSpace d) "" then otherwise else d | None => otherwise end.
(** the asset a trade or dividend is for: it exists, is active, and its wallet is accessible *)
Definition tradable_asset (usr : AuthUser) (id : string) : fin asset_row :=
  let! r := attempt (uquery id (fun i d => find_asset d i)) in
  match r with
  | Err e => if bool_decide (e = no_rows) then throw (NotFoundE "aset tidak ditemukan") else throw (InternalE e)
  | Ok a =>
      if negb (as_active a) then throw (BadRequest "aset tidak aktif")
      else assertWalletAccessible usr (as_wallet a);! ret a
  end.
(** posting: the row, the balance, the usage event and the audit row *)
Definition post_asset_txn (usr : AuthUser) (row : string -> option txn_row) (wallet status : string) (now : Z) : fin string :=
  let! txnID := or_internal (stmt (insert_txn row)) in
  (if String.eqb status "approved" then refreshWallets wallet None else ret tt);!
  RecordUsage usr "fin_transaction_created" now;!
  auditFinance usr "transaction" txnID "create";!
  ret txnID.
Definition trade_amount (side : string) (gross fee : f64) : result f64 :=
  if String.eqb side "buy" then Ok (fadd gross fee)
  else if fleb (fsub gross fee) fzero then Err (BadRequest "hasil jual harus lebih dari 0 setelah biaya")
  else Ok (fsub gross fee).
Definition RecordInvestmentTrade (u : option AuthUser) (id : string) (p : TradeParams) (now : Z) : fin (string * f64 * string) :=
  let! usr := mustOwner u in
  let side := ToLower (TrimSpace (IT_Side p)) in
  if String.eqb (TrimSpace id) "" then throw (BadRequest "aset tidak valid")
  else if negb (in_list side ["buy"; "sell"]) then throw (BadRequest "side harus buy atau sell")
  else if fleb (IT_Quantity p) fzero then throw (BadRequest "jumlah unit harus lebih dari 0")
  else if fleb (IT_PricePerUnit p) fzero then throw (BadRequest "harga per unit harus lebih dari 0")
  else
    prepareTenant;!
    let! date := date_or_today (IT_TransactionDate p) now in
    let! asset := tradable_asset usr id in
    let txnType := if String.eqb side "sell" then "investment_sell" else "investment_buy" in
    loadTransactionTypeByCode txnType;!
    let! unitMult := or_internal (loadAssetUnitConfig id) in
    let! held := loadAssetMetrics id unitMult in
    if String.eqb side "sell" && fltb (fadd (qtyHeld held) tiny) (IT_Quantity p) then
      throw (BadRequest "jumlah jual melebihi kepemilikan")
    else
      let gross := fmul (fmul (IT_Quantity p) unitMult) (IT_PricePerUnit p) in
      let! fee := of_result (resolveTradeFee gross (IT_Fee p) (IT_FeePercent p)) in
      let! amount := of_result (trade_amount side gross fee) in
      ensurePeriodUnlocked (walletPeriod now date);!
      let! status := initial_status usr txnType amount in
      let desc := described (IT_Description p) ((if String.eqb side "sell" then "Jual " else "Beli ") ++ as_name asset) in
      let! txnID := post_asset_txn usr
        (asset_txn usr txnType amount (as_wallet asset) desc date status id (Some (IT_Quantity p, IT_PricePerUnit p, fee)))
        (as_wallet asset) status now in
      let! after := loadAssetMetrics id unitMult in
      ret (txnID, qtyHeld after, status).
Record DividendParams := { DV_Amount : f64; DV_TransactionDate : string; DV_Description : option string }.
Definition RecordAssetDividend (u : option AuthUser) (id : string) (p : DividendParams) (now : Z) : fin (string * string) :=
  let! usr := mustOwner u in
  if String.eqb (TrimSpace id) "" then throw (BadRequest "aset tidak valid")
  else if fleb (DV_Amount p) fzero then throw (BadRequest "jumlah dividen harus lebih dari 0")
  else
    prepareTenant;!
    let! date := date_or_today (DV_TransactionDate p) now in
    let! asset := tradable_asset usr id in
    loadTransactionTypeByCode "dividend";!
    ensurePeriodUnlocked (walletPeriod now date);!
    let! status := initial_status usr "dividend" (DV_Amount p) in
    let desc := described (DV_Description p) ("Dividen " ++ as_name asset) in
    let! txnID := post_asset_txn usr
      (asset_txn usr "dividend" (DV_Amount p) (as_wallet asset) desc date status id None) (as_wallet asset) status now in
    ret (txnID, status).
Definition delete_txn_row (t : txn_row) : txn_row :=
  {| tx_id := tx_id t; tx_type := tx_type t; tx_amount := tx_amount t; tx_currency := tx_currency t; tx_wallet := tx_wallet t;
     tx_to := tx_to t; tx_category := tx_category t; tx_description := tx_description t; tx_notes := tx_notes t;
     tx_reference := tx_reference t; tx_date := tx_date t; tx_status := tx_status t; tx_approved_by := tx_approved_by t;
     tx_reason := tx_reason t; tx_tags := tx_tags t; tx_asset := tx_asset t; tx_qty := tx_qty t; tx_price := tx_price t;
     tx_fee := tx_fee t; tx_created_by := tx_created_by t; tx_deleted := true |}.
Definition DeleteAssetTrade (u : option AuthUser) (id txnId : string) (now : Z) : fin unit :=
  let! usr := mustOwner u in
  if String.eqb (TrimSpace id) "" || String.eqb (TrimSpace txnId) "" then throw (BadRequest "parameter tidak valid")
  else
    prepareTenant;!
    let! r := attempt (stmt (fun d =>
      match uuid_in txnId, uuid_in id with
      | Some i, Some a =>
          match List.find (fun t => live_txn i t && bool_decide (tx_asset t = Some a)) (f_txns d) with
          | Some t => (Ok t, d)
          | None => (Err no_rows, d)
          end
      | _, _ => (Err bad_input, d)
      end)) in
    match r with
    | Err e => if bool_decide (e = no_rows) then throw (NotFoundE "transaksi tidak ditemukan") else throw (InternalE e)
    | Ok t =>
        if negb (in_list (tx_type t) ["investment_buy"; "investment_sell"; "dividend"])
        then throw (BadRequest "hanya transaksi investasi yang dapat dihapus dari sini")
        else
          ensurePeriodUnlocked (walletPeriod now (date_text (tx_date t)));!
          or_internal (with_uuid txnId (fun i d =>
            match uuid_in (AccountID usr) with Some _ => update_txn i delete_txn_row d | None => (Err bad_input, d) end));!
          refreshWallets (tx_wallet t) (tx_to t);!
          auditFinance usr "transaction" txnId "delete"
    end.
End handlers.
