(* ===== verification/FinPosting.v ===== *)
(** * Ledger entries posted for orders and stock

    [finance/order_income.go] (the income of a completed order, on the pool of
    connections: each statement commits on its own; inside the approve
    transaction it is ApproveTx.v) and [finance/inventory_entry.go] (entries for
    stock events), over the tables of FinTables.v.  Both find their rows again by
    the reference number. *)
From S2P Require Import Prelude GoStrings AdminSession PgTx Float64 Billing FinTables FinTxns.

Open Scope string_scope.
Open Scope Z_scope.

Section posting.
Context `{PgInput} `{TimeZones}.

(** ** The wallet *)
Definition usable (w : wallet_row) : bool := negb (w_deleted w) && w_active w.
Definition wallet_rank (w : wallet_row) : Z := if String.eqb (w_type w) "cash" then 0 else 1.
(** ORDER BY (cash first), display_order, created_at *)
Definition wallet_before (a b : wallet_row) : bool :=
  (wallet_rank a <? wallet_rank b)
  || ((wallet_rank a =? wallet_rank b)
      && ((w_order a <? w_order b) || ((w_order a =? w_order b) && (w_created a <? w_created b)))).
Fixpoint first_wallet (ws : list wallet_row) : option wallet_row :=
  match ws with
  | [] => None
  | w :: rest => match first_wallet rest with Some b => if wallet_before b w then Some b else Some w | None => Some w end
  end.
Definition resolveDefaultIncomeWallet : fin string :=
  let! r := or_internal (read (fun d => w_id <$> first_wallet (List.filter usable (f_wallets d)))) in
  match r with
  | None => throw (BadRequest "belum ada dompet aktif untuk mencatat pemasukan pesanan")
  | Some id => ret id
  end.
Definition resolveIncomeWallet (walletID : string) : fin string :=
  let walletID := TrimSpace walletID in
  if negb (String.eqb walletID "") then
    let! exists_ := or_internal (uread walletID (fun i d => existsb (fun w => String.eqb (w_id w) i && usable w) (f_wallets d))) in
    if exists_ then ret walletID else throw (BadRequest "dompet pemasukan tidak valid atau tidak aktif")
  else resolveDefaultIncomeWallet.
Definition ValidateIncomeWallet (walletID : string) : fin unit :=
  if String.eqb (TrimSpace walletID) "" then ret tt
  else prepareTenant;! resolveIncomeWallet walletID;! ret tt.
Definition system_category (name : string) : fin (option string) :=
  let! r := attempt (read (fun d =>
    ca_id <$> List.find (fun c => String.eqb (ca_name c) name && negb (ca_deleted c) && ca_system c) (f_categories d))) in
  ret (match r with Ok c => c | Err _ => None end).
Definition nil_uuid : string := "00000000-0000-0000-0000-000000000000".
Definition posting_of (ty : string) (amount : f64) (wallet : string) (category : option string) (desc : string)
    (reference : option string) (date createdBy id : string) : option txn_row :=
  match numeric_in 2 amount, uuid_in wallet, uuid_opt category, date_in date,
        uuid_in (if String.eqb createdBy "" then nil_uuid else createdBy) with
  | Some a, Some w, Some c, Some day, Some by_ =>
      Some {| tx_id := id; tx_type := ty; tx_amount := a; tx_currency := "IDR"; tx_wallet := w; tx_to := None; tx_category := c;
              tx_description := Some desc; tx_notes := None; tx_reference := reference; tx_date := day; tx_status := "approved";
              tx_approved_by := None; tx_reason := None; tx_tags := []; tx_asset := None; tx_qty := None; tx_price := None;
              tx_fee := 0; tx_created_by := by_; tx_deleted := false |}
  | _, _, _, _, _ => None
  end.

(** ** The income of a completed order *)
Definition order_income (orderID : string) (t : txn_row) : bool :=
  bool_decide (tx_reference t = Some orderID) && String.eqb (tx_type t) "income".
Definition keep_txns (f : txn_row -> bool) (d : fin_db) : fin_db := set_txns (List.filter f (f_txns d)) d.
(** INSERT … ON CONFLICT DO NOTHING: whether a row was inserted *)
Definition insert_or_nothing (row : string -> option txn_row) : fin_db -> result bool * fin_db :=
  with_id (fun id d =>
    match row id with
    | None => (Err bad_input, d)
    | Some t =>
        if negb (txn_ok t) then (Err constraint_error, d)
        else match write_txns (f_txns d ++ [t])%list d with
             | (Ok _, d') => (Ok true, d')
             | (Err _, _) => (Ok false, d)
             end
    end).
Definition recordOrderIncome (createdBy orderID : string) (amount : f64) (walletID : string) (now : Z) : fin unit :=
  let! resolvedWalletID := resolveIncomeWallet walletID in
  or_internal (exec (keep_txns (fun t => negb (order_income orderID t && tx_deleted t))));!
  let! categoryID := system_category "Penjualan Produk" in
  let! today := financeToday now in
  ensurePeriodUnlocked (walletPeriod now today);!
  let! inserted := or_else (fun e => InternalE (EText ("failed to record order income: " ++ error_text e)))
    (stmt (insert_or_nothing (posting_of "income" amount resolvedWalletID categoryID ("Pesanan #" ++ orderID)
             (Some orderID) today createdBy))) in
  if inserted then refreshWallets resolvedWalletID None else ret tt.
Definition RecordOrderCompletedIncome (createdBy orderID : string) (amount : f64) (walletID : string) (now : Z) : fin unit :=
  if fleb amount fzero then ret tt
  else
    let orderID := TrimSpace orderID in
    if String.eqb orderID "" then ret tt
    else prepareTenant;! recordOrderIncome createdBy orderID amount walletID now.
Definition CheckCurrentPeriodUnlocked (now : Z) : fin unit :=
  prepareTenant;!
  let! today := financeToday now in
  ensurePeriodUnlocked (walletPeriod now today).
(** SELECT DISTINCT wallet_id *)
Definition wallets_of (f : txn_row -> bool) (d : fin_db) : list string := remove_dups (map tx_wallet (List.filter f (f_txns d))).
Fixpoint refresh_each (ws : list string) : fin unit :=
  match ws with [] => ret tt | w :: rest => refreshWallets w None;! refresh_each rest end.
Definition RemoveOrderIncomeTransaction (orderID : string) : fin unit :=
  let orderID := TrimSpace orderID in
  if String.eqb orderID "" then ret tt
  else
    prepareTenant;!
    let! walletIDs := or_internal (read (wallets_of (order_income orderID))) in
    let! n := or_else (fun _ => ECode Internal "failed to remove order income transaction")
      (stmt (fun d => (Ok (existsb (order_income orderID) (f_txns d)), keep_txns (fun t => negb (order_income orderID t)) d))) in
    if n then refresh_each walletIDs else ret tt.
Definition ResyncOrderCompletedIncome (createdBy orderID : string) (amount : f64) (walletID : string) (now : Z) : fin unit :=
  let orderID := TrimSpace orderID in
  if String.eqb orderID "" then ret tt
  else if fleb amount fzero then RemoveOrderIncomeTransaction orderID
  else
    CheckCurrentPeriodUnlocked now;!
    RemoveOrderIncomeTransaction orderID;!
    RecordOrderCompletedIncome createdBy orderID amount walletID now.

(** ** Entries for stock events *)
Definition of_reference (ref : string) (t : txn_row) : bool := bool_decide (tx_reference t = Some ref).
Definition RecordInventoryEntry (createdBy referenceNo flow categoryName description : string) (amount : f64)
    (preferredWalletID : string) (now : Z) : fin unit :=
  if fleb amount fzero then ret tt
  else
    let flow := TrimSpace flow in
    if negb (in_list flow ["income"; "expense"]) then throw (ECode Internal "inventory finance flow tidak valid")
    else
      let referenceNo := TrimSpace referenceNo in
      prepareTenant;!
      let! resolvedWalletID := resolveIncomeWallet preferredWalletID in
      let! categoryID := system_category categoryName in
      let! today := financeToday now in
      ensurePeriodUnlocked (walletPeriod now today);!
      let! found :=
        if negb (String.eqb referenceNo "") then
          or_internal (read (fun d => existsb (fun t => of_reference referenceNo t && String.eqb (tx_type t) flow && negb (tx_deleted t)) (f_txns d)))
        else ret false in
      if found then ret tt
      else
        or_else (fun e => InternalE (EText ("failed to record inventory finance entry: " ++ error_text e)))
          (stmt (insert_txn (posting_of flow amount resolvedWalletID categoryID description (given (Some referenceNo)) today createdBy)));!
        refreshWallets resolvedWalletID None.
Definition uniqueReferenceNos (referenceNos : list string) : list string :=
  fold_left (fun out r =>
    let r := TrimSpace r in
    if String.eqb r "" || in_list r out then out else (out ++ [r])%list) referenceNos [].
Definition in_refs (refs : list string) (t : txn_row) : bool :=
  match tx_reference t with Some r => in_list r refs | None => false end.
Definition removeInventoryEntriesChunk (refs : list string) : fin unit :=
  match refs with
  | [] => ret tt
  | _ =>
      let! ws := or_internal (read (wallets_of (in_refs refs))) in
      or_internal (exec (keep_txns (fun t => negb (in_refs refs t))));!
      refresh_each ws
  end.
Definition chunk : nat := 200.
(** the loop over chunks: as many rounds as there are references at most *)
Fixpoint remove_chunks (fuel : nat) (refs : list string) : fin unit :=
  match fuel, refs with
  | S fuel, _ :: _ => removeInventoryEntriesChunk (take chunk refs);! remove_chunks fuel (drop chunk refs)
  | _, _ => ret tt
  end.
Definition RemoveInventoryEntries (referenceNos : list string) : fin unit :=
  let refs := uniqueReferenceNos referenceNos in
  match refs with
  | [] => ret tt
  | _ => prepareTenant;! remove_chunks (length refs) refs
  end.
Definition RemoveInventoryEntry (referenceNo : string) : fin unit := RemoveInventoryEntries [referenceNo].
End posting.
