(* ===== verification/Checklist.v ===== *)
(** * Bills: the monthly checklist

    [finance/checklist.go], [finance/checklist_billing.go] and
    [finance/checklist_due.go]: templates, the items they give each day or month,
    and the expenses that checked items post, over the tables of FinTables.v.
    Dates that the code formats itself are the days they name.  The iteration
    over the map of wallets takes them in the order of the items (refreshes of
    different wallets commute).  Left out: the listings, the items in the
    responses, and copying recurring rules into templates
    ([checklist_clone.go]). *)
From stdpp Require Import sorting.
From S2P Require Import Prelude GoStrings AdminSession PgTx Triples DaySlots Dates Float64 Pii Billing Recurring FinTables FinTxns FinAssets FinPosting.

Open Scope string_scope.
Open Scope Z_scope.

(** the encryption key and cipher of [finance/helpers.go] *)
Class FinSecrets := { DataEncryptionKey : string; fin_cipher : Gcm }.
#[export] Existing Instance fin_cipher.

(** ** Due dates *)
Definition days_in (year_ month_ : Z) : Z := month_start (12 * year_ + month_) - month_start (12 * year_ + (month_ - 1)).
Definition synthesizeDueAnchor (year_ month_ dayOfMonth : Z) : Z := Date_ year_ month_ (Z.min (Z.max dayOfMonth 1) (days_in year_ month_)).
(** [time.Parse("2006-01-02", …)] *)
Definition four_number (s : string) : option Z :=
  '(a, r) ← getnum (take_bytes 2 s) true; '(b, r') ← getnum (drop_bytes 2 s) true;
  if String.eqb r "" && String.eqb r' "" then Some (100 * a + b) else None.
Definition parse_date (s : string) : option date :=
  match Split s "-" with
  | [ys; ms; ds] =>
      y ← four_number ys; '(m, r) ← getnum ms true; '(d, r') ← getnum ds true;
      if String.eqb r "" && String.eqb r' "" && (1 <=? m) && (m <=? 12) && (1 <=? d) && (d <=? days_in y m)
      then Some {| year := y; month := m; day := d |} else None
  | _ => None
  end.
(** the anchor day and the day of the month *)
Definition parseMonthlyDueDateInput (raw : string) : result (Z * Z) :=
  let raw := TrimSpace raw in
  if String.eqb raw "" then Err (BadRequest "tanggal jatuh tempo wajib diisi (YYYY-MM-DD)")
  else
    match parse_date raw with
    | None => Err (BadRequest "format tanggal jatuh tempo harus YYYY-MM-DD")
    | Some d =>
        if (year d <? 2000) || (2100 <? year d) then Err (BadRequest "tahun tanggal jatuh tempo tidak valid")
        else Ok (Date_ (year d) (month d) (day d), day d)
    end.
Definition resolveMonthlyDueFields (dueDate : string) (dayOfMonth : option Z) (now : Z) : result (Z * Z) :=
  if negb (String.eqb (TrimSpace dueDate) "") then parseMonthlyDueDateInput dueDate
  else
    match dayOfMonth with
    | Some k =>
        if (k <? 1) || (31 <? k) then Err (BadRequest "tagihan bulanan membutuhkan tanggal jatuh tempo")
        else let d := date_of now in Ok (synthesizeDueAnchor (year d) (month d) k, k)
    | None => Err (BadRequest "tagihan bulanan membutuhkan tanggal jatuh tempo")
    end.
(** the due date and the day of the month that a response shows *)
Definition attachDueAnchorDate (t : bill_template_row) (ref : Z) : option string * option Z :=
  match tp_anchor t, tp_day t with
  | Some a, _ => (Some (date_text a), Some (day (date_of_day a)))
  | None, Some k => let d := date_of ref in (Some (date_text (synthesizeDueAnchor (year d) (month d) k)), Some k)
  | None, None => (None, None)
  end.
(** [strconv.Atoi], but for its range *)
Fixpoint digits_value (acc : Z) (s : string) : option Z :=
  match s with
  | "" => Some acc
  | String c r => if DaySlots.isDigit c then digits_value (10 * acc + digit_value c) r else None
  end.
Definition Atoi (s : string) : option Z :=
  match s with
  | "" => None
  | String c r =>
      if Ascii.eqb c "+" then if String.eqb r "" then None else digits_value 0 r
      else if Ascii.eqb c "-" then if String.eqb r "" then None else Z.opp <$> digits_value 0 r
      else digits_value 0 s
  end.
(** first day, the day after the last one, label *)
Definition parseBillingPeriod (period : string) (now : Z) : result (Z * Z * string) :=
  let period := TrimSpace period in
  let period := if String.eqb period "" then format_month now else period in
  match Split period "-" with
  | [ys; ms] =>
      match Atoi ys with
      | Some y =>
          if (y <? 2000) || (2100 <? y) then Err (BadRequest "tahun period tidak valid")
          else
            match Atoi ms with
            | Some m =>
                if (m <? 1) || (12 <? m) then Err (BadRequest "bulan period tidak valid")
                else let start := Date_ y m 1 in Ok (start, AddDate start 0 1 0, four_digits y ++ "-" ++ two_digits m)
            | None => Err (BadRequest "bulan period tidak valid")
            end
      | None => Err (BadRequest "tahun period tidak valid")
      end
  | _ => Err (BadRequest "period harus format YYYY-MM")
  end.

Section checklist.
Context `{HI : PgInput} `{HT : TimeZones} `{HS : FinSecrets}.

Definition encryptFinanceTitle (random : result (list Z)) (title : string) : result (string * string) :=
  let title := TrimSpace title in
  if String.eqb title "" then Ok ("", "")
  else match Encrypt random title (TrimSpace DataEncryptionKey) with Ok enc => Ok (enc, Placeholder) | Err e => Err e end.
Definition decryptFinanceTitle (enc legacy : string) : result string := DecryptOrLegacy enc legacy (TrimSpace DataEncryptionKey).
Definition financeNow (now : Z) : fin Z := let! o := financeLocation now in ret (now + o).
Definition currentMonthStart (now : Z) : fin Z :=
  let! t := financeNow now in let d := date_of t in ret (Date_ (year d) (month d) 1).
Definition checklistInternal {A} (m : fin A) : fin A := or_else (fun _ => ECode Internal "gagal memuat checklist") m.

(** ** Templates *)
Record CreateChecklistTemplateParams := {
  KC_Title : string; KC_Description : option string; KC_AmountHint : option f64; KC_CategoryID : option string;
  KC_WalletID : option string; KC_Frequency : string; KC_DayOfMonth : option Z; KC_DueDate : string; KC_Order : Z
}.
Definition template_of (u : AuthUser) (p : CreateChecklistTemplateParams) (frequency enc stored : string) (due : option (Z * Z)) (id : string) : option bill_template_row :=
  match convert (numeric_in 2) (KC_AmountHint p), uuid_opt (KC_CategoryID p), uuid_opt (KC_WalletID p), uuid_in (AccountID u) with
  | Some hint, Some category, Some wallet, Some by_ =>
      Some {| tp_id := id; tp_title := stored; tp_title_enc := Some enc; tp_description := KC_Description p; tp_hint := hint;
              tp_category := category; tp_wallet := wallet; tp_frequency := frequency; tp_day := snd <$> due; tp_anchor := fst <$> due;
              tp_active := true; tp_order := KC_Order p; tp_by := by_ |}
  | _, _, _, _ => None
  end.
Definition insert_bill_template (row : string -> option bill_template_row) : fin_db -> result string * fin_db :=
  with_id (fun id d =>
    match row id with
    | None => (Err bad_input, d)
    | Some t =>
        if existsb (fun x => String.eqb (tp_id x) id) (f_templates d) then (Err constraint_error, d)
        else (Ok id, set_templates (f_templates d ++ [t])%list d)
    end).
(** a monthly bill's anchor day and day of the month *)
Definition monthly_due (p : CreateChecklistTemplateParams) (frequency : string) (now : Z) : result (option (Z * Z)) :=
  if String.eqb frequency "monthly" then
    if match KC_AmountHint p with Some a => fleb a fzero | None => true end then Err (BadRequest "tagihan bulanan membutuhkan nominal estimasi")
    else match resolveMonthlyDueFields (KC_DueDate p) (KC_DayOfMonth p) now with Ok x => Ok (Some x) | Err e => Err e end
  else Ok None.
(** [random] as in Pii.v *)
Definition CreateChecklistTemplate (u : option AuthUser) (p : CreateChecklistTemplateParams) (random : result (list Z)) (now : Z) : fin string :=
  let! usr := mustOwner u in
  if String.eqb (TrimSpace (KC_Title p)) "" then throw (BadRequest "judul checklist tidak boleh kosong")
  else
    let frequency := if String.eqb (KC_Frequency p) "" then "monthly" else KC_Frequency p in
    let! due := of_result (monthly_due p frequency now) in
    prepareTenant;!
    let! titles := or_internal (of_result (encryptFinanceTitle random (KC_Title p))) in
    or_internal (stmt (insert_bill_template (template_of usr p frequency (fst titles) (snd titles) due))).

Record UpdateChecklistTemplateParams := {
  KU_Title : option string; KU_Description : option string; KU_AmountHint : option f64; KU_CategoryID : option string;
  KU_WalletID : option string; KU_Frequency : option string; KU_DayOfMonth : option Z; KU_DueDate : option string;
  KU_Order : option Z; KU_IsActive : option bool
}.
Definition checklist_nullUUID (s : string) : option string := let s := TrimSpace s in if String.eqb s "" then None else Some s.
(** a column that is set, or not, to a value that may be NULL *)
Definition set_column {A} (new : option (option A)) (old : option A) : option A := match new with Some x => x | None => old end.
Definition update_template_row (p : UpdateChecklistTemplateParams) (due : option (Z * Z)) : option (bill_template_row -> bill_template_row) :=
  match convert (numeric_in 2) (KU_AmountHint p), convert (fun s => uuid_opt (checklist_nullUUID s)) (KU_CategoryID p),
        convert (fun s => uuid_opt (checklist_nullUUID s)) (KU_WalletID p) with
  | Some hint, Some category, Some wallet => Some (fun t =>
      {| tp_id := tp_id t; tp_title := set_field (TrimSpace <$> KU_Title p) (tp_title t); tp_title_enc := tp_title_enc t;
         tp_description := set_nullable (KU_Description p) (tp_description t); tp_hint := set_nullable hint (tp_hint t);
         tp_category := set_column category (tp_category t); tp_wallet := set_column wallet (tp_wallet t);
         tp_frequency := set_field (TrimSpace <$> KU_Frequency p) (tp_frequency t);
         tp_day := set_nullable (snd <$> due) (tp_day t); tp_anchor := set_nullable (fst <$> due) (tp_anchor t);
         tp_active := set_field (KU_IsActive p) (tp_active t); tp_order := set_field (KU_Order p) (tp_order t); tp_by := tp_by t |})
  | _, _, _ => None
  end.
Definition no_template_change (p : UpdateChecklistTemplateParams) : bool :=
  match p with Build_UpdateChecklistTemplateParams None None None None None None None None None None => true | _ => false end.
Definition find_template (d : fin_db) (i : string) : option bill_template_row := List.find (fun t => String.eqb (tp_id t) i) (f_templates d).
Definition edit_template (i : string) (f : bill_template_row -> bill_template_row) (d : fin_db) : fin_db :=
  set_templates (map (fun t => if String.eqb (tp_id t) i then f t else t) (f_templates d)) d.
(** the due date that a request sets *)
Definition new_due (p : UpdateChecklistTemplateParams) (now : Z) : fin (option (Z * Z)) :=
  match KU_DueDate p, KU_DayOfMonth p with
  | Some raw, _ => let! x := of_result (parseMonthlyDueDateInput raw) in ret (Some x)
  | None, Some k =>
      if (k <? 1) || (31 <? k) then throw (BadRequest "tanggal jatuh tempo tidak valid (hari 1–31)")
      else let! ref := financeNow now in let d := date_of ref in ret (Some (synthesizeDueAnchor (year d) (month d) k, k))
  | None, None => ret None
  end.
Definition reconcilePendingChecklistItems (templateID : string) (monthStart : Z) : fin unit :=
  uexec templateID (fun i d => set_items (List.filter (fun x =>
    negb (String.eqb (it_template x) i && String.eqb (it_status x) "pending" && bool_decide (it_txn x = None) && (monthStart <=? it_due x))) (f_items d)) d).
Definition UpdateChecklistTemplate (u : option AuthUser) (id : string) (p : UpdateChecklistTemplateParams) (now : Z) : fin (option string * option Z) :=
  mustOwner u;!
  prepareTenant;!
  if match KU_Title p with Some t => String.eqb (TrimSpace t) "" | None => false end then throw (BadRequest "judul tidak boleh kosong")
  else
    let! due := new_due p now in
    if no_template_change p then throw (BadRequest "tidak ada field untuk diperbarui")
    else
      let! n := or_internal (with_uuid id (fun i d =>
        match update_template_row p due with
        | Some f => (Ok (bool_decide (is_Some (find_template d i))), edit_template i f d)
        | None => (Err bad_input, d)
        end)) in
      if negb n then throw (NotFoundE "template tidak ditemukan")
      else
        (if bool_decide (is_Some due) then
           let! from := currentMonthStart now in or_internal (reconcilePendingChecklistItems id from)
         else ret tt);!
        let! t := or_internal (uquery id (fun i d => find_template d i)) in
        let! ref := financeNow now in
        ret (attachDueAnchorDate t ref).
Definition deactivate_template (t : bill_template_row) : bill_template_row :=
  {| tp_id := tp_id t; tp_title := tp_title t; tp_title_enc := tp_title_enc t; tp_description := tp_description t; tp_hint := tp_hint t;
     tp_category := tp_category t; tp_wallet := tp_wallet t; tp_frequency := tp_frequency t; tp_day := tp_day t; tp_anchor := tp_anchor t;
     tp_active := false; tp_order := tp_order t; tp_by := tp_by t |}.
Definition DeleteChecklistTemplate (u : option AuthUser) (id : string) : fin unit :=
  mustOwner u;! prepareTenant;! ignore (uexec id (fun i => edit_template i deactivate_template)).

(** ** Items *)
Definition new_item (template : string) (due : Z) (id : string) : bill_item_row :=
  {| it_id := id; it_template := template; it_due := due; it_status := "pending"; it_txn := None; it_by := None; it_at := None; it_note := None |}.
(** INSERT … SELECT … ON CONFLICT (template_id, due_date) DO NOTHING: every row draws an id *)
Fixpoint insert_items (rows : list (string * Z)) (d : fin_db) : result unit * fin_db :=
  match rows with
  | [] => (Ok tt, d)
  | (template, due) :: rest =>
      match f_ids d with
      | [] => (Err no_id, d)
      | id :: ids =>
          let d := set_ids ids d in
          if existsb (fun x => String.eqb (it_template x) template && (it_due x =? due)) (f_items d) then insert_items rest d
          else if existsb (fun x => String.eqb (it_id x) id) (f_items d) then (Err constraint_error, d)
          else insert_items rest (set_items (f_items d ++ [new_item template due id])%list d)
      end
  end.
Definition active_of (frequency : string) (t : bill_template_row) : bool := tp_active t && String.eqb (tp_frequency t) frequency.
Definition ensureItems (f : bill_template_row -> bool) (due : bill_template_row -> Z) : fin unit :=
  checklistInternal (stmt (fun d => insert_items (map (fun t => (tp_id t, due t)) (List.filter f (f_templates d))) d)).
(** the date in the month that starts on [start] *)
Definition due_in (start : Z) (t : bill_template_row) : Z :=
  let d := date_of_day start in start + (Z.min (Z.max (default 1 (tp_day t)) 1) (days_in (year d) (month d)) - 1).
Definition ensureMonthlyBillingItems (start : Z) : fin unit := ensureItems (active_of "monthly") (due_in start).
Definition item_template (d : fin_db) (x : bill_item_row) : option bill_template_row := find_template d (it_template x).
(** the date, how many of its items are pending *)
Definition GetTodayChecklist (u : option AuthUser) (now : Z) : fin (string * nat) :=
  of_result (mustUser u);!
  prepareTenant;!
  let! t := financeNow now in
  let today := day_of_time t in
  ensureItems (active_of "daily") (fun _ => today);!
  ensureItems (fun x => active_of "monthly" x && bool_decide (tp_day x = Some (day (date_of t)))) (fun _ => today);!
  let! pending := or_internal (read (fun d => count_of (fun x =>
    (it_due x =? today) && bool_decide (is_Some (item_template d x)) && String.eqb (it_status x) "pending") (f_items d))) in
  ret (format_date t, pending).
Definition edit_item (i : string) (f : bill_item_row -> bill_item_row) (d : fin_db) : fin_db :=
  set_items (map (fun x => if String.eqb (it_id x) i then f x else x) (f_items d)) d.
Record ChecklistActionParams := { KA_ItemID : string; KA_Action : string; KA_Note : option string; KA_TransactionID : option string }.
Definition act_item (status by_ : string) (note txn : option string) (now : Z) (x : bill_item_row) : bill_item_row :=
  {| it_id := it_id x; it_template := it_template x; it_due := it_due x; it_status := status; it_txn := set_nullable txn (it_txn x);
     it_by := Some by_; it_at := Some now; it_note := set_nullable note (it_note x) |}.
Definition ChecklistAction (u : option AuthUser) (p : ChecklistActionParams) (now : Z) : fin string :=
  let! usr := of_result (mustUser u) in
  if negb (in_list (KA_Action p) ["done"; "skip"]) then throw (BadRequest "action harus done atau skip")
  else
    prepareTenant;!
    let status := if String.eqb (KA_Action p) "skip" then "skipped" else "done" in
    or_internal (with_uuid (KA_ItemID p) (fun i d =>
      match uuid_in (AccountID usr), uuid_opt (KA_TransactionID p) with
      | Some by_, Some txn => (Ok tt, edit_item i (act_item status by_ (KA_Note p) txn now) d)
      | _, _ => (Err bad_input, d)
      end));!
    ret status.

(** ** Monthly bills *)
Definition in_period (start end_ : Z) (x : bill_item_row) : bool := (start <=? it_due x) && (it_due x <? end_).
(** an item of the period whose template is there and satisfies [f] *)
Definition bill_item (f : bill_template_row -> bool) (start end_ : Z) (d : fin_db) (x : bill_item_row) : bool :=
  match item_template d x with Some t => f t && in_period start end_ x | None => false end.
Definition monthly (t : bill_template_row) : bool := String.eqb (tp_frequency t) "monthly".
Definition set_item_txn (txn : option string) (x : bill_item_row) : bill_item_row :=
  {| it_id := it_id x; it_template := it_template x; it_due := it_due x; it_status := it_status x; it_txn := txn;
     it_by := it_by x; it_at := it_at x; it_note := it_note x |}.
Definition live_id (d : fin_db) (i : string) : bool := existsb (fun t => String.eqb (tx_id t) i && negb (tx_deleted t)) (f_txns d).
Definition repairOrphanChecklistTransactionIDs (start end_ : Z) : fin unit :=
  exec (fun d => set_items (map (fun x =>
    if bill_item monthly start end_ d x && match it_txn x with Some i => negb (live_id d i) | None => false end
    then set_item_txn None x else x) (f_items d)) d).

(** *** Posting the expenses of checked items *)
Record bill := { bl_id : string; bl_due : string; bl_title : string; bl_amount : f64; bl_category : option string; bl_wallet : option string }.
Definition unposted (start end_ : Z) (d : fin_db) (x : bill_item_row) : bool :=
  bill_item (active_of "monthly") start end_ d x && String.eqb (it_status x) "done" && bool_decide (it_txn x = None).
(** the rows of the query, ORDER BY due_date *)
Definition due_before (a b : bill_item_row * bill_template_row) : Prop := it_due a.1 <= it_due b.1.
#[local] Instance due_before_dec : RelDecision due_before.
Proof. intros a b. unfold due_before. apply _. Defined.
Definition unposted_rows (start end_ : Z) (d : fin_db) : list (bill_item_row * bill_template_row) :=
  merge_sort due_before (omap (fun x => t ← item_template d x; Some (x, t)) (List.filter (unposted start end_ d) (f_items d))).
Definition quote : string := bytes [34]%N.
Fixpoint scan_bills (rows : list (bill_item_row * bill_template_row)) : fin (list bill) :=
  match rows with
  | [] => ret []
  | (x, t) :: rest =>
      let! title := or_internal (of_result (decryptFinanceTitle (default "" (tp_title_enc t)) (tp_title t))) in
      let amount := numeric_out 2 <$> tp_hint t in
      if match amount with Some a => fleb a fzero | None => true end
      then throw (BadRequest ("tagihan " ++ quote ++ title ++ quote ++ " belum punya nominal — isi estimasi jumlah di template"))
      else
        let! bs := scan_bills rest in
        ret ({| bl_id := it_id x; bl_due := date_text (it_due x); bl_title := title; bl_amount := default fzero amount;
                bl_category := tp_category t; bl_wallet := tp_wallet t |} :: bs)
  end.
Definition resolveDefaultExpenseWallet : fin string :=
  let! r := or_internal (read (fun d => w_id <$> first_wallet (List.filter usable (f_wallets d)))) in
  match r with
  | None => throw (BadRequest "belum ada dompet aktif untuk mencatat pengeluaran tagihan")
  | Some id => ret id
  end.
Definition bill_wallet (defaultWallet : string) (b : bill) : string :=
  match bl_wallet b with Some w => if String.eqb w "" then defaultWallet else w | None => defaultWallet end.
Fixpoint assert_wallets (u : AuthUser) (ws : list string) : fin unit :=
  match ws with [] => ret tt | w :: rest => assertWalletAccessible u w;! assert_wallets u rest end.
Definition checklist_ref (id : string) : string := "checklist:" ++ id.
Definition bill_txn (u : AuthUser) (label wallet : string) (b : bill) (id : string) : option txn_row :=
  match numeric_in 2 (bl_amount b), uuid_in wallet, uuid_opt (bl_category b), date_in (bl_due b), uuid_in (AccountID u) with
  | Some a, Some w, Some c, Some day, Some by_ =>
      Some {| tx_id := id; tx_type := "expense"; tx_amount := a; tx_currency := "IDR"; tx_wallet := w; tx_to := None; tx_category := c;
              tx_description := Some (bl_title b ++ " (Tagihan " ++ label ++ ")"); tx_notes := None;
              tx_reference := Some (checklist_ref (bl_id b)); tx_date := day; tx_status := "approved"; tx_approved_by := None;
              tx_reason := None; tx_tags := ["checklist-billing"; label]; tx_asset := None; tx_qty := None; tx_price := None; tx_fee := 0;
              tx_created_by := by_; tx_deleted := false |}
  | _, _, _, _, _ => None
  end.
Definition link_item (item txn : string) : fin unit := uexec item (fun i => edit_item i (set_item_txn (Some txn))).
Definition live_ref (ref : string) (t : txn_row) : bool := bool_decide (tx_reference t = Some ref) && negb (tx_deleted t).
(** one bill: link the transaction that has its reference, or write one *)
Definition post_bill (u : AuthUser) (label defaultWallet : string) (now : Z) (b : bill) : fin unit :=
  on_pool (ensurePeriodUnlocked (walletPeriod now (bl_due b)));!
  let ref := checklist_ref (bl_id b) in
  let! exists_ := or_internal (read (fun d => existsb (live_ref ref) (f_txns d))) in
  if exists_ then
    let! r := attempt (stmt (fun d => match List.find (live_ref ref) (f_txns d) with Some t => (Ok (tx_id t), d) | None => (Err no_rows, d) end)) in
    match r with Ok txn => ignore (link_item (bl_id b) txn) | Err _ => ret tt end
  else
    let! txn := or_else (fun e => ECode Internal ("gagal mencatat transaksi tagihan: " ++ error_text e))
      (stmt (insert_txn (bill_txn u label (bill_wallet defaultWallet b) b))) in
    or_internal (link_item (bl_id b) txn).
Fixpoint post_bills (u : AuthUser) (label defaultWallet : string) (now : Z) (bs : list bill) : fin unit :=
  match bs with [] => ret tt | b :: rest => post_bill u label defaultWallet now b;! post_bills u label defaultWallet now rest end.
Definition tryPostMonthlyBillingTransactions (u : AuthUser) (start end_ : Z) (label : string) (now : Z) : fin unit :=
  let! n := or_internal (read (fun d => count_of (unposted start end_ d) (f_items d))) in
  if (n =? 0)%nat then ret tt
  else
    let! rows := or_internal (read (unposted_rows start end_)) in
    let! bs := scan_bills rows in
    let! defaultWallet := resolveDefaultExpenseWallet in
    let ws := map (bill_wallet defaultWallet) bs in
    assert_wallets u ws;!
    in_tx InternalE (post_bills u label defaultWallet now bs);!
    refresh_each (remove_dups ws);!
    RecordEvents u "fin_transaction_created" (Z.of_nat (length bs)) now.
Definition syncMonthlyBillingPeriod (u : AuthUser) (start end_ : Z) (label : string) (now : Z) : fin unit :=
  or_internal (repairOrphanChecklistTransactionIDs start end_);!
  tryPostMonthlyBillingTransactions u start end_ label now.

(** *** The responses: what is counted of the period's items *)
Record MonthlyBilling := { MB_Period : string; MB_Total : nat; MB_Checked : nat; MB_Posted : nat; MB_AllChecked : bool; MB_AllPosted : bool }.
Fixpoint decrypt_all (ts : list bill_template_row) : fin unit :=
  match ts with
  | [] => ret tt
  | t :: rest => or_internal (of_result (decryptFinanceTitle (default "" (tp_title_enc t)) (tp_title t)));! decrypt_all rest
  end.
Definition loadMonthlyBilling (start end_ : Z) (label : string) : fin MonthlyBilling :=
  let! rows := or_internal (read (fun d => omap (fun x => t ← item_template d x; Some (x, t, match it_txn x with Some i => live_id d i | None => false end))
    (List.filter (bill_item (active_of "monthly") start end_ d) (f_items d)))) in
  decrypt_all (map (fun r => r.1.2) rows);!
  let total := length rows in
  let checked := count_of (fun r => String.eqb (it_status r.1.1) "done") rows in
  let posted := count_of (fun r => r.2) rows in
  ret {| MB_Period := label; MB_Total := total; MB_Checked := checked; MB_Posted := posted;
         MB_AllChecked := (0 <? total)%nat && (checked =? total)%nat; MB_AllPosted := (0 <? total)%nat && (posted =? total)%nat |}.
Definition GetMonthlyBillingChecklist (u : option AuthUser) (period : string) (now : Z) : fin MonthlyBilling :=
  let! usr := of_result (mustUser u) in
  let! p := of_result (parseBillingPeriod period now) in
  let '(start, end_, label) := p in
  prepareTenant;!
  ensureMonthlyBillingItems start;!
  syncMonthlyBillingPeriod usr start end_ label now;!
  loadMonthlyBilling start end_ label.

(** *** Checking an item, or unchecking it *)
(** the expenses of an item: by its reference, or by the transaction it is linked to *)
Definition item_expense (ref i : string) (d : fin_db) (t : txn_row) : bool :=
  negb (tx_deleted t) && String.eqb (tx_type t) "expense" &&
  (bool_decide (tx_reference t = Some ref) || existsb (fun x => String.eqb (it_id x) i && bool_decide (it_txn x = Some (tx_id t))) (f_items d)).
Definition find_bill_item (d : fin_db) (i : string) : option bill_item_row := List.find (fun x => String.eqb (it_id x) i) (f_items d).
Definition or_no_item {A} (m : fin A) : fin A :=
  or_else (fun e => if bool_decide (e = no_rows) then NotFoundE "item checklist tidak ditemukan" else InternalE e) m.
Definition removeChecklistBillingTransaction (u : AuthUser) (itemID : string) (now : Z) : fin unit :=
  let ref := checklist_ref itemID in
  let! dueDate := or_no_item (uquery itemID (fun i d => (fun x => date_text (it_due x)) <$> find_bill_item d i)) in
  ensurePeriodUnlocked (walletPeriod now dueDate);!
  let! walletIDs := or_internal (uread itemID (fun i d => wallets_of (item_expense ref i d) d)) in
  let! n := or_internal (with_uuid itemID (fun i d =>
    match uuid_in (AccountID u) with
    | None => (Err bad_input, d)
    | Some _ =>
        match write_txns (map (fun t => if item_expense ref i d t then delete_txn_row t else t) (f_txns d)) d with
        | (Ok _, d') => (Ok (existsb (item_expense ref i d) (f_txns d)), d')
        | (Err e, _) => (Err e, d)
        end
    end)) in
  or_internal (uexec itemID (fun i => edit_item i (set_item_txn None)));!
  if n then refresh_each walletIDs else ret tt.
Definition toggle_item (newStatus by_ : string) (now : Z) (x : bill_item_row) : bill_item_row :=
  {| it_id := it_id x; it_template := it_template x; it_due := it_due x; it_status := newStatus; it_txn := it_txn x;
     it_by := if String.eqb newStatus "done" then Some by_ else None; it_at := if String.eqb newStatus "done" then Some now else None;
     it_note := it_note x |}.
(** the period's counts after the toggle *)
Definition ToggleMonthlyBillingItem (u : option AuthUser) (itemID : string) (checked : bool) (now : Z) : fin MonthlyBilling :=
  let! usr := of_result (mustUser u) in
  if String.eqb (TrimSpace itemID) "" then throw (BadRequest "itemId wajib")
  else
    prepareTenant;!
    let! r := or_no_item (uquery itemID (fun i d => x ← find_bill_item d i; t ← item_template d x; Some (date_text (it_due x), tp_frequency t))) in
    let '(dueDate, freq) := r in
    if negb (String.eqb freq "monthly") then throw (BadRequest "item bukan tagihan bulanan")
    else
      let! p := of_result (parseBillingPeriod (take_bytes 7 dueDate) now) in
      let '(start, end_, label) := p in
      (if checked then ret tt else removeChecklistBillingTransaction usr itemID now);!
      or_internal (with_uuid itemID (fun i d =>
        match uuid_in (AccountID usr) with
        | Some by_ => (Ok tt, edit_item i (toggle_item (if checked then "done" else "pending") by_ now) d)
        | None => (Err bad_input, d)
        end));!
      ensureMonthlyBillingItems start;!
      syncMonthlyBillingPeriod usr start end_ label now;!
      loadMonthlyBilling start end_ label.
End checklist.
