(* ===== verification/FinLedger.v ===== *)
(** * The books balance

    What the finance handlers (FinTxns.v, FinAssets.v, FinPosting.v) keep of the
    tenant's books: the invariant [books] that ties every wallet's cached balance
    to its transactions, and its preservation by every handler. *)
From S2P Require Import Prelude GoStrings AdminSession PgTx Triples DaySlots Dates Float64 Billing Recurring FinTables FinTxns FinAssets FinPosting.

Open Scope string_scope.
Open Scope Z_scope.

(** ** What a transaction contributes to a wallet *)
Definition contribution (flow : string -> string) (w : string) (t : txn_row) : Z :=
  if touches w t && counts t then credit w (flow (tx_type t)) t - debit w (flow (tx_type t)) t else 0.

Lemma sum_of_filter {A} (f : A -> bool) (g : A -> Z) l : sum_of g (List.filter f l) = sum_of (fun x => if f x then g x else 0) l.
Proof. induction l as [|x l IH]; [done|]. cbn. destruct (f x); cbn; unfold sum_of in *; lia. Qed.
Lemma sum_of_minus {A} (f g : A -> Z) l : sum_of (fun x => f x - g x) l = sum_of f l - sum_of g l.
Proof. induction l as [|x l IH]; [done|]. cbn. unfold sum_of in *. lia. Qed.
Lemma sum_of_ext {A} (f g : A -> Z) l : (forall x, x ∈ l -> f x = g x) -> sum_of f l = sum_of g l.
Proof.
  induction l as [|x l IH]; intros H; [done|]. cbn. rewrite (H x) by left.
  unfold sum_of in *. rewrite IH; [done|]. intros y Hy. apply H. by right.
Qed.
Lemma sum_of_map {A B} (f : B -> Z) (h : A -> B) l : sum_of f (map h l) = sum_of (fun x => f (h x)) l.
Proof. induction l as [|x l IH]; [done|]. cbn. unfold sum_of in *. by rewrite IH. Qed.
Lemma sum_of_kept {A} (f : A -> bool) (g : A -> Z) l :
  (forall x, x ∈ l -> f x = false -> g x = 0) -> sum_of g (List.filter f l) = sum_of g l.
Proof. intros H. rewrite sum_of_filter. apply sum_of_ext. intros x Hx. destruct (f x) eqn:E; [done|]. by rewrite (H x Hx). Qed.

Lemma net_eq d w : net d w = sum_of (contribution (flow_of d) w) (f_txns d).
Proof.
  unfold net. rewrite <- sum_of_minus, sum_of_filter. apply sum_of_ext. intros t _. reflexivity.
Qed.
Lemma contribution_untouched fl w t : touches w t = false -> contribution fl w t = 0.
Proof. unfold contribution. by intros ->. Qed.
Lemma contribution_uncounted fl w t : counts t = false -> contribution fl w t = 0.
Proof. unfold contribution. intros ->. by rewrite andb_false_r. Qed.
Lemma contribution_flow fl fl' w t : (counts t = true -> fl (tx_type t) = fl' (tx_type t)) -> contribution fl w t = contribution fl' w t.
Proof. intros H. unfold contribution. destruct (counts t); [by rewrite H|]. by rewrite !andb_false_r. Qed.
Lemma touches_spec w t : touches w t = true <-> tx_wallet t = w \/ tx_to t = Some w.
Proof. unfold touches, is_to. rewrite orb_true_iff, String.eqb_eq, bool_decide_eq_true. done. Qed.

(** ** What the reading helpers answer *)
Section reading.
Context `{HI : PgInput} `{HT : TimeZones} (c : bool).

Lemma reads_or_else {A} wrap (m : fin A) F : reads c m F -> reads c (or_else wrap m) F.
Proof.
  intros Hm P. eapply t_reads_bind; [eapply reads_attempt; exact Hm| |naive_solver].
  intros [a|e]; [apply t_ret|apply t_throw]; naive_solver.
Qed.
Lemma reads_or_internal {A} (m : fin A) F : reads c m F -> reads c (or_internal m) F.
Proof. apply reads_or_else. Qed.
Lemma reads_of_result {A} (r : result A) : reads c (of_result r) (fun _ a => r = Ok a).
Proof. destruct r; [|apply reads_throw]. eapply reads_weaken; [apply reads_ret|naive_solver]. Qed.
Lemma reads_check e : reads c (check e) (fun _ _ => e = None).
Proof. destruct e; [apply reads_throw|]. eapply reads_weaken; [apply reads_ret|naive_solver]. Qed.
Lemma reads_uread {A} id (f : string -> fin_db -> A) : reads c (uread id f) (fun d a => exists i, uuid_in id = Some i /\ a = f i d).
Proof. apply reads_stmt. intros d. destruct (uuid_in id); naive_solver. Qed.
Lemma reads_uquery {A} id (f : string -> fin_db -> option A) :
  reads c (uquery id f) (fun d a => exists i, uuid_in id = Some i /\ f i d = Some a).
Proof. apply reads_stmt. intros d. destruct (uuid_in id) as [i|]; [|done]. destruct (f i d) eqn:E; [|done]. eauto. Qed.
Lemma reads_any {A} (m : fin A) F : reads c m F -> reads c m any.
Proof. intros Hm. by eapply reads_weaken. Qed.
Lemma reads_prepareTenant : reads c prepareTenant any.
Proof. apply reads_or_else. eapply reads_any, reads_read. Qed.
Lemma mustUser_Ok u usr : mustUser u = Ok usr -> u = Some usr.
Proof. unfold mustUser. destruct u as [v|]; [|done]. destruct (negb _); [done|]. destruct (RequireModule _ _); [done|]. by intros [= ->]. Qed.
Lemma assertOwner_None usr : assertOwner usr = None -> isOwner usr = true.
Proof. unfold assertOwner. by destruct (isOwner usr). Qed.
Lemma reads_mustOwner u : reads c (mustOwner u) (fun _ usr => u = Some usr /\ isOwner usr = true).
Proof.
  eapply reads_weaken; [eapply reads_bind; [apply reads_of_result|intros usr; eapply reads_bind; [apply reads_check|intros x; apply reads_ret]]|].
  cbn beta. intros d usr (x & Hx & y & Ho & ->). split; [by apply mustUser_Ok|by apply assertOwner_None].
Qed.
Lemma reads_type code : reads c (loadTransactionTypeByCode code) (fun d r => type_of_code d code <> None).
Proof.
  apply reads_or_else, reads_stmt. intros d. destruct (List.find _ _) as [t|] eqn:E; [|done]. split; [done|].
  apply find_some in E as [Hin Ht]. apply andb_true_iff in Ht as [Ht _]. intros Hn. unfold type_of_code in Hn.
  by rewrite (find_none _ _ Hn _ Hin) in Ht.
Qed.
Lemma reads_accessible u w : reads c (assertWalletAccessible u w) any.
Proof.
  unfold assertWalletAccessible. repeat apply reads_if; auto with reads.
  eapply reads_bind_any; [eapply reads_attempt, reads_uquery|]. intros [v|e]; repeat apply reads_if; auto with reads.
Qed.
Lemma reads_status u ty amount : reads c (initial_status u ty amount) any.
Proof.
  apply reads_if; [auto with reads|]. apply (reads_bind_any _ _ _ any); [apply reads_or_else|auto with reads].
  eapply reads_bind_any; [apply reads_attempt, reads_read|]. intros [[a|]|e]; [destruct (array_scan _)|..]; auto with reads.
Qed.
Lemma reads_unlocked period : reads c (ensurePeriodUnlocked period) (fun d _ => existsb (String.eqb period) (f_locks d) = false).
Proof.
  eapply reads_weaken; [eapply reads_bind; [apply reads_or_else, reads_read|]|].
  - intros locked. apply (reads_weaken _ _ (fun _ _ => locked = false)); [|by intros ? ? H; exact H].
    destruct locked; [apply reads_throw|]. eapply reads_weaken; [apply reads_ret|done].
  - cbn. intros d x (b & -> & Hb). done.
Qed.
Lemma reads_today now : reads c (financeToday now) any.
Proof.
  apply (reads_bind_any _ _ _ any); [|auto with reads].
  eapply reads_bind_any; [eapply reads_attempt, (reads_stmt _ _ any)|auto with reads]. intros d. by destruct (f_timezone d).
Qed.
Lemma reads_date date now : reads c (date_or_today date now) any.
Proof. apply reads_if; [apply reads_today|auto with reads]. Qed.
Lemma reads_when {A} (o : option A) k : (forall a, reads c (k a) any) -> reads c (when_some o k) any.
Proof. destruct o; cbn; auto with reads. Qed.
Lemma reads_count_or_zero m : reads c m any -> reads c (count_or_zero m) any.
Proof. intros Hm. eapply reads_bind_any; [eapply reads_attempt, Hm|]. auto with reads. Qed.
Lemma reads_metrics id m : reads c (loadAssetMetrics id m) any.
Proof.
  eapply reads_bind_any; [eapply reads_attempt, reads_uread|]. intros r.
  eapply reads_bind_any; [eapply reads_ignore, reads_uread|]. auto with reads.
Qed.
Lemma reads_unit_config id : reads c (loadAssetUnitConfig id) any.
Proof. eapply reads_bind_any; [apply reads_uquery|]. auto with reads. Qed.
Lemma reads_asset_active id : reads c (asset_active id) any.
Proof. eapply reads_bind_any; [eapply reads_attempt, reads_uquery|]. intros [b|e]; [|apply reads_if]; auto with reads. Qed.
Lemma find_asset_elem d i a : find_asset d i = Some a -> a ∈ f_assets d.
Proof. intros H. apply find_some in H as [H _]. by apply list_elem_of_In. Qed.
Lemma reads_tradable u id : reads c (tradable_asset u id) (fun d a => a ∈ f_assets d).
Proof.
  intros P. unfold tradable_asset. eapply t_reads_bind; [eapply reads_attempt, reads_uquery|intros [a|e]|cbn; by split].
  - destruct (negb (as_active a)); [apply t_throw; naive_solver|]. eapply t_reads_bind; [apply reads_accessible|intros x|cbn; naive_solver].
    apply t_ret. cbn. intros d [[HP HF] _]. split; [done|]. intros b [= <-]. destruct (HF a eq_refl) as (i & _ & Hi). by eapply find_asset_elem.
  - destruct (bool_decide _); apply t_throw; naive_solver.
Qed.
Lemma reads_delete_blocked w : reads c (walletDeleteBlocked w) any.
Proof.
  unfold walletDeleteBlocked. eapply reads_bind_any; [apply reads_count_or_zero; eapply reads_any, reads_uread|intros n1].
  apply (reads_bind_any _ _ _ any); [eapply reads_bind_any; [eapply reads_attempt, reads_read|auto with reads]|intros ready].
  apply (reads_bind_any _ _ _ any); [apply reads_if; [apply reads_count_or_zero; eapply reads_any, reads_uread|auto with reads]|intros n2].
  eapply reads_bind_any; [apply reads_count_or_zero; eapply reads_any, reads_uread|intros n3].
  repeat apply reads_if; auto with reads.
Qed.
End reading.
#[export] Hint Resolve reads_or_else reads_or_internal reads_prepareTenant reads_accessible reads_status reads_today reads_date reads_when
  reads_count_or_zero reads_metrics reads_unit_config reads_asset_active reads_delete_blocked : reads.
#[export] Hint Extern 3 (reads _ (of_result _) any) => (eapply reads_any, reads_of_result) : reads.
#[export] Hint Extern 3 (reads _ (check _) any) => (eapply reads_any, reads_check) : reads.
#[export] Hint Extern 3 (reads _ (uread _ _) any) => (eapply reads_any, reads_uread) : reads.
#[export] Hint Extern 3 (reads _ (uquery _ _) any) => (eapply reads_any, reads_uquery) : reads.
#[export] Hint Extern 3 (reads _ (loadTransactionTypeByCode _) any) => (eapply reads_any, reads_type) : reads.
#[export] Hint Extern 3 (reads _ (ensurePeriodUnlocked _) any) => (eapply reads_any, reads_unlocked) : reads.
#[export] Hint Extern 3 (reads _ (mustOwner _) any) => (eapply reads_any, reads_mustOwner) : reads.
#[export] Hint Extern 3 (reads _ (tradable_asset _ _) any) => (eapply reads_any, reads_tradable) : reads.

(** ** The invariant *)
Class PgInputLaws {I : PgInput} : Prop := {
  uuid_canonical s u : uuid_in s = Some u -> uuid_in u = Some u;
  uuid_nonempty : uuid_in "" = None
}.
Section books.
Context `{HI : PgInput} `{HT : TimeZones} `{HL : !PgInputLaws}.

Definition canonical (u : string) : Prop := uuid_in u = Some u.
Definition known (d : fin_db) (u : string) : Prop := is_Some (find_wallet d u).
(** the cached balance is the initial balance and the approved transactions,
    unless that is more than the column holds *)
Definition synced (d : fin_db) (w : string) : Prop :=
  forall row, find_wallet d w = Some row -> fits (w_initial row + net d w) = true ->
    f_balances d !! w = Some (w_initial row + net d w).
(** a transaction between known wallets *)
Definition ref_ok (d : fin_db) (u : string) : Prop := canonical u /\ known d u.
Definition txn_refs (d : fin_db) (t : txn_row) : Prop := ref_ok d (tx_wallet t) /\ forall u, tx_to t = Some u -> ref_ok d u.
Definition system_flow (d : fin_db) (code : string) : Prop :=
  exists r, type_of_code d code = Some r /\ tt_system r = true /\ tt_flow r = code.

(** [books S d]: the books are in order, except the balances of the wallets in [S] *)
Record books (S : string -> Prop) (d : fin_db) : Prop := {
  b_valid : txns_valid (f_txns d) = true;
  b_ids : NoDup (f_ids d) /\ Forall canonical (f_ids d);
  b_new : forall w, known d w -> canonical w /\ w ∉ f_ids d;
  b_balances : forall w, is_Some (f_balances d !! w) -> known d w;
  b_refs : Forall (txn_refs d) (f_txns d);
  b_assets : Forall (fun a => ref_ok d (as_wallet a)) (f_assets d);
  b_templates : Forall (fun t => forall w, tp_wallet t = Some w -> ref_ok d w) (f_templates d);
  b_types : types_valid (f_types d) = true;
  b_cover : Forall (fun t => tx_deleted t = false -> is_Some (type_of_code d (tx_type t))) (f_txns d);
  b_system : system_flow d "income" /\ system_flow d "expense";
  b_synced : forall w, ~ S w -> synced d w
}.
Definition none : string -> Prop := fun _ => False.

Lemma books_mono S S' d : books S d -> (forall w, S w -> S' w) -> books S' d.
Proof. intros [] HS. split; auto. Qed.

(** tables that matter to the books *)
Definition same_books (d d' : fin_db) : Prop :=
  f_wallets d' = f_wallets d /\ f_balances d' = f_balances d /\ f_types d' = f_types d /\ f_txns d' = f_txns d /\
  f_assets d' = f_assets d /\ f_templates d' = f_templates d /\ f_ids d' = f_ids d.
Lemma known_wallets d d' u : f_wallets d' = f_wallets d -> known d' u <-> known d u.
Proof. unfold known, find_wallet. by intros ->. Qed.
Lemma net_same d d' w : f_types d' = f_types d -> f_txns d' = f_txns d -> net d' w = net d w.
Proof. rewrite !net_eq. unfold flow_of, type_of_code. by intros -> ->. Qed.
Lemma books_same S d d' : same_books d d' -> books S d -> books S d'.
Proof.
  intros (H1 & H2 & H3 & H4 & H5 & H7 & H6) [].
  assert (forall u, known d' u <-> known d u) as Hk by (intros; by apply known_wallets).
  assert (forall u, ref_ok d u -> ref_ok d' u) as Hr by (intros u; unfold ref_ok; by rewrite Hk).
  assert (forall c, type_of_code d' c = type_of_code d c) as Hc by (intros c; unfold type_of_code; by rewrite H3).
  split.
  - by rewrite H4.
  - by rewrite H6.
  - intros w. rewrite Hk, H6. auto.
  - intros w. rewrite Hk, H2. auto.
  - rewrite H4. eapply Forall_impl; [exact b_refs0|]. intros t [Hw Ht]. split; [by apply Hr|]. intros u Hu. by apply Hr, Ht.
  - rewrite H5. eapply Forall_impl; [exact b_assets0|]. intros a. apply Hr.
  - rewrite H7. eapply Forall_impl; [exact b_templates0|]. intros t Ht w Hw. by apply Hr, Ht.
  - by rewrite H3.
  - rewrite H4. eapply Forall_impl; [exact b_cover0|]. intros t Ht Hd. rewrite Hc. by apply Ht.
  - unfold system_flow. by rewrite !Hc.
  - intros w Hw row. rewrite (net_same d d' w H3 H4), H2. unfold find_wallet. rewrite H1. by apply b_synced0.
Qed.

(** *** Transactions change: only the balances of wallets they touched may be off *)
Lemma books_txns S S' d l :
  books S d -> txns_valid l = true -> Forall (txn_refs d) l ->
  Forall (fun t => tx_deleted t = false -> is_Some (type_of_code d (tx_type t))) l ->
  (forall w, ~ S' w -> ~ S w /\
     sum_of (contribution (flow_of d) w) l = sum_of (contribution (flow_of d) w) (f_txns d)) ->
  books S' (set_txns l d).
Proof.
  intros [] Hv Hr Hc Hs. split; try done. intros w Hw row. destruct (Hs w Hw) as [Hw' Hsum].
  rewrite net_eq. change (flow_of (set_txns l d)) with (flow_of d). cbn [f_txns set_txns f_balances].
  rewrite Hsum, <- net_eq. by apply b_synced0.
Qed.
Lemma books_ids S d ids rest : books S d -> f_ids d = ids :: rest -> books S (set_ids rest d).
Proof.
  intros [] He. rewrite He in *. destruct b_ids0 as [Hn Hf]. apply NoDup_cons in Hn as [_ Hn]. apply Forall_cons in Hf as [_ Hf].
  split; try done. intros w Hw. destruct (b_new0 w Hw) as [Hw1 Hw2]. split; [done|]. intros Hin. apply Hw2. by right.
Qed.
(** a new row, and the wallets its money is in *)
Definition in_txn (t : txn_row) (w : string) : Prop := tx_wallet t = w \/ tx_to t = Some w.
Lemma books_insert S d t :
  books S d -> txns_valid (f_txns d ++ [t]) = true -> txn_refs d t -> is_Some (type_of_code d (tx_type t)) ->
  books (fun w => S w \/ (counts t = true /\ in_txn t w)) (set_txns (f_txns d ++ [t])%list d).
Proof.
  intros Hb Hv Hr Hc. pose proof Hb as []. eapply books_txns; [done|done|..].
  - apply Forall_app. split; [done|]. by constructor.
  - apply Forall_app. split; [done|]. constructor; [done|constructor].
  - intros w Hw. split; [auto|]. rewrite sum_of_app. cbn. destruct (counts t) eqn:Hcount.
    + rewrite contribution_untouched; [lia|]. apply not_true_iff_false. rewrite touches_spec. unfold in_txn in Hw. tauto.
    + rewrite contribution_uncounted by done. lia.
Qed.
Lemma txns_valid_filter f l : txns_valid l = true -> txns_valid (List.filter f l) = true.
Proof.
  unfold txns_valid. rewrite !andb_true_iff, !bool_decide_eq_true, !forallb_forall. intros [[H1 H2] H3]. split_and!.
  - intros x Hx. apply filter_In in Hx as [Hx _]. by apply H1.
  - induction l as [|x l IH]; [done|]. cbn in *. apply NoDup_cons in H2 as [Hx H2].
    assert (NoDup (map tx_id (List.filter f l))) as H by (apply IH; [auto|done|by destruct (income_ref x); [apply NoDup_cons in H3 as [_ ?]|]]).
    destruct (f x); [|done]. cbn. constructor; [|done]. intros Hin. apply Hx.
    apply list_elem_of_In, in_map_iff in Hin as (y & Hy & Hin). apply list_elem_of_In, in_map_iff. exists y. split; [done|]. by apply filter_In in Hin as [].
  - clear H1 H2. induction l as [|x l IH]; [done|]. cbn in *.
    assert (NoDup (omap income_ref l)) as H by (by destruct (income_ref x); [apply NoDup_cons in H3 as [_ ?]|]).
    destruct (f x); [|by apply IH]. cbn. destruct (income_ref x) as [r|] eqn:E; [|by apply IH].
    apply NoDup_cons in H3 as [Hx _]. constructor; [|by apply IH]. intros Hin. apply Hx.
    apply list_elem_of_omap in Hin as (y & Hy & Hr). apply list_elem_of_omap. exists y. split; [|done]. by apply filter_elem in Hy as [].
Qed.
Lemma Forall_filter_ {A} (P : A -> Prop) f l : Forall P l -> Forall P (List.filter f l).
Proof. rewrite !Forall_forall. intros H x Hx. apply filter_elem in Hx as [Hx _]. by apply H. Qed.
(** rows removed *)
Lemma books_remove S S' d f :
  books S d -> (forall w, S w -> S' w) ->
  (forall t w, t ∈ f_txns d -> f t = false -> ~ S' w -> contribution (flow_of d) w t = 0) ->
  books S' (keep_txns f d).
Proof.
  intros Hb HS Hs. pose proof Hb as []. eapply books_txns; [done|by apply txns_valid_filter|by apply Forall_filter_|by apply Forall_filter_|].
  intros w Hw. split; [auto|]. apply sum_of_kept. intros t Ht Hf. by apply Hs.
Qed.
(** one row updated in place *)
Lemma same_txn_id d (x t : txn_row) : txns_valid (f_txns d) = true -> x ∈ f_txns d -> t ∈ f_txns d -> tx_id x = tx_id t -> x = t.
Proof.
  intros Hv Hx Ht E. unfold txns_valid in Hv. rewrite !andb_true_iff, !bool_decide_eq_true in Hv. destruct Hv as [[_ Hn] _].
  apply list_elem_of_lookup in Hx as [a Ha]. apply list_elem_of_lookup in Ht as [b Hb].
  assert (a = b) as ->; [|congruence]. eapply (NoDup_lookup _ a b (tx_id x) Hn); rewrite list_lookup_fmap; [by rewrite Ha|rewrite Hb; cbn; by rewrite E].
Qed.
Definition keeps_place (f : txn_row -> txn_row) : Prop := forall x,
  tx_id (f x) = tx_id x /\ tx_wallet (f x) = tx_wallet x /\ tx_to (f x) = tx_to x /\ tx_type (f x) = tx_type x /\ (tx_deleted x = true -> tx_deleted (f x) = true).
Lemma books_update S d i f t :
  books S d -> txns_valid (map (fun x => if String.eqb (tx_id x) i then f x else x) (f_txns d)) = true ->
  t ∈ f_txns d -> tx_id t = i -> keeps_place f ->
  books (fun w => S w \/ contribution (flow_of d) w (f t) <> contribution (flow_of d) w t)
    (set_txns (map (fun x => if String.eqb (tx_id x) i then f x else x) (f_txns d)) d).
Proof.
  intros Hb Hv Ht Hi Hf. pose proof Hb as []. eapply books_txns; [done|done|..].
  - apply Forall_map. eapply Forall_impl; [exact b_refs0|]. intros x [H1 H2]. cbn. destruct (Hf x) as (_ & E1 & E2 & _).
    destruct (String.eqb (tx_id x) i); [|done]. unfold txn_refs. by rewrite E1, E2.
  - apply Forall_map. eapply Forall_impl; [exact b_cover0|]. intros x Hx. cbn. destruct (Hf x) as (_ & _ & _ & E3 & E4).
    destruct (String.eqb (tx_id x) i); [|done]. rewrite E3. intros Hd. apply Hx. destruct (tx_deleted x); [|done]. by rewrite E4 in Hd.
  - intros w Hw. split; [auto|]. rewrite sum_of_map. apply sum_of_ext. intros x Hx.
    destruct (String.eqb_spec (tx_id x) i) as [E|]; [|done].
    assert (x = t) as -> by (eapply same_txn_id; [done..|congruence]).
    destruct (Z.eq_dec (contribution (flow_of d) w (f t)) (contribution (flow_of d) w t)); [done|tauto].
Qed.

(** *** Balances, wallets, types and assets change *)
Lemma books_refreshed S d u row :
  books S d -> find_wallet d u = Some row ->
  books (fun w => S w /\ w <> u) (set_balances (<[u := w_initial row + net d u]> (f_balances d)) d).
Proof.
  intros [] Hu. split; try done.
  - intros w. cbn. destruct (decide (w = u)) as [->|]; [by exists row|]. rewrite lookup_insert_ne by done. apply b_balances0.
  - intros w Hw row' Hrow. cbn [f_balances set_balances]. rewrite (net_same d) by done.
    change (find_wallet (set_balances _ d) w) with (find_wallet d w) in Hrow.
    destruct (decide (w = u)) as [->|Hne].
    + rewrite Hu in Hrow. injection Hrow as <-. by rewrite lookup_insert_eq.
    + rewrite lookup_insert_ne by done. apply b_synced0; [tauto|done].
Qed.
(** a balance that does not fit the column is not promised *)
Lemma books_unfit S d u :
  books S d -> (forall row, find_wallet d u = Some row -> fits (w_initial row + net d u) = false) ->
  books (fun w => S w /\ w <> u) d.
Proof.
  intros [] Hu. split; try done. intros w Hw. destruct (decide (w = u)) as [->|]; [|apply b_synced0; tauto].
  intros row Hrow Hf. by rewrite (Hu _ Hrow) in Hf.
Qed.
Lemma books_wallets S d l :
  books S d ->
  (forall u, match find_wallet d u, List.find (fun w => String.eqb (w_id w) u) l with
             | None, None => True | Some r, Some r' => w_initial r' = w_initial r | _, _ => False end) ->
  books S (set_wallets l d).
Proof.
  intros [] Hl. assert (forall u, known (set_wallets l d) u <-> known d u) as Hk.
  { intros u. specialize (Hl u). unfold known in *. change (find_wallet (set_wallets l d) u) with (List.find (fun w => String.eqb (w_id w) u) l).
    destruct (find_wallet d u), (List.find _ l); naive_solver. }
  assert (forall u, ref_ok d u -> ref_ok (set_wallets l d) u) as Hr by (intros u; unfold ref_ok; by rewrite Hk).
  split; try done.
  - intros w. rewrite Hk. apply b_new0.
  - intros w. rewrite Hk. apply b_balances0.
  - eapply Forall_impl; [exact b_refs0|]. intros t [H1 H2]. split; [by apply Hr|]. intros u Hu. by apply Hr, H2.
  - eapply Forall_impl; [exact b_assets0|]. intros a. apply Hr.
  - eapply Forall_impl; [exact b_templates0|]. intros t Ht w Hw. by apply Hr, Ht.
  - intros w Hw row. specialize (Hl w). change (find_wallet (set_wallets l d) w) with (List.find (fun x => String.eqb (w_id x) w) l).
    destruct (find_wallet d w) as [r|] eqn:E, (List.find _ l) as [r'|]; intros Hrow; simplify_eq; try done.
    rewrite Hl, (net_same d) by done. cbn. by apply b_synced0.
Qed.
Lemma books_new_wallet S d row rest :
  books S d -> f_ids d = w_id row :: rest -> existsb (fun w => String.eqb (w_id w) (w_id row)) (f_wallets d) = false ->
  let d' := set_wallets (f_wallets d ++ [row])%list (set_ids rest d) in
  books (fun w => S w \/ w = w_id row) d' /\ find_wallet d' (w_id row) = Some row /\ f_balances d' !! w_id row = None /\ net d' (w_id row) = 0.
Proof.
  intros Hb Hids Hnew d'. pose proof (books_ids _ _ _ _ Hb Hids) as Hb1. pose proof Hb as []. destruct Hb1.
  assert (forall u, find_wallet d' u = match find_wallet d u with Some r => Some r | None => if String.eqb (w_id row) u then Some row else None end) as Hf.
  { intros u. unfold find_wallet, d'. cbn [f_wallets set_wallets]. generalize (f_wallets d). intros ws.
    induction ws as [|x ws IH]; cbn; [done|]. destruct (String.eqb (w_id x) u); [done|exact IH]. }
  assert (~ known d (w_id row)) as Hunk by (intros Hk; apply (b_new0 _ Hk); rewrite Hids; by left).
  assert (find_wallet d (w_id row) = None) as Hnone by (apply eq_None_not_Some; exact Hunk).
  assert (forall u, known d u -> known d' u) as Hk by (intros u [r Hu]; unfold known; rewrite Hf, Hu; by eexists).
  assert (forall u, ref_ok d u -> ref_ok d' u) as Hr by (intros u [? ?]; split; auto).
  assert (net d' (w_id row) = 0) as Hnet.
  { rewrite (net_same d), net_eq by done. rewrite (sum_of_ext _ (fun _ => 0)); [clear; induction (f_txns d) as [|x l IH]; [done|exact IH]|].
    intros t Ht. apply contribution_untouched, not_true_iff_false. rewrite touches_spec.
    rewrite Forall_forall in b_refs0. destruct (b_refs0 t Ht) as [[_ H1] H2]. intros [H|H]; [by rewrite H in H1|]. by apply Hunk, (H2 _ H). }
  split_and!; [split; try done| | |done].
  - intros w [r Hw]. rewrite Hf in Hw. destruct (find_wallet d w) eqn:E.
    + apply b_new1. by eexists.
    + destruct (String.eqb_spec (w_id row) w) as [<-|]; [|done]. destruct b_ids0 as [Hn Hc]. rewrite Hids in Hn, Hc.
      apply NoDup_cons in Hn as [? _]. by apply Forall_cons in Hc as [? _].
  - intros w Hw. by apply Hk, b_balances0.
  - eapply Forall_impl; [exact b_refs0|]. intros t [H1 H2]. split; [by apply Hr|]. intros u Hu. by apply Hr, H2.
  - eapply Forall_impl; [exact b_assets0|]. intros a. apply Hr.
  - eapply Forall_impl; [exact b_templates0|]. intros t Ht w Hw. by apply Hr, Ht.
  - intros w Hw r Hrow. rewrite Hf in Hrow. rewrite (net_same d) by done. destruct (find_wallet d w) eqn:E.
    + injection Hrow as <-. apply b_synced0; [tauto|done].
    + destruct (String.eqb_spec (w_id row) w); [|done]. exfalso. apply Hw. by right.
  - rewrite Hf, Hnone. by rewrite String.eqb_refl.
  - apply eq_None_not_Some. intros Hs. by apply Hunk, b_balances0.
Qed.
Lemma books_types_change S d l :
  books S d -> types_valid l = true ->
  (forall code r, type_of_code d code = Some r ->
     (exists t, t ∈ f_txns d /\ tx_deleted t = false /\ tx_type t = code) \/ tt_system r = true ->
     exists r', List.find (live_type code) l = Some r' /\ tt_flow r' = tt_flow r /\ tt_system r' = tt_system r) ->
  books S (set_types l d).
Proof.
  intros [] Hv Hl. split; try done.
  - apply Forall_forall. intros t Ht Hd. pose proof b_cover0 as Hc. rewrite Forall_forall in Hc. destruct (Hc t Ht Hd) as [r Hr].
    destruct (Hl _ _ Hr) as (r' & Hr' & _); [left; by exists t|]. by exists r'.
  - destruct b_system0 as [(r1 & H1 & S1 & F1) (r2 & H2 & S2 & F2)]. split.
    + destruct (Hl _ _ H1) as (r & Hr & Hf & Hs); [by right|]. exists r. split_and!; [done|congruence|congruence].
    + destruct (Hl _ _ H2) as (r & Hr & Hf & Hs); [by right|]. exists r. split_and!; [done|congruence|congruence].
  - intros w Hw row Hrow. assert (net (set_types l d) w = net d w) as ->; [|by apply b_synced0].
    rewrite !net_eq. apply sum_of_ext. intros t Ht. apply contribution_flow. intros Hcount.
    unfold counts in Hcount. apply andb_true_iff in Hcount as [_ Hd]. apply negb_true_iff in Hd.
    rewrite Forall_forall in b_cover0. destruct (b_cover0 t Ht Hd) as [r Hr].
    destruct (Hl _ _ Hr) as (r' & Hr' & Hf & _); [left; by exists t|].
    unfold flow_of at 1. unfold type_of_code at 1. cbn [f_types set_types]. rewrite Hr'. unfold flow_of. by rewrite Hr.
Qed.
Lemma books_templates S d l :
  books S d -> Forall (fun t => forall w, tp_wallet t = Some w -> ref_ok d w) l -> books S (set_templates l d).
Proof. intros [] Hl. by split. Qed.
Lemma books_assets S d l : books S d -> Forall (fun a => ref_ok d (as_wallet a)) l -> books S (set_assets l d).
Proof. intros [] Hl. by split. Qed.

(** *** What the insert statements leave *)
Lemma insert_books row S d id d' :
  books S d -> insert_txn row d = (Ok id, d') ->
  (forall i t, row i = Some t -> tx_id t = i /\ txn_refs d t /\ is_Some (type_of_code d (tx_type t))) ->
  exists t, row id = Some t /\ books (fun w => S w \/ (counts t = true /\ in_txn t w)) d' /\ find_txn d' id = Some t /\ canonical id.
Proof.
  intros Hb Hi Hr. unfold insert_txn, with_id in Hi. destruct (f_ids d) as [|i rest] eqn:Hids; [done|].
  destruct (row i) as [t|] eqn:Ht; [|done]. unfold write_txns in Hi. cbn [f_txns set_ids] in Hi.
  destruct (txns_valid _) eqn:Hv; [|done]. injection Hi as <- <-. exists t. destruct (Hr _ _ Ht) as (Hid & Hrefs & Hty).
  pose proof (books_ids _ _ _ _ Hb Hids) as Hb1. split_and!; [done|exact (books_insert S (set_ids rest d) t Hb1 Hv Hrefs Hty)| |].
  - unfold find_txn. cbn [f_txns set_txns]. unfold txns_valid in Hv. rewrite !andb_true_iff, !bool_decide_eq_true in Hv.
    destruct Hv as [[_ Hn] _]. rewrite map_app in Hn. apply NoDup_app in Hn as (_ & Hn & _).
    revert Hn. generalize (f_txns d). intros ts. induction ts as [|x ts IH]; intros Hn; cbn.
    + by rewrite Hid, String.eqb_refl.
    + destruct (String.eqb_spec (tx_id x) i) as [E|]; [|apply IH; intros y Hy; apply Hn; by right].
      exfalso. apply (Hn (tx_id x)); [by left|]. rewrite E, <- Hid. by left.
  - destruct Hb as []. destruct b_ids0 as [_ Hc]. rewrite Hids in Hc. by apply Forall_cons in Hc as [? _].
Qed.
Lemma ref_of_text d a u : books none d -> uuid_in a = Some u -> known d u -> ref_ok d u.
Proof. intros Hb Ha Hk. split; [by eapply uuid_canonical|done]. Qed.

(** *** The refresh restores the balances *)
Lemma refreshWalletBalance_books S a u :
  uuid_in a = Some u -> triple true (books S) (refreshWalletBalance a) (fun _ => books (fun w => S w /\ w <> u)).
Proof.
  intros Ha. apply t_stmt. intros d Hb. unfold stmt_post. rewrite Ha. destruct (find_wallet d u) as [row|] eqn:Hu.
  - destruct (fits (w_initial row + net d u)) eqn:Hf; (split; [|done]).
    + by apply books_refreshed.
    + apply books_unfit; [done|]. intros r Hr. congruence.
  - split; [|done]. apply books_unfit; [done|]. intros r Hr. congruence.
Qed.
Lemma refreshWallets_books S a to t :
  uuid_in a = Some (tx_wallet t) -> uuid_opt to = Some (tx_to t) ->
  triple true (books S) (refreshWallets a to) (fun _ => books (fun w => S w /\ ~ in_txn t w)).
Proof.
  intros Ha Hto. unfold refreshWallets. assert (a <> "") as Hne by (intros ->; by rewrite uuid_nonempty in Ha).
  rewrite (proj2 (String.eqb_neq a "") Hne). cbn [negb].
  eapply t_ignore_bind; [apply (refreshWalletBalance_books S a _ Ha)|intros _].
  destruct to as [b|]; cbn in Hto.
  - destruct (uuid_in b) as [v|] eqn:Hb; [|done]. injection Hto as Hto.
    assert (b <> "") as Hbne by (intros ->; by rewrite uuid_nonempty in Hb).
    rewrite (proj2 (String.eqb_neq b "") Hbne). cbn [negb andb]. destruct (String.eqb_spec b a) as [->|]; cbn [negb].
    + apply t_ret. intros d Hd. eapply books_mono; [exact Hd|]. intros w [Hw Hn]. split; [done|]. unfold in_txn. rewrite <- Hto. naive_solver.
    + apply t_ignore. eapply t_conseq; [eapply (refreshWalletBalance_books _ b v Hb)|intros d Hd; exact Hd|].
      intros r d Hd. eapply books_mono; [exact Hd|]. cbn. intros w [[Hw Hn] Hv]. split; [done|]. unfold in_txn. rewrite <- Hto. naive_solver.
  - injection Hto as Hto. apply t_ret. intros d Hd. eapply books_mono; [exact Hd|]. intros w [Hw Hn]. split; [done|]. unfold in_txn. rewrite <- Hto. naive_solver.
Qed.
End books.

(** ** Every handler keeps the books, when nothing fails *)
Section handlers.
Context `{HI : PgInput} `{HT : TimeZones} `{HL : !PgInputLaws}.
Abbreviation leaves P m := (triple true P m (fun _ => books none)).

Lemma audit_books S u e i a : triple true (books S) (auditFinance u e i a) (fun _ => books S).
Proof.
  apply t_ignore, t_stmt. intros d Hd. unfold stmt_post. destruct (uuid_in i), (uuid_in (AccountID u)); (split; [|done]); try done.
  eapply books_same; [|exact Hd]. by repeat split.
Qed.
Lemma events_books S u ev n now : triple true (books S) (RecordEvents u ev n now) (fun _ => books S).
Proof.
  apply t_ignore. destruct (validateSchema _); [by apply t_throw|].
  eapply t_seq; [|intros _]; (apply t_stmt; intros d Hd; split; [eapply books_same; [|exact Hd]; by repeat split|done]).
Qed.
Lemma usage_books S u ev now : triple true (books S) (RecordUsage u ev now) (fun _ => books S).
Proof. apply events_books. Qed.
Lemma or_else_triple {A} (P : fin_db -> Prop) wrap (m : fin A) Q :
  triple true P m (fun r d => match r with Ok a => Q (Ok a) d | Err e => Q (Err (wrap e)) d end) -> triple true P (or_else wrap m) Q.
Proof.
  intros Hm. eapply t_bind; [apply (t_attempt _ _ _ (fun r d => match r with Ok (Ok a) => Q (Ok a) d | Ok (Err e) => Q (Err (wrap e)) d | Err _ => False end))|..].
  - eapply t_conseq; [exact Hm|done|]. by intros [a|e] d.
  - intros [a|e]; [apply t_ret|apply t_throw]; auto.
  - done.
Qed.
(** only the wallets of [t] may be off: a refresh repairs them *)
Definition posted (t : txn_row) : fin_db -> Prop := books (fun w => counts t = true /\ in_txn t w).
Lemma posted_uncounted t d : posted t d -> counts t = false -> books none d.
Proof. intros H Hc. eapply books_mono; [exact H|]. intros w [Hw _]. congruence. Qed.
Lemma refresh_in t a to :
  uuid_in a = Some (tx_wallet t) -> uuid_opt to = Some (tx_to t) -> leaves (books (in_txn t)) (refreshWallets a to).
Proof.
  intros Ha Hto. eapply t_conseq; [eapply refreshWallets_books; [exact Ha|exact Hto]|intros d Hd; exact Hd|].
  cbn. intros r d Hd. eapply books_mono; [exact Hd|]. cbn. tauto.
Qed.
Lemma refresh_posted t a to :
  uuid_in a = Some (tx_wallet t) -> uuid_opt to = Some (tx_to t) -> leaves (posted t) (refreshWallets a to).
Proof.
  intros Ha Hto. eapply t_conseq; [by apply (refresh_in t)| |done]. intros d Hd. eapply books_mono; [exact Hd|]. cbn. tauto.
Qed.
Lemma refresh_row S t : txn_refs S t -> leaves (books (in_txn t)) (refreshWallets (tx_wallet t) (tx_to t)).
Proof.
  intros [[Hw _] Hto]. apply refresh_in; [done|]. destruct (tx_to t) as [u|]; [|done]. cbn. destruct (Hto u eq_refl) as [Hc _]. by rewrite Hc.
Qed.
(** the row [t] is found under its id, up to columns that do not matter to the refresh *)
Definition row_at (d : fin_db) (id : string) (t : txn_row) : Prop :=
  exists i t', uuid_in id = Some i /\ find_txn d i = Some t' /\ tx_wallet t' = tx_wallet t /\ tx_to t' = tx_to t.
Lemma reload_txn (P : fin_db -> Prop) id t :
  triple true (fun d => P d /\ row_at d id t)
    (attempt (uquery id (fun i d => (fun t => (tx_wallet t, tx_to t)) <$> find_txn d i)))
    (fun r d => P d /\ r = Ok (Ok (tx_wallet t, tx_to t))).
Proof.
  apply t_attempt, t_stmt. intros d [HP (i & t' & Hi & Ht & Hw & Hto)]. unfold stmt_post. rewrite Hi, Ht. cbn. rewrite Hw, Hto. done.
Qed.
Lemma insert_post row d :
  books none d -> (forall i t, row i = Some t -> tx_id t = i /\ txn_refs d t /\ is_Some (type_of_code d (tx_type t))) ->
  match insert_txn row d with
  | (Ok id, d') => exists t, row id = Some t /\ posted t d' /\ find_txn d' id = Some t /\ canonical id
  | (Err _, _) => True
  end.
Proof.
  intros Hb Hr. destruct (insert_txn row d) as [[id|e] d'] eqn:E; [|done].
  destruct (insert_books row none d id d' Hb E Hr) as (t & Ht & Hd & Hf & Hc). exists t. split_and!; try done.
  eapply books_mono; [exact Hd|]. cbn. intros w [[]|]; done.
Qed.

(** *** Transactions *)
Definition names_known (d : fin_db) (a : string) : Prop := forall w, uuid_in a = Some w -> known d w.
Lemma txn_of_params_ok u p date status d :
  books none d -> names_known d (TP_WalletID p) -> (forall a, TP_ToWalletID p = Some a -> names_known d a) ->
  type_of_code d (TP_Type p) <> None -> forall i t, txn_of_params u p date status i = Some t ->
  tx_id t = i /\ txn_refs d t /\ is_Some (type_of_code d (tx_type t)) /\
  uuid_in (TP_WalletID p) = Some (tx_wallet t) /\ uuid_opt (TP_ToWalletID p) = Some (tx_to t) /\ tx_status t = status.
Proof.
  intros Hb Hw Hto Hty i t Ht. unfold txn_of_params in Ht.
  destruct (numeric_in 2 _); [|done]. destruct (uuid_in (TP_WalletID p)) as [w|] eqn:Ew; [|done].
  destruct (uuid_opt (TP_ToWalletID p)) as [to|] eqn:Eto; [|done]. destruct (uuid_opt (TP_CategoryID p)); [|done].
  destruct (date_in date); [|done]. destruct (uuid_in (AccountID u)); [|done]. injection Ht as <-. cbn.
  split_and!; try done; [|by apply not_eq_None_Some]. split.
  - eapply ref_of_text; [done|exact Ew|by apply Hw].
  - cbn. intros v ->. unfold uuid_opt in Eto. destruct (TP_ToWalletID p) as [a|]; [|done].
    destruct (uuid_in a) as [v'|] eqn:Ea; [|done]. injection Eto as ->. eapply ref_of_text; [done|exact Ea|]. by apply (Hto a).
Qed.
Lemma CreateTransaction_books u p now :
  leaves (fun d => books none d /\ names_known d (TP_WalletID p) /\ forall a, TP_ToWalletID p = Some a -> names_known d a)
    (CreateTransaction u p now).
Proof.
  unfold CreateTransaction. do 3 rd. eapply t_reads_any; [auto with reads|intros date|cbn; tauto].
  eapply t_reads_bind; [apply reads_type|intros ty|cbn; tauto]. do 3 rd.
  eapply t_reads_any; [auto with reads|intros status|cbn; tauto]. rd.
  eapply t_bind with (R := fun r d => match r with
    | Ok id => exists t, posted t d /\ uuid_in (TP_WalletID p) = Some (tx_wallet t) /\ uuid_opt (TP_ToWalletID p) = Some (tx_to t) /\ tx_status t = status
    | Err _ => books none d end).
  - apply (t_in_tx _ _ _ _ (insert_txn (txn_of_params a p date status))).
    + intros w. unfold or_internal, or_else, bind, attempt. by destruct (stmt _ w) as [[x|e] w'].
    + intros d ((Hb & Hw & Hto) & Hty). pose proof (txn_of_params_ok a p date status d Hb Hw Hto Hty) as Hok.
      pose proof (insert_post (txn_of_params a p date status) d Hb) as Hp. destruct (insert_txn _ d) as [[id|e] d'] eqn:E; [|done].
      split; [|done]. destruct Hp as (t & Ht & Hpost & _); [intros i t Ht; destruct (Hok i t Ht); tauto|].
      destruct (Hok _ _ Ht). exists t. tauto.
  - intros id. cbn. apply t_exists. intros t. apply (t_pure _ (posted t)). intros (Ha & Hto & Hs).
    eapply t_seq.
    + apply t_if; [intros _; by apply refresh_posted|intros Hst]. apply t_ret. intros d Hd. eapply posted_uncounted; [exact Hd|].
      unfold counts. rewrite Hs, Hst. done.
    + intros _. eapply t_seq; [apply usage_books|intros _]. eapply t_seq; [apply audit_books|intros _]. by apply t_ret.
  - done.
Qed.

Lemma find_live_txn_elem d i t : find_live_txn d i = Some t -> t ∈ f_txns d /\ tx_id t = i /\ tx_deleted t = false.
Proof.
  intros H. apply find_some in H as [H Hl]. unfold live_txn in Hl. apply andb_true_iff in Hl as [Hi Hd].
  split_and!; [by apply list_elem_of_In|by apply String.eqb_eq|by apply negb_true_iff].
Qed.
Lemma find_txn_map d i f : keeps_place f ->
  find_txn (set_txns (map (fun x => if String.eqb (tx_id x) i then f x else x) (f_txns d)) d) i = f <$> find_txn d i.
Proof.
  intros Hf. unfold find_txn. cbn [f_txns set_txns]. induction (f_txns d) as [|x l IH]; [done|]. cbn.
  destruct (String.eqb (tx_id x) i) eqn:E; cbn; [destruct (Hf x) as (-> & _)|]; by rewrite E.
Qed.
Lemma find_txn_elem d t : txns_valid (f_txns d) = true -> t ∈ f_txns d -> find_txn d (tx_id t) = Some t.
Proof.
  intros Hv Ht. unfold find_txn. destruct (List.find _ _) as [x|] eqn:E.
  - apply find_some in E as [Hx E]. apply String.eqb_eq in E. f_equal. by apply (same_txn_id d); [done|apply list_elem_of_In|..].
  - apply list_elem_of_In in Ht. pose proof (find_none _ _ E _ Ht) as H. cbn in H. by rewrite String.eqb_refl in H.
Qed.
Lemma update_post d i f t :
  books none d -> t ∈ f_txns d -> tx_id t = i -> keeps_place f ->
  match update_txn i f d with
  | (Ok _, d') => books (fun w => contribution (flow_of d) w (f t) <> contribution (flow_of d) w t) d' /\ (forall id, uuid_in id = Some i -> row_at d' id t)
  | (Err _, _) => True
  end.
Proof.
  intros Hb Ht Hi Hf. unfold update_txn, write_txns. destruct (txns_valid _) eqn:Hv; [|done]. split.
  - eapply books_mono; [by apply books_update|]. cbn. intros w [[]|]; done.
  - intros id Hid. exists i, (f t). destruct (Hf t) as (_ & ? & ? & _). split_and!; [done| |done|done].
    rewrite find_txn_map by done. rewrite <- Hi, find_txn_elem; [done|apply Hb|done].
Qed.
Lemma contribution_in_txn fl f t w : keeps_place f -> contribution fl w (f t) <> contribution fl w t -> in_txn t w.
Proof.
  intros Hf H. destruct (touches w t) eqn:E; [by apply touches_spec|]. exfalso. apply H.
  rewrite !contribution_untouched; [done|done|]. destruct (Hf t) as (_ & H1 & H2 & _). unfold touches, is_to in *. by rewrite H1, H2.
Qed.
(** what the first look at a transaction finds *)
Definition looked_up (id : string) (t : txn_row) (d : fin_db) : Prop := t ∈ f_txns d /\ uuid_in id = Some (tx_id t).
Lemma looked_up_live id t d : (exists i, uuid_in id = Some i /\ find_live_txn d i = Some t) -> looked_up id t d.
Proof. intros (i & Hi & Ht). apply find_live_txn_elem in Ht as (H1 & H2 & _). split; [exact H1|congruence]. Qed.
Lemma update_txn_row_place owner p f : update_txn_row owner p = Some f -> keeps_place f.
Proof. unfold update_txn_row. intros H x. repeat case_on H; try done. injection H as <-. cbn. tauto. Qed.
Lemma update_txn_row_amount owner p f t :
  update_txn_row owner p = Some f -> UP_Amount p = None -> tx_amount (f t) = tx_amount t /\ tx_status (f t) = tx_status t /\ tx_deleted (f t) = tx_deleted t.
Proof. unfold update_txn_row. intros H Ha. rewrite Ha in H. destruct owner; cbn in H; repeat case_on H; try done; by injection H as <-. Qed.
Lemma update_txn_row_status owner p f t :
  update_txn_row owner p = Some f -> tx_status (f t) = tx_status t.
Proof. unfold update_txn_row. intros H. repeat case_on H; try done; by injection H as <-. Qed.
Lemma contribution_same fl w f t : keeps_place f -> tx_amount (f t) = tx_amount t -> tx_status (f t) = tx_status t -> tx_deleted (f t) = tx_deleted t ->
  contribution fl w (f t) = contribution fl w t.
Proof.
  intros Hf H1 H2 H3. destruct (Hf t) as (_ & E1 & E2 & E3 & _). unfold contribution, touches, counts, credit, debit, is_to. by rewrite E1, E2, E3, H1, H2, H3.
Qed.
Lemma UpdateTransaction_books u id p now : leaves (books none) (UpdateTransaction u id p now).
Proof.
  unfold UpdateTransaction. do 2 rd. eapply t_reads_bind; [apply reads_attempt, reads_uquery|intros [t|e]|cbn; tauto].
  2: { apply t_if; intros _; apply t_throw; tauto. }
  apply t_conseq with (P := fun d => books none d /\ looked_up id t d) (Q := fun _ => books none); [|intros d [Hb H]; split; [done|]; apply looked_up_live, (H t eq_refl)|done].
  do 4 rd. eapply t_bind with (R := fun r d => match r with
    | Ok _ => row_at d id t /\ (exists d0, txn_refs d0 t) /\ books (in_txn t) d /\
        ((UP_Amount p = None \/ tx_status t <> "approved") -> books none d)
    | Err _ => books none d end).
  - apply or_else_triple, t_stmt. intros d [Hb Hl]. unfold stmt_post. destruct Hl as [Ht Hi]. rewrite Hi.
    destruct (update_txn_row (isOwner a) p) as [f|] eqn:Ef; [|done]. pose proof (update_txn_row_place _ _ _ Ef) as Hf.
    pose proof (update_post d (tx_id t) f t Hb Ht eq_refl Hf) as H. destruct (update_txn (tx_id t) f d) as [[x|e] d'] eqn:Eu; [|done]. split; [|done].
    destruct H as [Hb' Hrow]. split_and!.
    + by apply Hrow.
    + exists d. destruct Hb as []. rewrite Forall_forall in b_refs0. by apply b_refs0.
    + eapply books_mono; [exact Hb'|]. intros w Hw. eapply contribution_in_txn; [exact Hf|exact Hw].
    + intros Hsame. eapply books_mono; [exact Hb'|]. intros w Hw. apply Hw. destruct Hsame as [Ha|Hs].
      * destruct (update_txn_row_amount _ _ _ t Ef Ha) as (? & ? & ?). by apply contribution_same.
      * assert (forall y, tx_status y = tx_status t -> counts y = false) as Hn.
        { intros y Hy. unfold counts. rewrite Hy. apply andb_false_iff. left. by apply String.eqb_neq. }
        rewrite !contribution_uncounted; [done|by apply Hn|apply Hn; by eapply update_txn_row_status].
  - intros x. eapply t_seq; [|intros y; eapply t_seq; [apply audit_books|intros z; by apply t_ret]].
    apply t_if.
    + intros Hc. eapply t_bind with (R := fun r d => ((exists d0, txn_refs d0 t) /\ books (in_txn t) d) /\ r = Ok (Ok (tx_wallet t, tx_to t))).
      * eapply t_conseq; [apply (reload_txn (fun d => (exists d0, txn_refs d0 t) /\ books (in_txn t) d))|intros d (H1 & H2 & H3 & _); split; [split; [exact H2|exact H3]|exact H1]|done].
      * intros r. apply t_pure. intros [= ->]. eapply t_conseq; [apply (t_pure _ (books (in_txn t)) (exists d0, txn_refs d0 t)); intros [d0 Hr]; by apply (refresh_row d0)|intros d [H1 H2]; by split|done].
      * intros e d [_ Hr]. done.
    + intros Hc. apply t_ret. intros d (_ & _ & _ & H). apply H. apply andb_false_iff in Hc as [Hc|Hc].
      * apply orb_false_iff in Hc as [Hc _]. apply bool_decide_eq_false_1 in Hc. left. by apply eq_None_not_Some.
      * right. by apply String.eqb_neq.
  - done.
Qed.
End handlers.
