(* ===== verification/FinBooks.v ===== *)
(** * Every finance call keeps the books

    The remaining handlers over FinLedger.v's invariant, the calls as data with
    their histories, and the theorems about balances. *)
From S2P Require Import Prelude GoStrings AdminSession PgTx Triples DaySlots Dates Float64 Billing Recurring FinTables FinTxns FinAssets FinPosting FinLedger.

Open Scope string_scope.
Open Scope Z_scope.

Section handlers.
Context `{HI : PgInput} `{HT : TimeZones} `{HL : !PgInputLaws}.
Abbreviation leaves P m := (triple true P m (fun _ => books none)).

(** ** Deleting, approving and copying transactions *)
Lemma refs_of d t : books none d -> t ∈ f_txns d -> txn_refs d t.
Proof. intros Hb Ht. pose proof (b_refs _ _ Hb) as H. rewrite Forall_forall in H. by apply H. Qed.
Lemma remove_id_books d i t :
  books none d -> t ∈ f_txns d -> tx_id t = i ->
  books (in_txn t) (set_txns (List.filter (fun t => negb (String.eqb (tx_id t) i)) (f_txns d)) d).
Proof.
  intros Hb Ht Hi. apply (books_remove none); [done|done|]. intros x w Hx Hf Hw. apply negb_false_iff, String.eqb_eq in Hf.
  assert (x = t) as -> by (eapply same_txn_id; [apply Hb|done|done|congruence]). apply contribution_untouched, not_true_iff_false.
  by rewrite touches_spec.
Qed.
Lemma DeleteTransaction_books u id now : leaves (books none) (DeleteTransaction u id now).
Proof.
  unfold DeleteTransaction. do 2 rd.
  eapply t_reads_bind; [apply reads_or_else, reads_uquery|intros t|cbn; tauto].
  eapply t_conseq with (P := fun d => books none d /\ looked_up id t d); [|intros d [Hb H]; split; [done|by apply looked_up_live]|intros r d H; exact H].
  rd. eapply t_ignore_bind with (R := fun d => books (in_txn t) d /\ exists d0, txn_refs d0 t).
  - apply t_stmt. intros d [Hb Hl]. unfold stmt_post. destruct Hl as [Ht Hi]. rewrite Hi.
    split; [|done]. split; [by apply remove_id_books|]. exists d. by apply refs_of.
  - intros _. eapply t_seq; [|intros _; eapply t_conseq; [apply audit_books|done|done]].
    apply t_pure. intros [d0 Hr]. by apply (refresh_row d0).
Qed.
Lemma decide_txn_place s by_ r : keeps_place (decide_txn s by_ r).
Proof. intros x. cbn. tauto. Qed.
Lemma ApproveTransaction_books u id action reason : leaves (books none) (ApproveTransaction u id action reason).
Proof.
  unfold ApproveTransaction. rd. apply t_if; [intros _; by apply t_throw|intros _]. rd.
  eapply t_reads_bind; [apply reads_or_else, reads_uquery|intros t|cbn; tauto].
  eapply t_conseq with (P := fun d => books none d /\ looked_up id t d); [|intros d [Hb H]; split; [done|by apply looked_up_live]|intros r d H; exact H].
  apply t_if; [intros _; apply t_throw; tauto|intros Hst]. apply negb_false_iff, String.eqb_eq in Hst.
  set (st := if String.eqb action "reject" then "rejected" else "approved").
  eapply t_bind with (R := fun r d => match r with
    | Ok _ => (exists d0, txn_refs d0 t) /\ books (in_txn t) d /\ (String.eqb st "approved" = false -> books none d)
    | Err _ => books none d end).
  - apply or_else_triple, t_stmt. intros d [Hb Hl]. unfold stmt_post. destruct Hl as [Ht Hi]. rewrite Hi.
    destruct (uuid_in (AccountID a)) as [by_|]; [|done].
    pose proof (update_post d (tx_id t) _ t Hb Ht eq_refl (decide_txn_place st by_ reason)) as H. destruct (update_txn _ _ d) as [[x|e] d']; [|done].
    split; [|done]. destruct H as [Hb' _]. split_and!; [exists d; by apply refs_of| |].
    + eapply books_mono; [exact Hb'|]. intros w Hw. eapply contribution_in_txn; [apply decide_txn_place|exact Hw].
    + intros Hrej. eapply books_mono; [exact Hb'|]. intros w Hw. apply Hw.
      rewrite !contribution_uncounted; [done|unfold counts; by rewrite Hst|unfold counts; cbn [tx_status decide_txn]; by rewrite Hrej].
  - intros x. eapply t_seq; [|intros y; eapply t_seq; [apply audit_books|intros z; by apply t_ret]]. apply t_if.
    + intros _. eapply t_conseq; [apply (t_pure _ (books (in_txn t)) (exists d0, txn_refs d0 t)); intros [d0 Hr]; by apply (refresh_row d0)|intros d (H1 & H2 & _); by split|done].
    + intros Hs. apply t_ret. intros d (_ & _ & H). by apply H.
  - done.
Qed.
Lemma delete_txn_place : keeps_place delete_txn_row.
Proof. intros x. cbn. tauto. Qed.
Lemma DeleteAssetTrade_books u id txnId now : leaves (books none) (DeleteAssetTrade u id txnId now).
Proof.
  unfold DeleteAssetTrade. rd. apply t_if; [intros _; by apply t_throw|intros _]. rd.
  eapply t_reads_bind with (F := fun d r => forall t, r = Ok t -> looked_up txnId t d).
  - apply reads_attempt, reads_stmt. intros d. destruct (uuid_in txnId) as [i|] eqn:Hi, (uuid_in id) as [x|]; try done.
    destruct (List.find _ _) as [t|] eqn:Ef; [|done]. split; [done|]. apply find_some in Ef as [Hin Hl].
    apply andb_true_iff in Hl as [Hl _]. apply andb_true_iff in Hl as [Hl _]. apply String.eqb_eq in Hl.
    split; [by apply list_elem_of_In|]. by rewrite Hi, Hl.
  - intros [t|e]; [|apply t_if; intros _; apply t_throw; tauto].
    eapply t_conseq with (P := fun d => books none d /\ looked_up txnId t d); [|intros d [Hb H]; split; [done|by apply H]|intros r d H; exact H].
    apply t_if; [intros _; apply t_throw; tauto|intros _]. rd.
    eapply t_bind with (R := fun r d => match r with Ok _ => books (in_txn t) d /\ exists d0, txn_refs d0 t | Err _ => books none d end).
    + apply or_else_triple, t_stmt. intros d [Hb Hl]. unfold stmt_post. destruct Hl as [Ht Hi]. rewrite Hi.
      destruct (uuid_in (AccountID a)) as [by_|]; [|done].
      pose proof (update_post d (tx_id t) _ t Hb Ht eq_refl delete_txn_place) as H. destruct (update_txn _ _ d) as [[x|e] d']; [|done].
      split; [|done]. destruct H as [Hb' _]. split; [|exists d; by apply refs_of].
      eapply books_mono; [exact Hb'|]. intros w Hw. eapply contribution_in_txn; [apply delete_txn_place|exact Hw].
    + intros x. eapply t_seq; [|intros y; apply audit_books]. apply t_pure. intros [d0 Hr]. by apply (refresh_row d0).
    + done.
  - cbn; tauto.
Qed.

Lemma refresh_txn t newID :
  leaves (fun d => books (in_txn t) d /\ row_at d newID t /\ exists d0, txn_refs d0 t) (refreshWalletsForTransaction newID).
Proof.
  unfold refreshWalletsForTransaction.
  eapply t_bind with (R := fun r d => ((exists d0, txn_refs d0 t) /\ books (in_txn t) d) /\ r = Ok (Ok (tx_wallet t, tx_to t))).
  - eapply t_conseq; [apply (reload_txn (fun d => (exists d0, txn_refs d0 t) /\ books (in_txn t) d))|intros d (H1 & H2 & H3); split; [by split|exact H2]|done].
  - intros r. apply t_pure. intros [= ->]. eapply t_conseq; [apply (t_pure _ (books (in_txn t)) (exists d0, txn_refs d0 t)); intros [d0 Hr]; by apply (refresh_row d0)|intros d [H1 H2]; by split|done].
  - by intros e d [_ ?].
Qed.
Lemma duplicate_one_post u date id d :
  books none d ->
  stmt_post true (fun d => match uuid_in id with
      | Some i => match date_in date, uuid_in (AccountID u) with
          | Some day, Some by_ => match find_live_txn d i with
              | None => (Err no_rows, d)
              | Some t => insert_txn (fun new => Some (duplicate_of t day by_ new)) d
              end
          | _, _ => (Err bad_input, d)
          end
      | None => (Err bad_input, d)
      end) (fun r d => match r with
      | Ok new => exists t, books (in_txn t) d /\ row_at d new t /\ exists d0, txn_refs d0 t
      | Err _ => books none d end) d.
Proof.
  intros Hb. unfold stmt_post. destruct (uuid_in id) as [i|]; [|done]. destruct (date_in date) as [day|]; [|done].
  destruct (uuid_in (AccountID u)) as [by_|]; [|done]. destruct (find_live_txn d i) as [t|] eqn:Ef; [|done].
  apply find_live_txn_elem in Ef as (Hin & _ & Hlive). pose proof (refs_of _ _ Hb Hin) as Hr.
  pose proof (b_cover _ _ Hb) as Hcov. rewrite Forall_forall in Hcov. specialize (Hcov t Hin Hlive).
  pose proof (insert_post (fun new => Some (duplicate_of t day by_ new)) d Hb) as Hp.
  destruct (insert_txn _ d) as [[new|e] d']; [|done]. split; [|done].
  destruct Hp as (t' & [= <-] & Hpost & Hfind & Hc); [intros i' t'' [= <-]; by split_and!|].
  exists t. split_and!; [|by exists new, (duplicate_of t day by_ new)|by exists d].
  eapply books_mono; [exact Hpost|]. by intros w [_ Hw].
Qed.
Lemma duplicate_loop_books u date ids n : leaves (books none) (duplicate_loop u date ids n).
Proof.
  revert n. induction ids as [|id rest IH]; intros n; cbn [duplicate_loop]; [by apply t_ret|].
  eapply t_bind with (R := fun r d => match r with
    | Ok (Ok new) => exists t, books (in_txn t) d /\ row_at d new t /\ exists d0, txn_refs d0 t
    | Ok (Err _) => books none d | Err _ => False end).
  - apply t_attempt. eapply t_conseq; [apply t_stmt; intros d Hd; by apply duplicate_one_post|done|]. by intros [x|e] d.
  - intros [new|e]; [|apply IH]. eapply t_seq; [|intros _; apply IH]. apply t_exists. intros t. apply refresh_txn.
  - done.
Qed.
Lemma DuplicateTransactions_books u ids date now : leaves (books none) (DuplicateTransactions u ids date now).
Proof.
  unfold DuplicateTransactions. rd. repeat (apply t_if; intros _; [by apply t_throw|]). do 2 rd. apply duplicate_loop_books.
Qed.

(** ** Settings and locks *)
Lemma t_same {A} (f : fin_db -> result A * fin_db) :
  (forall d, match f d with (Ok _, d') => same_books d d' | _ => True end) -> leaves (books none) (stmt f).
Proof.
  intros Hf. apply t_stmt. intros d Hd. specialize (Hf d). unfold stmt_post. destruct (f d) as [[a|e] d']; [|done].
  split; [|done]. by eapply books_same.
Qed.
Lemma or_internal_leaves {A} P (m : fin A) : leaves P m -> leaves P (or_internal m).
Proof. intros Hm. apply or_else_triple. eapply t_conseq; [exact Hm|done|]. by intros [x|e] d. Qed.
Lemma UpdateApprovalSetting_books u p : leaves (books none) (UpdateApprovalSetting u p).
Proof.
  unfold UpdateApprovalSetting. do 2 rd. eapply t_seq; [apply or_internal_leaves, t_same|intros _; by apply t_ret].
  intros d. destruct (convert _ _); [|done]. by destruct (uuid_in (AccountID a)).
Qed.
Lemma LockPeriod_books u period : leaves (books none) (LockPeriod u period).
Proof.
  unfold LockPeriod. do 2 rd. eapply t_seq; [apply or_internal_leaves, t_same|intros _; apply audit_books].
  intros d. destruct (uuid_in (AccountID a)); [|done]. by destruct (existsb _ _).
Qed.
(** categories draw ids, nothing else *)
Lemma CreateCategory_books u p : leaves (books none) (CreateCategory u p).
Proof.
  unfold CreateCategory. rd. apply t_if; [intros _; by apply t_throw|intros _]. rd. apply or_internal_leaves, t_stmt.
  intros d Hd. unfold stmt_post, with_id. destruct (f_ids d) as [|id rest] eqn:Hids; [done|].
  destruct (uuid_opt _); [|done]. destruct (existsb _ _); [done|]. split; [|done].
  eapply books_same; [|by eapply books_ids]. done.
Qed.
Lemma DeleteCategory_books u id : leaves (books none) (DeleteCategory u id).
Proof.
  unfold DeleteCategory. do 2 rd. eapply t_reads_any; [eapply reads_any, reads_attempt, reads_uquery|intros [[|]|e]|cbn; tauto].
  - by apply t_throw.
  - eapply t_seq; [apply or_internal_leaves, t_same|intros n; apply t_if; intros _; [by apply t_throw|by apply t_ret]].
    intros d. by destruct (uuid_in id).
  - apply t_if; intros _; by apply t_throw.
Qed.

(** ** Wallets *)
Lemma find_map_keep {A} (key : A -> string) (g : A -> A) (l : list A) u :
  (forall x, key (g x) = key x) ->
  List.find (fun x => String.eqb (key x) u) (map g l) = g <$> List.find (fun x => String.eqb (key x) u) l.
Proof. intros Hg. induction l as [|x l IH]; [done|]. cbn. rewrite Hg. by destruct (String.eqb (key x) u). Qed.
Lemma update_wallet_books S f id d :
  (forall w, w_id (f w) = w_id w /\ w_initial (f w) = w_initial w) -> books S d -> books S (update_wallet f id d).
Proof.
  intros Hf Hb. apply books_wallets; [done|]. intros u. unfold find_wallet.
  rewrite find_map_keep; [|intros x; destruct (_ && _); [apply Hf|done]].
  destruct (List.find _ _) as [r|]; cbn; [|done]. destruct (_ && _); [apply Hf|done].
Qed.
Lemma CreateWallet_books u p now : leaves (books none) (CreateWallet u p now).
Proof.
  unfold CreateWallet. rd. repeat (apply t_if; intros _; [by apply t_throw|]). rd.
  eapply t_bind with (R := fun r d => match r with
    | Ok id => exists row, (books (fun w => w = id) d /\ find_wallet d id = Some row /\ net d id = 0 /\ f_balances d !! id = None) /\
                 numeric_in 2 (CW_InitialBalance p) = Some (w_initial row)
    | Err _ => books none d end).
  - apply or_else_triple, t_stmt. intros d Hb. unfold stmt_post, insert_wallet, with_id.
    destruct (f_ids d) as [|id rest] eqn:Hids; [done|]. destruct (numeric_in 2 _) as [b|]; [|done].
    destruct (uuid_in (AccountID a)); [|done]. cbn [f_wallets set_ids]. destruct (existsb _ _) eqn:Hex; [done|]. split; [|done].
    exists (wallet_of p now b id). destruct (books_new_wallet none d (wallet_of p now b id) rest Hb Hids Hex) as (H1 & H2 & H3 & H4).
    split_and!; try done. eapply books_mono; [exact H1|]. by intros w [[]| ->].
  - intros id. eapply t_seq; [|intros _; eapply t_seq; [apply audit_books|intros _; by apply t_ret]].
    apply t_exists. intros row. apply t_pure. intros Hn. apply t_ignore, t_stmt. intros d (Hb & Hf & Hnet & Hbal).
    unfold stmt_post. rewrite Hn, Hbal. split; [|done].
    pose proof (books_refreshed _ d id row Hb Hf) as H. rewrite Hnet, Z.add_0_r in H. eapply books_mono; [exact H|]. by intros w [-> ?].
  - done.
Qed.
Lemma t_exec_books S id f : (forall i d, books S d -> books S (f i d)) -> triple true (books S) (uexec id f) (fun _ => books S).
Proof. intros Hf. apply t_stmt. intros d Hd. unfold stmt_post. destruct (uuid_in id); [|done]. split; [by apply Hf|done]. Qed.
Lemma UpdateWallet_books u id p : leaves (books none) (UpdateWallet u id p).
Proof.
  unfold UpdateWallet. do 2 rd. repeat (apply t_if; intros _; [by apply t_throw|]).
  eapply t_seq; [apply or_internal_leaves, t_exec_books|intros _; apply audit_books]. intros i d. by apply update_wallet_books.
Qed.
Lemma DeleteWallet_books u id : leaves (books none) (DeleteWallet u id).
Proof.
  unfold DeleteWallet. rd. apply t_if; [intros _; by apply t_throw|intros _]. rd.
  eapply t_reads_any; [eapply reads_any, reads_or_else, reads_uread|intros ex|cbn; tauto]. apply t_if; [intros _; by apply t_throw|intros _]. rd.
  eapply t_seq; [apply or_internal_leaves, t_stmt|intros n; apply t_if; intros _; [by apply t_throw|apply audit_books]].
  intros d Hd. unfold stmt_post. destruct (uuid_in id); [|done]. split; [by apply update_wallet_books|done].
Qed.

(** ** Transaction types *)
Lemma find_map_type (g : type_row -> type_row) l code r :
  List.find (live_type code) l = Some r -> (forall x, live_type code (g x) = true -> live_type code x = true) ->
  live_type code (g r) = true -> List.find (live_type code) (map g l) = Some (g r).
Proof.
  intros Hf Hg Hr. induction l as [|x l IH]; [done|]. cbn in *. destruct (live_type code x) eqn:E.
  - injection Hf as ->. by rewrite Hr.
  - destruct (live_type code (g x)) eqn:E'; [by rewrite (Hg _ E') in E|]. by apply IH.
Qed.
(** ids kept, rows of a code at most deleted *)
Lemma types_valid_map g l :
  (forall x, tt_id (g x) = tt_id x /\ (type_ref (g x) = type_ref x \/ type_ref (g x) = None)) ->
  types_valid l = true -> types_valid (map g l) = true.
Proof.
  intros Hg. unfold types_valid. rewrite !andb_true_iff, !bool_decide_eq_true. intros [H1 H2]. split.
  - rewrite map_map. erewrite map_ext; [exact H1|]. intros x. apply Hg.
  - clear H1. induction l as [|x l IH]; [done|]. cbn in *.
    assert (NoDup (omap type_ref l)) as H by (by destruct (type_ref x); [apply NoDup_cons in H2 as [_ ?]|]).
    destruct (Hg x) as [_ [Hx|Hx]]; rewrite Hx; [|by apply IH]. destruct (type_ref x) as [c|] eqn:E; [|by apply IH].
    apply NoDup_cons in H2 as [Hn _]. constructor; [|by apply IH]. intros Hin. apply Hn.
    apply list_elem_of_omap in Hin as (y & Hy & Hc). apply list_elem_of_omap.
    apply list_elem_of_In, in_map_iff in Hy as (z & <- & Hz). exists z. split; [by apply list_elem_of_In|].
    destruct (Hg z) as [_ [Hz'|Hz']]; congruence.
Qed.
Lemma CreateTransactionType_books u p : leaves (books none) (CreateTransactionType u p).
Proof.
  unfold CreateTransactionType. do 3 rd. eapply t_reads_any; [eapply reads_any, reads_attempt, reads_read|intros found|cbn; tauto].
  apply t_if; [intros _; by apply t_throw|intros _]. eapply t_seq; [apply or_internal_leaves, t_stmt|].
  - intros d Hb. unfold stmt_post, insert_type, with_id. destruct (f_ids d) as [|id rest] eqn:Hids; [done|]. cbn [f_types set_ids].
    destruct (types_valid _) eqn:Hv; [|done]. split; [|done]. apply books_types_change; [by eapply books_ids|done|].
    intros code r Hr _. exists r. split_and!; [|done..]. unfold type_of_code in Hr. cbn [f_types set_ids] in Hr.
    revert Hr. generalize (f_types d). intros l. induction l as [|x l IH]; [done|]. cbn. by destruct (live_type code x).
  - intros id. eapply t_reads; [eapply reads_or_else, reads_uquery|by intros|done].
Qed.
Lemma edit_types_books id p : UT_Flow p = None -> leaves (books none) (edit_types id p).
Proof.
  intros Hp. apply t_ignore, t_exec_books. intros i d Hb. apply books_types_change; [done| |].
  - apply types_valid_map; [|apply Hb]. intros x. destruct (String.eqb (tt_id x) i); cbn; auto.
  - intros code r Hr _. set (g := fun r => if String.eqb (tt_id r) i then edit_type p r else r).
    assert (forall x, live_type code (g x) = live_type code x /\ tt_flow (g x) = tt_flow x /\ tt_system (g x) = tt_system x) as Hg.
    { intros x. unfold g. destruct (String.eqb _ _); [|done]. cbn. by rewrite Hp. }
    exists (g r). destruct (Hg r) as (H1 & H2 & H3). split_and!; [|done..]. apply find_map_type; [exact Hr|intros x; by destruct (Hg x) as (-> & _)|].
    rewrite H1. by apply find_some in Hr as [_ Hr].
Qed.
Lemma when_books {A} (o : option A) k : (forall a, leaves (books none) (k a)) -> leaves (books none) (when_some o k).
Proof. intros Hk. destruct o; [apply Hk|by apply t_ret]. Qed.
Lemma UpdateTransactionType_books u id p : UT_Flow p = None -> leaves (books none) (UpdateTransactionType u id p).
Proof.
  intros Hp. unfold UpdateTransactionType. do 2 rd. eapply t_reads_any; [eapply reads_any, reads_or_else, reads_uquery|intros sys|cbn; tauto].
  rewrite Hp. cbn [when_some].
  eapply t_seq; [apply when_books; intros l; apply t_if; intros _; [by apply t_throw|by apply edit_types_books]|intros _].
  eapply t_seq; [|intros _].
  { apply t_if; intros _; [|by apply t_ret]. eapply t_seq; [by apply t_ret|intros _].
    apply when_books. intros l. apply t_if; intros _; [by apply t_throw|by apply edit_types_books]. }
  do 3 (eapply t_seq; [apply when_books; intros l; by apply edit_types_books|intros _]).
  eapply t_reads; [eapply reads_or_else, reads_uquery|by intros|done].
Qed.
Lemma DeleteTransactionType_books u id : leaves (books none) (DeleteTransactionType u id).
Proof.
  unfold DeleteTransactionType. do 2 rd. eapply t_reads_bind; [eapply reads_or_else, reads_uquery|intros row|cbn; tauto].
  apply t_if; [intros _; apply t_throw; tauto|intros Hsys].
  eapply t_bind with (R := fun r d => (books none d /\ exists i, uuid_in id = Some i /\ List.find (live_type_id i) (f_types d) = Some row) /\
    r = Ok (Ok (existsb (fun t => String.eqb (tx_type t) (tt_code row) && negb (tx_deleted t)) (f_txns d)))).
  - apply t_attempt, t_read. intros d Hd. split; [split; [exact Hd|done]|done].
  - intros r. apply t_if; [intros _; apply t_throw; tauto|intros Hused]. apply t_ignore, t_stmt.
    intros d ((Hb & i & Hi & Hrow) & [= ->]). unfold stmt_post. rewrite Hi. split; [|done].
    apply find_some in Hrow as [Hin Hlive]. unfold live_type_id in Hlive. apply andb_true_iff in Hlive as [Hid Hlive]. apply String.eqb_eq in Hid.
    set (g := fun r => if String.eqb (tt_id r) i then delete_type_row r else r). apply books_types_change; [done| |].
    + apply types_valid_map; [|apply Hb]. intros x. destruct (String.eqb (tt_id x) i); cbn; auto.
    + intros code r Hr Huse. exists r. split_and!; [|done..].
      assert (tt_id r <> i) as Hne.
      { intros Hri. pose proof Hr as Hr'. apply find_some in Hr' as [Hrin Hrl]. pose proof (b_types _ _ Hb) as Hv. unfold types_valid in Hv.
        apply andb_true_iff in Hv as [Hv _]. apply bool_decide_eq_true in Hv.
        assert (r = row) as ->.
        { apply list_elem_of_In, list_elem_of_lookup in Hrin as [x Hx]. apply list_elem_of_In, list_elem_of_lookup in Hin as [y Hy].
          assert (x = y) as ->; [|congruence]. eapply (NoDup_lookup _ x y i Hv); rewrite list_lookup_fmap; [rewrite Hx|rewrite Hy]; cbn; congruence. }
        unfold live_type in Hrl. apply andb_true_iff in Hrl as [Hcode _]. apply String.eqb_eq in Hcode.
        destruct Huse as [(t & Ht & Htd & Hty)|Hs]; [|congruence]. apply not_true_iff_false in Hused. apply Hused.
        apply existsb_exists. exists t. split; [by apply list_elem_of_In|]. rewrite Htd, Hty, Hcode. by rewrite String.eqb_refl. }
      assert (g r = r) as Hgr by (unfold g; by rewrite (proj2 (String.eqb_neq _ _) Hne)).
      assert (List.find (live_type code) (map g (f_types d)) = Some (g r)) as H; [|by rewrite Hgr in H].
      apply find_map_type; [exact Hr| |rewrite Hgr; by apply find_some in Hr as [_ Hr]].
      intros x. unfold g. destruct (String.eqb _ _); [|done]. unfold live_type. cbn. by rewrite andb_false_r.
  - intros e d [_ ?]. done.
Qed.

(** ** Assets *)
Lemma assets_ref d a : books none d -> a ∈ f_assets d -> ref_ok d (as_wallet a).
Proof. intros Hb Ha. pose proof (b_assets _ _ Hb) as H. rewrite Forall_forall in H. by apply H. Qed.
Lemma CreateAsset_books u p : leaves (fun d => books none d /\ names_known d (CA_WalletID p)) (CreateAsset u p).
Proof.
  unfold CreateAsset. rd. repeat (apply t_if; intros _; [apply t_throw; tauto|]). do 2 rd.
  eapply t_seq; [apply or_internal_leaves, t_stmt|intros id; eapply t_seq; [apply audit_books|intros _; by apply t_ret]].
  intros d [Hb Hw]. unfold stmt_post, insert_asset, with_id. destruct (f_ids d) as [|id rest] eqn:Hids; [done|].
  destruct (numeric_in 6 _); [|done]. destruct (uuid_in (CA_WalletID p)) as [w|] eqn:Ew; [|done]. destruct (uuid_in (AccountID a)); [|done].
  cbn [f_assets set_ids]. destruct (existsb _ _); [done|]. split; [|done].
  apply books_assets; [by eapply books_ids|]. apply Forall_app. split; [apply (b_assets _ _ Hb)|].
  constructor; [|constructor]. change (ref_ok d w). eapply ref_of_text; [exact Hb|exact Ew|by apply Hw].
Qed.
Lemma update_assets_books S f which d :
  (forall a, ref_ok d (as_wallet a) -> ref_ok d (as_wallet (f a))) -> books S d -> books S (update_assets f which d).
Proof.
  intros Hf Hb. apply books_assets; [done|]. apply Forall_map. eapply Forall_impl; [apply (b_assets _ _ Hb)|].
  intros a Ha. cbn. destruct (which a); [by apply Hf|done].
Qed.
Lemma UpdateAsset_books u id p :
  leaves (fun d => books none d /\ forall w, named_wallet p = Some w -> names_known d (TrimSpace w)) (UpdateAsset u id p).
Proof.
  unfold UpdateAsset. rd. apply t_if; [intros _; apply t_throw; tauto|intros _]. do 2 rd. repeat (apply t_if; intros _; [apply t_throw; tauto|]).
  eapply t_reads_any; [|intros x|cbn; tauto].
  { apply reads_when. intros w. eapply reads_bind_any; [apply reads_count_or_zero; eapply reads_any, reads_uread|].
    intros n. apply reads_if; auto with reads. }
  rd. apply t_if; [intros _; apply t_throw; tauto|intros _].
  eapply t_seq; [apply or_internal_leaves, t_stmt|intros y; eapply t_seq; [apply audit_books|intros z; eapply t_reads; [eapply reads_or_else, reads_uquery|by intros|done]]].
  intros d [Hb Hw]. unfold stmt_post. destruct (uuid_in id) as [i|]; [|done]. destruct (update_asset_row p) as [f|] eqn:Ef; [|done].
  split; [|done]. apply update_assets_books; [|done]. intros r Hr. unfold update_asset_row in Ef.
  destruct (convert (numeric_in 6) _); [|done]. destruct (named_wallet p) as [w|] eqn:En; cbn in Ef.
  - destruct (uuid_in (TrimSpace w)) as [v|] eqn:Ew; [|done]. injection Ef as <-. cbn.
    eapply ref_of_text; [exact Hb|exact Ew|by apply (Hw w)].
  - by injection Ef as <-.
Qed.
Lemma DeleteAsset_books u id : leaves (books none) (DeleteAsset u id).
Proof.
  unfold DeleteAsset. rd. apply t_if; [intros _; by apply t_throw|intros _]. do 2 rd. apply t_if; [intros _; by apply t_ret|intros _]. do 2 rd.
  apply t_if; [intros _; by apply t_throw|intros _]. eapply t_seq; [apply or_internal_leaves, t_exec_books|intros _; apply audit_books].
  intros i d Hb. by apply update_assets_books.
Qed.
Lemma UpdateAssetPrice_books u id price : leaves (books none) (UpdateAssetPrice u id price).
Proof.
  unfold UpdateAssetPrice. rd. apply t_if; [intros _; by apply t_throw|intros _]. rd. apply or_internal_leaves, t_stmt.
  intros d Hd. unfold stmt_post, with_id. destruct (f_ids d) as [|i rest] eqn:Hids; [done|].
  destruct (uuid_in id), (numeric_in 4 price), (uuid_in (AccountID a)); try done. destruct (existsb _ _); [done|]. split; [|done].
  eapply books_same; [|by eapply books_ids]. done.
Qed.

(** ** Trades and dividends *)
Lemma asset_txn_ok u ty amount wallet desc date status id q d i t :
  ref_ok d wallet -> type_of_code d ty <> None -> asset_txn u ty amount wallet desc date status id q i = Some t ->
  tx_id t = i /\ txn_refs d t /\ is_Some (type_of_code d (tx_type t)) /\ tx_wallet t = wallet /\ tx_to t = None /\ tx_status t = status.
Proof.
  intros [Hc Hk] Hty Ht. unfold asset_txn in Ht. destruct (numeric_in 2 amount); [|done]. rewrite Hc in Ht.
  destruct (date_in date); [|done]. destruct (uuid_in id); [|done]. destruct (uuid_in (AccountID u)); [|done].
  destruct (match q with Some (q0, p, f) => _ | None => _ end) as [[[q' p'] f']|]; [|done]. injection Ht as <-. cbn.
  split; [done|]. split; [by split|]. split; [by apply not_eq_None_Some|done].
Qed.
Lemma post_asset_books usr ty amount a desc date status id q now :
  leaves (fun d => books none d /\ a ∈ f_assets d /\ type_of_code d ty <> None)
    (post_asset_txn usr (asset_txn usr ty amount (as_wallet a) desc date status id q) (as_wallet a) status now).
Proof.
  unfold post_asset_txn. eapply t_bind with (R := fun r d => match r with
    | Ok _ => exists t, posted t d /\ uuid_in (as_wallet a) = Some (tx_wallet t) /\ tx_to t = None /\ tx_status t = status
    | Err _ => books none d end).
  - apply or_else_triple, t_stmt. intros d (Hb & Ha & Hty). pose proof (assets_ref d a Hb Ha) as Hr.
    pose proof (insert_post (asset_txn usr ty amount (as_wallet a) desc date status id q) d Hb) as Hp. unfold stmt_post.
    destruct (insert_txn _ d) as [[new|e] d']; [|done]. split; [|done].
    assert (forall i t, asset_txn usr ty amount (as_wallet a) desc date status id q i = Some t -> _) as Hok
      by (intros i t; apply (asset_txn_ok usr ty amount (as_wallet a) desc date status id q d i t Hr Hty)).
    destruct Hp as (t & Ht & Hpost & _); [intros i t Ht; destruct (Hok _ _ Ht); tauto|]. destruct (Hok _ _ Ht) as (_ & _ & _ & Hw & Hto & Hs).
    exists t. split_and!; [done|rewrite Hw; apply Hr|done|done].
  - intros new. apply t_exists. intros t. apply (t_pure _ (posted t)). intros (Ha & Hto & Hs). eapply t_seq.
    + apply t_if; [intros _; apply (refresh_posted t); [done|by rewrite Hto]|intros Hst]. apply t_ret. intros d Hd.
      eapply posted_uncounted; [exact Hd|]. unfold counts. by rewrite Hs, Hst.
    + intros _. eapply t_seq; [apply usage_books|intros _]. eapply t_seq; [apply audit_books|intros _]. by apply t_ret.
  - done.
Qed.
Lemma RecordInvestmentTrade_books u id p now : leaves (books none) (RecordInvestmentTrade u id p now).
Proof.
  unfold RecordInvestmentTrade. rd. repeat (apply t_if; intros _; [by apply t_throw|]). do 2 rd.
  eapply t_reads_bind; [apply reads_tradable|intros asset|cbn; tauto]. set (ty := if String.eqb _ "sell" then _ else _).
  eapply t_reads_bind; [apply reads_type|intros r|cbn; tauto]. do 2 rd. apply t_if; [intros _; apply t_throw; tauto|intros _].
  do 4 rd. eapply t_seq; [eapply t_conseq; [apply post_asset_books|cbn; tauto|done]|intros new].
  eapply t_reads_any; [auto with reads|intros after; by apply t_ret|done].
Qed.
Lemma RecordAssetDividend_books u id p now : leaves (books none) (RecordAssetDividend u id p now).
Proof.
  unfold RecordAssetDividend. rd. repeat (apply t_if; intros _; [by apply t_throw|]). do 2 rd.
  eapply t_reads_bind; [apply reads_tradable|intros asset|cbn; tauto].
  eapply t_reads_bind; [apply reads_type|intros r|cbn; tauto]. do 2 rd.
  eapply t_seq; [eapply t_conseq; [apply post_asset_books|cbn; tauto|done]|intros new; by apply t_ret].
Qed.

(** ** Postings for orders and stock *)
Lemma first_wallet_elem l w : first_wallet l = Some w -> w ∈ l.
Proof.
  revert w. induction l as [|x l IH]; [done|]. intros w. cbn. destruct (first_wallet l) as [b|].
  - destruct (wallet_before b x); intros [= <-]; [right; by apply IH|left].
  - intros [= <-]. left.
Qed.
Lemma known_elem d w : w ∈ f_wallets d -> known d (w_id w).
Proof.
  intros Hw. unfold known, find_wallet. destruct (List.find _ _) as [x|] eqn:E; [by eexists|].
  apply list_elem_of_In in Hw. pose proof (find_none _ _ E _ Hw) as H. cbn in H. by rewrite String.eqb_refl in H.
Qed.
(** an account named by its id, or by a text of it *)
Definition denotes_known (d : fin_db) (u : string) : Prop := known d u \/ exists i, uuid_in u = Some i /\ known d i.
Lemma reads_income_wallet c w : reads c (resolveIncomeWallet w) denotes_known.
Proof.
  unfold resolveIncomeWallet. apply reads_if.
  - intros P. eapply t_reads_bind; [apply reads_or_internal, reads_uread|intros ex|cbn; naive_solver].
    destruct ex; [apply t_ret|apply t_throw; naive_solver]. intros d [HP (i & Hi & Hex)]. split; [done|]. intros a [= <-].
    right. exists i. split; [done|]. symmetry in Hex. apply existsb_exists in Hex as (x & Hx & He).
    apply andb_true_iff in He as [He _]. apply String.eqb_eq in He. rewrite <- He. apply known_elem. by apply list_elem_of_In.
  - intros P. eapply t_reads_bind; [apply reads_or_internal, reads_read|intros r|cbn; naive_solver].
    destruct r as [id|]; [apply t_ret|apply t_throw; naive_solver]. intros d [HP Hr]. split; [done|]. intros a [= <-]. left.
    destruct (first_wallet _) as [x|] eqn:E; [|done]. injection Hr as ->. apply known_elem.
    apply first_wallet_elem, filter_elem in E. tauto.
Qed.
Lemma denotes_ref d u : books none d -> denotes_known d u -> exists i, uuid_in u = Some i /\ ref_ok d i.
Proof.
  intros Hb [Hk|(i & Hi & Hk)].
  - exists u. destruct (b_new _ _ Hb u Hk) as [Hc _]. by split_and!.
  - exists i. split; [done|]. by eapply ref_of_text.
Qed.
Lemma posting_ok ty amount u cat desc ref date by_ d i t :
  books none d -> denotes_known d u -> in_list ty ["income"; "expense"] = true ->
  posting_of ty amount u cat desc ref date by_ i = Some t ->
  tx_id t = i /\ txn_refs d t /\ is_Some (type_of_code d (tx_type t)) /\ uuid_in u = Some (tx_wallet t) /\ tx_to t = None.
Proof.
  intros Hb Hu Hty Ht. destruct (denotes_ref d u Hb Hu) as (w & Hw & Hr). unfold posting_of in Ht.
  destruct (numeric_in 2 amount); [|done]. rewrite Hw in Ht. destruct (uuid_opt cat); [|done]. destruct (date_in date); [|done].
  destruct (uuid_in (if String.eqb by_ "" then _ else _)); [|done]. injection Ht as <-. cbn.
  split; [done|]. split; [by split|]. split; [|done]. destruct (b_system _ _ Hb) as [(r1 & H1 & _) (r2 & H2 & _)].
  cbn in Hty. destruct (String.eqb_spec ty "income") as [->|]; [by exists r1|].
  destruct (String.eqb_spec ty "expense") as [->|]; [by exists r2|done].
Qed.
Lemma reads_category c n : reads c (system_category n) any.
Proof. eapply reads_bind_any; [eapply reads_attempt, reads_read|]. auto with reads. Qed.
(** what a posting leaves: the wallet to refresh *)
Definition entered (u : string) (d : fin_db) : Prop := exists t, posted t d /\ uuid_in u = Some (tx_wallet t) /\ tx_to t = None.
Lemma refresh_entered u : leaves (entered u) (refreshWallets u None).
Proof.
  apply t_exists. intros t. apply (t_pure _ (posted t)). intros [Hu Hto]. apply refresh_posted; [done|by rewrite Hto].
Qed.
Lemma insert_or_nothing_post row d :
  books none d -> (forall i t, row i = Some t -> tx_id t = i /\ txn_refs d t /\ is_Some (type_of_code d (tx_type t))) ->
  match insert_or_nothing row d with
  | (Ok true, d') => exists i t, row i = Some t /\ posted t d'
  | (Ok false, d') => books none d'
  | (Err _, _) => True
  end.
Proof.
  intros Hb Hr. unfold insert_or_nothing, with_id. destruct (f_ids d) as [|i rest] eqn:Hids; [done|].
  destruct (row i) as [t|] eqn:Ht; [|done]. destruct (negb (txn_ok t)); [done|]. unfold write_txns. cbn [f_txns set_ids].
  pose proof (books_ids _ _ _ _ Hb Hids) as Hb1. destruct (txns_valid _) eqn:Hv; [|exact Hb1].
  exists i, t. split; [done|]. destruct (Hr _ _ Ht) as (_ & H1 & H2).
  eapply books_mono; [exact (books_insert none (set_ids rest d) t Hb1 Hv H1 H2)|]. cbn. by intros w [[]|].
Qed.
Lemma keep_txns_same d f : (forall t, t ∈ f_txns d -> f t = false -> counts t = false) -> books none d -> books none (keep_txns f d).
Proof.
  intros Hf Hb. apply (books_remove none); [done|done|]. intros t w Ht Hft _. apply contribution_uncounted. by apply Hf.
Qed.
Lemma recordOrderIncome_books by_ id amount w now : leaves (books none) (recordOrderIncome by_ id amount w now).
Proof.
  unfold recordOrderIncome. eapply t_reads_bind; [apply reads_income_wallet|intros u|cbn; tauto].
  eapply t_bind with (R := fun r d => books none d /\ denotes_known d u).
  - apply or_else_triple, t_stmt. intros d [Hb Hu]. unfold stmt_post. split; [|done]. split; [|exact Hu].
    apply keep_txns_same; [|done]. intros t _ Ht. apply negb_false_iff, andb_true_iff in Ht as [_ Ht]. unfold counts. by rewrite Ht, andb_false_r.
  - intros _. eapply t_reads_any; [apply reads_category|intros cat|cbn; tauto]. do 2 rd.
    eapply t_bind with (R := fun r d => match r with Ok true => entered u d | _ => books none d end).
    + apply or_else_triple, t_stmt. intros d [Hb Hu]. unfold stmt_post.
      match goal with |- context [insert_or_nothing ?row d] =>
        assert (forall i t, row i = Some t -> _) as Hok by (intros i t; apply (posting_ok "income" amount u cat _ _ _ _ d i t Hb Hu eq_refl));
        pose proof (insert_or_nothing_post row d Hb) as Hp; destruct (insert_or_nothing row d) as [[[|]|e] d'] end; (split; [|done]).
      * destruct Hp as (i & t & Ht & Hpost); [intros i t Ht; destruct (Hok _ _ Ht); tauto|]. destruct (Hok _ _ Ht) as (_ & _ & _ & H1 & H2).
        exists t. by split_and!.
      * apply Hp. intros i t Ht. destruct (Hok _ _ Ht). tauto.
      * exact Hb.
    + intros [|]; [apply refresh_entered|by apply t_ret].
    + done.
  - by intros e d [? _].
Qed.
Lemma RecordOrderCompletedIncome_books by_ id amount w now : leaves (books none) (RecordOrderCompletedIncome by_ id amount w now).
Proof.
  unfold RecordOrderCompletedIncome. apply t_if; intros _; [by apply t_ret|]. apply t_if; intros _; [by apply t_ret|].
  rd. apply recordOrderIncome_books.
Qed.
Lemma refresh_each_books ws : Forall canonical ws -> leaves (books (fun w => w ∈ ws)) (refresh_each ws).
Proof.
  induction ws as [|w ws IH]; intros Hc; cbn [refresh_each].
  - apply t_ret. intros d Hd. eapply books_mono; [exact Hd|]. intros w Hw. by apply not_elem_of_nil in Hw.
  - apply Forall_cons in Hc as [Hw Hc]. eapply t_bind with (R := fun r d => r = Ok tt /\ books (fun x => x ∈ ws) d).
    + unfold refreshWallets. assert (w <> "") as Hne by (intros ->; unfold canonical in Hw; by rewrite uuid_nonempty in Hw).
      rewrite (proj2 (String.eqb_neq w "") Hne). eapply t_ignore_bind; [apply (refreshWalletBalance_books _ w w Hw)|intros _].
      apply t_ret. intros d Hd. split; [done|]. eapply books_mono; [exact Hd|]. cbn. intros x [Hx Hn].
      apply elem_of_cons in Hx as [->|Hx]; [done|exact Hx].
    + intros x. eapply t_conseq; [apply IH, Hc|by intros d [_ ?]|done].
    + by intros e d [? _].
Qed.
Lemma wallets_of_spec f d w : w ∈ wallets_of f d <-> exists t, t ∈ f_txns d /\ f t = true /\ tx_wallet t = w.
Proof.
  unfold wallets_of. rewrite elem_of_remove_dups, list_elem_of_In, in_map_iff. split.
  - intros (t & Ht & Hin). apply list_elem_of_In, filter_elem in Hin as []. by exists t.
  - intros (t & Ht & Hf & Hw). exists t. split; [done|]. apply list_elem_of_In, filter_elem. by split.
Qed.
Lemma wallets_of_canonical f d : books none d -> Forall canonical (wallets_of f d).
Proof.
  intros Hb. apply Forall_forall. intros w Hw. apply wallets_of_spec in Hw as (t & Ht & _ & <-).
  by destruct (refs_of _ _ Hb Ht) as [[? _] _].
Qed.
(** removing rows, then refreshing their wallets; [one_sided]: a removed row's
    money is in its first wallet only *)
Definition one_sided (f : txn_row -> bool) (d : fin_db) : Prop :=
  forall t w, t ∈ f_txns d -> f t = true -> w <> tx_wallet t -> contribution (flow_of d) w t = 0.
Lemma remove_books f d :
  books none d -> one_sided f d -> books (fun w => w ∈ wallets_of f d) (keep_txns (fun t => negb (f t)) d).
Proof.
  intros Hb Hs. apply (books_remove none); [done|by intros w []|]. intros t w Ht Hf Hw. apply negb_false_iff in Hf.
  apply Hs; [done|done|]. intros ->. apply Hw, wallets_of_spec. by exists t.
Qed.
Lemma order_income_one_sided id d : books none d -> one_sided (order_income id) d.
Proof.
  intros Hb t w Ht Hf Hw. unfold order_income in Hf. apply andb_true_iff in Hf as [_ Hty]. apply String.eqb_eq in Hty.
  destruct (b_system _ _ Hb) as [(r & Hr & _ & Hflow) _]. unfold contribution. destruct (touches w t && counts t); [|done].
  assert (flow_of d (tx_type t) = "income") as Hfl by (unfold flow_of; by rewrite Hty, Hr).
  rewrite Hfl. unfold credit, debit. cbn. by rewrite (proj2 (String.eqb_neq _ _) (not_eq_sym Hw)).
Qed.
Lemma RemoveOrderIncome_books id : leaves (books none) (RemoveOrderIncomeTransaction id).
Proof.
  unfold RemoveOrderIncomeTransaction. apply t_if; intros _; [by apply t_ret|]. rd.
  eapply t_reads_bind; [apply reads_or_internal, reads_read|intros ws|cbn; tauto].
  eapply t_bind with (R := fun r d => match r with
    | Ok true => books (fun w => w ∈ ws) d /\ Forall canonical ws | _ => books none d end).
  - apply or_else_triple, t_stmt. intros d [Hb ->]. unfold stmt_post. split; [|done]. destruct (existsb _ _) eqn:Hex.
    + split; [|by apply wallets_of_canonical]. apply remove_books; [done|by apply order_income_one_sided].
    + apply keep_txns_same; [|done]. intros t Ht Hf. apply negb_false_iff in Hf. apply not_true_iff_false in Hex. exfalso. apply Hex.
      apply existsb_exists. exists t. split; [by apply list_elem_of_In|done].
  - intros [|]; [|by apply t_ret]. apply (t_pure _ (books (fun w => w ∈ ws))). apply refresh_each_books.
  - done.
Qed.
Lemma reads_current c now : reads c (CheckCurrentPeriodUnlocked now) any.
Proof. unfold CheckCurrentPeriodUnlocked. auto with reads. Qed.
Lemma ResyncOrderIncome_books by_ id amount w now : leaves (books none) (ResyncOrderCompletedIncome by_ id amount w now).
Proof.
  unfold ResyncOrderCompletedIncome. apply t_if; intros _; [by apply t_ret|]. apply t_if; intros _; [apply RemoveOrderIncome_books|].
  eapply t_reads_any; [apply reads_current|intros x|done]. eapply t_seq; [apply RemoveOrderIncome_books|intros _; apply RecordOrderCompletedIncome_books].
Qed.
Lemma RecordInventoryEntry_books by_ ref flow cat desc amount w now : leaves (books none) (RecordInventoryEntry by_ ref flow cat desc amount w now).
Proof.
  unfold RecordInventoryEntry. apply t_if; intros _; [by apply t_ret|]. cbv zeta. apply t_if; intros Hfl; [by apply t_throw|].
  apply negb_false_iff in Hfl. rd. eapply t_reads_bind; [apply reads_income_wallet|intros u|cbn; tauto].
  eapply t_reads_any; [apply reads_category|intros c|cbn; tauto]. do 2 rd.
  eapply t_reads_any; [apply reads_if; [eapply reads_any, reads_or_internal, reads_read|auto with reads]|intros found|cbn; tauto].
  apply t_if; intros _; [apply t_ret; tauto|]. eapply t_bind with (R := fun r d => match r with Ok _ => entered u d | _ => books none d end).
  - apply or_else_triple, t_stmt. intros d [Hb Hu]. unfold stmt_post.
    match goal with |- context [insert_txn ?row d] =>
      assert (forall i t, row i = Some t -> _) as Hok by (intros i t; apply (posting_ok (TrimSpace flow) amount u c _ _ _ _ d i t Hb Hu Hfl));
      pose proof (insert_post row d Hb) as Hp; destruct (insert_txn row d) as [[new|e] d'] end; (split; [|done]); [|exact Hb].
    destruct Hp as (t & Ht & Hpost & _); [intros i t Ht; destruct (Hok _ _ Ht); tauto|]. destruct (Hok _ _ Ht) as (_ & _ & _ & H1 & H2).
    exists t. by split_and!.
  - intros x. apply refresh_entered.
  - done.
Qed.
(** the rows with one of the references move money in their first wallet only *)
Definition plain_refs (refs : list string) (d : fin_db) : Prop := forall t, t ∈ f_txns d -> in_refs refs t = true -> tx_to t = None.
Lemma plain_one_sided refs d : plain_refs refs d -> one_sided (in_refs refs) d.
Proof.
  intros Hp t w Ht Hf Hw. apply contribution_untouched, not_true_iff_false. rewrite touches_spec, (Hp t Ht Hf). naive_solver.
Qed.
Lemma keep_filter_txns (P : list txn_row -> Prop) f d :
  (forall l g, P l -> P (List.filter g l)) -> P (f_txns d) -> P (f_txns (keep_txns f d)).
Proof. intros HP. apply HP. Qed.
(** a refresh leaves the transactions alone *)
Lemma refresh_each_txns c (P : list txn_row -> Prop) ws :
  triple c (fun d => P (f_txns d)) (refresh_each ws) (fun _ d => P (f_txns d)).
Proof.
  induction ws as [|w ws IH]; cbn [refresh_each]; [by apply t_ret|]. eapply t_seq; [|intros _; exact IH].
  assert (forall a, triple c (fun d => P (f_txns d)) (ignore (refreshWalletBalance a)) (fun _ d => P (f_txns d))) as H.
  { intros a. apply t_ignore, t_stmt_keep. intros d Hd. destruct (uuid_in a) as [i|]; [|done].
    destruct (find_wallet d i) as [r|]; [|done]. cbv zeta. destruct (fits (w_initial r + net d i)); exact Hd. }
  unfold refreshWallets. eapply t_seq; [apply t_if; intros _; [apply H|by apply t_ret]|intros _; by apply t_ret].
Qed.
Lemma removeInventoryEntriesChunk_books all refs : (forall r, r ∈ refs -> r ∈ all) ->
  triple true (fun d => books none d /\ plain_refs all d) (removeInventoryEntriesChunk refs)
    (fun _ d => books none d /\ plain_refs all d).
Proof.
  intros Hsub. unfold removeInventoryEntriesChunk. destruct refs as [|r rest]; [by apply t_ret|].
  set (refs := r :: rest) in *.
  assert (forall t, in_refs refs t = true -> in_refs all t = true) as Hin.
  { intros t. unfold in_refs. destruct (tx_reference t) as [x|]; [|done]. unfold in_list. rewrite !existsb_exists.
    intros (y & Hy & Ex). exists y. split; [|done]. apply list_elem_of_In, Hsub. by apply list_elem_of_In. }
  eapply t_reads_bind; [apply reads_or_internal, reads_read|intros ws|cbn; tauto].
  eapply t_bind with (R := fun r d => match r with
    | Ok _ => (books (fun w => w ∈ ws) d /\ plain_refs all d) /\ Forall canonical ws
    | Err _ => books none d /\ plain_refs all d end).
  - apply or_else_triple, t_stmt. intros d [[Hb Hp] ->]. unfold stmt_post. split; [|done]. split_and!.
    + apply remove_books; [done|]. apply plain_one_sided. intros t Ht Hf. by apply Hp, Hin.
    + intros t Ht. apply Hp. by apply filter_elem in Ht as [Ht _].
    + by apply wallets_of_canonical.
  - intros _. apply (t_pure _ (fun d => books (fun w => w ∈ ws) d /\ plain_refs all d)). intros Hc. apply t_conj.
    + by apply refresh_each_books.
    + apply (refresh_each_txns _ (fun l => forall t, t ∈ l -> in_refs all t = true -> tx_to t = None)).
  - done.
Qed.
Lemma remove_chunks_books all fuel refs : (forall r, r ∈ refs -> r ∈ all) ->
  triple true (fun d => books none d /\ plain_refs all d) (remove_chunks fuel refs) (fun _ d => books none d /\ plain_refs all d).
Proof.
  revert refs. induction fuel as [|fuel IH]; intros refs Hsub; cbn [remove_chunks]; [by apply t_ret|].
  destruct refs as [|r rest]; [by apply t_ret|]. set (refs := r :: rest) in *. eapply t_seq; [|intros _; apply IH].
  - apply removeInventoryEntriesChunk_books. intros x Hx. apply Hsub. by eapply elem_of_take in Hx as (i & Hx & _); eapply list_elem_of_lookup_2.
  - intros x Hx. apply Hsub. apply list_elem_of_lookup in Hx as [i Hx]. rewrite lookup_drop in Hx. by eapply list_elem_of_lookup_2.
Qed.
Lemma RemoveInventoryEntries_books refs :
  leaves (fun d => books none d /\ plain_refs (uniqueReferenceNos refs) d) (RemoveInventoryEntries refs).
Proof.
  unfold RemoveInventoryEntries. destruct (uniqueReferenceNos refs) as [|r rest]; [apply t_ret; tauto|]. rd.
  eapply t_conseq; [apply (remove_chunks_books (r :: rest)); auto|intros d Hd; exact Hd|cbn; tauto].
Qed.
(** the loop over chunks reaches the end of the list *)
Lemma remove_chunks_fuel fuel refs w : (length refs <= fuel)%nat -> remove_chunks fuel refs w = remove_chunks (length refs) refs w.
Proof.
  revert refs w. induction fuel as [fuel IH] using lt_wf_ind. intros refs w Hl. destruct refs as [|r rest]; [by destruct fuel|].
  destruct fuel as [|fuel]; [cbn in Hl; lia|]. cbn [length remove_chunks] in *. unfold bind.
  destruct (removeInventoryEntriesChunk _ w) as [[x|e] w']; [|done].
  assert (length (drop chunk (r :: rest)) <= length rest)%nat as Hd by (rewrite length_drop; unfold chunk; cbn [length]; lia). set (dr := drop chunk (r :: rest)) in *. clearbody dr.
  rewrite (IH fuel) by lia. destruct (Nat.eq_dec (length rest) fuel) as [->|]; [by rewrite (IH fuel) by lia|].
  symmetry. apply (IH (length rest)); lia.
Qed.
End handlers.
