(* ===== verification/ChecklistBooks.v ===== *)
(** * Bills keep the books

    Every handler of Checklist.v over FinLedger.v's invariant. *)
From S2P Require Import Prelude GoStrings AdminSession PgTx Triples DaySlots Dates Float64 Pii Billing Recurring FinTables FinTxns FinAssets FinPosting Checklist FinLedger FinBooks.
From stdpp Require Import sorting.

Open Scope string_scope.
Open Scope Z_scope.

(** ** What the reading helpers answer *)
Section reading.
Context `{HI : PgInput} `{HT : TimeZones} `{HS : FinSecrets} (c : bool).

Lemma reads_now now : reads c (financeNow now) any.
Proof.
  apply (reads_bind_any _ _ _ any); [|auto with reads].
  eapply reads_bind_any; [eapply reads_attempt, (reads_stmt _ _ any)|auto with reads]. intros d. by destruct (f_timezone d).
Qed.
Lemma reads_month_start now : reads c (currentMonthStart now) any.
Proof. eapply reads_bind_any; [apply reads_now|intros t; cbv zeta; auto with reads]. Qed.
Lemma reads_new_due p now : reads c (new_due p now) any.
Proof.
  unfold new_due. destruct (KU_DueDate p); [eapply reads_bind_any; [apply reads_of_result|auto with reads]|]. destruct (KU_DayOfMonth p); [|auto with reads].
  apply reads_if; [auto with reads|]. eapply reads_bind_any; [apply reads_now|intros t; cbv zeta; auto with reads].
Qed.
Lemma reads_or_no_item {A} (m : fin A) F : reads c m F -> reads c (or_no_item m) F.
Proof. apply reads_or_else. Qed.
(** the bills of the rows, with their templates' wallets *)
Lemma reads_bills rows : reads c (scan_bills rows) (fun _ bs => map bl_wallet bs = map (fun r => tp_wallet r.2) rows).
Proof.
  induction rows as [|[x t] rest IH]; cbn [scan_bills]; [eapply reads_weaken; [apply reads_ret|by intros ? ? ->]|].
  eapply reads_bind_any; [apply reads_or_internal, reads_of_result|intros title]. apply reads_if; [apply reads_throw|].
  eapply reads_weaken; [eapply reads_bind; [exact IH|intros bs; apply reads_ret]|]. cbn. intros d l (bs & Hbs & ->). cbn. by rewrite Hbs.
Qed.
Lemma reads_decrypt_all ts : reads c (decrypt_all ts) any.
Proof.
  induction ts as [|t rest IH]; cbn [decrypt_all]; [auto with reads|].
  eapply reads_bind_any; [apply reads_or_internal, reads_of_result|intros _; exact IH].
Qed.
Lemma reads_billing start end_ label : reads c (loadMonthlyBilling start end_ label) any.
Proof.
  eapply reads_bind_any; [apply reads_or_internal, reads_read|intros rows].
  eapply reads_bind_any; [apply reads_decrypt_all|intros _; cbv zeta; auto with reads].
Qed.
Lemma reads_assert_wallets u ws : reads c (assert_wallets u ws) any.
Proof. induction ws as [|w ws IH]; cbn [assert_wallets]; [auto with reads|]. eapply reads_bind_any; [apply reads_accessible|intros _; exact IH]. Qed.
Lemma reads_default_wallet : reads c resolveDefaultExpenseWallet (fun d w => known d w).
Proof.
  eapply reads_weaken; [eapply reads_bind; [apply reads_or_internal, reads_read|intros o]|].
  - apply (reads_weaken _ _ (fun _ a => o = Some a)); [destruct o; [|apply reads_throw]|by intros ? ? H; exact H].
    eapply reads_weaken; [apply reads_ret|by intros ? ? ->].
  - cbn. intros d a (o & -> & Ha). destruct (first_wallet _) as [w|] eqn:E; [|done]. injection Ha as <-.
    apply first_wallet_elem, filter_elem in E as [E _]. by apply known_elem.
Qed.
End reading.
#[export] Hint Resolve reads_now reads_month_start reads_new_due reads_or_no_item reads_decrypt_all reads_billing reads_assert_wallets : reads.

(** ** Every handler keeps the books, when nothing fails *)
Section handlers.
Context `{HI : PgInput} `{HT : TimeZones} `{HS : FinSecrets} `{HL : !PgInputLaws}.
Abbreviation leaves P m := (triple true P m (fun _ => books none)).

(** *** Statements on templates and items *)
Lemma items_same l d : same_books d (set_items l d).
Proof. done. Qed.
Lemma books_items S l d : books S d -> books S (set_items l d).
Proof. apply books_same, items_same. Qed.
Lemma insert_items_books S rows d : books S d -> books S (snd (insert_items rows d)).
Proof.
  revert d. induction rows as [|[template due] rest IH]; intros d Hb; cbn [insert_items]; [done|].
  destruct (f_ids d) as [|id ids] eqn:Hids; [done|]. pose proof (books_ids _ _ _ _ Hb Hids) as Hb'. cbv zeta.
  destruct (existsb _ _); [by apply IH|]. destruct (existsb _ _); [done|]. by apply IH, books_items.
Qed.
Lemma t_stmt_leaves {A} S (f : fin_db -> result A * fin_db) :
  (forall d, books S d -> match f d with (Ok _, d') => books S d' | _ => True end) -> triple true (books S) (stmt f) (fun _ => books S).
Proof.
  intros Hf. apply t_stmt. intros d Hd. specialize (Hf d Hd). unfold stmt_post. destruct (f d) as [[a|e] d']; by split.
Qed.
Lemma or_else_keeps {A} (P R : fin_db -> Prop) wrap (m : fin A) : triple true P m (fun _ => R) -> triple true P (or_else wrap m) (fun _ => R).
Proof. intros Hm. apply or_else_triple. eapply t_conseq; [exact Hm|done|]. by intros [x|e] d. Qed.
Lemma ensureItems_books f due : leaves (books none) (ensureItems f due).
Proof.
  apply or_else_keeps, t_stmt_leaves. intros d Hd.
  pose proof (insert_items_books none (map (fun t => (tp_id t, due t)) (List.filter f (f_templates d))) d Hd) as H.
  by destruct (insert_items _ d) as [[x|e] d'].
Qed.
Lemma edit_template_books i f d :
  (forall t w, tp_wallet (f t) = Some w -> tp_wallet t = Some w \/ ref_ok d w) -> books none d -> books none (edit_template i f d).
Proof.
  intros Hf Hb. apply books_templates; [done|]. apply Forall_map. eapply Forall_impl; [apply Hb|]. intros t Ht w. cbn.
  destruct (String.eqb (tp_id t) i); [|apply Ht]. intros Hw. destruct (Hf t w Hw) as [H|H]; [by apply Ht|done].
Qed.
Lemma template_of_wallet u p frequency enc stored due id t :
  template_of u p frequency enc stored due id = Some t -> uuid_opt (KC_WalletID p) = Some (tp_wallet t).
Proof. unfold template_of. intros H. repeat case_on H; try done. by injection H as <-. Qed.
Lemma CreateChecklistTemplate_books u p random now :
  leaves (fun d => books none d /\ forall a, KC_WalletID p = Some a -> names_known d a) (CreateChecklistTemplate u p random now).
Proof.
  unfold CreateChecklistTemplate. rd. apply t_if; [intros _; apply t_throw; tauto|intros _]. cbv zeta. do 3 rd.
  apply or_else_triple, t_stmt. intros d [Hb Hw]. unfold stmt_post, insert_bill_template, with_id.
  destruct (f_ids d) as [|id rest] eqn:Hids; [done|]. destruct (template_of _ _ _ _ _ _ id) as [t|] eqn:Et; [|done].
  destruct (existsb _ _); [done|]. split; [|done]. pose proof (books_ids _ _ _ _ Hb Hids) as Hb'. apply books_templates; [done|].
  apply Forall_app. split; [apply Hb'|]. constructor; [|constructor]. intros w Htw. apply template_of_wallet in Et.
  rewrite Htw in Et. unfold uuid_opt in Et. destruct (KC_WalletID p) as [raw|]; [|done]. destruct (uuid_in raw) as [v|] eqn:Ev; [|done].
  injection Et as ->. eapply ref_of_text; [exact Hb'|exact Ev|]. by apply (Hw raw).
Qed.
Lemma update_template_row_wallet p due f t w :
  update_template_row p due = Some f -> tp_wallet (f t) = Some w ->
  tp_wallet t = Some w \/ exists s, KU_WalletID p = Some s /\ uuid_in (TrimSpace s) = Some w.
Proof.
  unfold update_template_row. destruct (convert _ (KU_AmountHint p)); [|done]. destruct (convert _ (KU_CategoryID p)); [|done].
  destruct (KU_WalletID p) as [s|]; cbn [convert]; [|intros [= <-]; by left].
  destruct (uuid_opt (checklist_nullUUID s)) as [wallet|] eqn:Eo; [|done]. intros [= <-]. cbn. intros ->. right. exists s. split; [done|].
  unfold checklist_nullUUID in Eo. destruct (String.eqb (TrimSpace s) ""); [done|]. cbn in Eo. by destruct (uuid_in (TrimSpace s)); simplify_eq/=.
Qed.
Lemma UpdateChecklistTemplate_books u id p now :
  leaves (fun d => books none d /\ forall s, KU_WalletID p = Some s -> names_known d (TrimSpace s)) (UpdateChecklistTemplate u id p now).
Proof.
  unfold UpdateChecklistTemplate. do 2 rd. apply t_if; [intros _; apply t_throw; tauto|intros _]. rd.
  apply t_if; [intros _; apply t_throw; tauto|intros _]. eapply t_bind with (R := fun _ => books none); [| |done].
  - apply or_else_keeps, t_stmt. intros d [Hb Hw]. unfold stmt_post. destruct (uuid_in id); [|done].
    destruct (update_template_row p _) as [f|] eqn:Ef; [|done]. split; [|done]. apply edit_template_books; [|done]. intros t w Htw.
    destruct (update_template_row_wallet _ _ _ _ _ Ef Htw) as [H|(raw & Hs & Hu)]; [by left|right].
    eapply ref_of_text; [done|exact Hu|]. by apply (Hw raw).
  - intros n. apply t_if; intros _; [by apply t_throw|]. eapply t_seq; [|intros _; do 2 rd; by apply t_ret].
    apply t_if; intros _; [|by apply t_ret]. rd. apply or_else_keeps, t_exec_books. intros i d Hd. by apply books_items.
Qed.
Lemma DeleteChecklistTemplate_books u id : leaves (books none) (DeleteChecklistTemplate u id).
Proof.
  unfold DeleteChecklistTemplate. do 2 rd. apply t_ignore. eapply t_conseq; [apply t_exec_books|done|done].
  intros i d Hd. apply edit_template_books; [|done]. by left.
Qed.
Lemma GetTodayChecklist_books u now : leaves (books none) (GetTodayChecklist u now).
Proof.
  unfold GetTodayChecklist. do 3 rd. cbv zeta. eapply t_seq; [apply ensureItems_books|intros _].
  eapply t_seq; [apply ensureItems_books|intros _]. rd. by apply t_ret.
Qed.
Lemma ChecklistAction_books u p now : leaves (books none) (ChecklistAction u p now).
Proof.
  unfold ChecklistAction. rd. apply t_if; [intros _; by apply t_throw|intros _]. rd. eapply t_seq; [|intros _; by apply t_ret].
  apply or_else_keeps, t_stmt_leaves. intros d Hd. destruct (uuid_in _); [|done]. destruct (uuid_in (AccountID a)), (uuid_opt (KA_TransactionID p)); try done.
  by apply books_items.
Qed.

(** *** Posting *)
Definition accessible_books (ws : list string) (d : fin_db) : Prop := Forall (ref_ok d) ws.
(** the transaction's tables: only the wallets to be refreshed may be off *)
Definition posting_books (ws : list string) (d : fin_db) : Prop := books (fun w => w ∈ ws) d /\ accessible_books ws d.
Lemma same_accessible ws d d' : f_wallets d' = f_wallets d -> accessible_books ws d -> accessible_books ws d'.
Proof. intros Hd Ha. eapply Forall_impl; [exact Ha|]. intros w [Hc Hk]. split; [done|]. by apply (known_wallets d d'). Qed.
Lemma insert_txn_wallets row d : f_wallets (snd (insert_txn row d)) = f_wallets d.
Proof. unfold insert_txn, with_id, write_txns. repeat case_match; simplify_eq/=; done. Qed.
Lemma bill_txn_row u label w b id t :
  canonical w -> bill_txn u label w b id = Some t ->
  tx_id t = id /\ tx_wallet t = w /\ tx_to t = None /\ tx_type t = "expense".
Proof. unfold bill_txn, canonical. intros Hw Ht. rewrite Hw in Ht. repeat case_on Ht; try done. injection Ht as <-. done. Qed.
Lemma insert_bill_books ws u label w b d :
  w ∈ ws -> posting_books ws d ->
  match insert_txn (bill_txn u label w b) d with (Ok _, d') => posting_books ws d' | _ => True end.
Proof.
  intros Hw [Hb Ha]. pose proof (insert_txn_wallets (bill_txn u label w b) d) as Hsame.
  destruct (insert_txn _ d) as [[id|e] d'] eqn:E; [|done]. cbn in Hsame. split; [|by eapply same_accessible].
  unfold accessible_books in Ha. rewrite Forall_forall in Ha. pose proof (Ha w Hw) as Hr.
  destruct (insert_books _ _ d id d' Hb E) as (t & Ht & Hd & _).
  - intros i t Ht. apply bill_txn_row in Ht as (H1 & H2 & H3 & H4); [|apply Hr]. split_and!; [done|split; rewrite ?H2, ?H3; done|].
    rewrite H4. destruct (b_system _ _ Hb) as [_ (r & Hs & _)]. by exists r.
  - eapply books_mono; [exact Hd|]. cbn. intros x [Hx|[_ Hx]]; [done|]. apply bill_txn_row in Ht as (_ & H2 & H3 & _); [|apply Hr].
    destruct Hx as [Hx|Hx]; [|by rewrite H3 in Hx]. by rewrite <- Hx, H2.
Qed.
Lemma posting_books_items ws l d : posting_books ws d -> posting_books ws (set_items l d).
Proof. intros [Hb Ha]. split; [by apply books_items|by eapply same_accessible]. Qed.
Lemma b_link I ws item txn : body true I (posting_books ws) (link_item item txn) (fun _ => posting_books ws).
Proof. apply b_stmt_keep. intros d Hd. destruct (uuid_in item); [|done]. by apply posting_books_items. Qed.
Lemma b_or_else {A} I P wrap (m : fin A) : body true I P m (fun _ => P) -> body true I P (or_else wrap m) (fun _ => P).
Proof.
  intros Hm. eapply b_bind with (R := fun _ => P); [by apply b_attempt|intros [a|e]; [by apply b_ret|by apply b_throw]|done].
Qed.
Lemma post_bill_books I ws u label dw now b :
  bill_wallet dw b ∈ ws -> body true I (posting_books ws) (post_bill u label dw now b) (fun _ => posting_books ws).
Proof.
  intros Hw. unfold post_bill. apply b_seq; [|intros _; cbv zeta; apply b_seq; [|intros [|]]].
  - eapply b_conseq; [eapply b_pool, reads_unlocked|done|]. by intros r d [? _].
  - by apply b_or_else, b_stmt_keep.
  - eapply b_seq; [apply b_attempt, b_stmt_keep; intros d Hd; by destruct (List.find _ _)|].
    intros [x|e]; [by apply b_ignore, b_link|by apply b_ret].
  - eapply b_seq; [|intros x; apply b_or_else, b_link]. apply b_or_else, b_stmt. intros d Hd.
    by apply (insert_bill_books ws u label (bill_wallet dw b) b d).
Qed.
Lemma post_bills_books I ws u label dw now bs :
  Forall (fun b => bill_wallet dw b ∈ ws) bs -> body true I (posting_books ws) (post_bills u label dw now bs) (fun _ => posting_books ws).
Proof.
  induction bs as [|b bs IH]; intros Hw; cbn [post_bills]; [by apply b_ret|]. apply Forall_cons in Hw as [Hw Hws].
  apply b_seq; [by apply post_bill_books|intros _; by apply IH].
Qed.

Lemma unposted_rows_templates start end_ d x t : (x, t) ∈ unposted_rows start end_ d -> t ∈ f_templates d.
Proof.
  unfold unposted_rows. rewrite merge_sort_Permutation. intros (y & _ & Hy)%list_elem_of_omap. unfold item_template, find_template in Hy.
  destruct (List.find _ _) as [t'|] eqn:E; [|done]. injection Hy as <- <-. apply find_some in E as [E _]. by apply list_elem_of_In.
Qed.
Lemma bills_accessible start end_ d rows bs dw :
  books none d -> rows = unposted_rows start end_ d -> map bl_wallet bs = map (fun r => tp_wallet r.2) rows -> known d dw ->
  accessible_books (map (bill_wallet dw) bs) d.
Proof.
  intros Hb -> Hbs Hk. apply Forall_map, Forall_forall. intros b Hin. unfold bill_wallet.
  assert (ref_ok d dw) as Hdw by (split; [by apply (b_new _ _ Hb)|done]).
  destruct (bl_wallet b) as [w|] eqn:Ew; [|done]. destruct (String.eqb w ""); [done|].
  assert (Some w ∈ map (fun r : bill_item_row * bill_template_row => tp_wallet r.2) (unposted_rows start end_ d)) as Hw.
  { rewrite <- Hbs, <- Ew. apply list_elem_of_In, in_map, list_elem_of_In, Hin. }
  apply list_elem_of_In, in_map_iff in Hw as ([x t] & Ht & Hx). apply list_elem_of_In, unposted_rows_templates in Hx.
  pose proof (b_templates _ _ Hb) as Htp. rewrite Forall_forall in Htp. by apply (Htp t Hx).
Qed.
Lemma post_in_tx_books u label dw now bs ws :
  ws = map (bill_wallet dw) bs ->
  triple true (fun d => books none d /\ accessible_books ws d) (in_tx InternalE (post_bills u label dw now bs))
    (fun r d => match r with Ok _ => posting_books ws d | Err _ => books none d end).
Proof.
  intros ->. eapply t_in_tx_body with (P := posting_books _); [apply post_bills_books| |tauto|cbn; by split].
  - apply Forall_forall. intros b Hb. apply list_elem_of_In, in_map, list_elem_of_In, Hb.
  - intros d [Hb Ha]. split; [|done]. eapply books_mono; [exact Hb|]. by intros w [].
Qed.
Lemma tryPost_books u start end_ label now : leaves (books none) (tryPostMonthlyBillingTransactions u start end_ label now).
Proof.
  unfold tryPostMonthlyBillingTransactions. eapply t_reads_any; [eapply reads_any, reads_or_internal, reads_read|intros n|done].
  apply t_if; intros _; [by apply t_ret|]. eapply t_reads_bind; [apply reads_or_internal, reads_read|intros rows|done].
  eapply t_reads_bind; [apply reads_bills|intros bs|tauto]. eapply t_reads_bind; [apply reads_default_wallet|intros dw|tauto]. cbv zeta.
  set (ws := map (bill_wallet dw) bs). eapply t_conseq with (P := fun d => books none d /\ accessible_books ws d);
    [|intros d [[[Hb Hr] Hbs] Hk]; split; [done|by eapply bills_accessible]|intros r d H; exact H].
  rd. eapply t_bind; [by apply (post_in_tx_books u label dw now bs ws)|intros x|done].
  eapply t_conseq with (P := fun d => books (fun w => w ∈ remove_dups ws) d /\ Forall canonical ws);
    [apply t_pure; intros Hc|intros d [Hb Ha]; split|intros r d H; exact H].
  - eapply t_seq; [apply refresh_each_books|intros _; apply events_books]. rewrite Forall_forall in *. intros w Hw. apply Hc. by apply elem_of_remove_dups.
  - eapply books_mono; [exact Hb|]. intros w Hw. by apply elem_of_remove_dups.
  - eapply Forall_impl; [exact Ha|]. by intros w [? _].
Qed.
Lemma sync_books u start end_ label now : leaves (books none) (syncMonthlyBillingPeriod u start end_ label now).
Proof.
  unfold syncMonthlyBillingPeriod. eapply t_seq; [|intros _; apply tryPost_books].
  apply or_else_keeps, t_stmt_leaves. intros d Hd. by apply books_items.
Qed.
Lemma GetMonthlyBillingChecklist_books u period now : leaves (books none) (GetMonthlyBillingChecklist u period now).
Proof.
  unfold GetMonthlyBillingChecklist. do 2 rd. destruct a0 as [[start end_] label]. rd.
  eapply t_seq; [apply ensureItems_books|intros _]. eapply t_seq; [apply sync_books|intros _].
  eapply t_reads; [apply reads_billing|done|done].
Qed.

(** *** Unchecking *)
Lemma soft_delete_books f d :
  books none d -> one_sided f d ->
  match write_txns (map (fun t => if f t then delete_txn_row t else t) (f_txns d)) d with
  | (Ok _, d') => books (fun w => w ∈ wallets_of f d) d' | (Err _, _) => True end.
Proof.
  intros Hb Hs. unfold write_txns. destruct (txns_valid _) eqn:Hv; [|done]. eapply books_txns; [exact Hb|exact Hv|..].
  - apply Forall_map. eapply Forall_impl; [exact (b_refs _ _ Hb)|]. intros t Ht. cbn. by destruct (f t).
  - apply Forall_map. eapply Forall_impl; [exact (b_cover _ _ Hb)|]. intros t Ht. cbn. by destruct (f t).
  - intros w Hw. split; [by intros []|]. rewrite sum_of_map. apply sum_of_ext. intros t Ht. destruct (f t) eqn:Ef; [|done].
    assert (tx_wallet t <> w) as Hne by (intros <-; apply Hw, wallets_of_spec; by exists t).
    rewrite (Hs t w Ht Ef) by congruence. by apply contribution_uncounted, andb_false_r.
Qed.
Lemma item_expense_one_sided ref i d : books none d -> one_sided (item_expense ref i d) d.
Proof.
  intros Hb t w Ht Hf Hw. unfold item_expense in Hf. apply andb_true_iff in Hf as [Hf _]. apply andb_true_iff in Hf as [_ Hty].
  apply String.eqb_eq in Hty. destruct (b_system _ _ Hb) as [_ (r & Hr & _ & Hflow)]. unfold contribution. destruct (touches w t && counts t); [|done].
  assert (flow_of d (tx_type t) = "expense") as -> by (unfold flow_of; by rewrite Hty, Hr).
  unfold credit, debit. cbn. by rewrite (proj2 (String.eqb_neq _ _) (not_eq_sym Hw)).
Qed.
Lemma map_unchanged {A} (f : A -> bool) (g : A -> A) l : existsb f l = false -> map (fun x => if f x then g x else x) l = l.
Proof. induction l as [|x l IH]; [done|]. cbn. intros [-> H]%orb_false_iff. by rewrite IH. Qed.
Lemma uncheck_statement ref u itemID i ws :
  uuid_in itemID = Some i ->
  triple true (fun d => books none d /\ ws = wallets_of (item_expense ref i d) d)
    (or_internal (with_uuid itemID (fun i d =>
      match uuid_in (AccountID u) with
      | None => (Err bad_input, d)
      | Some _ =>
          match write_txns (map (fun t => if item_expense ref i d t then delete_txn_row t else t) (f_txns d)) d with
          | (Ok _, d') => (Ok (existsb (item_expense ref i d) (f_txns d)), d')
          | (Err e, _) => (Err e, d)
          end
      end)))
    (fun r d => match r with Ok true => books (fun w => w ∈ ws) d /\ Forall canonical ws | _ => books none d end).
Proof.
  intros Hi. apply or_else_triple, t_stmt. intros d [Hb ->]. unfold stmt_post. rewrite Hi. destruct (uuid_in (AccountID u)); [|done].
  pose proof (soft_delete_books (item_expense ref i d) d Hb (item_expense_one_sided ref i d Hb)) as H.
  unfold write_txns in *. destruct (txns_valid _) eqn:Hv; [|done]. split; [|done].
  destruct (existsb _ _) eqn:Ex; [split; [done|by apply wallets_of_canonical]|]. rewrite map_unchanged by done.
  eapply books_same; [|exact Hb]. done.
Qed.
Lemma unlink_books S itemID i :
  uuid_in itemID = Some i -> triple true (books S) (or_internal (uexec itemID (fun i => edit_item i (set_item_txn None)))) (fun r d => r = Ok tt /\ books S d).
Proof.
  intros Hi. apply or_else_triple, t_stmt. intros d Hd. unfold stmt_post. rewrite Hi. split; [|done]. split; [done|]. by apply books_items.
Qed.
Lemma removeChecklistBilling_books u itemID now : leaves (books none) (removeChecklistBillingTransaction u itemID now).
Proof.
  unfold removeChecklistBillingTransaction. cbv zeta. eapply t_reads_any; [eapply reads_any, reads_or_no_item, reads_uquery|intros due|done]. rd.
  eapply t_reads_bind; [apply reads_or_internal, reads_uread|intros ws|done]. destruct (uuid_in itemID) as [i|] eqn:Hi.
  2: { eapply t_conseq with (P := fun d => books none d /\ False); [by apply t_pure|by intros d (_ & ? & ? & _)|intros r d H; exact H]. }
  eapply t_bind; [eapply t_conseq; [by apply (uncheck_statement _ u itemID i ws)|intros d (Hb & j & [= <-] & ->); by split|intros r d H; exact H]|intros n|done].
  destruct n.
  - apply t_pure. intros Hc. eapply t_bind; [by eapply unlink_books|intros x|by intros e d [? _]].
    eapply t_conseq; [by apply refresh_each_books|intros d [_ H]; exact H|done].
  - eapply t_bind; [by eapply unlink_books|intros x; apply t_ret; by intros d [_ ?]|by intros e d [? _]].
Qed.
Lemma ToggleMonthlyBillingItem_books u itemID checked now : leaves (books none) (ToggleMonthlyBillingItem u itemID checked now).
Proof.
  unfold ToggleMonthlyBillingItem. rd. apply t_if; [intros _; by apply t_throw|intros _]. rd.
  eapply t_reads_any; [eapply reads_any, reads_or_no_item, reads_uquery|intros [due freq]|done].
  apply t_if; [intros _; by apply t_throw|intros _]. eapply t_reads_any; [eapply reads_any, reads_of_result|intros [[start end_] label]|done].
  eapply t_seq; [apply t_if; intros _; [by apply t_ret|apply removeChecklistBilling_books]|intros _].
  eapply t_seq; [apply or_else_keeps, t_stmt_leaves|intros _].
  { intros d Hd. destruct (uuid_in itemID); [|done]. destruct (uuid_in (AccountID a)); [|done]. by apply books_items. }
  eapply t_seq; [apply ensureItems_books|intros _]. eapply t_seq; [apply sync_books|intros _].
  eapply t_reads; [apply reads_billing|done|done].
Qed.
End handlers.
