(* ===== verification/FinSample.v ===== *)
(** * A sample tenant

    Concrete stand-ins for what the classes of FinTables.v leave open, and a new
    tenant with its seeded transaction types, for the witnesses of the finance
    theorems: UUIDs in either letter case, dates around the turn of 2025,
    amounts cut to the column's scale, every zone at UTC+7. *)
From S2P Require Import Prelude GoStrings AdminSession PgTx DaySlots Dates Float64 Pii Billing Recurring FinTables Checklist FinLedger.

Open Scope string_scope.
Open Scope Z_scope.

Definition lower_hex (c : ascii) : ascii := if (65 <=? code c)%N && (code c <=? 70)%N then byte (code c + 32) else c.
Fixpoint map_string (f : ascii -> ascii) (s : string) : string := match s with "" => "" | String c s' => String (f c) (map_string f s') end.
Definition sample_uuid (s : string) : option string := match s with "" => None | _ => Some (map_string lower_hex s) end.
(** 2024-12-25 *)
Definition first_day : Z := day_of_time (time_Unix 1735084800).
Definition sample_date (s : string) : option Z :=
  List.find (fun d => String.eqb (date_text d) s) (map (fun n => first_day + Z.of_nat n) (seq 0 20)).
Definition sample_in (scale : Z) (x : f64) : option Z :=
  match x with
  | S754_zero _ => Some 0
  | S754_finite s m e =>
      let n := if 0 <=? e then Zpos m * 2 ^ e * 10 ^ scale else Zpos m * 10 ^ scale / 2 ^ (- e) in
      Some (if s then - n else n)
  | _ => None
  end.
Definition sample_input : PgInput := {|
  uuid_in := sample_uuid; date_in := sample_date; numeric_in := sample_in;
  numeric_out := fun scale n => fdiv (of_Z n) (of_Z (10 ^ scale)); array_scan := Some
|}.
Definition sample_secrets : FinSecrets := {| DataEncryptionKey := sample_secret; fin_cipher := sample_gcm |}.
Definition sample_zones : TimeZones := {| LoadLocation := fun _ _ => Some (7 * Hour) |}.

Lemma lower_hex_twice c : lower_hex (lower_hex c) = lower_hex c.
Proof. destruct c as [[] [] [] [] [] [] [] []]; reflexivity. Qed.
Lemma map_string_twice f s : (forall c, f (f c) = f c) -> map_string f (map_string f s) = map_string f s.
Proof. intros Hf. induction s as [|c s IH]; cbn; [done|]. by rewrite Hf, IH. Qed.
Lemma sample_laws : @PgInputLaws sample_input.
Proof.
  split; [|done]. intros [|c s] u; [done|]. intros [= <-]. cbn [uuid_in sample_input sample_uuid map_string].
  by rewrite lower_hex_twice, map_string_twice by apply lower_hex_twice.
Qed.
Lemma sample_date_text s d : sample_date s = Some d -> date_text d = s.
Proof. intros H. apply find_some in H as [_ H]. by apply String.eqb_eq. Qed.

(** ** The tenant *)
Definition seeded (id code kind : string) : type_row :=
  {| tt_id := id; tt_code := code; tt_label := code; tt_flow := code; tt_kind := kind; tt_quick := true; tt_order := 0;
     tt_system := true; tt_owner := false; tt_active := true; tt_deleted := false |}.
Definition no_usage : tenant_tables := {|
  subscriptions := []; invoices := []; topups := []; payments := []; orders := []; usage_events := []; usage_aggregates := ∅;
  fresh_ids := []
|}.
Definition new_tenant : fin_db := {|
  f_wallets := []; f_balances := ∅; f_categories := [];
  f_types := [seeded "t1" "income" "income"; seeded "t2" "expense" "expense"; seeded "t3" "transfer" "any"];
  f_txns := []; f_locks := []; f_approval := None; f_assets := []; f_prices := []; f_rules := []; f_templates := []; f_items := []; f_audit := [];
  f_usage := no_usage; f_timezone := None;
  f_ids := ["a1"; "a2"; "a3"; "a4"; "a5"; "a6"; "a7"; "a8"; "a9"]
|}.
Definition user_of (role account : string) : AuthUser := {|
  AccountID := account; TenantID := "d1"; TenantSchema := "tenant_d1"; Email := ""; Name := ""; Role := role; SessionID := "";
  HomeTenantID := "d1"; HomeTenantSchema := "tenant_d1"; IsPlatformSession := false; SessionKind := "client"; Impersonating := false;
  ImpersonationTenantName := ""; ImpersonationTenantSlug := ""; ImpersonationScope := ""; ImpersonationModules := [];
  ImpersonationExpiresAt := None
|}.
Definition boss : AuthUser := user_of "owner" "e1".
Definition clerk : AuthUser := user_of "staff" "e2".
(** noon of 2025-01-02, UTC *)
Definition sample_now : Z := time_Unix 1735819200.
