(* ===== verification/FinCalls.v ===== *)
(** * Finance calls and their histories

    Every call of the finance component as data, what serving a history of
    calls does to the tables, and that wallet balances stay exact. *)
From S2P Require Import Prelude GoStrings AdminSession PgTx Triples DaySlots Dates Float64 Pii Billing Recurring FinTables FinTxns FinAssets FinPosting Checklist FinLedger FinBooks ChecklistBooks FinSample.

Open Scope string_scope.
Open Scope Z_scope.

(** ** Calls *)
Inductive call :=
| CallCreateWallet (p : CreateWalletParams)
| CallUpdateWallet (id : string) (p : UpdateWalletParams)
| CallDeleteWallet (id : string)
| CallCreateCategory (p : CreateCategoryParams)
| CallDeleteCategory (id : string)
| CallCreateType (p : CreateTransactionTypeParams)
| CallUpdateType (id : string) (p : UpdateTransactionTypeParams)
| CallDeleteType (id : string)
| CallCreateTransaction (p : CreateTransactionParams)
| CallUpdateTransaction (id : string) (p : UpdateTransactionParams)
| CallDeleteTransaction (id : string)
| CallApprove (id action reason : string)
| CallDuplicate (ids : list string) (date : string)
| CallSetApproval (p : ApprovalSettingParams)
| CallLockPeriod (period : string)
| CallCreateAsset (p : CreateAssetParams)
| CallUpdateAsset (id : string) (p : UpdateAssetParams)
| CallDeleteAsset (id : string)
| CallAssetPrice (id : string) (price : f64)
| CallTrade (id : string) (p : TradeParams)
| CallDividend (id : string) (p : DividendParams)
| CallDeleteTrade (id txn : string)
(** monthly bills; [random] is the nonce a title is encrypted under *)
| CallCreateTemplate (p : CreateChecklistTemplateParams) (random : result (list Z))
| CallUpdateTemplate (id : string) (p : UpdateChecklistTemplateParams)
| CallDeleteTemplate (id : string)
| CallTodayChecklist
| CallChecklistAction (p : ChecklistActionParams)
| CallMonthlyBills (period : string)
| CallToggleBill (item : string) (checked : bool)
(** from orders and stock *)
| PostOrderIncome (by_ order : string) (amount : f64) (wallet : string)
| PostResyncOrder (by_ order : string) (amount : f64) (wallet : string)
| PostRemoveOrder (order : string)
| PostInventory (by_ ref flow category desc : string) (amount : f64) (wallet : string)
| PostRemoveInventory (refs : list string).
(** a call that users make themselves *)
Definition is_api (c : call) : bool :=
  match c with
  | PostOrderIncome _ _ _ _ | PostResyncOrder _ _ _ _ | PostRemoveOrder _ | PostInventory _ _ _ _ _ _ _ | PostRemoveInventory _ => false
  | _ => true
  end.
Record request := { rq_user : option AuthUser; rq_now : Z; rq_call : call }.

Section calls.
Context `{HI : PgInput} `{HT : TimeZones} `{HS : FinSecrets}.

Definition quiet {A} (m : fin A) : fin unit := m;! ret tt.
Definition run (r : request) : fin unit :=
  let u := rq_user r in
  let now := rq_now r in
  match rq_call r with
  | CallCreateWallet p => quiet (CreateWallet u p now)
  | CallUpdateWallet id p => UpdateWallet u id p
  | CallDeleteWallet id => DeleteWallet u id
  | CallCreateCategory p => quiet (CreateCategory u p)
  | CallDeleteCategory id => DeleteCategory u id
  | CallCreateType p => quiet (CreateTransactionType u p)
  | CallUpdateType id p => quiet (UpdateTransactionType u id p)
  | CallDeleteType id => DeleteTransactionType u id
  | CallCreateTransaction p => quiet (CreateTransaction u p now)
  | CallUpdateTransaction id p => quiet (UpdateTransaction u id p now)
  | CallDeleteTransaction id => DeleteTransaction u id now
  | CallApprove id action reason => quiet (ApproveTransaction u id action reason)
  | CallDuplicate ids date => quiet (DuplicateTransactions u ids date now)
  | CallSetApproval p => quiet (UpdateApprovalSetting u p)
  | CallLockPeriod period => LockPeriod u period
  | CallCreateAsset p => quiet (CreateAsset u p)
  | CallUpdateAsset id p => quiet (UpdateAsset u id p)
  | CallDeleteAsset id => DeleteAsset u id
  | CallAssetPrice id price => quiet (UpdateAssetPrice u id price)
  | CallTrade id p => quiet (RecordInvestmentTrade u id p now)
  | CallDividend id p => quiet (RecordAssetDividend u id p now)
  | CallDeleteTrade id txn => DeleteAssetTrade u id txn now
  | CallCreateTemplate p random => quiet (CreateChecklistTemplate u p random now)
  | CallUpdateTemplate id p => quiet (UpdateChecklistTemplate u id p now)
  | CallDeleteTemplate id => DeleteChecklistTemplate u id
  | CallTodayChecklist => quiet (GetTodayChecklist u now)
  | CallChecklistAction p => quiet (ChecklistAction u p now)
  | CallMonthlyBills period => quiet (GetMonthlyBillingChecklist u period now)
  | CallToggleBill item checked => quiet (ToggleMonthlyBillingItem u item checked now)
  | PostOrderIncome by_ order amount w => RecordOrderCompletedIncome by_ order amount w now
  | PostResyncOrder by_ order amount w => ResyncOrderCompletedIncome by_ order amount w now
  | PostRemoveOrder order => RemoveOrderIncomeTransaction order
  | PostInventory by_ ref flow category desc amount w => RecordInventoryEntry by_ ref flow category desc amount w now
  | PostRemoveInventory refs => RemoveInventoryEntries refs
  end.
(** a call on a fresh connection, with the outcomes of its statements *)
Definition serve_one (r : request) (faults : list fault) (d : fin_db) : fin_db := p_db (snd (run r (Build_pg d None faults))).
Fixpoint serve_all (l : list (request * list fault)) (d : fin_db) : fin_db :=
  match l with [] => d | (r, faults) :: rest => serve_all rest (serve_one r faults d) end.

(** *** Requests that keep the ledger's references
    A transaction, an asset or a bill names wallets that exist (a user interface
    offers no others); the flow of a type is not edited; stock entries are not also
    transfers. *)
Definition safe (r : request) (d : fin_db) : Prop :=
  match rq_call r with
  | CallUpdateType _ p => UT_Flow p = None
  | CallCreateTransaction p => names_known d (TP_WalletID p) /\ forall a, TP_ToWalletID p = Some a -> names_known d a
  | CallCreateAsset p => names_known d (CA_WalletID p)
  | CallUpdateAsset _ p => forall w, named_wallet p = Some w -> names_known d (TrimSpace w)
  | CallCreateTemplate p _ => forall a, KC_WalletID p = Some a -> names_known d a
  | CallUpdateTemplate _ p => forall a, KU_WalletID p = Some a -> names_known d (TrimSpace a)
  | PostRemoveInventory refs => plain_refs (uniqueReferenceNos refs) d
  | _ => True
  end.
Fixpoint safe_history (l : list request) (d : fin_db) : Prop :=
  match l with [] => True | r :: rest => safe r d /\ safe_history rest (serve_one r [] d) end.
Definition without_faults (l : list request) : list (request * list fault) := map (fun r => (r, [])) l.

(** a tenant before its first wallet *)
Record fresh (d : fin_db) : Prop := {
  fr_wallets : f_wallets d = []; fr_balances : f_balances d = ∅; fr_txns : f_txns d = []; fr_assets : f_assets d = [];
  fr_templates : f_templates d = [];
  fr_types : types_valid (f_types d) = true;
  fr_system : system_flow d "income" /\ system_flow d "expense";
  fr_ids : NoDup (f_ids d) /\ Forall canonical (f_ids d)
}.
End calls.

Section balances.
Context `{HI : PgInput} `{HT : TimeZones} `{HS : FinSecrets} `{HL : !PgInputLaws}.

Lemma quiet_triple {A} c P (m : fin A) R : triple c P m (fun _ => R) -> triple c P (quiet m) (fun _ => R).
Proof. intros Hm. eapply t_seq; [exact Hm|intros x; by apply t_ret]. Qed.
Lemma run_books r : triple true (fun d => books none d /\ safe r d) (run r) (fun _ => books none).
Proof.
  unfold run, safe. destruct (rq_call r); try apply quiet_triple;
    first [apply CreateTransaction_books|apply CreateChecklistTemplate_books|apply UpdateChecklistTemplate_books|apply CreateAsset_books|apply UpdateAsset_books|apply RemoveInventoryEntries_books
          |apply t_pure; intros Hp; by apply UpdateTransactionType_books|apply t_pure; intros _];
    auto using CreateWallet_books, UpdateWallet_books, DeleteWallet_books, CreateCategory_books, DeleteCategory_books,
      CreateTransactionType_books, DeleteTransactionType_books, UpdateTransaction_books, DeleteTransaction_books,
      ApproveTransaction_books, DuplicateTransactions_books, UpdateApprovalSetting_books, LockPeriod_books, DeleteAsset_books,
      UpdateAssetPrice_books, RecordInvestmentTrade_books, RecordAssetDividend_books, DeleteAssetTrade_books,
      DeleteChecklistTemplate_books, GetTodayChecklist_books, ChecklistAction_books, GetMonthlyBillingChecklist_books,
      ToggleMonthlyBillingItem_books,
      RecordOrderCompletedIncome_books, ResyncOrderIncome_books, RemoveOrderIncome_books, RecordInventoryEntry_books.
Qed.
Lemma serve_triple c (P : fin_db -> Prop) r R faults d :
  triple c P (run r) (fun _ => R) -> (c = true -> faults = []) -> P d -> R (serve_one r faults d).
Proof.
  intros Hr Hf Hd. unfold serve_one. specialize (Hr (Build_pg d None faults) (conj eq_refl Hf) Hd).
  destruct (run r _) as [x w]. by destruct Hr.
Qed.
Lemma serve_all_books l d : books none d -> safe_history l d -> books none (serve_all (without_faults l) d).
Proof.
  revert d. induction l as [|r l IH]; intros d Hb Hs; [exact Hb|]. destruct Hs as [Hs Hl]. cbn. apply IH; [|exact Hl].
  eapply serve_triple; [apply run_books|done|by split].
Qed.
Lemma fresh_books d : fresh d -> books none d.
Proof.
  intros []. assert (forall w, ~ known d w) as Hk by (intros w [r Hr]; unfold find_wallet in Hr; by rewrite fr_wallets0 in Hr).
  split; try done.
  - by rewrite fr_txns0.
  - intros w Hw. by apply Hk in Hw.
  - intros w [b Hb]. by rewrite fr_balances0, lookup_empty in Hb.
  - rewrite fr_txns0. constructor.
  - rewrite fr_assets0. constructor.
  - rewrite fr_templates0. constructor.
  - rewrite fr_txns0. constructor.
  - intros w _ row Hr. exfalso. apply (Hk w). by exists row.
Qed.
(** [names_known] by computation *)
Definition names_knownb (d : fin_db) (a : string) : bool :=
  match uuid_in a with Some w => bool_decide (is_Some (find_wallet d w)) | None => true end.
Lemma names_knownb_true d a : names_knownb d a = true -> names_known d a.
Proof. unfold names_knownb, names_known. intros H w Hw. rewrite Hw in H. by apply bool_decide_eq_true in H. Qed.
Definition safe_txn (d : fin_db) (p : CreateTransactionParams) : bool :=
  names_knownb d (TP_WalletID p) && match TP_ToWalletID p with Some a => names_knownb d a | None => true end.
Lemma safe_txn_true u now p d : safe_txn d p = true -> safe {| rq_user := u; rq_now := now; rq_call := CallCreateTransaction p |} d.
Proof.
  intros H. apply andb_true_iff in H as [H1 H2]. split; [by apply names_knownb_true|]. cbn. intros a Ha. rewrite Ha in H2.
  by apply names_knownb_true.
Qed.
(** C38. Balances are exact.  After any history of the finance calls of [call]
    (wallets, categories, types, transactions, approval, locks, assets, bills,
    order and stock postings) on a new tenant, no statement failing, every
    wallet's cached balance is its initial balance plus the net of its
    approved, undeleted transactions, as long as that fits the balance column.
    The history is [safe]: transactions, assets and bills name existing
    wallets, no type's flow is edited, the references that stock removes belong
    to no transfer. *)
Theorem balances_exact l d w row :
  fresh d -> safe_history l d ->
  let d' := serve_all (without_faults l) d in
  find_wallet d' w = Some row -> fits (w_initial row + net d' w) = true ->
  f_balances d' !! w = Some (w_initial row + net d' w).
Proof.
  intros Hd Hl d' Hw Hf. apply (b_synced _ _ (serve_all_books l d (fresh_books d Hd) Hl)); [intros []|done|done].
Qed.
End balances.

(** *** The sample tenant's history *)
Definition new_wallet (name : string) (balance : Z) : CreateWalletParams := {|
  CW_Name := name; CW_Type := "cash"; CW_Institution := None; CW_AccountNo := None; CW_Currency := ""; CW_InitialBalance := of_Z balance;
  CW_Color := None; CW_Icon := None; CW_Visibility := "all"; CW_DisplayOrder := 0
|}.
Definition new_txn (ty : string) (amount : Z) (from : string) (to : option string) (date : string) : CreateTransactionParams := {|
  TP_Type := ty; TP_Amount := of_Z amount; TP_Currency := ""; TP_WalletID := from; TP_ToWalletID := to; TP_CategoryID := None;
  TP_Description := None; TP_Notes := None; TP_ReferenceNo := None; TP_TransactionDate := date; TP_Tags := []
|}.
Definition by_boss (c : call) : request := {| rq_user := Some boss; rq_now := sample_now; rq_call := c |}.
Definition by_clerk (c : call) : request := {| rq_user := Some clerk; rq_now := sample_now; rq_call := c |}.
Definition two_wallets : list request :=
  [by_boss (CallCreateWallet (new_wallet "Kas" 1000)); by_boss (CallCreateWallet (new_wallet "Bank" 500))].
Definition sample_history : list request :=
  (two_wallets ++
   [by_boss (CallCreateTransaction (new_txn "transfer" 200 "a1" (Some "A2") "2024-12-30"));
    by_boss (CallCreateTransaction (new_txn "expense" 50 "a1" None ""));
    by_clerk (CallCreateTransaction (new_txn "income" 75 "a2" None "2025-01-01"));
    by_boss (CallDeleteTransaction "A4")])%list.
Abbreviation sample_serve_all := (@serve_all sample_input sample_zones sample_secrets).
(** a monthly bill of 30.00 from "Kas", checked by the clerk *)
Definition new_bill : CreateChecklistTemplateParams := {|
  KC_Title := "Listrik"; KC_Description := None; KC_AmountHint := Some (of_Z 30); KC_CategoryID := None; KC_WalletID := Some "a1";
  KC_Frequency := ""; KC_DayOfMonth := None; KC_DueDate := "2025-01-10"; KC_Order := 0
|}.
Definition bill_calls : list request :=
  [by_boss (CallCreateTemplate new_bill (Ok sample_nonce)); by_boss (CallMonthlyBills "2025-1"); by_clerk (CallToggleBill "a7" true)].
Lemma new_tenant_fresh : @fresh sample_input new_tenant.
Proof.
  split; [reflexivity..|split; eexists; (split; [reflexivity|split; reflexivity])|split].
  - apply (bool_decide_unpack _). vm_compute. exact I.
  - cbn. repeat constructor.
Qed.
Lemma bill_named_known {HI : PgInput} d random u now : names_knownb d "a1" = true -> safe {| rq_user := u; rq_now := now; rq_call := CallCreateTemplate new_bill random |} d.
Proof. intros H a [= <-]. by apply names_knownb_true. Qed.
Lemma balances_exact_witness :
  let d := sample_serve_all (without_faults (sample_history ++ bill_calls)) new_tenant in
  (f_balances d !! "a1", f_balances d !! "a2") = (Some 77000, Some 77500) /\
  f_balances d !! "a1" = Some (100000 + net d "a1").
Proof.
  split; [vm_compute; reflexivity|].
  refine (@balances_exact sample_input sample_zones sample_secrets sample_laws (sample_history ++ bill_calls)%list new_tenant "a1"
    (wallet_of (new_wallet "Kas" 1000) sample_now 100000 "a1") new_tenant_fresh _ _ _);
    [|vm_compute; reflexivity..].
  split; [exact I|split; [exact I|]]. do 3 (split; [apply safe_txn_true; vm_compute; reflexivity|]). split; [exact I|].
  split; [apply bill_named_known; vm_compute; reflexivity|]. repeat (split; [exact I|]). exact I.
Defined.

(** *** Why a type's flow must not be edited
    The edit refreshes no balance: 10.00 booked under a type of income stays in
    the cached balance after the type became an expense, while the
    transactions now say 20.00 less. *)
Definition reflow_calls : list request :=
  (two_wallets ++
   [by_boss (CallCreateType {| TY_Code := "bonus"; TY_Label := "Bonus"; TY_Flow := "income"; TY_CategoryKind := "any";
      TY_ShowInQuick := true; TY_DisplayOrder := 9 |});
    by_boss (CallCreateTransaction (new_txn "bonus" 10 "a1" None ""));
    by_boss (CallUpdateType "a3" {| UT_Label := None; UT_Flow := Some "expense"; UT_CategoryKind := None; UT_ShowInQuick := None;
      UT_DisplayOrder := None; UT_IsActive := None |})])%list.
Lemma reflow_leaves_balance :
  let d := sample_serve_all (without_faults reflow_calls) new_tenant in
  f_balances d !! "a1" = Some 101000 /\ w_initial <$> find_wallet d "a1" = Some 100000 /\ net d "a1" = - 1000.
Proof. vm_compute. by split. Qed.
