(* ===== verification/FinLocks.v ===== *)
(** * Locked periods

    Once the owner locks a month, no finance call changes, adds or removes a
    transaction dated in it, except that a pending one may still be approved or
    rejected; whatever statements fail.  Calls that remove transactions of
    orders, stock entries or unchecked bills do not look at the month of what
    they remove and are left out. *)
From S2P Require Import Prelude GoStrings AdminSession PgTx Triples DaySlots Dates Float64 Pii Billing Recurring FinTables FinTxns FinAssets FinPosting Checklist FinLedger FinBooks ChecklistBooks FinSample FinCalls.

Open Scope string_scope.
Open Scope Z_scope.

(** ** Dates as the layout "2006-01-02" writes them *)
Definition iso_date (s : string) : Prop := exists t, s = format_date t.
(** Postgres reads such a text as the day it names *)
Class PgDates {I : PgInput} : Prop := {
  date_read t d : date_in (format_date t) = Some d -> date_text d = format_date t
}.
Definition month_of (day : Z) : string := take_bytes 7 (date_text day).

(** ** What must not change: the live transactions of the month *)
Definition cell (p : string) (t : txn_row) : option txn_row :=
  if negb (tx_deleted t) && String.eqb (month_of (tx_date t)) p then Some t else None.
Definition period_rows (p : string) (d : fin_db) : list txn_row := omap (cell p) (f_txns d).
Definition locked (p : string) (d : fin_db) : bool := existsb (String.eqb p) (f_locks d).
(** A row as it was, or a pending one that was decided. *)
Definition settles (t t' : txn_row) : Prop :=
  t' = t \/ tx_status t = "pending_approval" /\
    exists status by_ reason, (status = "approved" \/ status = "rejected") /\ t' = decide_txn status by_ reason t.
#[export] Instance settles_trans : Transitive settles.
Proof.
  intros t t1 t2 [->|(Hp & s & by_ & r & Hs & ->)] H2; [exact H2|]. destruct H2 as [->|(Hp2 & _)]; [right; eauto 8|].
  cbn in Hp2. destruct Hs as [-> | ->]; discriminate Hp2.
Qed.
#[export] Instance settles_refl : Reflexive settles.
Proof. by left. Qed.
(** what a change of a row shows of it in the month *)
Definition cell_step (p : string) (t t' : txn_row) : Prop := option_Forall2 settles (cell p t) (cell p t').
Lemma cell_same p t t' : cell p t' = cell p t -> cell_step p t t'.
Proof. unfold cell_step. intros ->. destruct (cell p t); constructor. reflexivity. Qed.
Lemma cell_decided p t status by_ reason :
  tx_status t = "pending_approval" -> status = "approved" \/ status = "rejected" -> cell_step p t (decide_txn status by_ reason t).
Proof.
  intros Hp Hs. unfold cell_step, cell. cbn [tx_deleted tx_date decide_txn]. destruct (_ && _); constructor. right. split; [done|eauto 8].
Qed.
Lemma omap_map_step p (h : txn_row -> txn_row) l :
  (forall x, x ∈ l -> cell_step p x (h x)) -> Forall2 settles (omap (cell p) l) (omap (cell p) (map h l)).
Proof.
  induction l as [|x l IH]; intros H; [constructor|]. specialize (IH (fun y Hy => H y (list_elem_of_further _ _ _ Hy))).
  specialize (H x (list_elem_of_here _ _)). cbn. unfold cell_step in H. destruct H; [by constructor|exact IH].
Qed.

Lemma cell_month p t : month_of (tx_date t) <> p -> cell p t = None.
Proof. unfold cell. intros H. rewrite (proj2 (String.eqb_neq _ _) H). by rewrite andb_false_r. Qed.
Lemma omap_filter_out {A B} (g : A -> option B) (f : A -> bool) l :
  (forall x, x ∈ l -> f x = false -> g x = None) -> omap g (List.filter f l) = omap g l.
Proof.
  induction l as [|x l IH]; intros H; [done|]. cbn. rewrite <- IH by (intros y Hy; apply H; by right).
  destruct (f x) eqn:E; [done|]. by rewrite (H x) by (done || left).
Qed.
Lemma format_date_text t : format_date t = date_text (t / Day).
Proof. unfold date_text, format_date, date_of, day_of_time. by rewrite Z.div_mul. Qed.
Lemma iso_length s : iso_date s -> (7 <=? String.length s)%nat = true.
Proof. intros [t ->]. reflexivity. Qed.
Lemma iso_text day : iso_date (date_text day).
Proof. by eexists. Qed.

Section locks.
Context `{HI : PgInput} `{HT : TimeZones} `{HD : !PgDates} (p : string) (X : list txn_row).

Record closed (d : fin_db) : Prop := {
  c_valid : txns_valid (f_txns d) = true; c_locked : locked p d = true; c_rows : Forall2 settles X (period_rows p d)
}.
Definition keeps {A} (m : fin A) : Prop := triple false closed m (fun _ => closed).

(** *** Rules *)
Lemma closed_bind {A B} (m : fin A) (k : A -> fin B) : keeps m -> (forall a, keeps (k a)) -> keeps (bind m k).
Proof. apply t_seq. Qed.
Lemma closed_ret {A} (a : A) : keeps (ret a).
Proof. by apply t_ret. Qed.
Lemma closed_throw {A} e : keeps (throw (A:=A) e).
Proof. by apply t_throw. Qed.
Lemma closed_attempt {A} (m : fin A) : keeps m -> keeps (attempt m).
Proof. intros Hm. by apply t_attempt. Qed.
Lemma closed_ignore {A} (m : fin A) : keeps m -> keeps (ignore m).
Proof. intros Hm. by apply t_ignore. Qed.
Lemma closed_if {A} (b : bool) (m1 m2 : fin A) : keeps m1 -> keeps m2 -> keeps (if b then m1 else m2).
Proof. by destruct b. Qed.
Lemma closed_when {A} (o : option A) k : (forall a, keeps (k a)) -> keeps (when_some o k).
Proof. intros Hk. destruct o; [apply Hk|apply closed_ret]. Qed.
Lemma closed_reads {A} (m : fin A) F : reads false m F -> keeps m.
Proof. intros Hm. eapply t_reads; [exact Hm|done|done]. Qed.
Lemma closed_or_else {A} wrap (m : fin A) : keeps m -> keeps (or_else wrap m).
Proof. intros Hm. apply closed_bind; [by apply closed_attempt|]. intros [a|e]; [apply closed_ret|apply closed_throw]. Qed.
Lemma closed_or_internal {A} (m : fin A) : keeps m -> keeps (or_internal m).
Proof. apply closed_or_else. Qed.
Lemma closed_stmt {A} (f : fin_db -> result A * fin_db) : (forall d, closed d -> closed (snd (f d))) -> keeps (stmt f).
Proof. apply t_stmt_keep. Qed.

(** *** Statements *)
(** other tables *)
Lemma closed_frame d d' : f_txns d' = f_txns d -> f_locks d' = f_locks d -> closed d -> closed d'.
Proof. intros H1 H2 [Hv Hl Hr]. split; unfold locked, period_rows; rewrite ?H1, ?H2; [exact Hv|exact Hl|exact Hr]. Qed.
Lemma closed_txns_step l d :
  closed d -> txns_valid l = true -> Forall2 settles (omap (cell p) (f_txns d)) (omap (cell p) l) -> closed (set_txns l d).
Proof.
  intros [] Hv Hl. split; [exact Hv|done|]. unfold period_rows. cbn [f_txns set_txns].
  transitivity (omap (cell p) (f_txns d)); [exact c_rows0|exact Hl].
Qed.
Lemma closed_txns l d : closed d -> txns_valid l = true -> omap (cell p) l = omap (cell p) (f_txns d) -> closed (set_txns l d).
Proof. intros Hd Hv Hl. apply closed_txns_step; [done..|]. rewrite Hl. reflexivity. Qed.
Lemma closed_other {A} (f : fin_db -> result A * fin_db) :
  (forall d, f_txns (snd (f d)) = f_txns d /\ f_locks (snd (f d)) = f_locks d) -> keeps (stmt f).
Proof. intros Hf. apply closed_stmt. intros d. by apply closed_frame; apply Hf. Qed.
Lemma closed_insert row d :
  (forall i t, row i = Some t -> month_of (tx_date t) <> p) -> closed d -> closed (snd (insert_txn row d)).
Proof.
  intros Hr Hd. unfold insert_txn, with_id. destruct (f_ids d) as [|i rest]; [done|]. destruct (row i) as [t|] eqn:Ht; [|by (eapply closed_frame; [| |exact Hd])].
  unfold write_txns. destruct (txns_valid _) eqn:Hv; [|by (eapply closed_frame; [| |exact Hd])]. cbn [fst snd].
  apply (closed_txns _ (set_ids rest d)); [by (eapply closed_frame; [| |exact Hd])|exact Hv|]. rewrite omap_app. cbn. rewrite cell_month by by eapply Hr. by rewrite app_nil_r.
Qed.
Lemma closed_insert_or_nothing row d :
  (forall i t, row i = Some t -> month_of (tx_date t) <> p) -> closed d -> closed (snd (insert_or_nothing row d)).
Proof.
  intros Hr Hd. unfold insert_or_nothing, with_id. destruct (f_ids d) as [|i rest]; [done|]. destruct (row i) as [t|] eqn:Ht; [|by (eapply closed_frame; [| |exact Hd])].
  destruct (negb _); [by (eapply closed_frame; [| |exact Hd])|].
  unfold write_txns. destruct (txns_valid _) eqn:Hv; [|by (eapply closed_frame; [| |exact Hd])]. cbn [fst snd].
  apply (closed_txns _ (set_ids rest d)); [by (eapply closed_frame; [| |exact Hd])|exact Hv|]. rewrite omap_app. cbn. rewrite cell_month by by eapply Hr. by rewrite app_nil_r.
Qed.
Lemma closed_update i f d :
  closed d -> (forall x, x ∈ f_txns d -> tx_id x = i -> cell_step p x (f x)) -> closed (snd (update_txn i f d)).
Proof.
  intros Hd Hf. unfold update_txn, write_txns. destruct (txns_valid _) eqn:Hv; [|done]. cbn [snd].
  apply closed_txns_step; [done..|]. apply omap_map_step. intros x Hx. destruct (String.eqb_spec (tx_id x) i); [by apply Hf|by apply cell_same].
Qed.
Lemma closed_keep f d : closed d -> (forall x, x ∈ f_txns d -> f x = false -> cell p x = None) -> closed (keep_txns f d).
Proof. intros Hd Hf. apply closed_txns; [done|apply txns_valid_filter, Hd|by apply omap_filter_out]. Qed.
(** [looked_up] stays while nothing is written *)
Lemma looked_up_only id t d x : closed d -> looked_up id t d -> x ∈ f_txns d -> uuid_in id = Some (tx_id x) -> x = t.
Proof. intros Hd [Ht Hi] Hx Hi'. eapply same_txn_id; [apply Hd|done|done|congruence]. Qed.

(** *** The guard *)
Lemma closed_guard {A} q (k : unit -> fin A) Y :
  (q <> p -> triple false (fun d => closed d /\ Y d) (k tt) (fun _ => closed)) ->
  triple false (fun d => closed d /\ Y d) (bind (ensurePeriodUnlocked q) k) (fun _ => closed).
Proof.
  intros Hk. eapply t_reads_bind; [apply reads_unlocked|intros []|tauto].
  eapply t_conseq with (P := fun d => (closed d /\ Y d) /\ q <> p); [by apply t_pure| |done].
  intros d [[Hd HY] Hq]. split; [done|]. intros ->. pose proof (c_locked _ Hd) as H. unfold locked in H. congruence.
Qed.
Lemma closed_guard' {A} q (k : unit -> fin A) : (q <> p -> keeps (k tt)) -> keeps (bind (ensurePeriodUnlocked q) k).
Proof.
  intros Hk. eapply t_conseq; [apply (closed_guard q k (fun _ => True)); intros Hq; eapply t_conseq; [by apply Hk|tauto|done]|done|done].
Qed.
Lemma walletPeriod_iso now s : iso_date s -> walletPeriod now s = take_bytes 7 s.
Proof. intros Hs. unfold walletPeriod. by rewrite iso_length. Qed.
(** the month of a row whose date was sent as [s] *)
Lemma month_sent now s day : iso_date s -> date_in s = Some day -> walletPeriod now s <> p -> month_of day <> p.
Proof. intros Hs Hd. rewrite walletPeriod_iso by done. destruct Hs as [t ->]. apply date_read in Hd. unfold month_of. by rewrite Hd. Qed.
Lemma reads_today_iso now : reads false (financeToday now) (fun _ s => iso_date s).
Proof.
  apply (reads_bind_any _ _ _ any); [|intros o; eapply reads_weaken; [apply reads_ret|cbn; intros d a ->; by eexists]].
  apply (reads_bind_any _ _ _ (fun d r => forall a, r = Ok a -> any d a)); [apply reads_attempt, reads_stmt|auto with reads].
  intros d. by destruct (f_timezone d).
Qed.
Lemma reads_date_iso date now : date = "" \/ iso_date date -> reads false (date_or_today date now) (fun _ s => iso_date s).
Proof.
  intros Hd. unfold date_or_today. destruct (String.eqb_spec date "") as [->|Hne]; [apply reads_today_iso|].
  eapply reads_weaken; [apply reads_ret|]. cbn. intros d a ->. by destruct Hd.
Qed.
(** a step that reads a fact that does not depend on the tables *)
Lemma closed_reads_pure {A B} (m : fin A) (k : A -> fin B) (F : A -> Prop) :
  reads false m (fun _ a => F a) -> (forall a, F a -> keeps (k a)) -> keeps (bind m k).
Proof.
  intros Hm Hk. eapply t_reads_bind; [exact Hm|intros a|done]. apply (t_pure _ closed (F a)). apply Hk.
Qed.

(** *** Handlers: the ones that write no transaction *)
Lemma frame_uexec id f :
  (forall i d, f_txns (f i d) = f_txns d /\ f_locks (f i d) = f_locks d) -> keeps (uexec id f).
Proof. intros Hf. apply closed_other. intros d. destruct (uuid_in id); [apply Hf|done]. Qed.
Lemma closed_refresh w : keeps (refreshWalletBalance w).
Proof.
  apply closed_other. intros d. destruct (uuid_in w) as [i|]; [|done]. destruct (find_wallet d i) as [r|]; [|done].
  cbv zeta. by destruct (fits (w_initial r + net d i)).
Qed.
Lemma closed_refreshWallets w to : keeps (refreshWallets w to).
Proof.
  apply closed_bind; [apply closed_if; [apply closed_ignore, closed_refresh|apply closed_ret]|intros _]. destruct to as [t|]; [|apply closed_ret].
  apply closed_if; [apply closed_ignore, closed_refresh|apply closed_ret].
Qed.
Lemma closed_audit u e i a : keeps (auditFinance u e i a).
Proof. apply closed_ignore, closed_other. intros d. by destruct (uuid_in i), (uuid_in (AccountID u)). Qed.
Lemma closed_events u e n now : keeps (RecordEvents u e n now).
Proof.
  apply closed_ignore. destruct (validateSchema _); [apply closed_throw|]. apply closed_bind; [|intros _]; by apply closed_other.
Qed.
Lemma closed_usage u e now : keeps (RecordUsage u e now).
Proof. apply closed_events. Qed.
Lemma closed_refresh_each ws : keeps (refresh_each ws).
Proof. induction ws as [|w ws IH]; cbn [refresh_each]; [apply closed_ret|]. apply closed_bind; [apply closed_refreshWallets|intros _; exact IH]. Qed.
End locks.
Create HintDb keeps.
#[export] Hint Resolve closed_ret closed_throw closed_refreshWallets closed_audit closed_usage closed_events closed_refresh_each closed_attempt closed_ignore closed_if closed_or_else
  closed_or_internal closed_when : keeps.
#[export] Hint Extern 2 (keeps _ _ (bind _ _)) => (apply closed_bind; [|intros]) : keeps.
#[export] Hint Extern 1 (keeps _ _ (uexec _ _)) => (apply frame_uexec; by intros) : keeps.
#[export] Hint Extern 1 (keeps _ _ ?m) => (solve [eapply (closed_reads _ _ m any); auto with reads]) : keeps.
#[export] Hint Extern 5 (keeps _ _ (stmt _)) => (apply closed_other; intros; repeat case_match; by split) : keeps.
#[export] Hint Extern 5 (keeps _ _ (match ?r with _ => _ end)) => (destruct r) : keeps.

Section handlers.
Context `{HI : PgInput} `{HT : TimeZones} `{HD : !PgDates} (p : string) (X : list txn_row).
Abbreviation keeps m := (keeps p X m).

Lemma insert_row_frame {A} (f : string -> fin_db -> result A * fin_db) :
  (forall i d, f_txns (snd (f i d)) = f_txns d /\ f_locks (snd (f i d)) = f_locks d) -> keeps (stmt (with_id f)).
Proof. intros Hf. apply closed_other. intros d. unfold with_id. destruct (f_ids d) as [|i rest]; [done|]. apply (Hf i (set_ids rest d)). Qed.
(** one rule at a time *)
Ltac kp := repeat (cbv zeta; first
  [ solve [auto 3 with keeps]
  | match goal with
    | |- FinLocks.keeps _ _ (quiet _) => apply closed_bind; [|intros]
    | |- FinLocks.keeps _ _ (mustOwner _) => apply (closed_reads _ _ _ any); auto with reads
    | |- FinLocks.keeps _ _ (bind _ _) => apply closed_bind; [|intros]
    | |- FinLocks.keeps _ _ (if _ then _ else _) => apply closed_if
    | |- FinLocks.keeps _ _ (when_some _ _) => apply closed_when; intros
    | |- FinLocks.keeps _ _ (or_internal _) => apply closed_or_internal
    | |- FinLocks.keeps _ _ (or_else _ _) => apply closed_or_else
    | |- FinLocks.keeps _ _ (attempt _) => apply closed_attempt
    | |- FinLocks.keeps _ _ (ignore _) => apply closed_ignore
    | |- FinLocks.keeps _ _ (uexec _ _) => apply frame_uexec; intros; by split
    | |- FinLocks.keeps _ _ (uquery _ _) => eapply closed_reads, reads_uquery
    | |- FinLocks.keeps _ _ (uread _ _) => eapply closed_reads, reads_uread
    | |- FinLocks.keeps _ _ (stmt (with_id _)) => apply insert_row_frame; intros; repeat case_match; by split
    | |- FinLocks.keeps _ _ (stmt _) => apply closed_other; intros; repeat case_match; by split
    | |- FinLocks.keeps _ _ (match ?r with _ => _ end) => destruct r
    end]).
Lemma CreateWallet_keeps u q now : keeps (CreateWallet u q now).
Proof. unfold CreateWallet, insert_wallet, insert_balance. kp. Qed.
Lemma UpdateWallet_keeps u id q : keeps (UpdateWallet u id q).
Proof. unfold UpdateWallet. kp. Qed.
Lemma DeleteWallet_keeps u id : keeps (DeleteWallet u id).
Proof. unfold DeleteWallet, with_uuid. kp. Qed.
Lemma CreateCategory_keeps u q : keeps (CreateCategory u q).
Proof. unfold CreateCategory. kp. Qed.
Lemma DeleteCategory_keeps u id : keeps (DeleteCategory u id).
Proof. unfold DeleteCategory, with_uuid. kp. Qed.
Lemma CreateTransactionType_keeps u q : keeps (CreateTransactionType u q).
Proof. unfold CreateTransactionType, insert_type, loadTransactionTypeByID. kp. Qed.
Lemma UpdateTransactionType_keeps u id q : keeps (UpdateTransactionType u id q).
Proof. unfold UpdateTransactionType, edit_types, loadTransactionTypeByID. kp. Qed.
Lemma DeleteTransactionType_keeps u id : keeps (DeleteTransactionType u id).
Proof. unfold DeleteTransactionType. kp. Qed.
Lemma UpdateApprovalSetting_keeps u q : keeps (UpdateApprovalSetting u q).
Proof. unfold UpdateApprovalSetting. kp. Qed.
Lemma CreateAsset_keeps u q : keeps (CreateAsset u q).
Proof. unfold CreateAsset, insert_asset. kp. Qed.
Lemma UpdateAsset_keeps u id q : keeps (UpdateAsset u id q).
Proof. unfold UpdateAsset, with_uuid. kp. Qed.
Lemma DeleteAsset_keeps u id : keeps (DeleteAsset u id).
Proof. unfold DeleteAsset. kp. Qed.
Lemma UpdateAssetPrice_keeps u id price : keeps (UpdateAssetPrice u id price).
Proof. unfold UpdateAssetPrice. kp. Qed.
Lemma LockPeriod_keeps u period : keeps (LockPeriod u period).
Proof.
  unfold LockPeriod. do 2 (apply closed_bind; [by kp|intros]). apply closed_bind; [|by kp].
  apply closed_or_internal, closed_stmt. intros d []. destruct (uuid_in _); [|done]. cbn [snd]. destruct (existsb _ _); [done|].
  split; try done. unfold locked in *. cbn [f_locks set_locks]. rewrite existsb_app. by rewrite c_locked0.
Qed.

(** *** New rows are dated outside *)
Definition dated (date : string) : Prop := date = "" \/ iso_date date.
Ltac rows_of H := repeat case_on H; try done; injection H as <-; cbn [tx_date].
Lemma CreateTransaction_keeps u q now : dated (TP_TransactionDate q) -> keeps (CreateTransaction u q now).
Proof.
  intros Hd. unfold CreateTransaction. apply closed_bind; [by kp|intros usr]. do 2 (apply closed_bind; [by kp|intros]).
  eapply closed_reads_pure; [by apply reads_date_iso|intros date Hiso]. do 4 (apply closed_bind; [by kp|intros]).
  apply closed_bind; [by kp|intros status].
  apply closed_guard'. intros Hq. apply closed_bind; [|intros; by kp].
  apply (t_in_tx _ _ _ _ (insert_txn (txn_of_params usr q date status))).
  - intros w. unfold or_internal, or_else, bind, attempt. by destruct (stmt _ w) as [[x|e] w'].
  - intros d Hc. pose proof (closed_insert p X (txn_of_params usr q date status) d) as Hi.
    assert (closed p X (snd (insert_txn (txn_of_params usr q date status) d))) as H; [|by destruct (insert_txn _ d) as [[id|e] d']].
    apply Hi; [|done]. intros i t Ht. unfold txn_of_params in Ht. rows_of Ht; by eapply month_sent.
Qed.
Lemma duplicate_loop_keeps u date ids n now : iso_date date -> walletPeriod now date <> p -> keeps (duplicate_loop u date ids n).
Proof.
  intros Hiso Hq. revert n. induction ids as [|id rest IH]; intros n; cbn [duplicate_loop]; [by kp|].
  apply closed_bind; [|intros [new|e]; [apply closed_bind; [|intros; by apply IH]|by apply IH]].
  - apply closed_attempt, closed_stmt. intros d Hd. destruct (uuid_in id) as [i|]; [|done]. destruct (date_in date) as [day|] eqn:Hday; [|done].
    destruct (uuid_in (AccountID u)) as [by_|]; [|done]. destruct (find_live_txn d i) as [t|]; [|done].
    apply closed_insert; [|done]. intros j x [= <-]. cbn [tx_date duplicate_of]. by eapply month_sent.
  - unfold refreshWalletsForTransaction. by kp.
Qed.
Lemma DuplicateTransactions_keeps u ids date now : iso_date date -> keeps (DuplicateTransactions u ids date now).
Proof.
  intros Hiso. unfold DuplicateTransactions. apply closed_bind; [by kp|intros]. do 2 (apply closed_if; [by kp|]). apply closed_bind; [by kp|intros].
  apply closed_guard'. intros Hq. by eapply duplicate_loop_keeps.
Qed.
Lemma post_asset_keeps usr ty amount w desc date status id qpf status' now :
  iso_date date -> walletPeriod now date <> p ->
  keeps (post_asset_txn usr (asset_txn usr ty amount w desc date status id qpf) w status' now).
Proof.
  intros Hiso Hq. unfold post_asset_txn. apply closed_bind; [|intros; by kp]. apply closed_or_internal, closed_stmt.
  intros d Hd. apply closed_insert; [|done]. intros i t Ht. unfold asset_txn in Ht. rows_of Ht; by eapply month_sent.
Qed.
Lemma RecordInvestmentTrade_keeps u id q now : dated (IT_TransactionDate q) -> keeps (RecordInvestmentTrade u id q now).
Proof.
  intros Hd. unfold RecordInvestmentTrade. apply closed_bind; [by kp|intros usr]. do 4 (apply closed_if; [by kp|]). apply closed_bind; [by kp|intros].
  eapply closed_reads_pure; [by apply reads_date_iso|intros date Hiso]. do 4 (apply closed_bind; [by kp|intros]). apply closed_if; [by kp|].
  do 2 (apply closed_bind; [by kp|intros]). apply closed_guard'. intros Hq. apply closed_bind; [by kp|intros].
  apply closed_bind; [by apply post_asset_keeps|intros; by kp].
Qed.
Lemma RecordAssetDividend_keeps u id q now : dated (DV_TransactionDate q) -> keeps (RecordAssetDividend u id q now).
Proof.
  intros Hd. unfold RecordAssetDividend. apply closed_bind; [by kp|intros usr]. do 2 (apply closed_if; [by kp|]). apply closed_bind; [by kp|intros].
  eapply closed_reads_pure; [by apply reads_date_iso|intros date Hiso]. do 2 (apply closed_bind; [by kp|intros]).
  apply closed_guard'. intros Hq. apply closed_bind; [by kp|intros]. apply closed_bind; [by apply post_asset_keeps|intros; by kp].
Qed.

(** *** Rows found, checked and written again *)
Lemma closed_found {A} id t (m : fin A) :
  triple false (fun d => closed p X d /\ looked_up id t d) m (fun _ => closed p X) ->
  triple false (fun d => closed p X d /\ exists i, uuid_in id = Some i /\ find_live_txn d i = Some t) m (fun _ => closed p X).
Proof. intros Hm. eapply t_conseq; [exact Hm|intros d [Hd H]; split; [done|by apply looked_up_live]|done]. Qed.
(** after the write, [closed] is all that is left to keep *)
Lemma found_write {A B} id t (m : fin A) (k : A -> fin B) :
  triple false (fun d => closed p X d /\ looked_up id t d) m (fun _ => closed p X) -> (forall a, keeps (k a)) ->
  triple false (fun d => closed p X d /\ looked_up id t d) (bind m k) (fun _ => closed p X).
Proof. intros Hm Hk. by eapply t_seq. Qed.
Lemma or_internal_found {A} (P : fin_db -> Prop) (f : fin_db -> result A * fin_db) :
  (forall d, P d -> closed p X d /\ closed p X (snd (f d))) -> triple false P (or_internal (stmt f)) (fun _ => closed p X).
Proof.
  intros Hf. eapply t_seq; [apply t_attempt, t_stmt|intros [a|e]; [apply closed_ret|apply closed_throw]].
  intros d Hd. destruct (Hf d Hd). unfold stmt_post. by destruct (f d) as [[a|e] d'].
Qed.
Lemma update_txn_row_cell owner q f now t :
  update_txn_row owner q = Some f -> (forall date, UP_TransactionDate q = Some date -> iso_date date) ->
  month_of (tx_date t) <> p -> (forall date, UP_TransactionDate q = Some date -> walletPeriod now date <> p) ->
  cell p (f t) = cell p t.
Proof.
  intros Hf Hiso Ht Hq. rewrite (cell_month p t Ht). apply cell_month. unfold update_txn_row in Hf.
  destruct (convert uuid_in _); [|done]. destruct (UP_TransactionDate q) as [date|]; cbn [convert] in Hf.
  - destruct (date_in date) as [day|] eqn:Hday; [|done]. cbn [fmap option_fmap option_map] in Hf. destruct (convert (numeric_in 2) _); [|done].
    injection Hf as <-. cbn [tx_date set_field default]. eapply month_sent; [by apply Hiso|exact Hday|by apply Hq].
  - destruct (convert (numeric_in 2) _); [|done]. by injection Hf as <-.
Qed.
(** a statement on the row that was found *)
Lemma found_update {A B} id t (g : string -> fin_db -> result A * fin_db) (m : A -> fin B) :
  (forall d i, uuid_in id = Some i -> closed p X d -> (forall x, x ∈ f_txns d -> tx_id x = i -> x = t) -> closed p X (snd (g i d))) ->
  (forall a, keeps (m a)) ->
  triple false (fun d => closed p X d /\ looked_up id t d) (bind (or_internal (with_uuid id g)) m) (fun _ => closed p X).
Proof.
  intros Hg Hm. apply found_write; [|exact Hm]. apply or_internal_found. intros d [Hd Hl]. split; [done|].
  destruct (uuid_in id) as [i|] eqn:Hi; [|done]. apply Hg; [done|done|]. intros x Hx Hxi.
  eapply looked_up_only; [exact Hd|exact Hl|exact Hx|congruence].
Qed.
Lemma closed_update_found i f t d :
  closed p X d -> (forall x, x ∈ f_txns d -> tx_id x = i -> x = t) -> cell_step p t (f t) -> closed p X (snd (update_txn i f d)).
Proof. intros Hd Hx Hf. apply closed_update; [done|]. intros x Hin Hi. by rewrite (Hx x Hin Hi). Qed.
Lemma edit_found {B} id t owner q now (m : unit -> fin B) :
  (forall date, UP_TransactionDate q = Some date -> iso_date date) -> month_of (tx_date t) <> p ->
  (forall date, UP_TransactionDate q = Some date -> walletPeriod now date <> p) -> (forall a, keeps (m a)) ->
  triple false (fun d => closed p X d /\ looked_up id t d)
    (bind (or_internal (with_uuid id (fun i d => match update_txn_row owner q with Some f => update_txn i f d | None => (Err bad_input, d) end))) m)
    (fun _ => closed p X).
Proof.
  intros Hiso Ht Hq Hm. apply found_update; [|exact Hm]. intros d i Hi Hd Hx. destruct (update_txn_row owner q) as [f|] eqn:Ef; [|done].
  eapply closed_update_found; [done|exact Hx|]. apply cell_same. by eapply update_txn_row_cell.
Qed.
Lemma UpdateTransaction_keeps u id q now :
  (forall date, UP_TransactionDate q = Some date -> iso_date date) -> keeps (UpdateTransaction u id q now).
Proof.
  intros Hiso. unfold UpdateTransaction. apply closed_bind; [by kp|intros usr]. apply closed_bind; [by kp|intros _].
  eapply t_reads_bind; [apply reads_attempt, reads_uquery|intros [t|e]|done]; [|apply t_if; intros _; apply t_throw; tauto].
  eapply t_conseq with (P := fun d => closed p X d /\ looked_up id t d);
    [|intros d [Hd H]; split; [done|by apply looked_up_live, (H t eq_refl)]|intros r d H; exact H].
  rd. apply closed_guard. intros Ht. rewrite walletPeriod_iso in Ht by apply iso_text. fold (month_of (tx_date t)) in Ht.
  destruct (UP_TransactionDate q) as [date|] eqn:Hq; cbn [when_some].
  - apply closed_guard. intros Hn. rd. apply (edit_found _ _ _ _ now); [rewrite Hq; exact Hiso|done|rewrite Hq; by intros ? [= <-]|intros; by kp].
  - eapply t_bind with (R := fun r d => closed p X d /\ looked_up id t d); [by apply t_ret|intros _|tauto].
    rd. apply (edit_found _ _ _ _ now); [rewrite Hq; exact Hiso|done|by rewrite Hq|intros; by kp].
Qed.
Lemma DeleteTransaction_keeps u id now : keeps (DeleteTransaction u id now).
Proof.
  unfold DeleteTransaction. do 2 (apply closed_bind; [by kp|intros]).
  eapply t_reads_bind; [apply reads_or_else, reads_uquery|intros t|done]. apply (closed_found id t).
  apply closed_guard. intros Ht. rewrite walletPeriod_iso in Ht by apply iso_text. fold (month_of (tx_date t)) in Ht.
  eapply t_ignore_bind with (R := closed p X); [|intros; match goal with |- triple _ _ ?m _ => change (keeps m) end; by kp]. apply t_stmt. intros d [Hd Hl]. unfold stmt_post.
  destruct (uuid_in id) as [i|] eqn:Hi; [|done].
  assert (closed p X (set_txns (List.filter (fun t => negb (String.eqb (tx_id t) i)) (f_txns d)) d)) as H; [|done].
  apply closed_keep; [done|]. intros x Hx Hxi. apply negb_false_iff, String.eqb_eq in Hxi.
  assert (x = t) as -> by (eapply looked_up_only; [exact Hd|exact Hl|exact Hx|congruence]). by apply cell_month.
Qed.
Lemma ApproveTransaction_keeps u id action reason : keeps (ApproveTransaction u id action reason).
Proof.
  unfold ApproveTransaction. apply closed_bind; [by kp|intros]. apply closed_if; [by kp|]. apply closed_bind; [by kp|intros].
  eapply t_reads_bind; [apply reads_or_else, reads_uquery|intros t|done]. apply (closed_found id t).
  apply t_if; [intros _; apply t_throw; tauto|intros Hp]. apply negb_false_iff, String.eqb_eq in Hp. cbv zeta.
  apply found_update; [|intros; by kp]. intros d i Hi Hd Hx. destruct (uuid_in (AccountID a)); [|done].
  eapply closed_update_found; [done|exact Hx|]. apply cell_decided; [exact Hp|]. case_match; auto.
Qed.
Lemma DeleteAssetTrade_keeps u id txnId now : keeps (DeleteAssetTrade u id txnId now).
Proof.
  unfold DeleteAssetTrade. apply closed_bind; [by kp|intros]. apply closed_if; [by kp|]. apply closed_bind; [by kp|intros].
  eapply t_reads_bind with (F := fun d r => forall t, r = Ok t -> looked_up txnId t d).
  - apply reads_attempt, reads_stmt. intros d. destruct (uuid_in txnId) as [i|] eqn:Hi, (uuid_in id) as [x|]; try done.
    destruct (List.find _ _) as [t|] eqn:Ef; [|done]. split; [done|]. apply find_some in Ef as [Hin Hl].
    apply andb_true_iff in Hl as [Hl _]. apply andb_true_iff in Hl as [Hl _]. apply String.eqb_eq in Hl.
    split; [by apply list_elem_of_In|]. by rewrite Hi, Hl.
  - intros [t|e]; [|apply t_if; intros _; apply t_throw; tauto].
    eapply t_conseq with (P := fun d => closed p X d /\ looked_up txnId t d); [|intros d [Hd H]; split; [done|by apply H]|intros r d H; exact H].
    apply t_if; [intros _; apply t_throw; tauto|intros _]. apply closed_guard. intros Ht.
    rewrite walletPeriod_iso in Ht by apply iso_text. fold (month_of (tx_date t)) in Ht.
    apply found_update; [|intros; by kp]. intros d i Hi Hd Hx. destruct (uuid_in (AccountID a)); [|done].
    eapply closed_update_found; [done|exact Hx|]. apply cell_same. by rewrite !cell_month.
  - done.
Qed.

(** *** Postings *)
Lemma posting_month ty amount w c desc ref date by_ now i t :
  iso_date date -> walletPeriod now date <> p -> posting_of ty amount w c desc ref date by_ i = Some t -> month_of (tx_date t) <> p.
Proof. intros Hiso Hq Ht. unfold posting_of in Ht. rows_of Ht; by eapply month_sent. Qed.
Lemma RecordOrderIncome_keeps by_ id amount w now : keeps (RecordOrderCompletedIncome by_ id amount w now).
Proof.
  unfold RecordOrderCompletedIncome. do 2 (apply closed_if; [by kp|]). apply closed_bind; [by kp|intros _]. unfold recordOrderIncome.
  apply closed_bind; [eapply closed_reads, reads_income_wallet|intros wallet]. apply closed_bind.
  { apply closed_or_internal, closed_stmt. intros d Hd. apply closed_keep; [done|]. intros x _ Hx.
    apply negb_false_iff, andb_true_iff in Hx as [_ Hx]. unfold cell. by rewrite Hx. }
  intros _. apply closed_bind; [eapply closed_reads, reads_category|intros c].
  eapply closed_reads_pure; [by apply reads_today_iso|intros date Hiso]. apply closed_guard'. intros Hq.
  apply closed_bind; [|intros; by kp]. apply closed_or_else, closed_stmt. intros d Hd. apply closed_insert_or_nothing; [|done].
  intros i t Ht. by eapply posting_month.
Qed.
Lemma RecordInventoryEntry_keeps by_ ref flow cat desc amount w now : keeps (RecordInventoryEntry by_ ref flow cat desc amount w now).
Proof.
  unfold RecordInventoryEntry. apply closed_if; [by kp|]. cbv zeta. apply closed_if; [by kp|]. apply closed_bind; [by kp|intros].
  apply closed_bind; [eapply closed_reads, reads_income_wallet|intros wallet]. apply closed_bind; [eapply closed_reads, reads_category|intros c].
  eapply closed_reads_pure; [by apply reads_today_iso|intros date Hiso]. apply closed_guard'. intros Hq.
  apply closed_bind; [by kp|intros found]. apply closed_if; [by kp|]. apply closed_bind; [|intros; by kp].
  apply closed_or_else, closed_stmt. intros d Hd. apply closed_insert; [|done]. intros i t Ht. by eapply posting_month.
Qed.

(** *** Bills *)
Context `{HS : FinSecrets}.
Lemma insert_items_frame rows d : f_txns (snd (insert_items rows d)) = f_txns d /\ f_locks (snd (insert_items rows d)) = f_locks d.
Proof.
  revert d. induction rows as [|[template due] rest IH]; intros d; cbn [insert_items]; [done|].
  destruct (f_ids d) as [|id ids]; [done|]. cbv zeta. destruct (existsb _ _); [apply (IH (set_ids ids d))|]. destruct (existsb _ _); [done|].
  apply (IH (set_items _ (set_ids ids d))).
Qed.
Lemma ensureItems_keeps f due : keeps (ensureItems f due).
Proof. apply closed_or_else, closed_other. intros d. apply insert_items_frame. Qed.
Lemma CreateChecklistTemplate_keeps u q random now : keeps (CreateChecklistTemplate u q random now).
Proof. unfold CreateChecklistTemplate, insert_bill_template. kp. Qed.
Lemma UpdateChecklistTemplate_keeps u id q now : keeps (UpdateChecklistTemplate u id q now).
Proof. unfold UpdateChecklistTemplate, with_uuid, reconcilePendingChecklistItems. kp. Qed.
Lemma DeleteChecklistTemplate_keeps u id : keeps (DeleteChecklistTemplate u id).
Proof. unfold DeleteChecklistTemplate. kp. Qed.
Lemma GetTodayChecklist_keeps u now : keeps (GetTodayChecklist u now).
Proof. unfold GetTodayChecklist. do 3 (apply closed_bind; [by kp|intros]). do 2 (apply closed_bind; [apply ensureItems_keeps|intros]). kp. Qed.
Lemma ChecklistAction_keeps u q now : keeps (ChecklistAction u q now).
Proof. unfold ChecklistAction, with_uuid. kp. Qed.
(** the bills of a month fall due in the layout's dates *)
Lemma reads_bills_due rows : reads false (scan_bills rows) (fun _ bs => Forall (fun b => iso_date (bl_due b)) bs).
Proof.
  induction rows as [|[x t] rest IH]; cbn [scan_bills]; [eapply reads_weaken; [apply reads_ret|by intros ? ? ->]|].
  eapply reads_bind_any; [apply reads_or_internal, reads_of_result|intros title]. apply reads_if; [apply reads_throw|].
  eapply reads_weaken; [eapply reads_bind; [exact IH|intros bs; apply reads_ret]|]. cbn. intros d l (bs & Hbs & ->). constructor; [apply iso_text|done].
Qed.
Lemma bill_txn_month u label w b now i t :
  iso_date (bl_due b) -> walletPeriod now (bl_due b) <> p -> bill_txn u label w b i = Some t -> month_of (tx_date t) <> p.
Proof. intros Hiso Hq Ht. unfold bill_txn in Ht. rows_of Ht; by eapply month_sent. Qed.
(** in a transaction, under a fact [Y] *)
Definition shut (Y : Prop) (d : fin_db) : Prop := closed p X d /\ Y.
Abbreviation holds Y m := (body false (closed p X) (shut Y) m (fun _ => shut Y)).
Lemma holds_or_else {A} Y wrap (m : fin A) : holds Y m -> holds Y (or_else wrap m).
Proof. intros Hm. apply b_seq; [by apply b_attempt|intros [a|e]; [by apply b_ret|by apply b_throw]]. Qed.
Lemma holds_link Y item txn : holds Y (link_item item txn).
Proof. apply b_stmt_keep. intros d [Hd HY]. destruct (uuid_in item); [|done]. split; [by (eapply closed_frame; [| |exact Hd])|done]. Qed.
Lemma post_bill_holds u label dw now b : iso_date (bl_due b) -> holds True (post_bill u label dw now b).
Proof.
  intros Hiso. set (Y := walletPeriod now (bl_due b) <> p). unfold post_bill. eapply b_bind; [apply b_pool, reads_unlocked|intros x; cbv zeta|by intros e d [H _]].
  eapply b_conseq with (P := shut Y) (Q := fun _ => shut Y); [|intros d [[Hd _] H]; split; [exact Hd|]|by intros r d [H _]].
  2: { destruct (H x eq_refl) as (d0 & [_ Hl _] & Hn). unfold locked in Hl. unfold Y. congruence. }
  apply b_seq; [by apply holds_or_else, b_stmt_keep|intros [|]].
  - apply b_seq; [apply b_attempt, b_stmt_keep; intros d Hd; by destruct (List.find _ _)|]. intros [y|e]; [by apply b_ignore, holds_link|by apply b_ret].
  - apply b_seq; [apply holds_or_else, b_stmt_keep|intros y; apply holds_or_else, holds_link]. intros d [Hd HY]. split; [|done].
    apply closed_insert; [|done]. intros i t Ht. by eapply bill_txn_month.
Qed.
Lemma post_bills_holds u label dw now bs : Forall (fun b => iso_date (bl_due b)) bs -> holds True (post_bills u label dw now bs).
Proof.
  induction bs as [|b bs IH]; intros Hb; cbn [post_bills]; [by apply b_ret|]. apply Forall_cons in Hb as [Hb Hbs].
  apply b_seq; [by apply post_bill_holds|intros _; by apply IH].
Qed.
Lemma sync_keeps u start end_ label now : keeps (syncMonthlyBillingPeriod u start end_ label now).
Proof.
  unfold syncMonthlyBillingPeriod, tryPostMonthlyBillingTransactions. apply closed_bind; [by apply closed_or_internal, closed_other|intros _].
  apply closed_bind; [by kp|intros n]. apply closed_if; [apply closed_ret|]. apply closed_bind; [by kp|intros rows].
  eapply closed_reads_pure; [apply reads_bills_due|intros bs Hbs]. apply closed_bind; [eapply closed_reads, reads_default_wallet|intros dw]. cbv zeta.
  apply closed_bind; [by kp|intros _]. apply closed_bind; [|intros _; by kp].
  eapply t_in_tx_body; [by apply post_bills_holds|by split|done|]. intros a d [Hd _]. by split.
Qed.
Lemma GetMonthlyBillingChecklist_keeps u period now : keeps (GetMonthlyBillingChecklist u period now).
Proof.
  unfold GetMonthlyBillingChecklist. apply closed_bind; [by kp|intros usr]. apply closed_bind; [by kp|intros [[start end_] label]].
  apply closed_bind; [by kp|intros _]. apply closed_bind; [apply ensureItems_keeps|intros _]. apply closed_bind; [apply sync_keeps|intros _].
  eapply closed_reads, reads_billing.
Qed.
Lemma check_bill_keeps u item now : keeps (ToggleMonthlyBillingItem u item true now).
Proof.
  unfold ToggleMonthlyBillingItem, with_uuid. apply closed_bind; [by kp|intros usr]. apply closed_if; [by kp|]. apply closed_bind; [by kp|intros _].
  apply closed_bind; [eapply closed_reads, reads_or_no_item, reads_uquery|intros [due freq]]. apply closed_if; [by kp|].
  apply closed_bind; [by kp|intros [[start end_] label]]. apply closed_bind; [by kp|intros _]. apply closed_bind; [by kp|intros _].
  apply closed_bind; [apply ensureItems_keeps|intros _]. apply closed_bind; [apply sync_keeps|intros _]. eapply closed_reads, reads_billing.
Qed.
(** ** Requests with dates in the layout, other than the removing postings and
    unchecking a bill *)
Definition lock_aware (r : request) : Prop :=
  match rq_call r with
  | CallCreateTransaction q => dated (TP_TransactionDate q)
  | CallUpdateTransaction _ q => forall date, UP_TransactionDate q = Some date -> iso_date date
  | CallDuplicate _ date => iso_date date
  | CallTrade _ q => dated (IT_TransactionDate q)
  | CallDividend _ q => dated (DV_TransactionDate q)
  | CallToggleBill _ checked => checked = true
  | PostResyncOrder _ _ _ _ | PostRemoveOrder _ | PostRemoveInventory _ => False
  | _ => True
  end.
Lemma run_keeps r : lock_aware r -> keeps (run r).
Proof.
  unfold lock_aware, run. intros Hr. destruct (rq_call r); try done; try (apply closed_bind; [|intros; apply closed_ret]);
    try (rewrite Hr; apply check_bill_keeps);
    auto using CreateWallet_keeps, UpdateWallet_keeps, DeleteWallet_keeps, CreateCategory_keeps, DeleteCategory_keeps,
      CreateTransactionType_keeps, UpdateTransactionType_keeps, DeleteTransactionType_keeps, CreateTransaction_keeps,
      UpdateTransaction_keeps, DeleteTransaction_keeps, ApproveTransaction_keeps, DuplicateTransactions_keeps,
      UpdateApprovalSetting_keeps, LockPeriod_keeps, CreateAsset_keeps, UpdateAsset_keeps, DeleteAsset_keeps, UpdateAssetPrice_keeps,
      RecordInvestmentTrade_keeps, RecordAssetDividend_keeps, DeleteAssetTrade_keeps,
      CreateChecklistTemplate_keeps, UpdateChecklistTemplate_keeps, DeleteChecklistTemplate_keeps, GetTodayChecklist_keeps,
      ChecklistAction_keeps, GetMonthlyBillingChecklist_keeps, RecordOrderIncome_keeps, RecordInventoryEntry_keeps.
Qed.
End handlers.

Section history.
Context `{HI : PgInput} `{HT : TimeZones} `{HS : FinSecrets} `{HD : !PgDates}.
Lemma serve_all_closed p X l d : Forall (fun r => lock_aware (fst r)) l -> closed p X d -> closed p X (serve_all l d).
Proof.
  revert d. induction l as [|[r faults] l IH]; intros d Hl Hd; [exact Hd|]. apply Forall_cons in Hl as [Hr Hl]. cbn.
  apply IH; [exact Hl|]. eapply (serve_triple false); [by apply run_keeps|done|exact Hd].
Qed.
(** C39. A locked month is closed.  After the owner locks a month, whatever
    calls of [call] follow, by whomever and whatever statements fail, the same
    live transactions are dated in that month, row by row as they were, except
    that one that was pending may have been approved or rejected, once.  The
    calls send dates in the layout YYYY-MM-DD; the postings that remove
    transactions (of orders and stock) and the unchecking of a bill, which
    do not look at the month of the transactions they remove, are left out
    ([lock_aware]). *)
Theorem locked_period_immutable p l d :
  txns_valid (f_txns d) = true -> locked p d = true -> Forall (fun r => lock_aware (fst r)) l ->
  Forall2 settles (period_rows p d) (period_rows p (serve_all l d)) /\ locked p (serve_all l d) = true.
Proof.
  intros Hv Hp Hl. destruct (serve_all_closed p (period_rows p d) l d Hl) as [_ H1 H2]; [by split|]. by split.
Qed.
End history.

(** *** The sample tenant locks December *)
Lemma sample_dates : @PgDates sample_input.
Proof. split. intros t d H. by apply sample_date_text. Qed.
Definition before_lock : fin_db := sample_serve_all (without_faults sample_history) new_tenant.
Definition after_lock : fin_db := sample_serve_all (without_faults [by_boss (CallLockPeriod "2024-12")]) before_lock.
Definition late_calls : list (request * list fault) :=
  [(by_boss (CallDeleteTransaction "a3"), []); (by_boss (CallApprove "a3" "reject" "too late"), []);
   (by_boss (CallUpdateTransaction "a5" {| UP_CategoryID := None; UP_Description := None; UP_Notes := None; UP_ReferenceNo := None;
      UP_TransactionDate := Some "2024-12-31"; UP_Amount := None; UP_Tags := None |}), []);
   (by_boss (CallCreateTransaction (new_txn "income" 10 "a1" None "2024-12-27")), [FailBefore]);
   (by_boss (CallCreateTransaction (new_txn "income" 10 "a1" None "2025-01-02")), [Fine; Fine; Fine; Fine; Fine; FailAfter])].
Lemma locked_period_immutable_witness :
  length (period_rows "2024-12" after_lock) = 1%nat /\
  length (f_txns (sample_serve_all late_calls after_lock)) = 3%nat /\
  Forall2 settles (period_rows "2024-12" after_lock) (period_rows "2024-12" (sample_serve_all late_calls after_lock)).
Proof.
  split; [vm_compute; reflexivity|split; [vm_compute; reflexivity|]].
  apply (@locked_period_immutable sample_input sample_zones sample_secrets sample_dates); [vm_compute; reflexivity..|].
  assert (forall t s, s = format_date (time_Unix t) -> iso_date s) as Hiso by (intros t s ->; by eexists).
  do 2 (constructor; [exact I|]). constructor; [intros date [= <-]; apply (Hiso 1735603200); vm_compute; reflexivity|].
  constructor; [right; apply (Hiso 1735257600); vm_compute; reflexivity|].
  constructor; [right; apply (Hiso 1735776000); vm_compute; reflexivity|constructor].
Defined.

(** *** What does not look at the lock
    A pending transaction of the locked month can still be approved, which moves
    its money; the income of an order is removed from a locked month. *)
Definition staff_entry : list (request * list fault) :=
  without_faults [by_boss (CallSetApproval {| AS_Enabled := true; AS_AmountThreshold := None; AS_RequireForTypes := [] |});
    by_clerk (CallCreateTransaction (new_txn "income" 10 "a1" None "2024-12-27"));
    by_boss (CallLockPeriod "2024-12"); by_boss (CallApprove "a6" "approve" "")].
Lemma approval_moves_locked_money :
  let d := sample_serve_all staff_entry before_lock in
  locked "2024-12" d = true /\ f_balances before_lock !! "a1" = Some 80000 /\ f_balances d !! "a1" = Some 81000.
Proof. vm_compute. by split_and!. Qed.
Definition december : Z := time_Unix 1735300800.
Definition order_calls : list (request * list fault) :=
  without_faults [{| rq_user := None; rq_now := december; rq_call := PostOrderIncome "e1" "f1" (of_Z 40) "a1" |};
    by_boss (CallLockPeriod "2024-12"); {| rq_user := None; rq_now := sample_now; rq_call := PostRemoveOrder "f1" |}].
Lemma order_removal_ignores_lock :
  let d := sample_serve_all (take 2 order_calls) before_lock in
  length (period_rows "2024-12" d) = 2%nat /\ locked "2024-12" d = true /\
  length (period_rows "2024-12" (sample_serve_all order_calls before_lock)) = 1%nat.
Proof. vm_compute. by split_and!. Qed.

(** unchecking a bill looks at its due date only: anyone can link an expense of
    the locked month to it, and it is removed with the check *)
Definition link_and_uncheck : list request :=
  [by_boss (CallCreateTransaction (new_txn "expense" 5 "a1" None "2024-12-31")); by_boss (CallLockPeriod "2024-12")] ++ take 2 bill_calls ++
  [by_clerk (CallChecklistAction {| KA_ItemID := "a8"; KA_Action := "done"; KA_Note := None; KA_TransactionID := Some "a6" |});
   by_clerk (CallToggleBill "a8" false)].
Lemma unchecking_ignores_lock :
  let d := sample_serve_all (without_faults (take 4 link_and_uncheck)) before_lock in
  locked "2024-12" d = true /\ length (period_rows "2024-12" d) = 2%nat /\
  length (period_rows "2024-12" (sample_serve_all (without_faults (drop 4 link_and_uncheck)) d)) = 1%nat.
Proof. vm_compute. by split_and!. Qed.
