(* ===== verification/FinStaff.v ===== *)
(** * Staff and approval

    While the owner requires approval for every transaction, calls of users who
    are not owners move no money: no wallet, no cached balance and no wallet's
    net of approved transactions changes, whatever statements fail.  The calls
    that settle monthly bills are the exception, shown at the end. *)
From S2P Require Import Prelude GoStrings AdminSession PgTx Triples DaySlots Dates Float64 Pii Billing Recurring FinTables FinTxns FinAssets FinPosting Checklist FinLedger FinBooks ChecklistBooks FinSample FinCalls.

Open Scope string_scope.
Open Scope Z_scope.

Section staff.
Context `{HI : PgInput} `{HT : TimeZones} `{HS : FinSecrets}.

(** approval is on, for every amount and every type *)
Definition approval_required (d : fin_db) : Prop :=
  exists a, f_approval d = Some a /\ ap_enabled a = true /\ ap_threshold a = None /\ forall l, array_scan (ap_types a) = Some l -> l = [].
(** a user, or nobody, who may not act as the owner *)
Definition not_owner (u : option AuthUser) : Prop := forall usr, u = Some usr -> isOwner usr = false.

Section still.
Variable d0 : fin_db.
Record still (d : fin_db) : Prop := {
  s_wallets : f_wallets d = f_wallets d0; s_balances : f_balances d = f_balances d0; s_types : f_types d = f_types d0;
  s_approval : f_approval d = f_approval d0; s_valid : txns_valid (f_txns d) = true;
  s_net : forall w, net d w = net d0 w
}.
Abbreviation calm m := (triple false still m (fun _ => still)).

Lemma still_frame d d' :
  f_wallets d' = f_wallets d -> f_balances d' = f_balances d -> f_types d' = f_types d -> f_approval d' = f_approval d ->
  f_txns d' = f_txns d -> still d -> still d'.
Proof.
  intros H1 H2 H3 H4 H5 [S1 S2 S3 S4 S5 S6]. split; [congruence..|]. intros w. rewrite (net_same d d' w H3 H5). apply S6.
Qed.
Lemma still_txns l d :
  still d -> txns_valid l = true -> (forall w, sum_of (contribution (flow_of d) w) l = sum_of (contribution (flow_of d) w) (f_txns d)) ->
  still (set_txns l d).
Proof.
  intros [S1 S2 S3 S4 S5 S6] Hv Hs. split; try done. intros w. rewrite net_eq. change (flow_of (set_txns l d)) with (flow_of d).
  cbn [f_txns set_txns]. by rewrite Hs, <- net_eq.
Qed.
Lemma still_insert row d :
  (forall i t, row i = Some t -> counts t = false) -> still d -> still (snd (insert_txn row d)).
Proof.
  intros Hr Hd. unfold insert_txn, with_id. destruct (f_ids d) as [|i rest]; [done|]. assert (still (set_ids rest d)) as Hd' by (by eapply still_frame; [..|exact Hd]).
  destruct (row i) as [t|] eqn:Ht; [|exact Hd']. unfold write_txns. destruct (txns_valid _) eqn:Hv; [|exact Hd']. cbn [fst snd].
  apply (still_txns _ (set_ids rest d)); [exact Hd'|exact Hv|]. intros w. rewrite sum_of_app. cbn [f_txns set_ids]. unfold sum_of at 2. cbn [map foldr].
  rewrite contribution_uncounted by (by eapply Hr). lia.
Qed.
Lemma still_update i f d :
  still d -> (forall x w, x ∈ f_txns d -> tx_id x = i -> contribution (flow_of d) w (f x) = contribution (flow_of d) w x) ->
  still (snd (update_txn i f d)).
Proof.
  intros Hd Hf. unfold update_txn, write_txns. destruct (txns_valid _) eqn:Hv; [|done]. cbn [snd]. apply still_txns; [done..|].
  intros w. rewrite sum_of_map. apply sum_of_ext. intros x Hx. destruct (String.eqb_spec (tx_id x) i); [by apply Hf|done].
Qed.
Lemma calm_audit u e i a : calm (auditFinance u e i a).
Proof.
  apply t_ignore, t_stmt_keep. intros d. destruct (uuid_in i), (uuid_in (AccountID u)); try done. by apply still_frame.
Qed.
Lemma calm_usage u e now : calm (RecordUsage u e now).
Proof.
  apply t_ignore. destruct (validateSchema _); [by apply t_throw|].
  eapply t_seq; [|intros _]; (apply t_stmt_keep; intros d; by apply still_frame).
Qed.

(** ** The status a staff user's transaction gets *)
Lemma reads_pending u ty amount : isOwner u = false ->
  reads false (initial_status u ty amount) (fun d s => approval_required d -> s = "pending_approval").
Proof.
  intros Ho. unfold initial_status. rewrite Ho.
  eapply reads_weaken; [eapply reads_bind; [apply reads_or_internal|intros cfg; apply reads_ret]|].
  - eapply (reads_weaken _ _ (fun d cfg => approval_required d -> cf_enabled cfg = true /\ cf_threshold cfg = None /\ cf_types cfg = [])); [|intros d a H; exact H].
    unfold loadApprovalConfig.
    eapply reads_weaken; [eapply reads_bind; [eapply reads_attempt, reads_read|intros r]|intros d cfg (r & Hr & H); exact (H Hr)].
    intros P. destruct r as [[a|]|e]; [|apply t_ret; intros d HP; split; [done|]|by apply t_throw].
    + destruct (array_scan (ap_types a)) as [l|] eqn:El; [|by apply t_throw]. apply t_ret. intros d HP. split; [done|].
      intros cfg [= <-] Hr (b & Hb & He & Ht & Hl). specialize (Hr _ eq_refl). rewrite Hb in Hr.
      injection Hr as ->. cbn. rewrite He, Ht. by split_and!; [..|apply Hl].
    + intros cfg [= <-] Hr (b & Hb & _). specialize (Hr _ eq_refl). congruence.
  - cbn. intros d s (cfg & Hc & ->) Ha. destruct (Hc Ha) as (H1 & H2 & H3). unfold staffNeedsApproval. by rewrite H1, H2, H3.
Qed.
Lemma staff_denied {A} (P : fin_db -> Prop) u (k : AuthUser -> fin A) :
  not_owner u -> triple false P (bind (mustOwner u) k) (fun _ => P).
Proof.
  intros Hu. eapply t_reads_bind; [apply reads_mustOwner|intros usr|done]. intros w Hw (_ & He & Ho). by rewrite (Hu usr He) in Ho.
Qed.
Lemma mustUser_staff u usr : not_owner u -> mustUser u = Ok usr -> isOwner usr = false.
Proof. intros Hu H. apply Hu. by apply mustUser_Ok. Qed.
Lemma CreateTransaction_calm u q now : approval_required d0 -> not_owner u -> calm (CreateTransaction u q now).
Proof.
  intros Ha Hu. unfold CreateTransaction. eapply t_reads_bind; [apply reads_of_result|intros usr|done]. apply (t_pure _ still (mustUser u = Ok usr)).
  intros Husr. apply (mustUser_staff u usr Hu) in Husr. do 2 rd. eapply t_reads_any; [auto with reads|intros date|done].
  eapply t_reads_any; [eapply reads_any, reads_type|intros ty|done]. do 3 rd.
  eapply t_reads_bind; [by apply reads_pending|intros status|done].
  eapply t_conseq with (P := fun d => still d /\ status = "pending_approval"); [|intros d [Hd H]; split; [done|]; apply H|intros r d H; exact H].
  2: { destruct Ha as (ap & H1 & H2). exists ap. by rewrite (s_approval _ Hd). }
  apply (t_pure _ still). intros ->. rd. eapply t_seq; [|intros id; eapply t_seq; [by apply t_ret|intros _]].
  - eapply (t_in_tx _ _ _ _ (insert_txn (txn_of_params usr q date "pending_approval"))).
    + intros w. unfold or_internal, or_else, bind, attempt. by destruct (stmt _ w) as [[x|e] w'].
    + intros d Hd. pose proof (still_insert (txn_of_params usr q date "pending_approval") d) as H.
      assert (still (snd (insert_txn (txn_of_params usr q date "pending_approval") d))) as Hs; [|by destruct (insert_txn _ d) as [[id|e] d']].
      apply H; [|done]. intros i t Ht. unfold txn_of_params in Ht. repeat case_on Ht; try done; by injection Ht as <-.
  - eapply t_seq; [apply calm_usage|intros _]. eapply t_seq; [apply calm_audit|intros _]. by apply t_ret.
Qed.
Lemma staff_may_edit_status usr t : isOwner usr = false -> staff_may_edit usr t = None -> String.eqb (tx_status t) "approved" = false.
Proof.
  unfold staff_may_edit. intros ->. destruct (negb (String.eqb _ _)); [done|]. destruct (in_list _ _) eqn:E; [|done]. intros _.
  apply String.eqb_neq. intros Hs. by rewrite Hs in E.
Qed.
Lemma UpdateTransaction_calm u id q now : not_owner u -> calm (UpdateTransaction u id q now).
Proof.
  intros Hu. unfold UpdateTransaction. eapply t_reads_bind; [apply reads_of_result|intros usr|done]. apply (t_pure _ still (mustUser u = Ok usr)).
  intros Husr. apply (mustUser_staff u usr Hu) in Husr. rd.
  eapply t_reads_bind; [apply reads_attempt, reads_uquery|intros [t|e]|done]; [|apply t_if; intros _; apply t_throw; tauto].
  eapply t_conseq with (P := fun d => still d /\ looked_up id t d);
    [|intros d [Hd H]; split; [done|by apply looked_up_live, (H t eq_refl)]|intros r d H; exact H].
  eapply t_reads_bind; [apply reads_check|intros x|tauto]. eapply t_conseq with (P := fun d => (still d /\ looked_up id t d) /\ String.eqb (tx_status t) "approved" = false);
    [apply t_pure; intros Hst|intros d [Hd H]; split; [exact Hd|by eapply staff_may_edit_status]|intros r d H; exact H].
  do 3 rd. eapply t_seq.
  - eapply t_seq; [apply t_attempt, t_stmt|intros [y|e]; [by apply t_ret|by apply t_throw]]. intros d [Hd [Hin Hi]].
    unfold stmt_post. rewrite Hi. destruct (update_txn_row _ q) as [f|] eqn:Ef; [|done].
    assert (still (snd (update_txn (tx_id t) f d))) as H; [|by destruct (update_txn _ _ d) as [[y|e] d']].
    apply still_update; [done|]. intros z w Hz Hzi. assert (z = t) as -> by (eapply same_txn_id; [apply Hd|done..]).
    assert (forall s, tx_status s = tx_status t -> counts s = false) as Hn by (intros s Hs; unfold counts; by rewrite Hs, Hst).
    rewrite !contribution_uncounted; [done|by apply Hn|apply Hn; by eapply update_txn_row_status].
  - intros y. rewrite Hst, andb_false_r. eapply t_seq; [by apply t_ret|intros _]. eapply t_seq; [apply calm_audit|intros _]. by apply t_ret.
Qed.
(** ** Bills: what a staff user may do with items *)
Lemma calm_items l d : still d -> still (set_items l d).
Proof. by apply still_frame. Qed.
Lemma insert_items_still rows d : still d -> still (snd (insert_items rows d)).
Proof.
  revert d. induction rows as [|[template due] rest IH]; intros d Hd; cbn [insert_items]; [done|].
  destruct (f_ids d) as [|id ids]; [done|]. assert (still (set_ids ids d)) as Hd' by (by eapply still_frame; [..|exact Hd]). cbv zeta.
  destruct (existsb _ _); [by apply IH|]. destruct (existsb _ _); [done|]. by apply IH, calm_items.
Qed.
Lemma ensureItems_calm f due : calm (ensureItems f due).
Proof.
  eapply t_seq; [apply t_attempt, t_stmt_keep|intros [x|e]; [by apply t_ret|by apply t_throw]]. intros d. apply insert_items_still.
Qed.
Lemma GetTodayChecklist_calm u now : calm (GetTodayChecklist u now).
Proof.
  unfold GetTodayChecklist. do 3 rd. cbv zeta. eapply t_seq; [apply ensureItems_calm|intros _].
  eapply t_seq; [apply ensureItems_calm|intros _]. rd. by apply t_ret.
Qed.
Lemma ChecklistAction_calm u p now : calm (ChecklistAction u p now).
Proof.
  unfold ChecklistAction. rd. apply t_if; [intros _; by apply t_throw|intros _]. rd. eapply t_seq; [|intros _; by apply t_ret].
  eapply t_seq; [apply t_attempt, t_stmt_keep|intros [x|e]; [by apply t_ret|by apply t_throw]]. intros d Hd.
  destruct (uuid_in (KA_ItemID p)); [|done]. destruct (uuid_in (AccountID a)), (uuid_opt (KA_TransactionID p)); try done. by apply calm_items.
Qed.
(** a call that posts the expenses of checked bills *)
Definition settles_bills (c : call) : bool := match c with CallMonthlyBills _ | CallToggleBill _ _ => true | _ => false end.
Lemma run_calm r :
  approval_required d0 -> not_owner (rq_user r) -> is_api (rq_call r) = true -> settles_bills (rq_call r) = false -> calm (run r).
Proof.
  intros Ha Hu Hc Hb. destruct (rq_call r) eqn:E; try done; unfold run; rewrite E; try apply quiet_triple;
    first [by apply CreateTransaction_calm|by apply UpdateTransaction_calm|apply GetTodayChecklist_calm|apply ChecklistAction_calm|by apply staff_denied].
Qed.
End still.

End staff.

(** *** The sample tenant *)
Definition with_approval : fin_db :=
  sample_serve_all (without_faults [by_boss (CallSetApproval {| AS_Enabled := true; AS_AmountThreshold := None; AS_RequireForTypes := [] |})])
    (sample_serve_all (without_faults sample_history) new_tenant).
Definition clerk_calls : list (request * list fault) :=
  [(by_clerk (CallCreateTransaction (new_txn "income" 1000 "a1" None "")), []);
   (by_clerk (CallUpdateTransaction "a6" {| UP_CategoryID := None; UP_Description := Some "x"; UP_Notes := None; UP_ReferenceNo := None;
      UP_TransactionDate := Some "2024-12-31"; UP_Amount := Some (of_Z 5); UP_Tags := None |}), []);
   (by_clerk (CallApprove "a6" "approve" ""), []); (by_clerk (CallDeleteTransaction "a3"), [FailAfter])].

(** *** What goes past approval
    The owner wrote a bill's template; a clerk who checks its item posts the
    expense as approved, and one who unchecks it removes the expense again. *)
Definition bill_open : fin_db := sample_serve_all (without_faults (take 2 bill_calls)) with_approval.
Definition bill_checked : fin_db := sample_serve_all (without_faults [by_clerk (CallToggleBill "a7" true)]) bill_open.
Definition bill_unchecked : fin_db := sample_serve_all (without_faults [by_clerk (CallToggleBill "a7" false)]) bill_checked.
Lemma clerk_posts_approved_bill :
  (f_balances bill_open !! "a1", f_balances bill_checked !! "a1", f_balances bill_unchecked !! "a1") = (Some 80000, Some 77000, Some 80000) /\
  map (fun t => (tx_status t, tx_created_by t, tx_deleted t)) (drop 2 (f_txns bill_checked)) = [("approved", "e2", false)] /\
  map (fun t => (tx_status t, tx_deleted t)) (drop 2 (f_txns bill_unchecked)) = [("approved", true)].
Proof. vm_compute. by split_and!. Qed.
