(* ===== verification/FinTransfer.v ===== *)
(** * What a transfer does to the balances

    A valid transfer goes through when no statement fails, and moves its amount
    from the one wallet to the other; the two are told apart by the texts of
    their ids only, so a transfer to the same wallet under another spelling of
    its id creates the amount. *)
From S2P Require Import Prelude GoStrings AdminSession PgTx Triples DaySlots Dates Float64 Billing Recurring FinTables FinTxns FinAssets FinPosting FinLedger FinBooks FinSample FinCalls.

Open Scope string_scope.
Open Scope Z_scope.

Section transfer.
Context `{HI : PgInput} `{HT : TimeZones} `{HL : !PgInputLaws}.

(** ** Steps that only read and do answer *)
Definition quiet_session (d : fin_db) : pg fin_db := Build_pg d None [].
Definition yields {A} (d : fin_db) (m : fin A) (a : A) : Prop := m (quiet_session d) = (Ok a, quiet_session d).
Lemma bind_yields {A B} d (m : fin A) (k : A -> fin B) a : yields d m a -> bind m k (quiet_session d) = k a (quiet_session d).
Proof. unfold yields, bind. by intros ->. Qed.
Lemma yields_bind {A B} d (m : fin A) (k : A -> fin B) a b : yields d m a -> yields d (k a) b -> yields d (bind m k) b.
Proof. intros Hm Hk. unfold yields. by rewrite (bind_yields _ _ _ _ Hm). Qed.
Lemma yields_stmt {A} d (f : fin_db -> result A * fin_db) a : f d = (Ok a, d) -> yields d (stmt f) a.
Proof. intros Hf. unfold yields, stmt. cbn. by rewrite Hf. Qed.
Lemma yields_or_else {A} d wrap (m : fin A) a : yields d m a -> yields d (or_else wrap m) a.
Proof. intros Hm. apply (yields_bind _ _ _ (Ok a)); [|done]. unfold yields, attempt. by rewrite Hm. Qed.
Lemma yields_prepare d : yields d prepareTenant tt.
Proof. by apply yields_or_else, yields_stmt. Qed.
Lemma yields_unlocked d q : existsb (String.eqb q) (f_locks d) = false -> yields d (ensurePeriodUnlocked q) tt.
Proof.
  intros Hq. apply (yields_bind _ _ _ false); [apply yields_or_else, yields_stmt; by rewrite Hq|done].
Qed.
Lemma yields_type d code r : type_of_code d code = Some r -> tt_active r = true -> yields d (loadTransactionTypeByCode code) r.
Proof.
  intros Hr Ha. apply yields_or_else, yields_stmt.
  assert (List.find (fun t => live_type code t && tt_active t) (f_types d) = Some r) as ->; [|done].
  unfold type_of_code in Hr. induction (f_types d) as [|x l IH]; [done|]. cbn in *. destruct (live_type code x); [|by apply IH].
  injection Hr as ->. by rewrite Ha.
Qed.
Lemma yields_accessible d u w : isOwner u = true -> w <> "" -> yields d (assertWalletAccessible u w) tt.
Proof. intros Hu Hw. unfold assertWalletAccessible. by rewrite (proj2 (String.eqb_neq _ _) Hw), Hu. Qed.

(** ** The transaction's row *)
(** what arrives in wallet [w] of [n] sent from [a] to [b] *)
Definition moved (n : Z) (a b w : string) : Z :=
  (if String.eqb w b then n else 0) - (if String.eqb w a && negb (String.eqb w b) then n else 0).
Lemma transfer_contribution fl t n a b w :
  fl (tx_type t) = "transfer" -> counts t = true -> tx_amount t = n -> tx_wallet t = a -> tx_to t = Some b ->
  contribution fl w t = moved n a b w.
Proof.
  intros Hf Hc <- <- Hb. unfold contribution, moved, touches, credit, debit, is_to. rewrite Hf, Hc, Hb, andb_true_r. cbn.
  rewrite !(String.eqb_sym w). destruct (String.eqb_spec b w) as [->|Hne].
  - rewrite bool_decide_true by done. rewrite orb_true_r, andb_false_r. destruct (String.eqb (tx_wallet t) w); cbn; lia.
  - rewrite bool_decide_false by congruence. rewrite orb_false_r, andb_true_r. destruct (String.eqb (tx_wallet t) w); cbn; lia.
Qed.

(** tables that refreshes, usage and audit rows leave alone *)
Definition same_ledger (d d' : fin_db) : Prop := f_wallets d' = f_wallets d /\ f_types d' = f_types d /\ f_txns d' = f_txns d.
Definition ends {A} (d : fin_db) (m : fin A) : Prop := triple true (same_ledger d) m (fun r d' => (exists a, r = Ok a) /\ same_ledger d d').
Lemma ends_bind {A B} d (m : fin A) (k : A -> fin B) : ends d m -> (forall a, ends d (k a)) -> ends d (bind m k).
Proof.
  intros Hm Hk. eapply t_bind; [exact Hm|intros a; eapply t_conseq; [apply Hk|tauto|auto]|]. by intros e d' [[a ?] _].
Qed.
Lemma ends_ret {A} d (a : A) : ends d (ret a).
Proof. apply t_ret. intros d' Hd. split; [by eexists|done]. Qed.
Lemma ends_ignore {A} d (f : fin_db -> result A * fin_db) :
  (forall d', same_ledger d d' -> same_ledger d (snd (f d'))) -> ends d (ignore (stmt f)).
Proof. intros Hf. apply t_ignore. eapply t_conseq; [by apply t_stmt_keep|done|]. intros r d' Hd. split; [by eexists|done]. Qed.
Lemma ends_refresh d w : ends d (ignore (refreshWalletBalance w)).
Proof.
  apply ends_ignore. intros d' Hd. destruct (uuid_in w) as [i|]; [|done]. destruct (find_wallet d' i) as [r|]; [|done].
  cbv zeta. by destruct (fits (w_initial r + net d' i)).
Qed.
Lemma ends_refreshWallets d w to : ends d (refreshWallets w to).
Proof.
  apply ends_bind; [destruct (negb _); [apply ends_refresh|apply ends_ret]|intros _]. destruct to as [t|]; [|apply ends_ret].
  destruct (_ && _); [apply ends_refresh|apply ends_ret].
Qed.
Lemma ends_usage d u e now : ends d (RecordUsage u e now).
Proof.
  apply t_ignore. destruct (validateSchema _); [apply t_throw; intros d' Hd; split; [by eexists|done]|].
  eapply t_conseq; [|intros d' Hd; exact Hd|intros r d' Hd; split; [by eexists|exact Hd]].
  eapply t_seq; [by apply t_stmt_keep|intros _; by apply t_stmt_keep].
Qed.
Lemma ends_audit d u e i a : ends d (auditFinance u e i a).
Proof. apply ends_ignore. intros d' Hd. by destruct (uuid_in i), (uuid_in (AccountID u)). Qed.

(** ** The call *)
(** everything CreateTransaction asks of a transfer *)
Record transferable (d : fin_db) (u : AuthUser) (p : CreateTransactionParams) (now n : Z) (a b : string) : Prop := {
  tr_user : mustUser (Some u) = Ok u; tr_owner : isOwner u = true; tr_account : is_Some (uuid_in (AccountID u));
  tr_valid : validateCreateTransaction p = None; tr_type : TP_Type p = "transfer";
  tr_flow : exists r, type_of_code d "transfer" = Some r /\ tt_active r = true /\ tt_flow r = "transfer";
  tr_amount : numeric_in 2 (TP_Amount p) = Some n; tr_positive : 0 < n;
  tr_from : uuid_in (TP_WalletID p) = Some a; tr_from_known : known d a;
  tr_to : exists to, TP_ToWalletID p = Some to /\ uuid_in to = Some b; tr_to_known : known d b;
  tr_category : is_Some (uuid_opt (TP_CategoryID p));
  tr_date : TP_TransactionDate p <> "" /\ is_Some (date_in (TP_TransactionDate p));
  tr_open : existsb (String.eqb (walletPeriod now (TP_TransactionDate p))) (f_locks d) = false;
  tr_id : exists id rest, f_ids d = id :: rest /\ find_txn d id = None
}.
Lemma valid_insert d t :
  txns_valid (f_txns d) = true -> txn_ok t = true -> find_txn d (tx_id t) = None -> income_ref t = None -> txns_valid (f_txns d ++ [t]) = true.
Proof.
  unfold txns_valid. rewrite !andb_true_iff, !bool_decide_eq_true, forallb_app, map_app, omap_app. intros [[H1 H2] H3] Ht Hid Hr. cbn.
  rewrite H1, Ht, Hr, app_nil_r. split_and!; [done| |done]. apply NoDup_app. split_and!; [done| |by apply NoDup_singleton].
  intros x Hx Hin. apply list_elem_of_singleton in Hin as ->. apply list_elem_of_In, in_map_iff in Hx as (y & Hy & Hin).
  unfold find_txn in Hid. pose proof (find_none _ _ Hid _ Hin) as H. cbn in H. by rewrite Hy, String.eqb_refl in H.
Qed.
Lemma in_tx_quiet {A} d wrap (body : fin A) (f : fin_db -> result A * fin_db) a d' :
  (forall w, body w = match stmt f w with (Ok a, w') => (Ok a, w') | (Err e, w') => (Err (wrap e), w') end) ->
  f d = (Ok a, d') -> in_tx wrap body (quiet_session d) = (Ok a, quiet_session d').
Proof.
  intros Hb Hf. unfold in_tx, in_tx_errs, bind, attempt, begin_tx. cbn. rewrite Hb. unfold stmt. cbn. rewrite Hf. reflexivity.
Qed.
(** the row is there, the call answers, and the tail leaves the ledger alone *)
Lemma CreateTransaction_inserts d u p now n a b :
  txns_valid (f_txns d) = true -> transferable d u p now n a b ->
  exists tr t w', CreateTransaction (Some u) p now (quiet_session d) = (Ok tr, w') /\ same_ledger (set_txns (f_txns d ++ [t])%list d) (p_db w') /\
    tx_type t = "transfer" /\ counts t = true /\ tx_amount t = n /\ tx_wallet t = a /\ tx_to t = Some b.
Proof.
  intros Hv []. destruct tr_flow0 as (r & Hr & Hact & _). destruct tr_to0 as (to & Hto & Hb). destruct tr_category0 as [cat Hcat].
  destruct tr_date0 as [Hne [day Hday]]. destruct tr_account0 as [by_ Hby]. destruct tr_id0 as (id & rest & Hids & Hid).
  assert (forall x y, uuid_in x = Some y -> x <> "") as Hnonempty by (intros x y Hx ->; by rewrite uuid_nonempty in Hx).
  set (date := TP_TransactionDate p) in *.
  assert (exists t, txn_of_params u p date "approved" id = Some t /\ tx_id t = id /\ tx_type t = "transfer" /\ counts t = true /\ tx_amount t = n /\
    tx_wallet t = a /\ tx_to t = Some b) as (t & Ht & Htid & Hty & Hc & Ham & Hw & Htto).
  { unfold txn_of_params. rewrite tr_amount0, tr_from0, Hto. cbn [uuid_opt]. rewrite Hb. cbn [fmap option_fmap option_map].
    rewrite Hcat, Hday, Hby. eexists. split; [reflexivity|]. cbn. by rewrite tr_type0. }
  assert (insert_txn (txn_of_params u p date "approved") d = (Ok id, set_txns (f_txns d ++ [t])%list (set_ids rest d))) as Hins.
  { unfold insert_txn, with_id. rewrite Hids, Ht. unfold write_txns. cbn [f_txns set_ids]. rewrite valid_insert; [done|done| |by rewrite Htid|].
    - unfold txn_ok. rewrite Ham, Hty. apply andb_true_intro. split; [by apply Z.ltb_lt|done].
    - unfold income_ref. by rewrite Hty. }
  unfold CreateTransaction. rewrite tr_user0. cbn [of_result]. rewrite (bind_yields d _ _ u eq_refl), tr_valid0.
  rewrite (bind_yields d _ _ tt eq_refl), (bind_yields d _ _ tt (yields_prepare d)). unfold date_or_today. fold date.
  rewrite (proj2 (String.eqb_neq _ _) Hne), (bind_yields d _ _ date eq_refl), tr_type0.
  rewrite (bind_yields d _ _ r (yields_type _ _ _ Hr Hact)). unfold assertOwner. rewrite tr_owner0.
  assert (yields d (check (if tt_owner r then None else None)) tt) as Hown by (by destruct (tt_owner r)). rewrite (bind_yields d _ _ tt Hown).
  rewrite (bind_yields d _ _ tt (yields_accessible _ _ _ tr_owner0 (Hnonempty _ _ tr_from0))), Hto. cbn [given].
  rewrite (proj2 (String.eqb_neq to "") (Hnonempty _ _ Hb)). cbn [when_some].
  rewrite (bind_yields d _ _ tt (yields_accessible _ _ _ tr_owner0 (Hnonempty _ _ Hb))). unfold initial_status. rewrite tr_owner0.
  rewrite (bind_yields d _ _ "approved" eq_refl), (bind_yields d _ _ tt (yields_unlocked _ _ tr_open0)).
  unfold bind at 1. rewrite (in_tx_quiet d InternalE _ (insert_txn (txn_of_params u p date "approved")) id
    (set_txns (f_txns d ++ [t])%list (set_ids rest d)));
    [|intros w; unfold or_internal, or_else, bind, attempt; by destruct (stmt _ w) as [[x|e] w']|exact Hins].
  cbv iota beta. set (d1 := set_txns _ _).
  match goal with |- context [?m (quiet_session d1)] => assert (ends d1 m) as He end.
  { apply ends_bind; [apply ends_refreshWallets|intros _]. apply ends_bind; [apply ends_usage|intros _].
    apply ends_bind; [apply ends_audit|intros _]. apply ends_ret. }
  specialize (He (quiet_session d1) (conj eq_refl (fun _ => eq_refl)) (conj eq_refl (conj eq_refl eq_refl))).
  match goal with |- context [?m (quiet_session d1)] => destruct (m (quiet_session d1)) as [x w'] end. destruct He as (_ & [tr ->] & Hl). by exists tr, t, w'.
Qed.
(** A transfer moves its amount.  On books in order, a transfer between two
    known wallets that passes the call's checks goes through when no statement
    fails; afterwards the receiving wallet's cached balance is higher by the
    amount, the sending one's is lower by it, unless both texts name the same
    wallet, which then gains the amount from nowhere, and every other balance is
    as before (for balances that fit the column before and after). *)
Theorem transfer_moves_amount d u p now n a b :
  books none d -> transferable d u p now n a b ->
  exists tr w', CreateTransaction (Some u) p now (Build_pg d None []) = (Ok tr, w') /\
    forall w row, find_wallet d w = Some row ->
      fits (w_initial row + net d w) = true -> fits (w_initial row + net d w + moved n a b w) = true ->
      exists old, f_balances d !! w = Some old /\ f_balances (p_db w') !! w = Some (old + moved n a b w).
Proof.
  intros Hb Ht. destruct (CreateTransaction_inserts d u p now n a b (b_valid _ _ Hb) Ht) as (tr & t & w' & Hrun & (Hw & Hty & Htx) & H1 & H2 & H3 & H4 & H5).
  exists tr, w'. split; [exact Hrun|]. intros w row Hrow Hf Hf'. exists (w_initial row + net d w). split; [by apply (b_synced _ _ Hb w); [intros []|..]|].
  assert (books none (p_db w')) as Hb'.
  { destruct Ht. pose proof (CreateTransaction_books (Some u) p now (Build_pg d None []) (conj eq_refl (fun _ => eq_refl))) as H.
    cbn [p_db] in H. change (Build_pg d None []) with (quiet_session d) in H. rewrite Hrun in H. apply H. split_and!; [done|..].
    - intros x Hx. congruence.
    - destruct tr_to0 as (to & Hto & Hbt). intros x Hx y Hy. rewrite Hto in Hx. injection Hx as <-. congruence. }
  assert (net (p_db w') w = net d w + moved n a b w) as Hnet.
  { rewrite !net_eq, Htx. cbn [f_txns set_txns]. rewrite sum_of_app. unfold sum_of at 2. cbn [map foldr].
    assert (forall c, flow_of (p_db w') c = flow_of d c) as Hfl by (intros c; unfold flow_of, type_of_code; by rewrite Hty).
    rewrite (transfer_contribution (flow_of (p_db w')) t n a b w); [|..|done|done|done|done].
    - rewrite (sum_of_ext _ (contribution (flow_of d) w)); [lia|]. intros x _. apply contribution_flow. intros _. apply Hfl.
    - rewrite Hfl, H1. destruct Ht. destruct tr_flow0 as (r & Hr & _ & Hflow). unfold flow_of. by rewrite Hr. }
  rewrite <- Z.add_assoc, <- Hnet. apply (b_synced _ _ Hb' w); [intros []| |rewrite Hnet, Z.add_assoc; exact Hf'].
  unfold find_wallet in *. by rewrite Hw.
Qed.
End transfer.

(** *** The sample tenant: from one wallet to the other, and to itself under another spelling *)
Definition with_wallets : fin_db := sample_serve_all (without_faults two_wallets) new_tenant.
Lemma with_wallets_books : @books sample_input none with_wallets.
Proof.
  apply (@serve_all_books sample_input sample_zones sample_secrets sample_laws); [apply (@fresh_books sample_input), new_tenant_fresh|by repeat split].
Qed.
Definition spelled_twice : CreateTransactionParams := new_txn "transfer" 300 "a1" (Some "A1") "2025-01-02".
Lemma spelled_twice_ok : @transferable sample_input sample_zones with_wallets boss spelled_twice sample_now 30000 "a1" "a1".
Proof.
  assert (known with_wallets "a1") as Hk by (apply not_eq_None_Some; vm_compute; discriminate).
  split.
  1-2, 5, 9: reflexivity.
  2, 4, 11: vm_compute; reflexivity.
  1, 7: apply not_eq_None_Some; vm_compute; discriminate.
  - eexists. split; [vm_compute; reflexivity|by split].
  - lia.
  - exact Hk.
  - by exists "A1".
  - exact Hk.
  - split; [done|]. apply not_eq_None_Some; vm_compute; discriminate.
  - exists "a3", ["a4"; "a5"; "a6"; "a7"; "a8"; "a9"]. split; vm_compute; reflexivity.
Qed.
Lemma transfer_moves_amount_witness :
  exists tr w', @CreateTransaction sample_input sample_zones (Some boss) spelled_twice sample_now (Build_pg with_wallets None []) = (Ok tr, w') /\
    f_balances with_wallets !! "a1" = Some 100000 /\ f_balances (p_db w') !! "a1" = Some 130000 /\ f_balances (p_db w') !! "a2" = Some 50000.
Proof.
  destruct (@transfer_moves_amount sample_input sample_zones sample_laws _ _ _ _ _ _ _ with_wallets_books spelled_twice_ok) as (tr & w' & Hrun & Hall).
  exists tr, w'. split; [exact Hrun|].
  destruct (Hall "a1" (wallet_of (new_wallet "Kas" 1000) sample_now 100000 "a1")) as (old & Ho & Hn); [vm_compute; reflexivity..|].
  destruct (Hall "a2" (wallet_of (new_wallet "Bank" 500) sample_now 50000 "a2")) as (old' & Ho' & Hn'); [vm_compute; reflexivity..|].
  assert (f_balances with_wallets !! "a1" = Some 100000) as E1 by (vm_compute; reflexivity).
  assert (f_balances with_wallets !! "a2" = Some 50000) as E2 by (vm_compute; reflexivity).
  rewrite E1 in Ho. rewrite E2 in Ho'. injection Ho as <-. injection Ho' as <-. by split_and!.
Defined.
