(* ===== verification/Zoom.v ===== *)
(** * Programs over a part of the tables

    [zoom get put m] runs a program written for some tables inside larger ones
    that contain them: how one component calls another on the same database.
    Triples carry over; everything outside the part stays as it is. *)
From S2P Require Import Prelude PgTx Triples.

Section zoom.
Context {D E : Type} (get : E -> D) (put : D -> E -> E).

(** the tables of the open transaction, or the committed ones *)
Definition seen (w : pg E) : E := match p_tx w with Some (e, _) => e | None => p_db w end.
Definition zoom {A} (m : prog (pg D) A) : prog (pg E) A := fun w =>
  let '(r, w') := m (Build_pg (get (p_db w)) ((fun t => (get t.1, t.2)) <$> p_tx w) (p_faults w)) in
  (r, Build_pg (put (p_db w') (p_db w)) ((fun t => (put t.1 (seen w), t.2)) <$> p_tx w') (p_faults w')).

Class Lens : Prop := {
  get_put d e : get (put d e) = d;
  put_get e : put (get e) e = e
}.
Context `{HL : !Lens}.

(** [F]: what is known of the other tables *)
Lemma zoom_triple {A} c (P : D -> Prop) (m : prog (pg D) A) Q (F : E -> Prop) :
  (forall d e, F e -> F (put d e)) -> triple c P m Q ->
  triple c (fun e => P (get e) /\ F e) (zoom m) (fun r e => Q r (get e) /\ F e).
Proof.
  intros HF Hm w [Ht Hf] [HP He]. unfold zoom. rewrite Ht. cbn [fmap option_fmap option_map].
  specialize (Hm (Build_pg (get (p_db w)) None (p_faults w)) (conj eq_refl Hf) HP). destruct (m _) as [r w'].
  destruct Hm as [[Ht' Hf'] HQ]. cbn. rewrite Ht', get_put. split; [by split|]. split; [done|by apply HF].
Qed.
Lemma zoom_reads {A} c (m : prog (pg D) A) G :
  (forall d : D, triple c (eq d) m (fun r d' => d' = d /\ forall a, r = Ok a -> G d a)) -> reads c (zoom m) (fun e a => G (get e) a).
Proof.
  intros Hm P w [Ht Hf] HP. unfold zoom. rewrite Ht. cbn [fmap option_fmap option_map].
  specialize (Hm (get (p_db w)) (Build_pg (get (p_db w)) None (p_faults w)) (conj eq_refl Hf) eq_refl). destruct (m _) as [r w'].
  destruct Hm as [[Ht' Hf'] [Hd HG]]. cbn. rewrite Ht', Hd, put_get. split; [by split|]. split; [done|exact HG].
Qed.
(** inside a transaction *)
Lemma zoom_tx {A} (m : prog (pg D) A) R :
  tx_spec m R -> tx_spec (zoom m) (fun e r e' => R (get e) r (get e') /\ e' = put (get e') e).
Proof.
  intros Hm w e b Hw. unfold zoom, seen. rewrite Hw. cbn [fmap option_fmap option_map fst snd].
  specialize (Hm (Build_pg (get (p_db w)) (Some (get e, b)) (p_faults w)) (get e) b eq_refl). destruct (m _) as [r w'].
  destruct Hm as (Hdb & d' & b' & Hw' & Hb & HR). cbn in Hdb |- *. rewrite Hw', Hdb, put_get. split; [done|].
  exists (put d' e), b'. cbn. rewrite get_put. auto.
Qed.
End zoom.

(** ** An error under another name *)
Definition wrapping {W A} (wrap : error -> error) (m : prog W A) : prog W A :=
  let! r := attempt m in match r with Ok a => ret a | Err e => throw (wrap e) end.
Lemma wrapping_triple {D A} c (P : D -> Prop) wrap (m : prog (pg D) A) Q :
  triple c P m (fun r d => match r with Ok a => Q (Ok a) d | Err e => Q (Err (wrap e)) d end) -> triple c P (wrapping wrap m) Q.
Proof.
  intros Hm. eapply t_bind; [apply (t_attempt _ _ _ (fun r d => match r with Ok (Ok a) => Q (Ok a) d | Ok (Err e) => Q (Err (wrap e)) d | Err _ => False end))|..].
  - eapply t_conseq; [exact Hm|done|]. by intros [a|e] d.
  - intros [a|e]; [apply t_ret|apply t_throw]; auto.
  - done.
Qed.
Lemma wrapping_reads {D A} c wrap (m : prog (pg D) A) F : reads c m F -> reads c (wrapping wrap m) F.
Proof.
  intros Hm P. eapply t_reads_bind; [eapply reads_attempt; exact Hm| |naive_solver].
  intros [a|e]; [apply t_ret|apply t_throw]; naive_solver.
Qed.

Lemma tx_wrapping {D A} wrap (m : prog (pg D) A) R :
  tx_spec m R -> tx_spec (wrapping wrap m) (fun d r d' => match r with Ok a => R d (Ok a) d' | Err _ => exists e, R d (Err e) d' end).
Proof.
  intros Hm. eapply tx_weaken.
  - apply (tx_bind _ _ _ (fun x d r d' => r = match x with Ok a => Ok a | Err e => Err (wrap e) end /\ d' = d) (tx_attempt _ _ Hm)).
    intros [a|e]; [apply tx_ret|apply tx_throw].
  - cbn. intros d r d' [([a|e] & d1 & (x & [= <-] & H) & -> & ->)|(e & (x & [=] & _) & _)]; eauto.
Qed.

(** ** Bodies of transactions: what they keep when they are still good
    (and that no statement fails when none is to fail) *)
Definition calm {D A} (m : prog (pg D) A) : Prop := forall w, p_faults w = [] -> p_faults (snd (m w)) = [].
Section inside.
Context {D : Type}.
Definition inside {A} (R : D -> D -> Prop) (m : prog (pg D) A) : Prop := tx_spec m (fun d _ d' => R d d') /\ calm m.
Context (R : D -> D -> Prop) `{!PreOrder R}.

Lemma inside_ret {A} (a : A) : inside R (ret a).
Proof. split; [|by intros w]. eapply tx_weaken; [apply tx_ret|]. by intros d r d' [_ ->]. Qed.
Lemma inside_throw {A} e : inside R (throw (A:=A) e).
Proof. split; [|by intros w]. eapply tx_weaken; [apply tx_throw|]. by intros d r d' [_ ->]. Qed.
Lemma calm_bind {A B} (m : prog (pg D) A) (k : A -> prog (pg D) B) : calm m -> (forall a, calm (k a)) -> calm (bind m k).
Proof. intros Hm Hk w Hw. unfold bind. specialize (Hm w Hw). destruct (m w) as [[a|e] w']; [by apply Hk|done]. Qed.
Lemma inside_bind {A B} (m : prog (pg D) A) (k : A -> prog (pg D) B) :
  inside R m -> (forall a, inside R (k a)) -> inside R (bind m k).
Proof.
  intros [Hm Hc] Hk. split; [|apply calm_bind; [done|intros a; apply Hk]].
  eapply tx_weaken; [apply (tx_bind _ _ _ _ Hm (fun a => proj1 (Hk a)))|]. cbn.
  intros d r d' [(a & d1 & H1 & H2)|(e & H & _)]; [by transitivity d1|done].
Qed.
Lemma inside_attempt {A} (m : prog (pg D) A) : inside R m -> inside R (attempt m).
Proof.
  intros [Hm Hc]. split; [|intros w Hw; unfold attempt; specialize (Hc w Hw); by destruct (m w)].
  eapply tx_weaken; [apply (tx_attempt _ _ Hm)|]. by intros d r d' (x & _ & H).
Qed.
Lemma inside_stmt {A} (f : D -> result A * D) : (forall d a d', f d = (Ok a, d') -> R d d') -> inside R (stmt f).
Proof.
  intros Hf. split.
  - eapply tx_weaken; [apply tx_stmt|]. intros d r d' (a & _ & H). by eapply Hf.
  - intros w Hw. unfold stmt. destruct (p_tx w) as [[d []]|], (outcome w); try destruct (f _) as [[a|e] d']; cbn; by rewrite Hw.
Qed.
Lemma inside_read {A} (f : D -> A) : inside R (read f).
Proof. apply inside_stmt. by intros d a d' [= _ <-]. Qed.
Lemma inside_if {A} (b : bool) (m1 m2 : prog (pg D) A) : inside R m1 -> inside R m2 -> inside R (if b then m1 else m2).
Proof. by destruct b. Qed.
Lemma inside_wrapping {A} wrap (m : prog (pg D) A) : inside R m -> inside R (wrapping wrap m).
Proof. intros Hm. apply inside_bind; [by apply inside_attempt|]. intros [a|e]; [apply inside_ret|apply inside_throw]. Qed.
Lemma inside_weaken {A} (R' : D -> D -> Prop) (m : prog (pg D) A) : inside R m -> (forall d d', R d d' -> R' d d') -> inside R' m.
Proof. intros [Hm Hc] HR. split; [|done]. eapply tx_weaken; [exact Hm|]. auto. Qed.
End inside.
Lemma inside_zoom {D E A} (get : E -> D) (put : D -> E -> E) `{!Lens get put} (R : D -> D -> Prop) (m : prog (pg D) A) :
  inside R m -> inside (fun e e' => R (get e) (get e') /\ e' = put (get e') e) (zoom get put m).
Proof.
  intros [Hm Hc]. split; [exact (zoom_tx get put m _ Hm)|]. intros w Hw. unfold zoom.
  specialize (Hc (Build_pg (get (p_db w)) ((fun t => (get t.1, t.2)) <$> p_tx w) (p_faults w)) Hw). destruct (m _) as [r w']. exact Hc.
Qed.
Create HintDb inside.
(** by the structure of the program; the database [inside] has the components' programs *)
Ltac inside := intros; repeat first
  [ solve [typeclasses eauto] | apply inside_ret | apply inside_throw | apply inside_read | apply inside_attempt | apply inside_wrapping
  | apply inside_if | solve [auto with inside] | apply inside_bind; [| |intros ?]
  | match goal with |- inside _ (match ?x with _ => _ end) => destruct x end; cbv zeta ].

(** ** Runs that succeed, no statement failing
    [does P m Q]: from tables in [P], if [m] answers [a], its tables are in [Q a]. *)
Definition does {D A} (P : D -> Prop) (m : prog (pg D) A) (Q : A -> D -> Prop) : Prop :=
  triple true P m (fun r d => forall a, r = Ok a -> Q a d).

Section does.
Context {D : Type}.
Implicit Types P : D -> Prop.

Lemma does_conseq {A} P P' (m : prog (pg D) A) Q Q' :
  does P m Q -> (forall d, P' d -> P d) -> (forall a d, Q a d -> Q' a d) -> does P' m Q'.
Proof. intros Hm HP HQ. eapply t_conseq; [exact Hm|exact HP|]. naive_solver. Qed.
Lemma does_pre {A} P P' (m : prog (pg D) A) Q : does P m Q -> (forall d, P' d -> P d) -> does P' m Q.
Proof. intros Hm HP. by eapply does_conseq. Qed.
Lemma does_ret {A} P (a : A) (Q : A -> D -> Prop) : (forall d, P d -> Q a d) -> does P (ret a) Q.
Proof. intros HQ. apply t_ret. intros d Hd b [= <-]. auto. Qed.
Lemma does_throw {A} P e (Q : A -> D -> Prop) : does P (throw e) Q.
Proof. by apply t_throw. Qed.
Lemma does_bind {A B} P (m : prog (pg D) A) (k : A -> prog (pg D) B) R Q :
  does P m R -> (forall a, does (R a) (k a) Q) -> does P (bind m k) Q.
Proof.
  intros Hm Hk. eapply t_bind; [exact Hm|..].
  - intros a. eapply t_conseq; [apply (Hk a)|naive_solver|done].
  - by intros e d _ b.
Qed.
Lemma does_stmt {A} P (f : D -> result A * D) (Q : A -> D -> Prop) :
  (forall d a d', P d -> f d = (Ok a, d') -> Q a d') -> does P (stmt f) Q.
Proof.
  intros Hf. apply t_stmt. intros d Hd. unfold stmt_post. specialize (Hf d). destruct (f d) as [[a|e] d']; [|naive_solver].
  split; [|done]. intros b [= <-]. eauto.
Qed.
Lemma does_if {A} P (b : bool) (m1 m2 : prog (pg D) A) Q :
  (b = true -> does P m1 Q) -> (b = false -> does P m2 Q) -> does P (if b then m1 else m2) Q.
Proof. destruct b; auto. Qed.
Lemma does_wrapping {A} P wrap (m : prog (pg D) A) Q : does P m Q -> does P (wrapping wrap m) Q.
Proof. intros Hm. apply wrapping_triple. eapply t_conseq; [exact Hm|done|]. intros [a|e] d H; [naive_solver|by intros b]. Qed.
Lemma does_pure {A} P (X : Prop) (m : prog (pg D) A) Q : (X -> does P m Q) -> does (fun d => P d /\ X) m Q.
Proof. apply t_pure. Qed.
Lemma does_exists {A B} (P : B -> D -> Prop) (m : prog (pg D) A) Q : (forall b, does (P b) m Q) -> does (fun d => exists b, P b d) m Q.
Proof. apply t_exists. Qed.
Lemma does_reads {A} P (m : prog (pg D) A) F : reads true m F -> does P m (fun a d => P d /\ F d a).
Proof. intros Hm. eapply t_conseq; [apply (Hm P)|done|]. naive_solver. Qed.
(** a step that reads, and one whose answer does not matter *)
Lemma does_reads_bind {A B} P (m : prog (pg D) A) (k : A -> prog (pg D) B) F Q :
  reads true m F -> (forall a, does (fun d => P d /\ F d a) (k a) Q) -> does P (bind m k) Q.
Proof. intros Hm Hk. eapply does_bind; [by apply does_reads|]. exact Hk. Qed.
Lemma does_skip {A B} P (m : prog (pg D) A) (k : A -> prog (pg D) B) Q :
  reads true m any -> (forall a, does P (k a) Q) -> does P (bind m k) Q.
Proof. intros Hm Hk. eapply does_reads_bind; [exact Hm|]. intros a. eapply does_pre; [apply Hk|]. naive_solver. Qed.
(** the whole transaction *)
Lemma does_in_tx {A} P wrap (body : prog (pg D) A) (R : D -> result A -> D -> Prop) (Q : A -> D -> Prop) :
  tx_spec body R -> calm body -> (forall d a d', P d -> R d (Ok a) d' -> Q a d') -> does P (in_tx wrap body) Q.
Proof.
  intros Hb Hc HQ w [Ht Hf] Hd. specialize (Hf eq_refl).
  assert (p_faults (snd (in_tx wrap body w)) = []) as Hcalm.
  { unfold in_tx, in_tx_errs, bind at 1, attempt at 1, begin_tx, outcome. rewrite Hf. cbn.
    specialize (Hc (with_tx_state (Some (p_db w, false)) (pop w))). cbn in Hc. rewrite Hf in Hc. specialize (Hc eq_refl).
    unfold bind at 1, attempt at 1. destruct (body _) as [[a|e] w']; cbn in *; [|done].
    unfold bind at 1, attempt at 1, commit_tx, outcome. rewrite Hc. by destruct (p_tx w') as [[d []]|]; cbn; rewrite ?Hc. }
  pose proof (in_tx_spec wrap body R w Hb Ht) as H. destruct (in_tx wrap body w) as [r w']. cbn in Hcalm.
  destruct H as (Ht' & H). split; [by split|]. intros a ->. destruct H as [[? _]|(b & HR & [[= <-]|(e & ?)])]; [done| |done]. by eapply HQ.
Qed.
End does.
(** a component's call on its part of the tables *)
Lemma does_zoom {D E A} (get : E -> D) (put : D -> E -> E) (P : E -> Prop) (m : prog (pg D) A) (R : E -> A -> D -> Prop) (Q : A -> E -> Prop) :
  (forall e, P e -> does (eq (get e)) m (R e)) -> (forall e a d', P e -> R e a d' -> Q a (put d' e)) -> does P (zoom get put m) Q.
Proof.
  intros Hm HQ w [Ht Hf] HP. unfold zoom. rewrite Ht. cbn [fmap option_fmap option_map].
  specialize (Hm _ HP (Build_pg (get (p_db w)) None (p_faults w)) (conj eq_refl Hf) eq_refl). destruct (m _) as [r w'].
  destruct Hm as [[Ht' Hf'] HR]. cbn. rewrite Ht'. split; [by split|]. intros a ->. apply HQ; [done|]. by apply HR.
Qed.
