(* ===== verification/Shop.v ===== *)
(** * The tables that selling touches

    One tenant's orders, catalog, price types, contacts and stock settings next
    to the finance ledger (FinTables.v) and the stock ledger (StockLedger.v),
    with the statements the order handlers share.  DECIMAL(15,4) columns are
    units of 10^-4.  Columns that this code writes or returns and never reads
    back are left out: the shipping address, the payment proof's times and data,
    who deleted a row and when rows were written; so are the columns of the
    order that chats use.  Text columns are not limited in length.  What
    Postgres and the Go runtime decide beyond [PgInput] is the class
    [OrderInput]. *)
From S2P Require Import Prelude GoStrings AdminSession PgTx Triples Zoom Float64 Billing FinTables Costing StockLedger.

Open Scope string_scope.
Open Scope Z_scope.

(** ** Order lines *)
Record OrderItem := {
  OI_LineID : string; OI_CatalogItemID : string; OI_ExternalCode : string; OI_Name : string; OI_Variant : string;
  OI_Size : string; OI_Color : string; OI_Qty : f64; OI_UnitPrice : f64; OI_SellUnit : string; OI_WarehouseID : string
}.
Abbreviation reqKey := (string * string)%type.

Class OrderInput := {
  numeric_sum : Z -> f64 -> Z -> option Z;             (** [$n + column] as a NUMERIC(18,s), the column in units of 10^-s *)
  cost_sum : list (bool * f64) -> f64;                 (** SUM of costs, issued ([true]) or given back, scanned *)
  sql_lower : string -> string;                        (** LOWER *)
  label_before : string -> string -> bool;             (** the order of labels *)
  json_items : list OrderItem -> option (list OrderItem);   (** lines read back from the JSONB column they were written to *)
  genLineID : Z -> nat -> string;                      (** random: at a time, for the n-th line of a request *)
  map_order : Z -> list reqKey -> list reqKey          (** the order in which [range] walks a map, at a time *)
}.

(** ** Tables *)
Record order_row := {
  or_id : string; or_conversation : option string; or_contact : option string; or_items : list OrderItem;
  or_notes : string; or_status : string; or_tracking : string; or_courier : string; or_payment_txn : option string;
  or_payment_status : string; or_proof_message : option string; or_subtotal : Z; or_shipping : Z; or_total : Z;
  or_wallet : option string; or_stock_applied : bool; or_created_by : string; or_deleted : bool
}.
Record catalog_row := {
  ci_id : string; ci_code : string; ci_name : string; ci_price : option Z; ci_unit : option string; ci_source : string;
  ci_updated : Z; ci_deleted : bool
}.
Record price_type_row := {
  pt_id : string; pt_label : string; pt_default : bool; pt_order : Z; pt_active : bool; pt_deleted : bool
}.
Record contact_row := { co_id : string; co_price_type : option string; co_deleted : bool }.
Record warehouse_row := { wh_id : string; wh_name : string; wh_default : bool; wh_deleted : bool }.
Record bundle_row := { bc_parent : string; bc_child : string; bc_qty : Z }.
Record shop_db := {
  sh_fin : fin_db;
  sh_stock : stock_db;   (** with inv_setting's method and block_negative_stock, and inv_sku's methods *)
  sh_orders : list order_row;
  sh_catalog : list catalog_row;
  sh_ptypes : list price_type_row;
  sh_prices : gmap (string * string) Z;       (** business_catalog_item_price: item and price type *)
  sh_contacts : list contact_row;
  sh_warehouses : list warehouse_row;
  sh_bundles : list bundle_row;
  sh_flags : gmap string (bool * bool);       (** inv_sku: track_stock and is_bundle of the rows of [inv_sku] *)
  sh_setup : bool; sh_post_expense : bool;    (** inv_setting's setup_completed and purchase_posts_expense *)
  sh_marker_column : bool;                    (** the order table has stock_applied_at *)
  sh_ids : list string                        (** what [gen_random_uuid] will draw for orders and catalog rows *)
}.
Definition set_fin x d : shop_db :=
  {| sh_fin := x; sh_stock := sh_stock d; sh_orders := sh_orders d; sh_catalog := sh_catalog d; sh_ptypes := sh_ptypes d;
     sh_prices := sh_prices d; sh_contacts := sh_contacts d; sh_warehouses := sh_warehouses d; sh_bundles := sh_bundles d;
     sh_flags := sh_flags d; sh_setup := sh_setup d; sh_post_expense := sh_post_expense d;
     sh_marker_column := sh_marker_column d; sh_ids := sh_ids d |}.
Definition set_stock x d : shop_db :=
  {| sh_fin := sh_fin d; sh_stock := x; sh_orders := sh_orders d; sh_catalog := sh_catalog d; sh_ptypes := sh_ptypes d;
     sh_prices := sh_prices d; sh_contacts := sh_contacts d; sh_warehouses := sh_warehouses d; sh_bundles := sh_bundles d;
     sh_flags := sh_flags d; sh_setup := sh_setup d; sh_post_expense := sh_post_expense d;
     sh_marker_column := sh_marker_column d; sh_ids := sh_ids d |}.
Definition set_order_rows x d : shop_db :=
  {| sh_fin := sh_fin d; sh_stock := sh_stock d; sh_orders := x; sh_catalog := sh_catalog d; sh_ptypes := sh_ptypes d;
     sh_prices := sh_prices d; sh_contacts := sh_contacts d; sh_warehouses := sh_warehouses d; sh_bundles := sh_bundles d;
     sh_flags := sh_flags d; sh_setup := sh_setup d; sh_post_expense := sh_post_expense d;
     sh_marker_column := sh_marker_column d; sh_ids := sh_ids d |}.
Definition set_catalog x d : shop_db :=
  {| sh_fin := sh_fin d; sh_stock := sh_stock d; sh_orders := sh_orders d; sh_catalog := x; sh_ptypes := sh_ptypes d;
     sh_prices := sh_prices d; sh_contacts := sh_contacts d; sh_warehouses := sh_warehouses d; sh_bundles := sh_bundles d;
     sh_flags := sh_flags d; sh_setup := sh_setup d; sh_post_expense := sh_post_expense d;
     sh_marker_column := sh_marker_column d; sh_ids := sh_ids d |}.
Definition set_shop_ids x d : shop_db :=
  {| sh_fin := sh_fin d; sh_stock := sh_stock d; sh_orders := sh_orders d; sh_catalog := sh_catalog d; sh_ptypes := sh_ptypes d;
     sh_prices := sh_prices d; sh_contacts := sh_contacts d; sh_warehouses := sh_warehouses d; sh_bundles := sh_bundles d;
     sh_flags := sh_flags d; sh_setup := sh_setup d; sh_post_expense := sh_post_expense d;
     sh_marker_column := sh_marker_column d; sh_ids := x |}.

Abbreviation shop A := (prog (pg shop_db) A).
#[export] Instance fin_lens : Lens sh_fin set_fin.
Proof. split; [done|by intros []]. Qed.
#[export] Instance stock_lens : Lens sh_stock set_stock.
Proof. split; [done|by intros []]. Qed.
(** calls of the finance and inventory components *)
Definition on_fin {A} (m : fin A) : shop A := zoom sh_fin set_fin m.
Definition on_stock {A} (m : stock A) : shop A := zoom sh_stock set_stock m.

Definition internally {D A} (m : prog (pg D) A) : prog (pg D) A := wrapping InternalE m.
(** the schema check before a component's queries, a call that can fail *)
Definition prepare {D} : prog (pg D) unit := read (fun _ => tt).
(** [Scan] of at most one row *)
Definition one_row {D A} (f : D -> option A) : prog (pg D) A :=
  stmt (fun d => match f d with Some a => (Ok a, d) | None => (Err no_rows, d) end).
(** a query with parameters that may not convert *)
Definition query_with {D A P} (p : option P) (f : P -> D -> A) : prog (pg D) A :=
  stmt (fun d => match p with Some x => (Ok (f x d), d) | None => (Err bad_input, d) end).
(** a NUMERIC(15,4) column *)
Definition fits15 (n : Z) : bool := Z.abs n <? 10 ^ 15.
Section columns.
Context `{PgInput} `{OrderInput}.
Definition decimal_in (x : f64) : option Z := n ← numeric_in 4 x; if fits15 n then Some n else None.
Definition decimal_sum (x : f64) (n : Z) : option Z := s ← numeric_sum 4 x n; if fits15 s then Some s else None.
Definition nullUUIDArg (s : string) : option string := if String.eqb (TrimSpace s) "" then None else Some s.
End columns.
