(* ===== verification/OrderStock.v ===== *)
(** * Stock of orders

    [inventory/order_sync.go] and what it uses of [order_sync_batch.go]:
    the requirements of an order's lines (bundles taken apart), what was already
    issued for it, the movements that make up the difference, the marker on the
    order row and the entry for the cost of goods sold; and the check that
    stock suffices.  Movements go through StockLedger.v, entries through
    FinPosting.v.  A movement's columns take a UUID's canonical text.  Maps are
    walked in the order of [map_order]; the quantities in the text of a shortage
    are left out. *)
From S2P Require Import Prelude GoStrings AdminSession PgTx Triples Zoom Float64 Billing FinTables FinPosting Costing StockLedger Shop.

Open Scope string_scope.
Open Scope Z_scope.

Record OrderStockItem := { SI_LineID : string; SI_CatalogItemID : string; SI_WarehouseID : string; SI_Qty : f64 }.
Definition cogsRefPrefix : string := "cogs:".
Definition finCatHPP : string := "HPP / COGS".
Definition committedOrderStatuses : list string := ["processing"; "shipped"; "completed"; "paid"; "confirmed"].
Definition IsCommittedOrderStatus (status : string) : bool := in_list (ToLower (TrimSpace status)) committedOrderStatuses.
Definition MovementSaleIssue : string := "sale_issue".
Definition MovementSaleCancelRestore : string := "sale_cancel_restore".
Record netEntry := { ne_qty : f64; ne_cost : f64 }.
Definition no_net : netEntry := {| ne_qty := fzero; ne_cost := fzero |}.
(** a missing key of a Go map *)
Definition at_key {A} (none : A) (m : gmap reqKey A) (k : reqKey) : A := default none (m !! k).
Definition map_keys {A} (m : gmap reqKey A) : list reqKey := (map_to_list m).*1.

Section stock_of_orders.
Context `{PgInput} `{TimeZones} `{Numeric} `{OrderInput}.

(** ** Requirements *)
Record skuMeta := { sk_exists : bool; sk_trackStock : bool; sk_isBundle : bool }.
Definition unknown_sku : skuMeta := {| sk_exists := false; sk_trackStock := false; sk_isBundle := false |}.
Record BundleComponent := { BC_Child : string; BC_Qty : f64 }.
Record skuBundleCache := { cache_sku : gmap string skuMeta; cache_bundles : gmap string (list BundleComponent) }.
Definition uniqueNonEmpty (ids : list string) : list string :=
  fold_left (fun out id => let id := TrimSpace id in if String.eqb id "" || in_list id out then out else (out ++ [id])%list) ids [].
Definition collectCatalogIDsFromOrders (items : list OrderStockItem) : list string := uniqueNonEmpty (map SI_CatalogItemID items).
(** the rows of inv_sku for some ids *)
Definition sku_rows (ids : list string) (d : shop_db) : list (string * skuMeta) :=
  omap (fun id =>
    match inv_sku (sh_stock d) !! id with
    | Some _ => let fl := default (false, false) (sh_flags d !! id) in
                Some (id, {| sk_exists := true; sk_trackStock := fl.1; sk_isBundle := fl.2 |})
    | None => None
    end) (remove_dups ids).
Definition bundle_rows (parents : list string) (d : shop_db) : list bundle_row :=
  List.filter (fun b => in_list (bc_parent b) parents) (sh_bundles d).
Definition add_component (m : gmap string (list BundleComponent)) (b : bundle_row) : gmap string (list BundleComponent) :=
  <[bc_parent b := (default [] (m !! bc_parent b) ++ [{| BC_Child := bc_child b; BC_Qty := numeric_out 4 (bc_qty b) |}])%list]> m.
Definition preload (catalogIDs : list string) : shop skuBundleCache :=
  match uniqueNonEmpty catalogIDs with
  | [] => ret {| cache_sku := ∅; cache_bundles := ∅ |}
  | ids =>
      let! rows := internally (query_with (mapM uuid_in ids) sku_rows) in
      let placeholders : gmap string skuMeta := list_to_map (map (fun id => (id, unknown_sku)) ids) in
      let sku := fold_left (fun m r => <[r.1 := r.2]> m) rows placeholders in
      let parents := map fst (List.filter (fun r => sk_isBundle r.2) rows) in
      match parents with
      | [] => ret {| cache_sku := sku; cache_bundles := ∅ |}
      | _ =>
          let! bs := internally (read (bundle_rows parents)) in
          ret {| cache_sku := sku; cache_bundles := fold_left add_component bs ∅ |}
      end
  end.
Definition add_to (m : gmap reqKey f64) (k : reqKey) (q : f64) : gmap reqKey f64 := <[k := fadd (at_key fzero m k) q]> m.
(** one line of the order *)
Definition require_line (cache : skuBundleCache) (defaultWarehouse : string) (out : gmap reqKey f64) (it : OrderStockItem) : gmap reqKey f64 :=
  if String.eqb (TrimSpace (SI_CatalogItemID it)) "" || fleb (SI_Qty it) epsilon then out
  else
    let wh := TrimSpace (SI_WarehouseID it) in
    let wh := if String.eqb wh "" then defaultWarehouse else wh in
    if String.eqb wh "" then out
    else
      match cache_sku cache !! SI_CatalogItemID it with
      | None => out
      | Some sk =>
          if negb (sk_exists sk) then out
          else if sk_isBundle sk then
            fold_left (fun out c => add_to out (BC_Child c, wh) (round4 (fmul (BC_Qty c) (SI_Qty it))))
              (default [] (cache_bundles cache !! SI_CatalogItemID it)) out
          else if negb (sk_trackStock sk) then out
          else add_to out (SI_CatalogItemID it, wh) (SI_Qty it)
      end.
Definition resolveOrderRequirementsWithCache (cache : skuBundleCache) (items : list OrderStockItem) (defaultWarehouse : string) : gmap reqKey f64 :=
  fold_left (require_line cache defaultWarehouse) items ∅.
Definition resolveOrderRequirements (items : list OrderStockItem) (defaultWarehouse : string) : shop (gmap reqKey f64) :=
  let! cache := preload (collectCatalogIDsFromOrders items) in
  ret (resolveOrderRequirementsWithCache cache items defaultWarehouse).

(** ** What was issued *)
Definition of_order (orderID : string) (m : movement_row) : bool := by_ref "order" orderID m.
Definition sale_rows (orderID : string) (d : shop_db) : list movement_row :=
  List.filter (fun m => of_order orderID m && in_list (mv_type m) [MovementSaleIssue; MovementSaleCancelRestore]) (movements (sh_stock d)).
Definition add_issued (out : gmap reqKey netEntry) (m : movement_row) : gmap reqKey netEntry :=
  let k := (mv_item m, mv_wh m) in
  let e := at_key no_net out k in
  <[k := if String.eqb (mv_type m) MovementSaleIssue
         then {| ne_qty := fadd (ne_qty e) (mv_qty m); ne_cost := fadd (ne_cost e) (mv_total m) |}
         else {| ne_qty := fsub (ne_qty e) (mv_qty m); ne_cost := fsub (ne_cost e) (mv_total m) |}]> out.
Definition orderNetIssued (orderID : string) : shop (gmap reqKey netEntry) :=
  if String.eqb (TrimSpace orderID) "" then ret ∅
  else
    let! rows := internally (query_with (uuid_in orderID) sale_rows) in
    ret (fold_left add_issued rows ∅).

(** ** Settings *)
Definition loadSyncSetting : shop (bool * bool * bool) :=
  let! s := internally (read (fun d => match inv_setting (sh_stock d) with Some s => Some (sh_setup d, sh_post_expense d, s.2) | None => None end)) in
  ret (default (false, false, true) s).
Definition defaultWarehouseID : shop string :=
  let! w := internally (read (fun d => wh_id <$> List.find (fun w => wh_default w && negb (wh_deleted w)) (sh_warehouses d))) in
  ret (default "" w).

(** ** Synchronising *)
Definition movement (ty dir : string) (k : reqKey) (qty unitCost : f64) (cc : costingContext) (block : bool) (orderID : string) : MovementInput :=
  {| MI_CatalogItemID := k.1; MI_WarehouseID := k.2; MI_Type := ty; MI_Direction := dir; MI_Qty := qty; MI_UnitCost := unitCost;
     MI_CostingMethod := cc_method cc; MI_BlockNegative := block; MI_BatchNo := ""; MI_RefType := "order"; MI_RefID := orderID |}.
(** the key is an item of the database and the text of a warehouse *)
Definition post_movement (k : reqKey) (orderID : string) (inp : reqKey -> string -> MovementInput) (now : Z) : shop unit :=
  match uuid_in k.2, uuid_in orderID with
  | Some wh, Some id => on_stock (PostMovement (inp (k.1, wh) id) now);! ret tt
  | _, _ => query_with (P := unit) None (fun _ _ => tt)
  end.
Definition post_delta (orderID : string) (required : gmap reqKey f64) (net : gmap reqKey netEntry) (now : Z) (k : reqKey) : shop unit :=
  let delta := round4 (fsub (at_key fzero required k) (ne_qty (at_key no_net net k))) in
  if fltb epsilon delta then
    let! cc := on_stock (loadCostingContext k.1) in
    post_movement k orderID (fun k id => movement MovementSaleIssue dirOut k delta fzero cc (cc_blockNegative cc) id) now
  else if fltb delta (fopp epsilon) then
    let e := at_key no_net net k in
    let restoreQty := round4 (fopp delta) in
    let unitCost := if fltb epsilon (ne_qty e) then round4 (fdiv (ne_cost e) (ne_qty e)) else fzero in
    let! cc := on_stock (loadCostingContext k.1) in
    post_movement k orderID (fun k id => movement MovementSaleCancelRestore dirIn k restoreQty unitCost cc false id) now
  else ret tt.
Fixpoint post_deltas (orderID : string) (required : gmap reqKey f64) (net : gmap reqKey netEntry) (now : Z) (keys : list reqKey) : shop unit :=
  match keys with [] => ret tt | k :: rest => post_delta orderID required net now k;! post_deltas orderID required net now rest end.
Definition mark_applied (orderID : string) (applied : bool) (o : order_row) : order_row :=
  if String.eqb (or_id o) orderID then
    {| or_id := or_id o; or_conversation := or_conversation o; or_contact := or_contact o; or_items := or_items o; or_notes := or_notes o;
       or_status := or_status o; or_tracking := or_tracking o; or_courier := or_courier o; or_payment_txn := or_payment_txn o;
       or_payment_status := or_payment_status o; or_proof_message := or_proof_message o; or_subtotal := or_subtotal o;
       or_shipping := or_shipping o; or_total := or_total o; or_wallet := or_wallet o; or_stock_applied := applied;
       or_created_by := or_created_by o; or_deleted := or_deleted o |}
  else o.
(** WHERE id::text = $1 *)
Definition setStockAppliedMarker (orderID : string) (applied : bool) : shop unit :=
  let! ok := attempt (read sh_marker_column) in
  match ok with
  | Ok true => internally (exec (fun d => set_order_rows (map (mark_applied orderID applied) (sh_orders d)) d))
  | _ => ret tt
  end.
Definition union_keys (required : gmap reqKey f64) (net : gmap reqKey netEntry) : list reqKey :=
  remove_dups (map_keys required ++ map_keys net)%list.
Definition reconcile (orderID status : string) (items : list OrderStockItem) (defaultWarehouse : string) (now : Z) : shop unit :=
  internally (read (fun _ => tt));!   (** SELECT … FOR UPDATE *)
  let! required := if IsCommittedOrderStatus status then resolveOrderRequirements items defaultWarehouse else ret ∅ in
  let! net := orderNetIssued orderID in
  post_deltas orderID required net now (map_order now (union_keys required net));!
  setStockAppliedMarker orderID (IsCommittedOrderStatus status).

(** ** The cost of goods sold *)
Definition order_cost (orderID : string) (d : shop_db) : f64 :=
  cost_sum (map (fun m => (String.eqb (mv_type m) MovementSaleIssue, mv_total m)) (sale_rows orderID d)).
Definition orderCOGSDescription (orderID : string) : string :=
  let short := TrimSpace orderID in
  let short := if (8 <? String.length short)%nat then take_bytes 8 short else short in
  "HPP pesanan #" ++ short ++ " — harga pokok penjualan".
Definition orderIncomeWalletID (orderID : string) : shop string :=
  let! w := internally (query_with (uuid_in orderID) (fun id d => or_wallet <$> List.find (fun o => String.eqb (or_id o) id) (sh_orders d))) in
  ret (default "" (default None w)).
Definition resyncOrderCOGS (orderID : string) (postExpense : bool) (createdBy : string) (now : Z) : shop unit :=
  let ref := cogsRefPrefix ++ orderID in
  if postExpense then on_fin (RemoveInventoryEntry ref)
  else
    let! net := internally (query_with (uuid_in orderID) order_cost) in
    on_fin (RemoveInventoryEntry ref);!
    let net := round2 net in
    if fleb net fzero then ret tt
    else
      let! walletID := orderIncomeWalletID orderID in
      on_fin (RecordInventoryEntry createdBy ref "expense" finCatHPP (orderCOGSDescription orderID) net walletID now).
Definition SyncOrderStock (orderID status : string) (items : list OrderStockItem) (createdBy : string) (now : Z) : shop unit :=
  if String.eqb (TrimSpace orderID) "" then ret tt
  else
    prepare;!
    let! setting := loadSyncSetting in
    let '(setup, postExpense, _) := setting in
    if negb setup then ret tt
    else
      let! defaultWarehouse := defaultWarehouseID in
      in_tx InternalE (reconcile orderID status items defaultWarehouse now);!
      resyncOrderCOGS orderID postExpense createdBy now.

(** ** Is there enough? *)
Record StockShortageLine := {
  SS_CatalogItemID : string; SS_ItemName : string; SS_WarehouseID : string; SS_WarehouseName : string;
  SS_QtyRequired : f64; SS_QtyAvailable : f64; SS_QtyShort : f64
}.
Definition usable_keys (keys : list reqKey) : list reqKey :=
  remove_dups (List.filter (fun k : reqKey => negb (String.eqb k.1 "" || String.eqb k.2 "")) keys).
Definition key_in (k : reqKey) : option reqKey := i ← uuid_in k.1; w ← uuid_in k.2; Some (i, w).
Definition on_hand_rows (keys : list reqKey) (d : shop_db) : list (reqKey * f64) :=
  omap (fun k => (fun b => (k, OnHand b)) <$> balances (sh_stock d) !! k) keys.
Definition batchOnHand (keys : list reqKey) : shop (gmap reqKey f64) :=
  match usable_keys keys with
  | [] => ret ∅
  | uniq =>
      let! rows := internally (query_with (mapM key_in uniq) on_hand_rows) in
      let out : gmap reqKey f64 := list_to_map rows in
      ret (fold_left (fun m k => if bool_decide (is_Some (m !! k)) then m else <[k := fzero]> m) uniq out)
  end.
(** [names[id]] of the rows with the id, a blank name as [fallback] *)
Definition name_for (find : string -> shop_db -> option string) (fallback id : string) : shop string :=
  if String.eqb (TrimSpace id) "" then ret fallback
  else
    let! n := internally (query_with (uuid_in (TrimSpace id)) (fun u d => if String.eqb u id then find u d else None)) in
    ret (match n with Some n => if String.eqb (TrimSpace n) "" then fallback else n | None => fallback end).
Definition item_name (id : string) (d : shop_db) : option string := ci_name <$> List.find (fun c => String.eqb (ci_id c) id) (sh_catalog d).
Definition warehouse_name (id : string) (d : shop_db) : option string := wh_name <$> List.find (fun w => String.eqb (wh_id w) id) (sh_warehouses d).
(** [singleOrderBatch]'s names, asked for once *)
Definition cached (names : gmap string string) (id : string) (m : shop string) : shop (string * gmap string string) :=
  match names !! id with
  | Some n => ret (n, names)
  | None => let! n := m in ret (n, <[id := n]> names)
  end.
Fixpoint shortage_lines (required : gmap reqKey f64) (net : gmap reqKey netEntry) (onHand : gmap reqKey f64) (defaultWarehouse : string)
    (itemNames warehouseNames : gmap string string) (keys : list reqKey) : shop (list StockShortageLine) :=
  match keys with
  | [] => ret []
  | k :: rest =>
      let delta := round4 (fsub (at_key fzero required k) (ne_qty (at_key no_net net k))) in
      let have := at_key fzero onHand k in
      if fleb delta epsilon || negb (fltb (fadd have epsilon) delta)
      then shortage_lines required net onHand defaultWarehouse itemNames warehouseNames rest
      else
        let whID := if String.eqb k.2 "" then defaultWarehouse else k.2 in
        let! item := cached itemNames k.1 (name_for item_name "item" k.1) in
        let! wh := cached warehouseNames whID (name_for warehouse_name "gudang" whID) in
        let! lines := shortage_lines required net onHand defaultWarehouse item.2 wh.2 rest in
        ret ({| SS_CatalogItemID := k.1; SS_ItemName := item.1; SS_WarehouseID := whID; SS_WarehouseName := wh.1;
                SS_QtyRequired := delta; SS_QtyAvailable := have; SS_QtyShort := round4 (fsub delta have) |} :: lines)
  end.
Definition shortage_before (a b : StockShortageLine) : bool :=
  if negb (String.eqb (SS_ItemName a) (SS_ItemName b)) then string_ltb (SS_ItemName a) (SS_ItemName b)
  else negb (string_ltb (SS_WarehouseName b) (SS_WarehouseName a)).
Definition sortStockShortages (lines : list StockShortageLine) : list StockShortageLine := sort_by shortage_before lines.
Definition needs_stock (required : gmap reqKey f64) (net : gmap reqKey netEntry) (k : reqKey) : bool :=
  fltb epsilon (round4 (fsub (at_key fzero required k) (ne_qty (at_key no_net net k)))).
Definition analyzeOrderStockShortage (orderID : string) (items : list OrderStockItem) (now : Z) : shop (list StockShortageLine) :=
  let! setting := loadSyncSetting in
  let '(setup, _, block) := setting in
  if negb setup || negb block then ret []
  else
    let! defaultWarehouse := defaultWarehouseID in
    let! required := resolveOrderRequirements items defaultWarehouse in
    let! net := orderNetIssued orderID in
    let keys := map_order now (map_keys required) in
    let! onHand := batchOnHand (List.filter (needs_stock required net) keys) in
    let! lines := shortage_lines required net onHand defaultWarehouse ∅ ∅ keys in
    ret (sortStockShortages lines).
Definition PrecheckOrderStock (orderID : string) (items : list OrderStockItem) (now : Z) : shop unit :=
  prepare;!
  let! shortages := analyzeOrderStockShortage orderID items now in
  match shortages with
  | [] => ret tt
  | s :: _ => throw (BadRequest ("stok tidak cukup untuk " ++ SS_ItemName s))
  end.
End stock_of_orders.
