(* ===== verification/OrderItems.v ===== *)
(** * Lines of an order: catalog and prices

    [shared/pricing/pricing.go] (a contact's price type, an item's price) and
    [order/order.go]'s [normalizeOrderItems] with the catalog lookups: every line
    of a request becomes a line of a catalog item at its own price, and a line
    that names nothing known creates the item.  [pricing.EnsureSchema] is a
    check that can fail. *)
From S2P Require Import Prelude GoStrings AdminSession PgTx Triples Zoom Float64 Billing FinTables Costing StockLedger Shop OrderStock.

Open Scope string_scope.
Open Scope Z_scope.

Section items.
Context `{PgInput} `{TimeZones} `{Numeric} `{OrderInput}.

(** ** [pricing.go] *)
(** ORDER BY is_default DESC, display_order, label *)
Definition price_type_before (a b : price_type_row) : bool :=
  if negb (Bool.eqb (pt_default a) (pt_default b)) then pt_default a
  else if negb (pt_order a =? pt_order b) then pt_order a <? pt_order b
  else negb (label_before (pt_label b) (pt_label a)).
Definition live_price_types (d : shop_db) : list price_type_row :=
  List.filter (fun p => negb (pt_deleted p) && pt_active p) (sh_ptypes d).
Definition ResolveDefaultPriceTypeID : shop string :=
  let! r := attempt (one_row (fun d => pt_id <$> head (sort_by price_type_before (live_price_types d)))) in
  match r with
  | Ok id => ret id
  | Err e =>
      if bool_decide (e = no_rows) then throw (BadRequest "belum ada tipe harga aktif")
      else throw (ECode Internal "resolve default price type failed")
  end.
(** a row of a table by its id: [no_rows] without one *)
Definition by_id {A} (id : string) (f : string -> shop_db -> option A) : shop A :=
  stmt (fun d => match uuid_in id with
                 | None => (Err bad_input, d)
                 | Some u => match f u d with Some a => (Ok a, d) | None => (Err no_rows, d) end
                 end).
Definition ResolvePriceTypeIDForContact (contactID : string) : shop string :=
  let contactID := TrimSpace contactID in
  if String.eqb contactID "" then ResolveDefaultPriceTypeID
  else
    let! r := attempt (by_id contactID (fun u d =>
      co_price_type <$> List.find (fun c => String.eqb (co_id c) u && negb (co_deleted c)) (sh_contacts d))) in
    match r with
    | Err e => if bool_decide (e = no_rows) then ResolveDefaultPriceTypeID else throw (ECode Internal "load contact price type failed")
    | Ok priceTypeID =>
        match priceTypeID with
        | Some pt =>
            if negb (String.eqb (TrimSpace pt) "") then
              let! active := attempt (by_id pt (fun u d =>
                pt_active <$> List.find (fun p => String.eqb (pt_id p) u && negb (pt_deleted p)) (sh_ptypes d))) in
              match active with Ok true => ret pt | _ => ResolveDefaultPriceTypeID end
            else ResolveDefaultPriceTypeID
        | None => ResolveDefaultPriceTypeID
        end
    end.
Definition find_item (id : string) (d : shop_db) : option catalog_row :=
  List.find (fun c => String.eqb (ci_id c) id && negb (ci_deleted c)) (sh_catalog d).
Definition ResolveCatalogUnitPrice (catalogItemID priceTypeID : string) : shop f64 :=
  let! r := attempt (stmt (fun d =>
    match uuid_in catalogItemID, uuid_in priceTypeID with
    | Some c, Some p => match sh_prices d !! (c, p) with Some n => (Ok (numeric_out 4 n), d) | None => (Err no_rows, d) end
    | _, _ => (Err bad_input, d)
    end)) in
  match r with
  | Ok price => ret price
  | Err e =>
      if negb (bool_decide (e = no_rows)) then throw (ECode Internal "load catalog price failed")
      else
        let! s := attempt (by_id catalogItemID (fun u d => ci_price <$> find_item u d)) in
        match s with
        | Err e => if bool_decide (e = no_rows) then throw (NotFoundE "catalog item not found") else throw (ECode Internal "load catalog sell price failed")
        | Ok price => ret (match price with Some n => numeric_out 4 n | None => fzero end)
        end
  end.

(** ** Catalog rows *)
Definition item_of (id code name unit : string) (price qty : f64) : OrderItem :=
  {| OI_LineID := ""; OI_CatalogItemID := id; OI_ExternalCode := code; OI_Name := name; OI_Variant := ""; OI_Size := ""; OI_Color := "";
     OI_Qty := qty; OI_UnitPrice := price; OI_SellUnit := unit; OI_WarehouseID := "" |}.
Definition newer (a b : catalog_row) : bool := ci_updated b <=? ci_updated a.
(** the newest row that [which] accepts; without a parameter that converts, no row is read *)
Definition loadCatalogOrderItem (priceTypeID : string) (which : option (catalog_row -> bool)) (qty : f64) : shop OrderItem :=
  let! row := wrapping (fun _ => NotFoundE "catalog item not found") (stmt (fun d =>
    match which with
    | None => (Err bad_input, d)
    | Some f => match head (sort_by newer (List.filter (fun c => negb (ci_deleted c) && f c) (sh_catalog d))) with
                | Some c => (Ok c, d) | None => (Err no_rows, d) end
    end)) in
  let! unitPrice := ResolveCatalogUnitPrice (ci_id row) priceTypeID in
  ret (item_of (ci_id row) (ci_code row) (ci_name row) (default "" (ci_unit row)) unitPrice qty).
Definition with_id_of (id : string) : option (catalog_row -> bool) := (fun u c => String.eqb (ci_id c) u) <$> uuid_in id.
Definition with_code (code : string) : option (catalog_row -> bool) := Some (fun c => String.eqb (sql_lower (ci_code c)) (sql_lower code)).
Definition with_name (name : string) : option (catalog_row -> bool) := Some (fun c => String.eqb (sql_lower (ci_name c)) (sql_lower name)).
(** unique (source, external_code) among live rows; ids are fresh *)
Definition createCatalogOrderItem (code name : string) (price : f64) (unit : string) (qty : f64) (now : Z) : shop OrderItem :=
  let! row := wrapping (fun e => EWrap ("create catalog item: " ++ error_text e) e) (stmt (fun d =>
    match decimal_in price, sh_ids d with
    | Some p, id :: rest =>
        if existsb (fun c => String.eqb (ci_source c) "manual" && String.eqb (ci_code c) code && negb (ci_deleted c)) (sh_catalog d)
        then (Err constraint_error, d)
        else
          let c := {| ci_id := id; ci_code := code; ci_name := name; ci_price := Some p;
                      ci_unit := if String.eqb unit "" then None else Some unit; ci_source := "manual"; ci_updated := now; ci_deleted := false |} in
          (Ok (c, p), set_shop_ids rest (set_catalog (sh_catalog d ++ [c])%list d))
    | Some _, [] => (Err no_id, d)
    | None, _ => (Err bad_input, d)
    end)) in
  let '(c, p) := row in
  ret (item_of (ci_id c) (ci_code c) (ci_name c) (default "" (ci_unit c)) (numeric_out 4 p) qty).
Definition resolveCatalogItem (priceTypeID : string) (it : OrderItem) (index : nat) (now : Z) : shop OrderItem :=
  if negb (String.eqb (TrimSpace (OI_CatalogItemID it)) "") then
    loadCatalogOrderItem priceTypeID (with_id_of (TrimSpace (OI_CatalogItemID it))) (OI_Qty it)
  else
    let code := TrimSpace (OI_ExternalCode it) in
    let name := TrimSpace (OI_Name it) in
    let load which key := if String.eqb key "" then ret None else
      let! r := attempt (loadCatalogOrderItem priceTypeID which (OI_Qty it)) in
      ret (match r with Ok item => Some item | Err _ => None end) in
    let! r := load (with_code code) code in
    match r with
    | Some item => ret item
    | None =>
        let! r := load (with_name name) name in
        match r with
        | Some item => ret item
        | None =>
            if String.eqb name "" then throw (BadRequest "catalog item name is required")
            else if fltb (OI_UnitPrice it) fzero then throw (BadRequest "catalog item price cannot be negative")
            else
              let code := if String.eqb code "" then "MANUAL-" ++ pretty (now - unix_epoch * Second) ++ "-" ++ pretty (Z.of_nat index + 1) else code in
              createCatalogOrderItem code name (OI_UnitPrice it) (TrimSpace (OI_SellUnit it)) (OI_Qty it) now
        end
    end.

(** ** A request's lines *)
Definition on_line (it item : OrderItem) (n : nat) (now : Z) : OrderItem :=
  let line := TrimSpace (OI_LineID it) in
  {| OI_LineID := if String.eqb line "" then genLineID now n else line;
     OI_CatalogItemID := OI_CatalogItemID item; OI_ExternalCode := OI_ExternalCode item; OI_Name := OI_Name item;
     OI_Variant := OI_Variant item; OI_Size := OI_Size item; OI_Color := OI_Color item; OI_Qty := OI_Qty item;
     OI_UnitPrice := OI_UnitPrice item; OI_SellUnit := OI_SellUnit item; OI_WarehouseID := TrimSpace (OI_WarehouseID it) |}.
Fixpoint normalize_lines (priceTypeID : string) (raw : list OrderItem) (n : nat) (now : Z) : shop (list OrderItem) :=
  match raw with
  | [] => ret []
  | it :: rest =>
      if fleb (OI_Qty it) fzero then throw (BadRequest "item qty must be greater than zero")
      else
        let! item := resolveCatalogItem priceTypeID it n now in
        let! items := normalize_lines priceTypeID rest (S n) now in
        ret (on_line it item n now :: items)
  end.
Definition normalizeOrderItems (contactID : string) (raw : list OrderItem) (now : Z) : shop (list OrderItem) :=
  internally prepare;!
  wrapping (fun _ => ECode Internal "prepare pricing failed") (read (fun _ => tt));!
  let! priceTypeID := ResolvePriceTypeIDForContact contactID in
  let! items := normalize_lines priceTypeID raw 0 now in
  match items with [] => throw (BadRequest "items are required") | _ => ret items end.
(** orderStockItems *)
Definition orderStockItems (items : list OrderItem) : list OrderStockItem :=
  map (fun it => {| SI_LineID := OI_LineID it; SI_CatalogItemID := OI_CatalogItemID it; SI_WarehouseID := OI_WarehouseID it; SI_Qty := OI_Qty it |})
    (List.filter (fun it => negb (String.eqb (TrimSpace (OI_CatalogItemID it)) "")) items).
(** [subtotal += it.Qty * it.UnitPrice] *)
Definition subtotal_of (items : list OrderItem) : f64 := fold_left (fun s it => fadd s (fmul (OI_Qty it) (OI_UnitPrice it))) items fzero.
End items.
