(* ===== verification/Orders.v ===== *)
(** * Order handlers

    [order/order.go]'s endpoints that write: [Create], [Update], [Cancel],
    [BatchUpdateStatus], [Delete] and [BatchDelete], with [order_finance_sync.go],
    over the tables of Shop.v.  Each statement commits on its own; income goes to
    FinPosting.v, stock to OrderStock.v.  Not modelled: the two listings and the
    mirror of the conversation in Firestore (reads, and a call that does not
    touch these tables). *)
From S2P Require Import Prelude GoStrings AdminSession PgTx Triples Zoom Float64 Billing FinTables FinPosting Costing StockLedger.
From S2P Require Import Shop OrderStock OrderItems.

Open Scope string_scope.
Open Scope Z_scope.

Definition validOrderStatuses : list string := ["draft"; "processing"; "shipped"; "completed"; "cancelled"; "confirmed"; "paid"].
Record Order := {
  O_ID : string; O_ConversationID : string; O_ContactID : string; O_Items : list OrderItem; O_Notes : string; O_Status : string;
  O_TrackingNumber : string; O_Courier : string; O_PaymentTransactionID : string; O_PaymentStatus : string;
  O_PaymentProofMessageID : string; O_Subtotal : f64; O_ShippingCost : f64; O_Total : f64; O_IncomeWalletID : string; O_CreatedBy : string
}.
Record CreateOrderParams := {
  CO_ConversationID : string; CO_ContactID : string; CO_Items : list OrderItem; CO_Notes : string; CO_Status : string;
  CO_TrackingNumber : string; CO_Courier : string; CO_ShippingCost : f64; CO_IncomeWalletID : string
}.
Record UpdateOrderParams := {
  UO_ContactID : option string; UO_Items : list OrderItem; UO_Notes : option string; UO_Status : option string;
  UO_TrackingNumber : option string; UO_Courier : option string; UO_PaymentTransactionID : option string;
  UO_ShippingCost : option f64; UO_IncomeWalletID : option string
}.
(** order_finance_sync.go *)
Definition shouldResyncCompletedOrderIncome (newStatus orderStatus : string) (subtotal shipping : option f64) (walletUpdated : bool) : bool :=
  if negb (String.eqb newStatus "") then false
  else if negb (String.eqb orderStatus "completed") then false
  else bool_decide (is_Some subtotal) || bool_decide (is_Some shipping) || walletUpdated.
Definition shouldPrecheckBatchStockTransition (targetStatus currentStatus : string) : bool :=
  IsCommittedOrderStatus targetStatus && negb (IsCommittedOrderStatus currentStatus).
Definition getUser (u : option AuthUser) : result AuthUser :=
  match u with
  | None => Err (ECode Unauthenticated "missing auth data")
  | Some user =>
      if negb (HasEffectiveTenantContext u) then Err (Forbidden "tenant context required — pantau tenant dari konsol admin")
      else match RequireModule u "sales" with Some e => Err e | None => Ok user end
  end.
(** [getUser], and an owner *)
Definition getOwner (u : option AuthUser) : result AuthUser :=
  match getUser u with
  | Err e => Err e
  | Ok user => if negb (CanPerformOwnerActions (Some user)) then Err (Forbidden "owner access required") else Ok user
  end.
Definition as_user {A} (r : result AuthUser) (k : AuthUser -> shop A) : shop A := match r with Ok u => k u | Err e => throw e end.
Definition normalized_status (s : string) : string := ToLower (TrimSpace s).
(** the trimmed ids that are not blank *)
Definition batchIDs (ids : list string) : list string := List.filter (fun id => negb (String.eqb id "")) (map TrimSpace ids).

(** ** Rows *)
Definition live (id : string) (o : order_row) : bool := String.eqb (or_id o) id && negb (or_deleted o).
Definition find_order (id : string) (d : shop_db) : option order_row := List.find (live id) (sh_orders d).
Definition replace_order (o' : order_row) (d : shop_db) : shop_db :=
  set_order_rows (map (fun o => if live (or_id o') o then o' else o) (sh_orders d)) d.
Definition with_status (status : string) (o : order_row) : order_row :=
  {| or_id := or_id o; or_conversation := or_conversation o; or_contact := or_contact o; or_items := or_items o; or_notes := or_notes o;
     or_status := status; or_tracking := or_tracking o; or_courier := or_courier o; or_payment_txn := or_payment_txn o;
     or_payment_status := or_payment_status o; or_proof_message := or_proof_message o; or_subtotal := or_subtotal o;
     or_shipping := or_shipping o; or_total := or_total o; or_wallet := or_wallet o; or_stock_applied := or_stock_applied o;
     or_created_by := or_created_by o; or_deleted := or_deleted o |}.
Definition as_deleted (o : order_row) : order_row :=
  {| or_id := or_id o; or_conversation := or_conversation o; or_contact := or_contact o; or_items := or_items o; or_notes := or_notes o;
     or_status := or_status o; or_tracking := or_tracking o; or_courier := or_courier o; or_payment_txn := or_payment_txn o;
     or_payment_status := or_payment_status o; or_proof_message := or_proof_message o; or_subtotal := or_subtotal o;
     or_shipping := or_shipping o; or_total := or_total o; or_wallet := or_wallet o; or_stock_applied := or_stock_applied o;
     or_created_by := or_created_by o; or_deleted := true |}.
(** UPDATE … WHERE id IN (…) AND deleted_at IS NULL … *)
Definition update_where (which : order_row -> bool) (f : order_row -> order_row) (d : shop_db) : shop_db :=
  set_order_rows (map (fun o => if which o then f o else o) (sh_orders d)) d.
Definition among (ids : list string) (o : order_row) : bool := in_list (or_id o) ids && negb (or_deleted o).

Section handlers.
Context `{PgInput} `{TimeZones} `{Numeric} `{OrderInput}.

Definition scanOrder (o : order_row) : Order :=
  {| O_ID := or_id o; O_ConversationID := default "" (or_conversation o); O_ContactID := default "" (or_contact o); O_Items := or_items o;
     O_Notes := or_notes o; O_Status := or_status o; O_TrackingNumber := or_tracking o; O_Courier := or_courier o;
     O_PaymentTransactionID := default "" (or_payment_txn o); O_PaymentStatus := or_payment_status o;
     O_PaymentProofMessageID := default "" (or_proof_message o); O_Subtotal := numeric_out 4 (or_subtotal o);
     O_ShippingCost := numeric_out 4 (or_shipping o); O_Total := numeric_out 4 (or_total o); O_IncomeWalletID := default "" (or_wallet o);
     O_CreatedBy := or_created_by o |}.
Definition loadOrderItems (id : string) : shop (list OrderItem) :=
  wrapping (fun _ => NotFoundE "order not found") (by_id id (fun u d => or_items <$> find_order u d)).

(** ** Create *)
Definition order_of_params (u : AuthUser) (p : CreateOrderParams) (status : string) (items : list OrderItem) (subtotal total : f64)
    (id : string) : option order_row :=
  conversation ← uuid_opt (nullUUIDArg (CO_ConversationID p));
  contact ← uuid_opt (nullUUIDArg (CO_ContactID p));
  stored ← json_items items;
  s ← decimal_in subtotal; c ← decimal_in (CO_ShippingCost p); t ← decimal_in total;
  wallet ← uuid_opt (nullUUIDArg (CO_IncomeWalletID p));
  by_ ← uuid_in (AccountID u);
  Some {| or_id := id; or_conversation := conversation; or_contact := contact; or_items := stored; or_notes := CO_Notes p; or_status := status;
          or_tracking := TrimSpace (CO_TrackingNumber p); or_courier := TrimSpace (CO_Courier p); or_payment_txn := None;
          or_payment_status := "unpaid"; or_proof_message := None; or_subtotal := s; or_shipping := c; or_total := t; or_wallet := wallet;
          or_stock_applied := false; or_created_by := by_; or_deleted := false |}.
Definition insert_order (row : string -> option order_row) (d : shop_db) : result order_row * shop_db :=
  match sh_ids d with
  | [] => (Err no_id, d)
  | id :: rest =>
      match row id with
      | None => (Err bad_input, d)
      | Some o => (Ok o, set_shop_ids rest (set_order_rows (sh_orders d ++ [o])%list d))
      end
  end.
Definition Create (u : option AuthUser) (p : CreateOrderParams) (now : Z) : shop Order :=
  as_user (getUser u) (fun user =>
    match CO_Items p with
    | [] => throw (BadRequest "items are required")
    | _ =>
        let! items := normalizeOrderItems (TrimSpace (CO_ContactID p)) (CO_Items p) now in
        let subtotal := subtotal_of items in
        let status := normalized_status (CO_Status p) in
        let status := if String.eqb status "" then "draft" else status in
        if negb (in_list status validOrderStatuses) then throw (BadRequest "invalid order status")
        else if fltb (CO_ShippingCost p) fzero then throw (BadRequest "shipping cost cannot be negative")
        else
          let total := fadd subtotal (CO_ShippingCost p) in
          (if String.eqb status "completed" then on_fin (CheckCurrentPeriodUnlocked now) else ret tt);!
          on_fin (ValidateIncomeWallet (CO_IncomeWalletID p));!
          (if IsCommittedOrderStatus status then PrecheckOrderStock "" (orderStockItems items) now else ret tt);!
          let! row := wrapping (fun e => EWrap ("create order: " ++ error_text e) e)
            (stmt (insert_order (order_of_params user p status items subtotal total))) in
          let o := scanOrder row in
          (if String.eqb status "completed"
           then on_fin (RecordOrderCompletedIncome (AccountID user) (O_ID o) (O_Total o) (O_IncomeWalletID o) now) else ret tt);!
          SyncOrderStock (O_ID o) (O_Status o) (orderStockItems (O_Items o)) (AccountID user) now;!
          ret o
    end).

(** ** Update *)
Definition nothing_to_update (p : UpdateOrderParams) : bool :=
  match UO_Items p with
  | [] => negb (bool_decide (is_Some (UO_ContactID p)) || bool_decide (is_Some (UO_Notes p)) || bool_decide (is_Some (UO_Status p))
                || bool_decide (is_Some (UO_TrackingNumber p)) || bool_decide (is_Some (UO_Courier p))
                || bool_decide (is_Some (UO_PaymentTransactionID p)) || bool_decide (is_Some (UO_ShippingCost p))
                || bool_decide (is_Some (UO_IncomeWalletID p)))
  | _ => false
  end.
(** the SET clauses; [priced]: the new lines with their subtotal *)
Definition edit_order (p : UpdateOrderParams) (newStatus : string) (priced : option (list OrderItem * f64)) (o : order_row) : option order_row :=
  contact ← match UO_ContactID p with Some c => uuid_opt (nullUUIDArg c) | None => Some (or_contact o) end;
  stored ← match priced with Some x => json_items x.1 | None => Some (or_items o) end;
  subtotal ← match priced with Some x => decimal_in x.2 | None => Some (or_subtotal o) end;
  txn ← match UO_PaymentTransactionID p with Some t => Some <$> uuid_in t | None => Some (or_payment_txn o) end;
  shipping ← match UO_ShippingCost p with Some c => decimal_in c | None => Some (or_shipping o) end;
  wallet ← match UO_IncomeWalletID p with Some w => uuid_opt (nullUUIDArg w) | None => Some (or_wallet o) end;
  total ← match priced, UO_ShippingCost p with
          | Some x, Some c => decimal_in (fadd x.2 c)
          | Some x, None => decimal_sum x.2 (or_shipping o)
          | None, Some c => decimal_sum c (or_subtotal o)
          | None, None => Some (or_total o)
          end;
  Some {| or_id := or_id o; or_conversation := or_conversation o; or_contact := contact; or_items := stored;
          or_notes := match UO_Notes p with Some n => TrimSpace n | None => or_notes o end;
          or_status := if String.eqb newStatus "" then or_status o else newStatus; or_tracking := default (or_tracking o) (UO_TrackingNumber p);
          or_courier := default (or_courier o) (UO_Courier p); or_payment_txn := txn; or_payment_status := or_payment_status o;
          or_proof_message := or_proof_message o; or_subtotal := subtotal; or_shipping := shipping; or_total := total; or_wallet := wallet;
          or_stock_applied := or_stock_applied o; or_created_by := or_created_by o; or_deleted := or_deleted o |}.
(** (the texts of this statement's errors are not told apart) *)
Definition update_order (id : string) (edit : order_row -> option order_row) (d : shop_db) : result order_row * shop_db :=
  match uuid_in id with
  | None => (Err bad_input, d)
  | Some u =>
      match find_order u d with
      | None => (Err no_rows, d)
      | Some o => match edit o with Some o' => (Ok o', replace_order o' d) | None => (Err bad_input, d) end
      end
  end.
(** the income of an updated order *)
Definition settle_income (user : AuthUser) (o : Order) (newStatus : string) (resync : bool) (now : Z) : shop unit :=
  if String.eqb newStatus "completed"
  then on_fin (ResyncOrderCompletedIncome (AccountID user) (O_ID o) (O_Total o) (O_IncomeWalletID o) now)
  else if String.eqb newStatus "draft" || String.eqb newStatus "cancelled" then on_fin (RemoveOrderIncomeTransaction (O_ID o))
  else if resync then on_fin (ResyncOrderCompletedIncome (AccountID user) (O_ID o) (O_Total o) (O_IncomeWalletID o) now)
  else ret tt.
Definition priced_lines (id : string) (p : UpdateOrderParams) (now : Z) : shop (option (list OrderItem * f64)) :=
  match UO_Items p with
  | [] => ret None
  | _ =>
      let! contactID := match UO_ContactID p with
        | Some c => ret (TrimSpace c)
        | None => let! r := attempt (by_id id (fun u d => (fun o => default "" (or_contact o)) <$> find_order u d)) in
                  ret (match r with Ok c => c | Err _ => "" end)
        end in
      let! items := normalizeOrderItems contactID (UO_Items p) now in
      ret (Some (items, subtotal_of items))
  end.
Definition Update (u : option AuthUser) (id : string) (p : UpdateOrderParams) (now : Z) : shop Order :=
  as_user (getOwner u) (fun user =>
    let! priced := priced_lines id p now in
    let! newStatus := match UO_Status p with
      | None => ret ""
      | Some s => let status := normalized_status s in
                  if in_list status validOrderStatuses then ret status else throw (BadRequest "invalid order status")
      end in
    match UO_IncomeWalletID p with Some w => on_fin (ValidateIncomeWallet w) | None => ret tt end;!
    if nothing_to_update p then throw (BadRequest "no fields to update")
    else
      (if String.eqb newStatus "completed" then on_fin (CheckCurrentPeriodUnlocked now) else ret tt);!
      (if IsCommittedOrderStatus newStatus then
         let! checkItems := match priced with Some x => ret x.1 | None => loadOrderItems id end in
         PrecheckOrderStock id (orderStockItems checkItems) now
       else ret tt);!
      let! row := wrapping (fun e => EWrap ("update order: " ++ error_text e) e) (stmt (update_order id (edit_order p newStatus priced))) in
      let o := scanOrder row in
      settle_income user o newStatus
        (shouldResyncCompletedOrderIncome newStatus (O_Status o) (snd <$> priced) (UO_ShippingCost p) (bool_decide (is_Some (UO_IncomeWalletID p)))) now;!
      (if negb (String.eqb newStatus "") || bool_decide (is_Some priced)
       then SyncOrderStock (O_ID o) (O_Status o) (orderStockItems (O_Items o)) (AccountID user) now else ret tt);!
      ret o).

(** ** Cancel *)
Definition Cancel (u : option AuthUser) (id : string) (now : Z) : shop Order :=
  as_user (getOwner u) (fun user =>
    wrapping (fun _ => NotFoundE "order not found") (by_id id (fun u d => or_status <$> find_order u d));!
    let! row := wrapping (fun e => EWrap ("cancel order: " ++ error_text e) e) (stmt (update_order id (fun o => Some (with_status "cancelled" o)))) in
    let o := scanOrder row in
    on_fin (RemoveOrderIncomeTransaction (O_ID o));!
    SyncOrderStock (O_ID o) "cancelled" (orderStockItems (O_Items o)) (AccountID user) now;!
    ret o).

(** ** Many orders *)
(** the rows of the ids, without the completed ones when these are to be skipped *)
Definition targets (skip : bool) (ids : list string) (o : order_row) : bool :=
  among ids o && negb (skip && String.eqb (or_status o) "completed").
Fixpoint precheck_pending (status : string) (os : list order_row) (now : Z) : shop unit :=
  match os with
  | [] => ret tt
  | o :: rest =>
      (if shouldPrecheckBatchStockTransition status (or_status o) then PrecheckOrderStock (or_id o) (orderStockItems (or_items o)) now else ret tt);!
      precheck_pending status rest now
  end.
Fixpoint settle_all (user : AuthUser) (status : string) (os : list order_row) (now : Z) : shop unit :=
  match os with
  | [] => ret tt
  | row :: rest =>
      let o := scanOrder row in
      (if String.eqb status "completed"
       then on_fin (RecordOrderCompletedIncome (AccountID user) (O_ID o) (O_Total o) (O_IncomeWalletID o) now)
       else if String.eqb status "draft" || String.eqb status "cancelled" then on_fin (RemoveOrderIncomeTransaction (O_ID o))
       else ret tt);!
      SyncOrderStock (O_ID o) (O_Status o) (orderStockItems (O_Items o)) (AccountID user) now;!
      settle_all user status rest now
  end.
Definition batch_set_status (status : string) (skip : bool) (ids : list string) (d : shop_db) : list order_row * shop_db :=
  (map (with_status status) (List.filter (targets skip ids) (sh_orders d)), update_where (targets skip ids) (with_status status) d).
Definition BatchUpdateStatus (u : option AuthUser) (IDs : list string) (Status : string) (now : Z) : shop nat :=
  as_user (getOwner u) (fun user =>
    match IDs with
    | [] => throw (BadRequest "ids are required")
    | _ =>
        let status := normalized_status Status in
        if negb (in_list status validOrderStatuses) then throw (BadRequest "invalid order status")
        else
          match batchIDs IDs with
          | [] => throw (BadRequest "ids are required")
          | ids =>
              let skip := String.eqb status "completed" in
              (if skip then on_fin (CheckCurrentPeriodUnlocked now) else ret tt);!
              let! pending := wrapping (fun e => EWrap ("batch load orders: " ++ error_text e) e)
                (query_with (mapM uuid_in ids) (fun us d => List.filter (targets skip us) (sh_orders d))) in
              (if IsCommittedOrderStatus status then precheck_pending status pending now else ret tt);!
              let! os := wrapping (fun e => EWrap ("batch update order status: " ++ error_text e) e)
                (stmt (fun d => match mapM uuid_in ids with
                                | Some us => let '(os, d') := batch_set_status status skip us d in (Ok os, d')
                                | None => (Err bad_input, d)
                                end)) in
              settle_all user status os now;!
              ret (length os)
          end
    end).

(** ** Deleting *)
Definition Delete (u : option AuthUser) (id : string) (now : Z) : shop unit :=
  as_user (getOwner u) (fun user =>
    on_fin (RemoveOrderIncomeTransaction id);!
    let! items := attempt (loadOrderItems id) in
    match items with
    | Ok l => SyncOrderStock id "cancelled" (orderStockItems l) (AccountID user) now
    | Err _ => ret tt
    end;!
    let! n := wrapping (fun e => EWrap ("delete order: " ++ error_text e) e)
      (stmt (fun d => match uuid_in (AccountID user), uuid_in id with
                      | Some _, Some x => (Ok (existsb (live x) (sh_orders d)), update_where (live x) as_deleted d)
                      | _, _ => (Err bad_input, d)
                      end)) in
    if n then ret tt else throw (NotFoundE "order not found")).
Fixpoint release_all (user : AuthUser) (ids : list string) (now : Z) : shop unit :=
  match ids with
  | [] => ret tt
  | id :: rest =>
      let! items := attempt (loadOrderItems id) in
      match items with
      | Ok l => SyncOrderStock id "cancelled" (orderStockItems l) (AccountID user) now
      | Err _ => ret tt
      end;!
      on_fin (RemoveOrderIncomeTransaction id);!
      release_all user rest now
  end.
Definition BatchDelete (u : option AuthUser) (IDs : list string) (now : Z) : shop nat :=
  as_user (getOwner u) (fun user =>
    match batchIDs IDs with
    | [] => throw (BadRequest "ids are required")
    | ids =>
        let! found := wrapping (fun e => EWrap ("batch delete orders: " ++ error_text e) e)
          (query_with (mapM uuid_in ids) (fun us d => map or_id (List.filter (among us) (sh_orders d)))) in
        release_all user found now;!
        match batchIDs found with
        | [] => ret 0%nat
        | gone =>
            wrapping (fun e => EWrap ("batch delete orders: " ++ error_text e) e)
              (stmt (fun d => match uuid_in (AccountID user), mapM uuid_in gone with
                              | Some _, Some us => (Ok (length (List.filter (among us) (sh_orders d))), update_where (among us) as_deleted d)
                              | _, _ => (Err bad_input, d)
                              end))
        end
    end).
End handlers.
