(* ===== verification/FinRows.v ===== *)
(** * What the postings of an order do to the ledger's rows

    The functional side of FinPosting.v when no statement fails: which rows of
    fin_transaction a posting that succeeds adds or removes. *)
From S2P Require Import Prelude GoStrings AdminSession PgTx Triples Zoom Float64 Billing FinTables FinTxns FinPosting FinLedger FinBooks.

Open Scope string_scope.
Open Scope Z_scope.

(** rows found again by their reference *)
Definition incomes (ref : string) (l : list txn_row) : list txn_row := List.filter (order_income ref) l.
Definition entries (ref : string) (l : list txn_row) : list txn_row := List.filter (of_reference ref) l.
(** the ledger's rows and the ids still to be drawn *)
Definition rows_are (l : list txn_row) (ids : list string) (f : fin_db) : Prop := f_txns f = l /\ f_ids f = ids.
Definition ledger_valid (l : list txn_row) (ids : list string) : Prop := txns_valid l = true /\ NoDup (map tx_id l ++ ids).

Lemma filter_all {A} (f : A -> bool) l : (forall x, x ∈ l -> f x = true) -> List.filter f l = l.
Proof.
  induction l as [|x l IH]; intros Hf; [done|]. cbn. rewrite (Hf x) by left. f_equal. apply IH. intros y Hy. apply Hf. by right.
Qed.
Lemma filter_none {A} (f : A -> bool) l : List.filter f l = [] <-> forall x, x ∈ l -> f x = false.
Proof.
  split.
  - intros H x Hx. destruct (f x) eqn:E; [|done]. assert (x ∈ List.filter f l) as Hin by (by apply filter_elem). rewrite H in Hin. by apply not_elem_of_nil in Hin.
  - induction l as [|x l IH]; intros H; [done|]. cbn. rewrite (H x) by left. apply IH. intros y Hy. apply H. by right.
Qed.
Lemma filter_twice {A} (f g : A -> bool) l : (forall x, f x = true -> g x = true) -> List.filter f (List.filter g l) = List.filter f l.
Proof.
  intros H. induction l as [|x l IH]; [done|]. cbn. destruct (g x) eqn:E; cbn; [by rewrite IH|]. destruct (f x) eqn:Ef; [|done].
  by rewrite (H x Ef) in E.
Qed.
Lemma filter_negb {A} (f : A -> bool) l : List.filter f (List.filter (fun x => negb (f x)) l) = [].
Proof. apply filter_none. intros x Hx. apply filter_elem in Hx as [_ Hx]. by apply negb_true_iff in Hx. Qed.
Lemma ledger_valid_filter f l ids : ledger_valid l ids -> ledger_valid (List.filter f l) ids.
Proof.
  intros [Hv Hn]. split; [by apply txns_valid_filter|]. apply NoDup_app in Hn as (H1 & H2 & H3). apply NoDup_app. split_and!; [| |done].
  - clear Hv H2 H3. induction l as [|x l IH]; [done|]. cbn in *. apply NoDup_cons in H1 as [Hx H1]. destruct (f x); [|by apply IH]. cbn.
    constructor; [|by apply IH]. intros Hin. apply Hx. apply list_elem_of_In, in_map_iff in Hin as (y & <- & Hy). apply filter_In in Hy as [Hy _].
    apply list_elem_of_In, in_map_iff. by exists y.
  - intros i Hi. apply H2. apply list_elem_of_In, in_map_iff in Hi as (y & <- & Hy). apply filter_In in Hy as [Hy _].
    apply list_elem_of_In, in_map_iff. by exists y.
Qed.

Section rows.
Context `{HI : PgInput} `{HT : TimeZones}.

(** a row posted with a reference *)
Definition posted_row (ty ref : string) (amount : f64) (t : txn_row) : Prop :=
  tx_type t = ty /\ tx_reference t = Some ref /\ numeric_in 2 amount = Some (tx_amount t) /\ tx_status t = "approved" /\
  tx_deleted t = false /\ tx_to t = None.
Lemma posting_row ty amount w cat desc ref date by_ id t :
  posting_of ty amount w cat desc (Some ref) date by_ id = Some t -> posted_row ty ref amount t /\ tx_id t = id.
Proof.
  unfold posting_of. destruct (numeric_in 2 amount) eqn:En, (uuid_in w), (uuid_opt cat), (date_in date), (uuid_in (if String.eqb by_ "" then nil_uuid else by_)); try done.
  intros [= <-]. unfold posted_row. cbn. by rewrite En.
Qed.

(** the ledger with such a row at its end *)
Definition posted_to (ty ref : string) (amount : f64) (l : list txn_row) (f : fin_db) : Prop :=
  exists t rest, posted_row ty ref amount t /\ ledger_valid (l ++ [t]) rest /\ rows_are (l ++ [t]) rest f.

Lemma does_refresh l ids (m : fin unit) : triple true (fun d => rows_are l ids d) m (fun _ d => rows_are l ids d) -> does (rows_are l ids) m (fun _ => rows_are l ids).
Proof. intros H. eapply t_conseq; [exact H|done|]. by intros. Qed.
Lemma refreshWallet_rows l ids w to : does (rows_are l ids) (refreshWallets w to) (fun _ => rows_are l ids).
Proof.
  apply does_refresh. assert (forall a, triple true (rows_are l ids) (ignore (refreshWalletBalance a)) (fun _ => rows_are l ids)) as H.
  { intros a. apply t_ignore, t_stmt_keep. intros d Hd. destruct (uuid_in a) as [i|]; [|exact Hd]. destruct (find_wallet d i) as [r|]; [|exact Hd].
    cbv zeta. by destruct (fits (w_initial r + FinTables.net d i)). }
  unfold refreshWallets. eapply t_seq; [apply t_if; intros _; [apply H|by apply t_ret]|intros _]. destruct to as [t|]; [|by apply t_ret].
  apply t_if; intros _; [apply H|by apply t_ret].
Qed.
Lemma refresh_each_rows l ids ws : does (rows_are l ids) (refresh_each ws) (fun _ => rows_are l ids).
Proof. induction ws as [|w ws IH]; cbn; [by apply does_ret|]. eapply does_bind; [apply refreshWallet_rows|intros ?; exact IH]. Qed.

Lemma posted_refresh ty ref amount l w : does (posted_to ty ref amount l) (refreshWallets w None) (fun _ => posted_to ty ref amount l).
Proof.
  apply does_exists. intros t. apply does_exists. intros rest.
  apply (does_pre (fun f => rows_are (l ++ [t]) rest f /\ posted_row ty ref amount t /\ ledger_valid (l ++ [t]) rest)); [|tauto].
  apply does_pure. intros Ht. eapply does_conseq; [apply (refreshWallet_rows (l ++ [t]) rest w None)|done|]. intros ? f Hf. exists t, rest. tauto.
Qed.

(** ** Removing *)
Lemma RemoveOrderIncome_rows l ids id :
  TrimSpace id = id -> id <> "" ->
  does (rows_are l ids) (RemoveOrderIncomeTransaction id) (fun _ => rows_are (List.filter (fun t => negb (order_income id t)) l) ids).
Proof.
  intros Ht Hne. unfold RemoveOrderIncomeTransaction. rewrite Ht. apply String.eqb_neq in Hne. rewrite Hne.
  apply does_skip; [auto with reads|intros _]. apply does_skip; [auto with reads|intros ws].
  eapply does_bind with (R := fun _ => rows_are (List.filter (fun t => negb (order_income id t)) l) ids).
  - apply does_wrapping, does_stmt. intros d a d' [<- <-] [= _ <-]. done.
  - intros n. apply does_if; intros _; [apply refresh_each_rows|by apply does_ret].
Qed.
Lemma in_refs_one ref t : in_refs [ref] t = of_reference ref t.
Proof.
  unfold in_refs, of_reference, in_list. destruct (tx_reference t) as [r|]; cbn; [|by rewrite bool_decide_eq_false_2].
  rewrite orb_false_r. destruct (String.eqb_spec r ref) as [->|]; [by rewrite bool_decide_eq_true_2|]. rewrite bool_decide_eq_false_2; [done|]. congruence.
Qed.
Lemma RemoveInventoryEntry_rows l ids ref :
  TrimSpace ref = ref -> ref <> "" ->
  does (rows_are l ids) (RemoveInventoryEntry ref) (fun _ => rows_are (List.filter (fun t => negb (of_reference ref t)) l) ids).
Proof.
  intros Ht Hne. unfold RemoveInventoryEntry, RemoveInventoryEntries, uniqueReferenceNos. cbn [fold_left]. rewrite Ht.
  apply String.eqb_neq in Hne. rewrite Hne. change (in_list ref []) with false. cbn [orb app].
  apply does_skip; [auto with reads|intros _]. cbn [length remove_chunks]. unfold chunk. cbn [take].
  eapply does_bind with (R := fun _ => rows_are (List.filter (fun t => negb (of_reference ref t)) l) ids); [|intros ?; by apply does_ret].
  unfold removeInventoryEntriesChunk. apply does_skip; [auto with reads|intros ws].
  eapply does_bind; [|intros ?; apply refresh_each_rows]. apply does_wrapping, does_stmt. intros d a d' [<- <-] [= _ <-]. split; [|done].
  cbn. apply filter_ext. intros t. by rewrite in_refs_one.
Qed.

(** ** Adding *)
Lemma valid_snoc l t :
  txns_valid l = true -> txn_ok t = true -> tx_id t ∉ map tx_id l -> (forall r, income_ref t = Some r -> r ∉ omap income_ref l) ->
  txns_valid (l ++ [t]) = true.
Proof.
  unfold txns_valid. rewrite !andb_true_iff, !bool_decide_eq_true, forallb_app, map_app, omap_app. intros [[H1 H2] H3] Hok Hid Href.
  cbn. rewrite H1, Hok. split_and!; [done| |].
  - apply NoDup_app. split_and!; [done| |by constructor; [apply not_elem_of_nil|constructor]]. intros x Hx Hin. apply list_elem_of_singleton in Hin as ->. done.
  - destruct (income_ref t) as [r|]; [|by rewrite app_nil_r]. apply NoDup_app. split_and!; [done| |by constructor; [apply not_elem_of_nil|constructor]].
    intros x Hx Hin. apply list_elem_of_singleton in Hin as ->. by eapply Href.
Qed.
Lemma no_income_ref id l : incomes id l = [] -> id ∉ omap income_ref l.
Proof.
  intros H Hin. apply list_elem_of_omap in Hin as (t & Ht & Hr). unfold incomes in H. rewrite filter_none in H. specialize (H t Ht).
  unfold income_ref in Hr. destruct (String.eqb (tx_type t) "income") eqn:E, (tx_deleted t); try done. cbn in Hr.
  unfold order_income in H. by rewrite Hr, E, bool_decide_eq_true_2 in H.
Qed.
(** the first statement of the posting finds no old row to purge *)
Lemma RecordOrderIncome_rows l ids by_ id amount w now :
  TrimSpace id = id -> id <> "" -> ledger_valid l ids -> incomes id l = [] ->
  does (rows_are l ids) (RecordOrderCompletedIncome by_ id amount w now)
    (fun _ f => if fleb amount fzero then rows_are l ids f
                else posted_to "income" id amount l f).
Proof.
  intros Ht Hne [Hv Hn] Hi. unfold RecordOrderCompletedIncome. destruct (fleb amount fzero); [by apply does_ret|].
  rewrite Ht. apply String.eqb_neq in Hne. rewrite Hne. apply does_skip; [auto with reads|intros _]. unfold recordOrderIncome.
  apply does_skip; [eapply reads_any, reads_income_wallet|intros u].
  eapply does_bind with (R := fun _ => rows_are l ids).
  { apply does_wrapping, does_stmt. intros d a d' [<- <-] [= _ <-]. split; [|done]. cbn. apply filter_all.
    intros t Hin. unfold incomes in Hi. rewrite filter_none in Hi. by rewrite (Hi t Hin). }
  intros ?. apply does_skip; [apply reads_category|intros cat]. apply does_skip; [auto with reads|intros today].
  apply does_skip; [auto with reads|intros _].
  eapply does_bind with (R := fun (b : bool) f => posted_to "income" id amount l f /\ b = true).
  - apply does_wrapping, does_stmt. intros d b d' [<- <-]. unfold insert_or_nothing, with_id. destruct (f_ids d) as [|i rest] eqn:Hids; [done|].
    destruct (posting_of _ _ _ _ _ _ _ _ i) as [t|] eqn:Hp; [|done]. apply posting_row in Hp as [Hp Hid].
    destruct (txn_ok t) eqn:Hok; [|done]. cbn [negb]. unfold write_txns. cbn [f_txns set_ids].
    assert (tx_id t ∉ map tx_id (f_txns d)) as Hnew.
    { rewrite Hid. intros Hin. apply NoDup_app in Hn as (_ & Hn & _). eapply Hn; [exact Hin|left]. }
    assert (txns_valid (f_txns d ++ [t]) = true) as Hval; [apply valid_snoc; try done|].
    + intros r Hr. unfold income_ref in Hr. destruct Hp as (Hty & Href & _ & _ & Hdel & _). rewrite Hty, Hdel, Href in Hr. injection Hr as <-.
      by apply no_income_ref.
    + rewrite Hval. intros [= <- <-]. split; [|done]. exists t, rest. split_and!; [done|split; [done|]|done].
      rewrite <- Hid in Hn. rewrite map_app, <- app_assoc. exact Hn.
  - intros b. apply does_pure. intros ->. apply posted_refresh.
Qed.
Lemma CheckCurrent_rows l ids now : does (rows_are l ids) (CheckCurrentPeriodUnlocked now) (fun _ => rows_are l ids).
Proof. eapply does_conseq; [apply does_reads, reads_current|done|]. naive_solver. Qed.
Lemma incomes_removed id l : incomes id (List.filter (fun t => negb (order_income id t)) l) = [].
Proof. apply filter_negb. Qed.
Lemma ResyncOrderIncome_rows l ids by_ id amount w now :
  TrimSpace id = id -> id <> "" -> ledger_valid l ids ->
  let kept := List.filter (fun t => negb (order_income id t)) l in
  does (rows_are l ids) (ResyncOrderCompletedIncome by_ id amount w now)
    (fun _ f => if fleb amount fzero then rows_are kept ids f
                else posted_to "income" id amount kept f).
Proof.
  intros Ht Hne Hv kept. unfold ResyncOrderCompletedIncome. rewrite Ht. rewrite (proj2 (String.eqb_neq _ _) Hne).
  destruct (fleb amount fzero) eqn:Ea; [by apply RemoveOrderIncome_rows|].
  eapply does_bind; [apply CheckCurrent_rows|intros ?]. eapply does_bind; [by apply RemoveOrderIncome_rows|intros ?].
  eapply does_conseq; [apply RecordOrderIncome_rows; [done|done|by apply ledger_valid_filter|apply incomes_removed]|done|].
  intros ? f. by rewrite Ea.
Qed.
Lemma RecordInventoryEntry_rows l ids by_ ref cat desc amount w now :
  TrimSpace ref = ref -> ref <> "" -> ledger_valid l ids -> fleb amount fzero = false ->
  does (rows_are l ids) (RecordInventoryEntry by_ ref "expense" cat desc amount w now)
    (fun _ f => entries ref l <> [] \/ posted_to "expense" ref amount l f).
Proof.
  intros Ht Hne [Hv Hn] Ea. unfold RecordInventoryEntry. rewrite Ea. cbv zeta. change (TrimSpace "expense") with "expense".
  change (negb (in_list "expense" ["income"; "expense"])) with false. rewrite Ht. cbn iota.
  apply does_skip; [auto with reads|intros _]. apply does_skip; [eapply reads_any, reads_income_wallet|intros u].
  apply does_skip; [apply reads_category|intros c0]. apply does_skip; [auto with reads|intros today]. apply does_skip; [auto with reads|intros _].
  rewrite (proj2 (String.eqb_neq _ _) Hne). cbn [negb].
  eapply does_bind with (R := fun b f => rows_are l ids f /\ (b = true -> entries ref l <> [])).
  { apply does_wrapping, does_stmt. intros d a d' [<- <-] [= <- <-]. split; [done|]. intros Hex He. unfold entries in He. rewrite filter_none in He.
    apply existsb_exists in Hex as (t & Hin & Hf). apply andb_true_iff in Hf as [Hf _]. apply andb_true_iff in Hf as [Hf _].
    rewrite He in Hf; [done|by apply list_elem_of_In]. }
  intros [|]; [apply does_ret; intros d [_ H]; left; by apply H|].
  eapply does_bind with (R := fun (_ : string) f => posted_to "expense" ref amount l f).
  - apply does_wrapping, does_stmt. intros d b d' [[<- <-] _]. unfold insert_txn, with_id, given. rewrite (proj2 (String.eqb_neq _ _) Hne).
    destruct (f_ids d) as [|i rest] eqn:Hids; [done|]. destruct (posting_of _ _ _ _ _ _ _ _ i) as [t|] eqn:Hp; [|done].
    apply posting_row in Hp as [Hp Hid]. unfold write_txns. cbn [f_txns set_ids]. destruct (txns_valid (f_txns d ++ [t])) eqn:Hval; [|done]. intros [= <- <-].
    exists t, rest. split_and!; [done|split; [done|]|done]. rewrite <- Hid in Hn. rewrite map_app, <- app_assoc. exact Hn.
  - intros b. eapply does_conseq; [apply posted_refresh|done|]. auto.
Qed.
End rows.
