(* ===== verification/OrderBooks.v ===== *)
(** * Orders, their income, their stock and its cost agree

    The invariant [reconciled] that ties every order to its rows in the finance
    ledger and to its movements in the stock ledger, and the steps that order
    handlers are made of: what each breaks and what it settles. *)
From S2P Require Import Prelude GoStrings AdminSession PgTx Triples Zoom Float64 Billing FinTables FinTxns FinPosting FinLedger FinBooks FinRows.
From S2P Require Import Costing StockLedger Shop OrderStock OrderItems Orders.

Open Scope string_scope.
Open Scope Z_scope.

(** ** Ledgers that differ only in some rows *)
Record changes (f : txn_row -> bool) (l l' : list txn_row) : Prop := {
  ch_rest : forall g, (forall t, g t = true -> f t = false) -> List.filter g l' = List.filter g l;
  ch_new : forall t, t ∈ l' -> t ∈ l \/ tx_to t = None
}.
Lemma changes_refl f l : changes f l l.
Proof. split; auto. Qed.
Lemma changes_trans f l l' l'' : changes f l l' -> changes f l' l'' -> changes f l l''.
Proof. intros [H1 H2] [H3 H4]. split; [intros g Hg; by rewrite H3, H1|]. intros t Ht. destruct (H4 t Ht); auto. Qed.
Lemma changes_remove f l : changes f l (List.filter (fun t => negb (f t)) l).
Proof.
  split; [intros g Hg; apply filter_twice; intros t Ht; by rewrite (Hg t Ht)|]. intros t Ht. left. by apply filter_elem in Ht as [Ht _].
Qed.
Lemma changes_add f l t : f t = true -> tx_to t = None -> changes f l (l ++ [t]).
Proof.
  intros Hf Hto. split.
  - intros g Hg. rewrite filter_app. cbn. destruct (g t) eqn:E; [by rewrite (Hg t E) in Hf|]. by rewrite app_nil_r.
  - intros x Hx. apply elem_of_app in Hx as [Hx|Hx]; [by left|]. apply list_elem_of_singleton in Hx as ->. by right.
Qed.

Section reconciled.
Context `{HI : PgInput} `{HT : TimeZones} `{HN : Numeric} `{HO : OrderInput} `{HL : !PgInputLaws}.

(** ** The invariant *)
Definition cogs_ref (id : string) : string := cogsRefPrefix ++ id.
(** what [gen_random_uuid] answers *)
Definition plain_id (id : string) : Prop :=
  uuid_in id = Some id /\ TrimSpace id = id /\ TrimSpace (cogs_ref id) = cogs_ref id /\ HasPrefix id cogsRefPrefix = false.
Abbreviation ledger d := (f_txns (sh_fin d)).
(** inventory is set up: stock is kept *)
Definition tracked (d : shop_db) : bool := bool_decide (is_Some (inv_setting (sh_stock d))) && sh_setup d.
(** the only row, of an amount, or none *)
Definition just (ty ref : string) (amount : option f64) (l : list txn_row) : Prop :=
  match amount with None => l = [] | Some a => exists t, l = [t] /\ posted_row ty ref a t end.
Definition income_due (o : order_row) : option f64 :=
  let total := numeric_out 4 (or_total o) in
  if negb (or_deleted o) && String.eqb (or_status o) "completed" && negb (fleb total fzero) then Some total else None.
Definition cost_due (id : string) (d : shop_db) : option f64 :=
  let cost := round2 (order_cost id d) in
  if sh_post_expense d || fleb cost fzero then None else Some cost.
Inductive part := Income | Marker | Cogs.
Definition part_ok (p : part) (d : shop_db) (o : order_row) : Prop :=
  match p with
  | Income => just "income" (or_id o) (income_due o) (incomes (or_id o) (ledger d))
  | Marker => tracked d && sh_marker_column d && negb (or_deleted o) = true -> or_stock_applied o = IsCommittedOrderStatus (or_status o)
  | Cogs => tracked d = true -> just "expense" (cogs_ref (or_id o)) (cost_due (or_id o) d) (entries (cogs_ref (or_id o)) (ledger d))
  end.
Definition unused (d : shop_db) (id : string) : Prop :=
  incomes id (ledger d) = [] /\ entries (cogs_ref id) (ledger d) = [] /\ sale_rows id d = [].
Definition all_ids (d : shop_db) : list string := (map or_id (sh_orders d) ++ sh_ids d)%list.
(** [S]: the parts of orders that are not settled *)
Record reconciled (S : part -> string -> Prop) (d : shop_db) : Prop := {
  rc_ids : NoDup (all_ids d);
  rc_plain : Forall plain_id (all_ids d);
  rc_ledger : ledger_valid (ledger d) (f_ids (sh_fin d));
  rc_books : books none (sh_fin d);
  rc_cogs : forall id t, id ∈ all_ids d -> t ∈ ledger d -> of_reference (cogs_ref id) t = true -> tx_to t = None;
  rc_unused : Forall (unused d) (sh_ids d);
  rc_parts : forall o p, o ∈ sh_orders d -> ~ S p (or_id o) -> part_ok p d o
}.
Definition settled : part -> string -> Prop := fun _ _ => False.
Definition but (p : part) (id : string) (S : part -> string -> Prop) : part -> string -> Prop := fun q i => S q i \/ (q = p /\ i = id).

Lemma reconciled_mono S S' d : reconciled S d -> (forall p i, S p i -> S' p i) -> reconciled S' d.
Proof. intros [] HS. split; auto. Qed.
(** a part is settled *)
Lemma settle p id S d :
  reconciled (but p id S) d -> (forall o, o ∈ sh_orders d -> or_id o = id -> part_ok p d o) -> reconciled S d.
Proof.
  intros [] Hp. split; try done. intros o q Ho Hq. destruct (decide (or_id o = id)) as [He|Hne].
  - destruct p, q; first [by apply Hp|apply rc_parts0; [done|]; unfold but; naive_solver].
  - apply rc_parts0; [done|]. unfold but. naive_solver.
Qed.
Lemma plain_nonempty id : plain_id id -> id <> "".
Proof. intros [H _] ->. by rewrite uuid_nonempty in H. Qed.
Lemma cogs_ref_inj a b : cogs_ref a = cogs_ref b -> a = b.
Proof. apply string_app_inj_l. Qed.
Lemma plain_not_cogs id x : plain_id id -> id <> cogs_ref x.
Proof. intros (_ & _ & _ & H) E. assert (HasPrefix id cogsRefPrefix = true) as Ht; [|congruence]. apply HasPrefix_app. by exists x. Qed.
Lemma cogs_ref_nonempty id : cogs_ref id <> "".
Proof. done. Qed.

(** *** The ledger changes *)
Lemma order_income_ref id t : order_income id t = true -> tx_reference t = Some id.
Proof. intros H. apply andb_true_iff in H as [H _]. by apply bool_decide_eq_true in H. Qed.
Lemma of_reference_ref r t : of_reference r t = true -> tx_reference t = Some r.
Proof. apply bool_decide_eq_true. Qed.
Lemma not_income id t r : tx_reference t = Some r -> r <> id -> order_income id t = false.
Proof. intros H Hne. apply not_true_iff_false. intros E. apply order_income_ref in E. congruence. Qed.
Lemma not_reference x t r : tx_reference t = Some r -> r <> x -> of_reference x t = false.
Proof. intros H Hne. apply not_true_iff_false. intros E. apply of_reference_ref in E. congruence. Qed.
(** the parts that look at the ledger *)
Lemma ledger_step S S' f d f' :
  reconciled S d -> changes f (ledger d) (f_txns f') -> ledger_valid (f_txns f') (f_ids f') -> books none f' ->
  (forall id, id ∈ sh_ids d -> incomes id (f_txns f') = incomes id (ledger d) /\ entries (cogs_ref id) (f_txns f') = entries (cogs_ref id) (ledger d)) ->
  (forall o, o ∈ sh_orders d -> ~ S' Income (or_id o) -> incomes (or_id o) (f_txns f') = incomes (or_id o) (ledger d)) ->
  (forall o, o ∈ sh_orders d -> ~ S' Cogs (or_id o) -> entries (cogs_ref (or_id o)) (f_txns f') = entries (cogs_ref (or_id o)) (ledger d)) ->
  (forall p i, S p i -> S' p i) -> reconciled S' (set_fin f' d).
Proof.
  intros [] Hch Hv Hb Hids Hinc Hcogs HS. split; try done.
  - intros id t Hid Ht Href. cbn in Ht. destruct (ch_new _ _ _ Hch t Ht); [by eapply rc_cogs0|done].
  - eapply Forall_impl; [apply Forall_and; split; [exact rc_unused0|by apply Forall_forall; intros i Hi; exact (Hids i Hi)]|].
    intros id [(H1 & H2 & H3) [E1 E2]]. unfold unused. cbn [sh_fin set_fin]. by rewrite E1, E2.
  - intros o p Ho Hp. assert (~ S p (or_id o)) as Hp' by auto. specialize (rc_parts0 o p Ho Hp'). destruct p; cbn in *; [|exact rc_parts0|].
    + by rewrite (Hinc o Ho Hp).
    + by rewrite (Hcogs o Ho Hp).
Qed.
Lemma order_id_in o d : o ∈ sh_orders d -> or_id o ∈ all_ids d.
Proof. intros Ho. apply elem_of_app. left. apply list_elem_of_In, in_map. by apply list_elem_of_In. Qed.
Lemma plain_of S d id : reconciled S d -> id ∈ all_ids d -> plain_id id.
Proof. intros Hr Hid. pose proof (rc_plain _ _ Hr) as H. rewrite Forall_forall in H. by apply H. Qed.
Lemma new_id_not_old S d id o : reconciled S d -> id ∈ sh_ids d -> o ∈ sh_orders d -> id <> or_id o.
Proof.
  intros Hr Hid Ho ->. pose proof (rc_ids _ _ Hr) as H. apply NoDup_app in H as (_ & H & _). eapply H; [|exact Hid].
  apply list_elem_of_In, in_map. by apply list_elem_of_In.
Qed.
Lemma income_step S id d f' :
  reconciled S d -> plain_id id -> (id ∈ sh_ids d -> incomes id (f_txns f') = incomes id (ledger d)) ->
  changes (order_income id) (ledger d) (f_txns f') ->
  ledger_valid (f_txns f') (f_ids f') -> books none f' -> reconciled (but Income id S) (set_fin f' d).
Proof.
  intros Hr Hpl Hid Hch Hv Hb. eapply ledger_step; [exact Hr|exact Hch|exact Hv|exact Hb|..].
  - intros i Hi. split; [destruct (decide (i = id)) as [->|Hne]; [by apply Hid|]|]; apply (ch_rest _ _ _ Hch); intros t Ht.
    + eapply not_income; [by apply order_income_ref|done].
    + eapply not_income; [by apply of_reference_ref|]. intros E. by eapply plain_not_cogs.
  - intros o Ho Hn. apply (ch_rest _ _ _ Hch). intros t Ht. eapply not_income; [by apply order_income_ref|]. unfold but in Hn. naive_solver.
  - intros o Ho Hn. apply (ch_rest _ _ _ Hch). intros t Ht. eapply not_income; [by apply of_reference_ref|]. intros E. by eapply plain_not_cogs.
  - unfold but. auto.
Qed.
Lemma cogs_step S id d f' :
  reconciled S d -> (id ∈ sh_ids d -> entries (cogs_ref id) (f_txns f') = entries (cogs_ref id) (ledger d)) ->
  changes (of_reference (cogs_ref id)) (ledger d) (f_txns f') ->
  ledger_valid (f_txns f') (f_ids f') -> books none f' -> reconciled (but Cogs id S) (set_fin f' d).
Proof.
  intros Hr Hid Hch Hv Hb. assert (forall i, i ∈ all_ids d -> i <> cogs_ref id) as Hpl by (intros i Hi; eapply plain_not_cogs, plain_of; done).
  eapply ledger_step; [exact Hr|exact Hch|exact Hv|exact Hb|..].
  - intros i Hi. split; [|destruct (decide (i = id)) as [->|Hne]; [by apply Hid|]]; apply (ch_rest _ _ _ Hch); intros t Ht.
    + eapply not_reference; [by apply order_income_ref|]. apply Hpl, elem_of_app. by right.
    + eapply not_reference; [by apply of_reference_ref|]. intros E. by apply cogs_ref_inj in E.
  - intros o Ho Hn. apply (ch_rest _ _ _ Hch). intros t Ht. eapply not_reference; [by apply order_income_ref|]. by apply Hpl, order_id_in.
  - intros o Ho Hn. apply (ch_rest _ _ _ Hch). intros t Ht. eapply not_reference; [by apply of_reference_ref|]. intros E. apply cogs_ref_inj in E.
    apply Hn. right. by split.
  - unfold but. auto.
Qed.

(** ** Steps on the ledger
    [X]: what else is known, stable under changes of the rows of [g] *)
Definition steady (g : txn_row -> bool) (X : shop_db -> Prop) : Prop :=
  forall f d, X d -> changes g (ledger d) (f_txns f) -> X (set_fin f d).

Lemma does_both {D A} (P P' : D -> Prop) (m : prog (pg D) A) (Q : A -> D -> Prop) (B : D -> Prop) :
  does P m Q -> triple true P' m (fun _ => B) -> does (fun d => P d /\ P' d) m (fun a d => Q a d /\ B d).
Proof. intros H1 H2. eapply t_conseq; [apply (t_conj _ _ _ _ _ _ H1 H2)|done|]. naive_solver. Qed.
(** a posting: what it does to the rows, and that it keeps the books *)
Lemma does_posting {A} (P : shop_db -> Prop) (m : fin A) (B : fin_db -> Prop) (R : shop_db -> A -> fin_db -> Prop) (Q : A -> shop_db -> Prop) :
  (forall d, P d -> does (rows_are (ledger d) (f_ids (sh_fin d))) m (R d)) ->
  triple true B m (fun _ => books none) -> (forall d, P d -> B (sh_fin d)) ->
  (forall d a f', P d -> R d a f' -> books none f' -> Q a (set_fin f' d)) -> does P (on_fin m) Q.
Proof.
  intros Hm Hb HB HQ. apply (does_zoom _ _ P m (fun d a f' => R d a f' /\ books none f')); [|intros e a f' HP [H1 H2]; by apply HQ].
  intros e HP. eapply does_pre; [apply does_both; [apply Hm; exact HP|exact Hb]|]. intros f <-. split; [by split|by apply HB].
Qed.
Lemma posted_changes ty ref amount f l f' :
  (forall t, posted_row ty ref amount t -> f t = true) -> posted_to ty ref amount l f' ->
  changes f l (f_txns f') /\ ledger_valid (f_txns f') (f_ids f').
Proof.
  intros Hf (t & rest & Ht & Hv & [-> ->]). split; [|done]. apply changes_add; [by apply Hf|]. apply Ht.
Qed.
Lemma posted_income ref amount t : posted_row "income" ref amount t -> order_income ref t = true.
Proof. intros (H1 & H2 & _). unfold order_income. by rewrite H1, H2, bool_decide_eq_true_2. Qed.
Lemma posted_entry ty ref amount t : posted_row ty ref amount t -> of_reference ref t = true.
Proof. intros (_ & H & _). unfold of_reference. by rewrite H, bool_decide_eq_true_2. Qed.
Lemma just_posted ty ref amount f l f' :
  (forall t, posted_row ty ref amount t -> f t = true) -> List.filter f l = [] -> posted_to ty ref amount l f' ->
  just ty ref (Some amount) (List.filter f (f_txns f')).
Proof.
  intros Hf Hl (t & rest & Ht & _ & [-> _]). exists t. split; [|done]. rewrite filter_app, Hl. cbn. by rewrite (Hf t Ht).
Qed.

Lemma unused_of S d id : reconciled S d -> id ∈ sh_ids d -> unused d id.
Proof. intros Hr Hid. pose proof (rc_unused _ _ Hr) as H. rewrite Forall_forall in H. by apply H. Qed.

Lemma RemoveOrderIncome_step S X id :
  steady (order_income id) X -> plain_id id ->
  does (fun d => reconciled S d /\ X d) (on_fin (RemoveOrderIncomeTransaction id))
    (fun _ d => reconciled (but Income id S) d /\ incomes id (ledger d) = [] /\ X d).
Proof.
  intros HX Hp. eapply does_posting.
  - intros d _. apply RemoveOrderIncome_rows; [apply Hp|by apply plain_nonempty].
  - apply RemoveOrderIncome_books.
  - intros d [H _]. apply H.
  - intros d a f' [Hr Hf] [Hl Hi] Hb.
    assert (changes (order_income id) (ledger d) (f_txns f')) as Hc by (rewrite Hl; apply changes_remove).
    cbn. split_and!; [|rewrite Hl; apply incomes_removed|by apply HX].
    apply income_step; [done|done| |done|rewrite Hl, Hi; apply ledger_valid_filter, Hr|done].
    intros Hin. rewrite Hl, incomes_removed. symmetry. by apply (unused_of S).
Qed.
(** the income of an order, once it is posted *)
Definition earned (id : string) (amount : f64) (d : shop_db) : Prop :=
  just "income" id (if fleb amount fzero then None else Some amount) (incomes id (ledger d)).
Lemma not_unused S d id : reconciled S d -> id ∈ map or_id (sh_orders d) -> id ∈ sh_ids d -> False.
Proof. intros Hr H1 H2. pose proof (rc_ids _ _ Hr) as H. apply NoDup_app in H as (_ & H & _). by eapply H. Qed.
Lemma RecordOrderIncome_step S X id by_ amount w now :
  steady (order_income id) X -> plain_id id -> (forall d, X d -> id ∈ map or_id (sh_orders d)) ->
  does (fun d => (reconciled S d /\ X d) /\ incomes id (ledger d) = []) (on_fin (RecordOrderCompletedIncome by_ id amount w now))
    (fun _ d => reconciled (but Income id S) d /\ earned id amount d /\ X d).
Proof.
  intros HX Hp Hin. eapply does_posting.
  - intros d [[Hr _] Hi]. apply RecordOrderIncome_rows; [apply Hp|by apply plain_nonempty|apply Hr|exact Hi].
  - apply RecordOrderCompletedIncome_books.
  - intros d [[H _] _]. apply H.
  - intros d a f' [[Hr Hf] Hi] HR Hb. cbv beta in HR. unfold earned. cbn [sh_fin set_fin].
    assert (id ∈ sh_ids d -> False) as Hno by (apply (not_unused S); [done|by apply Hin]).
    destruct (fleb amount fzero).
    + destruct HR as [Hl Hids]. assert (changes (order_income id) (ledger d) (f_txns f')) as Hc by (rewrite Hl; apply changes_refl).
      split_and!; [|by rewrite Hl|by apply HX]. apply income_step; [done|done|tauto|done|rewrite Hl, Hids; apply Hr|done].
    + pose proof (posted_changes _ _ _ _ _ _ (posted_income id amount) HR) as [Hc Hv].
      split_and!; [by apply income_step; [..|tauto| | |]| |by apply HX]. by eapply just_posted; [apply posted_income| |exact HR].
Qed.
Lemma ResyncOrderIncome_step S X id by_ amount w now :
  steady (order_income id) X -> plain_id id -> (forall d, X d -> id ∈ map or_id (sh_orders d)) ->
  does (fun d => reconciled S d /\ X d) (on_fin (ResyncOrderCompletedIncome by_ id amount w now))
    (fun _ d => reconciled (but Income id S) d /\ earned id amount d /\ X d).
Proof.
  intros HX Hp Hin. eapply does_posting.
  - intros d [Hr _]. apply ResyncOrderIncome_rows; [apply Hp|by apply plain_nonempty|apply Hr].
  - apply ResyncOrderIncome_books.
  - intros d [H _]. apply H.
  - intros d a f' [Hr Hf] HR Hb. cbv beta zeta in HR. unfold earned. cbn [sh_fin set_fin].
    assert (id ∈ sh_ids d -> False) as Hno by (apply (not_unused S); [done|by apply Hin]).
    destruct (fleb amount fzero).
    + destruct HR as [Hl Hids]. assert (changes (order_income id) (ledger d) (f_txns f')) as Hc by (rewrite Hl; apply changes_remove).
      split_and!; [|rewrite Hl; apply incomes_removed|by apply HX].
      apply income_step; [done|done|tauto|done|rewrite Hl, Hids; apply ledger_valid_filter, Hr|done].
    + pose proof (posted_changes _ _ _ _ _ _ (posted_income id amount) HR) as [Hc Hv].
      assert (changes (order_income id) (ledger d) (f_txns f')) as Hc' by (eapply changes_trans; [apply changes_remove|exact Hc]).
      split_and!; [| |by apply HX]; [|by eapply just_posted; [apply posted_income|apply incomes_removed|exact HR]].
      by apply income_step; [..|tauto| | |].
Qed.
Lemma RemoveInventoryEntry_step S X id :
  steady (of_reference (cogs_ref id)) X -> plain_id id -> (forall d, X d -> id ∈ map or_id (sh_orders d)) ->
  does (fun d => reconciled S d /\ X d) (on_fin (RemoveInventoryEntry (cogs_ref id)))
    (fun _ d => (reconciled (but Cogs id S) d /\ X d) /\ entries (cogs_ref id) (ledger d) = []).
Proof.
  intros HX Hp Hin. assert (uniqueReferenceNos [cogs_ref id] = [cogs_ref id]) as Hu.
  { unfold uniqueReferenceNos. cbn [fold_left]. destruct Hp as (_ & _ & -> & _). by rewrite (proj2 (String.eqb_neq _ _) (cogs_ref_nonempty id)). }
  eapply does_posting.
  - intros d _. apply RemoveInventoryEntry_rows; [apply Hp|apply cogs_ref_nonempty].
  - apply (RemoveInventoryEntries_books [cogs_ref id]).
  - intros d [H Hf]. split; [apply H|]. rewrite Hu. intros t Ht Href. rewrite in_refs_one in Href.
    eapply (rc_cogs _ _ H); [|exact Ht|exact Href]. apply elem_of_app. left. by apply Hin.
  - intros d a f' [Hr Hf] [Hl Hi] Hb.
    assert (changes (of_reference (cogs_ref id)) (ledger d) (f_txns f')) as Hc by (rewrite Hl; apply changes_remove).
    cbn [sh_fin set_fin]. split; [split; [|by apply HX]|rewrite Hl; apply filter_negb].
    apply cogs_step; [done| |done|rewrite Hl, Hi; apply ledger_valid_filter, Hr|done].
    intros Hn. exfalso. eapply not_unused; [exact Hr|by apply Hin|exact Hn].
Qed.
Lemma RecordInventoryEntry_step S X id by_ cat desc amount w now :
  steady (of_reference (cogs_ref id)) X -> plain_id id -> (forall d, X d -> id ∈ map or_id (sh_orders d)) -> fleb amount fzero = false ->
  does (fun d => (reconciled S d /\ X d) /\ entries (cogs_ref id) (ledger d) = [])
    (on_fin (RecordInventoryEntry by_ (cogs_ref id) "expense" cat desc amount w now))
    (fun _ d => (reconciled (but Cogs id S) d /\ X d) /\ just "expense" (cogs_ref id) (Some amount) (entries (cogs_ref id) (ledger d))).
Proof.
  intros HX Hp Hin Ha. eapply does_posting.
  - intros d [[Hr _] _]. apply RecordInventoryEntry_rows; [apply Hp|apply cogs_ref_nonempty|apply Hr|done].
  - apply RecordInventoryEntry_books.
  - intros d [[H _] _]. apply H.
  - intros d a f' [[Hr Hf] He] HR Hb. cbv beta in HR. destruct HR as [HR|HR]; [done|].
    pose proof (posted_changes _ _ _ _ _ _ (posted_entry "expense" (cogs_ref id) amount) HR) as [Hc Hv].
    split; [split; [|by apply HX]|by eapply just_posted; [apply posted_entry|exact He|exact HR]].
    apply cogs_step; [done| |done|done|done]. intros Hn. exfalso. eapply not_unused; [exact Hr|by apply Hin|exact Hn].
Qed.

(** ** Steps on the stock *)
(** movements for the order [id] only *)
Definition moves (id : string) (s s' : stock_db) : Prop :=
  inv_setting s' = inv_setting s /\ forall i, i <> id -> List.filter (of_order i) (movements s') = List.filter (of_order i) (movements s).
#[local] Instance moves_preorder id : PreOrder (moves id).
Proof. split; [by split|]. intros s1 s2 s3 [H1 H2] [H3 H4]. split; [congruence|]. intros i Hi. by rewrite H4, H2. Qed.
Lemma moves_same id s s' : inv_setting s' = inv_setting s -> movements s' = movements s -> moves id s s'.
Proof. intros H1 H2. split; [done|]. intros i _. by rewrite H2. Qed.
Lemma inside_checked R f : (forall d d', f d = Some d' -> R d d') -> inside R (checked f).
Proof. intros Hf. apply inside_stmt. intros d a d' E. specialize (Hf d). destruct (f d); [|done]. injection E as _ <-. by apply Hf. Qed.
Lemma inside_internal id {A} (m : stock A) : inside (moves id) m -> inside (moves id) (internal m).
Proof. apply (inside_wrapping (moves id) (fun e => ECode Internal (error_text e))). Qed.
#[local] Hint Resolve inside_internal : inside.
Lemma inside_take_draws id draws : inside (moves id) (take_draws draws).
Proof.
  induction draws as [|c rest IH]; cbn [take_draws]; inside.
  apply inside_checked. intros d d'. unfold take_from_layer. destruct (mapM _ _); [|done]. intros [= <-]. by apply moves_same.
Qed.
#[local] Hint Resolve inside_take_draws : inside.
Lemma inside_issue_cost id inp method b : inside (moves id) (issue_cost inp method b).
Proof.
  unfold issue_cost. cbv zeta. inside.
Qed.
#[local] Hint Resolve inside_issue_cost : inside.
Lemma inside_insert_movement id inp now u c b :
  plain_id id -> MI_RefType inp = "order" -> MI_RefID inp = id -> inside (moves id) (insert_movement inp now u c b).
Proof.
  intros Hp Ht Hid. apply inside_stmt. intros d a d'. destruct (movement_of _ _ _ _ _ _) as [m|] eqn:Em; [|done].
  destruct (existsb _ _); [done|]. intros [= _ <-]. split; [done|]. intros i Hi. cbn. rewrite filter_app. cbn.
  assert (of_order i m = false) as ->; [|by rewrite app_nil_r].
  assert (mv_ref_id m = Some id) as Hm.
  { revert Em. unfold movement_of. destruct (column (MI_Qty inp)), (column u), (column c), (column (OnHand b)), (column (AvgCost b)); try done.
    intros [= <-]. cbn. unfold nullUUID. rewrite Hid, (proj1 (proj2 Hp)), (proj2 (String.eqb_neq _ _) (plain_nonempty id Hp)). done. }
  unfold of_order, by_ref. rewrite Hm, (bool_decide_eq_false_2 (Some id = Some i)) by congruence. by rewrite andb_false_r.
Qed.
Lemma inside_insert_layer id item wh q u b s now : inside (moves id) (insert_layer item wh q u b s now).
Proof.
  apply inside_checked. intros d d'. destruct (column q), (column u); try done. cbn. destruct (existsb _ _); [done|]. intros [= <-].
  by apply moves_same.
Qed.
Lemma inside_upsert id item wh b : inside (moves id) (upsert_balance item wh b).
Proof.
  apply inside_checked. intros d d'. destruct (column (OnHand b)), (column (AvgCost b)), (column (TotalValue b)); try done. cbn.
  intros [= <-]. by apply moves_same.
Qed.
#[local] Hint Resolve inside_insert_layer inside_upsert : inside.
Lemma inside_PostMovement id inp now :
  plain_id id -> MI_RefType inp = "order" -> MI_RefID inp = id -> inside (moves id) (PostMovement inp now).
Proof.
  intros Hp Ht Hid. unfold PostMovement. cbv zeta.
  pose proof (fun u c b => inside_insert_movement id inp now u c b Hp Ht Hid) as Hins. inside.
Qed.

(** *** In the shop's tables *)
Definition stocked (id : string) (d d' : shop_db) : Prop := exists s', moves id (sh_stock d) s' /\ d' = set_stock s' d.
#[local] Instance stocked_preorder id : PreOrder (stocked id).
Proof.
  split.
  - intros d. exists (sh_stock d). split; [done|by destruct d].
  - intros d1 d2 d3 (s & H1 & ->) (s' & H2 & ->). exists s'. split; [|done]. by transitivity s.
Qed.
Lemma inside_on_stock id {A} (m : stock A) : inside (moves id) m -> inside (stocked id) (on_stock m).
Proof. intros Hm. eapply inside_weaken; [exact (inside_zoom sh_stock set_stock _ m Hm)|]. intros d d' [H1 H2]. by exists (sh_stock d'). Qed.
Lemma inside_query id {A P} (p : option P) (f : P -> shop_db -> A) : inside (stocked id) (query_with p f).
Proof. apply inside_stmt. intros d a d'. destruct p; [|done]. by intros [= _ <-]. Qed.
Lemma inside_context id item : inside (stocked id) (on_stock (loadCostingContext item)).
Proof.
  apply inside_on_stock. unfold loadCostingContext. apply inside_bind; [typeclasses eauto|apply inside_internal; inside|intros ?].
  apply inside_bind; [typeclasses eauto|apply inside_internal; inside|inside].
Qed.
Lemma inside_post_movement id k inp now :
  plain_id id -> (forall k, MI_RefType (inp k id) = "order" /\ MI_RefID (inp k id) = id) -> inside (stocked id) (post_movement k id inp now).
Proof.
  intros Hp Hi. unfold post_movement. rewrite (proj1 Hp). destruct (uuid_in k.2) as [wh|]; [|apply inside_query].
  apply inside_bind; [typeclasses eauto| |inside]. apply inside_on_stock, inside_PostMovement; [done|apply Hi..].
Qed.
Lemma inside_deltas id required net now keys : plain_id id -> inside (stocked id) (post_deltas id required net now keys).
Proof.
  intros Hp. induction keys as [|k rest IH]; cbn [post_deltas]; [inside|].
  apply inside_bind; [typeclasses eauto| |auto]. unfold post_delta. cbv zeta. apply inside_if; [|apply inside_if].
  - apply inside_bind; [typeclasses eauto|apply inside_context|intros cc]. by apply inside_post_movement.
  - apply inside_bind; [typeclasses eauto|apply inside_context|intros cc]. by apply inside_post_movement.
  - inside.
Qed.
Lemma inside_preload id ids : inside (stocked id) (preload ids).
Proof.
  unfold preload. destruct (uniqueNonEmpty ids) as [|x l]; [inside|].
  apply inside_bind; [typeclasses eauto|apply inside_wrapping; [typeclasses eauto|apply inside_query]|intros rows]. cbv zeta.
  destruct (map fst _); [inside|].
  inside.
Qed.
(** reads on the way, then the marker *)
Definition marked (b : bool) (id : string) (c : bool) (os : list order_row) : list order_row := if b then map (mark_applied id c) os else os.
Definition synced (id : string) (c : bool) (d : shop_db) (r : result unit) (d' : shop_db) : Prop :=
  r = Ok tt -> exists s', moves id (sh_stock d) s' /\ d' = set_order_rows (marked (sh_marker_column d) id c (sh_orders d)) (set_stock s' d).
Lemma synced_after id c {A} (m : shop A) (k : A -> shop unit) :
  inside (stocked id) m -> (forall a, tx_spec (k a) (synced id c) /\ calm (k a)) -> tx_spec (bind m k) (synced id c) /\ calm (bind m k).
Proof.
  intros [Hm Hc] Hk. split; [|by apply calm_bind; [|intros a; apply Hk]].
  eapply tx_weaken; [apply (tx_bind _ _ _ _ Hm (fun a => proj1 (Hk a)))|]. cbn.
  intros d r d' [(a & d1 & (s & Hs & ->) & H)|(e & _ & ->)]; [|done]. intros Hr. destruct (H Hr) as (s' & Hs' & ->).
  exists s'. split; [by transitivity s|done].
Qed.
Lemma marker_synced id c : tx_spec (setStockAppliedMarker id c) (synced id c) /\ calm (setStockAppliedMarker id c).
Proof.
  unfold setStockAppliedMarker. split.
  - eapply tx_weaken.
    + apply (tx_bind _ _ (fun d r d' => r = Ok (Ok (sh_marker_column d)) /\ d' = d)
        (fun ok d r d' => r = Ok tt -> d' = set_order_rows (marked (match ok with Ok b => b | Err _ => false end) id c (sh_orders d)) d)).
      * eapply tx_weaken; [apply tx_attempt, tx_read|]. cbn. intros d r d' (x & H1 & H2 & H3); subst. done.
      * assert (tx_spec (D := shop_db) (ret tt) (fun d r d' => r = Ok tt -> d' = set_order_rows (sh_orders d) d)) as Hret.
        { eapply tx_weaken; [apply tx_ret|]. intros d r d' [_ ->] _. by destruct d. }
        intros [[|]|e]; [|exact Hret..]. eapply tx_weaken; [apply tx_wrapping, tx_exec|]. cbn. intros d r d' H ->. apply H.
    + cbn. intros d r d' [(a & d1 & [Ha ->] & H)|(e & [He _] & _)] Hr; [|done]. injection Ha as ->. exists (sh_stock d). split; [done|]. rewrite (H Hr). by destruct d.
  - apply calm_bind; [apply (proj2 (inside_attempt eq _ (inside_read eq _)))|]. intros [[|]|e]; [|by intros w..].
    refine (proj2 (inside_wrapping (fun _ _ => True) InternalE _ _)); [split; by repeat intro|]. by apply inside_stmt.
Qed.
Lemma reconcile_synced id status items dw now :
  plain_id id -> tx_spec (reconcile id status items dw now) (synced id (IsCommittedOrderStatus status)) /\ calm (reconcile id status items dw now).
Proof.
  intros Hp. unfold reconcile. apply synced_after; [inside|intros ?]. apply synced_after; [|intros required; apply synced_after; [|intros net; apply synced_after; [|intros ?]]].
  - apply inside_if; [|inside]. unfold resolveOrderRequirements. apply inside_bind; [typeclasses eauto|apply inside_preload|inside].
  - unfold orderNetIssued. apply inside_if; [inside|]. apply inside_bind; [typeclasses eauto|apply inside_wrapping, inside_query; typeclasses eauto|inside].
  - by apply inside_deltas.
  - apply marker_synced.
Qed.

(** *** A synchronisation *)
Lemma filter_and {A} (f g : A -> bool) l : List.filter (fun x => f x && g x) l = List.filter g (List.filter f l).
Proof. induction l as [|x l IH]; [done|]. cbn. destruct (f x); cbn; [by rewrite IH|done]. Qed.
Lemma moves_sales id i d s' os : moves id (sh_stock d) s' -> i <> id -> sale_rows i (set_order_rows os (set_stock s' d)) = sale_rows i d.
Proof. intros [_ H] Hi. unfold sale_rows. rewrite !filter_and. cbn. by rewrite H. Qed.
Lemma marked_ids b id c os : map or_id (marked b id c os) = map or_id os.
Proof. destruct b; [|done]. cbn. rewrite map_map. apply map_ext. intros o. unfold mark_applied. by case_match. Qed.
Lemma marked_elem b id c os o' : o' ∈ marked b id c os -> exists o, o ∈ os /\ (o' = o \/ (or_id o = id /\ b = true /\ o' = mark_applied id c o)).
Proof.
  destruct b; [|eauto]. cbn. intros H. apply list_elem_of_In, in_map_iff in H as (o & <- & H). exists o. split; [by apply list_elem_of_In|].
  unfold mark_applied. destruct (String.eqb_spec (or_id o) id); auto.
Qed.
Lemma sync_tx S id b c d s' :
  reconciled S d -> id ∈ map or_id (sh_orders d) -> moves id (sh_stock d) s' ->
  reconciled (but Cogs id (but Marker id S)) (set_order_rows (marked b id c (sh_orders d)) (set_stock s' d)).
Proof.
  intros [] Hid Hm. assert (tracked (set_order_rows (marked b id c (sh_orders d)) (set_stock s' d)) = tracked d) as Htr.
  { unfold tracked. cbn. by rewrite (proj1 Hm). }
  assert (all_ids (set_order_rows (marked b id c (sh_orders d)) (set_stock s' d)) = all_ids d) as Hall by (unfold all_ids; cbn; by rewrite marked_ids).
  split; rewrite ?Hall; try done.
  - eapply Forall_impl; [apply Forall_and; split; [exact rc_unused0|by apply Forall_forall; intros i Hi; exact Hi]|]. intros i [(H1 & H2 & H3) Hi].
    split_and!; [done|done|]. rewrite (moves_sales id); [done|done|]. intros ->. apply NoDup_app in rc_ids0 as (_ & H & _). by eapply H.
  - intros o' p Ho' Hn. apply marked_elem in Ho' as (o & Ho & Ho').
    assert (or_id o' = or_id o) as Heq by (destruct Ho' as [->|(_ & _ & ->)]; [done|]; unfold mark_applied; by case_match).
    assert (~ S p (or_id o)) as Hn' by (rewrite <- Heq; intros HS; apply Hn; do 2 left; exact HS).
    specialize (rc_parts0 o p Ho Hn'). destruct p.
    + destruct Ho' as [->|(_ & _ & ->)]; [exact rc_parts0|]. unfold mark_applied. by case_match.
    + destruct Ho' as [->|(He & _ & ->)]; [|exfalso; apply Hn; left; right; rewrite Heq; by split]. cbn. rewrite Htr. exact rc_parts0.
    + assert (or_id o <> id) as Hne by (rewrite <- Heq; intros He; apply Hn; right; by split).
      cbn. rewrite Htr, Heq. unfold cost_due, order_cost. rewrite (moves_sales id) by done. exact rc_parts0.
Qed.
Lemma but_twice p id S q i : but p id (but p id S) q i -> but p id S q i.
Proof. unfold but. tauto. Qed.
Lemma resync_step S X id pe by_ now :
  steady (of_reference (cogs_ref id)) X -> plain_id id -> (forall d, X d -> id ∈ map or_id (sh_orders d)) -> (forall d, X d -> sh_post_expense d = pe) ->
  does (fun d => reconciled (but Cogs id S) d /\ X d) (resyncOrderCOGS id pe by_ now) (fun _ d => reconciled S d /\ X d).
Proof.
  intros HX Hp Hin Hpe. unfold resyncOrderCOGS. fold (cogs_ref id). destruct pe.
  { eapply does_conseq; [apply (RemoveInventoryEntry_step (but Cogs id S) X id HX Hp Hin)|done|]. cbv beta. intros ? d [[Hr HXd] He]. split; [|done].
    apply (settle Cogs id); [by eapply reconciled_mono; [|apply but_twice]|]. intros o Ho Hid _. rewrite Hid, He.
    unfold cost_due. by rewrite (Hpe d HXd). }
  eapply does_bind with (R := fun cost d => (reconciled (but Cogs id S) d) /\ X d /\ order_cost id d = cost).
  { apply does_wrapping, does_stmt. intros d a d' [Hr HXd] E. rewrite (proj1 Hp) in E. by injection E as <- <-. }
  intros cost. set (X' := fun d => X d /\ order_cost id d = cost).
  assert (steady (of_reference (cogs_ref id)) X') as HX' by (intros f d [H1 H2] Hc; split; [by apply HX|exact H2]).
  eapply does_bind; [apply (RemoveInventoryEntry_step (but Cogs id S) X' id HX' Hp); intros d [H _]; by apply Hin|]. intros ?.
  assert (forall d o, X' d -> or_id o = id -> cost_due (or_id o) d = if fleb (round2 cost) fzero then None else Some (round2 cost)) as Hdue.
  { intros d o [H1 H2] ->. unfold cost_due. by rewrite H2, (Hpe d H1). }
  cbv zeta. destruct (fleb (round2 cost) fzero) eqn:Ec.
  - apply does_ret. intros d [[Hr HXd] He]. split; [|apply HXd]. apply (settle Cogs id); [by eapply reconciled_mono; [|apply but_twice]|].
    intros o Ho Hid _. rewrite (Hdue d o HXd Hid), Hid, He. done.
  - eapply does_bind with (R := fun _ d => (reconciled (but Cogs id (but Cogs id S)) d /\ X' d) /\ entries (cogs_ref id) (f_txns (sh_fin d)) = []).
    { unfold orderIncomeWalletID. eapply does_bind with (R := fun _ d => (reconciled (but Cogs id (but Cogs id S)) d /\ X' d) /\ entries (cogs_ref id) (f_txns (sh_fin d)) = []).
      - apply does_wrapping, does_stmt. intros d x d' H E. destruct (uuid_in id); [|done]. by injection E as _ <-.
      - intros w. by apply does_ret. }
    intros w. eapply does_conseq; [refine (RecordInventoryEntry_step (but Cogs id (but Cogs id S)) X' id by_ _ _ _ _ _ HX' Hp _ Ec); intros d [H _]; by apply Hin|done|].
    cbv beta. intros ? d [[Hr HXd] He]. split; [|apply HXd]. apply (settle Cogs id); [eapply reconciled_mono; [exact Hr|unfold but; tauto]|].
    intros o Ho Hid _. rewrite (Hdue d o HXd Hid), Hid. exact He.
Qed.

Definition settings (d : shop_db) : bool * bool * bool := (tracked d, sh_marker_column d, sh_post_expense d).
(** the orders, the settings and something about the ledger's rows *)
Definition frame (os : list order_row) (st : bool * bool * bool) (Y : list txn_row -> Prop) (d : shop_db) : Prop :=
  (sh_orders d = os /\ settings d = st) /\ Y (ledger d).
Definition stable (g : txn_row -> bool) (Y : list txn_row -> Prop) : Prop := forall l l', changes g l l' -> Y l -> Y l'.
Lemma frame_steady g os st Y : stable g Y -> steady g (frame os st Y).
Proof. intros HY f d [H1 H2] Hc. split; [exact H1|by eapply HY]. Qed.
Lemma reads_setting : reads true loadSyncSetting (fun d s => s.1.1 = tracked d /\ (tracked d = true -> s.1.2 = sh_post_expense d)).
Proof.
  unfold loadSyncSetting. eapply reads_weaken; [eapply reads_bind; [apply wrapping_reads, reads_read|intros s; apply reads_ret]|].
  cbn. intros d a (s & -> & ->). unfold tracked. destruct (inv_setting (sh_stock d)) as [x|]; [by destruct (sh_setup d)|done].
Qed.
Lemma reads_warehouse : reads true defaultWarehouseID any.
Proof. unfold defaultWarehouseID. eapply reads_bind_any; [apply wrapping_reads, reads_read|auto with reads]. Qed.
Lemma SyncOrderStock_step S os st Y id status items by_ now :
  stable (of_reference (cogs_ref id)) Y -> plain_id id -> id ∈ map or_id os ->
  does (fun d => reconciled (but Cogs id S) d /\ frame os st Y d) (SyncOrderStock id status items by_ now)
    (fun _ d => reconciled (but Marker id S) d /\ frame (marked (st.1.1 && st.1.2) id (IsCommittedOrderStatus status) os) st Y d).
Proof.
  intros HY Hp Hin. unfold SyncOrderStock. rewrite (proj1 (proj2 Hp)), (proj2 (String.eqb_neq _ _) (plain_nonempty id Hp)).
  apply does_skip; [unfold prepare; auto with reads|intros ?]. eapply does_reads_bind; [apply reads_setting|intros [[setup pe] bl]].
  cbn [fst snd]. destruct st as [[tr col] post]. cbn [fst snd]. destruct setup; cbn [negb].
  2: { apply does_ret. intros d [[Hr [[Hos Hst] HYd]] [Ht _]]. injection Hst as <- <- <-. rewrite <- Ht. cbn. split; [|split; [split; [done|unfold settings; by rewrite Ht]|exact HYd]].
       eapply reconciled_mono; [|intros p i H; left; exact H]. eapply settle; [exact Hr|]. intros o Ho _ H. congruence. }
  apply does_skip; [apply reads_warehouse|intros dw].
  eapply does_bind with (R := fun _ d => reconciled (but Cogs id (but Marker id S)) d /\
    (frame (marked (tr && col) id (IsCommittedOrderStatus status) os) (tr, col, post) Y d /\ post = pe)).
  - pose proof (reconcile_synced id status items dw now Hp) as [Hs Hc]. eapply does_in_tx; [exact Hs|exact Hc|].
    intros d [] d' [[Hr [[Hos Hst] HYd]] [Ht Hpe]] H. injection Hst as Htr Hcol Hpost. destruct (H eq_refl) as (s' & Hm & ->).
    split; [eapply reconciled_mono; [refine (sync_tx (but Cogs id S) id _ _ d s' Hr _ Hm); by rewrite Hos|unfold but; tauto]|].
    split; [|rewrite <- Hpost; symmetry; apply Hpe; congruence]. split; [split|exact HYd].
    + cbn. rewrite Hos, Hcol. by replace tr with true by congruence.
    + unfold settings, tracked. cbn. rewrite (proj1 Hm). unfold tracked in Htr. by rewrite Htr, Hcol, Hpost.
  - intros ?. eapply does_conseq; [apply (resync_step (but Marker id S) (fun d => frame (marked (tr && col) id (IsCommittedOrderStatus status) os) (tr, col, post) Y d /\ post = pe))|done|].
    + intros f d [H1 H2] Hc. split; [by apply (frame_steady _ _ _ Y HY)|exact H2].
    + done.
    + intros d [[[-> _] _] _]. by rewrite marked_ids.
    + intros d [[[_ H] _] <-]. by injection H.
    + cbn. tauto.
Qed.
End reconciled.
