(* ===== verification/OrderCalls.v ===== *)
(** * Creating, updating and cancelling keep orders, income, stock and cost together

    [Create], [Update] and [Cancel] of Orders.v over the invariant of
    OrderBooks.v: when they succeed, every part of every order agrees again. *)
From S2P Require Import Prelude GoStrings AdminSession PgTx Triples Zoom Float64 Billing FinTables FinTxns FinPosting FinLedger FinBooks FinRows.
From S2P Require Import Costing StockLedger Shop OrderStock OrderItems Orders OrderBooks.

Open Scope string_scope.
Open Scope Z_scope.

Section handlers.
Context `{HI : PgInput} `{HT : TimeZones} `{HN : Numeric} `{HO : OrderInput} `{HL : !PgInputLaws}.
Abbreviation ledger d := (f_txns (sh_fin d)).

(** ** Programs that only read *)
Lemma reads_query {A P} (p : option P) (f : P -> shop_db -> A) : reads true (query_with p f) any.
Proof. apply reads_stmt. intros d. by destruct p. Qed.
Lemma reads_by_id {A} id (f : string -> shop_db -> option A) : reads true (by_id id f) (fun d a => exists u, uuid_in id = Some u /\ f u d = Some a).
Proof. apply reads_stmt. intros d. destruct (uuid_in id) as [u|]; [|done]. destruct (f u d) eqn:E; [|done]. eauto. Qed.
Lemma reads_one_row {A} (f : shop_db -> option A) : reads true (one_row f) any.
Proof. apply reads_stmt. intros d. by destruct (f d). Qed.
Lemma reads_wrapped {D A} wrap (m : prog (pg D) A) : reads true m any -> reads true (wrapping wrap m) any.
Proof. apply wrapping_reads. Qed.
Lemma reads_weak {D A} (m : prog (pg D) A) F : reads true m F -> reads true m any.
Proof. intros Hm. by eapply reads_weaken. Qed.
Lemma reads_on_fin {A} (m : fin A) : reads true m any -> reads true (on_fin m) any.
Proof.
  intros Hm. eapply reads_weaken; [apply (zoom_reads sh_fin set_fin true m (fun _ _ => True))|done].
  intros d. eapply t_conseq; [apply (Hm (eq d))|done|]. by intros r d' [<- _].
Qed.
#[local] Hint Resolve reads_query reads_one_row reads_wrapped reads_on_fin reads_current reads_warehouse : reads.
#[local] Hint Extern 3 (reads _ (by_id _ _) any) => (eapply reads_weak, reads_by_id) : reads.
#[local] Hint Extern 3 (reads _ loadSyncSetting any) => (eapply reads_weak, reads_setting) : reads.
#[local] Hint Extern 3 (reads _ (internally _) any) => (apply reads_wrapped) : reads.
#[local] Hint Extern 3 (reads _ prepare any) => (eapply reads_weak, reads_read) : reads.

Lemma reads_validate w : reads true (ValidateIncomeWallet w) any.
Proof.
  unfold ValidateIncomeWallet. apply reads_if; [auto with reads|]. eapply reads_bind_any; [auto with reads|intros ?].
  eapply reads_bind_any; [apply reads_income_wallet|auto with reads].
Qed.
Lemma reads_default_type : reads true ResolveDefaultPriceTypeID any.
Proof.
  unfold ResolveDefaultPriceTypeID. eapply reads_bind_any; [apply reads_attempt, reads_one_row|intros [a|e]; [|apply reads_if]]; auto with reads.
Qed.
#[local] Hint Resolve reads_validate reads_default_type : reads.
Lemma reads_price_type c : reads true (ResolvePriceTypeIDForContact c) any.
Proof.
  unfold ResolvePriceTypeIDForContact. apply reads_if; [auto with reads|]. eapply reads_bind_any; [apply reads_attempt, reads_by_id|].
  intros [[pt|]|e]; [apply reads_if; [|auto with reads]|auto with reads|apply reads_if; auto with reads].
  eapply reads_bind_any; [apply reads_attempt, reads_by_id|]. intros [[|]|e]; auto with reads.
Qed.
Lemma reads_unit_price c p : reads true (ResolveCatalogUnitPrice c p) any.
Proof.
  unfold ResolveCatalogUnitPrice. eapply reads_bind_any; [apply reads_attempt, (reads_stmt _ _ any)|].
  { intros d. destruct (uuid_in c), (uuid_in p); try done. by destruct (_ !! _). }
  intros [a|e]; [auto with reads|]. apply reads_if; [auto with reads|]. eapply reads_bind_any; [apply reads_attempt, reads_by_id|].
  intros [x|e']; [|apply reads_if]; auto with reads.
Qed.
#[local] Hint Resolve reads_price_type reads_unit_price : reads.
Lemma reads_load p which q : reads true (loadCatalogOrderItem p which q) any.
Proof.
  unfold loadCatalogOrderItem. apply (reads_bind_any _ _ _ any); [apply reads_wrapped, (reads_stmt _ _ any)|].
  { intros d. destruct which as [f|]; [|done]. by destruct (head _). }
  intros row. eapply reads_bind_any; [apply reads_unit_price|auto with reads].
Qed.
Lemma reads_items id : reads true (loadOrderItems id) any.
Proof. unfold loadOrderItems. auto with reads. Qed.
#[local] Hint Resolve reads_load reads_items : reads.
Lemma reads_preload ids : reads true (preload ids) any.
Proof.
  unfold preload. destruct (uniqueNonEmpty ids); [auto with reads|]. apply (reads_bind_any _ _ _ any); [auto with reads|intros rows]. cbv zeta.
  destruct (map fst _); [auto with reads|]. apply (reads_bind_any _ _ _ any); auto with reads.
Qed.
Lemma reads_requirements items dw : reads true (resolveOrderRequirements items dw) any.
Proof. unfold resolveOrderRequirements. eapply reads_bind_any; [apply reads_preload|auto with reads]. Qed.
Lemma reads_net id : reads true (orderNetIssued id) any.
Proof. unfold orderNetIssued. apply reads_if; [auto with reads|]. apply (reads_bind_any _ _ _ any); auto with reads. Qed.
Lemma reads_on_hand keys : reads true (batchOnHand keys) any.
Proof. unfold batchOnHand. destruct (usable_keys keys); [auto with reads|]. apply (reads_bind_any _ _ _ any); auto with reads. Qed.
Lemma reads_cached names id m : reads true m any -> reads true (cached names id m) any.
Proof. intros Hm. unfold cached. destruct (names !! id); [auto with reads|]. eapply reads_bind_any; [exact Hm|auto with reads]. Qed.
Lemma reads_name f fb id : reads true (name_for f fb id) any.
Proof. unfold name_for. apply reads_if; [auto with reads|]. apply (reads_bind_any _ _ _ any); auto with reads. Qed.
Lemma reads_shortages req net oh dw ns ws keys : reads true (shortage_lines req net oh dw ns ws keys) any.
Proof.
  revert ns ws. induction keys as [|k rest IH]; intros ns ws; cbn [shortage_lines]; [auto with reads|]. cbv zeta. apply reads_if; [apply IH|].
  eapply reads_bind_any; [apply reads_cached, reads_name|intros x]. eapply reads_bind_any; [apply reads_cached, reads_name|intros y].
  eapply reads_bind_any; [apply IH|auto with reads].
Qed.
Lemma reads_precheck id items now : reads true (PrecheckOrderStock id items now) any.
Proof.
  unfold PrecheckOrderStock. apply (reads_bind_any _ _ _ any); [auto with reads|intros ?]. apply (reads_bind_any _ _ _ any).
  - unfold analyzeOrderStockShortage. apply (reads_bind_any _ _ _ any); [auto with reads|intros [[s p] b]]. apply reads_if; [auto with reads|].
    apply (reads_bind_any _ _ _ any); [apply reads_warehouse|intros dw]. apply (reads_bind_any _ _ _ any); [apply reads_requirements|intros req].
    apply (reads_bind_any _ _ _ any); [apply reads_net|intros net]. cbv zeta. apply (reads_bind_any _ _ _ any); [apply reads_on_hand|intros oh].
    apply (reads_bind_any _ _ _ any); [apply reads_shortages|auto with reads].
  - intros [|s l]; auto with reads.
Qed.
#[local] Hint Resolve reads_precheck : reads.
Lemma reads_precheck_pending status os now : reads true (precheck_pending status os now) any.
Proof.
  induction os as [|o rest IH]; cbn [precheck_pending]; [auto with reads|]. eapply reads_bind_any; [|intros ?; exact IH].
  apply reads_if; auto with reads.
Qed.
#[local] Hint Resolve reads_precheck_pending : reads.

(** ** Lines of a request: new catalog items, nothing else *)
Lemma catalog_step S d id rest c : reconciled S d -> sh_ids d = id :: rest -> reconciled S (set_shop_ids rest (set_catalog c d)).
Proof.
  intros [] Hi. unfold all_ids in *. rewrite Hi in *. assert (forall i, i ∈ (map or_id (sh_orders d) ++ rest)%list -> i ∈ (map or_id (sh_orders d) ++ id :: rest)%list) as Hsub.
  { intros i. rewrite !elem_of_app, elem_of_cons. tauto. }
  split; try done.
  - cbn. apply NoDup_app in rc_ids as (H1 & H2 & H3). apply NoDup_cons in H3 as [_ H3]. apply NoDup_app. split_and!; [done| |done].
    intros i Hi1 Hi2. eapply H2; [exact Hi1|by right].
  - cbn. rewrite Forall_forall in *. intros i Hin. by apply rc_plain, Hsub.
  - intros i t Hin. cbn. by apply rc_cogs, Hsub.
  - cbn. by apply Forall_cons in rc_unused as [_ ?].
Qed.
Lemma does_keep {D A} (P : D -> Prop) (m : prog (pg D) A) : reads true m any -> does P m (fun _ => P).
Proof. intros Hm. eapply does_conseq; [exact (does_reads P m any Hm)|auto|]. naive_solver. Qed.
Lemma lines_step os st Y priceTypeID raw n now :
  does (fun d => reconciled settled d /\ frame os st Y d) (normalize_lines priceTypeID raw n now)
    (fun _ d => reconciled settled d /\ frame os st Y d).
Proof.
  revert n. induction raw as [|it rest IH]; intros n; cbn [normalize_lines]; [by apply does_ret|].
  apply does_if; intros _; [apply does_throw|].
  eapply does_bind with (R := fun _ d => reconciled settled d /\ frame os st Y d); [|intros item; eapply does_bind; [apply IH|intros ?; by apply does_ret]].
  unfold resolveCatalogItem. apply does_if; intros _.
  { apply does_keep, reads_load. }
  cbv zeta. assert (forall which key, reads true (if String.eqb key "" then ret None else
      let! r := attempt (loadCatalogOrderItem priceTypeID which (OI_Qty it)) in ret (match r with Ok item => Some item | Err _ => None end)) any) as Hl.
  { intros which key. apply reads_if; [auto with reads|]. eapply reads_bind_any; [apply reads_attempt, reads_load|auto with reads]. }
  apply does_skip; [apply Hl|intros [item|]; [by apply does_ret|]]. apply does_skip; [apply Hl|intros [item|]; [by apply does_ret|]].
  apply does_if; intros _; [apply does_throw|]. apply does_if; intros _; [apply does_throw|]. unfold createCatalogOrderItem.
  eapply does_bind with (R := fun _ d => reconciled settled d /\ frame os st Y d); [|intros [c p]; by apply does_ret].
  apply does_wrapping, does_stmt. intros d a d' [Hr Hf]. destruct (decimal_in _) as [p|]; [|done].
  destruct (sh_ids d) as [|id ids] eqn:Hi; [done|]. destruct (existsb _ _); [done|]. intros [= _ <-]. split; [|exact Hf].
  by eapply catalog_step.
Qed.
Lemma normalize_step os st Y contact raw now :
  does (fun d => reconciled settled d /\ frame os st Y d) (normalizeOrderItems contact raw now)
    (fun _ d => reconciled settled d /\ frame os st Y d).
Proof.
  unfold normalizeOrderItems. apply does_skip; [auto with reads|intros ?]. apply does_skip; [apply reads_wrapped; eapply reads_weak, reads_read|intros ?].
  apply does_skip; [auto with reads|intros pt]. eapply does_bind; [apply lines_step|]. intros [|i l]; [apply does_throw|by apply does_ret].
Qed.

(** ** One order's row *)
Definition only_row (os : list order_row) (o : order_row) : Prop := o ∈ os /\ forall x, x ∈ os -> or_id x = or_id o -> x = o.
Lemma only_row_nodup os o : NoDup (map or_id os) -> o ∈ os -> only_row os o.
Proof.
  intros Hn Ho. split; [done|]. intros x Hx He. apply list_elem_of_lookup in Hx as [a Ha]. apply list_elem_of_lookup in Ho as [b Hb].
  assert (a = b) as ->; [|congruence]. eapply (NoDup_lookup _ a b (or_id o) Hn); rewrite list_lookup_fmap; [rewrite Ha; cbn; by rewrite He|by rewrite Hb].
Qed.
Lemma reconciled_nodup S d : reconciled S d -> NoDup (map or_id (sh_orders d)).
Proof. intros Hr. pose proof (rc_ids _ _ Hr) as H. by apply NoDup_app in H as []. Qed.
Lemma settle_row p S d o : reconciled (but p (or_id o) S) d -> only_row (sh_orders d) o -> part_ok p d o -> reconciled S d.
Proof. intros Hr [_ Ho] Hp. eapply settle; [exact Hr|]. intros x Hx He. by rewrite (Ho x Hx He). Qed.
Lemma settle_marker S os st Y d o c :
  reconciled (but Marker (or_id o) S) d -> frame (marked (st.1.1 && st.1.2) (or_id o) c os) st Y d -> only_row os o ->
  (or_deleted o = false -> c = IsCommittedOrderStatus (or_status o)) -> reconciled S d.
Proof.
  intros Hr [[Hos Hst] _] [_ Hu] Hc. eapply settle; [exact Hr|]. intros x Hx Hid Hb. rewrite <- Hst in *. cbn in Hos, Hb.
  apply andb_true_iff in Hb as [Hb Hd]. rewrite Hos, Hb in Hx. cbn in Hx. apply list_elem_of_In, in_map_iff in Hx as (y & <- & Hy).
  assert (or_id y = or_id o) as Hy' by (revert Hid; unfold mark_applied; by case_match).
  assert (y = o) as -> by (apply Hu; [by apply list_elem_of_In|exact Hy']). unfold mark_applied in Hd |- *. rewrite String.eqb_refl in Hd |- *.
  cbn in Hd |- *. apply Hc. by apply negb_true_iff in Hd.
Qed.
(** the income an order should have, from what was posted *)
Lemma earned_due d o :
  earned (or_id o) (numeric_out 4 (or_total o)) d -> or_deleted o = false -> or_status o = "completed" -> part_ok Income d o.
Proof. intros H Hd Hs. unfold part_ok, income_due. rewrite Hd, Hs. unfold earned in H. cbv zeta. by destruct (fleb _ _). Qed.
Lemma none_due d o : incomes (or_id o) (ledger d) = [] -> or_deleted o = true \/ or_status o <> "completed" -> part_ok Income d o.
Proof.
  intros H Hs. unfold part_ok, income_due. assert (negb (or_deleted o) && String.eqb (or_status o) "completed" = false) as ->; [|exact H].
  destruct Hs as [->|Hs]; [done|]. apply String.eqb_neq in Hs. by rewrite Hs, andb_false_r.
Qed.

(** *** Replacing rows: all parts of the rows that changed are open *)
Lemma rows_step S S' d os :
  reconciled S d -> map or_id os = map or_id (sh_orders d) ->
  (forall o p, o ∈ os -> ~ S' p (or_id o) -> part_ok p d o) -> reconciled S' (set_order_rows os d).
Proof.
  intros [] Hi Hp. assert (all_ids (set_order_rows os d) = all_ids d) as Hall by (unfold all_ids; cbn; by rewrite Hi).
  split; rewrite ?Hall; done.
Qed.
(** a row in the place of another of the same order, its cost untouched *)
Definition rewritten (S : part -> string -> Prop) (id : string) : part -> string -> Prop := but Income id (but Marker id S).
Lemma find_order_elem u d o : find_order u d = Some o -> o ∈ sh_orders d /\ or_id o = u /\ or_deleted o = false.
Proof.
  intros H. apply find_some in H as [H1 H2]. apply andb_true_iff in H2 as [H2 H3]. apply String.eqb_eq in H2. apply negb_true_iff in H3.
  split_and!; [by apply list_elem_of_In|done|done].
Qed.
Lemma replace_step d u o o' :
  reconciled settled d -> find_order u d = Some o -> or_id o' = or_id o -> or_deleted o' = false ->
  reconciled (rewritten settled (or_id o')) (replace_order o' d) /\ only_row (sh_orders (replace_order o' d)) o'.
Proof.
  intros Hr Hf Hid Hdel. destruct (find_order_elem u d o Hf) as (Ho & Hu & Hod). pose proof (only_row_nodup _ _ (reconciled_nodup _ _ Hr) Ho) as [_ Honly].
  assert (map or_id (map (fun x => if live (or_id o') x then o' else x) (sh_orders d)) = map or_id (sh_orders d)) as Hids.
  { rewrite map_map. apply map_ext. intros x. unfold live. destruct (String.eqb_spec (or_id x) (or_id o')); [|done]. by destruct (negb _). }
  assert (reconciled (rewritten settled (or_id o')) (replace_order o' d)) as Hr'.
  { apply (rows_step settled); [done|done|]. intros x p Hx Hn. apply list_elem_of_In, in_map_iff in Hx as (y & Hy & Hin).
    apply list_elem_of_In in Hin. assert (or_id x = or_id y) as He.
    { rewrite <- Hy. unfold live. destruct (String.eqb_spec (or_id y) (or_id o')); [|done]. by destruct (negb _). }
    pose proof (rc_parts _ _ Hr y p Hin (fun H => H)) as Hok.
    destruct (decide (or_id y = or_id o')) as [E|E].
    - destruct p; [exfalso; apply Hn; right; split; [done|congruence]|exfalso; apply Hn; left; right; split; [done|congruence]|].
      cbn in *. rewrite He. exact Hok.
    - rewrite <- Hy. unfold live. apply String.eqb_neq in E. rewrite E. exact Hok. }
  split; [exact Hr'|]. apply only_row_nodup; [by eapply reconciled_nodup|]. cbn. apply list_elem_of_In, in_map_iff. exists o. split; [|by apply list_elem_of_In].
  unfold live. by rewrite Hid, String.eqb_refl, Hod.
Qed.
(** an order's synchronisation, its row known *)
Lemma sync_settles S os st Y o status items by_ now :
  stable (of_reference (cogs_ref (or_id o))) Y -> plain_id (or_id o) -> only_row os o ->
  (or_deleted o = false -> IsCommittedOrderStatus status = IsCommittedOrderStatus (or_status o)) ->
  does (fun d => reconciled (but Cogs (or_id o) (but Marker (or_id o) S)) d /\ frame os st Y d) (SyncOrderStock (or_id o) status items by_ now)
    (fun _ d => reconciled S d /\ frame (marked (st.1.1 && st.1.2) (or_id o) (IsCommittedOrderStatus status) os) st Y d).
Proof.
  intros HY Hp Ho Hs. eapply does_conseq.
  - apply (SyncOrderStock_step (but Marker (or_id o) S) os st Y (or_id o) status items by_ now HY Hp). apply list_elem_of_In, in_map, list_elem_of_In, Ho.
  - done.
  - intros ? d [Hr Hf]. split; [|exact Hf]. eapply (settle_marker S); [|exact Hf|exact Ho|exact Hs]. eapply reconciled_mono; [exact Hr|]. apply but_twice.
Qed.

(** ** The handlers *)
Definition any_rows : list txn_row -> Prop := fun _ => True.
Lemma any_stable g : stable g any_rows.
Proof. by intros l l'. Qed.
#[local] Hint Resolve any_stable : core.
Abbreviation keeps P m := (does P m (fun _ => reconciled settled)).

Lemma as_user_keeps {A} P r (k : AuthUser -> shop A) : (forall u, keeps P (k u)) -> keeps P (as_user r k).
Proof. intros Hk. destruct r; [apply Hk|apply does_throw]. Qed.
(** the postings' preconditions *)
Lemma in_ids os o : only_row os o -> or_id o ∈ map or_id os.
Proof. intros [Ho _]. apply list_elem_of_In, in_map, list_elem_of_In, Ho. Qed.
Lemma frame_ids os st Y o d : only_row os o -> frame os st Y d -> or_id o ∈ map or_id (sh_orders d).
Proof. intros Ho [[-> _] _]. by apply in_ids. Qed.
(** an order after its income was posted, or needed none *)
Definition paid_up (os : list order_row) st (o : order_row) (d : shop_db) : Prop :=
  reconciled (but Marker (or_id o) (but Cogs (or_id o) settled)) d /\ frame os st any_rows d.

Lemma framed d : frame (sh_orders d) (settings d) any_rows d.
Proof. by repeat split. Qed.
Lemma unframed {A} (m : shop A) (Q : A -> shop_db -> Prop) :
  (forall os st, does (fun d => reconciled settled d /\ frame os st any_rows d) m Q) -> does (reconciled settled) m Q.
Proof.
  intros Hm. apply (does_pre (fun d => exists os st, reconciled settled d /\ frame os st any_rows d)).
  - apply does_exists. intros os. apply does_exists. intros st. apply Hm.
  - intros d Hr. exists (sh_orders d), (settings d). split; [done|apply framed].
Qed.
Lemma insert_step u p status items subtotal total d row d' :
  reconciled settled d -> insert_order (order_of_params u p status items subtotal total) d = (Ok row, d') ->
  (reconciled (but Income (or_id row) (but Marker (or_id row) (but Cogs (or_id row) settled))) d' /\ incomes (or_id row) (ledger d') = []) /\
  only_row (sh_orders d') row /\ plain_id (or_id row) /\ or_deleted row = false /\ or_status row = status.
Proof.
  intros Hr. unfold insert_order. destruct (sh_ids d) as [|id rest] eqn:Hi; [done|].
  destruct (order_of_params _ _ _ _ _ _ id) as [o|] eqn:Ho; [|done]. intros [= <- <-].
  assert (or_id o = id /\ or_deleted o = false /\ or_status o = status) as (Hid & Hdel & Hst).
  { unfold order_of_params in Ho. repeat (apply bind_Some in Ho as (? & _ & Ho)). by injection Ho as <-. }
  rewrite Hid. set (d' := set_shop_ids _ _).
  assert (all_ids d' ≡ₚ all_ids d) as Hall.
  { unfold all_ids, d'. cbn [sh_orders sh_ids set_shop_ids set_order_rows]. rewrite Hi, map_app. cbn [map]. by rewrite Hid, <- app_assoc. }
  pose proof (unused_of settled d id Hr) as Hun. rewrite Hi in Hun. specialize (Hun (list_elem_of_here _ _)).
  assert (reconciled (but Income id (but Marker id (but Cogs id settled))) d') as Hr'.
  { pose proof Hr as []. split; try done.
    - by rewrite Hall.
    - by rewrite Hall.
    - intros i t Hin. rewrite Hall in Hin. by apply rc_cogs.
    - cbn. rewrite Hi in rc_unused. by apply Forall_cons in rc_unused as [_ ?].
    - intros x q Hx Hn. cbn in Hx. apply elem_of_app in Hx as [Hx|Hx]; [exact (rc_parts x q Hx (fun H => H))|].
      apply list_elem_of_singleton in Hx as ->. exfalso. apply Hn. unfold but. rewrite Hid. destruct q; auto. }
  split_and!; [exact Hr'|apply Hun| |apply (plain_of settled d); [done|]|done|done].
  - apply only_row_nodup; [by eapply reconciled_nodup|]. cbn. apply elem_of_app. right. by apply list_elem_of_singleton.
  - unfold all_ids. rewrite Hi. apply elem_of_app. right. left.
Qed.
Lemma Create_keeps u p now : keeps (reconciled settled) (Create u p now).
Proof.
  unfold Create. apply as_user_keeps. intros user. destruct (CO_Items p) as [|i l]; [apply does_throw|].
  eapply does_bind with (R := fun _ => reconciled settled).
  { apply unframed. intros os st. eapply does_conseq; [apply (normalize_step os st any_rows)|done|]. by intros ? d [H _]. }
  intros items. cbv zeta. set (status := if String.eqb _ "" then "draft" else _). do 2 (apply does_if; intros _; [apply does_throw|]).
  apply does_skip; [apply reads_if; auto with reads|intros ?]. apply does_skip; [auto with reads|intros ?]. apply does_skip; [apply reads_if; auto with reads|intros ?].
  eapply does_bind with (R := fun row d => exists os st,
    (((reconciled (but Income (or_id row) (but Marker (or_id row) (but Cogs (or_id row) settled))) d) /\ frame os st any_rows d) /\
      incomes (or_id row) (ledger d) = []) /\ only_row os row /\ plain_id (or_id row) /\ or_deleted row = false /\ or_status row = status).
  { apply does_wrapping, does_stmt. intros d row d' Hr E. destruct (insert_step _ _ _ _ _ _ _ _ _ Hr E) as ([H1 H2] & H3 & H4).
    exists (sh_orders d'), (settings d'). split; [split; [split; [exact H1|by apply framed]|exact H2]|by split]. }
  intros row. apply does_exists. intros os. apply does_exists. intros st. apply does_pure. intros (Honly & Hp & Hdel & Hst).
  assert (forall d, frame os st any_rows d -> only_row (sh_orders d) row) as Hsame by (intros d [[-> _] _]; exact Honly).
  eapply does_bind with (R := fun _ => paid_up os st row).
  - apply does_if; intros Hs.
    + eapply does_conseq; [refine (RecordOrderIncome_step (but Income (or_id row) (but Marker (or_id row) (but Cogs (or_id row) settled))) (frame os st any_rows) (or_id row) _ _ _ _ (frame_steady _ _ _ _ (any_stable _)) Hp _)|done|].
      * intros d. by apply frame_ids.
      * cbv beta. intros ? d (Hr & He & Hf). split; [|exact Hf]. apply (settle_row Income _ d row); [eapply reconciled_mono; [exact Hr|apply but_twice]|by apply Hsame|].
        apply earned_due; [exact He|exact Hdel|]. rewrite Hst. by apply String.eqb_eq.
    + apply does_ret. intros d [[Hr Hf] Hi]. split; [|exact Hf]. apply (settle_row Income _ d row); [exact Hr|by apply Hsame|]. apply none_due; [exact Hi|].
      right. rewrite Hst. by apply String.eqb_neq.
  - intros ?. eapply does_bind; [|intros ?; apply does_ret; intros d H; exact H]. cbn [O_ID O_Status scanOrder].
    eapply does_conseq; [apply (sync_settles settled os st any_rows row); [auto|exact Hp|exact Honly|done]| |by intros ? d [H _]].
    intros d [Hr Hf]. split; [|exact Hf]. eapply reconciled_mono; [exact Hr|unfold but; tauto].
Qed.

(** *** Updating one order *)
Definition marker_was (st : bool * bool * bool) (o : order_row) : Prop :=
  st.1.1 && st.1.2 = true -> or_stock_applied o = IsCommittedOrderStatus (or_status o).
(** the row [row] took the place of [o], one of [os0] *)
Record replaced (id : string) (edit : order_row -> option order_row) (os0 os : list order_row) (st : bool * bool * bool) (o row : order_row) : Prop := {
  rp_found : exists u, uuid_in id = Some u /\ List.find (live u) os0 = Some o;
  rp_edit : edit o = Some row;
  rp_id : or_id row = or_id o;
  rp_live : or_deleted o = false /\ or_deleted row = false;
  rp_only : only_row os row;
  rp_plain : plain_id (or_id row);
  rp_marker : marker_was st o
}.
Definition same_order (edit : order_row -> option order_row) : Prop :=
  forall o o', edit o = Some o' -> or_id o' = or_id o /\ or_deleted o' = or_deleted o.
Definition after_update id edit os0 (row : order_row) (d : shop_db) : Prop :=
  exists os st o, ((reconciled (rewritten settled (or_id row)) d /\ frame os st any_rows d) /\ part_ok Income d o) /\ replaced id edit os0 os st o row.
Lemma update_step id edit os0 st0 :
  same_order edit ->
  does (fun d => reconciled settled d /\ frame os0 st0 any_rows d) (stmt (update_order id edit)) (after_update id edit os0).
Proof.
  intros He. apply does_stmt. intros d row d' [Hr [[Hos Hst] _]]. unfold update_order. destruct (uuid_in id) as [u|] eqn:Hu; [|done].
  destruct (find_order u d) as [o|] eqn:Hf; [|done]. destruct (edit o) as [o'|] eqn:Ho; [|done]. intros [= <- <-].
  destruct (He _ _ Ho) as [Hid Hdel]. destruct (find_order_elem u d o Hf) as (Hin & _ & Hlive). rewrite Hlive in Hdel.
  destruct (replace_step d u o o' Hr Hf Hid Hdel) as [Hr' Honly]. exists (sh_orders (replace_order o' d)), (settings (replace_order o' d)), o.
  split.
  - split; [split; [exact Hr'|apply framed]|]. exact (rc_parts _ _ Hr o Income Hin (fun H => H)).
  - split; [exists u; by rewrite <- Hos|done|done|done|exact Honly|eapply plain_of; [exact Hr'|apply order_id_in, Honly]|].
    intros Ht. apply (rc_parts _ _ Hr o Marker Hin (fun H => H)). rewrite Hlive, andb_true_r. exact Ht.
Qed.
Lemma settle_income_step user os st o row newStatus resync now :
  or_id row = or_id o -> plain_id (or_id row) -> only_row os row -> or_deleted row = false ->
  (newStatus <> "" -> or_status row = newStatus) -> (resync = true -> or_status row = "completed") ->
  (newStatus <> "completed" -> newStatus <> "draft" -> newStatus <> "cancelled" -> resync = false -> income_due row = income_due o) ->
  does (fun d => (reconciled (rewritten settled (or_id row)) d /\ frame os st any_rows d) /\ part_ok Income d o)
    (settle_income user (scanOrder row) newStatus resync now)
    (fun _ d => reconciled (but Marker (or_id row) settled) d /\ frame os st any_rows d).
Proof.
  intros Hid Hp Honly Hdel Hns Hre Hsame.
  assert (forall d, frame os st any_rows d -> only_row (sh_orders d) row) as Hrow by (intros d [[-> _] _]; exact Honly).
  assert (or_status row = "completed" -> does (fun d => (reconciled (rewritten settled (or_id row)) d /\ frame os st any_rows d) /\ part_ok Income d o)
    (on_fin (ResyncOrderCompletedIncome (AccountID user) (or_id row) (numeric_out 4 (or_total row)) (default "" (or_wallet row)) now))
    (fun _ d => reconciled (but Marker (or_id row) settled) d /\ frame os st any_rows d)) as Hresync.
  { intros Hst. eapply does_conseq; [refine (ResyncOrderIncome_step (rewritten settled (or_id row)) (frame os st any_rows) (or_id row) _ _ _ _ (frame_steady _ _ _ _ (any_stable _)) Hp _)|tauto|].
    - intros d. by apply frame_ids.
    - cbv beta. intros ? d (Hr & He & Hf). split; [|exact Hf]. apply (settle_row Income _ d row); [|by apply Hrow|by apply earned_due].
      eapply reconciled_mono; [exact Hr|apply but_twice]. }
  unfold settle_income. cbn [O_ID O_Total O_IncomeWalletID scanOrder]. apply does_if; intros H1; [|apply does_if; intros H2; [|apply does_if; intros H3]].
  - apply String.eqb_eq in H1. apply Hresync. subst newStatus. by apply Hns.
  - eapply does_conseq; [apply (RemoveOrderIncome_step (rewritten settled (or_id row)) (frame os st any_rows) (or_id row) (frame_steady _ _ _ _ (any_stable _)) Hp)|tauto|].
    cbv beta. intros ? d (Hr & Hi & Hf). split; [|exact Hf]. apply (settle_row Income _ d row); [|by apply Hrow|apply none_due; [exact Hi|right]].
    { eapply reconciled_mono; [exact Hr|apply but_twice]. }
    apply orb_true_iff in H2 as [H2|H2]; apply String.eqb_eq in H2; subst newStatus; by rewrite Hns.
  - by apply Hresync, Hre.
  - apply does_ret. intros d [[Hr Hf] Hi]. split; [|exact Hf]. apply (settle_row Income _ d row); [exact Hr|by apply Hrow|].
    apply orb_false_iff in H2 as [H2 H2']. apply String.eqb_neq in H1, H2, H2'. unfold part_ok in *. rewrite Hid. by rewrite (Hsame H1 H2 H2' H3).
Qed.
(** the marker when no synchronisation follows *)
Lemma unsynced os st o row d :
  reconciled (but Marker (or_id row) settled) d -> frame os st any_rows d -> only_row os row -> marker_was st o ->
  or_stock_applied row = or_stock_applied o -> or_status row = or_status o -> reconciled settled d.
Proof.
  intros Hr [[Hos Hst] _] Ho Hm Hs Hstat. eapply settle_row; [exact Hr|by rewrite Hos|]. intros Hb. rewrite Hs, Hstat. apply Hm. rewrite <- Hst. cbn.
  by apply andb_true_iff in Hb as [-> _].
Qed.

Definition reopening : list string := ["processing"; "shipped"; "confirmed"; "paid"].
(** [id] names a completed order that [status] would take back to the open ones *)
Definition reopens (os : list order_row) (id status : string) : Prop :=
  exists u o, uuid_in id = Some u /\ List.find (live u) os = Some o /\ or_status o = "completed" /\ status ∈ reopening.
Lemma open_status s :
  s <> "" -> s = "" \/ in_list s validOrderStatuses = true -> s <> "completed" -> s <> "draft" -> s <> "cancelled" -> s ∈ reopening.
Proof.
  intros H0 [H|H] H1 H2 H3; [done|]. unfold in_list, validOrderStatuses in H. cbn in H. unfold reopening. rewrite !elem_of_cons.
  repeat (apply orb_true_iff in H as [H|H]; [apply String.eqb_eq in H; subst s; tauto|]). done.
Qed.
Lemma priced_step os st id p now :
  does (fun d => reconciled settled d /\ frame os st any_rows d) (priced_lines id p now) (fun _ d => reconciled settled d /\ frame os st any_rows d).
Proof.
  unfold priced_lines. destruct (UO_Items p) as [|i l]; [by apply does_ret|].
  apply does_skip; [|intros c; eapply does_bind; [apply normalize_step|intros items; by apply does_ret]].
  destruct (UO_ContactID p); [auto with reads|]. eapply reads_bind_any; [apply reads_attempt, reads_by_id|auto with reads].
Qed.
Lemma edit_facts p ns priced o row :
  edit_order p ns priced o = Some row ->
  or_id row = or_id o /\ or_deleted row = or_deleted o /\ or_stock_applied row = or_stock_applied o /\
  or_status row = (if String.eqb ns "" then or_status o else ns) /\ (priced = None -> UO_ShippingCost p = None -> or_total row = or_total o).
Proof.
  unfold edit_order. intros H. repeat (apply bind_Some in H as (? & ? & H)). injection H as <-. cbn. split_and!; try done.
  intros -> Hs. rewrite Hs in *. congruence.
Qed.
Lemma Update_keeps u id p now :
  keeps (fun d => reconciled settled d /\ forall s, UO_Status p = Some s -> ~ reopens (sh_orders d) id (normalized_status s)) (Update u id p now).
Proof.
  apply (does_pre (fun d => exists os st, (reconciled settled d /\ frame os st any_rows d) /\ forall s, UO_Status p = Some s -> ~ reopens os id (normalized_status s))).
  2: { intros d [Hr Ha]. exists (sh_orders d), (settings d). split; [split; [done|apply framed]|exact Ha]. }
  apply does_exists. intros os0. apply does_exists. intros st0. apply does_pure. intros Hallow.
  unfold Update. apply as_user_keeps. intros user. eapply does_bind; [apply (priced_step os0 st0)|intros priced].
  eapply does_bind with (R := fun ns d => (reconciled settled d /\ frame os0 st0 any_rows d) /\ ~ reopens os0 id ns /\ (ns = "" \/ in_list ns validOrderStatuses = true)).
  { destruct (UO_Status p) as [s|].
    - cbv zeta. apply does_if; intros Hv; [apply does_ret; intros d H; split; [exact H|split; [by apply Hallow|by right]]|apply does_throw].
    - apply does_ret. intros d H. split; [exact H|split; [|by left]]. intros (x & o & _ & _ & _ & Hin). set_solver. }
  intros ns. apply does_pure. intros [Hns Hv]. apply does_skip; [destruct (UO_IncomeWalletID p); auto with reads|intros ?].
  apply does_if; intros _; [apply does_throw|]. apply does_skip; [apply reads_if; auto with reads|intros ?].
  apply does_skip; [apply reads_if; [apply (reads_bind_any _ _ _ any); [destruct priced; auto with reads|auto with reads]|auto with reads]|intros ?].
  eapply does_bind; [apply does_wrapping, update_step; intros o o' E; by apply edit_facts in E as (? & ? & _)|].
  intros row. apply does_exists. intros os. apply does_exists. intros st. apply does_exists. intros o. apply does_pure. intros [[x [Hx Hfound]] Hedit Hid [Hlo Hlr] Honly Hp Hm].
  apply edit_facts in Hedit as (_ & _ & Hap & Hstat & Htot). cbv zeta.
  eapply does_bind; [apply (settle_income_step user os st o row); [done|done|done|done|..]|].
  - intros Hne. by rewrite Hstat, (proj2 (String.eqb_neq _ _) Hne).
  - unfold shouldResyncCompletedOrderIncome. cbn [O_Status scanOrder]. destruct (negb _); [done|]. destruct (String.eqb_spec (or_status row) "completed"); done.
  - intros H1 H2 H3 Hre. unfold income_due. rewrite Hlo, Hlr. cbn [negb andb]. destruct (String.eqb_spec ns "") as [->|Hne].
    + rewrite Hstat. destruct (String.eqb_spec (or_status o) "completed") as [Hc|]; [|done].
      unfold shouldResyncCompletedOrderIncome in Hre. cbn [O_Status scanOrder] in Hre. rewrite Hstat, Hc in Hre. cbn in Hre.
      apply orb_false_iff in Hre as [Hre _]. apply orb_false_iff in Hre as [Hre1 Hre2]. rewrite Htot; [done|..].
      * by destruct priced.
      * by destruct (UO_ShippingCost p).
    + rewrite Hstat. rewrite (proj2 (String.eqb_neq _ _) H1). destruct (String.eqb_spec (or_status o) "completed") as [Hc|]; [|done].
      exfalso. apply Hns. exists x, o. split_and!; [done|done|done|]. by apply open_status.
  - intros ?. cbn [O_ID O_Status scanOrder]. eapply does_bind with (R := fun _ => reconciled settled); [|intros ?; by apply does_ret]. apply does_if.
    + intros _. eapply does_conseq; [apply (sync_settles settled os st any_rows row); [auto|exact Hp|exact Honly|done]| |by intros ? d [H _]].
      intros d [Hr Hf]. split; [|exact Hf]. eapply reconciled_mono; [exact Hr|unfold but; tauto].
    + intros Hb. apply orb_false_iff in Hb as [Hb _]. apply negb_false_iff, String.eqb_eq in Hb. subst ns. apply does_ret. intros d [Hr Hf].
      by eapply (unsynced os st o row).
Qed.

(** *** Cancelling an order *)
Lemma cancel_edit : same_order (fun o => Some (with_status "cancelled" o)).
Proof. by intros o o' [= <-]. Qed.
(** what follows the change of a row to a status without income *)
Lemma remove_settles S os st Y row :
  stable (order_income (or_id row)) Y -> plain_id (or_id row) -> only_row os row -> or_deleted row = true \/ or_status row <> "completed" ->
  does (fun d => reconciled (but Income (or_id row) S) d /\ frame os st Y d) (on_fin (RemoveOrderIncomeTransaction (or_id row)))
    (fun _ d => reconciled S d /\ frame os st Y d).
Proof.
  intros HY Hp Honly Hc. eapply does_conseq; [apply (RemoveOrderIncome_step (but Income (or_id row) S) (frame os st Y) _ (frame_steady _ os st _ HY) Hp)|done|].
  cbv beta. intros ? d (Hr & Hi & Hf). split; [|exact Hf]. apply (settle_row Income _ d row); [eapply reconciled_mono; [exact Hr|apply but_twice]| |by apply none_due].
  by destruct Hf as [[-> _] _].
Qed.
Lemma Cancel_keeps u id now : keeps (reconciled settled) (Cancel u id now).
Proof.
  apply unframed. intros os0 st0. unfold Cancel. apply as_user_keeps. intros user. apply does_skip; [apply reads_wrapped; auto with reads|intros ?].
  eapply does_bind; [apply does_wrapping, (update_step _ _ os0 st0), cancel_edit|intros row].
  apply does_exists. intros os. apply does_exists. intros st. apply does_exists. intros o. apply does_pure. intros [_ [= Hrow] _ [_ Hlr] Honly Hp _].
  assert (or_status row = "cancelled") as Hst by by rewrite <- Hrow.
  eapply does_bind; [eapply does_pre; [apply (remove_settles (but Marker (or_id row) settled) os st any_rows row); [auto|done|done|right; by rewrite Hst]|tauto]|intros ?].
  eapply does_bind with (R := fun _ => reconciled settled); [|intros ?; by apply does_ret]. cbn [O_ID scanOrder].
  eapply does_conseq; [apply (sync_settles settled os st any_rows row); [auto|exact Hp|exact Honly|by rewrite Hst]| |by intros ? d [H _]].
  intros d [Hr Hf]. split; [|exact Hf]. eapply reconciled_mono; [exact Hr|unfold but; tauto].
Qed.
End handlers.
#[export] Hint Resolve reads_query reads_one_row reads_wrapped reads_on_fin reads_current reads_warehouse reads_validate reads_default_type
  reads_price_type reads_unit_price reads_load reads_items reads_precheck reads_precheck_pending : reads.
#[export] Hint Extern 3 (reads _ (by_id _ _) any) => (eapply reads_weak, reads_by_id) : reads.
#[export] Hint Extern 3 (reads _ loadSyncSetting any) => (eapply reads_weak, reads_setting) : reads.
#[export] Hint Extern 3 (reads _ (internally _) any) => (apply reads_wrapped) : reads.
#[export] Hint Extern 3 (reads _ prepare any) => (eapply reads_weak, reads_read) : reads.
#[export] Hint Resolve any_stable : core.
