(* ===== verification/OrderBatch.v ===== *)
(** * Many orders at once, and deleting

    [BatchUpdateStatus], [Delete] and [BatchDelete] of Orders.v over the
    invariant of OrderBooks.v: one statement changes the rows, then the orders
    are settled one after the other, or their stock and income are given back
    before the rows go. *)
From S2P Require Import Prelude GoStrings AdminSession PgTx Triples Zoom Float64 Billing FinTables FinTxns FinPosting FinLedger FinBooks FinRows.
From S2P Require Import Costing StockLedger Shop OrderStock OrderItems Orders OrderBooks OrderCalls.

Open Scope string_scope.
Open Scope Z_scope.

Section batches.
Context `{HI : PgInput} `{HT : TimeZones} `{HN : Numeric} `{HO : OrderInput} `{HL : !PgInputLaws}.
Abbreviation ledger d := (f_txns (sh_fin d)).
Abbreviation keeps P m := (does P m (fun _ => reconciled settled)).

(** *** Many orders at once *)
Definition pending (rest : list order_row) : part -> string -> Prop := fun p i => p <> Cogs /\ i ∈ map or_id rest.
Definition loses_income (status : string) : bool := String.eqb status "draft" || String.eqb status "cancelled".
(** the rows still to settle have no income yet, if it is not about to be removed *)
Definition unearned (status : string) (rest : list order_row) (l : list txn_row) : Prop :=
  loses_income status = true \/ Forall (fun o => incomes (or_id o) l = []) rest.
Lemma unearned_stable g status rest :
  (forall o t, o ∈ rest -> order_income (or_id o) t = true -> g t = false) -> stable g (unearned status rest).
Proof.
  intros Hg l l' Hc [H|H]; [by left|right]. rewrite Forall_forall in *. intros o Ho. unfold incomes. rewrite (ch_rest _ _ _ Hc); [by apply H|].
  intros t. by apply Hg.
Qed.
Lemma marked_only b id c os o : only_row os o -> or_id o <> id -> only_row (marked b id c os) o.
Proof.
  intros [Hin Hu] Hne. destruct b; [|by split]. cbn. assert (mark_applied id c o = o) as Hm.
  { unfold mark_applied. by apply String.eqb_neq in Hne as ->. }
  split; [apply list_elem_of_In, in_map_iff; exists o; split; [done|by apply list_elem_of_In]|].
  intros x Hx He. apply list_elem_of_In, in_map_iff in Hx as (y & <- & Hy). assert (y = o) as ->; [|done].
  apply Hu; [by apply list_elem_of_In|]. revert He. unfold mark_applied. by case_match.
Qed.
Definition to_settle (status : string) (os : list order_row) (o : order_row) : Prop :=
  only_row os o /\ plain_id (or_id o) /\ or_deleted o = false /\ or_status o = status.
Lemma settle_all_keeps user status now rest : forall os st,
  NoDup (map or_id rest) -> Forall (to_settle status os) rest ->
  does (fun d => reconciled (pending rest) d /\ frame os st (unearned status rest) d) (settle_all user status rest now) (fun _ => reconciled settled).
Proof.
  induction rest as [|o rest IH]; intros os st Hn Hall; cbn [settle_all].
  { apply does_ret. intros d [Hr _]. eapply reconciled_mono; [exact Hr|]. intros p i [_ H]. by apply elem_of_nil in H. }
  cbn [map] in Hn. apply NoDup_cons in Hn as [Hni Hn]. apply Forall_cons in Hall as [(Honly & Hp & Hdel & Hst) Hall].
  assert (forall x, x ∈ rest -> or_id o <> or_id x) as Hne by (intros x Hx E; apply Hni; rewrite E; by apply list_elem_of_In, in_map, list_elem_of_In).
  assert (stable (order_income (or_id o)) (unearned status rest)) as HY.
  { apply unearned_stable. intros x t Hx Ht. eapply not_income; [by apply order_income_ref|]. apply not_eq_sym, Hne, Hx. }
  assert (stable (of_reference (cogs_ref (or_id o))) (unearned status rest)) as HY'.
  { apply unearned_stable. intros x t Hx Ht. eapply not_reference; [by apply order_income_ref|]. apply plain_not_cogs.
    rewrite Forall_forall in Hall. by apply Hall. }
  set (S := but Marker (or_id o) (pending rest)). cbv zeta. cbn [O_ID O_Total O_IncomeWalletID O_Status O_Items scanOrder].
  assert (forall d, reconciled (pending (o :: rest)) d -> reconciled (but Income (or_id o) S) d) as Hopen.
  { intros d Hr. eapply reconciled_mono; [exact Hr|]. intros p i [Hp' Hi]. cbn in Hi. apply elem_of_cons in Hi as [->|Hi]; [destruct p|]; unfold S, but, pending; tauto. }
  assert (forall d, frame os st (unearned status (o :: rest)) d -> frame os st (unearned status rest) d) as Hrest.
  { intros d [H [Hu|Hu]]; (split; [exact H|]); [by left|right]. by apply Forall_cons in Hu as [_ ?]. }
  eapply does_bind with (R := fun _ d => reconciled S d /\ frame os st (unearned status rest) d).
  - apply does_if; intros H1; [|apply does_if; intros H2].
    + apply String.eqb_eq in H1. eapply does_conseq; [refine (RecordOrderIncome_step (but Income (or_id o) S) (frame os st (unearned status rest)) (or_id o) _ _ _ _ (frame_steady _ os st _ HY) Hp _)|..].
      * intros d. by apply frame_ids.
      * intros d [Hr Hf]. split; [split; [by apply Hopen|by apply Hrest]|]. destruct Hf as [_ [Hu|Hu]]; [by rewrite H1 in Hu|]. by apply Forall_cons in Hu as [? _].
      * cbv beta. intros ? d (Hr & He & Hf). split; [|exact Hf]. apply (settle_row Income _ d o); [eapply reconciled_mono; [exact Hr|apply but_twice]| |].
        { by destruct Hf as [[-> _] _]. } { apply earned_due; [exact He|done|congruence]. }
    + eapply does_pre; [apply (remove_settles S os st (unearned status rest) o HY Hp Honly)|intros d [Hr Hf]; split; [by apply Hopen|by apply Hrest]].
      right. rewrite Hst. by apply String.eqb_neq.
    + apply does_ret. intros d [Hr Hf]. split; [|by apply Hrest]. apply (settle_row Income _ d o); [by apply Hopen|by destruct Hf as [[-> _] _]|].
      apply none_due; [|right; rewrite Hst; by apply String.eqb_neq]. destruct Hf as [_ [Hu|Hu]]; [unfold loses_income in Hu; congruence|]. by apply Forall_cons in Hu as [? _].
  - intros ?. eapply does_bind; [eapply does_pre; [apply (sync_settles (pending rest) os st (unearned status rest) o); [done|done|done|by rewrite Hst]|]|intros ?; apply IH; [done|]].
    + intros d [Hr Hf]. split; [|exact Hf]. eapply reconciled_mono; [exact Hr|unfold S, but; tauto].
    + rewrite Forall_forall in *. intros x Hx. destruct (Hall x Hx) as (? & ? & ? & ?). split_and!; try done. apply marked_only; [done|].
      by apply not_eq_sym, Hne.
Qed.

(** the rows changed by one statement *)
Lemma part_of d o p : reconciled settled d -> o ∈ sh_orders d -> part_ok p d o.
Proof. intros Hr Ho. apply (rc_parts _ _ Hr o p Ho). by intros ?. Qed.
Lemma find_live os o : only_row os o -> or_deleted o = false -> List.find (live (or_id o)) os = Some o.
Proof.
  intros [Hin Hu] Hd. destruct (List.find (live (or_id o)) os) as [x|] eqn:E.
  - apply find_some in E as [Hx Hl]. apply andb_true_iff in Hl as [Hl _]. apply String.eqb_eq in Hl. f_equal. apply Hu; [by apply list_elem_of_In|done].
  - apply list_elem_of_In in Hin. pose proof (find_none _ _ E o Hin) as H. unfold live in H. by rewrite String.eqb_refl, Hd in H.
Qed.
Lemma batch_ids which f (os : list order_row) :
  (forall o : order_row, or_id (f o) = or_id o) -> map or_id (map (fun o => if (which o : bool) then f o else o) os) = map or_id os.
Proof. intros Hf. rewrite map_map. apply map_ext. intros o. by destruct (which o). Qed.
Lemma filter_ids (which : order_row -> bool) os : NoDup (map or_id os) -> NoDup (map or_id (List.filter which os)).
Proof.
  induction os as [|o os IH]; [done|]. cbn. intros H. apply NoDup_cons in H as [H1 H2]. destruct (which o); [|auto]. cbn. apply NoDup_cons. split; [|auto].
  intros H. apply H1. apply list_elem_of_In, in_map_iff in H as (x & <- & Hx). apply filter_In in Hx as [Hx _]. by apply list_elem_of_In, in_map.
Qed.
Lemma batch_step status skip us d os d' :
  reconciled settled d -> batch_set_status status skip us d = (os, d') ->
  skip = String.eqb status "completed" ->
  (forall o, o ∈ sh_orders d -> among us o = true -> or_status o = "completed" -> skip = false -> status ∉ reopening) ->
  in_list status validOrderStatuses = true ->
  (reconciled (pending os) d' /\ frame (sh_orders d') (settings d') (unearned status os) d') /\
  NoDup (map or_id os) /\ Forall (to_settle status (sh_orders d')) os.
Proof.
  intros Hr [= <- <-] Hskip Hre Hv. set (which := targets skip us). set (f := with_status status).
  assert (forall o, or_id (f o) = or_id o) as Hf by done.
  assert (reconciled (pending (map f (List.filter which (sh_orders d)))) (update_where which f d)) as Hr'.
  { apply (rows_step settled); [done|by apply batch_ids|]. intros o p Ho Hn. apply list_elem_of_In, in_map_iff in Ho as (y & <- & Hy).
    destruct (which y) eqn:E; [|exact (part_of d y p Hr (proj2 (list_elem_of_In _ _) Hy))].
    assert (p = Cogs) as ->; [|exact (part_of d y Cogs Hr (proj2 (list_elem_of_In _ _) Hy))].
    assert (or_id (f y) ∈ map or_id (map f (List.filter which (sh_orders d)))) as Hid by (apply list_elem_of_In, in_map, in_map, filter_In; by split).
    destruct p; [exfalso; by apply Hn..|done]. }
  assert (NoDup (map or_id (map f (List.filter which (sh_orders d))))) as Hn.
  { rewrite map_map. apply filter_ids. by eapply reconciled_nodup. }
  split; [split; [exact Hr'|split; [done|]]|split; [exact Hn|]].
  - cbn [sh_fin update_where set_order_rows]. destruct (loses_income status) eqn:El; [by left|right]. apply Forall_forall. intros o Ho.
    apply list_elem_of_In, in_map_iff in Ho as (y & <- & Hy). apply filter_In in Hy as [Hy Hw]. apply list_elem_of_In in Hy.
    pose proof (part_of d y Income Hr Hy) as Hi. unfold part_ok, income_due in Hi. unfold which, targets in Hw.
    apply andb_true_iff in Hw as [Ham Hsk]. destruct (String.eqb_spec (or_status y) "completed") as [Hc|Hc]; [|by rewrite andb_false_r in Hi].
    rewrite andb_true_r in Hsk. apply negb_true_iff in Hsk. exfalso. apply (Hre y Hy Ham Hc Hsk).
    rewrite Hskip in Hsk. apply String.eqb_neq in Hsk. unfold loses_income in El. apply orb_false_iff in El as [E1 E2]. apply String.eqb_neq in E1, E2.
    apply open_status; auto. by intros ->.
  - apply Forall_forall. intros o Ho. pose proof Ho as Ho'. apply list_elem_of_In, in_map_iff in Ho as (y & <- & Hy). apply filter_In in Hy as [Hy Hw].
    assert (f y ∈ sh_orders (update_where which f d)) as Hin by (apply list_elem_of_In, in_map_iff; exists y; rewrite Hw; split; [done|exact Hy]).
    split_and!; [apply only_row_nodup; [by eapply reconciled_nodup|exact Hin]|eapply plain_of; [exact Hr'|by apply order_id_in]| |done].
    cbn. unfold which, targets, among in Hw. apply andb_true_iff in Hw as [Hw _]. apply andb_true_iff in Hw as [_ Hw]. by apply negb_true_iff.
Qed.
Lemma among_found us o : among us o = true -> or_id o ∈ us /\ or_deleted o = false.
Proof.
  intros H. apply andb_true_iff in H as [H Hd]. split; [|by apply negb_true_iff]. unfold in_list in H. apply existsb_exists in H as (x & Hx & He).
  apply String.eqb_eq in He as <-. by apply list_elem_of_In.
Qed.
Lemma mapM_source ids us u : mapM uuid_in ids = Some us -> u ∈ us -> exists id, id ∈ ids /\ uuid_in id = Some u.
Proof.
  intros Hm Hu. apply mapM_Some in Hm. apply list_elem_of_lookup in Hu as [k Hk]. destruct (Forall2_lookup_r _ _ _ _ _ Hm Hk) as (id & Hid & He).
  exists id. split; [by eapply list_elem_of_lookup_2|exact He].
Qed.
Lemma BatchUpdateStatus_keeps u IDs Status now :
  keeps (fun d => reconciled settled d /\ forall id, id ∈ batchIDs IDs -> ~ reopens (sh_orders d) id (normalized_status Status))
    (BatchUpdateStatus u IDs Status now).
Proof.
  unfold BatchUpdateStatus. apply as_user_keeps. intros user. destruct IDs as [|i0 l0]; [apply does_throw|]. cbv zeta. set (ids := batchIDs _).
  apply does_if; intros Hv; [apply does_throw|]. apply negb_false_iff in Hv. destruct ids as [|i1 l1] eqn:Hids; [apply does_throw|].
  apply does_skip; [apply reads_if; auto with reads|intros ?]. apply does_skip; [apply reads_wrapped; auto with reads|intros rows].
  apply does_skip; [apply reads_if; auto with reads|intros ?]. set (status := normalized_status Status) in *. set (skip := String.eqb status "completed").
  eapply does_bind with (R := fun os d => exists all st, (reconciled (pending os) d /\ frame all st (unearned status os) d) /\
    NoDup (map or_id os) /\ Forall (to_settle status all) os).
  - apply does_wrapping, does_stmt. intros d os d' [Hr Hno] E. destruct (mapM uuid_in _) as [us|] eqn:Hus; [|done].
    destruct (batch_set_status status skip us d) as [os' d''] eqn:Hb. injection E as <- <-. exists (sh_orders d''), (settings d'').
    apply (batch_step status skip us d os' d'' Hr Hb); [done| |exact Hv].
    intros o Ho Ham Hc _ Hopen. apply among_found in Ham as [Hu Hd]. destruct (mapM_source _ _ _ Hus Hu) as (id & Hid & Hin).
    apply (Hno id Hid). exists (or_id o), o. split_and!; [done| |done|done]. apply find_live; [|done]. apply only_row_nodup; [by eapply reconciled_nodup|done].
  - intros os. apply does_exists. intros all. apply does_exists. intros st. apply does_pure. intros [Hn Hall].
    eapply does_bind; [by apply (settle_all_keeps user status now os all st)|]. intros ?. by apply does_ret.
Qed.

(** *** Deleting *)
Definition opened (ids : list string) : part -> string -> Prop := fun p i => p <> Cogs /\ i ∈ ids.
Definition released (ids : list string) (l : list txn_row) : Prop := Forall (fun i => incomes i l = []) ids.
Lemma released_stable g ids : (forall i t, i ∈ ids -> order_income i t = true -> g t = false) -> stable g (released ids).
Proof.
  intros Hg l l' Hc H. unfold released in *. rewrite Forall_forall in *. intros i Hi. unfold incomes. rewrite (ch_rest _ _ _ Hc); [by apply H|].
  intros t. by apply Hg.
Qed.
Lemma released_income id ids : id ∉ ids -> stable (order_income id) (released ids).
Proof. intros Hn. apply released_stable. intros i t Hi Ht. eapply not_income; [by apply order_income_ref|]. congruence. Qed.
Lemma released_cogs id ids : Forall plain_id ids -> stable (of_reference (cogs_ref id)) (released ids).
Proof.
  intros Hp. apply released_stable. intros i t Hi Ht. eapply not_reference; [by apply order_income_ref|]. apply plain_not_cogs.
  rewrite Forall_forall in Hp. by apply Hp.
Qed.
Lemma items_found id : reads true (attempt (loadOrderItems id)) (fun d r => forall l, r = Ok l -> exists u o, uuid_in id = Some u /\ find_order u d = Some o).
Proof.
  eapply reads_weaken; [apply reads_attempt, wrapping_reads, reads_by_id|]. cbv beta. intros d [a|e] H l [= <-].
  destruct (H a eq_refl) as (u & Hu & Hf). exists u. destruct (find_order u d) as [o|]; [by eauto|done].
Qed.
(** the stock of an order, if it is there *)
Lemma withdraw {A} S os st Y id user now (k : shop A) Q :
  stable (of_reference (cogs_ref id)) Y -> plain_id id ->
  (forall os', map or_id os' = map or_id os -> does (fun d => reconciled (but Marker id S) d /\ frame os' st Y d) k Q) ->
  does (fun d => reconciled S d /\ frame os st Y d)
    (let! items := attempt (loadOrderItems id) in
     match items with Ok l => SyncOrderStock id "cancelled" (orderStockItems l) (AccountID user) now | Err _ => ret tt end;! k) Q.
Proof.
  intros HY Hp Hk. eapply does_reads_bind; [apply items_found|]. intros [l|e].
  - eapply (does_pre (fun d => (reconciled S d /\ frame os st Y d) /\ id ∈ map or_id os)).
    + apply does_pure. intros Hin. eapply does_bind; [|intros ?; apply (Hk (marked (st.1.1 && st.1.2) id (IsCommittedOrderStatus "cancelled") os)), marked_ids].
      eapply does_pre; [apply (SyncOrderStock_step S os st Y id "cancelled" (orderStockItems l) (AccountID user) now HY Hp Hin)|].
      intros d [Hr Hf]. split; [|exact Hf]. eapply reconciled_mono; [exact Hr|unfold but; tauto].
    + intros d [[Hr Hf] Hfound]. split; [split; [exact Hr|exact Hf]|]. destruct (Hfound l eq_refl) as (u & o & Hu & Ho).
      destruct Hp as (Hu' & _). rewrite Hu in Hu'. injection Hu' as ->. apply find_order_elem in Ho as (Ho & <- & _). destruct Hf as [[<- _] _].
      apply list_elem_of_In, in_map, list_elem_of_In, Ho.
  - eapply does_bind; [apply (does_ret _ _ (fun _ d => reconciled (but Marker id S) d /\ frame os st Y d))|intros ?; by apply Hk].
    intros d [[Hr Hf] _]. split; [|exact Hf]. eapply reconciled_mono; [exact Hr|unfold but; tauto].
Qed.
(** the rows that are deleted, their income gone *)
Lemma deleted_step gone which d :
  reconciled (opened gone) d -> released gone (ledger d) ->
  (forall o, o ∈ sh_orders d -> or_id o ∈ gone <-> which o = true \/ (or_deleted o = true /\ or_id o ∈ gone)) ->
  reconciled settled (update_where which as_deleted d).
Proof.
  intros Hr Hg Hw. apply (rows_step (opened gone)); [done|by apply batch_ids|]. intros o p Ho _.
  apply list_elem_of_In, in_map_iff in Ho as (y & <- & Hy). apply list_elem_of_In in Hy. specialize (Hw y Hy).
  unfold released in Hg. rewrite Forall_forall in Hg.
  assert (or_id y ∈ gone -> forall q o', or_id o' = or_id y -> or_deleted o' = true -> q <> Cogs -> part_ok q d o') as Hgone.
  { intros Hin [] o' Hid Hdel Hq; [|cbn; rewrite Hdel, andb_false_r; done|done]. apply none_due; [rewrite Hid; by apply Hg|by left]. }
  assert (p = Cogs \/ p <> Cogs) as [->|Hp] by (destruct p; auto).
  - assert (part_ok Cogs d y) as Hok by (apply (rc_parts _ _ Hr y Cogs Hy); by intros [? _]). by destruct (which y).
  - destruct (which y) eqn:E; [apply Hgone; tauto|]. assert (or_id y ∈ gone \/ or_id y ∉ gone) as [Hin|Hout] by (destruct (decide (or_id y ∈ gone)); auto).
    + apply Hw in Hin as [?|[Hdel Hin]]; [done|]. by apply Hgone.
    + apply (rc_parts _ _ Hr y p Hy). by intros [_ ?].
Qed.
Lemma Delete_keeps u id now : plain_id id -> keeps (reconciled settled) (Delete u id now).
Proof.
  intros Hp. apply unframed. intros os st. unfold Delete. apply as_user_keeps. intros user.
  eapply does_bind; [apply (RemoveOrderIncome_step settled (frame os st any_rows) id (frame_steady _ os st _ (any_stable _)) Hp)|intros ?].
  eapply does_pre; [apply (withdraw (but Income id settled) os st (released [id]) id user now); [by apply released_cogs, Forall_singleton|done|]|].
  2: { intros d (Hr & Hi & [Hf _]). split; [exact Hr|]. split; [exact Hf|]. by apply Forall_singleton. }
  intros os' _. eapply does_bind with (R := fun _ => reconciled settled); [|intros n; by apply does_if; intros _; [apply does_ret|apply does_throw]].
  apply does_wrapping, does_stmt. intros d n d' [Hr [_ Hg]] E. destruct (uuid_in (AccountID user)); [|done]. rewrite (proj1 Hp) in E. injection E as <- <-.
  apply (deleted_step [id]); [|done|].
  - eapply reconciled_mono; [exact Hr|]. intros p i [[[]|[-> ->]]|[-> ->]]; (split; [done|by apply list_elem_of_singleton]).
  - intros o Ho. rewrite list_elem_of_singleton. unfold live. destruct (String.eqb_spec (or_id o) id) as [He|He]; [|naive_solver].
    destruct (or_deleted o); naive_solver.
Qed.
Lemma release_all_step user st now all rest : forall gone os,
  NoDup rest -> Forall plain_id all -> (forall i, i ∈ all <-> i ∈ rest \/ i ∈ gone) -> (forall i, i ∈ rest -> i ∉ gone) ->
  does (fun d => reconciled (opened gone) d /\ frame os st (released gone) d) (release_all user rest now)
    (fun _ d => reconciled (opened all) d /\ released all (ledger d)).
Proof.
  induction rest as [|id rest IH]; intros gone os Hn Hp Hall Hdis; cbn [release_all].
  - apply does_ret. intros d [Hr [_ Hg]]. assert (forall i, i ∈ all <-> i ∈ gone) as He by (intros i; rewrite Hall, elem_of_nil; tauto). split.
    + eapply reconciled_mono; [exact Hr|]. intros p i [Hp' Hi]. split; [done|by apply He].
    + unfold released in *. rewrite Forall_forall in *. intros i Hi. by apply Hg, He.
  - apply NoDup_cons in Hn as [Hni Hn]. rewrite Forall_forall in Hp. assert (id ∉ gone) as Hng by (apply Hdis; left).
    assert (Forall plain_id gone) as Hpg by (apply Forall_forall; intros i Hi; apply Hp, Hall; by right).
    assert (plain_id id) as Hpid by (apply Hp, Hall; left; left).
    apply (withdraw (opened gone) os st (released gone) id user now); [by apply released_cogs|done|]. intros os' _.
    eapply does_bind; [apply (RemoveOrderIncome_step (but Marker id (opened gone)) (frame os' st (released gone)) id (frame_steady _ os' st _ (released_income id gone Hng)) Hpid)|intros ?].
    eapply does_pre; [apply (IH (id :: gone) os' Hn)|].
    + by apply Forall_forall.
    + intros i. rewrite Hall, !elem_of_cons. tauto.
    + intros i Hi. rewrite elem_of_cons. intros [->|Hg]; [done|]. by apply (Hdis i); [right|].
    + intros d (Hr & Hi & [Hf Hg]). split; [|split; [exact Hf|by apply Forall_cons]].
      eapply reconciled_mono; [exact Hr|]. intros p i [[[H1 H2]|[-> ->]]|[-> ->]]; (split; [done|]); first [by left|by right].
Qed.
Lemma batchIDs_plain ids : Forall plain_id ids -> batchIDs ids = ids.
Proof.
  induction 1 as [|i ids Hi Hall IH]; [done|]. unfold batchIDs in *. cbn [map List.filter]. rewrite (proj1 (proj2 Hi)).
  rewrite (proj2 (String.eqb_neq _ _) (plain_nonempty i Hi)). cbn. by rewrite IH.
Qed.
Lemma mapM_plain ids : Forall plain_id ids -> mapM uuid_in ids = Some ids.
Proof. intros H. apply mapM_Some. induction H as [|i ids Hi _ IH]; constructor; [apply Hi|done]. Qed.
Lemma BatchDelete_keeps u IDs now : keeps (reconciled settled) (BatchDelete u IDs now).
Proof.
  apply unframed. intros os st. unfold BatchDelete. apply as_user_keeps. intros user. destruct (batchIDs IDs) as [|i0 l0] eqn:Hids; [apply does_throw|].
  rewrite <- Hids. eapply does_bind with (R := fun found d => (reconciled settled d /\ frame os st any_rows d) /\
    NoDup found /\ Forall plain_id found).
  { apply does_wrapping, does_stmt. intros d found d' [Hr Hf] E. destruct (mapM uuid_in _) as [us|]; [|done]. injection E as <- <-.
    split; [by split|]. split; [by apply filter_ids; eapply reconciled_nodup|].
    apply Forall_forall. intros i Hi. apply list_elem_of_In, in_map_iff in Hi as (o & <- & Ho). apply filter_In in Ho as [Ho _].
    eapply plain_of; [exact Hr|]. by apply order_id_in, list_elem_of_In. }
  intros found. apply does_pure. intros [Hn Hp].
  eapply does_bind; [eapply does_pre; [apply (release_all_step user st now found found [] os Hn Hp)|]|].
  - intros i. rewrite elem_of_nil. tauto.
  - intros i _. apply not_elem_of_nil.
  - intros d [Hr [Hf _]]. split; [eapply reconciled_mono; [exact Hr|by intros p i []]|]. split; [exact Hf|]. apply Forall_nil. exact I.
  - intros ?. rewrite (batchIDs_plain found Hp). destruct found as [|f0 fs].
    + apply does_ret. intros d [Hr _]. eapply reconciled_mono; [exact Hr|]. intros p i [_ Hi]. by apply elem_of_nil in Hi.
    + apply does_wrapping, does_stmt. intros d n d' [Hr Hg] E. destruct (uuid_in (AccountID user)); [|done]. rewrite (mapM_plain _ Hp) in E. injection E as _ <-.
      apply (deleted_step (f0 :: fs)); [done|done|]. intros o Ho. split.
      * intros Hin. destruct (or_deleted o) eqn:Hd; [by right|left]. unfold among. rewrite Hd, andb_true_r. unfold in_list. apply existsb_exists.
        exists (or_id o). split; [by apply list_elem_of_In|apply String.eqb_refl].
      * intros [Ham|[_ Hin]]; [by apply among_found in Ham as [? _]|done].
Qed.
End batches.
