(* ===== verification/OrderHistory.v ===== *)
(** * A shop's books after any history of order calls

    The order calls as data, histories of calls that are answered without an
    error, and what holds of the orders, the ledger and the stock after them; a
    sample shop. *)
From S2P Require Import Prelude GoStrings AdminSession PgTx Triples Zoom Float64 Billing FinTables FinTxns FinPosting FinLedger FinBooks FinRows.
From S2P Require Import Costing StockLedger Shop OrderStock OrderItems Orders OrderBooks OrderCalls OrderBatch.

Open Scope string_scope.
Open Scope Z_scope.

Inductive order_call :=
  | CallCreate (p : CreateOrderParams)
  | CallUpdate (id : string) (p : UpdateOrderParams)
  | CallCancel (id : string)
  | CallBatchUpdateStatus (IDs : list string) (Status : string)
  | CallDelete (id : string)
  | CallBatchDelete (IDs : list string).
Record order_request := { oq_user : option AuthUser; oq_now : Z; oq_call : order_call }.

Section history.
Context `{HI : PgInput} `{HT : TimeZones} `{HN : Numeric} `{HO : OrderInput}.

Definition run_order (r : order_request) : shop unit :=
  let u := oq_user r in
  let now := oq_now r in
  match oq_call r with
  | CallCreate p => Create u p now;! ret tt
  | CallUpdate id p => Update u id p now;! ret tt
  | CallCancel id => Cancel u id now;! ret tt
  | CallBatchUpdateStatus ids s => BatchUpdateStatus u ids s now;! ret tt
  | CallDelete id => Delete u id now
  | CallBatchDelete ids => BatchDelete u ids now;! ret tt
  end.
(** a call on its own connection, no statement failing: the answer, the tables *)
Definition answer_order (r : order_request) (d : shop_db) : result unit := fst (run_order r (Build_pg d None [])).
Definition serve_order (r : order_request) (d : shop_db) : shop_db := p_db (snd (run_order r (Build_pg d None []))).
Fixpoint serve_orders (l : list order_request) (d : shop_db) : shop_db :=
  match l with [] => d | r :: rest => serve_orders rest (serve_order r d) end.

(** A completed order is not taken back to an open status, and a deletion names
    the order by its id's canonical text: see the two lemmas at the end. *)
Definition regular (r : order_request) (d : shop_db) : Prop :=
  match oq_call r with
  | CallUpdate id p => forall s, UO_Status p = Some s -> ~ reopens (sh_orders d) id (normalized_status s)
  | CallBatchUpdateStatus ids s => forall id, id ∈ batchIDs ids -> ~ reopens (sh_orders d) id (normalized_status s)
  | CallDelete id => plain_id id
  | _ => True
  end.
Fixpoint regular_history (l : list order_request) (d : shop_db) : Prop :=
  match l with
  | [] => True
  | r :: rest => (answer_order r d = Ok tt /\ regular r d) /\ regular_history rest (serve_order r d)
  end.
(** a shop before its first order: any wallets, catalog and stock *)
Record new_shop (d : shop_db) : Prop := {
  ns_orders : sh_orders d = [];
  ns_ledger : f_txns (sh_fin d) = [];
  ns_books : books none (sh_fin d);
  ns_moves : List.filter (fun m => bool_decide (is_Some (mv_ref_id m))) (movements (sh_stock d)) = [];
  ns_ids : NoDup (sh_ids d) /\ Forall plain_id (sh_ids d)
}.

Context `{HL : !PgInputLaws}.
Lemma run_order_keeps r : does (fun d => reconciled settled d /\ regular r d) (run_order r) (fun _ => reconciled settled).
Proof.
  unfold run_order, regular. destruct (oq_call r) as [p|id p|id|ids s|id|ids].
  - eapply does_bind; [eapply does_pre; [apply Create_keeps|tauto]|intros ?; by apply does_ret].
  - eapply does_bind; [apply Update_keeps|intros ?; by apply does_ret].
  - eapply does_bind; [eapply does_pre; [apply Cancel_keeps|tauto]|intros ?; by apply does_ret].
  - eapply does_bind; [apply BatchUpdateStatus_keeps|intros ?; by apply does_ret].
  - apply does_pure. intros Hp. by apply Delete_keeps.
  - eapply does_bind; [eapply does_pre; [apply BatchDelete_keeps|tauto]|intros ?; by apply does_ret].
Qed.
Lemma serve_order_keeps r d : reconciled settled d -> regular r d -> answer_order r d = Ok tt -> reconciled settled (serve_order r d).
Proof.
  intros Hr Hg Ha. pose proof (run_order_keeps r (Build_pg d None []) (conj eq_refl (fun _ => eq_refl)) (conj Hr Hg)) as H.
  unfold answer_order, serve_order in *. destruct (run_order r _) as [x w]. destruct H as [_ H]. by apply (H tt).
Qed.
Lemma serve_orders_keep l d : reconciled settled d -> regular_history l d -> reconciled settled (serve_orders l d).
Proof.
  revert d. induction l as [|r l IH]; intros d Hr; [done|]. intros [[Ha Hg] Hl]. apply IH; [by apply serve_order_keeps|exact Hl].
Qed.
Lemma new_shop_reconciled d : new_shop d -> reconciled settled d.
Proof.
  intros [Ho Hl Hb Hm [Hn Hp]]. assert (all_ids d = sh_ids d) as Hall by (unfold all_ids; by rewrite Ho).
  split; rewrite ?Hall, ?Hl; try done.
  - split; [done|]. apply Hb.
  - intros id t _ Ht. by apply elem_of_nil in Ht.
  - apply Forall_forall. intros id _. unfold unused. rewrite Hl. split_and!; [done|done|]. apply filter_none. intros m Hin.
    rewrite filter_none in Hm. apply Hm in Hin. apply bool_decide_eq_false in Hin. unfold of_order, by_ref.
    destruct (mv_ref_id m); [exfalso; by apply Hin|]. by rewrite andb_false_r.
  - intros o p Hin. rewrite Ho in Hin. by apply elem_of_nil in Hin.
Qed.

(** C34. Stock and its cost follow the orders.  After any such history on a shop
    whose inventory is set up, an order that is not deleted is marked as issued
    (the table having the column) exactly when its status is a committed one,
    and the ledger holds exactly one expense of the rounded net cost of its
    stock movements when that is positive and purchases are not already posted
    as expenses, none otherwise; the cached balance of a wallet is its initial
    balance plus the net of the ledger, if that fits the column. *)
Theorem orders_stock_and_cost l d o w row :
  new_shop d -> regular_history l d ->
  let d' := serve_orders l d in
  tracked d' = true -> o ∈ sh_orders d' ->
  find_wallet (sh_fin d') w = Some row -> fits (w_initial row + net (sh_fin d') w) = true ->
  let cost := round2 (order_cost (or_id o) d') in
  let posted := entries (cogs_ref (or_id o)) (f_txns (sh_fin d')) in
  (sh_marker_column d' = true -> or_deleted o = false -> or_stock_applied o = IsCommittedOrderStatus (or_status o)) /\
  (if sh_post_expense d' || fleb cost fzero then posted = []
   else exists t, posted = [t] /\ posted_row "expense" (cogs_ref (or_id o)) cost t) /\
  f_balances (sh_fin d') !! w = Some (w_initial row + net (sh_fin d') w).
Proof.
  intros Hd Hl d' Ht Ho Hw Hf cost posted. pose proof (serve_orders_keep l d (new_shop_reconciled d Hd) Hl) as Hr. split_and!.
  - intros Hc Hdel. apply (part_of _ o Marker Hr Ho). fold d'. by rewrite Ht, Hc, Hdel.
  - pose proof (part_of _ o Cogs Hr Ho Ht) as Hp. unfold cost_due in Hp. fold d' cost in Hp. by destruct (sh_post_expense d' || _).
  - by apply (b_synced _ _ (rc_books _ _ Hr) w (fun H => H)).
Qed.
End history.
