(* ===== verification/OrderSample.v ===== *)
(** * A sample shop

    Two wallets, one item with stock in one warehouse, and a day of orders: the
    witnesses of OrderHistory.v's theorems, and what happens outside their
    hypotheses. *)
From S2P Require Import Prelude GoStrings AdminSession PgTx Triples Zoom Float64 Billing FinTables FinTxns FinPosting FinLedger FinBooks FinCalls FinSample.
From S2P Require Import FinRows Costing StockLedger Shop OrderStock OrderItems Orders OrderBooks OrderCalls OrderHistory.

Open Scope string_scope.
Open Scope Z_scope.

Definition units (x : f64) : option Z := sample_in 4 x.
#[export] Instance shop_input : PgInput := sample_input.
#[export] Instance shop_zones : TimeZones := sample_zones.
#[export] Instance shop_laws : PgInputLaws := sample_laws.
#[export] Instance shop_numeric : Numeric := {|
  column := fun x => (fun n => fdiv (of_Z n) (of_Z 10000)) <$> units x;
  column_minus := fun x y => (fun n => fdiv (of_Z n) (of_Z 10000)) <$> units (fsub x y)
|}.
#[export] Instance shop_orders : OrderInput := {|
  numeric_sum := fun scale x n => (fun m => m + n) <$> sample_in scale x;
  cost_sum := fun l => fold_left (fun s (x : bool * f64) => if x.1 then fadd s x.2 else fsub s x.2) l fzero;
  sql_lower := ToLower; label_before := String.ltb; json_items := Some; genLineID := fun _ n => "line" ++ pretty (N.of_nat n);
  map_order := fun _ l => l
|}.

Definition sample_shop : shop_db := {|
  sh_fin := sample_serve_all (without_faults two_wallets) new_tenant;
  sh_stock := {|
    movements := []; cost_layers := []; balances := {[("c1", "h1") := {| OnHand := of_Z 10; AvgCost := fdiv (of_Z 5) (of_Z 2); TotalValue := of_Z 25 |}]};
    inv_setting := Some (CostingAverage, true); inv_sku := {["c1" := None]}; stock_ids := ["m1"; "m2"; "m3"; "m4"; "m5"]
  |};
  sh_orders := [];
  sh_catalog := [{| ci_id := "c1"; ci_code := "TEA"; ci_name := "Teh"; ci_price := Some 50000; ci_unit := Some "pcs"; ci_source := "manual";
                    ci_updated := 0; ci_deleted := false |}];
  sh_ptypes := [{| pt_id := "p1"; pt_label := "Eceran"; pt_default := true; pt_order := 0; pt_active := true; pt_deleted := false |}];
  sh_prices := {[("c1", "p1") := 60000]}; sh_contacts := []; sh_bundles := [];
  sh_warehouses := [{| wh_id := "h1"; wh_name := "Toko"; wh_default := true; wh_deleted := false |}];
  sh_flags := {["c1" := (true, false)]}; sh_setup := true; sh_post_expense := false; sh_marker_column := true;
  sh_ids := ["o1"; "o2"; "o3"; "o4"]
|}.
Definition line (qty : Z) : OrderItem := {|
  OI_LineID := ""; OI_CatalogItemID := "c1"; OI_ExternalCode := ""; OI_Name := ""; OI_Variant := ""; OI_Size := ""; OI_Color := "";
  OI_Qty := of_Z qty; OI_UnitPrice := fzero; OI_SellUnit := ""; OI_WarehouseID := "" |}.
Definition new_order (qty : Z) (status : string) : order_call := CallCreate {|
  CO_ConversationID := ""; CO_ContactID := ""; CO_Items := [line qty]; CO_Notes := ""; CO_Status := status; CO_TrackingNumber := "";
  CO_Courier := ""; CO_ShippingCost := of_Z 1; CO_IncomeWalletID := "a1" |}.
Definition edited (lines : list OrderItem) (status : option string) : UpdateOrderParams := {|
  UO_ContactID := None; UO_Items := lines; UO_Notes := None; UO_Status := status; UO_TrackingNumber := None; UO_Courier := None;
  UO_PaymentTransactionID := None; UO_ShippingCost := None; UO_IncomeWalletID := None |}.
Definition order_by_boss (c : order_call) : order_request := {| oq_user := Some boss; oq_now := sample_now; oq_call := c |}.
(** 3 sold; 2 reserved, then 4, then sold; a draft deleted; the first order cancelled *)
Definition sample_day : list order_request := map order_by_boss
  [new_order 3 "completed"; new_order 2 " Processing "; CallUpdate "o2" (edited [line 4] None); CallBatchUpdateStatus ["o2 "; "o1"] "completed";
   new_order 1 ""; CallDelete "o3"; CallCancel "o1"].

(** ** [regular_history] by computation *)
Definition reopensb (os : list order_row) (id status : string) : bool :=
  match u ← uuid_in id; List.find (live u) os with
  | Some o => String.eqb (or_status o) "completed" && in_list status reopening
  | None => false
  end.
Definition plain_idb (id : string) : bool :=
  bool_decide (uuid_in id = Some id) && String.eqb (TrimSpace id) id && String.eqb (TrimSpace (cogs_ref id)) (cogs_ref id) && negb (HasPrefix id cogsRefPrefix).
Definition regularb (r : order_request) (d : shop_db) : bool :=
  match oq_call r with
  | CallUpdate id p => match UO_Status p with Some s => negb (reopensb (sh_orders d) id (normalized_status s)) | None => true end
  | CallBatchUpdateStatus ids s => forallb (fun id => negb (reopensb (sh_orders d) id (normalized_status s))) (batchIDs ids)
  | CallDelete id => plain_idb id
  | _ => true
  end.
Fixpoint regular_historyb (l : list order_request) (d : shop_db) : bool :=
  match l with
  | [] => true
  | r :: rest => match answer_order r d with Ok _ => regularb r d && regular_historyb rest (serve_order r d) | Err _ => false end
  end.
Lemma reopensb_false os id status : negb (reopensb os id status) = true -> ~ reopens os id status.
Proof.
  unfold reopensb. intros H (u & o & Hu & Hf & Hc & Hs). apply negb_true_iff in H. rewrite Hu in H. cbn [mbind option_bind] in H. rewrite Hf, Hc in H.
  apply not_true_iff_false in H. apply H. change (in_list status reopening = true). unfold in_list. apply existsb_exists. exists status. split; [by apply list_elem_of_In|apply String.eqb_refl].
Qed.
Lemma plain_idb_true id : plain_idb id = true -> plain_id id.
Proof.
  intros H. repeat (apply andb_true_iff in H as [H ?]). split_and!; [by apply bool_decide_eq_true in H|by apply String.eqb_eq..|by apply negb_true_iff].
Qed.
Lemma regular_history_true l d : regular_historyb l d = true -> regular_history l d.
Proof.
  revert d. induction l as [|r l IH]; intros d; [done|]. cbn [regular_historyb regular_history]. destruct (answer_order r d) as [[]|e] eqn:Ha; [|done].
  intros H. apply andb_true_iff in H as [Hr Hl]. split; [split; [done|]|by apply IH]. clear Ha Hl. unfold regularb, regular in *.
  destruct (oq_call r) as [p|id p|id|ids s|id|ids]; try done.
  - intros s Hs. rewrite Hs in Hr. by apply reopensb_false.
  - intros id Hid. rewrite forallb_forall in Hr. apply reopensb_false, Hr. by apply list_elem_of_In.
  - by apply plain_idb_true.
Qed.
Lemma sample_shop_new : new_shop sample_shop.
Proof.
  split; [vm_compute; reflexivity|vm_compute; reflexivity| |vm_compute; reflexivity|split].
  - apply serve_all_books; [apply fresh_books, new_tenant_fresh|]. do 2 (split; [exact I|]). exact I.
  - apply (bool_decide_unpack _). vm_compute. exact I.
  - repeat (apply Forall_cons; split; [by apply plain_idb_true|]). constructor.
Qed.
Lemma sample_day_regular : regular_history sample_day sample_shop.
Proof. apply regular_history_true. vm_compute. reflexivity. Qed.
Abbreviation evening := (serve_orders sample_day sample_shop).
Definition no_order : order_row := {|
  or_id := ""; or_conversation := None; or_contact := None; or_items := []; or_notes := ""; or_status := ""; or_tracking := ""; or_courier := "";
  or_payment_txn := None; or_payment_status := ""; or_proof_message := None; or_subtotal := 0; or_shipping := 0; or_total := 0; or_wallet := None;
  or_stock_applied := false; or_created_by := ""; or_deleted := false |}.
Definition evening_order (n : nat) : order_row := default no_order (sh_orders evening !! n).
Lemma evening_order_in n : bool_decide (is_Some (sh_orders evening !! n)) = true -> evening_order n ∈ sh_orders evening.
Proof.
  intros H. apply bool_decide_eq_true in H. unfold evening_order. destruct (sh_orders evening !! n) as [o|] eqn:E; [|by destruct H].
  by eapply list_elem_of_lookup_2.
Qed.
Lemma evening_orders :
  map (fun o => (or_id o, or_status o, or_total o, or_stock_applied o, or_deleted o)) (sh_orders evening) =
  [("o1", "cancelled", 190000, false, false); ("o2", "completed", 250000, true, false); ("o3", "draft", 70000, false, true)].
Proof. vm_compute. reflexivity. Qed.
Lemma evening_ledger :
  map (fun t => (tx_type t, tx_reference t, tx_amount t)) (f_txns (sh_fin evening)) =
  [("income", Some "o2", 2500); ("expense", Some "cogs:o2", 1000)].
Proof. vm_compute. reflexivity. Qed.

Lemma orders_stock_and_cost_witness :
  or_stock_applied (evening_order 1) = true /\
  (exists t, entries (cogs_ref "o2") (f_txns (sh_fin evening)) = [t] /\ posted_row "expense" (cogs_ref "o2") (of_Z 10) t) /\
  f_balances (sh_fin evening) !! "a1" = Some (100000 + 1500).
Proof.
  assert (evening_order 1 ∈ sh_orders evening) as Hin by (apply evening_order_in; vm_compute; reflexivity).
  pose proof (orders_stock_and_cost sample_day sample_shop (evening_order 1) "a1" (wallet_of (new_wallet "Kas" 1000) sample_now 100000 "a1")
    sample_shop_new sample_day_regular) as H. cbv zeta in H.
  destruct H as (H1 & H2 & H3); [vm_compute; reflexivity|exact Hin|vm_compute; reflexivity..|].
  assert (or_id (evening_order 1) = "o2") as Eid by (vm_compute; reflexivity). rewrite Eid in H2.
  assert (round2 (order_cost "o2" evening) = of_Z 10) as Ec by (vm_compute; reflexivity). rewrite Ec in H2.
  assert (sh_post_expense evening = false) as Ep by (vm_compute; reflexivity). rewrite Ep in H2.
  split; [rewrite H1; vm_compute; reflexivity|]. split; [exact H2|]. rewrite H3. vm_compute. reflexivity.
Defined.

(** ** Outside the theorems' hypotheses *)
(** A completed order taken back to an open status keeps its income; when its
    lines are edited and it is completed again in a batch, the ledger keeps the
    first total: 19.00 for an order of 31.00. *)
Definition reopened_day : list order_request := map order_by_boss
  [new_order 3 "completed"; CallUpdate "o1" (edited [] (Some "processing")); CallUpdate "o1" (edited [line 5] None);
   CallBatchUpdateStatus ["o1"] "completed"].
Lemma reopened_keeps_income :
  let d := serve_orders reopened_day sample_shop in
  map (fun o => (or_status o, or_total o)) (sh_orders d) = [("completed", 310000)] /\
  map tx_amount (incomes "o1" (f_txns (sh_fin d))) = [1900].
Proof. vm_compute. by split. Qed.
(** A deletion takes any text: the income carrying it as its reference goes
    before the order is looked for. *)
Definition invoice_paid : list request :=
  (two_wallets ++ [by_boss (CallCreateTransaction
    {| TP_Type := "income"; TP_Amount := of_Z 75; TP_Currency := ""; TP_WalletID := "a1"; TP_ToWalletID := None; TP_CategoryID := None;
       TP_Description := None; TP_Notes := None; TP_ReferenceNo := Some "INV-001"; TP_TransactionDate := ""; TP_Tags := [] |})])%list.
Lemma delete_by_text_removes_income :
  let d := set_fin (sample_serve_all (without_faults invoice_paid) new_tenant) sample_shop in
  let call := order_by_boss (CallDelete "INV-001") in
  (answer_order call d, map tx_amount (f_txns (sh_fin d)), f_txns (sh_fin (serve_order call d))) = (Err (NotFoundE "order not found"), [7500], []).
Proof. vm_compute. reflexivity. Qed.
