(* ===== verification/Docs.v ===== *)
(** * Inventory documents: tables and shared steps

    Purchase orders, bills, stock transactions and sales returns next to the
    tables of Shop.v, with what their handlers share: [validateCatalogItem],
    [validateWarehouse], [ensureSku], [parseDatePtr] (inventory/adjustment.go),
    document numbers (docnumber.go), [loadSetting] (inventory.go), posting a
    movement from a document, the references of its finance entries, and
    statements on a row found by its id.
    NUMERIC(18,4) columns are units of 10^-4.  Left out: who wrote a row and
    when, expiry dates, the finance and source references of movements, and
    limits of text columns.  [prepareTenant] and [ensureInventoryModuleSchema]
    are checks that can fail. *)
From S2P Require Import Prelude GoStrings AdminSession DaySlots Dates PgTx Triples Zoom Float64 Billing FinTables FinPosting Costing StockLedger Shop.

Open Scope string_scope.
Open Scope Z_scope.

(** ** Tables *)
Record po_row := {
  po_id : string; po_no : string; po_supplier : option string; po_contact : option string; po_wh : option string; po_status : string;
  po_date : Z; po_note : option string; po_subtotal : Z; po_deleted : bool
}.
Record po_line_row := {
  pl_id : string; pl_po : string; pl_item : string; pl_wh : string; pl_desc : option string; pl_ordered : Z; pl_received : Z; pl_cost : Z
}.
Record bill_row := {
  bi_id : string; bi_no : string; bi_po : option string; bi_supplier : option string; bi_contact : option string; bi_wh : option string;
  bi_date : Z; bi_note : option string; bi_subtotal : Z; bi_deleted : bool
}.
Record bill_line_row := {
  bl_id : string; bl_bill : string; bl_po_line : option string; bl_item : string; bl_wh : string; bl_desc : option string; bl_qty : Z;
  bl_cost : Z; bl_batch : option string; bl_movement : option string
}.
(** inv_stock_transaction *)
Record stock_txn_row := {
  sx_id : string; sx_no : string; sx_kind : string; sx_date : Z; sx_note : option string; sx_item : option string; sx_wh : option string;
  sx_from : option string; sx_to : option string; sx_qty : option Z; sx_cost : option Z; sx_new_cost : option Z
}.
Record stock_line_row := {
  sl_id : string; sl_txn : string; sl_item : string; sl_wh : string; sl_qty : Z; sl_cost : Z; sl_batch : option string;
  sl_movement : option string; sl_order : Z
}.
Record return_row := {
  re_id : string; re_no : string; re_order : option string; re_contact : option string; re_status : string; re_date : Z; re_note : option string;
  re_total : Z; re_deleted : bool
}.
Record return_line_row := { rl_return : string; rl_item : string; rl_wh : string; rl_qty : Z; rl_cost : Z; rl_movement : option string }.
Record docs_db := {
  dc_shop : shop_db;
  dc_seq : gmap string Z;          (** inv_document_sequence *)
  dc_pos : list po_row; dc_po_lines : list po_line_row;
  dc_bills : list bill_row; dc_bill_lines : list bill_line_row;
  dc_txns : list stock_txn_row; dc_txn_lines : list stock_line_row;
  dc_returns : list return_row; dc_return_lines : list return_line_row;
  dc_ids : list string             (** what [gen_random_uuid] will draw for documents and their lines *)
}.
Definition set_shop x d : docs_db :=
  {| dc_shop := x; dc_seq := dc_seq d; dc_pos := dc_pos d; dc_po_lines := dc_po_lines d; dc_bills := dc_bills d; dc_bill_lines := dc_bill_lines d;
     dc_txns := dc_txns d; dc_txn_lines := dc_txn_lines d; dc_returns := dc_returns d; dc_return_lines := dc_return_lines d; dc_ids := dc_ids d |}.
Definition set_seq x d : docs_db :=
  {| dc_shop := dc_shop d; dc_seq := x; dc_pos := dc_pos d; dc_po_lines := dc_po_lines d; dc_bills := dc_bills d; dc_bill_lines := dc_bill_lines d;
     dc_txns := dc_txns d; dc_txn_lines := dc_txn_lines d; dc_returns := dc_returns d; dc_return_lines := dc_return_lines d; dc_ids := dc_ids d |}.
Definition set_pos x d : docs_db :=
  {| dc_shop := dc_shop d; dc_seq := dc_seq d; dc_pos := x; dc_po_lines := dc_po_lines d; dc_bills := dc_bills d; dc_bill_lines := dc_bill_lines d;
     dc_txns := dc_txns d; dc_txn_lines := dc_txn_lines d; dc_returns := dc_returns d; dc_return_lines := dc_return_lines d; dc_ids := dc_ids d |}.
Definition set_po_lines x d : docs_db :=
  {| dc_shop := dc_shop d; dc_seq := dc_seq d; dc_pos := dc_pos d; dc_po_lines := x; dc_bills := dc_bills d; dc_bill_lines := dc_bill_lines d;
     dc_txns := dc_txns d; dc_txn_lines := dc_txn_lines d; dc_returns := dc_returns d; dc_return_lines := dc_return_lines d; dc_ids := dc_ids d |}.
Definition set_bills x d : docs_db :=
  {| dc_shop := dc_shop d; dc_seq := dc_seq d; dc_pos := dc_pos d; dc_po_lines := dc_po_lines d; dc_bills := x; dc_bill_lines := dc_bill_lines d;
     dc_txns := dc_txns d; dc_txn_lines := dc_txn_lines d; dc_returns := dc_returns d; dc_return_lines := dc_return_lines d; dc_ids := dc_ids d |}.
Definition set_bill_lines x d : docs_db :=
  {| dc_shop := dc_shop d; dc_seq := dc_seq d; dc_pos := dc_pos d; dc_po_lines := dc_po_lines d; dc_bills := dc_bills d; dc_bill_lines := x;
     dc_txns := dc_txns d; dc_txn_lines := dc_txn_lines d; dc_returns := dc_returns d; dc_return_lines := dc_return_lines d; dc_ids := dc_ids d |}.
Definition set_stock_txns x d : docs_db :=
  {| dc_shop := dc_shop d; dc_seq := dc_seq d; dc_pos := dc_pos d; dc_po_lines := dc_po_lines d; dc_bills := dc_bills d; dc_bill_lines := dc_bill_lines d;
     dc_txns := x; dc_txn_lines := dc_txn_lines d; dc_returns := dc_returns d; dc_return_lines := dc_return_lines d; dc_ids := dc_ids d |}.
Definition set_stock_lines x d : docs_db :=
  {| dc_shop := dc_shop d; dc_seq := dc_seq d; dc_pos := dc_pos d; dc_po_lines := dc_po_lines d; dc_bills := dc_bills d; dc_bill_lines := dc_bill_lines d;
     dc_txns := dc_txns d; dc_txn_lines := x; dc_returns := dc_returns d; dc_return_lines := dc_return_lines d; dc_ids := dc_ids d |}.
Definition set_returns x d : docs_db :=
  {| dc_shop := dc_shop d; dc_seq := dc_seq d; dc_pos := dc_pos d; dc_po_lines := dc_po_lines d; dc_bills := dc_bills d; dc_bill_lines := dc_bill_lines d;
     dc_txns := dc_txns d; dc_txn_lines := dc_txn_lines d; dc_returns := x; dc_return_lines := dc_return_lines d; dc_ids := dc_ids d |}.
Definition set_return_lines x d : docs_db :=
  {| dc_shop := dc_shop d; dc_seq := dc_seq d; dc_pos := dc_pos d; dc_po_lines := dc_po_lines d; dc_bills := dc_bills d; dc_bill_lines := dc_bill_lines d;
     dc_txns := dc_txns d; dc_txn_lines := dc_txn_lines d; dc_returns := dc_returns d; dc_return_lines := x; dc_ids := dc_ids d |}.
Definition set_doc_ids x d : docs_db :=
  {| dc_shop := dc_shop d; dc_seq := dc_seq d; dc_pos := dc_pos d; dc_po_lines := dc_po_lines d; dc_bills := dc_bills d; dc_bill_lines := dc_bill_lines d;
     dc_txns := dc_txns d; dc_txn_lines := dc_txn_lines d; dc_returns := dc_returns d; dc_return_lines := dc_return_lines d; dc_ids := x |}.
#[export] Instance shop_lens : Lens dc_shop set_shop.
Proof. split; [done|by intros []]. Qed.
Abbreviation docs A := (prog (pg docs_db) A).
Definition on_shop {A} (m : shop A) : docs A := zoom dc_shop set_shop m.
(** calls of the finance and stock components *)
Definition doc_fin {A} (m : fin A) : docs A := on_shop (on_fin m).
Definition doc_stock {A} (m : stock A) : docs A := on_shop (on_stock m).

(** ** Document numbers (docnumber.go) *)
Definition DocPO : string := "WPO".
Definition DocBill : string := "WBIL".
Definition DocReturn : string := "WRET".
Definition DocAdjust : string := "WADJ".
Definition DocTransfer : string := "WXFR".
Definition DocOpening : string := "WOPN".
Definition DocRevalue : string := "WREV".
(** ["%s-%06d"] of a positive number *)
Definition pad6 (s : string) : string := String.concat "" (repeat "0" (6 - String.length s)) ++ s.
Definition formatDocNumber (prefix : string) (n : Z) : string := prefix ++ "-" ++ pad6 (pretty n).
Definition nextDocNumber (docType prefix : string) : docs string :=
  let! n := stmt (fun d => let n := match dc_seq d !! docType with Some n => n + 1 | None => 1 end in
                           (Ok n, set_seq (<[docType := n]> (dc_seq d)) d)) in
  ret (formatDocNumber prefix n).
Definition poStatusFromReceipts (totalOrdered totalReceived : f64) : string :=
  if fleb totalReceived epsilon then "open"
  else if fltb (fadd totalReceived epsilon) totalOrdered then "partial"
  else "received".

(** ** Dates *)
(** [time.Parse] with the layout "2006-01-02" succeeds *)
Definition valid_date (s : string) : bool :=
  match s with
  | String a (String b (String c (String e (String "-" r)))) =>
      forallb isDigit [a; b; c; e] &&
      let y := digit_value a * 1000 + digit_value b * 100 + digit_value c * 10 + digit_value e in
      match getnum r true with
      | Some (m, String "-" r) =>
          match getnum r true with
          | Some (k, "") => (1 <=? m) && (m <=? 12) && (1 <=? k) && (k <=? nth (Z.to_nat (m - 1)) (month_lengths y) 0)
          | _ => false
          end
      | _ => false
      end
  | _ => false
  end.
Example valid_date_ex : map valid_date ["2024-02-29"; "2023-02-29"; "2024-2-29"; "2024-12-31 "; "2024-00-10"; "0000-02-29"]
  = [true; false; false; false; false; true].
Proof. reflexivity. Qed.
Definition bad_date : error := BadRequest "format tanggal harus YYYY-MM-DD".
Definition parseDatePtr (s : option string) : option error :=
  match s with
  | None => None
  | Some s => if String.eqb (TrimSpace s) "" then None else if valid_date (TrimSpace s) then None else Some bad_date
  end.

(** the types of movements that documents post (movement.go) *)
Definition MovementOpening : string := "opening_balance".
Definition MovementPurchaseReceive : string := "purchase_receive".
Definition MovementReturnIn : string := "return_in".
Definition MovementAdjustPlus : string := "adjustment_plus".
Definition MovementAdjustMinus : string := "adjustment_minus".
Definition MovementTransferOut : string := "transfer_out".
Definition MovementTransferIn : string := "transfer_in".
Definition MovementRevaluation : string := "revaluation_cost".
Definition TxnKindAdjustment : string := "adjustment".
Definition TxnKindTransfer : string := "transfer".
Definition TxnKindOpeningBalance : string := "opening_balance".
Definition TxnKindRevaluation : string := "revaluation".
Definition finCatPembelianPersediaan : string := "Pembelian Persediaan".
Definition finCatSelisihPersediaan : string := "Selisih Persediaan".
Definition finCatPenyesuaianNilai : string := "Penyesuaian Nilai Persediaan".
(** an error of a line of the request *)
Definition at_line (i : nat) (msg : string) : string := "baris " ++ pretty (S i) ++ ": " ++ msg.
Definition in_line (i : nat) (e : error) : error := EWrap (at_line i (error_text e)) e.
Definition as_owner {A} (u : option AuthUser) (k : AuthUser -> docs A) : docs A :=
  match getUser u with
  | Err e => throw e
  | Ok user => match requireOwner u with Some e => throw e | None => k user end
  end.

(** ** Rows by id *)
(** of the catalog row, deleted or not *)
Definition name_of_item (u : string) (d : docs_db) : string :=
  default "" (ci_name <$> List.find (fun c => String.eqb (ci_id c) u) (sh_catalog (dc_shop d))).
Definition nullStrPtr (s : option string) : option string :=
  match s with Some x => if String.eqb (TrimSpace x) "" then None else Some x | None => None end.
(** the row at an id: [no_rows] without one *)
Definition row_at {A} (id : option string) (f : string -> docs_db -> option A) : docs A :=
  stmt (fun d => match id with
                 | None => (Err bad_input, d)
                 | Some u => match f u d with Some a => (Ok a, d) | None => (Err no_rows, d) end
                 end).
Definition not_found (msg : string) (e : error) : error := if bool_decide (e = no_rows) then NotFoundE msg else InternalE e.
Definition exec_at (id : option string) (f : string -> docs_db -> docs_db) : docs unit :=
  stmt (fun d => match id with Some u => (Ok tt, f u d) | None => (Err bad_input, d) end).
(** UPDATE … WHERE id = $1, the new values converted for the row *)
Definition replace_at {A} (id : option string) (key : A -> string) (edit : A -> option A) (rows : docs_db -> list A) (set : list A -> docs_db -> docs_db) : docs unit :=
  stmt (fun d =>
    match id with
    | None => (Err bad_input, d)
    | Some u => match mapM (fun r => if String.eqb (key r) u then edit r else Some r) (rows d) with
                | Some l => (Ok tt, set l d)
                | None => (Err bad_input, d)
                end
    end).

Section shared.
Context `{PgInput} `{TimeZones} `{Numeric} `{OrderInput}.
Definition qty4 (n : Z) : f64 := numeric_out 4 n.

(** the next id and the rest *)
Definition insert_row {A} (row : string -> docs_db -> option A) (add : A -> docs_db -> docs_db) : docs A :=
  stmt (fun d =>
    match dc_ids d with
    | [] => (Err no_id, d)
    | id :: rest => match row id d with None => (Err bad_input, d) | Some r => (Ok r, set_doc_ids rest (add r d)) end
    end).
Definition validateWarehouse (id : string) : docs unit :=
  if String.eqb (TrimSpace id) "" then throw (BadRequest "gudang wajib dipilih")
  else
    let! exists_ := internally (query_with (uuid_in id) (fun u d =>
      existsb (fun w => String.eqb (wh_id w) u && negb (wh_deleted w)) (sh_warehouses (dc_shop d)))) in
    if exists_ : bool then ret tt else throw (BadRequest "gudang tidak ditemukan").
Definition validateCatalogItem (id : string) : docs unit :=
  if String.eqb (TrimSpace id) "" then throw (BadRequest "item katalog wajib dipilih")
  else
    let! exists_ := internally (query_with (uuid_in id) (fun u d =>
      existsb (fun c => String.eqb (ci_id c) u && negb (ci_deleted c)) (sh_catalog (dc_shop d)))) in
    if exists_ : bool then ret tt else throw (BadRequest "item katalog tidak ditemukan").
Definition set_sku m d : stock_db :=
  {| movements := movements d; cost_layers := cost_layers d; balances := balances d; inv_setting := inv_setting d; inv_sku := m;
     stock_ids := stock_ids d |}.
Definition set_setting s d : stock_db :=
  {| movements := movements d; cost_layers := cost_layers d; balances := balances d; inv_setting := s; inv_sku := inv_sku d;
     stock_ids := stock_ids d |}.
Definition set_flags m d : shop_db :=
  {| sh_fin := sh_fin d; sh_stock := sh_stock d; sh_orders := sh_orders d; sh_catalog := sh_catalog d; sh_ptypes := sh_ptypes d;
     sh_prices := sh_prices d; sh_contacts := sh_contacts d; sh_warehouses := sh_warehouses d; sh_bundles := sh_bundles d;
     sh_flags := m; sh_setup := sh_setup d; sh_post_expense := sh_post_expense d; sh_marker_column := sh_marker_column d; sh_ids := sh_ids d |}.
(** INSERT INTO inv_sku … ON CONFLICT DO NOTHING *)
Definition new_sku (u : string) (d : shop_db) : shop_db :=
  match inv_sku (sh_stock d) !! u with
  | Some _ => d
  | None => set_flags (<[u := (true, false)]> (sh_flags d)) (set_stock (set_sku (<[u := None]> (inv_sku (sh_stock d))) (sh_stock d)) d)
  end.
Definition ensureSku (item : string) : docs unit :=
  stmt (fun d => match uuid_in item with Some u => (Ok tt, set_shop (new_sku u (dc_shop d)) d) | None => (Err bad_input, d) end).
(** INSERT INTO inv_setting …: the row's defaults *)
Definition with_default_setting (d : shop_db) : shop_db :=
  {| sh_fin := sh_fin d; sh_stock := set_setting (Some (CostingAverage, true)) (sh_stock d); sh_orders := sh_orders d; sh_catalog := sh_catalog d;
     sh_ptypes := sh_ptypes d; sh_prices := sh_prices d; sh_contacts := sh_contacts d; sh_warehouses := sh_warehouses d; sh_bundles := sh_bundles d;
     sh_flags := sh_flags d; sh_setup := false; sh_post_expense := false; sh_marker_column := sh_marker_column d; sh_ids := sh_ids d |}.
(** [loadSetting]'s purchase_posts_expense; a tenant without settings gets the default row *)
Definition loadSetting : docs bool :=
  internally (internally prepare;!
    let! s := read (fun d => bool_decide (is_Some (inv_setting (sh_stock (dc_shop d))))) in
    if s : bool then read (fun d => sh_post_expense (dc_shop d))
    else
      exec (fun d => set_shop (with_default_setting (dc_shop d)) d);! ret false).

(** ** Movements of a document *)
Definition with_uuids (item wh ref : string) (inp : MovementInput) : MovementInput :=
  {| MI_CatalogItemID := item; MI_WarehouseID := wh; MI_Type := MI_Type inp; MI_Direction := MI_Direction inp; MI_Qty := MI_Qty inp;
     MI_UnitCost := MI_UnitCost inp; MI_CostingMethod := MI_CostingMethod inp; MI_BlockNegative := MI_BlockNegative inp;
     MI_BatchNo := MI_BatchNo inp; MI_RefType := MI_RefType inp; MI_RefID := ref |}.
(** the columns take a UUID's canonical text *)
Definition postMovement (inp : MovementInput) (now : Z) : docs MovementResult :=
  match uuid_in (MI_CatalogItemID inp), uuid_in (MI_WarehouseID inp), uuid_opt (nullUUID (MI_RefID inp)) with
  | Some i, Some w, Some r => doc_stock (PostMovement (with_uuids i w (default "" r) inp) now)
  | _, _, _ => if fleb (MI_Qty inp) epsilon then throw (StockBadRequest "qty harus lebih dari 0") else stmt (fun d => (Err bad_input, d))
  end.
Definition costingContext_for (item : string) : docs costingContext :=
  match uuid_in item with
  | Some u => doc_stock (loadCostingContext u)
  | None => internally (stmt (fun d => (Err bad_input, d)))
  end.
Definition collectMovementsByRef (refType refID : string) : docs (list movement_row) :=
  internally (query_with (uuid_in refID) (fun u d => List.filter (by_ref refType u) (movements (sh_stock (dc_shop d))))).
Definition purgeByRef (refType refID : string) (now : Z) : docs unit :=
  match uuid_in refID with
  | Some u => doc_stock (purgeMovementsByRef refType u now);! ret tt
  | None => internally (stmt (fun d => (Err bad_input, d)))
  end.
Definition movementFinanceRefs (extra : string) (movs : list movement_row) : list string :=
  ((if String.eqb (TrimSpace extra) "" then [] else [extra]) ++ map mv_id movs)%list.
(** finance/period_check.go *)
Definition CheckPeriodUnlockedForDate (dateStr : string) (now : Z) : fin unit :=
  let dateStr := TrimSpace dateStr in
  if String.eqb dateStr "" then CheckCurrentPeriodUnlocked now
  else if negb (valid_date dateStr) then throw bad_date
  else internally prepareTenant;! ensurePeriodUnlocked (walletPeriod now dateStr).
End shared.
