(* ===== verification/Purchasing.v ===== *)
(** * Purchase orders and bills

    [inventory/purchase_order.go], [purchase_order_crud.go], [bill.go],
    [bill_patch.go] and [bill_delete.go]: orders to suppliers, and the bills
    that receive goods into stock.  Lines come back in the order of their table.
    Left out: the listings. *)
From S2P Require Import Prelude GoStrings AdminSession DaySlots Dates PgTx Triples Zoom Float64 Billing FinTables FinPosting Costing StockLedger Shop.
From S2P Require Import Docs.

Open Scope string_scope.
Open Scope Z_scope.

(** ** Types *)
Record PurchaseOrderLine := {
  PL_ID : string; PL_CatalogItemID : string; PL_ItemName : string; PL_WarehouseID : string; PL_Description : string;
  PL_QtyOrdered : f64; PL_QtyReceived : f64; PL_UnitCost : f64
}.
Record PurchaseOrder := {
  PO_ID : string; PO_No : string; PO_SupplierName : string; PO_ContactID : option string; PO_WarehouseID : option string; PO_Status : string;
  PO_TransactionDate : string; PO_Note : string; PO_Subtotal : f64; PO_Lines : list PurchaseOrderLine
}.
Record PurchaseOrderLineInput := {
  PI_CatalogItemID : string; PI_WarehouseID : string; PI_Description : string; PI_QtyOrdered : f64; PI_UnitCost : f64
}.
(** [CreatePurchaseOrderParams] and [UpdatePurchaseOrderParams] *)
Record PurchaseOrderParams := {
  PP_SupplierName : string; PP_ContactID : string; PP_WarehouseID : string; PP_TransactionDate : string; PP_Note : string;
  PP_Lines : list PurchaseOrderLineInput
}.
Record BillLineInput := {
  BI_CatalogItemID : string; BI_WarehouseID : string; BI_PurchaseOrderLineID : string; BI_Description : string; BI_Qty : f64;
  BI_UnitCost : f64; BI_BatchNo : string; BI_ExpiryDate : option string
}.
(** [CreateBillParams]; [UpdateBillParams] has no purchase order *)
Record BillParams := {
  BP_PurchaseOrderID : string; BP_SupplierName : string; BP_ContactID : string; BP_WarehouseID : string; BP_TransactionDate : string;
  BP_Note : string; BP_Lines : list BillLineInput
}.
Record BillLine := {
  BL_ID : string; BL_CatalogItemID : string; BL_ItemName : string; BL_WarehouseID : string; BL_Description : string; BL_Qty : f64;
  BL_UnitCost : f64; BL_BatchNo : option string
}.
Record Bill := {
  B_ID : string; B_BillNo : string; B_PurchaseOrderID : option string; B_SupplierName : string; B_TransactionDate : string; B_Note : string;
  B_Subtotal : f64; B_Lines : list BillLine
}.

(** ** Rows *)
Definition with_po_status (status : string) (p : po_row) : po_row :=
  {| po_id := po_id p; po_no := po_no p; po_supplier := po_supplier p; po_contact := po_contact p; po_wh := po_wh p; po_status := status;
     po_date := po_date p; po_note := po_note p; po_subtotal := po_subtotal p; po_deleted := po_deleted p |}.
Definition with_received (n : Z) (l : po_line_row) : po_line_row :=
  {| pl_id := pl_id l; pl_po := pl_po l; pl_item := pl_item l; pl_wh := pl_wh l; pl_desc := pl_desc l; pl_ordered := pl_ordered l;
     pl_received := n; pl_cost := pl_cost l |}.
Definition with_movement (m : string) (l : bill_line_row) : bill_line_row :=
  {| bl_id := bl_id l; bl_bill := bl_bill l; bl_po_line := bl_po_line l; bl_item := bl_item l; bl_wh := bl_wh l; bl_desc := bl_desc l;
     bl_qty := bl_qty l; bl_cost := bl_cost l; bl_batch := bl_batch l; bl_movement := Some m |}.
Definition find_po (u : string) (d : docs_db) : option po_row := List.find (fun p => String.eqb (po_id p) u && negb (po_deleted p)) (dc_pos d).
Definition find_bill (u : string) (d : docs_db) : option bill_row := List.find (fun b => String.eqb (bi_id b) u && negb (bi_deleted b)) (dc_bills d).
Definition lines_of_po (u : string) (d : docs_db) : list po_line_row := List.filter (fun l => String.eqb (pl_po l) u) (dc_po_lines d).
Definition lines_of_bill (u : string) (d : docs_db) : list bill_line_row := List.filter (fun l => String.eqb (bl_bill l) u) (dc_bill_lines d).
Definition not_blank (s : option string) : option string := match s with Some x => if String.eqb x "" then None else Some x | None => None end.

Section purchasing.
Context `{PgInput} `{TimeZones} `{Numeric} `{OrderInput}.

(** ** Purchase orders *)
Definition line_of_po_row (d : docs_db) (l : po_line_row) : PurchaseOrderLine :=
  {| PL_ID := pl_id l; PL_CatalogItemID := pl_item l; PL_ItemName := name_of_item (pl_item l) d; PL_WarehouseID := pl_wh l;
     PL_Description := default "" (pl_desc l); PL_QtyOrdered := qty4 (pl_ordered l); PL_QtyReceived := qty4 (pl_received l);
     PL_UnitCost := qty4 (pl_cost l) |}.
Definition getPurchaseOrder (id : string) : docs PurchaseOrder :=
  let! p := wrapping (not_found "purchase order tidak ditemukan") (row_at (uuid_in id) find_po) in
  let! lines := internally (query_with (uuid_in id) (fun u d => map (line_of_po_row d) (lines_of_po u d))) in
  ret {| PO_ID := po_id p; PO_No := po_no p; PO_SupplierName := default "" (po_supplier p); PO_ContactID := not_blank (po_contact p);
         PO_WarehouseID := not_blank (po_wh p); PO_Status := po_status p; PO_TransactionDate := date_text (po_date p);
         PO_Note := default "" (po_note p); PO_Subtotal := qty4 (po_subtotal p); PO_Lines := lines |}.
Definition in_warehouse (wh : string) (l : PurchaseOrderLineInput) : PurchaseOrderLineInput :=
  {| PI_CatalogItemID := PI_CatalogItemID l; PI_WarehouseID := wh; PI_Description := PI_Description l; PI_QtyOrdered := PI_QtyOrdered l;
     PI_UnitCost := PI_UnitCost l |}.
Fixpoint validate_po_lines (defaultWarehouse : string) (i : nat) (ls : list PurchaseOrderLineInput) : docs (list PurchaseOrderLineInput) :=
  match ls with
  | [] => ret []
  | l :: rest =>
      if fleb (PI_QtyOrdered l) epsilon then throw (BadRequest (at_line i "qty harus lebih dari 0"))
      else if fltb (PI_UnitCost l) fzero then throw (BadRequest (at_line i "harga tidak boleh negatif"))
      else
        let wh := if String.eqb (TrimSpace (PI_WarehouseID l)) "" then defaultWarehouse else PI_WarehouseID l in
        wrapping (in_line i) (validateCatalogItem (PI_CatalogItemID l));!
        wrapping (in_line i) (validateWarehouse wh);!
        let! rest := validate_po_lines defaultWarehouse (S i) rest in
        ret (in_warehouse wh l :: rest)
  end.
(** [subtotal += l.QtyOrdered * l.UnitCost] *)
Definition po_subtotal_of (ls : list PurchaseOrderLineInput) : f64 := fold_left (fun s l => fadd s (fmul (PI_QtyOrdered l) (PI_UnitCost l))) ls fzero.
Definition po_line_of (po : string) (l : PurchaseOrderLineInput) (id : string) (_ : docs_db) : option po_line_row :=
  item ← uuid_in (PI_CatalogItemID l); wh ← uuid_in (PI_WarehouseID l); q ← numeric_in 4 (round4 (PI_QtyOrdered l));
  c ← numeric_in 4 (round4 (PI_UnitCost l));
  Some {| pl_id := id; pl_po := po; pl_item := item; pl_wh := wh; pl_desc := stockNull (PI_Description l); pl_ordered := q; pl_received := 0;
          pl_cost := c |}.
Fixpoint insert_po_lines (po : string) (ls : list PurchaseOrderLineInput) : docs unit :=
  match ls with
  | [] => ret tt
  | l :: rest =>
      internally (insert_row (po_line_of po l) (fun r d => set_po_lines (dc_po_lines d ++ [r])%list d));!
      insert_po_lines po rest
  end.
(** the document's date: the given one, or [otherwise] *)
Definition txn_date (given otherwise : string) : result string :=
  let t := TrimSpace given in
  if String.eqb t "" then Ok otherwise else if valid_date t then Ok t else Err bad_date.
Definition po_of (user : AuthUser) (p : PurchaseOrderParams) (no wh date : string) (subtotal : f64) (id : string) (d : docs_db) : option po_row :=
  contact ← uuid_opt (nullUUID (PP_ContactID p)); w ← uuid_opt (nullUUID wh); day ← date_in date; s ← numeric_in 4 (round4 subtotal);
  _ ← uuid_opt (nullUUID (AccountID user));
  if existsb (fun x => String.eqb (po_no x) no && negb (po_deleted x)) (dc_pos d) then None
  else Some {| po_id := id; po_no := no; po_supplier := stockNull (PP_SupplierName p); po_contact := contact; po_wh := w; po_status := "open";
               po_date := day; po_note := stockNull (PP_Note p); po_subtotal := s; po_deleted := false |}.
Definition CreatePurchaseOrder (u : option AuthUser) (p : PurchaseOrderParams) (now : Z) : docs PurchaseOrder :=
  as_owner u (fun user =>
    match PP_Lines p, txn_date (PP_TransactionDate p) (format_date now) with
    | [], _ => throw (BadRequest "minimal 1 baris item")
    | _, Err e => throw e
    | _, Ok date =>
        prepare;!
        let wh := TrimSpace (PP_WarehouseID p) in
        let! lines := validate_po_lines wh 0 (PP_Lines p) in
        let! po := in_tx InternalE (
          let! no := internally (nextDocNumber DocPO DocPO) in
          let! po := internally (insert_row (po_of user p no wh date (po_subtotal_of lines)) (fun r d => set_pos (dc_pos d ++ [r])%list d)) in
          insert_po_lines (po_id po) lines;!
          ret po) in
        getPurchaseOrder (po_id po)
    end).
Definition update_po (id : option string) (which : po_row -> bool) (f : po_row -> po_row) : docs bool :=
  stmt (fun d =>
    match id with
    | None => (Err bad_input, d)
    | Some u =>
        let hit p := String.eqb (po_id p) u && which p in
        (Ok (existsb hit (dc_pos d)), set_pos (map (fun p => if hit p then f p else p) (dc_pos d)) d)
    end).
Definition ClosePurchaseOrder (u : option AuthUser) (id : string) (now : Z) : docs PurchaseOrder :=
  as_owner u (fun _ =>
    prepare;!
    let! n := internally (update_po (uuid_in id) (fun p => negb (po_deleted p) && in_list (po_status p) ["open"; "partial"]) (with_po_status "closed")) in
    if negb n then throw (BadRequest "PO tidak bisa ditutup (tidak ditemukan atau status tidak open/partial)")
    else getPurchaseOrder id).
Definition sum_of_lines (f : po_line_row -> Z) (u : string) (d : docs_db) : Z := fold_right Z.add 0 (map f (lines_of_po u d)).
Definition CancelPurchaseOrder (u : option AuthUser) (id : string) (now : Z) : docs PurchaseOrder :=
  as_owner u (fun _ =>
    prepare;!
    let! received := internally (query_with (uuid_in id) (fun u d => qty4 (sum_of_lines pl_received u d))) in
    if fltb epsilon received then throw (BadRequest "PO sudah ada penerimaan, tidak bisa dibatalkan")
    else
      let! n := internally (update_po (uuid_in id)
        (fun p => negb (po_deleted p) && negb (in_list (po_status p) ["cancelled"; "received"; "closed"])) (with_po_status "cancelled")) in
      if negb n then throw (BadRequest "PO tidak bisa dibatalkan pada status saat ini")
      else getPurchaseOrder id).
(** lines go with their order *)
Definition delete_po (u : string) (d : docs_db) : docs_db :=
  set_po_lines (List.filter (fun l => negb (String.eqb (pl_po l) u)) (dc_po_lines d))
    (set_pos (List.filter (fun p => negb (String.eqb (po_id p) u)) (dc_pos d)) d).
Definition DeletePurchaseOrder (u : option AuthUser) (id : string) (now : Z) : docs unit :=
  as_owner u (fun _ =>
    prepare;!
    let! po := getPurchaseOrder id in
    doc_fin (CheckPeriodUnlockedForDate (PO_TransactionDate po) now);!
    if existsb (fun l => fltb epsilon (PL_QtyReceived l)) (PO_Lines po) then throw (BadRequest "PO sudah ada penerimaan, tidak bisa dihapus")
    else
      let! billed := internally (query_with (uuid_in id) (fun u d => existsb (fun b => bool_decide (bi_po b = Some u)) (dc_bills d))) in
      if billed then throw (BadRequest "PO sudah punya bill penerimaan, tidak bisa dihapus")
      else if negb (in_list (PO_Status po) ["open"; "cancelled"]) then throw (BadRequest "hanya PO terbuka atau dibatalkan yang bisa dihapus")
      else internally (exec_at (uuid_in id) delete_po)).
Definition edit_po (p : PurchaseOrderParams) (wh date : string) (subtotal : f64) (o : po_row) : option po_row :=
  contact ← uuid_opt (nullUUID (PP_ContactID p)); w ← uuid_opt (nullUUID wh); day ← date_in date; s ← numeric_in 4 (round4 subtotal);
  Some {| po_id := po_id o; po_no := po_no o; po_supplier := stockNull (PP_SupplierName p); po_contact := contact; po_wh := w;
          po_status := po_status o; po_date := day; po_note := stockNull (PP_Note p); po_subtotal := s; po_deleted := po_deleted o |}.
Definition UpdatePurchaseOrder (u : option AuthUser) (id : string) (p : PurchaseOrderParams) (now : Z) : docs PurchaseOrder :=
  as_owner u (fun user =>
    match PP_Lines p with
    | [] => throw (BadRequest "minimal 1 baris item")
    | _ =>
        prepare;!
        let! po := getPurchaseOrder id in
        doc_fin (CheckPeriodUnlockedForDate (PO_TransactionDate po) now);!
        if negb (String.eqb (PO_Status po) "open") then throw (BadRequest "hanya PO berstatus open yang bisa diedit")
        else if existsb (fun l => fltb epsilon (PL_QtyReceived l)) (PO_Lines po) then throw (BadRequest "PO sudah ada penerimaan, tidak bisa diedit")
        else
          match txn_date (PP_TransactionDate p) (PO_TransactionDate po) with
          | Err e => throw e
          | Ok date =>
              let wh := TrimSpace (PP_WarehouseID p) in
              let wh := if String.eqb wh "" then default "" (PO_WarehouseID po) else wh in
              let! lines := validate_po_lines wh 0 (PP_Lines p) in
              in_tx InternalE (
                internally (exec_at (uuid_in id) (fun u d => set_po_lines (List.filter (fun l => negb (String.eqb (pl_po l) u)) (dc_po_lines d)) d));!
                internally (replace_at (uuid_in id) po_id (edit_po p wh date (po_subtotal_of lines)) dc_pos set_pos);!
                insert_po_lines (PO_ID po) lines);!
              getPurchaseOrder id
          end
    end).

(** ** Bills *)
(** [sumBillLines] *)
Definition sumBillLines (ls : list BillLineInput) : f64 := round4 (fold_left (fun s l => fadd s (fmul (BI_Qty l) (BI_UnitCost l))) ls fzero).
Definition line_of_bill_row (d : docs_db) (l : bill_line_row) : BillLine :=
  {| BL_ID := bl_id l; BL_CatalogItemID := bl_item l; BL_ItemName := name_of_item (bl_item l) d; BL_WarehouseID := bl_wh l;
     BL_Description := default "" (bl_desc l); BL_Qty := qty4 (bl_qty l); BL_UnitCost := qty4 (bl_cost l); BL_BatchNo := nullStrPtr (bl_batch l) |}.
Definition getBill (id : string) : docs Bill :=
  let! b := wrapping (not_found "bill tidak ditemukan") (row_at (uuid_in id) find_bill) in
  let! lines := internally (query_with (uuid_in id) (fun u d => map (line_of_bill_row d) (lines_of_bill u d))) in
  ret {| B_ID := bi_id b; B_BillNo := bi_no b; B_PurchaseOrderID := not_blank (bi_po b); B_SupplierName := default "" (bi_supplier b);
         B_TransactionDate := date_text (bi_date b); B_Note := default "" (bi_note b); B_Subtotal := qty4 (bi_subtotal b); B_Lines := lines |}.
Definition bill_in_warehouse (wh : string) (l : BillLineInput) : BillLineInput :=
  {| BI_CatalogItemID := BI_CatalogItemID l; BI_WarehouseID := wh; BI_PurchaseOrderLineID := BI_PurchaseOrderLineID l;
     BI_Description := BI_Description l; BI_Qty := BI_Qty l; BI_UnitCost := BI_UnitCost l; BI_BatchNo := BI_BatchNo l;
     BI_ExpiryDate := BI_ExpiryDate l |}.
Fixpoint validate_bill_lines (defaultWarehouse : string) (i : nat) (ls : list BillLineInput) : docs (list BillLineInput) :=
  match ls with
  | [] => ret []
  | l :: rest =>
      if fleb (BI_Qty l) epsilon then throw (BadRequest (at_line i "qty harus lebih dari 0"))
      else if fltb (BI_UnitCost l) fzero then throw (BadRequest (at_line i "harga tidak boleh negatif"))
      else
        let wh := if String.eqb (TrimSpace (BI_WarehouseID l)) "" then defaultWarehouse else BI_WarehouseID l in
        wrapping (in_line i) (validateCatalogItem (BI_CatalogItemID l));!
        wrapping (in_line i) (validateWarehouse wh);!
        let! rest := validate_bill_lines defaultWarehouse (S i) rest in
        ret (bill_in_warehouse wh l :: rest)
  end.

(** *** Lines: each adds to the stock and to the order line it receives *)
Definition bill_line_of (bill : string) (l : BillLineInput) (id : string) (_ : docs_db) : option bill_line_row :=
  po_line ← uuid_opt (nullUUID (BI_PurchaseOrderLineID l)); item ← uuid_in (BI_CatalogItemID l); wh ← uuid_in (BI_WarehouseID l);
  q ← numeric_in 4 (round4 (BI_Qty l)); c ← numeric_in 4 (round4 (BI_UnitCost l));
  Some {| bl_id := id; bl_bill := bill; bl_po_line := po_line; bl_item := item; bl_wh := wh; bl_desc := stockNull (BI_Description l);
          bl_qty := q; bl_cost := c; bl_batch := stockNull (BI_BatchNo l); bl_movement := None |}.
(** UPDATE … SET qty_received = f qty_received WHERE id = $1 *)
Definition change_received (line : option string) (f : Z -> option Z) : docs unit :=
  replace_at line pl_id (fun l => n ← f (pl_received l); Some (with_received n l)) dc_po_lines set_po_lines.
Definition bill_movement (bill : string) (cc : costingContext) (l : BillLineInput) : MovementInput :=
  {| MI_CatalogItemID := BI_CatalogItemID l; MI_WarehouseID := BI_WarehouseID l; MI_Type := MovementPurchaseReceive; MI_Direction := dirIn;
     MI_Qty := round4 (BI_Qty l); MI_UnitCost := round4 (BI_UnitCost l); MI_CostingMethod := cc_method cc;
     MI_BlockNegative := cc_blockNegative cc; MI_BatchNo := BI_BatchNo l; MI_RefType := "bill"; MI_RefID := bill |}.
(** one turn of [postBillLinesTx]'s loop; [bill]: the id the columns hold *)
Definition post_bill_line (billID bill : string) (l : BillLineInput) (now : Z) : docs unit :=
  match parseDatePtr (BI_ExpiryDate l) with
  | Some e => throw e
  | None =>
      let! line := internally (insert_row (bill_line_of bill l) (fun r d => set_bill_lines (dc_bill_lines d ++ [r])%list d)) in
      internally (ensureSku (BI_CatalogItemID l));!
      let! cc := costingContext_for (BI_CatalogItemID l) in
      let! res := postMovement (bill_movement billID cc l) now in
      internally (replace_at (Some (bl_id line)) bl_id (fun r => Some (with_movement (MR_MovementID res) r)) dc_bill_lines set_bill_lines);!
      if String.eqb (TrimSpace (BI_PurchaseOrderLineID l)) "" then ret tt
      else internally (change_received (uuid_in (BI_PurchaseOrderLineID l)) (numeric_sum 4 (round4 (BI_Qty l))))
  end.
Fixpoint post_bill_lines (billID bill : string) (ls : list BillLineInput) (now : Z) : docs unit :=
  match ls with [] => ret tt | l :: rest => post_bill_line billID bill l now;! post_bill_lines billID bill rest now end.
Definition receipts (u : string) (d : docs_db) : f64 * f64 := (qty4 (sum_of_lines pl_ordered u d), qty4 (sum_of_lines pl_received u d)).
Definition refreshPOStatusTx (poID : string) : docs unit :=
  let! sums := internally (query_with (uuid_in poID) receipts) in
  let! n := update_po (uuid_in poID) (fun p => in_list (po_status p) ["open"; "partial"; "received"])
              (with_po_status (poStatusFromReceipts sums.1 sums.2)) in
  ret tt.
Definition postBillLinesTx (billID bill poID : string) (ls : list BillLineInput) (now : Z) : docs unit :=
  post_bill_lines billID bill ls now;!
  if String.eqb (TrimSpace poID) "" then ret tt else refreshPOStatusTx poID.

Definition bill_of (user : AuthUser) (p : BillParams) (no wh date : string) (subtotal : f64) (id : string) (d : docs_db) : option bill_row :=
  po ← uuid_opt (nullUUID (BP_PurchaseOrderID p)); contact ← uuid_opt (nullUUID (BP_ContactID p)); w ← uuid_opt (nullUUID wh);
  day ← date_in date; s ← numeric_in 4 subtotal; _ ← uuid_opt (nullUUID (AccountID user));
  if existsb (fun x => String.eqb (bi_no x) no && negb (bi_deleted x)) (dc_bills d) then None
  else Some {| bi_id := id; bi_no := no; bi_po := po; bi_supplier := stockNull (BP_SupplierName p); bi_contact := contact; bi_wh := w;
               bi_date := day; bi_note := stockNull (BP_Note p); bi_subtotal := s; bi_deleted := false |}.
(** the purchase as an expense, for tenants that book it at once *)
Definition post_purchase (posts : bool) (user : AuthUser) (billID billNo : string) (subtotal : f64) (now : Z) : docs unit :=
  if posts && fltb fzero subtotal then
    doc_fin (RecordInventoryEntry (AccountID user) billID "expense" finCatPembelianPersediaan ("Pembelian persediaan " ++ billNo)
               (round2 subtotal) "" now)
  else ret tt.
Definition check_expense_period (posts : bool) (now : Z) : docs unit := if posts then doc_fin (CheckCurrentPeriodUnlocked now) else ret tt.
Definition CreateBill (u : option AuthUser) (p : BillParams) (now : Z) : docs Bill :=
  as_owner u (fun user =>
    match BP_Lines p, txn_date (BP_TransactionDate p) (format_date now) with
    | [], _ => throw (BadRequest "minimal 1 baris item")
    | _, Err e => throw e
    | _, Ok date =>
        prepare;!
        let! posts := internally loadSetting in
        check_expense_period posts now;!
        let wh := TrimSpace (BP_WarehouseID p) in
        let! lines := validate_bill_lines wh 0 (BP_Lines p) in
        let subtotal := sumBillLines lines in
        let! bill := in_tx InternalE (
          let! no := internally (nextDocNumber DocBill DocBill) in
          let! bill := internally (insert_row (bill_of user p no wh date subtotal) (fun r d => set_bills (dc_bills d ++ [r])%list d)) in
          postBillLinesTx (bi_id bill) (bi_id bill) (BP_PurchaseOrderID p) lines now;!
          ret bill) in
        post_purchase posts user (bi_id bill) (bi_no bill) subtotal now;!
        getBill (bi_id bill)
    end).

(** *** Editing and deleting: the movements are purged, and posted again *)
Definition po_receipts_of_bill (u : string) (d : docs_db) : list (string * Z) :=
  omap (fun l => (fun p => (p, bl_qty l)) <$> bl_po_line l) (lines_of_bill u d).
Definition floor0 (n : option Z) : option Z := Z.max 0 <$> n.
Fixpoint revert_receipts (rs : list (string * Z)) : docs unit :=
  match rs with
  | [] => ret tt
  | (line, q) :: rest =>
      internally (change_received (Some line) (fun n => floor0 (numeric_sum 4 (fopp (qty4 q)) n)));! revert_receipts rest
  end.
Definition revertPOReceiptsForBill (id : string) : docs unit :=
  let! revs := internally (query_with (uuid_in id) po_receipts_of_bill) in revert_receipts revs.
Definition edit_bill (p : BillParams) (wh date : string) (subtotal : f64) (b : bill_row) : option bill_row :=
  contact ← uuid_opt (nullUUID (BP_ContactID p)); w ← uuid_opt (nullUUID wh); day ← date_in date; s ← numeric_in 4 subtotal;
  Some {| bi_id := bi_id b; bi_no := bi_no b; bi_po := bi_po b; bi_supplier := stockNull (BP_SupplierName p); bi_contact := contact;
          bi_wh := w; bi_date := day; bi_note := stockNull (BP_Note p); bi_subtotal := s; bi_deleted := bi_deleted b |}.
Definition delete_bill_lines (u : string) (d : docs_db) : docs_db :=
  set_bill_lines (List.filter (fun l => negb (String.eqb (bl_bill l) u)) (dc_bill_lines d)) d.
Definition UpdateBill (u : option AuthUser) (id : string) (p : BillParams) (now : Z) : docs Bill :=
  as_owner u (fun user =>
    match BP_Lines p with
    | [] => throw (BadRequest "minimal 1 baris item")
    | _ =>
        prepare;!
        let! existing := getBill id in
        doc_fin (CheckPeriodUnlockedForDate (B_TransactionDate existing) now);!
        let! posts := internally loadSetting in
        check_expense_period posts now;!
        let date := TrimSpace (BP_TransactionDate p) in
        let date := if String.eqb date "" then B_TransactionDate existing else date in
        let wh := TrimSpace (BP_WarehouseID p) in
        let! lines := validate_bill_lines wh 0 (BP_Lines p) in
        let! movs := collectMovementsByRef "bill" id in
        doc_fin (RemoveInventoryEntries (movementFinanceRefs id movs));!
        let subtotal := sumBillLines lines in
        in_tx InternalE (
          revertPOReceiptsForBill id;!
          purgeByRef "bill" id now;!
          internally (exec_at (uuid_in id) delete_bill_lines);!
          internally (replace_at (uuid_in id) bi_id (edit_bill p wh date subtotal) dc_bills set_bills);!
          postBillLinesTx id (B_ID existing) (default "" (B_PurchaseOrderID existing)) lines now);!
        post_purchase posts user id (B_BillNo existing) subtotal now;!
        getBill id
    end).
(** lines go with their bill *)
Definition delete_bill (u : string) (d : docs_db) : docs_db :=
  delete_bill_lines u (set_bills (List.filter (fun b => negb (String.eqb (bi_id b) u)) (dc_bills d)) d).
Definition DeleteBill (u : option AuthUser) (id : string) (now : Z) : docs unit :=
  as_owner u (fun _ =>
    prepare;!
    let! bill := getBill id in
    doc_fin (CheckPeriodUnlockedForDate (B_TransactionDate bill) now);!
    let! movs := collectMovementsByRef "bill" id in
    doc_fin (RemoveInventoryEntries (movementFinanceRefs id movs));!
    in_tx_errs InternalE (fun e => e) (
      let! revs := internally (query_with (uuid_in id) po_receipts_of_bill) in
      purgeByRef "bill" id now;!
      revert_receipts revs;!
      (match B_PurchaseOrderID bill with
       | Some po =>
           let! sums := internally (query_with (uuid_in po) receipts) in
           let! n := internally (update_po (uuid_in po) (fun _ => true) (with_po_status (poStatusFromReceipts sums.1 sums.2))) in
           ret tt
       | None => ret tt
       end);!
      internally (exec_at (uuid_in id) delete_bill))).
End purchasing.
