(* ===== verification/DocSteps.v ===== *)
(** * Bodies of document transactions

    [within c P m Q]: inside a transaction that is still good, [m] takes tables
    in [P] to tables in [Q a] when it answers [a]; [c] as in Triples.v.  With it,
    what the stock programs do to the movements: [cores], the columns of a
    movement that a replay does not rewrite. *)
From S2P Require Import Prelude GoStrings AdminSession PgTx Triples Zoom Float64 FinTables Costing StockLedger.

Open Scope string_scope.
Open Scope Z_scope.

Definition within {D A} (c : bool) (P : D -> Prop) (m : prog (pg D) A) (Q : A -> D -> Prop) : Prop :=
  forall w d, p_tx w = Some (d, false) -> (c = true -> p_faults w = []) -> P d ->
    let '(r, w') := m w in
    p_db w' = p_db w /\ (c = true -> p_faults w' = []) /\
    match r with Ok a => exists d', p_tx w' = Some (d', false) /\ Q a d' | Err _ => is_Some (p_tx w') end.

Section within.
Context {D : Type} (c : bool).
Implicit Types P : D -> Prop.

Lemma within_conseq {A} P P' (m : prog (pg D) A) Q Q' :
  within c P m Q -> (forall d, P' d -> P d) -> (forall a d, Q a d -> Q' a d) -> within c P' m Q'.
Proof.
  intros Hm HP HQ w d Hw Hc Hd. specialize (Hm w d Hw Hc (HP _ Hd)). destruct (m w) as [[a|e] w']; [|done].
  destruct Hm as (? & ? & d' & ? & ?). eauto 10.
Qed.
Lemma within_post {A} P (m : prog (pg D) A) Q Q' : within c P m Q -> (forall a d, Q a d -> Q' a d) -> within c P m Q'.
Proof. intros Hm HQ. by eapply within_conseq. Qed.
Lemma within_ret {A} P (a : A) (Q : A -> D -> Prop) : (forall d, P d -> Q a d) -> within c P (ret a) Q.
Proof. intros HQ w d Hw Hc Hd. cbn. eauto 10. Qed.
Lemma within_throw {A} P e (Q : A -> D -> Prop) : within c P (throw e) Q.
Proof. intros w d Hw Hc Hd. cbn. rewrite Hw. eauto. Qed.
Lemma within_bind {A B} P (m : prog (pg D) A) (k : A -> prog (pg D) B) R Q :
  within c P m R -> (forall a, within c (R a) (k a) Q) -> within c P (bind m k) Q.
Proof.
  intros Hm Hk w d Hw Hc Hd. specialize (Hm w d Hw Hc Hd). unfold bind. destruct (m w) as [[a|e] w1]; [|done].
  destruct Hm as (Hdb & Hf & d1 & Hw1 & Hd1). specialize (Hk a w1 d1 Hw1 Hf Hd1). by rewrite Hdb in Hk.
Qed.
Lemma within_stmt {A} P (f : D -> result A * D) (Q : A -> D -> Prop) :
  (forall d a d', P d -> f d = (Ok a, d') -> Q a d') -> within c P (stmt f) Q.
Proof.
  intros Hf w d Hw Hc Hd. specialize (Hf d). unfold stmt. rewrite Hw.
  assert (c = true -> tail (p_faults w) = []) as Hc' by (intros H; by rewrite Hc).
  destruct (outcome w); cbn; [|by eauto..]. destruct (f d) as [[a|e] d']; cbn; [|by eauto]. split_and!; [done|done|]. eauto.
Qed.
Lemma within_read {A} P (f : D -> A) Q : (forall d, P d -> Q (f d) d) -> within c P (read f) Q.
Proof. intros HQ. apply within_stmt. intros d a d' HP [= <- <-]. by apply HQ. Qed.
Lemma within_exec P (f : D -> D) Q : (forall d, P d -> Q tt (f d)) -> within c P (exec f) Q.
Proof. intros HQ. apply within_stmt. intros d a d' HP [= <- <-]. by apply HQ. Qed.
Lemma within_if {A} P (b : bool) (m1 m2 : prog (pg D) A) Q :
  (b = true -> within c P m1 Q) -> (b = false -> within c P m2 Q) -> within c P (if b then m1 else m2) Q.
Proof. destruct b; auto. Qed.
Lemma within_wrapping {A} P wrap (m : prog (pg D) A) Q : within c P m Q -> within c P (wrapping wrap m) Q.
Proof. intros Hm w d Hw Hc Hd. specialize (Hm w d Hw Hc Hd). unfold wrapping, bind, attempt. by destruct (m w) as [[a|e] w']. Qed.
Lemma within_pure {A} P (X : Prop) (m : prog (pg D) A) Q : (X -> within c P m Q) -> within c (fun d => P d /\ X) m Q.
Proof. intros Hm w d Hw Hc [Hd HX]. exact (Hm HX w d Hw Hc Hd). Qed.
Lemma within_exists {A B} (P : B -> D -> Prop) (m : prog (pg D) A) Q :
  (forall b, within c (P b) m Q) -> within c (fun d => exists b, P b d) m Q.
Proof. intros Hm w d Hw Hc [b Hd]. exact (Hm b w d Hw Hc Hd). Qed.
Lemma within_map {A B} P (m : prog (pg D) A) (f : A -> B) Q : within c P m (fun _ => Q) -> within c P (let! a := m in ret (f a)) (fun _ => Q).
Proof. intros Hm. eapply within_bind; [exact Hm|]. intros a. by apply within_ret. Qed.
(** the tables before, for a postcondition that speaks of them *)
Lemma within_from {A} P (m : prog (pg D) A) Q : (forall d, P d -> within c (eq d) m Q) -> within c P m Q.
Proof. intros Hm w d Hw Hc Hd. exact (Hm d Hd w d Hw Hc eq_refl). Qed.
(** the whole transaction: its body, or nothing *)
Lemma within_in_tx {A} P wrap commit (body : prog (pg D) A) Q :
  within c P body Q ->
  triple c P (in_tx_errs wrap commit body) (fun r d => match r with Ok a => Q a d | Err _ => P d \/ exists a, Q a d end).
Proof.
  intros Hm w [Hw Hf] Hd. unfold in_tx_errs, bind at 1, attempt at 1, begin_tx.
  assert (c = true -> tail (p_faults w) = []) as Hf' by (intros H; by rewrite Hf).
  destruct (outcome w); cbn; [|by (split; [done|]; auto)..].
  set (w1 := with_tx_state _ _). specialize (Hm w1 (p_db w) eq_refl Hf' Hd).
  unfold bind at 1, attempt at 1. destruct (body w1) as [[a|e] w2]; destruct Hm as (Hdb & Hf2 & Hm).
  2: { cbn. split; [done|]. left. by rewrite Hdb. }
  destruct Hm as (d2 & Hw2 & HQ). unfold bind at 1, attempt at 1, commit_tx. rewrite Hw2.
  assert (c = true -> tail (p_faults w2) = []) as Hf2' by (intros H; by rewrite Hf2).
  destruct (outcome w2); cbn; (split; [done|]); [done|left; by rewrite Hdb|right; eauto].
Qed.
End within.
(** a component's call on its part of the tables *)
Lemma within_zoom {D E A} (get : E -> D) (put : D -> E -> E) `{!Lens get put} c (P : E -> Prop) (m : prog (pg D) A) (R : E -> A -> D -> Prop) Q :
  (forall e, P e -> within c (eq (get e)) m (R e)) -> (forall e a d', P e -> R e a d' -> Q a (put d' e)) ->
  within c P (zoom get put m) Q.
Proof.
  intros Hm HQ w e Hw Hf He. unfold zoom, seen. rewrite Hw. cbn [fmap option_fmap option_map fst snd].
  specialize (Hm e He (Build_pg (get (p_db w)) (Some (get e, false)) (p_faults w)) (get e) eq_refl Hf eq_refl).
  destruct (m _) as [[a|x] w']; destruct Hm as (Hdb & Hf' & Hm); cbn in Hdb |- *; rewrite Hdb, (put_get get put).
  - destruct Hm as (d' & Hw' & HR). rewrite Hw'. cbn. split_and!; [done|done|]. eauto.
  - destruct (p_tx w') as [t|]; [|by destruct Hm]. cbn. split_and!; [done|done|]. by eexists.
Qed.
Create HintDb within.
(** a program that keeps a predicate, by its structure; the database [within] has the components' programs *)
Ltac within := intros; repeat first
  [ apply within_ret; by auto | apply within_throw | apply within_read; by auto | apply within_wrapping
  | apply within_if; intros ? | solve [auto with within]
  | match goal with |- within _ ?P (bind _ _) (fun _ => ?P) => eapply (within_bind _ _ _ _ (fun _ => P)); [|intros ?] end
  | match goal with |- within _ _ (match ?x with _ => _ end) _ => destruct x end; cbv zeta ].

(** ** Movements that a replay keeps *)
(** item, warehouse, type, direction, quantity, reference *)
Record core := {
  k_id : string; k_item : string; k_wh : string; k_type : string; k_dir : string; k_qty : f64;
  k_ref_type : option string; k_ref_id : option string
}.
Definition core_of (m : movement_row) : core :=
  {| k_id := mv_id m; k_item := mv_item m; k_wh := mv_wh m; k_type := mv_type m; k_dir := mv_dir m; k_qty := mv_qty m;
     k_ref_type := mv_ref_type m; k_ref_id := mv_ref_id m |}.
Definition cores (d : stock_db) : list core := map core_of (movements d).
Definition has_ref (refType refID : string) (k : core) : bool :=
  bool_decide (k_ref_type k = Some refType) && bool_decide (k_ref_id k = Some refID).
Definition core_from (inp : MovementInput) (id : string) (qty : f64) : core :=
  {| k_id := id; k_item := MI_CatalogItemID inp; k_wh := MI_WarehouseID inp; k_type := MI_Type inp; k_dir := MI_Direction inp; k_qty := qty;
     k_ref_type := stockNull (MI_RefType inp); k_ref_id := nullUUID (MI_RefID inp) |}.
Lemma filter_map_comm {A B} (f : A -> B) (p : B -> bool) l : List.filter p (map f l) = map f (List.filter (fun x => p (f x)) l).
Proof. induction l as [|x l IH]; cbn; [done|]. by destruct (p (f x)); cbn; rewrite IH. Qed.

Section stock.
Context `{Numeric} (c : bool).
Lemma within_checked P (f : stock_db -> option stock_db) Q : (forall d d', P d -> f d = Some d' -> Q tt d') -> within c P (checked f) Q.
Proof. intros Hf. apply within_stmt. intros d a d' HP. specialize (Hf d). destruct (f d); [|done]. intros [= <- <-]. by apply Hf. Qed.
Lemma within_internal {A} P (m : stock A) Q : within c P m Q -> within c P (internal m) Q.
Proof. apply within_wrapping. Qed.
Definition cored (l : list core) (d : stock_db) : Prop := cores d = l.
Lemma within_cored {A} P (m : stock A) : (forall l, within c (cored l) m (fun _ => cored l)) ->
  within c (fun d => P (cores d)) m (fun _ d => P (cores d)).
Proof.
  intros Hm. apply within_from. intros d Hd. eapply within_conseq; [apply (Hm (cores d))|by intros ? <-|]. by intros a d' ->.
Qed.
#[local] Hint Resolve within_internal : within.

Lemma within_take_draws l draws : within c (cored l) (take_draws draws) (fun _ => cored l).
Proof.
  induction draws as [|x rest IH]; cbn [take_draws]; [within|].
  eapply within_bind; [|intros ?; exact IH]. apply within_checked. intros d d' Hd. unfold take_from_layer. by destruct (mapM _ _); [intros [= <-]|].
Qed.
#[local] Hint Resolve within_take_draws : within.
Lemma within_issue_cost l inp method b : within c (cored l) (issue_cost inp method b) (fun _ => cored l).
Proof. unfold issue_cost. cbv zeta. within. Qed.
Lemma within_insert_layer l item wh q u b s now : within c (cored l) (insert_layer item wh q u b s now) (fun _ => cored l).
Proof.
  apply within_checked. intros d d' Hd. destruct (column q), (column u); try done. cbn. destruct (existsb _ _); [done|].
  by intros [= <-].
Qed.
Lemma within_upsert l item wh b : within c (cored l) (upsert_balance item wh b) (fun _ => cored l).
Proof.
  apply within_checked. intros d d' Hd. destruct (column (OnHand b)), (column (AvgCost b)), (column (TotalValue b)); try done.
  by intros [= <-].
Qed.
#[local] Hint Resolve within_issue_cost within_insert_layer within_upsert : within.
Definition added (inp : MovementInput) (l : list core) (id : string) (d : stock_db) : Prop :=
  exists qty, cored (l ++ [core_from inp id qty])%list d /\ column (MI_Qty inp) = Some qty.
Lemma within_insert_movement l inp now u cost b : within c (cored l) (insert_movement inp now u cost b) (added inp l).
Proof.
  apply within_stmt. intros d a d' Hd. destruct (movement_of _ _ _ _ _ _) as [m|] eqn:Em; [|done].
  destruct (existsb _ _); [done|]. intros [= <- <-]. unfold movement_of in Em. destruct (column (MI_Qty inp)) as [q|] eqn:Eq; [|done].
  destruct (column u), (column cost), (column (OnHand b)), (column (AvgCost b)); try done. injection Em as <-.
  exists q. split; [|done]. unfold cored, cores in *. cbn [movements next_id set_movements]. by rewrite map_app, Hd.
Qed.
Lemma within_PostMovement l inp now :
  within c (cored l) (PostMovement inp now) (fun res d => fleb (MI_Qty inp) epsilon = false /\ added inp l (MR_MovementID res) d).
Proof.
  unfold PostMovement. destruct (fleb (MI_Qty inp) epsilon); [apply within_throw|]. apply within_if; intros _; [apply within_throw|]. cbv zeta.
  eapply (within_bind _ _ _ _ (fun _ => cored l)); [within|intros found].
  eapply (within_bind _ _ _ _ (fun _ => cored l)); [within|intros [cost shortfall]].
  eapply within_bind; [apply within_insert_movement|intros id].
  apply within_exists. intros q. apply within_pure.
  set (l' := (l ++ _)%list). intros Hq. do 2 (eapply (within_bind _ _ _ _ (fun _ => cored l')); [within|intros ?]).
  apply within_ret. intros d Hd. split; [done|]. by exists q.
Qed.
Lemma map_snapshot s ms ms' :
  mapM (fun m => if String.eqb (mv_id m) (RS_MovementID s) then apply_snapshot s m else Some m) ms = Some ms' -> map core_of ms' = map core_of ms.
Proof.
  intros Hms. apply mapM_Some_1 in Hms. induction Hms as [|m m' ms ms' Hm _ IH]; [done|]. cbn. f_equal; [|exact IH].
  destruct (String.eqb _ _); [|by injection Hm as <-]. unfold apply_snapshot in Hm.
  by simplify_option_eq.
Qed.
Lemma within_write_snapshots l ss : within c (cored l) (write_snapshots ss) (fun _ => cored l).
Proof.
  induction ss as [|s rest IH]; cbn [write_snapshots]; [within|].
  eapply within_bind; [|intros ?; exact IH]. apply within_internal, within_checked. intros d d' Hd. unfold write_snapshot.
  destruct (mapM _ _) as [ms|] eqn:E; [|done]. intros [= <-]. unfold cored, cores. cbn [movements set_movements].
  by rewrite (map_snapshot _ _ _ E).
Qed.
Lemma within_insert_replayed l item wh now ls : within c (cored l) (insert_replayed item wh now ls) (fun _ => cored l).
Proof. induction ls as [|x rest IH]; cbn [insert_replayed]; [within|]. eapply within_bind; [|intros ?; exact IH]. within. Qed.
Lemma within_context l item : within c (cored l) (loadCostingContext item) (fun _ => cored l).
Proof. unfold loadCostingContext. within. Qed.
#[local] Hint Resolve within_write_snapshots within_insert_replayed within_context : within.
Lemma within_replay l item wh now : within c (cored l) (replayPairInTx item wh now) (fun _ => cored l).
Proof. unfold replayPairInTx. cbv zeta. within. apply within_exec. intros d Hd. exact Hd. Qed.
#[local] Hint Resolve within_replay : within.
Lemma within_replays l pairs seen now : within c (cored l) (replayPairsInTx pairs seen now) (fun _ => cored l).
Proof.
  revert seen. induction pairs as [|p rest IH]; intros seen; cbn [replayPairsInTx]; [within|]. apply within_if; intros _; [apply IH|].
  eapply (within_bind _ _ _ _ (fun _ => cored l)); [within|intros ?; apply IH].
Qed.
#[local] Hint Resolve within_replays : within.
(** deleting a document's movements leaves those of the others as they are *)
Lemma within_purge l refType refID now :
  within c (cored l) (purgeMovementsByRef refType refID now) (fun _ => cored (List.filter (fun k => negb (has_ref refType refID k)) l)).
Proof.
  unfold purgeMovementsByRef. set (l' := List.filter _ l).
  eapply (within_bind _ _ _ _ (fun ms d => cored l d /\ ms = List.filter (by_ref refType refID) (movements d))); [by apply within_internal, within_read|].
  intros ms. cbv zeta. eapply (within_bind _ _ _ _ (fun _ => cored l')); [|intros ?; within].
  assert (forall d, cored l d -> cored l' (set_movements (List.filter (fun m => negb (by_ref refType refID m)) (movements d)) d)) as Hdel.
  { intros d <-. unfold l', cored, cores. by rewrite filter_map_comm. }
  apply within_if; intros Hms.
  - apply within_internal, within_exec. intros d [Hd _]. by apply Hdel.
  - apply within_ret. intros d [Hd ->]. apply negb_false_iff, Nat.eqb_eq, nil_length_inv in Hms. apply Hdel in Hd.
    unfold cored, cores in *. cbn [movements set_movements] in Hd. rewrite <- Hd. f_equal. clear -Hms.
    induction (movements d) as [|m ms IH]; [done|]. cbn in *. destruct (by_ref refType refID m); [done|]. cbn. by rewrite IH at 1.
Qed.
End stock.
#[export] Hint Resolve within_internal within_context within_replays : within.
