(* ===== verification/DocView.v ===== *)
(** * What the documents say, and what leaves it alone

    [view]: the tables of the documents, the movements but for their costs, and
    the ids still to be drawn.  Calls of the finance component and
    reads do not change it. *)
From S2P Require Import Prelude GoStrings AdminSession PgTx Triples Zoom Float64 Billing FinTables FinPosting FinLedger FinBooks Costing StockLedger Shop.
From S2P Require Import Docs DocSteps Purchasing.

Open Scope string_scope.
Open Scope Z_scope.

Record view := {
  v_pos : list po_row; v_po_lines : list po_line_row; v_bills : list bill_row; v_bill_lines : list bill_line_row;
  v_txns : list stock_txn_row; v_txn_lines : list stock_line_row; v_returns : list return_row; v_return_lines : list return_line_row;
  v_moves : list core; v_ids : list string
}.
Definition of_bills (k : core) : bool := bool_decide (k_ref_type k = Some "bill").
Definition view_of (d : docs_db) : view :=
  {| v_pos := dc_pos d; v_po_lines := dc_po_lines d; v_bills := dc_bills d; v_bill_lines := dc_bill_lines d;
     v_txns := dc_txns d; v_txn_lines := dc_txn_lines d; v_returns := dc_returns d; v_return_lines := dc_return_lines d;
     v_moves := cores (sh_stock (dc_shop d)); v_ids := dc_ids d |}.
Definition v_set_moves x v := {| v_pos := v_pos v; v_po_lines := v_po_lines v; v_bills := v_bills v; v_bill_lines := v_bill_lines v; v_txns := v_txns v;
  v_txn_lines := v_txn_lines v; v_returns := v_returns v; v_return_lines := v_return_lines v; v_moves := x; v_ids := v_ids v |}.
Definition at_view (v : view) (d : docs_db) : Prop := view_of d = v.
(** programs that leave it alone: outside transactions under any failures, and inside *)
Definition quiet {A} (m : docs A) : Prop := forall v, triple false (at_view v) m (fun _ => at_view v).
Definition still {A} (m : docs A) : Prop := forall c v, within c (at_view v) m (fun _ => at_view v).

(** ** Programs that end outside transactions *)
Definition settles {D A} (m : prog (pg D) A) : Prop := preserves (fun w : pg D => p_tx w = None) m.
Lemma settles_stmt {D A} (f : D -> result A * D) : settles (stmt f).
Proof. intros w Hw. pose proof (stmt_keeps (fun _ => True) f (fun _ _ => I) w (conj Hw I)) as H. apply H. Qed.
Lemma settles_read {D A} (f : D -> A) : settles (read f).
Proof. apply settles_stmt. Qed.
Lemma settles_exec {D} (f : D -> D) : settles (exec f).
Proof. apply settles_stmt. Qed.
Lemma settles_bind {D A B} (m : prog (pg D) A) (k : A -> prog (pg D) B) : settles m -> (forall a, settles (k a)) -> settles (bind m k).
Proof. apply preserves_bind. Qed.
Lemma settles_attempt {D A} (m : prog (pg D) A) : settles m -> settles (attempt m).
Proof. apply preserves_attempt. Qed.
Lemma settles_ignore {D A} (m : prog (pg D) A) : settles m -> settles (ignore m).
Proof. apply preserves_ignore. Qed.
Lemma settles_wrapping {D A} wrap (m : prog (pg D) A) : settles m -> settles (wrapping wrap m).
Proof. intros Hm. apply settles_bind; [by apply preserves_attempt|]. intros [a|e]; [apply preserves_ret|apply preserves_throw]. Qed.
Create HintDb settles.
Ltac unfold_head m := match m with ?f _ => unfold_head f | _ => unfold m end.
(** by the structure of the program, unfolding the calls of lemmas *)
Ltac settle := repeat first
  [ solve [auto with settles]
  | match goal with
    | |- settles (ret _) => apply preserves_ret
    | |- settles (throw _) => apply preserves_throw
    | |- settles (stmt _) => apply settles_stmt
    | |- settles (attempt _) => apply settles_attempt
    | |- settles (ignore _) => apply settles_ignore
    | |- settles (wrapping _ _) => apply settles_wrapping
    | |- settles (bind _ _) => apply settles_bind; [|intros ?]
    | |- settles (match ?x with _ => _ end) => destruct x; cbv zeta
    | |- settles ?m => unfold_head m; cbv zeta
    end ].
Section finance.
Context `{PgInput} `{TimeZones}.
Lemma settles_record by_ ref flow cat desc amount w now : settles (RecordInventoryEntry by_ ref flow cat desc amount w now).
Proof. settle. Qed.
Lemma settles_refresh_each ws : settles (refresh_each ws).
Proof. induction ws as [|w ws IH]; cbn [refresh_each]; settle. Qed.
#[local] Hint Resolve settles_refresh_each : settles.
Lemma settles_remove refs : settles (RemoveInventoryEntries refs).
Proof.
  assert (forall n rs, settles (remove_chunks n rs)) as Hc.
  { induction n as [|n IH]; intros [|r rs]; cbn [remove_chunks]; settle. }
  unfold RemoveInventoryEntries. cbv zeta. generalize (length (uniqueReferenceNos refs)). intros n. settle.
Qed.
Lemma settles_current now : settles (CheckCurrentPeriodUnlocked now).
Proof. settle. Qed.
Lemma settles_for_date date now : settles (CheckPeriodUnlockedForDate date now).
Proof. settle. Qed.
End finance.

(** ** Outside transactions *)
(** [m] leaves the view alone and answers what it says *)
Definition tells {A} (m : docs A) (G : view -> A -> Prop) : Prop :=
  forall v, triple false (at_view v) m (fun r d => at_view v d /\ forall a, r = Ok a -> G v a).
Definition anything {A} (_ : view) (_ : A) : Prop := True.
Lemma tells_weaken {A} (m : docs A) (G G' : view -> A -> Prop) : tells m G -> (forall v a, G v a -> G' v a) -> tells m G'.
Proof. intros Hm HG v. eapply t_conseq; [apply Hm|done|]. naive_solver. Qed.
Lemma quiet_tells {A} (m : docs A) : quiet m -> tells m anything.
Proof. intros Hm v. eapply t_conseq; [apply Hm|done|]. done. Qed.
Lemma tells_quiet {A} (m : docs A) G : tells m G -> quiet m.
Proof. intros Hm v. eapply t_conseq; [apply Hm|done|]. naive_solver. Qed.
Lemma tells_bind {A B} (m : docs A) (k : A -> docs B) F G :
  tells m F -> (forall a v, F v a -> triple false (at_view v) (k a) (fun r d => at_view v d /\ forall b, r = Ok b -> G v b)) -> tells (bind m k) G.
Proof.
  intros Hm Hk v. eapply t_bind; [apply Hm|..].
  - intros a. eapply t_conseq; [apply (t_pure false (at_view v) (F v a)), Hk| |done]. naive_solver.
  - naive_solver.
Qed.
(** a first step that leaves the view alone *)
Lemma tells_then {A B} v (m : docs A) (k : A -> docs B) G Q :
  tells m G -> (forall d, at_view v d -> Q d) -> (forall a, G v a -> triple false (at_view v) (k a) (fun _ => Q)) ->
  triple false (at_view v) (bind m k) (fun _ => Q).
Proof.
  intros Hm HQ Hk. eapply t_bind; [apply Hm|..].
  - intros a. eapply t_conseq; [apply (t_pure false (at_view v) (G v a)), Hk| |done]. naive_solver.
  - naive_solver.
Qed.
Lemma quiet_then {A B} v (m : docs A) (k : A -> docs B) Q :
  quiet m -> (forall d, at_view v d -> Q d) -> (forall a, triple false (at_view v) (k a) (fun _ => Q)) -> triple false (at_view v) (bind m k) (fun _ => Q).
Proof. intros Hm HQ Hk. eapply tells_then; [by apply quiet_tells|done|]. auto. Qed.
Lemma quiet_reads {A} (m : docs A) : reads false m any -> quiet m.
Proof. intros Hm v. eapply t_conseq; [apply (Hm (at_view v))|done|]. naive_solver. Qed.
Lemma tells_reads {A} (m : docs A) (G : view -> A -> Prop) : reads false m (fun d a => G (view_of d) a) -> tells m G.
Proof. intros Hm v. eapply t_conseq; [apply (Hm (at_view v))|done|]. intros r d [Hd HG]. split; [done|]. intros a Ha. by rewrite <- Hd in *; apply HG. Qed.
Lemma quiet_ret {A} (a : A) : quiet (ret a).
Proof. intros v. by apply t_ret. Qed.
Lemma quiet_doc_throw {A} e : quiet (throw (A:=A) e).
Proof. intros v. by apply t_throw. Qed.
Lemma quiet_doc_bind {A B} (m : docs A) (k : A -> docs B) : quiet m -> (forall a, quiet (k a)) -> quiet (bind m k).
Proof. intros Hm Hk v. eapply quiet_then; [done|done|]. intros a. apply Hk. Qed.
Lemma quiet_if {A} (b : bool) (m1 m2 : docs A) : quiet m1 -> quiet m2 -> quiet (if b then m1 else m2).
Proof. by destruct b. Qed.
Lemma quiet_wrapping {A} wrap (m : docs A) : quiet m -> quiet (wrapping wrap m).
Proof. intros Hm v. apply wrapping_triple. eapply t_conseq; [apply Hm|done|]. by intros [a|e]. Qed.
Lemma tells_wrapping {A} wrap (m : docs A) G : tells m G -> tells (wrapping wrap m) G.
Proof. intros Hm v. apply wrapping_triple. eapply t_conseq; [apply Hm|done|]. intros [a|e] d [H1 H2]; naive_solver. Qed.
Lemma quiet_stmt {A} (f : docs_db -> result A * docs_db) : (forall d a d', f d = (Ok a, d') -> view_of d' = view_of d) -> quiet (stmt f).
Proof.
  intros Hf v. apply t_stmt. intros d Hd. unfold stmt_post. specialize (Hf d). destruct (f d) as [[a|e] d'] eqn:E; [|done].
  specialize (Hf a d' eq_refl). assert (at_view v d') by (unfold at_view in *; congruence). done.
Qed.
Lemma quiet_read {A} (f : docs_db -> A) : quiet (read f).
Proof. apply quiet_stmt. by intros d a d' [= _ <-]. Qed.
(** a call of the finance component *)
Lemma quiet_fin {A} (m : fin A) : settles m -> quiet (doc_fin m).
Proof.
  intros Hm v.
  assert (triple false (fun _ => True) m (fun _ _ => True)) as Ht.
  { intros w [Hw _] _. specialize (Hm w Hw). destruct (m w). split; [by split|done]. }
  pose proof (fun F HF => zoom_triple sh_fin set_fin false (fun _ => True) m (fun _ _ => True) F HF Ht) as Hs.
  assert (forall l, triple false (fun s => cores (sh_stock s) = l) (on_fin m) (fun _ s => cores (sh_stock s) = l)) as Hl.
  { intros l. eapply t_conseq; [apply (Hs (fun s => cores (sh_stock s) = l)); done|done|]. by intros r s [_ Hc]. }
  intros w Hw Hd.
  pose proof (zoom_triple dc_shop set_shop false (fun s => cores (sh_stock s) = cores (sh_stock (dc_shop (p_db w)))) (on_fin m) _
    (fun d => forall s, cores (sh_stock s) = cores (sh_stock (dc_shop (p_db w))) -> at_view v (set_shop s d)) ltac:(done) (Hl _) w Hw) as H.
  unfold doc_fin, on_shop. destruct (zoom _ _ _ w) as [r w']. destruct H as [Hi [Hc HF]].
  - split; [done|]. intros s Hs'. unfold at_view in *. rewrite <- Hd. unfold view_of. cbn. by rewrite Hs'.
  - split; [done|]. specialize (HF _ Hc). by rewrite (put_get dc_shop set_shop) in HF.
Qed.

(** ** Inside transactions *)
Lemma still_then {A B} c v (m : docs A) (k : A -> docs B) Q :
  still m -> (forall a, within c (at_view v) (k a) Q) -> within c (at_view v) (bind m k) Q.
Proof. intros Hm Hk. eapply within_bind; [apply Hm|]. exact Hk. Qed.
Lemma still_stmt {A} (f : docs_db -> result A * docs_db) : (forall d a d', f d = (Ok a, d') -> view_of d' = view_of d) -> still (stmt f).
Proof. intros Hf c v. apply within_stmt. intros d a d' Hd E. unfold at_view in *. by rewrite (Hf _ _ _ E). Qed.
Lemma still_wrapping {A} wrap (m : docs A) : still m -> still (wrapping wrap m).
Proof. intros Hm c v. apply within_wrapping, Hm. Qed.
Lemma still_bind {A B} (m : docs A) (k : A -> docs B) : still m -> (forall a, still (k a)) -> still (bind m k).
Proof. intros Hm Hk c v. apply still_then; [done|]. intros a. apply Hk. Qed.
(** a call of the stock component *)
Lemma within_stock {A} c v (m : stock A) (R : list core -> A -> list core -> Prop) :
  (forall l, within c (cored l) m (fun a d => R l a (cores d))) ->
  within c (at_view v) (doc_stock m) (fun a d => exists l', R (v_moves v) a l' /\ at_view (v_set_moves l' v) d).
Proof.
  intros Hm.
  apply (within_zoom dc_shop set_shop c _ _ (fun d a s => exists l', R (cores (sh_stock (dc_shop d))) a l' /\ cores (sh_stock s) = l')).
  - intros d Hd. apply (within_zoom sh_stock set_stock c _ _ (fun s a st => exists l', R (cores (sh_stock s)) a l' /\ cores st = l')).
    + intros s <-. eapply within_conseq; [apply (Hm (cores (sh_stock (dc_shop d))))|by intros ? <-|]. cbn. eauto.
    + intros s a st <- H. exact H.
  - intros d a s Hd (l' & HR & Hl). exists l'. split.
    + by rewrite <- Hd.
    + unfold at_view in *. rewrite <- Hd. unfold view_of. cbn. by rewrite Hl.
Qed.
Lemma still_stock {A} (m : stock A) : (forall c l, within c (cored l) m (fun _ => cored l)) -> still (doc_stock m).
Proof.
  intros Hm c v. eapply within_post; [apply (within_stock c v m (fun l _ l' => l' = l))|].
  - intros l. apply Hm.
  - intros a d (l' & -> & Hd). by destruct v.
Qed.
Lemma still_query {A P} (p : option P) (f : P -> docs_db -> A) : still (query_with p f).
Proof. apply still_stmt. intros d a d'. destruct p; [by intros [= _ <-]|done]. Qed.

Section steps.
Context `{HI : PgInput} `{HT : TimeZones} `{HN : Numeric} `{HO : OrderInput}.
Lemma quiet_query {A P} (p : option P) (f : P -> docs_db -> A) : quiet (query_with p f).
Proof. apply quiet_stmt. intros d a d'. destruct p; [by intros [= _ <-]|done]. Qed.
Lemma quiet_prepare : quiet (prepare : docs unit).
Proof. apply quiet_read. Qed.
Lemma quiet_setting : quiet loadSetting.
Proof.
  apply quiet_wrapping, quiet_doc_bind; [apply quiet_wrapping, quiet_read|intros _]. apply quiet_doc_bind; [apply quiet_read|intros s].
  apply quiet_if; [apply quiet_read|]. apply quiet_doc_bind; [|intros _; apply quiet_ret]. apply quiet_stmt. by intros d a d' [= _ <-].
Qed.
Lemma quiet_catalog item : quiet (validateCatalogItem item).
Proof.
  apply quiet_if; [apply quiet_doc_throw|]. apply quiet_doc_bind; [apply quiet_wrapping, quiet_query|intros b]. apply quiet_if; [apply quiet_ret|apply quiet_doc_throw].
Qed.
Lemma quiet_warehouse wh : quiet (validateWarehouse wh).
Proof.
  apply quiet_if; [apply quiet_doc_throw|]. apply quiet_doc_bind; [apply quiet_wrapping, quiet_query|intros b]. apply quiet_if; [apply quiet_ret|apply quiet_doc_throw].
Qed.
Lemma quiet_collect t id : quiet (collectMovementsByRef t id).
Proof. apply quiet_wrapping, quiet_query. Qed.
Lemma still_sku item : still (ensureSku item).
Proof.
  apply still_stmt. intros d a d'. destruct (uuid_in item) as [u|]; [|done]. intros [= _ <-]. unfold view_of, new_sku. cbn.
  by destruct (inv_sku (sh_stock (dc_shop d)) !! u).
Qed.
Lemma still_number t p : still (nextDocNumber t p).
Proof. apply still_bind; [apply still_stmt; by intros d a d' [= _ <-]|]. intros n c v. by apply within_ret. Qed.
Lemma still_costing item : still (costingContext_for item).
Proof.
  unfold costingContext_for. destruct (uuid_in item); [|by apply still_wrapping, still_stmt]. apply still_stock. intros c l. apply within_context.
Qed.
(** an order and a bill, as they are read *)
Lemma row_at_tells {A} (id : option string) (f : string -> docs_db -> option A) (g : string -> view -> option A) :
  (forall u d, f u d = g u (view_of d)) -> tells (row_at id f) (fun v a => exists u, id = Some u /\ g u v = Some a).
Proof.
  intros Hf. apply tells_reads. apply reads_stmt. intros d. destruct id as [u|]; [|done]. destruct (f u d) as [a|] eqn:E; [|done].
  split; [done|]. exists u. split; [done|]. by rewrite <- Hf.
Qed.
Definition po_in (u : string) (v : view) : option po_row := List.find (fun p => String.eqb (po_id p) u && negb (po_deleted p)) (v_pos v).
Definition bill_in (u : string) (v : view) : option bill_row := List.find (fun b => String.eqb (bi_id b) u && negb (bi_deleted b)) (v_bills v).
Lemma tells_bill id : tells (getBill id) (fun v b => exists u row, uuid_in id = Some u /\ bill_in u v = Some row /\
  B_ID b = bi_id row /\ B_PurchaseOrderID b = not_blank (bi_po row)).
Proof.
  apply tells_bind with (F := fun v row => exists u, uuid_in id = Some u /\ bill_in u v = Some row).
  - apply tells_wrapping, (row_at_tells _ find_bill bill_in). done.
  - intros row v (u & Hu & Hrow). eapply t_bind; [apply quiet_wrapping, quiet_query|intros lines|].
    + apply t_ret. intros d Hd. split; [done|]. intros b [= <-]. cbn. eauto 10.
    + cbn. intros e d Hd. split; [exact Hd|done].
Qed.
Lemma tells_po id : tells (getPurchaseOrder id) (fun v p => exists u row, uuid_in id = Some u /\ po_in u v = Some row /\
  PO_ID p = po_id row /\ PO_Status p = po_status row).
Proof.
  apply tells_bind with (F := fun v row => exists u, uuid_in id = Some u /\ po_in u v = Some row).
  - apply tells_wrapping, (row_at_tells _ find_po po_in). done.
  - intros row v (u & Hu & Hrow). eapply t_bind; [apply quiet_wrapping, quiet_query|intros lines|].
    + apply t_ret. intros d Hd. split; [done|]. intros b [= <-]. cbn. eauto 10.
    + cbn. intros e d Hd. split; [exact Hd|done].
Qed.
(** validation changes nothing of a line but its warehouse *)
Definition asked (l : BillLineInput) : string * f64 := (BI_PurchaseOrderLineID l, BI_Qty l).
Lemma tells_bill_lines wh i ls : tells (validate_bill_lines wh i ls) (fun _ a => map asked a = map asked ls).
Proof.
  revert i. induction ls as [|l rest IH]; intros i v; cbn [validate_bill_lines].
  - apply t_ret. intros d Hd. split; [done|]. by intros a [= <-].
  - apply t_if; intros _; [apply t_throw; naive_solver|]. apply t_if; intros _; [apply t_throw; naive_solver|].
    cbv zeta. set (w := if _ : bool then _ else _).
    eapply t_bind; [apply quiet_wrapping, quiet_catalog|intros ?|naive_solver].
    eapply t_bind; [apply quiet_wrapping, quiet_warehouse|intros ?|naive_solver].
    eapply t_bind; [apply IH|intros ls'|naive_solver].
    apply t_ret. intros d [Hd Hl]. split; [done|]. intros b [= <-]. cbn. by rewrite (Hl ls').
Qed.
Lemma quiet_po_lines wh i ls : quiet (validate_po_lines wh i ls).
Proof.
  revert i. induction ls as [|l rest IH]; intros i; cbn [validate_po_lines]; [apply quiet_ret|].
  apply quiet_if; [apply quiet_doc_throw|]. apply quiet_if; [apply quiet_doc_throw|]. cbv zeta. set (w := if _ : bool then _ else _).
  apply quiet_doc_bind; [apply quiet_wrapping, quiet_catalog|intros _]. apply quiet_doc_bind; [apply quiet_wrapping, quiet_warehouse|intros _].
  apply quiet_doc_bind; [apply IH|intros a; apply quiet_ret].
Qed.
Lemma quiet_for_date date now : quiet (doc_fin (CheckPeriodUnlockedForDate date now)).
Proof. apply quiet_fin, settles_for_date. Qed.
Lemma quiet_remove refs : quiet (doc_fin (RemoveInventoryEntries refs)).
Proof. apply quiet_fin, settles_remove. Qed.
Lemma quiet_purchase posts user id no subtotal now : quiet (post_purchase posts user id no subtotal now).
Proof. apply quiet_if; [apply quiet_fin, settles_record|apply quiet_ret]. Qed.
Lemma quiet_expense_period posts now : quiet (check_expense_period posts now).
Proof. apply quiet_if; [apply quiet_fin, settles_current|apply quiet_ret]. Qed.
End steps.

(** ** A handler that keeps an invariant of the view *)
Section keeps.
Context (I : view -> Prop).
(** from tables seen as [v], whatever fails *)
Definition keeps (v : view) {A} (m : docs A) : Prop := triple false (at_view v) m (fun _ d => I (view_of d)).
Section from.
Context (v : view) (Hv : I v).
Lemma keeps_at d : at_view v d -> I (view_of d).
Proof. by intros ->. Qed.
Lemma keeps_quiet {A} (m : docs A) : quiet m -> keeps v m.
Proof. intros Hm. eapply t_conseq; [apply Hm|done|]. intros r d. apply keeps_at. Qed.
Lemma keeps_from_throw {A} e : keeps v (throw (A:=A) e).
Proof. apply keeps_quiet, quiet_doc_throw. Qed.
Lemma keeps_tells {A B} (m : docs A) (k : A -> docs B) G : tells m G -> (forall a, G v a -> keeps v (k a)) -> keeps v (bind m k).
Proof. intros Hm Hk. eapply tells_then; [exact Hm|apply keeps_at|exact Hk]. Qed.
Lemma keeps_then {A B} (m : docs A) (k : A -> docs B) : quiet m -> (forall a, keeps v (k a)) -> keeps v (bind m k).
Proof. intros Hm Hk. eapply keeps_tells; [by apply quiet_tells|auto]. Qed.
(** the transaction, and what follows it *)
Lemma keeps_tx {A} wrap commit (body : docs A) :
  within false (at_view v) body (fun _ d => I (view_of d)) -> keeps v (in_tx_errs wrap commit body).
Proof.
  intros Hb. eapply t_conseq; [by apply within_in_tx|done|]. intros [a|e] d; [done|]. intros [Hd|[_ Hd]]; [by apply keeps_at|done].
Qed.
Lemma keeps_owner {A} u (k : AuthUser -> docs A) : (forall user, keeps v (k user)) -> keeps v (as_owner u k).
Proof.
  intros Hk. unfold as_owner. destruct (getUser u) as [user|e]; [|by apply keeps_from_throw]. destruct (requireOwner u); [by apply keeps_from_throw|apply Hk].
Qed.
End from.
Lemma keeps_from_bind {A B} v (m : docs A) (k : A -> docs B) : keeps v m -> (forall a, quiet (k a)) -> keeps v (bind m k).
Proof.
  intros Hm Hk. eapply t_bind; [exact Hm|..].
  - intros a w Hw Hd. specialize (Hk a (view_of (p_db w)) w Hw eq_refl). destruct (k a w) as [r w']. destruct Hk as [Hi Hv]. split; [done|].
    by rewrite Hv.
  - done.
Qed.
Lemma keeps_seq {A B} v (m : docs A) (k : A -> docs B) : keeps v m -> (forall a v', I v' -> keeps v' (k a)) -> keeps v (bind m k).
Proof.
  intros Hm Hk. eapply t_bind; [exact Hm|..]; [|done]. intros a w Hw Hd. exact (Hk a (view_of (p_db w)) Hd w Hw eq_refl).
Qed.
Lemma keeps_attempted {A} v (m : docs A) : keeps v m -> keeps v (attempt m).
Proof. intros Hm w Hw Hd. specialize (Hm w Hw Hd). unfold attempt. by destruct (m w). Qed.
End keeps.
