(* ===== verification/Receipts.v ===== *)
(** * Bills, the orders they receive and the stock they move

    [tied]: what every order line received is what the bill lines that name it
    say; an order in progress has the status of its receipts; the movements a
    bill posted are its lines, one by one.  Every operation on orders and bills
    keeps it, whatever statements fail. *)
From S2P Require Import Prelude GoStrings AdminSession PgTx Triples Zoom Float64 Billing FinTables FinPosting FinLedger FinBooks Costing StockLedger Shop.
From S2P Require Import Docs DocSteps Purchasing DocView.

Open Scope string_scope.
Open Scope Z_scope.

(** What PostgreSQL guarantees of NUMERIC(18,4) columns and of UUIDs, for
    quantities of at most [qty_limit] (fifteen digits, which a float64 and its
    decimal text hold exactly). *)
Class DocLaws {I : PgInput} {N : Numeric} {O : OrderInput} := {
  qty_limit : Z;
  uuid_not_blank s u : uuid_in s = Some u -> TrimSpace s <> "";
  column_numeric x : column x = numeric_out 4 <$> numeric_in 4 x;
  qty_positive x m : fleb (round4 x) epsilon = false -> numeric_in 4 (round4 x) = Some m -> 0 < m;
  sum_adds x m n k : numeric_in 4 (round4 x) = Some m -> m <= qty_limit -> numeric_sum 4 (round4 x) n = Some k -> k = n + m;
  sum_takes m n k : 0 < m <= qty_limit -> numeric_sum 4 (fopp (numeric_out 4 m)) n = Some k -> k = n - m;
  nothing_out : fleb (numeric_out 4 0) epsilon = true
}.

(** ** Views changed *)
Definition v_set_pos x v := {| v_pos := x; v_po_lines := v_po_lines v; v_bills := v_bills v; v_bill_lines := v_bill_lines v; v_txns := v_txns v;
  v_txn_lines := v_txn_lines v; v_returns := v_returns v; v_return_lines := v_return_lines v; v_moves := v_moves v; v_ids := v_ids v |}.
Definition v_set_po_lines x v := {| v_pos := v_pos v; v_po_lines := x; v_bills := v_bills v; v_bill_lines := v_bill_lines v; v_txns := v_txns v;
  v_txn_lines := v_txn_lines v; v_returns := v_returns v; v_return_lines := v_return_lines v; v_moves := v_moves v; v_ids := v_ids v |}.
Definition v_set_bills x v := {| v_pos := v_pos v; v_po_lines := v_po_lines v; v_bills := x; v_bill_lines := v_bill_lines v; v_txns := v_txns v;
  v_txn_lines := v_txn_lines v; v_returns := v_returns v; v_return_lines := v_return_lines v; v_moves := v_moves v; v_ids := v_ids v |}.
Definition v_set_bill_lines x v := {| v_pos := v_pos v; v_po_lines := v_po_lines v; v_bills := v_bills v; v_bill_lines := x; v_txns := v_txns v;
  v_txn_lines := v_txn_lines v; v_returns := v_returns v; v_return_lines := v_return_lines v; v_moves := v_moves v; v_ids := v_ids v |}.
Definition v_set_txns x v := {| v_pos := v_pos v; v_po_lines := v_po_lines v; v_bills := v_bills v; v_bill_lines := v_bill_lines v; v_txns := x;
  v_txn_lines := v_txn_lines v; v_returns := v_returns v; v_return_lines := v_return_lines v; v_moves := v_moves v; v_ids := v_ids v |}.
Definition v_set_txn_lines x v := {| v_pos := v_pos v; v_po_lines := v_po_lines v; v_bills := v_bills v; v_bill_lines := v_bill_lines v; v_txns := v_txns v;
  v_txn_lines := x; v_returns := v_returns v; v_return_lines := v_return_lines v; v_moves := v_moves v; v_ids := v_ids v |}.
Definition v_set_returns x v := {| v_pos := v_pos v; v_po_lines := v_po_lines v; v_bills := v_bills v; v_bill_lines := v_bill_lines v; v_txns := v_txns v;
  v_txn_lines := v_txn_lines v; v_returns := x; v_return_lines := v_return_lines v; v_moves := v_moves v; v_ids := v_ids v |}.
Definition v_set_return_lines x v := {| v_pos := v_pos v; v_po_lines := v_po_lines v; v_bills := v_bills v; v_bill_lines := v_bill_lines v; v_txns := v_txns v;
  v_txn_lines := v_txn_lines v; v_returns := v_returns v; v_return_lines := x; v_moves := v_moves v; v_ids := v_ids v |}.
Definition v_set_ids x v := {| v_pos := v_pos v; v_po_lines := v_po_lines v; v_bills := v_bills v; v_bill_lines := v_bill_lines v; v_txns := v_txns v;
  v_txn_lines := v_txn_lines v; v_returns := v_returns v; v_return_lines := v_return_lines v; v_moves := v_moves v; v_ids := x |}.

Definition total (l : list Z) : Z := fold_right Z.add 0 l.
Lemma total_app l l' : total (l ++ l') = total l + total l'.
Proof. unfold total in *. induction l as [|x l IH]; cbn [app fold_right]; lia. Qed.
Definition names (u : string) (l : bill_line_row) : bool := bool_decide (bl_po_line l = Some u).
Definition of_bill (u : string) (l : bill_line_row) : bool := String.eqb (bl_bill l) u.
(** the quantity billed for an order line *)
Definition billed (u : string) (ls : list bill_line_row) : Z := total (map bl_qty (List.filter (names u) ls)).
#[global] Arguments billed : simpl never.
Lemma billed_app u l l' : billed u (l ++ l') = billed u l + billed u l'.
Proof. unfold billed. by rewrite List.filter_app, map_app, total_app. Qed.
Lemma billed_split u (p : bill_line_row -> bool) ls :
  billed u ls = billed u (List.filter (fun l => negb (p l)) ls) + billed u (List.filter p ls).
Proof.
  unfold billed, total. induction ls as [|l ls IH]; [done|]. cbn [List.filter]. destruct (p l); cbn; destruct (names u l); cbn [map fold_right]; lia.
Qed.
Definition received_of (f : po_line_row -> Z) (u : string) (ls : list po_line_row) : Z :=
  total (map f (List.filter (fun l => String.eqb (pl_po l) u) ls)).
#[global] Arguments received_of : simpl never.
Definition in_progress (p : po_row) : bool := in_list (po_status p) ["open"; "partial"; "received"].
Definition core_line (k : core) := (Some (k_id k), k_item k, k_wh k, k_type k, k_dir k, k_qty k).

Lemma NoDup_map_filter {A B} (f : A -> B) (p : A -> bool) l : NoDup (map f l) -> NoDup (map f (List.filter p l)).
Proof.
  induction l as [|x l IH]; [done|]. cbn. intros [Hx Hl]%NoDup_cons. destruct (p x); [|by apply IH]. cbn. apply NoDup_cons. split; [|by apply IH].
  rewrite list_elem_of_In, in_map_iff in *. intros (y & E & [Hy _]%List.filter_In). eauto.
Qed.

Lemma filter_none_and {A} (p : A -> bool) l : List.filter p (List.filter (fun x => negb (p x)) l) = [].
Proof. induction l as [|x l IH]; [done|]. cbn. destruct (p x) eqn:E; cbn; [done|]. by rewrite E. Qed.
Lemma filter_weaker {A} (p q : A -> bool) l : (forall x, p x = true -> q x = true) -> List.filter p (List.filter q l) = List.filter p l.
Proof.
  intros H. induction l as [|k l IH]; [done|]. cbn. destruct (q k) eqn:Eq; cbn; rewrite IH; [done|]. destruct (p k) eqn:Ep; [|done]. by rewrite (H _ Ep) in Eq.
Qed.
Lemma key_unique {A B} (key : A -> B) l x y : NoDup (map key l) -> x ∈ l -> y ∈ l -> key x = key y -> x = y.
Proof.
  induction l as [|z l IH]; cbn; [by intros _ ?%elem_of_nil|]. intros [Hz Hn]%NoDup_cons Hx Hy E. rewrite list_elem_of_In, in_map_iff in Hz.
  apply elem_of_cons in Hx as [->|Hx], Hy as [->|Hy]; [done|destruct Hz; setoid_rewrite <- list_elem_of_In; eauto..|by apply IH].
Qed.

Section tied.
Context `{HI : PgInput} `{HT : TimeZones} `{HN : Numeric} `{HO : OrderInput} `{HD : !DocLaws}.
Definition status_from (u : string) (ls : list po_line_row) : string :=
  poStatusFromReceipts (qty4 (received_of pl_ordered u ls)) (qty4 (received_of pl_received u ls)).
Definition bill_move (l : bill_line_row) := (bl_movement l, bl_item l, bl_wh l, MovementPurchaseReceive, dirIn, qty4 (bl_qty l)).
(** the ids that rows have or name *)
Definition taken (v : view) : list string :=
  map po_id (v_pos v) ++ map pl_po (v_po_lines v) ++ map pl_id (v_po_lines v) ++ map bi_id (v_bills v) ++ map bl_id (v_bill_lines v) ++
  omap bl_po_line (v_bill_lines v).

Definition fresh (v : view) : Prop := NoDup (v_ids v) /\ Forall (fun i => uuid_in i = Some i /\ i ∉ taken v) (v_ids v).
#[global] Arguments fresh : simpl never.
(** [skip]: an order whose status is still to be written *)
Record tied (skip : option string) (v : view) : Prop := {
  t_received l : l ∈ v_po_lines v -> pl_received l = billed (pl_id l) (v_bill_lines v);
  t_status p : p ∈ v_pos v -> in_progress p = true -> Some (po_id p) <> skip -> po_status p = status_from (po_id p) (v_po_lines v);
  t_aimed l p : l ∈ v_bill_lines v -> p ∈ v_po_lines v -> bl_po_line l = Some (pl_id p) ->
    exists b, b ∈ v_bills v /\ bi_id b = bl_bill l /\ bi_po b = Some (pl_po p);
  t_qty l : l ∈ v_bill_lines v -> 0 < bl_qty l <= qty_limit;
  t_owner l : l ∈ v_bill_lines v -> bl_bill l ∈ map bi_id (v_bills v);
  t_moves u : map core_line (List.filter (has_ref "bill" u) (v_moves v)) = map bill_move (List.filter (of_bill u) (v_bill_lines v));
  t_po b p : b ∈ v_bills v -> bi_po b = Some p -> uuid_in p = Some p;
  t_rows : NoDup (map po_id (v_pos v)) /\ NoDup (map bi_id (v_bills v)) /\ NoDup (map bl_id (v_bill_lines v));
  t_fresh : fresh v
}.
Lemma tied_skip skip u v : tied skip v -> (skip = None \/ skip = u) -> tied u v.
Proof. intros [] [->| ->]; split; auto; naive_solver. Qed.

(** ** Fresh ids *)
Lemma fresh_head skip v i rest : tied skip v -> v_ids v = i :: rest -> uuid_in i = Some i /\ i ∉ taken v /\ i ∉ rest.
Proof. intros Ht E. pose proof (t_fresh _ _ Ht) as [Hn Hf]. rewrite E in *. apply NoDup_cons in Hn as [? _]. apply Forall_cons in Hf as [[? ?] _]. done. Qed.
Lemma fresh_after v v' i rest :
  fresh v -> v_ids v = i :: rest -> v_ids v' = rest ->
  (forall x, x ∈ taken v' -> x ∈ taken v \/ x = i \/ x ∉ rest) ->
  fresh v'.
Proof.
  intros [Hn Hf] E E' Hsub. unfold fresh. rewrite E in Hn, Hf. apply NoDup_cons in Hn as [Hi Hn']. apply Forall_cons in Hf as [_ Hf']. rewrite E'. split; [done|].
  rewrite Forall_forall in *. intros x Hx. destruct (Hf' x Hx) as [Hc Hx']. split; [done|]. intros Hin. destruct (Hsub x Hin) as [?|[->|?]]; done.
Qed.
Lemma fresh_same v v' :
  fresh v -> v_ids v' = v_ids v ->
  (forall x, x ∈ taken v' -> x ∈ taken v) ->
  fresh v'.
Proof.
  intros [Hn Hf] E Hsub. unfold fresh. rewrite E. split; [done|]. eapply Forall_impl; [exact Hf|]. cbn. intros i [? Hi]. split; [done|]. auto.
Qed.

(** ** A line posted *)
Lemma received_of_map f g u ls :
  (forall l, l ∈ ls -> pl_po (g l) = pl_po l /\ (pl_po l = u -> f (g l) = f l)) -> received_of f u (map g ls) = received_of f u ls.
Proof.
  intros Hg. unfold received_of. f_equal. induction ls as [|l ls IH]; [done|]. cbn.
  destruct (Hg l) as [Hpo Hf]; [by left|]. rewrite Hpo. assert (map f (List.filter (fun l => String.eqb (pl_po l) u) (map g ls)) = _) as IH' by (apply IH; intros; apply Hg; by right).
  destruct (String.eqb (pl_po l) u) eqn:E; cbn; rewrite IH'; [|done]. by rewrite Hf by (by apply String.eqb_eq).
Qed.
Lemma status_from_map g u ls :
  (forall l, l ∈ ls -> pl_po (g l) = pl_po l /\ pl_ordered (g l) = pl_ordered l /\ (pl_po l = u -> pl_received (g l) = pl_received l)) ->
  status_from u (map g ls) = status_from u ls.
Proof. intros Hg. unfold status_from. rewrite !received_of_map; [done|..]; intros l Hl; destruct (Hg l Hl) as (? & ? & ?); auto. Qed.
Lemma elem_map {A B} (f : A -> B) l y : y ∈ map f l <-> exists x, y = f x /\ x ∈ l.
Proof. rewrite list_elem_of_In, in_map_iff. setoid_rewrite list_elem_of_In. naive_solver. Qed.
Definition receive (u : option string) (q : Z) (l : po_line_row) : po_line_row :=
  if bool_decide (u = Some (pl_id l)) then with_received (pl_received l + q) l else l.
Definition line_posted (r : bill_line_row) (k : core) (rest : list string) (v : view) : view :=
  {| v_pos := v_pos v; v_po_lines := map (receive (bl_po_line r) (bl_qty r)) (v_po_lines v); v_bills := v_bills v;
     v_bill_lines := v_bill_lines v ++ [r];
     v_txns := v_txns v; v_txn_lines := v_txn_lines v; v_returns := v_returns v; v_return_lines := v_return_lines v;
     v_moves := v_moves v ++ [k]; v_ids := rest |}.
Lemma receive_keys u q l : pl_id (receive u q l) = pl_id l /\ pl_po (receive u q l) = pl_po l /\ pl_ordered (receive u q l) = pl_ordered l.
Proof. unfold receive. by case_bool_decide. Qed.
(** the rows a posting needs: the bill, and the order it is for *)
Record ready (skip : option string) (bill : string) (v : view) : Prop := {
  rd_bill : exists b, b ∈ v_bills v /\ bi_id b = bill /\ bi_po b = skip;
  rd_tied : tied skip v
}.
Definition aimed (skip : option string) (u : option string) (v : view) : Prop :=
  (forall x, u = Some x -> x ∉ v_ids v) /\ (forall l, l ∈ v_po_lines v -> u = Some (pl_id l) -> skip = Some (pl_po l)).
Lemma ready_posted skip r k rest v :
  ready skip (bl_bill r) v -> v_ids v = bl_id r :: rest -> 0 < bl_qty r <= qty_limit -> aimed skip (bl_po_line r) v ->
  core_line k = bill_move r -> k_ref_type k = Some "bill" -> k_ref_id k = Some (bl_bill r) ->
  ready skip (bl_bill r) (line_posted r k rest v).
Proof.
  intros [(b & Hb & Hbi & Hbp) Ht] Hids Hq [Hu Hskip] Hk Hkt Hkr. split; [by exists b|]. pose proof (fresh_head _ _ _ _ Ht Hids) as (_ & Hnew & _).
  split; cbn.
  - intros l (l0 & -> & Hl)%elem_map. rewrite (proj1 (receive_keys _ _ _)), billed_app. unfold receive, billed at 2. cbn [List.filter].
    unfold names. case_bool_decide; cbn [map total fold_right]; rewrite (t_received _ _ Ht l0 Hl); cbn; lia.
  - intros p Hp Hin Hne. rewrite (t_status _ _ Ht p Hp Hin Hne). symmetry. apply status_from_map. intros l Hl. split_and!; [apply receive_keys..|].
    intros Epo. unfold receive. case_bool_decide as E; [|done]. by rewrite (Hskip l Hl E), Epo in Hne.
  - intros l p Hl (p0 & -> & Hp)%elem_map. rewrite (proj1 (receive_keys _ _ _)), (proj1 (proj2 (receive_keys _ _ _))). intros E.
    apply elem_of_app in Hl as [Hl|Hl%list_elem_of_singleton]; [by eapply t_aimed|]. subst l. exists b. split_and!; [done|done|]. rewrite Hbp. by apply Hskip.
  - intros l [Hl|Hl%list_elem_of_singleton]%elem_of_app; [by eapply t_qty|by subst].
  - intros l [Hl|Hl%list_elem_of_singleton]%elem_of_app; [by eapply t_owner|]. subst. apply elem_map. by exists b.
  - intros u. rewrite !List.filter_app, !map_app, (t_moves _ _ Ht u). f_equal. unfold has_ref, of_bill. cbn. rewrite Hkt, Hkr, bool_decide_true by done. cbn.
    destruct (String.eqb_spec (bl_bill r) u) as [->|Hne]; [rewrite bool_decide_true by done; cbn; by rewrite Hk|]. rewrite bool_decide_false by congruence. done.
  - apply (t_po _ _ Ht).
  - destruct (t_rows _ _ Ht) as (? & ? & Hn). split_and!; [done|done|]. rewrite map_app. apply NoDup_app. split_and!; [done| |apply NoDup_singleton].
    intros x Hx ->%list_elem_of_singleton. apply Hnew. unfold taken. rewrite !elem_of_app. auto 10.
  - eapply fresh_after; [apply (t_fresh _ _ Ht)|exact Hids|done|]. intros x. unfold taken. cbn. rewrite !elem_of_app.
    assert (map pl_po (map (receive (bl_po_line r) (bl_qty r)) (v_po_lines v)) = map pl_po (v_po_lines v)) as -> by (rewrite map_map; apply map_ext; intros; apply receive_keys).
    assert (map pl_id (map (receive (bl_po_line r) (bl_qty r)) (v_po_lines v)) = map pl_id (v_po_lines v)) as -> by (rewrite map_map; apply map_ext; intros; apply receive_keys).
    rewrite map_app, omap_app, !elem_of_app. cbn. rewrite list_elem_of_singleton.
    intros [?|[?|[?|[?|[[?|?]|[?|Hx]]]]]]; auto 10. right. right. destruct (bl_po_line r) as [y|]; [|by apply elem_of_nil in Hx].
    apply list_elem_of_singleton in Hx as ->. specialize (Hu y eq_refl). rewrite Hids in Hu. intros ?. apply Hu. by right.
Qed.

(** ** Rows of bills and orders *)
Lemma tied_new_bill v b rest :
  tied None v -> v_ids v = bi_id b :: rest -> (forall p, bi_po b = Some p -> uuid_in p = Some p) ->
  ready (bi_po b) (bi_id b) (v_set_ids rest (v_set_bills (v_bills v ++ [b]) v)).
Proof.
  intros Ht Hids Hp. pose proof (fresh_head _ _ _ _ Ht Hids) as (_ & Hnew & _).
  split; [exists b; split_and!; [apply elem_of_app; right; by apply list_elem_of_singleton|done|done]|].
  eapply tied_skip; [|by left]. split; cbn.
  - apply (t_received _ _ Ht).
  - apply (t_status _ _ Ht).
  - intros l p Hl Hpl E. destruct (t_aimed _ _ Ht l p Hl Hpl E) as (b' & ? & ?). exists b'. split; [apply elem_of_app; by left|done].
  - apply (t_qty _ _ Ht).
  - intros l Hl. rewrite map_app. apply elem_of_app. left. by apply (t_owner _ _ Ht).
  - apply (t_moves _ _ Ht).
  - intros b' p [Hb| ->%list_elem_of_singleton]%elem_of_app; [by apply (t_po _ _ Ht)|apply Hp].
  - destruct (t_rows _ _ Ht) as (? & Hn & ?). split_and!; [done| |done]. rewrite map_app. apply NoDup_app. split_and!; [done| |apply NoDup_singleton].
    intros x Hx ->%list_elem_of_singleton. apply Hnew. unfold taken. rewrite !elem_of_app. auto 10.
  - eapply fresh_after; [apply (t_fresh _ _ Ht)|exact Hids|done|]. intros x. unfold taken. cbn. rewrite map_app, !elem_of_app. cbn.
    rewrite list_elem_of_singleton. tauto.
Qed.
Lemma tied_bills skip v bs :
  tied skip v -> map (fun b => (bi_id b, bi_po b)) bs = map (fun b => (bi_id b, bi_po b)) (v_bills v) -> tied skip (v_set_bills bs v).
Proof.
  intros Ht Hbs. assert (map bi_id bs = map bi_id (v_bills v)) as Hid.
  { apply (f_equal (map fst)) in Hbs. by rewrite !map_map in Hbs. }
  assert (forall i p, (exists b, b ∈ bs /\ bi_id b = i /\ bi_po b = p) <-> exists b, b ∈ v_bills v /\ bi_id b = i /\ bi_po b = p) as Hex.
  { intros i p. trans ((i, p) ∈ map (fun b => (bi_id b, bi_po b)) bs); [|rewrite Hbs]; rewrite elem_map; naive_solver. }
  split; cbn; rewrite ?Hid; try apply Ht.
  - intros l p Hl Hp E. apply Hex. by apply (t_aimed _ _ Ht).
  - intros b p Hb Hp. destruct (proj1 (Hex (bi_id b) (Some p))) as (b' & Hb' & _ & Hp'); [eauto|]. by apply (t_po _ _ Ht b').
  - eapply fresh_same; [apply (t_fresh _ _ Ht)|done|]. intros x. unfold taken. cbn. by rewrite Hid.
Qed.
Lemma tied_bill_deleted skip v u :
  tied skip v -> (forall l, l ∈ v_bill_lines v -> bl_bill l <> u) ->
  tied skip (v_set_bills (List.filter (fun b => negb (String.eqb (bi_id b) u)) (v_bills v)) v).
Proof.
  intros Ht Hl. assert (forall l b, l ∈ v_bill_lines v -> b ∈ v_bills v -> bi_id b = bl_bill l ->
    b ∈ List.filter (fun b => negb (String.eqb (bi_id b) u)) (v_bills v)) as Hin.
  { intros l b Hll Hb E. apply filter_elem. split; [done|]. apply negb_true_iff, String.eqb_neq. rewrite E. by apply Hl. }
  split; cbn; try apply Ht.
  - intros l p Hll Hp E. destruct (t_aimed _ _ Ht l p Hll Hp E) as (b & ? & ? & ?). eauto.
  - intros l Hll. destruct (proj1 (elem_map _ _ _) (t_owner _ _ Ht l Hll)) as (b & E & Hb). apply elem_map. eauto.
  - intros b p [Hb _]%filter_elem. by apply (t_po _ _ Ht).
  - destruct (t_rows _ _ Ht) as (? & Hn & ?). split_and!; [done| |done]. by apply NoDup_map_filter.
  - eapply fresh_same; [apply (t_fresh _ _ Ht)|done|]. intros x. unfold taken. cbn. rewrite !elem_of_app.
    intros [?|[?|[?|[Hx|?]]]]; auto 10. apply elem_map in Hx as (b & -> & [Hb _]%filter_elem). right. right. right. left. apply elem_map. eauto.
Qed.
(** the status written: that of the receipts *)
Definition status_written (u : string) (which : po_row -> bool) (v : view) : view :=
  v_set_pos (map (fun p => if String.eqb (po_id p) u && which p then with_po_status (status_from u (v_po_lines v)) p else p) (v_pos v)) v.
Lemma tied_status u which v : tied (Some u) v -> (forall p, in_progress p = true -> which p = true) -> tied None (status_written u which v).
Proof.
  intros Ht Hw. assert (map po_id (v_pos (status_written u which v)) = map po_id (v_pos v)) as Hid.
  { cbn. rewrite map_map. apply map_ext. intros p. by destruct (_ && _). }
  split; cbn [status_written v_set_pos v_po_lines v_bill_lines v_bills v_moves]; try apply Ht.
  - intros p (p0 & -> & Hp)%elem_map Hin _. destruct (String.eqb_spec (po_id p0) u) as [<-|Hne]; cbn in *; [|by apply (t_status _ _ Ht); [done..|congruence]].
    destruct (which p0) eqn:E; [done|]. by rewrite (Hw _ Hin) in E.
  - destruct (t_rows _ _ Ht) as (Hn & ?). by rewrite <- Hid in Hn.
  - eapply fresh_same; [apply (t_fresh _ _ Ht)|done|]. intros x. unfold taken. by rewrite Hid.
Qed.

(** ** A bill taken back *)
Definition less (line : string) (q : Z) (l : po_line_row) : po_line_row :=
  if String.eqb (pl_id l) line then with_received (Z.max 0 (pl_received l - q)) l else l.
Definition take_back (rs : list (string * Z)) (rows : list po_line_row) : list po_line_row :=
  fold_left (fun rows e => map (less e.1 e.2) rows) rs rows.
Definition owed (rs : list (string * Z)) (line : string) : Z := total (map snd (List.filter (fun e => String.eqb line e.1) rs)).
Lemma owed_nonneg rs line : Forall (fun e => 0 < e.2) rs -> 0 <= owed rs line.
Proof.
  unfold owed. induction 1 as [|e rs He _ IH]; [done|]. cbn. destruct (String.eqb line e.1); cbn; [|done]. unfold total in *. cbn in *. lia.
Qed.
Lemma take_back_exact rs rows :
  Forall (fun e => 0 < e.2) rs -> (forall r, r ∈ rows -> owed rs (pl_id r) <= pl_received r) ->
  take_back rs rows = map (fun r => with_received (pl_received r - owed rs (pl_id r)) r) rows.
Proof.
  intros Hrs. revert rows. induction Hrs as [|[line q] rs Hq Hrs IH]; intros rows Hle.
  - cbn. symmetry. erewrite map_ext; [apply map_id|]. intros r. unfold owed. cbn. rewrite Z.sub_0_r. by destruct r.
  - cbn [take_back fold_left]. change (fold_left _ rs ?x) with (take_back rs x).
    assert (forall r, owed ((line, q) :: rs) (pl_id r) = (if String.eqb (pl_id r) line then q else 0) + owed rs (pl_id r)) as Ho.
    { intros r. unfold owed. cbn. destruct (String.eqb (pl_id r) line); cbn; unfold total; cbn; lia. }
    rewrite IH.
    + rewrite map_map. apply map_ext_in. intros r Hr%list_elem_of_In. specialize (Hle r Hr). rewrite Ho in *. pose proof (owed_nonneg rs (pl_id r) Hrs).
      unfold less. cbn in *. destruct (String.eqb (pl_id r) line) eqn:E; cbn; [|f_equal; lia]. rewrite Z.max_r by lia. unfold with_received. cbn. f_equal; lia.
    + intros r' (r & -> & Hr)%elem_map. specialize (Hle r Hr). rewrite Ho in Hle. unfold less. cbn. destruct (String.eqb (pl_id r) line); cbn; lia.
Qed.
Definition receipts_in (u : string) (v : view) : list (string * Z) :=
  omap (fun l => (fun p => (p, bl_qty l)) <$> bl_po_line l) (List.filter (of_bill u) (v_bill_lines v)).
Lemma owed_receipts x ls : owed (omap (fun l => (fun p => (p, bl_qty l)) <$> bl_po_line l) ls) x = billed x ls.
Proof.
  unfold owed, billed, names. induction ls as [|l ls IH]; [done|]. cbn in *. destruct (bl_po_line l) as [p|]; cbn; [|exact IH].
  destruct (String.eqb_spec x p) as [->|Hne]; [rewrite bool_decide_true by done|rewrite bool_decide_false by congruence]; cbn; [|exact IH].
  unfold total in *. cbn. f_equal. exact IH.
Qed.
Lemma billed_none x ls : (forall l, l ∈ ls -> bl_po_line l <> Some x) -> billed x ls = 0.
Proof.
  intros H. unfold billed. assert (List.filter (names x) ls = []) as ->; [|done]. induction ls as [|l ls IH]; [done|]. cbn. unfold names.
  rewrite bool_decide_false by (apply H; by left). apply IH. intros; apply H; by right.
Qed.
Lemma billed_nonneg x ls : (forall l, l ∈ ls -> 0 < bl_qty l) -> 0 <= billed x ls.
Proof.
  intros Hq. rewrite <- owed_receipts. apply owed_nonneg, Forall_forall. intros e (l & Hl & He)%list_elem_of_omap.
  destruct (bl_po_line l); [|done]. injection He as <-. by apply Hq.
Qed.
Definition cleared (u : string) (v : view) : view :=
  {| v_pos := v_pos v; v_po_lines := take_back (receipts_in u v) (v_po_lines v); v_bills := v_bills v;
     v_bill_lines := List.filter (fun l => negb (of_bill u l)) (v_bill_lines v);
     v_txns := v_txns v; v_txn_lines := v_txn_lines v; v_returns := v_returns v; v_return_lines := v_return_lines v;
     v_moves := List.filter (fun k => negb (has_ref "bill" u k)) (v_moves v); v_ids := v_ids v |}.
Lemma receipts_positive u v : tied None v -> Forall (fun e => 0 < e.2 <= qty_limit) (receipts_in u v).
Proof.
  intros Ht. apply Forall_forall. intros e (l & [Hl _]%filter_elem & He)%list_elem_of_omap. destruct (bl_po_line l); [|done]. injection He as <-.
  by apply (t_qty _ _ Ht).
Qed.
Lemma cleared_lines u v : tied None v ->
  v_po_lines (cleared u v) = map (fun r => with_received (billed (pl_id r) (v_bill_lines (cleared u v))) r) (v_po_lines v).
Proof.
  intros Ht. assert (forall r, r ∈ v_po_lines v -> pl_received r = billed (pl_id r) (v_bill_lines (cleared u v)) + owed (receipts_in u v) (pl_id r)) as Hsum.
  { intros r Hr. unfold receipts_in. rewrite owed_receipts, (t_received _ _ Ht r Hr). apply billed_split. }
  cbn [cleared v_po_lines]. rewrite take_back_exact.
  - apply map_ext_in. intros r Hr%list_elem_of_In. specialize (Hsum r Hr). f_equal. lia.
  - eapply Forall_impl; [by apply receipts_positive|]. cbn. lia.
  - intros r Hr. rewrite (Hsum r Hr). enough (0 <= billed (pl_id r) (v_bill_lines (cleared u v))) by lia. apply billed_nonneg.
    intros l [Hl _]%filter_elem. by apply (t_qty _ _ Ht).
Qed.
Lemma ready_cleared u v b : tied None v -> b ∈ v_bills v -> bi_id b = u -> ready (bi_po b) u (cleared u v).
Proof.
  intros Ht Hb Hbi. pose proof (cleared_lines u v Ht) as Hrows. split; [exists b; done|].
  assert (forall l, l ∈ v_bill_lines (cleared u v) <-> l ∈ v_bill_lines v /\ bl_bill l <> u) as Hin.
  { intros l. cbn. rewrite filter_elem, negb_true_iff. unfold of_bill. by rewrite String.eqb_neq. }
  split; rewrite ?Hrows.
  - by intros l (r & -> & Hr)%elem_map.
  - intros p Hp Hprog Hne. rewrite (t_status _ _ Ht p Hp Hprog ltac:(done)). symmetry. apply status_from_map. intros r Hr. split_and!; [done..|].
    intros Epo. cbn. rewrite (t_received _ _ Ht r Hr). rewrite (billed_split _ (of_bill u) (v_bill_lines v)), Z.add_comm.
    rewrite (billed_none _ (List.filter (of_bill u) _)); [done|]. intros l [Hl Hu]%filter_elem E.
    destruct (t_aimed _ _ Ht l r Hl Hr E) as (b' & Hb' & Hi & Hpo). apply String.eqb_eq in Hu.
    assert (b' = b) as -> by (eapply (key_unique bi_id); [apply (t_rows _ _ Ht)|done..|congruence]). congruence.
  - intros l p [Hl _]%Hin (r & -> & Hr)%elem_map E. exact (t_aimed _ _ Ht l r Hl Hr E).
  - intros l [Hl _]%Hin. by apply (t_qty _ _ Ht).
  - intros l [Hl _]%Hin. by apply (t_owner _ _ Ht).
  - intros x. cbn. destruct (String.eqb_spec x u) as [->|Hx].
    + rewrite !(filter_none_and _ _). done.
    + rewrite !filter_weaker; [apply (t_moves _ _ Ht)|..]; unfold of_bill, has_ref; intros k Hk; apply negb_true_iff.
      * apply String.eqb_eq in Hk. by apply String.eqb_neq; congruence.
      * apply andb_true_iff in Hk as [? Hk%bool_decide_eq_true]. rewrite Hk. apply andb_false_iff. right. apply bool_decide_eq_false. congruence.
  - apply (t_po _ _ Ht).
  - destruct (t_rows _ _ Ht) as (? & ? & ?). cbn. split_and!; [done..|]. by apply NoDup_map_filter.
  - eapply fresh_same; [apply (t_fresh _ _ Ht)|done|]. intros x. unfold taken. rewrite Hrows, !map_map. cbn. rewrite !elem_of_app.
    intros [?|[?|[?|[?|[Hx|Hx]]]]]; auto 10.
    + apply elem_map in Hx as (l & -> & [Hl _]%filter_elem). do 4 right. left. apply elem_map. eauto.
    + apply list_elem_of_omap in Hx as (l & [Hl _]%filter_elem & E). do 5 right. apply list_elem_of_omap. eauto.
Qed.

(** ** Rows of orders *)
Lemma status_none u ls : received_of pl_received u ls = 0 -> status_from u ls = "open".
Proof. intros H. unfold status_from, poStatusFromReceipts, qty4. by rewrite H, nothing_out. Qed.
Lemma received_none f u ls : (forall l, l ∈ ls -> pl_po l <> u) -> received_of f u ls = 0.
Proof.
  intros H. unfold received_of. assert (List.filter (fun l => String.eqb (pl_po l) u) ls = []) as ->; [|done].
  induction ls as [|l ls IH]; [done|]. cbn. destruct (String.eqb_spec (pl_po l) u) as [E|]; [by apply H in E; [|left]|]. apply IH. intros; apply H; by right.
Qed.
Lemma received_app f u ls ls' : received_of f u (ls ++ ls') = received_of f u ls + received_of f u ls'.
Proof. unfold received_of. by rewrite List.filter_app, map_app, total_app. Qed.
Lemma tied_new_po v p rest :
  tied None v -> v_ids v = po_id p :: rest -> po_status p = "open" -> tied None (v_set_ids rest (v_set_pos (v_pos v ++ [p]) v)).
Proof.
  intros Ht Hids Hp. pose proof (fresh_head _ _ _ _ Ht Hids) as (_ & Hnew & _). split; cbn; try apply Ht.
  - intros q [Hq| ->%list_elem_of_singleton]%elem_of_app Hin _; [by apply (t_status _ _ Ht)|]. rewrite Hp. symmetry. apply status_none, received_none.
    intros l Hl E. apply Hnew. unfold taken. rewrite !elem_of_app. right. left. apply elem_map. eauto.
  - destruct (t_rows _ _ Ht) as (Hn & ? & ?). split_and!; [|done..]. rewrite map_app. apply NoDup_app. split_and!; [done| |apply NoDup_singleton].
    intros x Hx ->%list_elem_of_singleton. apply Hnew. unfold taken. rewrite !elem_of_app. by left.
  - eapply fresh_after; [apply (t_fresh _ _ Ht)|exact Hids|done|]. intros x. unfold taken. cbn. rewrite map_app, !elem_of_app. cbn.
    rewrite list_elem_of_singleton. tauto.
Qed.
Lemma tied_new_line v l rest :
  tied None v -> v_ids v = pl_id l :: rest -> pl_received l = 0 -> received_of pl_received (pl_po l) (v_po_lines v) = 0 ->
  pl_po l ∈ map po_id (v_pos v) -> tied None (v_set_ids rest (v_set_po_lines (v_po_lines v ++ [l]) v)).
Proof.
  intros Ht Hids Hl0 Hr0 Hpo. pose proof (fresh_head _ _ _ _ Ht Hids) as (_ & Hnew & _).
  assert (forall b, b ∈ v_bill_lines v -> bl_po_line b <> Some (pl_id l)) as Hb.
  { intros b Hb E. apply Hnew. unfold taken. rewrite !elem_of_app. do 5 right. apply list_elem_of_omap. eauto. }
  assert (Some l = None -> False) by done.
  split; cbn; try apply Ht.
  - intros x [Hx| ->%list_elem_of_singleton]%elem_of_app; [by apply (t_received _ _ Ht)|]. by rewrite billed_none.
  - intros p Hp Hin _. rewrite (t_status _ _ Ht p Hp Hin) by done. destruct (decide (po_id p = pl_po l)) as [E|Hne].
    + rewrite E, !status_none; [done| |done]. rewrite received_app, Hr0. unfold received_of. cbn. rewrite String.eqb_refl. cbn. lia.
    + assert (forall f, received_of f (po_id p) (v_po_lines v ++ [l]) = received_of f (po_id p) (v_po_lines v)) as Hf.
      { intros f. rewrite received_app, (received_none _ _ [l]); [lia|]. by intros x ->%list_elem_of_singleton E. }
      unfold status_from. by rewrite !Hf.
  - intros b x Hbl [Hx| ->%list_elem_of_singleton]%elem_of_app E; [by apply (t_aimed _ _ Ht)|by apply Hb in E].
  - eapply fresh_after; [apply (t_fresh _ _ Ht)|exact Hids|done|]. intros x. unfold taken. cbn. rewrite !map_app, !elem_of_app. cbn.
    rewrite !list_elem_of_singleton. intros [?|[[?|Hx]|[[?|?]|?]]]; auto 10. left. left. by rewrite Hx.
Qed.
Lemma tied_pos v ps :
  tied None v -> (forall p, p ∈ ps -> in_progress p = true -> exists q, q ∈ v_pos v /\ po_id q = po_id p /\ po_status q = po_status p) ->
  (exists f, map po_id ps = List.filter f (map po_id (v_pos v))) -> tied None (v_set_pos ps v).
Proof.
  intros Ht Hps [f Hf]. split; cbn; try apply Ht.
  - intros p Hp Hin _. destruct (Hps p Hp Hin) as (q & Hq & Hi & Hs). rewrite <- Hi, <- Hs. apply (t_status _ _ Ht); [done| |done].
    unfold in_progress in *. by rewrite Hs.
  - destruct (t_rows _ _ Ht) as (Hn & ? & ?). split_and!; [|done..]. rewrite Hf. rewrite <- (map_id (List.filter f _)). apply NoDup_map_filter. by rewrite map_id.
  - eapply fresh_same; [apply (t_fresh _ _ Ht)|done|]. intros x. unfold taken. cbn. rewrite Hf, !elem_of_app, filter_elem. tauto.
Qed.
Lemma tied_lines_gone u v :
  tied None v -> (forall p, p ∈ v_pos v -> po_id p = u -> in_progress p = true -> po_status p = "open") ->
  let v' := v_set_po_lines (List.filter (fun l => negb (String.eqb (pl_po l) u)) (v_po_lines v)) v in
  tied None v' /\ received_of pl_received u (v_po_lines v') = 0.
Proof.
  intros Ht Ho v'. assert (received_of pl_received u (v_po_lines v') = 0) as H0.
  { apply received_none. intros l [_ Hl]%filter_elem. by apply negb_true_iff, String.eqb_neq in Hl. }
  split; [|done]. split; cbn; try apply Ht.
  - intros l [Hl _]%filter_elem. by apply (t_received _ _ Ht).
  - intros p Hp Hin _. destruct (decide (po_id p = u)) as [E|Hne]; [rewrite E, (Ho p Hp E Hin); symmetry; by apply status_none|].
    rewrite (t_status _ _ Ht p Hp Hin) by done. unfold status_from, received_of. rewrite filter_weaker; [done|].
    intros l Hl%String.eqb_eq. apply negb_true_iff, String.eqb_neq. congruence.
  - intros b l Hb [Hl _]%filter_elem. by apply (t_aimed _ _ Ht).
  - eapply fresh_same; [apply (t_fresh _ _ Ht)|done|]. intros x. unfold taken. cbn. rewrite !elem_of_app.
    intros [?|[Hx|[Hx|?]]]; auto 10; apply elem_map in Hx as (l & -> & [Hl _]%filter_elem); right; [left|right; left]; apply elem_map; eauto.
Qed.
End tied.
