(* ===== verification/ReceiptSteps.v ===== *)
(** * The bodies of the bill transactions keep the documents tied *)
From S2P Require Import Prelude GoStrings AdminSession PgTx Triples Zoom Float64 Billing FinTables FinPosting FinLedger FinBooks Costing StockLedger Shop.
From S2P Require Import Docs DocSteps Purchasing DocView Receipts.

Open Scope string_scope.
Open Scope Z_scope.

(** ** Statements *)
Lemma within_insert {A} c v (row : string -> docs_db -> option A) add (upd : A -> view -> view) :
  (forall r d, view_of (add r d) = upd r (view_of d)) ->
  within c (at_view v) (insert_row row add) (fun r d => exists i rest d0, v_ids v = i :: rest /\ at_view v d0 /\ row i d0 = Some r /\
    at_view (v_set_ids rest (upd r v)) d).
Proof.
  intros Hadd. apply within_stmt. intros d a d' Hd. unfold at_view in Hd. destruct (dc_ids d) as [|i rest] eqn:Ei; [done|].
  destruct (row i d) as [r|] eqn:Er; [|done]. intros [= <- <-]. exists i, rest, d. rewrite <- Hd. split_and!; [done|done|done|].
  unfold at_view. by rewrite <- Hadd.
Qed.
Lemma within_replace {A} c v id (key : A -> string) edit rows set (vrows : view -> list A) (vset : list A -> view -> view) :
  (forall d, rows d = vrows (view_of d)) -> (forall l d, view_of (set l d) = vset l (view_of d)) ->
  within c (at_view v) (replace_at id key edit rows set) (fun _ d => exists u l, id = Some u /\
    mapM (fun r => if String.eqb (key r) u then edit r else Some r) (vrows v) = Some l /\ at_view (vset l v) d).
Proof.
  intros Hr Hs. apply within_stmt. intros d a d' Hd. unfold at_view in Hd. destruct id as [u|]; [|done]. rewrite Hr, Hd.
  destruct (mapM _ _) as [l|] eqn:E; [|done]. intros [= <- <-]. exists u, l. split_and!; [done|done|]. unfold at_view. by rewrite Hs, Hd.
Qed.
Lemma within_exec_at c v id f (g : string -> view -> view) : (forall u d, view_of (f u d) = g u (view_of d)) ->
  within c (at_view v) (exec_at id f) (fun _ d => exists u, id = Some u /\ at_view (g u v) d).
Proof.
  intros Hf. apply within_stmt. intros d a d' Hd. unfold at_view in *. destruct id as [u|]; [|done]. intros [= <- <-]. exists u. split; [done|]. by rewrite Hf, Hd.
Qed.
Lemma mapM_map {A B} (f : A -> option B) (g : A -> B) l l' : mapM f l = Some l' -> (forall x y, f x = Some y -> y = g x) -> l' = map g l.
Proof. intros Hm Hf. apply mapM_Some_1 in Hm. induction Hm as [|x y l l' Hx _ IH]; [done|]. cbn. by rewrite (Hf _ _ Hx), IH. Qed.
Lemma filter_swap {A} (p q : A -> bool) l : List.filter p (List.filter q l) = List.filter q (List.filter p l).
Proof. induction l as [|x l IH]; [done|]. cbn. destruct (q x) eqn:Eq, (p x) eqn:Ep; cbn; by rewrite ?Eq, ?Ep, IH. Qed.

(** go on from tables of which something is known, the last fact being the view *)
Tactic Notation "from_view" simple_intropattern(pat) :=
  apply within_from; intros ? pat;
  match goal with H : at_view _ ?d |- within _ (eq ?d) _ _ => eapply within_conseq; [|intros ? <-; exact H|intros ? ? HQ; exact HQ] end.

Section steps.
Context `{HI : PgInput} `{HT : TimeZones} `{HN : Numeric} `{HO : OrderInput} `{HD : !DocLaws} `{HL : !PgInputLaws}.

Lemma nullUUID_canonical s u : uuid_in s = Some u -> nullUUID s = Some s /\ uuid_opt (nullUUID s) = Some (Some u).
Proof.
  intros Hs. unfold nullUUID. assert (TrimSpace s <> "") as ->%String.eqb_neq by (by eapply uuid_not_blank). cbn. by rewrite Hs.
Qed.
Lemma within_change_received c v line f g :
  (forall n k, f n = Some k -> k = g n) ->
  within c (at_view v) (change_received line f) (fun _ d => exists u, line = Some u /\
    at_view (v_set_po_lines (map (fun l => if String.eqb (pl_id l) u then with_received (g (pl_received l)) l else l) (v_po_lines v)) v) d).
Proof.
  intros Hf. eapply within_post; [apply (within_replace c v line pl_id _ dc_po_lines set_po_lines v_po_lines v_set_po_lines); done|].
  intros _ d (u & l & Hu & Hl & Hd). exists u. split; [done|].
  rewrite (mapM_map _ (fun l => if String.eqb (pl_id l) u then with_received (g (pl_received l)) l else l) _ _ Hl) in Hd; [done|].
  intros x y. destruct (String.eqb _ _); [|by intros [= <-]]. destruct (f (pl_received x)) as [k|] eqn:E; [|done]. intros [= <-]. by rewrite (Hf _ _ E).
Qed.
(** a movement posted for a document *)
Lemma within_movement c v inp now t u :
  uuid_in (MI_RefID inp) = Some u -> stockNull (MI_RefType inp) = Some t ->
  within c (at_view v) (postMovement inp now) (fun res d => exists i w m k,
    uuid_in (MI_CatalogItemID inp) = Some i /\ uuid_in (MI_WarehouseID inp) = Some w /\
    fleb (MI_Qty inp) epsilon = false /\ numeric_in 4 (MI_Qty inp) = Some m /\
    core_line k = (Some (MR_MovementID res), i, w, MI_Type inp, MI_Direction inp, qty4 m) /\
    k_ref_type k = Some t /\ k_ref_id k = Some u /\ at_view (v_set_moves (v_moves v ++ [k]) v) d).
Proof.
  intros Hb Ht. unfold postMovement. rewrite (proj2 (nullUUID_canonical _ _ Hb)).
  assert (within c (at_view v) (if fleb (MI_Qty inp) epsilon then throw (StockBadRequest "qty harus lebih dari 0")
    else stmt (fun d => (Err bad_input, d))) (fun (_ : MovementResult) _ => False)) as Hbad.
  { apply within_if; intros _; [apply within_throw|]. by apply within_stmt. }
  destruct (uuid_in (MI_CatalogItemID inp)) as [i|]; [|by eapply within_post]. destruct (uuid_in (MI_WarehouseID inp)) as [w|]; [|by eapply within_post].
  cbn [default]. set (inp' := with_uuids i w u inp).
  eapply within_post; [apply (within_stock c v (PostMovement inp' now) (fun l0 res l' => fleb (MI_Qty inp) epsilon = false /\
    exists qty, l' = (l0 ++ [core_from inp' (MR_MovementID res) qty])%list /\ column (MI_Qty inp) = Some qty))|].
  - intros l0. eapply within_post; [apply within_PostMovement|]. intros res d [Hq (qty & Hc & Hcol)]. by split; [|exists qty].
  - intros res d (l' & (Hq & qty & -> & Hcol) & Hd). rewrite column_numeric in Hcol.
    destruct (numeric_in 4 (MI_Qty inp)) as [m|] eqn:Em; [|done]. injection Hcol as <-.
    pose proof (nullUUID_canonical u u (uuid_canonical _ _ Hb)) as [Hn _].
    exists i, w, m, (core_from inp' (MR_MovementID res) (numeric_out 4 m)). split_and!; try done.
Qed.

(** ** Posting lines *)
Definition line_target (l : BillLineInput) : option (option string) := uuid_opt (nullUUID (BI_PurchaseOrderLineID l)).
(** a line that a bill may have: it names no line that does not exist yet, only lines of the bill's order, and not too much *)
Definition line_ok (skip : option string) (v : view) (l : BillLineInput) : Prop :=
  (forall u, line_target l = Some u -> aimed skip u v) /\ forall m, numeric_in 4 (round4 (BI_Qty l)) = Some m -> m <= qty_limit.
Definition same_orders (v v' : view) : Prop :=
  map (fun l => (pl_id l, pl_po l)) (v_po_lines v') = map (fun l => (pl_id l, pl_po l)) (v_po_lines v) /\ (forall x, x ∈ v_ids v' -> x ∈ v_ids v).
Lemma line_ok_same skip v v' l : same_orders v v' -> line_ok skip v l -> line_ok skip v' l.
Proof.
  intros [Hk Hi] [Ha Hm]. split; [|done]. intros u Hu. destruct (Ha u Hu) as [H1 H2]. split; [intros x Hx Hin; by apply (H1 x Hx), Hi|].
  intros p Hp Hup. assert ((pl_id p, pl_po p) ∈ map (fun l => (pl_id l, pl_po l)) (v_po_lines v)) as (q & [= E1 E2] & Hq)%elem_map.
  { rewrite <- Hk. apply elem_map. eauto. }
  rewrite E2. apply H2; [done|congruence].
Qed.
Definition posting (skip : option string) (bill : string) (ls : list BillLineInput) (d : docs_db) : Prop :=
  ready skip bill (view_of d) /\ Forall (line_ok skip (view_of d)) ls.
Lemma receive_none q ls : map (receive None q) ls = ls.
Proof. rewrite <- (map_id ls) at 2. apply map_ext. intros l. unfold receive. by rewrite bool_decide_false. Qed.
Lemma same_posted v r k rest : (forall x, x ∈ rest -> x ∈ v_ids v) -> same_orders v (line_posted r k rest v).
Proof.
  intros Hr. split; [|done]. cbn. rewrite map_map. apply map_ext. intros l. by destruct (receive_keys (bl_po_line r) (bl_qty r) l) as (-> & -> & _).
Qed.
(** the row of a line of the request *)
Record row_of (l : BillLineInput) (bill : string) (r : bill_line_row) : Prop := {
  ro_bill : bl_bill r = bill;
  ro_target : line_target l = Some (bl_po_line r);
  ro_item : uuid_in (BI_CatalogItemID l) = Some (bl_item r);
  ro_wh : uuid_in (BI_WarehouseID l) = Some (bl_wh r);
  ro_qty : numeric_in 4 (round4 (BI_Qty l)) = Some (bl_qty r)
}.
Lemma bill_line_row bill l i d r : bill_line_of bill l i d = Some r -> bl_id r = i /\ row_of l bill r.
Proof.
  unfold bill_line_of. intros (t & Et & H)%bind_Some. apply bind_Some in H as (item & Ei & H). apply bind_Some in H as (wh & Ew & H).
  apply bind_Some in H as (q & Eq & H). apply bind_Some in H as (cost & _ & [= <-]). by split.
Qed.
(** the new line named its movement *)
Lemma within_link c v r mid :
  bl_id r ∉ map bl_id (v_bill_lines v) ->
  within c (at_view (v_set_bill_lines (v_bill_lines v ++ [r]) v))
    (replace_at (Some (bl_id r)) bl_id (fun r => Some (with_movement mid r)) dc_bill_lines set_bill_lines)
    (fun _ => at_view (v_set_bill_lines (v_bill_lines v ++ [with_movement mid r]) v)).
Proof.
  intros Hr. eapply within_post; [apply (within_replace c _ (Some (bl_id r)) bl_id _ dc_bill_lines set_bill_lines v_bill_lines v_set_bill_lines); done|].
  intros _ d (u & ls & [= <-] & Hls & Hd).
  rewrite (mapM_map _ (fun x => if String.eqb (bl_id x) (bl_id r) then with_movement mid x else x) _ _ Hls) in Hd.
  2: { intros x y. destruct (String.eqb _ _); by intros [= <-]. }
  cbn [v_bill_lines v_set_bill_lines] in Hd. rewrite map_app in Hd. cbn in Hd. rewrite String.eqb_refl in Hd.
  rewrite (map_ext_in _ (fun x => x)), map_id in Hd; [exact Hd|]. intros x Hx%list_elem_of_In.
  destruct (String.eqb_spec (bl_id x) (bl_id r)) as [E|]; [|done]. destruct Hr. rewrite <- E. apply elem_map. eauto.
Qed.
(** the order line receives the quantity *)
Lemma within_receive c v l bill r :
  row_of l bill r -> bl_qty r <= qty_limit ->
  within c (at_view v)
    (if String.eqb (TrimSpace (BI_PurchaseOrderLineID l)) "" then ret tt
     else internally (change_received (uuid_in (BI_PurchaseOrderLineID l)) (numeric_sum 4 (round4 (BI_Qty l)))))
    (fun _ => at_view (v_set_po_lines (map (receive (bl_po_line r) (bl_qty r)) (v_po_lines v)) v)).
Proof.
  intros Hr Hq. pose proof (ro_target _ _ _ Hr) as Et. unfold line_target, nullUUID in Et. destruct (String.eqb (TrimSpace (BI_PurchaseOrderLineID l)) ""); cbn in Et.
  - injection Et as <-. apply within_ret. intros d Hd. rewrite receive_none. by destruct v.
  - destruct (uuid_in (BI_PurchaseOrderLineID l)) as [t|]; [|done]. injection Et as Et. apply within_wrapping.
    eapply within_post; [apply (within_change_received c _ (Some t) _ (fun n => n + bl_qty r))|].
    + intros n x Hn. eapply sum_adds; [exact (ro_qty _ _ _ Hr)|exact Hq|exact Hn].
    + intros _ d (u & [= <-] & Hd). rewrite (map_ext _ (receive (bl_po_line r) (bl_qty r))) in Hd; [exact Hd|]. intros x. rewrite <- Et. unfold receive.
      destruct (String.eqb_spec (pl_id x) t); [by rewrite bool_decide_true by congruence|by rewrite bool_decide_false by congruence].
Qed.
Lemma within_post_line c skip billID bill l rest now :
  uuid_in billID = Some bill ->
  within c (posting skip bill (l :: rest)) (post_bill_line billID bill l now) (fun _ => posting skip bill rest).
Proof.
  intros Hb. apply within_from. intros d0 [Hready Hls]. apply Forall_cons in Hls as [[Haim Hmax] Hrest]. set (v := view_of d0) in *.
  eapply (within_conseq c (at_view v)); [|by intros d <-|intros ? ? H; exact H].
  unfold post_bill_line. destruct (parseDatePtr _); [apply within_throw|].
  eapply within_bind; [apply within_wrapping, (within_insert c v _ _ (fun r v => v_set_bill_lines (v_bill_lines v ++ [r]) v)); done|]. intros r.
  from_view (i & rest' & d1 & Hids & _ & Hrow & Hd). apply bill_line_row in Hrow as [<- Hrow]. rename Hrow into Hr. clear Hd.
  eapply still_then; [apply still_wrapping, still_sku|intros _]. eapply still_then; [apply still_costing|intros cc].
  eapply within_bind; [apply (within_movement c _ (bill_movement billID cc l) now "bill" bill Hb eq_refl)|intros res].
  from_view (i1 & w1 & m1 & k & Ei & Ew & Hpos & Em & Hk & Hkt & Hkr & Hd2). clear Hd2. cbn in Ei, Ew, Em, Hk.
  rewrite (ro_item _ _ _ Hr) in Ei. rewrite (ro_wh _ _ _ Hr) in Ew. rewrite (ro_qty _ _ _ Hr) in Em. injection Ei as <-. injection Ew as <-. injection Em as <-.
  pose proof (Hmax _ (ro_qty _ _ _ Hr)) as Hle. pose proof (Haim _ (ro_target _ _ _ Hr)) as Ha. pose proof (ro_bill _ _ _ Hr) as Hbill.
  assert (bl_id r ∉ map bl_id (v_bill_lines v)) as Hfresh.
  { destruct (fresh_head _ _ _ _ (rd_tied _ _ _ Hready) Hids) as (_ & H & _). intros Hin. apply H. unfold taken. rewrite !elem_of_app. auto 10. }
  eapply within_bind; [exact (within_wrapping c _ _ _ _ (within_link c (v_set_moves (v_moves v ++ [k]) (v_set_ids rest' v)) r (MR_MovementID res) Hfresh))|intros ?].
  eapply within_post; [exact (within_receive c _ l bill r Hr Hle)|]. intros ? d9 Hd. set (r' := with_movement (MR_MovementID res) r).
  change (at_view (line_posted r' k rest' v) d9) in Hd. unfold at_view in Hd. unfold posting. rewrite Hd. split.
  - rewrite <- Hbill. apply (ready_posted skip r'); [by rewrite <- Hbill in Hready|exact Hids| |exact Ha|exact Hk|exact Hkt|by rewrite <- Hbill in Hkr].
    split; [by eapply qty_positive; [|exact (ro_qty _ _ _ Hr)]|exact Hle].
  - eapply Forall_impl; [exact Hrest|]. intros x. apply line_ok_same, same_posted. intros y Hy. rewrite Hids. by right.
Qed.
Lemma within_post_lines c skip billID bill ls now :
  uuid_in billID = Some bill ->
  within c (posting skip bill ls) (post_bill_lines billID bill ls now) (fun _ d => ready skip bill (view_of d)).
Proof.
  intros Hb. induction ls as [|l rest IH]; cbn [post_bill_lines].
  - apply within_ret. by intros d [Hr _].
  - eapply within_bind; [by apply within_post_line|intros ?; exact IH].
Qed.
(** the order's status written from its receipts *)
Lemma within_update_po c v id which f : within c (at_view v) (update_po id which f) (fun _ d => exists u, id = Some u /\
  at_view (v_set_pos (map (fun p => if String.eqb (po_id p) u && which p then f p else p) (v_pos v)) v) d).
Proof.
  apply within_stmt. intros d a d' Hd. unfold at_view in *. destruct id as [u|]; [|done]. intros [= _ <-]. exists u. split; [done|]. by rewrite <- Hd.
Qed.
Lemma within_receipts c v po : within c (at_view v) (query_with po receipts) (fun r d => at_view v d /\ exists u, po = Some u /\
  r = (qty4 (received_of pl_ordered u (v_po_lines v)), qty4 (received_of pl_received u (v_po_lines v)))).
Proof.
  apply within_stmt. intros d a d' Hd. destruct po as [u|]; [|done]. intros [= <- <-]. split; [done|]. exists u. split; [done|].
  unfold at_view in Hd. by rewrite <- Hd.
Qed.
Lemma within_refresh c u v poID :
  uuid_in poID = Some u -> tied (Some u) v -> within c (at_view v) (refreshPOStatusTx poID) (fun _ d => tied None (view_of d)).
Proof.
  intros Hu Ht. eapply within_bind; [apply within_wrapping, within_receipts|intros sums]. apply within_pure. intros (u' & E & ->). rewrite Hu in E. injection E as <-.
  eapply within_bind; [apply within_update_po|intros n]. apply within_ret. intros d (u' & E & Hd). rewrite Hu in E. injection E as <-.
  unfold at_view in Hd. rewrite Hd. by apply (tied_status u (fun p => in_progress p)).
Qed.
Lemma within_postBillLines c skip billID bill poID ls now :
  uuid_in billID = Some bill -> uuid_opt (nullUUID poID) = Some skip ->
  within c (posting skip bill ls) (postBillLinesTx billID bill poID ls now) (fun _ d => tied None (view_of d)).
Proof.
  intros Hb Hp. eapply within_bind; [by apply within_post_lines|intros ?]. unfold nullUUID in Hp.
  destruct (String.eqb (TrimSpace poID) ""); cbn in Hp.
  - injection Hp as <-. apply within_ret. by intros d [_ H].
  - destruct (uuid_in poID) as [u|] eqn:Eu; [|done]. injection Hp as <-. apply within_from. intros d [_ Ht].
    eapply within_conseq; [exact (within_refresh c u (view_of d) poID Eu Ht)|by intros ? <-|done].
Qed.

(** ** Taking a bill back *)
Lemma within_revert c v rs :
  Forall (fun e => 0 < e.2 <= qty_limit) rs ->
  within c (at_view v) (revert_receipts rs) (fun _ => at_view (v_set_po_lines (take_back rs (v_po_lines v)) v)).
Proof.
  intros Hrs. revert v. induction Hrs as [|[line q] rs Hq _ IH]; intros v; cbn [revert_receipts].
  - apply within_ret. intros d Hd. by destruct v.
  - eapply within_bind; [apply within_wrapping, (within_change_received c v (Some line) _ (fun n => Z.max 0 (n - q)))|intros ?].
    + intros n k. destruct (numeric_sum _ _ _) as [x|] eqn:E; [|done]. intros [= <-]. by rewrite (sum_takes _ _ _ Hq E).
    + apply within_exists. intros u. eapply within_conseq; [apply (within_pure c (at_view (v_set_po_lines (map (less line q) (v_po_lines v)) v)) (Some line = Some u)); intros _; apply IH| |].
      * intros d [[= <-] Hd]. done.
      * by intros ? d Hd.
Qed.
Lemma within_purge_ref c v t u id now :
  uuid_in id = Some u ->
  within c (at_view v) (purgeByRef t id now) (fun _ => at_view (v_set_moves (List.filter (fun k => negb (has_ref t u k)) (v_moves v)) v)).
Proof.
  intros Hu. unfold purgeByRef. rewrite Hu.
  eapply within_bind; [apply (within_stock c v (purgeMovementsByRef t u now) (fun l _ l' => l' = List.filter (fun k => negb (has_ref t u k)) l))|intros a].
  - intros l. apply within_purge.
  - apply within_ret. intros d (l' & -> & Hd). exact Hd.
Qed.
Lemma within_receipts_of c v u id :
  uuid_in id = Some u ->
  within c (at_view v) (query_with (uuid_in id) po_receipts_of_bill) (fun r d => at_view v d /\ r = receipts_in u v).
Proof. intros ->. apply within_stmt. intros d a d' Hd [= <- <-]. split; [done|]. unfold at_view in Hd. by rewrite <- Hd. Qed.
End steps.
