(* ===== verification/ReceiptCalls.v ===== *)
(** * Every operation on orders and bills keeps the documents tied

    Whatever statements fail, before or after their effect. *)
From S2P Require Import Prelude GoStrings AdminSession PgTx Triples Zoom Float64 Billing FinTables FinPosting FinLedger FinBooks Costing StockLedger Shop.
From S2P Require Import Docs DocSteps Purchasing DocView Receipts ReceiptSteps.

Open Scope string_scope.
Open Scope Z_scope.

Lemma filter_true {A} (l : list A) : List.filter (fun _ => true) l = l.
Proof. induction l as [|x l IH]; [done|]. cbn. by rewrite IH. Qed.

(** an UPDATE keeps the columns it does not set *)
Lemma mapM_keyed {A B} (key : A -> string) (g : A -> B) u edit l l' :
  mapM (fun r => if String.eqb (key r) u then edit r else Some r) l = Some l' -> (forall r r', edit r = Some r' -> g r' = g r) -> map g l' = map g l.
Proof.
  intros Hm Hg. apply mapM_Some_1 in Hm. induction Hm as [|y z l l' Hy _ IH]; [done|]. cbn. rewrite IH. f_equal.
  destruct (String.eqb _ _); [by apply Hg|by injection Hy as <-].
Qed.

Section calls.
Context `{HI : PgInput} `{HT : TimeZones} `{HN : Numeric} `{HO : OrderInput} `{HD : !DocLaws} `{HL : !PgInputLaws}.

Definition all_tied (d : docs_db) : Prop := tied None (view_of d).
Abbreviation keeps_from v m := (keeps (tied None) v m).
Lemma quiet_getBill id : quiet (getBill id).
Proof. eapply tells_quiet, tells_bill. Qed.
Lemma quiet_getPO id : quiet (getPurchaseOrder id).
Proof. eapply tells_quiet, tells_po. Qed.

(** ** Bills *)
Lemma lines_ok_asked skip v ls ls' : map asked ls' = map asked ls -> Forall (line_ok skip v) ls -> Forall (line_ok skip v) ls'.
Proof.
  revert ls'. induction ls as [|l ls IH]; intros [|l' ls']; try done. intros [= E1 E2 E3] [Hl Hls]%Forall_cons. apply Forall_cons. split; [|by apply IH].
  unfold line_ok, line_target in *. by rewrite E1, E2.
Qed.
Lemma CreateBill_keeps v u p now :
  tied None v -> (forall skip, uuid_opt (nullUUID (BP_PurchaseOrderID p)) = Some skip -> Forall (line_ok skip v) (BP_Lines p)) ->
  keeps_from v (CreateBill u p now).
Proof.
  intros Hv Hls. apply keeps_owner; [done|intros user]. destruct (BP_Lines p) as [|l0 ls0] eqn:El; [by apply keeps_from_throw|]. rewrite <- El in *. clear l0 ls0 El.
  destruct (txn_date _ _) as [date|e]; [|by apply keeps_from_throw].
  apply keeps_then; [done|apply quiet_prepare|intros ?]. apply keeps_then; [done|apply quiet_wrapping, quiet_setting|intros posts].
  apply keeps_then; [done|apply quiet_expense_period|intros ?]. cbv zeta.
  eapply keeps_tells; [done|apply tells_bill_lines|intros lines Hasked]. cbv zeta. apply keeps_from_bind.
  - apply keeps_tx; [done|]. eapply still_then; [apply still_wrapping, still_number|intros no].
    eapply within_bind; [apply within_wrapping, (within_insert false v _ _ (fun b v => v_set_bills (v_bills v ++ [b]) v)); done|intros b].
    apply within_from. intros d (i & rest & d0 & Hids & _ & Hrow & Hd).
    unfold bill_of in Hrow. destruct (uuid_opt (nullUUID (BP_PurchaseOrderID p))) as [po|] eqn:Epo; [|done]. cbn [mbind option_bind] in Hrow.
    specialize (Hls po eq_refl).
    assert (bi_id b = i /\ bi_po b = po /\ forall x, po = Some x -> uuid_in x = Some x) as (Hbi & Hbp & Hcan).
    { repeat (let x := fresh in let E := fresh in apply bind_Some in Hrow as (x & E & Hrow)). destruct (existsb _ _); [done|]. injection Hrow as <-. split_and!; [done..|].
      intros x ->. unfold uuid_opt in Epo. destruct (nullUUID _) as [s|]; [|done]. cbn in Epo. destruct (uuid_in s) eqn:Es; [|done]. injection Epo as ->. by eapply uuid_canonical. }
    subst i. pose proof (fresh_head _ _ _ _ Hv Hids) as (Hc & _ & _).
    eapply (within_conseq false (posting po (bi_id b) lines) _ _ (fun _ => all_tied)); [eapply within_bind; [by apply within_postBillLines|intros ?; by apply within_ret]| |].
    + intros ? <-. unfold at_view in Hd. unfold posting. rewrite Hd. rewrite <- Hbp. split; [by apply tied_new_bill; [..|by rewrite Hbp]|]. rewrite Hbp.
      eapply lines_ok_asked; [exact Hasked|]. eapply Forall_impl; [exact Hls|]. intros x. apply line_ok_same. split; [done|]. cbn. intros y Hy. rewrite Hids. by right.
    + intros ? d' H. exact H.
  - intros b. apply quiet_doc_bind; [apply quiet_purchase|intros ?; apply quiet_getBill].
Qed.
(** the purchase order of a bill that is there *)
Definition po_of_bill (v : view) (id : string) (skip : option string) : Prop :=
  exists u b, uuid_in id = Some u /\ bill_in u v = Some b /\ skip = bi_po b.
Lemma bill_in_some u v b : bill_in u v = Some b -> b ∈ v_bills v /\ bi_id b = u.
Proof. intros H. apply find_some in H as [Hin H]. apply andb_true_iff in H as [H%String.eqb_eq _]. by rewrite list_elem_of_In. Qed.
Lemma po_text v b : tied None v -> b ∈ v_bills v ->
  uuid_opt (nullUUID (default "" (not_blank (bi_po b)))) = Some (bi_po b) /\ (not_blank (bi_po b) = bi_po b).
Proof.
  intros Hv Hb. destruct (bi_po b) as [p|] eqn:E; [|done]. pose proof (t_po _ _ Hv b p Hb E) as Hp. cbn.
  assert (p <> "") as Hne by (intros ->; by apply uuid_not_blank in Hp). rewrite (proj2 (String.eqb_neq _ _) Hne). split; [|done]. by apply nullUUID_canonical.
Qed.
Lemma same_cleared u v : tied None v -> same_orders v (cleared u v).
Proof. intros Hv. split; [|done]. rewrite (cleared_lines u v Hv). by rewrite map_map. Qed.
Lemma UpdateBill_keeps v u id p now :
  tied None v -> (forall skip, po_of_bill v id skip -> Forall (line_ok skip v) (BP_Lines p)) -> keeps_from v (UpdateBill u id p now).
Proof.
  intros Hv Hls. apply keeps_owner; [done|intros user]. destruct (BP_Lines p) as [|l0 ls0] eqn:El; [by apply keeps_from_throw|]. rewrite <- El in *. clear l0 ls0 El.
  apply keeps_then; [done|apply quiet_prepare|intros ?]. eapply keeps_tells; [done|apply tells_bill|intros existing (x & b & Hx & Hb & Hid & Hpo)].
  specialize (Hls _ (ex_intro _ x (ex_intro _ b (conj Hx (conj Hb eq_refl))))). destruct (bill_in_some _ _ _ Hb) as [Hin <-].
  apply keeps_then; [done|apply quiet_for_date|intros ?]. apply keeps_then; [done|apply quiet_wrapping, quiet_setting|intros posts].
  apply keeps_then; [done|apply quiet_expense_period|intros ?]. cbv zeta.
  eapply keeps_tells; [done|apply tells_bill_lines|intros lines Hasked]. apply keeps_then; [done|apply quiet_collect|intros movs].
  apply keeps_then; [done|apply quiet_remove|intros ?]. apply keeps_from_bind.
  - apply keeps_tx; [done|].
    eapply within_bind; [eapply within_bind; [by apply within_wrapping, within_receipts_of|intros revs]|intros ?].
    { apply within_pure. intros ->. apply within_revert. by apply receipts_positive. }
    eapply within_bind; [by apply within_purge_ref|intros ?].
    eapply within_bind; [apply within_wrapping, (within_exec_at false _ _ _ (fun u v => v_set_bill_lines (List.filter (fun l => negb (of_bill u l)) (v_bill_lines v)) v)); done|intros ?].
    from_view (y & Ey & Hd1). rewrite Hx in Ey. injection Ey as <-.
    eapply within_bind; [apply within_wrapping, (within_replace false _ _ bi_id _ dc_bills set_bills v_bills v_set_bills); done|intros ?].
    from_view (y & bs & Ey & Hbs & Hd2). rewrite Hx in Ey. injection Ey as <-.
    pose proof (ready_cleared (bi_id b) v b Hv Hin eq_refl) as [(b' & Hb' & Hbi & Hbp) Ht].
    assert (map (fun b => (bi_id b, bi_po b)) bs = map (fun b => (bi_id b, bi_po b)) (v_bills v)) as Hkeys.
    { apply (mapM_keyed bi_id _ _ _ _ _ Hbs). intros y z. unfold edit_bill. intros H. repeat (apply bind_Some in H as (? & ? & H)). by injection H as <-. }
    rewrite Hid, Hpo. destruct (po_text v b Hv Hin) as [Hnull Hsame].
    eapply within_conseq; [by eapply within_postBillLines; [exact Hx|exact Hnull]| |done].
    intros d3 Hd. unfold at_view in Hd. unfold posting. rewrite Hd. split; [split|].
    + assert ((bi_id b, bi_po b) ∈ map (fun b => (bi_id b, bi_po b)) bs) as (c & [= E1 E2] & Hc)%elem_map by (rewrite Hkeys; apply elem_map; eauto).
      exists c. by split.
    + exact (tied_bills (bi_po b) (cleared (bi_id b) v) bs Ht Hkeys).
    + eapply lines_ok_asked; [exact Hasked|]. eapply Forall_impl; [exact Hls|]. intros z. apply line_ok_same. exact (same_cleared (bi_id b) v Hv).
  - intros ?. apply quiet_doc_bind; [apply quiet_purchase|intros ?; apply quiet_getBill].
Qed.
Lemma DeleteBill_keeps v u id now : tied None v -> keeps_from v (DeleteBill u id now).
Proof.
  intros Hv. apply keeps_owner; [done|intros user]. apply keeps_then; [done|apply quiet_prepare|intros ?].
  eapply keeps_tells; [done|apply tells_bill|intros existing (x & b & Hx & Hb & Hid & Hpo)]. destruct (bill_in_some _ _ _ Hb) as [Hin <-].
  apply keeps_then; [done|apply quiet_for_date|intros ?]. apply keeps_then; [done|apply quiet_collect|intros movs].
  apply keeps_then; [done|apply quiet_remove|intros ?]. apply keeps_tx; [done|].
  pose proof (ready_cleared (bi_id b) v b Hv Hin eq_refl) as [_ Ht].
  eapply within_bind; [by apply within_wrapping, within_receipts_of|intros revs]. apply within_pure. intros ->.
  eapply within_bind; [by apply within_purge_ref|intros ?]. eapply within_bind; [apply within_revert; by apply receipts_positive|intros ?].
  set (v1 := v_set_po_lines _ _).
  eapply (within_bind _ _ _ _ (fun _ d => exists v2, at_view v2 d /\ tied None (v_set_bill_lines (v_bill_lines (cleared (bi_id b) v)) v2) /\ v_bill_lines v2 = v_bill_lines v)).
  - rewrite Hpo. destruct (po_text v b Hv Hin) as [_ ->]. destruct (bi_po b) as [po|] eqn:Epo.
    + rewrite (t_po _ _ Hv b po Hin Epo).
      eapply within_bind; [apply within_wrapping, within_receipts|intros sums]. apply within_pure. intros (u' & [= <-] & ->).
      eapply within_bind; [apply within_wrapping, within_update_po|intros n]. apply within_ret. intros d (u' & [= <-] & Hd).
      eexists. split; [exact Hd|]. split; [|done]. exact (tied_status po (fun _ => true) _ Ht (fun _ _ => eq_refl)).
    + apply within_ret. intros d Hd. exists v1. split_and!; [exact Hd|exact Ht|done].
  - intros ?. from_view (v2 & Hd & Ht2 & Hl2).
    eapply within_post; [apply within_wrapping, (within_exec_at false _ _ _ (fun u v =>
      v_set_bill_lines (List.filter (fun l => negb (of_bill u l)) (v_bill_lines v)) (v_set_bills (List.filter (fun b => negb (String.eqb (bi_id b) u)) (v_bills v)) v))); done|].
    intros ? d2 (y & Ey & Hd2). rewrite Hx in Ey. injection Ey as <-. unfold all_tied, at_view in *. rewrite Hd2, Hl2.
    refine (tied_bill_deleted None _ (bi_id b) Ht2 _). cbn. intros l [_ Hl]%filter_elem. apply negb_true_iff in Hl. by apply String.eqb_neq.
Qed.

(** ** Purchase orders *)
Definition no_receipts (u : string) (d : docs_db) : Prop :=
  all_tied d /\ received_of pl_received u (v_po_lines (view_of d)) = 0 /\ u ∈ map po_id (v_pos (view_of d)).
Lemma within_po_lines c u ls : within c (no_receipts u) (insert_po_lines u ls) (fun _ => no_receipts u).
Proof.
  induction ls as [|l rest IH]; cbn [insert_po_lines]; [by apply within_ret|]. eapply within_bind; [|intros ?; exact IH].
  apply within_from. intros d0 (Ht & H0 & Hin). eapply (within_conseq c (at_view (view_of d0))); [| |intros ? ? H; exact H]; [|by intros ? <-].
  eapply within_post; [apply within_wrapping, (within_insert c _ _ _ (fun r v => v_set_po_lines (v_po_lines v ++ [r]) v)); done|].
  intros r d (i & rest' & d1 & Hids & _ & Hrow & Hd).
  assert (pl_id r = i /\ pl_po r = u /\ pl_received r = 0) as (<- & Hu & Hr).
  { unfold po_line_of in Hrow. repeat (let x := fresh in let E := fresh in apply bind_Some in Hrow as (x & E & Hrow)). by injection Hrow as <-. }
  unfold no_receipts, all_tied, at_view in *. rewrite Hd. subst u. split_and!; [by apply tied_new_line|cbn|done].
  rewrite received_app. cbn in H0. rewrite H0. unfold received_of. cbn. rewrite String.eqb_refl. cbn. by rewrite Hr.
Qed.
Lemma CreatePurchaseOrder_keeps v u p now : tied None v -> keeps_from v (CreatePurchaseOrder u p now).
Proof.
  intros Hv. apply keeps_owner; [done|intros user]. destruct (PP_Lines p) as [|l0 ls0] eqn:El; [by apply keeps_from_throw|]. rewrite <- El in *. clear l0 ls0 El.
  destruct (txn_date _ _) as [date|e]; [|by apply keeps_from_throw]. apply keeps_then; [done|apply quiet_prepare|intros ?]. cbv zeta.
  apply keeps_then; [done|apply quiet_po_lines|intros lines]. apply keeps_from_bind; [|intros b; apply quiet_getPO]. apply keeps_tx; [done|].
  eapply still_then; [apply still_wrapping, still_number|intros no].
  eapply within_bind; [apply within_wrapping, (within_insert false v _ _ (fun p v => v_set_pos (v_pos v ++ [p]) v)); done|intros po].
  apply within_from. intros d (i & rest & d0 & Hids & _ & Hrow & Hd).
  assert (po_id po = i /\ po_status po = "open") as [<- Hst].
  { unfold po_of in Hrow. repeat (let x := fresh in let E := fresh in apply bind_Some in Hrow as (x & E & Hrow)). destruct (existsb _ _); [done|]. by injection Hrow as <-. }
  eapply (within_conseq false (no_receipts (po_id po)) _ _ (fun _ => all_tied)).
  - eapply within_bind; [apply within_po_lines|intros ?]. apply within_ret. by intros d1 [H _].
  - intros ? <-. unfold no_receipts, all_tied, at_view in *. rewrite Hd. split_and!; [by apply tied_new_po| |].
    + apply received_none. intros l Hl E. destruct (fresh_head _ _ _ _ Hv Hids) as (_ & H & _). apply H. unfold taken. rewrite !elem_of_app. right. left. apply elem_map. eauto.
    + cbn. rewrite map_app. apply elem_of_app. right. by left.
  - intros ? d1 H. exact H.
Qed.
Lemma keeps_stmt v {A} (f : docs_db -> result A * docs_db) :
  tied None v -> (forall d a d', at_view v d -> f d = (Ok a, d') -> all_tied d') -> keeps_from v (internally (stmt f)).
Proof.
  intros Hv Hf. apply wrapping_triple, t_stmt. intros d Hd. unfold stmt_post. specialize (Hf d). pose proof (keeps_at (tied None) v Hv d Hd) as Ht.
  destruct (f d) as [[a|e] d']; [|done]. specialize (Hf a d' Hd eq_refl). done.
Qed.
(** a status that is not one of receipts *)
Lemma update_po_keeps v id which status :
  tied None v -> in_list status ["open"; "partial"; "received"] = false -> keeps_from v (internally (update_po id which (with_po_status status))).
Proof.
  intros Hv Hs. apply keeps_stmt; [done|]. intros d a d' Hd. destruct id as [u|]; [|done]. intros [= _ <-].
  set (f := fun p => if _ : bool then with_po_status status p else p). unfold all_tied. change (tied None (v_set_pos (map f (v_pos (view_of d))) (view_of d))).
  unfold at_view in Hd. rewrite Hd. apply tied_pos; [done|..].
  - intros p (q & -> & Hq)%elem_map Hp. exists q. unfold f in *. destruct (_ && _); [|done]. change (in_list status ["open"; "partial"; "received"] = true) in Hp. congruence.
  - exists (fun _ => true). rewrite map_map, filter_true. apply map_ext. intros p. unfold f. by destruct (_ && _).
Qed.
Lemma ClosePurchaseOrder_keeps v u id now : tied None v -> keeps_from v (ClosePurchaseOrder u id now).
Proof.
  intros Hv. apply keeps_owner; [done|intros user]. apply keeps_then; [done|apply quiet_prepare|intros ?].
  apply keeps_from_bind; [by apply update_po_keeps|intros n]. apply quiet_if; [apply quiet_doc_throw|apply quiet_getPO].
Qed.
Lemma CancelPurchaseOrder_keeps v u id now : tied None v -> keeps_from v (CancelPurchaseOrder u id now).
Proof.
  intros Hv. apply keeps_owner; [done|intros user]. apply keeps_then; [done|apply quiet_prepare|intros ?].
  apply keeps_then; [done|apply quiet_wrapping, quiet_query|intros r]. destruct (fltb epsilon r); [by apply keeps_from_throw|].
  apply keeps_from_bind; [by apply update_po_keeps|intros n]. apply quiet_if; [apply quiet_doc_throw|apply quiet_getPO].
Qed.
Lemma DeletePurchaseOrder_keeps v u id now : tied None v -> keeps_from v (DeletePurchaseOrder u id now).
Proof.
  intros Hv. apply keeps_owner; [done|intros user]. apply keeps_then; [done|apply quiet_prepare|intros ?].
  apply keeps_then; [done|apply quiet_getPO|intros po]. apply keeps_then; [done|apply quiet_for_date|intros ?].
  destruct (existsb _ _); [by apply keeps_from_throw|]. apply keeps_then; [done|apply quiet_wrapping, quiet_query|intros billed].
  destruct billed; [by apply keeps_from_throw|]. destruct (negb _); [by apply keeps_from_throw|]. apply keeps_stmt; [done|].
  intros d r d' Hd. destruct (uuid_in id) as [x|]; [|done]. intros [= _ <-]. unfold at_view in Hd.
  assert (tied None (v_set_pos (List.filter (fun p => negb (String.eqb (po_id p) x)) (v_pos v)) v)) as Ht.
  { apply tied_pos; [done|..].
    - intros p [Hp _]%filter_elem _. by exists p.
    - exists (fun i => negb (String.eqb i x)). by rewrite filter_map_comm. }
  refine (eq_ind _ (tied None) (proj1 (tied_lines_gone x _ Ht _)) _ _); [|by rewrite <- Hd].
  intros p [_ Hp]%filter_elem E. apply negb_true_iff, String.eqb_neq in Hp. done.
Qed.
Lemma po_in_some u v p : po_in u v = Some p -> p ∈ v_pos v /\ po_id p = u.
Proof. intros H. apply find_some in H as [Hin H]. apply andb_true_iff in H as [H%String.eqb_eq _]. by rewrite list_elem_of_In. Qed.
Lemma UpdatePurchaseOrder_keeps v u id p now : tied None v -> keeps_from v (UpdatePurchaseOrder u id p now).
Proof.
  intros Hv. apply keeps_owner; [done|intros user]. destruct (PP_Lines p) as [|l0 ls0] eqn:El; [by apply keeps_from_throw|]. rewrite <- El in *. clear l0 ls0 El.
  apply keeps_then; [done|apply quiet_prepare|intros ?]. eapply keeps_tells; [done|apply tells_po|intros po (x & row & Hx & Hrow & Hid & Hst)].
  destruct (po_in_some _ _ _ Hrow) as [Hin <-]. apply keeps_then; [done|apply quiet_for_date|intros ?].
  destruct (String.eqb_spec (PO_Status po) "open") as [Eo|]; [|by apply keeps_from_throw]. cbn [negb]. destruct (existsb _ _); [by apply keeps_from_throw|].
  destruct (txn_date _ _) as [date|e]; [|by apply keeps_from_throw]. cbv zeta.
  match goal with |- context [validate_po_lines ?w] => generalize w; intros wh end.
  apply keeps_then; [done|apply quiet_po_lines|intros lines]. apply keeps_from_bind; [|intros ?; apply quiet_getPO]. apply keeps_tx; [done|].
  eapply within_bind; [apply within_wrapping, (within_exec_at false _ _ _ (fun u v => v_set_po_lines (List.filter (fun l => negb (String.eqb (pl_po l) u)) (v_po_lines v)) v)); done|intros ?].
  from_view (y & Ey & Hd1). rewrite Hx in Ey. injection Ey as <-.
  destruct (tied_lines_gone (po_id row) v Hv) as [Ht H0].
  { intros q Hq E _. rewrite (key_unique po_id _ q row (proj1 (t_rows _ _ Hv)) Hq Hin E). congruence. }
  eapply within_bind; [apply within_wrapping, (within_replace false _ _ po_id _ dc_pos set_pos v_pos v_set_pos); done|intros ?].
  apply within_from. intros d2 (y & ps & Ey & Hps & Hd2). rewrite Hx in Ey. injection Ey as <-. rewrite Hid.
  eapply within_conseq; [apply within_po_lines| |by intros ? d3 [H _]]. intros ? <-. unfold no_receipts, all_tied, at_view in *. rewrite Hd2.
  assert (map (fun p => (po_id p, po_status p)) ps = map (fun p => (po_id p, po_status p)) (v_pos v)) as Hkeys.
  { apply (mapM_keyed po_id _ _ _ _ _ Hps). intros y z. unfold edit_po. intros H. repeat (apply bind_Some in H as (? & ? & H)). by injection H as <-. }
  assert (map po_id ps = map po_id (v_pos v)) as Hids by (apply (f_equal (map fst)) in Hkeys; by rewrite !map_map in Hkeys).
  split_and!; [|exact H0|cbn; rewrite Hids; apply elem_map; eauto]. apply tied_pos; [exact Ht| |].
  - intros q Hq _. assert ((po_id q, po_status q) ∈ map (fun p => (po_id p, po_status p)) (v_pos v)) as (q' & [= E1 E2] & Hq')%elem_map.
    { rewrite <- Hkeys. apply elem_map. eauto. }
    exists q'. done.
  - exists (fun _ => true). by rewrite filter_true.
Qed.
End calls.
