(* ===== verification/ReceiptHistory.v ===== *)
(** * Purchasing over any history

    The operations on orders and bills as data, histories of them in which any
    statements may fail and anything may happen to the other tables in between,
    and what holds of receipts and stock afterwards. *)
From S2P Require Import Prelude GoStrings AdminSession PgTx Triples Zoom Float64 Billing FinTables FinLedger FinRows Costing StockLedger Shop.
From S2P Require Import Docs DocSteps Purchasing DocView Receipts ReceiptSteps ReceiptCalls.

Open Scope string_scope.
Open Scope Z_scope.

Inductive purchase_call :=
  | CallCreatePO (p : PurchaseOrderParams)
  | CallUpdatePO (id : string) (p : PurchaseOrderParams)
  | CallClosePO (id : string)
  | CallCancelPO (id : string)
  | CallDeletePO (id : string)
  | CallCreateBill (p : BillParams)
  | CallUpdateBill (id : string) (p : BillParams)
  | CallDeleteBill (id : string).
Record purchase_request := { pq_user : option AuthUser; pq_now : Z; pq_faults : list fault; pq_call : purchase_call }.
(** a request, or what the rest of the program does meanwhile *)
Inductive purchase_event := Serve (r : purchase_request) | Elsewhere (d : docs_db).

Section history.
Context `{HI : PgInput} `{HT : TimeZones} `{HN : Numeric} `{HO : OrderInput}.

Definition run_purchase (r : purchase_request) : docs unit :=
  let u := pq_user r in
  let now := pq_now r in
  match pq_call r with
  | CallCreatePO p => CreatePurchaseOrder u p now;! ret tt
  | CallUpdatePO id p => UpdatePurchaseOrder u id p now;! ret tt
  | CallClosePO id => ClosePurchaseOrder u id now;! ret tt
  | CallCancelPO id => CancelPurchaseOrder u id now;! ret tt
  | CallDeletePO id => DeletePurchaseOrder u id now
  | CallCreateBill p => CreateBill u p now;! ret tt
  | CallUpdateBill id p => UpdateBill u id p now;! ret tt
  | CallDeleteBill id => DeleteBill u id now
  end.
Definition purchase_step (e : purchase_event) (d : docs_db) : docs_db :=
  match e with
  | Serve r => p_db (snd (run_purchase r (Build_pg d None (pq_faults r))))
  | Elsewhere d' => d'
  end.
Fixpoint purchases (l : list purchase_event) (d : docs_db) : docs_db :=
  match l with [] => d | e :: rest => purchases rest (purchase_step e d) end.

Context `{HD : !DocLaws}.
(** The lines of a bill name lines of the bill's own order, none that does not
    exist yet, and quantities within [qty_limit]; nothing else touches orders,
    bills and their movements. *)
Record purchasing_untouched (d d' : docs_db) : Prop := {
  pu_pos : dc_pos d' = dc_pos d; pu_po_lines : dc_po_lines d' = dc_po_lines d; pu_bills : dc_bills d' = dc_bills d;
  pu_bill_lines : dc_bill_lines d' = dc_bill_lines d;
  pu_moves : List.filter of_bills (cores (sh_stock (dc_shop d'))) = List.filter of_bills (cores (sh_stock (dc_shop d)));
  pu_ids : exists drawn, dc_ids d = (drawn ++ dc_ids d')%list
}.
Definition regular_event (e : purchase_event) (d : docs_db) : Prop :=
  match e with
  | Serve r =>
      match pq_call r with
      | CallCreateBill p =>
          forall po, uuid_opt (nullUUID (BP_PurchaseOrderID p)) = Some po -> Forall (line_ok po (view_of d)) (BP_Lines p)
      | CallUpdateBill id p => forall po, po_of_bill (view_of d) id po -> Forall (line_ok po (view_of d)) (BP_Lines p)
      | _ => True
      end
  | Elsewhere d' => purchasing_untouched d d'
  end.
Fixpoint regular_purchases (l : list purchase_event) (d : docs_db) : Prop :=
  match l with [] => True | e :: rest => regular_event e d /\ regular_purchases rest (purchase_step e d) end.
(** a tenant before its first order and bill *)
Record new_purchasing (d : docs_db) : Prop := {
  np_pos : dc_pos d = []; np_po_lines : dc_po_lines d = []; np_bills : dc_bills d = []; np_bill_lines : dc_bill_lines d = [];
  np_moves : List.filter of_bills (cores (sh_stock (dc_shop d))) = [];
  np_ids : NoDup (dc_ids d) /\ Forall (fun i => uuid_in i = Some i) (dc_ids d)
}.

Context `{HL : !PgInputLaws}.
Lemma bill_moves u l : List.filter (has_ref "bill" u) (List.filter of_bills l) = List.filter (has_ref "bill" u) l.
Proof. apply filter_weaker. intros k Hk. by apply andb_true_iff in Hk as [? _]. Qed.
Lemma new_tied d : new_purchasing d -> tied None (view_of d).
Proof.
  intros [Hp Hl Hb Hbl Hm [Hn Hc]].
  split; cbn; rewrite ?Hp, ?Hl, ?Hb, ?Hbl; try (by intros ? ?%elem_of_nil); try (by intros ? ? ?%elem_of_nil); [|split_and!; constructor|].
  - intros u. by rewrite <- bill_moves, Hm.
  - split; [done|]. eapply Forall_impl; [exact Hc|]. cbn. intros i Hi. split; [done|]. unfold taken. cbn. rewrite Hp, Hl, Hb, Hbl. apply not_elem_of_nil.
Qed.
Lemma untouched_tied d d' : tied None (view_of d) -> purchasing_untouched d d' -> tied None (view_of d').
Proof.
  intros [H1 H2 H3 H4 H5 H6 H7 H8 [Hn Hf]] [Ep El Eb Ebl Em [drawn Ei]]. cbn in *.
  split; cbn; rewrite ?Ep, ?El, ?Eb, ?Ebl; try done.
  - intros u. by rewrite <- bill_moves, Em, bill_moves.
  - unfold fresh, taken. cbn. rewrite Ep, El, Eb, Ebl. rewrite Ei in Hn, Hf.
    apply NoDup_app in Hn as (_ & _ & ?). apply Forall_app in Hf as [_ ?]. done.
Qed.
Lemma run_purchase_keeps r d : tied None (view_of d) -> regular_event (Serve r) d -> keeps (tied None) (view_of d) (run_purchase r).
Proof.
  intros Hv He. unfold run_purchase. cbn in He. destruct (pq_call r) as [p|id p|id|id|id|p|id p|id];
    try (apply keeps_from_bind; [|intros ?; apply quiet_ret]).
  - by apply CreatePurchaseOrder_keeps.
  - by apply UpdatePurchaseOrder_keeps.
  - by apply ClosePurchaseOrder_keeps.
  - by apply CancelPurchaseOrder_keeps.
  - by apply DeletePurchaseOrder_keeps.
  - by apply CreateBill_keeps.
  - by apply UpdateBill_keeps.
  - by apply DeleteBill_keeps.
Qed.
Lemma purchase_step_tied e d : tied None (view_of d) -> regular_event e d -> tied None (view_of (purchase_step e d)).
Proof.
  intros Hv He. destruct e as [r|s]; [|by apply (untouched_tied d)].
  assert (idle false (Build_pg d None (pq_faults r))) as Hi by (split; [reflexivity|discriminate]).
  pose proof (run_purchase_keeps r d Hv He _ Hi eq_refl) as H. cbn. destruct (run_purchase r _) as [x w]. apply H.
Qed.
Lemma purchases_tied l d : tied None (view_of d) -> regular_purchases l d -> tied None (view_of (purchases l d)).
Proof.
  revert d. induction l as [|e l IH]; intros d Hv; [done|]. intros [He Hl]. apply IH; [by apply purchase_step_tied|exact Hl].
Qed.

(** C35. Orders receive what is billed.  After any history of order and bill calls of
    a tenant, any statements failing before or after their effect and anything
    else happening to the other tables in between, what each order line received
    is exactly the sum of the bill lines that name it, and every order that was
    neither closed nor cancelled has the status of its receipts; provided that
    the lines of a bill name lines of the bill's own order, or none, with
    quantities of at most [qty_limit] ([regular_purchases]). *)
Theorem receipts_exact l d po line :
  new_purchasing d -> regular_purchases l d ->
  let d' := purchases l d in
  po ∈ dc_pos d' -> line ∈ dc_po_lines d' ->
  pl_received line = billed (pl_id line) (dc_bill_lines d') /\
  (in_list (po_status po) ["open"; "partial"; "received"] = true ->
   po_status po = poStatusFromReceipts (qty4 (sum_of_lines pl_ordered (po_id po) d')) (qty4 (sum_of_lines pl_received (po_id po) d'))).
Proof.
  intros Hd Hl d' Hpo Hline. pose proof (purchases_tied l d (new_tied d Hd) Hl) as Ht. split.
  - by apply (t_received _ _ Ht).
  - intros Hin. by apply (t_status _ _ Ht po Hpo Hin).
Qed.
(** Stock moves as billed.  After any such history, the movements posted for a
    bill are its lines, one by one and in order: each line names its movement,
    which receives the line's quantity of its item in its warehouse; a bill that
    is gone has none. *)
Theorem bill_movements_exact l d u :
  new_purchasing d -> regular_purchases l d ->
  let d' := purchases l d in
  let posted := List.filter (by_ref "bill" u) (movements (sh_stock (dc_shop d'))) in
  map (fun m => (Some (mv_id m), mv_item m, mv_wh m, mv_type m, mv_dir m, mv_qty m)) posted =
  map (fun b => (bl_movement b, bl_item b, bl_wh b, MovementPurchaseReceive, dirIn, qty4 (bl_qty b))) (lines_of_bill u d') /\
  (List.find (fun b => String.eqb (bi_id b) u) (dc_bills d') = None -> posted = []).
Proof.
  intros Hd Hl d' posted. pose proof (purchases_tied l d (new_tied d Hd) Hl) as Ht. pose proof (t_moves _ _ Ht u) as Hm. fold d' in Hm, Ht.
  assert (List.filter (has_ref "bill" u) (v_moves (view_of d')) = map core_of posted) as Hp.
  { exact (filter_map_comm core_of (has_ref "bill" u) _). }
  rewrite Hp, map_map in Hm. split; [exact Hm|]. intros Hnone.
  assert (lines_of_bill u d' = []) as Hno.
  { apply filter_none. intros b Hb. apply String.eqb_neq. intros <-. destruct (proj1 (elem_map _ _ _) (t_owner _ _ Ht b Hb)) as (x & E & Hx).
    eapply find_none in Hnone; [|by apply list_elem_of_In]. by rewrite <- E, String.eqb_refl in Hnone. }
  change (List.filter (of_bill u) (v_bill_lines (view_of d'))) with (lines_of_bill u d') in Hm. rewrite Hno in Hm. by destruct posted.
Qed.
End history.
