(* ===== verification/DocSample.v ===== *)
(** * A sample tenant's purchasing

    Concrete columns that satisfy Receipts.v's laws, a shop with one supplier
    order and its bills, with failing statements, and the witnesses of
    ReceiptHistory.v's theorems. *)
From S2P Require Import Prelude GoStrings AdminSession PgTx Triples Zoom Float64 Billing FinTables FinTxns FinPosting FinLedger FinBooks FinCalls FinSample.
From S2P Require Import Costing StockLedger Shop Docs DocSteps Purchasing DocView Receipts ReceiptSteps ReceiptCalls ReceiptHistory.

Open Scope string_scope.
Open Scope Z_scope.

(** ** Columns *)
(** UUIDs: the ids of the sample *)
Definition doc_ids_known : list string :=
  ["a1"; "e1"; "c1"; "c2"; "h1"; "h2"; "p1"; "p2"; "p3"; "p4"; "p5"; "p6"; "p7"; "p8"; "p9"; "q1"; "q2"; "q3"; "m1"; "m2"; "m3"; "m4"; "m5"; "m6"; "m7"; "m8"; "m9"].
Definition doc_uuid (s : string) : option string := List.find (String.eqb s) doc_ids_known.
Definition same_float (x y : f64) : bool :=
  match x, y with
  | S754_finite s m e, S754_finite s' m' e' => Bool.eqb s s' && Pos.eqb m m' && Z.eqb e e'
  | _, _ => false
  end.
Definition units4 (n : Z) : f64 := fdiv (of_Z n) (of_Z 10000).
(** the nearest number of four decimals, when the number is one *)
Definition exact4 (x : f64) : option Z :=
  match x with
  | S754_zero _ => Some 0
  | S754_finite s m e =>
      let n := if 0 <=? e then Zpos m * 2 ^ e * 10000 else (2 * Zpos m * 10000 + 2 ^ (- e)) / (2 * 2 ^ (- e)) in
      let n := if s then - n else n in
      if same_float x (units4 n) && (if s then true else 0 <? n) then Some n else None
  | _ => None
  end.
#[export] Instance doc_input : PgInput := {|
  uuid_in := doc_uuid; date_in := sample_date; numeric_in := fun s x => if s =? 4 then exact4 x else sample_in s x;
  numeric_out := fun s n => if s =? 4 then units4 n else fdiv (of_Z n) (of_Z (10 ^ s)); array_scan := Some
|}.
#[export] Instance doc_zones : TimeZones := sample_zones.
#[export] Instance doc_numeric : Numeric := {|
  column := fun x => units4 <$> exact4 x; column_minus := fun x y => units4 <$> exact4 (round4 (fsub x y))
|}.
#[export] Instance doc_orders : OrderInput := {|
  numeric_sum := fun s x n => (fun m => n + m) <$> (if s =? 4 then exact4 x else sample_in s x);
  cost_sum := fun _ => fzero; sql_lower := ToLower; label_before := String.ltb; json_items := Some; genLineID := fun _ n => "line" ++ pretty (N.of_nat n);
  map_order := fun _ l => l
|}.
Lemma doc_uuid_same s u : doc_uuid s = Some u -> s = u /\ u ∈ doc_ids_known.
Proof. intros H. apply find_some in H as [Hin H%String.eqb_eq]. subst. by rewrite list_elem_of_In. Qed.
#[export] Instance doc_laws : PgInputLaws.
Proof. split; [|done]. intros s u H. destruct (doc_uuid_same s u H) as [-> _]. exact H. Qed.

(** ** The laws *)
Definition sample_limit : Z := 100.
(** up to the limit, taking a quantity from a column is exact *)
Fixpoint takes_exactly (n : nat) : bool :=
  match n with
  | O => true
  | S k => match exact4 (fopp (units4 (Z.of_nat n))) with Some m => (m =? - Z.of_nat n) && takes_exactly k | None => false end
  end.
Lemma takes_exactly_all n : takes_exactly n = true -> forall m, 0 < m <= Z.of_nat n -> exact4 (fopp (units4 m)) = Some (- m).
Proof.
  induction n as [|n IH]; [lia|]. cbn [takes_exactly]. destruct (exact4 _) as [x|] eqn:E; [|done]. intros [Hx%Z.eqb_eq Hn]%andb_true_iff m Hm.
  destruct (decide (m = Z.of_nat (S n))) as [->|]; [by rewrite E, Hx|]. apply IH; [done|lia].
Qed.
Lemma takes_to_limit : takes_exactly (Z.to_nat sample_limit) = true.
Proof. vm_compute. reflexivity. Qed.
Lemma exact4_positive x m : fleb x epsilon = false -> exact4 x = Some m -> 0 < m.
Proof.
  destruct x as [s|[]| |s n e]; [by destruct s|done..|]. destruct s; [done|]. intros _. unfold exact4. cbv zeta. set (k := if 0 <=? e then _ else _).
  destruct (same_float _ _ && _) eqn:E; [|done]. intros [= <-]. apply andb_true_iff in E as [_ E]. by apply Z.ltb_lt.
Qed.
Lemma known_not_blank : forallb (fun u => negb (String.eqb (TrimSpace u) "")) doc_ids_known = true.
Proof. vm_compute. reflexivity. Qed.
#[export] Instance doc_columns : DocLaws.
Proof.
  refine {| qty_limit := sample_limit |}.
  - intros s u H. destruct (doc_uuid_same s u H) as [-> Hin]. pose proof known_not_blank as Hk. rewrite forallb_forall in Hk.
    apply list_elem_of_In, Hk in Hin. by apply negb_true_iff, String.eqb_neq in Hin.
  - done.
  - intros x m. apply (exact4_positive (round4 x)).
  - intros x m n k. cbn. intros -> _ [= <-]. done.
  - intros m n k Hm. cbn. rewrite (takes_exactly_all _ takes_to_limit) by (unfold sample_limit in *; lia). cbn. intros [= <-]. lia.
  - vm_compute. reflexivity.
Defined.

(** ** A tenant and a day *)
Definition item_row (id name : string) : catalog_row :=
  {| ci_id := id; ci_code := name; ci_name := name; ci_price := None; ci_unit := None; ci_source := "manual"; ci_updated := 0; ci_deleted := false |}.
Definition new_docs : docs_db := {|
  dc_shop := {|
    sh_fin := new_tenant;
    sh_stock := {| movements := []; cost_layers := []; balances := ∅; inv_setting := Some (CostingAverage, true); inv_sku := ∅;
                   stock_ids := ["m1"; "m2"; "m3"; "m4"; "m5"; "m6"; "m7"; "m8"; "m9"] |};
    sh_orders := []; sh_catalog := [item_row "c1" "Teh"; item_row "c2" "Kopi"]; sh_ptypes := []; sh_prices := ∅; sh_contacts := [];
    sh_warehouses := [{| wh_id := "h1"; wh_name := "Toko"; wh_default := true; wh_deleted := false |}]; sh_bundles := []; sh_flags := ∅;
    sh_setup := true; sh_post_expense := false; sh_marker_column := true; sh_ids := []
  |};
  dc_seq := ∅; dc_pos := []; dc_po_lines := []; dc_bills := []; dc_bill_lines := []; dc_txns := []; dc_txn_lines := []; dc_returns := [];
  dc_return_lines := []; dc_ids := ["p1"; "p2"; "p3"; "p4"; "p5"; "p6"; "p7"; "p8"; "p9"; "q1"; "q2"; "q3"]
|}.
Definition grams (n : Z) : f64 := fdiv (of_Z n) (of_Z 1000).
Definition order_line (item : string) (qty : Z) : PurchaseOrderLineInput :=
  {| PI_CatalogItemID := item; PI_WarehouseID := ""; PI_Description := ""; PI_QtyOrdered := grams qty; PI_UnitCost := of_Z 2 |}.
Definition bill_line (item po_line : string) (qty : Z) : BillLineInput :=
  {| BI_CatalogItemID := item; BI_WarehouseID := "h1"; BI_PurchaseOrderLineID := po_line; BI_Description := ""; BI_Qty := grams qty;
     BI_UnitCost := of_Z 2; BI_BatchNo := ""; BI_ExpiryDate := None |}.
Definition billing (po : string) (ls : list BillLineInput) : BillParams :=
  {| BP_PurchaseOrderID := po; BP_SupplierName := "Pemasok"; BP_ContactID := ""; BP_WarehouseID := "h1"; BP_TransactionDate := ""; BP_Note := "";
     BP_Lines := ls |}.
Definition by_owner (faults : list fault) (c : purchase_call) : purchase_event :=
  Serve {| pq_user := Some boss; pq_now := sample_now; pq_faults := faults; pq_call := c |}.
(** The order p1 asks for 6 grams of tea (line p2) and 4 of coffee (p3).  The
    bill p4 brings 2 and 4; a second bill fails and is lost with its transaction;
    a third, p7, brings 1 more, and its answer is lost; then p4 turns out to have
    been 3 of tea only; p7 is taken back. *)
Definition purchasing_day : list purchase_event := [
  by_owner [] (CallCreatePO {| PP_SupplierName := "Pemasok"; PP_ContactID := ""; PP_WarehouseID := "h1"; PP_TransactionDate := ""; PP_Note := "";
                               PP_Lines := [order_line "c1" 6; order_line "c2" 4] |});
  by_owner [] (CallCreateBill (billing "p1" [bill_line "c1" "p2" 2; bill_line "c2" "p3" 4]));
  by_owner (repeat Fine 12 ++ [FailAfter])%list (CallCreateBill (billing "p1" [bill_line "c1" "p2" 1]));
  by_owner (repeat Fine 20 ++ [FailAfter])%list (CallCreateBill (billing "p1" [bill_line "c1" "p2" 1]));
  by_owner [] (CallUpdateBill "p4" (billing "" [bill_line "c1" "p2" 3]));
  by_owner [] (CallDeleteBill "p7")
].

(** ** [regular_purchases] by computation *)
Definition line_okb (skip : option string) (v : view) (l : BillLineInput) : bool :=
  match line_target l with
  | Some (Some x) =>
      negb (in_list x (v_ids v)) && forallb (fun p => negb (String.eqb (pl_id p) x) || bool_decide (skip = Some (pl_po p))) (v_po_lines v)
  | _ => true
  end && match numeric_in 4 (round4 (BI_Qty l)) with Some m => m <=? qty_limit | None => true end.
Definition regular_eventb (e : purchase_event) (d : docs_db) : bool :=
  match e with
  | Serve r =>
      match pq_call r with
      | CallCreateBill p => match uuid_opt (nullUUID (BP_PurchaseOrderID p)) with Some po => forallb (line_okb po (view_of d)) (BP_Lines p) | None => true end
      | CallUpdateBill id p =>
          match u ← uuid_in id; bill_in u (view_of d) with Some b => forallb (line_okb (bi_po b) (view_of d)) (BP_Lines p) | None => true end
      | _ => true
      end
  | Elsewhere _ => false
  end.
Fixpoint regular_purchasesb (l : list purchase_event) (d : docs_db) : bool :=
  match l with [] => true | e :: rest => regular_eventb e d && regular_purchasesb rest (purchase_step e d) end.
Lemma in_list_true x l : in_list x l = true <-> x ∈ l.
Proof. unfold in_list. rewrite existsb_exists, list_elem_of_In. split; [intros (y & Hy & ->%String.eqb_eq); done|]. intros Hx. exists x. by rewrite String.eqb_refl. Qed.
Lemma line_okb_true skip v l : line_okb skip v l = true -> line_ok skip v l.
Proof.
  unfold line_okb. intros [Ht Hm]%andb_true_iff. split.
  - intros u Hu. rewrite Hu in Ht. destruct u as [x|]; [|by split]. apply andb_true_iff in Ht as [Hi Hp]. rewrite forallb_forall in Hp. split.
    + intros y [= <-] Hin. apply in_list_true in Hin. by rewrite Hin in Hi.
    + intros p Hp' [= ->]. apply list_elem_of_In, Hp in Hp'. rewrite String.eqb_refl in Hp'. by apply bool_decide_eq_true in Hp'.
  - intros m Hn. rewrite Hn in Hm. by apply Z.leb_le.
Qed.
Lemma forallb_lines skip v ls : forallb (line_okb skip v) ls = true -> Forall (line_ok skip v) ls.
Proof. intros H. rewrite forallb_forall in H. apply Forall_forall. intros l Hl. by apply line_okb_true, H, list_elem_of_In. Qed.
Lemma regular_purchases_true l d : regular_purchasesb l d = true -> regular_purchases l d.
Proof.
  revert d. induction l as [|e l IH]; intros d; [done|]. cbn [regular_purchasesb regular_purchases]. intros [He Hl]%andb_true_iff. split; [|by apply IH].
  clear Hl IH. destruct e as [r|s]; [|done]. unfold regular_eventb, regular_event in *. destruct (pq_call r) as [p|id p|id|id|id|p|id p|id]; try done.
  - intros po Hpo. rewrite Hpo in He. by apply forallb_lines.
  - intros po (u & b & Hu & Hb & ->). rewrite Hu in He. cbn [mbind option_bind] in He. rewrite Hb in He. by apply forallb_lines.
Qed.
Lemma new_docs_new : new_purchasing new_docs.
Proof.
  split; try reflexivity. split; [|repeat constructor]. apply (bool_decide_unpack _). vm_compute. exact I.
Qed.
Lemma purchasing_day_regular : regular_purchases purchasing_day new_docs.
Proof. apply regular_purchases_true. vm_compute. reflexivity. Qed.
Abbreviation evening := (purchases purchasing_day new_docs).
Definition no_po : po_row := {|
  po_id := ""; po_no := ""; po_supplier := None; po_contact := None; po_wh := None; po_status := ""; po_date := 0; po_note := None; po_subtotal := 0;
  po_deleted := false |}.
Definition no_po_line : po_line_row :=
  {| pl_id := ""; pl_po := ""; pl_item := ""; pl_wh := ""; pl_desc := None; pl_ordered := 0; pl_received := 0; pl_cost := 0 |}.
Definition evening_po : po_row := nth 0 (dc_pos evening) no_po.
Definition evening_line : po_line_row := nth 0 (dc_po_lines evening) no_po_line.

Lemma receipts_exact_witness :
  pl_received evening_line = 30 /\ po_status evening_po = "partial" /\ length (dc_bills evening) = 1%nat.
Proof.
  assert (evening_po ∈ dc_pos evening) as Hp by (apply list_elem_of_In, nth_In; vm_compute; lia).
  assert (evening_line ∈ dc_po_lines evening) as Hl by (apply list_elem_of_In, nth_In; vm_compute; lia).
  destruct (receipts_exact purchasing_day new_docs evening_po evening_line new_docs_new purchasing_day_regular Hp Hl) as [Hr Hs].
  split_and!; [rewrite Hr; vm_compute; reflexivity|rewrite Hs; vm_compute; reflexivity|vm_compute; reflexivity].
Defined.
Lemma bill_movements_exact_witness :
  map (fun m => (Some (mv_id m), mv_item m, mv_wh m, mv_type m, mv_dir m, mv_qty m))
    (List.filter (by_ref "bill" "p4") (movements (sh_stock (dc_shop evening)))) =
  [(Some "m4", "c1", "h1", MovementPurchaseReceive, dirIn, grams 3)] /\
  List.filter (by_ref "bill" "p7") (movements (sh_stock (dc_shop evening))) = [].
Proof.
  destruct (bill_movements_exact purchasing_day new_docs "p4" new_docs_new purchasing_day_regular) as [H4 _].
  destruct (bill_movements_exact purchasing_day new_docs "p7" new_docs_new purchasing_day_regular) as [_ H7].
  split; [rewrite H4; vm_compute; reflexivity|apply H7; vm_compute; reflexivity].
Defined.

(** ** Outside the rules *)
Definition ordered_six : purchase_event :=
  by_owner [] (CallCreatePO {| PP_SupplierName := ""; PP_ContactID := ""; PP_WarehouseID := "h1"; PP_TransactionDate := ""; PP_Note := "";
                               PP_Lines := [order_line "c1" 6] |}).
Definition states (d : docs_db) := (map po_status (dc_pos d), map (fun l => (pl_ordered l, pl_received l)) (dc_po_lines d)).
(** deleting a bill opens its order again, closed or not *)
Lemma delete_bill_reopens_closed_order :
  let closed := [ordered_six; by_owner [] (CallCreateBill (billing "p1" [bill_line "c1" "p2" 2])); by_owner [] (CallClosePO "p1")] in
  states (purchases closed new_docs) = (["closed"], [(60, 20)]) /\
  states (purchases (closed ++ [by_owner [] (CallDeleteBill "p3")]) new_docs) = (["open"], [(60, 0)]).
Proof. split; vm_compute; reflexivity. Qed.
(** a bill that names the line without the order fulfils it and leaves its status; and a
    cancelled order still receives *)
Lemma unnamed_order_keeps_its_status :
  states (purchases [ordered_six; by_owner [] (CallCreateBill (billing "" [bill_line "c1" "p2" 6]))] new_docs) = (["open"], [(60, 60)]) /\
  states (purchases [ordered_six; by_owner [] (CallCancelPO "p1"); by_owner [] (CallCreateBill (billing "p1" [bill_line "c1" "p2" 7]))] new_docs) =
    (["cancelled"], [(60, 70)]).
Proof. split; vm_compute; reflexivity. Qed.
