(* ===== verification/StockOps.v ===== *)
(** * Stock transactions: adjustments, transfers, opening balances, revaluations

    [inventory/adjustment.go], [stock_transaction.go], [stock_transaction_patch.go],
    [stock_transaction_repost.go], [stock_transaction_batch.go] and
    [batch_validate.go]: documents by which an owner corrects the stock, each with
    the movements it posted and the finance entry they cause.  Creating and
    editing share the part that writes the header's columns and posts
    ([post_adjustment] and its like), which the code writes out twice.
    Left out: the listings, when a document was created, and the headers made
    for movements older than the documents (stock_transaction_backfill.go). *)
From S2P Require Import Prelude GoStrings AdminSession DaySlots Dates PgTx Triples Zoom Float64 Billing FinTables FinPosting Costing StockLedger Shop OrderStock.
From S2P Require Import Docs.

Open Scope string_scope.
Open Scope Z_scope.

(** ** Types *)
Record StockTransactionLine := {
  SL_ID : string; SL_CatalogItemID : string; SL_ItemName : string; SL_WarehouseID : string; SL_WarehouseName : string; SL_Qty : f64;
  SL_UnitCost : f64; SL_BatchNo : option string; SL_MovementID : option string
}.
Record StockTransaction := {
  ST_ID : string; ST_DocNo : string; ST_Kind : string; ST_TransactionDate : string; ST_Note : string; ST_CatalogItemID : string;
  ST_WarehouseID : string; ST_FromWarehouseID : string; ST_ToWarehouseID : string; ST_SignedQty : option f64; ST_UnitCost : option f64;
  ST_NewUnitCost : option f64; ST_Lines : list StockTransactionLine
}.
Record AdjustmentParams := {
  AP_CatalogItemID : string; AP_WarehouseID : string; AP_Qty : f64; AP_UnitCost : f64; AP_BatchNo : string; AP_ExpiryDate : option string;
  AP_Note : string
}.
Record TransferParams := {
  TP_CatalogItemID : string; TP_FromWarehouseID : string; TP_ToWarehouseID : string; TP_Qty : f64; TP_Note : string
}.
Record OpeningEntry := {
  OE_CatalogItemID : string; OE_WarehouseID : string; OE_Qty : f64; OE_UnitCost : f64; OE_BatchNo : string; OE_ExpiryDate : option string
}.
Record RevaluationParams := { VP_CatalogItemID : string; VP_WarehouseID : string; VP_NewUnitCost : f64; VP_Note : string }.
Record UpdateStockTransactionParams := {
  UP_CatalogItemID : string; UP_WarehouseID : string; UP_Qty : f64; UP_UnitCost : f64; UP_BatchNo : string; UP_ExpiryDate : option string;
  UP_Note : string; UP_FromWarehouseID : string; UP_ToWarehouseID : string; UP_TransferQty : f64; UP_NewUnitCost : f64;
  UP_Entries : list OpeningEntry
}.
Record StockOpResult := {
  SR_TransactionID : string; SR_DocNo : string; SR_MovementIDs : list string; SR_QtyAfter : f64; SR_TotalCost : f64; SR_Shortfall : f64
}.
Record OpeningBalanceResponse := { OB_TransactionID : string; OB_DocNo : string; OB_Applied : nat; OB_MovementIDs : list string }.

(** ** Plans *)
Definition abs (x : f64) : f64 := if fltb x fzero then fopp x else x.
(** type, direction and quantity of an adjustment's movement *)
Definition adjustmentPlan (signedQty : f64) : option (string * string * f64) :=
  if fltb epsilon signedQty then Some (MovementAdjustPlus, dirIn, round4 signedQty)
  else if fltb signedQty (fopp epsilon) then Some (MovementAdjustMinus, dirOut, round4 (fopp signedQty))
  else None.
Definition revaluationDelta (onHand oldTotalValue newUnitCost : f64) : f64 * f64 :=
  let newTotal := round4 (fmul onHand newUnitCost) in (newTotal, round4 (fsub newTotal oldTotalValue)).
Definition coalesceStr (a b : string) : string := if String.eqb a "" then b else a.
Definition txnKindRefType (kind : string) : string := kind.
(** document type and number prefix *)
Definition docTypeForKind (kind : string) : result (string * string) :=
  if String.eqb kind TxnKindAdjustment then Ok (DocAdjust, DocAdjust)
  else if String.eqb kind TxnKindTransfer then Ok (DocTransfer, DocTransfer)
  else if String.eqb kind TxnKindOpeningBalance then Ok (DocOpening, DocOpening)
  else if String.eqb kind TxnKindRevaluation then Ok (DocRevalue, DocRevalue)
  else Err (BadRequest "jenis transaksi tidak dikenal").

(** ** Rows *)
Definition find_txn (u : string) (d : docs_db) : option stock_txn_row := List.find (fun t => String.eqb (sx_id t) u) (dc_txns d).
Definition lines_of_txn (u : string) (d : docs_db) : list stock_line_row := List.filter (fun l => String.eqb (sl_txn l) u) (dc_txn_lines d).
Definition name_of_warehouse (u : string) (d : docs_db) : string :=
  default "" (wh_name <$> List.find (fun w => String.eqb (wh_id w) u) (sh_warehouses (dc_shop d))).
Definition with_line_movement (m : string) (l : stock_line_row) : stock_line_row :=
  {| sl_id := sl_id l; sl_txn := sl_txn l; sl_item := sl_item l; sl_wh := sl_wh l; sl_qty := sl_qty l; sl_cost := sl_cost l;
     sl_batch := sl_batch l; sl_movement := Some m; sl_order := sl_order l |}.

(** ** Batches of ids (batch_validate.go) *)
(** the item and the warehouse of an entry, when both are given *)
Definition entry_key (e : OpeningEntry) : option (string * string) :=
  let item := TrimSpace (OE_CatalogItemID e) in
  let wh := TrimSpace (OE_WarehouseID e) in
  if String.eqb item "" || String.eqb wh "" then None else Some (item, wh).
Definition duplicate_entries (prev i : nat) : error :=
  BadRequest ("baris " ++ pretty (S prev) ++ " dan " ++ pretty (S i) ++ ": kombinasi produk+gudang duplikat dalam form").
Fixpoint entry_pairs (seen : gmap (string * string) nat) (i : nat) (es : list OpeningEntry) : option error :=
  match es with
  | [] => None
  | e :: rest =>
      match entry_key e with
      | None => entry_pairs seen (S i) rest
      | Some k => match seen !! k with Some prev => Some (duplicate_entries prev i) | None => entry_pairs (<[k := i]> seen) (S i) rest end
      end
  end.
Definition validateOpeningBalanceEntryPairs (es : list OpeningEntry) : option error := entry_pairs ∅ 0 es.
Definition uniqueOpeningBalanceKeys (es : list OpeningEntry) : list (string * string) :=
  fold_left (fun out e => match entry_key e with Some k => if bool_decide (k ∈ out) then out else (out ++ [k])%list | None => out end) es [].

(** [ROUND(unit_cost * $3, 4)] in SQL *)
Class LayerScale := { column_scaled : f64 -> f64 -> option f64 }.

Section stockops.
Context `{PgInput} `{TimeZones} `{Numeric} `{OrderInput} `{LayerScale}.

(** ** Reading *)
Definition line_of_txn_row (d : docs_db) (l : stock_line_row) : StockTransactionLine :=
  {| SL_ID := sl_id l; SL_CatalogItemID := sl_item l; SL_ItemName := name_of_item (sl_item l) d; SL_WarehouseID := sl_wh l;
     SL_WarehouseName := name_of_warehouse (sl_wh l) d; SL_Qty := qty4 (sl_qty l); SL_UnitCost := qty4 (sl_cost l);
     SL_BatchNo := nullStrPtr (sl_batch l); SL_MovementID := sl_movement l |}.
Definition by_sort_order (x y : stock_line_row) : bool := sl_order x <=? sl_order y.
Definition loadStockTransaction (id : string) : docs StockTransaction :=
  let! t := wrapping (not_found "transaksi tidak ditemukan") (row_at (uuid_in id) find_txn) in
  let! lines := internally (query_with (uuid_in id) (fun u d => map (line_of_txn_row d) (sort_by by_sort_order (lines_of_txn u d)))) in
  ret {| ST_ID := sx_id t; ST_DocNo := sx_no t; ST_Kind := sx_kind t; ST_TransactionDate := date_text (sx_date t);
         ST_Note := default "" (sx_note t); ST_CatalogItemID := default "" (sx_item t); ST_WarehouseID := default "" (sx_wh t);
         ST_FromWarehouseID := default "" (sx_from t); ST_ToWarehouseID := default "" (sx_to t); ST_SignedQty := qty4 <$> sx_qty t;
         ST_UnitCost := qty4 <$> sx_cost t; ST_NewUnitCost := qty4 <$> sx_new_cost t; ST_Lines := lines |}.
Definition GetStockTransaction (u : option AuthUser) (id : string) : docs StockTransaction :=
  match getUser u with Err e => throw e | Ok _ => prepare;! loadStockTransaction id end.

(** ** The header *)
Definition header_of (user : AuthUser) (no kind date note id : string) (d : docs_db) : option stock_txn_row :=
  day ← date_in date; _ ← uuid_opt (nullUUID (AccountID user));
  if existsb (fun t => String.eqb (sx_no t) no) (dc_txns d) then None
  else Some {| sx_id := id; sx_no := no; sx_kind := kind; sx_date := day; sx_note := stockNull note; sx_item := None; sx_wh := None;
               sx_from := None; sx_to := None; sx_qty := None; sx_cost := None; sx_new_cost := None |}.
(** the new row, dated today *)
Definition insertStockTransactionHeader (user : AuthUser) (kind note : string) (now : Z) : docs stock_txn_row :=
  match docTypeForKind kind with
  | Err e => throw e
  | Ok (docType, prefix) =>
      let! no := internally (nextDocNumber docType prefix) in
      internally (insert_row (header_of user no kind (format_date now) note) (fun r d => set_stock_txns (dc_txns d ++ [r])%list d))
  end.
(** UPDATE inv_stock_transaction SET … WHERE id = $1 *)
Definition update_header (txnID : string) (edit : stock_txn_row -> option stock_txn_row) : docs unit :=
  internally (replace_at (uuid_in txnID) sx_id edit dc_txns set_stock_txns).

(** ** Adjustments *)
Definition edit_adjustment (p : AdjustmentParams) (t : stock_txn_row) : option stock_txn_row :=
  item ← uuid_in (AP_CatalogItemID p); wh ← uuid_in (AP_WarehouseID p); q ← numeric_in 4 (AP_Qty p); c ← numeric_in 4 (AP_UnitCost p);
  Some {| sx_id := sx_id t; sx_no := sx_no t; sx_kind := sx_kind t; sx_date := sx_date t; sx_note := stockNull (AP_Note p);
          sx_item := Some item; sx_wh := Some wh; sx_from := sx_from t; sx_to := sx_to t; sx_qty := Some q; sx_cost := Some c;
          sx_new_cost := sx_new_cost t |}.
Definition adjustment_movement (txnID : string) (plan : string * string * f64) (cc : costingContext) (p : AdjustmentParams) : MovementInput :=
  {| MI_CatalogItemID := AP_CatalogItemID p; MI_WarehouseID := AP_WarehouseID p; MI_Type := plan.1.1; MI_Direction := plan.1.2;
     MI_Qty := plan.2; MI_UnitCost := AP_UnitCost p; MI_CostingMethod := cc_method cc; MI_BlockNegative := cc_blockNegative cc;
     MI_BatchNo := AP_BatchNo p; MI_RefType := TxnKindAdjustment; MI_RefID := txnID |}.
Definition post_adjustment (txnID : string) (plan : string * string * f64) (p : AdjustmentParams) (now : Z) : docs MovementResult :=
  update_header txnID (edit_adjustment p);!
  let! cc := costingContext_for (AP_CatalogItemID p) in
  postMovement (adjustment_movement txnID plan cc p) now.
(** the value of what was taken out, as an expense *)
Definition writeoff_entry (user : AuthUser) (res : MovementResult) (note : string) (now : Z) : docs unit :=
  doc_fin (RecordInventoryEntry (AccountID user) (MR_MovementID res) "expense" finCatSelisihPersediaan
    ("Penyesuaian stok keluar (" ++ TrimSpace note ++ ")") (round2 (MR_TotalCost res)) "" now).
Definition CreateAdjustment (u : option AuthUser) (p : AdjustmentParams) (now : Z) : docs StockOpResult :=
  as_owner u (fun user =>
    match adjustmentPlan (AP_Qty p) with
    | None => throw (BadRequest "qty penyesuaian tidak boleh 0")
    | Some plan =>
        let dir := plan.1.2 in
        if String.eqb dir dirIn && fltb (AP_UnitCost p) fzero then throw (BadRequest "harga pokok tidak boleh negatif")
        else
          match parseDatePtr (AP_ExpiryDate p) with
          | Some e => throw e
          | None =>
              (if String.eqb dir dirOut then doc_fin (CheckCurrentPeriodUnlocked now) else ret tt);!
              prepare;!
              validateCatalogItem (AP_CatalogItemID p);!
              validateWarehouse (AP_WarehouseID p);!
              let! done := in_tx InternalE (
                internally (ensureSku (AP_CatalogItemID p));!
                let! t := insertStockTransactionHeader user TxnKindAdjustment (AP_Note p) now in
                let! res := post_adjustment (sx_id t) plan p now in
                ret (t, res)) in
              let '(t, res) := done in
              (if String.eqb dir dirOut && fltb fzero (MR_TotalCost res) then writeoff_entry user res (AP_Note p) now else ret tt);!
              ret {| SR_TransactionID := sx_id t; SR_DocNo := sx_no t; SR_MovementIDs := [MR_MovementID res]; SR_QtyAfter := MR_QtyAfter res;
                     SR_TotalCost := MR_TotalCost res; SR_Shortfall := MR_Shortfall res |}
          end
    end).

(** ** Transfers *)
Definition edit_transfer (p : TransferParams) (t : stock_txn_row) : option stock_txn_row :=
  item ← uuid_in (TP_CatalogItemID p); from ← uuid_in (TP_FromWarehouseID p); to ← uuid_in (TP_ToWarehouseID p); q ← numeric_in 4 (TP_Qty p);
  Some {| sx_id := sx_id t; sx_no := sx_no t; sx_kind := sx_kind t; sx_date := sx_date t; sx_note := stockNull (TP_Note p);
          sx_item := Some item; sx_wh := sx_wh t; sx_from := Some from; sx_to := Some to; sx_qty := Some q; sx_cost := sx_cost t;
          sx_new_cost := sx_new_cost t |}.
Definition transfer_movement (txnID wh type dir : string) (cost : f64) (cc : costingContext) (p : TransferParams) : MovementInput :=
  {| MI_CatalogItemID := TP_CatalogItemID p; MI_WarehouseID := wh; MI_Type := type; MI_Direction := dir; MI_Qty := round4 (TP_Qty p);
     MI_UnitCost := cost; MI_CostingMethod := cc_method cc; MI_BlockNegative := cc_blockNegative cc; MI_BatchNo := "";
     MI_RefType := TxnKindTransfer; MI_RefID := txnID |}.
(** out, and in at the cost it went out with *)
Definition post_transfer (txnID : string) (p : TransferParams) (now : Z) : docs (MovementResult * MovementResult) :=
  update_header txnID (edit_transfer p);!
  let! cc := costingContext_for (TP_CatalogItemID p) in
  let! out := postMovement (transfer_movement txnID (TP_FromWarehouseID p) MovementTransferOut dirOut fzero cc p) now in
  let! into := postMovement (transfer_movement txnID (TP_ToWarehouseID p) MovementTransferIn dirIn (MR_UnitCost out) cc p) now in
  ret (out, into).
Definition transfer_refused (p : TransferParams) : option error :=
  if fleb (TP_Qty p) epsilon then Some (BadRequest "qty transfer harus lebih dari 0")
  else if String.eqb (TrimSpace (TP_FromWarehouseID p)) (TrimSpace (TP_ToWarehouseID p))
       then Some (BadRequest "gudang asal dan tujuan tidak boleh sama")
  else None.
Definition validate_transfer (p : TransferParams) : docs unit :=
  validateCatalogItem (TP_CatalogItemID p);!
  validateWarehouse (TP_FromWarehouseID p);!
  validateWarehouse (TP_ToWarehouseID p).
Definition CreateTransfer (u : option AuthUser) (p : TransferParams) (now : Z) : docs StockOpResult :=
  as_owner u (fun user =>
    match transfer_refused p with
    | Some e => throw e
    | None =>
        prepare;!
        validate_transfer p;!
        let! done := in_tx InternalE (
          internally (ensureSku (TP_CatalogItemID p));!
          let! t := insertStockTransactionHeader user TxnKindTransfer (TP_Note p) now in
          let! res := post_transfer (sx_id t) p now in
          ret (t, res)) in
        let '(t, (out, into)) := done in
        ret {| SR_TransactionID := sx_id t; SR_DocNo := sx_no t; SR_MovementIDs := [MR_MovementID out; MR_MovementID into];
               SR_QtyAfter := MR_QtyAfter into; SR_TotalCost := MR_TotalCost out; SR_Shortfall := fzero |}
    end).

(** ** Opening balances *)
Definition validateCatalogItemsBatch (ids : list string) : docs unit :=
  let ids := uniqueNonEmpty ids in
  if Nat.eqb (length ids) 0 then throw (BadRequest "item katalog wajib dipilih")
  else
    let! found := internally (query_with (mapM uuid_in ids) (fun us d =>
      map ci_id (List.filter (fun c => negb (ci_deleted c) && in_list (ci_id c) us) (sh_catalog (dc_shop d))))) in
    if forallb (fun id => in_list id found) ids then ret tt else throw (BadRequest "item katalog tidak ditemukan").
Definition validateWarehousesBatch (ids : list string) : docs unit :=
  let ids := uniqueNonEmpty ids in
  if Nat.eqb (length ids) 0 then throw (BadRequest "gudang wajib dipilih")
  else
    let! found := internally (query_with (mapM uuid_in ids) (fun us d =>
      map wh_id (List.filter (fun w => negb (wh_deleted w) && in_list (wh_id w) us) (sh_warehouses (dc_shop d))))) in
    if forallb (fun id => in_list id found) ids then ret tt else throw (BadRequest "gudang tidak ditemukan").
(** the names of the item and the warehouse of some opening line for one of the pairs: LIMIT 1, here the first *)
Definition registered_opening (keys : list (string * string)) (d : docs_db) : option (string * string) :=
  (fun l => (name_of_item (sl_item l) d, name_of_warehouse (sl_wh l) d)) <$>
  List.find (fun l => bool_decide ((sl_item l, sl_wh l) ∈ keys) &&
    existsb (fun t => String.eqb (sx_id t) (sl_txn l) && String.eqb (sx_kind t) TxnKindOpeningBalance) (dc_txns d)) (dc_txn_lines d).
Definition pair_in (k : string * string) : option (string * string) := i ← uuid_in k.1; w ← uuid_in k.2; Some (i, w).
Definition or_name (name fallback : string) : string := if String.eqb (TrimSpace name) "" then fallback else name.
Definition validateOpeningBalanceNotRegistered (es : list OpeningEntry) : docs unit :=
  let keys := uniqueOpeningBalanceKeys es in
  if Nat.eqb (length keys) 0 then ret tt
  else
    let! found := internally (query_with (mapM pair_in keys) registered_opening) in
    match found with
    | None => ret tt
    | Some (item, wh) =>
        throw (BadRequest (or_name item "produk" ++ " di " ++ or_name wh "gudang" ++
          " sudah punya saldo awal — gunakan Penyesuaian Stok untuk menambah atau mengurangi stok"))
    end.
(** [ccl.load]; its caches only spare queries, as in [load_context] *)
Definition opening_context_for (item : string) : docs costingContext :=
  match uuid_in item with
  | Some u => doc_stock (load_context u)
  | None => internally (stmt (fun d => (Err bad_input, d)))
  end.
(** [txn]: the id the columns hold *)
Definition opening_line_of (txn : string) (i : nat) (e : OpeningEntry) (id : string) (_ : docs_db) : option stock_line_row :=
  item ← uuid_in (OE_CatalogItemID e); wh ← uuid_in (OE_WarehouseID e); q ← numeric_in 4 (round4 (OE_Qty e));
  c ← numeric_in 4 (round4 (OE_UnitCost e));
  Some {| sl_id := id; sl_txn := txn; sl_item := item; sl_wh := wh; sl_qty := q; sl_cost := c; sl_batch := stockNull (OE_BatchNo e);
          sl_movement := None; sl_order := Z.of_nat i |}.
Definition opening_movement (txnID : string) (cc : costingContext) (e : OpeningEntry) : MovementInput :=
  {| MI_CatalogItemID := OE_CatalogItemID e; MI_WarehouseID := OE_WarehouseID e; MI_Type := MovementOpening; MI_Direction := dirIn;
     MI_Qty := round4 (OE_Qty e); MI_UnitCost := OE_UnitCost e; MI_CostingMethod := cc_method cc; MI_BlockNegative := cc_blockNegative cc;
     MI_BatchNo := OE_BatchNo e; MI_RefType := TxnKindOpeningBalance; MI_RefID := txnID |}.
(** the end of the loop's body, from the insertion of the line on *)
Definition post_opening_line (txnID txn : string) (i : nat) (cc : costingContext) (e : OpeningEntry) (now : Z) : docs string :=
  let! line := internally (insert_row (opening_line_of txn i e) (fun r d => set_stock_lines (dc_txn_lines d ++ [r])%list d)) in
  let! res := postMovement (opening_movement txnID cc e) now in
  internally (replace_at (Some (sl_id line)) sl_id (fun r => Some (with_line_movement (MR_MovementID res) r)) dc_txn_lines set_stock_lines);!
  ret (MR_MovementID res).
Definition entry_refused (i : nat) (e : OpeningEntry) : option error :=
  if fleb (OE_Qty e) epsilon then Some (BadRequest (at_line i "qty harus lebih dari 0"))
  else if fltb (OE_UnitCost e) fzero then Some (BadRequest (at_line i "harga pokok tidak boleh negatif"))
  else None.
Fixpoint create_entries (txn : string) (i : nat) (es : list OpeningEntry) (now : Z) : docs (list string) :=
  match es with
  | [] => ret []
  | e :: rest =>
      match entry_refused i e with
      | Some err => throw err
      | None =>
          match parseDatePtr (OE_ExpiryDate e) with
          | Some err => throw (in_line i err)
          | None =>
              internally (ensureSku (OE_CatalogItemID e));!
              let! cc := opening_context_for (OE_CatalogItemID e) in
              let! id := post_opening_line txn txn i cc e now in
              let! ids := create_entries txn (S i) rest now in
              ret (id :: ids)
          end
      end
  end.
Definition CreateOpeningBalance (u : option AuthUser) (es : list OpeningEntry) (now : Z) : docs OpeningBalanceResponse :=
  as_owner u (fun user =>
    if Nat.eqb (length es) 0 then throw (BadRequest "tidak ada baris saldo awal")
    else if Nat.ltb 1000 (length es) then throw (BadRequest "maksimal 1000 baris per unggahan")
    else
      prepare;!
      let! done := in_tx InternalE (
        let! t := insertStockTransactionHeader user TxnKindOpeningBalance "Saldo awal" now in
        validateCatalogItemsBatch (map OE_CatalogItemID es);!
        validateWarehousesBatch (map OE_WarehouseID es);!
        match validateOpeningBalanceEntryPairs es with
        | Some e => throw e
        | None =>
            validateOpeningBalanceNotRegistered es;!
            let! ids := create_entries (sx_id t) 0 es now in
            ret (t, ids)
        end) in
      let '(t, ids) := done in
      ret {| OB_TransactionID := sx_id t; OB_DocNo := sx_no t; OB_Applied := length ids; OB_MovementIDs := ids |}).

(** ** Revaluations *)
Definition on_pair {A} (item wh : string) (m : string -> string -> stock A) : docs A :=
  match uuid_in item, uuid_in wh with
  | Some i, Some w => doc_stock (m i w)
  | _, _ => stmt (fun d => (Err bad_input, d))
  end.
(** SELECT on_hand, total_value … FOR UPDATE: any failure reads as no stock *)
Definition stock_to_revalue (item wh : string) : docs BalanceState :=
  let! b := attempt (on_pair item wh (fun i w => read (fun d => balances d !! (i, w)))) in
  match b with
  | Ok (Some b) => if fleb (OnHand b) epsilon then throw (BadRequest "tidak ada stok untuk direvaluasi di gudang ini") else ret b
  | _ => throw (BadRequest "tidak ada stok untuk direvaluasi di gudang ini")
  end.
Definition edit_revaluation (p : RevaluationParams) (t : stock_txn_row) : option stock_txn_row :=
  item ← uuid_in (VP_CatalogItemID p); wh ← uuid_in (VP_WarehouseID p); c ← numeric_in 4 (VP_NewUnitCost p);
  Some {| sx_id := sx_id t; sx_no := sx_no t; sx_kind := sx_kind t; sx_date := sx_date t; sx_note := stockNull (VP_Note p);
          sx_item := Some item; sx_wh := Some wh; sx_from := sx_from t; sx_to := sx_to t; sx_qty := sx_qty t; sx_cost := sx_cost t;
          sx_new_cost := Some c |}.
(** UPDATE inv_cost_layer SET unit_cost = … WHERE … AND qty_remaining > 0 *)
Definition reprice_layers (price : f64 -> option f64) (i w : string) : stock unit :=
  checked (fun d =>
    ls ← mapM (fun l =>
      if String.eqb (cl_item l) i && String.eqb (cl_wh l) w && fltb fzero (cl_qty l) then
        c ← price (cl_unit l);
        Some {| cl_id := cl_id l; cl_item := cl_item l; cl_wh := cl_wh l; cl_qty := cl_qty l; cl_unit := c; cl_batch := cl_batch l;
                cl_source := cl_source l; cl_received := cl_received l |}
      else Some l) (cost_layers d);
    Some (set_layers ls d)).
(** UPDATE inv_stock_balance SET avg_unit_cost = $3, total_value = $4 *)
Definition reprice_balance (avg total : f64) (i w : string) : stock unit :=
  checked (fun d =>
    match balances d !! (i, w) with
    | None => Some d
    | Some b =>
        a ← column avg; t ← column total;
        Some (set_balances (<[(i, w) := {| OnHand := OnHand b; AvgCost := a; TotalValue := t |}]> (balances d)) d)
    end).
(** what the movement's row is inserted with: no quantity, in or out with the value's change *)
Definition revaluation_movement (i w txn : string) (delta : f64) : MovementInput :=
  {| MI_CatalogItemID := i; MI_WarehouseID := w; MI_Type := MovementRevaluation; MI_Direction := if fltb delta fzero then dirOut else dirIn;
     MI_Qty := fzero; MI_UnitCost := fzero; MI_CostingMethod := ""; MI_BlockNegative := false; MI_BatchNo := "";
     MI_RefType := TxnKindRevaluation; MI_RefID := txn |}.
Definition of_pair {A} (p : RevaluationParams) (m : string -> string -> stock A) : docs A :=
  internally (on_pair (VP_CatalogItemID p) (VP_WarehouseID p) m).
(** the movement and the value's change; [txn]: the id the columns hold *)
Definition post_revaluation (txnID txn : string) (b : BalanceState) (p : RevaluationParams) (now : Z) : docs (string * f64) :=
  update_header txnID (edit_revaluation p);!
  let '(newTotal, delta) := revaluationDelta (OnHand b) (TotalValue b) (VP_NewUnitCost p) in
  let! cc := costingContext_for (VP_CatalogItemID p) in
  (if negb (String.eqb (cc_method cc) CostingAverage) then
     if fltb epsilon (TotalValue b) then of_pair p (reprice_layers (fun c => column_scaled c (fdiv newTotal (TotalValue b))))
     else of_pair p (reprice_layers (fun _ => column (VP_NewUnitCost p)))
   else ret tt);!
  of_pair p (reprice_balance (VP_NewUnitCost p) newTotal);!
  let! id := of_pair p (fun i w => insert_movement (revaluation_movement i w txn delta) now (VP_NewUnitCost p) (round4 (abs delta))
                                {| OnHand := OnHand b; AvgCost := VP_NewUnitCost p; TotalValue := newTotal |}) in
  ret (id, delta).
(** the change of value as income or expense *)
Definition revaluation_entry (user : AuthUser) (movementID note : string) (delta : f64) (now : Z) : docs unit :=
  doc_fin (RecordInventoryEntry (AccountID user) movementID (if fltb delta fzero then "expense" else "income") finCatPenyesuaianNilai
    ("Revaluasi HPP (" ++ TrimSpace note ++ ")") (round2 (abs delta)) "" now).
Definition CreateRevaluation (u : option AuthUser) (p : RevaluationParams) (now : Z) : docs StockOpResult :=
  as_owner u (fun user =>
    if fltb (VP_NewUnitCost p) fzero then throw (BadRequest "harga pokok baru tidak boleh negatif")
    else
      doc_fin (CheckCurrentPeriodUnlocked now);!
      prepare;!
      validateCatalogItem (VP_CatalogItemID p);!
      validateWarehouse (VP_WarehouseID p);!
      let! done := in_tx InternalE (
        let! b := stock_to_revalue (VP_CatalogItemID p) (VP_WarehouseID p) in
        let! t := insertStockTransactionHeader user TxnKindRevaluation (VP_Note p) now in
        let! moved := post_revaluation (sx_id t) (sx_id t) b p now in
        ret (b, t, moved)) in
      let '(b, t, (movementID, delta)) := done in
      (if fltb fzero (abs delta) then revaluation_entry user movementID (VP_Note p) delta now else ret tt);!
      ret {| SR_TransactionID := sx_id t; SR_DocNo := sx_no t; SR_MovementIDs := [movementID]; SR_QtyAfter := OnHand b;
             SR_TotalCost := round4 (abs delta); SR_Shortfall := fzero |}).

(** ** Editing: the movements are purged, and posted again *)
Definition repostAdjustmentOnTx (txnID : string) (p : AdjustmentParams) (now : Z) : docs (string * MovementResult) :=
  match adjustmentPlan (AP_Qty p) with
  | None => throw (BadRequest "qty penyesuaian tidak boleh nol")
  | Some plan =>
      match parseDatePtr (AP_ExpiryDate p) with
      | Some e => throw e
      | None =>
          validateCatalogItem (AP_CatalogItemID p);!
          validateWarehouse (AP_WarehouseID p);!
          internally (ensureSku (AP_CatalogItemID p));!
          let! res := post_adjustment txnID plan p now in
          ret (plan.1.2, res)
      end
  end.
Definition repostTransferOnTx (txnID : string) (p : TransferParams) (now : Z) : docs unit :=
  match transfer_refused p with
  | Some e => throw e
  | None =>
      validate_transfer p;!
      internally (ensureSku (TP_CatalogItemID p));!
      post_transfer txnID p now;! ret tt
  end.
Fixpoint repost_entries (txnID txn : string) (i : nat) (es : list OpeningEntry) (now : Z) : docs unit :=
  match es with
  | [] => ret tt
  | e :: rest =>
      match entry_refused i e with
      | Some err => throw err
      | None =>
          wrapping (in_line i) (validateCatalogItem (OE_CatalogItemID e));!
          wrapping (in_line i) (validateWarehouse (OE_WarehouseID e));!
          match parseDatePtr (OE_ExpiryDate e) with
          | Some err => throw (in_line i err)
          | None =>
              internally (ensureSku (OE_CatalogItemID e));!
              let! cc := costingContext_for (OE_CatalogItemID e) in
              post_opening_line txnID txn i cc e now;!
              repost_entries txnID txn (S i) rest now
          end
      end
  end.
Definition repostOpeningOnTx (txnID txn : string) (es : list OpeningEntry) (now : Z) : docs unit := repost_entries txnID txn 0 es now.
Definition repostRevaluationOnTx (txnID txn : string) (p : RevaluationParams) (now : Z) : docs (string * f64) :=
  if fltb (VP_NewUnitCost p) fzero then throw (BadRequest "harga pokok baru tidak boleh negatif")
  else
    validateCatalogItem (VP_CatalogItemID p);!
    validateWarehouse (VP_WarehouseID p);!
    let! b := stock_to_revalue (VP_CatalogItemID p) (VP_WarehouseID p) in
    post_revaluation txnID txn b p now.
Definition recordAdjustmentFinance (user : AuthUser) (r : option (string * MovementResult)) (note : string) (now : Z) : docs unit :=
  match r with
  | None => ret tt
  | Some (dir, res) =>
      if negb (String.eqb dir dirOut) || fleb (MR_TotalCost res) fzero then ret tt else writeoff_entry user res note now
  end.
Definition recordRevaluationFinance (user : AuthUser) (movementID note : string) (delta : f64) (now : Z) : docs unit :=
  if fleb (abs delta) fzero then ret tt else revaluation_entry user movementID note delta now.

(** a number left out, or null, keeps the document's *)
Definition given_or (x : f64) (keep : bool) (old : option f64) : f64 := if keep then default x old else x.
Definition adjustment_edit (t : StockTransaction) (p : UpdateStockTransactionParams) : AdjustmentParams :=
  {| AP_CatalogItemID := coalesceStr (UP_CatalogItemID p) (ST_CatalogItemID t);
     AP_WarehouseID := coalesceStr (UP_WarehouseID p) (ST_WarehouseID t);
     AP_Qty := given_or (UP_Qty p) (feqb (UP_Qty p) fzero) (ST_SignedQty t);
     AP_UnitCost := given_or (UP_UnitCost p) (feqb (UP_UnitCost p) fzero) (ST_UnitCost t);
     AP_BatchNo := UP_BatchNo p; AP_ExpiryDate := UP_ExpiryDate p; AP_Note := coalesceStr (UP_Note p) (ST_Note t) |}.
Definition transfer_edit (t : StockTransaction) (p : UpdateStockTransactionParams) : TransferParams :=
  {| TP_CatalogItemID := coalesceStr (UP_CatalogItemID p) (ST_CatalogItemID t);
     TP_FromWarehouseID := coalesceStr (UP_FromWarehouseID p) (ST_FromWarehouseID t);
     TP_ToWarehouseID := coalesceStr (UP_ToWarehouseID p) (ST_ToWarehouseID t);
     TP_Qty := given_or (UP_TransferQty p) (fleb (UP_TransferQty p) fzero) (ST_SignedQty t);
     TP_Note := coalesceStr (UP_Note p) (ST_Note t) |}.
Definition revaluation_edit (t : StockTransaction) (p : UpdateStockTransactionParams) : RevaluationParams :=
  {| VP_CatalogItemID := coalesceStr (UP_CatalogItemID p) (ST_CatalogItemID t);
     VP_WarehouseID := coalesceStr (UP_WarehouseID p) (ST_WarehouseID t);
     VP_NewUnitCost := given_or (UP_NewUnitCost p) (feqb (UP_NewUnitCost p) fzero) (ST_NewUnitCost t);
     VP_Note := coalesceStr (UP_Note p) (ST_Note t) |}.
(** what is left to book after the commit: an adjustment's result, a revaluation's movement and change *)
Definition repost (t : StockTransaction) (id : string) (p : UpdateStockTransactionParams) (now : Z) :
    docs (option (string * MovementResult) * (string * f64)) :=
  let nothing := (None, ("", fzero)) in
  let kind := ST_Kind t in
  if String.eqb kind TxnKindAdjustment then let! r := repostAdjustmentOnTx id (adjustment_edit t p) now in ret (Some r, ("", fzero))
  else if String.eqb kind TxnKindTransfer then repostTransferOnTx id (transfer_edit t p) now;! ret nothing
  else if String.eqb kind TxnKindOpeningBalance then
    if Nat.eqb (length (UP_Entries p)) 0 then throw (BadRequest "entries wajib untuk edit saldo awal")
    else repostOpeningOnTx id (ST_ID t) (UP_Entries p) now;! ret nothing
  else if String.eqb kind TxnKindRevaluation then let! r := repostRevaluationOnTx id (ST_ID t) (revaluation_edit t p) now in ret (None, r)
  else throw (BadRequest "jenis tidak didukung").
Definition delete_txn_lines (u : string) (d : docs_db) : docs_db :=
  set_stock_lines (List.filter (fun l => negb (String.eqb (sl_txn l) u)) (dc_txn_lines d)) d.
Definition UpdateStockTransaction (u : option AuthUser) (id : string) (p : UpdateStockTransactionParams) (now : Z) : docs StockTransaction :=
  as_owner u (fun user =>
    prepare;!
    let! existing := loadStockTransaction id in
    doc_fin (CheckPeriodUnlockedForDate (ST_TransactionDate existing) now);!
    let! movs := collectMovementsByRef (txnKindRefType (ST_Kind existing)) id in
    doc_fin (RemoveInventoryEntries (movementFinanceRefs "" movs));!
    let! booked := in_tx InternalE (
      purgeByRef (txnKindRefType (ST_Kind existing)) id now;!
      internally (exec_at (uuid_in id) delete_txn_lines);!
      repost existing id p now) in
    recordAdjustmentFinance user booked.1 (AP_Note (adjustment_edit existing p)) now;!
    recordRevaluationFinance user booked.2.1 (VP_Note (revaluation_edit existing p)) booked.2.2 now;!
    loadStockTransaction id).

(** ** Deleting *)
(** lines go with their transaction *)
Definition delete_txn (u : string) (d : docs_db) : docs_db :=
  delete_txn_lines u (set_stock_txns (List.filter (fun t => negb (String.eqb (sx_id t) u)) (dc_txns d)) d).
Definition DeleteStockTransaction (u : option AuthUser) (id : string) (now : Z) : docs unit :=
  as_owner u (fun _ =>
    prepare;!
    let! txn := loadStockTransaction id in
    doc_fin (CheckPeriodUnlockedForDate (ST_TransactionDate txn) now);!
    let! movs := collectMovementsByRef (txnKindRefType (ST_Kind txn)) id in
    doc_fin (RemoveInventoryEntries (movementFinanceRefs "" movs));!
    in_tx_errs InternalE (fun e => e) (
      purgeByRef (txnKindRefType (ST_Kind txn)) id now;!
      internally (exec_at (uuid_in id) delete_txn))).
(** how many were deleted, and the errors of the others *)
Fixpoint delete_each (u : option AuthUser) (ids : list string) (now : Z) : docs (nat * list string) :=
  match ids with
  | [] => ret (0%nat, [])
  | id :: rest =>
      let! r := attempt (DeleteStockTransaction u id now) in
      let! others := delete_each u rest now in
      ret match r with
          | Ok _ => (S others.1, others.2)
          | Err e => (others.1, (id ++ ": " ++ error_text e) :: others.2)
          end
  end.
Definition BatchDeleteStockTransactions (u : option AuthUser) (ids : list string) (now : Z) : docs (nat * list string) :=
  as_owner u (fun _ =>
    if Nat.eqb (length ids) 0 then throw (BadRequest "ids wajib diisi")
    else if Nat.ltb 100 (length ids) then throw (BadRequest "maksimal 100 transaksi per batch")
    else delete_each u ids now).
End stockops.
