(* ===== verification/StockView.v ===== *)
(** * Stock transactions and the movements they posted

    [stocked]: the movements of every stock transaction are what its header and
    lines say ([booked]), and a transaction that is gone has none.  [working]: the
    same while one transaction is being written, with the lines and movements it
    has so far; how each statement of StockOps.v's bodies changes it. *)
From S2P Require Import Prelude GoStrings AdminSession PgTx Triples Zoom Float64 Billing FinTables FinPosting FinLedger FinBooks FinRows Costing StockLedger Shop.
From S2P Require Import Docs DocSteps Purchasing StockOps DocView Receipts.

Open Scope string_scope.
Open Scope Z_scope.

Definition kinds : list string := [TxnKindAdjustment; TxnKindTransfer; TxnKindOpeningBalance; TxnKindRevaluation].
Definition of_txn (u : string) (l : stock_line_row) : bool := String.eqb (sl_txn l) u.
Definition of_kinds (k : core) : bool := match k_ref_type k with Some t => in_list t kinds | None => false end.
(** a transaction's movements: id, item, warehouse, type, direction, quantity *)
Definition moved (kind u : string) (v : view) := map core_line (List.filter (has_ref kind u) (v_moves v)).
Definition lines_in (u : string) (v : view) : list stock_line_row := List.filter (of_txn u) (v_txn_lines v).

Lemma moved_app kind u k v : moved kind u (v_set_moves (v_moves v ++ [k]) v) = (moved kind u v ++ if has_ref kind u k then [core_line k] else [])%list.
Proof. unfold moved. cbn. rewrite List.filter_app, map_app. f_equal. cbn. by destruct (has_ref kind u k). Qed.
Lemma has_ref_key t u k t' u' : has_ref t u k = true -> has_ref t' u' k = true -> t' = t /\ u' = u.
Proof. unfold has_ref. rewrite !andb_true_iff, !bool_decide_eq_true. intros [-> ->] [[= ->] [= ->]]. done. Qed.

Section stocked.
Context `{HI : PgInput} `{HN : Numeric}.
Definition opening_move (l : stock_line_row) := (sl_movement l, sl_item l, sl_wh l, MovementOpening, dirIn, qty4 (sl_qty l)).
(** [booked r ls ms]: what a header and its lines say was moved.  An adjustment's
    [signed_qty] and the quantity it moved come from the number asked for, as do
    a transfer's; a revaluation moves no quantity. *)
Inductive booked (r : stock_txn_row) (ls : list stock_line_row) : list (option string * string * string * string * string * f64) -> Prop :=
  | booked_adjustment x type dir q n m mv i w :
      sx_kind r = TxnKindAdjustment -> ls = [] ->
      adjustmentPlan x = Some (type, dir, q) -> numeric_in 4 x = Some n -> numeric_in 4 q = Some m ->
      sx_qty r = Some n -> sx_item r = Some i -> sx_wh r = Some w ->
      booked r ls [(Some mv, i, w, type, dir, qty4 m)]
  | booked_transfer x n m out into i from to :
      sx_kind r = TxnKindTransfer -> ls = [] ->
      fleb x epsilon = false -> numeric_in 4 x = Some n -> numeric_in 4 (round4 x) = Some m ->
      sx_qty r = Some n -> sx_item r = Some i -> sx_from r = Some from -> sx_to r = Some to ->
      booked r ls [(Some out, i, from, MovementTransferOut, dirOut, qty4 m); (Some into, i, to, MovementTransferIn, dirIn, qty4 m)]
  | booked_opening :
      sx_kind r = TxnKindOpeningBalance -> ls <> [] ->
      booked r ls (map opening_move ls)
  | booked_revaluation mv i w dir nothing c :
      sx_kind r = TxnKindRevaluation -> ls = [] -> (dir = dirIn \/ dir = dirOut) -> column fzero = Some nothing ->
      sx_item r = Some i -> sx_wh r = Some w -> sx_new_cost r = Some c ->
      booked r ls [(Some mv, i, w, MovementRevaluation, dir, nothing)].
Definition stock_taken (v : view) : list string := map sx_id (v_txns v) ++ map sl_id (v_txn_lines v).
Definition unused_ids (v : view) : Prop := NoDup (v_ids v) /\ Forall (fun i => uuid_in i = Some i /\ i ∉ stock_taken v) (v_ids v).
#[global] Arguments unused_ids : simpl never.
(** [skip]: a transaction that is being written *)
Record stocked (skip : option string) (v : view) : Prop := {
  s_booked r : r ∈ v_txns v -> Some (sx_id r) <> skip -> booked r (lines_in (sx_id r) v) (moved (sx_kind r) (sx_id r) v);
  s_gone kind u : in_list kind kinds = true -> (forall r, r ∈ v_txns v -> sx_id r = u -> sx_kind r <> kind) -> moved kind u v = [];
  s_owner l : l ∈ v_txn_lines v -> sl_txn l ∈ map sx_id (v_txns v);
  s_rows : NoDup (map sx_id (v_txns v)) /\ NoDup (map sl_id (v_txn_lines v));
  s_fresh : unused_ids v
}.
Lemma stocked_skip v u : stocked None v -> stocked (Some u) v.
Proof. intros []. split; auto. Qed.
Lemma booked_kind r ls ms : booked r ls ms -> in_list (sx_kind r) kinds = true.
Proof. intros []; match goal with H : sx_kind r = _ |- _ => by rewrite H end. Qed.
Lemma stock_fresh_head skip v i rest :
  stocked skip v -> v_ids v = i :: rest -> uuid_in i = Some i /\ i ∉ map sx_id (v_txns v) /\ i ∉ map sl_id (v_txn_lines v) /\ i ∉ rest.
Proof.
  intros Hs E. destruct (s_fresh _ _ Hs) as [Hn Hf]. rewrite E in *. apply NoDup_cons in Hn as [? _]. apply Forall_cons in Hf as [[? Hi] _].
  unfold stock_taken in Hi. rewrite elem_of_app in Hi. tauto.
Qed.
(** no row has an id still to be drawn, also after one was *)
Lemma stock_fresh_after v v' i rest :
  unused_ids v -> v_ids v = i :: rest -> v_ids v' = rest ->
  (forall x, x ∈ stock_taken v' -> x ∈ stock_taken v \/ x = i) ->
  unused_ids v'.
Proof.
  intros [Hn Hf] E E' Hsub. unfold unused_ids. rewrite E'. rewrite E in Hn, Hf. apply NoDup_cons in Hn as [Hi Hn]. apply Forall_cons in Hf as [_ Hf]. split; [done|].
  rewrite Forall_forall in *. intros x Hx. destruct (Hf x Hx). split; [done|]. intros [?| ->]%Hsub; done.
Qed.
Lemma stock_fresh_same v v' :
  unused_ids v -> v_ids v' = v_ids v ->
  (forall x, x ∈ stock_taken v' -> x ∈ stock_taken v) -> unused_ids v'.
Proof. intros [Hn Hf] E' Hsub. unfold unused_ids. rewrite E'. split; [done|]. eapply Forall_impl; [exact Hf|]. cbn. intros i [? ?]. split; auto. Qed.

(** ** One transaction being written *)
Record working (r : stock_txn_row) (ls : list stock_line_row) (ms : list (option string * string * string * string * string * f64)) (v : view) : Prop := {
  wk_row : r ∈ v_txns v;
  wk_kind : in_list (sx_kind r) kinds = true;
  wk_lines : lines_in (sx_id r) v = ls;
  wk_moved : moved (sx_kind r) (sx_id r) v = ms;
  wk_others : stocked (Some (sx_id r)) v
}.
Lemma working_row v r : stocked None v -> r ∈ v_txns v -> working r (lines_in (sx_id r) v) (moved (sx_kind r) (sx_id r) v) v.
Proof. intros Hs Hr. split; try done; [|by apply stocked_skip]. eapply booked_kind, (s_booked _ _ Hs); done. Qed.
Lemma row_unique skip v r r' : stocked skip v -> r ∈ v_txns v -> r' ∈ v_txns v -> sx_id r = sx_id r' -> r = r'.
Proof. intros Hs. apply key_unique, Hs. Qed.
Lemma filter_app_other {A} (p : A -> bool) l x : p x = false -> List.filter p (l ++ [x]) = List.filter p l.
Proof. intros E. rewrite List.filter_app. cbn. by rewrite E, app_nil_r. Qed.
(** a new header *)
Lemma working_new v r rest :
  stocked None v -> v_ids v = sx_id r :: rest -> in_list (sx_kind r) kinds = true ->
  working r [] [] (v_set_ids rest (v_set_txns (v_txns v ++ [r]) v)).
Proof.
  intros Hs Hids Hk. destruct (stock_fresh_head _ _ _ _ Hs Hids) as (_ & Hnew & _).
  assert (lines_in (sx_id r) v = []) as Hl.
  { apply filter_none. intros l Hl. apply String.eqb_neq. intros E. apply Hnew. rewrite <- E. by apply (s_owner _ _ Hs). }
  assert (forall k, in_list k kinds = true -> moved k (sx_id r) v = []) as Hm.
  { intros k Hk'. apply (s_gone _ _ Hs); [done|]. intros r' Hr' E. destruct Hnew. rewrite <- E. apply elem_map. eauto. }
  split; [cbn; apply elem_of_app; right; by left|done|done|by apply Hm|]. split; cbn.
  - intros r' [Hr'| ->%list_elem_of_singleton]%elem_of_app Hne; [|done]. by apply (s_booked _ _ Hs).
  - intros k u Hk' Hu. apply (s_gone _ _ Hs); [done|]. intros r' Hr'. apply Hu, elem_of_app. by left.
  - intros l Hl'. rewrite map_app, elem_of_app. left. by apply (s_owner _ _ Hs).
  - destruct (s_rows _ _ Hs). split; [|done]. rewrite map_app. apply NoDup_app. split_and!; [done| |apply NoDup_singleton].
    by intros x Hx ->%list_elem_of_singleton.
  - eapply stock_fresh_after; [apply Hs|exact Hids|done|]. intros x. unfold stock_taken. cbn. rewrite map_app, !elem_of_app. cbn. rewrite list_elem_of_singleton. tauto.
Qed.
(** the header's columns *)
Lemma working_edited r r' ls ms v :
  working r ls ms v -> sx_id r' = sx_id r -> sx_kind r' = sx_kind r ->
  working r' ls ms (v_set_txns (map (fun t => if String.eqb (sx_id t) (sx_id r) then r' else t) (v_txns v)) v).
Proof.
  intros [Hr Hk Hl Hm Hs] Ei Ek. set (f := fun t => _).
  assert (forall t, t ∈ v_txns v -> sx_id (f t) = sx_id t /\ sx_kind (f t) = sx_kind t) as Hf.
  { intros t Ht. unfold f. destruct (String.eqb_spec (sx_id t) (sx_id r)) as [E|]; [|done]. rewrite Ei, Ek, E. split; [done|]. by rewrite (row_unique _ _ _ _ Hs Ht Hr E). }
  assert (map sx_id (map f (v_txns v)) = map sx_id (v_txns v)) as Hids.
  { rewrite map_map. apply map_ext_in. intros t Ht%list_elem_of_In. by apply Hf. }
  split; rewrite ?Ei, ?Ek; try done.
  - cbn. apply elem_map. exists r. split; [|done]. unfold f. by rewrite String.eqb_refl.
  - split; cbn; rewrite ?Hids.
    + intros t (t0 & -> & Ht)%elem_map Hne. destruct (Hf t0 Ht) as [E1 E2]. rewrite E1 in Hne. pose proof (s_booked _ _ Hs t0 Ht Hne) as Hb.
      unfold f. destruct (String.eqb_spec (sx_id t0) (sx_id r)) as [E|]; [by rewrite E in Hne|exact Hb].
    + intros k u Hk' Hu. apply (s_gone _ _ Hs); [done|]. intros t Ht E. destruct (Hf t Ht) as [E1 E2]. rewrite <- E2. apply Hu; [apply elem_map; eauto|by rewrite E1].
    + apply (s_owner _ _ Hs).
    + apply (s_rows _ _ Hs).
    + eapply stock_fresh_same; [apply Hs|done|]. intros x. unfold stock_taken. cbn. by rewrite Hids.
Qed.
(** a movement *)
Lemma working_moved r ls ms v k :
  working r ls ms v -> has_ref (sx_kind r) (sx_id r) k = true ->
  working r ls (ms ++ [core_line k]) (v_set_moves (v_moves v ++ [k]) v).
Proof.
  intros [Hr Hk Hl Hm Hs] Href. split; try done; [by rewrite moved_app, Href, Hm|].
  assert (forall kind u, (kind, u) <> (sx_kind r, sx_id r) -> moved kind u (v_set_moves (v_moves v ++ [k]) v) = moved kind u v) as Hother.
  { intros kind u Hne. rewrite moved_app. destruct (has_ref kind u k) eqn:E; [|apply app_nil_r]. destruct (has_ref_key _ _ _ _ _ Href E). congruence. }
  split; try apply Hs.
  - intros t Ht Hne. rewrite Hother by congruence. by apply (s_booked _ _ Hs).
  - intros kind u Hk' Hu. rewrite Hother; [by apply (s_gone _ _ Hs)|]. intros [= -> ->]. by eapply Hu.
Qed.
(** a line *)
Lemma working_line r ls ms v l rest :
  working r ls ms v -> v_ids v = sl_id l :: rest -> sl_txn l = sx_id r ->
  working r (ls ++ [l]) ms (v_set_ids rest (v_set_txn_lines (v_txn_lines v ++ [l]) v)).
Proof.
  intros [Hr Hk Hl Hm Hs] Hids Hu. destruct (stock_fresh_head _ _ _ _ Hs Hids) as (_ & _ & Hnew & _). split; try done.
  - unfold lines_in. cbn. rewrite List.filter_app. cbn. unfold of_txn at 2. rewrite Hu, String.eqb_refl. by rewrite <- Hl.
  - split; cbn.
    + intros t Ht Hne. pose proof (s_booked _ _ Hs t Ht Hne) as Hb. unfold lines_in. cbn. rewrite filter_app_other; [exact Hb|].
      apply String.eqb_neq. congruence.
    + apply (s_gone _ _ Hs).
    + intros x [Hx| ->%list_elem_of_singleton]%elem_of_app; [by apply (s_owner _ _ Hs)|]. rewrite Hu. apply elem_map. eauto.
    + destruct (s_rows _ _ Hs). split; [done|]. rewrite map_app. apply NoDup_app. split_and!; [done| |apply NoDup_singleton].
      by intros x Hx ->%list_elem_of_singleton.
    + eapply stock_fresh_after; [apply Hs|exact Hids|done|]. intros x. unfold stock_taken. cbn. rewrite map_app, !elem_of_app. cbn. rewrite list_elem_of_singleton. tauto.
Qed.
(** the last line changed, but not its id and owner *)
Lemma working_linked r ls l l' ms v rows :
  working r (ls ++ [l]) ms v -> v_txn_lines v = (rows ++ [l])%list -> sl_id l' = sl_id l -> sl_txn l' = sl_txn l -> sl_txn l = sx_id r ->
  working r (ls ++ [l']) ms (v_set_txn_lines (rows ++ [l']) v).
Proof.
  intros [Hr Hk Hl Hm Hs] Hrows Ei Et Hu.
  assert (forall u, u <> sx_id r -> lines_in u (v_set_txn_lines (rows ++ [l']) v) = lines_in u v) as Hother.
  { intros u Hne. unfold lines_in. cbn. rewrite Hrows, !filter_app_other; [done|apply String.eqb_neq; congruence..]. }
  split; try done.
  - unfold lines_in in *. cbn. rewrite Hrows in Hl. rewrite List.filter_app in *. cbn in *. unfold of_txn in * |- *. rewrite Et, Hu, String.eqb_refl in *.
    by apply app_inj_tail in Hl as [-> _].
  - split; cbn.
    + intros t Ht Hne. pose proof (s_booked _ _ Hs t Ht Hne) as Hb. rewrite <- (Hother (sx_id t)) in Hb by congruence. exact Hb.
    + apply (s_gone _ _ Hs).
    + intros x [Hx| ->%list_elem_of_singleton]%elem_of_app; [|rewrite Et, Hu; apply elem_map; eauto].
      apply (s_owner _ _ Hs). rewrite Hrows. apply elem_of_app. by left.
    + destruct (s_rows _ _ Hs) as [? Hn]. split; [done|]. rewrite Hrows in Hn. rewrite map_app in *. cbn in *. by rewrite Ei.
    + eapply stock_fresh_same; [apply Hs|done|]. intros x. unfold stock_taken. cbn. rewrite Hrows, !map_app. cbn. by rewrite Ei.
Qed.
(** its movements purged *)
Lemma working_purged r ls ms v :
  working r ls ms v -> working r ls [] (v_set_moves (List.filter (fun k => negb (has_ref (sx_kind r) (sx_id r) k)) (v_moves v)) v).
Proof.
  intros [Hr Hk Hl Hm Hs]. set (v' := v_set_moves _ v).
  assert (forall kind u, (kind, u) <> (sx_kind r, sx_id r) -> moved kind u v' = moved kind u v) as Hother.
  { intros kind u Hne. unfold moved, v'. cbn. rewrite filter_weaker; [done|]. intros k E. apply negb_true_iff, not_true_iff_false. intros E'.
    destruct (has_ref_key _ _ _ _ _ E' E). congruence. }
  split; try done.
  - unfold moved, v'. cbn. by rewrite (filter_none_and (has_ref _ _)).
  - split; try apply Hs.
    + intros t Ht Hne. rewrite Hother by congruence. by apply (s_booked _ _ Hs).
    + intros kind u Hk' Hu. rewrite Hother; [by apply (s_gone _ _ Hs)|]. intros [= -> ->]. by eapply Hu.
Qed.
Lemma lines_in_cleared u u' v : u <> u' ->
  lines_in u (v_set_txn_lines (List.filter (fun l => negb (of_txn u' l)) (v_txn_lines v)) v) = lines_in u v.
Proof.
  intros Hne. unfold lines_in. cbn. apply filter_weaker. intros l E. apply String.eqb_eq in E. apply negb_true_iff, String.eqb_neq. congruence.
Qed.
(** its lines deleted *)
Lemma working_cleared r ls ms v :
  working r ls ms v -> working r [] ms (v_set_txn_lines (List.filter (fun l => negb (of_txn (sx_id r) l)) (v_txn_lines v)) v).
Proof.
  intros [Hr Hk Hl Hm Hs]. split; try done.
  - unfold lines_in. cbn. by rewrite (filter_none_and (of_txn _)).
  - split; cbn.
    + intros t Ht Hne. pose proof (s_booked _ _ Hs t Ht Hne) as Hb. rewrite <- (lines_in_cleared (sx_id t) (sx_id r)) in Hb by congruence. exact Hb.
    + apply (s_gone _ _ Hs).
    + intros l [Hl' _]%filter_elem. by apply (s_owner _ _ Hs).
    + destruct (s_rows _ _ Hs). split; [done|]. by apply NoDup_map_filter.
    + eapply stock_fresh_same; [apply Hs|done|]. intros x. unfold stock_taken. cbn. rewrite !elem_of_app. intros [?|Hx]; [by left|right].
      apply elem_map in Hx as (l & -> & [? _]%filter_elem). apply elem_map. eauto.
Qed.
(** finished *)
Lemma working_done r ls ms v : working r ls ms v -> booked r ls ms -> stocked None v.
Proof.
  intros [Hr Hk Hl Hm Hs] Hb. split; try apply Hs. intros t Ht _. destruct (decide (sx_id t = sx_id r)) as [E|Hne].
  - rewrite (row_unique _ _ _ _ Hs Ht Hr E), Hl, Hm. exact Hb.
  - apply (s_booked _ _ Hs); [done|congruence].
Qed.
(** gone, with its lines *)
Lemma working_deleted r ls v :
  working r ls [] v ->
  stocked None (v_set_txn_lines (List.filter (fun l => negb (of_txn (sx_id r) l)) (v_txn_lines v))
    (v_set_txns (List.filter (fun t => negb (String.eqb (sx_id t) (sx_id r))) (v_txns v)) v)).
Proof.
  intros [Hr Hk Hl Hm Hs].
  assert (forall t, t ∈ List.filter (fun t => negb (String.eqb (sx_id t) (sx_id r))) (v_txns v) <-> t ∈ v_txns v /\ sx_id t <> sx_id r) as Hin.
  { intros t. by rewrite filter_elem, negb_true_iff, String.eqb_neq. }
  split; cbn.
  - intros t [Ht Hne]%Hin _. pose proof (s_booked _ _ Hs t Ht ltac:(congruence)) as Hb.
    change (booked t (lines_in (sx_id t) (v_set_txn_lines (List.filter (fun l => negb (of_txn (sx_id r) l)) (v_txn_lines v)) v)) (moved (sx_kind t) (sx_id t) v)).
    by rewrite lines_in_cleared.
  - intros kind u Hk' Hu. destruct (decide ((kind, u) = (sx_kind r, sx_id r))) as [[= -> ->]|Hne]; [exact Hm|].
    apply (s_gone _ _ Hs); [done|]. intros t Ht E Ek. destruct (decide (u = sx_id r)) as [->|Hu'].
    + apply Hne. f_equal. by rewrite <- Ek, (row_unique _ _ _ _ Hs Ht Hr E).
    + by eapply Hu; [apply Hin; split; [exact Ht|congruence]|..].
  - intros l [Hl' Hne]%filter_elem. apply negb_true_iff, String.eqb_neq in Hne.
    destruct (proj1 (elem_map _ _ _) (s_owner _ _ Hs l Hl')) as (t & E & Ht). apply elem_map. exists t. split; [done|]. apply Hin. split; [done|congruence].
  - destruct (s_rows _ _ Hs). split; by apply NoDup_map_filter.
  - eapply stock_fresh_same; [apply Hs|done|]. intros x. unfold stock_taken. cbn. rewrite !elem_of_app. intros [Hx|Hx]; [left|right].
    + apply elem_map in Hx as (t & -> & [? _]%Hin). apply elem_map. eauto.
    + apply elem_map in Hx as (l & -> & [? _]%filter_elem). apply elem_map. eauto.
Qed.
End stocked.
