(* ===== verification/StockCalls.v ===== *)
(** * Every operation on stock transactions keeps their movements *)
From S2P Require Import Prelude GoStrings AdminSession PgTx Triples Zoom Float64 Billing FinTables FinPosting FinLedger FinBooks Costing StockLedger Shop.
From S2P Require Import Docs DocSteps Purchasing StockOps DocView Receipts ReceiptSteps StockView.

Open Scope string_scope.
Open Scope Z_scope.

Lemma mapM_map_in {A B} (f : A -> option B) (g : A -> B) l l' :
  mapM f l = Some l' -> (forall x y, x ∈ l -> f x = Some y -> y = g x) -> l' = map g l.
Proof.
  intros Hm. apply mapM_Some_1 in Hm. induction Hm as [|x y l l' Hx _ IH]; intros Hf; [done|]. cbn.
  rewrite (Hf x y (list_elem_of_here _ _) Hx), IH; [done|]. intros a b Ha. apply Hf. by right.
Qed.
Lemma mapM_elem {A B} (f : A -> option B) l l' x : mapM f l = Some l' -> x ∈ l -> exists y, f x = Some y.
Proof. intros Hm Hx. apply mapM_Some_1 in Hm. induction Hm as [|a b l l' Ha _ IH]; [by apply elem_of_nil in Hx|]. apply elem_of_cons in Hx as [->|?]; eauto. Qed.
Lemma within_view {A} c (P : view -> Prop) (m : docs A) Q : (forall v, P v -> within c (at_view v) m Q) -> within c (fun d => P (view_of d)) m Q.
Proof. intros Hm. apply within_from. intros d Hd. eapply within_conseq; [exact (Hm _ Hd)|by intros ? <-|done]. Qed.
Lemma still_view {A} c (P : view -> Prop) (m : docs A) : still m -> within c (fun d => P (view_of d)) m (fun _ d => P (view_of d)).
Proof. intros Hm. apply within_view. intros v Hv. eapply within_post; [apply Hm|]. by intros ? d <-. Qed.
Lemma still_step {A B} c (P : view -> Prop) (m : docs A) (k : A -> docs B) Q :
  still m -> (forall a, within c (fun d => P (view_of d)) (k a) Q) -> within c (fun d => P (view_of d)) (bind m k) Q.
Proof. intros Hm Hk. eapply within_bind; [by apply still_view|exact Hk]. Qed.
(** go on from the view [v] of tables of which something is known *)
Tactic Notation "from_state" ident(v) simple_intropattern(pat) :=
  apply within_from; let d := fresh "d" in let H := fresh "H" in intros d H;
  eapply (within_conseq _ (at_view (view_of d))); [revert H; cbv beta; generalize (view_of d); clear d; intros v pat|by intros ? <-|intros ? ? HQ; exact HQ].

Section steps.
Context `{HI : PgInput} `{HT : TimeZones} `{HN : Numeric} `{HO : OrderInput} `{HS : LayerScale} `{HD : !DocLaws} `{HL : !PgInputLaws}.
Abbreviation work r ls ms := (fun d => working r ls ms (view_of d)).

Lemma still_ret {A} (a : A) : still (ret a).
Proof. intros c v. by apply within_ret. Qed.
Lemma still_throw {A} e : still (throw (A:=A) e).
Proof. intros c v. apply within_throw. Qed.
Lemma still_catalog item : still (validateCatalogItem item).
Proof.
  unfold validateCatalogItem. destruct (String.eqb _ _); [apply still_throw|]. apply still_bind; [apply still_wrapping, still_query|intros []]; [apply still_ret|apply still_throw].
Qed.
Lemma still_warehouse wh : still (validateWarehouse wh).
Proof.
  unfold validateWarehouse. destruct (String.eqb _ _); [apply still_throw|]. apply still_bind; [apply still_wrapping, still_query|intros []]; [apply still_ret|apply still_throw].
Qed.
Lemma still_ensure item : still (internally (ensureSku item)).
Proof. apply still_wrapping, still_sku. Qed.

(** ** Statements *)
Lemma within_header c v user kind note now :
  stocked None v -> in_list kind kinds = true ->
  within c (at_view v) (insertStockTransactionHeader user kind note now) (fun r d => working r [] [] (view_of d) /\
    sx_kind r = kind /\ uuid_in (sx_id r) = Some (sx_id r)).
Proof.
  intros Hv Hk. unfold insertStockTransactionHeader. destruct (docTypeForKind kind) as [[t p]|e]; [|apply within_throw].
  eapply still_then; [apply still_wrapping, still_number|intros no].
  eapply within_post; [apply within_wrapping, (within_insert c v _ _ (fun r v => v_set_txns (v_txns v ++ [r]) v)); done|].
  intros r d (i & rest & d0 & Hids & _ & Hrow & Hd).
  assert (sx_id r = i /\ sx_kind r = kind) as [<- <-].
  { unfold header_of in Hrow. repeat (let x := fresh in let E := fresh in apply bind_Some in Hrow as (x & E & Hrow)). destruct (existsb _ _); [done|]. by injection Hrow as <-. }
  unfold at_view in Hd. rewrite Hd. split_and!; [by apply working_new|done|]. by destruct (stock_fresh_head _ _ _ _ Hv Hids).
Qed.
Lemma within_update_header c r ls ms txnID edit :
  uuid_in txnID = Some (sx_id r) -> (forall t t', edit t = Some t' -> sx_id t' = sx_id t /\ sx_kind t' = sx_kind t) ->
  within c (work r ls ms) (update_header txnID edit) (fun _ d => exists r', edit r = Some r' /\
    sx_id r' = sx_id r /\ sx_kind r' = sx_kind r /\ working r' ls ms (view_of d)).
Proof.
  intros Hu Hedit. apply within_view. intros v Hv.
  eapply within_post; [apply within_wrapping, (within_replace c v _ sx_id edit dc_txns set_stock_txns v_txns v_set_txns); done|].
  intros _ d (u & l & E & Hl & Hd). rewrite Hu in E. injection E as <-.
  destruct (mapM_elem _ _ _ r Hl (wk_row _ _ _ _ Hv)) as [r' Hr']. rewrite String.eqb_refl in Hr'. destruct (Hedit _ _ Hr'). exists r'. split_and!; [done..|].
  unfold at_view in Hd. rewrite Hd.
  rewrite (mapM_map_in _ (fun t => if String.eqb (sx_id t) (sx_id r) then r' else t) _ _ Hl); [by apply working_edited|].
  intros x y Hx. destruct (String.eqb_spec (sx_id x) (sx_id r)) as [E|]; [|by intros [= <-]].
  rewrite (row_unique _ _ _ _ (wk_others _ _ _ _ Hv) Hx (wk_row _ _ _ _ Hv) E), Hr'. by intros [= <-].
Qed.
Lemma within_document_movement c r ls ms v inp now :
  working r ls ms v -> uuid_in (MI_RefID inp) = Some (sx_id r) -> stockNull (MI_RefType inp) = Some (sx_kind r) ->
  within c (at_view v) (postMovement inp now) (fun res d => exists i w m,
    uuid_in (MI_CatalogItemID inp) = Some i /\ uuid_in (MI_WarehouseID inp) = Some w /\ numeric_in 4 (MI_Qty inp) = Some m /\
    working r ls (ms ++ [(Some (MR_MovementID res), i, w, MI_Type inp, MI_Direction inp, qty4 m)]) (view_of d)).
Proof.
  intros Hv Hu Ht. eapply within_post; [by apply within_movement|].
  intros res d (i & w & m & k & Hi & Hw & _ & Hm & Hk & Hkt & Hkr & Hd). exists i, w, m. split_and!; [done..|].
  unfold at_view in Hd. rewrite Hd, <- Hk. apply working_moved; [done|]. unfold has_ref. by rewrite Hkt, Hkr, !bool_decide_true.
Qed.

(** ** Adjustments and transfers *)
Lemma within_post_adjustment c r ms0 txnID plan p now :
  uuid_in txnID = Some (sx_id r) -> sx_kind r = TxnKindAdjustment -> adjustmentPlan (AP_Qty p) = Some plan -> ms0 = [] ->
  within c (work r [] ms0) (post_adjustment txnID plan p now) (fun _ d => stocked None (view_of d)).
Proof.
  intros Hu Hk Hp ->. unfold post_adjustment. eapply within_bind.
  { apply within_update_header; [exact Hu|]. intros t t'. unfold edit_adjustment. intros H. repeat (apply bind_Some in H as (? & ? & H)). by injection H as <-. }
  intros ?. apply within_exists. intros r'. from_state v (Hr' & Ei & Ek & Hv). rewrite <- Ei in Hu. rewrite <- Ek in Hk. clear Ei Ek.
  eapply still_then; [apply still_costing|intros cc].
  eapply within_post; [apply (within_document_movement c r' _ _ _ (adjustment_movement txnID plan cc p) now Hv Hu); by rewrite Hk|].
  cbn. intros res d (i & w & m & Hi & Hw & Hm & Hd). eapply working_done; [exact Hd|]. destruct plan as [[type dir] q]. cbn in *.
  unfold edit_adjustment in Hr'.
  repeat (let x := fresh "x" in let E := fresh "E" in apply bind_Some in Hr' as (x & E & Hr')).
  eapply booked_adjustment; [exact Hk|done|eauto..|]; injection Hr' as <-; cbn; congruence.
Qed.
Lemma within_post_transfer c r ms0 txnID p now :
  uuid_in txnID = Some (sx_id r) -> sx_kind r = TxnKindTransfer -> transfer_refused p = None -> ms0 = [] ->
  within c (work r [] ms0) (post_transfer txnID p now) (fun _ d => stocked None (view_of d)).
Proof.
  intros Hu Hk Hp ->. assert (fleb (TP_Qty p) epsilon = false) as Hq by (unfold transfer_refused in Hp; by destruct (fleb _ _)).
  unfold post_transfer. eapply within_bind.
  { apply within_update_header; [exact Hu|]. intros t t'. unfold edit_transfer. intros H. repeat (apply bind_Some in H as (? & ? & H)). by injection H as <-. }
  intros ?. apply within_exists. intros r'. from_state v (Hr' & Ei & Ek & Hv). rewrite <- Ei in Hu. rewrite <- Ek in Hk. clear Ei Ek.
  eapply still_then; [apply still_costing|intros cc].
  eapply within_bind; [apply (within_document_movement c r' _ _ _ (transfer_movement txnID _ MovementTransferOut dirOut fzero cc p) now Hv Hu); by rewrite Hk|].
  intros out. apply within_exists. intros i. apply within_exists. intros w. apply within_exists. intros m. from_state v1 (Hi & Hw & Hm & Hv1).
  eapply within_bind; [apply (within_document_movement c r' _ _ _ (transfer_movement txnID _ MovementTransferIn dirIn (MR_UnitCost out) cc p) now Hv1 Hu); by rewrite Hk|].
  intros into. apply within_ret. intros d (i' & w' & m' & Hi' & Hw' & Hm' & Hd). eapply working_done; [exact Hd|]. cbn in *.
  rewrite Hi in Hi'. injection Hi' as <-. rewrite Hm in Hm'. injection Hm' as <-. unfold edit_transfer in Hr'.
  repeat (let x := fresh "x" in let E := fresh "E" in apply bind_Some in Hr' as (x & E & Hr')).
  eapply booked_transfer; [exact Hk|done|eauto..|]; injection Hr' as <-; cbn; congruence.
Qed.

(** ** Opening balances *)
Definition opened (r : stock_txn_row) (ls : list stock_line_row) (d : docs_db) : Prop := working r ls (map opening_move ls) (view_of d).
Lemma within_opening_line c r ls txnID i cc e now :
  uuid_in txnID = Some (sx_id r) -> sx_kind r = TxnKindOpeningBalance ->
  within c (opened r ls) (post_opening_line txnID (sx_id r) i cc e now) (fun _ d => exists l, opened r (ls ++ [l]) d).
Proof.
  intros Hu Hk. apply (within_view c (fun v => working r ls (map opening_move ls) v)). intros v Hv. unfold post_opening_line.
  eapply within_bind; [apply within_wrapping, (within_insert c v _ _ (fun r v => v_set_txn_lines (v_txn_lines v ++ [r]) v)); done|].
  intros l. from_view (j & rest & d0 & Hids & _ & Hrow & Hd). clear Hd.
  unfold opening_line_of in Hrow. repeat (let x := fresh "x" in let E := fresh "E" in apply bind_Some in Hrow as (x & E & Hrow)). injection Hrow as Hrow.
  assert (sl_id l = j /\ sl_txn l = sx_id r) as [<- Ht] by (by subst l).
  pose proof (working_line r ls _ v l rest Hv Hids Ht) as Hv1. set (v1 := v_set_ids _ _) in *.
  assert (sl_id l ∉ map sl_id (v_txn_lines v)) as Hnew by apply (stock_fresh_head _ _ _ _ (wk_others _ _ _ _ Hv) Hids).
  eapply within_bind; [apply (within_movement c v1 (opening_movement txnID cc e) now TxnKindOpeningBalance (sx_id r) Hu eq_refl)|].
  intros res. from_view (i1 & w1 & m1 & k & Hi & Hw & _ & Hm & Hkc & Hkt & Hkr & Hd). clear Hd. cbn in Hi, Hw, Hm, Hkc.
  assert (has_ref (sx_kind r) (sx_id r) k = true) as Href by (unfold has_ref; by rewrite Hk, Hkt, Hkr, !bool_decide_true).
  pose proof (working_moved _ _ _ _ _ Hv1 Href) as Hv2. set (v2 := v_set_moves _ _) in *.
  eapply within_bind; [apply within_wrapping, (within_replace c v2 (Some (sl_id l)) sl_id _ dc_txn_lines set_stock_lines v_txn_lines v_set_txn_lines); done|].
  intros ?. apply within_ret. intros d9 (u & rows & [= <-] & Hrows & Hd). set (l' := with_line_movement (MR_MovementID res) l). exists l'.
  assert (rows = (v_txn_lines v ++ [l'])%list) as ->.
  { rewrite (mapM_map _ (fun x => if String.eqb (sl_id x) (sl_id l) then with_line_movement (MR_MovementID res) x else x) _ _ Hrows).
    2: { intros y z. destruct (String.eqb _ _); by intros [= <-]. }
    cbn. rewrite map_app. cbn. rewrite String.eqb_refl. f_equal. rewrite (map_ext_in _ (fun x => x)), map_id; [done|]. intros y Hy%list_elem_of_In.
    destruct (String.eqb_spec (sl_id y) (sl_id l)) as [E'|]; [|done]. destruct Hnew. rewrite <- E'. apply elem_map. eauto. }
  unfold opened, at_view in *. rewrite Hd. pose proof (working_linked r ls l l' _ v2 (v_txn_lines v) Hv2 eq_refl eq_refl eq_refl Ht) as H.
  rewrite map_app. cbn. replace (opening_move l') with (core_line k); [exact H|]. rewrite Hkc. unfold opening_move, l'. rewrite <- Hrow. cbn. congruence.
Qed.
Lemma within_entries_done c r ls : sx_kind r = TxnKindOpeningBalance -> ls <> [] ->
  within c (opened r ls) (ret tt) (fun _ d => stocked None (view_of d)).
Proof. intros Hk Hne. apply within_ret. intros d Hd. eapply working_done; [exact Hd|]. by apply booked_opening. Qed.
Lemma app_one {A} (ls : list A) x : (ls ++ [x])%list <> [].
Proof. by destruct ls. Qed.
Lemma still_opening_context item : still (opening_context_for item).
Proof.
  unfold opening_context_for. destruct (uuid_in item); [|by apply still_wrapping, still_stmt]. apply still_stock. intros c l. unfold load_context. within.
Qed.
Lemma within_create_entries c r ls i es now :
  uuid_in (sx_id r) = Some (sx_id r) -> sx_kind r = TxnKindOpeningBalance -> (ls <> [] \/ es <> []) ->
  within c (opened r ls) (create_entries (sx_id r) i es now) (fun _ d => stocked None (view_of d)).
Proof.
  intros Hu Hk. revert ls i. induction es as [|e rest IH]; intros ls i Hne; cbn [create_entries].
  - eapply within_conseq; [apply (within_ret c (fun d => stocked None (view_of d)) ([] : list string) (fun _ d => stocked None (view_of d)))|..]; [done| |done].
    intros d Hd. eapply working_done; [exact Hd|]. apply booked_opening; naive_solver.
  - destruct (entry_refused i e); [apply within_throw|]. destruct (parseDatePtr _); [apply within_throw|].
    eapply (still_step c (working r ls (map opening_move ls))); [apply still_ensure|intros _].
    eapply (still_step c (working r ls (map opening_move ls))); [apply still_opening_context|intros cc].
    eapply within_bind; [by apply within_opening_line|intros id]. apply within_exists. intros l.
    eapply within_bind; [apply IH; left; apply app_one|intros ids]. by apply within_ret.
Qed.
Lemma within_repost_entries c r ls txnID i es now :
  uuid_in txnID = Some (sx_id r) -> sx_kind r = TxnKindOpeningBalance -> (ls <> [] \/ es <> []) ->
  within c (opened r ls) (repost_entries txnID (sx_id r) i es now) (fun _ d => stocked None (view_of d)).
Proof.
  intros Hu Hk. revert ls i. induction es as [|e rest IH]; intros ls i Hne; cbn [repost_entries].
  - apply within_entries_done; naive_solver.
  - destruct (entry_refused i e); [apply within_throw|]. set (P := working r ls (map opening_move ls)).
    eapply (still_step c P); [apply still_wrapping, still_catalog|intros _]. eapply (still_step c P); [apply still_wrapping, still_warehouse|intros _].
    destruct (parseDatePtr _); [apply within_throw|]. eapply (still_step c P); [apply still_ensure|intros _]. eapply (still_step c P); [apply still_costing|intros cc].
    eapply within_bind; [by apply within_opening_line|intros id]. apply within_exists. intros l. apply IH. left. apply app_one.
Qed.

(** ** Revaluations *)
Lemma still_on_pair {A} item wh (m : string -> string -> stock A) : (forall i w c l, within c (cored l) (m i w) (fun _ => cored l)) -> still (on_pair item wh m).
Proof.
  intros Hm. unfold on_pair. destruct (uuid_in item) as [i|]; [|by apply still_stmt]. destruct (uuid_in wh) as [w|]; [|by apply still_stmt].
  apply still_stock. apply Hm.
Qed.
Lemma still_layers price i w c l : within c (cored l) (reprice_layers price i w) (fun _ => cored l).
Proof. apply within_checked. intros d d' Hd. destruct (mapM _ _); [|done]. by intros [= <-]. Qed.
Lemma still_balance a t i w c l : within c (cored l) (reprice_balance a t i w) (fun _ => cored l).
Proof.
  apply within_checked. intros d d' Hd. destruct (balances d !! (i, w)) as [b|]; [|by intros [= <-]]. destruct (column a); [|done]. cbn.
  destruct (column t); [|done]. cbn. by intros [= <-].
Qed.
Lemma still_to_revalue item wh : still (stock_to_revalue item wh).
Proof.
  intros c v. unfold stock_to_revalue. set (q := on_pair _ _ _).
  assert (still q) as Hq by (apply still_on_pair; intros; apply within_read; done).
  intros w d Hw Hf Hd. specialize (Hq c v w d Hw Hf Hd). unfold bind, attempt. destruct (q w) as [[[b|]|e] w']; [destruct (fleb _ _)|..]; cbn; [|exact Hq| |].
  1, 2: destruct Hq as (? & ? & d' & -> & _); split_and!; [done..|by eexists].
  exact Hq.
Qed.
Lemma within_post_revaluation c r ms0 txnID b p now :
  uuid_in txnID = Some (sx_id r) -> sx_kind r = TxnKindRevaluation -> ms0 = [] ->
  within c (work r [] ms0) (post_revaluation txnID (sx_id r) b p now) (fun _ d => stocked None (view_of d)).
Proof.
  intros Hu Hk ->. unfold post_revaluation. eapply within_bind.
  { apply within_update_header; [exact Hu|]. intros t t'. unfold edit_revaluation. intros H. repeat (apply bind_Some in H as (? & ? & H)). by injection H as <-. }
  intros ?. apply within_exists. intros r'. from_state v (Hr' & Eid & Ekd & Hv). destruct (revaluationDelta _ _ _) as [newTotal delta].
  unfold edit_revaluation in Hr'. apply bind_Some in Hr' as (i & Ei & Hr'). apply bind_Some in Hr' as (w & Ew & Hr'). apply bind_Some in Hr' as (n & En & Hr').
  eapply still_then; [apply still_costing|intros cc].
  eapply still_then; [destruct (negb _); [|apply still_ret]; destruct (fltb _ _); apply still_wrapping, still_on_pair; intros; apply still_layers|intros _].
  eapply still_then; [apply still_wrapping, still_on_pair; intros; apply still_balance|intros _].
  unfold of_pair at 1, on_pair. rewrite Ei, Ew. set (inp := revaluation_movement i w (sx_id r) delta).
  eapply within_bind.
  { apply within_wrapping, (within_stock c v _ (fun l0 id l' => exists q, l' = (l0 ++ [core_from inp id q])%list /\ column fzero = Some q)).
    intros l0. eapply within_post; [apply (within_insert_movement c l0 inp)|]. intros id d (q & Hc & Hq). by exists q. }
  intros id. apply within_ret. intros d (l' & (q & -> & Hq) & Hd). unfold at_view in Hd. rewrite Hd.
  assert (uuid_in (sx_id r) = Some (sx_id r)) as Hcan by (by eapply uuid_canonical).
  assert (has_ref (sx_kind r') (sx_id r') (core_from inp id q) = true) as Href.
  { unfold has_ref. rewrite Eid, Ekd, Hk. cbn. rewrite (proj1 (nullUUID_canonical _ _ Hcan)). by rewrite !bool_decide_true. }
  eapply working_done; [exact (working_moved _ _ _ _ _ Hv Href)|]. injection Hr' as <-.
  eapply booked_revaluation; cbn; eauto. destruct (fltb delta fzero); auto.
Qed.

(** ** Handlers *)
Abbreviation kept v m := (keeps (stocked None) v m).
Definition txn_in (u : string) (v : view) : option stock_txn_row := List.find (fun t => String.eqb (sx_id t) u) (v_txns v).
Lemma tells_txn id : tells (loadStockTransaction id) (fun v t => exists row, row ∈ v_txns v /\ uuid_in id = Some (sx_id row) /\
  ST_ID t = sx_id row /\ ST_Kind t = sx_kind row).
Proof.
  apply tells_bind with (F := fun v row => exists u, uuid_in id = Some u /\ txn_in u v = Some row).
  - apply tells_wrapping, (row_at_tells _ find_txn txn_in). done.
  - intros row v (u & Hu & Hrow). apply find_some in Hrow as [Hin <-%String.eqb_eq]. eapply t_bind; [apply quiet_wrapping, quiet_query|intros lines|].
    + apply t_ret. intros d Hd. split; [done|]. intros t [= <-]. exists row. split_and!; [by apply list_elem_of_In|done..].
    + cbn. intros e d Hd. split; [exact Hd|done].
Qed.
Lemma quiet_load id : quiet (loadStockTransaction id).
Proof. eapply tells_quiet, tells_txn. Qed.
Lemma quiet_current now : quiet (doc_fin (CheckCurrentPeriodUnlocked now)).
Proof. apply quiet_fin, settles_current. Qed.
Lemma quiet_writeoff user res note now : quiet (writeoff_entry user res note now).
Proof. apply quiet_fin, settles_record. Qed.
Lemma quiet_revaluation user id note delta now : quiet (revaluation_entry user id note delta now).
Proof. apply quiet_fin, settles_record. Qed.
Lemma CreateAdjustment_keeps v u p now : stocked None v -> kept v (CreateAdjustment u p now).
Proof.
  intros Hv. apply keeps_owner; [done|intros user]. destruct (adjustmentPlan (AP_Qty p)) as [plan|] eqn:Ep; [|by apply keeps_from_throw]. cbv zeta.
  destruct (_ && _); [by apply keeps_from_throw|]. destruct (parseDatePtr _); [by apply keeps_from_throw|].
  apply keeps_then; [done|apply quiet_if; [apply quiet_current|apply quiet_ret]|intros ?]. apply keeps_then; [done|apply quiet_prepare|intros ?].
  apply keeps_then; [done|apply quiet_catalog|intros ?]. apply keeps_then; [done|apply quiet_warehouse|intros ?]. apply keeps_from_bind.
  - apply keeps_tx; [done|]. eapply still_then; [apply still_ensure|intros ?]. eapply within_bind; [by apply within_header|intros t].
    from_state v1 (Hv1 & Hk & Hu). apply within_map.
    eapply within_conseq; [by apply (within_post_adjustment false t [])|by intros ? <-|done].
  - intros [t res]. apply quiet_doc_bind; [apply quiet_if; [apply quiet_writeoff|apply quiet_ret]|intros ?; apply quiet_ret].
Qed.
Lemma quiet_transfer p : quiet (validate_transfer p).
Proof. apply quiet_doc_bind; [apply quiet_catalog|intros ?]. apply quiet_doc_bind; [apply quiet_warehouse|intros ?; apply quiet_warehouse]. Qed.
Lemma CreateTransfer_keeps v u p now : stocked None v -> kept v (CreateTransfer u p now).
Proof.
  intros Hv. apply keeps_owner; [done|intros user]. destruct (transfer_refused p) eqn:Ep; [by apply keeps_from_throw|].
  apply keeps_then; [done|apply quiet_prepare|intros ?]. apply keeps_then; [done|apply quiet_transfer|intros ?]. apply keeps_from_bind.
  - apply keeps_tx; [done|]. eapply still_then; [apply still_ensure|intros ?]. eapply within_bind; [by apply within_header|intros t].
    from_state v1 (Hv1 & Hk & Hu). apply within_map.
    eapply within_conseq; [by apply (within_post_transfer false t [])|by intros ? <-|done].
  - intros [t [out into]]. apply quiet_ret.
Qed.
Lemma still_items ids : still (validateCatalogItemsBatch ids).
Proof.
  unfold validateCatalogItemsBatch. cbv zeta. destruct (Nat.eqb _ _); [apply still_throw|]. apply still_bind; [apply still_wrapping, still_query|intros found].
  destruct (forallb _ _); [apply still_ret|apply still_throw].
Qed.
Lemma still_warehouses ids : still (validateWarehousesBatch ids).
Proof.
  unfold validateWarehousesBatch. cbv zeta. destruct (Nat.eqb _ _); [apply still_throw|]. apply still_bind; [apply still_wrapping, still_query|intros found].
  destruct (forallb _ _); [apply still_ret|apply still_throw].
Qed.
Lemma still_unregistered es : still (validateOpeningBalanceNotRegistered es).
Proof.
  unfold validateOpeningBalanceNotRegistered. cbv zeta. destruct (Nat.eqb _ _); [apply still_ret|]. apply still_bind; [apply still_wrapping, still_query|].
  intros [[i w]|]; [apply still_throw|apply still_ret].
Qed.
Lemma CreateOpeningBalance_keeps v u es now : stocked None v -> kept v (CreateOpeningBalance u es now).
Proof.
  intros Hv. apply keeps_owner; [done|intros user]. destruct (Nat.eqb_spec (length es) 0); [by apply keeps_from_throw|].
  destruct (Nat.ltb _ _); [by apply keeps_from_throw|]. apply keeps_then; [done|apply quiet_prepare|intros ?]. apply keeps_from_bind; [|intros [t ids]; apply quiet_ret].
  apply keeps_tx; [done|]. eapply within_bind; [by apply within_header|intros t]. from_state v1 (Hv1 & Hk & Hu).
  eapply still_then; [apply still_items|intros ?]. eapply still_then; [apply still_warehouses|intros ?]. destruct (validateOpeningBalanceEntryPairs es); [apply within_throw|].
  eapply still_then; [apply still_unregistered|intros ?]. apply within_map.
  eapply within_conseq; [apply (within_create_entries false t [] 0 es now Hu Hk); right; by destruct es|by intros ? <-|done].
Qed.
Lemma CreateRevaluation_keeps v u p now : stocked None v -> kept v (CreateRevaluation u p now).
Proof.
  intros Hv. apply keeps_owner; [done|intros user]. destruct (fltb _ _); [by apply keeps_from_throw|].
  apply keeps_then; [done|apply quiet_current|intros ?]. apply keeps_then; [done|apply quiet_prepare|intros ?].
  apply keeps_then; [done|apply quiet_catalog|intros ?]. apply keeps_then; [done|apply quiet_warehouse|intros ?]. apply keeps_from_bind.
  - apply keeps_tx; [done|]. eapply still_then; [apply still_to_revalue|intros b]. eapply within_bind; [by apply within_header|intros t].
    from_state v1 (Hv1 & Hk & Hu). apply within_map.
    eapply within_conseq; [by apply (within_post_revaluation false t [])|by intros ? <-|done].
  - intros [[b t] [id delta]]. apply quiet_doc_bind; [apply quiet_if; [apply quiet_revaluation|apply quiet_ret]|intros ?; apply quiet_ret].
Qed.

(** ** Editing and deleting *)
Lemma within_taken_back c v row id now {A} (k : docs A) Q :
  stocked None v -> row ∈ v_txns v -> uuid_in id = Some (sx_id row) ->
  (forall v', working row [] [] v' -> within c (at_view v') k Q) ->
  within c (at_view v) (purgeByRef (sx_kind row) id now;! internally (exec_at (uuid_in id) delete_txn_lines);! k) Q.
Proof.
  intros Hv Hrow Hu Hk. pose proof (working_row v row Hv Hrow) as Hw. eapply within_bind; [by apply within_purge_ref|intros ?].
  apply working_purged in Hw. set (v1 := v_set_moves _ _) in *.
  eapply within_bind; [apply within_wrapping, (within_exec_at c v1 _ _ (fun u v => v_set_txn_lines (List.filter (fun l => negb (of_txn u l)) (v_txn_lines v)) v)); done|intros ?].
  from_view (x & Ex & Hd). rewrite Hu in Ex. injection Ex as <-. apply Hk. by eapply working_cleared.
Qed.
Lemma within_repost c row v t id p now :
  working row [] [] v -> uuid_in id = Some (sx_id row) -> ST_ID t = sx_id row -> ST_Kind t = sx_kind row ->
  within c (at_view v) (repost t id p now) (fun _ d => stocked None (view_of d)).
Proof.
  intros Hw Hu Hid Hkind. unfold repost. cbv zeta. rewrite Hid, Hkind.
  destruct (String.eqb_spec (sx_kind row) TxnKindAdjustment) as [E|_]; [|destruct (String.eqb_spec (sx_kind row) TxnKindTransfer) as [E|_];
    [|destruct (String.eqb_spec (sx_kind row) TxnKindOpeningBalance) as [E|_]; [|destruct (String.eqb_spec (sx_kind row) TxnKindRevaluation) as [E|_]; [|apply within_throw]]]].
  - apply within_map. unfold repostAdjustmentOnTx. destruct (adjustmentPlan _) as [plan|] eqn:Ep; [|apply within_throw].
    destruct (parseDatePtr _); [apply within_throw|]. eapply still_then; [apply still_catalog|intros ?]. eapply still_then; [apply still_warehouse|intros ?].
    eapply still_then; [apply still_ensure|intros ?]. apply within_map.
    eapply within_conseq; [by apply (within_post_adjustment c row [])|by intros ? <-|done].
  - apply within_map. unfold repostTransferOnTx. destruct (transfer_refused _) eqn:Ep; [apply within_throw|].
    eapply still_then; [apply still_bind; [apply still_catalog|intros ?; apply still_bind; [apply still_warehouse|intros ?; apply still_warehouse]]|intros ?].
    eapply still_then; [apply still_ensure|intros ?]. apply within_map.
    eapply within_conseq; [by apply (within_post_transfer c row [])|by intros ? <-|done].
  - destruct (Nat.eqb_spec (length (UP_Entries p)) 0) as [|Hne]; [apply within_throw|]. apply within_map.
    eapply within_conseq; [apply (within_repost_entries c row [] id 0 (UP_Entries p) now Hu E); right; by destruct (UP_Entries p)|by intros ? <-|done].
  - apply within_map. unfold repostRevaluationOnTx. destruct (fltb _ _); [apply within_throw|].
    eapply still_then; [apply still_catalog|intros ?]. eapply still_then; [apply still_warehouse|intros ?]. eapply still_then; [apply still_to_revalue|intros b].
    eapply within_conseq; [by apply (within_post_revaluation c row [])|by intros ? <-|done].
Qed.
Lemma UpdateStockTransaction_keeps v u id p now : stocked None v -> kept v (UpdateStockTransaction u id p now).
Proof.
  intros Hv. apply keeps_owner; [done|intros user]. apply keeps_then; [done|apply quiet_prepare|intros ?].
  eapply keeps_tells; [done|apply tells_txn|intros t (row & Hrow & Hu & Hid & Hk)]. apply keeps_then; [done|apply quiet_for_date|intros ?].
  apply keeps_then; [done|apply quiet_collect|intros movs]. apply keeps_then; [done|apply quiet_remove|intros ?]. apply keeps_from_bind.
  - apply keeps_tx; [done|]. unfold txnKindRefType. rewrite Hk. apply within_taken_back; [done..|]. intros v' Hw. by eapply within_repost.
  - intros [r [mid delta]]. apply quiet_doc_bind; [|intros ?; apply quiet_doc_bind; [|intros ?; apply quiet_load]].
    + unfold recordAdjustmentFinance. destruct r as [[dir res]|]; [apply quiet_if; [apply quiet_ret|apply quiet_writeoff]|apply quiet_ret].
    + apply quiet_if; [apply quiet_ret|apply quiet_revaluation].
Qed.
Lemma DeleteStockTransaction_keeps v u id now : stocked None v -> kept v (DeleteStockTransaction u id now).
Proof.
  intros Hv. apply keeps_owner; [done|intros user]. apply keeps_then; [done|apply quiet_prepare|intros ?].
  eapply keeps_tells; [done|apply tells_txn|intros t (row & Hrow & Hu & Hid & Hk)]. apply keeps_then; [done|apply quiet_for_date|intros ?].
  apply keeps_then; [done|apply quiet_collect|intros movs]. apply keeps_then; [done|apply quiet_remove|intros ?]. apply keeps_tx; [done|].
  pose proof (working_purged _ _ _ _ (working_row v row Hv Hrow)) as Hw. unfold txnKindRefType. rewrite Hk.
  eapply within_bind; [by apply within_purge_ref|intros ?]. set (v1 := v_set_moves _ _) in *.
  eapply within_post; [apply within_wrapping, (within_exec_at false v1 _ _ (fun u v => v_set_txn_lines (List.filter (fun l => negb (of_txn u l)) (v_txn_lines v))
    (v_set_txns (List.filter (fun t => negb (String.eqb (sx_id t) u)) (v_txns v)) v))); done|].
  intros ? d (x & Ex & Hd). rewrite Hu in Ex. injection Ex as <-. unfold at_view in Hd. rewrite Hd. by eapply working_deleted.
Qed.
Lemma DeleteStocks_keeps v u ids now : stocked None v -> kept v (BatchDeleteStockTransactions u ids now).
Proof.
  intros Hv. apply keeps_owner; [done|intros user]. destruct (Nat.eqb _ _); [by apply keeps_from_throw|]. destruct (Nat.ltb _ _); [by apply keeps_from_throw|].
  revert v Hv. induction ids as [|id rest IH]; intros v Hv; cbn [delete_each]; [apply keeps_quiet; [done|apply quiet_ret]|].
  apply keeps_seq; [by apply keeps_attempted, DeleteStockTransaction_keeps|]. intros r v1 Hv1. apply keeps_from_bind; [by apply IH|]. intros others. apply quiet_ret.
Qed.
End steps.
