(* ===== verification/Returns.v ===== *)
(** * Sales returns

    [inventory/sales_return.go], [sales_return_batch.go] and
    [sales_return_crud.go], with what they use of invoice.go and invoice_batch.go:
    goods of a shipped or completed order taken back into stock at the cost they
    were sold with.  Left out: the listing, the sale a returned line refers to
    ([orderSaleMovementID]), which is stored and never read, and the quantity in
    the text of a refusal. *)
From S2P Require Import Prelude GoStrings AdminSession DaySlots Dates PgTx Triples Zoom Float64 Billing FinTables FinPosting Costing StockLedger Shop OrderStock.
From S2P Require Import Docs Purchasing.

Open Scope string_scope.
Open Scope Z_scope.

(** ** Types *)
Record SalesReturnLineInput := { RI_CatalogItemID : string; RI_WarehouseID : string; RI_Qty : f64 }.
Record CreateSalesReturnParams := { RP_OrderID : string; RP_Note : string; RP_Lines : list SalesReturnLineInput }.
Record UpdateSalesReturnParams := { RU_Note : string; RU_Lines : list SalesReturnLineInput }.
Record SalesReturnLine := { RL_CatalogItemID : string; RL_ItemName : string; RL_WarehouseID : string; RL_Qty : f64; RL_UnitCost : f64 }.
Record SalesReturn := {
  RT_ID : string; RT_ReturnNo : string; RT_OrderID : option string; RT_Status : string; RT_TransactionDate : string; RT_Note : string;
  RT_TotalCost : f64; RT_Lines : list SalesReturnLine
}.
Record ReturnableLine := {
  RB_CatalogItemID : string; RB_ItemName : string; RB_WarehouseID : string; RB_QtySold : f64; RB_QtyReturned : f64; RB_QtyReturnable : f64
}.
Record ReturnableOrderLines := { RO_OrderID : string; RO_Status : string; RO_Lines : list ReturnableLine }.
Record BatchSalesReturnResultLine := { BR_OrderID : string; BR_ReturnID : string; BR_ReturnNo : string; BR_Error : string }.
(** processed, failed, and a result for each order *)
Record BatchCreateSalesReturnsResponse := { BR_Processed : nat; BR_Failed : nat; BR_Results : list BatchSalesReturnResultLine }.

(** ** Quantities *)
Definition returnableQty (soldNet alreadyReturned : f64) : f64 :=
  let r := round4 (fsub soldNet alreadyReturned) in if fltb r fzero then fzero else r.
Definition net_of (m : gmap string netEntry) (item : string) : netEntry := default no_net (m !! item).
Definition weightedItemCost (m : gmap string netEntry) (item : string) : f64 :=
  let e := net_of m item in if fleb (ne_qty e) epsilon then fzero else round4 (fdiv (ne_cost e) (ne_qty e)).
Definition isInvoiceEligibleStatus (status : string) : bool :=
  let s := ToLower (TrimSpace status) in String.eqb s "shipped" || String.eqb s "completed".
Definition maxBatchOrderActions : nat := 100.
(** the sum by item of what was issued, less what came back by a cancellation *)
Definition add_sale (out : gmap string netEntry) (m : movement_row) : gmap string netEntry :=
  let e := net_of out (mv_item m) in
  <[mv_item m := if String.eqb (mv_type m) MovementSaleIssue
                 then {| ne_qty := fadd (ne_qty e) (mv_qty m); ne_cost := fadd (ne_cost e) (mv_total m) |}
                 else {| ne_qty := fsub (ne_qty e) (mv_qty m); ne_cost := fsub (ne_cost e) (mv_total m) |}]> out.
Definition qty_at (m : gmap string f64) (item : string) : f64 := default fzero (m !! item).
(** the edited return's own lines do not count *)
Definition exclude_line (m : gmap string f64) (l : SalesReturnLine) : gmap string f64 :=
  let q := fsub (qty_at m (RL_CatalogItemID l)) (RL_Qty l) in <[RL_CatalogItemID l := if fltb q fzero then fzero else q]> m.
(** each line by itself against what is left *)
Fixpoint refused_lines (sold : gmap string netEntry) (returned : gmap string f64) (i : nat) (ls : list SalesReturnLineInput) : option error :=
  match ls with
  | [] => None
  | l :: rest =>
      if fleb (RI_Qty l) epsilon then Some (BadRequest (at_line i "qty harus lebih dari 0"))
      else
        let item := RI_CatalogItemID l in
        if fltb (returnableQty (ne_qty (net_of sold item)) (qty_at returned item)) (fsub (RI_Qty l) epsilon)
        then Some (BadRequest (at_line i "qty retur melebihi yang terjual"))
        else refused_lines sold returned (S i) rest
  end.

(** ** Rows *)
Definition find_return (u : string) (d : docs_db) : option return_row := List.find (fun r => String.eqb (re_id r) u && negb (re_deleted r)) (dc_returns d).
Definition lines_of_return (u : string) (d : docs_db) : list return_line_row := List.filter (fun l => String.eqb (rl_return l) u) (dc_return_lines d).
Definition find_order (u : string) (d : docs_db) : option order_row :=
  List.find (fun o => String.eqb (or_id o) u && negb (or_deleted o)) (sh_orders (dc_shop d)).
(** a query on another connection of the pool: it sees what is committed, and its failure leaves the transaction as it is *)
Definition beside {A} (m : docs A) : docs A := fun w => let '(r, w') := m (with_tx_state None w) in (r, with_tx_state (p_tx w) w').

Section returns.
Context `{PgInput} `{TimeZones} `{Numeric} `{OrderInput}.

(** ** Reading *)
Definition line_of_return_row (d : docs_db) (l : return_line_row) : SalesReturnLine :=
  {| RL_CatalogItemID := rl_item l; RL_ItemName := name_of_item (rl_item l) d; RL_WarehouseID := rl_wh l; RL_Qty := qty4 (rl_qty l);
     RL_UnitCost := qty4 (rl_cost l) |}.
Definition getSalesReturn (id : string) : docs SalesReturn :=
  let! r := wrapping (not_found "retur tidak ditemukan") (row_at (uuid_in id) find_return) in
  let! lines := internally (query_with (uuid_in id) (fun u d => map (line_of_return_row d) (lines_of_return u d))) in
  ret {| RT_ID := re_id r; RT_ReturnNo := re_no r; RT_OrderID := not_blank (re_order r); RT_Status := re_status r;
         RT_TransactionDate := date_text (re_date r); RT_Note := default "" (re_note r); RT_TotalCost := qty4 (re_total r); RT_Lines := lines |}.
(** [getUser] and the tenant's schema, then the query *)
Definition GetSalesReturn (u : option AuthUser) (id : string) : docs SalesReturn :=
  match getUser u with Err e => throw e | Ok _ => prepare;! getSalesReturn id end.
(** contact, lines, subtotal and status *)
Definition loadOrderForInvoice (orderID : string) : docs (string * list OrderItem * f64 * string) :=
  let! o := wrapping (not_found "pesanan tidak ditemukan") (row_at (uuid_in orderID) find_order) in
  ret (default "" (or_contact o), or_items o, qty4 (or_subtotal o), or_status o).
Definition orderItemSaleCost (orderID : string) : docs (gmap string netEntry) :=
  internally (query_with (uuid_in orderID) (fun u d => fold_left add_sale (sale_rows u (dc_shop d)) ∅)).
Definition counts_as_returned (order : string) (r : return_row) : bool :=
  bool_decide (re_order r = Some order) && String.eqb (re_status r) "posted" && negb (re_deleted r).
Definition returned_lines (order : string) (d : docs_db) : list return_line_row :=
  flat_map (fun r => if counts_as_returned order r then lines_of_return (re_id r) d else []) (dc_returns d).
Definition sum_for (item : string) (ls : list return_line_row) : Z :=
  fold_right Z.add 0 (map rl_qty (List.filter (fun l => String.eqb (rl_item l) item) ls)).
Definition orderReturnedQty (orderID : string) : docs (gmap string f64) :=
  internally (query_with (uuid_in orderID) (fun u d =>
    let ls := returned_lines u d in list_to_map (map (fun l => (rl_item l, qty4 (sum_for (rl_item l) ls))) ls))).
Definition returnable_line (sold : gmap string netEntry) (returned : gmap string f64) (l : OrderItem) : option ReturnableLine :=
  let item := OI_CatalogItemID l in
  let q := ne_qty (net_of sold item) in
  let r := qty_at returned item in
  if String.eqb (TrimSpace item) "" || fleb (returnableQty q r) epsilon then None
  else Some {| RB_CatalogItemID := item; RB_ItemName := OI_Name l; RB_WarehouseID := OI_WarehouseID l; RB_QtySold := round4 q;
               RB_QtyReturned := round4 r; RB_QtyReturnable := returnableQty q r |}.
Definition not_eligible : error := BadRequest "status pesanan harus Dalam pengiriman atau Selesai".
Definition loadReturnableOrderLines (orderID : string) : docs ReturnableOrderLines :=
  let! o := loadOrderForInvoice orderID in
  let '(_, lines, _, status) := o in
  if negb (isInvoiceEligibleStatus status) then throw not_eligible
  else
    let! sold := orderItemSaleCost orderID in
    let! returned := orderReturnedQty orderID in
    ret {| RO_OrderID := orderID; RO_Status := status; RO_Lines := omap (returnable_line sold returned) lines |}.
Definition GetReturnableOrderLines (u : option AuthUser) (orderID : string) : docs ReturnableOrderLines :=
  match getUser u with Err e => throw e | Ok _ => prepare;! loadReturnableOrderLines orderID end.

(** ** Posting *)
(** [wh, _ = defaultWarehouseID(ctx, sch, pool)] *)
Definition return_warehouse (l : SalesReturnLineInput) : docs string :=
  let wh := TrimSpace (RI_WarehouseID l) in
  if String.eqb wh "" then
    let! w := attempt (beside (on_shop defaultWarehouseID)) in ret (match w with Ok w => w | Err _ => "" end)
  else ret wh.
Definition return_movement (returnID wh : string) (unitCost : f64) (cc : costingContext) (l : SalesReturnLineInput) : MovementInput :=
  {| MI_CatalogItemID := RI_CatalogItemID l; MI_WarehouseID := wh; MI_Type := MovementReturnIn; MI_Direction := dirIn;
     MI_Qty := round4 (RI_Qty l); MI_UnitCost := unitCost; MI_CostingMethod := cc_method cc; MI_BlockNegative := false; MI_BatchNo := "";
     MI_RefType := "sales_return"; MI_RefID := returnID |}.
(** [return]: the id the columns hold *)
Definition return_line_of (return_ wh : string) (unitCost : f64) (l : SalesReturnLineInput) (movement : string) : option return_line_row :=
  item ← uuid_in (RI_CatalogItemID l); w ← uuid_in wh; q ← numeric_in 4 (round4 (RI_Qty l)); c ← numeric_in 4 unitCost;
  Some {| rl_return := return_; rl_item := item; rl_wh := w; rl_qty := q; rl_cost := c; rl_movement := Some movement |}.
Definition insert_return_line (row : option return_line_row) : docs unit :=
  stmt (fun d => match row with Some r => (Ok tt, set_return_lines (dc_return_lines d ++ [r])%list d) | None => (Err bad_input, d) end).
(** one turn of the loop: the line's cost *)
Definition post_return_line (returnID return_ : string) (sold : gmap string netEntry) (l : SalesReturnLineInput) (now : Z) : docs f64 :=
  let! wh := return_warehouse l in
  let unitCost := weightedItemCost sold (RI_CatalogItemID l) in
  let! cc := costingContext_for (RI_CatalogItemID l) in
  let! res := postMovement (return_movement returnID wh unitCost cc l) now in
  internally (insert_return_line (return_line_of return_ wh unitCost l (MR_MovementID res)));!
  ret (round4 (fmul unitCost (RI_Qty l))).
Fixpoint post_return_lines (returnID return_ : string) (sold : gmap string netEntry) (ls : list SalesReturnLineInput) (totalCost : f64) (now : Z) : docs f64 :=
  match ls with
  | [] => ret totalCost
  | l :: rest =>
      let! lineCost := post_return_line returnID return_ sold l now in
      post_return_lines returnID return_ sold rest (fadd totalCost lineCost) now
  end.
Definition return_of (accountID no : string) (p : CreateSalesReturnParams) (contactID : string) (now : Z) (id : string) (d : docs_db) : option return_row :=
  order ← uuid_opt (nullUUID (RP_OrderID p)); contact ← uuid_opt (nullUUID contactID); _ ← uuid_opt (nullUUID accountID);
  if existsb (fun r => String.eqb (re_no r) no && negb (re_deleted r)) (dc_returns d) then None
  else Some {| re_id := id; re_no := no; re_order := order; re_contact := contact; re_status := "posted"; re_date := day_of_time now;
               re_note := stockNull (RP_Note p); re_total := 0; re_deleted := false |}.
Definition with_total (total : Z) (contact : option string) (r : return_row) : return_row :=
  {| re_id := re_id r; re_no := re_no r; re_order := re_order r; re_contact := contact; re_status := re_status r; re_date := re_date r;
     re_note := re_note r; re_total := total; re_deleted := re_deleted r |}.
Definition set_total (id : string) (total : f64) (contact : return_row -> option (option string)) : docs unit :=
  internally (replace_at (uuid_in id) re_id (fun r => n ← numeric_in 4 total; c ← contact r; Some (with_total n c r)) dc_returns set_returns).
(** the cost of the goods taken back, as income of tenants that book purchases as stock *)
Definition return_entry (accountID returnID returnNo : string) (totalCost : f64) (now : Z) : docs unit :=
  let! s := attempt (on_shop loadSyncSetting) in
  match s with
  | Ok (_, postExpense, _) =>
      if negb postExpense && fltb fzero totalCost then
        doc_fin (RecordInventoryEntry accountID ("ret:" ++ returnID) "income" finCatHPP ("Retur penjualan " ++ returnNo) (round2 totalCost) "" now)
      else ret tt
  | Err _ => ret tt
  end.
Definition createSalesReturnConn (accountID : string) (p : CreateSalesReturnParams) (now : Z) : docs SalesReturn :=
  if String.eqb (TrimSpace (RP_OrderID p)) "" then throw (BadRequest "orderId wajib diisi")
  else if Nat.eqb (length (RP_Lines p)) 0 then throw (BadRequest "minimal 1 baris retur")
  else
    doc_fin (CheckCurrentPeriodUnlocked now);!
    let! o := loadOrderForInvoice (RP_OrderID p) in
    if negb (isInvoiceEligibleStatus o.2) then throw not_eligible
    else
      let! o := loadOrderForInvoice (RP_OrderID p) in
      let contactID := o.1.1.1 in
      let! sold := orderItemSaleCost (RP_OrderID p) in
      let! returned := orderReturnedQty (RP_OrderID p) in
      match refused_lines sold returned 0 (RP_Lines p) with
      | Some e => throw e
      | None =>
          let! done := in_tx InternalE (
            let! no := internally (nextDocNumber DocReturn DocReturn) in
            let! r := internally (insert_row (return_of accountID no p contactID now) (fun r d => set_returns (dc_returns d ++ [r])%list d)) in
            let! totalCost := post_return_lines (re_id r) (re_id r) sold (RP_Lines p) fzero now in
            set_total (re_id r) (round4 totalCost) (fun r => Some (re_contact r));!
            ret (r, totalCost)) in
          let '(r, totalCost) := done in
          return_entry accountID (re_id r) (re_no r) totalCost now;!
          getSalesReturn (re_id r)
      end.
Definition CreateSalesReturn (u : option AuthUser) (p : CreateSalesReturnParams) (now : Z) : docs SalesReturn :=
  as_owner u (fun user =>
    if String.eqb (TrimSpace (RP_OrderID p)) "" then throw (BadRequest "orderId wajib diisi")
    else if Nat.eqb (length (RP_Lines p)) 0 then throw (BadRequest "minimal 1 baris retur")
    else
      doc_fin (CheckCurrentPeriodUnlocked now);!
      prepare;!
      createSalesReturnConn (AccountID user) p now).

(** ** Batches *)
Definition return_failed (orderID msg : string) : BatchSalesReturnResultLine := {| BR_OrderID := orderID; BR_ReturnID := ""; BR_ReturnNo := ""; BR_Error := msg |}.
Definition with_result (done : bool) (line : BatchSalesReturnResultLine) (rest : BatchCreateSalesReturnsResponse) : BatchCreateSalesReturnsResponse :=
  {| BR_Processed := if done then S (BR_Processed rest) else BR_Processed rest;
     BR_Failed := if done then BR_Failed rest else S (BR_Failed rest); BR_Results := line :: BR_Results rest |}.
Definition return_order (accountID : string) (o : CreateSalesReturnParams) (now : Z) : docs (bool * BatchSalesReturnResultLine) :=
  let orderID := TrimSpace (RP_OrderID o) in
  if String.eqb orderID "" then ret (false, return_failed orderID "orderId kosong")
  else if Nat.eqb (length (RP_Lines o)) 0 then ret (false, return_failed orderID "tidak ada baris retur")
  else
    let! r := attempt (createSalesReturnConn accountID {| RP_OrderID := orderID; RP_Note := RP_Note o; RP_Lines := RP_Lines o |} now) in
    ret match r with
        | Ok r => (true, {| BR_OrderID := orderID; BR_ReturnID := RT_ID r; BR_ReturnNo := RT_ReturnNo r; BR_Error := "" |})
        | Err e => (false, return_failed orderID (error_text e))
        end.
Fixpoint return_orders (accountID : string) (os : list CreateSalesReturnParams) (now : Z) : docs BatchCreateSalesReturnsResponse :=
  match os with
  | [] => ret {| BR_Processed := 0; BR_Failed := 0; BR_Results := [] |}
  | o :: rest =>
      let! line := return_order accountID o now in
      let! others := return_orders accountID rest now in
      ret (with_result line.1 line.2 others)
  end.
Definition BatchCreateSalesReturns (u : option AuthUser) (os : list CreateSalesReturnParams) (now : Z) : docs BatchCreateSalesReturnsResponse :=
  as_owner u (fun user =>
    if Nat.eqb (length os) 0 then throw (BadRequest "minimal 1 pesanan")
    else if Nat.ltb maxBatchOrderActions (length os) then throw (BadRequest ("maksimal " ++ pretty maxBatchOrderActions ++ " pesanan per aksi"))
    else prepare;! return_orders (AccountID user) os now).

(** ** Editing and deleting *)
Definition edit_note (note : string) (r : return_row) : return_row :=
  {| re_id := re_id r; re_no := re_no r; re_order := re_order r; re_contact := re_contact r; re_status := re_status r; re_date := re_date r;
     re_note := stockNull note; re_total := 0; re_deleted := re_deleted r |}.
Definition delete_return_lines (u : string) (d : docs_db) : docs_db :=
  set_return_lines (List.filter (fun l => negb (String.eqb (rl_return l) u)) (dc_return_lines d)) d.
Definition UpdateSalesReturn (u : option AuthUser) (id : string) (p : UpdateSalesReturnParams) (now : Z) : docs SalesReturn :=
  as_owner u (fun user =>
    if Nat.eqb (length (RU_Lines p)) 0 then throw (BadRequest "minimal 1 baris retur")
    else
      prepare;!
      let! existing := getSalesReturn id in
      match RT_OrderID existing with
      | None => throw (BadRequest "retur tidak punya orderId")
      | Some orderID =>
          doc_fin (CheckPeriodUnlockedForDate (RT_TransactionDate existing) now);!
          let! o := loadOrderForInvoice orderID in
          let contactID := o.1.1.1 in
          let! sold := orderItemSaleCost orderID in
          let! returned := orderReturnedQty orderID in
          match refused_lines sold (fold_left exclude_line (RT_Lines existing) returned) 0 (RU_Lines p) with
          | Some e => throw e
          | None =>
              let! movs := collectMovementsByRef "sales_return" id in
              doc_fin (RemoveInventoryEntries (movementFinanceRefs ("ret:" ++ id) movs));!
              let! totalCost := in_tx InternalE (
                purgeByRef "sales_return" id now;!
                internally (exec_at (uuid_in id) delete_return_lines);!
                internally (replace_at (uuid_in id) re_id (fun r => Some (edit_note (RU_Note p) r)) dc_returns set_returns);!
                let! totalCost := post_return_lines id (RT_ID existing) sold (RU_Lines p) fzero now in
                set_total id (round4 totalCost) (fun _ => uuid_opt (nullUUID contactID));!
                ret totalCost) in
              return_entry (AccountID user) id (RT_ReturnNo existing) totalCost now;!
              getSalesReturn id
          end
      end).
(** lines go with their return *)
Definition delete_return (u : string) (d : docs_db) : docs_db :=
  delete_return_lines u (set_returns (List.filter (fun r => negb (String.eqb (re_id r) u)) (dc_returns d)) d).
Definition deleteSalesReturnConn (id : string) (now : Z) : docs unit :=
  let! r := getSalesReturn id in
  doc_fin (CheckPeriodUnlockedForDate (RT_TransactionDate r) now);!
  let! movs := collectMovementsByRef "sales_return" id in
  doc_fin (RemoveInventoryEntries (movementFinanceRefs ("ret:" ++ id) movs));!
  in_tx_errs InternalE (fun e => e) (
    purgeByRef "sales_return" id now;!
    internally (exec_at (uuid_in id) delete_return)).
Definition DeleteSalesReturn (u : option AuthUser) (id : string) (now : Z) : docs unit :=
  as_owner u (fun _ => prepare;! deleteSalesReturnConn id now).
End returns.
