(* ===== verification/ReturnCalls.v ===== *)
(** * Sales returns and the stock they bring back

    [accounted]: the movements of every sales return are its lines, one by one.
    Every operation on returns keeps it, whatever statements fail. *)
From S2P Require Import Prelude GoStrings AdminSession PgTx Triples Zoom Float64 Billing FinTables FinPosting FinLedger FinBooks Costing StockLedger Shop OrderStock.
From S2P Require Import Docs DocSteps Purchasing Returns DocView Receipts ReceiptSteps.

Open Scope string_scope.
Open Scope Z_scope.

Definition of_returns (k : core) : bool := bool_decide (k_ref_type k = Some "sales_return").
Definition of_return (u : string) (l : return_line_row) : bool := String.eqb (rl_return l) u.

Section calls.
Context `{HI : PgInput} `{HT : TimeZones} `{HN : Numeric} `{HO : OrderInput} `{HD : !DocLaws} `{HL : !PgInputLaws}.

Definition return_move (l : return_line_row) := (rl_movement l, rl_item l, rl_wh l, MovementReturnIn, dirIn, qty4 (rl_qty l)).
Record accounted (v : view) : Prop := {
  ac_moves u : map core_line (List.filter (has_ref "sales_return" u) (v_moves v)) = map return_move (List.filter (of_return u) (v_return_lines v));
  ac_owner l : l ∈ v_return_lines v -> rl_return l ∈ map re_id (v_returns v);
  ac_ids : Forall (fun i => uuid_in i = Some i) (v_ids v)
}.
Lemma accounted_rows v rows : accounted v -> (forall x, x ∈ map re_id (v_returns v) -> x ∈ map re_id rows) -> accounted (v_set_returns rows v).
Proof. intros [Hm Ho Hi] Hsub. split; [exact Hm| |exact Hi]. cbn. intros l Hl. by apply Hsub, Ho. Qed.
(** a line with its movement *)
Lemma accounted_line v k l :
  accounted v -> rl_return l ∈ map re_id (v_returns v) -> k_ref_type k = Some "sales_return" -> k_ref_id k = Some (rl_return l) -> core_line k = return_move l ->
  accounted (v_set_return_lines (v_return_lines v ++ [l]) (v_set_moves (v_moves v ++ [k]) v)).
Proof.
  intros [Hm Ho Hi] Hl Ht Hr Hk. split; cbn; [| |exact Hi].
  - intros u. rewrite !List.filter_app, !map_app, Hm. f_equal. unfold has_ref, of_return. cbn. rewrite Ht, Hr, bool_decide_true by done. cbn.
    destruct (String.eqb_spec (rl_return l) u) as [->|Hne]; [rewrite bool_decide_true by done; cbn; by rewrite Hk|]. by rewrite bool_decide_false by congruence.
  - intros x [Hx| ->%list_elem_of_singleton]%elem_of_app; [by apply Ho|done].
Qed.
(** movements and lines of a return taken away *)
Definition return_cleared (u : string) (v : view) : view :=
  v_set_return_lines (List.filter (fun l => negb (of_return u l)) (v_return_lines v))
    (v_set_moves (List.filter (fun k => negb (has_ref "sales_return" u k)) (v_moves v)) v).
Lemma accounted_cleared u v : accounted v -> accounted (return_cleared u v).
Proof.
  intros [Hm Ho Hi]. split; cbn; [| |exact Hi].
  - intros x. destruct (String.eqb_spec x u) as [->|Hne]; [by rewrite (filter_none_and (has_ref _ _)), (filter_none_and (of_return _))|].
    rewrite !filter_weaker; [apply Hm|..]; unfold of_return, has_ref; intros y Hy; apply negb_true_iff.
    + apply String.eqb_eq in Hy. apply String.eqb_neq. congruence.
    + apply andb_true_iff in Hy as [? Hy%bool_decide_eq_true]. rewrite Hy. apply andb_false_iff. right. apply bool_decide_eq_false. congruence.
  - intros l [Hl _]%filter_elem. by apply Ho.
Qed.

(** ** Statements *)
(** a query beside the transaction, its error looked at *)
Lemma within_beside {A} c P (m : docs A) : reads c m any -> within c P (attempt (beside m)) (fun _ => P).
Proof.
  intros Hm w d Hw Hf Hd. unfold attempt, beside. specialize (Hm (eq (p_db w)) (with_tx_state None w)).
  destruct (m (with_tx_state None w)) as [r w']. destruct Hm as [[_ Hf'] [Hdb _]]; [by split|done|]. cbn. rewrite Hw. split_and!; [done..|]. eauto.
Qed.
Lemma reads_on_shop {A} c (m : shop A) : reads c m any -> reads c (on_shop m) any.
Proof.
  intros Hm. eapply reads_weaken; [apply (zoom_reads dc_shop set_shop c m (fun _ _ => True))|done].
  intros d. eapply t_conseq; [apply (Hm (eq d))|done|]. by intros r d' [<- _].
Qed.
Lemma reads_one {A B} c (f : shop_db -> A) (k : A -> B) : reads c (let! a := internally (read f) in ret (k a)) any.
Proof. eapply reads_bind_any; [apply wrapping_reads, reads_read|]. intros a. eapply reads_weaken; [apply reads_ret|done]. Qed.
Lemma still_return_warehouse l : still (return_warehouse l).
Proof.
  intros c v. unfold return_warehouse. cbv zeta. destruct (String.eqb _ _); [|by apply within_ret].
  eapply within_bind; [apply within_beside, reads_on_shop, reads_one|]. intros r. by apply within_ret.
Qed.
Lemma still_accounted {A} c (m : docs A) : still m -> within c (fun d => accounted (view_of d)) m (fun _ d => accounted (view_of d)).
Proof.
  intros Hm. apply within_from. intros d Hd. eapply within_conseq; [apply (Hm c (view_of d))|by intros ? <-|]. cbn. by intros ? d' ->.
Qed.
(** the return being posted *)
Definition posting_return (u : string) (d : docs_db) : Prop := accounted (view_of d) /\ u ∈ map re_id (v_returns (view_of d)).
Lemma within_return_line c returnID u sold l now :
  uuid_in returnID = Some u ->
  within c (posting_return u) (post_return_line returnID u sold l now) (fun _ => posting_return u).
Proof.
  intros Hu. apply within_from. intros d0 [Ha Hin]. set (v := view_of d0) in *.
  eapply (within_conseq c (at_view v)); [|by intros d <-|intros ? ? H; exact H]. unfold post_return_line.
  eapply still_then; [apply still_return_warehouse|intros wh]. cbv zeta. eapply still_then; [apply still_costing|intros cc].
  set (inp := return_movement _ _ _ _ _). eapply within_bind; [apply (within_movement c v inp now "sales_return" u Hu eq_refl)|intros res].
  from_view (i & w & m & k & Ei & Ew & _ & Em & Hk & Hkt & Hkr & Hd1). clear Hd1. cbn in Ei, Ew, Em, Hk.
  apply within_map, within_wrapping, within_stmt. intros d8 a d9 Hd. destruct (return_line_of _ _ _ _ _) as [r|] eqn:Er; [|done].
  intros [= _ <-]. unfold return_line_of in Er. rewrite Ei, Ew in Er. cbn in Er. rewrite Em in Er. cbn in Er. apply bind_Some in Er as (c0 & _ & [= <-]).
  unfold at_view in Hd. unfold posting_return.
  match goal with |- accounted (view_of (set_return_lines (_ ++ [?l])%list _)) /\ _ => set (row := l) end.
  change (accounted (v_set_return_lines (v_return_lines (view_of d8) ++ [row]) (view_of d8)) /\ u ∈ map re_id (v_returns (view_of d8))).
  rewrite Hd. split; [|exact Hin]. exact (accounted_line v k row Ha Hin Hkt Hkr Hk).
Qed.
Lemma within_return_lines c returnID u sold ls total now :
  uuid_in returnID = Some u ->
  within c (posting_return u) (post_return_lines returnID u sold ls total now) (fun _ => posting_return u).
Proof.
  intros Hu. revert total. induction ls as [|l rest IH]; intros total; cbn [post_return_lines]; [by apply within_ret|].
  eapply within_bind; [by apply within_return_line|]. intros lineCost. apply IH.
Qed.
(** a change of returns that keeps their ids *)
Lemma within_return_rows c P id edit :
  (forall v rows, P v -> map re_id rows = map re_id (v_returns v) -> P (v_set_returns rows v)) -> (forall r r', edit r = Some r' -> re_id r' = re_id r) ->
  within c (fun d => P (view_of d)) (internally (replace_at id re_id edit dc_returns set_returns)) (fun _ d => P (view_of d)).
Proof.
  intros HP Hedit. apply within_from. intros d0 Hd0. eapply (within_conseq c (at_view (view_of d0))); [|by intros d <-|intros ? ? H; exact H].
  eapply within_post; [apply within_wrapping, (within_replace c _ id re_id edit dc_returns set_returns v_returns v_set_returns); done|].
  intros ? d (u & rows & _ & Hrows & Hd). unfold at_view in Hd. rewrite Hd. apply HP; [done|]. clear -Hrows Hedit. apply mapM_Some_1 in Hrows.
  induction Hrows as [|x y l l' Hx _ IH]; [done|]. cbn. rewrite IH. f_equal. destruct (String.eqb _ _); [by apply Hedit|by injection Hx as <-].
Qed.
Lemma posting_rows u v rows : (accounted v /\ u ∈ map re_id (v_returns v)) -> map re_id rows = map re_id (v_returns v) ->
  accounted (v_set_returns rows v) /\ u ∈ map re_id (v_returns (v_set_returns rows v)).
Proof. intros [Ha Hin] E. split; [apply accounted_rows; [done|by rewrite E]|cbn; by rewrite E]. Qed.
Lemma within_set_total c u id total contact :
  within c (posting_return u) (set_total id total contact) (fun _ => posting_return u).
Proof.
  apply (within_return_rows c (fun v => accounted v /\ u ∈ map re_id (v_returns v))); [by apply posting_rows|].
  intros r r' H. repeat (apply bind_Some in H as (? & ? & H)). by injection H as <-.
Qed.

(** ** Handlers *)
Abbreviation kept v m := (keeps accounted v m).
Definition return_in (u : string) (v : view) : option return_row := List.find (fun r => String.eqb (re_id r) u && negb (re_deleted r)) (v_returns v).
Lemma tells_return id : tells (getSalesReturn id) (fun v r => exists row, row ∈ v_returns v /\ uuid_in id = Some (re_id row) /\ RT_ID r = re_id row).
Proof.
  apply tells_bind with (F := fun v row => exists u, uuid_in id = Some u /\ return_in u v = Some row).
  - apply tells_wrapping, (row_at_tells _ find_return return_in). done.
  - intros row v (u & Hu & Hrow). apply find_some in Hrow as [Hin H]. apply andb_true_iff in H as [<-%String.eqb_eq _].
    eapply t_bind; [apply quiet_wrapping, quiet_query|intros lines|].
    + apply t_ret. intros d Hd. split; [done|]. intros r [= <-]. exists row. split_and!; [by apply list_elem_of_In|done..].
    + cbn. intros e d Hd. split; [exact Hd|done].
Qed.
Lemma quiet_return id : quiet (getSalesReturn id).
Proof. eapply tells_quiet, tells_return. Qed.
Lemma quiet_row_at {A} id (f : string -> docs_db -> option A) : quiet (row_at id f).
Proof. apply quiet_stmt. intros d a d'. destruct id as [u|]; [|done]. destruct (f u d); [|done]. by intros [= _ <-]. Qed.
Lemma quiet_order id : quiet (loadOrderForInvoice id).
Proof. apply quiet_doc_bind; [apply quiet_wrapping, quiet_row_at|intros o; apply quiet_ret]. Qed.
Lemma quiet_sold id : quiet (orderItemSaleCost id).
Proof. apply quiet_wrapping, quiet_query. Qed.
Lemma quiet_returned id : quiet (orderReturnedQty id).
Proof. apply quiet_wrapping, quiet_query. Qed.
Lemma quiet_entry acc id no total now : quiet (return_entry acc id no total now).
Proof.
  apply quiet_doc_bind.
  - apply quiet_reads. eapply reads_weaken; [apply reads_attempt, reads_on_shop, reads_one|done].
  - intros [[[setup expense] block]|e]; [apply quiet_if; [apply quiet_fin, settles_record|apply quiet_ret]|apply quiet_ret].
Qed.
Lemma createSalesReturn_keeps v acc p now : accounted v -> kept v (createSalesReturnConn acc p now).
Proof.
  intros Hv. unfold createSalesReturnConn. destruct (String.eqb _ _); [by apply keeps_from_throw|]. destruct (Nat.eqb _ _); [by apply keeps_from_throw|].
  apply keeps_then; [done|apply quiet_fin, settles_current|intros ?]. apply keeps_then; [done|apply quiet_order|intros o]. destruct (negb _); [by apply keeps_from_throw|].
  apply keeps_then; [done|apply quiet_order|intros o']. cbv zeta. apply keeps_then; [done|apply quiet_sold|intros sold]. apply keeps_then; [done|apply quiet_returned|intros returned].
  destruct (refused_lines _ _ _ _); [by apply keeps_from_throw|]. apply keeps_from_bind.
  - apply keeps_tx; [done|]. eapply still_then; [apply still_wrapping, still_number|intros no].
    eapply within_bind; [apply within_wrapping, (within_insert false v _ _ (fun r v => v_set_returns (v_returns v ++ [r]) v)); done|intros r].
    apply within_from. intros d (i & rest & d0 & Hids & _ & Hrow & Hd).
    assert (re_id r = i) as <-.
    { unfold return_of in Hrow. repeat (let x := fresh in let E := fresh in apply bind_Some in Hrow as (x & E & Hrow)). destruct (existsb _ _); [done|]. by injection Hrow as <-. }
    eapply within_bind; [|intros total; eapply within_bind; [apply within_set_total|intros ?; by apply within_ret; intros ? []]].
    eapply within_conseq; [apply (within_return_lines false (re_id r) (re_id r))| |intros ? ? H; exact H].
    + pose proof (ac_ids _ Hv) as Hc. rewrite Hids in Hc. by apply Forall_cons in Hc as [? _].
    + intros ? <-. unfold posting_return. unfold at_view in Hd. rewrite Hd. split.
      * destruct Hv as [Hm Ho Hi]. split; cbn; [exact Hm| |rewrite Hids in Hi; by apply Forall_cons in Hi as [_ ?]].
        intros l Hl. rewrite map_app, elem_of_app. left. by apply Ho.
      * cbn. rewrite map_app, elem_of_app. right. by left.
  - intros [r total]. apply quiet_doc_bind; [apply quiet_entry|intros ?; apply quiet_return].
Qed.
Lemma CreateSalesReturn_keeps v u p now : accounted v -> kept v (CreateSalesReturn u p now).
Proof.
  intros Hv. apply keeps_owner; [done|intros user]. destruct (String.eqb _ _); [by apply keeps_from_throw|]. destruct (Nat.eqb _ _); [by apply keeps_from_throw|].
  apply keeps_then; [done|apply quiet_fin, settles_current|intros ?]. apply keeps_then; [done|apply quiet_prepare|intros ?]. by apply createSalesReturn_keeps.
Qed.
Lemma BatchCreateSalesReturns_keeps v u os now : accounted v -> kept v (BatchCreateSalesReturns u os now).
Proof.
  intros Hv. apply keeps_owner; [done|intros user]. destruct (Nat.eqb _ _); [by apply keeps_from_throw|]. destruct (Nat.ltb _ _); [by apply keeps_from_throw|].
  apply keeps_then; [done|apply quiet_prepare|intros ?]. revert v Hv. induction os as [|o rest IH]; intros v Hv; cbn [return_orders]; [apply keeps_quiet; [done|apply quiet_ret]|].
  apply keeps_seq.
  - unfold return_order. cbv zeta. destruct (String.eqb _ _); [apply keeps_quiet; [done|apply quiet_ret]|]. destruct (Nat.eqb _ _); [apply keeps_quiet; [done|apply quiet_ret]|].
    apply keeps_from_bind; [by apply keeps_attempted, createSalesReturn_keeps|intros [r|e]; apply quiet_ret].
  - intros line v1 Hv1. apply keeps_from_bind; [by apply IH|intros others; apply quiet_ret].
Qed.
(** ** Editing and deleting *)
Lemma within_return_cleared c v row id now {A} (f : string -> docs_db -> docs_db) (g : view -> view) (k : docs A) Q :
  uuid_in id = Some (re_id row) -> (forall d, view_of (f (re_id row) d) = g (view_of d)) ->
  within c (at_view (g (v_set_moves (List.filter (fun k => negb (has_ref "sales_return" (re_id row) k)) (v_moves v)) v))) k Q ->
  within c (at_view v) (purgeByRef "sales_return" id now;! internally (exec_at (uuid_in id) f);! k) Q.
Proof.
  intros Hu Hf Hk. eapply within_bind; [by apply within_purge_ref|intros ?]. rewrite Hu. set (v1 := v_set_moves _ _) in *.
  eapply within_bind; [|intros ?; exact Hk]. apply within_wrapping, within_stmt. intros d z d' Hd [= _ <-]. unfold at_view in *. by rewrite Hf, Hd.
Qed.
Lemma UpdateSalesReturn_keeps v u id p now : accounted v -> kept v (UpdateSalesReturn u id p now).
Proof.
  intros Hv. apply keeps_owner; [done|intros user]. destruct (Nat.eqb _ _); [by apply keeps_from_throw|]. apply keeps_then; [done|apply quiet_prepare|intros ?].
  eapply keeps_tells; [done|apply tells_return|intros r (row & Hrow & Hu & Hid)]. destruct (RT_OrderID r) as [orderID|]; [|by apply keeps_from_throw].
  apply keeps_then; [done|apply quiet_for_date|intros ?]. apply keeps_then; [done|apply quiet_order|intros o]. cbv zeta.
  apply keeps_then; [done|apply quiet_sold|intros sold]. apply keeps_then; [done|apply quiet_returned|intros returned].
  destruct (refused_lines _ _ _ _); [by apply keeps_from_throw|]. apply keeps_then; [done|apply quiet_collect|intros movs]. apply keeps_then; [done|apply quiet_remove|intros ?].
  apply keeps_from_bind; [|intros total; apply quiet_doc_bind; [apply quiet_entry|intros ?; apply quiet_return]]. apply keeps_tx; [done|]. rewrite Hid.
  apply (within_return_cleared false v row id now _ (fun v => v_set_return_lines (List.filter (fun l => negb (of_return (re_id row) l)) (v_return_lines v)) v)); [done|done|].
  pose proof (accounted_cleared (re_id row) v Hv) as Hc. set (v1 := v_set_return_lines _ _). change (accounted v1) in Hc.
  eapply (within_conseq false (posting_return (re_id row))); [| |intros ? ? H; exact H].
  - eapply within_bind; [apply (within_return_rows false (fun v => accounted v /\ re_id row ∈ map re_id (v_returns v))); [by apply posting_rows|by intros ? ? [= <-]]|intros ?].
    eapply within_bind; [by apply within_return_lines|intros total]. eapply within_bind; [apply within_set_total|intros ?]. by apply within_ret; intros ? [].
  - intros d Hd. unfold posting_return. unfold at_view in Hd. rewrite Hd. split; [done|]. apply elem_map. exists row. done.
Qed.
Lemma DeleteSalesReturn_keeps v u id now : accounted v -> kept v (DeleteSalesReturn u id now).
Proof.
  intros Hv. apply keeps_owner; [done|intros user]. apply keeps_then; [done|apply quiet_prepare|intros ?]. unfold deleteSalesReturnConn.
  eapply keeps_tells; [done|apply tells_return|intros r (row & Hrow & Hu & Hid)]. apply keeps_then; [done|apply quiet_for_date|intros ?].
  apply keeps_then; [done|apply quiet_collect|intros movs]. apply keeps_then; [done|apply quiet_remove|intros ?]. apply keeps_tx; [done|].
  eapply within_bind; [by apply within_purge_ref|intros ?]. rewrite Hu. set (v1 := v_set_moves _ _).
  apply within_wrapping, within_stmt. intros d z d' Hd [= _ <-]. unfold at_view in Hd.
  change (accounted (v_set_returns (List.filter (fun r => negb (String.eqb (re_id r) (re_id row))) (v_returns (view_of d)))
    (v_set_return_lines (List.filter (fun l => negb (of_return (re_id row) l)) (v_return_lines (view_of d))) (view_of d)))).
  rewrite Hd. destruct (accounted_cleared (re_id row) v Hv) as [Hm Ho Hi]. split; [exact Hm| |exact Hi].
  cbn. intros l Hl. specialize (Ho l Hl). cbn in Ho. apply filter_elem in Hl as [_ Hl]. apply negb_true_iff, String.eqb_neq in Hl.
  apply elem_map in Ho as (x & E & Hx). apply elem_map. exists x. split; [done|]. apply filter_elem. split; [done|]. apply negb_true_iff, String.eqb_neq. congruence.
Qed.
End calls.
