(* ===== verification/DocFrames.v ===== *)
(** * What the documents of one kind leave alone

    Purchases, stock transactions and sales returns each write their own tables
    and the movements that refer to them.  [blind fam F]: [F] does not look at
    what the documents of [fam] write; every operation of [fam] then keeps it
    ([outside], by [frame]).  So each invariant is kept by the operations of the
    other two kinds. *)
From S2P Require Import Prelude GoStrings AdminSession PgTx Triples Zoom Float64 Billing FinTables FinPosting FinLedger FinBooks Costing StockLedger Shop OrderStock.
From S2P Require Import Docs DocSteps Purchasing StockOps Returns DocView Receipts ReceiptSteps ReceiptCalls StockView StockCalls ReturnCalls.

Open Scope string_scope.
Open Scope Z_scope.

Inductive family := Purchases | StockTxns | SalesReturns.
Definition ref_types (fam : family) : list string :=
  match fam with Purchases => ["bill"] | StockTxns => kinds | SalesReturns => ["sales_return"] end.
(** a table of the family is another *)
Inductive edited : family -> view -> view -> Prop :=
  | ed_pos rows v : edited Purchases v (v_set_pos rows v)
  | ed_po_lines rows v : edited Purchases v (v_set_po_lines rows v)
  | ed_bills rows v : edited Purchases v (v_set_bills rows v)
  | ed_bill_lines rows v : edited Purchases v (v_set_bill_lines rows v)
  | ed_txns rows v : edited StockTxns v (v_set_txns rows v)
  | ed_txn_lines rows v : edited StockTxns v (v_set_txn_lines rows v)
  | ed_returns rows v : edited SalesReturns v (v_set_returns rows v)
  | ed_return_lines rows v : edited SalesReturns v (v_set_return_lines rows v).
Record blind (fam : family) (F : view -> Prop) : Prop := {
  bl_edit v v' : edited fam v v' -> F v -> F v';
  bl_ids v i rest : v_ids v = i :: rest -> F v -> F (v_set_ids rest v);
  bl_post v k t : k_ref_type k = Some t -> in_list t (ref_types fam) = true -> F v -> F (v_set_moves (v_moves v ++ [k]) v);
  bl_purge v t u : in_list t (ref_types fam) = true -> F v -> F (v_set_moves (List.filter (fun k => negb (has_ref t u k)) (v_moves v)) v)
}.

Section frames.
Context (F : view -> Prop).
Definition intx {A} (m : docs A) : Prop := forall c, within c (fun d => F (view_of d)) m (fun _ d => F (view_of d)).
Definition outside {A} (m : docs A) : Prop := triple false (fun d => F (view_of d)) m (fun _ d => F (view_of d)).
Lemma outside_keeps {A} v (m : docs A) : F v -> outside m -> keeps F v m.
Proof. intros Hv Hm. eapply t_conseq; [exact Hm|by intros d <-|done]. Qed.
Lemma keeps_weaken (G : view -> Prop) {A} v (m : docs A) : (forall v, G v -> F v) -> keeps G v m -> keeps F v m.
Proof. intros HG Hm. eapply t_conseq; [exact Hm|done|]. naive_solver. Qed.
Lemma keeps_and (G : view -> Prop) {A} v (m : docs A) : keeps G v m -> keeps F v m -> keeps (fun v => G v /\ F v) v m.
Proof. intros HG HF w Hw Hd. specialize (HG w Hw Hd). specialize (HF w Hw Hd). destruct (m w). naive_solver. Qed.
Lemma quiet_outside {A} (m : docs A) : quiet m -> outside m.
Proof. intros Hm w Hw Hd. specialize (Hm (view_of (p_db w)) w Hw eq_refl). destruct (m w) as [r w']. destruct Hm as [Hi Hv]. split; [done|]. by rewrite Hv. Qed.
Lemma outside_bind {A B} (m : docs A) (k : A -> docs B) : outside m -> (forall a, outside (k a)) -> outside (bind m k).
Proof. intros Hm Hk. eapply t_bind; [exact Hm|exact Hk|done]. Qed.
Lemma outside_attempt {A} (m : docs A) : outside m -> outside (attempt m).
Proof. intros Hm w Hw Hd. specialize (Hm w Hw Hd). unfold attempt. by destruct (m w). Qed.
Lemma outside_wrapping {A} wrap (m : docs A) : outside m -> outside (wrapping wrap m).
Proof. intros Hm. apply wrapping_triple. eapply t_conseq; [exact Hm|done|]. by intros [a|e]. Qed.
Lemma outside_owner {A} u (k : AuthUser -> docs A) : (forall user, outside (k user)) -> outside (as_owner u k).
Proof.
  intros Hk. unfold as_owner. destruct (getUser u); [|apply quiet_outside, quiet_doc_throw]. destruct (requireOwner u); [apply quiet_outside, quiet_doc_throw|apply Hk].
Qed.
Lemma outside_tx {A} wrap commit (body : docs A) : intx body -> outside (in_tx_errs wrap commit body).
Proof. intros Hb. eapply t_conseq; [apply within_in_tx, Hb|done|]. intros [a|e] d; [done|]. by intros [?|[_ ?]]. Qed.
Lemma outside_stmt {A} (f : docs_db -> result A * docs_db) : (forall d a d', f d = (Ok a, d') -> F (view_of d) -> F (view_of d')) -> outside (stmt f).
Proof.
  intros Hf. apply t_stmt. intros d Hd. unfold stmt_post. specialize (Hf d). destruct (f d) as [[a|e] d']; [|done]. specialize (Hf a d' eq_refl Hd). done.
Qed.
Lemma still_intx {A} (m : docs A) : still m -> intx m.
Proof. intros Hm c. apply within_from. intros d Hd. eapply within_conseq; [apply (Hm c (view_of d))|by intros ? <-|]. cbn. by intros ? d' ->. Qed.
Lemma intx_stmt {A} (f : docs_db -> result A * docs_db) : (forall d a d', f d = (Ok a, d') -> F (view_of d) -> F (view_of d')) -> intx (stmt f).
Proof. intros Hf c. apply within_stmt. intros d a d' Hd E. by eapply Hf. Qed.
Lemma intx_ret {A} (a : A) : intx (ret a).
Proof. intros c. by apply within_ret. Qed.
Lemma intx_throw {A} e : intx (throw (A:=A) e).
Proof. intros c. apply within_throw. Qed.
Lemma intx_bind {A B} (m : docs A) (k : A -> docs B) : intx m -> (forall a, intx (k a)) -> intx (bind m k).
Proof. intros Hm Hk c. eapply within_bind; [apply Hm|]. intros a. apply Hk. Qed.
Lemma intx_wrapping {A} wrap (m : docs A) : intx m -> intx (wrapping wrap m).
Proof. intros Hm c. apply within_wrapping, Hm. Qed.
(** *** Statements of a family *)
Context (fam : family) (Hb : blind fam F).
Lemma intx_insert {A} (row : string -> docs_db -> option A) add :
  (forall r d, edited fam (view_of d) (view_of (add r d)) /\ dc_ids (add r d) = dc_ids d) -> intx (insert_row row add).
Proof.
  intros Hadd. apply intx_stmt. intros d a d' E Hd. destruct (dc_ids d) as [|i rest] eqn:Ei; [done|]. destruct (row i d) as [r|]; [|done].
  injection E as _ <-. destruct (Hadd r d) as [He Hi]. change (F (v_set_ids rest (view_of (add r d)))). eapply (bl_ids _ _ Hb).
  - cbn. by rewrite Hi.
  - by eapply (bl_edit _ _ Hb).
Qed.
Lemma intx_replace {A} id (key : A -> string) edit rows set :
  (forall l d, edited fam (view_of d) (view_of (set l d))) -> intx (replace_at id key edit rows set).
Proof.
  intros Hset. apply intx_stmt. intros d a d' E Hd. destruct id as [u|]; [|done]. destruct (mapM _ _) as [l|]; [|done]. injection E as _ <-.
  by eapply (bl_edit _ _ Hb).
Qed.
Lemma exec_at_stmt id (f : string -> docs_db -> docs_db) : (forall u d, F (view_of d) -> F (view_of (f u d))) -> intx (exec_at id f) /\ outside (exec_at id f).
Proof. intros Hf. split; [apply intx_stmt|apply outside_stmt]; intros d a d' E Hd; (destruct id as [u|]; [|done]); injection E as _ <-; by apply Hf. Qed.
Lemma edit_once v v' : edited fam v v' -> F v -> F v'.
Proof. apply (bl_edit _ _ Hb). Qed.
Section laws.
Context `{HI : PgInput} `{HT : TimeZones} `{HN : Numeric} `{HO : OrderInput} `{HD : !DocLaws} `{HL : !PgInputLaws}.
Lemma intx_movement inp now t : stockNull (MI_RefType inp) = Some t -> in_list t (ref_types fam) = true -> intx (postMovement inp now).
Proof.
  intros Ht Hfam c. apply within_from. intros d0 Hd0. eapply (within_conseq c (at_view (view_of d0))); [|by intros d <-|intros ? ? H; exact H].
  destruct (uuid_in (MI_RefID inp)) as [u|] eqn:Eu.
  - eapply within_post; [by apply within_movement|]. intros res d (i & w & m & k & _ & _ & _ & _ & _ & Hk & _ & Hd).
    unfold at_view in Hd. rewrite Hd. by eapply (bl_post _ _ Hb).
  - (* the reference is blank or refused *)
    unfold postMovement. destruct (uuid_in (MI_CatalogItemID inp)) as [i|], (uuid_in (MI_WarehouseID inp)) as [w|];
      try (apply within_if; intros _; [apply within_throw|by apply within_stmt]).
    destruct (uuid_opt (nullUUID (MI_RefID inp))) as [r|]; [|apply within_if; intros _; [apply within_throw|by apply within_stmt]].
    eapply within_post; [apply (within_stock c _ _ (fun l a l' => exists k, k_ref_type k = Some t /\ l' = (l ++ [k])%list))|].
    + intros l. eapply within_post; [apply within_PostMovement|]. intros res d [_ (q & Hc & _)]. eexists. split; [|exact Hc]. exact Ht.
    + intros res d (l' & (k & Hk & ->) & Hd). unfold at_view in Hd. rewrite Hd. by eapply (bl_post _ _ Hb).
Qed.
Lemma intx_purge t id now : in_list t (ref_types fam) = true -> intx (purgeByRef t id now).
Proof.
  intros Ht c. apply within_from. intros d0 Hd0. eapply (within_conseq c (at_view (view_of d0))); [|by intros d <-|intros ? ? H; exact H].
  destruct (uuid_in id) as [u|] eqn:Eu; [|unfold purgeByRef; rewrite Eu; by apply within_wrapping, within_stmt].
  eapply within_post; [by apply within_purge_ref|]. intros a d Hd. unfold at_view in Hd. rewrite Hd. by apply (bl_purge _ _ Hb).
Qed.
End laws.
End frames.
Create HintDb frame.
(** programs that leave the documents alone *)
Create HintDb alone.
#[export] Hint Resolve quiet_ret quiet_doc_throw quiet_prepare quiet_setting quiet_catalog quiet_warehouse quiet_collect quiet_for_date quiet_remove
  quiet_purchase quiet_expense_period quiet_getBill quiet_getPO quiet_po_lines quiet_wrapping quiet_query quiet_load quiet_current quiet_writeoff
  quiet_revaluation quiet_transfer quiet_return quiet_order quiet_sold quiet_returned quiet_entry quiet_row_at : alone.
#[export] Hint Resolve still_ret still_throw still_catalog still_warehouse still_ensure still_sku still_number still_costing still_wrapping
  still_query still_items still_warehouses still_unregistered still_opening_context still_to_revalue still_return_warehouse : alone.
(** the tables of a statement, changed one after the other *)
Ltac edits Hb :=
  repeat match goal with
  | H : ?F (view_of ?d) |- ?F (view_of ?d) => exact H
  | |- ?F (view_of (?set ?x ?d)) => apply (edit_once F _ Hb (view_of d)); [constructor|]
  end.
(** by the structure of the program: what it does outside transactions, and inside *)
Ltac frame Hb := intros; repeat first
  [ solve [auto with frame]
  | solve [apply quiet_outside; auto with alone]
  | solve [apply still_intx; auto with alone]
  | match goal with
    | |- outside _ (as_owner _ _) => apply outside_owner; intros ?
    | |- outside _ (in_tx _ _) => apply outside_tx
    | |- outside _ (in_tx_errs _ _ _) => apply outside_tx
    | |- outside _ (wrapping _ _) => apply outside_wrapping
    | |- outside _ (internally _) => apply outside_wrapping
    | |- outside _ (attempt _) => apply outside_attempt
    | |- outside _ (bind _ _) => apply outside_bind; [|intros ?]
    | |- intx _ (ret _) => apply intx_ret
    | |- intx _ (throw _) => apply intx_throw
    | |- intx _ (bind _ _) => apply intx_bind; [|intros ?]
    | |- intx _ (wrapping _ _) => apply intx_wrapping
    | |- intx _ (internally _) => apply intx_wrapping
    | |- intx _ (insert_row _ _) => apply (intx_insert _ _ Hb); intros ? ?; split; [constructor|reflexivity]
    | |- intx _ (replace_at _ _ _ _ _) => apply (intx_replace _ _ Hb); intros ? ?; constructor
    | |- intx _ (postMovement _ _) => eapply (intx_movement _ _ Hb); reflexivity
    | |- intx _ (purgeByRef _ _ _) => apply (intx_purge _ _ Hb); reflexivity
    | |- intx _ (match ?x with _ => _ end) => destruct x
    | |- outside _ (match ?x with _ => _ end) => destruct x
    | |- intx _ (let _ := _ in _) => cbv zeta
    | |- outside _ (let _ := _ in _) => cbv zeta
    | |- intx _ ?m => unfold_head m; cbv zeta
    | |- outside _ ?m => unfold_head m; cbv zeta
    end ].

Section purchases.
Context `{HI : PgInput} `{HT : TimeZones} `{HN : Numeric} `{HO : OrderInput} `{HD : !DocLaws} `{HL : !PgInputLaws}.
Context (F : view -> Prop) (Hb : blind Purchases F).
Lemma tells_lines_quiet wh i ls : quiet (validate_bill_lines wh i ls).
Proof. eapply tells_quiet, tells_bill_lines. Qed.
#[local] Hint Resolve tells_lines_quiet : alone.
Lemma update_po_intx id which f : intx F (update_po id which f).
Proof. apply intx_stmt. intros d n d' E Hd. destruct id as [u|]; [|done]. injection E as _ <-. edits Hb. Qed.
Lemma update_po_outside id which f : outside F (update_po id which f).
Proof. apply outside_stmt. intros d n d' E Hd. destruct id as [u|]; [|done]. injection E as _ <-. edits Hb. Qed.
Lemma insert_po_lines_frame po ls : intx F (insert_po_lines po ls).
Proof. induction ls as [|l rest IH]; cbn [insert_po_lines]; frame Hb. Qed.
Lemma post_bill_lines_frame id bill ls now : intx F (post_bill_lines id bill ls now).
Proof. induction ls as [|l rest IH]; cbn [post_bill_lines]; frame Hb. Qed.
#[local] Hint Resolve update_po_intx update_po_outside insert_po_lines_frame post_bill_lines_frame : frame.
Lemma delete_po_frame id : outside F (exec_at id delete_po).
Proof. apply (exec_at_stmt F id delete_po). intros u d Hd. unfold delete_po. edits Hb. Qed.
Lemma clear_po_lines_frame id : intx F (exec_at id (fun u d => set_po_lines (List.filter (fun l => negb (String.eqb (pl_po l) u)) (dc_po_lines d)) d)).
Proof. apply exec_at_stmt. intros u d Hd. edits Hb. Qed.
Lemma clear_bill_lines_frame id : intx F (exec_at id delete_bill_lines).
Proof. apply exec_at_stmt. intros u d Hd. unfold delete_bill_lines. edits Hb. Qed.
Lemma delete_bill_frame id : intx F (exec_at id delete_bill).
Proof. apply exec_at_stmt. intros u d Hd. unfold delete_bill, delete_bill_lines. edits Hb. Qed.
Lemma revert_receipts_frame rs : intx F (revert_receipts rs).
Proof. induction rs as [|[l q] rest IH]; cbn [revert_receipts]; frame Hb. Qed.
#[local] Hint Resolve delete_po_frame clear_po_lines_frame clear_bill_lines_frame delete_bill_frame revert_receipts_frame : frame.
Lemma CreatePurchaseOrder_frame u p now : outside F (CreatePurchaseOrder u p now).
Proof. frame Hb. Qed.
Lemma UpdatePurchaseOrder_frame u id p now : outside F (UpdatePurchaseOrder u id p now).
Proof. frame Hb. Qed.
Lemma ClosePurchaseOrder_frame u id now : outside F (ClosePurchaseOrder u id now).
Proof. frame Hb. Qed.
Lemma CancelPurchaseOrder_frame u id now : outside F (CancelPurchaseOrder u id now).
Proof. frame Hb. Qed.
Lemma DeletePurchaseOrder_frame u id now : outside F (DeletePurchaseOrder u id now).
Proof. frame Hb. Qed.
Lemma CreateBill_frame u p now : outside F (CreateBill u p now).
Proof. frame Hb. Qed.
Lemma UpdateBill_frame u id p now : outside F (UpdateBill u id p now).
Proof. frame Hb. Qed.
Lemma DeleteBill_frame u id now : outside F (DeleteBill u id now).
Proof. frame Hb. Qed.
End purchases.

Section stocks.
Context `{HI : PgInput} `{HT : TimeZones} `{HN : Numeric} `{HO : OrderInput} `{HS : LayerScale} `{HD : !DocLaws} `{HL : !PgInputLaws}.
Context (F : view -> Prop) (Hb : blind StockTxns F).
Lemma clear_txn_lines_frame id : intx F (exec_at id delete_txn_lines).
Proof. apply exec_at_stmt. intros u d Hd. unfold delete_txn_lines. edits Hb. Qed.
Lemma delete_txn_frame id : intx F (exec_at id delete_txn).
Proof. apply exec_at_stmt. intros u d Hd. unfold delete_txn, delete_txn_lines. edits Hb. Qed.
Lemma purge_kind_frame kind id now : in_list kind kinds = true -> intx F (purgeByRef (txnKindRefType kind) id now).
Proof. intros Hk. by apply (intx_purge _ _ Hb). Qed.
Lemma revaluation_frame p txn delta now avg cost b :
  intx F (of_pair p (fun i w => insert_movement (revaluation_movement i w txn delta) now avg cost b)).
Proof.
  apply intx_wrapping. unfold on_pair. destruct (uuid_in _) as [i|]; [|by apply still_intx, still_stmt]. destruct (uuid_in _) as [w|]; [|by apply still_intx, still_stmt].
  intros c. apply within_view. intros v Hv. set (inp := revaluation_movement i w txn delta).
  eapply within_post; [apply (within_stock c v _ (fun l _ l' => exists k, k_ref_type k = Some TxnKindRevaluation /\ l' = (l ++ [k])%list))|].
  - intros l. eapply within_post; [apply (within_insert_movement c l inp)|]. intros id d (q & Hc & _). eexists. split; [|exact Hc]. done.
  - intros id d (l' & (k & Hk & ->) & Hd). unfold at_view in Hd. rewrite Hd. by eapply (bl_post _ _ Hb).
Qed.
Lemma layers_frame price p : intx F (of_pair p (reprice_layers price)).
Proof. apply still_intx, still_wrapping, still_on_pair. intros. apply still_layers. Qed.
Lemma balance_frame a t p : intx F (of_pair p (reprice_balance a t)).
Proof. apply still_intx, still_wrapping, still_on_pair. intros. apply still_balance. Qed.
#[local] Hint Resolve clear_txn_lines_frame delete_txn_frame purge_kind_frame revaluation_frame layers_frame balance_frame : frame.
Lemma create_entries_frame txn i es now : intx F (create_entries txn i es now).
Proof. revert i. induction es as [|e rest IH]; intros i; cbn [create_entries]; frame Hb. Qed.
Lemma repost_entries_frame txnID txn i es now : intx F (repost_entries txnID txn i es now).
Proof. revert i. induction es as [|e rest IH]; intros i; cbn [repost_entries]; frame Hb. Qed.
#[local] Hint Resolve create_entries_frame repost_entries_frame : frame.
Lemma repost_frame t id p now : intx F (repost t id p now).
Proof. unfold repost. cbv zeta. frame Hb. Qed.
#[local] Hint Resolve repost_frame : frame.
Lemma CreateAdjustment_frame u p now : outside F (CreateAdjustment u p now).
Proof. frame Hb. Qed.
Lemma CreateTransfer_frame u p now : outside F (CreateTransfer u p now).
Proof. frame Hb. Qed.
Lemma CreateOpeningBalance_frame u es now : outside F (CreateOpeningBalance u es now).
Proof. frame Hb. Qed.
Lemma CreateRevaluation_frame u p now : outside F (CreateRevaluation u p now).
Proof. frame Hb. Qed.
(** the document says which movements are its own: its kind has to be one *)
Lemma UpdateStockTransaction_frame v u id p now : stocked None v -> F v -> keeps F v (UpdateStockTransaction u id p now).
Proof.
  intros Hs Hv. apply keeps_owner; [done|intros user]. apply keeps_then; [done|apply quiet_prepare|intros ?].
  eapply keeps_tells; [done|apply tells_txn|intros t (row & Hrow & _ & _ & Hk)]. pose proof (booked_kind _ _ _ (s_booked _ _ Hs row Hrow ltac:(done))) as Hkind. rewrite <- Hk in Hkind.
  apply outside_keeps; [done|]. frame Hb.
Qed.
Lemma DeleteStockTransaction_frame v u id now : stocked None v -> F v -> keeps F v (DeleteStockTransaction u id now).
Proof.
  intros Hs Hv. apply keeps_owner; [done|intros user]. apply keeps_then; [done|apply quiet_prepare|intros ?].
  eapply keeps_tells; [done|apply tells_txn|intros t (row & Hrow & _ & _ & Hk)]. pose proof (booked_kind _ _ _ (s_booked _ _ Hs row Hrow ltac:(done))) as Hkind. rewrite <- Hk in Hkind.
  apply outside_keeps; [done|]. frame Hb.
Qed.
Lemma DeleteStocks_frame v u ids now : stocked None v -> F v -> keeps F v (BatchDeleteStockTransactions u ids now).
Proof.
  intros Hs Hv. apply keeps_owner; [done|intros user]. destruct (Nat.eqb _ _); [by apply keeps_from_throw|]. destruct (Nat.ltb _ _); [by apply keeps_from_throw|].
  apply (keeps_weaken F (fun v => stocked None v /\ F v)); [naive_solver|]. assert (stocked None v /\ F v) as Hv' by done. clear Hs Hv. revert v Hv'.
  induction ids as [|id rest IH]; intros v Hv; cbn [delete_each]; [apply keeps_quiet; [done|apply quiet_ret]|].
  apply keeps_seq.
  - apply keeps_attempted, keeps_and; [apply DeleteStockTransaction_keeps|apply DeleteStockTransaction_frame]; apply Hv.
  - intros r v1 Hv1. apply keeps_from_bind; [by apply IH|]. intros others. apply quiet_ret.
Qed.
End stocks.

Section returns.
Context `{HI : PgInput} `{HT : TimeZones} `{HN : Numeric} `{HO : OrderInput} `{HD : !DocLaws} `{HL : !PgInputLaws}.
Context (F : view -> Prop) (Hb : blind SalesReturns F).
Lemma insert_return_line_frame row : intx F (insert_return_line row).
Proof. apply intx_stmt. intros d a d' E Hd. destruct row as [r|]; [|done]. injection E as _ <-. edits Hb. Qed.
Lemma clear_return_lines_frame id : intx F (exec_at id delete_return_lines).
Proof. apply exec_at_stmt. intros u d Hd. unfold delete_return_lines. edits Hb. Qed.
Lemma delete_return_frame id : intx F (exec_at id delete_return).
Proof. apply exec_at_stmt. intros u d Hd. unfold delete_return, delete_return_lines. edits Hb. Qed.
#[local] Hint Resolve insert_return_line_frame clear_return_lines_frame delete_return_frame : frame.
Lemma post_return_lines_frame returnID txn sold ls total now : intx F (post_return_lines returnID txn sold ls total now).
Proof. revert total. induction ls as [|l rest IH]; intros total; cbn [post_return_lines]; frame Hb. Qed.
#[local] Hint Resolve post_return_lines_frame : frame.
Lemma createSalesReturn_frame a p now : outside F (createSalesReturnConn a p now).
Proof. frame Hb. Qed.
#[local] Hint Resolve createSalesReturn_frame : frame.
Lemma CreateSalesReturn_frame u p now : outside F (CreateSalesReturn u p now).
Proof. frame Hb. Qed.
Lemma return_orders_frame a os now : outside F (return_orders a os now).
Proof. induction os as [|o rest IH]; cbn [return_orders]; frame Hb. Qed.
#[local] Hint Resolve return_orders_frame : frame.
Lemma BatchCreateSalesReturns_frame u os now : outside F (BatchCreateSalesReturns u os now).
Proof. frame Hb. Qed.
Lemma UpdateSalesReturn_frame u id p now : outside F (UpdateSalesReturn u id p now).
Proof. frame Hb. Qed.
Lemma DeleteSalesReturn_frame u id now : outside F (DeleteSalesReturn u id now).
Proof. frame Hb. Qed.
End returns.

(** ** The invariants, each blind to the other two kinds *)
Lemma has_ref_family t u k : has_ref t u k = true -> k_ref_type k = Some t.
Proof. unfold has_ref. rewrite andb_true_iff. by intros [?%bool_decide_eq_true _]. Qed.
Lemma other_type fam t t' k : k_ref_type k = Some t -> in_list t (ref_types fam) = true -> in_list t' (ref_types fam) = false -> forall u, has_ref t' u k = false.
Proof. intros Hk Ht Ht' u. apply not_true_is_false. intros H%has_ref_family. congruence. Qed.
Lemma moves_posted fam t t' v k u :
  k_ref_type k = Some t -> in_list t (ref_types fam) = true -> in_list t' (ref_types fam) = false ->
  List.filter (has_ref t' u) (v_moves v ++ [k]) = List.filter (has_ref t' u) (v_moves v).
Proof. intros Hk Ht Ht'. rewrite List.filter_app. cbn. by rewrite (other_type fam t t' k Hk Ht Ht'), app_nil_r. Qed.
Lemma moves_purged fam t t' v u u' :
  in_list t (ref_types fam) = true -> in_list t' (ref_types fam) = false ->
  List.filter (has_ref t' u') (List.filter (fun k => negb (has_ref t u k)) (v_moves v)) = List.filter (has_ref t' u') (v_moves v).
Proof.
  intros Ht Ht'. apply filter_weaker. intros k Hk%has_ref_family. apply negb_true_iff, not_true_is_false. intros H%has_ref_family. congruence.
Qed.
Section blind.
Context `{HI : PgInput} `{HT : TimeZones} `{HN : Numeric} `{HO : OrderInput} `{HD : !DocLaws} `{HL : !PgInputLaws}.
Lemma in_kinds_other fam kind : fam <> StockTxns -> in_list kind kinds = true -> in_list kind (ref_types fam) = false.
Proof.
  intros Hf Hk. apply not_true_is_false. intros Ht. destruct fam; [|done|]; apply existsb_exists in Ht as (x & [<-|[]] & ->%String.eqb_eq); discriminate.
Qed.
Lemma tied_moves v l : (forall u, List.filter (has_ref "bill" u) l = List.filter (has_ref "bill" u) (v_moves v)) -> tied None v -> tied None (v_set_moves l v).
Proof. intros Hl []. split; auto. intros u. cbn. rewrite Hl. auto. Qed.
Lemma stocked_moves v l :
  (forall kind u, in_list kind kinds = true -> List.filter (has_ref kind u) l = List.filter (has_ref kind u) (v_moves v)) -> stocked None v -> stocked None (v_set_moves l v).
Proof.
  intros Hl Hv. split; [| |apply Hv..].
  - intros r Hr _. pose proof (s_booked _ _ Hv r Hr ltac:(done)) as Hb. pose proof (booked_kind _ _ _ Hb). unfold moved in *. cbn. by rewrite Hl.
  - intros kind u Hk Hno. unfold moved. cbn. rewrite Hl by done. by apply (s_gone _ _ Hv).
Qed.
Lemma accounted_moves v l :
  (forall u, List.filter (has_ref "sales_return" u) l = List.filter (has_ref "sales_return" u) (v_moves v)) -> accounted v -> accounted (v_set_moves l v).
Proof. intros Hl []. split; auto. intros u. cbn. rewrite Hl. auto. Qed.
Lemma fewer_ids v i rest (P : string -> Prop) : v_ids v = i :: rest -> NoDup (v_ids v) /\ Forall P (v_ids v) -> NoDup rest /\ Forall P rest.
Proof. intros -> [[_ ?]%NoDup_cons [_ ?]%Forall_cons]. done. Qed.
Lemma tied_blind fam : fam <> Purchases -> blind fam (tied None).
Proof.
  intros Hf. assert (in_list "bill" (ref_types fam) = false) as Hb by (by destruct fam). split.
  - intros v v' He. destruct He; try done; intros []; split; auto.
  - intros v i rest E []. split; auto. unfold fresh. by eapply fewer_ids.
  - intros v k t Hk Ht. apply tied_moves. intros u. by eapply moves_posted.
  - intros v t u Ht. apply tied_moves. intros u'. by eapply moves_purged.
Qed.
Lemma stocked_blind fam : fam <> StockTxns -> blind fam (stocked None).
Proof.
  intros Hf. split.
  - intros v v' He. destruct He; try done; intros []; split; auto.
  - intros v i rest E []. split; auto. unfold unused_ids. by eapply fewer_ids.
  - intros v k t Hk Ht. apply stocked_moves. intros kind u Hkind. eapply moves_posted; [done..|]. by apply in_kinds_other.
  - intros v t u Ht. apply stocked_moves. intros kind u' Hkind. eapply moves_purged; [done|]. by apply in_kinds_other.
Qed.
Lemma accounted_blind fam : fam <> SalesReturns -> blind fam accounted.
Proof.
  intros Hf. assert (in_list "sales_return" (ref_types fam) = false) as Hb by (by destruct fam). split.
  - intros v v' He. destruct He; try done; intros []; split; auto.
  - intros v i rest E [Hm Ho Hi]. split; auto. cbn. rewrite E in Hi. by apply Forall_cons in Hi as [_ Hi].
  - intros v k t Hk Ht. apply accounted_moves. intros u. by eapply moves_posted.
  - intros v t u Ht. apply accounted_moves. intros u'. by eapply moves_purged.
Qed.
End blind.
