(* ===== verification/Documents.v ===== *)
(** * Documents and the stock ledger, over any history

    Purchases, stock transactions and sales returns of one tenant, called in any
    order, any statements failing, and the rest of the program at work in
    between: the ledger's movements are what the documents say.  The three
    invariants (Receipts.v, StockView.v, ReturnCalls.v) hold together, because
    the operations of one kind leave the other two alone (DocFrames.v). *)
From S2P Require Import Prelude GoStrings AdminSession PgTx Triples Zoom Float64 Billing FinTables FinPosting FinLedger FinBooks FinRows Costing StockLedger Shop OrderStock.
From S2P Require Import Docs DocSteps Purchasing StockOps Returns DocView Receipts ReceiptSteps ReceiptCalls ReceiptHistory StockView StockCalls ReturnCalls DocFrames.

Open Scope string_scope.
Open Scope Z_scope.

Inductive document_call :=
  | OnPurchase (c : purchase_call)
  | CallCreateAdjustment (p : AdjustmentParams)
  | CallCreateTransfer (p : TransferParams)
  | CallCreateOpeningBalance (es : list OpeningEntry)
  | CallCreateRevaluation (p : RevaluationParams)
  | CallUpdateStock (id : string) (p : UpdateStockTransactionParams)
  | CallDeleteStock (id : string)
  | CallDeleteStocks (ids : list string)
  | CallCreateReturn (p : CreateSalesReturnParams)
  | CallCreateReturns (os : list CreateSalesReturnParams)
  | CallUpdateReturn (id : string) (p : UpdateSalesReturnParams)
  | CallDeleteReturn (id : string).
Record document_request := { dq_user : option AuthUser; dq_now : Z; dq_faults : list fault; dq_call : document_call }.
(** a request, or what the rest of the program does meanwhile *)
Inductive document_event := Request (r : document_request) | Meanwhile (d : docs_db).

Section history.
Context `{HI : PgInput} `{HT : TimeZones} `{HN : Numeric} `{HO : OrderInput} `{HS : LayerScale}.
Definition purchase_of (r : document_request) (c : purchase_call) : purchase_request :=
  {| pq_user := dq_user r; pq_now := dq_now r; pq_faults := dq_faults r; pq_call := c |}.
Definition run_document (r : document_request) : docs unit :=
  let u := dq_user r in
  let now := dq_now r in
  match dq_call r with
  | OnPurchase c => run_purchase (purchase_of r c)
  | CallCreateAdjustment p => CreateAdjustment u p now;! ret tt
  | CallCreateTransfer p => CreateTransfer u p now;! ret tt
  | CallCreateOpeningBalance es => CreateOpeningBalance u es now;! ret tt
  | CallCreateRevaluation p => CreateRevaluation u p now;! ret tt
  | CallUpdateStock id p => UpdateStockTransaction u id p now;! ret tt
  | CallDeleteStock id => DeleteStockTransaction u id now
  | CallDeleteStocks ids => BatchDeleteStockTransactions u ids now;! ret tt
  | CallCreateReturn p => CreateSalesReturn u p now;! ret tt
  | CallCreateReturns os => BatchCreateSalesReturns u os now;! ret tt
  | CallUpdateReturn id p => UpdateSalesReturn u id p now;! ret tt
  | CallDeleteReturn id => DeleteSalesReturn u id now
  end.
Definition document_step (e : document_event) (d : docs_db) : docs_db :=
  match e with
  | Request r => p_db (snd (run_document r (Build_pg d None (dq_faults r))))
  | Meanwhile d' => d'
  end.
Fixpoint documents (l : list document_event) (d : docs_db) : docs_db :=
  match l with [] => d | e :: rest => documents rest (document_step e d) end.

Context `{HD : !DocLaws}.
Definition document_types : list string := ["bill"; "sales_return"] ++ kinds.
Definition of_documents (k : core) : bool := match k_ref_type k with Some t => in_list t document_types | None => false end.
(** the rest of the program: its own tables, its own movements, and ids it draws *)
Record documents_untouched (d d' : docs_db) : Prop := {
  du_pos : dc_pos d' = dc_pos d; du_po_lines : dc_po_lines d' = dc_po_lines d; du_bills : dc_bills d' = dc_bills d;
  du_bill_lines : dc_bill_lines d' = dc_bill_lines d; du_txns : dc_txns d' = dc_txns d; du_txn_lines : dc_txn_lines d' = dc_txn_lines d;
  du_returns : dc_returns d' = dc_returns d; du_return_lines : dc_return_lines d' = dc_return_lines d;
  du_moves : List.filter of_documents (cores (sh_stock (dc_shop d'))) = List.filter of_documents (cores (sh_stock (dc_shop d)));
  du_ids : exists drawn, dc_ids d = (drawn ++ dc_ids d')%list
}.
(** bills name lines of their own order, as in ReceiptHistory.v *)
Definition regular_document (e : document_event) (d : docs_db) : Prop :=
  match e with
  | Request r => match dq_call r with OnPurchase c => regular_event (Serve (purchase_of r c)) d | _ => True end
  | Meanwhile d' => documents_untouched d d'
  end.
Fixpoint regular_documents (l : list document_event) (d : docs_db) : Prop :=
  match l with [] => True | e :: rest => regular_document e d /\ regular_documents rest (document_step e d) end.
(** a tenant before its first document *)
Record new_documents (d : docs_db) : Prop := {
  nd_pos : dc_pos d = []; nd_po_lines : dc_po_lines d = []; nd_bills : dc_bills d = []; nd_bill_lines : dc_bill_lines d = [];
  nd_txns : dc_txns d = []; nd_txn_lines : dc_txn_lines d = []; nd_returns : dc_returns d = []; nd_return_lines : dc_return_lines d = [];
  nd_moves : List.filter of_documents (cores (sh_stock (dc_shop d))) = [];
  nd_ids : NoDup (dc_ids d) /\ Forall (fun i => uuid_in i = Some i) (dc_ids d)
}.

(** ** The invariant *)
Record sound (v : view) : Prop := { so_tied : tied None v; so_stocked : stocked None v; so_accounted : accounted v }.
Context `{HL : !PgInputLaws}.
Lemma sound_keeps {A} v (m : docs A) : keeps (tied None) v m -> keeps (stocked None) v m -> keeps accounted v m -> keeps sound v m.
Proof.
  intros H1 H2 H3. eapply (keeps_weaken sound (fun v => accounted v /\ stocked None v /\ tied None v)); [by intros ? (? & ? & ?); split|].
  apply keeps_and; [exact H3|]. by apply keeps_and.
Qed.
Lemma document_moves t u l : in_list t document_types = true -> List.filter (has_ref t u) (List.filter of_documents l) = List.filter (has_ref t u) l.
Proof. intros Ht. apply filter_weaker. intros k Hk%has_ref_family. unfold of_documents. by rewrite Hk. Qed.
Lemma kind_document kind : in_list kind kinds = true -> in_list kind document_types = true.
Proof. unfold in_list, document_types. intros H. by rewrite existsb_app, H, orb_true_r. Qed.
Lemma new_sound d : new_documents d -> sound (view_of d).
Proof.
  intros [Hp Hl Hb Hbl Ht Htl Hr Hrl Hm [Hn Hc]].
  assert (forall t u, in_list t document_types = true -> List.filter (has_ref t u) (cores (sh_stock (dc_shop d))) = []) as Hno.
  { intros t u Hin. by rewrite <- document_moves, Hm. }
  split.
  - apply new_tied. split; try done. apply filter_none. intros k Hk. apply not_true_is_false. intros Hof.
    enough (k ∈ List.filter of_documents (cores (sh_stock (dc_shop d)))) as H by (rewrite Hm in H; by apply elem_of_nil in H).
    apply list_elem_of_In, List.filter_In. split; [by apply list_elem_of_In|]. unfold of_bills in Hof. unfold of_documents.
    by apply bool_decide_eq_true in Hof as ->.
  - split; cbn; unfold lines_in; cbn; rewrite ?Ht, ?Htl; try (by intros ? ?%elem_of_nil); [|split; constructor|].
    + intros kind u Hk _. unfold moved. cbn. by rewrite (Hno _ _ (kind_document _ Hk)).
    + split; [done|]. eapply Forall_impl; [exact Hc|]. cbn. intros i Hi. split; [done|]. unfold stock_taken. cbn. rewrite Ht, Htl. apply not_elem_of_nil.
  - split; cbn; rewrite ?Hrl; try (by intros ? ?%elem_of_nil); [|done]. intros u. by rewrite Hno.
Qed.
Lemma untouched_sound d d' : sound (view_of d) -> documents_untouched d d' -> sound (view_of d').
Proof.
  intros [Ht Hs Ha] [Ep El Eb Ebl Et Etl Er Erl Em [drawn Ei]].
  assert (forall t u, in_list t document_types = true ->
    List.filter (has_ref t u) (v_moves (view_of d')) = List.filter (has_ref t u) (v_moves (view_of d))) as Hm.
  { intros t u Hin. cbn. by rewrite <- (document_moves _ _ (cores (sh_stock (dc_shop d'))) Hin), Em, document_moves. }
  assert (view_of d' = v_set_ids (dc_ids d') (v_set_moves (v_moves (view_of d')) (view_of d))) as ->.
  { unfold view_of, v_set_ids, v_set_moves. cbn. by rewrite Ep, El, Eb, Ebl, Et, Etl, Er, Erl. }
  split.
  - destruct (tied_moves (view_of d) _ (fun u => Hm "bill" u eq_refl) Ht) as [? ? ? ? ? ? ? ? Hf]. split; auto. unfold fresh in *. cbn in *. rewrite Ei in Hf.
    destruct Hf as [(_ & _ & ?)%NoDup_app [_ ?]%Forall_app]. done.
  - destruct (stocked_moves (view_of d) _ (fun kind u Hk => Hm kind u (kind_document kind Hk)) Hs) as [? ? ? ? Hf]. split; auto. unfold unused_ids in *. cbn in *.
    rewrite Ei in Hf. destruct Hf as [(_ & _ & ?)%NoDup_app [_ ?]%Forall_app]. done.
  - destruct (accounted_moves (view_of d) _ (fun u => Hm "sales_return" u eq_refl) Ha) as [? ? Hf]. split; auto. cbn in *. rewrite Ei in Hf.
    by apply Forall_app in Hf as [_ ?].
Qed.
Lemma purchase_frame F v r : blind Purchases F -> F v -> keeps F v (run_purchase r).
Proof.
  intros Hb Hv. unfold run_purchase. destruct (pq_call r); try (apply keeps_from_bind; [|intros ?; apply quiet_ret]); apply outside_keeps; try exact Hv;
    [by apply CreatePurchaseOrder_frame|by apply UpdatePurchaseOrder_frame|by apply ClosePurchaseOrder_frame|by apply CancelPurchaseOrder_frame|
     by apply DeletePurchaseOrder_frame|by apply CreateBill_frame|by apply UpdateBill_frame|by apply DeleteBill_frame].
Qed.
(** a stock transaction, or a return, next to the other two invariants *)
Lemma sound_stock {A} v (m : docs A) :
  sound v -> keeps (stocked None) v m -> (forall F, blind StockTxns F -> F v -> keeps F v m) -> keeps sound v m.
Proof. intros [Ht Hs Ha] Hm HF. apply sound_keeps; [apply HF; [by apply tied_blind|done]|exact Hm|apply HF; [by apply accounted_blind|done]]. Qed.
Lemma sound_return {A} v (m : docs A) :
  sound v -> keeps accounted v m -> (forall F, blind SalesReturns F -> F v -> keeps F v m) -> keeps sound v m.
Proof. intros [Ht Hs Ha] Hm HF. apply sound_keeps; [apply HF; [by apply tied_blind|done]|apply HF; [by apply stocked_blind|done]|exact Hm]. Qed.
Lemma run_document_keeps r d : sound (view_of d) -> regular_document (Request r) d -> keeps sound (view_of d) (run_document r).
Proof.
  intros Hv He. pose proof (so_stocked _ Hv). pose proof (so_accounted _ Hv). unfold run_document. cbn in He.
  destruct (dq_call r) as [c|p|p|es|p|id p|id|ids|p|os|id p|id]; try (apply keeps_from_bind; [|intros ?; apply quiet_ret]).
  - apply sound_keeps; [by apply run_purchase_keeps; [apply Hv|]|apply purchase_frame; [by apply stocked_blind|done]|apply purchase_frame; [by apply accounted_blind|done]].
  - apply sound_stock; [done|by apply CreateAdjustment_keeps|intros F Hb HF; apply outside_keeps; [done|by apply CreateAdjustment_frame]].
  - apply sound_stock; [done|by apply CreateTransfer_keeps|intros F Hb HF; apply outside_keeps; [done|by apply CreateTransfer_frame]].
  - apply sound_stock; [done|by apply CreateOpeningBalance_keeps|intros F Hb HF; apply outside_keeps; [done|by apply CreateOpeningBalance_frame]].
  - apply sound_stock; [done|by apply CreateRevaluation_keeps|intros F Hb HF; apply outside_keeps; [done|by apply CreateRevaluation_frame]].
  - apply sound_stock; [done|by apply UpdateStockTransaction_keeps|intros F Hb HF; by apply UpdateStockTransaction_frame].
  - apply sound_stock; [done|by apply DeleteStockTransaction_keeps|intros F Hb HF; by apply DeleteStockTransaction_frame].
  - apply sound_stock; [done|by apply DeleteStocks_keeps|intros F Hb HF; by apply DeleteStocks_frame].
  - apply sound_return; [done|by apply CreateSalesReturn_keeps|intros F Hb HF; apply outside_keeps; [done|by apply CreateSalesReturn_frame]].
  - apply sound_return; [done|by apply BatchCreateSalesReturns_keeps|intros F Hb HF; apply outside_keeps; [done|by apply BatchCreateSalesReturns_frame]].
  - apply sound_return; [done|by apply UpdateSalesReturn_keeps|intros F Hb HF; apply outside_keeps; [done|by apply UpdateSalesReturn_frame]].
  - apply sound_return; [done|by apply DeleteSalesReturn_keeps|intros F Hb HF; apply outside_keeps; [done|by apply DeleteSalesReturn_frame]].
Qed.
Lemma documents_sound l d : sound (view_of d) -> regular_documents l d -> sound (view_of (documents l d)).
Proof.
  revert d. induction l as [|e l IH]; intros d Hv; [done|]. intros [He Hl]. apply IH; [|exact Hl].
  destruct e as [r|s]; [|by apply (untouched_sound d)].
  assert (idle false (Build_pg d None (dq_faults r))) as Hi by (split; [reflexivity|discriminate]).
  pose proof (run_document_keeps r d Hv He _ Hi eq_refl) as H. cbn. destruct (run_document r _) as [x w]. apply H.
Qed.

(** ** What the ledger says *)
Definition says (m : movement_row) := (Some (mv_id m), mv_item m, mv_wh m, mv_type m, mv_dir m, mv_qty m).
(** what was posted for the document [u] of a kind *)
Definition posted (t u : string) (d : docs_db) := map says (List.filter (by_ref t u) (movements (sh_stock (dc_shop d)))).
Lemma posted_moves t u d : map core_line (List.filter (has_ref t u) (v_moves (view_of d))) = posted t u d.
Proof. unfold posted. cbn. unfold cores. by rewrite (filter_map_comm core_of (has_ref t u)), map_map. Qed.
(** C36. Stock transactions are what they say.  After any history of purchases,
    stock transactions and sales returns, any statements failing before or after
    their effect and the rest of the program at work in between, the movements
    posted for a stock transaction are exactly what its header and lines say
    ([booked]): one of the signed quantity for an adjustment, out of one warehouse
    and into the other for a transfer, line by line for an opening balance, none
    in quantity for a revaluation; and nothing is posted for a transaction of a
    kind that is not there. *)
Theorem stock_documents_exact l d :
  new_documents d -> regular_documents l d ->
  let d' := documents l d in
  (forall t, t ∈ dc_txns d' -> booked t (lines_of_txn (sx_id t) d') (posted (sx_kind t) (sx_id t) d')) /\
  (forall kind u, in_list kind kinds = true -> (forall t, t ∈ dc_txns d' -> sx_id t = u -> sx_kind t <> kind) -> posted kind u d' = []).
Proof.
  intros Hd Hl d'. destruct (documents_sound l d (new_sound d Hd) Hl) as [_ Hs _]. fold d' in Hs. split.
  - intros t Ht. rewrite <- posted_moves. by apply (s_booked _ _ Hs).
  - intros kind u Hk Hno. rewrite <- posted_moves. by apply (s_gone _ _ Hs).
Qed.
(** C37. Documents and ledger agree.  After any such history the movements posted
    for a bill are its lines, and those of a sales return its lines, one by one
    and in order, with each line's movement, item, warehouse and quantity (none
    when the document is gone); and every movement in the ledger whose type is a
    document's names a document that is there. *)
Theorem documents_exact l d :
  new_documents d -> regular_documents l d ->
  let d' := documents l d in
  (forall u, posted "bill" u d' = map bill_move (lines_of_bill u d') /\ posted "sales_return" u d' = map return_move (lines_of_return u d')) /\
  (forall m t u, m ∈ movements (sh_stock (dc_shop d')) -> mv_ref_type m = Some t -> mv_ref_id m = Some u -> in_list t document_types = true ->
    (t = "bill" /\ u ∈ map bi_id (dc_bills d')) \/ (t = "sales_return" /\ u ∈ map re_id (dc_returns d')) \/
    exists s, s ∈ dc_txns d' /\ sx_kind s = t /\ sx_id s = u).
Proof.
  intros Hd Hl d'. destruct (documents_sound l d (new_sound d Hd) Hl) as [Ht Hs Ha]. fold d' in Ht, Hs, Ha.
  assert (forall u, posted "bill" u d' = map bill_move (lines_of_bill u d')) as Hbill by (intros u; rewrite <- posted_moves; apply (t_moves _ _ Ht)).
  assert (forall u, posted "sales_return" u d' = map return_move (lines_of_return u d')) as Hret by (intros u; rewrite <- posted_moves; apply (ac_moves _ Ha)).
  split; [done|]. intros m t u Hm Et Eu Hdoc.
  assert (says m ∈ posted t u d') as Hin.
  { apply elem_map. exists m. split; [done|]. apply list_elem_of_In, List.filter_In. split; [by apply list_elem_of_In|].
    unfold by_ref. by rewrite Et, Eu, !bool_decide_true. }
  unfold document_types, in_list in Hdoc. rewrite existsb_app in Hdoc. apply orb_true_iff in Hdoc as [Hdoc|Hk].
  - apply existsb_exists in Hdoc as (x & [<-|[<-|[]]] & ->%String.eqb_eq).
    + left. split; [done|]. rewrite Hbill in Hin. apply elem_map in Hin as (x & _ & [Hx Hu%String.eqb_eq]%filter_elem). rewrite <- Hu. by apply (t_owner _ _ Ht).
    + right. left. split; [done|]. rewrite Hret in Hin. apply elem_map in Hin as (x & _ & [Hx Hu%String.eqb_eq]%filter_elem). rewrite <- Hu. by apply (ac_owner _ Ha).
  - right. right. destruct (decide (Exists (fun s => sx_kind s = t /\ sx_id s = u) (dc_txns d'))) as [He|Hno]; [by apply Exists_exists in He|].
    assert (posted t u d' = []) as Hnone; [|rewrite Hnone in Hin; by apply elem_of_nil in Hin].
    rewrite <- posted_moves. apply (s_gone _ _ Hs t u Hk). intros s Hx E Ek. apply Hno, Exists_exists. eauto.
Qed.
End history.
