(* ===== verification/DocumentSample.v ===== *)
(** * A sample tenant's documents

    A shop with two warehouses and one order sold, a day of stock transactions, a
    bill and a sales return, with failing statements, and the witnesses of
    Documents.v's theorems. *)
From S2P Require Import Prelude GoStrings AdminSession PgTx Triples Zoom Float64 Billing FinTables FinTxns FinPosting FinLedger FinBooks FinCalls FinSample.
From S2P Require Import Costing StockLedger Shop OrderStock Docs DocSteps Purchasing StockOps Returns DocView Receipts ReceiptSteps ReceiptCalls ReceiptHistory.
From S2P Require Import DocSample StockView StockCalls ReturnCalls DocFrames Documents.

Open Scope string_scope.
Open Scope Z_scope.

#[export] Instance doc_layers : LayerScale := {| column_scaled := fun c r => column (round4 (fmul c r)) |}.

(** ** The tenant *)
Definition sold_order : order_row := {|
  or_id := "e1"; or_conversation := None; or_contact := None; or_items := []; or_notes := ""; or_status := "completed"; or_tracking := ""; or_courier := "";
  or_payment_txn := None; or_payment_status := ""; or_proof_message := None; or_subtotal := 0; or_shipping := 0; or_total := 0; or_wallet := None;
  or_stock_applied := true; or_created_by := ""; or_deleted := false |}.
(** 3 grams of tea left with the order, at 2 each *)
Definition sale_of (id : string) : movement_row := {|
  mv_id := id; mv_item := "c1"; mv_wh := "h1"; mv_type := MovementSaleIssue; mv_dir := dirOut; mv_qty := grams 3; mv_unit := of_Z 2; mv_total := grams 6;
  mv_after := fzero; mv_avg := of_Z 2; mv_ref_type := Some "order"; mv_ref_id := Some "e1"; mv_created := 0 |}.
Definition two_warehouses : docs_db :=
  let s := dc_shop new_docs in
  set_shop {| sh_fin := sh_fin s; sh_stock := sh_stock s; sh_orders := [sold_order]; sh_catalog := sh_catalog s; sh_ptypes := []; sh_prices := ∅;
              sh_contacts := []; sh_warehouses := [{| wh_id := "h1"; wh_name := "Toko"; wh_default := true; wh_deleted := false |};
                                                   {| wh_id := "h2"; wh_name := "Gudang"; wh_default := false; wh_deleted := false |}];
              sh_bundles := []; sh_flags := ∅; sh_setup := true; sh_post_expense := false; sh_marker_column := true; sh_ids := [] |} new_docs.
(** the sale, by the rest of the program *)
Definition sell (d : docs_db) : docs_db :=
  set_shop (set_stock (set_movements (movements (sh_stock (dc_shop d)) ++ [sale_of "s1"])%list (sh_stock (dc_shop d))) (dc_shop d)) d.
Definition asked_by_owner (faults : list fault) (c : document_call) : document_event :=
  Request {| dq_user := Some boss; dq_now := sample_now; dq_faults := faults; dq_call := c |}.
Definition taken_back (qty : Z) : CreateSalesReturnParams :=
  {| RP_OrderID := "e1"; RP_Note := ""; RP_Lines := [{| RI_CatalogItemID := "c1"; RI_WarehouseID := "h1"; RI_Qty := grams qty |}] |}.
Definition adjusted (qty : Z) : document_call :=
  CallCreateAdjustment {| AP_CatalogItemID := "c1"; AP_WarehouseID := "h1"; AP_Qty := grams qty; AP_UnitCost := of_Z 2; AP_BatchNo := "";
                          AP_ExpiryDate := None; AP_Note := "hitung ulang" |}.
Definition edited_transfer (qty : Z) : UpdateStockTransactionParams :=
  {| UP_CatalogItemID := ""; UP_WarehouseID := ""; UP_Qty := fzero; UP_UnitCost := fzero; UP_BatchNo := ""; UP_ExpiryDate := None; UP_Note := "";
     UP_FromWarehouseID := ""; UP_ToWarehouseID := ""; UP_TransferQty := grams qty; UP_NewUnitCost := fzero; UP_Entries := [] |}.
(** 10 grams of tea to begin with; 4 moved to the second warehouse; 5 billed *)
Definition morning : list document_event := [
  asked_by_owner [] (CallCreateOpeningBalance [{| OE_CatalogItemID := "c1"; OE_WarehouseID := "h1"; OE_Qty := grams 10; OE_UnitCost := of_Z 2;
                                                  OE_BatchNo := ""; OE_ExpiryDate := None |}]);
  asked_by_owner [] (CallCreateTransfer {| TP_CatalogItemID := "c1"; TP_FromWarehouseID := "h1"; TP_ToWarehouseID := "h2"; TP_Qty := grams 4; TP_Note := "" |});
  asked_by_owner [] (OnPurchase (CallCreateBill (billing "" [bill_line "c1" "" 5])))
].
(** a return of 2 of the 3 sold, another of 2 refused; one gram found, and one found
    again by a request whose transaction fails; the second warehouse revalued; the
    transfer corrected to 3; the bill taken back *)
Definition afternoon : list document_event := [
  asked_by_owner [] (CallCreateReturns [taken_back 2; taken_back 2]);
  asked_by_owner [] (adjusted 1);
  asked_by_owner (repeat Fine 10 ++ [FailAfter])%list (adjusted 1);
  asked_by_owner [] (CallCreateRevaluation {| VP_CatalogItemID := "c1"; VP_WarehouseID := "h2"; VP_NewUnitCost := of_Z 3; VP_Note := "" |});
  asked_by_owner [] (CallUpdateStock "p3" (edited_transfer 3));
  asked_by_owner [] (OnPurchase (CallDeleteBill "p4"))
].
Definition noon : docs_db := documents morning two_warehouses.
Definition document_day : list document_event := (morning ++ Meanwhile (sell noon) :: afternoon)%list.
Abbreviation closing := (documents document_day two_warehouses).
Definition ledger (d : docs_db) := map (fun m => (mv_id m, mv_wh m, mv_type m, mv_ref_type m, mv_ref_id m)) (movements (sh_stock (dc_shop d))).

(** ** [regular_documents] by computation *)
Definition regular_documentb (e : document_event) (d : docs_db) : bool :=
  match e with Request r => match dq_call r with OnPurchase c => regular_eventb (Serve (purchase_of r c)) d | _ => true end | Meanwhile _ => false end.
Fixpoint regular_documentsb (l : list document_event) (d : docs_db) : bool :=
  match l with [] => true | e :: rest => regular_documentb e d && regular_documentsb rest (document_step e d) end.
Lemma regular_documents_true l d : regular_documentsb l d = true -> regular_documents l d.
Proof.
  revert d. induction l as [|e l IH]; intros d; [done|]. cbn [regular_documentsb regular_documents]. intros [He Hl]%andb_true_iff. split; [|by apply IH].
  clear Hl IH. destruct e as [r|s]; [|done]. unfold regular_documentb, regular_document in *. destruct (dq_call r) as [c| | | | | | | | | | |]; try done.
  enough (regular_purchases [Serve (purchase_of r c)] d) as H by apply H. apply regular_purchases_true. cbn [regular_purchasesb]. by rewrite He.
Qed.
Lemma regular_documents_app l l' d : regular_documents l d -> regular_documents l' (documents l d) -> regular_documents (l ++ l') d.
Proof. revert d. induction l as [|e l IH]; intros d; [done|]. cbn. intros [He Hl] Hl'. split; [done|]. by apply IH. Qed.
Lemma sell_untouched d : documents_untouched d (sell d).
Proof. split; try reflexivity; [|by exists []]. cbn. unfold cores. cbn. by rewrite map_app, List.filter_app, app_nil_r. Qed.
Lemma two_warehouses_new : new_documents two_warehouses.
Proof. split; try reflexivity. split; [|repeat constructor]. apply (bool_decide_unpack _). vm_compute. exact I. Qed.
Lemma document_day_regular : regular_documents document_day two_warehouses.
Proof.
  apply regular_documents_app; [apply regular_documents_true; vm_compute; reflexivity|]. split; [apply sell_untouched|].
  apply regular_documents_true. vm_compute. reflexivity.
Qed.
Definition no_txn : stock_txn_row := {|
  sx_id := ""; sx_no := ""; sx_kind := ""; sx_date := 0; sx_note := None; sx_item := None; sx_wh := None; sx_from := None; sx_to := None; sx_qty := None;
  sx_cost := None; sx_new_cost := None |}.
Definition closing_transfer : stock_txn_row := nth 1 (dc_txns closing) no_txn.

Lemma stock_documents_exact_witness :
  sx_qty closing_transfer = Some 30 /\
  booked closing_transfer [] [(Some "m8", "c1", "h1", MovementTransferOut, dirOut, grams 3); (Some "m9", "c1", "h2", MovementTransferIn, dirIn, grams 3)] /\
  posted TxnKindAdjustment "p9" closing = [].
Proof.
  destruct (stock_documents_exact document_day two_warehouses two_warehouses_new document_day_regular) as [Hb Hn].
  assert (closing_transfer ∈ dc_txns closing) as Hin by (apply list_elem_of_In, nth_In; vm_compute; lia).
  split_and!; [vm_compute; reflexivity| |apply Hn; [vm_compute; reflexivity|]].
  - specialize (Hb _ Hin).
    assert (lines_of_txn (sx_id closing_transfer) closing = []) as El by (vm_compute; reflexivity).
    assert (posted (sx_kind closing_transfer) (sx_id closing_transfer) closing =
      [(Some "m8", "c1", "h1", MovementTransferOut, dirOut, grams 3); (Some "m9", "c1", "h2", MovementTransferIn, dirIn, grams 3)]) as Em by (vm_compute; reflexivity).
    by rewrite El, Em in Hb.
  - assert (forallb (fun t => negb (String.eqb (sx_id t) "p9")) (dc_txns closing) = true) as Hall by (vm_compute; reflexivity).
    rewrite forallb_forall in Hall. intros t Ht%list_elem_of_In E. apply Hall in Ht. by rewrite E in Ht.
Defined.
Lemma documents_exact_witness :
  posted "sales_return" "p6" closing = [(Some "m5", "c1", "h1", MovementReturnIn, dirIn, grams 2)] /\ posted "bill" "p4" closing = [] /\
  posted "bill" "p4" noon = [(Some "m4", "c1", "h1", MovementPurchaseReceive, dirIn, grams 5)].
Proof.
  destruct (documents_exact document_day two_warehouses two_warehouses_new document_day_regular) as [H _].
  destruct (H "p6") as [_ H6]. destruct (H "p4") as [H4 _].
  split_and!; [rewrite H6; vm_compute; reflexivity|rewrite H4; vm_compute; reflexivity|vm_compute; reflexivity].
Defined.

(** ** Outside the rules *)
(** of 3 sold, one return takes back 4: each of its lines is within what is left *)
Lemma two_lines_return_more_than_sold :
  let both := {| RP_OrderID := "e1"; RP_Note := "";
                 RP_Lines := [{| RI_CatalogItemID := "c1"; RI_WarehouseID := "h1"; RI_Qty := grams 2 |};
                              {| RI_CatalogItemID := "c1"; RI_WarehouseID := "h1"; RI_Qty := grams 2 |}] |} in
  map rl_qty (dc_return_lines (documents [asked_by_owner [] (CallCreateReturn both)] (sell two_warehouses))) = [20; 20] /\
  dc_returns (documents [asked_by_owner [] (CallCreateReturn (taken_back 4))] (sell two_warehouses)) = [].
Proof. split; vm_compute; reflexivity. Qed.
