(* ===== verification/ChatTables.v ===== *)
(** * The tables of the chat

    Every tenant's channels, contacts, conversations, messages, workflow rules,
    leads and summaries; the system tables that say which tenant a WhatsApp
    number belongs to; what the process and Redis remember; the jobs that were
    published.  One world ([inbound_db]) under PgTx.v's sessions: a statement, a
    publication and a Redis command each may fail before or after its effect.
    Each primary key and unique constraint is checked where a row is inserted.
    What Postgres accepts as text, UUID and JSON is the class [PgText]; counters
    stay within INTEGER. *)
From S2P Require Import Prelude GoStrings PgTx Triples Zoom Pii Billing.

Open Scope string_scope.
Open Scope Z_scope.

Class PgText := {
  pg_text : option Z -> string -> bool;   (** a valid text, of at most so many characters *)
  pg_uuid : string -> option string;      (** the canonical text of a UUID *)
  pg_jsonb : string -> bool               (** a document that [jsonb] accepts *)
}.

(** ** Rows *)
Record channel_row := { wc_id : string; wc_phone : string; wc_meta : option string; wc_secret : option string }.
Record contact_row := {
  ct_id : string; ct_phone : option string; ct_phone_enc : option string; ct_phone_idx : option string;
  ct_name : option string; ct_name_enc : option string; ct_deleted : bool
}.
Record convo_row := {
  cv_id : string; cv_channel : string; cv_contact : string; cv_status : string; cv_ai : bool; cv_unread : Z;
  cv_preview : option string; cv_last : option Z; cv_reason : option string
}.
Record message_row := {
  ms_id : string; ms_convo : string; ms_external : option string; ms_direction : string; ms_author : string;
  ms_type : string; ms_body : string; ms_metadata : string; ms_status : string; ms_created : Z
}.
Record rule_row := {
  ru_id : string; ru_name : string; ru_trigger : string; ru_value : string; ru_action : string; ru_payload : string;
  ru_branch : option string; ru_active : bool; ru_priority : Z; ru_created : Z; ru_deleted : bool
}.
Record lead_row := {
  ld_id : string; ld_contact : string; ld_convo : string; ld_phone : string; ld_phone_enc : option string;
  ld_phone_idx : option string; ld_name : option string; ld_name_enc : option string; ld_name_idx : option string;
  ld_status : string; ld_metadata : string; ld_created : Z; ld_deleted : bool
}.
Record chat_tables := {
  channels : list channel_row; contacts : list contact_row; convos : list convo_row; messages : list message_row;
  rules : list rule_row; leads : list lead_row;
  summaries : list (string * Z);   (** conversation, when its summary was written *)
  pii_columns : bool;              (** the encrypted columns of contact and lead exist *)
  chat_ids : list string           (** what [gen_random_uuid] draws *)
}.
(** [whatsapp_inbound_map], by Meta's number *)
Record inbound_row := { in_schema : string; in_channel : string; in_display : string }.
(** a row of [tenant_company] with its tenant's [deleted_at IS NULL] *)
Record company_row := { co_tenant : string; co_schema : string; co_live : bool }.
Inductive job :=
  | InboundAI (inline : bool) (schema convo message type : string)
  | PaymentProof (schema tenant convo contact message inbound : string)
  | MediaPersist (schema message type : string)
  | Summarize (schema convo : string)
  | InboxActivity (tenant : string).
Record inbound_db := {
  in_map : gmap string inbound_row; in_companies : list company_row; in_chats : gmap string chat_tables;
  in_billing : billing_db;
  contact_cache : gmap string bool; lead_cache : gmap string bool;   (** the process' memory of which columns exist *)
  in_inflight : gmap string Z;                                       (** Redis: conversations being summarized, until when *)
  in_random : list (result (list Z));                                (** what the coming reads of [rand.Reader] give *)
  in_jobs : list job
}.

Definition set_channels l t : chat_tables := {| channels := l; contacts := contacts t; convos := convos t; messages := messages t; rules := rules t; leads := leads t; summaries := summaries t; pii_columns := pii_columns t; chat_ids := chat_ids t |}.
Definition set_contacts l t : chat_tables := {| channels := channels t; contacts := l; convos := convos t; messages := messages t; rules := rules t; leads := leads t; summaries := summaries t; pii_columns := pii_columns t; chat_ids := chat_ids t |}.
Definition set_convos l t : chat_tables := {| channels := channels t; contacts := contacts t; convos := l; messages := messages t; rules := rules t; leads := leads t; summaries := summaries t; pii_columns := pii_columns t; chat_ids := chat_ids t |}.
Definition set_messages l t : chat_tables := {| channels := channels t; contacts := contacts t; convos := convos t; messages := l; rules := rules t; leads := leads t; summaries := summaries t; pii_columns := pii_columns t; chat_ids := chat_ids t |}.
Definition set_rules l t : chat_tables := {| channels := channels t; contacts := contacts t; convos := convos t; messages := messages t; rules := l; leads := leads t; summaries := summaries t; pii_columns := pii_columns t; chat_ids := chat_ids t |}.
Definition set_leads l t : chat_tables := {| channels := channels t; contacts := contacts t; convos := convos t; messages := messages t; rules := rules t; leads := l; summaries := summaries t; pii_columns := pii_columns t; chat_ids := chat_ids t |}.
Definition set_pii t : chat_tables := {| channels := channels t; contacts := contacts t; convos := convos t; messages := messages t; rules := rules t; leads := leads t; summaries := summaries t; pii_columns := true; chat_ids := chat_ids t |}.
Definition set_chat_ids l t : chat_tables := {| channels := channels t; contacts := contacts t; convos := convos t; messages := messages t; rules := rules t; leads := leads t; summaries := summaries t; pii_columns := pii_columns t; chat_ids := l |}.

Definition set_map m d : inbound_db := {| in_map := m; in_companies := in_companies d; in_chats := in_chats d; in_billing := in_billing d; contact_cache := contact_cache d; lead_cache := lead_cache d; in_inflight := in_inflight d; in_random := in_random d; in_jobs := in_jobs d |}.
Definition set_chats m d : inbound_db := {| in_map := in_map d; in_companies := in_companies d; in_chats := m; in_billing := in_billing d; contact_cache := contact_cache d; lead_cache := lead_cache d; in_inflight := in_inflight d; in_random := in_random d; in_jobs := in_jobs d |}.
Definition put_billing b d : inbound_db := {| in_map := in_map d; in_companies := in_companies d; in_chats := in_chats d; in_billing := b; contact_cache := contact_cache d; lead_cache := lead_cache d; in_inflight := in_inflight d; in_random := in_random d; in_jobs := in_jobs d |}.
Definition set_caches c l d : inbound_db := {| in_map := in_map d; in_companies := in_companies d; in_chats := in_chats d; in_billing := in_billing d; contact_cache := c; lead_cache := l; in_inflight := in_inflight d; in_random := in_random d; in_jobs := in_jobs d |}.
Definition set_inflight m d : inbound_db := {| in_map := in_map d; in_companies := in_companies d; in_chats := in_chats d; in_billing := in_billing d; contact_cache := contact_cache d; lead_cache := lead_cache d; in_inflight := m; in_random := in_random d; in_jobs := in_jobs d |}.
Definition set_random l d : inbound_db := {| in_map := in_map d; in_companies := in_companies d; in_chats := in_chats d; in_billing := in_billing d; contact_cache := contact_cache d; lead_cache := lead_cache d; in_inflight := in_inflight d; in_random := l; in_jobs := in_jobs d |}.
Definition set_jobs l d : inbound_db := {| in_map := in_map d; in_companies := in_companies d; in_chats := in_chats d; in_billing := in_billing d; contact_cache := contact_cache d; lead_cache := lead_cache d; in_inflight := in_inflight d; in_random := in_random d; in_jobs := l |}.

#[export] Instance billing_lens : Lens in_billing put_billing.
Proof. split; [done|]. by intros []. Qed.

Abbreviation inbound A := (prog (pg inbound_db) A).
(** billing's calls, on its part of the tables *)
Definition billed {A} (m : prog (pg billing_db) A) : inbound A := zoom in_billing put_billing m.

(** ** Statements *)
(** one statement on a tenant's tables *)
Definition on_chat {A} (schema : string) (f : chat_tables -> result A * chat_tables) (d : inbound_db) : result A * inbound_db :=
  match in_chats d !! schema with
  | None => (Err (no_schema schema), d)
  | Some t =>
      match f t with
      | (Ok a, t') => (Ok a, set_chats (<[schema := t']> (in_chats d)) d)
      | (Err e, _) => (Err e, d)
      end
  end.
Definition cstmt {A} (schema : string) (f : chat_tables -> result A * chat_tables) : inbound A := stmt (on_chat schema f).
Definition cread {A} (schema : string) (f : chat_tables -> A) : inbound A := cstmt schema (fun t => (Ok (f t), t)).
(** [QueryRow(…).Scan] of the first row *)
Definition crow {A} (schema : string) (f : chat_tables -> option A) : inbound A :=
  cstmt schema (fun t => match f t with Some a => (Ok a, t) | None => (Err no_rows, t) end).
(** an UPDATE whose parameters Postgres accepts when [ok] *)
Definition cexec (schema : string) (ok : bool) (f : chat_tables -> chat_tables) : inbound unit :=
  cstmt schema (fun t => if ok then (Ok tt, f t) else (Err db_error, t)).
(** an INSERT … RETURNING id; [row] refuses what a constraint refuses *)
Definition cinsert {A} (schema : string) (rows : chat_tables -> list A) (key : A -> string) (row : string -> chat_tables -> option A)
    (add : A -> chat_tables -> chat_tables) : inbound string :=
  cstmt schema (fun t =>
    match chat_ids t with
    | [] => (Err db_error, t)
    | i :: rest =>
        match row i t with
        | Some r =>
            if existsb (fun x => String.eqb (key x) i) (rows t) then (Err (EText "duplicate key value violates unique constraint"), t)
            else (Ok i, set_chat_ids rest (add r t))
        | None => (Err db_error, t)
        end
    end).
(** the process' own memory: no statement, no failure *)
Definition mem {A} (f : inbound_db -> A * inbound_db) : inbound A :=
  fun w => (Ok (fst (f (p_db w))), with_db (snd (f (p_db w))) (p_tx w) w).
(** [io.ReadFull(rand.Reader, nonce)] *)
Definition draw_nonce : inbound (result (list Z)) :=
  mem (fun d => (default (Err (EText "unexpected EOF")) (head (in_random d)), set_random (tail (in_random d)) d)).
Definition publish (j : job) : inbound unit := exec (fun d => set_jobs (in_jobs d ++ [j]) d).

(** ** [shared/tenantschema]: which columns exist, remembered per schema *)
Definition columns_exist (schema : string) : inbound bool :=
  read (fun d => match in_chats d !! schema with Some t => pii_columns t | None => false end).
Definition storeContactPII (schema : string) (active : bool) : inbound unit :=
  mem (fun d => (tt, if String.eqb schema "" then d else set_caches (<[schema := active]> (contact_cache d)) (lead_cache d) d)).
Definition storeLeadPII (schema : string) (active : bool) : inbound unit :=
  mem (fun d => (tt, if String.eqb schema "" then d else set_caches (contact_cache d) (<[schema := active]> (lead_cache d)) d)).
Definition InvalidateContactPIICache (schema : string) : inbound unit :=
  mem (fun d => (tt, if String.eqb schema "" then d else set_caches (delete schema (contact_cache d)) (lead_cache d) d)).
Definition MarkContactPIIActive (schema : string) : inbound unit := storeContactPII schema true.
Definition cachedContactPII (schema : string) : inbound (option bool) :=
  mem (fun d => (if String.eqb schema "" then None else contact_cache d !! schema, d)).
Definition cachedLeadPII (schema : string) : inbound (option bool) :=
  mem (fun d => (if String.eqb schema "" then None else lead_cache d !! schema, d)).
Definition contactPIIActiveUncached (schema : string) : inbound bool :=
  let! ready := columns_exist schema in storeContactPII schema ready;! ret ready.
Definition leadPIIActiveUncached (schema : string) : inbound bool :=
  let! ready := columns_exist schema in storeLeadPII schema ready;! ret ready.
(** the schema is never empty here: every caller opened the tenant before *)
Definition ContactPIIActive (schema : string) : inbound bool :=
  let! cached := cachedContactPII schema in
  match cached with Some active => ret active | None => contactPIIActiveUncached schema end.
Definition LeadPIIActive (schema : string) : inbound bool :=
  let! cached := cachedLeadPII schema in
  match cached with Some active => ret active | None => leadPIIActiveUncached schema end.
(** [tenant.RunPIISchemaPatches]; the DDL by what it does to the columns *)
Definition RunPIISchemaPatches (schema : string) : inbound unit :=
  if negb (schemaNameRe schema) then throw (EText ("invalid schema name: " ++ schema)) else cexec schema true set_pii.
(** [openTenantScope] of the services here *)
Definition open_chat (schema : string) : inbound unit :=
  match ValidateTenantSchemaName schema with Some e => throw e | None => ret tt end.

(** ** Rules for the proofs *)
Lemma t_mem {A} c (P : inbound_db -> Prop) (f : inbound_db -> A * inbound_db) Q :
  (forall d, P d -> Q (Ok (fst (f d))) (snd (f d))) -> triple c P (mem f) Q.
Proof. intros Hf w [Hw Hl] Hd. unfold mem. split; [by split|]. cbn. by apply Hf. Qed.
(** a statement on one tenant's tables *)
Lemma t_cstmt {A} c (P : inbound_db -> Prop) schema (f : chat_tables -> result A * chat_tables) Q :
  (forall d, P d -> (forall e, Q (Err e) d) /\ forall t a t', in_chats d !! schema = Some t -> f t = (Ok a, t') ->
     let d' := set_chats (<[schema := t']> (in_chats d)) d in Q (Ok a) d' /\ forall e, Q (Err e) d') ->
  triple c P (cstmt schema f) Q.
Proof.
  intros Hf. apply t_stmt. intros d Hd. destruct (Hf d Hd) as [He Ho]. unfold stmt_post, on_chat.
  destruct (in_chats d !! schema) as [t|] eqn:E; [|auto]. destruct (f t) as [[a|e] t'] eqn:Ef; [|auto].
  destruct (Ho t a t' eq_refl Ef). auto.
Qed.
Lemma set_chats_same d s t : in_chats d !! s = Some t -> set_chats (<[s := t]> (in_chats d)) d = d.
Proof. intros E. rewrite insert_id by done. by destruct d. Qed.
