(* ===== verification/Inbound.v ===== *)
(** * Inbound WhatsApp: parsing, routing, signatures

    [whatsapp/whatsapp.go] (a webhook's body as messages, its signature),
    [tenant/whatsapp_inbound.go] (which tenant a number belongs to, with the
    scan that fills the table in) and [webhook/webhook_signature.go] (every body
    must be signed with the secret of the channel it names).  JSON is the class
    [WebhookJson]; a message's time of receipt is not kept: only the simulator
    reads it. *)
From S2P Require Import Prelude GoStrings Sha256 PgTx Triples Pii Billing Float64 ChatTables.

Open Scope string_scope.
Open Scope Z_scope.

(** ** The webhook's body *)
Record webhookMetadata := { DisplayPhoneNumber : string; PhoneNumberID : string }.
Record webhookContact := { WaID : string; Profile_Name : string; FirstName : string; LastName : string }.
Record webhookMessage := {
  M_ID : string; M_From : string; Timestamp : string; M_Type : string;
  M_Text : option string;                       (** body *)
  M_Image : option (string * string);           (** id, caption *)
  M_Audio : option string;                      (** id *)
  M_Video : option (string * string);           (** id, caption *)
  M_Document : option (string * string * string); (** id, filename, caption *)
  M_Location : option (f64 * f64 * string)      (** latitude, longitude, name *)
}.
Record webhookValue := { Metadata : webhookMetadata; Contacts : list webhookContact; Messages : list webhookMessage }.
(** entries, each with its changes *)
Record webhookPayload := { Object_ : string; Entry : list (list webhookValue) }.
Class WebhookJson := {
  decode_webhook : string -> option webhookPayload;   (** [json.Unmarshal] *)
  marshal_message : webhookMessage -> string
}.
Record InboundMessage := {
  ExternalID : string; FromPhone : string; ToPhoneNumberID : string; ToDisplayPhone : string; FromDisplayName : string;
  IM_Type : string; IM_Body : string; Raw : string
}.

Definition buildContactNameMap (contacts : list webhookContact) : gmap string string :=
  fold_left (fun m c =>
    let name := if String.eqb (Profile_Name c) "" then TrimSpace (FirstName c ++ " " ++ LastName c) else Profile_Name c in
    if negb (String.eqb (WaID c) "") && negb (String.eqb name "") then <[WaID c := name]> m else m) contacts ∅.
Definition classifyMessage (m : webhookMessage) : string * string :=
  if String.eqb (M_Type m) "text" then ("text", default "" (M_Text m))
  else if String.eqb (M_Type m) "image" then ("image", default "" (snd <$> M_Image m))
  else if String.eqb (M_Type m) "audio" then ("audio", "")
  else if String.eqb (M_Type m) "video" then ("video", default "" (snd <$> M_Video m))
  else if String.eqb (M_Type m) "document" then ("document", default "" ((fun d => snd (fst d)) <$> M_Document m))
  else if String.eqb (M_Type m) "location" then ("location", default "" (snd <$> M_Location m))
  else ("", "").

Section inbound.
Context {WJ : WebhookJson} {PT : PgText}.

Definition inbound_message (v : webhookValue) (names : gmap string string) (m : webhookMessage) : option InboundMessage :=
  let '(msgType, body) := classifyMessage m in
  if String.eqb msgType "" then None
  else Some {| ExternalID := M_ID m; FromPhone := M_From m; ToPhoneNumberID := PhoneNumberID (Metadata v);
               ToDisplayPhone := DisplayPhoneNumber (Metadata v); FromDisplayName := default "" (names !! M_From m);
               IM_Type := msgType; IM_Body := body; Raw := marshal_message m |}.
Definition value_messages (v : webhookValue) : list InboundMessage :=
  omap (inbound_message v (buildContactNameMap (Contacts v))) (Messages v).
Definition is_business (p : webhookPayload) : bool := String.eqb (Object_ p) "whatsapp_business_account".
Definition ParseWebhook (payload : string) : list InboundMessage :=
  match decode_webhook payload with
  | Some p => if is_business p then mjoin (map (fun changes => mjoin (map value_messages changes)) (Entry p)) else []
  | None => []
  end.
Definition webhookMetadataField (payload : string) (pick : webhookMetadata -> string) : string :=
  match decode_webhook payload with
  | Some p =>
      if is_business p then
        default "" (List.find (fun v => negb (String.eqb v "")) (map (fun v => pick (Metadata v)) (mjoin (Entry p))))
      else ""
  | None => ""
  end.
Definition WebhookPhoneNumberID (payload : string) : string := webhookMetadataField payload (fun m => TrimSpace (PhoneNumberID m)).
Definition WebhookDisplayPhoneNumber (payload : string) : string := webhookMetadataField payload (fun m => TrimSpace (DisplayPhoneNumber m)).
Definition VerifyWebhookSignature (payload signature appSecret : string) : bool :=
  if negb (HasPrefix signature "sha256=") then false
  else String.eqb (ToLower (drop_bytes 7 signature)) (hex_encode (hmac_sha256 appSecret payload)).

(** ** Whose number it is *)
Definition normalizePhoneDigits (v : string) : string := NormalizePhone v.
(** [isMissingRow] *)
Definition isMissingRow (e : error) : bool :=
  errors_Is e no_rows ||
  match e with ECode NotFound msg => Contains msg "no rows in result set" | _ => false end.
Record WhatsAppInboundRef := { Ref_Schema : string; Ref_ChannelID : string }.
Definition map_row (meta : string) : inbound WhatsAppInboundRef :=
  stmt (fun d => match in_map d !! meta with
                 | Some r => (Ok {| Ref_Schema := in_schema r; Ref_ChannelID := in_channel r |}, d)
                 | None => (Err no_rows, d)
                 end).
Definition set_display (display : string) (r : inbound_row) : inbound_row :=
  {| in_schema := in_schema r; in_channel := in_channel r; in_display := display |}.
(** UPDATE … SET display_phone_norm *)
Definition update_display (meta display : string) : inbound unit :=
  stmt (fun d => if pg_text (Some 32) display then (Ok tt, set_map (alter (set_display display) meta (in_map d)) d) else (Err db_error, d)).
Definition insert_map (meta schema channel display : string) : inbound unit :=
  stmt (fun d =>
    match pg_uuid channel, in_map d !! meta with
    | Some c, None =>
        if pg_text (Some 64) meta && pg_text None schema && pg_text (Some 32) display then
          (Ok tt, set_map (<[meta := {| in_schema := schema; in_channel := c; in_display := display |}]> (in_map d)) d)
        else (Err db_error, d)
    | _, _ => (Err db_error, d)
    end).
Definition RegisterWhatsAppInbound (schema channelID meta displayPhone : string) : inbound unit :=
  let meta := TrimSpace meta in
  if String.eqb meta "" then ret tt
  else
    let schema := TrimSpace schema in
    let channelID := TrimSpace channelID in
    if String.eqb schema "" || String.eqb channelID "" then throw (EText "schema and channel_id required")
    else
      let! existing := attempt (map_row meta) in
      match existing with
      | Ok r =>
          if String.eqb (Ref_Schema r) schema && String.eqb (Ref_ChannelID r) channelID then
            ignore (update_display meta (normalizePhoneDigits displayPhone));! ret tt
          else throw (EText ("meta_phone_number_id " ++ meta ++ " sudah dipakai tenant " ++ Ref_Schema r ++ " (channel " ++ Ref_ChannelID r ++ "); putuskan koneksi di tenant itu atau gunakan nomor Meta berbeda"))
      | Err e => if negb (isMissingRow e) then throw e else insert_map meta schema channelID (normalizePhoneDigits displayPhone)
      end.
Definition of_channel (schema channel : string) (r : inbound_row) : bool := String.eqb (in_schema r) schema && String.eqb (in_channel r) channel.
Definition UnregisterWhatsAppInbound (schema channelID : string) : inbound unit :=
  stmt (fun d =>
    match pg_uuid channelID with
    | Some c => (Ok tt, set_map (filter (fun x => of_channel schema c (snd x) = false) (in_map d)) d)
    | None => (Err db_error, d)
    end).
Definition ListSchemaNames : inbound (list string) :=
  read (fun d => map co_schema (List.filter (fun c => co_live c && negb (String.eqb (co_schema c) "")) (in_companies d))).
Definition TenantIDBySchema (schema : string) : inbound string :=
  stmt (fun d =>
    match List.find (fun c => co_live c && String.eqb (co_schema c) schema) (in_companies d) with
    | Some c => (Ok (co_tenant c), d)
    | None => (Err no_rows, d)
    end).

(** the loops over the tenants' schemas: every error is a miss *)
Fixpoint scan_schemas (find : chat_tables -> option channel_row) (schemas : list string) : inbound (list WhatsAppInboundRef) :=
  match schemas with
  | [] => ret []
  | schema :: rest =>
      let! r := attempt (crow schema find) in
      let! more := scan_schemas find rest in
      ret (match r with Ok ch => {| Ref_Schema := schema; Ref_ChannelID := wc_id ch |} :: more | Err _ => more end)
  end.
Definition has_meta (meta : string) (ch : channel_row) : bool := bool_decide (wc_meta ch = Some meta).
Definition has_phone (norm display : string) (ch : channel_row) : bool :=
  (negb (String.eqb norm "") && String.eqb (NormalizePhone (wc_phone ch)) norm) ||
  (negb (String.eqb display "") && String.eqb (wc_phone ch) display).
Definition set_meta (meta : string) (ch : channel_row) : channel_row :=
  {| wc_id := wc_id ch; wc_phone := wc_phone ch; wc_meta := Some meta; wc_secret := wc_secret ch |}.
Definition backfill_meta (schema channel meta : string) : inbound unit :=
  cexec schema (pg_text (Some 64) meta) (fun t => set_channels (map (fun ch => if String.eqb (wc_id ch) channel then set_meta meta ch else ch) (channels t)) t).
Definition resolve_by_phone (schemas : list string) (phoneNumberID displayPhone : string) : inbound WhatsAppInboundRef :=
  let normDisplay := normalizePhoneDigits displayPhone in
  let! byPhone := scan_schemas (fun t => List.find (has_phone normDisplay (TrimSpace displayPhone)) (channels t)) schemas in
  match byPhone with
  | [ref] =>
      if negb (String.eqb phoneNumberID "") then
        ignore (backfill_meta (Ref_Schema ref) (Ref_ChannelID ref) phoneNumberID);!
        ignore (RegisterWhatsAppInbound (Ref_Schema ref) (Ref_ChannelID ref) phoneNumberID displayPhone);!
        ret ref
      else ret ref
  | [] => throw (EText ("no tenant channel for phone_number_id=" ++ phoneNumberID ++ " display=" ++ displayPhone))
  | _ => throw (EText ("nomor WhatsApp bisnis cocok di beberapa tenant (" ++ String.concat ", " (map Ref_Schema byPhone) ++ ") — gunakan meta_phone_number_id unik per tenant"))
  end.
Definition resolveInboundChannelScan (phoneNumberID displayPhone : string) : inbound WhatsAppInboundRef :=
  let! schemas := attempt ListSchemaNames in
  match schemas with
  | Err e => throw (EWrap ("list tenant schemas: " ++ error_text e) e)
  | Ok schemas =>
      let phoneNumberID := TrimSpace phoneNumberID in
      if String.eqb phoneNumberID "" then resolve_by_phone schemas phoneNumberID displayPhone
      else
        let! byMetaID := scan_schemas (fun t => List.find (has_meta phoneNumberID) (channels t)) schemas in
        match byMetaID with
        | [ref] =>
            ignore (RegisterWhatsAppInbound (Ref_Schema ref) (Ref_ChannelID ref) phoneNumberID displayPhone);!
            ret ref
        | [] => resolve_by_phone schemas phoneNumberID displayPhone
        | _ => throw (EText ("meta_phone_number_id " ++ phoneNumberID ++ " terdaftar di beberapa tenant (" ++ String.concat ", " (map Ref_Schema byMetaID) ++ ") — hanya satu tenant boleh memakai nomor Meta yang sama; reconnect WhatsApp di tenant yang benar"))
        end
  end.
Definition ResolveWhatsAppInbound (metaPhoneNumberID displayPhone : string) : inbound WhatsAppInboundRef :=
  let meta := TrimSpace metaPhoneNumberID in
  if String.eqb meta "" then resolveInboundChannelScan meta displayPhone
  else
    let! r := attempt (map_row meta) in
    match r with
    | Ok ref => ret ref
    | Err e => if negb (isMissingRow e) then throw e else resolveInboundChannelScan meta displayPhone
    end.

(** ** [webhook/webhook_signature.go] *)
Definition channel_secret (schema channel : string) : inbound (option string) :=
  crow schema (fun t =>
    match pg_uuid channel with
    | Some c => wc_secret <$> List.find (fun ch => String.eqb (wc_id ch) c) (channels t)
    | None => None
    end).
Definition lookupChannelMetaAppSecret (phoneNumberID displayPhone : string) : inbound string :=
  let phoneNumberID := TrimSpace phoneNumberID in
  if String.eqb phoneNumberID "" then throw (EText "empty phone_number_id")
  else
    let! ref := ResolveWhatsAppInbound phoneNumberID displayPhone in
    let! secret := attempt (channel_secret (Ref_Schema ref) (Ref_ChannelID ref)) in
    match secret with
    | Err e => throw (if bool_decide (e = no_rows) then EText ("no channel for phone_number_id=" ++ phoneNumberID) else e)
    | Ok (Some s) => ret (if String.eqb (TrimSpace s) "" then "" else TrimSpace s)
    | Ok None => ret ""
    end.
Definition first_or (x : string) (messages : list InboundMessage) (f : InboundMessage -> string) : string :=
  if String.eqb x "" then match messages with m :: _ => f m | [] => "" end else x.
Definition verifyInboundWebhookSignature (body sigHeader : string) (messages : list InboundMessage) : inbound unit :=
  let sigHeader := TrimSpace sigHeader in
  if String.eqb sigHeader "" then throw (EText "signature required")
  else
    let phoneNumberID := first_or (WebhookPhoneNumberID body) messages ToPhoneNumberID in
    let displayPhone := first_or (WebhookDisplayPhoneNumber body) messages ToDisplayPhone in
    if String.eqb phoneNumberID "" then throw (EText "no app secret")
    else
      let! s := attempt (lookupChannelMetaAppSecret phoneNumberID displayPhone) in
      match s with
      | Err _ => throw (EText "channel not found")
      | Ok s =>
          let appSecret := TrimSpace s in
          if String.eqb appSecret "" then throw (EText "no app secret")
          else if negb (VerifyWebhookSignature body sigHeader appSecret) then throw (EText "signature invalid")
          else ret tt
      end.
End inbound.
