(* ===== verification/Intake.v ===== *)
(** * Taking a WhatsApp message in

    [webhook/webhook.go] from the request on: contact, conversation, message,
    the conversation's preview, workflow rules ([workflow/workflow.go]), the
    jobs that are published, the summary trigger ([ai/memory.go]) and the lead
    ([leads/leads.go]).  [now] is the clock of the request, the same for Go and
    the database.  Unicode's tables, JSON and Go's quoting are the class
    [ChatText]; the process' configuration is [intake_config]. *)
From S2P Require Import Prelude GoStrings AdminSession PgTx Triples Zoom Pii DaySlots Billing StockLedger ChatTables Inbound.

Open Scope string_scope.
Open Scope Z_scope.

Class ChatText := {
  lower_text : string -> string;      (** [strings.ToLower] *)
  normalize_name : string -> string;  (** [pii.NormalizeName] *)
  go_quote : string -> string;        (** the verb %q *)
  reply_text : string -> string       (** the field replyText of a JSON text, empty when there is none *)
}.
Record intake_config := {
  cf_key : string;      (** the secret DataEncryptionKey *)
  cf_inline : bool;     (** INLINE_INBOUND_AI is 1 *)
  cf_redis : bool       (** the Redis clients are there *)
}.

Definition truncate (s : string) (max : Z) : string :=
  if Z.of_nat (String.length s) <=? max then s else take_bytes (Z.to_nat max) s.
(** [utf8.RuneStart] *)
Definition RuneStart (c : ascii) : bool := negb (N.land (code c) 0xC0 =? 0x80)%N.
Fixpoint rune_boundary (n : nat) (s : string) : nat :=
  match n with
  | O => O
  | S n' => match String.get n s with Some c => if RuneStart c then n else rune_boundary n' s | None => n end
  end.
Definition TruncateUTF8 (s : string) (maxBytes : Z) : string :=
  if maxBytes <=? 0 then ""
  else if Z.of_nat (String.length s) <=? maxBytes then s
  else take_bytes (rune_boundary (Z.to_nat maxBytes) s) s.
Definition emoji (b : list N) : string := bytes ([0xF0; 0x9F]%N ++ b) ++ " ".
Definition InboundMessagePreview (msgType body : string) : string :=
  let body := TrimSpace body in
  let labelled icon label := if negb (String.eqb body "") then icon ++ truncate body 270 else icon ++ label in
  let t := ToLower (TrimSpace msgType) in
  if String.eqb t "image" || String.eqb t "sticker" then labelled (emoji [0x93; 0xB7]%N) "Gambar"
  else if String.eqb t "video" then labelled (emoji [0x8E; 0xAC]%N) "Video"
  else if String.eqb t "audio" then emoji [0x8E; 0xA4]%N ++ "Audio"
  else if String.eqb t "document" then labelled (emoji [0x93; 0x8E]%N) "Dokumen"
  else if String.eqb t "location" then labelled (emoji [0x93; 0x8D]%N) "Lokasi"
  else if negb (String.eqb body "") then truncate body 280 else msgType.
Example TruncateUTF8_ex : TruncateUTF8 ("ab" ++ bytes [0xC3; 0xA9]%N) 3 = "ab" /\ truncate ("ab" ++ bytes [0xC3; 0xA9]%N) 3 = "ab" ++ bytes [0xC3]%N.
Proof. split; reflexivity. Qed.
(** [strings.EqualFold(s, "image")]: no rune outside ASCII folds to one of its letters *)
Definition folds_to (s lower : string) : bool := String.eqb (string_of_list_ascii (map lower_byte (list_ascii_of_string s))) lower.
Definition quoted (s : string) : string := String "034" s ++ String "034" "".
(** [TRIM(column) = ''], or NULL *)
Definition sql_blank (s : option string) : bool :=
  match s with None => true | Some s => forallb (fun c => Ascii.eqb c " ") (list_ascii_of_string s) end.
Definition mediaDownloadTypes : list string := ["image"; "video"; "audio"; "document"; "sticker"].
Definition IsPersistableMediaType (msgType : string) : bool := existsb (String.eqb (ToLower (TrimSpace msgType))) mediaDownloadTypes.

Section intake.
Context {HG : Gcm} {WJ : WebhookJson} {PT : PgText} {CT : ChatText} (cf : intake_config).

(** ** Contacts *)
Definition enc_key : string := TrimSpace (cf_key cf).
(** a nonce is drawn when there is a key and a text to encrypt *)
Definition nonce_for (plain : string) : inbound (result (list Z)) :=
  if String.eqb (TrimSpace plain) "" || bool_decide (is_Some (ValidateKey enc_key)) then ret (Ok []) else draw_nonce.
Definition encrypting (plain : string) : inbound (result string) :=
  let! nonce := nonce_for plain in ret (Pii.Encrypt nonce plain enc_key).
Definition contactPIIReady (schema : string) : inbound bool :=
  match ValidateKey enc_key with
  | Some _ => ret false
  | None =>
      let! active := attempt (ContactPIIActive schema) in
      match active with
      | Ok true => ret true
      | _ =>
          let! patched := attempt (RunPIISchemaPatches schema) in
          match patched with
          | Err _ => ret false
          | Ok _ =>
              InvalidateContactPIICache schema;!
              let! exists_ := attempt (columns_exist schema) in
              match exists_ with
              | Ok true => MarkContactPIIActive schema;! ret true
              | _ => ret false
              end
          end
      end
  end.
Definition find_contact (schema : string) (f : contact_row -> bool) : inbound string :=
  crow schema (fun t => ct_id <$> List.find (fun c => f c && negb (ct_deleted c)) (contacts t)).
Definition add_contact (c : contact_row) (t : chat_tables) : chat_tables := set_contacts (contacts t ++ [c])%list t.
(** unique: phone_number until the encrypted columns are there, then the blind
    index among live contacts *)
Definition contact_clash (c : contact_row) (t : chat_tables) : bool :=
  if pii_columns t then
    match ct_phone_idx c with
    | Some x => negb (String.eqb x "") && existsb (fun c' => negb (ct_deleted c') && bool_decide (ct_phone_idx c' = Some x)) (contacts t)
    | None => false
    end
  else existsb (fun c' => bool_decide (ct_phone c' = ct_phone c)) (contacts t).
Definition insert_contact (schema : string) (pii ok : bool) (c : string -> contact_row) : inbound string :=
  cinsert schema contacts ct_id
    (fun i t => if (negb pii || pii_columns t) && ok && negb (contact_clash (c i) t) then Some (c i) else None) add_contact.
Definition update_contact (id : string) (pick : contact_row -> bool) (f : contact_row -> contact_row) (t : chat_tables) : chat_tables :=
  set_contacts (map (fun c => if String.eqb (ct_id c) id && pick c then f c else c) (contacts t)) t.
Definition set_names (name enc : option string) (c : contact_row) : contact_row :=
  {| ct_id := ct_id c; ct_phone := ct_phone c; ct_phone_enc := ct_phone_enc c; ct_phone_idx := ct_phone_idx c;
     ct_name := name; ct_name_enc := enc; ct_deleted := ct_deleted c |}.
Definition legacy_contact (phone : string) (name : option string) (id : string) : contact_row :=
  {| ct_id := id; ct_phone := Some phone; ct_phone_enc := None; ct_phone_idx := None; ct_name := name; ct_name_enc := None; ct_deleted := false |}.
Definition sealed_contact (enc idx : string) (name_enc : option string) (id : string) : contact_row :=
  {| ct_id := id; ct_phone := Some Placeholder; ct_phone_enc := Some enc; ct_phone_idx := Some idx;
     ct_name := Some Placeholder; ct_name_enc := name_enc; ct_deleted := false |}.
Definition upsertContactLegacy (schema phone displayName : string) : inbound string :=
  let! found := attempt (find_contact schema (fun c => bool_decide (ct_phone c = Some phone))) in
  match found with
  | Ok id =>
      if negb (String.eqb displayName "") then
        ignore (cexec schema (pg_text (Some 200) displayName)
                  (update_contact id (fun c => sql_blank (ct_name c)) (fun c => set_names (Some displayName) (ct_name_enc c) c)));!
        ret id
      else ret id
  | Err e =>
      if negb (bool_decide (e = no_rows)) then throw e
      else
        insert_contact schema false (pg_text (Some 32) phone && pg_text (Some 200) displayName)
          (legacy_contact phone (if String.eqb displayName "" then None else Some displayName))
  end.
Definition normalizePhone (v : string) : string := NormalizePhone v.
Definition upsertContact (schema : string) (msg : InboundMessage) : inbound string :=
  let phone := normalizePhone (FromPhone msg) in
  let displayName := truncate (TrimSpace (FromDisplayName msg)) 200 in
  let! usePII := contactPIIReady schema in
  if negb usePII then
    (match ValidateKey enc_key with None => ignore (ContactPIIActive schema) | Some _ => ret tt end);!
    upsertContactLegacy schema phone displayName
  else
    let phoneIdx := BlindIndex (NormalizePhone phone) enc_key in
    let! found := attempt (find_contact schema (fun c => bool_decide (ct_phone_idx c = Some phoneIdx))) in
    match found with
    | Ok id =>
        if negb (String.eqb displayName "") then
          let! enc := encrypting displayName in
          ignore (cexec schema true
                    (update_contact id (fun c => sql_blank (ct_name_enc c))
                       (set_names (Some Placeholder) (Some (match enc with Ok x => x | Err _ => "" end)))));!
          ret id
        else ret id
    | Err e =>
        if negb (bool_decide (e = no_rows)) then throw e
        else
          let! phoneEnc := encrypting phone in
          match phoneEnc with
          | Err e => throw e
          | Ok phoneEnc =>
              if negb (String.eqb displayName "") then
                let! enc := encrypting displayName in
                match enc with
                | Err e => throw e
                | Ok enc => insert_contact schema true true (sealed_contact phoneEnc phoneIdx (Some enc))
                end
              else insert_contact schema true true (sealed_contact phoneEnc phoneIdx None)
          end
    end.
Definition sealed_phone (c : contact_row) : string * string := (default "" (ct_phone_enc c), default "" (ct_phone c)).
Definition contactPhoneFromScope (schema contactID : string) : inbound string :=
  let! active := attempt (ContactPIIActive schema) in
  let row f := crow schema (fun t => f <$> List.find (fun c => String.eqb (ct_id c) contactID) (contacts t)) in
  match active with
  | Ok true =>
      let! phones := row sealed_phone in
      match DecryptOrLegacy (fst phones) (snd phones) enc_key with Ok p => ret p | Err e => throw e end
  | _ => let! phones := row sealed_phone in ret (snd phones)
  end.

(** ** Conversations and messages *)
Definition of_pair (channel contact : string) (c : convo_row) : bool := String.eqb (cv_channel c) channel && String.eqb (cv_contact c) contact.
Definition new_convo (channel contact id : string) : convo_row :=
  {| cv_id := id; cv_channel := channel; cv_contact := contact; cv_status := "open"; cv_ai := true; cv_unread := 0;
     cv_preview := None; cv_last := None; cv_reason := None |}.
(** the new id is read after the statement that scans it, as Go's compiler does *)
Definition upsertConversation (schema channelID contactID : string) : inbound string :=
  let! found := attempt (crow schema (fun t => cv_id <$> List.find (of_pair channelID contactID) (convos t))) in
  match found with
  | Ok id => ret id
  | Err e =>
      if negb (bool_decide (e = no_rows)) then throw e
      else
        cinsert schema convos cv_id
          (fun i t => if existsb (of_pair channelID contactID) (convos t) then None else Some (new_convo channelID contactID i))
          (fun c t => set_convos (convos t ++ [c])%list t)
  end.
(** external_id is unique, author is NOT NULL *)
Definition insert_message (schema : string) (ok : bool) (external author : option string) (m : string -> string -> message_row) : inbound string :=
  cinsert schema messages ms_id
    (fun i t =>
      match author with
      | None => None
      | Some a =>
          if ok && negb (existsb (fun x => bool_decide (is_Some external /\ ms_external x = external)) (messages t)) then Some (m a i) else None
      end)
    (fun m t => set_messages (messages t ++ [m])%list t).
Definition insertMessage (schema convoID : string) (msg : InboundMessage) (now : Z) : inbound string :=
  insert_message schema
    (pg_text (Some 128) (ExternalID msg) && pg_text (Some 20) (IM_Type msg) && pg_text None (IM_Body msg) && pg_jsonb (Raw msg))
    (Some (ExternalID msg)) (Some "contact")
    (fun a i => {| ms_id := i; ms_convo := convoID; ms_external := Some (ExternalID msg); ms_direction := "in"; ms_author := a;
                   ms_type := IM_Type msg; ms_body := IM_Body msg; ms_metadata := Raw msg; ms_status := "delivered"; ms_created := now |}).
Definition update_convo (schema : string) (ok : bool) (id : string) (f : convo_row -> convo_row) : inbound unit :=
  cexec schema ok (fun t => set_convos (map (fun c => if String.eqb (cv_id c) id then f c else c) (convos t)) t).
Definition unread_convo (preview : string) (now : Z) (c : convo_row) : convo_row :=
  {| cv_id := cv_id c; cv_channel := cv_channel c; cv_contact := cv_contact c; cv_status := "open"; cv_ai := cv_ai c;
     cv_unread := cv_unread c + 1; cv_preview := Some preview; cv_last := Some now; cv_reason := cv_reason c |}.

(** ** Workflow rules *)
Definition replied_convo (text : string) (now : Z) (c : convo_row) : convo_row :=
  {| cv_id := cv_id c; cv_channel := cv_channel c; cv_contact := cv_contact c; cv_status := cv_status c; cv_ai := true;
     cv_unread := cv_unread c; cv_preview := Some text; cv_last := Some now; cv_reason := cv_reason c |}.
Definition handed_convo (c : convo_row) : convo_row :=
  {| cv_id := cv_id c; cv_channel := cv_channel c; cv_contact := cv_contact c; cv_status := "open"; cv_ai := false;
     cv_unread := cv_unread c; cv_preview := cv_preview c; cv_last := cv_last c; cv_reason := Some "workflow" |}.
(** the reply's INSERT names no author *)
Definition runAction (schema conversationID actionType payload : string) (now : Z) : inbound unit :=
  if String.eqb actionType "send_reply" then
    let text := TrimSpace (reply_text payload) in
    let text := if String.eqb text "" then "Terima kasih, tim kami akan segera membantu Anda." else text in
    (let! _ := insert_message schema (pg_text None text) None None
       (fun a i => {| ms_id := i; ms_convo := conversationID; ms_external := None; ms_direction := "outbound"; ms_author := a;
                      ms_type := "text"; ms_body := text; ms_metadata := "{" ++ quoted "reason" ++ ":" ++ quoted "workflow" ++ "}"; ms_status := "sent"; ms_created := now |}) in
     update_convo schema (pg_text (Some 280) text) conversationID (replied_convo text now))
  else if String.eqb actionType "handoff" then update_convo schema true conversationID handed_convo
  else throw (EText ("unknown action: " ++ actionType)).
Definition isMissingWorkflowTable (e : error) : bool :=
  let msg := ToLower (error_text e) in
  Contains msg "does not exist" && (Contains msg "workflow_rule" || Contains msg "relation").
Fixpoint try_rules (schema conversationID bodyLower : string) (now : Z) (rows : list rule_row) : inbound bool :=
  match rows with
  | [] => ret false
  | r :: rest =>
      if negb (Contains bodyLower (lower_text (ru_value r))) then try_rules schema conversationID bodyLower now rest
      else
        let! ran := attempt (runAction schema conversationID (ru_action r) (ru_payload r) now) in
        match ran with
        | Err _ => try_rules schema conversationID bodyLower now rest
        | Ok _ => ignore (billed (RecordEvent schema "workflow_exec" 1 now));! ret true
        end
  end.
(** ORDER BY priority DESC, created_at ASC *)
Definition rule_order (a b : rule_row) : bool := (ru_priority b <? ru_priority a) || ((ru_priority b =? ru_priority a) && (ru_created a <=? ru_created b)).
Definition active_rules (t : chat_tables) : list rule_row :=
  sort_by rule_order (List.filter (fun r => negb (ru_deleted r) && ru_active r) (rules t)).
Definition TryRun (schema conversationID messageBody : string) (now : Z) : inbound bool :=
  let! entitled := attempt (billed (Require_ schema "workflow")) in
  match entitled with
  | Err _ => ret false
  | Ok _ =>
      let! quota := billed (CheckQuota schema "workflow_exec" now) in
      let '(ok, _, limit) := quota in
      if negb ok && (0 <? limit) then ret false
      else
        open_chat schema;!
        let! rows := attempt (cread schema active_rules) in
        match rows with
        | Err e => if isMissingWorkflowTable e then ret false else throw e
        | Ok rows => try_rules schema conversationID (lower_text messageBody) now rows
        end
  end.
(** *** Editing rules
    Of the row a handler answers, only its id is kept. *)
Record RuleRequest := {
  RR_Name : string; RR_TriggerType : string; RR_TriggerValue : string; RR_ActionType : string; RR_ActionPayload : string;
  RR_BranchID : option string; RR_Priority : Z; RR_IsActive : option bool
}.
Definition or_default (s d : string) : string := if String.eqb s "" then d else s.
(** the checks the handlers share, in their order, then the tenant *)
Definition as_rule_editor {A} (u : option AuthUser) (valid : option error) (k : string -> inbound A) : inbound A :=
  match authUser u with
  | Err e => throw e
  | Ok user =>
      billed (Require_ (TenantSchema user) "workflow");!
      match valid with
      | Some e => throw e
      | None =>
          let! opened := attempt (open_chat (TenantSchema user)) in
          match opened with Err _ => throw (ECode Internal "database connection failed") | Ok _ => k (TenantSchema user) end
      end
  end.
Definition valid_rule (req : RuleRequest) : option error :=
  if String.eqb (TrimSpace (RR_Name req)) "" || String.eqb (TrimSpace (RR_TriggerValue req)) "" then
    Some (ECode InvalidArgument "name and triggerValue required") else None.
Definition rule_fits (req : RuleRequest) : bool :=
  pg_text None (RR_Name req) && pg_text (Some 40) (or_default (RR_TriggerType req) "message_contains") && pg_text None (RR_TriggerValue req)
  && pg_text (Some 40) (or_default (RR_ActionType req) "send_reply") && pg_jsonb (or_default (RR_ActionPayload req) "{}")
  && (-2147483648 <=? RR_Priority req) && (RR_Priority req <=? 2147483647).
Definition rule_branch (req : RuleRequest) : option (option string) :=
  match RR_BranchID req with None => Some None | Some b => Some <$> pg_uuid b end.
Definition new_rule (req : RuleRequest) (now : Z) (branch : option string) (id : string) : rule_row :=
  {| ru_id := id; ru_name := RR_Name req; ru_trigger := or_default (RR_TriggerType req) "message_contains"; ru_value := RR_TriggerValue req;
     ru_action := or_default (RR_ActionType req) "send_reply"; ru_payload := or_default (RR_ActionPayload req) "{}";
     ru_branch := branch; ru_active := true; ru_priority := RR_Priority req; ru_created := now; ru_deleted := false |}.
Definition failing {A} (e : error) (m : inbound A) : inbound A :=
  let! r := attempt m in match r with Ok a => ret a | Err _ => throw e end.
Definition CreateRule (u : option AuthUser) (req : RuleRequest) (now : Z) : inbound string :=
  as_rule_editor u (valid_rule req) (fun schema =>
    failing (ECode Internal "create workflow rule failed")
      (cinsert schema rules ru_id
         (fun i _ => if rule_fits req then (fun b => new_rule req now b i) <$> rule_branch req else None)
         (fun r t => set_rules (rules t ++ [r])%list t))).
Definition edited_rule (req : RuleRequest) (r : rule_row) : rule_row :=
  {| ru_id := ru_id r; ru_name := RR_Name req; ru_trigger := or_default (RR_TriggerType req) "message_contains"; ru_value := RR_TriggerValue req;
     ru_action := or_default (RR_ActionType req) "send_reply"; ru_payload := or_default (RR_ActionPayload req) "{}";
     ru_branch := ru_branch r; ru_active := default true (RR_IsActive req); ru_priority := RR_Priority req; ru_created := ru_created r;
     ru_deleted := ru_deleted r |}.
Definition deleted_rule (r : rule_row) : rule_row :=
  {| ru_id := ru_id r; ru_name := ru_name r; ru_trigger := ru_trigger r; ru_value := ru_value r; ru_action := ru_action r; ru_payload := ru_payload r;
     ru_branch := ru_branch r; ru_active := ru_active r; ru_priority := ru_priority r; ru_created := ru_created r; ru_deleted := true |}.
(** UPDATE … WHERE id = $1 AND deleted_at IS NULL; no row is [no_rows] *)
Definition change_rule (schema id : string) (ok : bool) (f : rule_row -> rule_row) : inbound unit :=
  cstmt schema (fun t =>
    match pg_uuid id with
    | Some i =>
        let hit r := String.eqb (ru_id r) i && negb (ru_deleted r) in
        if negb ok then (Err db_error, t)
        else if existsb hit (rules t) then (Ok tt, set_rules (map (fun r => if hit r then f r else r) (rules t)) t) else (Err no_rows, t)
    | None => (Err db_error, t)
    end).
Definition rule_answer (e : error) (m : inbound unit) : inbound unit :=
  let! r := attempt m in
  match r with
  | Ok _ => ret tt
  | Err e' => throw (if bool_decide (e' = no_rows) then ECode NotFound "workflow rule not found" else e)
  end.
Definition UpdateRule (u : option AuthUser) (id : string) (req : RuleRequest) : inbound unit :=
  as_rule_editor u (valid_rule req) (fun schema =>
    rule_answer (ECode Internal "update workflow rule failed") (change_rule schema id (rule_fits req) (edited_rule req))).
Definition DeleteRule (u : option AuthUser) (id : string) : inbound unit :=
  as_rule_editor u None (fun schema => rule_answer (ECode Internal "delete rule failed") (change_rule schema id true deleted_rule)).

(** ** Jobs *)
Definition publishJobMaxAttempts : nat := 3.
Fixpoint publish_attempts (attempts : nat) (publish : inbound unit) : inbound unit :=
  match attempts with
  | O => ret tt
  | S n =>
      let! r := attempt publish in
      match r with Ok _ => ret tt | Err _ => publish_attempts n publish end
  end.
Definition publishJobWithRetry (publish : inbound unit) : inbound unit := publish_attempts publishJobMaxAttempts publish.
Definition PublishInboundJob (schema convo message type : string) : inbound unit :=
  if String.eqb schema "" || String.eqb convo "" || String.eqb message "" then throw (EText "invalid inbound AI job")
  else publish (InboundAI false schema convo message type).
(** inline, the job is handed to a goroutine *)
Definition enqueueInboundAI (schema convo message type : string) : inbound unit :=
  if cf_inline cf then mem (fun d => (tt, set_jobs (in_jobs d ++ [InboundAI true schema convo message type]) d))
  else publishJobWithRetry (PublishInboundJob schema convo message type).
Definition PublishPaymentProofJob (schema tenant convo contact message inbound_id : string) : inbound unit :=
  if String.eqb schema "" || String.eqb convo "" || String.eqb message "" then throw (EText "invalid payment proof job")
  else publish (PaymentProof schema tenant convo contact message (if String.eqb inbound_id "" then message else inbound_id)).
Definition PublishInboxMediaPersistJob (schema message type : string) : inbound unit :=
  if String.eqb schema "" || String.eqb message "" then throw (EText "invalid inbox media persist job")
  else if negb (IsPersistableMediaType type) then ret tt
  else publish (MediaPersist schema message type).

(** ** The summary's trigger *)
Definition summaryMessageThreshold : nat := 20.
Definition summaryReturnMinMessages : nat := 4.
Definition SummarySessionWindow : Z := 72 * Hour.
Definition summarizeInflightTTL : Z := 2 * Minute.
Definition summaryTriggerFromTimes (newestFirst : list Z) : bool :=
  let n := length newestFirst in
  if (summaryMessageThreshold <=? n)%nat then true
  else
    match newestFirst with
    | a :: b :: _ => (summaryReturnMinMessages <=? n)%nat && (SummarySessionWindow <=? a - b)
    | _ => false
    end.
(** the zero time is before every message *)
Definition getLastSummaryTime (schema convo : string) : inbound (option Z) :=
  cread schema (fun t => snd <$> latest snd (List.filter (fun s => String.eqb (fst s) convo) (summaries t))).
Definition since (last : option Z) (convo : string) (t : chat_tables) : list Z :=
  take summaryMessageThreshold (sort_by (fun a b => b <=? a)
    (map ms_created (List.filter (fun m => String.eqb (ms_convo m) convo && match last with None => true | Some x => x <? ms_created m end) (messages t)))).
Definition ShouldTriggerSummary (schema convo : string) : inbound bool :=
  let! last := getLastSummaryTime schema convo in
  let! times := cread schema (since last convo) in
  ret (summaryTriggerFromTimes times).
(** SetNX: a key that expired is gone *)
Definition acquireSummarizeInflight (convo : string) (now : Z) : inbound bool :=
  if negb (cf_redis cf) || String.eqb convo "" then ret true
  else
    let! r := attempt (stmt (fun d =>
      match in_inflight d !! convo with
      | Some until => if now <? until then (Ok false, d) else (Ok true, set_inflight (<[convo := now + summarizeInflightTTL]> (in_inflight d)) d)
      | None => (Ok true, set_inflight (<[convo := now + summarizeInflightTTL]> (in_inflight d)) d)
      end)) in
    ret (match r with Ok b => b | Err _ => false end).
Definition releaseSummarizeInflight (convo : string) : inbound unit :=
  if negb (cf_redis cf) || String.eqb convo "" then ret tt
  else ignore (exec (fun d => set_inflight (delete convo (in_inflight d)) d)).
Definition TryPublishSummarize (schema convo : string) (now : Z) : inbound unit :=
  if String.eqb schema "" || String.eqb convo "" then ret tt
  else
    let! acquired := acquireSummarizeInflight convo now in
    if negb acquired then ret tt
    else
      let! r := attempt (publish (Summarize schema convo)) in
      match r with Ok _ => ret tt | Err _ => releaseSummarizeInflight convo end.
(** [inboxrealtime.Publish] *)
Definition realtime_Publish (tenantID : string) : inbound unit :=
  if negb (cf_redis cf) || String.eqb tenantID "" then ret tt else ignore (publish (InboxActivity tenantID)).

(** ** Leads *)
Definition lead_signals : list string := ["harga"; "order"; "pesan"; "stok"; "budget"; "lokasi"; "kirim"; "cod"; "minat"].
Definition lead_metadata (text : string) : string :=
  "{" ++ quoted "source" ++ ":" ++ quoted "webhook" ++ "," ++ quoted "triggerMessage" ++ ":" ++ go_quote text ++ "}".
Definition encryptLeadName (nonce : result (list Z)) (name : string) : result (string * string) :=
  let name := TrimSpace name in
  if String.eqb name "" then Ok ("", "")
  else match Pii.Encrypt nonce name enc_key with Err e => Err e | Ok enc => Ok (enc, BlindIndex (normalize_name name) enc_key) end.
Definition update_lead (schema id : string) (ok : bool) (pick : lead_row -> bool) (f : lead_row -> lead_row) : inbound unit :=
  cexec schema ok (fun t => set_leads (map (fun l => if String.eqb (ld_id l) id && pick l then f l else l) (leads t)) t).
Definition name_lead (name enc idx : option string) (l : lead_row) : lead_row :=
  {| ld_id := ld_id l; ld_contact := ld_contact l; ld_convo := ld_convo l; ld_phone := ld_phone l; ld_phone_enc := ld_phone_enc l;
     ld_phone_idx := ld_phone_idx l; ld_name := name; ld_name_enc := enc; ld_name_idx := idx; ld_status := ld_status l;
     ld_metadata := ld_metadata l; ld_created := ld_created l; ld_deleted := ld_deleted l |}.
Record CaptureRequest := {
  CR_Schema : string; CR_ContactID : string; CR_ConversationID : string; CR_ContactName : string; CR_PhoneNumber : string; CR_Body : string
}.
Definition insert_lead (req : CaptureRequest) (ok : bool) (phone : string) (enc idx name name_enc name_idx : option string) (text : string) (now : Z) : inbound string :=
  cinsert (CR_Schema req) leads ld_id
    (fun i t => if ok && pg_text (Some 32) phone && pg_jsonb (lead_metadata text) && (negb (bool_decide (is_Some enc)) || pii_columns t) then
       Some {| ld_id := i; ld_contact := CR_ContactID req; ld_convo := CR_ConversationID req; ld_phone := phone; ld_phone_enc := enc;
               ld_phone_idx := idx; ld_name := name; ld_name_enc := name_enc; ld_name_idx := name_idx; ld_status := "new";
               ld_metadata := lead_metadata text; ld_created := now; ld_deleted := false |} else None)
    (fun l t => set_leads (leads t ++ [l])%list t).
Definition active_leads (schema : string) : inbound bool :=
  let! r := attempt (LeadPIIActive schema) in ret (match r with Ok b => b | Err _ => false end).
Definition open_lead (convo : string) (t : chat_tables) : option string :=
  ld_id <$> latest ld_created (List.filter (fun l => String.eqb (ld_convo l) convo && String.eqb (ld_status l) "new" && negb (ld_deleted l)) (leads t)).
(** naming the conversation's lead *)
Definition rename_lead (req : CaptureRequest) (id : string) : inbound unit :=
  if String.eqb (CR_ContactName req) "" then ret tt
  else
    let! usePII := active_leads (CR_Schema req) in
    if usePII then
      let! nonce := nonce_for (CR_ContactName req) in
      match encryptLeadName nonce (CR_ContactName req) with
      | Err _ => ret tt
      | Ok (enc, idx) => ignore (update_lead (CR_Schema req) id true (fun _ => true) (name_lead (Some Placeholder) (Some enc) (Some idx)))
      end
    else
      ignore (update_lead (CR_Schema req) id (pg_text (Some 120) (CR_ContactName req)) (fun l => sql_blank (ld_name l))
                (fun l => name_lead (Some (CR_ContactName req)) (ld_name_enc l) (ld_name_idx l) l)).
Definition create_lead (req : CaptureRequest) (text : string) (now : Z) : inbound string :=
  let! phone := (if String.eqb (CR_PhoneNumber req) "" then
                   let! r := attempt (contactPhoneFromScope (CR_Schema req) (CR_ContactID req)) in
                   ret (match r with Ok p => p | Err _ => "" end)
                 else ret (CR_PhoneNumber req)) in
  let name := TrimSpace (CR_ContactName req) in
  let! usePII := active_leads (CR_Schema req) in
  match usePII, ValidateKey enc_key with
  | true, None =>
      let! nonce := nonce_for phone in
      match encryptLeadPhone nonce (cf_key cf) phone with
      | Err e => throw (EWrap ("encrypt lead phone: " ++ error_text e) e)
      | Ok (phoneEnc, phoneIdx) =>
          let! nonce := nonce_for name in
          match encryptLeadName nonce name with
          | Err e => throw (EWrap ("encrypt lead name: " ++ error_text e) e)
          | Ok (nameEnc, nameIdx) =>
              insert_lead req true Placeholder (Some phoneEnc) (Some phoneIdx) (Some Placeholder) (Some nameEnc) (Some nameIdx) text now
          end
      end
  | _, _ =>
      insert_lead req (pg_text (Some 120) name) phone None None (if String.eqb name "" then None else Some name) None None text now
  end.
(** created, id *)
Definition CaptureFromMessage (req : CaptureRequest) (now : Z) : inbound (bool * string) :=
  if String.eqb (CR_Schema req) "" || String.eqb (CR_ContactID req) "" || String.eqb (CR_ConversationID req) "" then
    throw (ECode InvalidArgument "tenantSchema, contactId, conversationId required")
  else
    open_chat (CR_Schema req);!
    let text := TrimSpace (CR_Body req) in
    if String.eqb text "" then ret (false, "")
    else if negb (existsb (Contains (ToLower text)) lead_signals) then ret (false, "")
    else
      let! existing := attempt (crow (CR_Schema req) (open_lead (CR_ConversationID req))) in
      match existing with
      | Ok id => rename_lead req id;! ret (false, id)
      | Err e =>
          if negb (bool_decide (e = no_rows)) then throw (EWrap ("check existing lead: " ++ error_text e) e)
          else
            let! id := create_lead req text now in ret (true, id)
      end.

(** ** The message *)
Definition under {A} (prefix : string) (m : inbound A) : inbound A := wrapping (fun e => EWrap (prefix ++ error_text e) e) m.
Definition known_message (external : string) (t : chat_tables) : bool :=
  existsb (fun m => bool_decide (ms_external m = Some external)) (messages t).
Definition dropping {A} (d : A) (m : inbound A) : inbound A :=
  let! r := attempt m in ret (match r with Ok a => a | Err _ => d end).
(** what follows once the message is stored and the conversation updated: a
    rule or the AI answers, *)
Definition hand_on (schema convoID messageID : string) (msg : InboundMessage) (now : Z) : inbound unit :=
  let! handled := dropping false (TryRun schema convoID (IM_Body msg) now) in
  if handled then ret tt else enqueueInboundAI schema convoID messageID (IM_Type msg).
(** media, the summary, the dashboard, the lead *)
Definition follow_up (schema convoID contactID messageID : string) (msg : InboundMessage) (skipMedia : bool) (now : Z) : inbound unit :=
  (if folds_to (TrimSpace (IM_Type msg)) "image" then
     let! tenantID := dropping "" (TenantIDBySchema schema) in
     publishJobWithRetry (PublishPaymentProofJob schema tenantID convoID contactID messageID messageID)
   else ret tt);!
  (if negb skipMedia && IsPersistableMediaType (IM_Type msg) then
     publishJobWithRetry (PublishInboxMediaPersistJob schema messageID (IM_Type msg))
   else ret tt);!
  let! due := dropping false (ShouldTriggerSummary schema convoID) in
  (if due then TryPublishSummarize schema convoID now else ret tt);!
  let! tenantID := dropping "" (TenantIDBySchema schema) in
  (if String.eqb tenantID "" then ret tt else realtime_Publish tenantID);!
  let! contactPhone := dropping "" (contactPhoneFromScope schema contactID) in
  ignore (CaptureFromMessage {| CR_Schema := schema; CR_ContactID := contactID; CR_ConversationID := convoID;
                                CR_ContactName := FromDisplayName msg; CR_PhoneNumber := contactPhone; CR_Body := IM_Body msg |} now).
(** contact, conversation, message, and the conversation's preview *)
Definition store_message (schema channelID : string) (msg : InboundMessage) (afterInsert : string -> inbound unit) (now : Z)
    : inbound (string * string * string) :=
  let! contactID := under "upsert contact: " (upsertContact schema msg) in
  let! convoID := under "upsert conversation: " (upsertConversation schema channelID contactID) in
  let! messageID := under "insert message: " (insertMessage schema convoID msg now) in
  afterInsert messageID;!
  let preview := TruncateUTF8 (InboundMessagePreview (IM_Type msg) (IM_Body msg)) 280 in
  under "update conversation: " (update_convo schema (pg_text (Some 280) preview) convoID (unread_convo preview now));!
  ret (convoID, contactID, messageID).
(** the simulator's result pointer only copies ids out *)
Definition ingestResolved (schema channelID : string) (msg : InboundMessage) (afterInsert : string -> inbound unit) (skipMedia : bool) (now : Z) : inbound bool :=
  under "tenant scope: " (open_chat schema);!
  let! exists_ := under "dup check: " (cread schema (known_message (ExternalID msg))) in
  if exists_ then ret false
  else
    let! ids := store_message schema channelID msg afterInsert now in
    let '(convoID, contactID, messageID) := ids in
    hand_on schema convoID messageID msg now;!
    follow_up schema convoID contactID messageID msg skipMedia now;!
    ret true.
Definition ingestMessage (msg : InboundMessage) (now : Z) : inbound unit :=
  let! ref := under "resolve tenant: " (ResolveWhatsAppInbound (ToPhoneNumberID msg) (ToDisplayPhone msg)) in
  let! _ := ingestResolved (Ref_Schema ref) (Ref_ChannelID ref) msg (fun _ => ret tt) false now in ret tt.
(** a failed message is logged, the next one is taken in *)
Fixpoint ingest_all (messages : list InboundMessage) (now : Z) : inbound unit :=
  match messages with [] => ret tt | m :: rest => ignore (ingestMessage m now);! ingest_all rest now end.
(** the answer's status; [body] is what was read, up to 5 MiB *)
Definition receiveWebhook (body : result string) (sigHeader : string) (now : Z) : inbound Z :=
  match body with
  | Err _ => ret 400
  | Ok body =>
      let messages := ParseWebhook body in
      let! verified := attempt (verifyInboundWebhookSignature body sigHeader messages) in
      match verified with
      | Err e => ret (if String.eqb (error_text e) "phone_number_id missing" then 400 else 401)
      | Ok _ => ingest_all messages now;! ret 200
      end
  end.
End intake.
(** GET: status and the challenge *)
Definition verifyChallenge (verifyToken mode token challenge : string) : Z * string :=
  let expected := TrimSpace verifyToken in
  if String.eqb mode "subscribe" && negb (String.eqb expected "") && negb (String.eqb token "") && String.eqb token expected then (200, challenge)
  else (403, "").
