(* ===== verification/IntakeFrames.v ===== *)
(** * What taking a message in leaves alone

    [kept P m]: [m] keeps [P], whatever fails.  [routing P]: [P] does not look at
    what resolving a number writes (the routing table's new rows, a channel's
    number); [upkeep P]: nor at what follows a stored message (jobs, leads, a
    conversation handed over, quotas).  Every such operation then keeps [P]
    (the tactic [kept]). *)
From S2P Require Import Prelude GoStrings AdminSession PgTx Triples Zoom Pii Billing StockLedger ChatTables Inbound Intake.

Open Scope string_scope.
Open Scope Z_scope.

Definition kept {D A} (P : D -> Prop) (m : prog (pg D) A) : Prop := forall c, triple c P m (fun _ => P).
Record routing (P : inbound_db -> Prop) : Prop := {
  rt_new d k r : in_map d !! k = None -> P d -> P (set_map (<[k := r]> (in_map d)) d);
  rt_display d k x : P d -> P (set_map (alter (set_display x) k (in_map d)) d);
  rt_meta d s t pick meta : in_chats d !! s = Some t -> P d ->
    P (set_chats (<[s := set_channels (map (fun ch => if pick ch : bool then set_meta meta ch else ch) (channels t)) t]> (in_chats d)) d)
}.
(** statements on one tenant's tables that are not the core of the chat *)
Inductive minor : chat_tables -> chat_tables -> Prop :=
  | mi_pii t : minor t (set_pii t)
  | mi_leads l t : minor t (set_leads l t)
  | mi_new_lead l ids t : minor t (set_chat_ids ids (set_leads l t))
  | mi_handed pick t : minor t (set_convos (map (fun c => if pick c : bool then handed_convo c else c) (convos t)) t).
Record upkeep (on : string) (P : inbound_db -> Prop) : Prop := {
  uk_tables d t t' : in_chats d !! on = Some t -> minor t t' -> P d -> P (set_chats (<[on := t']> (in_chats d)) d);
  uk_billing d b : P d -> P (put_billing b d);
  uk_caches d c l : P d -> P (set_caches c l d);
  uk_inflight d m : P d -> P (set_inflight m d);
  uk_random d l : P d -> P (set_random l d);
  uk_jobs d j : P d -> P (set_jobs (in_jobs d ++ [j]) d)
}.

(** ** The structure of programs *)
Section structure.
Context {D : Type} (P : D -> Prop).
Lemma kept_ret {A} (a : A) : kept P (ret a).
Proof. intros c. by apply t_ret. Qed.
Lemma kept_throw {A} e : kept P (throw (A:=A) e).
Proof. intros c. by apply t_throw. Qed.
Lemma kept_bind {A B} (m : prog (pg D) A) (k : A -> prog (pg D) B) : kept P m -> (forall a, kept P (k a)) -> kept P (bind m k).
Proof. intros Hm Hk c. eapply t_bind; [apply Hm|intros a; apply Hk|done]. Qed.
Lemma kept_attempt {A} (m : prog (pg D) A) : kept P m -> kept P (attempt m).
Proof. intros Hm c. apply t_attempt, Hm. Qed.
Lemma kept_ignore {A} (m : prog (pg D) A) : kept P m -> kept P (ignore m).
Proof. intros Hm c. apply t_ignore, Hm. Qed.
Lemma kept_if {A} (b : bool) (m1 m2 : prog (pg D) A) : kept P m1 -> kept P m2 -> kept P (if b then m1 else m2).
Proof. by destruct b. Qed.
Lemma kept_wrapping {A} wrap (m : prog (pg D) A) : kept P m -> kept P (wrapping wrap m).
Proof. intros Hm. apply kept_bind; [by apply kept_attempt|]. intros [a|e]; [apply kept_ret|apply kept_throw]. Qed.
Lemma kept_stmt {A} (f : D -> result A * D) :
  (forall d a d', P d -> f d = (Ok a, d') -> P d') -> kept P (stmt f).
Proof.
  intros Hf c. apply t_stmt. intros d Hd. specialize (Hf d). unfold stmt_post. destruct (f d) as [[a|e] d']; [|done].
  specialize (Hf a d' Hd eq_refl). done.
Qed.
Lemma kept_read {A} (f : D -> A) : kept P (read f).
Proof. apply kept_stmt. by intros d a d' Hd [= _ <-]. Qed.
Lemma kept_exec f : (forall d, P d -> P (f d)) -> kept P (exec f).
Proof. intros Hf. apply kept_stmt. intros d a d' Hd [= _ <-]. auto. Qed.
End structure.
Section kept.
Context (P : inbound_db -> Prop).
Lemma kept_dropping {A} (a : A) (m : inbound A) : kept P m -> kept P (dropping a m).
Proof. intros Hm. apply kept_bind; [by apply kept_attempt|]. intros r. apply kept_ret. Qed.
Lemma kept_mem {A} (f : inbound_db -> A * inbound_db) : (forall d, P d -> P (snd (f d))) -> kept P (mem f).
Proof. intros Hf c. by apply t_mem. Qed.
Lemma kept_cstmt {A} s (f : chat_tables -> result A * chat_tables) :
  (forall d t a t', P d -> in_chats d !! s = Some t -> f t = (Ok a, t') -> P (set_chats (<[s := t']> (in_chats d)) d)) -> kept P (cstmt s f).
Proof. intros Hf c. apply t_cstmt. intros d Hd. split; [done|]. intros t a t' E Ef. specialize (Hf d t a t' Hd E Ef). done. Qed.
Lemma kept_cread {A} s (f : chat_tables -> A) : kept P (cread s f).
Proof. apply kept_cstmt. intros d t a t' Hd E [= _ <-]. by rewrite set_chats_same. Qed.
Lemma kept_crow {A} s (f : chat_tables -> option A) : kept P (crow s f).
Proof. apply kept_cstmt. intros d t a t' Hd E. destruct (f t); [|done]. intros [= _ <-]. by rewrite set_chats_same. Qed.
Lemma kept_cexec s ok f : (forall d t, P d -> in_chats d !! s = Some t -> P (set_chats (<[s := f t]> (in_chats d)) d)) -> kept P (cexec s ok f).
Proof. intros Hf. apply kept_cstmt. intros d t a t' Hd E. destruct ok; [|done]. intros [= _ <-]. auto. Qed.
Lemma kept_open s : kept P (open_chat s).
Proof. unfold open_chat. destruct (ValidateTenantSchemaName s); [apply kept_throw|apply kept_ret]. Qed.
End kept.
Create HintDb kept.
#[export] Hint Resolve kept_ret kept_throw kept_attempt kept_ignore kept_wrapping kept_dropping kept_read kept_cread kept_crow kept_open : kept.
Ltac kept := intros; repeat first
  [ solve [auto with kept]
  | match goal with
    | |- kept _ (bind _ _) => apply kept_bind; [|intros ?]
    | |- kept _ (attempt _) => apply kept_attempt
    | |- kept _ (ignore _) => apply kept_ignore
    | |- kept _ (wrapping _ _) => apply kept_wrapping
    | |- kept _ (dropping _ _) => apply kept_dropping
    | |- kept _ (match ?x with _ => _ end) => destruct x
    end; cbv zeta ].

(** ** Resolving a number *)
Section routes.
Context {WJ : WebhookJson} {PT : PgText} (P : inbound_db -> Prop) (HP : routing P).
Lemma kept_map_row meta : kept P (map_row meta).
Proof. apply kept_stmt. intros d a d' Hd. destruct (in_map d !! meta); [|done]. by intros [= _ <-]. Qed.
Hint Resolve kept_map_row : kept.
Lemma kept_Register s ch meta disp : kept P (RegisterWhatsAppInbound s ch meta disp).
Proof.
  unfold RegisterWhatsAppInbound. cbv zeta. kept.
  - apply kept_stmt. intros d x d' Hd. case_match; [|done]. intros [= _ <-]. by apply (rt_display _ HP).
  - apply kept_stmt. intros d x d' Hd. destruct (pg_uuid _); [|done]. destruct (in_map d !! TrimSpace meta) eqn:E; [done|].
    case_match; [|done]. intros [= _ <-]. by apply (rt_new _ HP).
Qed.
Lemma kept_scan find schemas : kept P (scan_schemas find schemas).
Proof. induction schemas; cbn [scan_schemas]; kept. Qed.
Lemma kept_backfill s ch meta : kept P (backfill_meta s ch meta).
Proof. apply kept_cexec. intros d t Hd E. by apply (rt_meta _ HP d s t (fun c => String.eqb (wc_id c) ch)). Qed.
Hint Resolve kept_Register kept_scan kept_backfill : kept.
Lemma kept_Resolve meta disp : kept P (ResolveWhatsAppInbound meta disp).
Proof. unfold ResolveWhatsAppInbound, resolveInboundChannelScan, resolve_by_phone, ListSchemaNames. cbv zeta. kept. Qed.
Hint Resolve kept_Resolve : kept.
Lemma kept_lookup meta disp : kept P (lookupChannelMetaAppSecret meta disp).
Proof. unfold lookupChannelMetaAppSecret, channel_secret. cbv zeta. kept. Qed.
Hint Resolve kept_lookup : kept.
Lemma kept_verify body header messages : kept P (verifyInboundWebhookSignature body header messages).
Proof. unfold verifyInboundWebhookSignature. cbv zeta. kept. Qed.
End routes.

(** ** What follows a stored message *)
Section upkeep.
Context {HG : Gcm} {WJ : WebhookJson} {PT : PgText} {CT : ChatText} (cf : intake_config) (on : string) (P : inbound_db -> Prop) (HP : upkeep on P).
Lemma kept_caches s b : kept P (storeContactPII s b) /\ kept P (storeLeadPII s b) /\ kept P (InvalidateContactPIICache s).
Proof. split_and!; apply kept_mem; intros d Hd; cbn; case_match; try done; by apply (uk_caches _ _ HP). Qed.
Lemma kept_store_contact s b : kept P (storeContactPII s b).
Proof. apply (kept_caches s b). Qed.
Lemma kept_store_lead s b : kept P (storeLeadPII s b).
Proof. apply (kept_caches s b). Qed.
Lemma kept_invalidate s : kept P (InvalidateContactPIICache s).
Proof. apply (kept_caches s true). Qed.
Lemma kept_cached s : kept P (cachedContactPII s) /\ kept P (cachedLeadPII s).
Proof. split; by apply kept_mem. Qed.
Lemma kept_cached_contact s : kept P (cachedContactPII s).
Proof. apply kept_cached. Qed.
Lemma kept_cached_lead s : kept P (cachedLeadPII s).
Proof. apply kept_cached. Qed.
Hint Resolve kept_store_contact kept_store_lead kept_invalidate kept_cached_contact kept_cached_lead : kept.
Lemma kept_ContactPIIActive s : kept P (ContactPIIActive s).
Proof. unfold ContactPIIActive, contactPIIActiveUncached, columns_exist. kept. Qed.
Lemma kept_LeadPIIActive s : kept P (LeadPIIActive s).
Proof. unfold LeadPIIActive, leadPIIActiveUncached, columns_exist. kept. Qed.
Lemma kept_tables {A} (f : chat_tables -> result A * chat_tables) : (forall t a t', f t = (Ok a, t') -> minor t t') -> kept P (cstmt on f).
Proof. intros Hf. apply kept_cstmt. intros d t a t' Hd E Ef. apply (uk_tables _ _ HP d t); eauto. Qed.
Lemma kept_minor ok f : (forall t, minor t (f t)) -> kept P (cexec on ok f).
Proof. intros Hf. apply kept_tables. intros t a t'. destruct ok; [|done]. by intros [= _ <-]. Qed.
Lemma kept_patches : kept P (RunPIISchemaPatches on).
Proof. unfold RunPIISchemaPatches. kept. apply kept_minor. intros t. constructor. Qed.
Lemma kept_draw : kept P draw_nonce.
Proof. apply kept_mem. intros d Hd. by apply (uk_random _ _ HP). Qed.
Lemma kept_publish j : kept P (publish j).
Proof. apply kept_exec. intros d Hd. by apply (uk_jobs _ _ HP). Qed.
Hint Resolve kept_ContactPIIActive kept_LeadPIIActive kept_patches kept_draw kept_publish : kept.
Lemma kept_nonce plain : kept P (nonce_for cf plain).
Proof. unfold nonce_for. kept. Qed.
Lemma kept_ready : kept P (contactPIIReady cf on).
Proof. unfold contactPIIReady, columns_exist, MarkContactPIIActive. kept. Qed.
Lemma kept_phone s id : kept P (contactPhoneFromScope cf s id).
Proof. unfold contactPhoneFromScope. kept. Qed.
Hint Resolve kept_nonce kept_ready kept_phone : kept.
Lemma kept_encrypting plain : kept P (encrypting cf plain).
Proof. unfold encrypting. kept. Qed.
Lemma kept_tenant s : kept P (TenantIDBySchema s).
Proof. apply kept_stmt. intros d a d' Hd. destruct (List.find _ _); [|done]. by intros [= _ <-]. Qed.
Hint Resolve kept_encrypting kept_tenant : kept.
Lemma kept_no_author ok ext m : kept P (insert_message on ok ext None m).
Proof. apply kept_cstmt. intros d t a t' Hd E. by destruct (chat_ids t). Qed.
Lemma kept_handed ok id : kept P (update_convo on ok id handed_convo).
Proof. apply kept_minor. intros t. apply (mi_handed (fun c => String.eqb (cv_id c) id)). Qed.
Lemma kept_billed {A} (m : prog (pg billing_db) A) : kept (fun _ => True) m -> kept P (billed m).
Proof.
  intros Hm c. eapply t_conseq; [apply (zoom_triple in_billing put_billing c _ m _ P (fun b d Hd => uk_billing _ _ HP d b Hd) (Hm c))|done|].
  by intros r d [_ Hd].
Qed.
Lemma kept_any {D A} (f : D -> result A * D) : kept (fun _ => True) (stmt f).
Proof. by apply kept_stmt. Qed.
Hint Extern 1 (kept _ (tstmt _ _)) => apply kept_any : kept.
Hint Extern 1 (kept _ (tread _ _)) => apply kept_any : kept.
Hint Extern 1 (kept _ (texec _ _)) => apply kept_any : kept.
Hint Extern 1 (kept _ (query_row _ _)) => apply kept_any : kept.
Lemma kept_plan s : kept (fun _ => True) (getTenantPlan s).
Proof. unfold getTenantPlan. kept. Qed.
Hint Resolve kept_plan : kept.
Lemma kept_Require s f : kept P (billed (Require_ s f)).
Proof. apply kept_billed. unfold Require_. kept. Qed.
Lemma kept_quota s et now : kept P (billed (CheckQuota s et now)).
Proof. apply kept_billed. unfold CheckQuota, quotaTopups. cbv zeta. kept. Qed.
Lemma kept_event s et q now : kept P (billed (RecordEvent s et q now)).
Proof. apply kept_billed. unfold RecordEvent, with_prefix. kept. Qed.
Hint Resolve kept_no_author kept_handed kept_Require kept_quota kept_event : kept.
Lemma kept_action convo action payload now : kept P (runAction on convo action payload now).
Proof.
  unfold runAction. cbv zeta. apply kept_if; [|kept].
  (* the reply is never inserted: what follows it never runs *)
  intros c. eapply t_bind; [apply (t_cstmt _ _ _ _ (fun r d => P d /\ forall a, r <> Ok a))| |].
  - intros d Hd. split; [by split|]. intros t a t' _. by destruct (chat_ids t).
  - intros a w _ [_ Hno]. by destruct (Hno a).
  - naive_solver.
Qed.
Hint Resolve kept_action : kept.
Lemma kept_rules convo body now rows : kept P (try_rules on convo body now rows).
Proof. induction rows as [|r rows IH]; cbn [try_rules]; kept. Qed.
Hint Resolve kept_rules : kept.
Lemma kept_TryRun convo body now : kept P (TryRun on convo body now).
Proof. unfold TryRun. kept. Qed.
Lemma kept_attempts n m : kept P m -> kept P (publish_attempts n m).
Proof. intros Hm. induction n; cbn [publish_attempts]; kept. Qed.
Lemma kept_retry m : kept P m -> kept P (publishJobWithRetry m).
Proof. apply kept_attempts. Qed.
Hint Resolve kept_TryRun kept_retry : kept.
Lemma kept_enqueue s convo msg type : kept P (enqueueInboundAI cf s convo msg type).
Proof.
  unfold enqueueInboundAI. apply kept_if; [apply kept_mem; intros d Hd; by apply (uk_jobs _ _ HP)|]. apply kept_retry. unfold PublishInboundJob. kept.
Qed.
Lemma kept_proof s tenant convo contact msg i : kept P (publishJobWithRetry (PublishPaymentProofJob s tenant convo contact msg i)).
Proof. apply kept_retry. unfold PublishPaymentProofJob. kept. Qed.
Lemma kept_media s msg type : kept P (publishJobWithRetry (PublishInboxMediaPersistJob s msg type)).
Proof. apply kept_retry. unfold PublishInboxMediaPersistJob. kept. Qed.
Lemma kept_due s convo : kept P (ShouldTriggerSummary s convo).
Proof. unfold ShouldTriggerSummary, getLastSummaryTime. kept. Qed.
Lemma kept_summarize s convo now : kept P (TryPublishSummarize cf s convo now).
Proof.
  unfold TryPublishSummarize, acquireSummarizeInflight, releaseSummarizeInflight. kept.
  - apply kept_stmt. intros d x d' Hd. destruct (in_inflight d !! convo); [case_match|]; intros [= _ <-]; try done; by apply (uk_inflight _ _ HP).
  - apply kept_exec. intros d Hd. by apply (uk_inflight _ _ HP).
Qed.
Lemma kept_realtime t : kept P (realtime_Publish cf t).
Proof. unfold realtime_Publish. kept. Qed.
Hint Resolve kept_enqueue kept_proof kept_media kept_due kept_summarize kept_realtime : kept.
Lemma kept_update_lead id ok pick f : kept P (update_lead on id ok pick f).
Proof. apply kept_minor. intros t. constructor. Qed.
Lemma kept_insert_lead req ok phone enc idx name nenc nidx text now : CR_Schema req = on -> kept P (insert_lead req ok phone enc idx name nenc nidx text now).
Proof.
  intros E. unfold insert_lead. rewrite E. apply kept_tables. intros t a t'. destruct (chat_ids t) as [|i ids]; [done|].
  destruct (if _ : bool then Some _ else None) as [l|]; [|done]. destruct (existsb _ _); [done|]. intros [= _ <-]. constructor.
Qed.
Hint Resolve kept_update_lead kept_insert_lead : kept.
Lemma kept_capture req now : CR_Schema req = on -> kept P (CaptureFromMessage cf req now).
Proof. intros E. assert (forall ok phone enc idx name nenc nidx text, kept P (insert_lead req ok phone enc idx name nenc nidx text now)) by (intros; by apply kept_insert_lead).
  unfold CaptureFromMessage, rename_lead, create_lead, active_leads. cbv zeta. rewrite E. kept. Qed.
Hint Resolve kept_capture : kept.
Lemma kept_hand_on convo id m now : kept P (hand_on cf on convo id m now).
Proof. unfold hand_on. kept. Qed.
Lemma kept_follow_up convo contact id m skip now : kept P (follow_up cf on convo contact id m skip now).
Proof. unfold follow_up. kept. Qed.
End upkeep.

(** ** Editing rules *)
Section rules.
Context {PT : PgText} (P : inbound_db -> Prop) (HP : forall on, upkeep on P).
Context (HR : forall on d t l ids, in_chats d !! on = Some t -> P d -> P (set_chats (<[on := set_chat_ids ids (set_rules l t)]> (in_chats d)) d)).
Lemma kept_editor {A} u valid (k : string -> inbound A) : (forall s, kept P (k s)) -> kept P (as_rule_editor u valid k).
Proof.
  intros Hk. unfold as_rule_editor. destruct (authUser u) as [user|e]; [|apply kept_throw]. apply kept_bind; [by apply (kept_Require (TenantSchema user))|].
  intros _. destruct valid; [apply kept_throw|]. kept.
Qed.
Lemma kept_rule_answer e m : kept P m -> kept P (rule_answer e m).
Proof. intros Hm. unfold rule_answer. kept. Qed.
Lemma kept_change_rule s id ok f : kept P (change_rule s id ok f).
Proof.
  apply kept_cstmt. intros d t a t' Hd E. destruct (pg_uuid id); [|done]. cbv zeta. destruct (negb ok); [done|]. destruct (existsb _ _); [|done].
  intros [= _ <-]. exact (HR s d t _ (chat_ids t) E Hd).
Qed.
Lemma kept_CreateRule u req now : kept P (CreateRule u req now).
Proof.
  apply kept_editor. intros s. unfold failing. apply kept_bind; [|intros [a|e]; [apply kept_ret|apply kept_throw]]. apply kept_attempt.
  apply kept_cstmt. intros d t a t' Hd E. destruct (chat_ids t) as [|i ids]; [done|].
  destruct (if _ : bool then (_ <$> _) else None) as [r|]; [|done]. destruct (existsb _ _); [done|]. intros [= _ <-]. exact (HR s d t _ ids E Hd).
Qed.
Lemma kept_UpdateRule u id req : kept P (UpdateRule u id req).
Proof. apply kept_editor. intros s. apply kept_rule_answer, kept_change_rule. Qed.
Lemma kept_DeleteRule u id : kept P (DeleteRule u id).
Proof. apply kept_editor. intros s. apply kept_rule_answer, kept_change_rule. Qed.
End rules.

(** ** Contacts *)
Section people.
Context {HG : Gcm} {PT : PgText} (cf : intake_config) (on : string) (P : inbound_db -> Prop) (HU : upkeep on P).
Context (HP : forall d t l ids, in_chats d !! on = Some t -> P d -> P (set_chats (<[on := set_chat_ids ids (set_contacts l t)]> (in_chats d)) d)).
Lemma kept_insert_contact pii ok row : kept P (insert_contact on pii ok row).
Proof.
  apply kept_cstmt. intros d t a t' Hd E. destruct (chat_ids t) as [|i ids]; [done|].
  destruct (if _ : bool then Some (row i) else None) as [r|]; [|done]. destruct (existsb _ _); [done|]. intros [= _ <-]. by apply HP.
Qed.
Lemma kept_update_contact ok id pick f : kept P (cexec on ok (update_contact id pick f)).
Proof. apply kept_cexec. intros d t Hd E. exact (HP d t _ (chat_ids t) E Hd). Qed.
Lemma kept_find_contact f : kept P (find_contact on f).
Proof. apply kept_crow. Qed.
Hint Resolve kept_insert_contact kept_update_contact kept_find_contact : kept.
Lemma kept_upsertContact msg : kept P (upsertContact cf on msg).
Proof.
  pose proof (kept_ready cf on P HU). pose proof (kept_encrypting cf on P HU). pose proof (kept_ContactPIIActive on P HU on).
  unfold upsertContact, upsertContactLegacy. cbv zeta. kept.
Qed.
End people.

(** ** Everything but the tenant the message is for *)
Record elsewhere (on : string) (P : inbound_db -> Prop) : Prop := {
  ew_tables d t t' : in_chats d !! on = Some t -> P d -> P (set_chats (<[on := t']> (in_chats d)) d);
  ew_upkeep : upkeep on P
}.
Section elsewhere.
Context {HG : Gcm} {WJ : WebhookJson} {PT : PgText} {CT : ChatText} (cf : intake_config) (on : string) (P : inbound_db -> Prop) (HP : elsewhere on P).
Lemma kept_on {A} (f : chat_tables -> result A * chat_tables) : kept P (cstmt on f).
Proof. apply kept_cstmt. intros d t a t' Hd E _. by apply (ew_tables _ _ HP d t). Qed.
Hint Extern 1 (kept _ (cexec _ _ _)) => apply kept_on : kept.
Hint Extern 1 (kept _ (cinsert _ _ _ _ _)) => apply kept_on : kept.
Hint Extern 1 (kept _ (update_convo _ _ _ _)) => apply kept_on : kept.
Hint Extern 1 (kept _ (insertMessage _ _ _ _)) => apply kept_on : kept.
Lemma kept_ingest ch msg after skip now : (forall id, kept P (after id)) -> kept P (ingestResolved cf on ch msg after skip now).
Proof.
  intros Hafter. pose proof (kept_hand_on cf on P (ew_upkeep _ _ HP)). pose proof (kept_follow_up cf on P (ew_upkeep _ _ HP)). pose proof (kept_upsertContact cf on P (ew_upkeep _ _ HP) (fun d t l ids => ew_tables _ _ HP d t _)).
  unfold ingestResolved, store_message, upsertConversation, under. cbv zeta. kept.
Qed.
End elsewhere.
