(* ===== verification/IntakeSafe.v ===== *)
(** * The chat's tables, whatever arrives

    The invariant of a tenant's chat ([sound]) and that taking a message in
    keeps it, whatever fails; where every message came from ([Src], a parameter
    that grows with the conversations). *)
From S2P Require Import Prelude GoStrings AdminSession PgTx Triples Zoom Pii Billing StockLedger ChatTables Inbound Intake IntakeFrames.

Open Scope string_scope.
Open Scope Z_scope.

(** ** What the invariant looks at *)
Record convo_key := { kc_id : string; kc_channel : string; kc_contact : string; kc_unread : Z }.
Record core := { k_contacts : list string; k_convos : list convo_key; k_messages : list message_row }.
Definition key_of (c : convo_row) : convo_key :=
  {| kc_id := cv_id c; kc_channel := cv_channel c; kc_contact := cv_contact c; kc_unread := cv_unread c |}.
Definition core_of (t : chat_tables) : core :=
  {| k_contacts := map ct_id (contacts t); k_convos := map key_of (convos t); k_messages := messages t |}.
Definition is_inbound (convo : string) (m : message_row) : bool := String.eqb (ms_direction m) "in" && String.eqb (ms_convo m) convo.
Definition arrivals (convo : string) (l : list message_row) : Z := Z.of_nat (length (List.filter (is_inbound convo) l)).
Definition sides (l : list convo_key) : list (string * string) := map (fun k => (kc_id k, kc_channel k)) l.
Record sound (k : core) : Prop := {
  so_contacts : NoDup (k_contacts k);
  so_convos : NoDup (map kc_id (k_convos k));
  so_pairs : NoDup (map (fun x => (kc_channel x, kc_contact x)) (k_convos k));
  so_people : Forall (fun x => kc_contact x ∈ k_contacts k) (k_convos k);
  so_messages : NoDup (map ms_id (k_messages k));
  so_external : NoDup (omap ms_external (k_messages k));
  so_homes : Forall (fun m => ms_convo m ∈ map kc_id (k_convos k)) (k_messages k);
  so_unread : Forall (fun x => 0 <= kc_unread x <= arrivals (kc_id x) (k_messages k)) (k_convos k)
}.
(** a predicate of every tenant's chat *)
Definition every (F : string -> core -> Prop) (d : inbound_db) : Prop := forall s t, in_chats d !! s = Some t -> F s (core_of t).

Lemma minor_core t t' : minor t t' -> core_of t' = core_of t.
Proof.
  intros [| | |pick t1]; try done. unfold core_of. f_equal. cbn. rewrite map_map. apply map_ext. intros c. by destruct (pick c).
Qed.
Lemma every_put F d s t t' : in_chats d !! s = Some t -> (F s (core_of t) -> F s (core_of t')) -> every F d -> every F (set_chats (<[s := t']> (in_chats d)) d).
Proof.
  intros E Ht Hd s' u. cbn. intros [[<- <-]|[Hne H]]%lookup_insert_Some; [|by apply Hd]. apply Ht. by apply Hd.
Qed.
Lemma every_routing F : routing (every F).
Proof. split; [intros; assumption|intros; assumption|]. intros d s t pick meta E. by apply (every_put F d s t). Qed.
Lemma every_upkeep on F : upkeep on (every F).
Proof. split; [|intros; assumption ..]. intros d t t' E Hm. apply (every_put F d on t); [done|]. by rewrite (minor_core _ _ Hm). Qed.
Lemma every_rules F on d t l ids : in_chats d !! on = Some t -> every F d -> every F (set_chats (<[on := set_chat_ids ids (set_rules l t)]> (in_chats d)) d).
Proof. intros E. by apply (every_put F d on t). Qed.
Lemma every_weaken (F G : string -> core -> Prop) d : (forall s k, F s k -> G s k) -> every F d -> every G d.
Proof. intros H Hd s t E. apply H. by apply Hd. Qed.

(** a statement on one tenant: from [F] to [G a] there, and [G a] says more than [F] *)
Definition post {A} (F : string -> core -> Prop) (G : A -> string -> core -> Prop) (r : result A) : inbound_db -> Prop :=
  match r with Ok a => every (G a) | Err _ => every F end.
Lemma every_cstmt {A} c F (G : A -> string -> core -> Prop) s (f : chat_tables -> result A * chat_tables) :
  (forall t a t', F s (core_of t) -> f t = (Ok a, t') -> G a s (core_of t')) ->
  (forall a s' k, s' <> s -> F s' k -> G a s' k) -> (forall a s' k, G a s' k -> F s' k) ->
  triple c (every F) (cstmt s f) (post F G).
Proof.
  intros Hs Hother Hweak. apply t_cstmt. intros d Hd. split; [done|]. intros t a t' E Ef.
  assert (every (G a) (set_chats (<[s := t']> (in_chats d)) d)) as HG.
  { intros s' u. cbn. intros [[<- <-]|[Hne H]]%lookup_insert_Some; [by eapply Hs; [apply Hd|]|]. apply Hother; [done|by apply Hd]. }
  split; [done|]. intros e. cbn. eapply every_weaken; [apply Hweak|exact HG].
Qed.
Lemma post_bind {A B} c F G (m : inbound A) (k : A -> inbound B) Q :
  triple c (every F) m (post F G) -> (forall a, triple c (every (G a)) (k a) Q) -> (forall e d, every F d -> Q (Err e) d) ->
  triple c (every F) (bind m k) Q.
Proof. intros Hm Hk He. eapply t_bind; [exact Hm|exact Hk|exact He]. Qed.
Lemma post_wrapping {A} c F G wrap (m : inbound A) : triple c (every F) m (post F G) -> triple c (every F) (wrapping wrap m) (post F G).
Proof. intros Hm. apply wrapping_triple. eapply t_conseq; [exact Hm|done|]. by intros [a|e]. Qed.
Lemma post_attempt_bind {A B} c F G (m : inbound A) (k : result A -> inbound B) Q :
  triple c (every F) m (post F G) -> (forall a, triple c (every (G a)) (k (Ok a)) Q) -> (forall e, triple c (every F) (k (Err e)) Q) ->
  triple c (every F) (bind (attempt m) k) Q.
Proof.
  intros Hm Hk He. eapply t_bind; [apply (t_attempt _ _ _ (fun r d => match r with Ok x => post F G x d | Err _ => False end)), Hm|..].
  - intros [a|e]; [apply Hk|apply He].
  - done.
Qed.
Lemma post_kept {A} c F (m : inbound A) : kept (every F) m -> triple c (every F) m (post F (fun _ => F)).
Proof. intros Hm. eapply t_conseq; [apply Hm|done|]. by intros [a|e]. Qed.
Lemma post_kept_bind {A B} c F (m : inbound A) (k : A -> inbound B) Q :
  kept (every F) m -> (forall a, triple c (every F) (k a) Q) -> (forall e d, every F d -> Q (Err e) d) -> triple c (every F) (bind m k) Q.
Proof. intros Hm. eapply post_bind, post_kept, Hm. Qed.

(** ** What is known of one tenant, besides *)
Definition knows (s : string) (X : core -> Prop) (F : string -> core -> Prop) (s' : string) (k : core) : Prop := F s' k /\ (s' = s -> X k).
Definition with_contact (s id : string) := knows s (fun k => id ∈ k_contacts k).
Definition with_convo (s convo channel : string) := knows s (fun k => (convo, channel) ∈ sides (k_convos k)).
(** one more message than the conversation has unread *)
Definition with_slack (s convo : string) :=
  knows s (fun k => Forall (fun x => kc_id x = convo -> kc_unread x + 1 <= arrivals convo (k_messages k)) (k_convos k)).
Lemma knows_weak s X F s' k : knows s X F s' k -> F s' k.
Proof. by intros [? _]. Qed.
Lemma every_knew s X F d : every (knows s X F) d -> every F d.
Proof. apply every_weaken, knows_weak. Qed.
(** a statement that keeps [F] and after which more is known *)
Lemma every_knows {A} c F (X : A -> core -> Prop) s (f : chat_tables -> result A * chat_tables) :
  (forall t a t', F s (core_of t) -> f t = (Ok a, t') -> F s (core_of t') /\ X a (core_of t')) ->
  triple c (every F) (cstmt s f) (post F (fun a => knows s (X a) F)).
Proof. intros Hf. apply every_cstmt; unfold knows; [|naive_solver..]. intros t a t' Ht Ef. specialize (Hf t a t' Ht Ef). naive_solver. Qed.

Section store.
Context {HG : Gcm} {WJ : WebhookJson} {PT : PgText} {CT : ChatText} (cf : intake_config).
Context (Src : string -> list (string * string) -> message_row -> Prop) (Src_mono : forall s l l' m, l ⊆ l' -> Src s l m -> Src s l' m).
Definition fine (s : string) (k : core) : Prop := sound k /\ Forall (Src s (sides (k_convos k))) (k_messages k).

(** *** Contacts *)
Lemma find_contact_knows c F s f : triple c (every F) (find_contact s f) (post F (fun id => with_contact s id F)).
Proof.
  apply every_knows. intros t a t' Ht. destruct (List.find _ _) as [x|] eqn:E; cbn; [|done]. intros [= <- <-].
  split; [done|]. apply find_some in E as [E _]. apply list_elem_of_In. cbn. by apply List.in_map.
Qed.
Lemma kept_names F s id ok pick f : (forall c, ct_id (f c) = ct_id c) -> kept (every F) (cexec s ok (update_contact id pick f)).
Proof.
  intros Hf. apply kept_cexec. intros d t Hd E. apply (every_put F d s t); [done| |done].
  assert (core_of (update_contact id pick f t) = core_of t) as ->; [|done].
  unfold core_of. f_equal. cbn. rewrite map_map. apply map_ext. intros x. case_match; auto.
Qed.
Lemma fine_contact s k i : i ∉ k_contacts k -> fine s k ->
  fine s {| k_contacts := k_contacts k ++ [i]; k_convos := k_convos k; k_messages := k_messages k |}.
Proof.
  intros Hi [Hk HS]. split; [|done]. destruct Hk as [H1 H2 H3 H4 H5 H6 H7 H8]. split; try done; cbn.
  - apply NoDup_app. split_and!; [done| |by apply NoDup_singleton]. intros x Hx ->%list_elem_of_singleton. done.
  - eapply Forall_impl; [exact H4|]. cbn. intros x Hx. apply elem_of_app. by left.
Qed.
Lemma not_there {A} (key : A -> string) (rows : list A) i : existsb (fun x => String.eqb (key x) i) rows = false -> i ∉ map key rows.
Proof.
  intros Hn (x & <- & Hx)%list_elem_of_In%in_map_iff. apply Bool.not_true_iff_false in Hn. apply Hn, existsb_exists. exists x. split; [done|apply String.eqb_refl].
Qed.
Lemma insert_contact_knows c s pii ok row : (forall i, ct_id (row i) = i) ->
  triple c (every fine) (insert_contact s pii ok row) (post fine (fun id => with_contact s id fine)).
Proof.
  intros Hrow. apply every_knows. intros t a t' Ht. destruct (chat_ids t) as [|i ids]; [done|]. case_match eqn:E; [|done].
  destruct (existsb _ _) eqn:Hn; [done|]. intros [= <- <-]. apply not_there in Hn.
  assert (ct_id c0 = i) as Hi by (case_match; simplify_eq; apply Hrow).
  unfold core_of. cbn. rewrite map_app. cbn. rewrite Hi. split; [by apply (fine_contact s (core_of t))|]. apply elem_of_app. right. by left.
Qed.
Lemma named_knows c s id ok pick f : (forall x, ct_id (f x) = ct_id x) ->
  triple c (every (with_contact s id fine)) (ignore (cexec s ok (update_contact id pick f));! ret id) (post fine (fun id => with_contact s id fine)).
Proof.
  intros Hf. apply post_kept_bind; [|intros _; by apply t_ret|].
  - apply kept_ignore, kept_names, Hf.
  - intros e d Hd. exact (every_knew _ _ _ _ Hd).
Qed.
Lemma legacy_knows c s phone name : triple c (every fine) (upsertContactLegacy s phone name) (post fine (fun id => with_contact s id fine)).
Proof.
  unfold upsertContactLegacy. eapply post_attempt_bind; [apply find_contact_knows|..].
  - intros id. apply t_if; intros _; [by apply named_knows|by apply t_ret].
  - intros e. apply t_if; intros _; [by apply t_throw|by apply insert_contact_knows].
Qed.
Lemma upsertContact_knows c s msg : triple c (every fine) (upsertContact cf s msg) (post fine (fun id => with_contact s id fine)).
Proof.
  pose proof (every_upkeep s fine) as HU. unfold upsertContact. cbv zeta. apply post_kept_bind; [by apply kept_ready| |done]. intros usePII.
  apply t_if; intros _.
  - apply post_kept_bind; [|intros _; apply legacy_knows|done]. destruct (ValidateKey _); [apply kept_ret|]. apply kept_ignore. by eapply kept_ContactPIIActive.
  - eapply post_attempt_bind; [apply find_contact_knows|..].
    + intros id. apply t_if; intros _; [|by apply t_ret]. apply post_kept_bind.
      * eapply kept_encrypting, (every_upkeep s).
      * intros enc. by apply named_knows.
      * intros e d Hd. exact (every_knew _ _ _ _ Hd).
    + intros e. apply t_if; intros _; [by apply t_throw|]. apply post_kept_bind; [by eapply kept_encrypting| |done]. intros [enc|e']; [|by apply t_throw].
      apply t_if; intros _; [|by apply insert_contact_knows]. apply post_kept_bind; [by eapply kept_encrypting| |done]. intros [enc'|e']; [|by apply t_throw].
      by apply insert_contact_knows.
Qed.
(** *** Conversations *)
Lemma sides_app l x : sides (l ++ [x]) = (sides l ++ [(kc_id x, kc_channel x)])%list.
Proof. unfold sides. by rewrite map_app. Qed.
Lemma arrivals_nonneg convo l : 0 <= arrivals convo l.
Proof. unfold arrivals. lia. Qed.
Lemma fine_convo s k i ch ct : i ∉ map kc_id (k_convos k) -> (ch, ct) ∉ map (fun x => (kc_channel x, kc_contact x)) (k_convos k) ->
  ct ∈ k_contacts k -> fine s k ->
  fine s {| k_contacts := k_contacts k; k_messages := k_messages k;
            k_convos := k_convos k ++ [{| kc_id := i; kc_channel := ch; kc_contact := ct; kc_unread := 0 |}] |}.
Proof.
  intros Hi Hp Hct [[H1 H2 H3 H4 H5 H6 H7 H8] HS]. split; [split; try done; cbn|cbn].
  - rewrite map_app. apply NoDup_app. split_and!; [done| |by apply NoDup_singleton]. intros x Hx ->%list_elem_of_singleton. done.
  - rewrite map_app. apply NoDup_app. split_and!; [done| |by apply NoDup_singleton]. intros x Hx ->%list_elem_of_singleton. done.
  - apply Forall_app. split; [done|]. by apply Forall_singleton.
  - eapply Forall_impl; [exact H7|]. cbn. intros m Hm. rewrite map_app. apply elem_of_app. by left.
  - apply Forall_app. split; [done|]. apply Forall_singleton. cbn. pose proof (arrivals_nonneg i (k_messages k)). lia.
  - rewrite sides_app. eapply Forall_impl; [exact HS|]. intros m. apply Src_mono. set_solver.
Qed.
Lemma map_key_of (g : convo_key -> string) (h : convo_row -> string) l : (forall c, g (key_of c) = h c) -> map g (map key_of l) = map h l.
Proof. intros Hg. rewrite map_map. by apply map_ext. Qed.
Lemma upsertConversation_knows c s ch ct :
  triple c (every (with_contact s ct fine)) (upsertConversation s ch ct) (post fine (fun id => with_convo s id ch fine)).
Proof.
  unfold upsertConversation. eapply post_attempt_bind; [apply (every_knows _ _ (fun id k => (id, ch) ∈ sides (k_convos k)))|..].
  - intros t a t' Ht. destruct (List.find _ _) as [x|] eqn:E; cbn; [|done]. intros [= <- <-]. split; [done|].
    apply find_some in E as [E [Hch _]%andb_prop]. apply String.eqb_eq in Hch as <-. unfold sides. rewrite map_map.
    apply list_elem_of_In, in_map_iff. by exists x.
  - intros id. apply t_ret. intros d Hd. eapply every_weaken; [|exact Hd]. intros s' k [[Hf _] Hx]. by split.
  - intros e. apply t_if; intros _; [apply t_throw; intros d; apply every_knew|].
    eapply t_conseq; [apply (every_knows _ (with_contact s ct fine) (fun id k => fine s k /\ (id, ch) ∈ sides (k_convos k)) s)|done|].
    + intros t a t' [Ht Hct]. specialize (Hct eq_refl). destruct (chat_ids t) as [|i ids]; [done|]. destruct (existsb (of_pair ch ct) (convos t)) eqn:Hp; [done|].
      destruct (existsb (fun x => String.eqb (cv_id x) i) (convos t)) eqn:Hn; [done|]. intros [= <- <-]. apply not_there in Hn.
      unfold core_of. cbn. rewrite map_app. cbn.
      assert (fine s {| k_contacts := map ct_id (contacts t); k_messages := messages t;
        k_convos := map key_of (convos t) ++ [{| kc_id := i; kc_channel := ch; kc_contact := ct; kc_unread := 0 |}] |}) as Hf.
      { apply (fine_convo s (core_of t)); [|..|done|done]; cbn.
        - by rewrite (map_key_of _ cv_id).
        - rewrite map_map. intros (x & Hx & Hin)%list_elem_of_In%in_map_iff. cbn in Hx. injection Hx as Hx1 Hx2.
          apply Bool.not_true_iff_false in Hp. apply Hp, existsb_exists. exists x. split; [done|]. unfold of_pair. by rewrite Hx1, Hx2, !String.eqb_refl. }
      split; [|split; [exact Hf|]].
      * by split.
      * rewrite sides_app. apply elem_of_app. right. by left.
    + intros [a|e'] d Hd; [|by eapply every_knew]. eapply every_weaken; [|exact Hd]. intros s' k [[Hf _] Hx]. split; [done|]. naive_solver.
Qed.

(** *** Messages *)
Lemma fine_message s k m convo ch : (convo, ch) ∈ sides (k_convos k) -> ms_convo m = convo -> ms_direction m = "in" ->
  ms_id m ∉ map ms_id (k_messages k) -> (forall e, ms_external m = Some e -> e ∉ omap ms_external (k_messages k)) ->
  Src s (sides (k_convos k)) m -> fine s k ->
  fine s {| k_contacts := k_contacts k; k_convos := k_convos k; k_messages := k_messages k ++ [m] |} /\
  Forall (fun x => kc_id x = convo -> kc_unread x + 1 <= arrivals convo (k_messages k ++ [m])) (k_convos k).
Proof.
  intros Hc Hm Hd Hi He HSm [[H1 H2 H3 H4 H5 H6 H7 H8] HS].
  assert (forall y, arrivals y (k_messages k ++ [m]) = arrivals y (k_messages k) + (if String.eqb convo y then 1 else 0)) as Harr.
  { intros y. unfold arrivals. rewrite List.filter_app, length_app. cbn. unfold is_inbound at 2. rewrite Hd, Hm. cbn. destruct (String.eqb convo y); cbn; lia. }
  split; [split; [split; try done; cbn|cbn]|].
  - rewrite map_app. apply NoDup_app. split_and!; [done| |by apply NoDup_singleton]. intros x Hx ->%list_elem_of_singleton. done.
  - rewrite omap_app. apply NoDup_app. cbn. destruct (ms_external m) as [e|] eqn:Ee; cbn.
    + split_and!; [done| |by apply NoDup_singleton]. intros x Hx ->%list_elem_of_singleton. by apply (He e).
    + split_and!; [done| |by apply NoDup_nil_2]. by intros x _ ?%elem_of_nil.
  - apply Forall_app. split; [done|]. apply Forall_singleton. rewrite Hm. unfold sides in Hc. apply list_elem_of_In, in_map_iff in Hc as (x & [= Hx _] & Hin).
    rewrite <- Hx. by apply list_elem_of_In, List.in_map.
  - eapply Forall_impl; [exact H8|]. cbn. intros x Hx. rewrite Harr. destruct (String.eqb _ _); lia.
  - apply Forall_app. split; [done|]. by apply Forall_singleton.
  - eapply Forall_impl; [exact H8|]. cbn. intros x Hx Hid. rewrite Harr, Hid in *. rewrite String.eqb_refl. subst. lia.
Qed.
Lemma insertMessage_knows c s convo ch msg now :
  (forall l i, (convo, ch) ∈ l -> Src s l {| ms_id := i; ms_convo := convo; ms_external := Some (ExternalID msg); ms_direction := "in"; ms_author := "contact";
     ms_type := IM_Type msg; ms_body := IM_Body msg; ms_metadata := Raw msg; ms_status := "delivered"; ms_created := now |}) ->
  triple c (every (with_convo s convo ch fine)) (insertMessage s convo msg now) (post fine (fun _ => with_slack s convo fine)).
Proof.
  intros HSrc. eapply t_conseq; [apply (every_knows _ (with_convo s convo ch fine)
    (fun _ k => Forall (fun x => kc_id x = convo -> kc_unread x + 1 <= arrivals convo (k_messages k)) (k_convos k)) s)|done|].
  - intros t a t' [Ht Hc]. specialize (Hc eq_refl). destruct (chat_ids t) as [|i ids]; [done|]. destruct (_ && _) eqn:E2; [|done].
    destruct (existsb (fun x => String.eqb (ms_id x) i) (messages t)) eqn:Hn; [done|]. intros [= <- <-]. apply not_there in Hn. apply andb_prop in E2 as [_ Hx%negb_true_iff].
    eapply fine_message in Ht as [Hf Hs]; [|exact Hc|..].
    + unfold core_of. cbn. split; [split; [exact Hf|done]|exact Hs].
    + done.
    + done.
    + exact Hn.
    + intros e [= <-] (m & Hm & He)%list_elem_of_omap. apply Bool.not_true_iff_false in Hx. apply Hx, existsb_exists. exists m.
      split; [by apply list_elem_of_In|]. by apply bool_decide_eq_true.
    + by apply HSrc.
  - intros [a|e] d Hd; [|by eapply every_knew]. eapply every_weaken; [|exact Hd]. intros s' k [[Hf _] Hx]. by split.
Qed.
Lemma fine_unread s t convo preview now : with_slack s convo fine s (core_of t) ->
  fine s (core_of (set_convos (map (fun c => if String.eqb (cv_id c) convo then unread_convo preview now c else c) (convos t)) t)).
Proof.
  intros [[[H1 H2 H3 H4 H5 H6 H7 H8] HS] Hs]. specialize (Hs eq_refl).
  set (f c := if String.eqb (cv_id c) convo then unread_convo preview now c else c).
  assert (forall (B : Type) (g : convo_key -> B), (forall x, g (key_of (unread_convo preview now x)) = g (key_of x)) ->
    map g (map key_of (map f (convos t))) = map g (map key_of (convos t))) as Hmap.
  { intros B g Hg. rewrite !map_map. apply map_ext. intros x. unfold f. destruct (String.eqb _ _); [apply Hg|done]. }
  cbn in *. split; [split; try done; cbn|cbn].
  - by rewrite Hmap.
  - by rewrite Hmap.
  - rewrite Forall_map in H4. rewrite !Forall_map. eapply Forall_impl; [exact H4|]. cbn. intros x Hx. unfold f. by destruct (String.eqb _ _).
  - by rewrite Hmap.
  - rewrite Forall_map in H8, Hs. rewrite !Forall_map. rewrite Forall_forall in *. intros x Hx. specialize (H8 x Hx). specialize (Hs x Hx).
    unfold f. destruct (String.eqb_spec (cv_id x) convo) as [E|_]; [|done]. cbn in *. specialize (Hs E). rewrite E in *. lia.
  - unfold sides in *. rewrite Hmap by done. done.
Qed.
Lemma unread_fine c s convo ok preview now :
  triple c (every (with_slack s convo fine)) (update_convo s ok convo (unread_convo preview now)) (fun _ => every fine).
Proof.
  apply t_cstmt. intros d Hd. split; [intros e; by eapply every_knew|]. intros t a t' E. destruct ok; [|done]. intros [= _ <-].
  assert (every fine (set_chats (<[s := set_convos (map (fun c => if String.eqb (cv_id c) convo then unread_convo preview now c else c) (convos t)) t]> (in_chats d)) d)) as HF.
  { intros s' u. cbn. intros [[<- <-]|[Hne H]]%lookup_insert_Some; [apply fine_unread, (Hd _ _ E)|by apply (every_knew _ _ _ _ Hd)]. }
  done.
Qed.

(** *** The whole message *)
Lemma store_message_fine s ch msg after now :
  (forall convo l i, (convo, ch) ∈ l -> Src s l {| ms_id := i; ms_convo := convo; ms_external := Some (ExternalID msg); ms_direction := "in"; ms_author := "contact";
     ms_type := IM_Type msg; ms_body := IM_Body msg; ms_metadata := Raw msg; ms_status := "delivered"; ms_created := now |}) ->
  (forall id F, kept (every F) (after id)) -> kept (every fine) (store_message cf s ch msg after now).
Proof.
  intros HSrc Hafter c. unfold store_message. eapply post_bind; [apply post_wrapping, upsertContact_knows| |done]. intros ct. cbv beta.
  eapply t_bind; [apply wrapping_triple; eapply t_conseq; [apply upsertConversation_knows|done|]| |].
  - intros [a|e] d Hd; [exact Hd|exact Hd].
  - intros convo. eapply t_bind with (R := post fine (fun _ => with_slack s convo fine)).
    + apply wrapping_triple. eapply t_conseq; [apply (insertMessage_knows c s convo ch msg now); intros l i; apply HSrc|done|]. by intros [a|e].
    + intros id. cbv beta iota. eapply t_bind; [apply (Hafter id)| |].
      * intros x. cbv beta zeta. eapply t_bind with (R := fun _ => every fine); [|intros y; by apply t_ret|done]. apply wrapping_triple. eapply t_conseq; [apply unread_fine|done|].
        by intros [a|e].
      * intros e d. apply every_knew.
    + done.
  - done.
Qed.
Lemma ingest_fine s ch msg after skip now :
  (forall convo l i, (convo, ch) ∈ l -> Src s l {| ms_id := i; ms_convo := convo; ms_external := Some (ExternalID msg); ms_direction := "in"; ms_author := "contact";
     ms_type := IM_Type msg; ms_body := IM_Body msg; ms_metadata := Raw msg; ms_status := "delivered"; ms_created := now |}) ->
  (forall id F, kept (every F) (after id)) -> kept (every fine) (ingestResolved cf s ch msg after skip now).
Proof.
  intros HSrc Hafter. pose proof (store_message_fine s ch msg after now HSrc Hafter) as Hstore. pose proof (every_upkeep s fine) as HU.
  unfold ingestResolved, under. kept; [by apply kept_hand_on|by apply kept_follow_up].
Qed.
End store.
