(* ===== verification/IntakeHistory.v ===== *)
(** * Deliveries: who signed, whose number, over histories *)
From S2P Require Import Prelude GoStrings AdminSession PgTx Triples Zoom Pii Billing StockLedger ChatTables Inbound Intake IntakeFrames IntakeSafe.

Open Scope string_scope.
Open Scope Z_scope.

(** a secret, trimmed, of a channel of some tenant *)
Definition channel_has_secret (d : inbound_db) (x : string) : Prop :=
  exists s t ch raw, in_chats d !! s = Some t /\ ch ∈ channels t /\ wc_secret ch = Some raw /\ x = TrimSpace raw.
(** the header is the signature of the body under such a secret *)
Definition signed_by_channel (d : inbound_db) (body header : string) : Prop :=
  exists secret, channel_has_secret d secret /\ secret <> "" /\ VerifyWebhookSignature body (TrimSpace header) secret = true.
(** what a number is registered for *)
Definition bound (d : inbound_db) (number : string) (ref : WhatsAppInboundRef) : Prop :=
  exists r, in_map d !! number = Some r /\ in_schema r = Ref_Schema ref /\ in_channel r = Ref_ChannelID ref.
Definition still_bound (d0 d : inbound_db) : Prop := forall number ref, bound d0 number ref -> bound d number ref.

Lemma bound_routing d0 : routing (still_bound d0).
Proof.
  split; [|intros d k x Hd|done].
  - intros d k r0 Hk Hd n ref Hn. destruct (Hd n ref Hn) as (r & Hr & H). exists r. split; [|done]. cbn. rewrite lookup_insert_ne; [done|]. congruence.
  - intros n ref Hn. destruct (Hd n ref Hn) as (r & Hr & H1 & H2). unfold bound. cbn. destruct (decide (k = n)) as [->|Hne].
    + exists (set_display x r). rewrite lookup_alter_eq, Hr. by split_and!.
    + exists r. by rewrite lookup_alter_ne.
Qed.
Lemma bound_elsewhere d0 on : elsewhere on (still_bound d0).
Proof. split; [done|]. by split. Qed.

Section deliveries.
Context {HG : Gcm} {WJ : WebhookJson} {PT : PgText} {CT : ChatText} (cf : intake_config).

(** ** Resolving a registered number *)
Lemma Resolve_bound c meta disp n ref P : n = TrimSpace meta -> n <> "" ->
  (forall d, P d -> bound d n ref) ->
  triple c P (ResolveWhatsAppInbound meta disp) (fun r d => P d /\ forall x, r = Ok x -> x = ref).
Proof.
  intros -> Hn HP. unfold ResolveWhatsAppInbound. cbv zeta. apply String.eqb_neq in Hn. rewrite Hn.
  eapply t_bind; [apply (t_attempt _ _ _ (fun r d => P d /\ exists x, r = Ok x /\ (x = Ok ref \/ x = Err db_error)))|..].
  - apply t_stmt. intros d Hd. destruct (HP d Hd) as (r & Hr & H1 & H2). unfold stmt_post. rewrite Hr. destruct ref. cbn in *. subst. naive_solver.
  - intros x. eapply t_conseq; [apply (t_pure c P (x = Ok ref \/ x = Err db_error))|naive_solver|intros r d H; exact H].
    intros [->| ->]; [apply t_ret; naive_solver|]. apply t_throw. naive_solver.
  - naive_solver.
Qed.

(** ** Signatures *)
Definition secrets_in (S : string -> Prop) (d : inbound_db) : Prop := forall x, channel_has_secret d x -> S x.
Lemma secrets_routing S : routing (secrets_in S).
Proof.
  split; [done|done|]. intros d s t pick meta E Hd x (s' & u & ch & raw & Hu & Hch & Hraw & ->). cbn in Hu.
  apply lookup_insert_Some in Hu as [[<- <-]|[Hne Hu]]; [|apply Hd; by exists s', u, ch, raw].
  apply list_elem_of_In, in_map_iff in Hch as (ch' & Hch' & Hin). apply list_elem_of_In in Hin. apply Hd. exists s, t, ch', raw.
  split_and!; [done|done| |done]. destruct (pick ch'); subst; done.
Qed.
Lemma lookup_secret c S meta disp :
  triple c (secrets_in S) (lookupChannelMetaAppSecret meta disp) (fun r d => forall x, r = Ok x -> TrimSpace x = "" \/ S (TrimSpace x)).
Proof.
  unfold lookupChannelMetaAppSecret. cbv zeta. apply t_if; intros _; [by apply t_throw|].
  eapply t_bind; [apply (kept_Resolve _ (secrets_routing S))| |done]. intros ref. cbv beta.
  eapply t_bind; [apply (t_attempt _ _ _ (fun r d => forall raw, r = Ok (Ok (Some raw)) -> S (TrimSpace raw)))|..].
  - apply t_cstmt. intros d Hd. split; [done|]. intros t a t' E Ef. cbv zeta. split; [|done]. intros raw [= ->]. destruct (pg_uuid _) as [u|]; [|done].
    destruct (List.find _ _) as [ch|] eqn:Ech; [|done]. cbn in Ef. injection Ef as Hraw _. apply find_some in Ech as [Hin _].
    apply Hd. exists (Ref_Schema ref), t, ch, raw. split_and!; [done|by apply list_elem_of_In|done|done].
  - intros [[raw|]|e]; [|apply t_ret..|by apply t_throw].
    + apply t_ret. intros d Hd x [= <-]. destruct (String.eqb _ _); [by left|]. right. rewrite TrimSpace_idemp. by apply Hd.
    + intros d _ x [= <-]. by left.
  - done.
Qed.
(** the body is taken in only when signed *)
Lemma verify_signed c d0 body header messages :
  triple c (secrets_in (channel_has_secret d0)) (verifyInboundWebhookSignature body header messages)
    (fun r d => r = Ok tt -> signed_by_channel d0 body header).
Proof.
  unfold verifyInboundWebhookSignature. cbv zeta. do 2 (apply t_if; intros _; [by apply t_throw|]).
  eapply t_bind; [apply (t_attempt _ _ _ (fun r d => forall x, r = Ok (Ok x) -> TrimSpace x = "" \/ channel_has_secret d0 (TrimSpace x)))|..].
  - eapply t_conseq; [apply lookup_secret|done|]. intros r d H x [= ->]. by apply H.
  - intros [x|e]; [|by apply t_throw]. apply t_if; intros Hx; [by apply t_throw|]. apply t_if; intros Hv; [by apply t_throw|].
    apply t_ret. intros d H _. apply String.eqb_neq in Hx. apply negb_false_iff in Hv. destruct (H x eq_refl) as [|Hs]; [done|]. by exists (TrimSpace x).
  - done.
Qed.

(** ** One delivery *)
Definition row_of (msg : InboundMessage) (convo id : string) (now : Z) : message_row :=
  {| ms_id := id; ms_convo := convo; ms_external := Some (ExternalID msg); ms_direction := "in"; ms_author := "contact";
     ms_type := IM_Type msg; ms_body := IM_Body msg; ms_metadata := Raw msg; ms_status := "delivered"; ms_created := now |}.
(** the number the message was sent to is registered as [ref] *)
Definition addressed (d : inbound_db) (msg : InboundMessage) (ref : WhatsAppInboundRef) : Prop :=
  TrimSpace (ToPhoneNumberID msg) <> "" /\ bound d (TrimSpace (ToPhoneNumberID msg)) ref.
(** [m], in schema [s] with these conversations, came with this delivery *)
Definition delivered (d0 : inbound_db) (body header : string) (now : Z) (s : string) (l : list (string * string)) (m : message_row) : Prop :=
  signed_by_channel d0 body header /\
  exists msg convo id, msg ∈ ParseWebhook body /\ m = row_of msg convo id now /\
    forall ref, addressed d0 msg ref -> s = Ref_Schema ref /\ (convo, Ref_ChannelID ref) ∈ l.

Section source.
Context (Src : string -> list (string * string) -> message_row -> Prop) (Src_mono : forall s l l' m, l ⊆ l' -> Src s l m -> Src s l' m).
Lemma ingest_keeps c d0 msg now :
  (forall s ch convo l i, (forall ref, addressed d0 msg ref -> ref = {| Ref_Schema := s; Ref_ChannelID := ch |}) -> (convo, ch) ∈ l -> Src s l (row_of msg convo i now)) ->
  triple c (fun d => every (fine Src) d /\ still_bound d0 d) (ingestMessage cf msg now) (fun _ d => every (fine Src) d /\ still_bound d0 d).
Proof.
  intros HSrc. set (P := fun d => every (fine Src) d /\ still_bound d0 d). unfold ingestMessage, under.
  assert (triple c P (ResolveWhatsAppInbound (ToPhoneNumberID msg) (ToDisplayPhone msg))
    (fun r d => P d /\ forall ref, r = Ok ref -> forall ref', addressed d0 msg ref' -> ref' = ref)) as Hres.
  { assert (kept P (ResolveWhatsAppInbound (ToPhoneNumberID msg) (ToDisplayPhone msg))) as HK.
    { intros c'. apply t_conj; apply kept_Resolve; [apply every_routing|apply bound_routing]. }
    destruct (decide (TrimSpace (ToPhoneNumberID msg) = "")) as [E|E].
    { eapply t_conseq; [apply HK|done|]. intros r d Hd. split; [done|]. by intros ref _ ref' [? _]. }
    destruct (in_map d0 !! TrimSpace (ToPhoneNumberID msg)) as [r0|] eqn:Er.
    - assert (bound d0 (TrimSpace (ToPhoneNumberID msg)) {| Ref_Schema := in_schema r0; Ref_ChannelID := in_channel r0 |}) as Hb by (by exists r0).
      eapply t_conseq; [eapply (Resolve_bound c _ _ _ _ P eq_refl E)|done|].
      + intros d [_ Hd]. by apply Hd.
      + intros r d [Hd Hx]. split; [done|]. intros ref -> ref' [_ (r1 & Hr1 & H1 & H2)]. rewrite (Hx ref eq_refl). rewrite Er in Hr1. injection Hr1 as <-.
        destruct ref'. cbn in *. by subst.
    - eapply t_conseq; [apply HK|done|]. intros r d Hd. split; [done|]. intros ref _ ref' [_ (r1 & Hr1 & _)]. by rewrite Er in Hr1. }
  eapply t_bind with (R := fun r d => P d /\ forall ref, r = Ok ref -> forall ref', addressed d0 msg ref' -> ref' = ref);
    [apply wrapping_triple; eapply t_conseq; [exact Hres|done|]|..].
  - intros [ref|e] d [Hd Hx]; split; [exact Hd|exact Hx|exact Hd|done].
  - intros ref. eapply t_conseq; [apply (t_pure c P (forall ref', addressed d0 msg ref' -> ref' = ref))|intros d [Hd Hx]; split; [done|by apply Hx]|intros r d H; exact H].
    intros Hx. eapply t_bind with (R := fun _ => P); [|intros b; by apply t_ret|done].
    apply t_conj.
    + apply (ingest_fine cf Src Src_mono); [|by intros; apply kept_ret]. intros convo l i Hin. apply (HSrc _ (Ref_ChannelID ref)); [|done].
      intros ref' H. rewrite (Hx ref' H). by destruct ref.
    + apply kept_ingest; [apply bound_elsewhere|by intros; apply kept_ret].
  - intros e d [Hd _]. exact Hd.
Qed.
Lemma receive_keeps c d0 body header now :
  (forall b, body = Ok b -> forall s l m, delivered d0 b header now s l m -> Src s l m) -> every (fine Src) d0 ->
  triple c (eq d0) (receiveWebhook cf body header now) (fun _ d => every (fine Src) d /\ still_bound d0 d).
Proof.
  intros HSrc Hd0. set (P := fun d => every (fine Src) d /\ still_bound d0 d).
  assert (P d0) as HP0 by (split; [done|by intros n ref]).
  destruct body as [body|e]; cbn [receiveWebhook]; [|by apply t_ret; intros d <-].
  eapply t_bind; [apply (t_attempt _ _ _ (fun r d => P d /\ (r = Ok (Ok tt) -> signed_by_channel d0 body header)))|..].
  - eapply t_conseq; [apply (t_conj c P (secrets_in (channel_has_secret d0)) _ (fun _ => P))|..].
    + intros w Hw Hd. pose proof (kept_verify _ (every_routing (fine Src)) body header (ParseWebhook body) c) as H1.
      pose proof (kept_verify _ (bound_routing d0) body header (ParseWebhook body) c) as H2.
      exact (t_conj c _ _ _ _ _ H1 H2 w Hw Hd).
    + apply (verify_signed c d0 body header).
    + intros d <-. split; [done|]. by intros x.
    + cbn. intros r d [HP H]. split; [done|]. intros [= ->]. by apply H.
  - intros [[]|e]; [|apply t_ret; naive_solver].
    eapply t_conseq; [apply (t_pure c P (signed_by_channel d0 body header))|cbn; naive_solver|intros r d H; exact H]. intros Hsig.
    eapply t_bind with (R := fun _ => P); [|intros _; by apply t_ret|done].
    assert (forall messages, messages ⊆ ParseWebhook body -> triple c P (ingest_all cf messages now) (fun _ => P)) as Hall; [|by apply Hall].
    intros messages. induction messages as [|m messages IH]; intros Hin; cbn [ingest_all]; [by apply t_ret|].
    apply t_ignore_bind with (R := P); [|intros _; apply IH; set_solver]. apply ingest_keeps. intros s ch convo l i Href Hl.
    apply (HSrc body eq_refl). split; [done|]. exists m, convo, i. split_and!; [set_solver|done|]. intros ref Ha. rewrite (Href ref Ha). by split.
  - naive_solver.
Qed.
End source.

(** ** Histories *)
Inductive chat_call :=
  | Deliver (body : result string) (header : string) (now : Z)
  | Register (schema channel meta display : string)
  | Unregister (schema channel : string)
  | NewRule (u : option AuthUser) (req : RuleRequest) (now : Z)
  | EditRule (u : option AuthUser) (id : string) (req : RuleRequest)
  | DropRule (u : option AuthUser) (id : string)
  | SetChannels (schema : string) (rows : list channel_row).   (** what the channel pages may do: anything *)
(** a call, how its statements go, and what the source of randomness gives *)
Record chat_event := { ev_call : chat_call; ev_faults : list fault; ev_random : list (result (list Z)) }.
Definition discarding {A} (m : inbound A) : inbound unit := let! _ := m in ret tt.
Definition serve_call (call : chat_call) : inbound unit :=
  match call with
  | Deliver body header now => discarding (receiveWebhook cf body header now)
  | Register schema channel meta display => RegisterWhatsAppInbound schema channel meta display
  | Unregister schema channel => UnregisterWhatsAppInbound schema channel
  | NewRule u req now => discarding (CreateRule u req now)
  | EditRule u id req => UpdateRule u id req
  | DropRule u id => DeleteRule u id
  | SetChannels schema rows => mem (fun d => (tt, match in_chats d !! schema with
      | Some t => set_chats (<[schema := set_channels rows t]> (in_chats d)) d | None => d end))
  end.
Definition run_event (d : inbound_db) (ev : chat_event) : inbound_db :=
  p_db (snd (serve_call (ev_call ev) (Build_pg (set_random (ev_random ev) d) None (ev_faults ev)))).
Definition run_events (d : inbound_db) (evs : list chat_event) : inbound_db := fold_left run_event evs d.
(** [m] came with a delivery of the history *)
Definition traced (d0 : inbound_db) (evs : list chat_event) (s : string) (l : list (string * string)) (m : message_row) : Prop :=
  exists pre ev post body header now, evs = (pre ++ ev :: post)%list /\ ev_call ev = Deliver (Ok body) header now /\
    delivered (run_events d0 pre) body header now s l m.
Definition source (d0 : inbound_db) (evs : list chat_event) (s : string) (l : list (string * string)) (m : message_row) : Prop :=
  (exists t0, in_chats d0 !! s = Some t0 /\ m ∈ messages t0) \/ traced d0 evs s l m.

Lemma run_triple {A} (m : inbound A) d faults P Q : triple false P m Q -> P d ->
  let '(r, w') := m (Build_pg d None faults) in Q r (p_db w').
Proof.
  intros Hm Hd. assert (idle false (Build_pg d None faults)) as Hi by (by split). specialize (Hm _ Hi Hd). destruct (m _). apply Hm. Qed.
Lemma delivered_mono d0 body header now s l l' m : l ⊆ l' -> delivered d0 body header now s l m -> delivered d0 body header now s l' m.
Proof. intros Hl [Hs (msg & convo & id & H1 & H2 & H3)]. split; [done|]. exists msg, convo, id. split_and!; [done..|]. intros ref Ha. destruct (H3 ref Ha). split; [done|]. by apply Hl. Qed.
Lemma source_mono d0 evs s l l' m : l ⊆ l' -> source d0 evs s l m -> source d0 evs s l' m.
Proof.
  intros Hl [H|(pre & ev & post & body & header & now & H1 & H2 & H3)]; [by left|]. right. exists pre, ev, post, body, header, now.
  split_and!; [done..|]. by eapply delivered_mono.
Qed.
Lemma source_more d0 evs ev s l m : source d0 evs s l m -> source d0 (evs ++ [ev]) s l m.
Proof.
  intros [H|(pre & e & post & body & header & now & -> & H2 & H3)]; [by left|]. right. exists pre, e, (post ++ [ev])%list, body, header, now.
  split_and!; [by rewrite <- app_assoc|done..].
Qed.
Lemma event_keeps Src d ev : (forall s l l' m, l ⊆ l' -> Src s l m -> Src s l' m) ->
  (forall body header now, ev_call ev = Deliver (Ok body) header now -> forall s l m, delivered d body header now s l m -> Src s l m) ->
  every (fine Src) d -> every (fine Src) (run_event d ev).
Proof.
  intros Hmono HSrc Hd. unfold run_event. assert (every (fine Src) (set_random (ev_random ev) d)) as Hd' by exact Hd.
  assert (triple false (eq (set_random (ev_random ev) d)) (serve_call (ev_call ev)) (fun _ => every (fine Src))) as Ht.
  2: { pose proof (run_triple _ _ (ev_faults ev) _ _ Ht eq_refl) as H. by destruct (serve_call _ _). }
  assert (forall m : inbound unit, kept (every (fine Src)) m -> triple false (eq (set_random (ev_random ev) d)) m (fun _ => every (fine Src))) as Hkept.
  { intros m Hm. eapply t_conseq; [apply Hm|by intros ? <-|done]. }
  pose proof (every_routing (fine Src)) as HR. pose proof (fun on => every_upkeep on (fine Src)) as HU.
  pose proof (every_rules (fine Src)) as HE. destruct (ev_call ev) as [body header now|schema channel meta display|schema channel|u req now|u id req|u id|schema rows] eqn:Ecall; cbn [serve_call].
  - unfold discarding. eapply t_bind; [apply (receive_keeps Src Hmono)|..].
    + intros b ->. by apply HSrc.
    + exact Hd'.
    + intros x. apply t_ret. by intros d' [? _].
    + by intros e d' [? _].
  - apply Hkept. by apply kept_Register.
  - apply Hkept. apply kept_stmt. intros d1 a d2 H1. destruct (pg_uuid channel); [|done]. by intros [= _ <-].
  - apply Hkept. apply kept_bind; [by apply kept_CreateRule|]. intros a. apply kept_ret.
  - apply Hkept. by apply kept_UpdateRule.
  - apply Hkept. by apply kept_DeleteRule.
  - apply Hkept. apply kept_mem. intros d1 H1. cbn. destruct (in_chats d1 !! schema) as [t|] eqn:E; [|done]. by apply (every_put _ d1 schema t).
Qed.
Lemma history_fine d0 evs : every (fun _ => sound) d0 -> every (fine (source d0 evs)) (run_events d0 evs).
Proof.
  intros Hd0. induction evs as [|ev evs IH] using rev_ind.
  - intros s t E. cbn in E. split; [by apply (Hd0 s)|]. apply Forall_forall. intros m Hm. left. by exists t.
  - unfold run_events. rewrite fold_left_app. cbn [fold_left]. apply event_keeps.
    + intros s l l' m. apply source_mono.
    + intros body header now E s l m Hm. right. by exists evs, ev, [], body, header, now.
    + eapply every_weaken; [|exact IH]. intros s k [Hk HS]. split; [done|]. eapply Forall_impl; [exact HS|]. intros m. apply source_more.
Qed.
End deliveries.

(** C29. The chat's tables, over any history.  Whatever is delivered, registered,
    unregistered, edited, and whichever statements fail: in every tenant no two
    messages have the same external id, there is one conversation per channel and
    contact, every message and conversation has its conversation and contact, and
    no conversation counts more unread messages than arrived in it.  And every
    message that was not there before came with a delivery whose header is the
    signature of its body under the secret that some tenant's channel had then,
    as one of the body's messages; when its number was registered, it is in the
    tenant and under the channel it was registered for. *)
Theorem intake_exact {HG : Gcm} {WJ : WebhookJson} {PT : PgText} {CT : ChatText} cf d0 evs :
  every (fun _ => sound) d0 ->
  every (fun _ => sound) (run_events cf d0 evs) /\
  forall s t m, in_chats (run_events cf d0 evs) !! s = Some t -> m ∈ messages t ->
    (exists t0, in_chats d0 !! s = Some t0 /\ m ∈ messages t0) \/ traced cf d0 evs s (sides (map key_of (convos t))) m.
Proof.
  intros Hd0. pose proof (history_fine cf d0 evs Hd0) as H. split.
  - eapply every_weaken; [|exact H]. by intros s k [? _].
  - intros s t m E Hm. destruct (H s t E) as [_ HS]. rewrite Forall_forall in HS. by apply HS.
Qed.
