(* ===== verification/IntakeExact.v ===== *)
(** * What one delivery does

    Nothing to other tenants, nothing when it is not signed; and exactly one
    message, in the conversation with its sender, when it is taken in. *)
From S2P Require Import Prelude GoStrings AdminSession PgTx Triples Zoom Pii Billing StockLedger ChatTables Inbound Intake IntakeFrames IntakeSafe IntakeHistory.

Open Scope string_scope.
Open Scope Z_scope.

(** ** What resolving a number cannot touch *)
Definition forget (ch : channel_row) : channel_row := {| wc_id := wc_id ch; wc_phone := wc_phone ch; wc_meta := None; wc_secret := wc_secret ch |}.
(** a tenant's chat without the numbers of its channels *)
Definition private (t : chat_tables) : chat_tables := set_channels (map forget (channels t)) t.
Definition untouched (s : string) (d0 d : inbound_db) : Prop := private <$> in_chats d !! s = private <$> in_chats d0 !! s.
(** nothing but routing changed *)
Definition only_routing (d0 d : inbound_db) : Prop :=
  (forall s, untouched s d0 d) /\ in_jobs d = in_jobs d0 /\ in_billing d = in_billing d0 /\ in_inflight d = in_inflight d0 /\ in_random d = in_random d0.

Lemma untouched_put s d0 d s' t t' : in_chats d !! s' = Some t -> (s' = s -> private t' = private t) -> untouched s d0 d ->
  untouched s d0 (set_chats (<[s' := t']> (in_chats d)) d).
Proof.
  unfold untouched. intros E Ht <-. cbn. destruct (decide (s' = s)) as [->|Hne]; [|by rewrite lookup_insert_ne].
  rewrite lookup_insert_eq, E. cbn. by rewrite Ht.
Qed.
Lemma untouched_routing s d0 : routing (untouched s d0).
Proof.
  split; [intros; assumption|intros; assumption|]. intros d s' t pick meta E. apply untouched_put with t; [done|]. intros _.
  change (set_channels (map forget (map (fun ch => if pick ch then set_meta meta ch else ch) (channels t))) t = private t).
  unfold private. f_equal. rewrite map_map. apply map_ext. intros ch. by destruct (pick ch).
Qed.
Lemma untouched_elsewhere s d0 on : on <> s -> elsewhere on (untouched s d0).
Proof.
  intros Hne. split; [intros d t t' E; by apply untouched_put with t|]. split; [|done..]. intros d t t' E _. by apply untouched_put with t.
Qed.
Lemma only_routing_routing d0 : routing (only_routing d0).
Proof.
  split; [intros; assumption|intros; assumption|]. intros d s t pick meta E [Hd H]. split; [|done]. intros s'. by apply (rt_meta _ (untouched_routing s' d0) d s t).
Qed.

Section deliveries.
Context {HG : Gcm} {WJ : WebhookJson} {PT : PgText} {CT : ChatText} (cf : intake_config).

Lemma ingest_untouched c s d0 msg ref now : addressed d0 msg ref -> Ref_Schema ref <> s ->
  triple c (fun d => untouched s d0 d /\ still_bound d0 d) (ingestMessage cf msg now) (fun _ d => untouched s d0 d /\ still_bound d0 d).
Proof.
  intros [Hn Hb] Hne. set (P := fun d => untouched s d0 d /\ still_bound d0 d). unfold ingestMessage, under.
  eapply t_bind with (R := fun r d => P d /\ forall x, r = Ok x -> x = ref); [apply wrapping_triple|..].
  - eapply t_conseq; [apply (Resolve_bound c _ _ _ ref P eq_refl Hn)|done|].
    + intros d [_ Hd]. by apply Hd.
    + intros [x|e] d [Hd Hx]; split; [exact Hd|exact Hx|exact Hd|done].
  - intros x. eapply t_conseq; [apply (t_pure c P (x = ref))|intros d [Hd Hx]; split; [done|by apply Hx]|intros r d H; exact H].
    intros ->. eapply t_bind with (R := fun _ => P); [|intros b; by apply t_ret|done].
    apply t_conj; apply kept_ingest; [by apply untouched_elsewhere|by intros; apply kept_ret|apply bound_elsewhere|by intros; apply kept_ret].
  - by intros e d [Hd _].
Qed.
Lemma ingest_all_keeps c (P : inbound_db -> Prop) messages now :
  (forall msg, msg ∈ messages -> triple c P (ingestMessage cf msg now) (fun _ => P)) -> triple c P (ingest_all cf messages now) (fun _ => P).
Proof.
  induction messages as [|m messages IH]; intros Hm; cbn [ingest_all]; [by apply t_ret|].
  apply t_ignore_bind with (R := P); [apply Hm; by left|]. intros _. apply IH. intros msg Hin. apply Hm. by right.
Qed.
(** the errors of the signature check *)
Lemma verify_error c d0 body header messages :
  triple c (eq d0) (verifyInboundWebhookSignature body header messages)
    (fun r d => (only_routing d0 d /\ still_bound d0 d) /\ (r = Ok tt -> signed_by_channel d0 body header) /\
       forall e, r = Err e -> String.eqb (error_text e) "phone_number_id missing" = false).
Proof.
  assert (forall A (m : inbound A), (forall P, routing P -> kept P m) -> triple c (eq d0) m (fun _ d => only_routing d0 d /\ still_bound d0 d)) as Hkept.
  { intros A m Hm. eapply t_conseq; [apply (t_conj c _ _ _ _ _ (Hm _ (only_routing_routing d0) c) (Hm _ (bound_routing d0) c))|intros d <-|done].
    split; [by split_and!|by intros n ref]. }
  assert (triple c (eq d0) (verifyInboundWebhookSignature body header messages)
    (fun r d => forall e, r = Err e -> String.eqb (error_text e) "phone_number_id missing" = false)) as He.
  { unfold verifyInboundWebhookSignature. cbv zeta. do 2 (apply t_if; intros _; [by apply t_throw; intros d _ e [= <-]|]).
    apply t_bind with (R := fun r d => is_ok r = true); [|intros [x|e]|done].
    - apply t_attempt. eapply t_conseq; [apply (kept_lookup (fun _ => True))|done|done]. by split.
    - do 2 (apply t_if; intros _; [by apply t_throw; intros d _ e [= <-]|]). by apply t_ret.
    - by apply t_throw; intros d _ e' [= <-]. }
  assert (triple c (eq d0) (verifyInboundWebhookSignature body header messages) (fun r _ => r = Ok tt -> signed_by_channel d0 body header)) as Hs.
  { eapply t_conseq; [apply (verify_signed c d0)|intros d <- x Hx; exact Hx|]. auto. }
  eapply t_conseq; [apply (t_conj c _ _ _ _ _ (Hkept _ _ (fun P HP => kept_verify P HP body header messages)) (t_conj c _ _ _ _ _ Hs He))|by intros d <-|].
  cbn. naive_solver.
Qed.
Lemma kept_message P msg now : routing P -> (forall on, elsewhere on P) -> kept P (ingestMessage cf msg now).
Proof.
  intros HR HE. unfold ingestMessage, under. apply kept_bind; [by apply kept_wrapping, kept_Resolve|]. intros ref.
  apply kept_bind; [|intros b; apply kept_ret]. apply kept_ingest; [done|]. intros id. apply kept_ret.
Qed.
Lemma kept_receive P body header now : routing P -> (forall on, elsewhere on P) -> kept P (receiveWebhook cf body header now).
Proof.
  intros HR HE. unfold receiveWebhook. destruct body as [body|e]; [|apply kept_ret]. cbv zeta. apply kept_bind; [by apply kept_attempt, kept_verify|].
  intros [[]|e]; [|apply kept_ret]. apply kept_bind; [|intros x; apply kept_ret]. intros c. apply ingest_all_keeps. intros msg _. by apply kept_message.
Qed.
(** no message of the body is for tenant [s] *)
Definition for_others (d0 : inbound_db) (body s : string) : Prop :=
  forall msg, msg ∈ ParseWebhook body -> exists ref, addressed d0 msg ref /\ Ref_Schema ref <> s.
Lemma receive_answer c d0 body header now :
  triple c (eq d0) (receiveWebhook cf (Ok body) header now)
    (fun r d => r = Ok 200 /\ signed_by_channel d0 body header \/ r = Ok 401 /\ only_routing d0 d).
Proof.
  unfold receiveWebhook. cbv zeta.
  eapply t_bind with (R := fun r d => exists v, r = Ok v /\ (only_routing d0 d /\ still_bound d0 d) /\ (v = Ok tt -> signed_by_channel d0 body header) /\
       forall e, v = Err e -> String.eqb (error_text e) "phone_number_id missing" = false).
  - apply t_attempt. eapply t_conseq; [apply verify_error|done|]. intros r d H. by exists r.
  - intros [[]|e].
    + eapply t_conseq; [apply (t_pure c (fun _ => True) (signed_by_channel d0 body header))|intros d (v & [= <-] & _ & H & _); split; [done|by apply H]|intros r d H; exact H].
      intros Hsig. apply t_bind with (R := fun r _ => r = Ok tt); [|intros []; apply t_ret; by left|done].
      generalize (ParseWebhook body). intros messages. induction messages as [|m messages IH]; cbn [ingest_all]; [by apply t_ret|].
      apply t_ignore_bind with (R := fun _ => True); [|intros _; exact IH]. by apply (kept_message (fun _ => True)).
    + eapply t_conseq; [apply (t_pure c (only_routing d0) (String.eqb (error_text e) "phone_number_id missing" = false))|..|intros r d H; exact H].
      * intros ->. apply t_ret. by right.
      * intros d (v & [= <-] & [H _] & _ & He). split; [done|]. by apply He.
  - intros e d (v & ? & _). done.
Qed.
Lemma receive_others c s d0 body header now : for_others d0 body s ->
  triple c (eq d0) (receiveWebhook cf (Ok body) header now) (fun _ => untouched s d0).
Proof.
  intros Hs. unfold receiveWebhook. cbv zeta. set (P d := untouched s d0 d /\ still_bound d0 d).
  apply t_bind with (R := fun _ => P).
  - apply t_attempt. eapply t_conseq; [apply verify_error|done|]. intros r d [[[H _] Hb] _]. by split.
  - intros [[]|e]; [|by apply t_ret; intros d [? _]]. apply t_bind with (R := fun _ => P); [|by intros _; apply t_ret; intros d [? _]|by intros e d [? _]].
    apply ingest_all_keeps. intros msg Hin. destruct (Hs msg Hin) as (ref & Ha & Hne). by apply (ingest_untouched c s d0 msg ref).
  - by intros e d [? _].
Qed.
End deliveries.

(** C28. A delivery stays with the tenants it is for.  Whatever its body and header,
    and whichever statements fail: every number keeps the tenant and channel it
    is registered for; a tenant that no message of the body is for, all its
    numbers being registered for others, keeps its contacts, conversations,
    messages, rules and leads; and either the answer is 200 and the header is the
    signature of the body under the secret of some tenant's channel, or it is 401
    and nothing changed but the routing of numbers: no job, no usage, no chat. *)
Theorem delivery_isolated {HG : Gcm} {WJ : WebhookJson} {PT : PgText} {CT : ChatText} cf body header now d0 faults :
  let '(r, w') := receiveWebhook cf (Ok body) header now (Build_pg d0 None faults) in
  still_bound d0 (p_db w') /\
  (forall s, for_others d0 body s -> untouched s d0 (p_db w')) /\
  (r = Ok 200 /\ signed_by_channel d0 body header \/ r = Ok 401 /\ only_routing d0 (p_db w')).
Proof.
  pose proof (run_triple _ d0 faults _ _ (kept_receive cf _ (Ok body) header now (bound_routing d0) (bound_elsewhere d0) false) (fun n ref H => H)) as H1.
  pose proof (fun s H => run_triple _ d0 faults _ _ (receive_others cf false s d0 body header now H) eq_refl) as H2.
  pose proof (run_triple _ d0 faults _ _ (receive_answer cf false d0 body header now) eq_refl) as H3.
  destruct (receiveWebhook _ _ _ _ _) as [r w']. split_and!; [exact H1|exact H2|exact H3].
Qed.
