(* ===== verification/IntakeTaken.v ===== *)
(** * A message taken in

    What is in the tenant's tables after [ingestResolved] answered. *)
From S2P Require Import Prelude GoStrings AdminSession PgTx Triples Zoom Pii Billing StockLedger ChatTables Inbound Intake IntakeFrames IntakeSafe IntakeHistory.

Open Scope string_scope.
Open Scope Z_scope.

Lemma find_map {A B} (p : B -> bool) (f : A -> B) l : List.find p (map f l) = f <$> List.find (fun x => p (f x)) l.
Proof. induction l as [|x l IH]; [done|]. cbn. by destruct (p (f x)). Qed.
Lemma find_ext {A} (p q : A -> bool) l : (forall x, p x = q x) -> List.find p l = List.find q l.
Proof. intros H. induction l as [|x l IH]; [done|]. cbn. by rewrite H, IH. Qed.

Section taken.
Context {HG : Gcm} {WJ : WebhookJson} {PT : PgText} {CT : ChatText} (cf : intake_config) (s ch : string) (msg : InboundMessage) (now : Z).

(** the tables of tenant [s] are as [X] says *)
Definition holds (X : chat_tables -> Prop) (d : inbound_db) : Prop := exists t, in_chats d !! s = Some t /\ X t.
Definition minor_closed (X : chat_tables -> Prop) : Prop := forall t t', minor t t' -> X t -> X t'.
Lemma holds_upkeep X : minor_closed X -> upkeep s (holds X).
Proof.
  intros HX. split; [|done..]. intros d t t' E Hm (t0 & E0 & H). rewrite E in E0. injection E0 as <-. exists t'. cbn. rewrite lookup_insert_eq.
  split; [done|]. by apply (HX t).
Qed.
(** a statement on these tables *)
Lemma holds_cstmt {A} c X (Y : A -> chat_tables -> Prop) (f : chat_tables -> result A * chat_tables) :
  (forall t a t', X t -> f t = (Ok a, t') -> Y a t') -> triple c (holds X) (cstmt s f) (fun r d => forall a, r = Ok a -> holds (Y a) d).
Proof.
  intros Hf. apply t_cstmt. intros d (t & E & HX). split; [done|]. intros t1 a t' E1 Ef. rewrite E in E1. injection E1 as <-. cbv zeta. split; [|done].
  intros b [= <-]. exists t'. cbn. rewrite lookup_insert_eq. split; [done|]. by eapply Hf.
Qed.
(** *** What holds if a program answers without an error *)
Definition yields {A} c P (m : inbound A) (Q : A -> inbound_db -> Prop) : Prop := triple c P m (fun r d => forall a, r = Ok a -> Q a d).
Lemma yields_ret {A} c (P : inbound_db -> Prop) (a : A) (Q : A -> inbound_db -> Prop) : (forall d, P d -> Q a d) -> yields c P (ret a) Q.
Proof. intros H. apply t_ret. intros d Hd b [= <-]. auto. Qed.
Lemma yields_throw {A} c P e (Q : A -> inbound_db -> Prop) : yields c P (throw e) Q.
Proof. by apply t_throw. Qed.
Lemma yields_then {A B} c P (m : inbound A) (k : A -> inbound B) R Q :
  yields c P m R -> (forall a, yields c (R a) (k a) Q) -> yields c P (bind m k) Q.
Proof. intros Hm Hk. eapply t_bind; [exact Hm| |done]. intros a. eapply t_conseq; [apply Hk|intros d H; by apply H|done]. Qed.
Lemma yields_kept_bind {A B} c P (m : inbound A) (k : A -> inbound B) Q :
  kept P m -> (forall a, yields c P (k a) Q) -> yields c P (bind m k) Q.
Proof. intros Hm Hk. eapply t_bind; [apply (Hm c)|exact Hk|done]. Qed.
Lemma yields_attempt_bind {A B} c P (m : inbound A) (k : result A -> inbound B) R Q :
  kept P m -> yields c P m R -> (forall a, yields c (R a) (k (Ok a)) Q) -> (forall e, yields c P (k (Err e)) Q) -> yields c P (bind (attempt m) k) Q.
Proof.
  intros HK Hm Hk He. eapply t_bind; [apply (t_attempt _ _ _ (fun r d => match r with Ok (Ok a) => R a d | Ok (Err _) => P d | Err _ => False end))| |done].
  - eapply t_conseq; [apply (t_conj c _ _ _ _ _ (HK c) Hm)|by split|]. intros [a|e] d [H1 H2]; [by apply H2|exact H1].
  - intros [a|e]; [apply Hk|apply He].
Qed.
Lemma yields_wrapping {A} c P wrap (m : inbound A) Q : yields c P m Q -> yields c P (wrapping wrap m) Q.
Proof. intros Hm. apply wrapping_triple. eapply t_conseq; [exact Hm|done|]. by intros [a|e]. Qed.
Lemma yields_and {A} c (P P' : inbound_db -> Prop) (m : inbound A) Q Q' : yields c P m Q -> yields c P' m Q' ->
  yields c (fun d => P d /\ P' d) m (fun a d => Q a d /\ Q' a d).
Proof. intros H1 H2. eapply t_conseq; [apply (t_conj c _ _ _ _ _ H1 H2)|done|]. naive_solver. Qed.
Lemma yields_conseq {A} c (P P' : inbound_db -> Prop) (m : inbound A) Q Q' : yields c P m Q -> (forall d, P' d -> P d) -> (forall a d, Q a d -> Q' a d) -> yields c P' m Q'.
Proof. intros Hm HP HQ. eapply t_conseq; [exact Hm|exact HP|]. naive_solver. Qed.
Lemma yields_keeps {A} c P (m : inbound A) : kept P m -> yields c P m (fun _ => P).
Proof. intros Hm. eapply t_conseq; [apply (Hm c)|done|]. auto. Qed.
Lemma yields_if {A} c P (b : bool) (m1 m2 : inbound A) Q : (b = true -> yields c P m1 Q) -> (b = false -> yields c P m2 Q) -> yields c P (if b then m1 else m2) Q.
Proof. destruct b; auto. Qed.

(** ** The sender's contact *)
Definition phone_of : string := normalizePhone (FromPhone msg).
Definition is_sender (c : contact_row) : Prop :=
  ct_deleted c = false /\ (ct_phone c = Some phone_of \/ ct_phone_idx c = Some (BlindIndex (NormalizePhone phone_of) (enc_key cf))).
Definition sender (ct : string) (t : chat_tables) : Prop := exists c, c ∈ contacts t /\ ct_id c = ct /\ is_sender c.
Lemma sender_minor ct : minor_closed (sender ct).
Proof. by intros t t' []. Qed.
Definition anyone : inbound_db -> Prop := holds (fun _ => True).
Lemma find_sender c f : (forall x, f x = true -> ct_phone x = Some phone_of \/ ct_phone_idx x = Some (BlindIndex (NormalizePhone phone_of) (enc_key cf))) ->
  yields c anyone (find_contact s f) (fun ct => holds (sender ct)).
Proof.
  intros Hf. apply holds_cstmt. intros t a t' _. destruct (List.find _ _) as [x|] eqn:E; cbn; [|done]. intros [= <- <-].
  apply find_some in E as [Hin [H1 H2%negb_true_iff]%andb_prop]. exists x. split; [by apply list_elem_of_In|]. split; [done|]. split; [done|]. by apply Hf.
Qed.
Lemma insert_sender c pii ok row : (forall i, ct_id (row i) = i /\ is_sender (row i)) ->
  yields c anyone (insert_contact s pii ok row) (fun ct => holds (sender ct)).
Proof.
  intros Hrow. apply holds_cstmt. intros t a t' _. destruct (chat_ids t) as [|i ids]; [done|]. destruct (_ && _); [|done].
  destruct (existsb _ _); [done|]. intros [= <- <-]. destruct (Hrow i) as [H1 H2]. exists (row i). split; [|done]. cbn. apply elem_of_app. right. by left.
Qed.
Lemma named_sender c ct ok id pick f : (forall x, ct_id (f x) = ct_id x /\ (is_sender x -> is_sender (f x))) ->
  yields c (holds (sender ct)) (ignore (cexec s ok (update_contact id pick f));! ret ct) (fun ct => holds (sender ct)).
Proof.
  intros Hf. apply t_ignore_bind with (R := holds (sender ct)); [|intros _; apply t_ret; by intros d Hd a [= <-]].
  assert (kept (holds (sender ct)) (cexec s ok (update_contact id pick f))) as HK; [|apply HK]. apply kept_cexec.
  intros d t (t0 & E0 & x & Hin & Hid & Hs) E. rewrite E in E0. injection E0 as <-. eexists. cbn. rewrite lookup_insert_eq. split; [done|].
  exists (if String.eqb (ct_id x) id && pick x then f x else x). cbn. split.
  - apply list_elem_of_In, in_map_iff. exists x. split; [done|]. by apply list_elem_of_In.
  - destruct (_ && _); [|done]. destruct (Hf x) as [-> H]. auto.
Qed.
Lemma upsertContact_sender c : yields c anyone (upsertContact cf s msg) (fun ct => holds (sender ct)).
Proof.
  assert (upkeep s anyone) as HU by (by apply holds_upkeep).
  assert (forall ct ok pick name enc, yields c (holds (sender ct)) (ignore (cexec s ok (update_contact ct pick (fun x => set_names name (enc x) x)));! ret ct)
    (fun ct => holds (sender ct))) as Hnamed by (intros; by apply named_sender).
  assert (forall f, kept anyone (find_contact s f)) as HK by (intros; apply kept_crow).
  unfold upsertContact. cbv zeta. apply yields_kept_bind; [by apply kept_ready|]. intros usePII. apply yields_if; intros _.
  - apply yields_kept_bind; [destruct (ValidateKey _); [apply kept_ret|apply kept_ignore; by eapply kept_ContactPIIActive]|]. intros _.
    unfold upsertContactLegacy. fold phone_of.
    eapply yields_attempt_bind; [done|apply find_sender; intros x H%bool_decide_eq_true; by left|..].
    + intros ct. apply yields_if; intros _; [apply Hnamed|by apply yields_ret].
    + intros e. apply yields_if; intros _; [apply yields_throw|]. apply insert_sender. intros i. split; [done|]. split; [done|by left].
  - fold phone_of. eapply yields_attempt_bind; [done|apply find_sender; intros x H%bool_decide_eq_true; by right|..].
    + intros ct. apply yields_if; intros _; [|by apply yields_ret]. apply yields_kept_bind.
      * eapply kept_encrypting, (holds_upkeep _ (sender_minor ct)).
      * intros enc. apply (Hnamed ct true _ (Some Placeholder) (fun _ => Some match enc with Ok x => x | Err _ => "" end)).
    + intros e. apply yields_if; intros _; [apply yields_throw|].
      assert (forall enc nenc, yields c anyone (insert_contact s true true (sealed_contact enc (BlindIndex (NormalizePhone phone_of) (enc_key cf)) nenc))
        (fun ct => holds (sender ct))) as Hins by (intros; apply insert_sender; intros i; split; [done|]; split; [done|by right]).
      apply yields_kept_bind; [by eapply kept_encrypting|]. intros [enc|e']; [|apply yields_throw].
      apply yields_if; intros _; [|apply Hins]. apply yields_kept_bind; [by eapply kept_encrypting|]. intros [enc'|e']; [apply Hins|apply yields_throw].
Qed.

(** ** The conversation and the message *)
Context (keys0 : list convo_key) (msgs0 : list message_row).
Definition base (t : chat_tables) : Prop := map key_of (convos t) = keys0 /\ messages t = msgs0.
(** what the conversation with the contact had unread before *)
Definition unread0 (ct : string) : Z :=
  match List.find (fun k => String.eqb (kc_channel k) ch && String.eqb (kc_contact k) ct) keys0 with Some k => kc_unread k | None => 0 end.
Definition between (convo ct : string) (x : convo_row) : Prop := cv_id x = convo /\ cv_channel x = ch /\ cv_contact x = ct.
Definition talk (convo ct : string) (t : chat_tables) : Prop :=
  messages t = msgs0 /\ exists x, x ∈ convos t /\ between convo ct x /\ cv_unread x = unread0 ct.
Definition said (convo ct id : string) (t : chat_tables) : Prop :=
  messages t = (msgs0 ++ [row_of msg convo id now])%list /\ exists x, x ∈ convos t /\ between convo ct x /\ cv_unread x = unread0 ct.
Definition preview_of : string := TruncateUTF8 (InboundMessagePreview (IM_Type msg) (IM_Body msg)) 280.
Definition stored (convo ct id : string) (t : chat_tables) : Prop :=
  messages t = (msgs0 ++ [row_of msg convo id now])%list /\
  exists x, x ∈ convos t /\ between convo ct x /\ cv_unread x = unread0 ct + 1 /\ cv_status x = "open" /\ cv_preview x = Some preview_of.

Lemma base_minor : minor_closed base.
Proof. intros t t' H%minor_core [H1 H2]. injection H as _ H3 H4. unfold base. by rewrite H3, H4. Qed.
Lemma stored_minor convo ct id : minor_closed (stored convo ct id).
Proof.
  intros t t' [| | |pick t1] [H1 H2]; [by split..|]. destruct H2 as (x & Hx & Hb & Hu & Hs & Hp). split; [done|].
  exists (if pick x then handed_convo x else x). split; [|by destruct (pick x)]. apply list_elem_of_In, in_map_iff. exists x. split; [done|]. by apply list_elem_of_In.
Qed.
Lemma kept_contact_base : kept (holds base) (upsertContact cf s msg).
Proof.
  apply kept_upsertContact; [apply holds_upkeep, base_minor|]. intros d t l ids E (t0 & E0 & H). rewrite E in E0. injection E0 as <-.
  eexists. cbn. rewrite lookup_insert_eq. split; [done|]. exact H.
Qed.
Lemma talk_found c ct : yields c (holds base) (upsertConversation s ch ct) (fun convo => holds (talk convo ct)).
Proof.
  unfold upsertConversation. eapply yields_attempt_bind; [apply kept_crow|apply holds_cstmt with (Y := fun convo => talk convo ct)|..].
  - intros t a t' [Hk Hm]. destruct (List.find _ _) as [x|] eqn:E; cbn; [|done]. intros [= <- <-]. split; [done|].
    pose proof (find_some _ _ E) as [Hin [H1 H2]%andb_prop]. apply String.eqb_eq in H1, H2. exists x. split; [by apply list_elem_of_In|]. split; [by split_and!|].
    unfold unread0. rewrite <- Hk, find_map. change (fun x => _) with (of_pair ch ct). by rewrite E.
  - intros convo. by apply yields_ret.
  - intros e. apply yields_if; intros _; [apply yields_throw|]. apply holds_cstmt. intros t a t' [Hk Hm]. destruct (chat_ids t) as [|i ids]; [done|].
    destruct (existsb (of_pair ch ct) (convos t)) eqn:Hp; [done|]. destruct (existsb (fun x => String.eqb (cv_id x) i) (convos t)); [done|].
    intros [= <- <-]. split; [done|].
    exists (new_convo ch ct i). split; [cbn; apply elem_of_app; right; by left|]. split; [done|]. unfold unread0. rewrite <- Hk, find_map.
    change (fun x => _) with (of_pair ch ct). destruct (List.find _ _) as [y|] eqn:E; [|done]. apply find_some in E as [Hin Hy].
    apply Bool.not_true_iff_false in Hp. destruct Hp. apply existsb_exists. by exists y.
Qed.
Lemma message_said c convo ct : yields c (holds (talk convo ct)) (insertMessage s convo msg now) (fun id => holds (said convo ct id)).
Proof.
  apply holds_cstmt. intros t a t' [Hm Hx]. destruct (chat_ids t) as [|i ids]; [done|]. destruct (_ && _); [|done]. destruct (existsb _ _); [done|].
  intros [= <- <-]. split; [cbn; by rewrite Hm|done].
Qed.
Lemma convo_stored c convo ct id ok : yields c (holds (said convo ct id)) (update_convo s ok convo (unread_convo preview_of now)) (fun _ => holds (stored convo ct id)).
Proof.
  apply holds_cstmt. intros t a t' (Hm & x & Hx & (H1 & H2 & H3) & Hu). destruct ok; [|done]. intros [= _ <-]. split; [done|].
  exists (unread_convo preview_of now x). split.
  - cbn. apply list_elem_of_In, in_map_iff. exists x. rewrite H1, String.eqb_refl. split; [done|]. by apply list_elem_of_In.
  - cbn. split_and!; try done. by rewrite Hu.
Qed.
(** the contact stays what it is *)
Lemma kept_sender ct {A} (f : chat_tables -> result A * chat_tables) : (forall t a t', f t = (Ok a, t') -> contacts t' = contacts t) -> kept (holds (sender ct)) (cstmt s f).
Proof.
  intros Hf. apply kept_cstmt. intros d t a t' (t0 & E0 & x & Hx) E Ef. rewrite E in E0. injection E0 as <-. eexists. cbn. rewrite lookup_insert_eq.
  split; [done|]. exists x. by rewrite (Hf t a t' Ef).
Qed.
Lemma store_message_stored c : yields c (holds base) (store_message cf s ch msg (fun _ => ret tt) now)
  (fun ids d => let '(convo, ct, id) := ids in holds (sender ct) d /\ holds (stored convo ct id) d).
Proof.
  unfold store_message, under. eapply yields_then with (R := fun ct d => holds (sender ct) d /\ holds base d).
  { apply yields_wrapping. eapply yields_conseq; [apply (yields_and c anyone (holds base)); [apply upsertContact_sender|apply yields_keeps, kept_contact_base]| |done].
    intros d Hd. split; [|done]. destruct Hd as (t & E & _). by exists t. }
  intros ct. eapply yields_then with (R := fun convo d => holds (sender ct) d /\ holds (talk convo ct) d).
  { apply yields_wrapping, yields_and; [|apply talk_found]. apply yields_keeps. unfold upsertConversation. kept. apply kept_sender.
    intros t x t'. destruct (chat_ids t) as [|i ids]; [done|]. destruct (existsb (of_pair ch ct) _); [done|].
    destruct (existsb (fun x => String.eqb (cv_id x) i) (convos t)); [done|]. by intros [= _ <-]. }
  intros convo. eapply yields_then with (R := fun id d => holds (sender ct) d /\ holds (said convo ct id) d).
  { apply yields_wrapping, yields_and; [|apply message_said]. apply yields_keeps, kept_sender.
    intros t x t'. destruct (chat_ids t); [done|]. destruct (_ && _); [|done]. destruct (existsb _ _); [done|]. by intros [= _ <-]. }
  intros id. apply yields_kept_bind; [apply kept_ret|]. intros _. cbv zeta. fold preview_of.
  eapply yields_then with (R := fun _ d => holds (sender ct) d /\ holds (stored convo ct id) d); [|intros _; by apply yields_ret].
  apply yields_wrapping, yields_and; [|apply convo_stored]. apply yields_keeps, kept_sender. intros t x t'. destruct (pg_text _ _); [|done]. by intros [= _ <-].
Qed.

(** ** A rule or the AI *)
Definition handed (convo : string) (t : chat_tables) : Prop :=
  exists x, x ∈ convos t /\ cv_id x = convo /\ cv_ai x = false /\ cv_reason x = Some "workflow".
Lemma handed_minor convo : minor_closed (handed convo).
Proof.
  intros t t' [| | |pick t1] H; try exact H. destruct H as (x & Hx & H1 & H2 & H3). exists (if pick x then handed_convo x else x).
  split; [|by destruct (pick x); split_and!]. apply list_elem_of_In, in_map_iff. exists x. split; [done|]. by apply list_elem_of_In.
Qed.
(** taking a message in leaves the rules alone *)
Context (rules0 : list rule_row).
Definition ruled (t : chat_tables) : Prop := rules t = rules0.
Lemma ruled_minor : minor_closed ruled.
Proof. by intros t t' []. Qed.
Lemma kept_ruled {A} (f : chat_tables -> result A * chat_tables) : (forall t a t', f t = (Ok a, t') -> rules t' = rules t) -> kept (holds ruled) (cstmt s f).
Proof.
  intros Hf. apply kept_cstmt. intros d t a t' (t0 & E0 & Hr) E Ef. rewrite E in E0. injection E0 as <-. eexists. cbn. rewrite lookup_insert_eq.
  split; [done|]. unfold ruled. by rewrite (Hf t a t' Ef).
Qed.
Lemma store_ruled : kept (holds ruled) (store_message cf s ch msg (fun _ => ret tt) now).
Proof.
  unfold store_message, under. apply kept_bind.
  { apply kept_wrapping, kept_upsertContact; [apply holds_upkeep, ruled_minor|]. intros d t l ids E (t0 & E0 & H). rewrite E in E0. injection E0 as <-.
    eexists. cbn. rewrite lookup_insert_eq. split; [done|exact H]. }
  intros ct. apply kept_bind.
  { apply kept_wrapping. unfold upsertConversation. kept. apply kept_ruled.
    intros t x t'. destruct (chat_ids t) as [|i ids]; [done|]. destruct (existsb (of_pair ch ct) _); [done|].
    destruct (existsb (fun x => String.eqb (cv_id x) i) (convos t)); [done|]. by intros [= _ <-]. }
  intros convo. apply kept_bind.
  { apply kept_wrapping, kept_ruled. intros t x t'. destruct (chat_ids t); [done|]. destruct (_ && _); [|done]. destruct (existsb _ _); [done|]. by intros [= _ <-]. }
  intros id. apply kept_bind; [apply kept_ret|]. intros _. cbv zeta. apply kept_bind; [|intros _; apply kept_ret].
  apply kept_wrapping, kept_ruled. intros t x t'. destruct (pg_text _ _); [|done]. by intros [= _ <-].
Qed.
(** one of these rules matches the message and hands it over *)
Definition hands_off (rows : list rule_row) : Prop :=
  exists r, r ∈ rows /\ Contains (lower_text (IM_Body msg)) (lower_text (ru_value r)) = true /\ ru_action r = "handoff".
Lemma active_ruled t t' : rules t = rules t' -> active_rules t = active_rules t'.
Proof. unfold active_rules. by intros ->. Qed.

Section answered.
Context (convo ct id : string) (t0 : chat_tables) (Hr0 : rules t0 = rules0).
Let P d := holds (stored convo ct id) d /\ holds ruled d.
Lemma stored_upkeep : upkeep s P.
Proof.
  pose proof (holds_upkeep _ (stored_minor convo ct id)) as [H1 H2 H3 H4 H5 H6]. pose proof (holds_upkeep _ ruled_minor) as [G1 G2 G3 G4 G5 G6].
  unfold P. split; intros; split; naive_solver.
Qed.
Lemma action_hands c action payload : yields c P (runAction s convo action payload now) (fun _ d => action = "handoff" /\ holds (handed convo) d).
Proof.
  eapply yields_conseq with (P := holds (stored convo ct id)); [|by intros d []|intros a d H; exact H].
  unfold runAction. cbv zeta. apply yields_if; intros _.
  - eapply yields_then with (R := fun _ _ => False); [|by intros x w _]. eapply yields_conseq; [apply holds_cstmt with (Y := fun _ _ => False)|done|].
    + intros t a t' _. by destruct (chat_ids t).
    + by intros a d (t & _ & []).
  - apply yields_if; intros Ha; [apply String.eqb_eq in Ha|apply yields_throw].
    eapply yields_conseq; [apply holds_cstmt with (Y := fun _ => handed convo)|done|by intros a d H].
    intros t a t' (_ & x & Hx & (H1 & _) & _) [= _ <-].
    exists (handed_convo x). split; [|done]. cbn. apply list_elem_of_In, in_map_iff. exists x. rewrite H1, String.eqb_refl. split; [done|]. by apply list_elem_of_In.
Qed.
Lemma rules_hand c rows : yields c P (try_rules s convo (lower_text (IM_Body msg)) now rows) (fun b d => b = true -> hands_off rows /\ holds (handed convo) d).
Proof.
  assert (forall r rows, hands_off rows -> hands_off (r :: rows)) as Hlater by (intros r l (x & Hx & H); exists x; split; [by right|done]).
  induction rows as [|r rows IH]; cbn [try_rules]; [by apply yields_ret|].
  assert (yields c P (try_rules s convo (lower_text (IM_Body msg)) now rows) (fun b d => b = true -> hands_off (r :: rows) /\ holds (handed convo) d)) as IH'.
  { eapply yields_conseq; [exact IH|done|]. intros b d H Hb. destruct (H Hb). auto. }
  apply yields_if; intros Hm; [exact IH'|]. apply negb_false_iff in Hm.
  eapply yields_attempt_bind; [apply kept_action, stored_upkeep|apply action_hands| |intros e; exact IH']. intros x. cbv beta iota.
  eapply yields_conseq; [apply (t_pure c (holds (handed convo)) (ru_action r = "handoff"))|by intros d [? ?]|intros b d H; exact H]. intros Ha.
  apply yields_kept_bind; [|intros _; apply yields_ret; intros d Hd _; split; [exists r; split; [by left|done]|done]].
  apply kept_ignore. eapply kept_event, (holds_upkeep _ (handed_minor convo)).
Qed.
Lemma TryRun_hands c : yields c P (TryRun s convo (IM_Body msg) now) (fun b d => b = true -> hands_off (active_rules t0) /\ holds (handed convo) d).
Proof.
  unfold TryRun. apply yields_kept_bind; [apply kept_attempt; eapply kept_Require, stored_upkeep|]. intros [[]|e]; [|by apply yields_ret].
  apply yields_kept_bind; [eapply kept_quota, stored_upkeep|]. intros [[ok x] limit]. apply yields_if; intros _; [by apply yields_ret|].
  apply yields_kept_bind; [apply kept_open|]. intros _.
  eapply yields_attempt_bind with (R := fun rows d => P d /\ holds (fun _ => rows = active_rules t0) d); [apply kept_cread| |intros rows|].
  - eapply yields_conseq; [apply (yields_and c P (holds ruled)); [apply yields_keeps, kept_cread|]| |].
    + apply holds_cstmt with (Y := fun rows _ => rows = active_rules t0). intros t a t' Hr [= <- _]. apply active_ruled. by rewrite Hr0.
    + intros d Hd. split; [done|apply Hd].
    + by intros a d [H1 H2].
  - eapply yields_conseq; [apply (t_pure c P (rows = active_rules t0))|by intros d [? (t & _ & ?)]|intros b d H; exact H]. intros ->. apply rules_hand.
  - intros e. apply yields_if; intros _; [by apply yields_ret|apply yields_throw].
Qed.
Definition ai_job : job := InboundAI (cf_inline cf) s convo id (IM_Type msg).
Definition queued (d : inbound_db) : Prop := ai_job ∈ in_jobs d.
Lemma queued_upkeep : upkeep s queued.
Proof. split; try done. intros d j Hd. unfold queued. cbn. apply elem_of_app. by left. Qed.
Definition answered (d : inbound_db) : Prop := hands_off (active_rules t0) /\ holds (handed convo) d \/ queued d.
Lemma answered_upkeep : upkeep s answered.
Proof.
  pose proof (holds_upkeep _ (handed_minor convo)) as [H1 H2 H3 H4 H5 H6]. destruct queued_upkeep as [G1 G2 G3 G4 G5 G6].
  unfold answered. split; intros; match goal with H : _ \/ _ |- _ => destruct H as [[? ?]|?]; [left; split|right]; eauto end.
Qed.
Lemma enqueue_queues : s <> "" -> convo <> "" -> id <> "" ->
  triple true (fun _ => True) (enqueueInboundAI cf s convo id (IM_Type msg)) (fun _ => queued).
Proof.
  intros Hs%String.eqb_neq Hc%String.eqb_neq Hi%String.eqb_neq. unfold enqueueInboundAI. apply t_if; intros Hinline.
  - apply t_mem. intros d _. unfold queued, ai_job. rewrite Hinline. cbn. apply elem_of_app. right. by left.
  - unfold publishJobWithRetry, publishJobMaxAttempts. cbn [publish_attempts]. unfold PublishInboundJob. rewrite Hs, Hc, Hi. cbn [orb].
    eapply t_bind with (R := fun r d => r = Ok (Ok tt) /\ queued d); [|intros x|by intros e d [? _]].
    + apply t_attempt, t_stmt. intros d _. unfold stmt_post. split; [|done]. split; [done|]. unfold queued, ai_job. rewrite Hinline. cbn. apply elem_of_app. right. by left.
    + intros w Hw [[= ->] Hq]. cbn. done.
Qed.
Lemma hand_on_answers : s <> "" -> convo <> "" -> id <> "" -> triple true P (hand_on cf s convo id msg now) (fun _ => answered).
Proof.
  intros Hs Hc Hi. unfold hand_on. eapply t_bind with (R := fun r d => P d /\ exists b, r = Ok b /\ (b = true -> hands_off (active_rules t0) /\ holds (handed convo) d)).
  - unfold dropping. eapply t_bind with (R := fun r d => P d /\ exists x, r = Ok x /\ (x = Ok true -> hands_off (active_rules t0) /\ holds (handed convo) d)).
    + apply t_attempt. eapply t_conseq; [apply (t_conj true _ _ _ _ _ (kept_TryRun s P stored_upkeep convo (IM_Body msg) now true) (TryRun_hands true))|by split|].
      intros r d [H1 H2]. split; [done|]. exists r. split; [done|]. intros ->. exact (H2 true eq_refl eq_refl).
    + intros x. apply t_ret. intros d [Hd (y & [= ->] & H)]. split; [done|]. destruct y as [b|e]; [exists b|exists false]; naive_solver.
    + naive_solver.
  - intros [].
    + apply t_ret. intros d [_ (b & [= <-] & H)]. left. by apply H.
    + eapply t_conseq; [by apply enqueue_queues|done|]. intros r d H. by right.
  - naive_solver.
Qed.
End answered.
End taken.

Section whole.
Context {HG : Gcm} {WJ : WebhookJson} {PT : PgText} {CT : ChatText} (cf : intake_config) (s ch : string) (msg : InboundMessage) (now : Z).
Context (d0 : inbound_db) (t0 : chat_tables) (E0 : in_chats d0 !! s = Some t0).
Definition taken (c : bool) (d : inbound_db) : Prop := exists convo ct id,
  holds s (sender cf msg ct) d /\ holds s (stored ch msg now (map key_of (convos t0)) (messages t0) convo ct id) d /\
  (c = true -> convo <> "" -> id <> "" -> answered cf s msg convo id t0 d).
Definition ingest : inbound bool := ingestResolved cf s ch msg (fun _ => ret tt) false now.

Lemma open_named c (P : inbound_db -> Prop) : yields c P (open_chat s) (fun _ d => P d /\ s <> "").
Proof. unfold open_chat. destruct (ValidateTenantSchemaName s) eqn:E; [apply yields_throw|]. apply yields_ret. intros d Hd. split; [done|]. by intros ->. Qed.
Lemma dup_check c : triple c (eq d0) (cread s (known_message (ExternalID msg)))
  (fun r d => d = d0 /\ forall b, r = Ok b -> b = known_message (ExternalID msg) t0).
Proof.
  apply t_cstmt. intros d <-. split; [done|]. intros t a t' E [= <- <-]. cbv zeta. rewrite set_chats_same by done. rewrite E0 in E. injection E as <-.
  split; [split; [done|]; by intros b [= <-]|done].
Qed.
Lemma known_ignored : known_message (ExternalID msg) t0 = true -> triple false (eq d0) ingest (fun r d => d = d0 /\ r <> Ok true).
Proof.
  intros Hk. unfold ingest, ingestResolved, under. eapply t_bind with (R := fun _ => eq d0).
  - apply kept_wrapping, kept_open.
  - intros _. eapply t_bind with (R := fun r d => d = d0 /\ forall b, r = Ok b -> b = true); [apply wrapping_triple; eapply t_conseq; [apply dup_check|done|]|..].
    + rewrite Hk. intros [b|e] d [-> H]; split; [done|exact H|done..].
    + intros b. eapply t_conseq; [apply (t_pure false (eq d0) (b = true))|intros d [-> H]; split; [done|by apply H]|intros r d H; exact H].
      intros ->. by apply t_ret.
    + by intros e d [-> _].
  - by intros e d <-.
Qed.
Lemma ingest_yields c : yields c (eq d0) ingest (fun b d => if b then taken c d else known_message (ExternalID msg) t0 = true).
Proof.
  unfold ingest, ingestResolved, under. eapply yields_then with (R := fun _ d => d0 = d /\ s <> ""); [apply yields_wrapping, open_named|].
  intros x. eapply yields_conseq; [apply (t_pure c (eq d0) (s <> ""))|done|intros b d H; exact H]. intros Hs.
  eapply yields_then with (R := fun b d => d = d0 /\ b = known_message (ExternalID msg) t0).
  { apply yields_wrapping. eapply t_conseq; [apply dup_check|done|]. intros r d [-> H] b ->. split; [done|by apply H]. }
  intros [|]; [by apply yields_ret; intros d [_ <-]|].
  eapply yields_conseq; [|intros d Hd; exact (eq_sym (proj1 Hd))|intros b d H; exact H].
  eapply yields_then.
  { eapply yields_conseq; [eapply (yields_and c _ (holds s (ruled (rules t0)))); [apply (store_message_stored cf s ch msg now (map key_of (convos t0)) (messages t0))|apply yields_keeps, store_ruled]|
      by intros d <-; split; exists t0|intros a d H; exact H]. }
  intros [[convo ct] id]. cbv beta iota.
  set (P d := (holds s (sender cf msg ct) d /\ holds s (stored ch msg now (map key_of (convos t0)) (messages t0) convo ct id) d) /\ holds s (ruled (rules t0)) d).
  assert (upkeep s P) as HU.
  { pose proof (holds_upkeep s _ (sender_minor cf msg ct)) as [H1 H2 H3 H4 H5 H6]. pose proof (holds_upkeep s _ (ruled_minor (rules t0))) as [R1 R2 R3 R4 R5 R6].
    pose proof (holds_upkeep s _ (stored_minor ch msg now (map key_of (convos t0)) (messages t0) convo ct id)) as [G1 G2 G3 G4 G5 G6].
    unfold P. split; intros; split; naive_solver. }
  set (A d := c = true -> convo <> "" -> id <> "" -> answered cf s msg convo id t0 d).
  assert (upkeep s (fun d => P d /\ A d)) as HU2.
  { destruct HU as [H1 H2 H3 H4 H5 H6]. pose proof (answered_upkeep cf s msg convo id t0) as [G1 G2 G3 G4 G5 G6]. unfold A. split; intros; split; naive_solver. }
  eapply t_bind with (R := fun _ d => P d /\ A d); [| |done].
  - intros w Hw HP. pose proof (kept_hand_on cf s P HU convo id msg now c w Hw HP) as H1.
    assert (triple c P (hand_on cf s convo id msg now) (fun _ => A)) as H2.
    { destruct c; [|eapply t_conseq; [apply (kept_hand_on cf s P HU)|done|by intros r d _]].
      destruct (decide (convo = "")) as [Ec|Hc]; [eapply t_conseq; [apply (kept_hand_on cf s P HU)|done|by intros r d _ _ ?]|].
      destruct (decide (id = "")) as [Ei|Hi]; [eapply t_conseq; [apply (kept_hand_on cf s P HU)|done|by intros r d _ _ _ ?]|].
      eapply t_conseq; [by apply (hand_on_answers cf s ch msg now (map key_of (convos t0)) (messages t0) (rules t0) convo ct id t0)|by intros d [[_ H] ?]|]. by intros r d H _ _ _. }
    specialize (H2 w Hw HP). destruct (hand_on _ _ _ _ _ _ w). by destruct H1, H2.
  - intros y. apply yields_kept_bind; [by apply kept_follow_up|]. intros _. apply yields_ret. intros d [[[H1 H2] _] H3]. by exists convo, ct, id.
Qed.
End whole.

(** C30. Taking a message in.  A message whose external id the tenant has already
    changes nothing at all, whatever fails.  When the answer is that it is new:
    the tenant's messages are those before and this one, in the conversation of
    the channel with its sender's contact, which is open, shows its preview and
    has one more unread message than before; and if nothing failed the AI's job
    for it was published, unless one of the tenant's active rules matches this
    message and hands the conversation over, and it was handed over. *)
Theorem message_taken_in {HG : Gcm} {WJ : WebhookJson} {PT : PgText} {CT : ChatText} cf s ch msg now d0 t0 faults :
  in_chats d0 !! s = Some t0 ->
  let '(r, w') := ingestResolved cf s ch msg (fun _ => ret tt) false now (Build_pg d0 None faults) in
  (known_message (ExternalID msg) t0 = true -> p_db w' = d0 /\ r <> Ok true) /\
  (r = Ok false -> known_message (ExternalID msg) t0 = true) /\
  (r = Ok true -> exists t' convo ct id, in_chats (p_db w') !! s = Some t' /\ sender cf msg ct t' /\
     stored ch msg now (map key_of (convos t0)) (messages t0) convo ct id t' /\
     (faults = [] -> convo <> "" -> id <> "" -> hands_off msg (active_rules t0) /\ handed convo t' \/ ai_job cf s msg convo id ∈ in_jobs (p_db w'))).
Proof.
  intros E0. pose proof (fun H => run_triple _ d0 faults _ _ (known_ignored cf s ch msg now d0 t0 E0 H) eq_refl) as H1.
  set (c := match faults with [] => true | _ => false end). assert (idle c (Build_pg d0 None faults)) as Hi by (split; [done|]; unfold c; by destruct faults).
  pose proof (ingest_yields cf s ch msg now d0 t0 E0 c _ Hi eq_refl) as H2. unfold ingest in *.
  destruct (ingestResolved _ _ _ _ _ _ _ _) as [r w']. destruct H2 as [_ H2]. split; [exact H1|]. split; [intros ->; exact (H2 false eq_refl)|]. intros ->.
  destruct (H2 true eq_refl) as (convo & ct & id & (t' & E & Hs) & (t'' & E' & Hst) & Ha). rewrite E in E'. injection E' as <-. exists t', convo, ct, id.
  split_and!; [done..|]. intros -> Hc Hid. destruct (Ha eq_refl Hc Hid) as [[Hr (t2 & E2 & H)]|H]; [|by right]. left. split; [done|]. rewrite E in E2. by injection E2 as <-.
Qed.
