(* ===== verification/IntakeSample.v ===== *)
(** * Two shops with a WhatsApp number each

    Witnesses, and what the model shows about signatures, routing, previews and
    workflow replies. *)
From S2P Require Import Prelude GoStrings Sha256 AdminSession PgTx Triples Zoom Pii Billing StockLedger ChatTables Inbound Intake IntakeFrames IntakeSafe IntakeHistory IntakeExact IntakeTaken.

Open Scope string_scope.
Open Scope Z_scope.

Definition text_value (number display from id body : string) : webhookValue :=
  {| Metadata := {| DisplayPhoneNumber := display; PhoneNumberID := number |}; Contacts := [];
     Messages := if String.eqb id "" then [] else
       [{| M_ID := id; M_From := from; Timestamp := "1"; M_Type := "text"; M_Text := Some body; M_Image := None; M_Audio := None;
           M_Video := None; M_Document := None; M_Location := None |}] |}.
(** three bodies *)
Definition sample_json : WebhookJson := {|
  decode_webhook := fun b => match List.find (fun x => String.eqb (fst x) b)
    [("own", {| Object_ := "whatsapp_business_account"; Entry := [[text_value "111" "62811" "62855" "wamid.1" "halo"]] |});
     ("mixed", {| Object_ := "whatsapp_business_account"; Entry := [[text_value "111" "62811" "" "" ""]; [text_value "222" "62822" "62855" "wamid.2" "harga?"]] |});
     ("claim", {| Object_ := "whatsapp_business_account"; Entry := [[text_value "999" "62833" "62855" "wamid.3" "halo"]] |})]
    with Some (_, p) => Some p | None => None end;
  marshal_message := fun m => M_ID m |}.
Definition sample_pg : PgText := {| pg_text := fun _ _ => true; pg_uuid := Some; pg_jsonb := fun _ => true |}.
Definition sample_chat : ChatText := {| lower_text := ToLower; normalize_name := fun s => s; go_quote := quoted; reply_text := fun s => s |}.
#[local] Existing Instances sample_gcm sample_json sample_pg sample_chat.
Definition sample_config : intake_config := {| cf_key := ""; cf_inline := false; cf_redis := true |}.
Definition shop_chat (channel phone : string) (number : option string) (secret : string) (ids : list string) : chat_tables :=
  {| channels := [{| wc_id := channel; wc_phone := phone; wc_meta := number; wc_secret := Some secret |}]; contacts := []; convos := []; messages := [];
     rules := []; leads := []; summaries := []; pii_columns := false; chat_ids := ids |}.
Definition registered (schema channel : string) : inbound_row := {| in_schema := schema; in_channel := channel; in_display := "" |}.
Definition two_shops : inbound_db := {|
  in_map := {[ "111" := registered "ta" "ca"; "222" := registered "tb" "cb" ]};
  in_companies := [{| co_tenant := "a"; co_schema := "ta"; co_live := true |}; {| co_tenant := "b"; co_schema := "tb"; co_live := true |};
                   {| co_tenant := "c"; co_schema := "tc"; co_live := true |}];
  in_chats := {[ "ta" := shop_chat "ca" "+62 811" (Some "111") "key-a" ["a1"; "a2"; "a3"; "a4"];
                 "tb" := shop_chat "cb" "62822" (Some "222") "key-b" ["b1"; "b2"; "b3"; "b4"];
                 "tc" := shop_chat "cc" "62833" None "key-c" [] ]};
  in_billing := {| schemas := ∅; webhook_map := [] |};
  contact_cache := ∅; lead_cache := ∅; in_inflight := ∅; in_random := []; in_jobs := [] |}.
Definition signed_with (secret body : string) : string := "sha256=" ++ hex_encode (hmac_sha256 secret body).
Definition clock : Z := 1000.

Lemma new_chat_sound channel phone number secret ids : sound (core_of (shop_chat channel phone number secret ids)).
Proof. split; cbn; constructor. Qed.
Lemma two_shops_sound : every (fun _ => sound) two_shops.
Proof.
  intros s t. cbn. rewrite !lookup_insert_Some, lookup_singleton_Some. intros [[_ <-]|[_ [[_ <-]|[_ [_ <-]]]]]; apply new_chat_sound.
Qed.
Definition sample_events : list chat_event :=
  [{| ev_call := Deliver (Ok "own") (signed_with "key-a" "own") clock; ev_faults := []; ev_random := [] |};
   {| ev_call := Deliver (Ok "own") (signed_with "key-a" "own") clock; ev_faults := [Fine; FailAfter]; ev_random := [] |};
   {| ev_call := Unregister "ta" "ca"; ev_faults := []; ev_random := [] |}].
Lemma intake_exact_witness : every (fun _ => sound) (run_events sample_config two_shops sample_events) /\
  forall t m, in_chats (run_events sample_config two_shops sample_events) !! "ta" = Some t -> m ∈ messages t ->
    traced sample_config two_shops sample_events "ta" (sides (map key_of (convos t))) m.
Proof.
  destruct (intake_exact sample_config two_shops sample_events two_shops_sound) as [H1 H2]. split; [exact H1|]. intros t m E Hm.
  destruct (H2 "ta" t m E Hm) as [(t0 & E0 & Hm0)|H]; [|exact H]. injection E0 as <-. destruct (not_elem_of_nil m Hm0).
Defined.

Definition sample_message : InboundMessage :=
  {| ExternalID := "wamid.2"; FromPhone := "62855"; ToPhoneNumberID := "222"; ToDisplayPhone := "62822"; FromDisplayName := ""; IM_Type := "text";
     IM_Body := "harga?"; Raw := "wamid.2" |}.
Definition sample_ingest := ingestResolved sample_config "tb" "cb" sample_message (fun _ => ret tt) false clock (Build_pg two_shops None []).
Lemma sample_ingest_new : fst sample_ingest = Ok true.
Proof. vm_compute. reflexivity. Qed.
Lemma message_taken_in_witness : exists t' convo ct id, in_chats (p_db (snd sample_ingest)) !! "tb" = Some t' /\ sender sample_config sample_message ct t' /\
  stored "cb" sample_message clock [] [] convo ct id t'.
Proof.
  pose proof (message_taken_in sample_config "tb" "cb" sample_message clock two_shops _ [] eq_refl) as H. fold sample_ingest in H.
  pose proof sample_ingest_new as Hok. destruct sample_ingest as [r w']. destruct H as (_ & _ & H). destruct (H Hok) as (t' & convo & ct & id & H1 & H2 & H3 & _).
  exists t', convo, ct, id. split_and!; [exact H1|exact H2|exact H3].
Defined.

(** ** What the model shows *)
(** shop A's secret signs a body with a message for shop B's number: it is taken
    in, for the signature is checked with the secret of the first number only *)
Lemma one_shop_writes_to_another :
  let '(r, w') := receiveWebhook sample_config (Ok "mixed") (signed_with "key-a" "mixed") clock (Build_pg two_shops None []) in
  r = Ok 200 /\ (map ms_external ∘ messages) <$> in_chats (p_db w') !! "tb" = Some [Some "wamid.2"].
Proof. vm_compute. split; reflexivity. Qed.
(** an unsigned body that names shop C's phone gives it any number, and registers it *)
Lemma unsigned_body_registers_number :
  let '(r, w') := receiveWebhook sample_config (Ok "claim") "nonsense" clock (Build_pg two_shops None []) in
  r = Ok 401 /\ in_map (p_db w') !! "999" = Some {| in_schema := "tc"; in_channel := "cc"; in_display := "62833" |} /\
  (map wc_meta ∘ channels) <$> in_chats (p_db w') !! "tc" = Some [Some "999"].
Proof. vm_compute. split_and!; reflexivity. Qed.
(** a rule's reply is never sent: its row has no author *)
Lemma reply_never_sent schema convo payload now w : is_ok (fst (runAction schema convo "send_reply" payload now w)) = false.
Proof.
  unfold runAction. cbn [String.eqb Ascii.eqb Bool.eqb]. cbv zeta. unfold bind, insert_message, cinsert, cstmt, stmt, on_chat.
  destruct (p_tx w) as [[d []]|]; destruct (outcome w); cbn; try done; destruct (in_chats _ !! schema) as [t|]; try done; by destruct (chat_ids t).
Qed.
(** a caption cut at 270 bytes inside a rune stays cut *)
Definition long_caption : string := rev_string (bytes (repeat 97%N 269)) ++ bytes [0xC3; 0xA9; 98]%N.
Lemma preview_cut_inside_a_rune :
  let p := TruncateUTF8 (InboundMessagePreview "image" long_caption) 280 in
  p = emoji [0x93; 0xB7]%N ++ bytes (repeat 97%N 269) ++ bytes [0xC3]%N.
Proof. vm_compute. reflexivity. Qed.
